(* ===== verification/_CoqProject ===== *)
-Q . S2P
Prelude.v
Triples.v
GoStrings.v
Snapshot.v
RoutePath.v
Evaluator.v
GrantedNodes.v
GateProps.v
Base64.v
GoConv.v
Secrets.v
Tokens.v
TokenProps.v
Keyring.v
LocalTokens.v
Sdk.v
Shared.v
Gate.v
SnapshotLoad.v
GateManager.v
GateDecisionProps.v
AuthStore.v
TokenIssuer.v
IssuerProps.v
AuthFlows.v
AuthFlowsProps.v
AuthTheorems.v
Credentials.v
Shares.v
AuditLog.v
AuditProps.v
AdminGuard.v
ControlStore.v
Authorize.v
Signin.v
SigninProps.v
SecondFactor.v
PlatformAuth.v
OperatorAdmin.v
Authn.v
Doors.v
ConsoleMoves.v
ConsoleProps.v
OperatorProps.v
SharesProps.v
SecondFactorProps.v
DoorsProps.v
GrantChange.v
GrantChangeProps.v
GrantAdmin.v
GrantAdminProps.v
ScopeTree.v
TreeProps.v
Parity.v
SyncFeed.v
FeedProps.v
ScopeStore.v
ScopeSync.v
ScopeAdmin.v
ScopeProps.v
SyncProps.v
UpsertProps.v
ScopeTheorems.v
ScopeSamples.v
Db.v
Members.v
MemberStore.v
MemberAdmin.v
MemberProps.v
MemberKeeps.v
MemberTheorems.v
MemberConfined.v
MemberSamples.v
Catalog.v
Roles.v
RoleAdmin.v
RoleProps.v
CatalogProps.v
CatalogTheorems.v
RoleSamples.v
