(* ===== verification/Prelude.v ===== *)
(** * Anubis, modelled

    Anubis is an identity provider and authorization service: it signs people
    in, issues access and refresh tokens, answers at the edge of other
    applications whether a request may pass, and administers who may reach
    what.  This library translates the Go sources under src/ that carry its own
    logic into executable definitions and proves what they promise.  A
    definition bears the name of the Go function it translates wherever the name
    is free; each file opens with the source files it holds.

    ** The parts and how they interact

    The edge.  A reverse proxy asks internal/gate about every request.  The
    path is put into one canonical form and matched against the routes
    ([RoutePath]); the bearer token is verified ([Tokens]); the decision engine
    answers from a frozen per-tenant catalogue ([Snapshot], [Evaluator],
    [GrantedNodes]), which is assembled from database rows ([SnapshotLoad]) and
    kept fresh by the snapshot manager, which also announces revocations
    ([GateManager]).  [Gate] is the decision itself with its HTTP and Envoy
    transports; it sees the manager only through the interface [SnapshotSource].

    The tokens.  [Tokens] holds the PASETO v4.public and JWS codecs and the
    front that tells them apart; [Base64] the encoding both rest on; [Keyring]
    the signing and sealing keys; [LocalTokens] sealed state tokens and one-time
    codes; [Sdk] the client library that verifies tokens against published keys.
    What the codecs need of Ed25519, AES-GCM and JSON is stated as classes of
    operations with their laws ([TokenPrims]/[TokenLaws] and the AEAD interface
    of [Keyring]), each with a toy instance that satisfies the laws.

    Sessions.  [AuthStore] is the session and refresh-token tables with the
    statements over them; [TokenIssuer] mints access tokens and refresh-token
    generations; [AuthFlows] is establishing a session, refresh, reuse
    detection, revocation, introspection and the three ways to sign out.

    Administration.  [AdminGuard] decides who may administer; [Authorize] is the
    authorize call with step-up and its audit trail; [GrantChange] plans a bulk
    change of grants and [GrantAdmin] applies and undoes it on the grants tables.

    Signing in.  [GoConv] is what the sources use of strconv, encoding and
    uuid; [Secrets] the password hashes, legacy hashes and random secrets;
    [Credentials] the tenants' credentials and their codes; [Signin] signing in
    with a password, and [SecondFactor] the second factors, device keys and
    enrolment that may follow.  [Doors] are the other ways in: access links,
    client credentials and links by mail; [Shares] the sharing of one record that
    a link opens.  [Authn] decides who a request speaks for.

    Operators.  [ControlStore] is the control tables; [PlatformAuth] signs
    operators in and keeps their console sessions; [OperatorAdmin] manages
    operators and their keys; [ConsoleMoves] is every step of that console as one
    relation.  [AuditLog] is the hash-chained log, its anchors and its queue.

    Structures.  [ScopeTree] is the tables of a tenant's structures with the
    database's functions, triggers and constraints; [SyncFeed] what the handlers
    compute before the database is asked; [ScopeStore] and [ScopeSync] the
    repositories and the reconciler of feeds; [ScopeAdmin] the handlers.
    [Parity] is the database's own authorize() beside the queries the gate's
    snapshot is read with.

    Memberships.  [Db] is internal/platform/database for any tables: statements,
    transactions that join, roll back and run the triggers that wait for their
    end, with the rules to reason about them.  [Members] is the tables of grants
    and memberships with the functions, triggers and constraints on them;
    [MemberStore] the repositories and their queries; [MemberAdmin] the handlers.

    Roles and catalogues.  An application declares its permissions, roles and
    routes in one document.  [Catalog] reads it: encoding/csv, the two sheets a
    spreadsheet may be, and the validation (internal/authz/app/catalog).
    [Roles] holds the walks over roles and their parents ([RoleGraph]), the rows
    with the statements over them and role_recompute_effective, and the
    repositories ([RoleStore]: authz/adapter/postgres and tenancy/adapter/postgres).
    [RoleAdmin] is the handlers: roles by hand, a document applied for good or
    dry; and, in [CatalogSync], the feeds documents come from
    (app/catalog/sync_interactor.go), whose runs call the same apply.

    [Prelude] and [GoStrings] are shared: results and effects with their
    inversion lemmas, time and machine integers, Go's string functions.
    [Shared] is the vocabulary of internal/shared: errors, principals, the
    caller's address, identifier grammars.

    ** Conventions

    A Go pair (T, error) is a [result]; a handler over a store is an [Eff], which
    leaves a store whether it fails or not; a transaction is [within_tx].  The
    database is the store of a handler together with an environment that says
    which of its calls fail, what its clock reads and which ids it generates, so
    a theorem quantified over environments covers every pattern of failure.
    Clock readings are arguments, one per reading.  A time is a count of
    nanoseconds, an int32 or int64 a [Z] with its wrap-around written out, a
    string a sequence of bytes, a map a [gmap] except where Go's order of
    iteration or a pointer's identity matters.  A slice read out of bounds is
    [None]; the theorems show it does not happen.

    ** What the theorems show

    - [GateProps]: accepted paths are canonical, decoded once, and never climb
      above the root; pattern matching is exact; the interned parent walk stops
      and decides the hierarchy of the rows; the engine allows exactly what the
      declarative rules ([authorizes]) allow; the listing of places agrees with
      it place by place.
    - [SnapshotLoad]: on the catalogue assembled from rows, the engine decides
      what the rows say.  [GateManager]: snapshots served are of bounded age, a
      load announces what it revoked, coalescing loses nothing.
      [GateDecisionProps]: when a request passes, and that both transports agree.
    - [TokenProps], [Keyring], [LocalTokens], [Sdk]: sign/verify and seal/open
      round trips, authenticity, key rotation, the one-time-code window, the
      SDK's agreement with the issuer, the refetch budget of its key cache.
      [Shared]: the caller's address cannot be forged.
    - [IssuerProps], [AuthFlowsProps], [AuthTheorems]: over every history of
      requests and failures, a refresh token rotates at most once, a replay kills
      its family, a family has one live token, a signed-out session stays dead.
    - [AdminGuard], [Authorize]: exactly who may administer and who is allowed,
      and what is audited.  [GrantChangeProps], [GrantAdminProps]: what each kind
      of bulk change does to what a grant reaches, that the plan accounts for
      every grant, that applying is what was previewed, that undo restores.
    - [SigninProps], [SecondFactorProps], [DoorsProps], [SharesProps]: exactly who
      signs in and what a refusal costs; a second factor, a mailed link and a
      one-time code work once; a link's token reaches one record and no longer
      than its share; a share gives no more than its giver holds.
    - [OperatorProps], [ConsoleProps]: an authenticated request is whom it says; a
      disabled or reset operator is cut off at the next call; console tokens
      rotate once, a replay ends the family, a session ends when it must.
      [AuditProps]: a log that verifies against its anchors has not been
      rewritten, and what is written verifies.
    - [TreeProps], [ScopeProps]: whatever is asked of the structures and whatever
      fails, the closure is what the parents say and every rule of the tables
      holds.  [ScopeTheorems]: exactly when a move is made; a scheduled feed waits
      its turn.  [FeedProps], [SyncProps], [UpsertProps]: feeds come parents
      first, write only what is theirs, leave the structure as they have it, and
      a bulk upsert is all or nothing.  [ScopeSamples] runs them, and shows what
      the code does that its comments do not say.
    - [MemberProps], [MemberKeeps]: the rules the tables of grants and
      memberships keep through every function, statement and handler;
      with [MemberTheorems]: a membership's contents become what
      was asked for and its members' grants follow at once; who is put in one
      has exactly one live grant per entry, and who leaves loses just those.
      [MemberConfined]: none of it writes another tenant's rows.
      [MemberSamples] runs them, and shows where the comments say otherwise.
    - [RoleProps], [CatalogProps], [CatalogTheorems]: whatever is asked of roles,
      catalogues and feeds, the rules of their tables hold; the walk over a role's
      parents ends whatever loops there are and is the closure; while no document
      is applied every role is stored with exactly what it and those above it
      name; a document applied is what its application has and touches nothing
      else; a feed's run is an apply or nothing, and is written down however it
      ends.  [RoleSamples] runs them, and shows an editor reaching another tenant's
      role, what is stored of roles going stale, and more.
    - [Parity]: the engine at the edge and authorize() answer alike.

    ** Bounds and fuel

    Recursion follows the data.  The parent walk of [Snapshot] recurses on the
    steps it has left, as the loop it translates does ([CoveredBy_exact]: it
    answers exactly, on a cyclic parent array too); trimming and UTF-8 decoding
    in [GoStrings] on the length of the string.
    Decimal and base-32 conversion in [GoConv] recurse on the digits a 64-bit
    integer and a quintet can have.  The order of a feed ([SyncFeed]) has fuel for
    two turns per row and one more, and [feed_parents_first] shows it is enough.
    The pages of a structure ([ScopeAdmin.eachPage]) take their number as an
    argument and answer [Hung] past it, which no code answers: the theorems hold
    for every number.
    WITH RECURSIVE over roles ([RoleGraph.ancestors], [RoleGraph.down]) has fuel
    for a round per edge and two more: [recompute_is_the_closure] shows that no row
    is left to work on.  A record of a spreadsheet has fuel for the characters and
    lines that are left ([Csv.record_fuel]: more changes nothing), and the rows of
    a sheet for its lines, as reading one takes one ([Csv.Read_shorter]).

    ** Not modelled

    Generated code (src/gen, every rgen directory), the SQL engine (a statement
    is modelled as the change of rows it makes, one at a time: statements of
    concurrent transactions interleave only between handlers), HTTP and gRPC
    plumbing, page templates and the user interface, metrics and logs, command
    lines and configuration.  A uuid is read in the one form the console and the
    API print, not in PostgreSQL's other spellings; the collation names are
    ordered by and what ILIKE finds are parameters.  Of the structures the plain
    listings, the overview's count and the sampled strict dry run are left out;
    of the grants and memberships, the roles, people, places and structures their
    foreign keys name are a parameter that stands for those tables.  Of a
    catalogue document the decoding of JSON, what an interval prints as, what
    jsonb makes of a text and which of several roles DISTINCT ON keeps are
    parameters, a report is a record and not its text, an error in reading a
    spreadsheet has no wrapped one, and the catalogue's version, which routes and
    applications bump by trigger, is left out.  The reports on who has what, the
    administration of tenants and pages, registration, recovery and
    retention, and the import of workbooks are not modelled.  PROJECT.json lists each part with its status. *)

From Stdlib Require Import ZArith Lia Bool Ascii String.
From stdpp Require Import base gmap strings list sorting.

(** ** Results *)

(** A Go [(T, error)] pair whose error is one of a closed set of values. *)
Inductive result (E A : Type) : Type :=
| Ok (a : A)
| Err (e : E).
Arguments Ok {E A} a.
Arguments Err {E A} e.

#[export] Instance result_ret {E} : MRet (result E) := fun A a => Ok a.
#[export] Instance result_bind {E} : MBind (result E) :=
  fun A B f r => match r with Ok a => f a | Err e => Err e end.

Declare Scope anubis_scope.
Delimit Scope anubis_scope with anubis.
(** [guard! b else e; k]: the early return [if !b { return e }]. *)
Notation "'guard!' b 'else' e ; k" := (if b then k else Err e)
  (at level 100, b at level 99, e at level 99, k at level 200, right associativity)
  : anubis_scope.

(** ** Effects

    A handler that reads and writes a store: it fails or returns, and leaves a
    store either way. *)
Definition Eff (S E A : Type) : Type := S -> result E A * S.

#[export] Instance eff_ret {S E} : MRet (Eff S E) := fun A a s => (Ok a, s).
#[export] Instance eff_bind {S E} : MBind (Eff S E) :=
  fun A B f m s => match m s with (Ok a, s') => f a s' | (Err e, s') => (Err e, s') end.

Definition raise {S E A} (e : E) : Eff S E A := fun s => (Err e, s).
(** The outcome of [m] as a value: [if _, err := m(); err != nil]. *)
Definition attempt {S E F A} (m : Eff S E A) : Eff S F (result E A) :=
  fun s => let '(r, s') := m s in (Ok r, s').
(** [m] with its error replaced. *)
Definition map_err {S E F A} (f : E -> F) (m : Eff S E A) : Eff S F A :=
  fun s => match m s with (Ok a, s') => (Ok a, s') | (Err e, s') => (Err (f e), s') end.
(** TxManager.WithinTx: an error, or a failed commit, leaves the store alone. *)
Definition within_tx {S E A} (commit : option E) (m : Eff S E A) : Eff S E A :=
  fun s => match m s with
           | (Err e, _) => (Err e, s)
           | (Ok a, s') => match commit with None => (Ok a, s') | Some e => (Err e, s) end
           end.
(** A result computed without the store. *)
Definition lift {S E A} (r : result E A) : Eff S E A := fun s => (r, s).

(** *** Inversion of an effect that succeeded *)

Lemma bind_ok {S E A B} (m : Eff S E A) (f : A -> Eff S E B) b s s' :
  (m ≫= f) s = (Ok b, s') -> exists a s1, m s = (Ok a, s1) /\ f a s1 = (Ok b, s').
Proof. unfold mbind, eff_bind. destruct (m s) as [[a|] s1]; [|done]. eauto. Qed.

Lemma bind_err {S E A B} (m : Eff S E A) (f : A -> Eff S E B) e s s' :
  (m ≫= f) s = (Err e, s') -> m s = (Err e, s') \/ exists a s1, m s = (Ok a, s1) /\ f a s1 = (Err e, s').
Proof. unfold mbind, eff_bind. destruct (m s) as [[a|e'] s1]; [eauto|]. intros [= <- <-]. by left. Qed.

Lemma map_err_ok {S E F A} (g : E -> F) (m : Eff S E A) a s s' : map_err g m s = (Ok a, s') -> m s = (Ok a, s').
Proof. unfold map_err. destruct (m s) as [[]]; [|done]. by intros [= <- <-]. Qed.

Lemma within_tx_ok {S E A} c (m : Eff S E A) a s s' :
  within_tx c m s = (Ok a, s') -> m s = (Ok a, s') /\ c = None.
Proof. unfold within_tx. destruct (m s) as [[]]; [|done]. by destruct c. Qed.

Lemma within_tx_err {S E A} c (m : Eff S E A) e s s' : within_tx c m s = (Err e, s') -> s' = s.
Proof. unfold within_tx. destruct (m s) as [[]]; [destruct c|]; by intros [= _ <-]. Qed.

(** A call whose outcome is looked at. *)
Lemma attempt_bind {S E F A B} (m : Eff S E A) (f : result E A -> Eff S F B) s :
  (attempt m ≫= f) s = f (fst (m s)) (snd (m s)).
Proof. unfold mbind, eff_bind, attempt. by destruct (m s). Qed.

(** ** Automation *)

Create HintDb anubis.

(** Turns boolean tests of the models into propositions. *)
Ltac unbool :=
  repeat match goal with
  | H : (_ && _) = true |- _ => apply andb_true_iff in H; destruct H
  | H : (_ || _) = false |- _ => apply orb_false_iff in H; destruct H
  | H : negb _ = true |- _ => apply negb_true_iff in H
  | H : negb _ = false |- _ => apply negb_false_iff in H
  | H : (_ <? _)%Z = true |- _ => apply Z.ltb_lt in H
  | H : (_ <? _)%Z = false |- _ => apply Z.ltb_ge in H
  | H : (_ <=? _)%Z = true |- _ => apply Z.leb_le in H
  | H : (_ <=? _)%Z = false |- _ => apply Z.leb_gt in H
  | H : (_ =? _)%Z = true |- _ => apply Z.eqb_eq in H
  | H : (_ =? _)%Z = false |- _ => apply Z.eqb_neq in H
  | H : bool_decide _ = true |- _ => apply bool_decide_eq_true in H
  | H : bool_decide _ = false |- _ => apply bool_decide_eq_false in H
  end.

(** Case analysis on the scrutinee of the conclusion's or a hypothesis' match. *)
Ltac split_match :=
  match goal with
  | |- context [match ?x with _ => _ end] => destruct x eqn:?
  end.
Ltac split_match_in H :=
  match type of H with
  | context [match ?x with _ => _ end] => destruct x eqn:?
  end.

(** ** Time

    A [time.Time] is the count of nanoseconds since Go's zero time, so
    [IsZero] is equality with 0; a [time.Duration] is a count of nanoseconds. *)
Abbreviation Time := Z.
Abbreviation Duration := Z.

Definition time_is_zero (t : Time) : bool := (t =? 0)%Z.
(** [t.After(u)] *)
Definition time_after (t u : Time) : bool := (u <? t)%Z.

Definition nanosecond : Duration := 1%Z.
Definition millisecond : Duration := 1000000%Z.
Definition second : Duration := 1000000000%Z.
Definition minute : Duration := (60 * second)%Z.

(** [t.Sub(u)]: the difference saturates at the ends of the int64 range. *)
Definition max_duration : Duration := (2 ^ 63 - 1)%Z.
Definition min_duration : Duration := (- 2 ^ 63)%Z.
Definition time_sub (t u : Time) : Duration :=
  Z.max min_duration (Z.min max_duration (t - u)).

(** [t.Unix()]: whole seconds since 1970, rounded down. *)
Definition unix (t : Time) : Z := (t / second - 62135596800)%Z.
(** [t.Before(u)] *)
Definition time_before (t u : Time) : bool := (t <? u)%Z.

Lemma unix_mono t u : (t <= u)%Z -> (unix t <= unix u)%Z.
Proof. intros H. unfold unix. pose proof (Z.div_le_mono t u second ltac:(done) H). lia. Qed.

Lemma time_sub_exact t u :
  (min_duration <= t - u <= max_duration)%Z -> time_sub t u = (t - u)%Z.
Proof. unfold time_sub. lia. Qed.

Lemma time_sub_le t u d :
  (d < max_duration)%Z -> (time_sub t u <= d)%Z -> (t - u <= d)%Z.
Proof. unfold time_sub, min_duration, max_duration. lia. Qed.

(** ** Machine integers *)

Definition wrap32 (z : Z) : Z := ((z + 2 ^ 31) mod 2 ^ 32 - 2 ^ 31)%Z.

Lemma wrap32_small z : (- 2 ^ 31 <= z < 2 ^ 31)%Z -> wrap32 z = z.
Proof. intros H. unfold wrap32. rewrite Z.mod_small; lia. Qed.

Lemma wrap32_range z : (- 2 ^ 31 <= wrap32 z < 2 ^ 31)%Z.
Proof. unfold wrap32. pose proof (Z.mod_pos_bound (z + 2 ^ 31) (2 ^ 32)). lia. Qed.

(** [n+1] at 32 bits is injective on 32-bit values. *)
Lemma wrap32_succ_inj a b :
  (- 2 ^ 31 <= a < 2 ^ 31)%Z -> (- 2 ^ 31 <= b < 2 ^ 31)%Z ->
  wrap32 (a + 1) = wrap32 (b + 1) -> a = b.
Proof.
  unfold wrap32. intros Ha Hb Heq.
  assert (((a + 1 + 2 ^ 31) mod 2 ^ 32)%Z = ((b + 1 + 2 ^ 31) mod 2 ^ 32)%Z) as Hm by lia.
  clear Heq.
  pose proof (Z.div_mod (a + 1 + 2 ^ 31) (2 ^ 32) ltac:(lia)).
  pose proof (Z.div_mod (b + 1 + 2 ^ 31) (2 ^ 32) ltac:(lia)).
  pose proof (Z.mod_pos_bound (a + 1 + 2 ^ 31) (2 ^ 32) ltac:(lia)).
  pose proof (Z.mod_pos_bound (b + 1 + 2 ^ 31) (2 ^ 32) ltac:(lia)).
  assert ((a + 1 + 2 ^ 31) / 2 ^ 32 = (b + 1 + 2 ^ 31) / 2 ^ 32 \/
          (a + 1 + 2 ^ 31) / 2 ^ 32 <> (b + 1 + 2 ^ 31) / 2 ^ 32)%Z as [E|E] by lia; [lia|].
  assert (0 <= (a + 1 + 2 ^ 31) / 2 ^ 32 <= 1)%Z by lia.
  assert (0 <= (b + 1 + 2 ^ 31) / 2 ^ 32 <= 1)%Z by lia.
  lia.
Qed.

(** Arithmetic on a Go [int64]. *)
Definition wrap64 (z : Z) : Z := ((z + 2 ^ 63) mod 2 ^ 64 - 2 ^ 63)%Z.

Lemma wrap64_small z : (- 2 ^ 63 <= z < 2 ^ 63)%Z -> wrap64 z = z.
Proof. intros H. unfold wrap64. rewrite Z.mod_small; lia. Qed.

(** ** Lists and options *)

Lemma forallb_spec {A} (f : A -> bool) (l : list A) :
  forallb f l = true <-> (forall x, x ∈ l -> f x = true).
Proof.
  rewrite forallb_forall. split; intros H x Hx; apply H; by apply list_elem_of_In.
Qed.

Lemma existsb_spec {A} (f : A -> bool) (l : list A) :
  existsb f l = true <-> exists x, x ∈ l /\ f x = true.
Proof.
  rewrite existsb_exists. split; intros (x & Hx & Hf); exists x; split; try done;
    by apply list_elem_of_In.
Qed.

Lemma Forall2_map_r {A B} (R : A -> B -> Prop) (f : A -> B) l : (forall x, x ∈ l -> R x (f x)) -> Forall2 R l (map f l).
Proof.
  intros H. induction l as [|x l IH]; [constructor|]. simpl. constructor; [apply H; by left|].
  apply IH. intros y Hy. apply H. by right.
Qed.

Lemma filter_none {A} (f : A -> bool) l : (forall x, x ∈ l -> f x = false) -> List.filter f l = [].
Proof.
  induction l as [|x l IH]; intros H; [done|]. simpl. rewrite H by (by left). apply IH. intros y Hy. apply H. by right.
Qed.

(** UPDATE ... WHERE over a table. *)
Definition update_where {A} (p : A -> bool) (f : A -> A) (l : list A) : list A := map (fun x => if p x then f x else x) l.

Lemma elem_of_update_where {A} (p : A -> bool) (f : A -> A) l x :
  x ∈ update_where p f l -> exists y, y ∈ l /\ x = if p y then f y else y.
Proof. intros (y & -> & Hy)%list_elem_of_fmap. by exists y. Qed.

(** A column the update does not touch. *)
Lemma update_where_map {A B} (p : A -> bool) (f : A -> A) (g : A -> B) l :
  (forall x, g (f x) = g x) -> map g (update_where p f l) = map g l.
Proof. intros H. unfold update_where. rewrite map_map. apply map_ext. intros x. destruct (p x); [apply H|done]. Qed.

Lemma update_where_none {A} (p : A -> bool) (f : A -> A) l : (forall x, x ∈ l -> p x = false) -> update_where p f l = l.
Proof.
  intros H. induction l as [|x l IH]; simpl; [done|]. rewrite H by (by left). f_equal. apply IH. intros y Hy. apply H. by right.
Qed.

Lemma NoDup_snoc {B} (l : list B) x : NoDup (l ++ [x]) <-> NoDup l /\ x ∉ l.
Proof.
  rewrite NoDup_app. split.
  - intros (H1 & H2 & _). split; [done|]. intros Hx. apply (H2 x Hx). set_solver.
  - intros [H1 H2]. split; [done|]. split; [set_solver|apply NoDup_singleton].
Qed.

(** A key finds one element. *)
Lemma NoDup_map_inj {A B} (f : A -> B) (l : list A) x y : NoDup (map f l) -> x ∈ l -> y ∈ l -> f x = f y -> x = y.
Proof.
  induction l as [|z l IH]; simpl; [by intros _ ?%not_elem_of_nil|]. intros [Hz Hl]%NoDup_cons.
  intros [->|Hx]%elem_of_cons [->|Hy]%elem_of_cons Hf; [done|..].
  - destruct Hz. rewrite Hf. by apply list_elem_of_fmap_2.
  - destruct Hz. rewrite <- Hf. by apply list_elem_of_fmap_2.
  - by apply IH.
Qed.

(** A test over all bindings of a map, as a [range] loop with an early return
    computes it: the answer does not depend on the iteration order. *)
Definition map_all {K A} `{Countable K} (f : K -> A -> bool) (m : gmap K A) : bool :=
  forallb (fun '(k, a) => f k a) (map_to_list m).

Lemma map_all_spec {K A} `{Countable K} (f : K -> A -> bool) (m : gmap K A) :
  map_all f m = true <-> (forall k a, m !! k = Some a -> f k a = true).
Proof.
  unfold map_all. rewrite forallb_spec. split.
  - intros H1 k a Hk. apply (H1 (k, a)). by apply elem_of_map_to_list.
  - intros H1 [k a] Hk. apply H1. by apply elem_of_map_to_list.
Qed.

Lemma map_all_false {K A} `{Countable K} (f : K -> A -> bool) (m : gmap K A) k a :
  m !! k = Some a -> f k a = false -> map_all f m = false.
Proof.
  intros Hk Hf. destruct (map_all f m) eqn:E; [|done].
  rewrite map_all_spec in E. rewrite (E k a Hk) in Hf. done.
Qed.

#[export] Hint Resolve wrap32_small wrap32_range : anubis.
