(* ===== verification/Triples.v ===== *)
(** Invariants carried through handlers.  A triple says that a predicate on the
    store survives a handler, whether it fails or returns, and what holds of a
    value it returns. *)

From Stdlib Require Import ZArith Lia Bool Ascii String.
From stdpp Require Import base list.
From S2P Require Import Prelude.

Module Triples.

Definition triple {S E X} (Q : S -> Prop) (m : Eff S E X) (post : X -> Prop) : Prop :=
  forall s, Q s -> let '(r, s') := m s in Q s' /\ forall a, r = Ok a -> post a.

Section Rules.
Context {S : Type} (Q : S -> Prop).

Lemma triple_bind {E X Y} (m : Eff S E X) (f : X -> Eff S E Y) mid post :
  triple Q m mid -> (forall a, mid a -> triple Q (f a) post) -> triple Q (m ≫= f) post.
Proof.
  intros Hm Hf s Hs. specialize (Hm s Hs). unfold mbind, eff_bind. destruct (m s) as [[a|e] s1]; destruct Hm as [H1 H2].
  - apply Hf; [by apply H2|done].
  - by split.
Qed.

Lemma triple_ret {E X} (a : X) (post : X -> Prop) : post a -> triple (E := E) Q (mret a) post.
Proof. intros H s Hs. split; [done|]. by intros ? [= <-]. Qed.

Lemma triple_raise {E X} (e : E) (post : X -> Prop) : triple Q (raise e) post.
Proof. intros s Hs. by split. Qed.

Lemma triple_lift {E X} (r : result E X) (post : X -> Prop) : (forall a, r = Ok a -> post a) -> triple Q (lift r) post.
Proof. intros H s Hs. split; [done|]. exact H. Qed.

Lemma triple_attempt {E F X} (m : Eff S E X) : triple Q m (fun _ => True) -> triple Q (attempt (F := F) m) (fun _ => True).
Proof. intros H s Hs. specialize (H s Hs). unfold attempt. destruct (m s) as [r s']. by destruct H. Qed.

Lemma triple_map_err {E F X} (g : E -> F) (m : Eff S E X) post : triple Q m post -> triple Q (map_err g m) post.
Proof.
  intros H s Hs. specialize (H s Hs). unfold map_err. destruct (m s) as [[a|e] s']; destruct H as [H1 H2]; (split; [done|]); [|done].
  intros ? [= <-]. by apply H2.
Qed.

Lemma triple_within {E X} c (m : Eff S E X) post : triple Q m post -> triple Q (within_tx c m) post.
Proof. intros H s Hs. specialize (H s Hs). unfold within_tx. destruct (m s) as [[a|e] s']; [|by split]. by destruct c. Qed.

Lemma triple_weaken {E X} (m : Eff S E X) (p1 p2 : X -> Prop) : triple Q m p1 -> (forall a, p1 a -> p2 a) -> triple Q m p2.
Proof. intros H Hw s Hs. specialize (H s Hs). destruct (m s). destruct H. split; [done|]. intros a Ha. apply Hw. auto. Qed.

(** A call that leaves the store alone. *)
Lemma triple_reads {E X} (m : Eff S E X) : (forall s, snd (m s) = s) -> triple Q m (fun _ => True).
Proof. intros H s Hs. specialize (H s). destruct (m s) as [r s']. simpl in H. by subst. Qed.

(** What is left of the predicate after a call. *)
Lemma triple_after {E X} (m : Eff S E X) post s : triple Q m post -> Q s -> Q (snd (m s)).
Proof. intros H Hs. specialize (H s Hs). destruct (m s). by destruct H. Qed.

End Rules.

(** Walks a handler: one rule per statement, a case split per branch, [leaf] for
    the calls. *)
Ltac walk_step leaf :=
  match goal with
  | |- forall _ : _, True -> _ => intros ? _
  | |- triple _ (_ ≫= _) _ => eapply (triple_bind _ _ _ (fun _ => True))
  | |- triple _ (lift _) (fun _ => True) => by apply triple_lift
  | |- triple _ (mret _) _ => by apply triple_ret
  | |- triple _ (raise _) _ => apply triple_raise
  | |- triple _ (attempt _) _ => apply triple_attempt
  | |- triple _ (map_err _ _) _ => apply triple_map_err
  | |- triple _ (within_tx _ _) _ => apply triple_within
  | |- triple _ (match ?x with _ => _ end) _ => destruct x eqn:?
  | |- triple _ (let '(_, _) := ?x in _) _ => destruct x
  | |- _ => leaf
  end.
Ltac walk_with leaf := repeat walk_step leaf.

End Triples.
