(* ===== verification/GoStrings.v ===== *)
(** Go strings as byte sequences: the operations of package [strings] and
    [unicode/utf8] the modelled code calls, on Rocq's [string] (a list of 8-bit
    characters).  [equal_fold] is [strings.EqualFold] on ASCII text, which is
    what hosts, methods and role codes carry. *)

From Stdlib Require Import ZArith Lia Bool Ascii String.
From stdpp Require Import base gmap strings list.
From S2P Require Import Prelude.

(** The numeric value of a byte. *)
Definition code (a : ascii) : Z := Z.of_N (N_of_ascii a).
Definition chr (z : Z) : ascii := ascii_of_N (Z.to_N z).

Lemma code_range a : (0 <= code a < 256)%Z.
Proof. unfold code. pose proof (N_ascii_bounded a). lia. Qed.

Lemma chr_code a : chr (code a) = a.
Proof. unfold chr, code. rewrite N2Z.id. apply ascii_N_embedding. Qed.

Lemma code_chr z : (0 <= z < 256)%Z -> code (chr z) = z.
Proof. intros H. unfold chr, code. rewrite N_ascii_embedding; lia. Qed.

Lemma code_inj a b : code a = code b -> a = b.
Proof. intros H. rewrite <- (chr_code a), <- (chr_code b). by rewrite H. Qed.

(** ** Slicing and searching *)

Fixpoint str_forallb (p : ascii -> bool) (s : string) : bool :=
  match s with
  | EmptyString => true
  | String a s' => p a && str_forallb p s'
  end.

Definition str_existsb (p : ascii -> bool) (s : string) : bool :=
  negb (str_forallb (fun a => negb (p a)) s).

(** [s[:i]] for the first index [i] whose byte satisfies [p], or [s]. *)
Fixpoint take_until (p : ascii -> bool) (s : string) : string :=
  match s with
  | EmptyString => EmptyString
  | String a s' => if p a then EmptyString else String a (take_until p s')
  end.

Fixpoint has_suffix_byte (c : ascii) (s : string) : bool :=
  match s with
  | EmptyString => false
  | String a EmptyString => bool_decide (a = c)
  | String _ s' => has_suffix_byte c s'
  end.

(** [strings.Contains(s, sub)] *)
Fixpoint str_contains (sub s : string) : bool :=
  String.prefix sub s ||
  match s with
  | EmptyString => false
  | String _ s' => str_contains sub s'
  end.

(** [strings.Split(s, c)] for a one-byte separator: never empty. *)
Fixpoint split_on (c : ascii) (s : string) : list string :=
  match s with
  | EmptyString => [EmptyString]
  | String a s' =>
      if bool_decide (a = c) then EmptyString :: split_on c s'
      else match split_on c s' with
           | [] => [String a EmptyString]
           | h :: t => String a h :: t
           end
  end.

(** [strings.Trim(s, c)] for a one-byte cutset. *)
Fixpoint trim_left (c : ascii) (s : string) : string :=
  match s with
  | String a s' => if bool_decide (a = c) then trim_left c s' else s
  | EmptyString => EmptyString
  end.
Definition trim_right (c : ascii) (s : string) : string :=
  String.rev (trim_left c (String.rev s)).
Definition trim (c : ascii) (s : string) : string := trim_right c (trim_left c s).

(** [s[n:]] *)
Fixpoint str_drop (n : nat) (s : string) : string :=
  match n, s with
  | S n', String _ s' => str_drop n' s'
  | _, _ => s
  end.

(** [s[:len(s)-1]] *)
Fixpoint str_init (s : string) : string :=
  match s with
  | EmptyString => EmptyString
  | String _ EmptyString => EmptyString
  | String a s' => String a (str_init s')
  end.

(** [s[:n]] *)
Fixpoint str_take (n : nat) (s : string) : string :=
  match n, s with
  | S n', String a s' => String a (str_take n' s')
  | _, _ => EmptyString
  end.

(** The text before and after the first [c], as IndexByte and two slices give it. *)
Fixpoint cut (c : ascii) (s : string) : option (string * string) :=
  match s with
  | EmptyString => None
  | String a s' =>
      if bool_decide (a = c) then Some (EmptyString, s')
      else match cut c s' with
           | Some (h, t) => Some (String a h, t)
           | None => None
           end
  end.

Definition has_byte (c : ascii) (s : string) : bool := str_existsb (fun a => bool_decide (a = c)) s.

Definition to_lower (a : ascii) : ascii :=
  let z := code a in
  if ((65 <=? z) && (z <=? 90))%Z then chr (z + 32) else a.

Fixpoint str_lower (s : string) : string :=
  match s with
  | EmptyString => EmptyString
  | String a s' => String (to_lower a) (str_lower s')
  end.

Definition equal_fold (s t : string) : bool := bool_decide (str_lower s = str_lower t).

Lemma to_lower_again a : to_lower (to_lower a) = to_lower a.
Proof. destruct a as [[] [] [] [] [] [] [] []]; vm_compute; reflexivity. Qed.
Lemma str_lower_again s : str_lower (str_lower s) = str_lower s.
Proof. induction s as [|a s IH]; cbn; [done|]. by rewrite to_lower_again, IH. Qed.

(** ** UTF-8 validity: the acceptance table of [utf8.ValidString] *)

Definition in_range (lo hi : Z) (a : ascii) : bool :=
  ((lo <=? code a) && (code a <=? hi))%Z.

(** The range the second byte must lie in, per leading byte, and the number of
    continuation bytes; [None] for a byte that starts no sequence. *)
Definition utf8_lead (a : ascii) : option (nat * Z * Z) :=
  let x := code a in
  (if x <? 128 then Some (0%nat, 0, 0)
   else if x <? 194 then None
   else if x <? 224 then Some (1%nat, 128, 191)
   else if x =? 224 then Some (2%nat, 160, 191)
   else if x =? 237 then Some (2%nat, 128, 159)
   else if x <? 240 then Some (2%nat, 128, 191)
   else if x =? 240 then Some (3%nat, 144, 191)
   else if x <? 244 then Some (3%nat, 128, 191)
   else if x =? 244 then Some (3%nat, 128, 143)
   else None)%Z.

Fixpoint valid_utf8 (s : string) : bool :=
  match s with
  | EmptyString => true
  | String a s1 =>
      match utf8_lead a with
      | None => false
      | Some (0, _, _) => valid_utf8 s1
      | Some (1, lo, hi) =>
          match s1 with
          | String b s2 => in_range lo hi b && valid_utf8 s2
          | _ => false
          end
      | Some (2, lo, hi) =>
          match s1 with
          | String b (String c s3) =>
              in_range lo hi b && in_range 128 191 c && valid_utf8 s3
          | _ => false
          end
      | Some (_, lo, hi) =>
          match s1 with
          | String b (String c (String d s4)) =>
              in_range lo hi b && in_range 128 191 c && in_range 128 191 d && valid_utf8 s4
          | _ => false
          end
      end
  end.

(** ** Lemmas *)

Lemma str_app_cons a (s t : string) : (String a s ++ t = String a (s ++ t))%string.
Proof. done. Qed.

Lemma str_app_nil_r (s : string) : (s ++ "")%string = s.
Proof. induction s as [|a s IH]; [done|]. rewrite !str_app_cons. by rewrite IH. Qed.

Lemma str_app_assoc (s t u : string) : (s ++ (t ++ u) = (s ++ t) ++ u)%string.
Proof. induction s as [|a s IH]; [done|]. rewrite !str_app_cons. by rewrite IH. Qed.

Lemma str_forallb_app p (s t : string) :
  str_forallb p (s ++ t) = str_forallb p s && str_forallb p t.
Proof.
  induction s as [|a s IH]; [done|]. rewrite str_app_cons; simpl. rewrite IH. by rewrite andb_assoc.
Qed.

Lemma str_forallb_impl p q (s : string) :
  (forall a, p a = true -> q a = true) -> str_forallb p s = true -> str_forallb q s = true.
Proof.
  intros Hpq. induction s as [|a s IH]; [done|]. simpl. intros H. unbool.
  rewrite Hpq by done. by rewrite IH.
Qed.

Lemma take_until_none p (s : string) :
  str_forallb (fun a => negb (p a)) s = true -> take_until p s = s.
Proof.
  induction s as [|a s IH]; [done|]. simpl. intros H. unbool. rewrite H. by rewrite IH.
Qed.

Lemma split_on_nonempty c s : split_on c s <> [].
Proof. destruct s; simpl; [done|]. case_bool_decide; [done|]. by destruct (split_on c s). Qed.

(** Splitting and joining are inverse. *)
Lemma concat_split c s : String.concat (String c EmptyString) (split_on c s) = s.
Proof.
  induction s as [|a s IH]; [done|]. simpl. pose proof (split_on_nonempty c s) as Hne.
  case_bool_decide as Hac.
  - subst. destruct (split_on c s); [done|]. simpl in *. by rewrite IH.
  - destruct (split_on c s) as [|h t]; [done|].
    destruct t as [|h' t]; simpl in *; rewrite <- IH; done.
Qed.

Lemma split_no_sep c s :
  str_forallb (fun a => negb (bool_decide (a = c))) s = true -> split_on c s = [s].
Proof.
  induction s as [|a s IH]; [done|]. simpl. intros H. unbool.
  rewrite bool_decide_eq_false_2 by done. by rewrite IH.
Qed.

Lemma split_app_sep c s t :
  str_forallb (fun a => negb (bool_decide (a = c))) s = true ->
  split_on c (s ++ String c t) = s :: split_on c t.
Proof.
  induction s as [|a s IH].
  - intros _. change ("" ++ String c t)%string with (String c t). simpl.
    by rewrite bool_decide_eq_true_2.
  - rewrite str_app_cons. simpl. intros H. unbool.
    rewrite bool_decide_eq_false_2 by done. by rewrite IH.
Qed.

Lemma split_app c s t : split_on c (s ++ String c t) = split_on c s ++ split_on c t.
Proof.
  induction s as [|a s IH].
  - change ("" ++ String c t)%string with (String c t). simpl. by rewrite bool_decide_eq_true_2.
  - rewrite str_app_cons. simpl. case_bool_decide; rewrite IH; [done|].
    destruct (split_on c s) eqn:E; [by apply split_on_nonempty in E|done].
Qed.

Lemma split_concat c (l : list string) :
  l <> [] ->
  Forall (fun s => str_forallb (fun a => negb (bool_decide (a = c))) s = true) l ->
  split_on c (String.concat (String c EmptyString) l) = l.
Proof.
  intros Hne Hl. induction Hl as [|s l Hs Hl IH]; [done|]. destruct l as [|s' l].
  - simpl. by apply split_no_sep.
  - change (String.concat (String c "") (s :: s' :: l))
      with (s ++ String c "" ++ String.concat (String c "") (s' :: l))%string.
    change (String c "" ++ String.concat (String c "") (s' :: l))%string
      with (String c (String.concat (String c "") (s' :: l))).
    rewrite split_app_sep by done. by rewrite IH.
Qed.

Lemma split_segs_no_sep c s :
  Forall (fun x => str_forallb (fun a => negb (bool_decide (a = c))) x = true) (split_on c s).
Proof.
  induction s as [|a s IH]; simpl; [by repeat constructor|]. case_bool_decide as Hac.
  - by constructor.
  - assert (str_forallb (fun a => negb (bool_decide (a = c))) (String a "") = true) as Ha.
    { simpl. by rewrite bool_decide_eq_false_2. }
    destruct (split_on c s); [by repeat constructor|]. inversion IH; subst.
    constructor; [|done]. simpl in *. by rewrite bool_decide_eq_false_2.
Qed.

Lemma str_forallb_split p c s x :
  str_forallb p s = true -> x ∈ split_on c s -> str_forallb p x = true.
Proof.
  revert x. induction s as [|a s IH]; intros x; simpl.
  - intros _ Hx. by apply list_elem_of_singleton in Hx as ->.
  - intros H Hx. unbool. case_bool_decide.
    + apply elem_of_cons in Hx as [->|Hx]; [done|]. by apply IH.
    + destruct (split_on c s) as [|h t] eqn:E.
      * apply list_elem_of_singleton in Hx as ->. simpl. by rewrite H.
      * apply elem_of_cons in Hx as [->|Hx].
        -- simpl. rewrite H. simpl. apply IH; [done|]. set_solver.
        -- apply IH; [done|]. set_solver.
Qed.

Lemma str_forallb_concat p c (l : list string) :
  p c = true -> Forall (fun s => str_forallb p s = true) l ->
  str_forallb p (String.concat (String c EmptyString) l) = true.
Proof.
  intros Hc Hl. induction Hl as [|s l Hs Hl IH]; [done|]. destruct l as [|s' l]; [done|].
  change (String.concat (String c "") (s :: s' :: l))
    with (s ++ (String c "" ++ String.concat (String c "") (s' :: l)))%string.
  rewrite !str_forallb_app, Hs, IH. simpl. by rewrite Hc.
Qed.

Lemma has_suffix_byte_app c s a t :
  has_suffix_byte c (s ++ String a t) = has_suffix_byte c (String a t).
Proof.
  induction s as [|b s IH]; [done|]. rewrite str_app_cons. rewrite <- IH.
  simpl. by destruct s.
Qed.

Lemma has_suffix_split c s :
  has_suffix_byte c s = true -> exists l, split_on c s = l ++ [""%string] /\ l <> [].
Proof.
  induction s as [|a s IH]; [done|]. intros H. destruct s as [|b s].
  - simpl in H. unbool. subst. simpl. rewrite bool_decide_eq_true_2 by done.
    exists [""%string]. done.
  - change (has_suffix_byte c (String b s) = true) in H. apply IH in H as (l & Hl & Hne).
    change (split_on c (String a (String b s))) with
      (if bool_decide (a = c) then ""%string :: split_on c (String b s) else
       match split_on c (String b s) with [] => [String a ""] | h :: t => String a h :: t end).
    case_bool_decide.
    + exists (""%string :: l). split; [|discriminate]. by rewrite Hl.
    + destruct l as [|h l]; [by destruct Hne|]. exists (String a h :: l).
      split; [|discriminate]. by rewrite Hl.
Qed.

Lemma str_length_app (s t : string) :
  String.length (s ++ t) = (String.length s + String.length t)%nat.
Proof. induction s as [|a s IH]; [done|]. rewrite str_app_cons. simpl. by rewrite IH. Qed.

Lemma str_take_app (s t : string) : str_take (String.length s) (s ++ t) = s.
Proof.
  induction s as [|a s IH]; [by destruct t|]. rewrite str_app_cons. simpl. by rewrite IH.
Qed.

Lemma str_drop_app (s t : string) : str_drop (String.length s) (s ++ t) = t.
Proof. induction s as [|a s IH]; [by destruct t|]. rewrite str_app_cons. exact IH. Qed.

Lemma str_take_drop n (s : string) : (str_take n s ++ str_drop n s)%string = s.
Proof.
  revert s. induction n as [|n IH]; intros [|a s]; try done. simpl.
  rewrite str_app_cons. by rewrite IH.
Qed.

Lemma str_length_take n (s : string) : String.length (str_take n s) = Nat.min n (String.length s).
Proof. revert s. induction n as [|n IH]; intros [|a s]; simpl; try done. by rewrite IH. Qed.

Lemma str_length_drop n (s : string) : String.length (str_drop n s) = (String.length s - n)%nat.
Proof. revert s. induction n as [|n IH]; intros [|a s]; simpl; try done. Qed.

Lemma prefix_app (s t : string) : String.prefix s (s ++ t) = true.
Proof.
  induction s as [|a s IH]; [by destruct t|]. rewrite str_app_cons. simpl.
  destruct (ascii_dec a a); [exact IH|done].
Qed.

Lemma prefix_split (s t : string) :
  String.prefix s t = true -> t = (s ++ str_drop (String.length s) t)%string.
Proof.
  revert t. induction s as [|a s IH]; intros [|b t]; try done. simpl.
  destruct (ascii_dec a b) as [->|]; [|done]. intros H. rewrite str_app_cons. by rewrite <- IH.
Qed.

Lemma app_inj_l (s t u : string) : (s ++ t = s ++ u)%string -> t = u.
Proof. induction s as [|a s IH]; [done|]. rewrite !str_app_cons. intros [= H]. auto. Qed.

Lemma app_inj_length (s s' t t' : string) :
  String.length s = String.length s' -> (s ++ t = s' ++ t')%string -> s = s' /\ t = t'.
Proof.
  revert s'. induction s as [|a s IH]; intros [|b s'] Hl; try done.
  rewrite !str_app_cons. intros [= -> H]. simpl in Hl. by destruct (IH s' ltac:(lia) H) as [-> ->].
Qed.

Lemma has_byte_false c s :
  has_byte c s = false <-> str_forallb (fun a => negb (bool_decide (a = c))) s = true.
Proof. unfold has_byte, str_existsb. apply negb_false_iff. Qed.

Lemma cut_none c s : cut c s = None <-> has_byte c s = false.
Proof.
  rewrite has_byte_false. induction s as [|a s IH]; simpl; [done|].
  case_bool_decide; simpl; [done|]. rewrite <- IH. by destruct (cut c s) as [[h t]|].
Qed.

Lemma cut_some c s h t :
  cut c s = Some (h, t) <-> s = (h ++ String c t)%string /\ has_byte c h = false.
Proof.
  rewrite has_byte_false. revert h. induction s as [|a s IH]; intros h; simpl.
  { split; [done|]. intros [H _]. by destruct h. }
  case_bool_decide as Ha.
  - subst. split; [intros [= <- <-]; done|]. intros [H Hh]. destruct h as [|b h].
    + by injection H as ->.
    + rewrite str_app_cons in H. injection H as -> _. simpl in Hh.
      by rewrite bool_decide_eq_true_2 in Hh.
  - split.
    + destruct (cut c s) as [[h' t']|] eqn:E; [|done]. intros [= <- <-].
      destruct (proj1 (IH h') eq_refl) as [-> Hh]. split; [done|]. simpl.
      by rewrite bool_decide_eq_false_2.
    + intros [H Hh]. destruct h as [|b h]; [by injection H as -> _|].
      rewrite str_app_cons in H. injection H as -> H. simpl in Hh. apply andb_true_iff in Hh as [_ Hh].
      rewrite (proj2 (IH h) (conj H Hh)). done.
Qed.

(** A one-byte (ASCII) character splits a string into two independently valid
    halves. *)
Lemma valid_utf8_app_ascii c s t :
  (code c < 128)%Z ->
  valid_utf8 (s ++ String c t) = valid_utf8 s && valid_utf8 t.
Proof.
  intros Hc.
  assert (forall lo hi, (128 <= lo)%Z -> in_range lo hi c = false) as Hcc.
  { intros lo hi Hlo. unfold in_range. destruct (Z.leb_spec lo (code c)); [lia|done]. }
  assert (forall a, match utf8_lead a with Some (S _, lo, _) => (128 <= lo)%Z | _ => True end) as Hlead.
  { intros a. unfold utf8_lead. repeat case_match; try done; simplify_eq; lia. }
  assert (valid_utf8 (String c t) = valid_utf8 t) as Hc1.
  { simpl. unfold utf8_lead. by destruct (Z.ltb_spec (code c) 128); [|lia]. }
  remember (String.length s) as n eqn:Hn. revert s Hn.
  induction n as [n IH] using lt_wf_ind. intros [|a s] Hn.
  { exact Hc1. }
  rewrite str_app_cons. simpl. specialize (Hlead a). simpl in Hn.
  destruct (utf8_lead a) as [[[[|[|[|k]]] lo] hi]|]; [..|done].
  - eapply (IH (String.length s)); [lia|done].
  - destruct s as [|b s]; simpl in *.
    + by rewrite Hcc.
    + rewrite (IH (String.length s)) by (simpl in *; lia). by rewrite andb_assoc.
  - destruct s as [|b [|d s]]; simpl in *.
    + destruct t; [done|]. by rewrite Hcc.
    + rewrite (Hcc 128%Z) by lia. by rewrite andb_false_r.
    + rewrite (IH (String.length s)) by (simpl in *; lia). by rewrite andb_assoc.
  - destruct s as [|b [|d [|e s]]]; simpl in *.
    + destruct t as [|? [|? ?]]; try done. by rewrite Hcc.
    + destruct t; [done|]. rewrite (Hcc 128%Z) by lia. by rewrite andb_false_r.
    + rewrite (Hcc 128%Z) by lia. by rewrite andb_false_r.
    + rewrite (IH (String.length s)) by (simpl in *; lia). by rewrite andb_assoc.
Qed.

Lemma valid_utf8_concat c (l : list string) :
  (code c < 128)%Z -> l <> [] ->
  valid_utf8 (String.concat (String c EmptyString) l) = forallb valid_utf8 l.
Proof.
  intros Hc Hne. induction l as [|s l IH]; [done|]. destruct l as [|s' l].
  - simpl. by rewrite andb_true_r.
  - change (String.concat (String c "") (s :: s' :: l))
      with (s ++ String c (String.concat (String c "") (s' :: l)))%string.
    rewrite valid_utf8_app_ascii by done. by rewrite IH.
Qed.

Lemma valid_utf8_split c s :
  (code c < 128)%Z -> valid_utf8 s = forallb valid_utf8 (split_on c s).
Proof.
  intros Hc. rewrite <- (concat_split c s) at 1.
  by rewrite valid_utf8_concat by (done || apply split_on_nonempty).
Qed.

#[export] Hint Resolve code_range split_on_nonempty : anubis.

(** ** [strings.TrimSpace]

    The UTF-8 encodings of the code points [unicode.IsSpace] accepts. *)
Definition str_of (l : list Z) : string := string_of_list_ascii (map chr l).

Definition spaces : list string :=
  map str_of
    ([[9]; [10]; [11]; [12]; [13]; [32]; [194; 133]; [194; 160]; [225; 154; 128]] ++
     map (fun b => [226; 128; b]) [128; 129; 130; 131; 132; 133; 134; 135; 136; 137; 138; 168; 169; 175] ++
     [[226; 129; 159]; [227; 128; 128]])%Z.

(** Drops leading members of [encs]; each is at least one byte, so the length is
    enough fuel. *)
Fixpoint drop_front (encs : list string) (fuel : nat) (s : string) : string :=
  match fuel with
  | O => s
  | S f => match find (fun e => String.prefix e s) encs with
           | None => s
           | Some e => drop_front encs f (str_drop (String.length e) s)
           end
  end.

Definition TrimSpace (s : string) : string :=
  let front encs s := drop_front encs (String.length s) s in
  String.rev (front (map String.rev spaces) (String.rev (front spaces s))).

Example TrimSpace_ex : TrimSpace (" " ++ str_of [194; 160]%Z ++ "a b" ++ str_of [227; 128; 128; 10]%Z)%string = "a b"%string.
Proof. vm_compute. reflexivity. Qed.
