(* ===== verification/Snapshot.v ===== *)
(** internal/gate/snapshot: the frozen catalogue (data.go) and the scope
    hierarchy it carries (scope_index.go).  A Go map is a [gmap], a slice a
    list, an [int32] index a [Z] with its wrap-around written out; an index
    outside a slice is a run-time panic, the [None] of [CoveredBy]. *)

From Stdlib Require Import ZArith Lia Bool Ascii String.
From stdpp Require Import base gmap strings list.
From S2P Require Import Prelude.

(** ** Data (data.go) *)

Record ScopeConstraint := {
  sc_NodeID : string;
  sc_Inherit : bool;
  sc_Exclude : bool;
  (** The ScopeIndex index plus one; 0 is "not interned". *)
  sc_node : Z
}.

(** One row of the hierarchy; the parent of an axis root is empty. *)
Record ScopeNode := { sn_ID : string; sn_Parent : string }.

Record ScopeIndex := {
  si_idx : gmap string Z;
  si_parent : list Z
}.

Record Grant := {
  g_ID : string;
  g_RoleID : string;
  g_SelfScoped : bool;
  g_ValidFrom : Time;
  g_ValidUntil : Time;
  g_Scopes : gmap string (list ScopeConstraint)
}.

Record Permission := {
  p_Key : string;
  p_MinAssurance : Z;
  p_RequiresAMR : list string;
  p_MaxAuthAgeSecs : Z;
  p_Risk : string
}.

Record Identity := {
  i_TokenEpoch : Z;
  i_Blocked : bool;
  i_AssuranceLevel : Z
}.

Record Route := {
  r_AppSlug : string;
  r_Priority : Z;
  r_Effect : string;
  r_PathPattern : string;
  r_HostPattern : string;
  r_Methods : list string;
  r_PermissionKey : string;
  r_ScopeBindings : gmap string string
}.

(** One live record share (share.go). *)
Record Share := {
  sh_Record : string;
  sh_Permissions : gmap string bool;
  sh_ValidUntil : Time
}.

Record Data := {
  d_TenantID : string;
  d_TenantSlug : string;
  d_Version : Z;
  d_LoadedAt : Time;
  d_BuiltAt : Time;
  d_StrictAxes : gmap string bool;
  d_Scope : ScopeIndex;
  d_GrantsByIdentity : gmap string (list Grant);
  d_SharesByIdentity : gmap string (list Share);
  d_RolePermissions : gmap string (gmap string bool);
  d_Permissions : gmap string Permission;
  d_Identities : gmap string Identity;
  d_RevokedSessions : gmap string bool;
  d_Routes : list Route
}.

(** ** ScopeIndex (scope_index.go) *)
Module ScopeIdx.

(** The first pass: node [i]'s key is the slice of the slab at its offset. *)
Fixpoint slab_keys (slab : string) (nodes : list ScopeNode) (i : Z) (pos : nat)
    (m : gmap string Z) : gmap string Z :=
  match nodes with
  | [] => m
  | nd :: rest =>
      let n := String.length (sn_ID nd) in
      slab_keys slab rest (i + 1) (pos + n) (<[String.substring pos n slab := wrap32 i]> m)
  end.

Definition link_parent (m : gmap string Z) (nd : ScopeNode) : Z :=
  match m !! sn_Parent nd with
  | None => -1
  | Some p => if bool_decide (sn_Parent nd = ""%string) then -1 else p
  end%Z.

Definition NewScopeIndex (nodes : list ScopeNode) : ScopeIndex :=
  let slab := String.concat "" (map sn_ID nodes) in
  let idx := slab_keys slab nodes 0 0 ∅ in
  {| si_idx := idx; si_parent := map (link_parent idx) nodes |}.

Definition Len (x : ScopeIndex) : nat := length (si_parent x).

Definition Resolve (x : ScopeIndex) (id : string) : option Z := si_idx x !! id.

Definition intern1 (x : ScopeIndex) (c : ScopeConstraint) : ScopeConstraint :=
  match si_idx x !! sc_NodeID c with
  | Some n => {| sc_NodeID := sc_NodeID c; sc_Inherit := sc_Inherit c;
                 sc_Exclude := sc_Exclude c; sc_node := wrap32 (n + 1) |}
  | None => c
  end.

Definition Intern (x : ScopeIndex) (cs : list ScopeConstraint) : list ScopeConstraint :=
  map (intern1 x) cs.

(** The depth-0 pass: [None] is its early [return false]. *)
Fixpoint scan0 (target : Z) (cs : list ScopeConstraint) (included inherits hasExclude : bool)
    : option (bool * bool * bool) :=
  match cs with
  | [] => Some (included, inherits, hasExclude)
  | c :: cs' =>
      let hasExclude := hasExclude || sc_Exclude c in
      if (sc_node c =? wrap32 (target + 1))%Z then
        if sc_Exclude c then None
        else scan0 target cs' true (inherits || sc_Inherit c) hasExclude
      else scan0 target cs' included (inherits || sc_Inherit c) hasExclude
  end.

(** One node of the ascent: [inl b] returns [b], [inr b] continues with
    [included = b]. *)
Fixpoint scan_up (n : Z) (cs : list ScopeConstraint) (hasExclude included : bool) : bool + bool :=
  match cs with
  | [] => inr included
  | c :: cs' =>
      if (sc_node c =? wrap32 (n + 1))%Z && sc_Inherit c then
        if sc_Exclude c then inl false
        else if negb hasExclude then inl true
        else scan_up n cs' hasExclude true
      else scan_up n cs' hasExclude included
  end.

(** The ascent; [left] is [len(x.parent) - steps]. *)
Fixpoint walk (x : ScopeIndex) (left : nat) (n : Z) (cs : list ScopeConstraint)
    (hasExclude included : bool) : option bool :=
  match left with
  | O => Some included
  | S left' =>
      if (n <? 0)%Z then Some included
      else match scan_up n cs hasExclude included with
           | inl b => Some b
           | inr included' =>
               match si_parent x !! Z.to_nat n with
               | None => None
               | Some n' => walk x left' n' cs hasExclude included'
               end
           end
  end.

Definition CoveredBy (x : ScopeIndex) (target : Z) (cs : list ScopeConstraint) : option bool :=
  if (target <? 0)%Z || (Z.of_nat (Len x) <=? target)%Z then Some false
  else match scan0 target cs false false false with
       | None => Some false
       | Some (included, inherits, hasExclude) =>
           if included && negb hasExclude then Some true
           else if negb inherits then Some included
           else match si_parent x !! Z.to_nat target with
                | None => None
                | Some n => walk x (Len x) n cs hasExclude included
                end
       end.

(** *** The parent function and its iterates *)

Definition nxt (x : ScopeIndex) (n : Z) : Z :=
  if (n <? 0)%Z then (-1)%Z else default (-1)%Z (si_parent x !! Z.to_nat n).

(** [a] is a proper ancestor of [t]. *)
Definition anc (x : ScopeIndex) (t a : Z) : Prop :=
  (0 <= a)%Z /\ exists k, a = Nat.iter (S k) (nxt x) t.

(** The constraint reaches the node [t]: it names it, or inherits from above. *)
Definition reaches (x : ScopeIndex) (t : Z) (c : ScopeConstraint) : Prop :=
  sc_node c = (t + 1)%Z \/ (sc_Inherit c = true /\ exists a, anc x t a /\ sc_node c = (a + 1)%Z).

(** Parents are roots or indices, and the indices fit an int32. *)
Definition wf (x : ScopeIndex) : Prop :=
  (Z.of_nat (Len x) < 2 ^ 31)%Z /\
  Forall (fun p => (-1 <= p < Z.of_nat (Len x))%Z) (si_parent x).

(** *** Auxiliary lemmas *)

Fixpoint path (x : ScopeIndex) (left : nat) (n : Z) : list Z :=
  match left with
  | O => []
  | S left' => if (n <? 0)%Z then [] else n :: path x left' (nxt x n)
  end.

Definition hit (n : Z) (e : bool) (c : ScopeConstraint) : bool :=
  (sc_node c =? wrap32 (n + 1))%Z && sc_Inherit c && Bool.eqb (sc_Exclude c) e.

Lemma scan_up_spec n cs he inc :
  (he = false -> existsb sc_Exclude cs = false) ->
  scan_up n cs he inc =
    if existsb (hit n true) cs then inl false
    else if existsb (hit n false) cs then (if he then inr true else inl true)
    else inr inc.
Proof.
  revert inc. induction cs as [|c cs IH]; intros inc Hhe; simpl; [done|].
  assert (he = false -> existsb sc_Exclude cs = false) as Hhe'.
  { intros H. specialize (Hhe H). simpl in Hhe. by apply orb_false_iff in Hhe as [_ ?]. }
  assert (he = false -> sc_Exclude c = false) as Hc.
  { intros H. specialize (Hhe H). simpl in Hhe. by apply orb_false_iff in Hhe as [? _]. }
  unfold hit at 1 3. rewrite !IH by done.
  destruct ((sc_node c =? wrap32 (n + 1))%Z && sc_Inherit c) eqn:E; simpl; [|done].
  destruct (sc_Exclude c) eqn:Ex; simpl; [done|].
  destruct he; simpl.
  - destruct (existsb (hit n true) cs); [done|]. by destruct (existsb (hit n false) cs).
  - assert (existsb (hit n true) cs = false) as ->; [|done].
    specialize (Hhe' eq_refl). clear -Hhe'. induction cs as [|d cs IH]; [done|].
    simpl in *. unbool. rewrite IH by done. unfold hit. rewrite H. by rewrite andb_false_r.
Qed.

Section Wf.
Context (x : ScopeIndex) (Hwf : wf x).

Lemma nxt_range n : (-1 <= nxt x n < Z.of_nat (Len x))%Z.
Proof using Hwf.
  unfold nxt. destruct (Z.ltb_spec n 0); [lia|].
  destruct (si_parent x !! Z.to_nat n) as [p|] eqn:E; simpl; [|lia].
  destruct Hwf as [_ Hf]. rewrite Forall_forall in Hf. apply Hf.
  apply list_elem_of_lookup. eauto.
Qed.

Lemma parent_lookup n :
  (0 <= n < Z.of_nat (Len x))%Z -> si_parent x !! Z.to_nat n = Some (nxt x n).
Proof using Hwf.
  intros H. unfold nxt. destruct (Z.ltb_spec n 0); [lia|].
  destruct (si_parent x !! Z.to_nat n) as [p|] eqn:E; [done|].
  apply lookup_ge_None in E. unfold Len in *. lia.
Qed.

Lemma walk_spec left n cs he inc :
  (-1 <= n < Z.of_nat (Len x))%Z ->
  (he = false -> existsb sc_Exclude cs = false) ->
  walk x left n cs he inc =
    Some (negb (existsb (fun a => existsb (hit a true) cs) (path x left n)) &&
          (inc || existsb (fun a => existsb (hit a false) cs) (path x left n))).
Proof using Hwf.
  intros Hn Hhe. revert n inc Hn. induction left as [|left IH]; intros n inc Hn; simpl.
  { by rewrite orb_false_r. }
  destruct (Z.ltb_spec n 0); simpl; [by rewrite orb_false_r|].
  rewrite scan_up_spec by done.
  assert (he = false -> forall m, existsb (hit m true) cs = false) as Hno.
  { intros Hf m. specialize (Hhe Hf). clear -Hhe. induction cs as [|d cs IH]; [done|].
    simpl in *. unbool. rewrite IH by done. unfold hit. rewrite H. by rewrite andb_false_r. }
  destruct (existsb (hit n true) cs) eqn:Et; simpl; [done|].
  rewrite parent_lookup by lia.
  destruct (existsb (hit n false) cs) eqn:Ef; simpl.
  - rewrite orb_true_r, andb_true_r. destruct he.
    + rewrite IH by (done || apply nxt_range). by rewrite orb_true_l, andb_true_r.
    + assert (existsb (fun a => existsb (hit a true) cs) (path x left (nxt x n)) = false) as ->; [|done].
      induction (path x left (nxt x n)) as [|b l IHl]; [done|]. simpl. by rewrite Hno.
  - by rewrite IH by (done || apply nxt_range).
Qed.

Lemma iter_neg k n : (n < 0)%Z -> (Nat.iter k (nxt x) n < 0)%Z.
Proof using.
  intros Hn. induction k as [|k IH]; simpl; [done|].
  unfold nxt at 1. destruct (Z.ltb_spec (Nat.iter k (nxt x) n) 0); lia.
Qed.

Lemma iter_nonneg_le j k n :
  (j <= k)%nat -> (0 <= Nat.iter k (nxt x) n)%Z -> (0 <= Nat.iter j (nxt x) n)%Z.
Proof using.
  intros Hj Hk. destruct (Z.lt_ge_cases (Nat.iter j (nxt x) n) 0) as [Hlt|]; [|done].
  replace k with ((k - j) + j) in Hk by lia. rewrite Nat.iter_add in Hk.
  pose proof (iter_neg (k - j) _ Hlt). lia.
Qed.

Lemma path_spec left n a :
  a ∈ path x left n <-> (0 <= a)%Z /\ exists k, (k < left)%nat /\ a = Nat.iter k (nxt x) n.
Proof using.
  revert n. induction left as [|left IH]; intros n; simpl.
  { split; [intros H; by apply not_elem_of_nil in H|]. intros (_ & k & ? & _). lia. }
  destruct (Z.ltb_spec n 0).
  { split; [intros H'; by apply not_elem_of_nil in H'|]. intros (Ha & k & _ & ->).
    pose proof (iter_neg k n H). lia. }
  rewrite elem_of_cons, IH. split.
  - intros [->|(Ha & k & Hk & ->)]; (split; [done|]).
    + exists 0. split; [lia|done].
    + exists (S k). split; [lia|]. by rewrite Nat.iter_succ_r.
  - intros (Ha & [|k] & Hk & ->); [by left|]. right. split; [done|].
    exists k. split; [lia|]. by rewrite Nat.iter_succ_r.
Qed.

(** Pigeonhole: an iterate that is a node is reached within [Len] steps. *)
Lemma iter_short k n :
  (-1 <= n < Z.of_nat (Len x))%Z -> (0 <= Nat.iter k (nxt x) n)%Z ->
  exists j, (j < Len x)%nat /\ Nat.iter j (nxt x) n = Nat.iter k (nxt x) n.
Proof using Hwf.
  intros Hn. induction k as [k IH] using lt_wf_ind. intros Hk.
  destruct (decide (k < Len x)%nat) as [|Hge]; [by exists k|].
  set (l := map (fun i => Nat.iter i (nxt x) n) (seq 0 (S k))).
  assert (~ List.NoDup l) as Hdup.
  { intros Hnd.
    pose proof (List.NoDup_incl_length (l' := map Z.of_nat (seq 0 (Len x))) Hnd) as Hlen.
    unfold l in Hlen. rewrite !length_map, !length_seq in Hlen.
    enough (S k <= Len x)%nat by lia. apply Hlen.
    intros a Ha. apply in_map_iff in Ha as (i & <- & Hi%in_seq). apply in_map_iff.
    pose proof (iter_nonneg_le i k n ltac:(lia) Hk) as Hpos.
    assert (Nat.iter i (nxt x) n < Z.of_nat (Len x))%Z.
    { destruct i; simpl; [lia|]. apply nxt_range. }
    exists (Z.to_nat (Nat.iter i (nxt x) n)). split; [lia|]. apply in_seq. lia. }
  apply ListDec.not_NoDup in Hdup; [|intros ??; unfold Decidable.decidable; lia].
  destruct Hdup as (a & l1 & l2 & l3 & Hl).
  assert (forall i b, l !! i = Some b -> b = Nat.iter i (nxt x) n /\ (i <= k)%nat) as Hlk.
  { intros i b Hb. pose proof (lookup_lt_Some _ _ _ Hb) as Hlt.
    unfold l in Hb, Hlt. rewrite length_map, length_seq in Hlt.
    rewrite list_lookup_fmap, lookup_seq_lt in Hb by lia. simpl in Hb.
    split; [congruence|lia]. }
  destruct (Hlk (length l1) a) as [E1 _].
  { rewrite Hl. rewrite lookup_app_r by lia. by rewrite Nat.sub_diag. }
  destruct (Hlk (length l1 + S (length l2))%nat a) as [E2 Hle].
  { rewrite Hl. rewrite lookup_app_r by lia.
    replace (length l1 + S (length l2) - length l1)%nat with (S (length l2)) by lia. simpl.
    rewrite lookup_app_r by lia. by rewrite Nat.sub_diag. }
  destruct (IH (k - S (length l2))%nat) as (j & Hj & Ej); [lia| |].
  - replace (k - S (length l2))%nat
      with ((k - S (length l2) - length l1) + length l1)%nat by lia.
    rewrite Nat.iter_add, <- E1, E2, <- Nat.iter_add.
    by replace (k - S (length l2) - length l1 + (length l1 + S (length l2)))%nat with k by lia.
  - exists j. split; [done|]. rewrite Ej.
    replace (k - S (length l2))%nat
      with ((k - S (length l2) - length l1) + length l1)%nat by lia.
    rewrite Nat.iter_add, <- E1, E2, <- Nat.iter_add.
    by replace (k - S (length l2) - length l1 + (length l1 + S (length l2)))%nat with k by lia.
Qed.

Lemma path_anc t a :
  a ∈ path x (Len x) (nxt x t) <-> anc x t a.
Proof using Hwf.
  rewrite path_spec. unfold anc. split.
  - intros (Ha & k & _ & ->). split; [done|]. exists k. by rewrite Nat.iter_succ_r.
  - intros (Ha & k & ->). rewrite Nat.iter_succ_r in Ha |- *.
    split; [done|]. destruct (iter_short k (nxt x t) (nxt_range t) Ha) as (j & Hj & Ej). eauto.
Qed.

Lemma anc_range t a : anc x t a -> (0 <= a < Z.of_nat (Len x))%Z.
Proof using Hwf. intros (? & k & ->). split; [done|]. simpl. apply nxt_range. Qed.
End Wf.

Lemma scan0_spec t cs inc inh he :
  scan0 t cs inc inh he =
    if existsb (fun c => (sc_node c =? wrap32 (t + 1))%Z && sc_Exclude c) cs then None
    else Some (inc || existsb (fun c => (sc_node c =? wrap32 (t + 1))%Z) cs,
               inh || existsb sc_Inherit cs, he || existsb sc_Exclude cs).
Proof.
  revert inc inh he. induction cs as [|c cs IH]; intros inc inh he; simpl.
  { by rewrite !orb_false_r. }
  rewrite !IH. destruct (sc_node c =? wrap32 (t + 1))%Z; simpl; [destruct (sc_Exclude c); simpl; [done|]|];
    destruct (existsb _ cs); try done; rewrite <- ?orb_assoc; simpl; by rewrite ?orb_true_r.
Qed.

Lemma existsb_false {A} (f : A -> bool) l :
  existsb f l = false <-> forall a, a ∈ l -> f a = false.
Proof.
  rewrite <- not_true_iff_false, existsb_spec. split.
  - intros H a Ha. destruct (f a) eqn:E; [|done]. exfalso. eauto.
  - intros H (a & Ha & Hf). rewrite H in Hf; done.
Qed.

(** A hit on the walked path is a constraint reaching the target from above. *)
Lemma path_hits x t e cs :
  wf x ->
  existsb (fun a => existsb (hit a e) cs) (path x (Len x) (nxt x t)) = true <->
  exists c, c ∈ cs /\ sc_Exclude c = e /\ sc_Inherit c = true /\
    exists a, anc x t a /\ sc_node c = (a + 1)%Z.
Proof.
  intros Hwf. rewrite existsb_spec. split.
  - intros (a & Ha & (c & Hc & Hh)%existsb_spec). apply path_anc in Ha; [|done].
    pose proof (anc_range x Hwf t a Ha). destruct Hwf as [Hlen _].
    unfold hit in Hh. unbool. apply eqb_prop in H1. rewrite wrap32_small in H0 by lia. eauto 10.
  - intros (c & Hc & He & Hi & a & Ha & Hn). pose proof (anc_range x Hwf t a Ha).
    exists a. rewrite path_anc by done. split; [done|]. rewrite existsb_spec.
    exists c. split; [done|]. unfold hit. destruct Hwf as [Hlen _].
    rewrite wrap32_small, Hn, Z.eqb_refl, Hi, He, eqb_reflx by lia. done.
Qed.

Lemma depth0_hits t e cs :
  (0 <= t < 2 ^ 31 - 1)%Z ->
  existsb (fun c => (sc_node c =? wrap32 (t + 1))%Z && Bool.eqb (sc_Exclude c) e) cs = true <->
  exists c, c ∈ cs /\ sc_Exclude c = e /\ sc_node c = (t + 1)%Z.
Proof.
  intros Ht. rewrite existsb_spec. rewrite wrap32_small by lia. split.
  - intros (c & Hc & Hh). unbool. apply eqb_prop in H0. eauto.
  - intros (c & Hc & He & Hn). exists c. by rewrite Hn, Z.eqb_refl, He, eqb_reflx.
Qed.

(** [CoveredBy] decides "some include reaches the target and no exclude does". *)
Lemma CoveredBy_reaches x t cs :
  wf x -> (0 <= t < Z.of_nat (Len x))%Z ->
  exists b, CoveredBy x t cs = Some b /\
    (b = true <->
     (exists c, c ∈ cs /\ sc_Exclude c = false /\ reaches x t c) /\
     (forall c, c ∈ cs -> sc_Exclude c = true -> ~ reaches x t c)).
Proof.
  intros Hwf Ht. pose proof Hwf as [Hlen _].
  pose proof (depth0_hits t true cs ltac:(lia)) as D1.
  pose proof (depth0_hits t false cs ltac:(lia)) as D0.
  pose proof (path_hits x t true cs Hwf) as P1.
  pose proof (path_hits x t false cs Hwf) as P0.
  unfold CoveredBy. destruct (Z.ltb_spec t 0); [lia|].
  destruct (Z.leb_spec (Z.of_nat (Len x)) t); [lia|]. simpl orb. cbv iota.
  rewrite scan0_spec. simpl orb.
  assert (existsb (fun c => (sc_node c =? wrap32 (t + 1))%Z && sc_Exclude c) cs =
    existsb (fun c => (sc_node c =? wrap32 (t + 1))%Z && Bool.eqb (sc_Exclude c) true) cs) as ->.
  { clear. induction cs as [|c cs IH]; [done|]. simpl. f_equal; [|done].
    f_equal. by destruct (sc_Exclude c). }
  unfold reaches.
  destruct (existsb (fun c => (sc_node c =? wrap32 (t + 1))%Z && Bool.eqb (sc_Exclude c) true) cs) eqn:E1.
  { destruct (proj1 D1 eq_refl) as (c & Hc & He & Hn). exists false. split; [done|]. split; [done|].
    intros [_ Hno]. destruct (Hno c Hc He). by left. }
  assert (existsb (fun c => (sc_node c =? wrap32 (t + 1))%Z) cs =
    existsb (fun c => (sc_node c =? wrap32 (t + 1))%Z && Bool.eqb (sc_Exclude c) false) cs) as ->.
  { rewrite existsb_false in E1. apply eq_iff_eq_true. rewrite !existsb_spec.
    split; intros (c & Hc & H1); exists c; (split; [done|]).
    - specialize (E1 c Hc). simpl in E1. rewrite H1 in E1 |- *. by destruct (sc_Exclude c).
    - by apply andb_true_iff in H1 as [? _]. }
  assert (forall c, c ∈ cs -> sc_Exclude c = true -> sc_node c <> (t + 1)%Z) as Hno0.
  { intros c Hc He Hn. assert (false = true); [|done]. apply D1. eauto. }
  set (inc := existsb (fun c => (sc_node c =? wrap32 (t + 1))%Z && Bool.eqb (sc_Exclude c) false) cs) in *.
  destruct (inc && negb (existsb sc_Exclude cs)) eqn:E2.
  { exists true. split; [done|]. split; [|done]. intros _. unbool.
    apply D0 in H1 as (c & Hc & He & Hn). rewrite existsb_false in H2.
    split; [eauto|]. intros d Hd Hx. rewrite H2 in Hx; done. }
  destruct (existsb sc_Inherit cs) eqn:E3; simpl negb; cbv iota.
  2: { rewrite existsb_false in E3. exists inc. split; [done|]. rewrite D0. split.
    - intros (c & Hc & He & Hn). split; [by eauto 6|]. intros d Hd Hx [Hn'|(Hi & _)].
      + by eapply Hno0.
      + by rewrite E3 in Hi.
    - intros [(c & Hc & He & [Hn|(Hi & _)]) _]; [eauto|]. by rewrite E3 in Hi. }
  rewrite (parent_lookup x Hwf) by done.
  rewrite (walk_spec x Hwf) by (done || by apply nxt_range). eexists. split; [done|].
  rewrite andb_true_iff, negb_true_iff, orb_true_iff, D0, P0, <- not_true_iff_false, P1. split.
  - intros [Hne Hin]. split.
    + destruct Hin as [(c & ? & ? & ?)|(c & ? & ? & ? & ?)]; eauto 10.
    + intros c Hc He [Hn|(Hi & a & Ha & Hn)]; [by eapply Hno0|]. apply Hne. eauto 10.
  - intros [(c & Hc & He & Hr) Hno]. split.
    + intros (d & Hd & Hx & Hi & Ha). apply (Hno d Hd Hx). right. done.
    + destruct Hr as [Hn|(Hi & Ha)]; [left|right]; eauto 10.
Qed.

(** *** Construction *)

Lemma substring_mid (pre mid post : string) :
  String.substring (String.length pre) (String.length mid) (pre ++ mid ++ post) = mid.
Proof.
  induction pre as [|a pre IH]; [|exact IH].
  change (String.substring 0 (String.length mid) (mid ++ post) = mid)%string.
  induction mid as [|a mid IH]; [by destruct post|].
  change (String a (String.substring 0 (String.length mid) (mid ++ post)) = String a mid)%string.
  by rewrite IH.
Qed.

(** The map the first pass builds, without the slab. *)
Fixpoint id_map (nodes : list ScopeNode) (i : Z) (m : gmap string Z) : gmap string Z :=
  match nodes with
  | [] => m
  | nd :: rest => id_map rest (i + 1) (<[sn_ID nd := wrap32 i]> m)
  end.

Lemma concat_empty_cons (s : string) l :
  String.concat "" (s :: l) = (s ++ String.concat "" l)%string.
Proof.
  destruct l; simpl; [|done]. clear. induction s as [|a s IH]; [done|].
  change (String a s = String a (s ++ "")). by rewrite <- IH.
Qed.

Lemma string_length_app (s t : string) :
  String.length (s ++ t) = (String.length s + String.length t)%nat.
Proof. induction s as [|a s IH]; [done|]. change (S (String.length (s ++ t)) = S (String.length s + String.length t)). by rewrite IH. Qed.

Lemma string_app_assoc (s t u : string) : (s ++ (t ++ u) = (s ++ t) ++ u)%string.
Proof. induction s as [|a s IH]; [done|]. change (String a (s ++ t ++ u) = String a ((s ++ t) ++ u)). by rewrite IH. Qed.

(** The slab's slices are the ids: keying the map by them changes nothing. *)
Lemma slab_keys_ids pre nodes i m :
  slab_keys (pre ++ String.concat "" (map sn_ID nodes)) nodes i (String.length pre) m =
  id_map nodes i m.
Proof.
  revert pre i m. induction nodes as [|nd nodes IH]; intros pre i m; [done|].
  cbn [map slab_keys id_map]. rewrite concat_empty_cons, substring_mid.
  rewrite <- string_length_app, string_app_assoc. apply IH.
Qed.

Lemma NewScopeIndex_idx nodes : si_idx (NewScopeIndex nodes) = id_map nodes 0 ∅.
Proof. exact (slab_keys_ids "" nodes 0 ∅). Qed.

Lemma id_map_app l1 l2 i m :
  id_map (l1 ++ l2) i m = id_map l2 (i + Z.of_nat (length l1)) (id_map l1 i m).
Proof.
  revert i m. induction l1 as [|nd l1 IH]; intros i m; simpl; [by rewrite Z.add_0_r|].
  rewrite IH. f_equal. lia.
Qed.

(** With distinct ids, a node id resolves to its position. *)
Lemma Resolve_spec nodes id z :
  NoDup (map sn_ID nodes) -> (Z.of_nat (length nodes) < 2 ^ 31)%Z ->
  Resolve (NewScopeIndex nodes) id = Some z <->
  exists i nd, nodes !! i = Some nd /\ sn_ID nd = id /\ z = Z.of_nat i.
Proof.
  intros Hnd Hlen. unfold Resolve. rewrite NewScopeIndex_idx. revert Hnd Hlen z.
  induction nodes as [|nd nodes IH] using rev_ind; intros Hnd Hlen z.
  { simpl. rewrite lookup_empty. split; [done|]. intros (i & nd & Hi & _).
    by rewrite lookup_nil in Hi. }
  rewrite map_app in Hnd. rewrite length_app in Hlen. simpl in *.
  apply NoDup_app in Hnd as (Hnd & Hnew & _).
  rewrite id_map_app. simpl. rewrite lookup_insert. case_decide as Hid.
  - rewrite wrap32_small by lia. split.
    + intros [= <-]. exists (length nodes), nd. split; [by apply list_lookup_middle|]. split; [done|lia].
    + intros (i & nd' & Hi & Hid' & ->). f_equal.
      apply lookup_app_Some in Hi as [Hi|[Hge Hi]].
      * exfalso. apply (Hnew (sn_ID nd')); [|rewrite Hid', Hid; by left].
        apply list_elem_of_fmap. exists nd'. split; [done|]. apply list_elem_of_lookup. eauto.
      * apply lookup_lt_Some in Hi. simpl in Hi. lia.
  - rewrite IH by (done || lia). split; intros (i & nd' & Hi & Hid' & ->).
    + exists i, nd'. split; [by apply lookup_app_l_Some|done].
    + exists i, nd'. split; [|done]. apply lookup_app_Some in Hi as [Hi|[Hge Hi]]; [done|].
      destruct (i - length nodes)%nat; simpl in Hi; simplify_eq.
Qed.

Lemma id_map_range nodes i m k z :
  (0 <= i)%Z -> (i + Z.of_nat (length nodes) < 2 ^ 31)%Z ->
  (forall k z, m !! k = Some z -> 0 <= z < i)%Z ->
  id_map nodes i m !! k = Some z -> (0 <= z < i + Z.of_nat (length nodes))%Z.
Proof.
  revert i m. induction nodes as [|nd nodes IH]; intros i m Hi Hlen Hm Hk; simpl in *.
  { apply Hm in Hk. lia. }
  apply IH in Hk; [lia|lia|lia|]. intros k' z' Hk'. rewrite lookup_insert in Hk'.
  case_decide; [|by apply Hm in Hk'; lia]. simplify_eq. rewrite wrap32_small; lia.
Qed.

Lemma NewScopeIndex_wf nodes :
  (Z.of_nat (length nodes) < 2 ^ 31)%Z -> wf (NewScopeIndex nodes).
Proof.
  intros Hlen. unfold wf, Len. simpl. rewrite length_map. split; [done|].
  apply Forall_forall. intros p Hp. apply list_elem_of_fmap in Hp as (nd & -> & Hnd).
  unfold link_parent. change (slab_keys _ nodes 0 0 ∅) with (si_idx (NewScopeIndex nodes)).
  rewrite NewScopeIndex_idx. destruct (id_map nodes 0 ∅ !! sn_Parent nd) as [z|] eqn:E; [|lia].
  apply id_map_range in E; [|lia|lia|intros ?? Hk; by rewrite lookup_empty in Hk].
  case_bool_decide; lia.
Qed.

(** *** The hierarchy as the rows state it *)

(** [b] is the row [a]'s parent, and a row of the set. *)
Definition parent_of (nodes : list ScopeNode) (a b : string) : Prop :=
  exists nd nd', nd ∈ nodes /\ nd' ∈ nodes /\
    sn_ID nd = a /\ sn_Parent nd = b /\ sn_ID nd' = b /\ b <> ""%string.

(** The constraint names the target, or inherits and names a proper ancestor. *)
Definition covers (nodes : list ScopeNode) (target : string) (c : ScopeConstraint) : Prop :=
  sc_NodeID c = target \/ (sc_Inherit c = true /\ tc (parent_of nodes) target (sc_NodeID c)).

(** The answer of migration 0046: an include covers the target and no exclude does. *)
Definition admits (nodes : list ScopeNode) (target : string) (cs : list ScopeConstraint) : Prop :=
  (exists c, c ∈ cs /\ sc_Exclude c = false /\ covers nodes target c) /\
  (forall c, c ∈ cs -> sc_Exclude c = true -> ~ covers nodes target c).

Section Rows.
Context (nodes : list ScopeNode)
  (Hnd : NoDup (map sn_ID nodes))
  (Hlen : (Z.of_nat (length nodes) < 2 ^ 31)%Z).
Let x := NewScopeIndex nodes.

Lemma row_unique i j ndi ndj :
  nodes !! i = Some ndi -> nodes !! j = Some ndj -> sn_ID ndi = sn_ID ndj -> i = j.
Proof using Hnd.
  intros Hi Hj Heq. eapply (NoDup_lookup _ _ _ (sn_ID ndi) Hnd); rewrite list_lookup_fmap.
  - by rewrite Hi.
  - rewrite Hj. simpl. by rewrite Heq.
Qed.

Lemma Resolve_row i nd : nodes !! i = Some nd -> Resolve x (sn_ID nd) = Some (Z.of_nat i).
Proof using Hnd Hlen. intros Hi. apply Resolve_spec; eauto. Qed.

Lemma nxt_row i nd j :
  nodes !! i = Some nd ->
  nxt x (Z.of_nat i) = Z.of_nat j <->
  exists nd', nodes !! j = Some nd' /\ sn_Parent nd = sn_ID nd' /\ sn_Parent nd <> ""%string.
Proof using Hnd Hlen.
  intros Hi. unfold nxt. destruct (Z.ltb_spec (Z.of_nat i) 0); [lia|].
  rewrite Nat2Z.id. unfold x at 1, NewScopeIndex at 1. cbn [si_parent].
  rewrite list_lookup_fmap, Hi. simpl. unfold link_parent.
  change (slab_keys _ nodes 0 0 ∅) with (si_idx x).
  pose proof (Resolve_spec nodes (sn_Parent nd)) as Hr. fold x in Hr. unfold Resolve in Hr.
  destruct (si_idx x !! sn_Parent nd) as [p|] eqn:E.
  - destruct (proj1 (Hr p Hnd Hlen) eq_refl) as (j' & nd' & Hj' & Hid & ->).
    case_bool_decide as Hemp.
    + split; [lia|]. by intros (? & _ & _ & ?).
    + split.
      * intros ->%Nat2Z.inj. eauto.
      * intros (nd2 & Hj2 & Hid2 & _). f_equal. eapply row_unique; [done..|]. congruence.
  - split; [lia|]. intros (nd' & Hj & Hid & _).
    assert (None = Some (Z.of_nat j)); [|done]. apply (Hr (Z.of_nat j) Hnd Hlen). eauto.
Qed.

Lemma parent_of_rows i nd b :
  nodes !! i = Some nd ->
  parent_of nodes (sn_ID nd) b <->
  exists j nd', nodes !! j = Some nd' /\ b = sn_ID nd' /\ nxt x (Z.of_nat i) = Z.of_nat j.
Proof using Hnd Hlen.
  intros Hi. unfold parent_of. split.
  - intros (nd0 & nd' & (i0 & Hi0)%list_elem_of_lookup & (j & Hj)%list_elem_of_lookup & Ha & Hp & Hb & Hne).
    assert (i0 = i) as -> by (by eapply row_unique). simplify_eq.
    exists j, nd'. split; [done|]. split; [done|]. apply (nxt_row i nd j Hi). exists nd'.
    split; [done|]. split; [congruence|]. congruence.
  - intros (j & nd' & Hj & -> & Hn). apply (nxt_row i nd j Hi) in Hn as (nd2 & Hj2 & Hp & Hne).
    simplify_eq. exists nd, nd'. split_and!; try done.
    + apply list_elem_of_lookup. eauto.
    + apply list_elem_of_lookup. eauto.
    + congruence.
Qed.

Lemma nxt_nat n : (nxt x n < 0)%Z \/ exists j nd, nxt x n = Z.of_nat j /\ nodes !! j = Some nd.
Proof using Hlen.
  pose proof (nxt_range x (NewScopeIndex_wf nodes Hlen) n) as Hr.
  assert (Len x = length nodes) as Hl by (unfold Len; simpl; by rewrite length_map).
  destruct (Z.lt_ge_cases (nxt x n) 0); [by left|right].
  destruct (lookup_lt_is_Some_2 nodes (Z.to_nat (nxt x n))) as [nd Hj]; [lia|].
  exists (Z.to_nat (nxt x n)), nd. split; [lia|done].
Qed.

(** Proper ancestors of indices are proper ancestors of rows. *)
Lemma anc_rows i nd j nd' :
  nodes !! i = Some nd -> nodes !! j = Some nd' ->
  anc x (Z.of_nat i) (Z.of_nat j) <-> tc (parent_of nodes) (sn_ID nd) (sn_ID nd').
Proof using Hnd Hlen.
  intros Hi Hj. split.
  - intros (_ & k & Hk). revert i nd Hi Hk. induction k as [|k IH]; intros i nd Hi Hk.
    + apply tc_once. apply (parent_of_rows i nd _ Hi). simpl in Hk. eauto.
    + rewrite Nat.iter_succ_r in Hk. destruct (nxt_nat (Z.of_nat i)) as [Hneg|(m & ndm & Hm & Hmi)].
      * pose proof (iter_neg x (S k) _ Hneg). lia.
      * rewrite Hm in Hk. eapply tc_l; [|by eapply IH].
        apply (parent_of_rows i nd _ Hi). eauto.
  - intros Htc.
    enough (forall a b, tc (parent_of nodes) a b -> b = sn_ID nd' ->
      forall i nd, nodes !! i = Some nd -> sn_ID nd = a -> anc x (Z.of_nat i) (Z.of_nat j)) by eauto.
    clear i nd Hi Htc. intros a b Htc Hb.
    induction Htc as [a b Hp|a b' b Hp Htc IH]; intros i nd Hi <-.
    + destruct (proj1 (parent_of_rows i nd _ Hi) Hp) as (j' & nd2 & Hj2 & Hid & Hn).
      assert (j' = j) as -> by (eapply row_unique; [done..|congruence]).
      split; [lia|]. exists 0. by rewrite <- Hn.
    + destruct (proj1 (parent_of_rows i nd _ Hi) Hp) as (m & ndm & Hm & Hid & Hn).
      destruct (IH Hb m ndm Hm (eq_sym Hid)) as (? & k & Hk). split; [done|].
      exists (S k). rewrite Nat.iter_succ_r. by rewrite Hn.
Qed.

Lemma tc_target_known a b : tc (parent_of nodes) a b -> exists j nd, nodes !! j = Some nd /\ sn_ID nd = b.
Proof using.
  induction 1 as [a b (? & nd & _ & (j & Hj)%list_elem_of_lookup & _ & _ & ? & _)|]; eauto.
Qed.

Lemma reaches_covers i nd c :
  nodes !! i = Some nd -> sc_node c = 0%Z ->
  reaches x (Z.of_nat i) (intern1 x c) <-> covers nodes (sn_ID nd) c.
Proof using Hnd Hlen.
  intros Hi Hc0. pose proof (lookup_lt_Some _ _ _ Hi) as Hlt. unfold reaches, covers, intern1.
  pose proof (Resolve_spec nodes (sc_NodeID c)) as Hr. fold x in Hr. unfold Resolve in Hr.
  destruct (si_idx x !! sc_NodeID c) as [z|] eqn:E; simpl.
  - destruct (proj1 (Hr z Hnd Hlen) eq_refl) as (j & ndj & Hj & Hid & ->).
    pose proof (lookup_lt_Some _ _ _ Hj). rewrite wrap32_small by lia. rewrite <- Hid. split.
    + intros [Heq|(Hinh & a & Ha & Heq)].
      * left. assert (j = i) as -> by lia. congruence.
      * right. split; [done|]. assert (a = Z.of_nat j) as -> by lia. by apply (anc_rows i nd j ndj).
    + intros [Heq|(Hinh & Htc)].
      * left. assert (j = i) as -> by (by eapply row_unique). done.
      * right. split; [done|]. exists (Z.of_nat j). split; [|done]. by apply (anc_rows i nd j ndj).
  - assert (forall j ndj, nodes !! j = Some ndj -> sn_ID ndj <> sc_NodeID c) as Hno.
    { intros j ndj Hj Hid. assert (None = Some (Z.of_nat j)); [|done]. apply (Hr _ Hnd Hlen). eauto. }
    rewrite Hc0. split.
    + intros [?|(_ & a & (? & _) & ?)]; lia.
    + intros [Heq|(_ & Htc)]; [by eapply Hno in Hi|].
      apply tc_target_known in Htc as (j & ndj & Hj & Hid). by eapply Hno in Hj.
Qed.
End Rows.

(** [CoveredBy] on the index built from the rows decides [admits] on the rows. *)
Lemma CoveredBy_admits nodes target t cs :
  NoDup (map sn_ID nodes) -> (Z.of_nat (length nodes) < 2 ^ 31)%Z ->
  (forall c, c ∈ cs -> sc_node c = 0%Z) ->
  Resolve (NewScopeIndex nodes) target = Some t ->
  exists b, CoveredBy (NewScopeIndex nodes) t (Intern (NewScopeIndex nodes) cs) = Some b /\
    (b = true <-> admits nodes target cs).
Proof.
  intros Hnd Hlen H0 Hr. apply Resolve_spec in Hr as (i & nd & Hi & <- & ->); [|done..].
  pose proof (lookup_lt_Some _ _ _ Hi).
  destruct (CoveredBy_reaches (NewScopeIndex nodes) (Z.of_nat i) (Intern (NewScopeIndex nodes) cs))
    as (b & Hb & Hspec); [by apply NewScopeIndex_wf|unfold Len; simpl; rewrite length_map; lia|].
  exists b. split; [done|]. rewrite Hspec. unfold admits, Intern.
  assert (forall c, sc_Exclude (intern1 (NewScopeIndex nodes) c) = sc_Exclude c) as Hex.
  { intros c. unfold intern1. by destruct (si_idx _ !! _). }
  pose proof (reaches_covers nodes Hnd Hlen i nd) as Hrc. split.
  - intros [(c' & (c & -> & Hc)%list_elem_of_fmap & He & Hre) Hno]. rewrite Hex in He. split.
    + exists c. split; [done|]. split; [done|]. apply Hrc; auto.
    + intros d Hd Hx Hcov. apply (Hno (intern1 (NewScopeIndex nodes) d)); [by apply list_elem_of_fmap_2|by rewrite Hex|].
      apply Hrc; auto.
  - intros [(c & Hc & He & Hcov) Hno]. split.
    + exists (intern1 (NewScopeIndex nodes) c). split; [by apply list_elem_of_fmap_2|].
      rewrite Hex. split; [done|]. apply Hrc; auto.
    + intros c' (d & -> & Hd)%list_elem_of_fmap Hx Hre. rewrite Hex in Hx.
      apply (Hno d Hd Hx). apply Hrc; auto.
Qed.

End ScopeIdx.
