(* ===== verification/RoutePath.v ===== *)
(** internal/gate/routepath: path normalisation (normalize.go) and route
    matching (matcher.go).  [NormalizePath] and [decodeOnce] follow the Go
    functions statement by statement; the one error value ErrAmbiguousPath is
    [None].  The route table's element type is snapshot.Route (data.go). *)

From Stdlib Require Import ZArith Lia Bool Ascii String.
From stdpp Require Import base gmap strings list.
From S2P Require Import Prelude.
From S2P Require Import GoStrings.
From S2P Require Import Snapshot.

(** ** Normalisation (normalize.go) *)
Module Normalize.

Definition slash : ascii := "/"%char.

Definition unhex (c : ascii) : option Z :=
  let z := code c in
  (if (48 <=? z) && (z <=? 57) then Some (z - 48)
   else if (97 <=? z) && (z <=? 102) then Some (z - 97 + 10)
   else if (65 <=? z) && (z <=? 70) then Some (z - 65 + 10)
   else None)%Z.

Fixpoint decodeOnce (s : string) : option string :=
  match s with
  | EmptyString => Some EmptyString
  | String a s1 =>
      if bool_decide (a = "%"%char) then
        match s1 with
        | String h (String l s3) =>
            hi ← unhex h; lo ← unhex l; rest ← decodeOnce s3;
            Some (String (chr (Z.lor (Z.shiftl hi 4) lo)) rest)
        | _ => None
        end
      else rest ← decodeOnce s1; Some (String a rest)
  end.

(** The bytes the scan over the decoded path rejects. *)
Definition ambiguous_byte (c : ascii) : bool :=
  (code c <? 32)%Z || (code c =? 127)%Z || bool_decide (c = "\"%char) ||
  bool_decide (c = ";"%char) || bool_decide (c = "%"%char) || (code c =? 0)%Z ||
  bool_decide (c = "#"%char) || bool_decide (c = "?"%char).

(** The loop over the segments; [out] is the slice being built. *)
Fixpoint resolve_segs (encodedDots : bool) (segs out : list string) : option (list string) :=
  match segs with
  | [] => Some out
  | s :: segs' =>
      if bool_decide (s = "") then resolve_segs encodedDots segs' out
      else if bool_decide (s = ".") then
        if encodedDots then None else resolve_segs encodedDots segs' out
      else if bool_decide (s = "..") then
        if encodedDots then None
        else if bool_decide (length out = 0) then None
        else resolve_segs encodedDots segs' (take (length out - 1) out)
      else resolve_segs encodedDots segs' (out ++ [s])
  end%string.

Definition query_delim (c : ascii) : bool :=
  bool_decide (c = "?"%char) || bool_decide (c = "#"%char).

(** [raw] with the query and the fragment cut off. *)
Definition strip_query (raw : string) : string :=
  if str_existsb query_delim raw then
    let r := take_until query_delim raw in
    if bool_decide (r = ""%string) then "/"%string else r
  else raw.

Definition NormalizePath (raw : string) : option string :=
  match raw with
  | EmptyString => None
  | String a _ =>
      if negb (bool_decide (a = slash)) then None else
      let raw := strip_query raw in
      decoded ← decodeOnce raw;
      if negb (valid_utf8 decoded) then None else
      let encodedDots := str_contains "%2e" raw || str_contains "%2E" raw in
      if str_existsb ambiguous_byte decoded then None else
      let trailingSlash := has_suffix_byte slash decoded && negb (bool_decide (decoded = "/"%string)) in
      out ← resolve_segs encodedDots (split_on slash decoded) [];
      let norm := String slash (String.concat "/" out) in
      Some (if trailingSlash && negb (bool_decide (norm = "/"%string))
            then (norm ++ "/")%string else norm)
  end.

(** *** The canonical paths *)

Definition no_slash (s : string) : bool :=
  str_forallb (fun a => negb (bool_decide (a = slash))) s.

(** A segment normalisation lets through unchanged. *)
Definition good_seg (s : string) : bool :=
  negb (bool_decide (s = "")) && negb (bool_decide (s = ".")) && negb (bool_decide (s = "..")) &&
  no_slash s && valid_utf8 s && str_forallb (fun c => negb (ambiguous_byte c)) s.

(** ["/" + join(segs, "/")], with a trailing slash when there are segments. *)
Definition render (segs : list string) (trailing : bool) : string :=
  String slash (String.concat "/" segs) ++
    (if trailing && negb (bool_decide (segs = [])) then "/" else "").

Definition canonical (p : string) : Prop :=
  exists segs trailing, Forall (fun s => good_seg s = true) segs /\ p = render segs trailing.

(** *** Auxiliary lemmas *)

Lemma slash_ascii : (code slash < 128)%Z.
Proof. done. Qed.

Lemma decodeOnce_id s :
  str_forallb (fun c => negb (bool_decide (c = "%"%char))) s = true -> decodeOnce s = Some s.
Proof.
  induction s as [|a s IH]; [done|]. simpl. intros H. unbool.
  rewrite bool_decide_eq_false_2 by done. by rewrite IH.
Qed.

Lemma contains_needs_first c sub s :
  str_forallb (fun a => negb (bool_decide (a = c))) s = true ->
  str_contains (String c sub) s = false.
Proof.
  induction s as [|a s IH]; [done|]. simpl. intros H. unbool.
  destruct (ascii_dec c a) as [->|]; [done|]. by apply IH.
Qed.

Lemma existsb_of_forallb p q s :
  (forall a, q a = true -> p a = false) -> str_forallb q s = true -> str_existsb p s = false.
Proof.
  intros Hpq Hq. unfold str_existsb. rewrite negb_false_iff.
  eapply str_forallb_impl; [|exact Hq]. intros a Ha. simpl. by rewrite Hpq.
Qed.

Lemma good_seg_spec s :
  good_seg s = true <->
  (s <> "" /\ s <> "." /\ s <> "..")%string /\ no_slash s = true /\ valid_utf8 s = true /\
  str_forallb (fun c => negb (ambiguous_byte c)) s = true.
Proof.
  unfold good_seg. rewrite !andb_true_iff, !negb_true_iff, !bool_decide_eq_false. tauto.
Qed.

Lemma resolve_segs_good ed segs out res :
  (forall s, s ∈ segs -> s <> ""%string -> s <> "."%string -> s <> ".."%string -> good_seg s = true) ->
  Forall (fun s => good_seg s = true) out ->
  resolve_segs ed segs out = Some res ->
  Forall (fun s => good_seg s = true) res.
Proof.
  revert out. induction segs as [|s segs IH]; intros out Hs Hout; simpl.
  { intros [= ->]. done. }
  assert (forall s, s ∈ segs -> s <> ""%string -> s <> "."%string -> s <> ".."%string ->
    good_seg s = true) as Hs' by (intros x Hx; apply Hs; by right).
  repeat case_bool_decide; try (destruct ed; [done|]); eauto.
  - done.
  - intros Hr. eapply IH; [done| |exact Hr]. by apply Forall_take.
  - intros Hr. eapply IH; [done| |exact Hr]. apply Forall_app. split; [done|].
    constructor; [|constructor]. apply Hs; [by left|done..].
Qed.

(** Good segments are appended one by one. *)
Lemma resolve_segs_id ed segs out :
  Forall (fun s => good_seg s = true) segs -> resolve_segs ed segs out = Some (out ++ segs).
Proof.
  intros H. revert out. induction H as [|s segs Hs H IH]; intros out; simpl.
  { by rewrite app_nil_r. }
  apply good_seg_spec in Hs as ((? & ? & ?) & _).
  rewrite !bool_decide_eq_false_2 by done. rewrite IH. by rewrite <- app_assoc.
Qed.

Lemma resolve_segs_trailing ed segs out :
  resolve_segs ed (segs ++ [""%string]) out = resolve_segs ed segs out.
Proof.
  revert out. induction segs as [|s segs IH]; intros out; simpl; [done|].
  by repeat case_bool_decide; try destruct ed.
Qed.

Lemma concat_nil_iff segs :
  Forall (fun s => good_seg s = true) segs -> String.concat "/" segs = ""%string -> segs = [].
Proof.
  intros [|s l Hs _]; [done|]. apply good_seg_spec in Hs as ((? & _) & _).
  destruct l as [|s' l]; [done|]. destruct s; [done|]. done.
Qed.

Lemma render_eq segs (trailing : bool) :
  Forall (fun s => good_seg s = true) segs ->
  (let norm := String slash (String.concat "/" segs) in
   if trailing && negb (bool_decide (norm = "/"%string)) then (norm ++ "/")%string else norm)
  = render segs trailing.
Proof.
  intros H. unfold render.
  replace (bool_decide (String slash (String.concat "/" segs) = "/"%string))
    with (bool_decide (segs = [])).
  - simpl. destruct (trailing && negb (bool_decide (segs = []))); [done|].
    by rewrite str_app_nil_r.
  - apply bool_decide_ext. split; [by intros ->|]. intros [= Heq]. by apply concat_nil_iff.
Qed.

Lemma normalize_canonical_aux raw p : NormalizePath raw = Some p -> canonical p.
Proof.
  unfold NormalizePath. destruct raw as [|a raw']; [done|].
  case_bool_decide; [|done]. subst a. simpl negb. cbv iota.
  generalize (strip_query (String slash raw')) as raw. intros raw.
  destruct (decodeOnce raw) as [decoded|]; [|done]. simpl.
  destruct (valid_utf8 decoded) eqn:Hv; [|done]. simpl.
  destruct (str_existsb ambiguous_byte decoded) eqn:Ha; [done|].
  destruct (resolve_segs _ _ _) as [out|] eqn:Hr; [|done]. simpl. intros [= <-].
  assert (Forall (fun s => good_seg s = true) out) as Hout.
  { eapply resolve_segs_good; [|constructor|exact Hr]. intros s Hin ? ? ?.
    apply good_seg_spec. unfold str_existsb in Ha. rewrite negb_false_iff in Ha.
    split; [done|]. split; [|split].
    - pose proof (split_segs_no_sep slash decoded) as Hf. rewrite Forall_forall in Hf. by apply Hf.
    - rewrite (valid_utf8_split slash) in Hv by done. rewrite forallb_spec in Hv. by apply Hv.
    - by eapply str_forallb_split. }
  eexists out, _. split; [done|]. by apply render_eq.
Qed.

Lemma render_no_ambiguous segs trailing :
  Forall (fun s => good_seg s = true) segs ->
  str_forallb (fun c => negb (ambiguous_byte c)) (render segs trailing) = true.
Proof.
  intros H. unfold render. rewrite str_app_cons. simpl. rewrite str_forallb_app.
  rewrite str_forallb_concat; [|done|].
  - by destruct (trailing && _).
  - eapply Forall_impl; [exact H|]. intros s Hs. by apply good_seg_spec in Hs as (_ & _ & _ & ?).
Qed.

(** The segments of a rendered path, after the leading empty one. *)
Lemma split_render segs trailing :
  Forall (fun s => good_seg s = true) segs ->
  split_on slash (render segs trailing) =
    ""%string :: (if bool_decide (segs = []) then [""%string] else segs ++
           (if trailing then [""%string] else [])).
Proof.
  intros H. unfold render.
  assert (Forall (fun s => no_slash s = true) segs) as Hns.
  { eapply Forall_impl; [exact H|]. intros s Hs. by apply good_seg_spec in Hs as (_ & ? & _). }
  rewrite str_app_cons.
  change (String slash ?x) with (String slash "" ++ x)%string at 1.
  change (String slash "" ++ ?x)%string with ("" ++ String slash x)%string.
  rewrite split_app_sep by done. f_equal.
  case_bool_decide as Hn; [subst; by destruct trailing|].
  destruct trailing; simpl.
  - change "/"%string with (String slash "") at 2.
    replace (String.concat "/" segs ++ String slash "")%string
      with (String.concat (String slash "") (segs ++ [""%string])).
    + apply split_concat; [by destruct segs|]. apply Forall_app. split; [done|]. by repeat constructor.
    + clear H Hns. induction segs as [|s segs IH]; [done|]. destruct segs as [|s' segs]; [done|].
      change (String.concat (String slash "") ((s :: s' :: segs) ++ [""%string]))
        with (s ++ (String slash "" ++ String.concat (String slash "") ((s' :: segs) ++ [""%string])))%string.
      rewrite IH by done.
      change (String.concat "/" (s :: s' :: segs))
        with (s ++ (String slash "" ++ String.concat "/" (s' :: segs)))%string.
      by rewrite !str_app_assoc.
  - rewrite str_app_nil_r, app_nil_r. by apply split_concat.
Qed.

Lemma has_suffix_render segs trailing :
  Forall (fun s => good_seg s = true) segs -> segs <> [] ->
  has_suffix_byte slash (render segs trailing) = trailing.
Proof.
  intros H Hne. unfold render. rewrite (bool_decide_eq_false_2 (segs = [])) by done.
  rewrite andb_true_r. destruct trailing.
  - change (String slash (String.concat "/" segs) ++ (if true then "/" else ""))%string
      with (String slash (String.concat "/" segs) ++ String slash "")%string.
    rewrite has_suffix_byte_app. done.
  - rewrite str_app_nil_r.
    destruct (has_suffix_byte slash (String slash (String.concat "/" segs))) eqn:E; [|done].
    apply has_suffix_split in E as (l & Hl & Hlne). exfalso.
    pose proof (split_render segs false H) as Hs. unfold render in Hs.
    rewrite (bool_decide_eq_false_2 (segs = [])) in Hs by done. cbn [andb] in Hs.
    rewrite str_app_nil_r in Hs. rewrite Hs, app_nil_r in Hl.
    destruct l as [|x l]; [done|]. injection Hl as _ ->.
    apply Forall_app in H as [_ H]. inversion H as [|? ? Hx]; subst. done.
Qed.

Lemma valid_utf8_render segs trailing :
  Forall (fun s => good_seg s = true) segs -> valid_utf8 (render segs trailing) = true.
Proof.
  intros H. rewrite (valid_utf8_split slash) by done. rewrite split_render by done. simpl.
  assert (forallb valid_utf8 segs = true) as Hf.
  { apply forallb_spec. intros s Hs. rewrite Forall_forall in H.
    by apply H, good_seg_spec in Hs as (_ & _ & ? & _). }
  case_bool_decide; [done|]. rewrite forallb_app, Hf. by destruct trailing.
Qed.

Lemma not_ambiguous c :
  negb (ambiguous_byte c) = true -> c <> "%"%char /\ query_delim c = false.
Proof.
  unfold ambiguous_byte, query_delim. intros H. unbool.
  by rewrite !bool_decide_eq_false_2.
Qed.

(** A path every check leaves alone is resolved segment by segment. *)
Lemma normalize_unfold p r out :
  p = String slash r -> strip_query p = p -> decodeOnce p = Some p ->
  valid_utf8 p = true -> str_existsb ambiguous_byte p = false ->
  resolve_segs (str_contains "%2e" p || str_contains "%2E" p) (split_on slash p) [] = Some out ->
  NormalizePath p = Some
    (let norm := String slash (String.concat "/" out) in
     if has_suffix_byte slash p && negb (bool_decide (p = "/"%string)) &&
        negb (bool_decide (norm = "/"%string)) then (norm ++ "/")%string else norm).
Proof.
  intros Hp Hst Hdec Hv Hex Hr. unfold NormalizePath. destruct p as [|a r']; [done|].
  injection Hp as -> ->. rewrite bool_decide_eq_true_2 by done. cbn [negb].
  rewrite Hst, Hdec. cbn [mbind option_bind]. rewrite Hv, Hex. cbn [negb].
  rewrite Hr. done.
Qed.

Lemma normalize_render segs trailing :
  Forall (fun s => good_seg s = true) segs ->
  NormalizePath (render segs trailing) = Some (render segs trailing).
Proof.
  intros H. pose proof (render_no_ambiguous segs trailing H) as Hamb.
  assert (str_forallb (fun c => negb (bool_decide (c = "%"%char))) (render segs trailing) = true) as Hpct.
  { eapply str_forallb_impl; [|exact Hamb]. intros c Hc. simpl in Hc.
    apply not_ambiguous in Hc as [? _]. by rewrite bool_decide_eq_false_2. }
  assert (strip_query (render segs trailing) = render segs trailing) as Hst.
  { unfold strip_query. erewrite existsb_of_forallb; [done| |exact Hamb].
    intros a Ha. by apply not_ambiguous in Ha as [_ ?]. }
  assert (str_existsb ambiguous_byte (render segs trailing) = false) as Hex.
  { eapply existsb_of_forallb; [|exact Hamb]. intros a Ha. by apply negb_true_iff. }
  assert (resolve_segs
    (str_contains "%2e" (render segs trailing) || str_contains "%2E" (render segs trailing))
    (split_on slash (render segs trailing)) [] = Some segs) as Hr.
  { rewrite split_render by done. simpl. case_bool_decide; [by subst|]. destruct trailing.
    - rewrite resolve_segs_trailing. by rewrite resolve_segs_id.
    - rewrite app_nil_r. by rewrite resolve_segs_id. }
  rewrite (normalize_unfold (render segs trailing) _ segs eq_refl Hst (decodeOnce_id _ Hpct)
             (valid_utf8_render _ _ H) Hex Hr). f_equal.
  destruct segs as [|s segs]; [by destruct trailing|].
  rewrite has_suffix_render by done.
  assert (render (s :: segs) trailing <> "/"%string) as Hne.
  { intros Heq. pose proof (split_render (s :: segs) trailing H) as Hs. rewrite Heq in Hs.
    inversion H as [|? ? Hs0]; subst. apply good_seg_spec in Hs0 as ((? & _) & _).
    rewrite bool_decide_eq_false_2 in Hs by done. injection Hs as ? ?. done. }
  rewrite (bool_decide_eq_false_2 _ Hne), andb_true_r. by rewrite <- render_eq.
Qed.

End Normalize.

(** ** Matching (matcher.go) *)
Module Matcher.

Definition methodMatch (methods : list string) (m : string) : bool :=
  existsb (fun allow => bool_decide (allow = "*"%string) || equal_fold allow m) methods
  || bool_decide (length methods = 0).

(** [strings.Cut(host, ":")] keeps what precedes the first colon. *)
Definition hostMatch (pattern host : string) : bool :=
  equal_fold pattern (take_until (fun c => bool_decide (c = ":"%char)) host).

Definition splitSegs (p : string) : list string :=
  let p := trim "/"%char p in
  if bool_decide (p = ""%string) then [] else split_on "/"%char p.

(** [len(seg) > 1 && seg[0] == '{' && seg[len(seg)-1] == '}'] *)
Definition is_capture (seg : string) : bool :=
  (1 <? String.length seg)%nat &&
  match seg with
  | String a _ => bool_decide (a = "{"%char)
  | EmptyString => false
  end && has_suffix_byte "}"%char seg.

(** [seg[1:len(seg)-1]] *)
Definition capture_name (seg : string) : string := str_init (str_drop 1 seg).

(** The loop over the pattern's segments; the position [i] is what has been
    dropped from both lists, and [None] is the result [_, false]. *)
Fixpoint match_segs (ps xs : list string) (params : gmap string string)
    : option (gmap string string) :=
  match ps with
  | [] => if bool_decide (xs = []) then Some params else None
  | seg :: ps' =>
      if bool_decide (seg = "**"%string) then
        if bool_decide (ps' = []) && negb (bool_decide (xs = [])) then Some params else None
      else match xs with
           | [] => None
           | x :: xs' =>
               if bool_decide (seg = "*"%string) then match_segs ps' xs' params
               else if is_capture seg then
                 match_segs ps' xs' (<[capture_name seg := x]> params)
               else if bool_decide (seg = x) then match_segs ps' xs' params
               else None
           end
  end.

(** A nil [params] and an empty one are both ∅: the callers only read them. *)
Definition pathMatch (pattern path : string) : option (gmap string string) :=
  match_segs (splitSegs pattern) (splitSegs path) ∅.

(** The loop body: [None] is [continue]. *)
Definition route_accepts (r : Route) (host method normPath : string)
    : option (gmap string string) :=
  if negb (bool_decide (r_HostPattern r = ""%string)) && negb (hostMatch (r_HostPattern r) host)
  then None
  else if negb (methodMatch (r_Methods r) method) then None
  else pathMatch (r_PathPattern r) normPath.

Fixpoint Match (routes : list Route) (host method normPath : string)
    : option (Route * gmap string string) :=
  match routes with
  | [] => None
  | r :: routes' =>
      match route_accepts r host method normPath with
      | Some params => Some (r, params)
      | None => Match routes' host method normPath
      end
  end.

(** *** What a pattern stands for *)

(** Segment [x] at a position whose pattern segment is [seg], given captures. *)
Definition seg_ok (params : gmap string string) (seg x : string) : Prop :=
  seg <> "**"%string /\
  (seg = "*"%string \/
   (seg <> "*"%string /\ is_capture seg = true /\ params !! capture_name seg = Some x) \/
   (seg <> "*"%string /\ is_capture seg = false /\ seg = x)).

(** The captures of a pattern, in order. *)
Definition captures (ps : list string) : list string :=
  map capture_name (List.filter (fun s => negb (bool_decide (s = "*"%string)) && is_capture s) ps).

(** Positions agree one by one, or up to a final [**] that swallows a
    non-empty rest. *)
Definition segs_agree (ps xs : list string) (params : gmap string string) : Prop :=
  Forall2 (seg_ok params) ps xs \/
  exists ps' ys rest, ps = ps' ++ ["**"%string] /\ xs = ys ++ rest /\ rest <> [] /\
    Forall2 (seg_ok params) ps' ys.

Lemma captures_cons seg ps :
  seg <> "*"%string -> is_capture seg = true -> captures (seg :: ps) = capture_name seg :: captures ps.
Proof. intros Hn Hc. unfold captures. simpl. by rewrite bool_decide_eq_false_2, Hc by done. Qed.

Lemma captures_skip seg ps :
  seg = "*"%string \/ is_capture seg = false -> captures (seg :: ps) = captures ps.
Proof.
  unfold captures. simpl. intros [->|Hc]; [done|]. rewrite Hc, andb_false_r. done.
Qed.

Lemma seg_ok_mono params params' seg x :
  params ⊆ params' -> seg_ok params seg x -> seg_ok params' seg x.
Proof.
  intros Hsub (Hn & [H|[(H1 & H2 & H3)|H]]); (split; [done|]); [by left|right; left|by right; right].
  split_and!; try done. by eapply lookup_weaken.
Qed.

(** Captures never collide, so what was captured stays captured. *)
Lemma match_segs_sound ps xs params res :
  NoDup (captures ps) -> (forall k, k ∈ captures ps -> params !! k = None) ->
  match_segs ps xs params = Some res ->
  params ⊆ res /\ segs_agree ps xs res /\
  (forall k, is_Some (res !! k) -> is_Some (params !! k) \/ k ∈ captures ps).
Proof.
  revert xs params. induction ps as [|seg ps IH]; intros xs params Hnd Hfresh Hm; simpl in Hm.
  { case_bool_decide; [|done]. simplify_eq. split; [done|]. split; [by left|auto]. }
  case_bool_decide as Hss.
  { destruct (bool_decide (ps = []) && negb (bool_decide (xs = []))) eqn:E; [|done].
    simplify_eq. unbool. subst. split; [done|]. split; [|auto].
    right. exists [], [], xs. done. }
  destruct xs as [|x xs]; [done|].
  assert (forall params', params ⊆ params' ->
    NoDup (captures ps) -> (forall k, k ∈ captures ps -> params' !! k = None) ->
    (forall res, params' ⊆ res -> seg_ok res seg x) ->
    (forall k, is_Some (params' !! k) -> is_Some (params !! k) \/ k ∈ captures (seg :: ps)) ->
    (forall k, k ∈ captures ps -> k ∈ captures (seg :: ps)) ->
    match_segs ps xs params' = Some res ->
    params ⊆ res /\ segs_agree (seg :: ps) (x :: xs) res /\
    (forall k, is_Some (res !! k) -> is_Some (params !! k) \/ k ∈ captures (seg :: ps))) as Hstep.
  { intros params' Hsub Hnd' Hf' Hok Hk1 Hk2 Hr.
    destruct (IH xs params' Hnd' Hf' Hr) as (Hs & Hag & Hks). split; [by etrans|]. split.
    - destruct Hag as [Hag|(ps' & ys & rest & -> & -> & Hne & Hag)].
      + left. constructor; [by apply Hok|done].
      + right. exists (seg :: ps'), (x :: ys), rest. split_and!; try done.
        constructor; [by apply Hok|done].
    - intros k Hk. destruct (Hks k Hk); auto. }
  case_bool_decide as Hstar.
  { rewrite captures_skip in Hnd, Hfresh by auto. apply (Hstep params); try done; auto.
    - intros r _. split; [done|]. by left.
    - intros k. by rewrite captures_skip by auto. }
  destruct (is_capture seg) eqn:Hcap.
  - rewrite captures_cons in Hnd, Hfresh by done. apply NoDup_cons in Hnd as [Hnew Hnd].
    apply (Hstep (<[capture_name seg := x]> params)); try done.
    + apply insert_subseteq. apply Hfresh. by left.
    + intros k Hk. rewrite lookup_insert_ne; [apply Hfresh; by right|]. intros <-. done.
    + intros r Hr. split; [done|]. right. left. split_and!; try done.
      eapply lookup_weaken; [|exact Hr]. by rewrite lookup_insert_eq.
    + intros k Hk. rewrite captures_cons by done.
      destruct (decide (k = capture_name seg)) as [->|]; [right; by left|].
      rewrite lookup_insert_ne in Hk by done. by left.
    + intros k Hk. rewrite captures_cons by done. by right.
  - case_bool_decide; [|done]. subst. rewrite captures_skip in Hnd, Hfresh by auto.
    apply (Hstep params); try done; auto.
    + intros r _. split; [done|]. right. by right.
    + intros k. by rewrite captures_skip by auto.
Qed.

Lemma match_segs_complete ps xs params goal :
  (forall k v, params !! k = Some v -> goal !! k = Some v) ->
  segs_agree ps xs goal -> is_Some (match_segs ps xs params).
Proof.
  revert xs params. induction ps as [|seg ps IH]; intros xs params Hsub Hag; simpl.
  { destruct Hag as [Hag|(ps' & ys & rest & Heq & _)]; [|by destruct ps'].
    apply Forall2_nil_inv_l in Hag as ->. by eexists. }
  case_bool_decide as Hss.
  { destruct Hag as [Hag|(ps' & ys & rest & Heq & -> & Hne & Hag)].
    - apply Forall2_cons_inv_l in Hag as (x & xs' & (Hn & _) & _). by destruct Hn.
    - destruct ps' as [|p ps']; simplify_eq/=.
      + apply Forall2_nil_inv_l in Hag as ->. destruct rest as [|r rest]; [done|]. by eexists.
      + apply Forall2_cons_inv_l in Hag as (x & xs' & (Hn & _) & _). by destruct Hn. }
  assert (exists x xs', xs = x :: xs' /\ seg_ok goal seg x /\ segs_agree ps xs' goal)
    as (x & xs' & -> & (_ & Hok) & Hag').
  { destruct Hag as [Hag|(ps' & ys & rest & Heq & -> & Hne & Hag)].
    - apply Forall2_cons_inv_l in Hag as (x & xs' & Hx & Hr & ->).
      exists x, xs'. split; [done|]. split; [done|]. by left.
    - destruct ps' as [|p ps']; simplify_eq/=.
      apply Forall2_cons_inv_l in Hag as (x & xs' & Hx & Hr & ->).
      exists x, (xs' ++ rest). split; [done|]. split; [done|]. right. by exists ps', xs', rest. }
  destruct Hok as [->|[(Hn & Hcap & Hp)|(Hn & Hcap & ->)]].
  - rewrite bool_decide_eq_true_2 by done. by apply (IH xs' params).
  - rewrite bool_decide_eq_false_2, Hcap by done. apply (IH xs'); [|done].
    intros k v. rewrite lookup_insert. case_decide; [intros; by simplify_eq|by apply Hsub].
  - rewrite bool_decide_eq_false_2, Hcap, bool_decide_eq_true_2 by done. by apply (IH xs' params).
Qed.

End Matcher.
