(* ===== verification/Evaluator.v ===== *)
(** internal/gate/snapshot: the decision engine (evaluator.go, share.go, and
    InternGrantScopes of data.go), with its declarative specification
    [authorizes], the rules migration 0046 states. *)

From Stdlib Require Import ZArith Lia Bool Ascii String.
From stdpp Require Import base gmap strings list.
From S2P Require Import Prelude.
From S2P Require Import Snapshot.

Module Evaluator.
Import ScopeIdx.

(** ** Operations *)

Definition intern_grant (x : ScopeIndex) (g : Grant) : Grant :=
  {| g_ID := g_ID g; g_RoleID := g_RoleID g; g_SelfScoped := g_SelfScoped g;
     g_ValidFrom := g_ValidFrom g; g_ValidUntil := g_ValidUntil g;
     g_Scopes := Intern x <$> g_Scopes g |}.

Definition InternGrantScopes (d : Data) : Data :=
  {| d_TenantID := d_TenantID d; d_TenantSlug := d_TenantSlug d; d_Version := d_Version d;
     d_LoadedAt := d_LoadedAt d; d_BuiltAt := d_BuiltAt d; d_StrictAxes := d_StrictAxes d;
     d_Scope := d_Scope d;
     d_GrantsByIdentity := map (intern_grant (d_Scope d)) <$> d_GrantsByIdentity d;
     d_SharesByIdentity := d_SharesByIdentity d; d_RolePermissions := d_RolePermissions d;
     d_Permissions := d_Permissions d; d_Identities := d_Identities d;
     d_RevokedSessions := d_RevokedSessions d; d_Routes := d_Routes d |}.

(** A read of a [map[string]bool]: absent is false. *)
Definition flag (m : gmap string bool) (k : string) : bool := default false (m !! k).

Definition role_confers (d : Data) (role permission : string) : bool :=
  flag (default ∅ (d_RolePermissions d !! role)) permission.

Definition grants_of (d : Data) (id : string) : list Grant :=
  default [] (d_GrantsByIdentity d !! id).

(** [CoveredBy] with its panic (which [CoveredBy_admits] excludes) read as false. *)
Definition covered (x : ScopeIndex) (node : Z) (cs : list ScopeConstraint) : bool :=
  default false (CoveredBy x node cs).

(** Resolve a target and ask whether the constraints cover it. *)
Definition target_covered (d : Data) (target : string) (cs : list ScopeConstraint) : bool :=
  match Resolve (d_Scope d) target with
  | None => false
  | Some node => covered (d_Scope d) node cs
  end.

Definition grantScopesSatisfied (d : Data) (g : Grant) (targets : gmap string string) : bool :=
  map_all (fun axis constraints =>
    match targets !! axis with
    | None => false
    | Some target => target_covered d target constraints
    end) (g_Scopes g).

Definition strictAxesAddressed (d : Data) (g : Grant) : bool :=
  map_all (fun axis _ => bool_decide (is_Some (g_Scopes g !! axis))) (d_StrictAxes d).

Definition sharedRecordAllows (d : Data) (identityID permission record : string) (now : Time) : bool :=
  existsb (fun s => bool_decide (sh_Record s = record) && time_after (sh_ValidUntil s) now &&
                    flag (sh_Permissions s) permission)
    (default [] (d_SharesByIdentity d !! identityID)).

(** One iteration of the loop over the grants: true is [return true]. *)
Definition grant_allows (d : Data) (identityID permission : string)
    (targets : gmap string string) (now : Time) (g : Grant) : bool :=
  if time_after (g_ValidFrom g) now then false
  else if negb (time_is_zero (g_ValidUntil g)) && negb (time_after (g_ValidUntil g) now) then false
  else if negb (role_confers d (g_RoleID g) permission) then false
  else if g_SelfScoped g && negb (bool_decide (targets !! "_owner" = Some identityID)) then false
  else if negb (grantScopesSatisfied d g targets) then false
  else if negb (strictAxesAddressed d g) then false
  else true.

Definition Evaluate (d : Data) (identityID permission : string)
    (targets : gmap string string) (now : Time) : bool :=
  match d_Identities d !! identityID with
  | None => false
  | Some ident =>
      if i_Blocked ident then false
      else match d_Permissions d !! permission with
      | None => false
      | Some perm =>
          if (i_AssuranceLevel ident <? p_MinAssurance perm)%Z then false
          else if existsb (grant_allows d identityID permission targets now) (grants_of d identityID)
          then true
          else match targets !! "_record" with
               | Some record => sharedRecordAllows d identityID permission record now
               | None => false
               end
      end
  end.

Definition SessionAlive (d : Data) (sessionID : string) (epoch : Z) (identityID : string) : bool :=
  if flag (d_RevokedSessions d) sessionID then false
  else match d_Identities d !! identityID with
       | None => false
       | Some ident => if i_Blocked ident then false else (i_TokenEpoch ident =? epoch)%Z
       end.

(** ** Specification *)

(** What the loader guarantees before InternGrantScopes runs. *)
Record loaded (nodes : list ScopeNode) (d : Data) : Prop := {
  loaded_index : d_Scope d = NewScopeIndex nodes;
  loaded_ids : NoDup (map sn_ID nodes);
  loaded_size : (Z.of_nat (length nodes) < 2 ^ 31)%Z;
  loaded_raw : forall id g axis cs c, g ∈ grants_of d id -> g_Scopes g !! axis = Some cs ->
    c ∈ cs -> sc_node c = 0%Z
}.

Definition known_node (nodes : list ScopeNode) (t : string) : Prop :=
  exists nd, nd ∈ nodes /\ sn_ID nd = t.

Definition live (g : Grant) (now : Time) : Prop :=
  (g_ValidFrom g <= now)%Z /\ (g_ValidUntil g = 0%Z \/ (now < g_ValidUntil g)%Z).

(** The gates every question passes before any grant is looked at. *)
Definition gates_open (d : Data) (id permission : string) : Prop :=
  exists ident perm, d_Identities d !! id = Some ident /\ i_Blocked ident = false /\
    d_Permissions d !! permission = Some perm /\
    (p_MinAssurance perm <= i_AssuranceLevel ident)%Z.

Definition strict_ok (d : Data) (g : Grant) : Prop :=
  forall axis, is_Some (d_StrictAxes d !! axis) -> is_Some (g_Scopes g !! axis).

(** Every constrained axis has a known target its constraints admit. *)
Definition axes_ok (nodes : list ScopeNode) (g : Grant) (targets : gmap string string) : Prop :=
  forall axis cs, g_Scopes g !! axis = Some cs ->
    exists t, targets !! axis = Some t /\ known_node nodes t /\ admits nodes t cs.

Definition grant_ok (nodes : list ScopeNode) (d : Data) (id permission : string)
    (targets : gmap string string) (now : Time) (g : Grant) : Prop :=
  live g now /\ role_confers d (g_RoleID g) permission = true /\
  (g_SelfScoped g = true -> targets !! "_owner" = Some id) /\
  axes_ok nodes g targets /\ strict_ok d g.

Definition share_ok (permission record : string) (now : Time) (s : Share) : Prop :=
  sh_Record s = record /\ (now < sh_ValidUntil s)%Z /\ flag (sh_Permissions s) permission = true.

Definition authorizes (nodes : list ScopeNode) (d : Data) (id permission : string)
    (targets : gmap string string) (now : Time) : Prop :=
  gates_open d id permission /\
  ((exists g, g ∈ grants_of d id /\ grant_ok nodes d id permission targets now g) \/
   (exists record s, targets !! "_record" = Some record /\
      s ∈ default [] (d_SharesByIdentity d !! id) /\ share_ok permission record now s)).

(** ** Lemmas *)

Lemma live_bool g now :
  time_after (g_ValidFrom g) now = false /\
  negb (time_is_zero (g_ValidUntil g)) && negb (time_after (g_ValidUntil g) now) = false <->
  live g now.
Proof.
  unfold live, time_after, time_is_zero.
  rewrite andb_false_iff, !negb_false_iff, Z.ltb_ge, Z.eqb_eq, Z.ltb_lt. done.
Qed.

Lemma strictAxesAddressed_spec d g : strictAxesAddressed d g = true <-> strict_ok d g.
Proof.
  unfold strictAxesAddressed, strict_ok. rewrite map_all_spec. split.
  - intros H axis [v Hv]. apply H in Hv. by apply bool_decide_eq_true in Hv.
  - intros H axis v Hv. apply bool_decide_eq_true. apply H. eauto.
Qed.

Lemma strict_ok_intern d d' x g :
  d_StrictAxes d' = d_StrictAxes d -> strict_ok d' (intern_grant x g) <-> strict_ok d g.
Proof.
  intros Hd. unfold strict_ok. rewrite Hd. simpl.
  assert (forall axis, (Intern x <$> g_Scopes g) !! axis = Intern x <$> (g_Scopes g !! axis)) as Hf.
  { intros axis. apply lookup_fmap. }
  split; intros H axis Ha; specialize (H axis Ha).
  - by rewrite Hf, fmap_is_Some in H.
  - by rewrite Hf, fmap_is_Some.
Qed.

Lemma grants_of_intern d id :
  grants_of (InternGrantScopes d) id = map (intern_grant (d_Scope d)) (grants_of d id).
Proof.
  unfold grants_of. simpl. rewrite lookup_fmap. by destruct (d_GrantsByIdentity d !! id).
Qed.

Lemma known_node_resolve nodes t :
  NoDup (map sn_ID nodes) -> (Z.of_nat (length nodes) < 2 ^ 31)%Z ->
  known_node nodes t <-> is_Some (Resolve (NewScopeIndex nodes) t).
Proof.
  intros Hnd Hlen. split.
  - intros (nd & (i & Hi)%list_elem_of_lookup & Hid). exists (Z.of_nat i).
    apply Resolve_spec; eauto.
  - intros [z Hz]. apply Resolve_spec in Hz as (i & nd & Hi & Hid & _); [|done..].
    exists nd. split; [|done]. apply list_elem_of_lookup. eauto.
Qed.

Lemma shared_spec d id permission record now :
  sharedRecordAllows d id permission record now = true <->
  exists s, s ∈ default [] (d_SharesByIdentity d !! id) /\ share_ok permission record now s.
Proof.
  unfold sharedRecordAllows, share_ok, time_after. rewrite existsb_spec.
  split; intros (s & Hs & H); exists s; (split; [done|]).
  - unbool. auto.
  - destruct H as (-> & Hlt & ->). rewrite bool_decide_eq_true_2 by done.
    apply Z.ltb_lt in Hlt. by rewrite Hlt.
Qed.

(** Behind closed gates the answer is no; behind open ones it is the grants'
    and the shares'. *)
Lemma Evaluate_gates d id permission targets now :
  Evaluate d id permission targets now = true <->
  gates_open d id permission /\
  (existsb (grant_allows d id permission targets now) (grants_of d id) = true \/
   exists record, targets !! "_record" = Some record /\
     sharedRecordAllows d id permission record now = true).
Proof.
  unfold Evaluate, gates_open. split.
  - destruct (d_Identities d !! id) as [ident|] eqn:?; [|done].
    destruct (i_Blocked ident) eqn:?; [done|].
    destruct (d_Permissions d !! permission) as [perm|] eqn:?; [|done].
    destruct (Z.ltb_spec (i_AssuranceLevel ident) (p_MinAssurance perm)); [done|].
    intros H'. split; [by eauto 10|]. destruct (existsb _ _); [by left|right].
    destruct (targets !! "_record"); [eauto|done].
  - intros [(ident & perm & -> & -> & -> & Hle) H].
    destruct (Z.ltb_spec (i_AssuranceLevel ident) (p_MinAssurance perm)); [lia|].
    destruct H as [->|(r & -> & Hs)]; [done|]. by destruct (existsb _ _).
Qed.

Section Loaded.
Context (nodes : list ScopeNode) (d : Data) (Hload : loaded nodes d).

Lemma covered_admits target t cs :
  (forall c, c ∈ cs -> sc_node c = 0%Z) ->
  Resolve (d_Scope d) target = Some t ->
  covered (d_Scope d) t (Intern (d_Scope d) cs) = true <-> admits nodes target cs.
Proof using Hload.
  intros H0 Hr. rewrite (loaded_index _ _ Hload) in *. destruct Hload as [_ Hnd Hlen _].
  unfold covered. destruct (CoveredBy_admits nodes target t cs Hnd Hlen H0 Hr) as (b & -> & Hb).
  exact Hb.
Qed.

Lemma target_covered_spec target cs :
  (forall c, c ∈ cs -> sc_node c = 0%Z) ->
  target_covered (InternGrantScopes d) target (Intern (d_Scope d) cs) = true <->
  known_node nodes target /\ admits nodes target cs.
Proof using Hload.
  intros H0. unfold target_covered. simpl.
  pose proof (known_node_resolve nodes target (loaded_ids _ _ Hload) (loaded_size _ _ Hload)) as Hk.
  rewrite <- (loaded_index _ _ Hload) in Hk.
  destruct (Resolve (d_Scope d) target) as [t|] eqn:Hr.
  - rewrite (covered_admits target t cs H0 Hr). rewrite Hk. split; [|tauto].
    intros; split; [eauto|done].
  - split; [done|]. intros [Hn _]. apply Hk in Hn. by destruct Hn.
Qed.

Lemma grantScopesSatisfied_spec id g targets :
  g ∈ grants_of d id ->
  grantScopesSatisfied (InternGrantScopes d) (intern_grant (d_Scope d) g) targets = true <->
  axes_ok nodes g targets.
Proof using Hload.
  intros Hg. unfold grantScopesSatisfied, axes_ok. rewrite map_all_spec. simpl. split.
  - intros H axis cs Hcs. specialize (H axis (Intern (d_Scope d) cs)).
    rewrite lookup_fmap, Hcs in H. specialize (H eq_refl).
    destruct (targets !! axis) as [t|]; [|done]. exists t. split; [done|].
    apply target_covered_spec; [|done]. intros c Hc. by eapply (loaded_raw _ _ Hload).
  - intros H axis cs'. rewrite lookup_fmap. intros (cs & Hcs & ->)%fmap_Some.
    destruct (H axis cs Hcs) as (t & -> & Hk & Ha). apply target_covered_spec; [|done].
    intros c Hc. by eapply (loaded_raw _ _ Hload).
Qed.

Lemma grant_allows_spec id permission targets now g :
  g ∈ grants_of d id ->
  grant_allows (InternGrantScopes d) id permission targets now (intern_grant (d_Scope d) g) = true
  <-> grant_ok nodes d id permission targets now g.
Proof using Hload.
  intros Hg. unfold grant_allows, grant_ok. rewrite <- live_bool. cbn [intern_grant g_ValidFrom g_ValidUntil g_RoleID g_SelfScoped].
  rewrite <- (grantScopesSatisfied_spec id g targets Hg).
  rewrite <- (strict_ok_intern d (InternGrantScopes d) (d_Scope d) g eq_refl).
  rewrite <- strictAxesAddressed_spec.
  change (role_confers (InternGrantScopes d)) with (role_confers d).
  destruct (time_after (g_ValidFrom g) now); [intuition congruence|].
  destruct (negb (time_is_zero _) && negb _); [intuition congruence|].
  destruct (role_confers d (g_RoleID g) permission); simpl; [|intuition congruence].
  destruct (g_SelfScoped g); simpl; [case_bool_decide; simpl|];
    destruct (grantScopesSatisfied _ _ _); simpl; try (intuition congruence);
    destruct (strictAxesAddressed _ _); simpl; intuition congruence.
Qed.

Lemma Evaluate_authorizes_aux id permission targets now :
  Evaluate (InternGrantScopes d) id permission targets now = true <->
  authorizes nodes d id permission targets now.
Proof using Hload.
  rewrite Evaluate_gates. unfold authorizes.
  change (gates_open (InternGrantScopes d)) with (gates_open d).
  change (sharedRecordAllows (InternGrantScopes d)) with (sharedRecordAllows d).
  rewrite existsb_spec, grants_of_intern.
  setoid_rewrite shared_spec. split; intros [Hg H]; (split; [done|]).
  - destruct H as [(g' & (g & -> & Hin)%list_elem_of_fmap & Ha)|(r & Hr & s & Hs & Hok)].
    + left. exists g. split; [done|]. by apply grant_allows_spec in Ha.
    + right. eauto.
  - destruct H as [(g & Hin & Ha)|(r & s & Hr & Hs & Hok)].
    + left. exists (intern_grant (d_Scope d) g). split; [by apply list_elem_of_fmap_2|].
      by apply grant_allows_spec.
    + right. eauto.
Qed.
End Loaded.

End Evaluator.
