(* ===== verification/GrantedNodes.v ===== *)
(** internal/gate/snapshot/granted_nodes.go, with the answer types of
    internal/authz/domain/granted: "where may they", the decision engine with
    one axis left open. *)

From Stdlib Require Import ZArith Lia Bool Ascii String.
From stdpp Require Import base gmap strings list sorting.
From S2P Require Import Prelude.
From S2P Require Import GoStrings.
From S2P Require Import Snapshot.
From S2P Require Import Evaluator.

Module GrantedNodes.
Import ScopeIdx Evaluator.

(** ** Data (granted/node.go, granted/nodes.go) *)

#[warnings="-register-all"]
Inductive Node := mkNode {
  n_NodeID : string;
  n_Inherit : bool;
  n_Except : list Node
}.

Record Nodes := {
  ns_Everywhere : bool;
  ns_OwnRecords : bool;
  ns_Nodes : list Node;
  ns_AsOf : Time
}.

(** ** Operations *)

Definition plus_mark (b : bool) : string := if b then "+" else "".

Definition nodeKey (n : Node) : string :=
  (n_NodeID n ++ plus_mark (n_Inherit n) ++
   String.concat "" (map (fun e => "|-" ++ n_NodeID e ++ plus_mark (n_Inherit e)) (n_Except n)))%string.

Definition key_le (a b : Node) : Prop := String.le (nodeKey a) (nodeKey b).
#[local] Instance key_le_dec : RelDecision key_le := fun a b => _.

(** [sort.Slice(ns, func(i, j) { nodeKey(ns[i]) < nodeKey(ns[j]) })] *)
Definition sort_nodes (l : list Node) : list Node := merge_sort key_le l.

Definition as_node (c : ScopeConstraint) : Node := mkNode (sc_NodeID c) (sc_Inherit c) [].

Definition constraintsToNodes (cs : list ScopeConstraint) : list Node :=
  let except := sort_nodes (map as_node (List.filter sc_Exclude cs)) in
  map (fun c => mkNode (sc_NodeID c) (sc_Inherit c) except)
      (List.filter (fun c => negb (sc_Exclude c)) cs).

Definition grant_live (g : Grant) (now : Time) : bool :=
  if time_after (g_ValidFrom g) now then false
  else time_is_zero (g_ValidUntil g) || time_after (g_ValidUntil g) now.

Definition grantQualifies (d : Data) (g : Grant) (permission : string) (now : Time) : bool :=
  grant_live g now && role_confers d (g_RoleID g) permission && strictAxesAddressed d g.

Definition otherAxesSatisfied (d : Data) (g : Grant) (open : string)
    (fixed : gmap string string) : bool :=
  map_all (fun axis cs =>
    if bool_decide (axis = open) then true
    else match fixed !! axis with
         | None => false
         | Some target => target_covered d target cs
         end) (g_Scopes g).

(** The state of the loop over the grants: [seen] and [out]. *)
Definition Acc : Type := gset string * Nodes.

(** The inner loop over one grant's places. *)
Definition add_node (acc : Acc) (n : Node) : Acc :=
  let '(seen, out) := acc in
  let k := nodeKey n in
  if bool_decide (k ∈ seen) then acc
  else ({[k]} ∪ seen,
        {| ns_Everywhere := ns_Everywhere out; ns_OwnRecords := ns_OwnRecords out;
           ns_Nodes := ns_Nodes out ++ [n]; ns_AsOf := ns_AsOf out |}).

Definition add_grant (d : Data) (permission axis : string) (fixed : gmap string string)
    (now : Time) (acc : Acc) (g : Grant) : Acc :=
  let '(seen, out) := acc in
  if negb (grantQualifies d g permission now) then acc
  else if g_SelfScoped g then
    (seen, {| ns_Everywhere := ns_Everywhere out; ns_OwnRecords := true;
              ns_Nodes := ns_Nodes out; ns_AsOf := ns_AsOf out |})
  else if negb (otherAxesSatisfied d g axis fixed) then acc
  else match g_Scopes g !! axis with
       | None => (seen, {| ns_Everywhere := true; ns_OwnRecords := ns_OwnRecords out;
                           ns_Nodes := ns_Nodes out; ns_AsOf := ns_AsOf out |})
       | Some cs => foldl add_node acc (constraintsToNodes cs)
       end.

Definition empty_nodes (d : Data) : Nodes :=
  {| ns_Everywhere := false; ns_OwnRecords := false; ns_Nodes := []; ns_AsOf := d_LoadedAt d |}.

Definition GrantedNodes (d : Data) (identityID permission axis : string)
    (fixed : gmap string string) (now : Time) : Nodes * bool :=
  match d_Identities d !! identityID with
  | None => (empty_nodes d, false)
  | Some ident =>
      match d_Permissions d !! permission with
      | None => (empty_nodes d, false)
      | Some perm =>
          if i_Blocked ident || (i_AssuranceLevel ident <? p_MinAssurance perm)%Z
          then (empty_nodes d, true)
          else
            let '(_, out) := foldl (add_grant d permission axis fixed now)
                                   (∅, empty_nodes d) (grants_of d identityID) in
            ({| ns_Everywhere := ns_Everywhere out; ns_OwnRecords := ns_OwnRecords out;
                ns_Nodes := sort_nodes (if ns_Everywhere out then [] else ns_Nodes out);
                ns_AsOf := ns_AsOf out |}, true)
      end
  end.

Definition Reaches (d : Data) (identityID axis nodeID : string) (now : Time) : bool :=
  match d_Identities d !! identityID with
  | None => false
  | Some ident =>
      if i_Blocked ident then false
      else match Resolve (d_Scope d) nodeID with
      | None => false
      | Some target =>
          existsb (fun g =>
            if negb (grant_live g now) || g_SelfScoped g || negb (strictAxesAddressed d g) then false
            else match g_Scopes g !! axis with
                 | None => true
                 | Some cs => covered (d_Scope d) target cs
                 end) (grants_of d identityID)
      end
  end.

(** ** Specification *)

(** The node reaches the place: it is that place, or inherits from above it. *)
Definition node_covers (nodes : list ScopeNode) (n : Node) (target : string) : Prop :=
  n_NodeID n = target \/ (n_Inherit n = true /\ tc (parent_of nodes) target (n_NodeID n)).

(** What an answer says about a place. *)
Definition lists_place (nodes : list ScopeNode) (n : Node) (target : string) : Prop :=
  node_covers nodes n target /\ (forall e, e ∈ n_Except n -> ~ node_covers nodes e target).

(** Ids that cannot be confused with [nodeKey]'s own marks. *)
Definition plain_id (id : string) : bool :=
  str_forallb (fun a => negb (bool_decide (a = "+"%char)) && negb (bool_decide (a = "|"%char))) id.

Definition plain_grants (d : Data) (id : string) : Prop :=
  forall g axis cs c, g ∈ grants_of d id -> g_Scopes g !! axis = Some cs -> c ∈ cs ->
    plain_id (sc_NodeID c) = true.

(** ** Lemmas *)

Lemma elem_of_sort n l : n ∈ sort_nodes l <-> n ∈ l.
Proof. unfold sort_nodes. by rewrite merge_sort_Permutation. Qed.

#[local] Instance key_le_total : Total key_le.
Proof. intros a b. unfold key_le. apply String.le_total. Qed.
#[local] Instance key_le_trans : Transitive key_le.
Proof. intros a b c. unfold key_le. apply transitivity. Qed.

Lemma constraintsToNodes_spec nodes cs target :
  (exists n, n ∈ constraintsToNodes cs /\ lists_place nodes n target) <->
  admits nodes target cs.
Proof.
  unfold constraintsToNodes, lists_place, admits. split.
  - intros (n & (c & -> & Hc)%list_elem_of_fmap & Hcov & Hno). simpl in *.
    apply list_elem_of_In, filter_In in Hc as [Hc He]. apply negb_true_iff in He.
    apply list_elem_of_In in Hc. split; [by exists c|].
    intros d Hd Hx Hd'. apply (Hno (as_node d)); [|exact Hd']. apply elem_of_sort.
    apply list_elem_of_fmap_2. apply list_elem_of_In, filter_In. by rewrite <- list_elem_of_In.
  - intros [(c & Hc & He & Hcov) Hno].
    eexists. split; [apply list_elem_of_fmap; exists c; split; [done|]|].
    { apply list_elem_of_In, filter_In. by rewrite <- list_elem_of_In, He. }
    split; [exact Hcov|]. simpl. intros e He' Hecov. rewrite elem_of_sort in He'.
    apply list_elem_of_fmap in He' as (d & -> & Hd).
    apply list_elem_of_In, filter_In in Hd as [Hd Hx]. apply list_elem_of_In in Hd.
    by apply (Hno d Hd Hx).
Qed.

(** *** [nodeKey] identifies a node of plain ids *)

Definition flat_plain (n : Node) : Prop :=
  plain_id (n_NodeID n) = true /\
  Forall (fun e => plain_id (n_NodeID e) = true /\ n_Except e = []) (n_Except n).

Definition mark (s : string) (b : bool) : string := (s ++ plus_mark b)%string.

Lemma mark_inj s t a b :
  plain_id s = true -> plain_id t = true -> mark s a = mark t b -> s = t /\ a = b.
Proof.
  unfold mark, plain_id. revert t. induction s as [|c s IH]; intros [|c' t]; simpl.
  - intros _ _. by destruct a, b.
  - intros _ H Heq. destruct a; [|done]. change ("+" = String c' (t ++ plus_mark b))%string in Heq.
    by simplify_eq.
  - intros H _ Heq. destruct b; [|done]. change (String c (s ++ plus_mark a) = "+")%string in Heq.
    by simplify_eq.
  - intros Hs Ht Heq. unbool.
    change (String c (s ++ plus_mark a) = String c' (t ++ plus_mark b))%string in Heq.
    injection Heq as -> Heq. by destruct (IH t ltac:(done) ltac:(done) Heq) as [-> ->].
Qed.

Lemma mark_no_bar s b :
  plain_id s = true ->
  str_forallb (fun a => negb (bool_decide (a = "|"%char))) (mark s b) = true.
Proof.
  intros H. unfold mark. rewrite str_forallb_app. destruct b; simpl; rewrite ?andb_true_r.
  all: eapply str_forallb_impl; [|exact H]; intros a Ha; simpl in Ha; by apply andb_true_iff in Ha as [_ ?].
Qed.

Definition except_seg (e : Node) : string := ("-" ++ mark (n_NodeID e) (n_Inherit e))%string.

Lemma nodeKey_concat n :
  nodeKey n = String.concat "|" (mark (n_NodeID n) (n_Inherit n) :: map except_seg (n_Except n)).
Proof.
  unfold nodeKey. rewrite str_app_assoc. fold (mark (n_NodeID n) (n_Inherit n)).
  generalize (mark (n_NodeID n) (n_Inherit n)) as h.
  induction (n_Except n) as [|e es IH]; intros h; [by apply str_app_nil_r|].
  cbn [map]. rewrite concat_empty_cons.
  change (String.concat "|" (h :: except_seg e :: map except_seg es))
    with (h ++ ("|" ++ String.concat "|" (except_seg e :: map except_seg es)))%string.
  rewrite <- IH. unfold except_seg, mark.
  change ("|-" ++ ?r)%string with ("|" ++ ("-" ++ r))%string.
  by rewrite <- !str_app_assoc.
Qed.

Lemma nodeKey_inj a b : flat_plain a -> flat_plain b -> nodeKey a = nodeKey b -> a = b.
Proof.
  assert (forall n, flat_plain n -> split_on "|"%char (nodeKey n) =
    mark (n_NodeID n) (n_Inherit n) :: map except_seg (n_Except n)) as Hs.
  { intros n [Hid Hex]. rewrite nodeKey_concat. apply split_concat; [done|].
    constructor; [by apply mark_no_bar|]. apply Forall_map.
    eapply Forall_impl; [exact Hex|]. intros e [He _]. unfold except_seg. simpl.
    rewrite str_forallb_app. simpl. by apply mark_no_bar. }
  intros Ha Hb Heq. pose proof (Hs a Ha) as Hsa. rewrite Heq, (Hs b Hb) in Hsa.
  injection Hsa as Hm Hes. destruct Ha as [Ha Hea], Hb as [Hb Heb].
  destruct a as [ida ia ea], b as [idb ib eb]. simpl in *.
  apply mark_inj in Hm as [-> ->]; [|done..]. f_equal. clear -Hes Hea Heb.
  revert eb Hes Heb. induction Hea as [|[i h x] ea [Hi Hx] Hea IH]; intros [|[i' h' x'] eb] Hes Heb; try done.
  inversion Heb as [|? ? [Hi' Hx'] Heb']; subst. simpl in *. injection Hes as Hm Hes.
  change (mark i' h' = mark i h) in Hm.
  apply mark_inj in Hm as [-> ->]; [|done..]. subst. f_equal. by apply IH.
Qed.

Lemma constraintsToNodes_plain cs n :
  (forall c, c ∈ cs -> plain_id (sc_NodeID c) = true) -> n ∈ constraintsToNodes cs -> flat_plain n.
Proof.
  intros Hp (c & -> & Hc)%list_elem_of_fmap. split; simpl.
  - apply Hp. by apply list_elem_of_In, filter_In in Hc as [?%list_elem_of_In _].
  - apply Forall_forall. intros e He. rewrite elem_of_sort in He.
    apply list_elem_of_fmap in He as (d & -> & Hd). split; [|done]. simpl.
    apply Hp. by apply list_elem_of_In, filter_In in Hd as [?%list_elem_of_In _].
Qed.

(** *** The loop *)

Definition seen_inv (acc : Acc) : Prop :=
  (forall k, k ∈ acc.1 <-> k ∈ map nodeKey (ns_Nodes acc.2)) /\
  NoDup (map nodeKey (ns_Nodes acc.2)).

(** [acc'] extends [acc] by nodes of [l], keeping a key for each of them. *)
Record extends (acc acc' : Acc) (l : list Node) : Prop := {
  ext_inv : seen_inv acc';
  ext_old : forall n, n ∈ ns_Nodes acc.2 -> n ∈ ns_Nodes acc'.2;
  ext_new : forall n, n ∈ ns_Nodes acc'.2 -> n ∈ ns_Nodes acc.2 \/ n ∈ l;
  ext_all : forall n, n ∈ l -> nodeKey n ∈ map nodeKey (ns_Nodes acc'.2)
}.

Lemma extends_refl acc : seen_inv acc -> extends acc acc [].
Proof. intros H. split; auto. intros n Hn. by apply not_elem_of_nil in Hn. Qed.

Lemma extends_flags seen out out' :
  ns_Nodes out' = ns_Nodes out -> seen_inv (seen, out) -> extends (seen, out) (seen, out') [].
Proof.
  intros Heq H. split; unfold seen_inv in *; simpl in *; rewrite ?Heq; auto.
  intros n Hn. by apply not_elem_of_nil in Hn.
Qed.

Lemma extends_trans acc1 acc2 acc3 l1 l2 :
  extends acc1 acc2 l1 -> extends acc2 acc3 l2 -> extends acc1 acc3 (l1 ++ l2).
Proof.
  intros [I1 O1 N1 A1] [I2 O2 N2 A2]. split; auto.
  - intros n Hn. rewrite elem_of_app. destruct (N2 n Hn) as [H|]; [|auto].
    destruct (N1 n H); auto.
  - intros n [Hn|Hn]%elem_of_app; [|auto].
    apply A1, list_elem_of_fmap in Hn as (m & -> & Hm).
    apply list_elem_of_fmap. eauto.
Qed.

Lemma add_node_extends acc n : seen_inv acc -> extends acc (add_node acc n) [n].
Proof.
  destruct acc as [seen out]. intros [Hs Hnd]. unfold add_node. case_bool_decide as Hk.
  - split; simpl; [by split|auto|auto|]. intros m Hm. apply list_elem_of_singleton in Hm as ->. by apply Hs.
  - split; simpl.
    + split; simpl; rewrite map_app.
      * intros k. rewrite elem_of_union, elem_of_singleton, elem_of_app, Hs. simpl.
        rewrite list_elem_of_singleton. tauto.
      * apply NoDup_app. split; [done|]. split; [|by apply NoDup_singleton].
        intros k Hin Hk'. simpl in Hk'. apply list_elem_of_singleton in Hk' as ->.
        apply Hk. by apply Hs.
    + intros m Hm. rewrite elem_of_app. by left.
    + intros m. by rewrite elem_of_app.
    + intros m Hm. apply list_elem_of_singleton in Hm as ->. rewrite map_app, elem_of_app. right.
      by left.
Qed.

Lemma fold_add_node acc l :
  seen_inv acc ->
  extends acc (foldl add_node acc l) l /\
  ns_Everywhere (foldl add_node acc l).2 = ns_Everywhere acc.2 /\
  ns_OwnRecords (foldl add_node acc l).2 = ns_OwnRecords acc.2.
Proof.
  revert acc. induction l as [|n l IH]; intros acc Hinv; simpl; [by split; [apply extends_refl|]|].
  pose proof (add_node_extends acc n Hinv) as He.
  destruct (IH (add_node acc n) (ext_inv _ _ _ He)) as (Hl & -> & ->).
  split; [exact (extends_trans _ _ _ [n] l He Hl)|].
  destruct acc as [seen out]. unfold add_node. by case_bool_decide.
Qed.

Section Loop.
Context (d : Data) (permission axis : string) (fixed : gmap string string) (now : Time).

(** The grants that reach the open axis. *)
Definition contributes (g : Grant) : bool :=
  grantQualifies d g permission now && negb (g_SelfScoped g) && otherAxesSatisfied d g axis fixed.

Definition grant_nodes (g : Grant) : list Node :=
  if contributes g
  then match g_Scopes g !! axis with Some cs => constraintsToNodes cs | None => [] end
  else [].

Definition unlimited (g : Grant) : bool :=
  contributes g && bool_decide (g_Scopes g !! axis = None).
Definition own (g : Grant) : bool := grantQualifies d g permission now && g_SelfScoped g.

Lemma add_grant_extends acc g :
  seen_inv acc ->
  extends acc (add_grant d permission axis fixed now acc g) (grant_nodes g) /\
  ns_Everywhere (add_grant d permission axis fixed now acc g).2 =
    ns_Everywhere acc.2 || unlimited g /\
  ns_OwnRecords (add_grant d permission axis fixed now acc g).2 = ns_OwnRecords acc.2 || own g.
Proof using.
  intros Hinv. unfold add_grant, grant_nodes, unlimited, own, contributes.
  destruct acc as [seen out].
  destruct (grantQualifies d g permission now); simpl;
    [|by rewrite !orb_false_r; split; [apply extends_refl|]].
  destruct (g_SelfScoped g); simpl.
  { rewrite orb_true_r, orb_false_r. split; [|done]. by apply extends_flags. }
  destruct (otherAxesSatisfied d g axis fixed); simpl;
    [|by rewrite !orb_false_r; split; [apply extends_refl|]].
  destruct (g_Scopes g !! axis) as [cs|] eqn:E.
  - rewrite bool_decide_eq_false_2, !orb_false_r by done. by apply fold_add_node.
  - rewrite bool_decide_eq_true_2, orb_true_r, orb_false_r by done. split; [|done].
    by apply extends_flags.
Qed.

Lemma fold_add_grant acc gs :
  seen_inv acc ->
  let acc' := foldl (add_grant d permission axis fixed now) acc gs in
  extends acc acc' (flat_map grant_nodes gs) /\
  ns_Everywhere acc'.2 = ns_Everywhere acc.2 || existsb unlimited gs /\
  ns_OwnRecords acc'.2 = ns_OwnRecords acc.2 || existsb own gs.
Proof using.
  revert acc. induction gs as [|g gs IH]; intros acc Hinv; simpl.
  { rewrite !orb_false_r. by split; [apply extends_refl|]. }
  destruct (add_grant_extends acc g Hinv) as (He & Hev & How).
  destruct (IH (add_grant d permission axis fixed now acc g) (ext_inv _ _ _ He)) as (Hl & -> & ->).
  rewrite Hev, How, !orb_assoc. split; [|done]. exact (extends_trans _ _ _ _ _ He Hl).
Qed.
End Loop.

(** What [GrantedNodes] answers behind open gates, in terms of its grants. *)
Lemma GrantedNodes_shape d id permission axis fixed now :
  gates_open d id permission ->
  exists out, GrantedNodes d id permission axis fixed now = (out, true) /\
    ns_Everywhere out = existsb (unlimited d permission axis fixed now) (grants_of d id) /\
    ns_OwnRecords out = existsb (own d permission now) (grants_of d id) /\
    (ns_Everywhere out = false ->
     (forall n, n ∈ ns_Nodes out ->
        n ∈ flat_map (grant_nodes d permission axis fixed now) (grants_of d id)) /\
     (forall n, n ∈ flat_map (grant_nodes d permission axis fixed now) (grants_of d id) ->
        exists m, m ∈ ns_Nodes out /\ nodeKey m = nodeKey n)) /\
    (ns_Everywhere out = true -> ns_Nodes out = []) /\
    Sorted key_le (ns_Nodes out) /\ NoDup (map nodeKey (ns_Nodes out)).
Proof.
  intros (ident & perm & Hi & Hb & Hp & Hle). unfold GrantedNodes. rewrite Hi, Hp, Hb.
  destruct (Z.ltb_spec (i_AssuranceLevel ident) (p_MinAssurance perm)); [lia|]. simpl orb. cbv iota.
  assert (seen_inv (∅, empty_nodes d)) as Hinv.
  { split; simpl; [|by apply NoDup_nil]. intros k. split; intros Hk; [set_solver|].
    by apply not_elem_of_nil in Hk. }
  pose proof (fold_add_grant d permission axis fixed now _ (grants_of d id) Hinv) as Hf.
  destruct (foldl _ _ _) as [seen out]. simpl in Hf. destruct Hf as ([[_ Hnd] _ Hnew Hall] & -> & ->).
  eexists. split; [done|]. simpl in *. split_and!; try done.
  - intros ->. split.
    + intros n Hn. rewrite elem_of_sort in Hn. apply Hnew in Hn as [Hn|]; [|done].
      by apply not_elem_of_nil in Hn.
    + intros n Hn. apply Hall, list_elem_of_fmap in Hn as (m & -> & Hm). exists m.
      by rewrite elem_of_sort.
  - by intros ->.
  - apply Sorted_merge_sort. apply _.
  - unfold sort_nodes. destruct (existsb _ _); [by apply NoDup_nil|].
    by rewrite merge_sort_Permutation.
Qed.

End GrantedNodes.
