(* ===== verification/GateProps.v ===== *)
(** What the gate's pure core guarantees: path normalisation, route matching,
    the scope index, the decision engine and the "where may they" listing. *)

From Stdlib Require Import ZArith Lia Bool Ascii String.
From stdpp Require Import base gmap strings list sorting.
From S2P Require Import Prelude.
From S2P Require Import GoStrings.
From S2P Require Import Snapshot.
From S2P Require Import RoutePath.
From S2P Require Import Evaluator.
From S2P Require Import GrantedNodes.

(** ** Paths *)
Module PathProps.
Import Normalize Matcher.

(** Percent-encoding of the bytes a predicate selects. *)
Definition hex_digit (z : Z) : ascii :=
  if (z <? 10)%Z then chr (z + 48) else chr (z - 10 + 65).

Fixpoint pct_encode (p : ascii -> bool) (s : string) : string :=
  match s with
  | EmptyString => EmptyString
  | String a s' =>
      if p a then String "%" (String (hex_digit (code a / 16))
                                (String (hex_digit (code a mod 16)) (pct_encode p s')))
      else String a (pct_encode p s')
  end.

Lemma unhex_digit z : (0 <= z < 16)%Z -> unhex (hex_digit z) = Some z.
Proof.
  intros H. unfold unhex, hex_digit. destruct (Z.ltb_spec z 10); rewrite code_chr by lia;
    repeat (match goal with |- context [(?a <=? ?b)%Z] => destruct (Z.leb_spec a b) end; simpl; try lia);
    f_equal; lia.
Qed.

Lemma nibbles a : Z.lor (Z.shiftl (code a / 16) 4) (code a mod 16) = code a.
Proof. by destruct a as [[] [] [] [] [] [] [] []]. Qed.

(** Whatever NormalizePath lets through is canonical: "/" followed by
    segments that are non-empty, are not "." or "..", hold no slash, no control
    byte, backslash, ';', '%', '#' or '?', and are valid UTF-8, with at most one
    trailing slash. *)
Theorem NormalizePath_canonical raw p : NormalizePath raw = Some p -> canonical p.
Proof. apply normalize_canonical_aux. Qed.

Lemma NormalizePath_canonical_witness :
  NormalizePath "/a//%62/./../c/?q" = Some "/a/c/"%string /\ canonical "/a/c/".
Proof. split; [reflexivity|]. apply (NormalizePath_canonical "/a//%62/./../c/?q"). reflexivity. Defined.

(** The canonical paths are exactly the fixed points: two normalisation
    passes agree with one, and nothing else survives unchanged. *)
Theorem NormalizePath_fixpoint p : canonical p <-> NormalizePath p = Some p.
Proof.
  split.
  - intros (segs & trailing & Hg & ->). by apply normalize_render.
  - apply normalize_canonical_aux.
Qed.

Lemma NormalizePath_inv raw p :
  NormalizePath raw = Some p ->
  exists d out, decodeOnce (strip_query raw) = Some d /\ valid_utf8 d = true /\
    str_existsb ambiguous_byte d = false /\
    resolve_segs (str_contains "%2e" (strip_query raw) || str_contains "%2E" (strip_query raw))
      (split_on slash d) [] = Some out.
Proof.
  unfold NormalizePath. destruct raw as [|a raw']; [done|].
  case_bool_decide; [|done]. subst a. cbn [negb].
  generalize (strip_query (String slash raw')) as raw. intros raw.
  destruct (decodeOnce raw) as [d|]; [|done]. cbn [mbind option_bind].
  destruct (valid_utf8 d) eqn:Hv; [|done]. cbn [negb].
  destruct (str_existsb ambiguous_byte d) eqn:Ha; [done|].
  destruct (resolve_segs _ _ _) as [out|] eqn:Hr; [|done]. intros _. by exists d, out.
Qed.

Lemma resolve_segs_no_dots segs out res :
  resolve_segs true segs out = Some res -> "."%string ∉ segs /\ ".."%string ∉ segs.
Proof.
  revert out. induction segs as [|s segs IH]; intros out; simpl.
  { intros _. split; apply not_elem_of_nil. }
  repeat case_bool_decide; try done; intros Hr; apply IH in Hr as [? ?];
    split; rewrite not_elem_of_cons; split; try done; congruence.
Qed.

(** An accepted path decoded exactly once, to valid UTF-8 without any byte
    a second parser would read differently ('%' included, so double encoding is
    refused), and a path that percent-encodes any dot holds no "." or ".."
    segment: encoded traversal is refused, not resolved. *)
Theorem NormalizePath_unambiguous raw p :
  NormalizePath raw = Some p ->
  exists d, decodeOnce (strip_query raw) = Some d /\ valid_utf8 d = true /\
    str_forallb (fun c => negb (ambiguous_byte c)) d = true /\
    ((str_contains "%2e" (strip_query raw) || str_contains "%2E" (strip_query raw)) = true ->
     "."%string ∉ split_on slash d /\ ".."%string ∉ split_on slash d).
Proof.
  intros H. destruct (NormalizePath_inv raw p H) as (d & out & Hd & Hv & Ha & Hr).
  exists d. split; [done|]. split; [done|]. unfold str_existsb in Ha.
  apply negb_false_iff in Ha. split; [done|]. intros He. rewrite He in Hr.
  by eapply resolve_segs_no_dots.
Qed.

Lemma NormalizePath_unambiguous_witness :
  NormalizePath "/v1%2E2/x" = Some "/v1.2/x"%string /\
  exists d, decodeOnce (strip_query "/v1%2E2/x") = Some d /\ valid_utf8 d = true /\
    str_forallb (fun c => negb (ambiguous_byte c)) d = true /\
    ((str_contains "%2e" (strip_query "/v1%2E2/x") || str_contains "%2E" (strip_query "/v1%2E2/x")) = true ->
     "."%string ∉ split_on slash d /\ ".."%string ∉ split_on slash d).
Proof. split; [reflexivity|]. apply (NormalizePath_unambiguous "/v1%2E2/x" "/v1.2/x"). reflexivity. Defined.

(** DecodeOnce inverts percent-encoding, whichever bytes were escaped, as
    long as '%' itself was. *)
Theorem decodeOnce_encode p s : p "%"%char = true -> decodeOnce (pct_encode p s) = Some s.
Proof.
  intros Hp. induction s as [|a s IH]; [done|]. simpl. destruct (p a) eqn:E; simpl.
  - pose proof (code_range a).
    assert (0 <= code a / 16 < 16)%Z by (split; [apply Z.div_pos|apply Z.div_lt_upper_bound]; lia).
    pose proof (Z.mod_pos_bound (code a) 16 ltac:(lia)).
    rewrite !unhex_digit by done. simpl. rewrite IH. simpl.
    by rewrite nibbles, chr_code.
  - case_bool_decide; [congruence|]. by rewrite IH.
Qed.

Lemma decodeOnce_encode_witness : decodeOnce (pct_encode (fun _ => true) "/a b%") = Some "/a b%"%string.
Proof. apply (decodeOnce_encode (fun _ => true)). reflexivity. Defined.

(** A pattern whose captures have distinct names matches exactly the paths
    that agree with it position by position (a final "**" swallowing one or
    more segments), and the captures returned are the ones that make it agree,
    under the pattern's own names only. *)
Theorem pathMatch_spec pattern path :
  NoDup (captures (splitSegs pattern)) ->
  (is_Some (pathMatch pattern path) <->
   exists params, segs_agree (splitSegs pattern) (splitSegs path) params) /\
  (forall params, pathMatch pattern path = Some params ->
   segs_agree (splitSegs pattern) (splitSegs path) params /\
   forall k, is_Some (params !! k) -> k ∈ captures (splitSegs pattern)).
Proof.
  intros Hnd. unfold pathMatch.
  assert (forall params, match_segs (splitSegs pattern) (splitSegs path) ∅ = Some params ->
    segs_agree (splitSegs pattern) (splitSegs path) params /\
    forall k, is_Some (params !! k) -> k ∈ captures (splitSegs pattern)) as Hs.
  { intros params H. apply match_segs_sound in H as (_ & Hag & Hk); [|done|by intros; apply lookup_empty].
    split; [done|]. intros k Hk'. destruct (Hk k Hk') as [[? He]|]; [|done].
    by rewrite lookup_empty in He. }
  split; [|done]. split.
  - intros [params H]. exists params. by apply Hs.
  - intros [params H]. eapply match_segs_complete; [|done]. intros k v Hk.
    by rewrite lookup_empty in Hk.
Qed.

Lemma pathMatch_spec_witness :
  NoDup (captures (splitSegs "/invoices/{id}/**")) /\
  exists params, segs_agree (splitSegs "/invoices/{id}/**") (splitSegs "/invoices/7/lines/2") params.
Proof.
  assert (NoDup (captures (splitSegs "/invoices/{id}/**"))) as Hnd.
  { apply (bool_decide_unpack (NoDup (captures (splitSegs "/invoices/{id}/**")))). vm_compute. exact I. }
  split; [exact Hnd|].
  apply (pathMatch_spec "/invoices/{id}/**" "/invoices/7/lines/2" Hnd). vm_compute. eexists. reflexivity.
Defined.

(** Match answers with the first route, in the loader's priority order,
    that accepts the host, the method and the path, and with nothing exactly
    when none does. *)
Theorem Match_first routes host method path r params :
  Match routes host method path = Some (r, params) <->
  exists i, routes !! i = Some r /\ route_accepts r host method path = Some params /\
    forall j rj, (j < i)%nat -> routes !! j = Some rj -> route_accepts rj host method path = None.
Proof.
  induction routes as [|r0 routes IH]; simpl.
  { split; [done|]. intros (i & Hi & _). by rewrite lookup_nil in Hi. }
  destruct (route_accepts r0 host method path) as [params0|] eqn:E.
  - split.
    + intros [= <- <-]. exists 0. split; [done|]. split; [done|]. intros j rj Hj. lia.
    + intros ([|i] & Hi & Ha & Hbefore); simplify_eq/=; [congruence|].
      specialize (Hbefore 0 r0 ltac:(lia) eq_refl). congruence.
  - rewrite IH. split.
    + intros (i & Hi & Ha & Hbefore). exists (S i). split; [done|]. split; [done|].
      intros [|j] rj Hj Hrj; simplify_eq/=; [done|]. apply (Hbefore j); [lia|done].
    + intros ([|i] & Hi & Ha & Hbefore); simplify_eq/=.
      exists i. split; [done|]. split; [done|]. intros j rj Hj Hrj.
      apply (Hbefore (S j)); [lia|done].
Qed.

End PathProps.

(** ** A small tenant, for the witnesses *)
Module Sample.
Import ScopeIdx Evaluator.

(** hq > jakarta > finance, hq > surabaya *)
Definition rows : list ScopeNode :=
  [ {| sn_ID := "jakarta"; sn_Parent := "hq" |}; {| sn_ID := "hq"; sn_Parent := "" |};
    {| sn_ID := "finance"; sn_Parent := "jakarta" |};
    {| sn_ID := "surabaya"; sn_Parent := "hq" |} ].

Definition include (id : string) (inh : bool) : ScopeConstraint :=
  {| sc_NodeID := id; sc_Inherit := inh; sc_Exclude := false; sc_node := 0 |}.
Definition exclude (id : string) (inh : bool) : ScopeConstraint :=
  {| sc_NodeID := id; sc_Inherit := inh; sc_Exclude := true; sc_node := 0 |}.

Definition org_grant : Grant :=
  {| g_ID := "g1"; g_RoleID := "clerk"; g_SelfScoped := false; g_ValidFrom := 10;
     g_ValidUntil := 0; g_Scopes := {["org" := [include "hq" true; exclude "finance" true]]} |}.
Definition own_grant : Grant :=
  {| g_ID := "g2"; g_RoleID := "applicant"; g_SelfScoped := true; g_ValidFrom := 10;
     g_ValidUntil := 1000; g_Scopes := ∅ |}.

Definition data : Data :=
  {| d_TenantID := "t1"; d_TenantSlug := "impack"; d_Version := 7; d_LoadedAt := 100;
     d_BuiltAt := 100; d_StrictAxes := ∅; d_Scope := NewScopeIndex rows;
     d_GrantsByIdentity := {["ann" := [org_grant; own_grant]]};
     d_SharesByIdentity := ∅;
     d_RolePermissions := {["clerk" := {["invoice:read" := true]};
                            "applicant" := {["application:read" := true]}]};
     d_Permissions :=
       {["invoice:read" := {| p_Key := "invoice:read"; p_MinAssurance := 2; p_RequiresAMR := [];
                              p_MaxAuthAgeSecs := 0; p_Risk := "low" |};
         "application:read" := {| p_Key := "application:read"; p_MinAssurance := 1;
                              p_RequiresAMR := []; p_MaxAuthAgeSecs := 0; p_Risk := "low" |}]};
     d_Identities := {["ann" := {| i_TokenEpoch := 3; i_Blocked := false; i_AssuranceLevel := 2 |}]};
     d_RevokedSessions := ∅; d_Routes := [] |}.

Lemma rows_nodup : NoDup (map sn_ID rows).
Proof. apply (bool_decide_unpack _). vm_compute. exact I. Defined.

Lemma ann_grants g : g ∈ grants_of data "ann" -> g = org_grant \/ g = own_grant.
Proof.
  change (grants_of data "ann") with [org_grant; own_grant].
  intros [->|[->|H]%elem_of_cons]%elem_of_cons; [by left|by right|].
  by apply not_elem_of_nil in H.
Defined.

Lemma grants_of_data id g : g ∈ grants_of data id -> g = org_grant \/ g = own_grant.
Proof.
  destruct (decide (id = "ann"%string)) as [->|Hne]; [apply ann_grants|].
  unfold grants_of, data. cbn [d_GrantsByIdentity]. rewrite lookup_singleton_ne by congruence.
  intros H. by apply not_elem_of_nil in H.
Defined.

Lemma grant_constraints id g axis cs :
  g ∈ grants_of data id -> g_Scopes g !! axis = Some cs ->
  cs = [include "hq" true; exclude "finance" true].
Proof.
  intros [->| ->]%grants_of_data Hcs; simpl in Hcs.
  - apply lookup_singleton_Some in Hcs as [_ <-]. done.
  - by rewrite lookup_empty in Hcs.
Defined.

Lemma data_loaded : loaded rows data.
Proof.
  split; [reflexivity|exact rows_nodup|vm_compute; reflexivity|].
  intros id g axis cs c Hg Hcs Hc. rewrite (grant_constraints id g axis cs Hg Hcs) in Hc.
  apply elem_of_cons in Hc as [->|Hc]; [done|]. by apply list_elem_of_singleton in Hc as ->.
Defined.

Lemma ann_gates permission :
  bool_decide (is_Some (d_Permissions data !! permission)) = true ->
  gates_open data "ann" permission.
Proof.
  intros [p Hp]%bool_decide_eq_true.
  eexists {| i_TokenEpoch := 3; i_Blocked := false; i_AssuranceLevel := 2 |}, p.
  split; [reflexivity|]. split; [reflexivity|]. split; [done|]. simpl in *.
  apply lookup_insert_Some in Hp as [[_ <-]|[_ Hp]]; [simpl; lia|].
  apply lookup_singleton_Some in Hp as [_ <-]. simpl; lia.
Defined.

End Sample.

(** ** The snapshot *)
Module SnapshotProps.
Import ScopeIdx Evaluator GrantedNodes Sample.

(** C36: on any index whose parents are in range (loops included) CoveredBy
    returns, never indexes out of the slice, and answers exactly "some include
    reaches the target and no exclude does". *)
Theorem CoveredBy_exact x t cs :
  wf x -> (0 <= t < Z.of_nat (Len x))%Z ->
  exists b, CoveredBy x t cs = Some b /\
    (b = true <->
     (exists c, c ∈ cs /\ sc_Exclude c = false /\ reaches x t c) /\
     (forall c, c ∈ cs -> sc_Exclude c = true -> ~ reaches x t c)).
Proof. apply CoveredBy_reaches. Qed.

(** A parent cycle 0 -> 1 -> 0. *)
Definition cyclic : ScopeIndex := {| si_idx := ∅; si_parent := [1; 0]%Z |}.
Lemma CoveredBy_exact_witness :
  wf cyclic /\ exists b, CoveredBy cyclic 0 [include "x" true] = Some b /\
    (b = true <->
     (exists c, c ∈ [include "x" true] /\ sc_Exclude c = false /\ reaches cyclic 0 c) /\
     (forall c, c ∈ [include "x" true] -> sc_Exclude c = true -> ~ reaches cyclic 0 c)).
Proof.
  assert (wf cyclic) as Hwf.
  { split; [vm_compute; reflexivity|]. unfold Len, cyclic; simpl. repeat constructor; lia. }
  split; [exact Hwf|]. apply (CoveredBy_exact cyclic 0 [include "x" true] Hwf).
  unfold Len, cyclic; simpl; lia.
Defined.

(** On the index built from the hierarchy's rows, for constraints resolved
    by Intern, CoveredBy decides the rule of migration 0046: an include names
    the target or, inheriting, a proper ancestor of it, and no exclude does. *)
Theorem CoveredBy_rows nodes target t cs :
  NoDup (map sn_ID nodes) -> (Z.of_nat (length nodes) < 2 ^ 31)%Z ->
  (forall c, c ∈ cs -> sc_node c = 0%Z) ->
  Resolve (NewScopeIndex nodes) target = Some t ->
  exists b, CoveredBy (NewScopeIndex nodes) t (Intern (NewScopeIndex nodes) cs) = Some b /\
    (b = true <-> admits nodes target cs).
Proof. apply CoveredBy_admits. Qed.

Lemma CoveredBy_rows_witness :
  Resolve (NewScopeIndex rows) "finance" = Some 2%Z /\
  exists b, CoveredBy (NewScopeIndex rows) 2
      (Intern (NewScopeIndex rows) [include "hq" true; exclude "finance" true]) = Some b /\
    (b = true <-> admits rows "finance" [include "hq" true; exclude "finance" true]).
Proof.
  split; [vm_compute; reflexivity|].
  apply (CoveredBy_rows rows "finance" 2); [exact rows_nodup|vm_compute; reflexivity| |vm_compute; reflexivity].
  intros c [->|Hc]%elem_of_cons; [reflexivity|]. by apply list_elem_of_singleton in Hc as ->.
Defined.

(** A constraint that was never interned matches nothing: until
    InternGrantScopes has run, a grant constrained on any axis to includes
    satisfies no request. *)
Theorem uninterned_denies d g targets axis cs nodes :
  d_Scope d = NewScopeIndex nodes -> (Z.of_nat (length nodes) < 2 ^ 31)%Z ->
  g_Scopes g !! axis = Some cs -> (forall c, c ∈ cs -> sc_node c = 0%Z) ->
  grantScopesSatisfied d g targets = false.
Proof.
  intros Hd Hlen Hcs H0. unfold grantScopesSatisfied. eapply map_all_false; [exact Hcs|].
  destruct (targets !! axis) as [t|]; [|done]. unfold target_covered.
  destruct (Resolve (d_Scope d) t) as [n|] eqn:Hr; [|done]. rewrite Hd in *.
  unfold covered. pose proof (NewScopeIndex_wf nodes Hlen) as Hwf.
  assert (0 <= n)%Z as Hn.
  { unfold Resolve in Hr. rewrite NewScopeIndex_idx in Hr.
    apply id_map_range in Hr; [lia..|]. intros ?? Hk. by rewrite lookup_empty in Hk. }
  destruct (Z.lt_ge_cases n (Z.of_nat (Len (NewScopeIndex nodes)))) as [Hlt|Hge].
  - destruct (CoveredBy_reaches _ n cs Hwf ltac:(lia)) as (b & -> & Hb).
    destruct b; [|done]. destruct (proj1 Hb eq_refl) as ((c & Hc & _ & Hr') & _).
    specialize (H0 c Hc). destruct Hr' as [?|(_ & a & [? _] & ?)]; lia.
  - unfold CoveredBy. destruct (Z.ltb_spec n 0); [lia|].
    destruct (Z.leb_spec (Z.of_nat (Len (NewScopeIndex nodes))) n); [done|lia].
Qed.

Lemma uninterned_denies_witness :
  grantScopesSatisfied data org_grant {["org" := "jakarta"]} = false /\
  grantScopesSatisfied (InternGrantScopes data) (intern_grant (d_Scope data) org_grant)
    {["org" := "jakarta"]} = true.
Proof.
  split; [|vm_compute; reflexivity].
  apply (uninterned_denies data org_grant {["org" := "jakarta"]} "org"
           [include "hq" true; exclude "finance" true] rows); [reflexivity..|].
  intros c [->|Hc]%elem_of_cons; [reflexivity|]. by apply list_elem_of_singleton in Hc as ->.
Defined.

(** On a loaded and interned snapshot Evaluate answers true exactly when
    the declarative rules allow: identity known and not blocked, permission
    known and within the identity's assurance, and either a live grant whose
    role confers the permission, whose self-scope matches the owner, whose
    every constrained axis admits its target and which addresses every strict
    axis, or a live share of the named record conferring the permission. *)
Theorem Evaluate_authorizes nodes d id permission targets now :
  loaded nodes d ->
  Evaluate (InternGrantScopes d) id permission targets now = true <->
  authorizes nodes d id permission targets now.
Proof. intros H. by apply Evaluate_authorizes_aux. Qed.

Lemma Evaluate_authorizes_witness :
  Evaluate (InternGrantScopes data) "ann" "invoice:read" {["org" := "jakarta"]} 50 = true /\
  authorizes rows data "ann" "invoice:read" {["org" := "jakarta"]} 50 /\
  ~ authorizes rows data "ann" "invoice:read" {["org" := "finance"]} 50.
Proof.
  split; [vm_compute; reflexivity|]. split.
  - apply (Evaluate_authorizes rows data); [exact data_loaded|]. vm_compute. reflexivity.
  - intros H. apply (Evaluate_authorizes rows data) in H; [|exact data_loaded].
    vm_compute in H. discriminate.
Defined.

Section Listing.
Context (nodes : list ScopeNode) (d : Data) (Hload : loaded nodes d).
Context (id permission axis : string) (fixed : gmap string string) (now : Time).
Let x := d_Scope d.
Let dI := InternGrantScopes d.

Lemma grant_live_spec g : grant_live (intern_grant x g) now = true <-> live g now.
Proof using.
  rewrite <- live_bool. unfold grant_live. simpl.
  destruct (time_after (g_ValidFrom g) now); [intuition congruence|].
  destruct (time_is_zero _), (time_after (g_ValidUntil g) now); simpl; intuition congruence.
Qed.

Lemma grantQualifies_spec g :
  grantQualifies dI (intern_grant x g) permission now = true <->
  live g now /\ role_confers d (g_RoleID g) permission = true /\ strict_ok d g.
Proof using.
  unfold grantQualifies. rewrite !andb_true_iff, grant_live_spec, strictAxesAddressed_spec.
  rewrite (strict_ok_intern d dI x g eq_refl). cbn [g_RoleID intern_grant].
  change (role_confers dI) with (role_confers d). tauto.
Qed.

Lemma otherAxes_spec g :
  g ∈ grants_of d id ->
  otherAxesSatisfied dI (intern_grant x g) axis fixed = true <->
  forall a cs, g_Scopes g !! a = Some cs -> a <> axis ->
    exists t, fixed !! a = Some t /\ known_node nodes t /\ admits nodes t cs.
Proof using Hload.
  intros Hg. unfold otherAxesSatisfied. rewrite map_all_spec.
  assert (forall a cs, g_Scopes g !! a = Some cs -> forall c, c ∈ cs -> sc_node c = 0%Z) as H0.
  { intros a cs Hcs c Hc. by eapply (loaded_raw _ _ Hload). }
  split.
  - intros H a cs Hcs Hne. specialize (H a (Intern x cs)). simpl in H.
    rewrite lookup_fmap, Hcs in H. specialize (H eq_refl).
    rewrite bool_decide_eq_false_2 in H by done. destruct (fixed !! a) as [t|]; [|done].
    exists t. split; [done|]. apply (target_covered_spec nodes d Hload); [by eapply H0|done].
  - intros H a cs' Hcs'. simpl in Hcs'. rewrite lookup_fmap in Hcs'.
    apply fmap_Some in Hcs' as (cs & Hcs & ->). case_bool_decide; [done|].
    destruct (H a cs Hcs ltac:(done)) as (t & -> & Hk & Ha).
    apply (target_covered_spec nodes d Hload); [by eapply H0|done].
Qed.

(** A grant that is not self-scoped allows the place exactly when it reaches
    the open axis and its constraints there, if any, admit the place. *)
Lemma grant_ok_open g t :
  g ∈ grants_of d id -> g_SelfScoped g = false ->
  grant_ok nodes d id permission (<[axis := t]> fixed) now g <->
  contributes dI permission axis fixed now (intern_grant x g) = true /\
  (forall cs, g_Scopes g !! axis = Some cs -> known_node nodes t /\ admits nodes t cs).
Proof using Hload.
  intros Hg Hself. unfold contributes, grant_ok.
  rewrite !andb_true_iff, grantQualifies_spec, (otherAxes_spec g Hg).
  cbn [g_SelfScoped intern_grant]. rewrite Hself. unfold axes_ok. split.
  - intros (Hl & Hr & _ & Hax & Hst). split_and!; try done.
    + intros a cs Hcs Hne. destruct (Hax a cs Hcs) as (t' & Ht' & ?).
      rewrite lookup_insert_ne in Ht' by done. eauto.
    + intros cs Hcs. destruct (Hax axis cs Hcs) as (t' & Ht' & ?).
      rewrite lookup_insert_eq in Ht'. by simplify_eq.
  - intros [[[(Hl & Hr & Hst) _] Hax] Hopen]. split_and!; try done.
    intros a cs Hcs. destruct (decide (a = axis)) as [->|Hne].
    + exists t. rewrite lookup_insert_eq. split; [done|]. by apply Hopen.
    + rewrite lookup_insert_ne by done. by apply Hax.
Qed.

Lemma admits_intern t cs : admits nodes t (Intern x cs) <-> admits nodes t cs.
Proof using.
  assert (forall c, covers nodes t (intern1 x c) <-> covers nodes t c) as Hc.
  { intros c. unfold intern1. by destruct (si_idx x !! sc_NodeID c). }
  assert (forall c, sc_Exclude (intern1 x c) = sc_Exclude c) as Hx.
  { intros c. unfold intern1. by destruct (si_idx x !! sc_NodeID c). }
  unfold admits, Intern. split.
  - intros [(c' & (c & -> & Hin)%list_elem_of_fmap & He & Hcov) Hno].
    rewrite Hx in He. rewrite Hc in Hcov. split; [eauto|]. intros e Hin' He' Hcov'.
    apply (Hno (intern1 x e)); [by apply list_elem_of_fmap_2|by rewrite Hx|by rewrite Hc].
  - intros [(c & Hin & He & Hcov) Hno]. split.
    + exists (intern1 x c). rewrite Hx, Hc. split; [by apply list_elem_of_fmap_2|done].
    + intros c' (e & -> & Hin')%list_elem_of_fmap. rewrite Hx, Hc. by apply Hno.
Qed.

Lemma grant_nodes_place g t :
  (exists n, n ∈ grant_nodes dI permission axis fixed now (intern_grant x g) /\
     lists_place nodes n t) <->
  contributes dI permission axis fixed now (intern_grant x g) = true /\
  exists cs, g_Scopes g !! axis = Some cs /\ admits nodes t cs.
Proof using.
  unfold grant_nodes. destruct (contributes _ _ _ _ _ _).
  - cbn [g_Scopes intern_grant]. rewrite lookup_fmap.
    destruct (g_Scopes g !! axis) as [cs|]; simpl.
    + rewrite constraintsToNodes_spec, admits_intern. naive_solver.
    + split; [intros (n & Hn & _); by apply not_elem_of_nil in Hn|naive_solver].
  - split; [intros (n & Hn & _); by apply not_elem_of_nil in Hn|naive_solver].
Qed.

Lemma elem_of_flat_map {A B} (f : A -> list B) l b :
  b ∈ flat_map f l <-> exists a, a ∈ l /\ b ∈ f a.
Proof using.
  rewrite list_elem_of_In, in_flat_map. split; intros (a & Ha & Hb); exists a;
    rewrite list_elem_of_In in *; by rewrite ?list_elem_of_In in *.
Qed.

Lemma grant_nodes_plain g n :
  plain_grants d id -> g ∈ grants_of d id ->
  n ∈ grant_nodes dI permission axis fixed now (intern_grant x g) -> flat_plain n.
Proof using.
  intros Hp Hg. unfold grant_nodes. destruct (contributes _ _ _ _ _ _);
    [|intros Hn; by apply not_elem_of_nil in Hn].
  cbn [g_Scopes intern_grant]. rewrite lookup_fmap.
  destruct (g_Scopes g !! axis) as [cs|] eqn:Hcs; simpl;
    [|intros Hn; by apply not_elem_of_nil in Hn].
  intros Hn. eapply constraintsToNodes_plain; [|exact Hn].
  intros c' (c & -> & Hc)%list_elem_of_fmap.
  assert (sc_NodeID (intern1 x c) = sc_NodeID c) as ->.
  { unfold intern1. by destruct (si_idx x !! sc_NodeID c). }
  by eapply Hp.
Qed.
End Listing.

Section Agreement.
Context (nodes : list ScopeNode) (d : Data) (id permission axis : string)
  (fixed : gmap string string) (now : Time) (out : Nodes) (t : string).
Hypothesis Hload : loaded nodes d.
Hypothesis Hplain : plain_grants d id.
Hypothesis Hgn : GrantedNodes (InternGrantScopes d) id permission axis fixed now = (out, true).

(** A refused question lists nothing; an answered one has its gates open. *)
Lemma listing_gates :
  gates_open d id permission \/
  (~ gates_open d id permission /\ ns_Everywhere out = false /\ ns_Nodes out = []).
Proof using Hgn.
  revert Hgn. unfold GrantedNodes, gates_open. simpl. intros H.
  destruct (d_Identities d !! id) as [ident|]; [|done].
  destruct (d_Permissions d !! permission) as [perm|]; [|done].
  destruct (i_Blocked ident) eqn:?; simpl in H.
  { injection H as <-. right. split; [|done]. intros (? & ? & ? & ? & ?). congruence. }
  destruct (Z.ltb_spec (i_AssuranceLevel ident) (p_MinAssurance perm)).
  { injection H as <-. right. split; [|done]. intros (? & ? & ? & ? & ? & ?). simplify_eq. lia. }
  left. eauto 10.
Qed.

(** Everywhere is answered exactly when some grant leaves the axis open. *)
Lemma listing_everywhere : gates_open d id permission ->
  (ns_Everywhere out = true <->
   exists g, g ∈ grants_of d id /\ contributes (InternGrantScopes d) permission axis fixed now (intern_grant (d_Scope d) g) = true /\
     g_Scopes g !! axis = None).
Proof using Hgn.
  intros Hg. destruct (GrantedNodes_shape (InternGrantScopes d) id permission axis fixed now Hg)
    as (out' & Ho & Hev & _).
  rewrite Hgn in Ho. injection Ho as <-. rewrite grants_of_intern in Hev. rewrite Hev, existsb_spec.
  split.
  - intros (g' & (g & -> & Hin)%list_elem_of_fmap & Hu). exists g. split; [done|].
    unfold unlimited in Hu. apply andb_true_iff in Hu as [Hc Hno]. split; [done|].
    apply bool_decide_eq_true in Hno. cbn [g_Scopes intern_grant] in Hno.
    by rewrite lookup_fmap, fmap_None in Hno.
  - intros (g & Hin & Hc & Hno). exists (intern_grant (d_Scope d) g).
    split; [by apply list_elem_of_fmap_2|]. unfold unlimited. rewrite Hc. simpl.
    apply bool_decide_eq_true. by rewrite lookup_fmap, Hno.
Qed.

(** Otherwise the listed nodes are exactly those some grant contributes. *)
Lemma listing_nodes n : gates_open d id permission -> ns_Everywhere out = false ->
  (n ∈ ns_Nodes out <->
   exists g, g ∈ grants_of d id /\ n ∈ grant_nodes (InternGrantScopes d) permission axis fixed now (intern_grant (d_Scope d) g)).
Proof using Hgn Hplain.
  intros Hg He. destruct (GrantedNodes_shape (InternGrantScopes d) id permission axis fixed now Hg)
    as (out' & Ho & _ & _ & Hns & _).
  rewrite Hgn in Ho. injection Ho as <-. rewrite grants_of_intern in Hns.
  destruct (Hns He) as [Hs1 Hs2].
  assert (forall m, m ∈ ns_Nodes out -> exists g, g ∈ grants_of d id /\
    m ∈ grant_nodes (InternGrantScopes d) permission axis fixed now (intern_grant (d_Scope d) g)) as Hfrom.
  { intros m Hm. apply Hs1, elem_of_flat_map in Hm as (g' & (g & -> & Hin)%list_elem_of_fmap & Hm). eauto. }
  split; [apply Hfrom|]. intros (g & Hin & Hn).
  destruct (Hs2 n) as (m & Hm & Hkey).
  { apply elem_of_flat_map. exists (intern_grant (d_Scope d) g). split; [by apply list_elem_of_fmap_2|done]. }
  replace n with m; [done|]. destruct (Hfrom m Hm) as (g' & Hin' & Hm').
  apply nodeKey_inj; [eapply grant_nodes_plain; [exact Hplain|exact Hin'|exact Hm']|eapply grant_nodes_plain; [exact Hplain|exact Hin|exact Hn]|done].
Qed.

(** An answer of "everywhere" lists no node. *)
Lemma listing_excl : gates_open d id permission -> ns_Everywhere out = true -> ns_Nodes out = [].
Proof using Hgn.
  intros Hg. destruct (GrantedNodes_shape (InternGrantScopes d) id permission axis fixed now Hg)
    as (out' & Ho & _ & _ & _ & Hemp & _). rewrite Hgn in Ho. by injection Ho as <-.
Qed.

Lemma contributes_not_own g :
  contributes (InternGrantScopes d) permission axis fixed now (intern_grant (d_Scope d) g) = true ->
  g_SelfScoped g = false.
Proof using.
  unfold contributes. rewrite !andb_true_iff, negb_true_iff. cbn [g_SelfScoped intern_grant]. tauto.
Qed.

Lemma listing_no_own g :
  axis <> "_owner"%string -> fixed !! "_owner" <> Some id ->
  grant_ok nodes d id permission (<[axis := t]> fixed) now g -> g_SelfScoped g = false.
Proof using.
  intros Har Hown (_ & _ & Hs & _). destruct (g_SelfScoped g); [|done].
  exfalso. apply Hown. rewrite <- Hs by done. by rewrite lookup_insert_ne.
Qed.
End Agreement.

(** GrantedNodes and Evaluate agree place by place.  For a known place t,
    when the question names no record and no owner of the subject's, Evaluate
    allows t on the open axis exactly when the answer says "everywhere" or
    lists a node that reaches t and carves it out by none of its exceptions. *)
Theorem GrantedNodes_agrees nodes d id permission axis fixed now out t :
  loaded nodes d -> plain_grants d id ->
  GrantedNodes (InternGrantScopes d) id permission axis fixed now = (out, true) ->
  axis <> "_record"%string -> axis <> "_owner"%string ->
  fixed !! "_record" = None -> fixed !! "_owner" <> Some id -> known_node nodes t ->
  Evaluate (InternGrantScopes d) id permission (<[axis := t]> fixed) now = true <->
  ns_Everywhere out = true \/ exists n, n ∈ ns_Nodes out /\ lists_place nodes n t.
Proof.
  intros Hload Hplain Hgn Har Hao Hrec Hown Hk.
  rewrite (Evaluate_authorizes_aux nodes d Hload). unfold authorizes.
  destruct (listing_gates d id permission axis fixed now out Hgn) as [Hg|(Hg & -> & ->)].
  2: { split; [by intros [? _]|]. intros [?|(n & Hin & _)]; [done|]. by apply not_elem_of_nil in Hin. }
  split.
  - intros [_ [(g & Hin & Hok)|(r & s & Hr & _)]];
      [|by rewrite lookup_insert_ne, Hrec in Hr by done].
    pose proof (listing_no_own nodes d id permission axis fixed now t g Hao Hown Hok) as Hself.
    apply grant_ok_open in Hok as [Hc Hopen]; [|done..].
    destruct (ns_Everywhere out) eqn:E; [by left|right].
    destruct (g_Scopes g !! axis) as [cs|] eqn:Hcs.
    + destruct (proj2 (grant_nodes_place nodes d permission axis fixed now g t)) as (n & Hn & Hpl).
      { split; [done|]. exists cs. split; [done|]. by apply Hopen. }
      exists n. split; [|done]. eapply listing_nodes; eauto.
    + enough (false = true) by done. rewrite <- E. eapply listing_everywhere; eauto.
  - intros H. split; [done|]. left. destruct H as [He|(n & Hn & Hpl)].
    + eapply listing_everywhere in He as (g & Hin & Hc & Hno); [|done..]. exists g. split; [done|].
      pose proof (contributes_not_own _ _ _ _ _ _ Hc) as Hself.
      apply grant_ok_open; [done..|]. split; [done|]. intros cs Hcs. congruence.
    + assert (ns_Everywhere out = false) as E.
      { destruct (ns_Everywhere out) eqn:E; [|done].
        rewrite (listing_excl d id permission axis fixed now out Hgn Hg E) in Hn. by apply not_elem_of_nil in Hn. }
      eapply listing_nodes in Hn as (g & Hin & Hn); [|done..].
      destruct (proj1 (grant_nodes_place nodes d permission axis fixed now g t)) as [Hc (cs & Hcs & Ha)];
        [eauto|]. exists g. split; [done|].
      pose proof (contributes_not_own _ _ _ _ _ _ Hc) as Hself.
      apply grant_ok_open; [done..|]. split; [done|]. intros cs' Hcs'. by simplify_eq.
Qed.

Lemma GrantedNodes_agrees_witness :
  let out := fst (GrantedNodes (InternGrantScopes data) "ann" "invoice:read" "org" ∅ 50) in
  ns_Nodes out = [mkNode "hq" true [mkNode "finance" true []]] /\
  (Evaluate (InternGrantScopes data) "ann" "invoice:read" (<["org" := "surabaya"%string]> ∅) 50 = true <->
   ns_Everywhere out = true \/ exists n, n ∈ ns_Nodes out /\ lists_place rows n "surabaya").
Proof.
  split; [vm_compute; reflexivity|].
  apply (GrantedNodes_agrees rows data "ann" "invoice:read" "org" ∅ 50); try done.
  - exact data_loaded.
  - intros g axis cs c Hg Hcs Hc. rewrite (grant_constraints _ _ _ _ Hg Hcs) in Hc.
    apply elem_of_cons in Hc as [->|Hc]; [reflexivity|].
    by apply list_elem_of_singleton in Hc as ->.
  - exists {| sn_ID := "surabaya"; sn_Parent := "hq" |}. split; [|reflexivity].
    unfold rows. rewrite !elem_of_cons. tauto.
Defined.

End SnapshotProps.
