(* ===== verification/Base64.v ===== *)
(** encoding/base64's RawURLEncoding as the token codecs use it: the URL
    alphabet, no padding, CR and LF skipped by the decoder, and [Strict]'s
    check that the unused trailing bits are zero. *)

From Stdlib Require Import ZArith Lia Bool Ascii String.
From stdpp Require Import base gmap strings list.
From S2P Require Import Prelude.
From S2P Require Import GoStrings.

Module Base64.
Local Open Scope Z_scope.

(** The 6-bit digit's character, and back. *)
Definition enc_char (d : Z) : ascii :=
  if d <? 26 then chr (65 + d)
  else if d <? 52 then chr (71 + d)
  else if d <? 62 then chr (d - 4)
  else if d =? 62 then "-"%char else "_"%char.

Definition dec_char (a : ascii) : option Z :=
  let z := code a in
  if (65 <=? z) && (z <=? 90) then Some (z - 65)
  else if (97 <=? z) && (z <=? 122) then Some (z - 71)
  else if (48 <=? z) && (z <=? 57) then Some (z + 4)
  else if bool_decide (a = "-"%char) then Some 62
  else if bool_decide (a = "_"%char) then Some 63
  else None.

(** [EncodeToString] *)
Fixpoint encode (s : string) : string :=
  match s with
  | EmptyString => EmptyString
  | String a EmptyString =>
      String (enc_char (code a / 4)) (String (enc_char (code a mod 4 * 16)) EmptyString)
  | String a (String b EmptyString) =>
      String (enc_char (code a / 4))
        (String (enc_char (code a mod 4 * 16 + code b / 16))
          (String (enc_char (code b mod 16 * 4)) EmptyString))
  | String a (String b (String c r)) =>
      String (enc_char (code a / 4))
        (String (enc_char (code a mod 4 * 16 + code b / 16))
          (String (enc_char (code b mod 16 * 4 + code c / 64))
            (String (enc_char (code c mod 64)) (encode r))))
  end.

(** The decoder's input once CR and LF are dropped. *)
Fixpoint skip_newlines (s : string) : string :=
  match s with
  | EmptyString => EmptyString
  | String a s' =>
      if (code a =? 10) || (code a =? 13) then skip_newlines s' else String a (skip_newlines s')
  end.

Fixpoint decode_quads (strict : bool) (s : string) : option string :=
  match s with
  | EmptyString => Some EmptyString
  | String _ EmptyString => None
  | String a (String b EmptyString) =>
      x ← dec_char a; y ← dec_char b;
      if strict && negb (y mod 16 =? 0) then None
      else Some (String (chr (x * 4 + y / 16)) EmptyString)
  | String a (String b (String c EmptyString)) =>
      x ← dec_char a; y ← dec_char b; z ← dec_char c;
      if strict && negb (z mod 4 =? 0) then None
      else Some (String (chr (x * 4 + y / 16)) (String (chr (y mod 16 * 16 + z / 4)) EmptyString))
  | String a (String b (String c (String d r))) =>
      x ← dec_char a; y ← dec_char b; z ← dec_char c; w ← dec_char d;
      rest ← decode_quads strict r;
      Some (String (chr (x * 4 + y / 16))
             (String (chr (y mod 16 * 16 + z / 4)) (String (chr (z mod 4 * 64 + w)) rest)))
  end.

Definition decode (strict : bool) (s : string) : option string :=
  decode_quads strict (skip_newlines s).

(** ** Lemmas *)

Lemma dec_enc_char d : 0 <= d < 64 -> dec_char (enc_char d) = Some d.
Proof.
  intros H.
  assert (forallb (fun n => bool_decide (dec_char (enc_char (Z.of_nat n)) = Some (Z.of_nat n)))
            (seq 0 64) = true) as Hall by (vm_compute; reflexivity).
  rewrite forallb_spec in Hall. specialize (Hall (Z.to_nat d)).
  rewrite Z2Nat.id in Hall by lia. eapply bool_decide_eq_true_1, Hall, elem_of_seq. lia.
Qed.

Lemma enc_dec_char a d : dec_char a = Some d -> enc_char d = a /\ 0 <= d < 64.
Proof.
  assert (forallb (fun n => match dec_char (chr (Z.of_nat n)) with
            | Some d => bool_decide (enc_char d = chr (Z.of_nat n)) && (0 <=? d) && (d <? 64)
            | None => true end) (seq 0 256) = true) as Hall by (vm_compute; reflexivity).
  rewrite forallb_spec in Hall. pose proof (code_range a) as Hr. intros Hd.
  specialize (Hall (Z.to_nat (code a))). rewrite Z2Nat.id, chr_code, Hd in Hall by lia.
  assert (Hall' := Hall ltac:(apply elem_of_seq; lia)). unbool. split; [done|lia].
Qed.

(** No character of the alphabet is a newline or a dot. *)
Lemma enc_char_plain d :
  0 <= d < 64 -> (code (enc_char d) =? 10) || (code (enc_char d) =? 13) = false /\
  enc_char d <> "."%char.
Proof.
  intros H.
  assert (forallb (fun n => negb ((code (enc_char (Z.of_nat n)) =? 10) || (code (enc_char (Z.of_nat n)) =? 13))
            && negb (bool_decide (enc_char (Z.of_nat n) = "."%char))) (seq 0 64) = true)
    as Hall by (vm_compute; reflexivity).
  rewrite forallb_spec in Hall. specialize (Hall (Z.to_nat d)). rewrite Z2Nat.id in Hall by lia.
  assert (Hall' := Hall ltac:(apply elem_of_seq; lia)).
  apply andb_true_iff in Hall' as [H1 H2]. apply negb_true_iff in H1, H2.
  split; [done|]. by apply bool_decide_eq_false_1 in H2.
Qed.

(** Strong induction three bytes (or four characters) at a time. *)
Lemma string_len_ind (P : string -> Prop) :
  (forall s, (forall t, (String.length t < String.length s)%nat -> P t) -> P s) -> forall s, P s.
Proof.
  intros H s. remember (String.length s) as n eqn:Hn. revert s Hn.
  induction n as [n IH] using lt_wf_ind. intros s ->. apply H. intros t Ht. by eapply IH.
Qed.

Ltac byte_bounds :=
  repeat match goal with
  | a : ascii |- _ =>
      lazymatch goal with
      | _ : 0 <= code a < 256 |- _ => fail
      | |- _ => pose proof (code_range a)
      end
  end.

Ltac digit_bound := Z.div_mod_to_equations; lia.

Lemma encode_plain s :
  str_forallb (fun a => negb ((code a =? 10) || (code a =? 13)) && negb (bool_decide (a = "."%char)))
    (encode s) = true.
Proof.
  assert (forall d, 0 <= d < 64 ->
    negb ((code (enc_char d) =? 10) || (code (enc_char d) =? 13)) &&
    negb (bool_decide (enc_char d = "."%char)) = true) as Hd.
  { intros d Hd. destruct (enc_char_plain d Hd) as [-> Hn]. by rewrite bool_decide_eq_false_2. }
  induction s as [s IH] using string_len_ind.
  destruct s as [|a [|b [|c r]]]; simpl; byte_bounds; [done|..].
  - rewrite !Hd by digit_bound. done.
  - rewrite !Hd by digit_bound. done.
  - rewrite !Hd by digit_bound. apply IH. simpl. lia.
Qed.

Lemma skip_newlines_id s :
  str_forallb (fun a => negb ((code a =? 10) || (code a =? 13))) s = true -> skip_newlines s = s.
Proof.
  induction s as [|a s IH]; simpl; [done|]. intros H. apply andb_true_iff in H as [Ha H].
  apply negb_true_iff in Ha. rewrite Ha. by rewrite IH.
Qed.

Lemma decode_quads_encode strict s : decode_quads strict (encode s) = Some s.
Proof.
  induction s as [s IH] using string_len_ind.
  destruct s as [|a [|b [|c r]]]; simpl; byte_bounds; [done|..].
  - rewrite !dec_enc_char by digit_bound. simpl.
    replace ((code a mod 4 * 16) mod 16) with 0 by (rewrite Z.mod_mul; lia).
    rewrite andb_false_r. replace (code a / 4 * 4 + _) with (code a) by digit_bound.
    by rewrite chr_code.
  - rewrite !dec_enc_char by digit_bound. simpl.
    replace ((code b mod 16 * 4) mod 4) with 0 by (rewrite Z.mod_mul; lia).
    rewrite andb_false_r.
    replace (code a / 4 * 4 + _) with (code a) by digit_bound.
    replace (_ * 16 + code b mod 16 * 4 / 4) with (code b) by digit_bound.
    by rewrite !chr_code.
  - rewrite !dec_enc_char by digit_bound. simpl. rewrite IH by (simpl; lia). simpl.
    replace (code a / 4 * 4 + _) with (code a) by digit_bound.
    replace (_ * 16 + (code b mod 16 * 4 + code c / 64) / 4) with (code b) by digit_bound.
    replace (_ * 64 + code c mod 64) with (code c) by digit_bound.
    by rewrite !chr_code.
Qed.

Lemma decode_encode strict s : decode strict (encode s) = Some s.
Proof.
  unfold decode. rewrite skip_newlines_id; [apply decode_quads_encode|].
  eapply str_forallb_impl; [|apply (encode_plain s)]. intros a Ha.
  by apply andb_true_iff in Ha as [? _].
Qed.

(** Strict decoding accepts only the canonical encoding. *)
Lemma encode_decode_quads s t : decode_quads true s = Some t -> encode t = s.
Proof.
  revert t. induction s as [s IH] using string_len_ind. intros t Ht.
  destruct s as [|a [|b [|c [|d r]]]]; simpl in Ht; simplify_eq; [done|..];
    destruct (dec_char a) as [x|] eqn:Ea; try done; simpl in Ht;
    destruct (dec_char b) as [y|] eqn:Eb; try done; simpl in Ht;
    apply enc_dec_char in Ea as [<- Hx]; apply enc_dec_char in Eb as [<- Hy].
  - destruct (Z.eqb_spec (y mod 16) 0) as [Hz|]; [|done]. simpl in Ht. simplify_eq. simpl.
    rewrite code_chr by digit_bound. do 2 f_equal; [f_equal; digit_bound|].
    f_equal. f_equal. digit_bound.
  - destruct (dec_char c) as [z|] eqn:Ec; [|done]; simpl in Ht.
    apply enc_dec_char in Ec as [<- Hz].
    destruct (Z.eqb_spec (z mod 4) 0) as [Hz0|]; [|done]. simpl in Ht. simplify_eq. simpl.
    rewrite !code_chr by digit_bound.
    repeat f_equal; digit_bound.
  - destruct (dec_char c) as [z|] eqn:Ec; [|done]; simpl in Ht.
    destruct (dec_char d) as [w|] eqn:Ed; [|done]; simpl in Ht.
    apply enc_dec_char in Ec as [<- Hz]. apply enc_dec_char in Ed as [<- Hw].
    destruct (decode_quads true r) as [rest|] eqn:Er; [|done]. simpl in Ht. simplify_eq. simpl.
    rewrite (IH r) by (done || simpl; lia).
    rewrite !code_chr by digit_bound.
    repeat f_equal; digit_bound.
Qed.

End Base64.
