(* ===== verification/GoConv.v ===== *)
(** Conversions of Go's standard library the modelled code calls: strconv's
    decimal integers, unicode/utf8's rune count, encoding/base64's standard
    alphabet without padding and encoding/hex; and the uuid text of
    internal/platform/database/storm.go. *)

From Stdlib Require Import ZArith Lia Bool Ascii String.
From stdpp Require Import base gmap strings list.
From S2P Require Import Prelude.
From S2P Require Import GoStrings.
From S2P Require Import Base64.

(** ** strconv *)
Module Strconv.
Local Open Scope Z_scope.

(** The digits of [n >= 0], most significant first, in front of [acc]; 20
    digits are enough for 64 bits. *)
Fixpoint digits_from (fuel : nat) (n : Z) (acc : string) : string :=
  match fuel with
  | O => acc
  | S f => let acc := String (chr (48 + n mod 10)) acc in
           if n <? 10 then acc else digits_from f (n / 10) acc
  end.

(** [strconv.Itoa], for a 64-bit [n]. *)
Definition Itoa (n : Z) : string :=
  if n <? 0 then String "-" (digits_from 20 (- n) "") else digits_from 20 n "".

Fixpoint parse_digits (s : string) (acc : Z) : option Z :=
  match s with
  | EmptyString => Some acc
  | String a r => if in_range 48 57 a then parse_digits r (acc * 10 + (code a - 48)) else None
  end.

(** [strconv.Atoi]: an optional sign, then digits, within 64 bits. *)
Definition Atoi (s : string) : option Z :=
  let '(neg, body) := match s with
                      | String a r => if bool_decide (a = "-"%char) then (true, r)
                                      else if bool_decide (a = "+"%char) then (false, r) else (false, s)
                      | EmptyString => (false, s)
                      end in
  if bool_decide (body = ""%string) then None
  else match parse_digits body 0 with
       | None => None
       | Some n => let n := if neg : bool then - n else n in
                   if (- 2 ^ 63 <=? n) && (n <? 2 ^ 63) then Some n else None
       end.

Lemma digit_code d : 0 <= d < 10 -> in_range 48 57 (chr (48 + d)) = true /\ code (chr (48 + d)) - 48 = d.
Proof.
  intros H. unfold in_range. rewrite !code_chr by lia. split; [|lia]. apply andb_true_iff. rewrite !Z.leb_le. lia.
Qed.

Lemma parse_digits_from f n acc a :
  (0 < f)%nat -> 0 <= n < 10 ^ Z.of_nat f -> exists k, 0 <= k /\ parse_digits (digits_from f n acc) a = parse_digits acc (a * 10 ^ k + n).
Proof.
  revert n acc. induction f as [|f IH]; intros n acc Hf Hn; [lia|]. cbn [digits_from]. cbv zeta.
  destruct (Z.ltb_spec n 10) as [Hlt|Hge].
  - exists 1. split; [lia|]. cbn [parse_digits]. rewrite Z.mod_small by lia.
    destruct (digit_code n ltac:(lia)) as [-> ->]. f_equal; lia.
  - assert (0 < f)%nat by (destruct f; [simpl in Hn; lia|lia]).
    assert (Hdiv : 0 <= n / 10 < 10 ^ Z.of_nat f).
    { split; [apply Z.div_pos; lia|]. apply Z.div_lt_upper_bound; [lia|].
      rewrite Nat2Z.inj_succ, Z.pow_succ_r in Hn by lia. lia. }
    destruct (IH (n / 10) (String (chr (48 + n mod 10)) acc)) as (k & Hk & ->); [done..|].
    exists (k + 1). split; [lia|]. cbn [parse_digits].
    destruct (digit_code (n mod 10) ltac:(apply Z.mod_pos_bound; lia)) as [-> ->].
    f_equal. rewrite Z.pow_add_r by lia. pose proof (Z.div_mod n 10 ltac:(lia)). nia.
Qed.

Lemma digits_from_digits f n acc :
  0 <= n -> str_forallb (in_range 48 57) acc = true -> str_forallb (in_range 48 57) (digits_from f n acc) = true.
Proof.
  revert n acc. induction f as [|f IH]; intros n acc Hn Ha; [done|]. cbn [digits_from]. cbv zeta.
  assert (Hd : str_forallb (in_range 48 57) (String (chr (48 + n mod 10)) acc) = true).
  { simpl. destruct (digit_code (n mod 10) ltac:(apply Z.mod_pos_bound; lia)) as [-> _]. done. }
  destruct (n <? 10); [done|]. apply IH; [apply Z.div_pos; lia|done].
Qed.

Lemma digits_from_length f n acc : (0 < f)%nat -> (String.length acc < String.length (digits_from f n acc))%nat.
Proof.
  revert n acc. induction f as [|f IH]; intros n acc Hf; [lia|]. cbn [digits_from]. cbv zeta.
  destruct (n <? 10); [simpl; lia|]. destruct f as [|f]; [simpl; lia|].
  specialize (IH (n / 10) (String (chr (48 + n mod 10)) acc) ltac:(lia)). simpl in *. lia.
Qed.

Lemma Itoa_digits n : 0 <= n -> str_forallb (in_range 48 57) (Itoa n) = true.
Proof. intros H. unfold Itoa. destruct (Z.ltb_spec n 0); [lia|]. by apply digits_from_digits. Qed.

(** What is printed is read back. *)
Lemma Atoi_Itoa n : 0 <= n < 2 ^ 63 -> Atoi (Itoa n) = Some n.
Proof.
  intros Hn. assert (Hd := Itoa_digits n ltac:(lia)). unfold Itoa in *. destruct (Z.ltb_spec n 0); [lia|].
  pose proof (digits_from_length 20 n "" ltac:(lia)) as Hl.
  destruct (parse_digits_from 20 n "" 0) as (k & _ & Hp); [lia|lia|].
  destruct (digits_from 20 n "") as [|c r] eqn:E; [simpl in Hl; lia|].
  assert (Hc : in_range 48 57 c = true) by (simpl in Hd; by apply andb_true_iff in Hd as [? _]).
  unfold Atoi. rewrite !bool_decide_eq_false_2 by (intros ->; vm_compute in Hc; congruence).
  rewrite bool_decide_eq_false_2 by done. rewrite Hp. cbn [parse_digits].
  replace (0 * 10 ^ k + n) with n by lia. replace ((- 2 ^ 63 <=? n) && (n <? 2 ^ 63)) with true; [done|]. symmetry. apply andb_true_iff. rewrite Z.leb_le, Z.ltb_lt. lia.
Qed.

Lemma Itoa_plain c n : 0 <= n -> in_range 48 57 c = false -> has_byte c (Itoa n) = false.
Proof.
  intros Hn Hc. unfold has_byte, str_existsb. apply negb_false_iff. eapply str_forallb_impl; [|apply (Itoa_digits n Hn)].
  intros a Ha. apply negb_true_iff, bool_decide_eq_false. intros ->. congruence.
Qed.

Definition FormatBool (b : bool) : string := if b then "true" else "false".

Example Itoa_ex : Itoa 600000 = "600000"%string /\ Itoa 0 = "0"%string /\ Itoa (-5) = "-5"%string /\
  Atoi "+07" = Some 7 /\ Atoi "-" = None /\ Atoi "9223372036854775808" = None.
Proof. vm_compute. done. Qed.

End Strconv.

(** ** unicode/utf8 *)
Module Utf8.

(** The continuation bytes of the sequence that [a] starts; none when the
    sequence is malformed, which decodes as one RuneError of width one. *)
Definition continuation (a : ascii) (r : string) : nat :=
  match utf8_lead a with
  | Some (S k, lo, hi) =>
      match r with
      | String b r' => if in_range lo hi b && (k <=? String.length r')%nat && str_forallb (in_range 128 191) (str_take k r')
                       then S k else 0%nat
      | EmptyString => 0%nat
      end
  | _ => 0%nat
  end.

(** [utf8.RuneCountInString]; [skip] bytes belong to the rune before. *)
Fixpoint rune_count (skip : nat) (s : string) : nat :=
  match s with
  | EmptyString => 0
  | String a r => match skip with
                  | S k => rune_count k r
                  | O => S (rune_count (continuation a r) r)
                  end
  end.

Definition RuneCountInString (s : string) : nat := rune_count 0 s.

Example rune_count_ex : RuneCountInString (str_of [97; 195; 169; 226; 130; 172; 255; 240; 159]%Z) = 6%nat.
Proof. vm_compute. reflexivity. Qed.

End Utf8.

(** ** encoding/base64: RawStdEncoding, not strict *)
Module StdBase64.

Definition std_char (a : ascii) : ascii := if bool_decide (a = "-"%char) then "+"%char else if bool_decide (a = "_"%char) then "/"%char else a.
Definition url_char (a : ascii) : ascii := if bool_decide (a = "+"%char) then "-"%char else if bool_decide (a = "/"%char) then "_"%char else a.

Fixpoint str_map (f : ascii -> ascii) (s : string) : string :=
  match s with
  | EmptyString => EmptyString
  | String a r => String (f a) (str_map f r)
  end.

Definition encode (s : string) : string := str_map std_char (Base64.encode s).

Definition decode (s : string) : option string :=
  if has_byte "-" s || has_byte "_" s then None else Base64.decode false (str_map url_char s).

Definition url_alphabet (a : ascii) : bool := match Base64.dec_char a with Some _ => true | None => false end.

Lemma encode_alphabet s : str_forallb url_alphabet (Base64.encode s) = true.
Proof.
  assert (forall d, (0 <= d < 64)%Z -> url_alphabet (Base64.enc_char d) = true) as Hd.
  { intros d H. unfold url_alphabet. by rewrite Base64.dec_enc_char. }
  induction s as [s IH] using Base64.string_len_ind.
  destruct s as [|a [|b [|c r]]]; simpl; Base64.byte_bounds; [done|..]; rewrite ?Hd by Base64.digit_bound; try done.
  apply IH. simpl. lia.
Qed.

Lemma url_std_char a : url_alphabet a = true -> url_char (std_char a) = a /\ std_char a <> "-"%char /\ std_char a <> "_"%char /\ std_char a <> "$"%char.
Proof.
  assert (forallb (fun n => negb (url_alphabet (chr (Z.of_nat n))) ||
    (bool_decide (url_char (std_char (chr (Z.of_nat n))) = chr (Z.of_nat n)) && negb (bool_decide (std_char (chr (Z.of_nat n)) = "-"%char)) &&
     negb (bool_decide (std_char (chr (Z.of_nat n)) = "_"%char)) && negb (bool_decide (std_char (chr (Z.of_nat n)) = "$"%char)))) (seq 0 256) = true)
    as Hall by (vm_compute; reflexivity).
  intros Ha. rewrite forallb_spec in Hall. pose proof (code_range a) as Hr. specialize (Hall (Z.to_nat (code a))).
  rewrite Z2Nat.id, chr_code, Ha in Hall by lia. specialize (Hall ltac:(apply elem_of_seq; lia)). simpl in Hall. unbool. done.
Qed.

Lemma str_map_round s : str_forallb url_alphabet s = true -> str_map url_char (str_map std_char s) = s.
Proof.
  induction s as [|a s IH]; [done|]. simpl. intros [Ha Hs]%andb_true_iff. f_equal; [by apply url_std_char|by apply IH].
Qed.

Lemma str_map_plain c s :
  str_forallb url_alphabet s = true -> c = "-"%char \/ c = "_"%char \/ c = "$"%char -> has_byte c (str_map std_char s) = false.
Proof.
  intros Hs Hc. apply negb_false_iff. induction s as [|a s IH]; [done|]. simpl in *. apply andb_true_iff in Hs as [Ha Hs].
  apply andb_true_iff. split; [|by apply IH]. apply url_std_char in Ha as (_ & H1 & H2 & H3).
  apply negb_true_iff, bool_decide_eq_false. naive_solver.
Qed.

Lemma std_decode_encode s : decode (encode s) = Some s.
Proof.
  unfold decode, encode. pose proof (encode_alphabet s) as Ha.
  rewrite !str_map_plain by auto. simpl. rewrite str_map_round by done. apply Base64.decode_encode.
Qed.

Lemma std_encode_plain s : has_byte "$" (encode s) = false.
Proof. apply str_map_plain; [apply encode_alphabet|auto]. Qed.

End StdBase64.

(** ** encoding/hex *)
Module HexCodec.

Definition fromHexChar (c : ascii) : option Z :=
  let z := code c in
  (if (48 <=? z) && (z <=? 57) then Some (z - 48)
   else if (97 <=? z) && (z <=? 102) then Some (z - 87)
   else if (65 <=? z) && (z <=? 70) then Some (z - 55)
   else None)%Z.

Fixpoint Decode (s : string) : option string :=
  match s with
  | EmptyString => Some EmptyString
  | String a (String b r) =>
      match fromHexChar a, fromHexChar b, Decode r with
      | Some x, Some y, Some t => Some (String (chr (x * 16 + y)) t)
      | _, _, _ => None
      end
  | String _ EmptyString => None
  end.

End HexCodec.

(** ** internal/platform/database/storm.go: uuids *)
Module Uuid.

Definition dash_at (s : string) (i : nat) : bool := bool_decide (String.get i s = Some "-"%char).

(** The 16 bytes. *)
Definition ParseUUID (s : string) : option string :=
  if negb ((String.length s =? 36)%nat && dash_at s 8 && dash_at s 13 && dash_at s 18 && dash_at s 23) then None
  else HexCodec.Decode (str_take 8 s ++ str_take 4 (str_drop 9 s) ++ str_take 4 (str_drop 14 s) ++ str_take 4 (str_drop 19 s) ++ str_drop 24 s).

(** The text a uuid column prints for a parameter: parsed, and in lower case. *)
Definition canon (s : string) : option string := match ParseUUID s with Some _ => Some (str_lower s) | None => None end.

Example canon_ex :
  canon "0190A0B0-0000-7000-8000-0000000000aA" = Some "0190a0b0-0000-7000-8000-0000000000aa"%string /\ canon "app_billing" = None.
Proof. vm_compute. done. Qed.

End Uuid.
