(* ===== verification/Secrets.v ===== *)
(** Secrets at rest: internal/platform/crypto/kdf (password hashes that carry
    their own algorithm and cost), internal/platform/crypto/legacyhash (bcrypt
    hashes imported from elsewhere) and the API keys and hex storage form of
    internal/platform/crypto/secret.  PBKDF2, bcrypt and SHA-256 are parameters;
    random bytes are arguments. *)

From Stdlib Require Import ZArith Lia Bool Ascii String.
From stdpp Require Import base gmap strings list.
From S2P Require Import Prelude.
From S2P Require Import GoStrings.
From S2P Require Import Base64.
From S2P Require Import GoConv.

(** What bcrypt.CompareHashAndPassword answers. *)
Inductive bcrypt_answer := BcryptMatch | BcryptMismatch | BcryptUnusable.

(** crypto/pbkdf2 over SHA-256 (password, salt, iterations, length) and bcrypt. *)
Class KdfPrims := {
  pbkdf2_key : string -> string -> Z -> nat -> option string;
  bcrypt_compare : string -> string -> bcrypt_answer;   (* hash, password *)
  bcrypt_cost : string -> option Z
}.
(** PBKDF2 derives a key of the length asked for. *)
Class KdfLaws (K : KdfPrims) : Prop := {
  pbkdf2_total pw salt i n : (1 <= i)%Z -> exists dk, pbkdf2_key pw salt i n = Some dk /\ String.length dk = n
}.

(** ** legacyhash.go *)
Module Legacyhash.
Section Bcrypt.
Context `{K : KdfPrims}.

Inductive Error := ErrNotLegacy | ErrUnusable.

Definition AlgBcrypt : string := "bcrypt".

Definition byte_is (i : nat) (c : ascii) (s : string) : bool := bool_decide (String.get i s = Some c).

Definition isBcrypt (encoded : string) : bool :=
  if negb (String.length encoded =? 60)%nat || negb (String.prefix "$2" encoded) then false
  else if byte_is 2 "$" encoded then true
  else if byte_is 2 "a" encoded || byte_is 2 "b" encoded || byte_is 2 "x" encoded || byte_is 2 "y" encoded
  then byte_is 3 "$" encoded
  else false.

Definition IsLegacy (encoded : string) : bool := isBcrypt encoded.

Definition Describe (encoded : string) : result Error string :=
  if isBcrypt encoded then match bcrypt_cost encoded with Some _ => Ok AlgBcrypt | None => Err ErrNotLegacy end
  else Err ErrNotLegacy.

Definition Verify (password encoded : string) : result Error bool :=
  if negb (isBcrypt encoded) then Err ErrNotLegacy
  else match bcrypt_compare encoded password with
       | BcryptMatch => Ok true
       | BcryptMismatch => Ok false
       | BcryptUnusable => Err ErrUnusable
       end.

End Bcrypt.
End Legacyhash.

(** ** kdf.go *)
Module Kdf.
Section Kdf.
Context `{K : KdfPrims}.

Inductive Error := ErrFormat | ErrDerive | ErrLegacy (e : Legacyhash.Error).

Definition algID : string := "pbkdf2-sha256".
Definition DefaultIterations : Z := 600 * 1000.
Definition saltLen : nat := 16.
Definition keyLen : nat := 32.

(** The work a call does: one entry per PBKDF2 derivation, its iterations.  A
    derivation is what the running time of a call consists of. *)
Definition M (A : Type) : Type := Eff (list Z) Error A.

(** One derivation; it takes its time whatever comes of it. *)
Definition derive (password salt : string) (iterations : Z) (len : nat) : M string :=
  fun w => (match pbkdf2_key password salt iterations len with Some dk => Ok dk | None => Err ErrDerive end,
            w ++ [iterations]).

(** [salt] is what crypto/rand returns. *)
Definition hashWith (salt : string) (password : string) (iterations : Z) : M string :=
  dk ← derive password salt iterations keyLen;
  mret ("$" ++ algID ++ "$i=" ++ Strconv.Itoa iterations ++ "$" ++ StdBase64.encode salt ++ "$" ++ StdBase64.encode dk)%string.

Definition Hash (salt : string) (password : string) : M string := hashWith salt password DefaultIterations.

Definition parse (encoded : string) : result Error (string * Z * string * string) :=
  match split_on "$" encoded with
  | [p0; alg; p2; p3; p4] =>
      if negb (bool_decide (p0 = ""%string)) then Err ErrFormat
      else if negb (String.prefix "i=" p2) then Err ErrFormat
      else match Strconv.Atoi (str_drop 2 p2) with
           | None => Err ErrFormat
           | Some iterations =>
               if (iterations <? 1)%Z || (10 * 1000 * 1000 <? iterations)%Z then Err ErrFormat
               else match StdBase64.decode p3 with
                    | None => Err ErrFormat
                    | Some salt =>
                        match StdBase64.decode p4 with
                        | None => Err ErrFormat
                        | Some dk => if (String.length dk =? 0)%nat || (64 <? String.length dk)%nat then Err ErrFormat
                                     else Ok (alg, iterations, salt, dk)
                        end
                    end
           end
  | _ => Err ErrFormat
  end.

Context (dummy : string).   (* Dummy(): made once per process by Hash *)

Definition burnDummy (password : string) : M unit :=
  match parse dummy with
  | Err _ => mret tt
  | Ok (_, iterations, salt, want) =>
      _ ← attempt (F := Error) (derive password salt iterations (String.length want)); mret tt
  end.

(** (ok, needsRehash) *)
Definition Verify (password encoded : string) : M (bool * bool) :=
  if Legacyhash.IsLegacy encoded then
    let r := Legacyhash.Verify password encoded in
    _ ← burnDummy password;
    match r with
    | Err e => raise (ErrLegacy e)
    | Ok ok => mret (ok, ok)
    end
  else match parse encoded with
       | Err e => _ ← burnDummy password; raise e
       | Ok (alg, iterations, salt, want) =>
           if negb (bool_decide (alg = algID)) then raise ErrFormat
           else
             got ← derive password salt iterations (String.length want);
             let ok := bool_decide (got = want) in
             mret (ok, ok && (iterations <? DefaultIterations)%Z)
       end.

(** (algorithm, legacy) *)
Definition Describe (encoded : string) : result Error (string * bool) :=
  if Legacyhash.IsLegacy encoded then
    match Legacyhash.Describe encoded with Ok alg => Ok (alg, true) | Err e => Err (ErrLegacy e) end
  else match parse encoded with
       | Err e => Err e
       | Ok (alg, _, _, _) => if negb (bool_decide (alg = algID)) then Err ErrFormat else Ok (alg, false)
       end.

End Kdf.

(** The [Dummy] of a process: Hash of 24 random bytes in base64. *)
Definition Dummy `{K : KdfPrims} (random salt : string) : option string :=
  match fst (Hash salt (StdBase64.encode random) []) with Ok h => Some h | Err _ => None end.

End Kdf.

(** ** secret.go: API keys and hex *)
Module Secret.
Section Secret.
Context (sha256 : string -> string).

Definition apiKeyPrefixLen : nat := 8.
Definition live : string := "anb_live_".

(** (full key, lookup key, hash of the secret part); [r6] and [r32] are the
    random bytes. *)
Definition NewAPIKey (r6 r32 : string) : string * string * string :=
  let prefix := str_take apiKeyPrefixLen (Base64.encode r6) in
  let sec := Base64.encode r32 in
  ((live ++ prefix ++ "_" ++ sec)%string, (live ++ prefix)%string, sha256 sec).

Definition SplitAPIKey (key : string) : option (string * string) :=
  if negb (String.prefix live key) then None
  else
    let rest := str_drop (String.length live) key in
    if (String.length rest <=? apiKeyPrefixLen + 1)%nat || negb (bool_decide (String.get apiKeyPrefixLen rest = Some "_"%char))
    then None
    else Some ((live ++ str_take apiKeyPrefixLen rest)%string, str_drop (apiKeyPrefixLen + 1) rest).

Definition hex_digit (d : Z) : ascii := if (d <? 10)%Z then chr (48 + d) else chr (87 + d).

Fixpoint Hex (b : string) : string :=
  match b with
  | EmptyString => EmptyString
  | String c r => String (hex_digit (Z.shiftr (code c) 4)) (String (hex_digit (Z.land (code c) 15)) (Hex r))
  end.

End Secret.
End Secret.

(** ** What they promise *)
Module SecretsProps.
Import Kdf.

Lemma has_byte_app c (s t : string) : has_byte c (s ++ t) = has_byte c s || has_byte c t.
Proof. unfold has_byte, str_existsb. rewrite str_forallb_app. by rewrite negb_andb. Qed.

Lemma split_byte c s t : has_byte c s = false -> split_on c (s ++ String c t) = s :: split_on c t.
Proof. intros H. apply split_app_sep. unfold has_byte, str_existsb in H. by apply negb_false_iff in H. Qed.

Lemma split_end c s : has_byte c s = false -> split_on c s = [s].
Proof. intros H. apply split_no_sep. unfold has_byte, str_existsb in H. by apply negb_false_iff in H. Qed.

Definition phc (iterations : Z) (salt dk : string) : string :=
  ("$" ++ algID ++ "$i=" ++ Strconv.Itoa iterations ++ "$" ++ StdBase64.encode salt ++ "$" ++ StdBase64.encode dk)%string.

(** The text of a hash is read back field by field. *)
Lemma parse_phc n salt dk :
  (1 <= n <= 10 * 1000 * 1000)%Z -> (1 <= String.length dk <= 64)%nat -> parse (phc n salt dk) = Ok (algID, n, salt, dk).
Proof.
  intros Hn Hdk. unfold parse, phc.
  change ("$" ++ algID ++ "$i=" ++ Strconv.Itoa n ++ "$" ++ StdBase64.encode salt ++ "$" ++ StdBase64.encode dk)%string
    with ("" ++ String "$" (algID ++ String "$" (("i=" ++ Strconv.Itoa n) ++ String "$" (StdBase64.encode salt ++ String "$" (StdBase64.encode dk)))))%string.
  assert (Hi : has_byte "$" ("i=" ++ Strconv.Itoa n) = false) by (rewrite has_byte_app, Strconv.Itoa_plain; [done|lia|done]).
  rewrite !split_byte, split_end by (done || apply StdBase64.std_encode_plain).
  rewrite bool_decide_eq_true_2 by done. cbn [negb].
    replace (String.prefix "i=" ("i=" ++ Strconv.Itoa n)) with true by (symmetry; apply prefix_app).
    change (str_drop 2 ("i=" ++ Strconv.Itoa n)) with (Strconv.Itoa n). rewrite Strconv.Atoi_Itoa by lia. cbn [negb].
    destruct (Z.ltb_spec n 1); [lia|]. destruct (Z.ltb_spec (10 * 1000 * 1000) n); [lia|]. cbn [orb].
    rewrite !StdBase64.std_decode_encode.
    destruct (Nat.eqb_spec (String.length dk) 0); [lia|]. by destruct (Nat.ltb_spec 64 (String.length dk)); [lia|].
Qed.

Lemma phc_not_legacy n salt dk : Legacyhash.IsLegacy (phc n salt dk) = false.
Proof. unfold Legacyhash.IsLegacy, Legacyhash.isBcrypt, phc. cbn. by rewrite orb_true_r. Qed.

Section Laws.
Context `{K : KdfPrims} `{L : !KdfLaws K}.

Lemma hashWith_ok salt pw n w h w' :
  hashWith salt pw n w = (Ok h, w') -> exists dk, pbkdf2_key pw salt n keyLen = Some dk /\ h = phc n salt dk /\ w' = w ++ [n].
Proof.
  unfold hashWith. intros (dk & w1 & Hd & Hr)%bind_ok. unfold derive in Hd.
  destruct (pbkdf2_key pw salt n keyLen) as [dk'|]; [|done]. injection Hd as <- <-. injection Hr as <- <-. by exists dk'.
Qed.

(** A password hash verifies.  The text Hash stores is read back with its
    algorithm, cost and salt; the same password verifies against it, is not
    asked to be rehashed, and costs one derivation at the full cost; any other
    password verifies only if it derives the very same key. *)
Theorem hash_verifies dummy salt pw w :
  exists h, fst (Hash salt pw w) = Ok h /\ fst (Verify dummy pw h w) = Ok (true, false) /\
    snd (Verify dummy pw h w) = w ++ [DefaultIterations] /\
    (exists dk, parse h = Ok (algID, DefaultIterations, salt, dk)) /\
    forall pw', fst (Verify dummy pw' h w) =
      Ok (bool_decide (pbkdf2_key pw' salt DefaultIterations keyLen = pbkdf2_key pw salt DefaultIterations keyLen), false).
Proof.
  destruct (pbkdf2_total pw salt DefaultIterations keyLen ltac:(unfold DefaultIterations; lia)) as (dk & Hdk & Hlen).
  exists (phc DefaultIterations salt dk).
  assert (Hp : parse (phc DefaultIterations salt dk) = Ok (algID, DefaultIterations, salt, dk)).
  { apply parse_phc; [unfold DefaultIterations; lia|rewrite Hlen; unfold keyLen; lia]. }
  assert (Hv : forall pw', Verify dummy pw' (phc DefaultIterations salt dk) w =
    (Ok (bool_decide (pbkdf2_key pw' salt DefaultIterations keyLen = pbkdf2_key pw salt DefaultIterations keyLen), false),
     w ++ [DefaultIterations])).
  { intros pw'. unfold Verify. rewrite phc_not_legacy, Hp, bool_decide_eq_true_2 by done. cbn [negb].
    destruct (pbkdf2_total pw' salt DefaultIterations keyLen ltac:(unfold DefaultIterations; lia)) as (dk' & Hdk' & Hlen').
    unfold mbind, eff_bind, derive. rewrite Hlen, Hdk', Hdk. unfold mret, eff_ret. do 3 f_equal; [by apply bool_decide_ext; split; [intros ->|intros [= ->]]|].
    by rewrite Z.ltb_irrefl, andb_false_r. }
  split; [unfold Hash, hashWith, mbind, eff_bind, derive; by rewrite Hdk|].
  rewrite Hv, bool_decide_eq_true_2 by done. split; [done|]. split; [done|]. split; [by exists dk|]. intros pw'. by rewrite Hv.
Qed.

End Laws.

(** What one verification costs: a full-cost derivation for a legacy hash and
    for a text that is no hash at all, the stored cost for a native hash. *)
Definition cost_of (encoded : string) : list Z :=
  if Legacyhash.IsLegacy encoded then [DefaultIterations]
  else match parse encoded with
       | Err _ => [DefaultIterations]
       | Ok (alg, iterations, _, _) => if bool_decide (alg = algID) then [iterations] else []
       end.

(** A dummy hash made by this package. *)
Definition dummy_ok (dummy : string) : Prop := exists salt want, parse dummy = Ok (algID, DefaultIterations, salt, want).

Section Cost.
Context `{K : KdfPrims}.

Lemma burn_cost dummy pw w : dummy_ok dummy -> burnDummy dummy pw w = (Ok tt, w ++ [DefaultIterations]).
Proof.
  intros (salt & want & Hp). unfold burnDummy. rewrite Hp. rewrite attempt_bind. unfold derive. by destruct (pbkdf2_key _ _ _ _).
Qed.

Lemma Dummy_ok `{L : !KdfLaws K} random salt dummy : Dummy random salt = Some dummy -> dummy_ok dummy.
Proof.
  unfold Dummy. destruct (Hash salt (StdBase64.encode random) []) as [[h|] w] eqn:E; [|done]. intros [= <-].
  apply hashWith_ok in E as (dk & Hdk & -> & _). exists salt, dk.
  destruct (pbkdf2_total (StdBase64.encode random) salt DefaultIterations keyLen ltac:(unfold DefaultIterations; lia)) as (dk' & Hdk' & Hlen).
  rewrite Hdk in Hdk'. injection Hdk' as <-. apply parse_phc; [unfold DefaultIterations; lia|rewrite Hlen; unfold keyLen; lia].
Qed.

Lemma Verify_cost dummy pw encoded w : dummy_ok dummy -> snd (Verify dummy pw encoded w) = w ++ cost_of encoded.
Proof.
  intros Hd. unfold Verify, cost_of. destruct (Legacyhash.IsLegacy encoded).
  { unfold mbind, eff_bind. rewrite burn_cost by done. by destruct (Legacyhash.Verify pw encoded). }
  destruct (parse encoded) as [[[[alg n] salt] dk]|e].
  - destruct (bool_decide (alg = algID)); cbn [negb]; [|by rewrite app_nil_r].
    unfold mbind, eff_bind, derive. by destruct (pbkdf2_key pw salt n (String.length dk)).
  - unfold mbind, eff_bind. by rewrite burn_cost.
Qed.

(** The answer does not depend on the work done before. *)
Lemma Verify_answer dummy pw encoded w : fst (Verify dummy pw encoded w) = fst (Verify dummy pw encoded []).
Proof.
  assert (Hb : forall v, exists v', burnDummy dummy pw v = (Ok tt, v')).
  { intros v. unfold burnDummy. destruct (parse dummy) as [[[[? ?] ?] ?]|]; [|by eexists]. rewrite attempt_bind. by eexists. }
  unfold Verify. destruct (Legacyhash.IsLegacy encoded).
  { unfold mbind, eff_bind. destruct (Hb w) as [v1 ->], (Hb []) as [v2 ->]. by destruct (Legacyhash.Verify pw encoded). }
  destruct (parse encoded) as [[[[alg n] salt] dk]|e].
  - destruct (negb _); [done|]. unfold mbind, eff_bind, derive. by destruct (pbkdf2_key pw salt n (String.length dk)).
  - unfold mbind, eff_bind. destruct (Hb w) as [v1 ->], (Hb []) as [v2 ->]. done.
Qed.

(** What Verify does and what it costs.  The answer is yes exactly for the
    password behind the hash; a rehash is asked for exactly after a yes on an
    imported hash or on one cheaper than today's cost; and the work is that of
    one verification whether the hash is native, imported, absent or garbled. *)
Theorem Verify_spec dummy pw encoded w :
  dummy_ok dummy ->
  let r := Verify dummy pw encoded w in
  snd r = w ++ cost_of encoded /\
  (forall ok rehash, fst r = Ok (ok, rehash) -> rehash = ok && (Legacyhash.IsLegacy encoded ||
     match parse encoded with Ok (_, iterations, _, _) => (iterations <? DefaultIterations)%Z | Err _ => false end)) /\
  ((exists rehash, fst r = Ok (true, rehash)) <->
   (Legacyhash.IsLegacy encoded = true /\ bcrypt_compare encoded pw = BcryptMatch) \/
   (Legacyhash.IsLegacy encoded = false /\ exists iterations salt dk,
      parse encoded = Ok (algID, iterations, salt, dk) /\ pbkdf2_key pw salt iterations (String.length dk) = Some dk)).
Proof.
  intros Hd r. split; [by apply Verify_cost|]. unfold r, Verify. clear r. destruct (Legacyhash.IsLegacy encoded) eqn:Hl.
  { unfold mbind, eff_bind. rewrite burn_cost by done. unfold Legacyhash.Verify. rewrite (Hl : Legacyhash.isBcrypt encoded = true).
    cbn [negb]. destruct (bcrypt_compare encoded pw) eqn:Hb; simpl; (split; [by intros ? ? [= <- <-]|]);
      split; try (by intros [? [=]]); try (intros _; by left); [by exists true|..];
      intros [[_ ?]|[? _]]; done. }
  destruct (parse encoded) as [[[[alg n] salt] dk]|e] eqn:Hp.
  - case_bool_decide as Ha; cbn [negb].
    2: { split; [done|]. split; [by intros [? ?]|].
         intros [[? _]|[_ (? & ? & ? & [= ? _ _ _] & _)]]; done. }
    subst alg. unfold mbind, eff_bind, derive. destruct (pbkdf2_key pw salt n (String.length dk)) as [got|] eqn:Hg; simpl.
    + split; [by intros ? ? [= <- <-]|]. split.
      * intros [rehash [= H1 _]]. right. apply bool_decide_eq_true in H1 as ->. split; [done|]. by exists n, salt, dk.
      * intros [[? _]|[_ (? & ? & ? & [= <- <- <-] & Hk)]]; [done|]. rewrite Hk in Hg. injection Hg as ->.
        rewrite bool_decide_eq_true_2 by done. eauto.
    + split; [done|]. split; [by intros [? ?]|].
      intros [[? _]|[_ (? & ? & ? & [= <- <- <-] & Hk)]]; [done|]. congruence.
  - unfold mbind, eff_bind. rewrite burn_cost by done. simpl. split; [done|]. split; [by intros [? ?]|].
    intros [[? _]|[_ (? & ? & ? & ? & _)]]; done.
Qed.

End Cost.

(** ** API keys *)
Import Secret.

Lemma str_take_all s n : (String.length s <= n)%nat -> str_take n s = s.
Proof. revert n. induction s as [|a s IH]; intros [|n]; simpl; intros H; [done|done|lia|]. f_equal. apply IH. lia. Qed.

Lemma encode_length_exact s : String.length (Base64.encode s) = (4 * (String.length s / 3) + match (String.length s mod 3)%nat with O => 0 | S O => 2 | _ => 3 end)%nat.
Proof.
  induction s as [s IH] using Base64.string_len_ind. destruct s as [|a [|b [|c r]]]; [done|done|done|].
  cbn [Base64.encode String.length]. rewrite IH by (simpl; lia).
  replace (S (S (S (String.length r))))%nat with (String.length r + 1 * 3)%nat by lia.
  rewrite Nat.div_add, Nat.Div0.mod_add by lia. lia.
Qed.

Lemma str_get_app (s t : string) : String.get (String.length s) (s ++ t) = String.get 0 t.
Proof. induction s as [|a s IH]; [by destruct t|]. apply IH. Qed.

(** Every API key that is minted can be presented.  Whatever bytes the
    random source gives, the key splits into the lookup key and the secret it
    was minted with - also when the prefix holds an underscore - and the stored
    hash is that of the secret part. *)
Theorem api_key_splits sha256 r6 r32 :
  String.length r6 = 6%nat -> r32 <> ""%string ->
  let '(full, lookup, hash) := NewAPIKey sha256 r6 r32 in
  exists sec, SplitAPIKey full = Some (lookup, sec) /\ hash = sha256 sec /\ sec = Base64.encode r32 /\
    String.length lookup = (String.length live + apiKeyPrefixLen)%nat.
Proof.
  intros H6 H32. unfold NewAPIKey, SplitAPIKey.
  assert (Hp : String.length (Base64.encode r6) = 8%nat) by (rewrite encode_length_exact, H6; done).
  assert (Hs : (0 < String.length (Base64.encode r32))%nat) by (destruct r32 as [|a [|b [|c r]]]; [done|simpl; lia..]).
  rewrite str_take_all by (unfold apiKeyPrefixLen; lia).
  set (prefix := Base64.encode r6) in *. set (sec := Base64.encode r32) in *.
  exists sec. rewrite prefix_app, str_drop_app. cbn [negb].
  assert (Hl : String.length (prefix ++ "_" ++ sec) = (9 + String.length sec)%nat) by (rewrite !str_length_app, Hp; simpl; lia).
  destruct (Nat.leb_spec (String.length (prefix ++ "_" ++ sec)) (apiKeyPrefixLen + 1)); [unfold apiKeyPrefixLen in *; lia|].
  change apiKeyPrefixLen with 8%nat. rewrite <- Hp, str_get_app, bool_decide_eq_true_2 by done. cbn [negb orb].
  rewrite str_take_app. split; [|split; [done|split; [done|by rewrite str_length_app, Hp]]].
  f_equal. f_equal. change (prefix ++ "_" ++ sec)%string with (prefix ++ ("_" ++ sec))%string. rewrite str_app_assoc.
  replace (String.length prefix + 1)%nat with (String.length (prefix ++ "_")) by (rewrite str_length_app; done). apply str_drop_app.
Qed.

End SecretsProps.

(** ** A toy derivation, for the witnesses *)
Module ToyKdf.
Import Kdf SecretsProps.

Fixpoint zeros (n : nat) : string := match n with O => EmptyString | S n => String "0" (zeros n) end.

Lemma nuls_length n : String.length (zeros n) = n.
Proof. induction n; simpl; [done|by f_equal]. Qed.

#[export] Instance prims : KdfPrims := {
  pbkdf2_key pw salt i n := Some (str_take n (pw ++ zeros n));
  bcrypt_compare hash pw := if bool_decide (pw = "allmine"%string) then BcryptMatch else BcryptMismatch;
  bcrypt_cost hash := Some 10%Z
}.

#[export] Instance laws : KdfLaws prims.
Proof.
  split. intros pw salt i n _. exists (str_take n (pw ++ zeros n)). split; [done|].
  rewrite str_length_take, str_length_app, nuls_length. lia.
Qed.

Definition hash : string := phc DefaultIterations "sixteen-byte-sal" (str_take 32 ("secret" ++ zeros 32)).
Definition imported : string := "$2a$10$XajjQvNhvvRt5GSeFk1xFeyqRrsxkhBkUiQeg0dt.wU1qD4aFDcga".

Lemma hash_verifies_witness :
  exists h, fst (Hash "sixteen-byte-sal" "secret" []) = Ok h /\ fst (Verify hash "secret" h []) = Ok (true, false) /\
    fst (Verify hash "Secret" h []) = Ok (false, false).
Proof.
  destruct (hash_verifies hash "sixteen-byte-sal" "secret" []) as (h & H1 & H2 & _ & _ & H3).
  exists h. split; [exact H1|]. split; [exact H2|]. rewrite H3. vm_compute. reflexivity.
Defined.

Lemma Verify_spec_witness :
  Verify hash "allmine" imported [] = (Ok (true, true), [DefaultIterations]) /\
  snd (Verify hash "x" "no hash at all" []) = [DefaultIterations].
Proof.
  assert (Hd : dummy_ok hash) by (eexists _, _; vm_compute; reflexivity).
  split; [vm_compute; reflexivity|]. exact (proj1 (Verify_spec hash "x" "no hash at all" [] Hd)).
Defined.

Lemma api_key_splits_witness :
  exists sec, Secret.SplitAPIKey (fst (fst (Secret.NewAPIKey id (str_of [255; 255; 255; 255; 255; 255]%Z) "r"))) =
    Some ("anb_live_________"%string, sec) /\ sec = Base64.encode "r".
Proof.
  destruct (api_key_splits id (str_of [255; 255; 255; 255; 255; 255]%Z) "r") as (sec & H & _ & Hs & _); [vm_compute; reflexivity|done|].
  exists sec. split; [exact H|exact Hs].
Defined.

End ToyKdf.
