(* ===== verification/Tokens.v ===== *)
(** The access-token codecs: pkg/anubis/paseto (PASETO v4.public),
    pkg/anubis/jws (compact JWS, EdDSA only) and
    internal/platform/crypto/accesstoken (which of the two a token is).

    Ed25519 and the JSON codec are the parameters of [TokenPrims]; what the
    theorems need of them is [TokenLaws]. *)

From Stdlib Require Import ZArith Lia Bool Ascii String.
From stdpp Require Import base gmap strings list.
From S2P Require Import Prelude.
From S2P Require Import GoStrings.
From S2P Require Import Base64.

(** The protected header of a JWS (jws.go, Header). *)
Record Header := { h_Alg : string; h_Typ : string; h_Kid : string; h_Crit : list string }.

(** crypto/ed25519 and encoding/json, as the codecs call them. *)
Class TokenPrims := {
  ed_sign : string -> string -> string;            (* ed25519.Sign(sk, msg) *)
  ed_verify : string -> string -> string -> bool;  (* ed25519.Verify(pk, msg, sig) *)
  ed_public : string -> string;                    (* the public half of a private key *)
  json_header : Header -> string;                  (* json.Marshal(Header) *)
  json_parse_header : string -> option Header;     (* json.Unmarshal into a Header *)
  json_parse_kid : string -> option string         (* json.Unmarshal into {kid} *)
}.

Class TokenLaws (P : TokenPrims) : Prop := {
  ed_correct sk m : String.length sk = 64%nat -> ed_verify (ed_public sk) m (ed_sign sk m) = true;
  ed_sig_size sk m : String.length (ed_sign sk m) = 64%nat;
  ed_pub_size sk : String.length sk = 64%nat -> String.length (ed_public sk) = 32%nat;
  (** The header this codec writes survives the JSON round trip, and with a
      short key id it marshals to at most 768 bytes. *)
  json_header_round kid : valid_utf8 kid = true ->
    let h := {| h_Alg := "EdDSA"; h_Typ := "JWT"; h_Kid := kid; h_Crit := [] |} in
    json_parse_header (json_header h) = Some h;
  json_header_object h : exists r, json_header h = String "{" r;
  json_header_size kid : (String.length kid <= 64)%nat ->
    (String.length (json_header {| h_Alg := "EdDSA"; h_Typ := "JWT"; h_Kid := kid; h_Crit := [] |}) <= 768)%nat
}.

(** ** PASETO v4.public (paseto.go) *)
Module Paseto.
Section Codec.
Context `{P : TokenPrims}.

Inductive Error := ErrMalformed | ErrWrongHeader | ErrBadSig | ErrKeySize.

Definition headerV4Public : string := "v4.public.".

Fixpoint le_bytes (k : nat) (z : Z) : string :=
  match k with
  | O => EmptyString
  | S k' => String (chr (z mod 256)) (le_bytes k' (z / 256))
  end.

(** [PutUint64] of [n & 0x7FFFFFFFFFFFFFFF]. *)
Definition le64 (n : Z) : string := le_bytes 8 (Z.land n (2 ^ 63 - 1)).

Definition len (s : string) : Z := Z.of_nat (String.length s).

Fixpoint pae_pieces (pieces : list string) : string :=
  match pieces with
  | [] => EmptyString
  | p :: rest => le64 (len p) ++ p ++ pae_pieces rest
  end%string.

Definition pae (pieces : list string) : string :=
  (le64 (Z.of_nat (length pieces)) ++ pae_pieces pieces)%string.

Definition Sign (sk message footer implicit : string) : result Error string :=
  if negb (String.length sk =? 64)%nat then Err ErrKeySize
  else
    let sig := ed_sign sk (pae [headerV4Public; message; footer; implicit]) in
    Ok (headerV4Public ++ Base64.encode (message ++ sig) ++
        (if bool_decide (footer = "") then "" else "." ++ Base64.encode footer))%string.

(** (message, signature, footer) *)
Definition Parse (token : string) : result Error (string * string * string) :=
  if negb (String.prefix headerV4Public token) then Err ErrWrongHeader
  else
    let rest := str_drop (String.length headerV4Public) token in
    parts ← match cut "."%char rest with
            | Some (bodyPart, footPart) =>
                if bool_decide (footPart = ""%string) || has_byte "."%char footPart
                then Err ErrMalformed else Ok (bodyPart, footPart)
            | None => Ok (rest, ""%string)
            end;
    let '(bodyPart, footPart) := parts in
    match Base64.decode true bodyPart with
    | None => Err ErrMalformed
    | Some body =>
        if (String.length body <? 64)%nat then Err ErrMalformed
        else
          footer ← (if bool_decide (footPart = ""%string) then Ok ""%string
                    else match Base64.decode true footPart with
                         | None => Err ErrMalformed
                         | Some f => Ok f
                         end);
          let n := (String.length body - 64)%nat in
          Ok (str_take n body, str_drop n body, footer)
    end.

Definition Verify (pk token implicit : string) : result Error (string * string) :=
  if negb (String.length pk =? 32)%nat then Err ErrKeySize
  else
    parsed ← Parse token;
    let '(m, sig, f) := parsed in
    if negb (ed_verify pk (pae [headerV4Public; m; f; implicit]) sig) then Err ErrBadSig
    else Ok (m, f).

(** *** Lemmas *)

Lemma le_bytes_length k z : String.length (le_bytes k z) = k.
Proof using. revert z. induction k as [|k IH]; intros z; simpl; [done|]. by rewrite IH. Qed.

Lemma le_bytes_inj k a b :
  (0 <= a < 256 ^ Z.of_nat k)%Z -> (0 <= b < 256 ^ Z.of_nat k)%Z ->
  le_bytes k a = le_bytes k b -> a = b.
Proof using.
  revert a b. induction k as [|k IH]; intros a b Ha Hb; [simpl in *; lia|].
  rewrite Nat2Z.inj_succ, Z.pow_succ_r in Ha, Hb by lia. simpl. intros [= Hm Hd].
  apply (f_equal code) in Hm. rewrite !code_chr in Hm by (apply Z.mod_pos_bound; lia).
  apply IH in Hd; [|split; [apply Z.div_pos|apply Z.div_lt_upper_bound]; lia..].
  rewrite (Z.div_mod a 256), (Z.div_mod b 256) by lia. congruence.
Qed.

Lemma le64_length n : String.length (le64 n) = 8%nat.
Proof using. apply le_bytes_length. Qed.

Lemma le64_inj a b : (0 <= a < 2 ^ 63)%Z -> (0 <= b < 2 ^ 63)%Z -> le64 a = le64 b -> a = b.
Proof using.
  assert (forall z, (0 <= z < 2 ^ 63)%Z -> Z.land z (2 ^ 63 - 1) = z) as Hl.
  { intros z Hz. change (2 ^ 63 - 1)%Z with (Z.ones 63). rewrite Z.land_ones by lia.
    by apply Z.mod_small. }
  intros Ha Hb. unfold le64. rewrite !Hl by done. apply le_bytes_inj; simpl; lia.
Qed.

Definition sized (p : string) : Prop := (len p < 2 ^ 63)%Z.

Lemma pae_pieces_inj l1 l2 :
  length l1 = length l2 -> Forall sized l1 -> Forall sized l2 ->
  pae_pieces l1 = pae_pieces l2 -> l1 = l2.
Proof using.
  revert l2. induction l1 as [|p l1 IH]; intros [|q l2] Hlen H1 H2; try done.
  simpl. intros Heq. inversion H1; inversion H2; subst. unfold sized, len in *.
  apply app_inj_length in Heq as [Hl Heq]; [|by rewrite !le64_length].
  apply le64_inj in Hl; [|lia..].
  apply app_inj_length in Heq as [-> Heq]; [|lia].
  f_equal. apply IH; [simpl in *; lia|done..].
Qed.

Lemma pae_injective l1 l2 :
  (Z.of_nat (length l1) < 2 ^ 63)%Z -> (Z.of_nat (length l2) < 2 ^ 63)%Z ->
  Forall sized l1 -> Forall sized l2 -> pae l1 = pae l2 -> l1 = l2.
Proof using.
  unfold pae. intros Hl1 Hl2 H1 H2 Heq.
  apply app_inj_length in Heq as [Hl Heq]; [|by rewrite !le64_length].
  apply le64_inj in Hl; [|lia..]. apply pae_pieces_inj; [lia|done..].
Qed.

Lemma encode_nonempty s : s <> ""%string -> Base64.encode s <> ""%string.
Proof using. destruct s as [|a [|b [|c r]]]; done. Qed.

Lemma encode_no_dot s : has_byte "."%char (Base64.encode s) = false.
Proof using.
  apply has_byte_false. eapply str_forallb_impl; [|apply (Base64.encode_plain s)].
  intros a Ha. by apply andb_true_iff in Ha as [_ ?].
Qed.

(** The token text of a body and a footer. *)
Definition render (body footer : string) : string :=
  (headerV4Public ++ Base64.encode body ++
   (if bool_decide (footer = "") then "" else "." ++ Base64.encode footer))%string.

Lemma Parse_render m sig f :
  String.length sig = 64%nat -> Parse (render (m ++ sig) f) = Ok (m, sig, f).
Proof using.
  intros Hs. unfold Parse, render. rewrite prefix_app, str_drop_app. cbn [negb].
  assert (String.length (m ++ sig) - 64 = String.length m)%nat as Hn
    by (rewrite str_length_app; lia).
  case_bool_decide as Hf.
  - subst f. rewrite str_app_nil_r. rewrite (proj2 (cut_none _ _)) by apply encode_no_dot.
    cbn [mbind result_bind]. rewrite Base64.decode_encode.
    destruct (Nat.ltb_spec (String.length (m ++ sig)) 64); [rewrite str_length_app in *; lia|].
    rewrite bool_decide_eq_true_2 by done. cbn [mbind result_bind].
    rewrite Hn, str_take_app, str_drop_app. done.
  - assert (cut "."%char (Base64.encode (m ++ sig) ++ "." ++ Base64.encode f)%string =
      Some (Base64.encode (m ++ sig), Base64.encode f)) as ->.
    { apply cut_some. split; [done|apply encode_no_dot]. }
    rewrite bool_decide_eq_false_2 by (by apply encode_nonempty). rewrite encode_no_dot.
    cbn [orb mbind result_bind]. rewrite !Base64.decode_encode.
    destruct (Nat.ltb_spec (String.length (m ++ sig)) 64); [rewrite str_length_app in *; lia|].
    rewrite bool_decide_eq_false_2 by (by apply encode_nonempty). cbn [mbind result_bind].
    rewrite Hn, str_take_app, str_drop_app. done.
Qed.

Definition no_newline (s : string) : bool :=
  str_forallb (fun a => negb ((code a =? 10)%Z || (code a =? 13)%Z)) s.

Lemma decode_canonical s t : no_newline s = true -> Base64.decode true s = Some t -> Base64.encode t = s.
Proof using.
  intros Hn Hd. unfold Base64.decode in Hd. rewrite Base64.skip_newlines_id in Hd by done.
  by apply Base64.encode_decode_quads.
Qed.

Lemma paseto_Parse_inv token m sig f :
  no_newline token = true -> Parse token = Ok (m, sig, f) ->
  token = render (m ++ sig) f /\ String.length sig = 64%nat.
Proof using.
  intros Hn. unfold Parse. destruct (String.prefix headerV4Public token) eqn:Hp; [|done].
  cbn [negb]. apply prefix_split in Hp. set (rest := str_drop _ token) in *.
  assert (no_newline rest = true) as Hnr.
  { unfold no_newline in Hn. rewrite Hp, str_forallb_app in Hn.
    by apply andb_true_iff in Hn as [_ ?]. }
  assert (forall body, (64 <= String.length body)%nat ->
    (str_take (String.length body - 64) body ++ str_drop (String.length body - 64) body)%string = body /\
    String.length (str_drop (String.length body - 64) body) = 64%nat) as Hbody.
  { intros body Hb. rewrite str_take_drop, str_length_drop. split; [done|lia]. }
  destruct (cut "."%char rest) as [[bp fp]|] eqn:Hc.
  - apply cut_some in Hc as [Hr _].
    unfold no_newline in Hnr. rewrite Hr, str_forallb_app in Hnr.
    apply andb_true_iff in Hnr as [Hnb Hnf]. simpl in Hnf.
    case_bool_decide as Hfp; [done|]. destruct (has_byte "."%char fp); [done|].
    cbn [orb mbind result_bind].
    destruct (Base64.decode true bp) as [body|] eqn:Hb; [|done].
    destruct (Nat.ltb_spec (String.length body) 64) as [|Hlen]; [done|].
    rewrite bool_decide_eq_false_2 by done.
    destruct (Base64.decode true fp) as [f'|] eqn:Hf; [|done]. cbn [mbind result_bind].
    intros [= <- <- <-]. destruct (Hbody body Hlen) as [-> Hl]. split; [|done].
    apply decode_canonical in Hb; [|done]. apply decode_canonical in Hf; [|done].
    unfold render. rewrite bool_decide_eq_false_2 by (intros ->; by subst fp).
    rewrite Hb, Hf. rewrite Hp, Hr. done.
  - cbn [mbind result_bind].
    destruct (Base64.decode true rest) as [body|] eqn:Hb; [|done].
    destruct (Nat.ltb_spec (String.length body) 64) as [|Hlen]; [done|].
    rewrite bool_decide_eq_true_2 by done. cbn [mbind result_bind].
    intros [= <- <- <-]. destruct (Hbody body Hlen) as [-> Hl]. split; [|done].
    apply decode_canonical in Hb; [|done]. unfold render.
    rewrite bool_decide_eq_true_2, Hb, str_app_nil_r by done. done.
Qed.

End Codec.
End Paseto.

(** ** Compact JWS (jws.go) *)
Module Jws.
Section Codec.
Context `{P : TokenPrims}.

Inductive Error :=
  ErrKeySize | ErrMalformed | ErrBadSig | ErrWrongAlg | ErrWrongType | ErrCritHeader | ErrHeaderTooBig.

Definition maxHeaderBytes : nat := 1024.

Definition Sign (sk payload kid : string) : result Error string :=
  if negb (String.length sk =? 64)%nat then Err ErrKeySize
  else
    let h := json_header {| h_Alg := "EdDSA"; h_Typ := "JWT"; h_Kid := kid; h_Crit := [] |} in
    let signing := (Base64.encode h ++ "." ++ Base64.encode payload)%string in
    let sig := ed_sign sk signing in
    Ok (signing ++ "." ++ Base64.encode sig)%string.

(** (header, payload, signature) *)
Definition Parse (token : string) : result Error (Header * string * string) :=
  match cut "."%char token with
  | None => Err ErrMalformed
  | Some (headPart, rest) =>
      match cut "."%char rest with
      | None => Err ErrMalformed
      | Some (payPart, sigPart) =>
          if has_byte "."%char sigPart then Err ErrMalformed
          else if (maxHeaderBytes <? String.length headPart)%nat then Err ErrHeaderTooBig
          else match Base64.decode false headPart with
          | None => Err ErrMalformed
          | Some rawHead =>
              match json_parse_header rawHead with
              | None => Err ErrMalformed
              | Some h =>
                  if negb (bool_decide (h_Alg h = "EdDSA"%string)) then Err ErrWrongAlg
                  else if negb (bool_decide (h_Typ h = ""%string)) && negb (bool_decide (h_Typ h = "JWT"%string))
                  then Err ErrWrongType
                  else if (0 <? length (h_Crit h))%nat then Err ErrCritHeader
                  else match Base64.decode false payPart with
                  | None => Err ErrMalformed
                  | Some payload =>
                      match Base64.decode false sigPart with
                      | None => Err ErrMalformed
                      | Some sig =>
                          if negb (String.length sig =? 64)%nat then Err ErrMalformed
                          else Ok (h, payload, sig)
                      end
                  end
              end
          end
      end
  end.

(** [token[:strings.LastIndexByte(token, '.')]], the signed text. *)
Definition before_last_dot (token : string) : string :=
  match cut "."%char (String.rev token) with
  | Some (t, _) => str_take (String.length token - String.length t - 1) token
  | None => token
  end.

Definition Verify (pk token : string) : result Error (string * Header) :=
  if negb (String.length pk =? 32)%nat then Err ErrKeySize
  else
    parsed ← Parse token;
    let '(h, payload, sig) := parsed in
    if negb (ed_verify pk (before_last_dot token) sig) then Err ErrBadSig
    else Ok (payload, h).

(** *** Lemmas *)

Lemma rev_app_acc (s t : string) : String.rev_app s t = (String.rev_app s "" ++ t)%string.
Proof using.
  revert t. induction s as [|a s IH]; intros t; [done|]. simpl. rewrite IH.
  rewrite (IH (String a "")). by rewrite <- str_app_assoc.
Qed.

Lemma rev_app (s t : string) : String.rev (s ++ t) = (String.rev t ++ String.rev s)%string.
Proof using.
  unfold String.rev. induction s as [|a s IH]; [by rewrite str_app_nil_r|].
  rewrite str_app_cons. simpl. rewrite rev_app_acc, IH, (rev_app_acc s (String a "")).
  by rewrite str_app_assoc.
Qed.

Lemma rev_length (s : string) : String.length (String.rev s) = String.length s.
Proof using.
  unfold String.rev. induction s as [|a s IH]; [done|]. simpl.
  rewrite rev_app_acc, str_length_app, IH. simpl. lia.
Qed.

Lemma rev_forallb p (s : string) : str_forallb p (String.rev s) = str_forallb p s.
Proof using.
  unfold String.rev. induction s as [|a s IH]; [done|]. simpl.
  rewrite rev_app_acc, str_forallb_app, IH. simpl. rewrite andb_true_r. by rewrite andb_comm.
Qed.

Lemma before_last_dot_spec s t :
  has_byte "."%char t = false -> before_last_dot (s ++ String "." t)%string = s.
Proof using.
  intros Ht. unfold before_last_dot.
  assert (cut "."%char (String.rev (s ++ String "." t)%string) = Some (String.rev t, String.rev s)) as ->.
  { apply cut_some. split.
    - rewrite rev_app. change (String "." t) with ("." ++ t)%string. rewrite rev_app.
      by rewrite <- str_app_assoc.
    - apply has_byte_false. rewrite rev_forallb. by apply has_byte_false. }
  rewrite rev_length, str_length_app. simpl.
  replace (String.length s + S (String.length t) - String.length t - 1)%nat
    with (String.length s) by lia.
  apply str_take_app.
Qed.

Lemma encode_length s :
  (String.length (Base64.encode s) <= (String.length s * 4 + 2) / 3)%nat.
Proof using.
  induction s as [s IH] using Base64.string_len_ind.
  destruct s as [|a [|b [|c r]]]; [done|done|done|].
  change (String.length (Base64.encode (String a (String b (String c r)))))
    with (4 + String.length (Base64.encode r))%nat.
  specialize (IH r ltac:(simpl; lia)). simpl String.length.
  replace (S (S (S (String.length r))) * 4 + 2)%nat with ((String.length r * 4 + 2) + 4 * 3)%nat by lia.
  rewrite Nat.div_add by lia. lia.
Qed.

Lemma jws_Parse_inv token h payload sig :
  Parse token = Ok (h, payload, sig) ->
  h_Alg h = "EdDSA"%string /\ (h_Typ h = ""%string \/ h_Typ h = "JWT"%string) /\ h_Crit h = [] /\
  String.length sig = 64%nat /\
  exists hp pp sp, token = (hp ++ String "." (pp ++ String "." sp))%string /\
    has_byte "."%char hp = false /\ has_byte "."%char pp = false /\ has_byte "."%char sp = false /\
    (String.length hp <= maxHeaderBytes)%nat.
Proof using.
  unfold Parse. destruct (cut "."%char token) as [[hp rest]|] eqn:H1; [|done].
  destruct (cut "."%char rest) as [[pp sp]|] eqn:H2; [|done].
  destruct (has_byte "."%char sp) eqn:H3; [done|].
  destruct (Nat.ltb_spec maxHeaderBytes (String.length hp)); [done|].
  destruct (Base64.decode false hp); [|done].
  destruct (json_parse_header s) as [h'|]; [|done].
  case_bool_decide; [|done]. cbn [negb].
  destruct (negb (bool_decide (h_Typ h' = ""%string)) && _) eqn:Ht; [done|].
  destruct (h_Crit h') eqn:Hc; [|done]. simpl Nat.ltb.
  destruct (Base64.decode false pp); [|done]. destruct (Base64.decode false sp); [|done].
  destruct (Nat.eqb_spec (String.length s1) 64); [|done]. cbn [negb]. intros [= <- <- <-].
  apply cut_some in H1 as [-> ?]. apply cut_some in H2 as [-> ?].
  split; [done|]. split.
  - apply andb_false_iff in Ht. rewrite !negb_false_iff, !bool_decide_eq_true in Ht. done.
  - split; [done|]. split; [done|]. eauto 10.
Qed.

End Codec.
End Jws.

(** ** Either format (accesstoken.go) *)
Module AccessToken.
Section Codec.
Context `{P : TokenPrims}.

Inductive Error :=
| EMalformed
| EPaseto (e : Paseto.Error)
| EJws (e : Jws.Error)
| EFooter.   (* json.Unmarshal of the footer failed *)

Definition PasetoPrefix : string := "v4.public.".

Definition IsAccessToken (token : string) : bool :=
  if String.prefix PasetoPrefix token then true
  else match Jws.Parse token with Ok _ => true | Err _ => false end.

Definition Kid (token : string) : result Error string :=
  if String.prefix PasetoPrefix token then
    match Paseto.Parse token with
    | Err e => Err (EPaseto e)
    | Ok (_, _, footer) =>
        if bool_decide (footer = ""%string) then Ok ""%string
        else match json_parse_kid footer with
             | None => Err EFooter
             | Some kid => Ok kid
             end
    end
  else match Jws.Parse token with
       | Err _ => Err EMalformed
       | Ok (h, _, _) => Ok (h_Kid h)
       end.

Definition ClaimsUnverified (token : string) : result Error string :=
  if String.prefix PasetoPrefix token then
    match Paseto.Parse token with
    | Err e => Err (EPaseto e)
    | Ok (msg, _, _) => Ok msg
    end
  else match Jws.Parse token with
       | Err _ => Err EMalformed
       | Ok (_, payload, _) => Ok payload
       end.

Definition Verify (pk token : string) : result Error string :=
  if String.prefix PasetoPrefix token then
    match Paseto.Verify pk token "" with
    | Err e => Err (EPaseto e)
    | Ok (msg, _) => Ok msg
    end
  else match Jws.Verify pk token with
       | Err e => Err (EJws e)
       | Ok (payload, _) => Ok payload
       end.

End Codec.
End AccessToken.
