(* ===== verification/TokenProps.v ===== *)
(** What the token codecs guarantee: injective pre-authentication encoding,
    canonical base64, sign/verify round trips, authenticity of what Verify
    returns, and the pinned JWS header. *)

From Stdlib Require Import ZArith Lia Bool Ascii String.
From stdpp Require Import base gmap strings list.
From S2P Require Import Prelude.
From S2P Require Import GoStrings.
From S2P Require Import Base64.
From S2P Require Import Tokens.

(** Concrete primitives for the witnesses: a "signature" that is the first 64
    bytes of the padded message, and a header that marshals to its key id. *)
Module Toy.

Fixpoint pad (n : nat) (s : string) : string :=
  match n with
  | O => EmptyString
  | S n' => match s with
            | EmptyString => String "x" (pad n' EmptyString)
            | String a s' => String a (pad n' s')
            end
  end.

#[export] Instance prims : TokenPrims := {|
  ed_sign sk m := pad 64 m;
  ed_verify pk m sig := bool_decide (sig = pad 64 m);
  ed_public sk := str_take 32 sk;
  json_header h := String "{" (h_Kid h);
  json_parse_header s :=
    match s with
    | String "{" kid => Some {| h_Alg := "EdDSA"; h_Typ := "JWT"; h_Kid := kid; h_Crit := [] |}
    | _ => None
    end;
  json_parse_kid s := Some s
|}.

Lemma pad_length n s : String.length (pad n s) = n.
Proof. revert s. induction n as [|n IH]; intros [|a s]; simpl; try done; by rewrite IH. Qed.

#[export] Instance laws : TokenLaws prims.
Proof.
  split.
  - intros sk m _. simpl. by apply bool_decide_eq_true_2.
  - intros sk m. apply pad_length.
  - intros sk H. change (ed_public sk) with (str_take 32 sk). by rewrite str_length_take, H.
  - done.
  - intros h. by eexists.
  - intros kid H. simpl. lia.
Qed.

Definition sk : string := pad 64 "secret".
End Toy.

Module CodecProps.
Import Paseto.

(** Pre-authentication encoding is injective: no byte of one piece can be
    read as part of another, as long as counts and lengths fit 63 bits. *)
Theorem pae_inj l1 l2 :
  (Z.of_nat (length l1) < 2 ^ 63)%Z -> (Z.of_nat (length l2) < 2 ^ 63)%Z ->
  Forall sized l1 -> Forall sized l2 -> pae l1 = pae l2 -> l1 = l2.
Proof. apply pae_injective. Qed.

Lemma pae_inj_witness : pae ["ab"; "c"]%string <> pae ["a"; "bc"]%string.
Proof.
  assert (forall p q, sized p /\ sized q -> Forall sized [p; q]) as Hf.
  { intros p q [Hp Hq]. constructor; [exact Hp|]. constructor; [exact Hq|constructor]. }
  intros H.
  apply (pae_inj ["ab"; "c"]%string ["a"; "bc"]%string) in H; [discriminate H| | | |].
  - reflexivity.
  - reflexivity.
  - apply Hf. split; reflexivity.
  - apply Hf. split; reflexivity.
Defined.

(** The base64 codec round-trips, and under Strict the decoder accepts
    nothing but the canonical encoding of what it returns (CR and LF aside,
    which Go's decoder skips). *)
Theorem base64_canonical s t :
  Base64.decode true (Base64.encode t) = Some t /\
  Base64.decode false (Base64.encode t) = Some t /\
  (Base64.decode true s = Some t -> Base64.skip_newlines s = Base64.encode t).
Proof.
  split; [apply Base64.decode_encode|]. split; [apply Base64.decode_encode|].
  intros H. symmetry. by apply Base64.encode_decode_quads.
Qed.

Lemma base64_canonical_witness :
  Base64.decode true "YWI" = Some "ab"%string /\ Base64.decode true "YWJ" = None /\
  Base64.skip_newlines "YWI" = Base64.encode "ab".
Proof.
  split; [vm_compute; reflexivity|]. split; [vm_compute; reflexivity|].
  apply (base64_canonical "YWI" "ab"). vm_compute. reflexivity.
Defined.

Section Laws.
Context `{P : TokenPrims} `{L : !TokenLaws P}.

Lemma paseto_round sk m f i t :
  Sign sk m f i = Ok t -> Verify (ed_public sk) t i = Ok (m, f).
Proof using L.
  unfold Sign. destruct (Nat.eqb_spec (String.length sk) 64) as [Hsk|]; [|done].
  cbn [negb]. intros [= <-]. unfold Verify. rewrite (ed_pub_size sk Hsk). cbn [Nat.eqb negb].
  match goal with |- context [Parse ?t] => change t with
    (render (m ++ ed_sign sk (pae [headerV4Public; m; f; i])) f) end.
  rewrite Parse_render by apply ed_sig_size. cbn [mbind result_bind].
  by rewrite (ed_correct sk _ Hsk).
Qed.

(** What Sign signs Verify returns, for every message, footer and
    implicit assertion. *)
Theorem paseto_sign_verify sk m f i t :
  Sign sk m f i = Ok t -> Verify (ed_public sk) t i = Ok (m, f).
Proof using L. apply paseto_round. Qed.

(** Verify returns only what was signed.  If every byte string that
    verifies under the key is the pre-authentication encoding of a (message,
    footer, implicit) triple the holder signed, then the message and footer
    Verify returns, with the implicit assertion asked for, are such a triple. *)
Theorem paseto_authentic (signed : string -> string -> string -> Prop) pk t i m f :
  (forall x s, ed_verify pk x s = true ->
     exists m' f' i', signed m' f' i' /\ sized m' /\ sized f' /\ sized i' /\
       x = pae [headerV4Public; m'; f'; i']) ->
  sized m -> sized f -> sized i ->
  Verify pk t i = Ok (m, f) -> signed m f i.
Proof using.
  intros Hunf Hm Hf Hi. unfold Verify.
  destruct (String.length pk =? 32)%nat; [|done]. cbn [negb].
  destruct (Parse t) as [[[m0 sig] f0]|]; [|done]. cbn [mbind result_bind].
  destruct (ed_verify pk _ sig) eqn:Hv; [|done]. cbn [negb]. intros [= -> ->].
  apply Hunf in Hv as (m' & f' & i' & Hs & ? & ? & ? & Heq).
  apply pae_injective in Heq; [|done|done|repeat constructor; done|repeat constructor; done].
  injection Heq as -> -> ->. done.
Qed.

(** A token text without CR or LF is determined by what it parses to: the
    same message, signature and footer have one spelling. *)
Theorem paseto_one_spelling t1 t2 m sig f :
  no_newline t1 = true -> no_newline t2 = true ->
  Parse t1 = Ok (m, sig, f) -> Parse t2 = Ok (m, sig, f) -> t1 = t2.
Proof using.
  intros H1 H2 P1 P2. apply paseto_Parse_inv in P1 as [-> _]; [|done].
  by apply paseto_Parse_inv in P2 as [-> _].
Qed.

(** Jws.Parse yields a payload only from three dot-separated parts whose
    header says EdDSA, is typed JWT or not at all, names no critical extension
    and is at most 1024 characters, with a 64-byte signature. *)
Theorem jws_pinned token h payload sig :
  Jws.Parse token = Ok (h, payload, sig) ->
  h_Alg h = "EdDSA"%string /\ (h_Typ h = ""%string \/ h_Typ h = "JWT"%string) /\ h_Crit h = [] /\
  String.length sig = 64%nat /\
  exists hp pp sp, token = (hp ++ String "." (pp ++ String "." sp))%string /\
    has_byte "."%char hp = false /\ has_byte "."%char pp = false /\ has_byte "."%char sp = false /\
    (String.length hp <= Jws.maxHeaderBytes)%nat.
Proof using. apply Jws.jws_Parse_inv. Qed.

Lemma jws_sign_parts sk payload kid t :
  valid_utf8 kid = true -> (String.length kid <= 64)%nat ->
  Jws.Sign sk payload kid = Ok t ->
  Jws.Verify (ed_public sk) t =
    Ok (payload, {| h_Alg := "EdDSA"; h_Typ := "JWT"; h_Kid := kid; h_Crit := [] |}).
Proof using L.
  intros Hu Hk. unfold Jws.Sign. destruct (Nat.eqb_spec (String.length sk) 64) as [Hsk|]; [|done].
  cbn [negb]. set (h := {| h_Alg := "EdDSA"; h_Typ := "JWT"; h_Kid := kid; h_Crit := [] |}).
  set (hp := Base64.encode (json_header h)). set (pp := Base64.encode payload).
  set (sp := Base64.encode (ed_sign sk (hp ++ "." ++ pp)%string)). intros [= <-].
  unfold Jws.Verify. rewrite (ed_pub_size sk Hsk). cbn [Nat.eqb negb].
  assert (((hp ++ "." ++ pp) ++ "." ++ sp)%string = (hp ++ String "." (pp ++ String "." sp))%string) as Ht
    by (by rewrite <- !str_app_assoc).
  assert (Jws.Parse (hp ++ String "." (pp ++ String "." sp))%string =
    Ok (h, payload, ed_sign sk (hp ++ "." ++ pp)%string)) as Hp.
  { unfold Jws.Parse.
    rewrite (proj2 (cut_some "."%char _ hp _) (conj eq_refl (encode_no_dot _))).
    rewrite (proj2 (cut_some "."%char _ pp _) (conj eq_refl (encode_no_dot _))).
    assert (has_byte "."%char sp = false) as -> by apply encode_no_dot.
    destruct (Nat.ltb_spec Jws.maxHeaderBytes (String.length hp)) as [Hl|].
    { exfalso. pose proof (Jws.encode_length (json_header h)) as He. fold hp in He.
      pose proof (json_header_size kid Hk) as Hs. fold h in Hs. unfold Jws.maxHeaderBytes in Hl.
      assert ((String.length (json_header h) * 4 + 2) / 3 < 1025)%nat; [|lia].
      apply Nat.Div0.div_lt_upper_bound. lia. }
    unfold hp at 1. rewrite Base64.decode_encode. rewrite (json_header_round kid Hu).
    fold h. simpl bool_decide. cbn [negb h_Alg h_Typ h_Crit h andb length Nat.ltb].
    unfold pp at 1. rewrite Base64.decode_encode. unfold sp. rewrite Base64.decode_encode.
    by rewrite ed_sig_size. }
  rewrite <- Ht in Hp. rewrite Hp. cbn [mbind result_bind].
  change ("." ++ sp)%string with (String "." sp).
  rewrite (Jws.before_last_dot_spec (hp ++ "." ++ pp)%string sp) by apply encode_no_dot.
  by rewrite (ed_correct sk _ Hsk).
Qed.

(** A token of either codec is recognised and recovered by accesstoken. *)
Lemma either_paseto sk m f tp :
  Paseto.Sign sk m f "" = Ok tp ->
  AccessToken.Verify (ed_public sk) tp = Ok m /\
  AccessToken.Kid tp = if bool_decide (f = ""%string) then Ok ""%string
                       else match json_parse_kid f with None => Err AccessToken.EFooter | Some kid => Ok kid end.
Proof using L.
  intros Hp.
  assert (String.prefix AccessToken.PasetoPrefix tp = true) as Hpp.
  { unfold Paseto.Sign in Hp. destruct (String.length sk =? 64)%nat; [|done]. cbn [negb] in Hp.
    injection Hp as <-. apply prefix_app. }
  pose proof (paseto_round _ _ _ _ _ Hp) as Hv.
  unfold AccessToken.Verify, AccessToken.Kid. rewrite Hpp, Hv. split; [done|].
  unfold Paseto.Verify in Hv. destruct (String.length (ed_public sk) =? 32)%nat; [|done]. cbn [negb] in Hv.
  destruct (Paseto.Parse tp) as [[[m' sg] f']|]; [|done]. cbn [mbind result_bind] in Hv.
  destruct (ed_verify _ _ _); [|done]. cbn [negb] in Hv. by injection Hv as -> ->.
Qed.

Lemma either_jws sk m kid tj :
  valid_utf8 kid = true -> (String.length kid <= 64)%nat -> Jws.Sign sk m kid = Ok tj ->
  AccessToken.Verify (ed_public sk) tj = Ok m /\ AccessToken.Kid tj = Ok kid.
Proof using L.
  intros Hu Hk Hj.
  assert (String.prefix AccessToken.PasetoPrefix tj = false) as Hnp.
  { unfold Jws.Sign in Hj. destruct (String.length sk =? 64)%nat; [|done]. cbn [negb] in Hj.
    injection Hj as <-.
    destruct (json_header_object {| h_Alg := "EdDSA"; h_Typ := "JWT"; h_Kid := kid; h_Crit := [] |}) as [r ->].
    destruct r as [|b [|c r]]; reflexivity. }
  pose proof (jws_sign_parts sk m kid tj Hu Hk Hj) as Hjv.
  unfold AccessToken.Verify, AccessToken.Kid. rewrite Hnp, Hjv. split; [done|].
  unfold Jws.Verify in Hjv. destruct (String.length (ed_public sk) =? 32)%nat; [|done].
  cbn [negb] in Hjv. destruct (Jws.Parse tj) as [[[h p] sg]|]; [|done]. cbn [mbind result_bind] in Hjv.
  destruct (ed_verify _ _ sg); [|done]. cbn [negb] in Hjv. injection Hjv as _ ->. done.
Qed.

(** Accesstoken.Verify recovers what either codec signed, and Kid reads
    the key id a JWS was signed with: the format marker, never the header's
    algorithm, picks the codec. *)
Theorem accesstoken_either sk m f kid tp tj :
  valid_utf8 kid = true -> (String.length kid <= 64)%nat ->
  Paseto.Sign sk m f "" = Ok tp -> Jws.Sign sk m kid = Ok tj ->
  AccessToken.Verify (ed_public sk) tp = Ok m /\
  AccessToken.Verify (ed_public sk) tj = Ok m /\
  AccessToken.Kid tj = Ok kid.
Proof using L.
  intros Hu Hk Hp Hj. split; [by eapply either_paseto|by apply either_jws].
Qed.
End Laws.

(** *** Concrete runs *)
Import Toy.
Lemma paseto_sign_verify_witness :
  exists t, Sign Toy.sk "msg" "foot" "imp" = Ok t /\
    Verify (ed_public Toy.sk) t "imp" = Ok ("msg", "foot")%string.
Proof.
  eexists. split; [vm_compute; reflexivity|].
  apply (paseto_sign_verify Toy.sk "msg" "foot" "imp"). vm_compute. reflexivity.
Defined.

(** A key under which only the triple ("m", "f", "") was ever signed. *)
Definition one_key : TokenPrims := {|
  ed_sign sk m := Toy.pad 64 m;
  ed_verify pk m sig := bool_decide (m = pae [headerV4Public; "m"; "f"; ""]%string) &&
                        bool_decide (sig = Toy.pad 64 "s");
  ed_public sk := str_take 32 sk;
  json_header h := ""%string;
  json_parse_header s := None;
  json_parse_kid s := None
|}.

Lemma paseto_authentic_witness :
  let signed m f i := (m = "m" /\ f = "f" /\ i = "")%string in
  exists t, @Verify one_key (Toy.pad 32 "pk") t "" = Ok ("m", "f")%string /\ signed "m" "f" "".
Proof.
  intros signed. exists (render ("m" ++ Toy.pad 64 "s") "f"). split; [vm_compute; reflexivity|].
  apply (@paseto_authentic one_key signed (Toy.pad 32 "pk") (render ("m" ++ Toy.pad 64 "s") "f") "" "m" "f").
  - intros x s H. exists "m"%string, "f"%string, ""%string.
    cbn [ed_verify one_key] in H. apply andb_true_iff in H as [H _]. apply bool_decide_eq_true in H.
    split; [done|]. split; [reflexivity|]. split; [reflexivity|]. split; [reflexivity|exact H].
  - reflexivity.
  - reflexivity.
  - reflexivity.
  - vm_compute. reflexivity.
Defined.

Lemma paseto_one_spelling_witness :
  let t := render ("m" ++ Toy.pad 64 "s") "f" in
  Parse t = Ok ("m", Toy.pad 64 "s", "f")%string /\ t = t.
Proof.
  intros t. split; [vm_compute; reflexivity|].
  apply (paseto_one_spelling t t "m" (Toy.pad 64 "s") "f"); vm_compute; reflexivity.
Defined.

Definition toy_jws : string :=
  match Jws.Sign Toy.sk "payload" "k1" with Ok t => t | Err _ => "" end.
Definition toy_header : Header := {| h_Alg := "EdDSA"; h_Typ := "JWT"; h_Kid := "k1"; h_Crit := [] |}.
Definition toy_sig : string :=
  match Jws.Parse toy_jws with Ok (_, _, s) => s | Err _ => "" end.

Lemma jws_pinned_witness :
  Jws.Parse toy_jws = Ok (toy_header, "payload"%string, toy_sig) /\ String.length toy_sig = 64%nat.
Proof.
  assert (Jws.Parse toy_jws = Ok (toy_header, "payload"%string, toy_sig)) as H
    by (vm_compute; reflexivity).
  split; [exact H|]. destruct (jws_pinned toy_jws toy_header "payload" toy_sig H) as (_ & _ & _ & Hl & _).
  exact Hl.
Defined.

Lemma accesstoken_either_witness :
  exists tp tj, Paseto.Sign Toy.sk "m" "f" "" = Ok tp /\ Jws.Sign Toy.sk "m" "k1" = Ok tj /\
    AccessToken.Verify (ed_public Toy.sk) tp = Ok "m"%string /\
    AccessToken.Verify (ed_public Toy.sk) tj = Ok "m"%string /\
    AccessToken.Kid tj = Ok "k1"%string.
Proof.
  eexists _, _. split; [vm_compute; reflexivity|]. split; [vm_compute; reflexivity|].
  apply (accesstoken_either Toy.sk "m" "f" "k1"); [reflexivity|simpl; lia|vm_compute; reflexivity..].
Defined.

End CodecProps.
