(* ===== verification/Keyring.v ===== *)
(** internal/platform/crypto/keyring: the ring of signing and sealing keys
    (key.go, ring.go, manager.go, generate.go) and the sealing of key material
    at rest (seal.go).  Randomness, HKDF and AES-GCM are parameters; a pointer
    to an immutable key is the key, an atomic pointer swap a new value. *)

From Stdlib Require Import ZArith Lia Bool Ascii String.
From stdpp Require Import base gmap strings list.
From S2P Require Import Prelude.
From S2P Require Import GoStrings.
From S2P Require Import Base64.

(** crypto/hkdf and crypto/cipher's GCM, as the callers use them; [aead_key] is
    HKDF-SHA256 to 32 bytes of AES-256 key for the given info string. *)
Class AeadPrims := {
  aead_key : string -> string -> option string;   (* secret, info *)
  aead_seal : string -> string -> string -> string -> string;   (* key nonce plain aad *)
  aead_open : string -> string -> string -> string -> option string (* key nonce sealed aad *)
}.

Class AeadLaws (A : AeadPrims) : Prop := {
  aead_key_total s i : is_Some (aead_key s i);
  aead_round k n p a : aead_open k n (aead_seal k n p a) a = Some p;
  aead_tag k n p a : String.length (aead_seal k n p a) = (String.length p + 16)%nat
}.

Module Keys.

(** [Private] is nil on replicas that only verify; only the length of [Secret]
    is looked at, so nil and empty are the same. *)
Record Key := {
  Kid : string;
  Purpose : string;
  Alg : string;
  Status : string;
  Public : string;
  Private : option string;
  Secret : string;
  NotBefore : Time;
  NotAfter : Time
}.

#[export] Instance Key_eq_dec : EqDecision Key.
Proof. solve_decision. Defined.

Definition PurposeAccess : string := "access".
Definition PurposeLocal : string := "local".
Definition StatusPending : string := "pending".
Definition StatusActive : string := "active".
Definition StatusRetiring : string := "retiring".
Definition StatusRetired : string := "retired".
Definition maxKeys : nat := 64.

Inductive Error :=
| ErrNoActiveKey
| ErrUnknownKid
| ErrTooManyKeys
| ErrKeyOutOfWindow (kid : string) (nb na : Time)
| ErrDuplicateKid (kid : string)
| ErrTwoActiveAccess (a b : string)
| ErrTwoActiveLocal (a b : string)
| ErrSealedTooShort
| ErrUnsealFailed
| ErrKeyDerivation
| ErrSealingKeyGone (kid : string).

Definition InWindow (k : Key) (now : Time) : bool :=
  if negb (time_is_zero (NotBefore k)) && time_before now (NotBefore k) then false
  else if negb (time_is_zero (NotAfter k)) && negb (time_before now (NotAfter k)) then false
  else true.

Record Ring := {
  byKid : gmap string Key;
  activeAccess : option Key;
  activeLocal : option Key
}.

Definition empty_ring : Ring := {| byKid := ∅; activeAccess := None; activeLocal := None |}.

(** The switch on an active key's purpose. *)
Definition set_active (r : Ring) (k : Key) : result Error Ring :=
  if bool_decide (Purpose k = PurposeAccess) then
    match activeAccess r with
    | Some a => Err (ErrTwoActiveAccess (Kid a) (Kid k))
    | None => Ok {| byKid := byKid r; activeAccess := Some k; activeLocal := activeLocal r |}
    end
  else if bool_decide (Purpose k = PurposeLocal) then
    match activeLocal r with
    | Some a => Err (ErrTwoActiveLocal (Kid a) (Kid k))
    | None => Ok {| byKid := byKid r; activeAccess := activeAccess r; activeLocal := Some k |}
    end
  else Ok r.

(** One iteration of NewRing's loop. *)
Definition add_key (r : Ring) (k : Key) : result Error Ring :=
  if bool_decide (Status k = StatusRetired) then Ok r
  else if bool_decide (is_Some (byKid r !! Kid k)) then Err (ErrDuplicateKid (Kid k))
  else
    let r := {| byKid := <[Kid k := k]> (byKid r); activeAccess := activeAccess r;
                activeLocal := activeLocal r |} in
    if bool_decide (Status k = StatusActive) then set_active r k else Ok r.

Fixpoint add_keys (r : Ring) (keys : list Key) : result Error Ring :=
  match keys with
  | [] => Ok r
  | k :: rest => r ← add_key r k; add_keys r rest
  end.

Definition NewRing (keys : list Key) : result Error Ring :=
  if (maxKeys <? length keys)%nat then Err ErrTooManyKeys else add_keys empty_ring keys.

Definition Lookup (r : Ring) (kid : string) : result Error Key :=
  match byKid r !! kid with None => Err ErrUnknownKid | Some k => Ok k end.

Definition ActiveAccessPresent (r : Ring) : result Error Key :=
  match activeAccess r with
  | Some k => if bool_decide (Private k = None) then Err ErrNoActiveKey else Ok k
  | None => Err ErrNoActiveKey
  end.

Definition ActiveAccessAt (r : Ring) (now : Time) : result Error Key :=
  k ← ActiveAccessPresent r;
  if negb (InWindow k now) then Err (ErrKeyOutOfWindow (Kid k) (NotBefore k) (NotAfter k))
  else Ok k.

Definition ActiveLocal (r : Ring) : result Error Key :=
  match activeLocal r with
  | Some k => if bool_decide (Secret k = ""%string) then Err ErrNoActiveKey else Ok k
  | None => Err ErrNoActiveKey
  end.

(** The map's values, in an unspecified order. *)
Definition All (r : Ring) : list Key := map snd (map_to_list (byKid r)).

(** ** generate.go: [entropy] is what crypto/rand returns *)

Definition randomKid (prefix entropy : string) : string :=
  (prefix ++ "_" ++ Base64.encode (str_take 9 entropy))%string.

Definition GenerateAccessKey (pub priv entropy : string) (now : Time) (lifetime : Duration) : Key :=
  {| Kid := randomKid "ak" entropy; Purpose := PurposeAccess; Alg := "Ed25519";
     Status := StatusPending; Public := pub; Private := Some priv; Secret := "";
     NotBefore := now; NotAfter := (now + lifetime)%Z |}.

Definition GenerateLocalKey (secret entropy : string) (now : Time) (lifetime : Duration) : Key :=
  {| Kid := randomKid "lk" entropy; Purpose := PurposeLocal; Alg := "Ed25519";
     Status := StatusPending; Public := ""; Private := None; Secret := secret;
     NotBefore := now; NotAfter := (now + lifetime)%Z |}.

(** ** seal.go *)
Section Seal.
Context `{A : AeadPrims}.

Definition sealAEAD (master : string) : option string := aead_key master "anubis/keyseal/v1".

(** [nonce] is what crypto/rand fills the 12-byte buffer with. *)
Definition SealSecret (nonce master kid material : string) : result Error string :=
  match sealAEAD master with
  | None => Err ErrKeyDerivation
  | Some key => Ok (nonce ++ aead_seal key nonce material kid)%string
  end.

Definition OpenSecret (master kid sealed : string) : result Error string :=
  if (String.length sealed <=? 12)%nat then Err ErrSealedTooShort
  else match sealAEAD master with
       | None => Err ErrKeyDerivation
       | Some key =>
           match aead_open key (str_take 12 sealed) (str_drop 12 sealed) kid with
           | None => Err ErrUnsealFailed
           | Some material => Ok material
           end
       end.

(** (material, used kid) *)
Definition OpenNamedSecret (r : Ring) (kid aad sealed : string) : result Error (string * string) :=
  if bool_decide (kid = ""%string) then
    k ← ActiveLocal r;
    m ← OpenSecret (Secret k) aad sealed;
    Ok (m, Kid k)
  else
    match Lookup r kid with
    | Err _ => Err (ErrSealingKeyGone kid)
    | Ok k => m ← OpenSecret (Secret k) aad sealed; Ok (m, kid)
    end.

Lemma Seal_Open `{L : !AeadLaws A} nonce master kid material sealed :
  String.length nonce = 12%nat ->
  SealSecret nonce master kid material = Ok sealed -> OpenSecret master kid sealed = Ok material.
Proof.
  unfold SealSecret, OpenSecret. intros Hn. destruct (sealAEAD master) as [key|] eqn:E; [|done].
  intros [= <-]. rewrite str_length_app, aead_tag, Hn.
  destruct (Nat.leb_spec (12 + (String.length material + 16)) 12); [lia|].
  rewrite <- Hn, str_take_app, str_drop_app. by rewrite aead_round.
Qed.
End Seal.
(** ** What the ring holds *)

Definition live (k : Key) : bool := negb (bool_decide (Status k = StatusRetired)).
Definition active_for (purpose : string) (k : Key) : bool :=
  bool_decide (Status k = StatusActive) && bool_decide (Purpose k = purpose).

(** The ring built from [ks]: it finds exactly the keys that are not retired,
    their ids are distinct, and each purpose's active key is the only one. *)
Definition ring_of (ks : list Key) (r : Ring) : Prop :=
  (forall kid k, byKid r !! kid = Some k <-> k ∈ List.filter live ks /\ Kid k = kid) /\
  NoDup (map Kid (List.filter live ks)) /\
  List.filter (active_for PurposeAccess) ks = option_list (activeAccess r) /\
  List.filter (active_for PurposeLocal) ks = option_list (activeLocal r).

(** What a key set must satisfy to be loaded. *)
Definition ring_ok (ks : list Key) : Prop :=
  NoDup (map Kid (List.filter live ks)) /\
  (length (List.filter (active_for PurposeAccess) ks) <= 1)%nat /\
  (length (List.filter (active_for PurposeLocal) ks) <= 1)%nat.

Lemma live_eq k : live k = negb (bool_decide (Status k = StatusRetired)).
Proof. done. Qed.
Lemma active_eq purpose k :
  active_for purpose k = bool_decide (Status k = StatusActive) && bool_decide (Purpose k = purpose).
Proof. done. Qed.

Lemma active_live purpose k : active_for purpose k = true -> live k = true.
Proof. unfold active_for, live. intros H. unbool. by rewrite H. Qed.

Lemma ring_of_dup ks r k : ring_of ks r ->
  is_Some (byKid r !! Kid k) <-> Kid k ∈ map Kid (List.filter live ks).
Proof.
  intros (Hm & _). rewrite list_elem_of_fmap. split.
  - intros [k' Hk']. apply Hm in Hk' as [? ?]. eauto.
  - intros (k' & Heq & Hk'). exists k'. apply Hm. by split.
Qed.

Lemma set_active_spec r k :
  (length (option_list (activeAccess r) ++ (if bool_decide (Purpose k = PurposeAccess) then [k] else [])) <= 1)%nat ->
  (length (option_list (activeLocal r) ++ (if bool_decide (Purpose k = PurposeLocal) then [k] else [])) <= 1)%nat ->
  exists r', set_active r k = Ok r'.
Proof.
  intros Ha Hl. unfold set_active. destruct (bool_decide (Purpose k = PurposeAccess)).
  - destruct (activeAccess r); simpl in *; [lia|]. by eexists.
  - destruct (bool_decide (Purpose k = PurposeLocal)); [|by eexists].
    destruct (activeLocal r); simpl in *; [lia|]. by eexists.
Qed.

Lemma set_active_inv r k r' : set_active r k = Ok r' ->
  byKid r' = byKid r /\
  option_list (activeAccess r') =
    option_list (activeAccess r) ++ (if bool_decide (Purpose k = PurposeAccess) then [k] else []) /\
  option_list (activeLocal r') =
    option_list (activeLocal r) ++ (if bool_decide (Purpose k = PurposeLocal) then [k] else []).
Proof.
  unfold set_active. destruct (bool_decide_reflect (Purpose k = PurposeAccess)) as [Ha|Ha].
  - destruct (bool_decide_reflect (Purpose k = PurposeLocal)) as [Hl|Hl]; [by rewrite Ha in Hl|].
    destruct (activeAccess r); [done|]. intros [= <-]. simpl. by rewrite app_nil_r.
  - destruct (bool_decide_reflect (Purpose k = PurposeLocal)).
    + destruct (activeLocal r); [done|]. intros [= <-]. simpl. by rewrite app_nil_r.
    + intros [= <-]. by rewrite !app_nil_r.
Qed.

Lemma add_key_inv ks r k r' : ring_of ks r -> add_key r k = Ok r' -> ring_of (ks ++ [k]) r'.
Proof.
  intros Hr. pose proof (ring_of_dup ks r k Hr) as Hd. destruct Hr as (Hm & Hnd & Ha & Hl).
  unfold add_key. unfold ring_of. rewrite !List.filter_app. simpl.
  rewrite !live_eq, !active_eq.
  destruct (bool_decide_reflect (Status k = StatusRetired)) as [Hs|Hs]; simpl.
  { intros [= <-]. rewrite Hs. simpl. by rewrite !app_nil_r. }
  destruct (bool_decide_reflect (is_Some (byKid r !! Kid k))) as [|Hnew]; [done|].
  rewrite Hd in Hnew.
  assert (forall kid k0, <[Kid k:=k]> (byKid r) !! kid = Some k0 <->
    k0 ∈ List.filter live ks ++ [k] /\ Kid k0 = kid) as Hm'.
  { intros kid k0. rewrite lookup_insert_Some, Hm, elem_of_app, list_elem_of_singleton.
    split; [intros [[<- <-]|[? [? <-]]]; auto|].
    intros [[Hk0| ->] <-]; [right|by left]. split_and!; try done.
    intros Heq. apply Hnew. rewrite Heq. by apply list_elem_of_fmap_2. }
  assert (NoDup (map Kid (List.filter live ks ++ [k]))) as Hnd'.
  { rewrite map_app. by apply NoDup_snoc. }
  destruct (bool_decide_reflect (Status k = StatusActive)); simpl.
  - intros Hact. apply set_active_inv in Hact as (-> & Ha' & Hl'). simpl in Ha', Hl'.
    rewrite Ha', Hl', Ha, Hl. repeat case_bool_decide; done.
  - intros [= <-]. simpl. by rewrite !app_nil_r.
Qed.

Lemma add_key_total ks r k : ring_of ks r -> ring_ok (ks ++ [k]) -> exists r', add_key r k = Ok r'.
Proof.
  intros Hr. pose proof (ring_of_dup ks r k Hr) as Hd. destruct Hr as (Hm & Hnd & Ha & Hl).
  unfold ring_ok, add_key. rewrite !List.filter_app, Ha, Hl. simpl.
  rewrite !live_eq, !active_eq.
  destruct (bool_decide_reflect (Status k = StatusRetired)) as [Hs|Hs]; simpl; [by eexists|].
  rewrite map_app. intros (Hn & Hc1 & Hc2). apply NoDup_snoc in Hn as [_ Hn].
  destruct (bool_decide_reflect (is_Some (byKid r !! Kid k))); [by rewrite Hd in *|].
  destruct (bool_decide_reflect (Status k = StatusActive)); simpl in *; [|by eexists].
  apply set_active_spec; simpl; repeat case_bool_decide; done.
Qed.

Lemma ring_ok_prefix ks ks' : ring_ok (ks ++ ks') -> ring_ok ks.
Proof.
  unfold ring_ok. rewrite !List.filter_app, map_app, NoDup_app, !length_app. intuition lia.
Qed.

Lemma add_keys_inv ks ks' r r' : ring_of ks r -> add_keys r ks' = Ok r' -> ring_of (ks ++ ks') r'.
Proof.
  revert ks r. induction ks' as [|k ks' IH]; intros ks r Hr; simpl.
  - intros [= <-]. by rewrite app_nil_r.
  - destruct (add_key r k) as [r1|] eqn:E; [|done]. cbn [mbind result_bind]. intros H.
    replace (ks ++ k :: ks') with ((ks ++ [k]) ++ ks') by by rewrite <- app_assoc.
    eapply IH; [by eapply add_key_inv|done].
Qed.

Lemma add_keys_total ks ks' r : ring_of ks r -> ring_ok (ks ++ ks') -> exists r', add_keys r ks' = Ok r'.
Proof.
  revert ks r. induction ks' as [|k ks' IH]; intros ks r Hr Hok; simpl; [by eexists|].
  replace (ks ++ k :: ks') with ((ks ++ [k]) ++ ks') in Hok by by rewrite <- app_assoc.
  destruct (add_key_total ks r k Hr) as [r1 H1]; [by eapply ring_ok_prefix|].
  rewrite H1. cbn [mbind result_bind]. eapply IH; [by eapply add_key_inv|done].
Qed.

Lemma ring_of_empty : ring_of [] empty_ring.
Proof.
  split; [|by split; [apply NoDup_nil|]]. intros kid k. simpl. rewrite lookup_empty.
  split; [done|]. intros [H _]. by apply not_elem_of_nil in H.
Qed.

Lemma ring_of_ok ks r : ring_of ks r -> ring_ok ks.
Proof.
  intros (_ & Hn & Ha & Hl). split; [done|]. rewrite Ha, Hl.
  by destruct (activeAccess r), (activeLocal r); simpl; split; lia.
Qed.

Lemma NewRing_ring_of keys r : NewRing keys = Ok r -> ring_of keys r.
Proof.
  unfold NewRing. destruct (maxKeys <? length keys)%nat; [done|].
  intros H. by eapply (add_keys_inv []); [apply ring_of_empty|].
Qed.

Lemma active_unique ks purpose a k :
  List.filter (active_for purpose) ks = option_list a ->
  a = Some k <-> k ∈ ks /\ Status k = StatusActive /\ Purpose k = purpose.
Proof.
  intros H. split.
  - intros ->. simpl in H. assert (k ∈ List.filter (active_for purpose) ks) as Hk.
    { rewrite H. by apply list_elem_of_singleton. }
    apply list_elem_of_In, filter_In in Hk as [Hk Hf]. unfold active_for in Hf. unbool.
    split; [by apply list_elem_of_In|done].
  - intros (Hk & Hs & Hp). assert (k ∈ List.filter (active_for purpose) ks) as Hin.
    { apply list_elem_of_In, filter_In. split; [by apply list_elem_of_In|].
      unfold active_for. by rewrite !bool_decide_eq_true_2. }
    rewrite H in Hin. destruct a as [a|]; simpl in Hin; [|by apply not_elem_of_nil in Hin].
    apply list_elem_of_singleton in Hin. by subst.
Qed.
End Keys.

(** A concrete AEAD for the witnesses: the plaintext with a 16-byte tag. *)
Module ToyAead.
Definition tag : string := "0123456789abcdef".
#[export] Instance prims : AeadPrims := {|
  aead_key s i := Some s;
  aead_seal k n p a := (p ++ tag)%string;
  aead_open k n c a := Some (str_take (String.length c - 16) c)
|}.
#[export] Instance laws : AeadLaws prims.
Proof.
  split.
  - intros s i. by eexists.
  - intros k n p a. simpl. rewrite str_length_app.
    replace (String.length p + String.length tag - 16)%nat with (String.length p) by (simpl; lia).
    by rewrite str_take_app.
  - intros k n p a. simpl. by rewrite str_length_app.
Qed.
End ToyAead.

Module KeyringProps.
Import Keys.

(** The key ring.  NewRing accepts a key set exactly when it has at most 64
    keys, the ids of those not retired are distinct, and each purpose has at
    most one active key; then Lookup finds exactly the keys that are not
    retired, and the key tokens are signed with is the active access key, held
    privately and inside its published validity window at that moment. *)
Theorem NewRing_spec keys :
  ((exists r, NewRing keys = Ok r) <-> (length keys <= 64)%nat /\ ring_ok keys) /\
  (forall r, NewRing keys = Ok r ->
     (forall kid k, Lookup r kid = Ok k <-> k ∈ keys /\ Status k <> StatusRetired /\ Kid k = kid) /\
     (forall now k, ActiveAccessAt r now = Ok k <->
        k ∈ keys /\ Status k = StatusActive /\ Purpose k = PurposeAccess /\
        Private k <> None /\ InWindow k now = true)).
Proof.
  split; [split|].
  - intros [r H]. split; [|by eapply ring_of_ok, NewRing_ring_of].
    unfold NewRing, maxKeys in H. destruct (Nat.ltb_spec 64 (length keys)); [done|lia].
  - intros [Hl Hok]. unfold NewRing, maxKeys. destruct (Nat.ltb_spec 64 (length keys)); [lia|].
    by apply (add_keys_total []); [apply ring_of_empty|].
  - intros r H. pose proof (NewRing_ring_of keys r H) as (Hm & _ & Ha & _). split.
    + intros kid k. unfold Lookup. trans (byKid r !! kid = Some k).
      { destruct (byKid r !! kid); split; congruence. }
      rewrite Hm, list_elem_of_In, filter_In, <- list_elem_of_In. unfold live.
      rewrite negb_true_iff, bool_decide_eq_false. tauto.
    + intros now k. unfold ActiveAccessAt, ActiveAccessPresent.
      pose proof (active_unique keys PurposeAccess (activeAccess r) k Ha) as Hu.
      destruct (activeAccess r) as [a|]; cbn [mbind result_bind].
      2: { split; [done|]. intros (? & ? & ? & _). assert (@None Key = Some k) as [=]; by apply Hu. }
      destruct (bool_decide_reflect (Private a = None)) as [Hp|Hp]; cbn [mbind result_bind].
      * split; [done|]. intros (? & ? & ? & Hk & _).
        assert (Some a = Some k) as [= <-] by by apply Hu. done.
      * destruct (InWindow a now) eqn:E; cbn [negb]; split.
        -- intros [= <-]. destruct (proj1 Hu eq_refl) as (? & ? & ?). done.
        -- intros (? & ? & ? & _). f_equal. assert (Some a = Some k) as [= <-] by by apply Hu. done.
        -- done.
        -- intros (? & ? & ? & _ & ?). assert (Some a = Some k) as [= <-] by by apply Hu. congruence.
Qed.

Definition sample_access : Key :=
  {| Kid := "ak_1"; Purpose := "access"; Alg := "Ed25519"; Status := "active"; Public := "pub";
     Private := Some "priv"%string; Secret := ""; NotBefore := 10; NotAfter := 20 |}.
Definition sample_local (kid status : string) : Key :=
  {| Kid := kid; Purpose := "local"; Alg := "Ed25519"; Status := status; Public := "";
     Private := None; Secret := "0123"; NotBefore := 0; NotAfter := 0 |}.
Definition sample_ring : list Key := [sample_access; sample_local "lk_1" "retiring"; sample_local "lk_2" "active"].

Lemma NewRing_spec_witness : exists r,
  NewRing sample_ring = Ok r /\ Lookup r "lk_1" = Ok (sample_local "lk_1" "retiring") /\
  ActiveAccessAt r 15 = Ok sample_access /\ ActiveAccessAt r 20 <> Ok sample_access.
Proof.
  destruct (NewRing sample_ring) as [r|] eqn:E; [|vm_compute in E; discriminate].
  exists r. destruct (proj2 (NewRing_spec sample_ring) r E) as [Hl Ha].
  split; [reflexivity|]. split; [apply Hl|split; [apply Ha|rewrite Ha]].
  - split; [right; left|split; [discriminate|reflexivity]].
  - split; [left|]. split; [reflexivity|]. split; [reflexivity|]. split; [discriminate|reflexivity].
  - intros (_ & _ & _ & _ & H). discriminate H.
Defined.

(** A secret sealed under a named local key stays readable across every
    rotation that keeps that key in the ring, whatever key is active then; once
    the key is gone the caller is told so, and no other key is tried. *)
Theorem sealed_secret_rotation `{A : AeadPrims} `{L : !AeadLaws A} keys r k nonce aad material sealed :
  NewRing keys = Ok r -> Kid k <> ""%string -> String.length nonce = 12%nat ->
  SealSecret nonce (Secret k) aad material = Ok sealed ->
  (k ∈ keys -> Status k <> StatusRetired ->
     OpenNamedSecret r (Kid k) aad sealed = Ok (material, Kid k)) /\
  ((forall k', k' ∈ keys -> Kid k' = Kid k -> Status k' = StatusRetired) ->
     OpenNamedSecret r (Kid k) aad sealed = Err (ErrSealingKeyGone (Kid k))).
Proof.
  intros Hr Hkid Hn Hs. pose proof (NewRing_ring_of keys r Hr) as (Hm & _).
  unfold OpenNamedSecret, Lookup. rewrite bool_decide_eq_false_2 by done. split.
  - intros Hk Hst. replace (byKid r !! Kid k) with (Some k).
    + by rewrite (Seal_Open nonce _ _ material).
    + symmetry. apply Hm. split; [|done]. apply list_elem_of_In, filter_In.
      split; [by apply list_elem_of_In|]. unfold live. by rewrite bool_decide_eq_false_2.
  - intros Hgone. destruct (byKid r !! Kid k) as [k'|] eqn:E; [|done]. exfalso.
    apply Hm in E as [Hk' Heq]. apply list_elem_of_In, filter_In in Hk' as [Hk' Hl].
    unfold live in Hl. apply list_elem_of_In in Hk'. rewrite (Hgone k' Hk' Heq) in Hl. done.
Qed.

Import ToyAead.
Lemma sealed_secret_rotation_witness : exists r,
  NewRing sample_ring = Ok r /\
  OpenNamedSecret r "lk_1" "row" "nonce-12byteseed0123456789abcdef" = Ok ("seed", "lk_1")%string /\
  OpenNamedSecret r "lk_0" "row" "nonce-12byteseed0123456789abcdef" = Err (ErrSealingKeyGone "lk_0").
Proof.
  destruct (NewRing sample_ring) as [r|] eqn:E; [|vm_compute in E; discriminate].
  exists r. split; [reflexivity|]. split.
  - refine (proj1 (sealed_secret_rotation sample_ring r (sample_local "lk_1" "retiring")
      "nonce-12byte" "row" "seed" _ E _ _ _) _ _); [discriminate|reflexivity|reflexivity| |discriminate].
    right. left.
  - refine (proj2 (sealed_secret_rotation sample_ring r (sample_local "lk_0" "retired")
      "nonce-12byte" "row" "seed" _ E _ _ _) _); [discriminate|reflexivity|reflexivity|].
    intros k' Hk' Heq. apply list_elem_of_In in Hk'. simpl in Hk'.
    destruct Hk' as [<-|[<-|[<-|[]]]]; discriminate Heq.
Defined.
End KeyringProps.
