(* ===== verification/LocalTokens.v ===== *)
(** internal/platform/crypto/localtoken (anb.local.v1 sealed state tokens) and
    internal/platform/crypto/totp (RFC 6238 codes).  AES-GCM is the interface of
    Keyring; the JSON codec and HMAC-SHA1 are parameters. *)

From Stdlib Require Import ZArith Lia Bool Ascii String.
From stdpp Require Import base gmap strings list pretty.
From S2P Require Import Prelude.
From S2P Require Import GoStrings.
From S2P Require Import Base64.
From S2P Require Import Tokens.
From S2P Require Import Keyring.

(** ** localtoken.go, envelope.go *)
Module LocalToken.

Record envelope := {
  e_Purpose : string;
  e_Expires : Z;
  e_TokenID : string;
  e_Data : string
}.

(** encoding/json on an envelope. *)
Class EnvelopeJson := {
  json_envelope : envelope -> option string;
  json_parse_envelope : string -> option envelope
}.
(** Marshalling loses nothing on the envelopes whose data is itself a
    marshalled value and whose strings are UTF-8. *)
Class EnvelopeJsonLaws (J : EnvelopeJson) (good : envelope -> Prop) : Prop := {
  json_envelope_round e s : good e -> json_envelope e = Some s -> json_parse_envelope s = Some e;
  json_envelope_total e : good e -> is_Some (json_envelope e)
}.

Inductive Error := ErrMalformed | ErrPurpose | ErrExpired | ErrOpen | ErrMarshal | ErrKey.

Definition prefix : string := "anb.local.v1.".
Definition nonceSize : nat := 12.

Section Codec.
Context `{A : AeadPrims} `{J : EnvelopeJson}.

Definition newAEAD (secret : string) : option string := aead_key secret "anubis/local/v1".

(** [raw] is json.Marshal(data), [nonce] what crypto/rand returns. *)
Definition Seal (secret kid purpose jti : string) (raw : option string) (ttl : Duration) (now : Time)
    (nonce : string) : result Error string :=
  match raw with
  | None => Err ErrMarshal
  | Some raw =>
      match json_envelope {| e_Purpose := purpose; e_Expires := unix (now + ttl)%Z;
                             e_TokenID := jti; e_Data := raw |} with
      | None => Err ErrMarshal
      | Some env =>
          match newAEAD secret with
          | None => Err ErrKey
          | Some key =>
              let ct := aead_seal key nonce env (prefix ++ purpose)%string in
              Ok (prefix ++ Base64.encode kid ++ "." ++ Base64.encode (nonce ++ ct))%string
          end
      end
  end.

Definition Kid (token : string) : result Error string :=
  if negb (String.prefix prefix token) then Err ErrMalformed
  else
    let rest := str_drop (String.length prefix) token in
    match cut "."%char rest with
    | None => Err ErrMalformed
    | Some (h, _) =>
        if bool_decide (h = ""%string) then Err ErrMalformed
        else match Base64.decode true h with
             | None => Err ErrMalformed
             | Some kid => Ok kid
             end
    end.

(** (jti, data) *)
Definition Open (secret token purpose : string) (now : Time) : result Error (string * string) :=
  if negb (String.prefix prefix token) then Err ErrMalformed
  else
    let rest := str_drop (String.length prefix) token in
    match cut "."%char rest with
    | None => Err ErrMalformed
    | Some (h, b) =>
        if bool_decide (h = ""%string) || has_byte "."%char b then Err ErrMalformed
        else match Base64.decode true b with
             | None => Err ErrMalformed
             | Some body =>
                 if (String.length body <=? nonceSize)%nat then Err ErrMalformed
                 else match newAEAD secret with
                      | None => Err ErrKey
                      | Some key =>
                          match aead_open key (str_take nonceSize body) (str_drop nonceSize body)
                                  (prefix ++ purpose)%string with
                          | None => Err ErrOpen
                          | Some plain =>
                              match json_parse_envelope plain with
                              | None => Err ErrMalformed
                              | Some env =>
                                  if negb (bool_decide (e_Purpose env = purpose)) then Err ErrPurpose
                                  else if (e_Expires env <? unix now)%Z then Err ErrExpired
                                  else Ok (e_TokenID env, e_Data env)
                              end
                          end
                      end
             end
    end.

End Codec.
End LocalToken.

(** ** totp.go *)
Module Totp.

Definition DefaultDigits : Z := 6.
Definition DefaultStep : Duration := (30 * second)%Z.
Definition secretLen : nat := 20.

Section Totp.
(** hmac.New(sha1.New, secret) over a message: 20 bytes. *)
Context (hmac_sha1 : string -> string -> string).

(** Big-endian bytes of a uint64. *)
Definition put_uint64 (n : Z) : string :=
  string_of_list_ascii (map (fun i => chr (Z.shiftr n (8 * i) mod 256))
    [7; 6; 5; 4; 3; 2; 1; 0]%Z).

Definition byte_at (s : string) (i : nat) : Z :=
  match String.get i s with Some a => code a | None => 0 end.

Fixpoint zeros (n : nat) : string :=
  match n with O => EmptyString | S n' => String "0" (zeros n') end.

(** [fmt.Sprintf("%0*d", w, n)] for [n >= 0]. *)
Definition pad_digits (w : nat) (n : Z) : string :=
  let s := pretty (Z.to_N n) in (zeros (w - String.length s) ++ s)%string.

(** The loop [mod *= 10] on a uint32. *)
Fixpoint pow10_32 (digits : nat) : Z :=
  match digits with O => 1 | S d => (pow10_32 d * 10) mod 2 ^ 32 end%Z.

Definition hotp (secret : string) (counter : Z) (digits : nat) : string :=
  let sum := hmac_sha1 secret (put_uint64 counter) in
  let offset := Z.to_nat (Z.land (byte_at sum (String.length sum - 1)) 15) in
  let code := Z.land (byte_at sum offset * 2 ^ 24 + byte_at sum (offset + 1) * 2 ^ 16 +
                      byte_at sum (offset + 2) * 2 ^ 8 + byte_at sum (offset + 3)) (2 ^ 31 - 1) in
  pad_digits digits (code mod pow10_32 digits).

(** [uint64(t.Unix()) / uint64(step/time.Second)] *)
Definition Step (t : Time) (step : Duration) : Z := ((unix t mod 2 ^ 64) / Z.quot step second)%Z.

Definition Generate (secret : string) (t : Time) (step : Duration) (digits : nat) : string :=
  hotp secret (Step t step) digits.

(** The loop over [d = -skew .. skew]; [n] counts the steps left. *)
Fixpoint verify_loop (secret code : string) (base d : Z) (digits n : nat) : option Z :=
  match n with
  | O => None
  | S n' =>
      let s := wrap64 (base + d) in
      if (s <? 0)%Z then verify_loop secret code base (d + 1) digits n'
      else if bool_decide (hotp secret s digits = code) then Some s
      else verify_loop secret code base (d + 1) digits n'
  end.

(** The matched step; [None] is [(0, false)]. *)
Definition Verify (secret code : string) (t : Time) (step : Duration) (digits skew : nat) : option Z :=
  if negb (String.length code =? digits)%nat then None
  else verify_loop secret code (Step t step) (- Z.of_nat skew) digits (2 * skew + 1).

(** The loop returns the first step of its window whose code matches. *)
Lemma verify_loop_spec secret code base d digits n :
  (- 2 ^ 63 <= base + d)%Z -> (base + d + Z.of_nat n <= 2 ^ 63)%Z ->
  match verify_loop secret code base d digits n with
  | Some s => (0 <= s)%Z /\ (base + d <= s < base + d + Z.of_nat n)%Z /\ hotp secret s digits = code /\
      (forall s', (0 <= s')%Z -> (base + d <= s' < s)%Z -> hotp secret s' digits <> code)
  | None => forall s, (0 <= s)%Z -> (base + d <= s < base + d + Z.of_nat n)%Z -> hotp secret s digits <> code
  end.
Proof using.
  revert d. induction n as [|n IH]; intros d Hlo Hhi; cbn [verify_loop]; [lia|].
  rewrite wrap64_small by lia.
  specialize (IH (d + 1)%Z ltac:(lia) ltac:(lia)).
  assert (forall s', (base + d <= s')%Z -> s' = (base + d)%Z \/ (base + (d + 1) <= s')%Z) as Hsplit by lia.
  destruct (Z.ltb_spec (base + d) 0) as [Hneg|Hpos].
  - destruct (verify_loop _ _ _ _ _ _) as [s|].
    + destruct IH as (? & ? & ? & Hf). repeat (split; [done || lia|]).
      intros s' ? ?. destruct (Hsplit s' ltac:(lia)); [lia|]. apply Hf; lia.
    + intros s ? ?. destruct (Hsplit s ltac:(lia)); [lia|]. apply IH; lia.
  - case_bool_decide as Hc.
    + repeat (split; [done || lia|]). intros s'; lia.
    + destruct (verify_loop _ _ _ _ _ _) as [s|].
      * destruct IH as (? & ? & ? & Hf). repeat (split; [done || lia|]).
        intros s' ? ?. destruct (Hsplit s' ltac:(lia)) as [->|]; [done|]. apply Hf; lia.
      * intros s ? ?. destruct (Hsplit s ltac:(lia)) as [->|]; [done|]. apply IH; lia.
Qed.
End Totp.
End Totp.

Module LocalTokenProps.
Import LocalToken.

Section Laws.
Context `{A : AeadPrims} `{LA : !AeadLaws A} `{J : EnvelopeJson} (good : envelope -> Prop)
  `{LJ : !EnvelopeJsonLaws J good}.

Lemma Open_sealed secret kid purpose jti raw ttl now nonce token purpose' now' :
  let e := {| e_Purpose := purpose; e_Expires := unix (now + ttl)%Z; e_TokenID := jti; e_Data := raw |} in
  good e -> kid <> ""%string -> String.length nonce = 12%nat ->
  Seal secret kid purpose jti (Some raw) ttl now nonce = Ok token ->
  Kid token = Ok kid /\
  (purpose' = purpose -> Open secret token purpose' now' =
     if (unix (now + ttl) <? unix now')%Z then Err ErrExpired else Ok (jti, raw)).
Proof using LA LJ.
  intros e Hg Hkid Hn. unfold Seal. fold e.
  destruct (json_envelope e) as [env|] eqn:He; [|done].
  destruct (newAEAD secret) as [key|] eqn:Hk; [|done]. intros [= <-].
  set (body := (nonce ++ aead_seal key nonce env (prefix ++ purpose))%string).
  assert (cut "."%char (Base64.encode kid ++ "." ++ Base64.encode body)%string =
    Some (Base64.encode kid, Base64.encode body)) as Hcut.
  { apply cut_some. split; [done|apply Paseto.encode_no_dot]. }
  unfold Kid, Open. rewrite prefix_app, str_drop_app. cbn [negb]. rewrite Hcut.
  rewrite bool_decide_eq_false_2 by (by apply Paseto.encode_nonempty).
  rewrite Base64.decode_encode. split; [done|]. intros ->.
  rewrite Paseto.encode_no_dot. cbn [orb]. rewrite Base64.decode_encode.
  assert (String.length body = 12 + (String.length env + 16))%nat as Hb.
  { unfold body. by rewrite str_length_app, aead_tag, Hn. }
  destruct (Nat.leb_spec (String.length body) nonceSize); [unfold nonceSize in *; lia|].
  rewrite Hk. unfold body, nonceSize. rewrite <- Hn, str_take_app, str_drop_app, aead_round.
  rewrite (json_envelope_round e env Hg He). unfold e. simpl.
  by rewrite bool_decide_eq_true_2.
Qed.
End Laws.

(** A sealed state token opens, under the same secret and purpose, to the
    identifier and data it was sealed with until its expiry second has passed,
    and is refused afterwards; its key id can be read without the secret.
    Whatever token is presented, Open answers only with what the AEAD
    authenticated under the asked purpose, for that purpose and unexpired. *)
Theorem localtoken_open `{A : AeadPrims} `{LA : !AeadLaws A} `{J : EnvelopeJson} (good : envelope -> Prop)
    `{LJ : !EnvelopeJsonLaws J good} secret kid purpose jti raw ttl now nonce :
  let e := {| e_Purpose := purpose; e_Expires := unix (now + ttl)%Z; e_TokenID := jti; e_Data := raw |} in
  good e -> kid <> ""%string -> String.length nonce = 12%nat ->
  (exists token, Seal secret kid purpose jti (Some raw) ttl now nonce = Ok token /\
     Kid token = Ok kid /\
     forall now', Open secret token purpose now' =
       if (unix (now + ttl) <? unix now')%Z then Err ErrExpired else Ok (jti, raw)) /\
  (forall token asked now' jti' data', Open secret token asked now' = Ok (jti', data') ->
     exists key n c plain env, newAEAD secret = Some key /\
       aead_open key n c (prefix ++ asked)%string = Some plain /\
       json_parse_envelope plain = Some env /\
       e_Purpose env = asked /\ (unix now' <= e_Expires env)%Z /\ e_TokenID env = jti' /\ e_Data env = data').
Proof.
  intros e Hg Hkid Hn. split.
  - destruct (json_envelope_total e Hg) as [env He]. destruct (aead_key_total secret "anubis/local/v1") as [key Hk].
    destruct (Seal secret kid purpose jti (Some raw) ttl now nonce) as [token|] eqn:Hs.
    + exists token. split; [done|]. split.
      * by apply (Open_sealed good _ _ _ _ _ _ _ _ _ purpose now Hg Hkid Hn Hs).
      * intros now'. by apply (Open_sealed good _ _ _ _ _ _ _ _ _ purpose now' Hg Hkid Hn Hs).
    + exfalso. revert Hs. unfold Seal, newAEAD. fold e. by rewrite He, Hk.
  - intros token asked now' jti' data'. unfold Open.
    destruct (String.prefix prefix token); cbn [negb]; [|done].
    destruct (cut _ _) as [[h b]|]; [|done]. destruct (_ || _); [done|].
    destruct (Base64.decode true b) as [body|]; [|done].
    destruct (_ <=? _)%nat; [done|]. destruct (newAEAD secret) as [key|]; [|done].
    destruct (aead_open _ _ _ _) as [plain|] eqn:Ho; [|done].
    destruct (json_parse_envelope plain) as [env|] eqn:Hp; [|done].
    destruct (bool_decide_reflect (e_Purpose env = asked)); cbn [negb]; [|done].
    destruct (Z.ltb_spec (e_Expires env) (unix now')); [done|]. intros [= <- <-].
    eauto 15.
Qed.

Module ToyJson.
Definition only : envelope :=
  {| e_Purpose := "mfa"; e_Expires := unix (100 * second)%Z; e_TokenID := "t1"; e_Data := "{}" |}.
#[export] Instance json : EnvelopeJson := {| json_envelope e := Some "E"%string; json_parse_envelope s := Some only |}.
#[export] Instance laws : EnvelopeJsonLaws json (eq only).
Proof. split; [by intros e s <- _|by intros e _; eexists]. Qed.
End ToyJson.
Import ToyAead ToyJson.

Lemma localtoken_open_witness : exists token,
  Seal "s" "lk_1" "mfa" "t1" (Some "{}"%string) (60 * second) (40 * second) "nonce-12byte" = Ok token /\
  Kid token = Ok "lk_1"%string /\
  Open "s" token "mfa" (100 * second) = Ok ("t1", "{}")%string /\
  Open "s" token "mfa" (101 * second) = Err ErrExpired.
Proof.
  destruct (localtoken_open (eq only) "s" "lk_1" "mfa" "t1" "{}" (60 * second) (40 * second) "nonce-12byte")
    as [(token & Hs & Hk & Ho) _]; [reflexivity|discriminate|reflexivity|].
  exists token. split; [exact Hs|]. split; [exact Hk|]. rewrite !Ho. split; reflexivity.
Defined.
End LocalTokenProps.

Module TotpProps.
Import Totp.

Lemma pretty_N_go_length k x s : (x < 10 ^ N.of_nat k)%N ->
  (String.length (pretty_N_go x s) <= k + String.length s)%nat.
Proof.
  revert x s. induction k as [|k IH]; intros x s Hx.
  - assert (x = N0) as -> by (simpl in Hx; lia). rewrite pretty_N_go_0. lia.
  - destruct (N.eq_dec x N0) as [->|Hnz]; [rewrite pretty_N_go_0; lia|].
    rewrite pretty_N_go_step by lia.
    assert ((x `div` 10) < 10 ^ N.of_nat k)%N as Hd.
    { apply N.Div0.div_lt_upper_bound. rewrite Nat2N.inj_succ, N.pow_succ_r' in Hx. lia. }
    specialize (IH _ (String (pretty_N_char (x `mod` 10)%N) s) Hd). simpl in IH. lia.
Qed.

Lemma zeros_length n : String.length (zeros n) = n.
Proof. induction n as [|n IH]; simpl; [done|by rewrite IH]. Qed.

Lemma pad_digits_length w n : (0 < w)%nat -> (0 <= n < 10 ^ Z.of_nat w)%Z ->
  String.length (pad_digits w n) = w.
Proof.
  intros Hw Hn. unfold pad_digits. rewrite str_length_app, zeros_length.
  enough (String.length (pretty (Z.to_N n)) <= w)%nat by lia.
  unfold pretty, pretty_N. case_decide; [simpl; lia|].
  etrans; [apply (pretty_N_go_length w)|simpl; lia].
  apply N2Z.inj_lt. rewrite Z2N.id, N2Z.inj_pow, nat_N_Z by lia. lia.
Qed.

Lemma pow10_32_small d : (d <= 9)%nat -> pow10_32 d = (10 ^ Z.of_nat d)%Z.
Proof. intros H. do 10 (destruct d as [|d]; [reflexivity|]). lia. Qed.

Lemma hotp_length h secret c d : (0 < d <= 9)%nat -> String.length (hotp h secret c d) = d.
Proof.
  intros Hd. unfold hotp. apply pad_digits_length; [lia|]. rewrite pow10_32_small by lia.
  apply Z.mod_pos_bound. apply Z.pow_pos_nonneg; lia.
Qed.

Lemma verify_loop_window hmac secret c base digits skew :
  (0 <= base < 2 ^ 62)%Z -> (Z.of_nat skew < 2 ^ 62)%Z ->
  match verify_loop hmac secret c base (- Z.of_nat skew) digits (2 * skew + 1) with
  | Some s => (0 <= s)%Z /\ (base - Z.of_nat skew <= s <= base + Z.of_nat skew)%Z /\ hotp hmac secret s digits = c /\
      (forall s', (0 <= s')%Z -> (base - Z.of_nat skew <= s' < s)%Z -> hotp hmac secret s' digits <> c)
  | None => forall s, (0 <= s)%Z -> (base - Z.of_nat skew <= s <= base + Z.of_nat skew)%Z -> hotp hmac secret s digits <> c
  end.
Proof.
  intros Hb Hsk. pose proof (verify_loop_spec hmac secret c base (- Z.of_nat skew) digits (2 * skew + 1)
    ltac:(lia) ltac:(lia)) as H. destruct (verify_loop _ _ _ _ _ _ _).
  - destruct H as (? & ? & ? & Hf). repeat (split; [done || lia|]). intros s' ? ?. apply Hf; lia.
  - intros s ? ?. apply H; lia.
Qed.

(** A code is accepted exactly when it is the code of a time step at most
    [skew] steps away, and the step reported is the earliest such one (so a
    caller that requires it to grow accepts each step once); in particular the
    code of any moment whose step is in the window is accepted. *)
Theorem totp_Verify_window hmac secret code t step digits skew :
  (0 <= unix t < 2 ^ 62)%Z -> (Z.of_nat skew < 2 ^ 62)%Z -> (second <= step)%Z ->
  (forall s, Verify hmac secret code t step digits skew = Some s <->
     String.length code = digits /\ (0 <= s)%Z /\ (Z.abs (s - Step t step) <= Z.of_nat skew)%Z /\
     hotp hmac secret s digits = code /\
     (forall s', (0 <= s' < s)%Z -> (Z.abs (s' - Step t step) <= Z.of_nat skew)%Z ->
        hotp hmac secret s' digits <> code)) /\
  (forall t', (0 < digits <= 9)%nat -> (0 <= unix t' < 2 ^ 62)%Z ->
     (Z.abs (Step t' step - Step t step) <= Z.of_nat skew)%Z ->
     is_Some (Verify hmac secret (Generate hmac secret t' step digits) t step digits skew)).
Proof.
  intros Ht Hsk Hst.
  assert (1 <= Z.quot step second)%Z as Hq by (apply Z.quot_le_lower_bound; unfold second in *; lia).
  assert (forall u, (0 <= unix u < 2 ^ 62)%Z -> (0 <= Step u step < 2 ^ 62)%Z) as Hstep.
  { intros u Hu. unfold Step. rewrite Z.mod_small by lia.
    split; [apply Z.div_pos; lia|]. apply Z.div_lt_upper_bound; nia. }
  pose proof (Hstep t Ht) as Hb. set (base := Step t step) in *.
  pose proof (fun c => verify_loop_window hmac secret c base digits skew ltac:(lia) Hsk) as Hl.
  unfold Verify. split.
  - intros s. specialize (Hl code). destruct (Nat.eqb_spec (String.length code) digits) as [He|He]; cbn [negb].
    2: { split; [done|]. by intros [? _]. }
    fold base. destruct (verify_loop _ _ _ _ _ _ _) as [s0|].
    + destruct Hl as (H1 & H2 & H3 & H4). split.
      * intros [= <-]. repeat (split; [done || lia|]). intros s' ? ?. apply H4; lia.
      * intros (_ & G1 & G2 & G3 & G4). f_equal.
        destruct (Z.lt_total s0 s) as [Hlt|[->|Hlt]]; [|done|].
        -- exfalso. apply (G4 s0); [lia|lia|done].
        -- exfalso. apply (H4 s); [lia|lia|done].
    + split; [done|]. intros (_ & G1 & G2 & G3 & _). exfalso. apply (Hl s); [lia|lia|done].
  - intros t' Hd Ht' Hab. unfold Generate. rewrite hotp_length by done. rewrite Nat.eqb_refl. cbn [negb].
    specialize (Hl (hotp hmac secret (Step t' step) digits)). fold base.
    destruct (verify_loop _ _ _ _ _ _ _) as [s0|]; [by eexists|]. exfalso.
    pose proof (Hstep t' Ht'). apply (Hl (Step t' step)); [lia|lia|done].
Qed.

(** A concrete MAC for the witness: the message padded to 20 bytes. *)
Definition toy_mac (secret msg : string) : string := (msg ++ "............")%string.

Definition sample_time : Time := ((62135596800 + 90) * second)%Z.

(** A code one step old is accepted. *)
Lemma totp_Verify_window_witness :
  Verify toy_mac "k" (hotp toy_mac "k" 2 6) sample_time DefaultStep 6 1 = Some 2%Z /\
  is_Some (Verify toy_mac "k" (Generate toy_mac "k" (sample_time - 30 * second) DefaultStep 6) sample_time DefaultStep 6 1).
Proof.
  split; [vm_compute; reflexivity|].
  refine (proj2 (totp_Verify_window toy_mac "k" "" sample_time DefaultStep 6 1 _ _ _) (sample_time - 30 * second)%Z _ _ _).
  - split; [discriminate|reflexivity].
  - reflexivity.
  - discriminate.
  - split; repeat constructor.
  - split; [discriminate|reflexivity].
  - discriminate.
Defined.
End TotpProps.
