(* ===== verification/Sdk.v ===== *)
(** pkg/anubis: the client SDK that verifies access tokens offline (claims.go,
    verifier.go, middleware.go) against a published key set (keys/key_set.go)
    and its cache (keys/key_cache.go).  JSON decoding and the HTTP exchange
    are parameters; the cache is explicit state. *)

From Stdlib Require Import ZArith Lia Bool Ascii String.
From stdpp Require Import base gmap strings list.
From S2P Require Import Prelude.
From S2P Require Import GoStrings.
From S2P Require Import Base64.
From S2P Require Import Tokens.
From S2P Require Import TokenProps.

(** ** claims.go *)
Module Claims.

Record Claims := {
  Issuer : string;
  Subject : string;
  Audience : list string;
  Expires : Z;
  IssuedAt : Z;
  NotBefore : Z;
  TokenID : string;
  Session : string;
  Tenant : string;
  Roles : list string;
  Scope : string;
  Scopes : gmap string string;
  Realm : string;
  IAL : Z;
  AMR : list string;
  AuthTime : Z;
  Epoch : Z;
  Version : Z
}.

Inductive Error := ErrExpired | ErrNotYetValid | ErrIssuer | ErrAudience | ErrNoAudience.

(** [None] is the nil error. *)
Definition Validate (c : Claims) (now : Time) (issuer audience : string) (leeway : Duration) : option Error :=
  let n := unix now in
  let l := Z.quot leeway second in
  if negb (Expires c =? 0)%Z && (wrap64 (Expires c + l) <? n)%Z then Some ErrExpired
  else if negb (NotBefore c =? 0)%Z && (n <? wrap64 (NotBefore c - l))%Z then Some ErrNotYetValid
  else if negb (bool_decide (issuer = ""%string)) && negb (bool_decide (Issuer c = issuer)) then Some ErrIssuer
  else if bool_decide (audience = ""%string) then Some ErrNoAudience
  else if existsb (fun a => bool_decide (a = audience)) (Audience c) then None
  else Some ErrAudience.

End Claims.

(** ** keys/ *)
Module KeySet.

Record Entry := {
  Kid : string;
  Alg : string;
  PublicKey : string;   (* base64url *)
  NotBefore : Z;
  NotAfter : Z
}.

Record Document := { Issuer : string; Keys : list Entry }.

Definition Set_ := gmap string string.
Definition maxKeys : nat := 64.

Inductive Error :=
| EDocument                 (* the document is not JSON of its shape *)
| ETooManyKeys (n : nat)
| EBadPublicKey (kid : string)
| EFetch                    (* the request failed *)
| EStatus (code : Z)
| ERead
| ErrUnknownKid.

(** The loop over the document's entries. *)
Fixpoint add_entries (ks : Set_) (entries : list Entry) : result Error Set_ :=
  match entries with
  | [] => Ok ks
  | k :: rest =>
      if negb (bool_decide (Alg k = "Ed25519"%string)) then add_entries ks rest
      else match Base64.decode false (PublicKey k) with
           | None => Err (EBadPublicKey (Kid k))
           | Some raw =>
               if negb (String.length raw =? 32)%nat then Err (EBadPublicKey (Kid k))
               else add_entries (<[Kid k := raw]> ks) rest
           end
  end.

Definition ParseDocument (json_document : string -> option Document) (raw : string) : result Error Set_ :=
  match json_document raw with
  | None => Err EDocument
  | Some doc =>
      if (maxKeys <? length (Keys doc))%nat then Err (ETooManyKeys (length (Keys doc)))
      else add_entries ∅ (Keys doc)
  end.

Definition Get (ks : Set_) (kid : string) : option string := ks !! kid.

(** *** key_cache.go *)

Record Cache := {
  MinRefetch : Duration;
  set : option Set_;
  lastFetch : Time
}.

Definition NewCache : Cache := {| MinRefetch := (30 * second)%Z; set := None; lastFetch := 0 |}.

(** What the keys endpoint answers: nothing, or a status and a body (cut at
    1 MiB by the limit reader), or a body that cannot be read. *)
Inductive Response := NoResponse | Answer (status : Z) (body : option string).

Section Cache.
Context (json_document : string -> option Document).

(** [now] is the clock at the fetch; the result is the error and the cache. *)
Definition fetchLocked (kc : Cache) (now : Time) (resp : Response) : option Error * Cache :=
  let kc := {| MinRefetch := MinRefetch kc; set := set kc; lastFetch := now |} in
  match resp with
  | NoResponse => (Some EFetch, kc)
  | Answer status body =>
      if negb (status =? 200)%Z then (Some (EStatus status), kc)
      else match body with
           | None => (Some ERead, kc)
           | Some raw =>
               match ParseDocument json_document (str_take (Z.to_nat (2 ^ 20)) raw) with
               | Err e => (Some e, kc)
               | Ok s => (None, {| MinRefetch := MinRefetch kc; set := Some s; lastFetch := lastFetch kc |})
               end
           end
  end.

(** A read of the set held, if any. *)
Definition held (kc : Cache) (kid : string) : option string :=
  match set kc with Some s => Get s kid | None => None end.

(** [Cache.Get]: the answer, the cache afterwards, and whether a request went
    out.  [resp] is what the endpoint would answer. *)
Definition Get_cached (kc : Cache) (now : Time) (resp : Response) (kid : string)
    : result Error string * Cache * bool :=
  match held kc kid with
  | Some pk => (Ok pk, kc, false)
  | None =>
      if bool_decide (set kc = None) || (MinRefetch kc <=? time_sub now (lastFetch kc))%Z then
        let '(err, kc') := fetchLocked kc now resp in
        match err, set kc' with
        | Some e, None => (Err e, kc', true)
        | _, _ => match held kc' kid with
                  | Some pk => (Ok pk, kc', true)
                  | None => (Err ErrUnknownKid, kc', true)
                  end
        end
      else (Err ErrUnknownKid, kc, false)
  end.

End Cache.
End KeySet.

(** ** verifier.go *)
Module Verifier.
Import Claims.

Record Config := {
  c_Issuer : string;
  c_Audience : string;
  c_KeysURL : string;
  c_StaticKeys : option KeySet.Set_;
  c_Leeway : Duration
}.

Record Verifier := { cfg : Config; cache : option KeySet.Cache }.

Inductive Error :=
| VNoAudience | VNoKeys
| VPaseto (e : Paseto.Error) | VJws (e : Jws.Error) | VFooter | VKeys (e : KeySet.Error)
| VClaims | VTokenVersion | VInvalid (e : Claims.Error).

Definition NewVerifier (c : Config) : result Error Verifier :=
  if bool_decide (c_Audience c = ""%string) then Err VNoAudience
  else if bool_decide (c_KeysURL c = ""%string) && bool_decide (c_StaticKeys c = None) then Err VNoKeys
  else
    let c := if (c_Leeway c =? 0)%Z
             then {| c_Issuer := c_Issuer c; c_Audience := c_Audience c; c_KeysURL := c_KeysURL c;
                     c_StaticKeys := c_StaticKeys c; c_Leeway := (60 * second)%Z |}
             else c in
    Ok {| cfg := c;
          cache := if bool_decide (c_KeysURL c = ""%string) then None else Some KeySet.NewCache |}.

Section Verify.
Context `{P : TokenPrims} (json_document : string -> option KeySet.Document)
  (json_claims : string -> option Claims).

(** The key for [kid] and the verifier afterwards; [None] is the panic on a
    nil cache, which NewVerifier rules out. *)
Definition key (v : Verifier) (now : Time) (resp : KeySet.Response) (kid : string)
    : option (result Error string * Verifier) :=
  let from_cache :=
    match cache v with
    | None => None
    | Some kc =>
        let '(r, kc', _) := KeySet.Get_cached json_document kc now resp kid in
        Some (match r with Ok pk => Ok pk | Err e => Err (VKeys e) end,
              {| cfg := cfg v; cache := Some kc' |})
    end in
  match c_StaticKeys (cfg v) with
  | Some ks =>
      match KeySet.Get ks kid with
      | Some pk => Some (Ok pk, v)
      | None =>
          match cache v with
          | None => Some (Err (VKeys KeySet.ErrUnknownKid), v)
          | Some _ => from_cache
          end
      end
  | None => from_cache
  end.

(** The id of the key the token says it was signed with, by either codec. *)
Definition token_kid (token : string) : result Error string :=
  if String.prefix AccessToken.PasetoPrefix token then
    match Paseto.Parse token with
    | Err e => Err (VPaseto e)
    | Ok (_, _, footer) =>
        if bool_decide (footer = ""%string) then Ok ""%string
        else match json_parse_kid footer with None => Err VFooter | Some kid => Ok kid end
    end
  else match Jws.Parse token with
       | Err e => Err (VJws e)
       | Ok (h, _, _) => Ok (h_Kid h)
       end.

Definition token_message (pk token : string) : result Error string :=
  if String.prefix AccessToken.PasetoPrefix token then
    match Paseto.Verify pk token "" with Err e => Err (VPaseto e) | Ok (m, _) => Ok m end
  else match Jws.Verify pk token with Err e => Err (VJws e) | Ok (m, _) => Ok m end.

(** The checks on a message whose signature holds. *)
Definition accept (v : Verifier) (now : Time) (msg : string) : result Error Claims :=
  match json_claims msg with
  | None => Err VClaims
  | Some c =>
      if negb (Version c =? 0)%Z && negb (Version c =? 1)%Z then Err VTokenVersion
      else match Validate c now (c_Issuer (cfg v)) (c_Audience (cfg v)) (c_Leeway (cfg v)) with
           | Some e => Err (VInvalid e)
           | None => Ok c
           end
  end.

Definition Verify (v : Verifier) (now : Time) (resp : KeySet.Response) (token : string)
    : option (result Error Claims * Verifier) :=
  match token_kid token with
  | Err e => Some (Err e, v)
  | Ok kid =>
      '(r, v') ← key v now resp kid;
      Some (pk ← r; msg ← token_message pk token; accept v now msg, v')
  end.

End Verify.

(** *** middleware.go *)

(** [strings.EqualFold] against "Bearer ", whose letters have no other case
    variants than the ASCII ones. *)
Definition BearerToken (authorization : string) : option string :=
  if (String.length authorization <=? 7)%nat || negb (equal_fold (str_take 7 authorization) "Bearer ")
  then None else Some (str_drop 7 authorization).

(** What the middleware answers: a 401 with its challenge, or the wrapped
    handler run with the principal. *)
Inductive Reply :=
| Unauthorized (challenge body : string)
| Next (claims : Claims) (token : string).

(** The double quote. *)
Definition dq : string := String (ascii_of_nat 34) EmptyString.
Definition challenge (err : string) : string := ("Bearer error=" ++ dq ++ err ++ dq)%string.

Definition unauthorized (msg : string) : Reply := Unauthorized (challenge "invalid_token") msg.

Definition Middleware `{P : TokenPrims} (json_document : string -> option KeySet.Document)
    (json_claims : string -> option Claims) (v : Verifier) (now : Time) (resp : KeySet.Response)
    (authorization : string) : option (Reply * Verifier) :=
  match BearerToken authorization with
  | None => Some (unauthorized "missing bearer token", v)
  | Some token =>
      '(r, v') ← Verify json_document json_claims v now resp token;
      Some (match r with Err _ => unauthorized "invalid token" | Ok c => Next c token end, v')
  end.

Definition RequireAMR (methods : list string) (principal : option (Claims * string)) : Reply :=
  match principal with
  | None => unauthorized "missing bearer token"
  | Some (c, token) =>
      if forallb (fun m => existsb (fun have => bool_decide (have = m)) (AMR c)) methods
      then Next c token
      else Unauthorized (challenge "insufficient_user_authentication") "step-up authentication required"
  end.

End Verifier.

Module SdkProps.
Import Claims Verifier.

(** The requests a run of lookups sends to the keys endpoint. *)
Fixpoint fetch_times (json_document : string -> option KeySet.Document) (kc : KeySet.Cache)
    (calls : list (Time * KeySet.Response * string)) : list Time :=
  match calls with
  | [] => []
  | (now, resp, kid) :: rest =>
      let '(_, kc', fetched) := KeySet.Get_cached json_document kc now resp kid in
      if fetched : bool then now :: fetch_times json_document kc' rest
      else fetch_times json_document kc' rest
  end.

(** Every time is at least [d] after the one before it, the first after [t]. *)
Fixpoint spaced (d : Duration) (t : Time) (l : list Time) : Prop :=
  match l with [] => True | u :: rest => (d <= u - t)%Z /\ spaced d u rest end.

Lemma Get_cached_state jd kc now resp kid r kc' f :
  KeySet.Get_cached jd kc now resp kid = (r, kc', f) ->
  KeySet.MinRefetch kc' = KeySet.MinRefetch kc /\
  (KeySet.set kc <> None -> KeySet.set kc' <> None) /\
  KeySet.lastFetch kc' = (if f then now else KeySet.lastFetch kc) /\
  (f = true -> KeySet.held kc kid = None /\
     (KeySet.set kc = None \/ (KeySet.MinRefetch kc <= time_sub now (KeySet.lastFetch kc))%Z)).
Proof.
  unfold KeySet.Get_cached. destruct (KeySet.held kc kid) eqn:Hh.
  { intros [= <- <- <-]. done. }
  destruct (_ || _) eqn:Hc; [|by intros [= <- <- <-]].
  destruct (KeySet.fetchLocked jd kc now resp) as [err kc1] eqn:Hf. intros H.
  assert (KeySet.MinRefetch kc1 = KeySet.MinRefetch kc /\ KeySet.lastFetch kc1 = now /\
    (KeySet.set kc <> None -> KeySet.set kc1 <> None)) as (H1 & H2 & H3).
  { revert Hf. unfold KeySet.fetchLocked. repeat split_match; by intros [= <- <-]. }
  assert (kc1 = kc' /\ f = true) as [<- ->].
  { destruct err, (KeySet.set kc1), (KeySet.held kc1 kid); by injection H as <- <- <-. }
  split_and!; try done. intros _. split; [done|]. apply orb_true_iff in Hc as [Hc|Hc]; unbool; auto.
Qed.

(** Once a key set is loaded, no sequence of lookups, whatever key ids it
    asks for and whatever the endpoint answers, sends two requests less than
    MinRefetch apart; a lookup of a held key never sends one, and a failed
    fetch never loses the set. *)
Theorem cache_refetch_budget jd kc calls :
  KeySet.set kc <> None -> (min_duration < KeySet.MinRefetch kc)%Z ->
  spaced (KeySet.MinRefetch kc) (KeySet.lastFetch kc) (fetch_times jd kc calls) /\
  (forall now resp kid r kc' f, KeySet.Get_cached jd kc now resp kid = (r, kc', f) ->
     KeySet.set kc' <> None /\
     (forall pk, KeySet.held kc kid = Some pk -> r = Ok pk /\ f = false)).
Proof.
  intros Hset Hmin. split.
  - revert kc Hset Hmin. induction calls as [|[[now resp] kid] calls IH]; intros kc Hset Hmin; simpl; [done|].
    destruct (KeySet.Get_cached jd kc now resp kid) as [[r kc'] f] eqn:E.
    apply Get_cached_state in E as (Hm & Hs & Hl & Hf). rewrite <- Hm in Hmin.
    specialize (IH kc' (Hs Hset) Hmin). rewrite Hm, Hl in IH. destruct f; [|done].
    split; [|done]. destruct (Hf eq_refl) as [_ [?|Hd]]; [done|].
    rewrite Hm in Hmin. unfold time_sub in Hd. lia.
  - intros now resp kid r kc' f E. pose proof (Get_cached_state _ _ _ _ _ _ _ _ E) as (_ & Hs & _ & _).
    split; [auto|]. intros pk Hh. unfold KeySet.Get_cached in E. rewrite Hh in E. by injection E as <- _ <-.
Qed.

Definition sample_doc (raw : string) : option KeySet.Document := None.
Definition sample_cache : KeySet.Cache :=
  {| KeySet.MinRefetch := (30 * second)%Z; KeySet.set := Some {["k" := "pk"]}; KeySet.lastFetch := 0 |}.
Definition sample_calls : list (Time * KeySet.Response * string) :=
  [(10 * second, KeySet.NoResponse, "x"); (40 * second, KeySet.NoResponse, "x");
   (41 * second, KeySet.NoResponse, "y"); (80 * second, KeySet.NoResponse, "k");
   (80 * second, KeySet.NoResponse, "x")]%Z%string.

Lemma cache_refetch_budget_witness :
  fetch_times sample_doc sample_cache sample_calls = [40 * second; 80 * second]%Z /\
  spaced (30 * second) 0 (fetch_times sample_doc sample_cache sample_calls).
Proof.
  split; [vm_compute; reflexivity|].
  apply (cache_refetch_budget sample_doc sample_cache sample_calls); [discriminate|reflexivity].
Defined.

(** While no set has ever been loaded there is no budget: each lookup asks the
    endpoint again. *)
Lemma cache_unloaded_unbounded jd calls kc :
  KeySet.set kc = None ->
  (forall call, call ∈ calls -> snd (fst call) = KeySet.NoResponse) ->
  fetch_times jd kc calls = map (fun call => fst (fst call)) calls.
Proof.
  revert kc. induction calls as [|[[now resp] kid] calls IH]; intros kc Hn Hr; [done|].
  pose proof (Hr _ (list_elem_of_here _ _)) as Hresp. simpl in Hresp. subst resp. simpl.
  unfold KeySet.Get_cached at 1, KeySet.held. rewrite Hn. simpl. rewrite Hn. simpl.
  f_equal. apply IH; [done|]. intros call Hc. apply Hr. by right.
Qed.

(** The declarative acceptance rule for decoded claims. *)
Definition acceptable (c : Claims) (now : Time) (issuer audience : string) (leeway : Duration) : Prop :=
  (Expires c = 0 \/ unix now <= Expires c + Z.quot leeway second)%Z /\
  (NotBefore c = 0 \/ NotBefore c - Z.quot leeway second <= unix now)%Z /\
  (issuer = ""%string \/ Issuer c = issuer) /\ audience <> ""%string /\ audience ∈ Audience c.

Lemma if_none {A} (b : bool) (e : A) (rest : option A) :
  (if b then Some e else rest) = None <-> b = false /\ rest = None.
Proof. destruct b; intuition congruence. Qed.

Lemma if_some {A} (b : bool) (e : A) : (if b then None else Some e) = None <-> b = true.
Proof. destruct b; intuition congruence. Qed.

Lemma Validate_acceptable c now issuer audience leeway :
  (- 2 ^ 62 <= Expires c < 2 ^ 62)%Z -> (- 2 ^ 62 <= NotBefore c < 2 ^ 62)%Z ->
  (0 <= leeway <= max_duration)%Z ->
  Validate c now issuer audience leeway = None <-> acceptable c now issuer audience leeway.
Proof.
  intros He Hn Hl. unfold Validate, acceptable.
  assert (0 <= Z.quot leeway second < 2 ^ 62)%Z as Hq.
  { rewrite Z.quot_div_nonneg by (unfold second; lia). unfold max_duration, second in *.
    split; [apply Z.div_pos; lia|]. apply Z.div_lt_upper_bound; lia. }
  rewrite !wrap64_small by lia.
  rewrite !if_none, if_some, !andb_false_iff, !negb_false_iff, existsb_spec, bool_decide_eq_false.
  rewrite !bool_decide_eq_true, !Z.eqb_eq, !Z.ltb_ge.
  assert ((exists x, x ∈ Audience c /\ bool_decide (x = audience) = true) <-> audience ∈ Audience c) as ->.
  { split; [|intros Hx; exists audience; by rewrite bool_decide_eq_true].
    intros (x & Hx & Hb). apply bool_decide_eq_true in Hb. by subst. }
  tauto.
Qed.

Section Accept.
Context `{P : TokenPrims} (jd : string -> option KeySet.Document) (jc : string -> option Claims).

Lemma token_kid_accesstoken token kid :
  token_kid token = Ok kid <-> AccessToken.Kid token = Ok kid.
Proof using.
  unfold token_kid, AccessToken.Kid. split_match.
  - destruct (Paseto.Parse token) as [[[m s] f]|]; [|split; done].
    split_match; [split; congruence|]. destruct (json_parse_kid f); split; congruence.
  - destruct (Jws.Parse token) as [[[h p] s]|]; split; congruence.
Qed.

Lemma token_message_accesstoken pk token m :
  token_message pk token = Ok m <-> AccessToken.Verify pk token = Ok m.
Proof using.
  unfold token_message, AccessToken.Verify. split_match.
  - destruct (Paseto.Verify pk token "") as [[m' f]|]; split; congruence.
  - destruct (Jws.Verify pk token) as [[m' f]|]; split; congruence.
Qed.

Lemma key_total c v now resp kid : NewVerifier c = Ok v ->
  exists r v', key jd v now resp kid = Some (r, v') /\ cfg v' = cfg v.
Proof using.
  unfold NewVerifier. destruct (bool_decide (c_Audience c = ""%string)); [done|].
  set (c' := if (c_Leeway c =? 0)%Z then _ else c).
  assert (c_StaticKeys c' = c_StaticKeys c) as Hs by (unfold c'; by destruct (c_Leeway c =? 0)%Z).
  assert (c_KeysURL c' = c_KeysURL c) as Hurl by (unfold c'; by destruct (c_Leeway c =? 0)%Z).
  unfold key. rewrite Hurl. clearbody c'.
  destruct (bool_decide_reflect (c_KeysURL c = ""%string)) as [Hu|Hu]; cbn [andb].
  - destruct (bool_decide_reflect (c_StaticKeys c = None)) as [|Hn]; [done|].
    intros [= <-]. cbn [cfg cache]. rewrite Hs. destruct (c_StaticKeys c) as [ks|]; [|done].
    destruct (KeySet.Get ks kid) as [pk|]; eexists _, _; split; reflexivity.
  - intros [= <-]. cbn [cfg cache]. rewrite Hs. destruct (KeySet.Get_cached _ _ _ _ _) as [[r kc'] f].
    destruct (c_StaticKeys c) as [ks|]; [destruct (KeySet.Get ks kid)|]; eexists _, _; split; reflexivity.
Qed.
End Accept.

(** The SDK verifier never panics, and accepts a token exactly when the
    issuer's own codec names its key id, the verifier's keys hold that id, the
    issuer's own codec verifies the signature under that key, and the decoded
    claims have a known version and are acceptable: within the leeway of their
    time bounds, from the configured issuer, and for the configured audience. *)
Theorem sdk_Verify_spec `{P : TokenPrims} jd jc c v now resp token :
  NewVerifier c = Ok v ->
  (exists r v', Verify jd jc v now resp token = Some (r, v') /\ cfg v' = cfg v /\
    forall cl, r = Ok cl <->
      exists kid pk msg, AccessToken.Kid token = Ok kid /\
        fst <$> key jd v now resp kid = Some (Ok pk) /\
        AccessToken.Verify pk token = Ok msg /\ jc msg = Some cl /\
        (Version cl = 0 \/ Version cl = 1)%Z /\
        Validate cl now (c_Issuer (cfg v)) (c_Audience (cfg v)) (c_Leeway (cfg v)) = None) /\
  (forall cl, (- 2 ^ 62 <= Expires cl < 2 ^ 62)%Z -> (- 2 ^ 62 <= NotBefore cl < 2 ^ 62)%Z ->
     (0 <= c_Leeway (cfg v) <= max_duration)%Z ->
     Validate cl now (c_Issuer (cfg v)) (c_Audience (cfg v)) (c_Leeway (cfg v)) = None <->
     acceptable cl now (c_Issuer (cfg v)) (c_Audience (cfg v)) (c_Leeway (cfg v))).
Proof.
  intros Hv. split; [|intros cl ? ? ?; by apply Validate_acceptable].
  unfold Verify. destruct (token_kid token) as [kid|e] eqn:Hk.
  2: { exists (Err e), v. split; [done|]. split; [done|]. intros cl. split; [done|].
       intros (kid & pk & msg & Hk' & _). apply token_kid_accesstoken in Hk'. congruence. }
  destruct (key_total jd c v now resp kid Hv) as (r & v' & Hkey & Hcfg). rewrite Hkey.
  cbn [mbind option_bind]. eexists _, v'. split; [done|]. split; [done|]. intros cl. split.
  - destruct r as [pk|]; [|done]. cbn [mbind result_bind].
    destruct (token_message pk token) as [msg|] eqn:Hm; [|done]. cbn [mbind result_bind].
    unfold accept. destruct (jc msg) as [c0|] eqn:Hc; [|done].
    destruct (negb _ && negb _) eqn:Hver; [done|].
    destruct (Validate _ _ _ _ _) eqn:Hval; [done|]. intros [= <-]. exists kid, pk, msg.
    rewrite Hkey. split_and!; try done; [by apply token_kid_accesstoken|by apply token_message_accesstoken|].
    destruct (Z.eqb_spec (Version c0) 0); [by left|]. right. by destruct (Z.eqb_spec (Version c0) 1).
  - intros (kid' & pk & msg & Hk' & Hkey' & Hm & Hc & Hver & Hval).
    apply token_kid_accesstoken in Hk'. assert (kid' = kid) as -> by congruence.
    rewrite Hkey in Hkey'. simpl in Hkey'. injection Hkey' as ->. cbn [mbind result_bind].
    apply token_message_accesstoken in Hm. rewrite Hm. cbn [mbind result_bind]. unfold accept. rewrite Hc, Hval.
    by destruct Hver as [-> | ->].
Qed.
Definition sample_claims : Claims :=
  {| Issuer := "https://a"; Subject := "u"; Audience := ["billing"]; Expires := 1000; IssuedAt := 0;
     NotBefore := 0; TokenID := "t"; Session := "s"; Tenant := "acme"; Roles := []; Scope := "";
     Scopes := ∅; Realm := ""; IAL := 1; AMR := ["pwd"]; AuthTime := 0; Epoch := 1; Version := 1 |}%string.
Definition sample_config : Config :=
  {| c_Issuer := "https://a"; c_Audience := "billing"; c_KeysURL := "";
     c_StaticKeys := Some {["k1" := @ed_public Toy.prims Toy.sk]}; c_Leeway := 0 |}%string.
Definition sample_verifier : Verifier :=
  {| cfg := {| c_Issuer := "https://a"; c_Audience := "billing"; c_KeysURL := "";
               c_StaticKeys := c_StaticKeys sample_config; c_Leeway := (60 * second)%Z |}; cache := None |}.
Definition sample_token : string :=
  match @Paseto.Sign Toy.prims Toy.sk "claims" "k1" "" with Ok t => t | Err _ => "" end.

Lemma sdk_Verify_spec_witness : exists r v',
  @Verify Toy.prims sample_doc (fun _ => Some sample_claims) sample_verifier ((62135596800 + 1060) * second)
    KeySet.NoResponse sample_token = Some (r, v') /\ r = Ok sample_claims.
Proof.
  destruct (proj1 (@sdk_Verify_spec Toy.prims sample_doc (fun _ => Some sample_claims) sample_config
    sample_verifier ((62135596800 + 1060) * second) KeySet.NoResponse sample_token eq_refl))
    as (r & v' & H1 & _ & H3).
  exists r, v'. split; [exact H1|]. apply H3. exists "k1"%string, (@ed_public Toy.prims Toy.sk), "claims"%string.
  split; [reflexivity|]. split; [reflexivity|]. split; [reflexivity|]. split; [reflexivity|].
  split; [right; reflexivity|reflexivity].
Defined.
End SdkProps.
