(* ===== verification/Shared.v ===== *)
(** internal/shared: the error vocabulary (apperr), the authenticated principal
    (authctx/principal.go), which address is the caller's (authctx/clientip.go)
    and the identifier grammars (validate). *)

From Stdlib Require Import ZArith Lia Bool Ascii String.
From stdpp Require Import base gmap strings list sorting.
From S2P Require Import Prelude.
From S2P Require Import GoStrings.

(** ** apperr *)
Module Apperr.

Inductive Kind :=
| KindInternal | KindInvalidArgument | KindUnauthenticated | KindPermissionDenied
| KindNotFound | KindConflict | KindFailedPrecondition | KindRateLimited | KindUnavailable.

(** [wrapped] is the text of the wrapped error, if any. *)
Record Error := mkError {
  Code : string;
  Message : string;
  EKind : Kind;
  Details : gmap string string;
  wrapped : option string
}.

#[export] Instance Kind_eq_dec : EqDecision Kind.
Proof. solve_decision. Defined.
#[export] Instance Error_eq_dec : EqDecision Error.
Proof. solve_decision. Defined.

Definition E (kind : Kind) (code message : string) : Error :=
  {| Code := code; Message := message; EKind := kind; Details := ∅; wrapped := None |}.

Definition Wrap (e : Error) (err : string) : Error :=
  {| Code := Code e; Message := Message e; EKind := EKind e; Details := Details e; wrapped := Some err |}.

Definition With (e : Error) (k v : string) : Error :=
  {| Code := Code e; Message := Message e; EKind := EKind e;
     Details := <[k := v]> (Details e); wrapped := wrapped e |}.

(** The sorted "k=v" list of the details. *)
Definition details_text (m : gmap string string) : string :=
  let keys := merge_sort String.le (map fst (map_to_list m)) in
  String.concat ", " (map (fun k => k ++ "=" ++ default "" (m !! k))%string keys).

Definition Error_text (e : Error) : string :=
  (Code e ++ ": " ++ Message e ++
   (if bool_decide (Details e = ∅) then "" else " (" ++ details_text (Details e) ++ ")") ++
   (match wrapped e with None => "" | Some w => ": " ++ w end))%string.

Definition ErrInternal := E KindInternal "internal" "Internal error".
Definition ErrInvalidCredentials := E KindUnauthenticated "invalid_credentials" "Invalid username or password".
Definition ErrIdentityLocked := E KindUnauthenticated "account_locked" "Account is locked".
Definition ErrIdentityDisabled := E KindUnauthenticated "account_disabled" "Account is disabled".
Definition ErrMfaRequired := E KindUnauthenticated "mfa_required" "Second factor required".
Definition ErrMfaInvalid := E KindUnauthenticated "mfa_invalid" "Invalid or expired second factor".
Definition ErrTokenInvalid := E KindUnauthenticated "invalid_token" "Invalid or expired token".
Definition ErrRefreshInvalid := E KindUnauthenticated "invalid_refresh_token" "Invalid or expired refresh token".
Definition ErrRefreshReuse :=
  E KindUnauthenticated "refresh_token_reuse_detected" "Token family revoked. Re-authentication required.".
Definition ErrSessionRevoked := E KindUnauthenticated "session_revoked" "Session has been revoked".
Definition ErrUnauthenticated := E KindUnauthenticated "unauthenticated" "Authentication required".
Definition ErrDeviceChallenge := E KindUnauthenticated "device_challenge_invalid" "Invalid or expired device challenge".
Definition ErrPermissionDenied := E KindPermissionDenied "permission_denied" "Permission denied".
Definition ErrStepUpRequired := E KindPermissionDenied "step_up_required" "Step-up authentication required".
Definition ErrNoTenantSelected := E KindFailedPrecondition "no_tenant_selected" "No tenant selected".
Definition ErrInvalidArgument := E KindInvalidArgument "invalid_argument" "Invalid argument".
Definition ErrNotFound := E KindNotFound "not_found" "Not found".
Definition ErrConflict := E KindConflict "conflict" "Already exists".
Definition ErrRateLimited := E KindRateLimited "rate_limited" "Too many requests".
Definition ErrMailNotConfigured := E KindUnavailable "mail_not_configured" "This server cannot send email".
Definition ErrSnapshotUnavailable :=
  E KindUnavailable "snapshot_unavailable" "Authorization snapshot unavailable; try again shortly".

(** A [With] changes neither the code nor the kind a transport maps. *)
Lemma With_kind e k v : EKind (With e k v) = EKind e /\ Code (With e k v) = Code e.
Proof. done. Qed.
End Apperr.

(** ** authctx *)
Module Authctx.

Record Principal := {
  IdentityID : string;
  TenantID : string;
  TenantSlug : string;
  SessionID : string;
  Realm : string;
  Roles : list string;
  Scopes : gmap string string;
  AMR : list string;
  AuthTime : Time;
  IAL : Z;
  Epoch : Z;
  Audience : list string;
  Service : bool;
  Platform : bool;
  Token : string
}.

Definition FirstPartyAudience : string := "anubis".

Definition LinkBound (p : Principal) : bool := existsb (fun m => bool_decide (m = "link"%string)) (AMR p).

Definition LinkRecord (p : Principal) : string := default ""%string (Scopes p !! "_record").

Definition FirstParty (p : Principal) : bool :=
  existsb (fun a => bool_decide (a = FirstPartyAudience)) (Audience p).

Definition MayAskAbout (p : Principal) (subject : string) : bool :=
  if Service p || Platform p || bool_decide (SessionID p = ""%string) then true
  else bool_decide (subject = IdentityID p).

(** *** clientip.go: net and net/netip as the file uses them *)
Class NetIP := {
  addr : Type;
  pfx : Type;
  parse_addr : string -> option addr;
  parse_prefix : string -> option pfx;
  host_prefix : addr -> pfx;             (* PrefixFrom(a, a.BitLen()) *)
  unmap : addr -> addr;
  contains : pfx -> addr -> bool;
  split_host_port : string -> option string;  (* the host, unless it is an error *)
  trim_space : string -> string
}.

Section ClientIP.
Context `{N : NetIP}.

(** The named proxies; a nil trust is the empty one. *)
Definition ProxyTrust := list pfx.

Fixpoint add_proxies (t : ProxyTrust) (raws : list string) : option ProxyTrust :=
  match raws with
  | [] => Some t
  | raw :: rest =>
      let raw := trim_space raw in
      if bool_decide (raw = ""%string) then add_proxies t rest
      else match parse_prefix raw with
           | Some p => add_proxies (t ++ [p]) rest
           | None =>
               match parse_addr raw with
               | None => None
               | Some a => add_proxies (t ++ [host_prefix a]) rest
               end
           end
  end.

Definition NewProxyTrust (l : string) : option ProxyTrust := add_proxies [] (split_on "," l).

Definition Trusted (t : ProxyTrust) (ip : string) : bool :=
  match t with
  | [] => false
  | _ => match parse_addr ip with
         | None => false
         | Some a => existsb (fun n => contains n (unmap a)) t
         end
  end.

(** [strings.Trim(hop, "[]")] *)
Definition bracket (a : ascii) : bool := bool_decide (a = "["%char) || bool_decide (a = "]"%char).
Fixpoint trim_left_by (p : ascii -> bool) (s : string) : string :=
  match s with
  | EmptyString => EmptyString
  | String a s' => if p a then trim_left_by p s' else s
  end.
Definition trim_by (p : ascii -> bool) (s : string) : string :=
  let rev s := string_of_list_ascii (rev (list_ascii_of_string s)) in
  rev (trim_left_by p (rev (trim_left_by p s))).

Definition hop_host (part : string) : string :=
  let hop := trim_space part in
  let hop := default hop (split_host_port hop) in
  trim_by bracket hop.

(** The walk from the right; [hops] is the reversed list of parts. *)
Fixpoint walk_hops (t : ProxyTrust) (peer : string) (hops : list string) : string :=
  match hops with
  | [] => peer
  | part :: rest =>
      let hop := hop_host part in
      if bool_decide (hop = ""%string) then walk_hops t peer rest
      else match parse_addr hop with
           | None => peer
           | Some _ => if negb (Trusted t hop) then hop else walk_hops t peer rest
           end
  end.

Definition ClientIPFrom (peerAddr forwardedFor : string) (t : ProxyTrust) : string :=
  let peer := default peerAddr (split_host_port peerAddr) in
  if negb (Trusted t peer) || bool_decide (forwardedFor = ""%string) then peer
  else walk_hops t peer (rev (split_on "," forwardedFor)).

(** What a client writes on the left never overtakes an untrusted hop a trusted
    proxy appended on the right. *)
Lemma walk_hops_prepend t peer hops forged :
  walk_hops t peer hops <> peer -> walk_hops t peer (hops ++ forged) = walk_hops t peer hops.
Proof using.
  induction hops as [|part hops IH]; simpl; [done|].
  destruct (bool_decide (hop_host part = ""%string)); [done|].
  destruct (parse_addr (hop_host part)); [|done]. destruct (Trusted t (hop_host part)); simpl; auto.
Qed.
End ClientIP.
End Authctx.

(** ** validate *)
Module Validate.

Definition lower (a : ascii) : bool := in_range 97 122 a.
Definition digit (a : ascii) : bool := in_range 48 57 a.

(** ^[a-z0-9][a-z0-9_-]{1,62}$ *)
Definition ValidSlug (s : string) : bool :=
  match s with
  | EmptyString => false
  | String a r =>
      (lower a || digit a) &&
      str_forallb (fun c => lower c || digit c || bool_decide (c = "_"%char) || bool_decide (c = "-"%char)) r &&
      (1 <=? String.length r)%nat && (String.length r <=? 62)%nat
  end.

(** ^[a-z][a-z0-9_]{1,30}$ *)
Definition ValidCode (s : string) : bool :=
  match s with
  | EmptyString => false
  | String a r =>
      lower a && str_forallb (fun c => lower c || digit c || bool_decide (c = "_"%char)) r &&
      (1 <=? String.length r)%nat && (String.length r <=? 30)%nat
  end.

End Validate.

Module ClientIPProps.
Import Authctx.

(** The caller's address cannot be forged.  A peer that is no named proxy
    is the answer whatever header it sends; and behind a proxy, once the header
    yields an address of its own, nothing a client writes to its left changes it. *)
Theorem clientip_unforgeable `{N : NetIP} peerAddr real t :
  let peer := default peerAddr (split_host_port peerAddr) in
  (Trusted t peer = false -> ClientIPFrom peerAddr real t = peer) /\
  (real <> ""%string -> ClientIPFrom peerAddr real t <> peer ->
     forall forged, ClientIPFrom peerAddr (forged ++ "," ++ real)%string t = ClientIPFrom peerAddr real t).
Proof.
  cbv zeta. unfold ClientIPFrom. set (peer := default peerAddr (split_host_port peerAddr)). split.
  - by intros ->.
  - intros Hreal. destruct (Trusted t peer) eqn:Et; cbn [negb orb]; [|done].
    rewrite (bool_decide_eq_false_2 (real = ""%string)) by done. intros Hne forged.
    rewrite bool_decide_eq_false_2 by (by destruct forged).
    assert (split_on "," (forged ++ "," ++ real) = split_on "," forged ++ split_on "," real) as ->
      by apply (split_app ","%char).
    rewrite rev_app_distr. by apply walk_hops_prepend.
Qed.

(** Addresses are strings of digits and dots; 10.* is the proxies' network. *)
Module ToyIP.
#[export] Instance net : NetIP := {|
  addr := string;
  pfx := string;
  parse_addr s := if str_forallb (fun c => in_range 48 57 c || bool_decide (c = "."%char)) s then Some s else None;
  parse_prefix s := None;
  host_prefix a := a;
  unmap a := a;
  contains p a := String.prefix p a;
  split_host_port s := None;
  trim_space s := trim " " s
|}.
End ToyIP.
Import ToyIP.
Definition proxies : @ProxyTrust net := @cons string "10."%string nil.

Lemma clientip_unforgeable_witness :
  ClientIPFrom "10.0.0.1" "8.8.8.8, 10.0.0.2" proxies = "8.8.8.8"%string /\
  ClientIPFrom "10.0.0.1" ("1.2.3.4" ++ "," ++ "8.8.8.8, 10.0.0.2")%string proxies =
    ClientIPFrom "10.0.0.1" "8.8.8.8, 10.0.0.2" proxies.
Proof.
  split; [vm_compute; reflexivity|].
  apply (proj2 (clientip_unforgeable "10.0.0.1" "8.8.8.8, 10.0.0.2" proxies)); [discriminate|].
  vm_compute. discriminate.
Defined.
End ClientIPProps.
