(* ===== verification/Gate.v ===== *)
(** internal/gate/app/decision.go: the forward-auth decision, and the two
    transports that ask it (adapter/http/gate_handler.go,
    adapter/grpc/ext_authz.go).  The snapshot manager is an interface
    ([SnapshotSource]); the JSON codec is a parameter; clock readings are
    arguments, one per call the code makes. *)

From Stdlib Require Import ZArith Lia Bool Ascii String.
From stdpp Require Import base gmap strings list.
From S2P Require Import Prelude.
From S2P Require Import GoStrings.
From S2P Require Import Snapshot.
From S2P Require Import RoutePath.
From S2P Require Import Evaluator.
From S2P Require Import GrantedNodes.
From S2P Require Import Tokens.
From S2P Require Import Keyring.
From S2P Require Import Sdk.
From S2P Require Import Shared.

(** gateapp.Snapshots: all a decision needs from the snapshot manager, and what
    it relies on: what is called fresh was confirmed at most [max_age] ago. *)
Class SnapshotSource (S : Type) := {
  snaps_Get : S -> Time -> string -> option Data * bool;
  snaps_max_age : S -> Duration
}.
Class SnapshotSourceLaws (S : Type) (I : SnapshotSource S) : Prop := {
  fresh_age s now slug d : snaps_Get s now slug = (Some d, true) ->
    (time_sub now (d_LoadedAt d) <= snaps_max_age s)%Z;
  absent_stale s now slug b : snaps_Get s now slug = (None, b) -> b = false
}.

Module Decision.
Import Claims.

Record Request := {
  q_Tenant : string;
  q_Method : string;
  q_Path : string;
  q_Host : string;
  q_Token : string
}.

Inductive Outcome := Allow | Unauthenticated | Denied | Unavailable | BadRequest.

#[export] Instance Outcome_eq_dec : EqDecision Outcome.
Proof. solve_decision. Defined.

Record Decision := {
  d_Outcome : Outcome;
  d_Reason : string;
  d_Subject : string;
  d_Session : string;
  d_Scopes : gmap string string
}.

(** [Decision{Outcome: o, Reason: r}] *)
Definition refuse (o : Outcome) (r : string) : Decision :=
  {| d_Outcome := o; d_Reason := r; d_Subject := ""; d_Session := ""; d_Scopes := ∅ |}.

Record Decider (S : Type) := { issuer : string; ring : Keys.Ring; snaps : S }.
Arguments issuer {S}. Arguments ring {S}. Arguments snaps {S}.

Section Decide.
Context `{P : TokenPrims} (json_claims : string -> option Claims).
Context `{I : SnapshotSource St}.

(** [now] is the clock's reading in verify. *)
Definition verify (d : Decider St) (token : string) (snap : Data) (now : Time) : option Claims :=
  if bool_decide (token = ""%string) then None
  else match AccessToken.Kid token with
  | Err _ => None
  | Ok kid =>
      match Keys.Lookup (ring d) kid with
      | Err _ => None
      | Ok key =>
          if negb (bool_decide (Keys.Purpose key = Keys.PurposeAccess)) then None
          else match AccessToken.Verify (Keys.Public key) token with
          | Err _ => None
          | Ok msg =>
              match json_claims msg with
              | None => None
              | Some claims =>
                  let n := unix now in
                  if negb (bool_decide (Issuer claims = issuer d)) ||
                     negb (bool_decide (Tenant claims = d_TenantSlug snap)) ||
                     (negb (Expires claims =? 0)%Z && (Expires claims <? n)%Z) ||
                     (negb (NotBefore claims =? 0)%Z && (n <? wrap64 (NotBefore claims - 60))%Z)
                  then None
                  else if negb (Evaluator.SessionAlive snap (Session claims) (Epoch claims) (Subject claims))
                  then None
                  else Some claims
              end
          end
      end
  end.

(** What one scope binding contributes: [from] is "token" or "path.<param>". *)
Definition bound_target (claims : Claims) (params : gmap string string) (axis from : string)
    : option string :=
  if bool_decide (from = "token"%string) then Scopes claims !! axis
  else if String.prefix "path." from then params !! str_drop 5 from
  else None.

Definition targets_of (route : Route) (claims : Claims) (params : gmap string string) : gmap string string :=
  map_imap (bound_target claims params) (r_ScopeBindings route).

(** [now0] is the manager's clock, [now1] verify's, [now2] Evaluate's. *)
Definition Decide (d : Decider St) (now0 now1 now2 : Time) (req : Request) : Decision :=
  if bool_decide (q_Path req = ""%string) || bool_decide (q_Method req = ""%string)
  then refuse BadRequest "missing method or path"
  else match snaps_Get (snaps d) now0 (q_Tenant req) with
  | (None, _) => refuse Unavailable "authorization snapshot unavailable"
  | (Some snap, fresh) =>
      if negb fresh then refuse Unavailable "authorization snapshot unavailable"
      else match Normalize.NormalizePath (q_Path req) with
      | None => refuse Denied "ambiguous path"
      | Some normPath =>
          match Matcher.Match (d_Routes snap) (q_Host req) (q_Method req) normPath with
          | None => refuse Denied "no route policy"
          | Some (route, params) =>
              if bool_decide (r_Effect route = "public"%string) then refuse Allow "public route"
              else if bool_decide (r_Effect route = "deny"%string) then refuse Denied "denied by policy"
              else match verify d (q_Token req) snap now1 with
              | None => refuse Unauthenticated "authentication required"
              | Some claims =>
                  if existsb (fun m => bool_decide (m = "link"%string)) (AMR claims)
                  then refuse Denied "an access link does not pass the gate"
                  else if bool_decide (r_Effect route = "require_permission"%string) &&
                          negb (Evaluator.Evaluate snap (Subject claims) (r_PermissionKey route)
                                  (targets_of route claims params) now2)
                  then refuse Denied "permission denied"
                  else {| d_Outcome := Allow; d_Reason := "allowed"; d_Subject := Subject claims;
                          d_Session := Session claims; d_Scopes := Scopes claims |}
              end
          end
      end
  end.

End Decide.

(** ** adapter/http/gate_handler.go *)
Section Http.
Context (json_scopes : gmap string string -> string).

Record Response := { resp_code : Z; resp_headers : list (string * string); resp_body : string }.

(** [r.Header.Get] on the request. *)
Definition Headers := string -> string.

Definition gate_token (h : Headers) : string :=
  match Verifier.BearerToken (h "Authorization"%string) with
  | Some token => token
  | None =>
      let v := h "X-Original-Authorization"%string in
      if String.prefix "Bearer " v then str_drop 7 v else ""%string
  end.

Definition gate_request (h : Headers) : Request :=
  let tenant := h "X-Anubis-Tenant"%string in
  {| q_Tenant := if bool_decide (tenant = ""%string) then "impack" else tenant;
     q_Method := h "X-Original-Method"%string; q_Path := h "X-Original-URI"%string;
     q_Host := h "X-Original-Host"%string; q_Token := gate_token h |}.

(** The X-Anubis-* headers of an allow. *)
Definition identity_headers (d : Decision) : list (string * string) :=
  [("X-Anubis-Subject", d_Subject d); ("X-Anubis-Session", d_Session d)]%string ++
  (if bool_decide (d_Scopes d = ∅) then [] else [("X-Anubis-Scope"%string, json_scopes (d_Scopes d))]).

(** [http.Error] ends the body with a newline. *)
Definition newline : string := String (ascii_of_nat 10) EmptyString.
Definition http_Error (hs : list (string * string)) (reason : string) (c : Z) : Response :=
  {| resp_code := c; resp_headers := hs; resp_body := (reason ++ newline)%string |}.

Definition gate_response (loginURL : string) (d : Decision) : Response :=
  match d_Outcome d with
  | Allow => {| resp_code := 204; resp_headers := identity_headers d; resp_body := "" |}
  | Unauthenticated => http_Error [("Location"%string, loginURL)] (d_Reason d) 401
  | BadRequest => http_Error [] "missing X-Original-URI/X-Original-Method" 400
  | Denied | Unavailable => http_Error [] (d_Reason d) 403
  end.

(** GateHandler.Check *)
Definition Http_Check `{P : TokenPrims} json_claims `{I : SnapshotSource St} (d : Decider St)
    (loginURL : string) (now0 now1 now2 : Time) (h : Headers) : Response :=
  gate_response loginURL (Decide json_claims d now0 now1 now2 (gate_request h)).
End Http.

(** ** adapter/grpc/ext_authz.go *)
Section Grpc.
Context (json_scopes : gmap string string -> string).

Definition codeOK : Z := 0.
Definition codePermissionDenied : Z := 7.
Definition codeUnauthenticated : Z := 16.

(** Simple case folding onto lower-case ASCII letters: besides A-Z, the long s
    (U+017F) and the Kelvin sign (U+212A) fold to s and k.  Against an ASCII
    name this is exactly [strings.EqualFold]. *)
Fixpoint fold_case (s : string) : string :=
  match s with
  | EmptyString => EmptyString
  | String a r =>
      match r with
      | String b r2 =>
          if ((code a =? 197) && (code b =? 191))%Z then String "s" (fold_case r2)
          else match r2 with
               | String c r3 =>
                   if ((code a =? 226) && (code b =? 132) && (code c =? 170))%Z
                   then String "k" (fold_case r3)
                   else String (to_lower a) (fold_case r)
               | EmptyString => String (to_lower a) (fold_case r)
               end
      | EmptyString => String (to_lower a) EmptyString
      end
  end.

Definition fold_eq (s ascii_name : string) : bool := bool_decide (fold_case s = fold_case ascii_name).

(** The CheckRequest's HTTP attributes; [at_headers] lists the header map in
    the order one [range] over it takes. *)
Record Attributes := {
  at_method : string;
  at_path : string;
  at_host : string;
  at_headers : list (string * string)
}.

Definition header_get (hs : list (string * string)) (name : string) : string :=
  match find (fun kv => bool_decide (fst kv = name)) hs with
  | Some (_, v) => v
  | None => match find (fun kv => fold_eq (fst kv) name) hs with
            | Some (_, v) => v
            | None => ""%string
            end
  end.

Definition authz_token (hs : list (string * string)) : string :=
  let v := header_get hs "authorization" in
  if (7 <? String.length v)%nat && equal_fold (str_take 7 v) "bearer " then str_drop 7 v else ""%string.

Definition authz_request (a : Attributes) : Request :=
  let tenant := header_get (at_headers a) "x-anubis-tenant" in
  {| q_Tenant := if bool_decide (tenant = ""%string) then "impack" else tenant;
     q_Method := at_method a; q_Path := at_path a;
     q_Host := if bool_decide (at_host a = ""%string) then header_get (at_headers a) "host" else at_host a;
     q_Token := authz_token (at_headers a) |}.

Inductive CheckResponse :=
| OkResponse (status : Z) (headers : list (string * string)) (remove : list string)
| DeniedResponse (status : Z) (message : string) (http : Z) (headers : list (string * string)) (body : string).

Definition response (loginURL : string) (d : Decision) : CheckResponse :=
  match d_Outcome d with
  | Allow => OkResponse codeOK (identity_headers json_scopes d)
               ["x-anubis-subject"; "x-anubis-session"; "x-anubis-scope"]%string
  | Unauthenticated =>
      DeniedResponse codeUnauthenticated (d_Reason d) 401 [("Location"%string, loginURL)] (d_Reason d)
  | BadRequest => DeniedResponse codePermissionDenied (d_Reason d) 400 [] (d_Reason d)
  | Denied | Unavailable => DeniedResponse codePermissionDenied (d_Reason d) 403 [] (d_Reason d)
  end.

(** ExtAuthz.Check *)
Definition Grpc_Check `{P : TokenPrims} json_claims `{I : SnapshotSource St} (d : Decider St)
    (loginURL : string) (now0 now1 now2 : Time) (a : Attributes) : CheckResponse :=
  response loginURL (Decide json_claims d now0 now1 now2 (authz_request a)).
End Grpc.
End Decision.

(** ** app/granted_nodes_interactor.go *)
Module NodesInteractor.
Import Apperr Authctx.

(** authzreach.NodesInput *)
Record NodesInput := {
  in_Subject : string;
  in_Permission : string;
  in_Axis : string;
  in_Scopes : gmap string string
}.

Section Nodes.
Context `{I : SnapshotSource St}.

Definition Execute (snaps : St) (now0 now : Time) (principal : option Principal) (inp : NodesInput)
    : result Error GrantedNodes.Nodes :=
  match principal with
  | None => Err ErrUnauthenticated
  | Some p =>
      if LinkBound p
      then Err (With ErrPermissionDenied "hint" "an access link opens one record; it lists no places")
      else if bool_decide (in_Subject inp = ""%string) || bool_decide (in_Permission inp = ""%string) ||
              negb (Validate.ValidCode (in_Axis inp))
      then Err (With ErrInvalidArgument "hint" "subject, permission and axis are required")
      else if negb (MayAskAbout p (in_Subject inp))
      then Err (With ErrPermissionDenied "hint" "a person's sign-in can list only their own places")
      else if (16 <? size (in_Scopes inp))%nat then Err (With ErrInvalidArgument "scopes" "too many axes")
      else match find (fun axis => negb (Validate.ValidCode axis)) (map fst (map_to_list (in_Scopes inp))) with
      | Some axis => Err (With ErrInvalidArgument "axis" axis)
      | None =>
          match snaps_Get snaps now0 (TenantSlug p) with
          | (None, _) => Err ErrSnapshotUnavailable
          | (Some snap, fresh) =>
              if negb fresh then Err ErrSnapshotUnavailable
              else match GrantedNodes.GrantedNodes snap (in_Subject inp) (in_Permission inp) (in_Axis inp)
                           (in_Scopes inp) now with
              | (out, true) => Ok out
              | (_, false) => Err (With ErrNotFound "hint" "unknown subject or permission")
              end
          end
      end
  end.

Definition CanReach (snaps : St) (now0 now : Time) (tenantSlug identityID axis nodeID : string)
    : result Error bool :=
  match snaps_Get snaps now0 tenantSlug with
  | (None, _) => Err ErrSnapshotUnavailable
  | (Some snap, fresh) =>
      if negb fresh then Err ErrSnapshotUnavailable
      else Ok (GrantedNodes.Reaches snap identityID axis nodeID now)
  end.
End Nodes.
End NodesInteractor.
