(* ===== verification/SnapshotLoad.v ===== *)
(** internal/gate/adapter/postgres/snapshot_repository.go: LoadSnapshot, which
    assembles a tenant's frozen catalogue from the rows of one transaction.
    The rows each query returns (rquery/snapshot.go, rquery/shares.go) are the
    input; [None] is a query that failed. *)

From Stdlib Require Import ZArith Lia Bool Ascii String.
From stdpp Require Import base gmap strings list.
From S2P Require Import Prelude.
From S2P Require Import Snapshot.
From S2P Require Import Evaluator.

Module Load.
Import ScopeIdx Evaluator.

(** ** Rows *)

Record AxisRow := { ax_Code : string; ax_DefaultEffect : string }.
Record NodeRow := { nr_ID : string; nr_ParentID : option string }.
Record GrantRow := {
  gr_ID : string; gr_IdentityID : string; gr_RoleID : string; gr_SelfScoped : bool;
  gr_ValidFrom : Time; gr_ValidUntil : option Time
}.
Record GrantScopeRow := {
  gs_GrantID : string; gs_AxisCode : string; gs_ScopeNodeID : string;
  gs_Inherit : bool; gs_Exclude : bool
}.
Record ShareRow := {
  sr_ToIdentityID : string; sr_Record : string; sr_PermissionKeys : list string; sr_ValidUntil : Time
}.
Record RolePermissionRow := { rp_RoleID : string; rp_Key : string }.
Record PermissionRow := {
  pr_Key : string; pr_Risk : string; pr_MinAssurance : Z; pr_RequiresAmr : list string;
  pr_MaxAuthAgeSecs : Z
}.
Record IdentityRow := {
  ir_ID : string; ir_TokenEpoch : Z; ir_Status : string; ir_AssuranceLevel : Z; ir_Blocked : bool
}.
Record RouteRow := {
  rr_Priority : Z; rr_Effect : string; rr_PathPattern : string; rr_HostPattern : option string;
  rr_Methods : list string; rr_ScopeBindings : string; rr_PermissionKey : option string;
  rr_ApplicationSlug : string
}.

(** What the transaction's queries return. *)
Record Rows := {
  q_isolation : option string;
  q_version : option (option Z);
  q_axes : option (list AxisRow);
  q_nodes : option (list NodeRow);
  q_grants : option (list GrantRow);
  q_gscopes : option (list GrantScopeRow);
  q_shares : option (list ShareRow);
  q_rps : option (list RolePermissionRow);
  q_perms : option (list PermissionRow);
  q_idents : option (list IdentityRow);
  q_revoked : option (list string);
  q_routes : option (list RouteRow)
}.

Inductive Error := EBegin | EIsolation (iso : string) | EQuery.

(** ** Assembly *)

Definition strict_axes (axes : list AxisRow) : gmap string bool :=
  foldl (fun m a => if bool_decide (ax_DefaultEffect a = "deny"%string)
                    then <[ax_Code a := true]> m else m) ∅ axes.

Definition hierarchy (nodes : list NodeRow) : list ScopeNode :=
  map (fun n => {| sn_ID := nr_ID n; sn_Parent := default ""%string (nr_ParentID n) |}) nodes.

Definition grant_of_row (g : GrantRow) : Grant :=
  {| g_ID := gr_ID g; g_RoleID := gr_RoleID g; g_SelfScoped := gr_SelfScoped g;
     g_ValidFrom := gr_ValidFrom g; g_ValidUntil := default 0%Z (gr_ValidUntil g); g_Scopes := ∅ |}.

(** byGrant and order. *)
Definition by_grant (grants : list GrantRow) : gmap string Grant :=
  foldl (fun m g => <[gr_ID g := grant_of_row g]> m) ∅ grants.
Definition order_of (grants : list GrantRow) : gmap string string :=
  foldl (fun m g => <[gr_ID g := gr_IdentityID g]> m) ∅ grants.

Definition constraint_of_row (gs : GrantScopeRow) : ScopeConstraint :=
  {| sc_NodeID := gs_ScopeNodeID gs; sc_Inherit := gs_Inherit gs; sc_Exclude := gs_Exclude gs; sc_node := 0 |}.

(** [g.Scopes[axis] = append(g.Scopes[axis], c)] *)
Definition append_scope (gs : GrantScopeRow) (g : Grant) : Grant :=
  {| g_ID := g_ID g; g_RoleID := g_RoleID g; g_SelfScoped := g_SelfScoped g;
     g_ValidFrom := g_ValidFrom g; g_ValidUntil := g_ValidUntil g;
     g_Scopes := <[gs_AxisCode gs := default [] (g_Scopes g !! gs_AxisCode gs) ++ [constraint_of_row gs]]> (g_Scopes g) |}.

Definition add_scopes (m : gmap string Grant) (gscopes : list GrantScopeRow) : gmap string Grant :=
  foldl (fun m gs => match m !! gs_GrantID gs with
                     | Some g => <[gs_GrantID gs := append_scope gs g]> m
                     | None => m
                     end) m gscopes.

(** The loop over byGrant, in whatever order the map yields. *)
Definition push {A} (m : gmap string (list A)) (k : string) (a : A) : gmap string (list A) :=
  <[k := default [] (m !! k) ++ [a]]> m.

Definition grants_by_identity (order : gmap string string) (m : gmap string Grant) : gmap string (list Grant) :=
  foldl (fun acc '(id, g) => push acc (default ""%string (order !! id)) g) ∅ (map_to_list m).

Definition set_of (keys : list string) : gmap string bool := foldl (fun m k => <[k := true]> m) ∅ keys.

Definition share_of_row (s : ShareRow) : Share :=
  {| sh_Record := sr_Record s; sh_Permissions := set_of (sr_PermissionKeys s); sh_ValidUntil := sr_ValidUntil s |}.

Definition shares_by_identity (shares : list ShareRow) : gmap string (list Share) :=
  foldl (fun acc s => push acc (sr_ToIdentityID s) (share_of_row s)) ∅ shares.

Definition role_permissions (rps : list RolePermissionRow) : gmap string (gmap string bool) :=
  foldl (fun acc rp => <[rp_RoleID rp := <[rp_Key rp := true]> (default ∅ (acc !! rp_RoleID rp))]> acc) ∅ rps.

Definition permission_of_row (p : PermissionRow) : Permission :=
  {| p_Key := pr_Key p; p_MinAssurance := pr_MinAssurance p; p_RequiresAMR := pr_RequiresAmr p;
     p_MaxAuthAgeSecs := pr_MaxAuthAgeSecs p; p_Risk := pr_Risk p |}.
Definition permissions_of (perms : list PermissionRow) : gmap string Permission :=
  foldl (fun m p => <[pr_Key p := permission_of_row p]> m) ∅ perms.

Definition identity_of_row (i : IdentityRow) : Identity :=
  {| i_TokenEpoch := ir_TokenEpoch i;
     i_Blocked := ir_Blocked i || negb (bool_decide (ir_Status i = "active"%string));
     i_AssuranceLevel := ir_AssuranceLevel i |}.
Definition identities_of (idents : list IdentityRow) : gmap string Identity :=
  foldl (fun m i => <[ir_ID i := identity_of_row i]> m) ∅ idents.

(** [json_bindings] is json.Unmarshal into a map, whose error is ignored. *)
Definition route_of_row (json_bindings : string -> gmap string string) (r : RouteRow) : Route :=
  {| r_AppSlug := rr_ApplicationSlug r; r_Priority := rr_Priority r; r_Effect := rr_Effect r;
     r_PathPattern := rr_PathPattern r; r_HostPattern := default ""%string (rr_HostPattern r);
     r_Methods := rr_Methods r; r_PermissionKey := default ""%string (rr_PermissionKey r);
     r_ScopeBindings := json_bindings (rr_ScopeBindings r) |}.

(** A query whose failure is the function's. *)
Definition query {A} (q : option A) : result Error A :=
  match q with None => Err EQuery | Some a => Ok a end.

(** The catalogue before InternGrantScopes and the reads after it. *)
Definition assemble (json_bindings : string -> gmap string string) (tenantID tenantSlug : string)
    (loadedAt builtAt : Time) (version : Z) (axes : list AxisRow) (nodes : list NodeRow)
    (grants : list GrantRow) (gscopes : list GrantScopeRow) (shares : list ShareRow)
    (rps : list RolePermissionRow) (perms : list PermissionRow) (idents : list IdentityRow)
    (revoked : list string) (routes : list RouteRow) : Data :=
  {| d_TenantID := tenantID; d_TenantSlug := tenantSlug; d_Version := version;
     d_LoadedAt := loadedAt; d_BuiltAt := builtAt; d_StrictAxes := strict_axes axes;
     d_Scope := NewScopeIndex (hierarchy nodes);
     d_GrantsByIdentity := grants_by_identity (order_of grants) (add_scopes (by_grant grants) gscopes);
     d_SharesByIdentity := shares_by_identity shares; d_RolePermissions := role_permissions rps;
     d_Permissions := permissions_of perms; d_Identities := identities_of idents;
     d_RevokedSessions := set_of revoked; d_Routes := map (route_of_row json_bindings) routes |}.

Definition LoadSnapshot (json_bindings : string -> gmap string string) (began : bool)
    (tenantID tenantSlug : string) (loadedAt builtAt : Time) (q : Rows) : result Error Data :=
  if negb began then Err EBegin
  else match q_isolation q with
  | None => Err EQuery
  | Some iso =>
      if negb (bool_decide (iso = "repeatable read"%string)) then Err (EIsolation iso)
      else
        let version := match q_version q with Some (Some v) => v | _ => 0%Z end in
        axes ← query (q_axes q); nodes ← query (q_nodes q); grants ← query (q_grants q);
        gscopes ← query (q_gscopes q); shares ← query (q_shares q); rps ← query (q_rps q);
        perms ← query (q_perms q); idents ← query (q_idents q); revoked ← query (q_revoked q);
        routes ← query (q_routes q);
        Ok (InternGrantScopes (assemble json_bindings tenantID tenantSlug loadedAt builtAt version
              axes nodes grants gscopes shares rps perms idents revoked routes))
  end.

(** CatalogVersion: no row yet is version zero. *)
Definition CatalogVersion (q : option (option Z)) : option Z :=
  match q with None => None | Some None => Some 0%Z | Some (Some v) => Some v end.

(** ** What the assembled maps hold *)

Lemma foldl_insert_lookup {A B} (key : A -> string) (val : A -> B) (l : list A) (m : gmap string B) a :
  NoDup (map key l) -> a ∈ l -> foldl (fun m a => <[key a := val a]> m) m l !! key a = Some (val a).
Proof.
  revert m. induction l as [|b l IH]; intros m Hnd Ha; [by apply not_elem_of_nil in Ha|].
  simpl in Hnd. apply NoDup_cons in Hnd as [Hb Hnd]. simpl.
  apply elem_of_cons in Ha as [->|Ha]; [|by apply IH].
  clear IH. assert (forall (l : list A) (m : gmap string B), key b ∉ map key l -> m !! key b = Some (val b) ->
    foldl (fun m a => <[key a := val a]> m) m l !! key b = Some (val b)) as H.
  { clear. induction l as [|a l IH]; intros m Hn Hm; simpl; [done|].
    simpl in Hn. apply not_elem_of_cons in Hn as [Hne Hn]. apply IH; [done|].
    by rewrite lookup_insert_ne. }
  apply H; [done|apply lookup_insert_eq].
Qed.

Lemma foldl_insert_inv {A B} (key : A -> string) (val : A -> B) (l : list A) (m : gmap string B) k b :
  foldl (fun m a => <[key a := val a]> m) m l !! k = Some b ->
  m !! k = Some b \/ exists a, a ∈ l /\ key a = k /\ val a = b.
Proof.
  revert m. induction l as [|a l IH]; intros m H; simpl in H; [by left|].
  destruct (IH _ H) as [Hm|(a' & ? & ? & ?)].
  - apply lookup_insert_Some in Hm as [[<- <-]|[_ Hm]]; [right|by left].
    exists a. split; [left|done].
  - right. exists a'. split; [by right|done].
Qed.

(** A map built by inserting rows under distinct keys holds exactly the rows. *)
Lemma foldl_insert_spec {A B} (key : A -> string) (val : A -> B) (l : list A) k b :
  NoDup (map key l) ->
  foldl (fun m a => <[key a := val a]> m) (∅ : gmap string B) l !! k = Some b <-> exists a, a ∈ l /\ key a = k /\ val a = b.
Proof.
  intros Hnd. split.
  - intros H. apply foldl_insert_inv in H as [H|H]; [by rewrite lookup_empty in H|done].
  - intros (a & Ha & <- & <-). by apply foldl_insert_lookup.
Qed.

Lemma set_of_spec keys k : flag (set_of keys) k = true <-> k ∈ keys.
Proof.
  unfold set_of, flag. assert (forall m : gmap string bool, default false (foldl (fun m k => <[k := true]> m) m keys !! k) = true <->
    k ∈ keys \/ default false (m !! k) = true) as H.
  { induction keys as [|k0 keys IH]; intros m; simpl.
    - split; [by right|]. intros [H|H]; [by apply not_elem_of_nil in H|done].
    - rewrite IH. destruct (decide (k0 = k)) as [->|Hne].
      + rewrite lookup_insert_eq. simpl. set_solver.
      + rewrite lookup_insert_ne by done. rewrite elem_of_cons. intuition congruence. }
  rewrite H, lookup_empty. simpl. intuition congruence.
Qed.

Lemma strict_axes_spec axes axis :
  is_Some (strict_axes axes !! axis) <->
  exists a, a ∈ axes /\ ax_Code a = axis /\ ax_DefaultEffect a = "deny"%string.
Proof.
  unfold strict_axes. assert (forall m : gmap string bool, is_Some (foldl (fun m a => if bool_decide (ax_DefaultEffect a = "deny"%string)
      then <[ax_Code a := true]> m else m) m axes !! axis) <->
    (exists a, a ∈ axes /\ ax_Code a = axis /\ ax_DefaultEffect a = "deny"%string) \/ is_Some (m !! axis)) as H.
  { induction axes as [|a axes IH]; intros m; simpl.
    - split; [by right|]. intros [(? & Hin & _)|?]; [by apply not_elem_of_nil in Hin|done].
    - rewrite IH. setoid_rewrite elem_of_cons. case_bool_decide as Hd.
      + rewrite lookup_insert_is_Some'. naive_solver.
      + naive_solver. }
  rewrite H, lookup_empty. split; [|by left]. intros [?|[? ?]]; [done|discriminate].
Qed.

Lemma role_permissions_spec rps role key :
  flag (default ∅ (role_permissions rps !! role)) key = true <->
  exists rp, rp ∈ rps /\ rp_RoleID rp = role /\ rp_Key rp = key.
Proof.
  unfold role_permissions, flag.
  assert (forall acc : gmap string (gmap string bool), default false (default ∅ (foldl (fun acc rp =>
      <[rp_RoleID rp := <[rp_Key rp := true]> (default ∅ (acc !! rp_RoleID rp))]> acc) acc rps !! role) !! key) = true <->
    (exists rp, rp ∈ rps /\ rp_RoleID rp = role /\ rp_Key rp = key) \/
    default false (default ∅ (acc !! role) !! key) = true) as H.
  { induction rps as [|rp rps IH]; intros acc; simpl.
    - split; [by right|]. intros [(? & Hin & _)|?]; [by apply not_elem_of_nil in Hin|done].
    - rewrite IH. setoid_rewrite elem_of_cons.
      destruct (decide (rp_RoleID rp = role)) as [<-|Hr].
      + rewrite lookup_insert_eq. simpl. destruct (decide (rp_Key rp = key)) as [<-|Hk].
        * rewrite lookup_insert_eq. simpl. naive_solver.
        * rewrite lookup_insert_ne by done. naive_solver.
      + rewrite lookup_insert_ne by done. naive_solver. }
  rewrite H, lookup_empty. simpl. rewrite lookup_empty. simpl. naive_solver.
Qed.

Lemma push_spec {A} (m : gmap string (list A)) k a k' x :
  x ∈ default [] (push m k a !! k') <-> (k = k' /\ x = a) \/ x ∈ default [] (m !! k').
Proof.
  unfold push. destruct (decide (k = k')) as [->|Hne].
  - rewrite lookup_insert_eq. simpl. rewrite elem_of_app, list_elem_of_singleton. naive_solver.
  - rewrite lookup_insert_ne by done. naive_solver.
Qed.

Lemma shares_spec shares id s :
  s ∈ default [] (shares_by_identity shares !! id) <->
  exists r, r ∈ shares /\ sr_ToIdentityID r = id /\ share_of_row r = s.
Proof.
  unfold shares_by_identity. assert (forall acc : gmap string (list Share), s ∈ default [] (foldl (fun acc s =>
      push acc (sr_ToIdentityID s) (share_of_row s)) acc shares !! id) <->
    (exists r, r ∈ shares /\ sr_ToIdentityID r = id /\ share_of_row r = s) \/ s ∈ default [] (acc !! id)) as H.
  { induction shares as [|r shares IH]; intros acc; simpl.
    - split; [by right|]. intros [(? & Hin & _)|?]; [by apply not_elem_of_nil in Hin|done].
    - rewrite IH, push_spec. setoid_rewrite elem_of_cons. naive_solver. }
  rewrite H, lookup_empty. simpl. rewrite elem_of_nil. naive_solver.
Qed.

Lemma grants_by_identity_spec order m id g :
  g ∈ default [] (grants_by_identity order m !! id) <->
  exists gid, m !! gid = Some g /\ default ""%string (order !! gid) = id.
Proof.
  unfold grants_by_identity. assert (forall l (acc : gmap string (list Grant)), g ∈ default [] (foldl (fun acc '(gid, g) =>
      push acc (default ""%string (order !! gid)) g) acc l !! id) <->
    (exists gid, (gid, g) ∈ l /\ default ""%string (order !! gid) = id) \/ g ∈ default [] (acc !! id)) as H.
  { induction l as [|[gid g0] l IH]; intros acc; simpl.
    - split; [by right|]. intros [(? & Hin & _)|?]; [by apply not_elem_of_nil in Hin|done].
    - rewrite IH, push_spec. setoid_rewrite elem_of_cons. naive_solver. }
  rewrite H, lookup_empty. simpl. rewrite elem_of_nil. setoid_rewrite elem_of_map_to_list. naive_solver.
Qed.
(** ** The grants of the assembled catalogue *)

(** The rows binding grant [gid] on [axis], in query order. *)
Definition scope_rows (gscopes : list GrantScopeRow) (gid axis : string) : list GrantScopeRow :=
  List.filter (fun gs => bool_decide (gs_GrantID gs = gid) && bool_decide (gs_AxisCode gs = axis)) gscopes.

Lemma scope_rows_elem gscopes gid axis gs :
  gs ∈ scope_rows gscopes gid axis <-> gs ∈ gscopes /\ gs_GrantID gs = gid /\ gs_AxisCode gs = axis.
Proof.
  unfold scope_rows. rewrite list_elem_of_In, filter_In, <- list_elem_of_In, andb_true_iff.
  by rewrite !bool_decide_eq_true.
Qed.

(** [None] when no row binds the axis. *)
Definition bound (l : list ScopeConstraint) : option (list ScopeConstraint) :=
  match l with [] => None | _ => Some l end.

Definition append_scopes (g : Grant) (gscopes : list GrantScopeRow) (gid : string) : Grant :=
  foldl (fun g gs => append_scope gs g) g (List.filter (fun gs => bool_decide (gs_GrantID gs = gid)) gscopes).

Lemma add_scopes_lookup m gscopes gid :
  add_scopes m gscopes !! gid = (fun g => append_scopes g gscopes gid) <$> m !! gid.
Proof.
  unfold add_scopes, append_scopes. revert m. induction gscopes as [|gs gscopes IH]; intros m; simpl.
  - by destruct (m !! gid).
  - rewrite IH. destruct (bool_decide_reflect (gs_GrantID gs = gid)) as [->|Hne].
    + destruct (m !! gid) as [g|] eqn:E; [by rewrite lookup_insert_eq|by rewrite E].
    + destruct (m !! gs_GrantID gs); [by rewrite lookup_insert_ne|done].
Qed.

Lemma append_scopes_fields g gscopes gid :
  let g' := append_scopes g gscopes gid in
  g_ID g' = g_ID g /\ g_RoleID g' = g_RoleID g /\ g_SelfScoped g' = g_SelfScoped g /\
  g_ValidFrom g' = g_ValidFrom g /\ g_ValidUntil g' = g_ValidUntil g.
Proof.
  unfold append_scopes. revert g. induction (List.filter _ gscopes) as [|gs l IH]; intros g; simpl; [done|].
  destruct (IH (append_scope gs g)) as (-> & -> & -> & -> & ->). done.
Qed.

Lemma append_scopes_lookup g gscopes gid axis :
  g_Scopes (append_scopes g gscopes gid) !! axis =
    match map constraint_of_row (scope_rows gscopes gid axis) with
    | [] => g_Scopes g !! axis
    | l => Some (default [] (g_Scopes g !! axis) ++ l)
    end.
Proof.
  unfold append_scopes, scope_rows. revert g. induction gscopes as [|gs l IH]; intros g; simpl; [done|].
  destruct (bool_decide (gs_GrantID gs = gid)); simpl; [|apply IH].
  rewrite IH. cbn [g_Scopes append_scope].
  destruct (bool_decide_reflect (gs_AxisCode gs = axis)) as [->|Hne]; simpl.
  - rewrite lookup_insert_eq. simpl. destruct (map _ _); simpl; [done|]. by rewrite <- app_assoc.
  - by rewrite lookup_insert_ne.
Qed.

(** The grants the catalogue lists for an identity are its rows, each with the
    constraints its binding rows state. *)
Lemma assembled_grants grants gscopes id g :
  NoDup (map gr_ID grants) ->
  g ∈ default [] (grants_by_identity (order_of grants) (add_scopes (by_grant grants) gscopes) !! id) <->
  exists gr, gr ∈ grants /\ gr_IdentityID gr = id /\
    g = append_scopes (grant_of_row gr) gscopes (gr_ID gr).
Proof.
  intros Hnd. rewrite grants_by_identity_spec. setoid_rewrite add_scopes_lookup. split.
  - intros (gid & Hg & Ho). apply fmap_Some in Hg as (g0 & Hg0 & ->).
    apply (foldl_insert_spec gr_ID grant_of_row) in Hg0 as (gr & Hin & <- & <-); [|done].
    exists gr. split_and!; try done. rewrite <- Ho. unfold order_of.
    by rewrite (foldl_insert_lookup gr_ID gr_IdentityID grants ∅ gr).
  - intros (gr & Hin & <- & ->). exists (gr_ID gr). unfold by_grant, order_of.
    rewrite (foldl_insert_lookup gr_ID grant_of_row grants ∅ gr) by done.
    by rewrite (foldl_insert_lookup gr_ID gr_IdentityID grants ∅ gr).
Qed.

Lemma assembled_scopes gr gscopes axis :
  g_Scopes (append_scopes (grant_of_row gr) gscopes (gr_ID gr)) !! axis =
    bound (map constraint_of_row (scope_rows gscopes (gr_ID gr) axis)).
Proof.
  rewrite append_scopes_lookup. cbn [g_Scopes grant_of_row]. rewrite lookup_empty. simpl.
  by destruct (map _ _).
Qed.

(** ** The rules, stated on the rows *)

(** What the schema's keys guarantee of the rows. *)
Record rows_ok (nodes : list NodeRow) (grants : list GrantRow) (perms : list PermissionRow)
    (idents : list IdentityRow) : Prop := {
  ok_nodes : NoDup (map nr_ID nodes);
  ok_size : (Z.of_nat (length nodes) < 2 ^ 31)%Z;
  ok_grants : NoDup (map gr_ID grants);
  ok_perms : NoDup (map pr_Key perms);
  ok_idents : NoDup (map ir_ID idents)
}.

Definition row_live (gr : GrantRow) (now : Time) : Prop :=
  (gr_ValidFrom gr <= now)%Z /\
  match gr_ValidUntil gr with None => True | Some u => u = 0%Z \/ (now < u)%Z end.

(** Grant [gr]'s rows on [axis] admit the place [t]: some include covers it and
    no exclude does. *)
Definition rows_admit (nodes : list NodeRow) (gscopes : list GrantScopeRow) (gr : GrantRow)
    (axis t : string) : Prop :=
  (exists gs, gs ∈ gscopes /\ gs_GrantID gs = gr_ID gr /\ gs_AxisCode gs = axis /\
     gs_Exclude gs = false /\ covers (hierarchy nodes) t (constraint_of_row gs)) /\
  (forall gs, gs ∈ gscopes -> gs_GrantID gs = gr_ID gr -> gs_AxisCode gs = axis ->
     gs_Exclude gs = true -> ~ covers (hierarchy nodes) t (constraint_of_row gs)).

Definition row_grant_ok (axes : list AxisRow) (nodes : list NodeRow) (gscopes : list GrantScopeRow)
    (rps : list RolePermissionRow) (id permission : string) (targets : gmap string string) (now : Time)
    (gr : GrantRow) : Prop :=
  gr_IdentityID gr = id /\ row_live gr now /\
  (exists rp, rp ∈ rps /\ rp_RoleID rp = gr_RoleID gr /\ rp_Key rp = permission) /\
  (gr_SelfScoped gr = true -> targets !! "_owner" = Some id) /\
  (forall gs, gs ∈ gscopes -> gs_GrantID gs = gr_ID gr ->
     exists t, targets !! gs_AxisCode gs = Some t /\ known_node (hierarchy nodes) t /\
       rows_admit nodes gscopes gr (gs_AxisCode gs) t) /\
  (forall a, a ∈ axes -> ax_DefaultEffect a = "deny"%string ->
     exists gs, gs ∈ gscopes /\ gs_GrantID gs = gr_ID gr /\ gs_AxisCode gs = ax_Code a).

Definition row_share_ok (id permission record : string) (now : Time) (s : ShareRow) : Prop :=
  sr_ToIdentityID s = id /\ sr_Record s = record /\ (now < sr_ValidUntil s)%Z /\ permission ∈ sr_PermissionKeys s.

Definition rows_authorize (axes : list AxisRow) (nodes : list NodeRow) (grants : list GrantRow)
    (gscopes : list GrantScopeRow) (shares : list ShareRow) (rps : list RolePermissionRow)
    (perms : list PermissionRow) (idents : list IdentityRow) (id permission : string)
    (targets : gmap string string) (now : Time) : Prop :=
  (exists ir pr, ir ∈ idents /\ ir_ID ir = id /\ ir_Blocked ir = false /\ ir_Status ir = "active"%string /\
     pr ∈ perms /\ pr_Key pr = permission /\ (pr_MinAssurance pr <= ir_AssuranceLevel ir)%Z) /\
  ((exists gr, gr ∈ grants /\ row_grant_ok axes nodes gscopes rps id permission targets now gr) \/
   (exists record s, targets !! "_record" = Some record /\ s ∈ shares /\
      row_share_ok id permission record now s)).

Section Assembled.
Context (json_bindings : string -> gmap string string) (tenantID tenantSlug : string)
  (loadedAt builtAt : Time) (version : Z).
Context (axes : list AxisRow) (nodes : list NodeRow) (grants : list GrantRow)
  (gscopes : list GrantScopeRow) (shares : list ShareRow) (rps : list RolePermissionRow)
  (perms : list PermissionRow) (idents : list IdentityRow) (revoked : list string) (routes : list RouteRow).
Hypothesis Hok : rows_ok nodes grants perms idents.

Let d : Data := assemble json_bindings tenantID tenantSlug loadedAt builtAt version
  axes nodes grants gscopes shares rps perms idents revoked routes.

Lemma map_sn_ID_hierarchy : map sn_ID (hierarchy nodes) = map nr_ID nodes.
Proof using. unfold hierarchy. rewrite map_map. done. Qed.

Lemma assemble_loaded : loaded (hierarchy nodes) d.
Proof using Hok.
  split; [done|by rewrite map_sn_ID_hierarchy; apply Hok| |].
  - unfold hierarchy. rewrite length_map. apply Hok.
  - intros id g axis cs c Hg Hcs Hc.
    apply (assembled_grants grants gscopes id) in Hg as (gr & _ & _ & ->); [|apply Hok].
    rewrite assembled_scopes in Hcs. unfold bound in Hcs.
    destruct (map _ _) as [|c0 l] eqn:E; [done|]. injection Hcs as <-. rewrite <- E in Hc.
    by apply list_elem_of_fmap in Hc as (gs & -> & _).
Qed.

Lemma bound_Some l cs : bound l = Some cs <-> cs = l /\ l <> [].
Proof. destruct l; simpl; intuition congruence. Qed.

Lemma rows_admit_admits gr axis t :
  rows_admit nodes gscopes gr axis t <->
  admits (hierarchy nodes) t (map constraint_of_row (scope_rows gscopes (gr_ID gr) axis)).
Proof using.
  unfold rows_admit, admits. split.
  - intros [(gs & H1 & H2 & H3 & H4 & H5) He]. split.
    + exists (constraint_of_row gs). split_and!; try done. apply list_elem_of_fmap. exists gs.
      split; [done|]. by apply scope_rows_elem.
    + intros c (gs' & -> & Hin)%list_elem_of_fmap Hex. apply scope_rows_elem in Hin as (? & ? & ?). by apply He.
  - intros [(c & (gs & -> & Hin)%list_elem_of_fmap & Hx & Hc) He].
    apply scope_rows_elem in Hin as (? & ? & ?). split; [by exists gs|].
    intros gs' ? ? ? Hx'. apply He; [|done]. apply list_elem_of_fmap. exists gs'. split; [done|].
    by apply scope_rows_elem.
Qed.

Lemma scope_rows_nonempty gid axis :
  map constraint_of_row (scope_rows gscopes gid axis) <> [] <->
  exists gs, gs ∈ gscopes /\ gs_GrantID gs = gid /\ gs_AxisCode gs = axis.
Proof using.
  setoid_rewrite <- scope_rows_elem. destruct (scope_rows gscopes gid axis) as [|gs l]; simpl.
  - split; [done|]. intros [gs H]. by apply not_elem_of_nil in H.
  - split; [|done]. intros _. exists gs. left.
Qed.

Lemma row_grant_spec id permission targets now gr :
  grant_ok (hierarchy nodes) d id permission targets now (append_scopes (grant_of_row gr) gscopes (gr_ID gr)) /\
    gr_IdentityID gr = id <->
  row_grant_ok axes nodes gscopes rps id permission targets now gr.
Proof using.
  unfold grant_ok, row_grant_ok, live, axes_ok, strict_ok.
  destruct (append_scopes_fields (grant_of_row gr) gscopes (gr_ID gr)) as (_ & -> & -> & -> & ->).
  unfold role_confers. cbn [g_RoleID g_SelfScoped g_ValidFrom g_ValidUntil grant_of_row d_RolePermissions d assemble d_StrictAxes].
  rewrite role_permissions_spec.
  assert ((forall axis cs, g_Scopes (append_scopes (grant_of_row gr) gscopes (gr_ID gr)) !! axis = Some cs ->
      exists t, targets !! axis = Some t /\ known_node (hierarchy nodes) t /\ admits (hierarchy nodes) t cs) <->
    (forall gs, gs ∈ gscopes -> gs_GrantID gs = gr_ID gr ->
      exists t, targets !! gs_AxisCode gs = Some t /\ known_node (hierarchy nodes) t /\
        rows_admit nodes gscopes gr (gs_AxisCode gs) t)) as Hax.
  { setoid_rewrite assembled_scopes. setoid_rewrite bound_Some. setoid_rewrite rows_admit_admits. split.
    - intros H gs Hin Hid. apply (H _ _). split; [done|]. apply scope_rows_nonempty. eauto.
    - intros H axis cs [-> Hne]. apply scope_rows_nonempty in Hne as (gs & Hin & Hid & <-). by apply H. }
  assert ((forall axis, is_Some (strict_axes axes !! axis) ->
      is_Some (g_Scopes (append_scopes (grant_of_row gr) gscopes (gr_ID gr)) !! axis)) <->
    (forall a, a ∈ axes -> ax_DefaultEffect a = "deny"%string ->
      exists gs, gs ∈ gscopes /\ gs_GrantID gs = gr_ID gr /\ gs_AxisCode gs = ax_Code a)) as Hst.
  { setoid_rewrite strict_axes_spec. setoid_rewrite assembled_scopes.
    assert (forall l, is_Some (bound l) <-> l <> []) as Hb.
    { intros l. unfold is_Some. setoid_rewrite bound_Some. naive_solver. }
    setoid_rewrite Hb. setoid_rewrite scope_rows_nonempty. naive_solver. }
  rewrite Hax, Hst. unfold row_live. destruct (gr_ValidUntil gr); simpl; intuition.
Qed.

Lemma gates_rows id permission :
  gates_open d id permission <->
  exists ir pr, ir ∈ idents /\ ir_ID ir = id /\ ir_Blocked ir = false /\ ir_Status ir = "active"%string /\
     pr ∈ perms /\ pr_Key pr = permission /\ (pr_MinAssurance pr <= ir_AssuranceLevel ir)%Z.
Proof using Hok.
  unfold gates_open. cbn [d assemble d_Identities d_Permissions].
  setoid_rewrite (foldl_insert_spec ir_ID identity_of_row idents id _ (ok_idents _ _ _ _ Hok)).
  setoid_rewrite (foldl_insert_spec pr_Key permission_of_row perms permission _ (ok_perms _ _ _ _ Hok)).
  split.
  - intros (i & p & (ir & Hi & Hid & <-) & Hb & (pr & Hp & Hk & <-) & Hle). simpl in *.
    apply orb_false_iff in Hb as [Hb Hs]. apply negb_false_iff, bool_decide_eq_true in Hs. eauto 15.
  - intros (ir & pr & Hi & Hid & Hb & Hs & Hp & Hk & Hle).
    exists (identity_of_row ir), (permission_of_row pr). split_and!; eauto.
    simpl. rewrite Hb. simpl. by rewrite bool_decide_eq_true_2.
Qed.

Lemma shares_rows id permission record now :
  (exists s, s ∈ default [] (d_SharesByIdentity d !! id) /\ share_ok permission record now s) <->
  (exists s, s ∈ shares /\ row_share_ok id permission record now s).
Proof using.
  cbn [d assemble d_SharesByIdentity]. setoid_rewrite shares_spec. unfold share_ok, row_share_ok. split.
  - intros (s & (r & Hr & Hid & <-) & H1 & H2 & H3). simpl in *. apply set_of_spec in H3. eauto 10.
  - intros (r & Hr & Hid & H1 & H2 & H3). exists (share_of_row r). split; [eauto|]. simpl.
    split_and!; try done. by apply set_of_spec.
Qed.

Lemma authorizes_rows id permission targets now :
  authorizes (hierarchy nodes) d id permission targets now <->
  rows_authorize axes nodes grants gscopes shares rps perms idents id permission targets now.
Proof using Hok.
  unfold authorizes, rows_authorize. rewrite gates_rows.
  assert ((exists g, g ∈ grants_of d id /\ grant_ok (hierarchy nodes) d id permission targets now g) <->
    (exists gr, gr ∈ grants /\ row_grant_ok axes nodes gscopes rps id permission targets now gr)) as ->.
  { unfold grants_of. cbn [d assemble d_GrantsByIdentity].
    setoid_rewrite (assembled_grants grants gscopes id _ (ok_grants _ _ _ _ Hok)).
    setoid_rewrite <- row_grant_spec. naive_solver. }
  assert ((exists record s, targets !! "_record" = Some record /\ s ∈ default [] (d_SharesByIdentity d !! id) /\
      share_ok permission record now s) <->
    (exists record s, targets !! "_record" = Some record /\ s ∈ shares /\ row_share_ok id permission record now s)) as ->.
  { pose proof (fun record => shares_rows id permission record now) as H. split.
    - intros (record & s & Hr & Hs). destruct (proj1 (H record)) as (s' & Hs'); [by exists s|]. by exists record, s'.
    - intros (record & s & Hr & Hs). destruct (proj2 (H record)) as (s' & Hs'); [by exists s|]. by exists record, s'. }
  done.
Qed.
End Assembled.
End Load.

Module LoadProps.
Import ScopeIdx Evaluator Load.

(** C1: what the gate decides from the database.  On a repeatable-read
    transaction whose queries all succeed, LoadSnapshot returns a catalogue on
    which Evaluate allows exactly what the rows authorize: an unblocked active
    identity, a permission within its assurance, and either a live grant whose
    role confers the permission, whose bound axes all admit their targets
    (an include covers it, no exclude does) and which addresses every strict
    axis, or a live share of the record.  Under any other isolation level, or
    when any query fails, no catalogue is returned. *)
Theorem LoadSnapshot_decides jb tenantID slug la ba v axes nodes grants gscopes shares rps perms idents revoked routes :
  rows_ok nodes grants perms idents ->
  let q := {| q_isolation := Some "repeatable read"%string; q_version := v; q_axes := Some axes;
              q_nodes := Some nodes; q_grants := Some grants; q_gscopes := Some gscopes;
              q_shares := Some shares; q_rps := Some rps; q_perms := Some perms;
              q_idents := Some idents; q_revoked := Some revoked; q_routes := Some routes |} in
  (exists d, LoadSnapshot jb true tenantID slug la ba q = Ok d /\
     (forall id permission targets now,
        Evaluate d id permission targets now = true <->
        rows_authorize axes nodes grants gscopes shares rps perms idents id permission targets now) /\
     (forall session epoch id, SessionAlive d session epoch id = true <->
        session ∉ revoked /\ exists ir, ir ∈ idents /\ ir_ID ir = id /\ ir_Blocked ir = false /\
          ir_Status ir = "active"%string /\ ir_TokenEpoch ir = epoch)) /\
  (forall q' began d, LoadSnapshot jb began tenantID slug la ba q' = Ok d ->
     began = true /\ q_isolation q' = Some "repeatable read"%string /\
     is_Some (q_grants q') /\ is_Some (q_gscopes q') /\ is_Some (q_axes q') /\ is_Some (q_idents q') /\
     is_Some (q_revoked q')).
Proof.
  intros Hok q. split.
  - eexists. split; [reflexivity|]. split.
    + intros id permission targets now.
      rewrite (Evaluate_authorizes_aux (hierarchy nodes)) by (by apply assemble_loaded).
      by apply authorizes_rows.
    + intros session epoch id. unfold SessionAlive.
      cbn [InternGrantScopes assemble d_RevokedSessions d_Identities].
      rewrite <- (set_of_spec revoked session). destruct (flag (set_of revoked) session).
      { split; [done|]. by intros [? _]. }
      pose proof (foldl_insert_spec ir_ID identity_of_row idents id) as H.
      destruct (identities_of idents !! id) as [i|] eqn:E.
      * apply (H i) in E as (ir & Hin & Hid & <-); [|apply Hok]. simpl.
        split.
        -- destruct (ir_Blocked ir) eqn:Hb; [done|]. simpl.
           destruct (bool_decide_reflect (ir_Status ir = "active"%string)); [|done]. simpl.
           intros He%Z.eqb_eq. split; [done|]. eauto 10.
        -- intros [_ (ir' & Hin' & Hid' & Hb & Hs & He)].
           assert (identity_of_row ir' = identity_of_row ir) as Heq.
           { apply (inj Some). pose proof (ok_idents _ _ _ _ Hok) as Hnd.
             rewrite <- (foldl_insert_lookup ir_ID identity_of_row idents ∅ ir Hnd Hin).
             rewrite <- (foldl_insert_lookup ir_ID identity_of_row idents ∅ ir' Hnd Hin').
             congruence. }
           apply (f_equal i_Blocked) in Heq as Hbl. apply (f_equal i_TokenEpoch) in Heq as Hep.
           simpl in Hbl, Hep. rewrite <- Hbl, <- Hep, Hb, Hs. simpl. by apply Z.eqb_eq.
      * split; [done|]. intros [_ (ir & Hin & Hid & _)]. exfalso.
        assert (identities_of idents !! id = Some (identity_of_row ir)) as E'; [|congruence].
        apply H; [apply Hok|]. eauto.
  - intros q' began d. unfold LoadSnapshot, query. destruct began; [|done]. cbn [negb].
    destruct (q_isolation q') as [iso|]; [|done].
    destruct (bool_decide_reflect (iso = "repeatable read"%string)) as [->|]; [|done]. cbn [negb].
    destruct (q_axes q'), (q_nodes q'), (q_grants q'), (q_gscopes q'), (q_shares q'), (q_rps q'),
      (q_perms q'), (q_idents q'), (q_revoked q'), (q_routes q'); try done.
Qed.

Definition w_nodes : list NodeRow :=
  [ {| nr_ID := "hq"; nr_ParentID := None |}; {| nr_ID := "jakarta"; nr_ParentID := Some "hq" |} ]%string.
Definition w_grants : list GrantRow :=
  [ {| gr_ID := "g1"; gr_IdentityID := "ann"; gr_RoleID := "clerk"; gr_SelfScoped := false;
       gr_ValidFrom := 10; gr_ValidUntil := None |} ]%string.
Definition w_scopes : list GrantScopeRow :=
  [ {| gs_GrantID := "g1"; gs_AxisCode := "org"; gs_ScopeNodeID := "jakarta"; gs_Inherit := true; gs_Exclude := false |} ]%string.
Definition w_perms : list PermissionRow :=
  [ {| pr_Key := "read"; pr_Risk := "low"; pr_MinAssurance := 1; pr_RequiresAmr := []; pr_MaxAuthAgeSecs := 0 |} ]%string.
Definition w_idents : list IdentityRow :=
  [ {| ir_ID := "ann"; ir_TokenEpoch := 1; ir_Status := "active"; ir_AssuranceLevel := 1; ir_Blocked := false |} ]%string.
Definition w_rps : list RolePermissionRow := [ {| rp_RoleID := "clerk"; rp_Key := "read" |} ]%string.
Definition w_axes : list AxisRow := [ {| ax_Code := "org"; ax_DefaultEffect := "deny" |} ]%string.

Lemma w_ok : rows_ok w_nodes w_grants w_perms w_idents.
Proof.
  split; [|vm_compute; reflexivity|..]; apply (bool_decide_unpack _); vm_compute; exact I.
Defined.

(** The grant reaches jakarta and not its parent. *)
Lemma LoadSnapshot_decides_witness :
  rows_authorize w_axes w_nodes w_grants w_scopes [] w_rps w_perms w_idents "ann" "read" {["org" := "jakarta"]} 20 /\
  ~ rows_authorize w_axes w_nodes w_grants w_scopes [] w_rps w_perms w_idents "ann" "read" {["org" := "hq"]} 20.
Proof.
  pose proof (LoadSnapshot_decides (fun _ => ∅) "t" "acme" 15 15 None w_axes w_nodes w_grants w_scopes [] w_rps
    w_perms w_idents [] [] w_ok) as [(d & Hd & Hev & _) _].
  assert (d = match LoadSnapshot (fun _ => ∅) true "t" "acme" 15 15
    {| q_isolation := Some "repeatable read"%string; q_version := None; q_axes := Some w_axes;
       q_nodes := Some w_nodes; q_grants := Some w_grants; q_gscopes := Some w_scopes;
       q_shares := Some []; q_rps := Some w_rps; q_perms := Some w_perms;
       q_idents := Some w_idents; q_revoked := Some []; q_routes := Some [] |} with Ok d' => d' | Err _ => d end) as Hd'
    by (rewrite Hd; reflexivity).
  split.
  - apply Hev. rewrite Hd'. vm_compute. reflexivity.
  - intros H. apply Hev in H. rewrite Hd' in H. vm_compute in H. discriminate H.
Defined.
End LoadProps.
