(* ===== verification/GateManager.v ===== *)
(** internal/platform/revocation: the per-tenant revocation broker, and
    internal/gate/app: the snapshot manager (manager.go) with the announcement
    of what a swap revoked (revocations.go).

    Go maps are [gmap]s and pointers are addresses beside the value they point
    to, so that touch's pointer comparison is the code's.  Each clock reading
    and each answer of the loader is an argument of the step that makes it.
    Metrics and logging are not modelled. *)

From Stdlib Require Import ZArith Lia Bool Ascii String.
From stdpp Require Import base gmap strings list.
From S2P Require Import Prelude.
From S2P Require Import Snapshot.
From S2P Require Import Evaluator.
From S2P Require Import Gate.

(** ** internal/platform/revocation *)
Module Revocation.

Record Event := {
  ev_Kind : string;
  ev_TenantSlug : string;
  ev_SessionID : string;
  ev_IdentityID : string;
  ev_Epoch : Z;
  ev_ObservedAt : Time
}.

Definition KindSession : string := "session".
Definition KindEpoch : string := "epoch".
Definition subBuffer : nat := 64.

(** A channel: what is buffered, and whether it is closed. *)
Record Chan := { ch_buf : list Event; ch_closed : bool }.

(** [subs] maps a tenant to its subscriptions; subscription ids name their
    channels.  The inner map is absent when it is empty. *)
Record Broker := {
  subs : gmap string (gset Z);
  next : Z;
  dropped : Z;
  chans : gmap Z Chan
}.

Definition NewBroker : Broker := {| subs := ∅; next := 0; dropped := 0; chans := ∅ |}.

Definition subs_of (b : Broker) (slug : string) : gset Z := default ∅ (subs b !! slug).

(** The new subscription's id. *)
Definition Subscribe (b : Broker) (slug : string) : Z * Broker :=
  let id := (next b + 1)%Z in
  (id, {| subs := <[slug := {[id]} ∪ subs_of b slug]> (subs b); next := id; dropped := dropped b;
          chans := <[id := {| ch_buf := []; ch_closed := false |}]> (chans b) |}).

(** The cancel function's critical section, then its close; [once] is the
    caller's [sync.Once]. *)
Definition deregister (b : Broker) (slug : string) (id : Z) : Broker :=
  match subs b !! slug with
  | None => b
  | Some m =>
      let m := m ∖ {[id]} in
      {| subs := if bool_decide (m = ∅) then delete slug (subs b) else <[slug := m]> (subs b);
         next := next b; dropped := dropped b; chans := chans b |}
  end.
Definition close (b : Broker) (id : Z) : Broker :=
  {| subs := subs b; next := next b; dropped := dropped b;
     chans := alter (fun c => {| ch_buf := ch_buf c; ch_closed := true |}) id (chans b) |}.

Definition Subscribers (b : Broker) : nat :=
  foldr (fun '(_, m) n => (size m + n)%nat) 0%nat (map_to_list (subs b)).
Definition SubscribersFor (b : Broker) (slug : string) : nat := size (subs_of b slug).
Definition Dropped (b : Broker) : Z := dropped b.

(** One iteration of Publish's loop: a send on a closed channel panics ([None]),
    a full buffer drops the event. *)
Definition offer (ev : Event) (b : Broker) (id : Z) : option Broker :=
  match chans b !! id with
  | None => None
  | Some c =>
      if ch_closed c then None
      else if (length (ch_buf c) <? subBuffer)%nat
      then Some {| subs := subs b; next := next b; dropped := dropped b;
                   chans := <[id := {| ch_buf := ch_buf c ++ [ev]; ch_closed := false |}]> (chans b) |}
      else Some {| subs := subs b; next := next b; dropped := dropped b + 1; chans := chans b |}
  end.

Fixpoint offer_all (ev : Event) (b : Broker) (ids : list Z) : option Broker :=
  match ids with
  | [] => Some b
  | id :: rest => b ← offer ev b id; offer_all ev b rest
  end.

Definition Publish (b : Broker) (ev : Event) : option Broker :=
  offer_all ev b (elements (subs_of b (ev_TenantSlug ev))).

(** A reader takes the oldest buffered event. *)
Definition receive (b : Broker) (id : Z) : Broker :=
  {| subs := subs b; next := next b; dropped := dropped b;
     chans := alter (fun c => {| ch_buf := tail (ch_buf c); ch_closed := ch_closed c |}) id (chans b) |}.

(** What any number of goroutines may do to the broker, one critical section
    at a time. *)
Inductive step : Broker -> Broker -> Prop :=
| step_subscribe b slug : step b (snd (Subscribe b slug))
| step_deregister b slug id : step b (deregister b slug id)
| step_close b id : (forall slug, id ∉ subs_of b slug) -> step b (close b id)
| step_publish b ev b' : Publish b ev = Some b' -> step b b'
| step_receive b id : step b (receive b id).

(** Every subscription has an open channel whose buffer is within bounds, and
    ids are never reused. *)
Record wf (b : Broker) : Prop := {
  wf_open slug id : id ∈ subs_of b slug -> exists c, chans b !! id = Some c /\ ch_closed c = false;
  wf_buf id c : chans b !! id = Some c -> (length (ch_buf c) <= subBuffer)%nat;
  wf_next id : is_Some (chans b !! id) -> (id <= next b)%Z
}.

Lemma subs_of_insert b slug m slug' n d cs :
  subs_of {| subs := <[slug := m]> (subs b); next := n; dropped := d; chans := cs |} slug' =
    if decide (slug = slug') then m else subs_of b slug'.
Proof.
  unfold subs_of. simpl. case_decide as Hd; [subst; by rewrite lookup_insert_eq|by rewrite lookup_insert_ne].
Qed.

Lemma wf_new : wf NewBroker.
Proof.
  split.
  - intros slug id. unfold subs_of. simpl. rewrite lookup_empty. set_solver.
  - intros id c. simpl. by rewrite lookup_empty.
  - intros id. simpl. rewrite lookup_empty. by intros [? ?].
Qed.

Lemma wf_subscribe b slug : wf b -> wf (snd (Subscribe b slug)).
Proof.
  intros [Ho Hb Hn]. split; simpl.
  - intros slug' id. rewrite subs_of_insert. intros Hin.
    destruct (decide (id = next b + 1)%Z) as [->|Hne].
    + rewrite lookup_insert_eq. eauto.
    + rewrite lookup_insert_ne by done. case_decide; [subst|by eapply Ho].
      apply (Ho slug'). set_solver.
  - intros id c. rewrite lookup_insert_Some. intros [[_ <-]|[_ Hc]]; [simpl; lia|by eapply Hb].
  - intros id. rewrite lookup_insert_is_Some'. intros [<-|Hc]; [lia|]. apply Hn in Hc. lia.
Qed.

Lemma subs_of_deregister b slug id slug' :
  subs_of (deregister b slug id) slug' ⊆ subs_of b slug'.
Proof.
  unfold deregister. destruct (subs b !! slug) as [m|] eqn:E; [|done].
  case_bool_decide as Hm.
  - unfold subs_of. simpl. destruct (decide (slug = slug')) as [<-|Hne].
    + rewrite lookup_delete_eq. set_solver.
    + by rewrite lookup_delete_ne.
  - rewrite subs_of_insert. case_decide as Hd; [|done]. subst slug'. unfold subs_of. rewrite E. simpl. set_solver.
Qed.

Lemma wf_deregister b slug id : wf b -> wf (deregister b slug id).
Proof.
  intros Hwf. assert (chans (deregister b slug id) = chans b /\ next (deregister b slug id) = next b) as [Hc Hn].
  { unfold deregister. by destruct (subs b !! slug). }
  split; rewrite ?Hc, ?Hn; [|apply Hwf..].
  intros slug' id' Hin. apply (wf_open b Hwf slug'). by apply (subs_of_deregister b slug id).
Qed.

Lemma wf_alter b id f :
  wf b ->
  (forall c, (length (ch_buf (f c)) <= length (ch_buf c))%nat) ->
  (forall c, ch_closed (f c) = ch_closed c) \/ (forall slug, id ∉ subs_of b slug) ->
  wf {| subs := subs b; next := next b; dropped := dropped b; chans := alter f id (chans b) |}.
Proof.
  intros [Ho Hb Hn] Hlen Hcl. split; simpl.
  - intros slug id' Hin. destruct (Ho slug id' Hin) as (c & Hc & Hcc).
    destruct (decide (id = id')) as [->|Hne].
    + rewrite lookup_alter_eq, Hc. simpl. eexists. split; [done|].
      destruct Hcl as [Hcl|Hcl]; [by rewrite Hcl|by destruct (Hcl slug)].
    + rewrite lookup_alter_ne by done. eauto.
  - intros id' c. rewrite lookup_alter_Some. intros [(-> & c0 & Hc0 & ->)|[_ Hc]]; [|by eapply Hb].
    etrans; [apply Hlen|by eapply Hb].
  - intros id'. rewrite lookup_alter_is_Some. apply Hn.
Qed.

Lemma offer_total ev b id slug : wf b -> id ∈ subs_of b slug ->
  exists b', offer ev b id = Some b' /\ wf b' /\ subs b' = subs b.
Proof.
  intros [Ho Hb Hn] Hin. destruct (Ho slug id Hin) as (c & Hc & Hcl).
  unfold offer. rewrite Hc, Hcl. destruct (Nat.ltb_spec (length (ch_buf c)) subBuffer) as [Hlt|Hge].
  2: { eexists. split; [done|]. split; [|done]. by split. }
  eexists. split; [done|]. split; [|done]. split; simpl.
  - intros slug' id' Hin'. destruct (decide (id = id')) as [->|Hne].
    + rewrite lookup_insert_eq. eauto.
    + rewrite lookup_insert_ne by done. by apply (Ho slug').
  - intros id' c'. rewrite lookup_insert_Some. intros [[_ <-]|[_ ?]]; [|by eapply Hb].
    simpl. rewrite length_app. simpl. lia.
  - intros id'. rewrite lookup_insert_is_Some'. intros [<-|?]; [apply Hn; eauto|by apply Hn].
Qed.

Lemma offer_all_total ev slug ids b : wf b -> (forall id, id ∈ ids -> id ∈ subs_of b slug) ->
  exists b', offer_all ev b ids = Some b' /\ wf b' /\ subs b' = subs b.
Proof.
  revert b. induction ids as [|id ids IH]; intros b Hwf Hin; simpl; [by eexists|].
  destruct (offer_total ev b id slug Hwf (Hin id (list_elem_of_here _ _))) as (b1 & H1 & Hwf1 & Hs1).
  rewrite H1. cbn [mbind option_bind].
  destruct (IH b1 Hwf1) as (b2 & H2 & Hwf2 & Hs2).
  { intros id' Hid'. unfold subs_of. rewrite Hs1. apply Hin. by right. }
  exists b2. split_and!; [done|done|congruence].
Qed.

Lemma publish_total b ev : wf b -> exists b', Publish b ev = Some b' /\ wf b' /\ subs b' = subs b.
Proof.
  intros Hwf. apply (offer_all_total ev (ev_TenantSlug ev)); [done|]. intros id. by rewrite elem_of_elements.
Qed.

Lemma step_wf b b' : wf b -> step b b' -> wf b'.
Proof.
  intros Hwf Hstep. destruct Hstep as [b slug|b slug id|b id Hid|b ev b' Hp|b id].
  - by apply wf_subscribe.
  - by apply wf_deregister.
  - apply wf_alter; [done|done|by right].
  - destruct (publish_total b ev Hwf) as (b'' & H & Hwf' & _). congruence.
  - apply wf_alter; [done| |by left]. intros c. simpl. destruct (ch_buf c); simpl; lia.
Qed.

(** What one subscriber sees of an offer to all the ids of a list. *)
Definition buf (b : Broker) (id : Z) : list Event := default [] (ch_buf <$> chans b !! id).

Lemma offer_buf ev b id b' id' : offer ev b id = Some b' ->
  buf b' id' = (if decide (id = id')
                then buf b id ++ (if (length (buf b id) <? subBuffer)%nat then [ev] else [])
                else buf b id') /\
  (dropped b' = dropped b + (if (length (buf b id) <? subBuffer)%nat then 0 else 1))%Z.
Proof.
  unfold offer, buf. destruct (chans b !! id) as [c|] eqn:E; [|done].
  destruct (ch_closed c); [done|]. simpl.
  destruct (length (ch_buf c) <? subBuffer)%nat; intros [= <-]; simpl; (split; [|lia]).
  - case_decide as Hd; [subst; by rewrite lookup_insert_eq|by rewrite lookup_insert_ne].
  - case_decide as Hd; [subst; rewrite E; simpl; by rewrite app_nil_r|done].
Qed.

Lemma offer_all_buf ev ids b b' id : NoDup ids -> offer_all ev b ids = Some b' ->
  buf b' id = buf b id ++ (if bool_decide (id ∈ ids) && (length (buf b id) <? subBuffer)%nat then [ev] else []).
Proof.
  revert b. induction ids as [|i ids IH]; intros b Hnd; simpl.
  { intros [= <-]. by rewrite app_nil_r. }
  destruct (offer ev b i) as [b1|] eqn:E; [|done]. cbn [mbind option_bind]. intros H.
  apply NoDup_cons in Hnd as [Hi Hnd]. rewrite (IH b1 Hnd H).
  pose proof (offer_buf ev b i b1 id E) as [Hb _]. rewrite Hb.
  case_decide as Hd.
  - subst i. rewrite (bool_decide_eq_false_2 (id ∈ ids)) by done. simpl.
    rewrite app_nil_r. rewrite (bool_decide_eq_true_2 (id ∈ id :: ids)) by left. done.
  - f_equal. assert (bool_decide (id ∈ i :: ids) = bool_decide (id ∈ ids)) as ->; [|done].
    apply bool_decide_ext. rewrite elem_of_cons. intuition congruence.
Qed.
End Revocation.

(** ** internal/gate/app/revocations.go, manager.go *)
Module Manager.
Import Revocation Evaluator.

Definition revoked_events (slug : string) (prev next : Data) (now : Time) : list Event :=
  omap (fun sid => if flag (d_RevokedSessions prev) sid then None
                   else Some {| ev_Kind := KindSession; ev_TenantSlug := slug; ev_SessionID := sid;
                                ev_IdentityID := ""; ev_Epoch := 0; ev_ObservedAt := now |})
    (map fst (map_to_list (d_RevokedSessions next))).

Definition epoch_events (slug : string) (prev next : Data) (now : Time) : list Event :=
  omap (fun '(id, cur) =>
          match d_Identities prev !! id with
          | Some old => if (i_TokenEpoch old <? i_TokenEpoch cur)%Z
                        then Some {| ev_Kind := KindEpoch; ev_TenantSlug := slug; ev_SessionID := "";
                                     ev_IdentityID := id; ev_Epoch := i_TokenEpoch cur; ev_ObservedAt := now |}
                        else None
          | None => None
          end) (map_to_list (d_Identities next)).

Fixpoint publish_all (b : Broker) (evs : list Event) : option Broker :=
  match evs with
  | [] => Some b
  | ev :: rest => b ← Publish b ev; publish_all b rest
  end.

(** The broker afterwards; [None] would be a send on a closed channel. *)
Definition publishRevocations (b : option Broker) (slug : string) (prev : option Data) (next : Data)
    (now : Time) : option (option Broker) :=
  match b, prev with
  | Some b', Some prev =>
      if (SubscribersFor b' slug =? 0)%nat then Some (Some b')
      else Some <$> publish_all b' (revoked_events slug prev next now ++ epoch_events slug prev next now)
  | _, _ => Some b
  end.

(** A [*snapshot.Data]. *)
Record Ptr := { addr : Z; val : Data }.

Record Manager := {
  pollInterval : Duration;
  maxAge : Duration;
  revokedWindow : Duration;
  coalesceQuiet : Duration;
  coalesceMax : Duration;
  rebuildEvery : Duration;
  revocations : option Broker;
  data : gmap string Ptr;
  heap : Z   (* the next fresh address *)
}.

Definition NewManager (age : Duration) : Manager :=
  let age := if (age <=? 0)%Z then (5 * minute)%Z else age in
  {| pollInterval := (30 * second)%Z; maxAge := age; revokedWindow := (30 * minute)%Z;
     coalesceQuiet := (250 * millisecond)%Z; coalesceMax := (2 * second)%Z; rebuildEvery := age;
     revocations := None; data := ∅; heap := 0 |}.

Definition PublishRevocationsTo (m : Manager) (b : Broker) : Manager :=
  {| pollInterval := pollInterval m; maxAge := maxAge m; revokedWindow := revokedWindow m;
     coalesceQuiet := coalesceQuiet m; coalesceMax := coalesceMax m; rebuildEvery := rebuildEvery m;
     revocations := Some b; data := data m; heap := heap m |}.

(** [m.data] and [m.revocations] replaced; addresses move past [h]. *)
Definition with_data (m : Manager) (dt : gmap string Ptr) (h : Z) (b : option Broker) : Manager :=
  {| pollInterval := pollInterval m; maxAge := maxAge m; revokedWindow := revokedWindow m;
     coalesceQuiet := coalesceQuiet m; coalesceMax := coalesceMax m; rebuildEvery := rebuildEvery m;
     revocations := b; data := dt; heap := h |}.

(** (stale, worst, loaded): the freshness of the oldest snapshot. *)
Definition worst_age (m : Manager) (now : Time) : Duration :=
  foldr (fun '(_, p) w => let age := time_sub now (d_LoadedAt (val p)) in if (w <? age)%Z then age else w)
    0%Z (map_to_list (data m)).
Definition Stale (m : Manager) (now : Time) : bool * Duration * bool :=
  if bool_decide (data m = ∅) then (true, 0%Z, false)
  else ((maxAge m <? worst_age m now)%Z, worst_age m now, true).

Definition Get (m : Manager) (now : Time) (slug : string) : option Data * bool :=
  match data m !! slug with
  | None => (None, false)
  | Some p => (Some (val p), (time_sub now (d_LoadedAt (val p)) <=? maxAge m)%Z)
  end.

#[export] Instance manager_source : SnapshotSource Manager := {|
  snaps_Get := Get;
  snaps_max_age := maxAge
|}.

Definition at_time (d : Data) (t : Time) : Data :=
  {| d_TenantID := d_TenantID d; d_TenantSlug := d_TenantSlug d; d_Version := d_Version d;
     d_LoadedAt := t; d_BuiltAt := d_BuiltAt d; d_StrictAxes := d_StrictAxes d; d_Scope := d_Scope d;
     d_GrantsByIdentity := d_GrantsByIdentity d; d_SharesByIdentity := d_SharesByIdentity d;
     d_RolePermissions := d_RolePermissions d; d_Permissions := d_Permissions d;
     d_Identities := d_Identities d; d_RevokedSessions := d_RevokedSessions d; d_Routes := d_Routes d |}.

(** A copy with a new LoadedAt, stored unless a reload won the race. *)
Definition touch (m : Manager) (slug : string) (cur : Ptr) (now : Time) : Manager :=
  let fresh := {| addr := heap m; val := at_time (val cur) now |} in
  match data m !! slug with
  | Some p => if (addr p =? addr cur)%Z
              then with_data m (<[slug := fresh]> (data m)) (heap m + 1) (revocations m)
              else with_data m (data m) (heap m + 1) (revocations m)
  | None => with_data m (data m) (heap m + 1) (revocations m)
  end.

(** What the clock and the loader answer during one load. *)
Record LoadEnv := {
  e_now : Time;                (* the reading compared with BuiltAt *)
  e_version : option Z;        (* CatalogVersion *)
  e_touch : Time;              (* the reading in touch *)
  e_snapshot : option Data;    (* LoadSnapshot *)
  e_publish : Time             (* the reading in publishRevocations *)
}.

Inductive LoadOutcome := Unchanged | LoadFailed | Rebuilt | Verified.

(** LoadSnapshot, the swap and the announcement. *)
Definition reload (m : Manager) (slug : string) (env : LoadEnv) (outcome : LoadOutcome)
    : option (Manager * LoadOutcome) :=
  match e_snapshot env with
  | None => Some (m, LoadFailed)
  | Some d =>
      let prev := val <$> data m !! slug in
      let m1 := with_data m (<[slug := {| addr := heap m; val := d |}]> (data m)) (heap m + 1) (revocations m) in
      b ← publishRevocations (revocations m1) slug prev d (e_publish env);
      Some (with_data m1 (data m1) (heap m1) b, outcome)
  end.

Definition load (m : Manager) (slug : string) (env : LoadEnv) : option (Manager * LoadOutcome) :=
  match data m !! slug with
  | None => reload m slug env Rebuilt
  | Some cur =>
      if (rebuildEvery m <=? time_sub (e_now env) (d_BuiltAt (val cur)))%Z then reload m slug env Verified
      else if bool_decide (e_version env = Some (d_Version (val cur)))
      then Some (touch m slug cur (e_touch env), Unchanged)
      else reload m slug env Rebuilt
  end.

(** The loop over the tenant list; [envs i] is what the [i]-th load meets, and
    [wanted] the test on the tenant id. *)
Fixpoint load_each (m : Manager) (wanted : string -> bool) (tenants : list (string * string))
    (envs : list LoadEnv) : option Manager :=
  match tenants, envs with
  | (id, slug) :: tenants', env :: envs' =>
      if wanted id
      then '(m, _) ← load m slug env; load_each m wanted tenants' envs'
      else load_each m wanted tenants' envs'
  | _, _ => Some m
  end.

(** [tenants] is the lister's answer, [None] its failure. *)
Definition refreshAll (m : Manager) (tenants : option (list (string * string))) (envs : list LoadEnv)
    : option Manager :=
  match tenants with None => Some m | Some l => load_each m (fun _ => true) l envs end.

(** The manager and the pending set afterwards. *)
Definition refreshPending (m : Manager) (pending : gset string)
    (tenants : option (list (string * string))) (envs : list LoadEnv) : option (Manager * gset string) :=
  if bool_decide (pending = ∅) then Some (m, pending)
  else match tenants with
  | None => Some (m, pending)
  | Some l => m' ← load_each m (fun id => bool_decide (id ∈ pending)) l envs; Some (m', ∅)
  end.

(** *** The loop of Run *)

Definition dirtyCap : nat := 64.

Record RunState := {
  rs_mgr : Manager;
  rs_pending : gset string;
  rs_deadline : Time;
  rs_timer : option Time;     (* when the armed coalesce timer fires *)
  rs_dirty : list string
}.

(** The listener's callback: a full channel drops the bump. *)
Definition notify (s : RunState) (id : string) : RunState :=
  {| rs_mgr := rs_mgr s; rs_pending := rs_pending s; rs_deadline := rs_deadline s; rs_timer := rs_timer s;
     rs_dirty := if (length (rs_dirty s) <? dirtyCap)%nat then rs_dirty s ++ [id] else rs_dirty s |}.

(** [case tenantID := <-m.dirty]; [n1] to [n3] are the clock at the deadline,
    at time.Until and when the timer is armed. *)
Definition on_dirty (s : RunState) (id : string) (rest : list string) (n1 n2 n3 : Time) : RunState :=
  let deadline := if bool_decide (rs_pending s = ∅) then (n1 + coalesceMax (rs_mgr s))%Z else rs_deadline s in
  let wait := coalesceQuiet (rs_mgr s) in
  let until := time_sub deadline n2 in
  let wait := if (until <? wait)%Z then Z.max until 0 else wait in
  {| rs_mgr := rs_mgr s; rs_pending := {[id]} ∪ rs_pending s; rs_deadline := deadline;
     rs_timer := Some (n3 + wait)%Z; rs_dirty := rest |}.

Inductive run_step : RunState -> RunState -> Prop :=
| run_notify s id : run_step s (notify s id)
| run_tick s tenants envs m : refreshAll (rs_mgr s) tenants envs = Some m ->
    run_step s {| rs_mgr := m; rs_pending := rs_pending s; rs_deadline := rs_deadline s;
                  rs_timer := rs_timer s; rs_dirty := rs_dirty s |}
| run_dirty s id rest n1 n2 n3 : rs_dirty s = id :: rest -> (n1 <= n2 <= n3)%Z ->
    run_step s (on_dirty s id rest n1 n2 n3)
| run_timer s tenants envs m p e : rs_timer s = Some e ->
    refreshPending (rs_mgr s) (rs_pending s) tenants envs = Some (m, p) ->
    run_step s {| rs_mgr := m; rs_pending := p; rs_deadline := rs_deadline s;
                  rs_timer := None; rs_dirty := rs_dirty s |}.
End Manager.

Module ManagerProps.
Import Revocation Manager Evaluator.

(** *** The states the manager reaches *)

(** One load under a context of [slack]: the clock moves at most that far
    between the two readings, and a snapshot's LoadedAt is read first. *)
Definition env_ok (slack : Duration) (env : LoadEnv) : Prop :=
  (e_touch env <= e_now env + slack)%Z /\
  (forall d, e_snapshot env = Some d -> (d_LoadedAt d <= d_BuiltAt d)%Z).

Inductive reachable (slack : Duration) : Manager -> Prop :=
| r_new age : (age <= max_duration)%Z -> reachable slack (NewManager age)
| r_wire m : reachable slack m -> reachable slack (PublishRevocationsTo m NewBroker)
| r_broker m b b' : reachable slack m -> revocations m = Some b -> step b b' ->
    reachable slack (with_data m (data m) (heap m) (Some b'))
| r_load m slug env m' o : reachable slack m -> env_ok slack env -> load m slug env = Some (m', o) ->
    reachable slack m'.

Record mgr_ok (slack : Duration) (m : Manager) : Prop := {
  ok_rebuild : rebuildEvery m = maxAge m;
  ok_age : (0 < maxAge m <= max_duration)%Z;
  ok_broker b : revocations m = Some b -> wf b;
  ok_data slug p : data m !! slug = Some p ->
    (d_LoadedAt (val p) - d_BuiltAt (val p) < maxAge m + slack)%Z
}.

Lemma publish_all_total b evs : wf b ->
  exists b', publish_all b evs = Some b' /\ wf b' /\ subs b' = subs b.
Proof.
  revert b. induction evs as [|ev evs IH]; intros b Hwf; simpl; [by exists b|].
  destruct (publish_total b ev Hwf) as (b1 & -> & Hwf1 & Hs1). cbn [mbind option_bind].
  destruct (IH b1 Hwf1) as (b2 & H2 & Hwf2 & Hs2). exists b2. split_and!; [done|done|congruence].
Qed.

Lemma publishRevocations_total b slug prev next now :
  (forall b', b = Some b' -> wf b') ->
  exists b1, publishRevocations b slug prev next now = Some b1 /\ (forall b', b1 = Some b' -> wf b').
Proof.
  intros Hwf. unfold publishRevocations. destruct b as [b|]; [|by exists None].
  destruct prev as [prev|]; [|by exists (Some b)].
  destruct (SubscribersFor b slug =? 0)%nat; [by exists (Some b)|].
  destruct (publish_all_total b (revoked_events slug prev next now ++ epoch_events slug prev next now))
    as (b' & H & Hwf' & _); [by apply Hwf|].
  rewrite H. exists (Some b'). split; [done|]. by intros ? [= <-].
Qed.

(** A reload ends, and changes the served snapshot only to the one it loaded. *)
Lemma reload_spec m slug env o :
  (forall b, revocations m = Some b -> wf b) ->
  exists m' o', reload m slug env o = Some (m', o') /\
    maxAge m' = maxAge m /\ rebuildEvery m' = rebuildEvery m /\ (forall b, revocations m' = Some b -> wf b) /\
    match e_snapshot env with
    | None => m' = m /\ o' = LoadFailed
    | Some d => o' = o /\ data m' = <[slug := {| addr := heap m; val := d |}]> (data m) /\
        publishRevocations (revocations m) slug (val <$> data m !! slug) d (e_publish env) = Some (revocations m')
    end.
Proof.
  intros Hwf. unfold reload. destruct (e_snapshot env) as [d|]; [|by exists m, LoadFailed].
  destruct (publishRevocations_total (revocations m) slug (val <$> data m !! slug) d (e_publish env) Hwf)
    as (b1 & Hb & Hwf1).
  simpl. rewrite Hb. cbn [mbind option_bind]. by eexists _, _.
Qed.

Lemma touch_spec m slug cur now : data m !! slug = Some cur ->
  touch m slug cur now =
    with_data m (<[slug := {| addr := heap m; val := at_time (val cur) now |}]> (data m)) (heap m + 1) (revocations m).
Proof. unfold touch. intros ->. by rewrite Z.eqb_refl. Qed.

Lemma load_ok slack m slug env : mgr_ok slack m -> env_ok slack env -> (0 <= slack)%Z ->
  exists m' o, load m slug env = Some (m', o) /\ mgr_ok slack m'.
Proof.
  intros [Hr Ha Hb Hd] [Ht Hs] Hsl.
  assert (forall o, exists m' o', reload m slug env o = Some (m', o') /\ mgr_ok slack m') as Hreload.
  { intros o. destruct (reload_spec m slug env o Hb) as (m' & o' & H & H1 & H2 & H3 & H4).
    exists m', o'. split; [done|]. destruct (e_snapshot env) as [d|] eqn:E.
    - destruct H4 as (-> & H4 & _). split; [congruence|by rewrite H1|done|].
      intros slug' p. rewrite H4, H1, lookup_insert_Some. intros [[<- <-]|[_ Hp]]; [|by eapply Hd].
      simpl. specialize (Hs d eq_refl). lia.
    - destruct H4 as [-> _]. by split. }
  unfold load. destruct (data m !! slug) as [cur|] eqn:E; [|apply Hreload].
  destruct (Z.leb_spec (rebuildEvery m) (time_sub (e_now env) (d_BuiltAt (val cur)))) as [|Hlt]; [apply Hreload|].
  case_bool_decide; [|apply Hreload]. eexists _, _. split; [done|]. rewrite touch_spec by done.
  split; [done|done|done|]. intros slug' p. simpl. rewrite lookup_insert_Some.
  intros [[<- <-]|[_ Hp]]; [|by eapply Hd]. simpl.
  rewrite Hr in Hlt. unfold time_sub, max_duration, min_duration in *. lia.
Qed.

Lemma reachable_ok slack m : (0 <= slack)%Z -> reachable slack m -> mgr_ok slack m.
Proof.
  intros Hsl. induction 1 as [age Hage|m Hm IH|m b b' Hm IH Hb Hstep|m slug env m' o Hm IH Henv Hload].
  - unfold NewManager. split; [done| |done|done]. simpl.
    destruct (Z.leb_spec age 0); unfold max_duration, minute, second in *; lia.
  - destruct IH as [? ? ? ?]. split; try done. simpl. intros b [= <-]. apply wf_new.
  - destruct IH as [? ? Hwf ?]. split; try done. simpl. intros b'' [= <-]. eapply step_wf; [by apply Hwf|done].
  - destruct (load_ok slack m slug env IH Henv Hsl) as (m1 & o1 & H1 & Hok). congruence.
Qed.

Lemma Get_fresh m now slug d : Get m now slug = (Some d, true) ->
  (time_sub now (d_LoadedAt d) <= maxAge m)%Z /\ exists p, data m !! slug = Some p /\ val p = d.
Proof.
  unfold Get. destruct (data m !! slug) as [p|]; [|done]. intros [= <- H]. apply Z.leb_le in H. eauto.
Qed.

#[export] Instance manager_laws : SnapshotSourceLaws Manager manager_source.
Proof.
  split; simpl.
  - intros m now slug d H. by apply Get_fresh in H as [? _].
  - intros m now slug b. unfold Get. destruct (data m !! slug); [done|]. by intros [= <-].
Qed.

(** C37: in every state the manager reaches, through any interleaving of loads
    and of what subscribers do to the broker, the next load completes (it never
    sends on a closed channel), and a snapshot served as fresh was confirmed
    at most maxAge ago and rebuilt from the database less than twice maxAge
    (plus one load's timeout) ago. *)
Theorem manager_serves_bounded slack m :
  (0 <= slack)%Z -> reachable slack m ->
  (forall slug env, env_ok slack env -> is_Some (load m slug env)) /\
  (forall slug now d, Get m now slug = (Some d, true) -> (maxAge m < max_duration)%Z ->
     (now - d_LoadedAt d <= maxAge m)%Z /\ (now - d_BuiltAt d < 2 * maxAge m + slack)%Z).
Proof.
  intros Hsl Hm. pose proof (reachable_ok slack m Hsl Hm) as Hok. split.
  - intros slug env Henv. destruct (load_ok slack m slug env Hok Henv Hsl) as (m' & o & H & _). by eexists.
  - intros slug now d Hg Hlt. apply Get_fresh in Hg as (Hf & p & Hp & <-).
    apply time_sub_le in Hf; [|done]. pose proof (ok_data _ _ Hok slug p Hp). lia.
Qed.

(** Built at 0; confirmed unchanged at 299 s; still served as fresh at 598 s,
    almost twice maxAge after the rebuild. *)
Definition old_data : Data :=
  {| d_TenantID := "t"; d_TenantSlug := "acme"; d_Version := 7; d_LoadedAt := 0; d_BuiltAt := 0;
     d_StrictAxes := ∅; d_Scope := {| si_idx := ∅; si_parent := [] |}; d_GrantsByIdentity := ∅;
     d_SharesByIdentity := ∅; d_RolePermissions := ∅; d_Permissions := ∅; d_Identities := ∅;
     d_RevokedSessions := ∅; d_Routes := [] |}.
Definition env_first : LoadEnv :=
  {| e_now := 0; e_version := None; e_touch := 0; e_snapshot := Some old_data; e_publish := 0 |}.
Definition env_touch : LoadEnv :=
  {| e_now := (299 * second)%Z; e_version := Some 7%Z; e_touch := (299 * second)%Z; e_snapshot := None;
     e_publish := 0 |}.
Definition run_two : option Manager :=
  '(m, _) ← load (NewManager 0) "acme" env_first; '(m, _) ← load m "acme" env_touch; Some m.

Lemma old_snapshot_served : exists m, run_two = Some m /\ maxAge m = (300 * second)%Z /\
  exists d, Get m (598 * second) "acme" = (Some d, true) /\ d_BuiltAt d = 0%Z.
Proof.
  destruct run_two as [m|] eqn:E; [|vm_compute in E; discriminate]. exists m. split; [done|].
  vm_compute in E. injection E as <-. split; [reflexivity|]. eexists. split; vm_compute; reflexivity.
Qed.

Lemma env_first_ok : env_ok 0 env_first /\ env_ok 0 env_touch.
Proof.
  split; (split; [discriminate|]).
  - intros d [= <-]. discriminate.
  - intros d H. discriminate H.
Defined.

Lemma manager_serves_bounded_witness : exists m, run_two = Some m /\
  is_Some (load m "acme" env_touch) /\
  forall now d, Get m now "acme" = (Some d, true) -> (now - d_BuiltAt d < 2 * maxAge m + 0)%Z.
Proof.
  destruct run_two as [m|] eqn:E; [|vm_compute in E; discriminate]. exists m. split; [reflexivity|].
  assert (reachable 0 m /\ (maxAge m < max_duration)%Z) as [Hm Hlt].
  { unfold run_two in E. destruct (load (NewManager 0) "acme" env_first) as [[m1 o1]|] eqn:E1; [|discriminate].
    cbn [mbind option_bind] in E. destruct (load m1 "acme" env_touch) as [[m2 o2]|] eqn:E2; [|discriminate].
    cbn [mbind option_bind] in E. injection E as <-. split.
    - eapply r_load; [|exact (proj2 env_first_ok)|exact E2].
      eapply r_load; [|exact (proj1 env_first_ok)|exact E1]. apply r_new. discriminate.
    - vm_compute in E1. injection E1 as <- _. vm_compute in E2. injection E2 as <- _. reflexivity. }
  destruct (manager_serves_bounded 0 m (Z.le_refl 0) Hm) as (H1 & H3). split.
  - apply H1. exact (proj2 env_first_ok).
  - intros now d Hg. exact (proj2 (H3 "acme"%string now d Hg Hlt)).
Defined.
(** *** What a swap announces *)

(** The events a swap from [prev] to [next] announces to the tenant. *)
Definition announced (slug : string) (prev next : Data) (now : Time) (ev : Event) : Prop :=
  (exists sid, is_Some (d_RevokedSessions next !! sid) /\ flag (d_RevokedSessions prev) sid = false /\
     ev = {| ev_Kind := KindSession; ev_TenantSlug := slug; ev_SessionID := sid; ev_IdentityID := "";
             ev_Epoch := 0; ev_ObservedAt := now |}) \/
  (exists id old cur, d_Identities prev !! id = Some old /\ d_Identities next !! id = Some cur /\
     (i_TokenEpoch old < i_TokenEpoch cur)%Z /\
     ev = {| ev_Kind := KindEpoch; ev_TenantSlug := slug; ev_SessionID := ""; ev_IdentityID := id;
             ev_Epoch := i_TokenEpoch cur; ev_ObservedAt := now |}).

Lemma announced_spec slug prev next now ev :
  ev ∈ revoked_events slug prev next now ++ epoch_events slug prev next now <->
  announced slug prev next now ev.
Proof.
  unfold announced, revoked_events, epoch_events. rewrite elem_of_app, !list_elem_of_omap. split.
  - intros [(sid & Hs & H)|([id cur] & Hi & H)].
    + left. apply list_elem_of_fmap in Hs as ([k b] & -> & Hk). apply elem_of_map_to_list in Hk.
      simpl in *. destruct (flag _ _) eqn:E; [done|]. injection H as <-. exists k. eauto.
    + right. apply elem_of_map_to_list in Hi. destruct (d_Identities prev !! id) as [old|] eqn:E; [|done].
      destruct (Z.ltb_spec (i_TokenEpoch old) (i_TokenEpoch cur)); [|done]. injection H as <-. eauto 10.
  - intros [(sid & [b Hb] & Hf & ->)|(id & old & cur & Ho & Hc & Hlt & ->)].
    + left. exists sid. rewrite Hf. split; [|done]. apply list_elem_of_fmap. exists (sid, b).
      split; [done|]. by apply elem_of_map_to_list.
    + right. exists (id, cur). rewrite Ho. split; [by apply elem_of_map_to_list|].
      by destruct (Z.ltb_spec (i_TokenEpoch old) (i_TokenEpoch cur)); [|lia].
Qed.

Lemma announced_tenant slug prev next now ev : announced slug prev next now ev -> ev_TenantSlug ev = slug.
Proof. by intros [(? & _ & _ & ->)|(? & ? & ? & _ & _ & _ & ->)]. Qed.

(** A subscriber with room receives everything, in order; nobody else anything. *)
Lemma publish_all_buf slug evs b b' id :
  wf b -> (forall ev, ev ∈ evs -> ev_TenantSlug ev = slug) -> publish_all b evs = Some b' ->
  (id ∈ subs_of b slug -> (length (buf b id) + length evs <= subBuffer)%nat -> buf b' id = buf b id ++ evs) /\
  (id ∉ subs_of b slug -> buf b' id = buf b id).
Proof.
  revert b. induction evs as [|ev evs IH]; intros b Hwf Ht; simpl.
  { intros [= <-]. rewrite app_nil_r. done. }
  destruct (publish_total b ev Hwf) as (b1 & H1 & Hwf1 & Hs1). rewrite H1. cbn [mbind option_bind]. intros H.
  pose proof (offer_all_buf ev (elements (subs_of b (ev_TenantSlug ev))) b b1 id (NoDup_elements _) H1) as Hb.
  rewrite (Ht ev) in Hb by left.
  destruct (IH b1 Hwf1 (fun e He => Ht e (list_elem_of_further _ _ _ He)) H) as [IH1 IH2].
  assert (subs_of b1 slug = subs_of b slug) as Hs by (unfold subs_of; by rewrite Hs1). rewrite Hs in IH1, IH2.
  split.
  - intros Hin Hroom. rewrite bool_decide_eq_true_2 in Hb by by apply elem_of_elements.
    destruct (Nat.ltb_spec (length (buf b id)) subBuffer) as [_|]; [|lia]. simpl in Hb.
    rewrite IH1, Hb, <- app_assoc; [done..|]. rewrite Hb, length_app. simpl. lia.
  - intros Hnin. rewrite IH2 by done. rewrite bool_decide_eq_false_2 in Hb by by rewrite elem_of_elements.
    by rewrite app_nil_r in Hb.
Qed.

(** What one load does.  Other tenants' snapshots are untouched.  An
    unchanged answer is given only when the version probe answered the version
    held and the snapshot was rebuilt within rebuildEvery, and then the same
    catalogue is served with a new confirmation time; a failed load leaves
    everything as it was; otherwise the loaded snapshot is served, and when it
    replaces one, every subscriber of the tenant with room for them receives
    exactly the sessions newly revoked and the token epochs that rose, and no
    other subscriber anything. *)
Theorem load_spec slack m slug env m' o :
  reachable slack m -> (0 <= slack)%Z -> load m slug env = Some (m', o) ->
  (forall slug', slug' <> slug -> data m' !! slug' = data m !! slug') /\
  match o with
  | Unchanged => exists cur p, data m !! slug = Some cur /\ data m' !! slug = Some p /\
      e_version env = Some (d_Version (val cur)) /\
      (time_sub (e_now env) (d_BuiltAt (val cur)) < rebuildEvery m)%Z /\
      val p = at_time (val cur) (e_touch env) /\ revocations m' = revocations m
  | LoadFailed => m' = m /\ e_snapshot env = None
  | Rebuilt | Verified => exists d, e_snapshot env = Some d /\ val <$> data m' !! slug = Some d /\
      (forall b prev, revocations m = Some b -> val <$> data m !! slug = Some prev ->
         SubscribersFor b slug <> 0%nat ->
         exists b' evs, revocations m' = Some b' /\
           (forall ev, ev ∈ evs <-> announced slug prev d (e_publish env) ev) /\
           forall id, (id ∈ subs_of b slug -> (length (buf b id) + length evs <= subBuffer)%nat ->
                         buf b' id = buf b id ++ evs) /\
                      (id ∉ subs_of b slug -> buf b' id = buf b id))
  end.
Proof.
  intros Hm Hsl Hload. pose proof (ok_broker _ _ (reachable_ok slack m Hsl Hm)) as Hwf.
  assert (forall oo, (oo = Rebuilt \/ oo = Verified) -> reload m slug env oo = Some (m', o) ->
    (o = LoadFailed /\ m' = m /\ e_snapshot env = None) \/
    (o = oo /\ exists d, e_snapshot env = Some d /\ data m' = <[slug := {| addr := heap m; val := d |}]> (data m) /\
      publishRevocations (revocations m) slug (val <$> data m !! slug) d (e_publish env) = Some (revocations m')))
    as Hrel.
  { intros oo _ H. destruct (reload_spec m slug env oo Hwf) as (m1 & o1 & H1 & _ & _ & _ & H4).
    rewrite H1 in H. injection H as <- <-. destruct (e_snapshot env) as [d|]; [right|left].
    - destruct H4 as (? & ? & ?). eauto.
    - by destruct H4. }
  assert (forall oo, (oo = Rebuilt \/ oo = Verified) -> reload m slug env oo = Some (m', o) -> o <> Unchanged) as Hnu.
  { intros oo Hoo H. destruct (Hrel oo Hoo H) as [(-> & _)|(-> & _)]; [done|]. by destruct Hoo as [-> | ->]. }
  assert (o = Unchanged \/ exists oo, (oo = Rebuilt \/ oo = Verified) /\ reload m slug env oo = Some (m', o)) as [->|(oo & Hoo & H)].
  { revert Hload. unfold load. destruct (data m !! slug); [|eauto].
    destruct (_ <=? _)%Z; [eauto|]. case_bool_decide; [|eauto]. intros [= _ <-]. by left. }
  - unfold load in Hload. destruct (data m !! slug) as [cur|] eqn:E; [|by eapply Hnu in Hload; [|by left]].
    destruct (Z.leb_spec (rebuildEvery m) (time_sub (e_now env) (d_BuiltAt (val cur)))) as [|Hlt];
      [by eapply Hnu in Hload; [|by right]|].
    case_bool_decide as Hv; [|by eapply Hnu in Hload; [|by left]]. rewrite touch_spec in Hload by done.
    injection Hload as <-. simpl. split; [intros slug' Hne; by rewrite lookup_insert_ne|].
    eexists cur, _. rewrite lookup_insert_eq. done.
  - destruct (Hrel oo Hoo H) as [(-> & -> & He)|(-> & d & He & Hdata & Hpub)]; [done|].
    rewrite Hdata. split; [intros slug' Hne; by rewrite lookup_insert_ne|].
    assert (forall b prev, revocations m = Some b -> val <$> data m !! slug = Some prev ->
      SubscribersFor b slug <> 0%nat -> exists b' evs, revocations m' = Some b' /\
        (forall ev, ev ∈ evs <-> announced slug prev d (e_publish env) ev) /\
        forall id, (id ∈ subs_of b slug -> (length (buf b id) + length evs <= subBuffer)%nat ->
                      buf b' id = buf b id ++ evs) /\
                   (id ∉ subs_of b slug -> buf b' id = buf b id)) as Hev.
    { intros b prev Hb Hp Hn. rewrite Hb, Hp in Hpub. unfold publishRevocations in Hpub.
      destruct (Nat.eqb_spec (SubscribersFor b slug) 0); [done|].
      destruct (publish_all _ _) as [b'|] eqn:Eb; [|done]. injection Hpub as Hb'.
      eexists b', _. split; [done|]. split; [apply announced_spec|]. intros id.
      apply (publish_all_buf slug _ b b' id (Hwf b Hb)); [|done].
      intros ev Hin. apply announced_spec in Hin. by eapply announced_tenant. }
    destruct Hoo as [-> | ->]; exists d; rewrite lookup_insert_eq; done.
Qed.

(** A swap that revokes a session, with one subscriber. *)
Definition with_revoked (d : Data) (sids : gmap string bool) : Data :=
  {| d_TenantID := d_TenantID d; d_TenantSlug := d_TenantSlug d; d_Version := d_Version d;
     d_LoadedAt := d_LoadedAt d; d_BuiltAt := d_BuiltAt d; d_StrictAxes := d_StrictAxes d; d_Scope := d_Scope d;
     d_GrantsByIdentity := d_GrantsByIdentity d; d_SharesByIdentity := d_SharesByIdentity d;
     d_RolePermissions := d_RolePermissions d; d_Permissions := d_Permissions d;
     d_Identities := d_Identities d; d_RevokedSessions := sids; d_Routes := d_Routes d |}.
Definition env_revoke : LoadEnv :=
  {| e_now := 5; e_version := Some 8%Z; e_touch := 5; e_snapshot := Some (with_revoked old_data {["s1" := true]});
     e_publish := 9 |}.
Definition subscribed : option Manager :=
  '(m, _) ← load (PublishRevocationsTo (NewManager 0) NewBroker) "acme" env_first;
  match revocations m with
  | Some b => Some (with_data m (data m) (heap m) (Some (snd (Subscribe b "acme"))))
  | None => None
  end.

Lemma load_spec_witness : exists m m' o, subscribed = Some m /\ load m "acme" env_revoke = Some (m', o) /\
  (forall slug', slug' <> "acme"%string -> data m' !! slug' = data m !! slug').
Proof.
  destruct subscribed as [m|] eqn:E; [|vm_compute in E; discriminate].
  assert (reachable 0 m) as Hm.
  { unfold subscribed in E. destruct (load (PublishRevocationsTo (NewManager 0) NewBroker) "acme" env_first)
      as [[m1 o1]|] eqn:E1; [|discriminate]. cbn [mbind option_bind] in E.
    destruct (revocations m1) as [b|] eqn:Eb; [|discriminate]. injection E as <-.
    eapply r_broker; [|exact Eb|apply step_subscribe].
    eapply r_load; [|exact (proj1 env_first_ok)|exact E1]. apply r_wire, r_new. discriminate. }
  destruct (load m "acme" env_revoke) as [[m' o]|] eqn:E2.
  - exists m, m', o. split; [reflexivity|]. split; [exact E2|].
    exact (proj1 (load_spec 0 m "acme" env_revoke m' o Hm (Z.le_refl 0) E2)).
  - exfalso. vm_compute in E. injection E as <-. vm_compute in E2. discriminate.
Defined.

(** *** Coalescing *)

(** A run of bumps, each with its three clock readings. *)
Fixpoint bumps (s : RunState) (l : list (string * Time * Time * Time)) : RunState :=
  match l with
  | [] => s
  | (id, n1, n2, n3) :: rest => bumps (on_dirty s id (tail (rs_dirty s)) n1 n2 n3) rest
  end.

Lemma bumps_spec l s :
  let s' := bumps s l in
  rs_mgr s' = rs_mgr s /\
  (forall id, id ∈ rs_pending s' <-> id ∈ rs_pending s \/ id ∈ map (fun b => fst (fst (fst b))) l) /\
  (rs_pending s <> ∅ -> rs_deadline s' = rs_deadline s).
Proof.
  revert s. induction l as [|[[[id n1] n2] n3] l IH]; intros s; simpl.
  { split; [done|]. split; [|done]. intros id. rewrite elem_of_nil. tauto. }
  destruct (IH (on_dirty s id (tail (rs_dirty s)) n1 n2 n3)) as (Hm & Hp & Hd). split; [done|]. split.
  - intros id'. rewrite Hp. simpl. rewrite elem_of_cons. set_solver.
  - intros Hne. rewrite Hd; simpl; [by rewrite bool_decide_eq_false_2|set_solver].
Qed.

(** One bump arms the timer by the deadline. *)
Definition armed (s : RunState) (quiet : Duration) (deadline : Time) (l2 l3 : Time) : Prop :=
  exists e, rs_timer s = Some e /\ (l3 <= e <= l3 + quiet)%Z /\ (e <= Z.max deadline l2 + (l3 - l2))%Z.

Lemma on_dirty_timer s id rest n1 n2 n3 d :
  (0 <= coalesceQuiet (rs_mgr s))%Z -> rs_deadline (on_dirty s id rest n1 n2 n3) = d -> (n2 <= n3)%Z ->
  (min_duration <= d - n2 <= max_duration)%Z ->
  armed (on_dirty s id rest n1 n2 n3) (coalesceQuiet (rs_mgr s)) d n2 n3.
Proof.
  intros Hq Hd Hn Hr. eexists. split; [reflexivity|]. simpl in Hd. rewrite Hd, (time_sub_exact d n2 Hr).
  destruct (Z.ltb_spec (d - n2) (coalesceQuiet (rs_mgr s))); lia.
Qed.

(** Further bumps keep the deadline of the first. *)
Lemma bumps_timer more s id n1 n2 n3 d :
  rs_deadline s = d -> armed s (coalesceQuiet (rs_mgr s)) d n2 n3 -> rs_pending s <> ∅ ->
  (forall b, b ∈ more -> (0 <= coalesceQuiet (rs_mgr s))%Z /\ (snd (fst b) <= snd b)%Z /\
     (min_duration <= d - snd (fst b) <= max_duration)%Z) ->
  exists e, rs_timer (bumps s more) = Some e /\
    let '(_, _, l2, l3) := List.last more (id, n1, n2, n3) in
    (l3 <= e <= l3 + coalesceQuiet (rs_mgr s))%Z /\ (e <= Z.max d l2 + (l3 - l2))%Z.
Proof.
  revert s id n1 n2 n3. induction more as [|[[[ib m1] m2] m3] more IH]; intros s id n1 n2 n3 Hd Harm Hne Hb.
  { simpl. destruct Harm as (e & ? & ?). eauto. }
  destruct (Hb (ib, m1, m2, m3) (list_elem_of_here _ _)) as (Hq & Hm & Hr). simpl in Hq, Hm, Hr.
  set (s1 := on_dirty s ib (tail (rs_dirty s)) m1 m2 m3).
  assert (rs_deadline s1 = d) as Hd1 by (unfold s1; simpl; by rewrite bool_decide_eq_false_2).
  destruct (IH s1 ib m1 m2 m3 Hd1) as (e & He & Hbound).
  - change (rs_mgr s1) with (rs_mgr s). by apply on_dirty_timer.
  - unfold s1. simpl. set_solver.
  - intros b Hin. apply Hb. by right.
  - exists e. split; [exact He|]. destruct more as [|b more]; [exact Hbound|].
    assert (forall x y, List.last (b :: more) x = List.last (b :: more) y) as Hl.
    { clear. revert b. induction more as [|c more IH]; intros b x y; [done|]. apply (IH c x y). }
    change (List.last ((ib, m1, m2, m3) :: b :: more) (id, n1, n2, n3)) with (List.last (b :: more) (id, n1, n2, n3)).
    by rewrite (Hl (id, n1, n2, n3) (ib, m1, m2, m3)).
Qed.

(** A pending tenant leaves only through a refresh that completed. *)
Lemma pending_leaves s i s2 : i ∈ rs_pending s -> run_step s s2 -> i ∉ rs_pending s2 ->
  exists tenants envs m', refreshPending (rs_mgr s) (rs_pending s) (Some tenants) envs = Some (m', ∅).
Proof.
  intros Hi Hstep Hnot.
  destruct Hstep as [s id|s tenants envs m Hm|s id rest n1 n2 n3 Hd Hn|s tenants envs m p e He Hr];
    simpl in *; [done|done|set_solver|].
  unfold refreshPending in Hr. case_bool_decide as Hp; [by injection Hr as _ <-|].
  destruct tenants as [l|]; [|by injection Hr as _ <-].
  destruct (load_each _ _ _ _) as [m'|] eqn:El; [|done]. exists l, envs, m'.
  unfold refreshPending. rewrite bool_decide_eq_false_2 by done. by rewrite El.
Qed.

(** Coalescing bounds the wait.  After any run of bumps starting from
    nothing pending at [n1], every bumped tenant is pending and the timer is
    armed: at latest coalesceQuiet after the last bump, and, however long the
    run, at latest coalesceMax after the first bump (or at once, when that is
    already past); only a completed refresh takes a tenant out of pending. *)
Theorem coalesce_bound s id n1 n2 n3 more s' :
  rs_pending s = ∅ -> (0 <= coalesceQuiet (rs_mgr s))%Z -> (0 <= coalesceMax (rs_mgr s) <= 2 ^ 62)%Z ->
  s' = bumps s ((id, n1, n2, n3) :: more) ->
  (forall b, b ∈ (id, n1, n2, n3) :: more ->
     (n1 <= snd (fst b) <= snd b)%Z /\ (snd (fst b) - n1 < 2 ^ 62)%Z) ->
  let '(_, _, l2, l3) := List.last more (id, n1, n2, n3) in
  exists e, rs_timer s' = Some e /\ (l3 <= e <= l3 + coalesceQuiet (rs_mgr s))%Z /\
    (e <= Z.max (n1 + coalesceMax (rs_mgr s)) l2 + (l3 - l2))%Z /\
    (forall i, i ∈ id :: map (fun b => fst (fst (fst b))) more -> i ∈ rs_pending s') /\
    (forall i s2, i ∈ rs_pending s' -> run_step s' s2 -> i ∉ rs_pending s2 ->
       exists tenants envs m', refreshPending (rs_mgr s') (rs_pending s') (Some tenants) envs = Some (m', ∅)).
Proof.
  intros Hemp Hq Hx -> Hb. set (s1 := on_dirty s id (tail (rs_dirty s)) n1 n2 n3).
  change (bumps s ((id, n1, n2, n3) :: more)) with (bumps s1 more).
  assert (rs_deadline s1 = (n1 + coalesceMax (rs_mgr s))%Z) as Hd1.
  { unfold s1. simpl. by rewrite bool_decide_eq_true_2. }
  assert (rs_pending s1 <> ∅) as Hp1 by (unfold s1; simpl; set_solver).
  pose proof (Hb (id, n1, n2, n3) (list_elem_of_here _ _)) as [Hb1 Hb2]. simpl in Hb1, Hb2.
  destruct (bumps_timer more s1 id n1 n2 n3 (n1 + coalesceMax (rs_mgr s))) as (e & He & Hbound).
  - done.
  - change (rs_mgr s1) with (rs_mgr s). apply on_dirty_timer; [done|by rewrite <- Hd1|lia|unfold min_duration, max_duration; lia].
  - done.
  - intros b Hin. destruct (Hb b) as [? ?]; [by right|]. change (rs_mgr s1) with (rs_mgr s).
    unfold min_duration, max_duration. lia.
  - destruct (List.last more (id, n1, n2, n3)) as [[[? ?] l2] l3]. exists e.
    destruct Hbound as [Hb3 Hb4]. split; [exact He|]. split; [exact Hb3|]. split; [exact Hb4|]. split.
    + intros i Hi. apply bumps_spec. apply elem_of_cons in Hi as [->|Hi]; [left; simpl; set_solver|by right].
    + intros i s2. apply pending_leaves.
Qed.

Definition run_sample : RunState :=
  {| rs_mgr := NewManager 0; rs_pending := ∅; rs_deadline := 0; rs_timer := None; rs_dirty := [] |}.
(** Bumps every 200 ms for 2 s: the tenth bump's timer fires 2 s after the first. *)
Definition bump_sample : list (string * Time * Time * Time) :=
  map (fun i => ("t"%string, i * 200 * millisecond, i * 200 * millisecond, i * 200 * millisecond)%Z)
    [1; 2; 3; 4; 5; 6; 7; 8; 9]%Z.

Lemma coalesce_bound_witness :
  exists e, rs_timer (bumps run_sample (("t"%string, 0, 0, 0)%Z :: bump_sample)) = Some e /\
    (e <= Z.max (2 * second) (1800 * millisecond) + (1800 * millisecond - 1800 * millisecond))%Z.
Proof.
  destruct (coalesce_bound run_sample "t" 0 0 0 bump_sample _ eq_refl ltac:(discriminate)
    ltac:(split; discriminate) eq_refl) as (e & He & _ & Hm & _).
  - intros b Hb. apply list_elem_of_In in Hb. simpl in Hb. unfold millisecond in Hb.
    repeat (destruct Hb as [<-|Hb]; [simpl; lia|]). destruct Hb.
  - exists e. split; [exact He|exact Hm].
Defined.
End ManagerProps.
