(* ===== verification/GateDecisionProps.v ===== *)
(** What a forward-auth answer guarantees: when the gate lets a request
    through, that the two transports give the same answer, and whom the listing
    endpoint answers. *)

From Stdlib Require Import ZArith Lia Bool Ascii String.
From stdpp Require Import base gmap strings list.
From S2P Require Import Prelude.
From S2P Require Import GoStrings.
From S2P Require Import Snapshot.
From S2P Require Import RoutePath.
From S2P Require Import Evaluator.
From S2P Require Import GrantedNodes.
From S2P Require Import Tokens.
From S2P Require Import TokenProps.
From S2P Require Import Keyring.
From S2P Require Import Sdk.
From S2P Require Import Shared.
From S2P Require Import Gate.

Module DecisionProps.
Import Decision Claims.

Section Verify.
Context `{P : TokenPrims} (jc : string -> option Claims) `{I : SnapshotSource St}.

(** The token is one a ring key of the access purpose signed, for this issuer
    and tenant, inside its time bounds, and its session still stands. *)
Definition authentic (d : Decider St) (snap : Data) (now : Time) (token : string) (c : Claims) : Prop :=
  exists kid key msg, AccessToken.Kid token = Ok kid /\ Keys.Lookup (ring d) kid = Ok key /\
    Keys.Purpose key = Keys.PurposeAccess /\ AccessToken.Verify (Keys.Public key) token = Ok msg /\
    jc msg = Some c /\ Issuer c = issuer d /\ Tenant c = d_TenantSlug snap /\
    (Expires c = 0 \/ unix now <= Expires c)%Z /\
    (NotBefore c = 0 \/ wrap64 (NotBefore c - 60) <= unix now)%Z /\
    Evaluator.SessionAlive snap (Session c) (Epoch c) (Subject c) = true.

Lemma verify_spec d token snap now c :
  verify jc d token snap now = Some c <-> token <> ""%string /\ authentic d snap now token c.
Proof using.
  unfold verify, authentic. case_bool_decide as Ht; [by split; [|intros [? _]]|].
  destruct (AccessToken.Kid token) as [kid|]; [|split; [done|intros (_ & ? & ? & ? & ? & _); done]].
  destruct (Keys.Lookup (ring d) kid) as [key|] eqn:Ek;
    [|split; [done|intros (_ & k & ? & ? & [= ->] & ? & _); congruence]].
  destruct (bool_decide_reflect (Keys.Purpose key = Keys.PurposeAccess)) as [Hp|Hp]; cbn [negb];
    [|split; [done|intros (_ & k & key' & ? & [= ->] & ? & ? & _); congruence]].
  destruct (AccessToken.Verify (Keys.Public key) token) as [msg|] eqn:Ev;
    [|split; [done|intros (_ & k & key' & ? & [= ->] & ? & ? & ? & _); congruence]].
  destruct (jc msg) as [c0|] eqn:Ec;
    [|split; [done|intros (_ & k & key' & m & [= ->] & ? & ? & ? & ? & _); congruence]].
  trans (c0 = c /\ Issuer c = issuer d /\ Tenant c = d_TenantSlug snap /\
    (Expires c = 0 \/ unix now <= Expires c)%Z /\
    (NotBefore c = 0 \/ wrap64 (NotBefore c - 60) <= unix now)%Z /\
    Evaluator.SessionAlive snap (Session c) (Epoch c) (Subject c) = true).
  - destruct (_ || _) eqn:E.
    + split; [done|]. intros (-> & H1 & H2 & H3 & H4 & _). exfalso.
      revert E. rewrite H1, H2, !bool_decide_eq_true_2 by done. simpl.
      destruct (Z.eqb_spec (Expires c) 0), (Z.ltb_spec (Expires c) (unix now)),
        (Z.eqb_spec (NotBefore c) 0), (Z.ltb_spec (unix now) (wrap64 (NotBefore c - 60))); simpl; try done; lia.
    + rewrite !orb_false_iff, !negb_false_iff, !bool_decide_eq_true, !andb_false_iff, !negb_false_iff,
        !Z.eqb_eq, !Z.ltb_ge in E. destruct E as [[[H1 H2] H3] H4].
      destruct (Evaluator.SessionAlive _ _ _ _) eqn:Es; cbn [negb]; split.
      * intros [= <-]. done.
      * by intros (-> & _).
      * done.
      * intros (-> & _ & _ & _ & _ & ?). congruence.
  - split.
    + intros (-> & H). split; [done|]. exists kid, key, msg. tauto.
    + intros (_ & k & key' & m & [= ->] & Hk & _ & Hm & Hc & H).
      assert (key' = key) as -> by congruence. assert (m = msg) as -> by congruence. split; [congruence|done].
Qed.

(** The declarative rule for letting a request through. *)
Definition gate_allows (d : Decider St) (now0 now1 now2 : Time) (req : Request)
    (subject session : string) (scopes : gmap string string) : Prop :=
  q_Path req <> ""%string /\ q_Method req <> ""%string /\
  exists snap path route params, snaps_Get (snaps d) now0 (q_Tenant req) = (Some snap, true) /\
    Normalize.NormalizePath (q_Path req) = Some path /\
    Matcher.Match (d_Routes snap) (q_Host req) (q_Method req) path = Some (route, params) /\
    ((r_Effect route = "public"%string /\ subject = ""%string /\ session = ""%string /\ scopes = ∅) \/
     (r_Effect route <> "public"%string /\ r_Effect route <> "deny"%string /\
      exists c, q_Token req <> ""%string /\ authentic d snap now1 (q_Token req) c /\ "link"%string ∉ AMR c /\
        (r_Effect route = "require_permission"%string ->
           Evaluator.Evaluate snap (Subject c) (r_PermissionKey route) (targets_of route c params) now2 = true) /\
        subject = Subject c /\ session = Session c /\ scopes = Scopes c)).

Lemma not_link c : existsb (fun m => bool_decide (m = "link"%string)) (AMR c) = false <-> "link"%string ∉ AMR c.
Proof using.
  rewrite <- not_true_iff_false, existsb_spec. split; intros H Hin; apply H.
  - exists "link"%string. by rewrite bool_decide_eq_true.
  - destruct Hin as (x & Hx & Hb). apply bool_decide_eq_true in Hb. by subst.
Qed.

Lemma Decide_spec d now0 now1 now2 req dec :
  Decide jc d now0 now1 now2 req = dec -> d_Outcome dec = Allow ->
  gate_allows d now0 now1 now2 req (d_Subject dec) (d_Session dec) (d_Scopes dec).
Proof using.
  unfold Decide. destruct (_ || _) eqn:E1; [by intros <-|]. unbool.
  destruct (snaps_Get _ _ _) as [[snap|] fresh] eqn:E2; [|by intros <-].
  destruct fresh; cbn [negb]; [|by intros <-].
  destruct (Normalize.NormalizePath _) as [path|] eqn:E3; [|by intros <-].
  destruct (Matcher.Match _ _ _ _) as [[route params]|] eqn:E4; [|by intros <-].
  case_bool_decide as Hpub.
  { intros <- _. split_and!; try done. exists snap, path, route, params. split_and!; try done. by left. }
  case_bool_decide as Hdeny; [by intros <-|].
  destruct (verify jc d (q_Token req) snap now1) as [c|] eqn:E5; [|by intros <-].
  destruct (existsb _ _) eqn:E6; [by intros <-|]. apply not_link in E6.
  destruct (_ && _) eqn:E7; [by intros <-|]. intros <- _. simpl.
  split_and!; try done. exists snap, path, route, params. split_and!; try done. right.
  split_and!; try done. exists c. apply verify_spec in E5 as [? ?]. split_and!; try done.
  intros Hr. rewrite bool_decide_eq_true_2 in E7 by done. by apply negb_false_iff in E7.
Qed.

Lemma Decide_complete d now0 now1 now2 req subject session scopes :
  gate_allows d now0 now1 now2 req subject session scopes ->
  let dec := Decide jc d now0 now1 now2 req in
  d_Outcome dec = Allow /\ d_Subject dec = subject /\ d_Session dec = session /\ d_Scopes dec = scopes.
Proof using.
  intros (Hp & Hm & snap & path & route & params & E2 & E3 & E4 & H). simpl. unfold Decide.
  rewrite !bool_decide_eq_false_2 by done. cbn [orb]. rewrite E2. cbn [negb]. rewrite E3, E4.
  destruct H as [(Hpub & -> & -> & ->)|(Hpub & Hdeny & c & Ht & Hc & Hl & He & -> & -> & ->)].
  { by rewrite bool_decide_eq_true_2. }
  rewrite (bool_decide_eq_false_2 (_ = "public"%string)), (bool_decide_eq_false_2 (_ = "deny"%string)) by done.
  rewrite (proj2 (verify_spec d (q_Token req) snap now1 c)) by done.
  rewrite (proj2 (not_link c) Hl). destruct (bool_decide_reflect (r_Effect route = "require_permission"%string)).
  - by rewrite He.
  - done.
Qed.
End Verify.

(** C2: the gate lets a request through, and names the subject, session and
    scopes it forwards, exactly when the tenant's snapshot is fresh, the path
    normalises, its first matching route is public, or is not a deny route and
    the bearer token is authentic for this issuer and tenant, is not an access
    link's, its session stands, and, where the route requires a permission, the
    snapshot grants it on the targets the route binds. *)
Theorem Decide_allows `{P : TokenPrims} jc `{I : SnapshotSource St} (d : Decider St) now0 now1 now2 req :
  (d_Outcome (Decide jc d now0 now1 now2 req) = Allow ->
     let dec := Decide jc d now0 now1 now2 req in
     gate_allows jc d now0 now1 now2 req (d_Subject dec) (d_Session dec) (d_Scopes dec)) /\
  (forall subject session scopes, gate_allows jc d now0 now1 now2 req subject session scopes ->
     let dec := Decide jc d now0 now1 now2 req in
     d_Outcome dec = Allow /\ d_Subject dec = subject /\ d_Session dec = session /\ d_Scopes dec = scopes).
Proof. split; [by apply Decide_spec|]. intros subject session scopes. apply Decide_complete. Qed.

(** A snapshot source with one fresh tenant, for the witnesses. *)
Module ToySource.
#[export] Instance source : SnapshotSource Data := {|
  snaps_Get d now slug := if bool_decide (slug = d_TenantSlug d) then (Some d, (now <=? 100)%Z) else (None, false);
  snaps_max_age d := 100%Z
|}.
Definition public_route (effect : string) : Route :=
  {| r_AppSlug := "app"; r_Priority := 1; r_Effect := effect; r_PathPattern := "/a/**"; r_HostPattern := "";
     r_Methods := []; r_PermissionKey := ""; r_ScopeBindings := ∅ |}.
Definition snap (effect : string) : Data :=
  {| d_TenantID := "t"; d_TenantSlug := "acme"; d_Version := 1; d_LoadedAt := 0; d_BuiltAt := 0; d_StrictAxes := ∅;
     d_Scope := {| si_idx := ∅; si_parent := [] |}; d_GrantsByIdentity := ∅; d_SharesByIdentity := ∅;
     d_RolePermissions := ∅; d_Permissions := ∅;
     d_Identities := {["u" := {| i_TokenEpoch := 1; i_Blocked := false; i_AssuranceLevel := 1 |}]};
     d_RevokedSessions := ∅; d_Routes := [public_route effect] |}.
Definition decider (effect : string) : Decider Data :=
  {| issuer := "https://a"; ring := Keys.empty_ring; snaps := snap effect |}.
Definition req : Request :=
  {| q_Tenant := "acme"; q_Method := "GET"; q_Path := "/a/x"; q_Host := ""; q_Token := "" |}.
End ToySource.
Import ToySource.

Lemma Decide_allows_witness :
  d_Outcome (@Decide Toy.prims (fun _ => None) Data source (decider "public") 5 5 5 req) = Allow /\
  @gate_allows Toy.prims (fun _ => None) Data source (decider "public") 5 5 5 req "" "" ∅ /\
  d_Outcome (@Decide Toy.prims (fun _ => None) Data source (decider "require_auth") 5 5 5 req) = Unauthenticated.
Proof.
  split; [vm_compute; reflexivity|]. split; [|vm_compute; reflexivity].
  apply (proj1 (@Decide_allows Toy.prims (fun _ => None) Data source (decider "public") 5 5 5 req)).
  vm_compute. reflexivity.
Defined.

(** The two transports answer alike.  Asked the same question, the HTTP
    endpoint answers 204 exactly when Envoy's endpoint answers OK, and 401, 400
    and 403 exactly when it denies with that HTTP status; both forward the same
    identity headers on an allow, and Envoy is told to drop a caller's own. *)
Theorem transports_agree `{P : TokenPrims} jc `{I : SnapshotSource St} js (d : Decider St) url now0 now1 now2 h a :
  gate_request h = authz_request a ->
  let http := Http_Check js jc d url now0 now1 now2 h in
  let grpc := Grpc_Check js jc d url now0 now1 now2 a in
  (resp_code http = 204 <->
     exists hs, grpc = OkResponse codeOK hs ["x-anubis-subject"; "x-anubis-session"; "x-anubis-scope"]%string /\
       resp_headers http = hs)%Z /\
  (forall st, st <> 204%Z ->
     resp_code http = st <-> exists c m hs b, grpc = DeniedResponse c m st hs b /\ c <> codeOK) /\
  (resp_code http = 204 \/ resp_code http = 401 \/ resp_code http = 400 \/ resp_code http = 403)%Z.
Proof.
  intros Heq. unfold Http_Check, Grpc_Check. rewrite Heq. cbv zeta.
  unfold gate_response, response, http_Error.
  destruct (d_Outcome _); simpl; (split; [|split; [|tauto]]).
  all: try (split; [done|by intros (? & ? & _)]).
  all: try (split; [eauto|done]).
  all: intros st Hst; split; [intros <-|by intros (? & ? & ? & ? & [= <- <- <- <- <-] & _)].
  all: try done.
  all: eexists _, _, _, _; by split.
Qed.

(** A degraded gate answers 403 like a denial, but with another body. *)
Lemma unavailable_body_differs js url :
  let r1 := gate_response js url (refuse Unavailable "authorization snapshot unavailable") in
  let r2 := gate_response js url (refuse Denied "permission denied") in
  resp_code r1 = resp_code r2 /\ resp_body r1 <> resp_body r2.
Proof. by split. Qed.

Definition sample_headers (name : string) : string :=
  if bool_decide (name = "X-Anubis-Tenant"%string) then "acme"
  else if bool_decide (name = "X-Original-Method"%string) then "GET"
  else if bool_decide (name = "X-Original-URI"%string) then "/a/x"
  else if bool_decide (name = "Authorization"%string) then "bearer tok" else "".
Definition sample_attributes : Attributes :=
  {| at_method := "GET"; at_path := "/a/x"; at_host := "";
     at_headers := [("x-anubis-tenant", "acme"); ("AUTHORIZATION", "Bearer tok")]%string |}.

Lemma transports_agree_witness :
  gate_request sample_headers = authz_request sample_attributes /\
  (resp_code (@Http_Check (fun _ => "{}"%string) Toy.prims (fun _ => None) Data source (decider "public") "u" 5 5 5 sample_headers) = 204%Z <->
   exists hs, @Grpc_Check (fun _ => "{}"%string) Toy.prims (fun _ => None) Data source (decider "public") "u" 5 5 5 sample_attributes =
     OkResponse codeOK hs ["x-anubis-subject"; "x-anubis-session"; "x-anubis-scope"]%string /\
     resp_headers (@Http_Check (fun _ => "{}"%string) Toy.prims (fun _ => None) Data source (decider "public") "u" 5 5 5 sample_headers) = hs).
Proof.
  split; [vm_compute; reflexivity|].
  apply (@transports_agree Toy.prims (fun _ => None) Data source (fun _ => "{}"%string) (decider "public") "u" 5 5 5
    sample_headers sample_attributes).
  vm_compute. reflexivity.
Defined.
End DecisionProps.

Module NodesProps.
Import Apperr Authctx NodesInteractor.

(** The listing endpoint answers only a signed-in caller who did not come
    through an access link, about itself unless it is a service or an operator,
    and from a fresh snapshot, with what the decision engine lists; a subject
    or permission the tenant does not have is "not found", never an empty list. *)
Theorem Execute_answers `{I : SnapshotSource St} (snaps : St) now0 now principal inp out :
  Execute snaps now0 now principal inp = Ok out ->
  exists p snap, principal = Some p /\ LinkBound p = false /\
    (Service p = true \/ Platform p = true \/ SessionID p = ""%string \/ in_Subject inp = IdentityID p) /\
    snaps_Get snaps now0 (TenantSlug p) = (Some snap, true) /\
    GrantedNodes.GrantedNodes snap (in_Subject inp) (in_Permission inp) (in_Axis inp) (in_Scopes inp) now = (out, true) /\
    (size (in_Scopes inp) <= 16)%nat /\ Validate.ValidCode (in_Axis inp) = true /\
    (forall axis v, in_Scopes inp !! axis = Some v -> Validate.ValidCode axis = true).
Proof.
  unfold Execute. destruct principal as [p|]; [|done]. destruct (LinkBound p) eqn:El; [done|].
  destruct (_ || _) eqn:E1; [done|]. apply orb_false_iff in E1 as [_ Hcode]. apply negb_false_iff in Hcode.
  destruct (MayAskAbout p (in_Subject inp)) eqn:Em; cbn [negb]; [|done].
  destruct (Nat.ltb_spec 16 (size (in_Scopes inp))); [done|].
  destruct (find _ _) eqn:Ef; [done|].
  destruct (snaps_Get snaps now0 (TenantSlug p)) as [[snap|] fresh] eqn:Es; [|done].
  destruct fresh; cbn [negb]; [|done].
  destruct (GrantedNodes.GrantedNodes _ _ _ _ _ _) as [o known] eqn:Eg. destruct known; [|done]. intros [= ->].
  exists p, snap. split_and!; try done.
  - unfold MayAskAbout in Em. destruct (Service p); [by left|]. destruct (Platform p); [by right; left|]. simpl in Em.
    case_bool_decide; [by right; right; left|]. right; right; right. by apply bool_decide_eq_true in Em.
  - intros axis v Hv.
    assert (axis ∈ map fst (map_to_list (in_Scopes inp))) as Hin.
    { apply list_elem_of_fmap. exists (axis, v). split; [done|]. by apply elem_of_map_to_list. }
    apply list_elem_of_In in Hin. pose proof (find_none _ _ Ef axis Hin) as Hn. by apply negb_false_iff in Hn.
Qed.

Import DecisionProps.ToySource.
Definition sample_principal : Principal :=
  {| IdentityID := "u"; TenantID := "t"; TenantSlug := "acme"; SessionID := "s"; Realm := ""; Roles := [];
     Scopes := ∅; AMR := ["pwd"%string]; AuthTime := 0; IAL := 1; Epoch := 1; Audience := []; Service := false;
     Platform := false; Token := "" |}.
Definition sample_snap : Data :=
  let d := snap "public" in
  {| d_TenantID := d_TenantID d; d_TenantSlug := d_TenantSlug d; d_Version := 1; d_LoadedAt := 0; d_BuiltAt := 0;
     d_StrictAxes := ∅; d_Scope := d_Scope d; d_GrantsByIdentity := ∅; d_SharesByIdentity := ∅; d_RolePermissions := ∅;
     d_Permissions := {["read" := {| p_Key := "read"; p_MinAssurance := 0; p_RequiresAMR := []; p_MaxAuthAgeSecs := 0; p_Risk := "" |}]};
     d_Identities := d_Identities d; d_RevokedSessions := ∅; d_Routes := [] |}.
Definition sample_input (subject : string) : NodesInput :=
  {| in_Subject := subject; in_Permission := "read"; in_Axis := "org"; in_Scopes := ∅ |}.

Lemma Execute_answers_witness : exists out,
  Execute sample_snap 5 5 (Some sample_principal) (sample_input "u") = Ok out /\
  Execute sample_snap 5 5 (Some sample_principal) (sample_input "v") <> Ok out /\
  exists p snap, Some sample_principal = Some p /\ snaps_Get sample_snap 5 (TenantSlug p) = (Some snap, true).
Proof.
  destruct (Execute sample_snap 5 5 (Some sample_principal) (sample_input "u")) as [out|] eqn:E;
    [|vm_compute in E; discriminate].
  exists out. split; [reflexivity|]. split; [vm_compute; discriminate|].
  destruct (Execute_answers sample_snap 5 5 (Some sample_principal) (sample_input "u") out E)
    as (p & s & H1 & _ & _ & H2 & _).
  exists p, s. split; [exact H1|exact H2].
Defined.
End NodesProps.
