(* ===== verification/AuthStore.v ===== *)
(** internal/auth: the session and refresh-token tables and the repository
    operations over them (adapter/postgres/refresh_repository.go,
    session_repository.go, with the statements of adapter/postgres/rquery).
    A table is the list of its rows; a statement is atomic.  A [DbEnv] says what
    the database does during one handler: its clock, the ids it generates, and
    which calls fail. *)

From Stdlib Require Import ZArith Lia Bool Ascii String.
From stdpp Require Import base gmap strings list.
From S2P Require Import Prelude.
From S2P Require Import Shared.

Module AuthStore.
Import Apperr.

(** ** Rows *)

Record TokenRow := {
  t_ID : string; t_SessionID : string; t_TenantID : string; t_FamilyID : string; t_Generation : Z;
  t_Hash : string; t_Status : string; t_ExpiresAt : Time; t_BoundKey : option string;
  t_ClientID : option string; t_SuccessorID : option string
}.

Record SessionRow := {
  s_ID : string; s_IdentityID : string; s_TenantID : string; s_ApplicationID : option string;
  s_AMR : list string; s_CreatedAt : Time; s_LastSeenAt : Time; s_AuthTime : Time; s_ExpiresAt : Time;
  s_ActiveScopes : string; s_DeviceFP : option string; s_RevokedAt : option Time;
  s_RevokeReason : option string; s_CookieHash : option string
}.

Record IdentityRow := {
  id_ID : string; id_TenantID : string; id_TokenEpoch : Z; id_Status : string; id_AssuranceLevel : Z;
  id_Username : option string; id_Email : option string; id_RealmID : option string;
  id_RealmCode : option string; id_DisabledAt : option Time; id_AnonymizedAt : option Time;
  id_LastLoginAt : option Time
}.

Record AuditEvent := {
  au_TenantID : string; au_ActorID : string; au_ActorKind : string; au_TargetID : string;
  au_SessionID : string; au_Action : string; au_Result : string; au_IP : string;
  au_Detail : gmap string string
}.

Record Store := {
  st_tokens : list TokenRow;
  st_sessions : list SessionRow;
  st_idents : list IdentityRow;
  st_audit : list AuditEvent
}.

(** ** Domain values (internal/auth/domain) *)

Record RefreshInput := {
  ri_SessionID : string; ri_TenantID : string; ri_FamilyID : string; ri_Generation : Z;
  ri_TokenHash : string; ri_ExpiresAt : Time; ri_BoundKey : string; ri_ClientID : string
}.
Record RefreshClaim := {
  rc_ID : string; rc_SessionID : string; rc_TenantID : string; rc_FamilyID : string;
  rc_Generation : Z; rc_ExpiresAt : Time; rc_ClientID : string
}.
Record RefreshInfo := {
  rf_ID : string; rf_SessionID : string; rf_TenantID : string; rf_FamilyID : string;
  rf_Status : string; rf_ExpiresAt : Time
}.
Record SessionInput := {
  si_IdentityID : string; si_TenantID : string; si_ApplicationID : string; si_AMR : list string;
  si_DeviceFP : string; si_IP : string; si_UserAgent : string; si_ActiveScopes : string; si_ExpiresAt : Time
}.
Record SessionView := {
  v_ID : string; v_IdentityID : string; v_TenantID : string; v_ApplicationID : string; v_AMR : list string;
  v_CreatedAt : Time; v_LastSeenAt : Time; v_AuthTime : Time; v_ExpiresAt : Time; v_ActiveScopes : string;
  v_DeviceFP : string; v_TokenEpoch : Z; v_IdentityStatus : string; v_AssuranceLevel : Z;
  v_Username : string; v_Email : string; v_RealmID : string; v_RealmCode : string
}.
Record RevokedSession := { rs_ID : string; rs_IdentityID : string; rs_ApplicationID : string }.

(** ** The database during one handler *)

Inductive DbOp :=
| OpCreateRefresh | OpClaimRefresh | OpRefreshByHash | OpSetSuccessor | OpRevokeFamily | OpRevokeBySessions
| OpCreateSession | OpSessionLive | OpRevokeSession | OpRevokeAll | OpTouch | OpSessionState | OpBumpEpoch
| OpBegin | OpCommit.

Record DbEnv := {
  db_fails : DbOp -> bool;
  db_now : Time;
  db_token_id : string;     (* uuidv7() of an inserted refresh token *)
  db_session_id : string    (* uuidv7() of an inserted session *)
}.

Definition DbErr : Error := Wrap ErrInternal "database".
Definition NotFound : Error := ErrNotFound.

Section Ops.
Context (env : DbEnv).

Abbreviation M := (Eff Store Error).

(** A call that fails fails before its statement takes effect. *)
Definition guarded {A} (op : DbOp) (m : M A) : M A :=
  fun s => if db_fails env op then (Err DbErr, s) else m s.

Definition with_tokens (s : Store) (l : list TokenRow) : Store :=
  {| st_tokens := l; st_sessions := st_sessions s; st_idents := st_idents s; st_audit := st_audit s |}.
Definition with_sessions (s : Store) (l : list SessionRow) : Store :=
  {| st_tokens := st_tokens s; st_sessions := l; st_idents := st_idents s; st_audit := st_audit s |}.
Definition with_idents (s : Store) (l : list IdentityRow) : Store :=
  {| st_tokens := st_tokens s; st_sessions := st_sessions s; st_idents := l; st_audit := st_audit s |}.

Definition nullif (s : string) : option string := if bool_decide (s = ""%string) then None else Some s.

Definition set_status (status : string) (t : TokenRow) : TokenRow :=
  {| t_ID := t_ID t; t_SessionID := t_SessionID t; t_TenantID := t_TenantID t; t_FamilyID := t_FamilyID t;
     t_Generation := t_Generation t; t_Hash := t_Hash t; t_Status := status; t_ExpiresAt := t_ExpiresAt t;
     t_BoundKey := t_BoundKey t; t_ClientID := t_ClientID t; t_SuccessorID := t_SuccessorID t |}.
Definition set_successor (id : string) (t : TokenRow) : TokenRow :=
  {| t_ID := t_ID t; t_SessionID := t_SessionID t; t_TenantID := t_TenantID t; t_FamilyID := t_FamilyID t;
     t_Generation := t_Generation t; t_Hash := t_Hash t; t_Status := t_Status t; t_ExpiresAt := t_ExpiresAt t;
     t_BoundKey := t_BoundKey t; t_ClientID := t_ClientID t; t_SuccessorID := Some id |}.

Definition is_active (t : TokenRow) : bool := bool_decide (t_Status t = "active"%string).

(** *** refresh_repository.go *)

(** The unique index is on the hash and the expiry. *)
Definition CreateRefresh (inp : RefreshInput) : M string :=
  guarded OpCreateRefresh (fun s =>
    if existsb (fun t => bool_decide (t_Hash t = ri_TokenHash inp) && bool_decide (t_ExpiresAt t = ri_ExpiresAt inp))
         (st_tokens s)
    then (Err (Wrap ErrConflict "refresh_tokens_hash"), s)
    else
      let row := {| t_ID := db_token_id env; t_SessionID := ri_SessionID inp; t_TenantID := ri_TenantID inp;
                    t_FamilyID := ri_FamilyID inp; t_Generation := ri_Generation inp; t_Hash := ri_TokenHash inp;
                    t_Status := "active"; t_ExpiresAt := ri_ExpiresAt inp; t_BoundKey := nullif (ri_BoundKey inp);
                    t_ClientID := nullif (ri_ClientID inp); t_SuccessorID := None |} in
      (Ok (t_ID row), with_tokens s (st_tokens s ++ [row]))).

Definition claimable (hash : string) (t : TokenRow) : bool :=
  bool_decide (t_Hash t = hash) && is_active t && (db_now env <? t_ExpiresAt t)%Z && bool_decide (t_BoundKey t = None).

Definition claim_of (t : TokenRow) : RefreshClaim :=
  {| rc_ID := t_ID t; rc_SessionID := t_SessionID t; rc_TenantID := t_TenantID t; rc_FamilyID := t_FamilyID t;
     rc_Generation := t_Generation t; rc_ExpiresAt := t_ExpiresAt t; rc_ClientID := default ""%string (t_ClientID t) |}.

Definition ClaimRefresh (hash : string) : M RefreshClaim :=
  guarded OpClaimRefresh (fun s =>
    match find (claimable hash) (st_tokens s) with
    | None => (Err NotFound, s)
    | Some t => (Ok (claim_of t),
                 with_tokens s (map (fun t => if claimable hash t then set_status "consumed" t else t) (st_tokens s)))
    end).

Definition info_of (t : TokenRow) : RefreshInfo :=
  {| rf_ID := t_ID t; rf_SessionID := t_SessionID t; rf_TenantID := t_TenantID t; rf_FamilyID := t_FamilyID t;
     rf_Status := t_Status t; rf_ExpiresAt := t_ExpiresAt t |}.

(** A miss is a nil result. *)
Definition RefreshByHash (hash : string) : M (option RefreshInfo) :=
  guarded OpRefreshByHash (fun s => (Ok (info_of <$> find (fun t => bool_decide (t_Hash t = hash)) (st_tokens s)), s)).

Definition SetRefreshSuccessor (id : string) (expiresAt : Time) (successorID : string) : M unit :=
  guarded OpSetSuccessor (fun s =>
    (Ok tt, with_tokens s (map (fun t => if bool_decide (t_ID t = id) && bool_decide (t_ExpiresAt t = expiresAt)
                                         then set_successor successorID t else t) (st_tokens s)))).

(** The UPDATE of the revocations: active rows that match become revoked. *)
Definition revoke_rows (match_row : TokenRow -> bool) (l : list TokenRow) : list TokenRow :=
  map (fun t => if match_row t && is_active t then set_status "revoked" t else t) l.

(** The rows it affected. *)
Definition revoke_count (match_row : TokenRow -> bool) (l : list TokenRow) : Z :=
  Z.of_nat (length (List.filter (fun t => match_row t && is_active t) l)).

Definition RevokeRefreshFamily (familyID : string) : M Z :=
  guarded OpRevokeFamily (fun s =>
    (Ok (revoke_count (fun t => bool_decide (t_FamilyID t = familyID)) (st_tokens s)), with_tokens s (revoke_rows (fun t => bool_decide (t_FamilyID t = familyID)) (st_tokens s)))).

Definition RevokeRefreshBySessions (ids : list string) : M Z :=
  if bool_decide (ids = []) then mret 0%Z
  else guarded OpRevokeBySessions (fun s =>
    (Ok (revoke_count (fun t => bool_decide (t_SessionID t ∈ ids)) (st_tokens s)), with_tokens s (revoke_rows (fun t => bool_decide (t_SessionID t ∈ ids)) (st_tokens s)))).

(** *** session_repository.go *)

Definition CreateSession (inp : SessionInput) : M SessionRow :=
  guarded OpCreateSession (fun s =>
    let row := {| s_ID := db_session_id env; s_IdentityID := si_IdentityID inp; s_TenantID := si_TenantID inp;
                  s_ApplicationID := nullif (si_ApplicationID inp); s_AMR := si_AMR inp; s_CreatedAt := db_now env;
                  s_LastSeenAt := db_now env; s_AuthTime := db_now env; s_ExpiresAt := si_ExpiresAt inp;
                  s_ActiveScopes := si_ActiveScopes inp; s_DeviceFP := nullif (si_DeviceFP inp);
                  s_RevokedAt := None; s_RevokeReason := None; s_CookieHash := None |} in
    (Ok row, with_sessions s (st_sessions s ++ [row]))).

Definition session_live (id : string) (r : SessionRow) : bool :=
  bool_decide (s_ID r = id) && bool_decide (s_RevokedAt r = None) && (db_now env <? s_ExpiresAt r)%Z.

Definition identity_of (s : Store) (r : SessionRow) : option IdentityRow :=
  find (fun i => bool_decide (id_ID i = s_IdentityID r) && bool_decide (id_TenantID i = s_TenantID r)) (st_idents s).

Definition view_of (r : SessionRow) (i : IdentityRow) : SessionView :=
  {| v_ID := s_ID r; v_IdentityID := s_IdentityID r; v_TenantID := s_TenantID r;
     v_ApplicationID := default ""%string (s_ApplicationID r); v_AMR := s_AMR r; v_CreatedAt := s_CreatedAt r;
     v_LastSeenAt := s_LastSeenAt r; v_AuthTime := s_AuthTime r; v_ExpiresAt := s_ExpiresAt r;
     v_ActiveScopes := s_ActiveScopes r; v_DeviceFP := default ""%string (s_DeviceFP r);
     v_TokenEpoch := id_TokenEpoch i; v_IdentityStatus := id_Status i; v_AssuranceLevel := id_AssuranceLevel i;
     v_Username := default ""%string (id_Username i); v_Email := default ""%string (id_Email i);
     v_RealmID := default ""%string (id_RealmID i); v_RealmCode := default ""%string (id_RealmCode i) |}.

Definition SessionLive (id : string) : M SessionView :=
  guarded OpSessionLive (fun s =>
    match find (session_live id) (st_sessions s) with
    | None => (Err NotFound, s)
    | Some r => match identity_of s r with
                | None => (Err NotFound, s)
                | Some i => (Ok (view_of r i), s)
                end
    end).

Definition set_revoked (reason : string) (r : SessionRow) : SessionRow :=
  {| s_ID := s_ID r; s_IdentityID := s_IdentityID r; s_TenantID := s_TenantID r; s_ApplicationID := s_ApplicationID r;
     s_AMR := s_AMR r; s_CreatedAt := s_CreatedAt r; s_LastSeenAt := s_LastSeenAt r; s_AuthTime := s_AuthTime r;
     s_ExpiresAt := s_ExpiresAt r; s_ActiveScopes := s_ActiveScopes r; s_DeviceFP := s_DeviceFP r;
     s_RevokedAt := Some (db_now env); s_RevokeReason := Some reason; s_CookieHash := None |}.

Definition revoked_of (r : SessionRow) : RevokedSession :=
  {| rs_ID := s_ID r; rs_IdentityID := s_IdentityID r; rs_ApplicationID := default ""%string (s_ApplicationID r) |}.

Definition revocable (tenantID id : string) (r : SessionRow) : bool :=
  bool_decide (s_ID r = id) && bool_decide (s_TenantID r = tenantID) && bool_decide (s_RevokedAt r = None).

(** A session already revoked is "not found". *)
Definition RevokeSession (tenantID id reason : string) : M RevokedSession :=
  guarded OpRevokeSession (fun s =>
    match find (revocable tenantID id) (st_sessions s) with
    | None => (Err NotFound, s)
    | Some r => (Ok (revoked_of r),
                 with_sessions s (map (fun r => if revocable tenantID id r then set_revoked reason r else r) (st_sessions s)))
    end).

Definition revocable_all (tenantID identityID : string) (r : SessionRow) : bool :=
  bool_decide (s_IdentityID r = identityID) && bool_decide (s_TenantID r = tenantID) && bool_decide (s_RevokedAt r = None).

Definition RevokeAllSessions (tenantID identityID reason : string) : M (list RevokedSession) :=
  guarded OpRevokeAll (fun s =>
    (Ok (map revoked_of (List.filter (revocable_all tenantID identityID) (st_sessions s))),
     with_sessions s (map (fun r => if revocable_all tenantID identityID r then set_revoked reason r else r) (st_sessions s)))).

(** Best effort. *)
Definition TouchSession (id : string) : M unit :=
  fun s => (Ok tt, if db_fails env OpTouch then s else
    with_sessions s (map (fun r => if bool_decide (s_ID r = id) then
      {| s_ID := s_ID r; s_IdentityID := s_IdentityID r; s_TenantID := s_TenantID r; s_ApplicationID := s_ApplicationID r;
         s_AMR := s_AMR r; s_CreatedAt := s_CreatedAt r; s_LastSeenAt := db_now env; s_AuthTime := s_AuthTime r;
         s_ExpiresAt := s_ExpiresAt r; s_ActiveScopes := s_ActiveScopes r; s_DeviceFP := s_DeviceFP r;
         s_RevokedAt := s_RevokedAt r; s_RevokeReason := s_RevokeReason r; s_CookieHash := s_CookieHash r |}
      else r) (st_sessions s))).

(** (revoked, expired, epoch, blocked); [now] is the adapter's own clock. *)
Definition SessionState (now : Time) (tenantID id : string) : M (bool * bool * Z * bool) :=
  guarded OpSessionState (fun s =>
    match find (fun r => bool_decide (s_ID r = id) && bool_decide (s_TenantID r = tenantID)) (st_sessions s) with
    | None => (Err NotFound, s)
    | Some r =>
        match identity_of s r with
        | None => (Err NotFound, s)
        | Some i =>
            (Ok (bool_decide (is_Some (s_RevokedAt r)), negb (time_after (s_ExpiresAt r) now), id_TokenEpoch i,
                 negb (bool_decide (id_Status i = "active"%string)) || bool_decide (is_Some (id_DisabledAt i)) ||
                 bool_decide (is_Some (id_AnonymizedAt i))), s)
        end
    end).

(** *** identity_repository.go *)

Definition bump (i : IdentityRow) : IdentityRow :=
  {| id_ID := id_ID i; id_TenantID := id_TenantID i; id_TokenEpoch := id_TokenEpoch i + 1; id_Status := id_Status i;
     id_AssuranceLevel := id_AssuranceLevel i; id_Username := id_Username i; id_Email := id_Email i;
     id_RealmID := id_RealmID i; id_RealmCode := id_RealmCode i; id_DisabledAt := id_DisabledAt i;
     id_AnonymizedAt := id_AnonymizedAt i; id_LastLoginAt := id_LastLoginAt i |}.

(** Best effort. *)
Definition TouchLastLogin (id : string) : M unit :=
  fun s => (Ok tt, if db_fails env OpTouch then s else
    with_idents s (map (fun i => if bool_decide (id_ID i = id) then
      {| id_ID := id_ID i; id_TenantID := id_TenantID i; id_TokenEpoch := id_TokenEpoch i; id_Status := id_Status i;
         id_AssuranceLevel := id_AssuranceLevel i; id_Username := id_Username i; id_Email := id_Email i;
         id_RealmID := id_RealmID i; id_RealmCode := id_RealmCode i; id_DisabledAt := id_DisabledAt i;
         id_AnonymizedAt := id_AnonymizedAt i; id_LastLoginAt := Some (db_now env) |}
      else i) (st_idents s))).

Definition BumpTokenEpoch (tenantID id : string) : M Z :=
  guarded OpBumpEpoch (fun s =>
    let hit i := bool_decide (id_ID i = id) && bool_decide (id_TenantID i = tenantID) in
    match find hit (st_idents s) with
    | None => (Err ErrNotFound, s)
    | Some i => (Ok (id_TokenEpoch i + 1)%Z,
                 with_idents s (map (fun i => if hit i then bump i else i) (st_idents s)))
    end).

(** *** db.go: WithinTx *)

Definition WithinTx {E A} (wrap : Error -> E) (m : Eff Store E A) : Eff Store E A :=
  if db_fails env OpBegin then raise (wrap DbErr)
  else within_tx (if db_fails env OpCommit then Some (wrap DbErr) else None) m.

(** *** The auditor *)
Definition Emit {E} (ev : AuditEvent) : Eff Store E unit :=
  fun s => (Ok tt, {| st_tokens := st_tokens s; st_sessions := st_sessions s; st_idents := st_idents s;
                      st_audit := st_audit s ++ [ev] |}).

End Ops.
End AuthStore.
