(* ===== verification/TokenIssuer.v ===== *)
(** internal/auth/app/paseto_token_issuer.go: minting an access token and a
    refresh-token generation for a session.  Repositories that the issuer only
    reads (tenants, realms, applications, roles) are ports answering as they
    answer at that moment; randomness, JSON, SHA-256 and Ed25519 are parameters. *)

From Stdlib Require Import ZArith Lia Bool Ascii String.
From stdpp Require Import base gmap strings list.
From S2P Require Import Prelude.
From S2P Require Import GoStrings.
From S2P Require Import Base64.
From S2P Require Import Tokens.
From S2P Require Import Keyring.
From S2P Require Import Sdk.
From S2P Require Import Shared.
From S2P Require Import AuthStore.

Module Issuer.
Import Apperr AuthStore.

(** ** Data *)

Record TenantRef := { tn_ID : string; tn_Slug : string; tn_Status : string }.
Definition Serving (t : TenantRef) : bool := bool_decide (tn_Status t = "active"%string).

(** The fields of a realm and an application that signing in reads. *)
Record Realm := { rm_AccessTokenTTL : Duration; rm_RefreshTokenTTL : Duration; rm_SessionTTL : Duration }.
Record Application := {
  app_ID : string; app_Slug : string; app_SignIn : string; app_TokenFormat : string;
  app_AccessTokenTTLSecs : Z; app_RefreshTokenTTLSecs : Z;
  app_Status : string; app_IsSystem : bool; app_ClientSecretHash : string; app_AllowedAudiences : list string
}.

Record IssueInput := {
  is_Session : SessionView;
  is_TenantSlug : string;
  is_ClientID : string;
  is_RotateFrom : option RefreshClaim;
  is_AccessOnly : bool
}.

Record TokenPair := {
  tp_AccessToken : string;
  tp_RefreshToken : string;
  tp_TokenType : string;
  tp_ExpiresIn : Z;
  tp_SessionID : string
}.

(** crypto/sha256, encoding/json on the values the issuer marshals. *)
Class IssuerPrims := {
  sha256 : string -> string;
  json_of_claims : Claims.Claims -> option string;
  json_parse_scopes : string -> option (gmap string string);
  json_footer : string -> string
}.

(** What the other repositories, the ring and the random source answer. *)
Record Ports := {
  p_issuer : string;
  p_ring : Keys.Ring;
  p_now : Time;
  p_tenant : string -> option TenantRef;                        (* TenantByID *)
  p_realm : string -> option Realm;                             (* RealmByID *)
  p_app : string -> string -> option Application;               (* ApplicationBySlug *)
  p_holds : string -> string -> string -> option bool;          (* HoldsRoleInApp *)
  p_roles_in_app : string -> string -> string -> option (list string);
  p_roles : string -> string -> option (list string);
  p_jti : option string;                                        (* 16 random bytes *)
  p_refresh : option string;                                    (* 32 random bytes *)
  p_family : option string                                      (* 16 random bytes *)
}.

(** secret.New: the base64url text of the bytes read. *)
Definition secret_New (entropy : option string) : option string := Base64.encode <$> entropy.

Section Issue.
Context `{P : TokenPrims} `{IP : IssuerPrims}.

(** secret.Hash *)
Definition Hash (s : string) : string := sha256 s.

Definition maxRolesInToken : nat := 32.
Definition pasetoFormat : string := "v4.public".
Definition jwsFormat : string := "jws.eddsa".

(** A stricter application lifetime wins. *)
Definition stricter (secs : Z) (current : Duration) : Duration :=
  let d := wrap64 (secs * second) in if ((0 <? d) && (d <? current))%Z then d else current.

(** (access, refresh, aud, appID, format, signIn) *)
Definition ttls (p : Ports) (s : SessionView) (clientID : string)
    : result Error (Duration * Duration * list string * string * string * string) :=
  let access := (10 * minute)%Z in
  let refresh := (30 * 24 * 60 * minute)%Z in
  let '(access, refresh) :=
    if bool_decide (v_RealmID s = ""%string) then (access, refresh)
    else match p_realm p (v_RealmID s) with
         | None => (access, refresh)
         | Some r => (if (0 <? rm_AccessTokenTTL r)%Z then rm_AccessTokenTTL r else access,
                      if (0 <? rm_RefreshTokenTTL r)%Z then rm_RefreshTokenTTL r else refresh)
         end in
  if bool_decide (clientID = ""%string) then Ok (access, refresh, ["anubis"%string], ""%string, pasetoFormat, ""%string)
  else match p_app p (v_TenantID s) clientID with
       | None => Err (With ErrInvalidArgument "client_id" "unknown application")
       | Some app =>
           Ok (stricter (app_AccessTokenTTLSecs app) access, stricter (app_RefreshTokenTTLSecs app) refresh,
               [app_Slug app], app_ID app,
               if bool_decide (app_TokenFormat app = jwsFormat) then jwsFormat else pasetoFormat, app_SignIn app)
       end.

Definition hex_digit (d : Z) : ascii := if (d <? 10)%Z then chr (48 + d) else chr (87 + d).

Fixpoint hex_bytes (i : nat) (bs : list Z) : string :=
  match bs with
  | [] => EmptyString
  | c :: rest =>
      let dash := if (i =? 4)%nat || (i =? 6)%nat || (i =? 8)%nat || (i =? 10)%nat then "-"%string else ""%string in
      (dash ++ String (hex_digit (Z.shiftr c 4)) (String (hex_digit (Z.land c 15)) (hex_bytes (S i) rest)))%string
  end.

(** UnixMilli *)
Definition unix_milli (t : Time) : Z := (t / millisecond - 62135596800000)%Z.

Definition newUUIDv7ish (p : Ports) : option string :=
  raw ← secret_New (p_family p);
  let b := map code (list_ascii_of_string (default ""%string (Base64.decode false raw))) in
  let ms := (unix_milli (p_now p) mod 2 ^ 64)%Z in
  let byte k := (Z.shiftr ms k mod 256)%Z in
  let b := <[0%nat := byte 40%Z]> (<[1%nat := byte 32%Z]> (<[2%nat := byte 24%Z]> (<[3%nat := byte 16%Z]>
             (<[4%nat := byte 8%Z]> (<[5%nat := byte 0%Z]> b))))) in
  let b := alter (fun x => Z.lor (Z.land x 15) 112) 6%nat b in
  let b := alter (fun x => Z.lor (Z.land x 63) 128) 8%nat b in
  Some (hex_bytes 0 (take 16 b)).

(** A port that failed is an internal error. *)
Definition need {A} (why : string) (o : option A) : result Error A :=
  match o with Some a => Ok a | None => Err (Wrap ErrInternal why) end.

(** Who may be issued a token at all. *)
Definition may_issue (p : Ports) (s : SessionView) : result Error unit :=
  if bool_decide (v_IdentityStatus s = "active"%string) then
    tenant ← need "tenant" (p_tenant p (v_TenantID s));
    if negb (Serving tenant) then Err (With ErrPermissionDenied "reason" "this organisation is not active")
    else Ok tt
  else if bool_decide (v_IdentityStatus s = "locked"%string) then Err ErrIdentityLocked
  else Err ErrIdentityDisabled.

(** An app closed to role holders is closed at the door. *)
Definition may_enter (p : Ports) (s : SessionView) (clientID appID signIn : string) : result Error unit :=
  if bool_decide (signIn = "role_holders"%string) then
    holds ← need "authz" (p_holds p (v_TenantID s) (v_IdentityID s) appID);
    if (holds : bool) then Ok tt
    else Err (With (With ErrPermissionDenied "client_id" clientID)
                "reason" "only people with a role in this app may sign in to it")
  else Ok tt.

Definition token_roles (p : Ports) (s : SessionView) (appID : string) : result Error (list string) :=
  roles ← need "authz" (if bool_decide (appID = ""%string) then p_roles p (v_TenantID s) (v_IdentityID s)
                        else p_roles_in_app p (v_TenantID s) (v_IdentityID s) appID);
  Ok (take maxRolesInToken roles).

Definition token_scopes (s : SessionView) : result Error (gmap string string) :=
  if bool_decide (v_ActiveScopes s = ""%string) then Ok ∅ else need "scopes" (json_parse_scopes (v_ActiveScopes s)).

Definition claims_for (p : Ports) (inp : IssueInput) (accessTTL : Duration) (aud roles : list string)
    (scopes : gmap string string) (jti : string) : Claims.Claims :=
  let s := is_Session inp in
  let now := p_now p in
  {| Claims.Issuer := p_issuer p; Claims.Subject := v_IdentityID s; Claims.Audience := aud;
     Claims.Expires := unix (now + accessTTL)%Z; Claims.IssuedAt := unix now; Claims.NotBefore := unix now;
     Claims.TokenID := jti; Claims.Session := v_ID s; Claims.Tenant := is_TenantSlug inp; Claims.Roles := roles;
     Claims.Scope := ""; Claims.Scopes := scopes; Claims.Realm := v_RealmCode s; Claims.IAL := v_AssuranceLevel s;
     Claims.AMR := v_AMR s; Claims.AuthTime := unix (v_AuthTime s); Claims.Epoch := v_TokenEpoch s;
     Claims.Version := 1 |}.

(** One key, two encodings; the application chooses. *)
Definition sign_access (key : Keys.Key) (format body : string) : result Error string :=
  let sk := default ""%string (Keys.Private key) in
  if bool_decide (format = jwsFormat)
  then match Jws.Sign sk body (Keys.Kid key) with Ok t => Ok t | Err _ => Err (Wrap ErrInternal "sign") end
  else match Paseto.Sign sk body (json_footer (Keys.Kid key)) "" with Ok t => Ok t | Err _ => Err (Wrap ErrInternal "sign") end.

(** The access token and what the refresh generation needs. *)
Definition mint_access (p : Ports) (inp : IssueInput) : result Error (TokenPair * Duration) :=
  let s := is_Session inp in
  _ ← may_issue p s;
  t ← ttls p s (is_ClientID inp);
  let '(accessTTL, refreshTTL, aud, appID, format, signIn) := t in
  _ ← may_enter p s (is_ClientID inp) appID signIn;
  roles ← token_roles p s appID;
  scopes ← token_scopes s;
  jti ← need "random" (secret_New (p_jti p));
  body ← need "json" (json_of_claims (claims_for p inp accessTTL aud roles scopes jti));
  key ← match Keys.ActiveAccessAt (p_ring p) (p_now p) with Ok k => Ok k | Err _ => Err (Wrap ErrInternal "key") end;
  access ← sign_access key format body;
  Ok ({| tp_AccessToken := access; tp_RefreshToken := ""; tp_TokenType := "Bearer";
         tp_ExpiresIn := Z.quot accessTTL second; tp_SessionID := v_ID s |}, refreshTTL).

(** The family continued, or a new one. *)
Definition family_of (p : Ports) (inp : IssueInput) : result Error (string * Z) :=
  match is_RotateFrom inp with
  | Some rc => Ok (rc_FamilyID rc, rc_Generation rc + 1)%Z
  | None => fid ← need "random" (newUUIDv7ish p); Ok (fid, 0%Z)
  end.

(** [in.ClientID = in.RotateFrom.ClientID] *)
Definition pinned (inp : IssueInput) : IssueInput :=
  match is_RotateFrom inp with
  | None => inp
  | Some rc => {| is_Session := is_Session inp; is_TenantSlug := is_TenantSlug inp; is_ClientID := rc_ClientID rc;
                  is_RotateFrom := is_RotateFrom inp; is_AccessOnly := is_AccessOnly inp |}
  end.

Definition internal (e : Error) : Error := Wrap ErrInternal (Error_text e).

Definition Issue (env : DbEnv) (p : Ports) (inp : IssueInput) : Eff Store Error TokenPair :=
  let inp := pinned inp in
  let s := is_Session inp in
  minted ← lift (mint_access p inp);
  let '(issued, refreshTTL) := minted in
  if is_AccessOnly inp then mret issued
  else
    raw ← lift (need "random" (secret_New (p_refresh p)));
    let refreshToken := ("anb_rt_" ++ raw)%string in
    fam ← lift (family_of p inp);
    newID ← map_err internal (CreateRefresh env
      {| ri_SessionID := v_ID s; ri_TenantID := v_TenantID s; ri_FamilyID := fst fam; ri_Generation := snd fam;
         ri_TokenHash := Hash refreshToken; ri_ExpiresAt := (p_now p + refreshTTL)%Z; ri_BoundKey := "";
         ri_ClientID := is_ClientID inp |});
    _ ← match is_RotateFrom inp with
        | Some rc => map_err internal (SetRefreshSuccessor env (rc_ID rc) (rc_ExpiresAt rc) newID)
        | None => mret tt
        end;
    mret {| tp_AccessToken := tp_AccessToken issued; tp_RefreshToken := refreshToken; tp_TokenType := tp_TokenType issued;
            tp_ExpiresIn := tp_ExpiresIn issued; tp_SessionID := tp_SessionID issued |}.

End Issue.
End Issuer.
