(* ===== verification/IssuerProps.v ===== *)
(** internal/auth/app/paseto_token_issuer.go: what a minted access token is. *)

From Stdlib Require Import ZArith Lia Bool Ascii String.
From stdpp Require Import base gmap strings list.
From S2P Require Import Prelude.
From S2P Require Import GoStrings.
From S2P Require Import Tokens.
From S2P Require Import TokenProps.
From S2P Require Import Keyring.
From S2P Require Import Sdk.
From S2P Require Import Shared.
From S2P Require Import AuthStore.
From S2P Require Import TokenIssuer.

Module IssuerProps.
Import Apperr AuthStore Issuer CodecProps.

(** What the issuer relies on of encoding/json: the footer it writes names its key. *)
Class IssuerLaws {P : TokenPrims} (IP : IssuerPrims) : Prop := {
  footer_nonempty kid : json_footer kid <> ""%string;
  footer_round kid : json_parse_kid (json_footer kid) = Some kid
}.

Section Mint.
Context `{P : TokenPrims} `{L : !TokenLaws P} `{IP : IssuerPrims} `{IL : !IssuerLaws IP}.

(** A key whose two halves belong together and whose id fits a token. *)
Record good_key (k : Keys.Key) : Prop := {
  gk_pair : Keys.Public k = ed_public (default ""%string (Keys.Private k));
  gk_utf8 : valid_utf8 (Keys.Kid k) = true;
  gk_short : (String.length (Keys.Kid k) <= 64)%nat
}.

Lemma sign_access_round key format body t :
  good_key key -> sign_access key format body = Ok t ->
  AccessToken.Kid t = Ok (Keys.Kid key) /\ AccessToken.Verify (Keys.Public key) t = Ok body.
Proof using L IL.
  intros [Hp Hu Hs]. unfold sign_access. rewrite Hp. case_bool_decide.
  - destruct (Jws.Sign _ _ _) as [t'|] eqn:Hj; [|done]. intros [= ->].
    destruct (either_jws _ _ _ _ Hu Hs Hj). done.
  - destruct (Paseto.Sign _ _ _ _) as [t'|] eqn:Hj; [|done]. intros [= ->].
    destruct (either_paseto _ _ _ _ Hj) as [Hv ->]. split; [|done].
    rewrite bool_decide_eq_false_2 by apply footer_nonempty. by rewrite footer_round.
Qed.

(** The lifetimes before an application is looked at: the realm's, or the defaults. *)
Definition base_ttl (p : Ports) (s : SessionView) (field : Realm -> Duration) (dflt : Duration) : Duration :=
  if bool_decide (v_RealmID s = ""%string) then dflt
  else match p_realm p (v_RealmID s) with
       | None => dflt
       | Some r => if (0 <? field r)%Z then field r else dflt
       end.

Lemma stricter_le secs d : (stricter secs d <= d)%Z.
Proof. unfold stricter. destruct (_ && _) eqn:H; [|lia]. unbool. lia. Qed.

Lemma stricter_pos secs d : (0 < d)%Z -> (0 < stricter secs d)%Z.
Proof. unfold stricter. destruct (_ && _) eqn:H; [|done]. unbool. lia. Qed.

Lemma ttls_spec p s clientID access refresh aud appID format signIn :
  ttls p s clientID = Ok (access, refresh, aud, appID, format, signIn) ->
  (0 < access <= base_ttl p s rm_AccessTokenTTL (10 * minute))%Z /\
  (0 < refresh <= base_ttl p s rm_RefreshTokenTTL (30 * 24 * 60 * minute))%Z /\
  (if bool_decide (clientID = ""%string) then aud = ["anubis"%string] /\ appID = ""%string
   else exists app, p_app p (v_TenantID s) clientID = Some app /\ aud = [app_Slug app] /\ appID = app_ID app /\
          signIn = app_SignIn app).
Proof.
  unfold ttls.
  set (b := if bool_decide (v_RealmID s = ""%string) then _ else _).
  assert (Hb : (0 < fst b)%Z /\ (0 < snd b)%Z /\ fst b = base_ttl p s rm_AccessTokenTTL (10 * minute) /\
               snd b = base_ttl p s rm_RefreshTokenTTL (30 * 24 * 60 * minute)).
  { subst b. unfold base_ttl. case_bool_decide; [repeat split|]. destruct (p_realm _ _) as [r|]; [|repeat split].
    simpl. destruct (Z.ltb_spec 0 (rm_AccessTokenTTL r)), (Z.ltb_spec 0 (rm_RefreshTokenTTL r)); by repeat split. }
  destruct b as [ba br]. simpl in Hb. destruct Hb as (Ha & Hr & <- & <-). cbv beta iota zeta. case_bool_decide.
  - intros [= <- <- <- <- <- <-]. repeat split; lia || done.
  - destruct (p_app _ _ _) as [app|]; [|done]. intros [= <- <- <- <- _ <-].
    split; [|split]; [split; [by apply stricter_pos|apply stricter_le]..|by exists app].
Qed.

Lemma need_ok {A} why (o : option A) a : need why o = Ok a -> o = Some a.
Proof. destruct o; [|done]. by intros [= ->]. Qed.

Lemma token_roles_length p s appID roles : token_roles p s appID = Ok roles -> (length roles <= 32)%nat.
Proof.
  unfold token_roles, need, mbind, result_bind. destruct (if bool_decide _ then _ else _) as [l|]; [|done].
  intros [= <-]. rewrite length_take. unfold maxRolesInToken. lia.
Qed.

(** C40: an access token is minted only for an active person of an active
    tenant, and for an application closed to role holders only to one of them;
    its lifetime is the population's or a shorter one of the application; its
    audience is that application, or Anubis itself when none is named; it
    carries at most 32 roles; and whichever of the two formats the application
    chose, the verifier recovers exactly its claims under the ring's active key,
    which the token names. *)
Theorem issued_token_verifies p inp issued refreshTTL key :
  mint_access p inp = Ok (issued, refreshTTL) ->
  Keys.ActiveAccessAt (p_ring p) (p_now p) = Ok key -> good_key key ->
  let s := is_Session inp in
  let base := base_ttl p s rm_AccessTokenTTL (10 * minute) in
  v_IdentityStatus s = "active"%string /\
  (exists tenant, p_tenant p (v_TenantID s) = Some tenant /\ Serving tenant = true) /\
  exists accessTTL aud roles scopes jti body,
    (0 < accessTTL <= base)%Z /\ tp_ExpiresIn issued = Z.quot accessTTL second /\ (length roles <= 32)%nat /\
    (if bool_decide (is_ClientID inp = ""%string) then aud = ["anubis"%string]
     else exists app, p_app p (v_TenantID s) (is_ClientID inp) = Some app /\ aud = [app_Slug app] /\
            (app_SignIn app = "role_holders"%string -> p_holds p (v_TenantID s) (v_IdentityID s) (app_ID app) = Some true)) /\
    json_of_claims (claims_for p inp accessTTL aud roles scopes jti) = Some body /\
    AccessToken.Kid (tp_AccessToken issued) = Ok (Keys.Kid key) /\
    AccessToken.Verify (Keys.Public key) (tp_AccessToken issued) = Ok body.
Proof using L IL.
  intros Hm Hkey Hgood s base. unfold mint_access, mbind, result_bind in Hm.
  destruct (may_issue p (is_Session inp)) as [u|] eqn:Hadm; [|done].
  destruct (ttls p _ _) as [[[[[[access refresh] aud] appID] format] signIn]|] eqn:Httl; [|done].
  destruct (may_enter p _ _ _ _) as [u'|] eqn:Happ; [|done].
  destruct (token_roles _ _ _) as [roles|] eqn:Hro; [|done].
  destruct (token_scopes _) as [scopes|]; [|done].
  destruct (need "random" _) as [jti|]; [|done].
  destruct (need "json" _) as [body|] eqn:Hbody; [|done].
  rewrite Hkey in Hm. destruct (sign_access key format body) as [access_t|] eqn:Hsg; [|done].
  injection Hm as <- <-. destruct (ttls_spec _ _ _ _ _ _ _ _ _ Httl) as (Ha & _ & Haud).
  fold s in Hadm, Happ, Hro, Haud. split; [|split].
  - unfold may_issue in Hadm. destruct (bool_decide (_ = "active"%string)) eqn:Hs; [by unbool|].
    by destruct (bool_decide (_ = "locked"%string)).
  - unfold may_issue in Hadm. destruct (bool_decide (_ = "active"%string)); [|by destruct (bool_decide (_ = "locked"%string))].
    unfold mbind, result_bind, need in Hadm.
    destruct (p_tenant _ _) as [tn|]; [|done]. exists tn. split; [done|]. by destruct (Serving tn).
  - exists access, aud, roles, scopes, jti, body. split; [done|]. split; [done|]. split.
    { by eapply token_roles_length. }
    split.
    { case_bool_decide; [tauto|]. destruct Haud as (app & Hap & -> & -> & ->). exists app.
      split; [done|]. split; [done|]. intros Hrh. unfold may_enter, mbind, result_bind, need in Happ.
      rewrite bool_decide_eq_true_2 in Happ by done. by destruct (p_holds _ _ _ _) as [[]|]. }
    split; [by apply need_ok in Hbody|].
    by apply (sign_access_round key format).
Qed.

End Mint.
End IssuerProps.

(** *** A concrete token *)
Module IssuerSample.
Import Apperr AuthStore Issuer CodecProps IssuerProps.

(** A JSON-like footer for the toy codec: the key id after a dash. *)
Definition prims : TokenPrims := {|
  ed_sign := @ed_sign Toy.prims; ed_verify := @ed_verify Toy.prims; ed_public := @ed_public Toy.prims;
  json_header := @json_header Toy.prims; json_parse_header := @json_parse_header Toy.prims;
  json_parse_kid s := Some (str_drop 1 s)
|}.
#[local] Instance dashed : IssuerPrims := {|
  sha256 s := ("#" ++ s)%string;
  json_of_claims c := Some (Claims.Session c ++ "," ++ Claims.Tenant c)%string;
  json_parse_scopes _ := Some ∅;
  json_footer kid := String "-" kid
|}.

Lemma prims_laws : TokenLaws prims.
Proof. by destruct Toy.laws. Qed.
Lemma dashed_laws : @IssuerLaws prims dashed.
Proof. by split. Qed.

Definition now : Time := (63000000000 * second)%Z.
Definition key : Keys.Key := {|
  Keys.Kid := "k1"; Keys.Purpose := Keys.PurposeAccess; Keys.Alg := "Ed25519"; Keys.Status := Keys.StatusActive;
  Keys.Public := @ed_public prims Toy.sk; Keys.Private := Some Toy.sk; Keys.Secret := "";
  Keys.NotBefore := 0; Keys.NotAfter := 0
|}.
Definition billing : Application := {|
  app_ID := "A"; app_Slug := "billing"; app_SignIn := "role_holders"; app_TokenFormat := jwsFormat;
  app_AccessTokenTTLSecs := 120; app_RefreshTokenTTLSecs := 0; app_Status := "active"; app_IsSystem := false; app_ClientSecretHash := ""; app_AllowedAudiences := []
|}.
Definition ports : Ports := {|
  p_issuer := "iss";
  p_ring := {| Keys.byKid := {[ "k1"%string := key ]}; Keys.activeAccess := Some key; Keys.activeLocal := None |};
  p_now := now;
  p_tenant _ := Some {| tn_ID := "T"; tn_Slug := "acme"; tn_Status := "active" |};
  p_realm _ := None; p_app _ _ := Some billing; p_holds _ _ _ := Some true; p_roles_in_app _ _ _ := Some ["clerk"%string];
  p_roles _ _ := Some []; p_jti := Some "0123456789abcdef"%string; p_refresh := None; p_family := None
|}.
Definition view : SessionView := {|
  v_ID := "s1"; v_IdentityID := "I"; v_TenantID := "T"; v_ApplicationID := ""; v_AMR := []; v_CreatedAt := 0;
  v_LastSeenAt := 0; v_AuthTime := 0; v_ExpiresAt := (now + 60 * second)%Z; v_ActiveScopes := ""; v_DeviceFP := "";
  v_TokenEpoch := 1; v_IdentityStatus := "active"; v_AssuranceLevel := 1; v_Username := ""; v_Email := "";
  v_RealmID := ""; v_RealmCode := ""
|}.
Definition input : IssueInput := {|
  is_Session := view; is_TenantSlug := "acme"; is_ClientID := "billing"; is_RotateFrom := None; is_AccessOnly := true
|}.
Definition minted : TokenPair :=
  match @mint_access prims dashed ports input with
  | Ok (t, _) => t
  | Err _ => {| tp_AccessToken := ""; tp_RefreshToken := ""; tp_TokenType := ""; tp_ExpiresIn := 0; tp_SessionID := "" |}
  end.

Lemma issued_token_verifies_witness :
  tp_ExpiresIn minted = 120%Z /\
  exists body, @AccessToken.Verify prims (Keys.Public key) (tp_AccessToken minted) = Ok body.
Proof.
  split; [vm_compute; reflexivity|].
  destruct (@issued_token_verifies prims prims_laws dashed dashed_laws ports input minted
              (30 * 24 * 60 * minute)%Z key) as (_ & _ & access & aud & roles & scopes & jti & body & H);
    [vm_compute; reflexivity|vm_compute; reflexivity|split; [reflexivity|reflexivity|simpl; lia]|].
  exists body. apply H.
Defined.

End IssuerSample.
