(* ===== verification/AuthFlows.v ===== *)
(** internal/auth/app: establishing a session (session_establisher.go),
    rotating a refresh token and answering its reuse (token/refresh_interactor.go),
    revocation (token/revoke_interactor.go), introspection
    (token/introspect_interactor.go) and the three ways to sign out
    (session/logout_interactor.go, session/backchannel_logout.go). *)

From Stdlib Require Import ZArith Lia Bool Ascii String.
From stdpp Require Import base gmap strings list.
From S2P Require Import Prelude.
From S2P Require Import GoStrings.
From S2P Require Import Tokens.
From S2P Require Import Keyring.
From S2P Require Import Sdk.
From S2P Require Import Shared.
From S2P Require Import AuthStore.
From S2P Require Import TokenIssuer.

Module AuthFlows.
Import Apperr AuthStore Issuer.

(** What a handler reads besides the store: the ports, the caller's address and
    who the caller is ([authctx.From]); the slug lookup of TenantBySlug. *)
Record Ctx := {
  cx_ports : Ports;
  cx_ip : string;
  cx_user_agent : string;
  cx_caller : option Authctx.Principal;
  cx_tenant_by_slug : string -> option TenantRef;
  cx_backchannel : string -> option (list (string * string));   (* BackchannelApps: (slug, uri) *)
  cx_logout_jti : nat -> option string                         (* random bytes of the i-th logout token *)
}.

(** JSON the flows parse or build themselves. *)
Class FlowPrims := {
  json_sid_tid : string -> option (string * string);
  json_claims : string -> option Claims.Claims;
  json_logout : string -> string -> Z -> Z -> string -> string -> string -> option string
}.

Section Flows.
Context `{P : TokenPrims} `{IP : IssuerPrims} `{FP : FlowPrims}.
Context (env : DbEnv) (cx : Ctx).

Abbreviation M := (Eff Store Error).
Abbreviation p := (cx_ports cx).

(** ** SessionEstablisher *)

Definition Establish (tenant : TenantRef) (realm : Realm) (identityID clientID deviceFP : string) (amr : list string)
    : M TokenPair :=
  issued ← WithinTx env id (
    sess ← map_err internal (CreateSession env
      {| si_IdentityID := identityID; si_TenantID := tn_ID tenant; si_ApplicationID := ""; si_AMR := amr;
         si_DeviceFP := deviceFP; si_IP := cx_ip cx; si_UserAgent := cx_user_agent cx; si_ActiveScopes := "{}";
         si_ExpiresAt := (p_now p + rm_SessionTTL realm)%Z |});
    view ← map_err internal (SessionLive env (s_ID sess));
    Issue env p {| is_Session := view; is_TenantSlug := tn_Slug tenant; is_ClientID := clientID;
                   is_RotateFrom := None; is_AccessOnly := false |});
  _ ← TouchLastLogin env identityID;
  mret issued.

(** ** refreshInteractor *)

(** The errors inside the rotation transaction; the claim is [deadClaim]. *)
Inductive TxErr :=
| errClaimFailed
| errSessionDead (deadClaim : RefreshClaim)
| AppErr (e : Error).

Definition rotate (hash : string) : Eff Store TxErr TokenPair :=
  claim ← map_err (fun _ => errClaimFailed) (ClaimRefresh env hash);
  view ← map_err (fun _ => errSessionDead claim) (SessionLive env (rc_SessionID claim));
  tenant ← map_err AppErr (lift (need "tenant" (p_tenant p (rc_TenantID claim))));
  issued ← map_err AppErr (Issue env p {| is_Session := view; is_TenantSlug := tn_Slug tenant; is_ClientID := "";
                                          is_RotateFrom := Some claim; is_AccessOnly := false |});
  _ ← map_err AppErr (TouchSession env (v_ID view));
  mret issued.

Definition failed {A} (r : result Error A) : bool := match r with Ok _ => false | Err _ => true end.

Definition bool_text (b : bool) : string := if b then "true" else "false".

Definition reuse_event (info : RefreshInfo) (contained : bool) : AuditEvent :=
  {| au_TenantID := rf_TenantID info; au_ActorID := ""; au_ActorKind := "identity"; au_TargetID := "";
     au_SessionID := rf_SessionID info; au_Action := "token.reuse_detected"; au_Result := "deny"; au_IP := cx_ip cx;
     au_Detail := <["family_id" := rf_FamilyID info]> (<["contained" := bool_text contained]> ∅) |}.

(** Reuse: kill the family, the session and the session's tokens, and say
    whether it worked. *)
Definition contain (info : RefreshInfo) : M Error :=
  fam ← attempt (RevokeRefreshFamily env (rf_FamilyID info));
  let contained := negb (failed fam) in
  ses ← attempt (RevokeSession env (rf_TenantID info) (rf_SessionID info) "refresh_reuse_detected");
  contained ← (if failed ses then mret false
               else toks ← attempt (RevokeRefreshBySessions env [rf_SessionID info]);
                    mret (contained && negb (failed toks)));
  _ ← Emit (reuse_event info contained);
  mret ErrRefreshReuse.

(** The error the handler answers with. *)
Definition respondToFailedClaim (hash : string) : M Error :=
  looked ← attempt (RefreshByHash env hash);
  match looked with
  | Err _ | Ok None => mret ErrRefreshInvalid
  | Ok (Some info) =>
      if bool_decide (rf_Status info = "consumed"%string) || bool_decide (rf_Status info = "revoked"%string)
      then contain info
      else mret ErrRefreshInvalid
  end.

Definition Refresh (presented : string) : M TokenPair :=
  let token := TrimSpace presented in
  if negb (String.prefix "anb_rt_" token) || (256 <? String.length token)%nat then raise ErrRefreshInvalid
  else
    let hash := Hash token in
    out ← attempt (WithinTx env AppErr (rotate hash));
    match out with
    | Ok issued => mret issued
    | Err errClaimFailed => e ← respondToFailedClaim hash; raise e
    | Err (errSessionDead deadClaim) =>
        _ ← attempt (RevokeRefreshFamily env (rc_FamilyID deadClaim));
        raise ErrSessionRevoked
    | Err (AppErr e) => raise e
    end.

(** ** revokeInteractor *)

Definition revoke_event (info : RefreshInfo) (res : string) (detail : gmap string string) : AuditEvent :=
  {| au_TenantID := rf_TenantID info; au_ActorID := ""; au_ActorKind := "service"; au_TargetID := "";
     au_SessionID := rf_SessionID info; au_Action := "token.revoke"; au_Result := res; au_IP := cx_ip cx;
     au_Detail := detail |}.

Definition auditRevokeFailed (info : RefreshInfo) (stage : string) : M unit :=
  Emit (revoke_event info "error" (<["type" := "refresh"%string]> (<["failed_at" := stage]> ∅))).

(** A step whose failure is recorded and answered as an internal error. *)
Definition or_audit {A} (info : RefreshInfo) (stage : string) (m : M A) : M unit :=
  r ← attempt m;
  match r with
  | Ok _ => mret tt
  | Err e => _ ← auditRevokeFailed info stage; raise (internal e)
  end.

Definition revoke_refresh (token : string) : M unit :=
  looked ← attempt (RefreshByHash env (Hash token));
  match looked with
  | Err _ | Ok None => mret tt
  | Ok (Some info) =>
      _ ← or_audit info "family" (RevokeRefreshFamily env (rf_FamilyID info));
      _ ← or_audit info "session" (RevokeSession env (rf_TenantID info) (rf_SessionID info) "token_revoked");
      _ ← or_audit info "session_tokens" (RevokeRefreshBySessions env [rf_SessionID info]);
      Emit (revoke_event info "allow" {[ "type" := "refresh"%string ]})
  end.

Definition revoke_access (token : string) : M unit :=
  match AccessToken.ClaimsUnverified token with
  | Err _ => mret tt
  | Ok msg =>
      match json_sid_tid msg with
      | None => mret tt
      | Some (sid, tid) =>
          if bool_decide (sid = ""%string) then mret tt
          else match cx_tenant_by_slug cx tid with
               | None => mret tt
               | Some tenant =>
                   r ← attempt (RevokeSession env (tn_ID tenant) sid "token_revoked");
                   if failed r then mret tt
                   else _ ← attempt (RevokeRefreshBySessions env [sid]); mret tt
               end
      end
  end.

Definition Revoke (presented : string) : M unit :=
  let token := TrimSpace presented in
  if String.prefix "anb_rt_" token then revoke_refresh token
  else if AccessToken.IsAccessToken token then revoke_access token
  else mret tt.

(** ** introspectInteractor *)

(** The signature, the times and the issuer, against the local ring. *)
Definition introspect_verify (token : string) : option Claims.Claims :=
  match AccessToken.Kid token with
  | Err _ => None
  | Ok kid =>
      match Keys.Lookup (p_ring p) kid with
      | Err _ => None
      | Ok key =>
          if negb (bool_decide (Keys.Purpose key = Keys.PurposeAccess)) then None
          else match AccessToken.Verify (Keys.Public key) token with
               | Err _ => None
               | Ok msg =>
                   claims ← json_claims msg;
                   let now := unix (p_now p) in
                   if negb (bool_decide (Claims.Issuer claims = p_issuer p)) ||
                      (negb (Claims.Expires claims =? 0) && (Claims.Expires claims <? now))%Z ||
                      (negb (Claims.NotBefore claims =? 0) && (now <? wrap64 (Claims.NotBefore claims - 60)))%Z
                   then None else Some claims
               end
      end
  end.

(** [None] is the inactive answer; an active one carries the claims. *)
Definition Introspect (token : string) : M (option Claims.Claims) :=
  match introspect_verify token with
  | None => mret None
  | Some claims =>
      match cx_tenant_by_slug cx (Claims.Tenant claims) with
      | None => mret None
      | Some tenant =>
          st ← attempt (SessionState env (p_now p) (tn_ID tenant) (Claims.Session claims));
          match st with
          | Err _ => mret None
          | Ok (revoked, expired, epoch, blocked) =>
              if revoked || expired || blocked || negb (epoch =? Claims.Epoch claims)%Z
              then mret None else mret (Some claims)
          end
      end
  end.

(** ** logoutInteractor *)

Definition logout_event (who : Authctx.Principal) (sessionID action : string) (detail : gmap string string) : AuditEvent :=
  {| au_TenantID := Authctx.TenantID who; au_ActorID := Authctx.IdentityID who; au_ActorKind := "identity";
     au_TargetID := ""; au_SessionID := sessionID; au_Action := action; au_Result := "allow"; au_IP := cx_ip cx;
     au_Detail := detail |}.

Definition revokeOne (who : Authctx.Principal) (sessionID reason : string) : M unit :=
  _ ← WithinTx env id (
    rs ← map_err (fun _ => ErrNotFound) (RevokeSession env (Authctx.TenantID who) sessionID reason);
    if negb (bool_decide (rs_IdentityID rs = Authctx.IdentityID who)) then raise ErrPermissionDenied
    else _ ← RevokeRefreshBySessions env [sessionID]; mret tt);
  Emit (logout_event who sessionID ("auth." ++ reason)%string ∅).

Definition Logout : M unit :=
  match cx_caller cx with
  | None => raise ErrUnauthenticated
  | Some who => if bool_decide (Authctx.SessionID who = ""%string) then raise ErrUnauthenticated
                else revokeOne who (Authctx.SessionID who) "logout"
  end.

Definition LogoutSession (sessionID : string) : M unit :=
  match cx_caller cx with
  | None => raise ErrUnauthenticated
  | Some who =>
      if negb (bool_decide (sessionID = Authctx.SessionID who)) && negb (Authctx.FirstParty who)
      then raise (With ErrPermissionDenied "hint" "sign out another session with a token Anubis issued for itself")
      else revokeOne who sessionID "logout_session"
  end.

(** *** backchannelLogout *)

Definition mint (i : nat) (audience sub sid : string) : option string :=
  match Keys.ActiveAccessAt (p_ring p) (p_now p) with
  | Err _ => None
  | Ok key =>
      jti ← secret_New (cx_logout_jti cx i);
      let now := p_now p in
      body ← json_logout (p_issuer p) audience (unix now) (unix (now + 2 * minute)%Z) jti sub sid;
      match Paseto.Sign (default ""%string (Keys.Private key)) body (json_footer (Keys.Kid key)) "" with
      | Ok t => Some t
      | Err _ => None
      end
  end.

(** The (uri, token) pairs handed to the notifier, in order. *)
Definition NotifyAll (tenantID identityID : string) (sessions : list RevokedSession) : list (string * string) :=
  match cx_backchannel cx tenantID with
  | None => []
  | Some apps =>
      let sid := match sessions with [] => ""%string | s :: _ => rs_ID s end in
      omap id (imap (fun i a => (fun t => (snd a, t)) <$> mint i (fst a) identityID sid) apps)
  end.

Definition LogoutAll : M (nat * list (string * string)) :=
  match cx_caller cx with
  | None => raise ErrUnauthenticated
  | Some who =>
      if negb (Authctx.FirstParty who)
      then raise (With ErrPermissionDenied "hint" "sign out everywhere with a token Anubis issued for itself")
      else
        revoked ← WithinTx env id (
          revoked ← map_err internal (RevokeAllSessions env (Authctx.TenantID who) (Authctx.IdentityID who) "logout_all");
          let ids := map rs_ID revoked in
          _ ← (if (0 <? length ids)%nat then map_err internal (RevokeRefreshBySessions env ids) else mret 0%Z);
          _ ← map_err internal (BumpTokenEpoch env (Authctx.TenantID who) (Authctx.IdentityID who));
          mret revoked);
        _ ← Emit (logout_event who (Authctx.SessionID who) "auth.logout_all"
                   {[ "sessions_revoked" := pretty.pretty (N.of_nat (length revoked)) ]});
        mret (length revoked, NotifyAll (Authctx.TenantID who) (Authctx.IdentityID who) revoked)
  end.

End Flows.
End AuthFlows.
