(* ===== verification/AuthFlowsProps.v ===== *)
(** internal/auth: what holds of the refresh tokens across any sequence of the
    flows of AuthFlows.v.  Every operation only ever retires tokens, except an
    issue, which adds one: of a new family, or of a family whose active token it
    has just retired. *)

From Stdlib Require Import ZArith Lia Bool Ascii String.
From stdpp Require Import base gmap strings list.
From S2P Require Import Prelude.
From S2P Require Import GoStrings.
From S2P Require Import Tokens.
From S2P Require Import Keyring.
From S2P Require Import Sdk.
From S2P Require Import Shared.
From S2P Require Import AuthStore.
From S2P Require Import TokenIssuer.
From S2P Require Import AuthFlows.

Module AuthFlowsProps.
Import Apperr AuthStore Issuer AuthFlows.

(** ** What an operation may do to the tokens *)

(** The same token, not brought back to life. *)
Record fades (t t' : TokenRow) : Prop := {
  fades_hash : t_Hash t' = t_Hash t;
  fades_family : t_FamilyID t' = t_FamilyID t;
  fades_session : t_SessionID t' = t_SessionID t;
  fades_tenant : t_TenantID t' = t_TenantID t;
  fades_status_eq : t_Status t' = t_Status t \/ t_Status t' = "consumed"%string \/ t_Status t' = "revoked"%string
}.

#[export] Instance fades_refl : Reflexive fades.
Proof. intros t. split; auto. Qed.
#[export] Instance fades_trans : Transitive fades.
Proof.
  intros a b c [????[|[]]] [????[|[]]]; split; try congruence;
    first [by left; congruence | by right; left; congruence | by right; right; congruence].
Qed.

Lemma fades_active t t' : fades t t' -> is_active t' = true -> is_active t = true.
Proof.
  unfold is_active. rewrite !bool_decide_eq_true. intros [_ _ _ _ H] Ha.
  destruct H as [H|[H|H]]; congruence.
Qed.

(** The same session, still revoked if it was. *)
Record sfades (r r' : SessionRow) : Prop := {
  sfades_id : s_ID r' = s_ID r;
  sfades_tenant : s_TenantID r' = s_TenantID r;
  sfades_identity : s_IdentityID r' = s_IdentityID r;
  sfades_revoked : is_Some (s_RevokedAt r) -> is_Some (s_RevokedAt r')
}.

#[export] Instance sfades_refl : Reflexive sfades.
Proof. by intros r. Qed.
#[export] Instance sfades_trans : Transitive sfades.
Proof. intros a b c [] []. split; try congruence; auto. Qed.

Record quiet (s s' : Store) : Prop := {
  quiet_tokens : Forall2 fades (st_tokens s) (st_tokens s');
  quiet_sessions : Forall2 sfades (st_sessions s) (st_sessions s')
}.

#[export] Instance quiet_refl : Reflexive quiet.
Proof. intros s. split; reflexivity. Qed.
#[export] Instance quiet_trans : Transitive quiet.
Proof. intros a b c [] []. split; etrans; eassumption. Qed.

Lemma quiet_same s s' : st_tokens s' = st_tokens s -> st_sessions s' = st_sessions s -> quiet s s'.
Proof. intros Ht Hs. split; [rewrite Ht|rewrite Hs]; reflexivity. Qed.

Lemma quiet_map s s' f :
  st_tokens s' = map f (st_tokens s) -> st_sessions s' = st_sessions s ->
  (forall t, fades t (f t)) -> quiet s s'.
Proof. intros Ht Hs Hf. split; [rewrite Ht; apply Forall2_map_r; auto|rewrite Hs; reflexivity]. Qed.

Lemma quiet_smap s s' f :
  st_tokens s' = st_tokens s -> st_sessions s' = map f (st_sessions s) ->
  (forall r, sfades r (f r)) -> quiet s s'.
Proof. intros Ht Hs Hf. split; [rewrite Ht; reflexivity|rewrite Hs; apply Forall2_map_r; auto]. Qed.

Lemma fades_consumed t : fades t (set_status "consumed" t).
Proof. split; auto. Qed.

Lemma sfades_set_revoked env reason r : sfades r (set_revoked env reason r).
Proof. split; eauto. Qed.

Lemma fades_successor id t : fades t (set_successor id t).
Proof. split; auto. Qed.

Lemma fades_revoked (b : bool) t : fades t (if b && is_active t then set_status "revoked" t else t).
Proof. destruct (b && is_active t); [split; auto|done]. Qed.

(** ** Effects that are quiet whatever the store *)

Definition quietly {E A} (m : Eff Store E A) : Prop := forall s, quiet s (snd (m s)).

Section Combinators.
Context {E : Type}.

Lemma quietly_ret {A} (a : A) : quietly (mret a : Eff Store E A).
Proof. intros s. done. Qed.
Lemma quietly_raise {A} (e : E) : quietly (raise e : Eff Store E A).
Proof. intros s. done. Qed.
Lemma quietly_lift {A} (r : result E A) : quietly (lift r).
Proof. intros s. done. Qed.
Lemma quietly_bind {A B} (m : Eff Store E A) (f : A -> Eff Store E B) :
  quietly m -> (forall a, quietly (f a)) -> quietly (m ≫= f).
Proof.
  intros Hm Hf s. unfold mbind, eff_bind. specialize (Hm s). destruct (m s) as [[a|e] s']; simpl in *; [|done].
  etrans; [done|apply Hf].
Qed.
Lemma quietly_attempt {F A} (m : Eff Store E A) : quietly m -> quietly (attempt m : Eff Store F _).
Proof. intros Hm s. unfold attempt. specialize (Hm s). by destruct (m s). Qed.
Lemma quietly_map_err {F A} (f : E -> F) (m : Eff Store E A) : quietly m -> quietly (map_err f m).
Proof. intros Hm s. unfold map_err. specialize (Hm s). by destruct (m s) as [[]]. Qed.
Lemma quietly_within_tx {A} c (m : Eff Store E A) : quietly m -> quietly (within_tx c m).
Proof. intros Hm s. unfold within_tx. specialize (Hm s). destruct (m s) as [[]]; [destruct c|]; simpl in *; done. Qed.
Lemma quietly_WithinTx {A} env w (m : Eff Store E A) : quietly m -> quietly (WithinTx env w m).
Proof. intros Hm. unfold WithinTx. destruct (db_fails _ _); [apply quietly_raise|by apply quietly_within_tx]. Qed.
End Combinators.

Lemma quietly_guarded {A} env op (m : Eff Store Error A) : quietly m -> quietly (guarded env op m).
Proof. intros Hm s. unfold guarded. destruct (db_fails _ _); [done|apply Hm]. Qed.

#[export] Hint Resolve quietly_ret quietly_raise quietly_lift quietly_bind quietly_attempt quietly_map_err
  quietly_WithinTx : anubis.

(** ** The repository operations *)

Section Ops.
Context (env : DbEnv).

Lemma ClaimRefresh_quiet h : quietly (ClaimRefresh env h).
Proof.
  apply quietly_guarded. intros s. destruct (find _ _); [|done]. simpl. eapply quiet_map; [done..|].
  intros x. simpl. destruct (claimable env h x); [apply fades_consumed|done].
Qed.
Lemma RefreshByHash_quiet h : quietly (RefreshByHash env h).
Proof. apply quietly_guarded. by intros s. Qed.
Lemma SetRefreshSuccessor_quiet i e n : quietly (SetRefreshSuccessor env i e n).
Proof.
  apply quietly_guarded. intros s. eapply quiet_map; [done..|]. intros x. simpl.
  destruct (_ && _); [apply fades_successor|done].
Qed.
Lemma RevokeRefreshFamily_quiet f : quietly (RevokeRefreshFamily env f).
Proof. apply quietly_guarded. intros s. eapply quiet_map; [done..|]. intros x. apply fades_revoked. Qed.
Lemma RevokeRefreshBySessions_quiet l : quietly (RevokeRefreshBySessions env l).
Proof.
  unfold RevokeRefreshBySessions. case_bool_decide; [apply quietly_ret|].
  apply quietly_guarded. intros s. eapply quiet_map; [done..|]. intros x.
  apply fades_revoked.
Qed.
Lemma SessionLive_quiet i : quietly (SessionLive env i).
Proof. apply quietly_guarded. intros s. destruct (find _ _); [destruct (identity_of _ _)|]; done. Qed.
Lemma RevokeSession_quiet t i r : quietly (RevokeSession env t i r).
Proof.
  apply quietly_guarded. intros s. destruct (find _ _); [|done].
  eapply quiet_smap; [done..|]. intros x. simpl. destruct (revocable t i x); [apply sfades_set_revoked|done].
Qed.
Lemma RevokeAllSessions_quiet t i r : quietly (RevokeAllSessions env t i r).
Proof.
  apply quietly_guarded. intros s. eapply quiet_smap; [done..|]. intros x. simpl.
  destruct (revocable_all t i x); [apply sfades_set_revoked|done].
Qed.
Lemma TouchSession_quiet i : quietly (TouchSession env i).
Proof.
  intros s. unfold TouchSession. destruct (db_fails _ _); [done|].
  eapply quiet_smap; [done..|]. intros x. simpl. case_bool_decide; [by split|done].
Qed.
Lemma TouchLastLogin_quiet i : quietly (TouchLastLogin env i).
Proof. intros s. unfold TouchLastLogin. destruct (db_fails _ _); [done|by apply quiet_same]. Qed.
Lemma SessionState_quiet n t i : quietly (SessionState env n t i).
Proof. apply quietly_guarded. intros s. destruct (find _ _); [destruct (identity_of _ _)|]; done. Qed.
Lemma BumpTokenEpoch_quiet t i : quietly (BumpTokenEpoch env t i).
Proof. apply quietly_guarded. intros s. cbv beta zeta. split_match; [by apply quiet_same|done]. Qed.
Lemma Emit_quiet {E} ev : quietly (Emit ev : Eff Store E unit).
Proof. intros s. by apply quiet_same. Qed.
End Ops.

#[export] Hint Resolve ClaimRefresh_quiet RefreshByHash_quiet SetRefreshSuccessor_quiet RevokeRefreshFamily_quiet
  RevokeRefreshBySessions_quiet SessionLive_quiet RevokeSession_quiet RevokeAllSessions_quiet
  TouchSession_quiet TouchLastLogin_quiet SessionState_quiet BumpTokenEpoch_quiet Emit_quiet : anubis.

(** Reads the monadic text of a flow down to its repository calls. *)
Ltac quietly :=
  repeat first
    [ apply quietly_bind; [|intros ?] | apply quietly_WithinTx | apply quietly_map_err | apply quietly_attempt
    | solve [eauto 3 with anubis nocore]
    | match goal with
      | |- quietly (match ?x with _ => _ end) => destruct x
      | |- quietly (let '(_, _) := ?x in _) => destruct x
      end ].

(** ** The flows that issue nothing *)

Section Flows.
Context `{P : TokenPrims} `{IP : IssuerPrims} `{FP : FlowPrims}.
Context (env : DbEnv) (cx : Ctx).

Lemma respondToFailedClaim_quiet h : quietly (respondToFailedClaim env cx h).
Proof. unfold respondToFailedClaim, contain. quietly. Qed.
Lemma Revoke_quiet t : quietly (Revoke env cx t).
Proof. unfold Revoke, revoke_refresh, revoke_access, or_audit, auditRevokeFailed. quietly. Qed.
Lemma Introspect_quiet t : quietly (Introspect env cx t).
Proof. unfold Introspect. quietly. Qed.
Lemma revokeOne_quiet w i r : quietly (revokeOne env cx w i r).
Proof. unfold revokeOne. quietly. Qed.
Lemma LogoutAll_quiet : quietly (LogoutAll env cx).
Proof. unfold LogoutAll. quietly. Qed.

(** ** The flows that issue *)

(** The hash of the refresh token the random source of [cx] would mint. *)
Definition minted_hash (h : string) : Prop :=
  exists raw, secret_New (p_refresh (cx_ports cx)) = Some raw /\ h = Hash ("anb_rt_" ++ raw)%string.

Definition grows (s s' : Store) (row : TokenRow) : Prop :=
  Forall2 fades (st_tokens s ++ [row]) (st_tokens s') /\ Forall2 sfades (st_sessions s) (st_sessions s').

Lemma CreateRefresh_grows inp s :
  match CreateRefresh env inp s with
  | (Ok id, s') => exists row, grows s s' row /\ t_Hash row = ri_TokenHash inp /\ t_FamilyID row = ri_FamilyID inp /\
                     t_SessionID row = ri_SessionID inp
  | (Err _, s') => s' = s
  end.
Proof.
  unfold CreateRefresh, guarded. destruct (db_fails _ _); [done|]. destruct (existsb _ _); [done|].
  eexists. split; [split; simpl; reflexivity|done].
Qed.

Lemma grows_quiet s s' s'' row : grows s s' row -> quiet s' s'' -> grows s s'' row.
Proof. intros [H1 H2] [H3 H4]. split; etrans; eassumption. Qed.

Lemma quiet_grows s s' s'' row : quiet s s' -> grows s' s'' row -> grows s s'' row.
Proof.
  intros [H1 H2] [H3 H4]. split; [|by etrans].
  etrans; [|exact H3]. apply Forall2_app; [done|]. constructor; [done|constructor].
Qed.

(** An issue adds a token of the family it continues, or of a new one, and only
    when it succeeds. *)
Lemma Issue_grows inp s :
  match Issue env (cx_ports cx) inp s with
  | (Err _, s') => quiet s s' \/ exists row, grows s s' row
  | (Ok issued, s') =>
      if is_AccessOnly inp then quiet s s'
      else exists row raw fam, grows s s' row /\ secret_New (p_refresh (cx_ports cx)) = Some raw /\
             tp_RefreshToken issued = ("anb_rt_" ++ raw)%string /\
             t_Hash row = Hash (tp_RefreshToken issued) /\
             family_of (cx_ports cx) (pinned inp) = Ok fam /\ t_FamilyID row = fst fam /\
             t_SessionID row = v_ID (is_Session inp)
  end.
Proof.
  unfold Issue. unfold mbind at 1, eff_bind, lift at 1.
  destruct (mint_access _ _) as [[issued ttl]|]; [|left; done].
  assert (Hp : forall i, is_AccessOnly (pinned i) = is_AccessOnly i /\ is_Session (pinned i) = is_Session i).
  { intros i. unfold pinned. by destruct (is_RotateFrom i). }
  rewrite (proj1 (Hp inp)), (proj2 (Hp inp)). destruct (is_AccessOnly inp); [simpl; reflexivity|].
  unfold mbind at 1, eff_bind, lift at 1. unfold need at 1.
  destruct (secret_New (p_refresh (cx_ports cx))) as [raw|] eqn:Hraw; [|left; done].
  unfold mbind at 1, eff_bind, lift at 1.
  destruct (family_of _ _) as [fam|] eqn:Hfam; [|left; done].
  unfold mbind at 1, eff_bind, map_err at 1.
  match goal with |- context [CreateRefresh env ?i s] => pose proof (CreateRefresh_grows i s) as Hc;
    destruct (CreateRefresh env i s) as [[newID|] s1] end; [|left; by subst].
  destruct Hc as (row & Hg & Hh & Hf & Hs). simpl in Hh, Hf, Hs.
  unfold mbind at 1, eff_bind. destruct (is_RotateFrom _) as [rc|].
  - unfold map_err. pose proof (SetRefreshSuccessor_quiet env (rc_ID rc) (rc_ExpiresAt rc) newID s1) as Hq.
    destruct (SetRefreshSuccessor env _ _ _ s1) as [[u|] s2]; simpl in Hq |- *.
    + exists row, raw, fam. split; [by eapply grows_quiet|]. done.
    + right. exists row. by eapply grows_quiet.
  - simpl. exists row, raw, fam. done.
Qed.

Definition consume (h : string) (t : TokenRow) : TokenRow :=
  if claimable env h t then set_status "consumed" t else t.

(** A rotation: [t] is retired and [row] continues its family. *)
Record rotated (h : string) (s s' : Store) (t row : TokenRow) : Prop := {
  rot_old : find (claimable env h) (st_tokens s) = Some t;
  rot_family : t_FamilyID row = t_FamilyID t;
  rot_minted : minted_hash (t_Hash row);
  rot_tokens : Forall2 fades (map (consume h) (st_tokens s) ++ [row]) (st_tokens s');
  rot_sessions : Forall2 sfades (st_sessions s) (st_sessions s');
  rot_live : exists r, find (session_live env (t_SessionID t)) (st_sessions s) = Some r
}.

Lemma rotate_ok h s issued s' :
  rotate env cx h s = (Ok issued, s') ->
  exists t row, rotated h s s' t row /\ t_Hash row = Hash (tp_RefreshToken issued).
Proof.
  unfold rotate. unfold mbind at 1, eff_bind, map_err at 1. unfold ClaimRefresh, guarded at 1.
  destruct (db_fails env OpClaimRefresh); [done|].
  destruct (find (claimable env h) (st_tokens s)) as [t|] eqn:Hfind; [|done].
  unfold mbind at 1, eff_bind, map_err at 1. unfold SessionLive, guarded at 1.
  destruct (db_fails env OpSessionLive); [done|]. simpl.
  destruct (find (session_live env (t_SessionID t)) (st_sessions s)) as [r|] eqn:Hlive; [|done].
  destruct (identity_of _ r) as [i|]; [|done].
  unfold mbind at 1, eff_bind, map_err at 1, lift at 1. destruct (need _ _) as [tenant|]; [|done].
  unfold mbind at 1, eff_bind, map_err at 1.
  match goal with |- context [Issue env _ ?inp ?st] => pose proof (Issue_grows inp st) as Hg;
    destruct (Issue env _ inp st) as [[pr|] s1] end; [|done].
  destruct Hg as (row & raw & fam & [Hg1 Hg2] & Hraw & Htok & Hh & Hf & Hfid & Hsid).
  intros [= <- <-]. exists t, row. split; [|done].
  assert (Hq : quiet s1 (snd (TouchSession env (v_ID (view_of r i)) s1))) by apply TouchSession_quiet.
  split; try done.
  - injection Hf as <-. done.
  - exists raw. split; [done|]. by rewrite Hh, Htok.
  - etrans; [exact Hg1|]. by destruct Hq.
  - etrans; [exact Hg2|]. by destruct Hq.
  - by exists r.
Qed.

(** A refresh that answers with tokens is a rotation; any other only retires tokens. *)
Lemma Refresh_evolves tok s :
  match Refresh env cx tok s with
  | (Ok issued, s') =>
      exists t row, rotated (Hash (TrimSpace tok)) s s' t row /\ t_Hash row = Hash (tp_RefreshToken issued)
  | (Err _, s') => quiet s s'
  end.
Proof.
  unfold Refresh. destruct (_ || _); [simpl; reflexivity|].
  unfold mbind at 1, eff_bind at 1, attempt at 1, WithinTx.
  destruct (db_fails env OpBegin); [simpl; reflexivity|]. unfold within_tx.
  destruct (rotate env cx (Hash (TrimSpace tok)) s) as [[issued|e] s1] eqn:Hr.
  - destruct (db_fails env OpCommit); [simpl; reflexivity|]. simpl. by apply rotate_ok.
  - destruct e as [|c|e]; [| |simpl; reflexivity].
    + unfold mbind, eff_bind. pose proof (respondToFailedClaim_quiet (Hash (TrimSpace tok)) s) as Hq.
      destruct (respondToFailedClaim env cx _ s) as [[]]; done.
    + unfold mbind, eff_bind, attempt. pose proof (RevokeRefreshFamily_quiet env (rc_FamilyID c) s) as Hq.
      destruct (RevokeRefreshFamily env _ s) as [[]]; done.
Qed.

(** A session started: a token of a new family, in a new session. *)
Record started (s s' : Store) (row : TokenRow) (ses : SessionRow) : Prop := {
  sta_family : newUUIDv7ish (cx_ports cx) = Some (t_FamilyID row);
  sta_minted : minted_hash (t_Hash row);
  sta_session : s_ID ses = db_session_id env;
  sta_tokens : Forall2 fades (st_tokens s ++ [row]) (st_tokens s');
  sta_sessions : Forall2 sfades (st_sessions s ++ [ses]) (st_sessions s')
}.

Lemma Establish_evolves tenant realm identityID clientID deviceFP amr s :
  match Establish env cx tenant realm identityID clientID deviceFP amr s with
  | (Ok _, s') => exists row ses, started s s' row ses
  | (Err _, s') => s' = s
  end.
Proof.
  unfold Establish. unfold mbind at 1, eff_bind at 1, WithinTx.
  destruct (db_fails env OpBegin); [done|]. unfold within_tx.
  unfold mbind at 1, eff_bind, map_err at 1. unfold CreateSession, guarded at 1.
  destruct (db_fails env OpCreateSession); [done|].
  unfold mbind at 1, eff_bind, map_err at 1.
  match goal with |- context [SessionLive env ?i ?st] => pose proof (SessionLive_quiet env i st) as Hl;
    destruct (SessionLive env i st) as [[view|] s1] end; [|done]. simpl in Hl.
  match goal with |- context [Issue env _ ?inp ?st] => pose proof (Issue_grows inp st) as Hg;
    destruct (Issue env _ inp st) as [[pr|] s2] end; [|done]. simpl in Hg.
  destruct Hg as (row & raw & fam & Hg & Hraw & Htok & Hh & Hf & Hfid & _).
  apply (quiet_grows _ _ _ _ Hl) in Hg as [Hg1 Hg2]. simpl in Hg1, Hg2.
  destruct (db_fails env OpCommit); [done|].
  unfold mbind, eff_bind. pose proof (TouchLastLogin_quiet env identityID s2) as [Hq1 Hq2].
  destruct (TouchLastLogin env identityID s2) as [[]] eqn:E; [|unfold TouchLastLogin in E; done].
  simpl in *. eexists row, _. split.
  5: { etrans; [exact Hg2|exact Hq2]. }
  4: { etrans; [exact Hg1|exact Hq1]. }
  3: { done. }
  - unfold family_of, mbind in Hf. simpl in Hf. unfold need in Hf. destruct (newUUIDv7ish _); simpl in Hf; [|done].
    injection Hf as <-. by rewrite Hfid.
  - exists raw. split; [done|]. by rewrite Hh, Htok.
Qed.

End Flows.
End AuthFlowsProps.
