(* ===== verification/AuthTheorems.v ===== *)
(** internal/auth: the guarantees of the token and session flows over any
    history of operations: a refresh token rotates at most once, a replay kills
    its family for good, a family has one live token, a session signed out stays
    dead for refresh and introspection alike. *)

From Stdlib Require Import ZArith Lia Bool Ascii String.
From stdpp Require Import base gmap strings list.
From S2P Require Import Prelude.
From S2P Require Import GoStrings.
From S2P Require Import Tokens.
From S2P Require Import TokenProps.
From S2P Require Import Keyring.
From S2P Require Import Sdk.
From S2P Require Import Shared.
From S2P Require Import AuthStore.
From S2P Require Import TokenIssuer.
From S2P Require Import AuthFlows.
From S2P Require Import AuthFlowsProps.

Module AuthTheorems.
Import Apperr AuthStore Issuer AuthFlows AuthFlowsProps.

(** ** Histories *)

Inductive Request :=
| ReqEstablish (tenant : TenantRef) (realm : Realm) (identityID clientID deviceFP : string) (amr : list string)
| ReqRefresh (token : string)
| ReqRevoke (token : string)
| ReqIntrospect (token : string)
| ReqLogout
| ReqLogoutSession (sessionID : string)
| ReqLogoutAll.

Section Histories.
Context `{P : TokenPrims} `{IP : IssuerPrims} `{FP : FlowPrims}.

(** The store a handled request leaves. *)
Definition perform (env : DbEnv) (cx : Ctx) (req : Request) (s : Store) : Store :=
  match req with
  | ReqEstablish tenant realm identityID clientID deviceFP amr =>
      snd (Establish env cx tenant realm identityID clientID deviceFP amr s)
  | ReqRefresh token => snd (Refresh env cx token s)
  | ReqRevoke token => snd (Revoke env cx token s)
  | ReqIntrospect token => snd (Introspect env cx token s)
  | ReqLogout => snd (Logout env cx s)
  | ReqLogoutSession sessionID => snd (LogoutSession env cx sessionID s)
  | ReqLogoutAll => snd (LogoutAll env cx s)
  end.

Definition hashes (s : Store) : list string := map t_Hash (st_tokens s).
Definition families (s : Store) : list string := map t_FamilyID (st_tokens s).
Definition session_ids (s : Store) : list string := map s_ID (st_sessions s).

(** What the random source would draw has not been drawn before. *)
Record fresh (env : DbEnv) (cx : Ctx) (s : Store) : Prop := {
  fresh_hash h : minted_hash cx h -> h ∉ hashes s;
  fresh_family f : newUUIDv7ish (cx_ports cx) = Some f -> f ∉ families s;
  fresh_session : db_session_id env ∉ session_ids s
}.

(** Any requests, by anyone, with any database faults in between. *)
Inductive reaches (s : Store) : Store -> Prop :=
| reaches_refl : reaches s s
| reaches_step s1 env cx req : reaches s s1 -> fresh env cx s1 -> reaches s (perform env cx req s1).

(** ** One step *)

Inductive evolves (env : DbEnv) (cx : Ctx) (s s' : Store) : Prop :=
| ev_quiet : quiet s s' -> evolves env cx s s'
| ev_rotated h t row : rotated env cx h s s' t row -> evolves env cx s s'
| ev_started row ses : started env cx s s' row ses -> evolves env cx s s'.

Lemma perform_evolves env cx req s : evolves env cx s (perform env cx req s).
Proof.
  destruct req as [tenant realm identityID clientID deviceFP amr|token|token|token| |sid|]; simpl.
  - pose proof (Establish_evolves env cx tenant realm identityID clientID deviceFP amr s) as H.
    destruct (Establish _ _ _ _ _ _ _ _ s) as [[]].
    + destruct H as (row & ses & H). by eapply ev_started.
    + subst. by apply ev_quiet.
  - pose proof (Refresh_evolves env cx token s) as H. destruct (Refresh _ _ _ s) as [[]].
    + destruct H as (t & row & H & _). by eapply ev_rotated.
    + by apply ev_quiet.
  - apply ev_quiet, Revoke_quiet.
  - apply ev_quiet, Introspect_quiet.
  - apply ev_quiet. unfold Logout. destruct (cx_caller cx); [|done].
    case_bool_decide; [done|apply revokeOne_quiet].
  - apply ev_quiet. unfold LogoutSession. destruct (cx_caller cx); [|done].
    destruct (_ && _); [done|apply revokeOne_quiet].
  - apply ev_quiet, LogoutAll_quiet.
Qed.

(** Something every step preserves holds after any history. *)
Lemma reaches_ind_evolves (I : Store -> Prop) :
  (forall env cx s s', fresh env cx s -> evolves env cx s s' -> I s -> I s') ->
  forall s s', reaches s s' -> I s -> I s'.
Proof. intros Hstep s s' Hr HI. induction Hr; [done|]. eapply Hstep; eauto using perform_evolves. Qed.

(** ** Facts along [fades] *)

Lemma fades_hashes l l' : Forall2 fades l l' -> map t_Hash l' = map t_Hash l.
Proof. induction 1 as [|t t' l l' H]; simpl; [done|]. by rewrite IHForall2, (fades_hash _ _ H). Qed.

Lemma fades_in_r l l' t' : Forall2 fades l l' -> t' ∈ l' -> exists t, t ∈ l /\ fades t t'.
Proof.
  intros H [i Hi]%list_elem_of_lookup. destruct (Forall2_lookup_r _ _ _ _ _ H Hi) as (t & Ht & Hf).
  exists t. split; [by eapply list_elem_of_lookup_2|done].
Qed.

Lemma fades_in_l l l' t : Forall2 fades l l' -> t ∈ l -> exists t', t' ∈ l' /\ fades t t'.
Proof.
  intros H [i Hi]%list_elem_of_lookup. destruct (Forall2_lookup_l _ _ _ _ _ H Hi) as (t' & Ht & Hf).
  exists t'. split; [by eapply list_elem_of_lookup_2|done].
Qed.

Lemma consume_fades env h t : fades t (consume env h t).
Proof. unfold consume. destruct (claimable env h t); [apply fades_consumed|done]. Qed.

Lemma claimable_spec env h t :
  claimable env h t = true -> t_Hash t = h /\ is_active t = true.
Proof. unfold claimable. intros H. unbool. done. Qed.

Lemma consume_claimed env h t : claimable env h t = true -> is_active (consume env h t) = false.
Proof. unfold consume. by intros ->. Qed.

(** The tokens after a step are faded tokens of before, and at most one new. *)
Lemma evolves_tokens env cx s s' :
  fresh env cx s -> evolves env cx s s' ->
  quiet s s' \/
  exists mid row, Forall2 fades (st_tokens s) mid /\ Forall2 fades (mid ++ [row]) (st_tokens s') /\
    t_Hash row ∉ hashes s /\
    (t_FamilyID row ∉ families s \/
     exists i t, st_tokens s !! i = Some t /\ is_active t = true /\ t_FamilyID t = t_FamilyID row /\
       forall t', mid !! i = Some t' -> is_active t' = false).
Proof.
  intros [Hh Hf _] [H|h t row [Hfind Hfam Hmint Htok _ _]|row ses [Hfam Hmint _ Htok _]]; [by left| |]; right.
  - exists (map (consume env h) (st_tokens s)), row.
    split; [apply Forall2_map_r; intros; apply consume_fades|]. split; [done|]. split; [by apply Hh|].
    right. apply find_some in Hfind as [Hin Hc]. apply list_elem_of_In, list_elem_of_lookup in Hin as [i Hi].
    exists i, t. destruct (claimable_spec _ _ _ Hc). repeat split; [done..|].
    intros t'. rewrite list_lookup_fmap, Hi. intros [= <-]. by apply consume_claimed.
  - exists (st_tokens s), row. split; [reflexivity|]. split; [done|]. split; [by apply Hh|]. left. by apply Hf.
Qed.

(** ** Invariants *)

Definition unique_hashes (s : Store) : Prop := NoDup (hashes s).

Lemma unique_hashes_step env cx s s' :
  fresh env cx s -> evolves env cx s s' -> unique_hashes s -> unique_hashes s'.
Proof.
  unfold unique_hashes, hashes. intros Hfr Hev HN.
  destruct (evolves_tokens _ _ _ _ Hfr Hev) as [[Hq _]|(mid & row & Hm & Ht & Hnew & _)].
  - by rewrite (fades_hashes _ _ Hq).
  - rewrite (fades_hashes _ _ Ht), map_app, (fades_hashes _ _ Hm). apply NoDup_app. split; [done|]. split.
    + intros x Hx ->%list_elem_of_singleton. done.
    + apply NoDup_singleton.
Qed.

(** At most one live token in a family. *)
Definition one_active (l : list TokenRow) : Prop :=
  forall i j t u, l !! i = Some t -> l !! j = Some u -> is_active t = true -> is_active u = true ->
    t_FamilyID t = t_FamilyID u -> i = j.

Lemma one_active_fades l l' : Forall2 fades l l' -> one_active l -> one_active l'.
Proof.
  intros H H1 i j t u Hi Hj Ht Hu Hf.
  destruct (Forall2_lookup_r _ _ _ _ _ H Hi) as (t0 & Hi0 & Ft).
  destruct (Forall2_lookup_r _ _ _ _ _ H Hj) as (u0 & Hj0 & Fu).
  eapply H1; try eassumption; [by eapply fades_active|by eapply fades_active|].
  by rewrite <- (fades_family _ _ Ft), <- (fades_family _ _ Fu).
Qed.

Lemma one_active_snoc l row :
  one_active l -> (forall i t, l !! i = Some t -> is_active t = true -> t_FamilyID t <> t_FamilyID row) ->
  one_active (l ++ [row]).
Proof.
  intros H1 Hrow i j t u. rewrite !lookup_snoc_Some.
  intros [[? Hi]|[-> <-]] [[? Hj]|[-> <-]] Ht Hu Hf; [by eapply H1| | |done].
  - by destruct (Hrow _ _ Hi Ht).
  - by destruct (Hrow _ _ Hj Hu).
Qed.

Lemma one_active_step env cx s s' :
  fresh env cx s -> evolves env cx s s' -> one_active (st_tokens s) -> one_active (st_tokens s').
Proof.
  intros Hfr Hev H1.
  destruct (evolves_tokens _ _ _ _ Hfr Hev) as [[Hq _]|(mid & row & Hm & Ht & _ & Hfam)];
    [by eapply one_active_fades|].
  eapply one_active_fades; [exact Ht|]. apply one_active_snoc; [by eapply one_active_fades|].
  intros i t Hi Ha Heq. destruct (Forall2_lookup_r _ _ _ _ _ Hm Hi) as (t0 & Hi0 & Ft).
  pose proof (fades_active _ _ Ft Ha) as Ha0. rewrite (fades_family _ _ Ft) in Heq.
  destruct Hfam as [Hno|(k & told & Hk & Hka & Hkf & Hdead)].
  - apply Hno. rewrite <- Heq. apply list_elem_of_fmap. exists t0. split; [done|]. by eapply list_elem_of_lookup_2.
  - assert (i = k) as -> by (eapply H1; eauto; congruence). by rewrite (Hdead _ Hi) in Ha.
Qed.

(** A family none of whose tokens is live. *)
Record family_dead (f : string) (s : Store) : Prop := {
  fd_known : f ∈ families s;
  fd_dead t : t ∈ st_tokens s -> t_FamilyID t = f -> is_active t = false
}.

Lemma families_fades l l' : Forall2 fades l l' -> map t_FamilyID l' = map t_FamilyID l.
Proof. induction 1 as [|t t' l l' H]; simpl; [done|]. by rewrite IHForall2, (fades_family _ _ H). Qed.

Lemma family_dead_step f env cx s s' :
  fresh env cx s -> evolves env cx s s' -> family_dead f s -> family_dead f s'.
Proof.
  unfold families. intros Hfr Hev [Hk Hd].
  assert (Hkeep : forall l t, Forall2 fades (st_tokens s) l -> t ∈ l -> t_FamilyID t = f -> is_active t = false).
  { intros l t Hl Hin Hf. destruct (fades_in_r _ _ _ Hl Hin) as (t0 & Hin0 & F).
    apply not_true_iff_false. intros Ha. rewrite (fades_family _ _ F) in Hf.
    pose proof (fades_active _ _ F Ha). by rewrite (Hd t0 Hin0 Hf) in *. }
  destruct (evolves_tokens _ _ _ _ Hfr Hev) as [[Hq _]|(mid & row & Hm & Ht & _ & Hfam)].
  - split; [by unfold families; rewrite (families_fades _ _ Hq)|]. intros t. by apply Hkeep.
  - split.
    + unfold families in *. rewrite (families_fades _ _ Ht), map_app, (families_fades _ _ Hm). set_solver.
    + intros t Hin Hf. destruct (fades_in_r _ _ _ Ht Hin) as (t0 & [Hin0| ->%list_elem_of_singleton]%elem_of_app & F).
      * apply not_true_iff_false. intros Ha. pose proof (fades_active _ _ F Ha) as Ha0.
        rewrite (Hkeep mid t0 Hm Hin0) in Ha0; [done|]. by rewrite <- (fades_family _ _ F).
      * rewrite (fades_family _ _ F) in Hf. destruct Hfam as [Hno|(i & told & Hi & Ha & Hfo & _)].
        { destruct Hno. unfold families. by rewrite Hf. }
        rewrite (Hd told) in Ha; [done|by eapply list_elem_of_lookup_2|congruence].
Qed.

Lemma family_dead_quiet f s s' : quiet s s' -> family_dead f s -> family_dead f s'.
Proof.
  intros [Hq _] [Hk Hd]. split; [unfold families in *; by rewrite (families_fades _ _ Hq)|].
  intros t Hin Hf. destruct (fades_in_r _ _ _ Hq Hin) as (t0 & Hin0 & F).
  apply not_true_iff_false. intros Ha. rewrite (fades_family _ _ F) in Hf.
  pose proof (fades_active _ _ F Ha). by rewrite (Hd t0 Hin0 Hf) in *.
Qed.

(** A token that was rotated or revoked. *)
Definition spent_row (t : TokenRow) : Prop := t_Status t = "consumed"%string \/ t_Status t = "revoked"%string.
Definition spent (h : string) (s : Store) : Prop := exists t, t ∈ st_tokens s /\ t_Hash t = h /\ spent_row t.

Lemma spent_inactive t : spent_row t -> is_active t = false.
Proof. unfold is_active. intros [->| ->]; by apply bool_decide_eq_false. Qed.

Lemma spent_fades t t' : fades t t' -> spent_row t -> spent_row t'.
Proof. unfold spent_row. intros [_ _ _ _ [->|]]; done. Qed.

Lemma spent_Forall2 h l l' s s' :
  st_tokens s = l -> Forall2 fades l l' -> (forall t, t ∈ l' -> t ∈ st_tokens s') -> spent h s -> spent h s'.
Proof.
  intros <- Hl Hin (t & Ht & Hh & Hs). destruct (fades_in_l _ _ _ Hl Ht) as (t' & Ht' & F).
  exists t'. split; [by apply Hin|]. split; [by rewrite (fades_hash _ _ F)|by eapply spent_fades].
Qed.

Lemma spent_step h env cx s s' : fresh env cx s -> evolves env cx s s' -> spent h s -> spent h s'.
Proof.
  intros Hfr Hev (t & Ht & Hh & Hs).
  assert (Hgo : forall l, (exists l0, Forall2 fades (st_tokens s) l0 /\ Forall2 fades (l0 ++ l) (st_tokens s')) -> spent h s').
  { intros l (l0 & H0 & H1). destruct (fades_in_l _ _ _ H0 Ht) as (t0 & Ht0 & F0).
    destruct (fades_in_l _ _ t0 H1) as (t1 & Ht1 & F1); [set_solver|]. assert (F : fades t t1) by (by etrans).
    exists t1. split; [done|]. split; [by rewrite (fades_hash _ _ F)|by eapply spent_fades]. }
  destruct (evolves_tokens _ _ _ _ Hfr Hev) as [[Hq _]|(mid & row & Hm & Hr & _)].
  - apply (Hgo []). exists (st_tokens s). rewrite app_nil_r. split; [reflexivity|done].
  - apply (Hgo [row]). by exists mid.
Qed.

Lemma same_hash s t u :
  unique_hashes s -> t ∈ st_tokens s -> u ∈ st_tokens s -> t_Hash t = t_Hash u -> t = u.
Proof.
  intros HN [i Hi]%list_elem_of_lookup [j Hj]%list_elem_of_lookup Heq.
  assert (i = j) as ->; [|congruence].
  eapply (NoDup_lookup (hashes s)); [done|unfold hashes; rewrite list_lookup_fmap, Hi; reflexivity|].
  unfold hashes. rewrite list_lookup_fmap, Hj. simpl. by rewrite Heq.
Qed.

Lemma spent_unclaimable env h s : unique_hashes s -> spent h s -> find (claimable env h) (st_tokens s) = None.
Proof.
  intros HN (t & Ht & Hh & Hs). destruct (find _ _) as [u|] eqn:Hu; [|done].
  apply find_some in Hu as [Hin Hc]. apply list_elem_of_In in Hin. destruct (claimable_spec _ _ _ Hc) as [Hhu Ha].
  rewrite <- (same_hash s t u) in Ha by (done || congruence). by rewrite (spent_inactive _ Hs) in Ha.
Qed.

(** No call to the database fails. *)
Definition sound (env : DbEnv) : Prop := forall op, db_fails env op = false.

(** What a presented refresh token looks like. *)
Definition well_formed (tok : string) : Prop :=
  String.prefix "anb_rt_" (TrimSpace tok) = true /\ (String.length (TrimSpace tok) <= 256)%nat.

Lemma by_hash s t :
  unique_hashes s -> t ∈ st_tokens s -> find (fun u => bool_decide (t_Hash u = t_Hash t)) (st_tokens s) = Some t.
Proof.
  intros HN Ht. destruct (find _ _) as [u|] eqn:Hu.
  - apply find_some in Hu as [Hin He%bool_decide_eq_true]. apply list_elem_of_In in Hin.
    f_equal. by eapply same_hash.
  - apply list_elem_of_In in Ht. by apply (find_none _ _ Hu), bool_decide_eq_false in Ht.
Qed.

(** A spent token is answered by [respondToFailedClaim] alone, or by the failed
    start of the transaction. *)
Lemma Refresh_spent env cx tok s :
  unique_hashes s -> spent (Hash (TrimSpace tok)) s -> well_formed tok ->
  Refresh env cx tok s =
    if db_fails env OpBegin then (Err DbErr, s)
    else match respondToFailedClaim env cx (Hash (TrimSpace tok)) s with
         | (Ok e, s') => (Err e, s')
         | (Err e, s') => (Err e, s')
         end.
Proof.
  intros HN Hs [Hw1 Hw2]. unfold Refresh. cbv zeta. rewrite Hw1. destruct (Nat.ltb_spec 256 (String.length (TrimSpace tok))); [lia|].
  simpl orb. unfold mbind at 1, eff_bind at 1, attempt at 1, WithinTx. destruct (db_fails env OpBegin); [done|].
  unfold within_tx.
  assert (Hr : rotate env cx (Hash (TrimSpace tok)) s = (Err errClaimFailed, s)).
  2: { cbn [negb orb]. cbv beta. rewrite Hr. unfold mbind, eff_bind. by destruct (respondToFailedClaim _ _ _ s) as [[]]. }
  unfold rotate. unfold mbind at 1, eff_bind, map_err at 1. unfold ClaimRefresh, guarded.
  destruct (db_fails env OpClaimRefresh); [done|]. by rewrite spent_unclaimable.
Qed.

Lemma Refresh_spent_fails env cx tok s :
  unique_hashes s -> spent (Hash (TrimSpace tok)) s -> exists e, fst (Refresh env cx tok s) = Err e.
Proof.
  intros HN Hs. pose proof (Refresh_evolves env cx tok s) as H.
  destruct (Refresh env cx tok s) as [[issued|e] s']; [|by exists e].
  destruct H as (t & row & [Hf _ _ _ _ _] & _). by rewrite spent_unclaimable in Hf.
Qed.

(** ** Sessions *)

(** A session every row of which is revoked. *)
Record session_dead (sid : string) (s : Store) : Prop := {
  sd_known : sid ∈ session_ids s;
  sd_dead r : r ∈ st_sessions s -> s_ID r = sid -> is_Some (s_RevokedAt r)
}.

Lemma session_ids_fades l l' : Forall2 sfades l l' -> map s_ID l' = map s_ID l.
Proof. induction 1 as [|r r' l l' H]; simpl; [done|]. by rewrite IHForall2, (sfades_id _ _ H). Qed.

Lemma session_dead_Forall2 sid l l' :
  Forall2 sfades l l' -> (forall r, r ∈ l -> s_ID r = sid -> is_Some (s_RevokedAt r)) ->
  forall r, r ∈ l' -> s_ID r = sid -> is_Some (s_RevokedAt r).
Proof.
  intros H Hd r [i Hi]%list_elem_of_lookup Hid. destruct (Forall2_lookup_r _ _ _ _ _ H Hi) as (r0 & Hi0 & F).
  apply (sfades_revoked _ _ F), Hd; [by eapply list_elem_of_lookup_2|]. by rewrite <- (sfades_id _ _ F).
Qed.

Lemma session_dead_step sid env cx s s' :
  fresh env cx s -> evolves env cx s s' -> session_dead sid s -> session_dead sid s'.
Proof.
  intros [_ _ Hs] Hev [Hk Hd]. unfold session_ids in *.
  assert (Hgo : forall extra, (forall r, r ∈ extra -> s_ID r <> sid) ->
    Forall2 sfades (st_sessions s ++ extra) (st_sessions s') -> session_dead sid s').
  { intros extra Hex HF. split.
    - unfold session_ids. rewrite (session_ids_fades _ _ HF), map_app. set_solver.
    - eapply session_dead_Forall2; [exact HF|]. intros r [Hin|Hin]%elem_of_app Hid; [by apply Hd|].
      by destruct (Hex r Hin). }
  destruct Hev as [[_ Hq]|h t row [_ _ _ _ Hq _]|row ses [_ _ Hid _ Hq]].
  - apply (Hgo []); [set_solver|by rewrite app_nil_r].
  - apply (Hgo []); [set_solver|by rewrite app_nil_r].
  - apply (Hgo [ses]); [|done]. intros r ->%list_elem_of_singleton He. apply Hs. by rewrite <- Hid, He.
Qed.

(** Neither kind of token works for a dead session. *)
Definition useless (sid : string) (s : Store) : Prop :=
  (forall env cx tok t, t ∈ st_tokens s -> t_Hash t = Hash (TrimSpace tok) -> t_SessionID t = sid ->
     exists e, fst (Refresh env cx tok s) = Err e) /\
  (forall env cx tok claims, fst (Introspect env cx tok s) = Ok (Some claims) -> Claims.Session claims <> sid).

Lemma session_dead_useless sid s : unique_hashes s -> session_dead sid s -> useless sid s.
Proof.
  intros HN [Hk Hd]. split.
  - intros env cx tok t Ht Hh Hsid. pose proof (Refresh_evolves env cx tok s) as H.
    destruct (Refresh env cx tok s) as [[issued|e] s']; [|by exists e].
    destruct H as (t' & row & [Hf _ _ _ _ (r & Hlive)] & _).
    apply find_some in Hf as [Hin Hc]. apply list_elem_of_In in Hin. destruct (claimable_spec _ _ _ Hc) as [Hh' _].
    rewrite (same_hash s t' t) in Hlive by (done || congruence).
    apply find_some in Hlive as [Hr Hl]. apply list_elem_of_In in Hr. unfold session_live in Hl. unbool.
    destruct (Hd r Hr) as [x Hx]; congruence.
  - intros env cx tok claims Hi Hsid. unfold Introspect in Hi.
    destruct (introspect_verify cx tok) as [c|]; [|done]. destruct (cx_tenant_by_slug _ _) as [tn|]; [|done].
    unfold mbind, eff_bind, attempt, SessionState, guarded in Hi. destruct (db_fails _ _); [done|].
    destruct (find _ _) as [r|] eqn:Hr; [|done]. destruct (identity_of s r); [|done].
    apply find_some in Hr as [Hin Hb]. apply list_elem_of_In in Hin. unbool.
    destruct (bool_decide (is_Some (s_RevokedAt r))) eqn:Hrev; [done|].
    apply bool_decide_eq_false in Hrev. apply Hrev, Hd; [done|].
    simpl in Hi. destruct (_ || _); [done|]. injection Hi as ->. congruence.
Qed.

(** The two invariants the theorems run along, and what they keep dead. *)
Lemma session_dead_forever sid s s' :
  unique_hashes s -> session_dead sid s -> reaches s s' -> useless sid s'.
Proof.
  intros HN Hd Hr. apply session_dead_useless.
  - eapply (reaches_ind_evolves unique_hashes); eauto using unique_hashes_step.
  - eapply (reaches_ind_evolves (session_dead sid)); eauto using session_dead_step.
Qed.

Lemma RevokeSession_kills env tenantID sid reason s :
  db_fails env OpRevokeSession = false ->
  forall r, r ∈ st_sessions (snd (RevokeSession env tenantID sid reason s)) -> s_ID r = sid -> s_TenantID r = tenantID ->
    is_Some (s_RevokedAt r).
Proof.
  intros Hok. unfold RevokeSession, guarded. rewrite Hok.
  destruct (find _ _) as [x|] eqn:Hf; simpl; intros r Hin Hid Htn.
  - apply list_elem_of_In, in_map_iff in Hin as (r0 & <- & Hin).
    destruct (revocable tenantID sid r0) eqn:Hr; [by eexists|]. unfold revocable in Hr.
    rewrite !andb_false_iff, !bool_decide_eq_false in Hr. destruct Hr as [[Hr|Hr]|Hr]; [done..|].
    by apply not_eq_None_Some.
  - apply list_elem_of_In in Hin. apply (find_none _ _ Hf) in Hin. unfold revocable in Hin.
    rewrite !andb_false_iff, !bool_decide_eq_false in Hin. destruct Hin as [[Hr|Hr]|Hr]; [done..|].
    by apply not_eq_None_Some.
Qed.

Lemma RevokeFamily_kills env f s :
  db_fails env OpRevokeFamily = false -> f ∈ families s -> family_dead f (snd (RevokeRefreshFamily env f s)).
Proof.
  intros Hok Hk. unfold RevokeRefreshFamily, guarded. rewrite Hok. simpl. split.
  - unfold families in *. simpl. unfold revoke_rows. rewrite map_map.
    erewrite map_ext; [exact Hk|]. intros x. simpl. by destruct (_ && _).
  - simpl. intros t Hin Hf. apply list_elem_of_In, in_map_iff in Hin as (t0 & <- & _).
    destruct (bool_decide (t_FamilyID t0 = f) && is_active t0) eqn:Hc; [done|].
    apply andb_false_iff in Hc as [Hc%bool_decide_eq_false|Hc]; [done|done].
Qed.

Lemma RevokeFamily_audit env f s : st_audit (snd (RevokeRefreshFamily env f s)) = st_audit s.
Proof. unfold RevokeRefreshFamily, guarded. by destruct (db_fails _ _). Qed.
Lemma RevokeSession_audit env t i r s : st_audit (snd (RevokeSession env t i r s)) = st_audit s.
Proof. unfold RevokeSession, guarded. destruct (db_fails _ _); [done|]. by destruct (find _ _). Qed.
Lemma RevokeBySessions_audit env l s : st_audit (snd (RevokeRefreshBySessions env l s)) = st_audit s.
Proof. unfold RevokeRefreshBySessions, guarded. case_bool_decide; [done|]. by destruct (db_fails _ _). Qed.
Lemma RevokeBySessions_sessions env l s : st_sessions (snd (RevokeRefreshBySessions env l s)) = st_sessions s.
Proof. unfold RevokeRefreshBySessions, guarded. case_bool_decide; [done|]. by destruct (db_fails _ _). Qed.

(** What containment does when no call fails. *)
Lemma contain_spec env cx info s :
  sound env -> rf_FamilyID info ∈ families s ->
  exists s1 contained, contain env cx info s = (Ok ErrRefreshReuse, s1) /\ quiet s s1 /\
    family_dead (rf_FamilyID info) s1 /\
    (forall r, r ∈ st_sessions s1 -> s_ID r = rf_SessionID info -> s_TenantID r = rf_TenantID info ->
       is_Some (s_RevokedAt r)) /\
    st_audit s1 = st_audit s ++ [reuse_event cx info contained].
Proof.
  intros Hok Hk. unfold contain. rewrite attempt_bind.
  pose proof (RevokeFamily_kills env (rf_FamilyID info) s (Hok _) Hk) as Hfd.
  pose proof (RevokeRefreshFamily_quiet env (rf_FamilyID info) s) as Hq1.
  pose proof (RevokeFamily_audit env (rf_FamilyID info) s) as Ha1.
  destruct (RevokeRefreshFamily env (rf_FamilyID info) s) as [fam sa]. simpl fst in *. simpl snd in *. cbv zeta.
  rewrite attempt_bind.
  pose proof (RevokeSession_kills env (rf_TenantID info) (rf_SessionID info) "refresh_reuse_detected" sa (Hok _)) as Hks.
  pose proof (RevokeSession_quiet env (rf_TenantID info) (rf_SessionID info) "refresh_reuse_detected" sa) as Hq2.
  pose proof (RevokeSession_audit env (rf_TenantID info) (rf_SessionID info) "refresh_reuse_detected" sa) as Ha2.
  destruct (RevokeSession env _ _ _ sa) as [ses sb]. simpl fst in *. simpl snd in *.
  assert (Hab : st_audit sb = st_audit s) by congruence. assert (Hqb : quiet s sb) by (by etrans).
  destruct (failed ses).
  - eexists _, _. split; [reflexivity|]. split; [destruct Hqb; by split|].
    split; [destruct (family_dead_quiet _ _ _ Hq2 Hfd); by split|]. split; [done|]. simpl. by rewrite Hab.
  - unfold mbind at 1, eff_bind at 1. rewrite attempt_bind.
    pose proof (RevokeRefreshBySessions_quiet env [rf_SessionID info] sb) as Hq3.
    pose proof (RevokeBySessions_audit env [rf_SessionID info] sb) as Ha3.
    pose proof (RevokeBySessions_sessions env [rf_SessionID info] sb) as Hs3.
    destruct (RevokeRefreshBySessions env _ sb) as [toks sc]. simpl fst in *. simpl snd in *.
    assert (Hqc : quiet s sc) by (by etrans). assert (Hac : st_audit sc = st_audit s) by congruence.
    eexists _, _. split; [reflexivity|]. split; [destruct Hqc; by split|].
    split; [destruct (family_dead_quiet _ _ _ Hq3 (family_dead_quiet _ _ _ Hq2 Hfd)); by split|].
    split; [simpl; by rewrite Hs3|]. simpl. by rewrite Hac.
Qed.

Lemma respond_reuse env cx s t :
  unique_hashes s -> t ∈ st_tokens s -> spent_row t -> sound env ->
  respondToFailedClaim env cx (t_Hash t) s = contain env cx (info_of t) s.
Proof.
  intros HN Ht Hsp Hok. unfold respondToFailedClaim. rewrite attempt_bind.
  unfold RefreshByHash, guarded. rewrite (Hok OpRefreshByHash), (by_hash s t HN Ht). simpl.
  by destruct Hsp as [->| ->].
Qed.

(** A successful transaction ran its body and committed. *)
Lemma WithinTx_ok {E A} env (w : Error -> E) (m : Eff Store E A) a s s' :
  WithinTx env w m s = (Ok a, s') -> m s = (Ok a, s').
Proof.
  unfold WithinTx, within_tx. destruct (db_fails env OpBegin); [done|]. destruct (m s) as [[]]; [|done].
  by destruct (db_fails env OpCommit).
Qed.

Lemma RevokeSession_ok env tenantID sid reason s rs s1 :
  RevokeSession env tenantID sid reason s = (Ok rs, s1) ->
  exists r, r ∈ st_sessions s /\ s_ID r = sid /\ s_TenantID r = tenantID /\ s_RevokedAt r = None /\ rs = revoked_of r /\
    db_fails env OpRevokeSession = false.
Proof.
  unfold RevokeSession, guarded. destruct (db_fails _ _); [done|].
  destruct (find _ _) as [r|] eqn:Hf; [|done]. intros [= <- <-]. exists r.
  apply find_some in Hf as [Hin Hb]. apply list_elem_of_In in Hin. unfold revocable in Hb. unbool. done.
Qed.

(** With ids unique, one revoked row is the whole session. *)
Lemma only_row s r r' : NoDup (session_ids s) -> r ∈ st_sessions s -> r' ∈ st_sessions s -> s_ID r' = s_ID r -> r' = r.
Proof.
  intros HN [i Hi]%list_elem_of_lookup [j Hj]%list_elem_of_lookup He.
  assert (j = i) as ->; [|congruence]. eapply (NoDup_lookup (session_ids s)); [done|..];
    unfold session_ids; rewrite list_lookup_fmap, ?Hi, ?Hj; simpl; [by rewrite He|done].
Qed.

Lemma dead_of_tenant s s1 r :
  NoDup (session_ids s) -> Forall2 sfades (st_sessions s) (st_sessions s1) -> r ∈ st_sessions s ->
  (forall x, x ∈ st_sessions s1 -> s_ID x = s_ID r -> s_TenantID x = s_TenantID r ->
     s_IdentityID x = s_IdentityID r -> is_Some (s_RevokedAt x)) ->
  session_dead (s_ID r) s1.
Proof.
  intros HN HF Hr Hk. split.
  - unfold session_ids. rewrite (session_ids_fades _ _ HF). apply list_elem_of_fmap. by exists r.
  - intros x Hx Hid. apply list_elem_of_lookup in Hx as Hx'. destruct Hx' as [i Hi].
    destruct (Forall2_lookup_r _ _ _ _ _ HF Hi) as (x0 & Hi0 & F).
    assert (x0 = r) as ->.
    { eapply only_row; eauto using list_elem_of_lookup_2. by rewrite <- (sfades_id _ _ F). }
    apply Hk; [done|done|apply F|apply F].
Qed.

Lemma revokeOne_ok env cx who sid reason s s1 :
  NoDup (session_ids s) -> revokeOne env cx who sid reason s = (Ok tt, s1) ->
  quiet s s1 /\ session_dead sid s1 /\
  exists r, r ∈ st_sessions s /\ s_ID r = sid /\ s_IdentityID r = Authctx.IdentityID who /\
    s_TenantID r = Authctx.TenantID who /\ s_RevokedAt r = None.
Proof.
  intros HN H. pose proof (revokeOne_quiet env cx who sid reason s) as Hq. rewrite H in Hq. simpl in Hq.
  split; [done|]. unfold revokeOne in H. apply bind_ok in H as ([] & s2 & H & He).
  apply WithinTx_ok in H. apply bind_ok in H as (rs & s3 & H3 & H). apply map_err_ok in H3.
  destruct (RevokeSession_ok _ _ _ _ _ _ _ H3) as (r & Hin & Hid & Htn & Hrev & -> & Hf). simpl in H.
  case_bool_decide as Hown; [|done]. apply bind_ok in H as (n & s4 & H4 & H5). injection H5 as <-.
  injection He as <-. split; [|by exists r]. subst sid. eapply dead_of_tenant; [exact HN|apply Hq|done|].
  intros x Hx Hidx Htx _. simpl in Hx.
  pose proof (RevokeBySessions_sessions env [s_ID r] s3) as Hs. rewrite H4 in Hs. simpl in Hs. rewrite Hs in Hx.
  pose proof (RevokeSession_kills env (Authctx.TenantID who) (s_ID r) reason s Hf) as Hk. rewrite H3 in Hk.
  apply (Hk x); [done|done|congruence].
Qed.

Lemma RevokeAll_ok env tenantID identityID reason s l s1 :
  RevokeAllSessions env tenantID identityID reason s = (Ok l, s1) ->
  st_idents s1 = st_idents s /\
  length l = length (List.filter (revocable_all tenantID identityID) (st_sessions s)) /\
  forall x, x ∈ st_sessions s1 -> s_TenantID x = tenantID -> s_IdentityID x = identityID -> is_Some (s_RevokedAt x).
Proof.
  unfold RevokeAllSessions, guarded. destruct (db_fails _ _); [done|]. intros [= <- <-]. split; [done|].
  split; [by rewrite length_map|]. simpl. intros x Hin Htn Hid.
  apply list_elem_of_In, in_map_iff in Hin as (r0 & <- & Hin).
  destruct (revocable_all tenantID identityID r0) eqn:Hr; [by eexists|]. unfold revocable_all in Hr.
  rewrite !andb_false_iff, !bool_decide_eq_false in Hr. destruct Hr as [[Hr|Hr]|Hr]; [done..|].
  by apply not_eq_None_Some.
Qed.

Lemma RevokeBySessions_idents env l s : st_idents (snd (RevokeRefreshBySessions env l s)) = st_idents s.
Proof. unfold RevokeRefreshBySessions, guarded. case_bool_decide; [done|]. by destruct (db_fails _ _). Qed.

Lemma BumpTokenEpoch_ok env tenantID id s n s1 :
  BumpTokenEpoch env tenantID id s = (Ok n, s1) ->
  st_sessions s1 = st_sessions s /\
  st_idents s1 = map (fun i => if bool_decide (id_ID i = id) && bool_decide (id_TenantID i = tenantID)
                               then bump i else i) (st_idents s).
Proof.
  unfold BumpTokenEpoch, guarded. destruct (db_fails _ _); [done|]. cbv zeta. destruct (find _ (st_idents s)); [|done].
  by intros [= <- <-].
Qed.

(** ** The guarantees *)

(** C38: a refresh token rotates at most once.  Once a refresh answered with new
    tokens, presenting the same token again - after any sequence of requests,
    with any database faults - never answers with tokens; and when the database
    answers it is reported as reuse. *)
Theorem refresh_single_use env cx tok s issued s1 s2 env2 cx2 tok2 :
  unique_hashes s -> fresh env cx s -> Refresh env cx tok s = (Ok issued, s1) -> reaches s1 s2 ->
  TrimSpace tok2 = TrimSpace tok ->
  (exists e, fst (Refresh env2 cx2 tok2 s2) = Err e) /\
  (sound env2 -> fst (Refresh env2 cx2 tok2 s2) = Err ErrRefreshReuse).
Proof.
  intros HN Hfr Hok Hr Htok.
  pose proof (Refresh_evolves env cx tok s) as H. rewrite Hok in H. destruct H as (t & row & Hrot & _).
  assert (Hev : evolves env cx s s1) by (by eapply ev_rotated).
  assert (HN2 : unique_hashes s2).
  { eapply (reaches_ind_evolves unique_hashes); eauto using unique_hashes_step. }
  assert (Hs2 : spent (Hash (TrimSpace tok2)) s2).
  { eapply (reaches_ind_evolves (spent _)); [by eauto using spent_step|exact Hr|]. rewrite Htok.
    destruct Hrot as [Hf _ _ Htk _ _]. apply find_some in Hf as [Hin Hc].
    destruct (claimable_spec _ _ _ Hc) as [Hh _].
    destruct (fades_in_l _ _ (consume env (Hash (TrimSpace tok)) t) Htk) as (t' & Ht' & F).
    { apply elem_of_app. left. apply list_elem_of_fmap. exists t. split; [done|by apply list_elem_of_In]. }
    exists t'. split; [done|]. unfold consume in F. rewrite Hc in F. split; [by rewrite (fades_hash _ _ F)|].
    eapply spent_fades; [exact F|]. by left. }
  split; [by apply Refresh_spent_fails|]. intros Hsound.
  assert (Hw : well_formed tok2).
  { unfold well_formed. rewrite Htok. unfold Refresh in Hok.
    destruct (String.prefix "anb_rt_" (TrimSpace tok)); [|done].
    destruct (Nat.ltb_spec 256 (String.length (TrimSpace tok))); [done|]. by split. }
  rewrite Refresh_spent, (Hsound OpBegin) by done. destruct Hs2 as (u & Hu & Hhu & Hsu). rewrite <- Hhu.
  rewrite respond_reuse by done.
  destruct (contain_spec env2 cx2 (info_of u) s2 Hsound) as (s3 & c & -> & _); [|done].
  apply list_elem_of_fmap. by exists u.
Qed.

(** C39: reuse is answered by killing the family.  Presenting a token already
    rotated or revoked is refused as reuse; the family has no live token left,
    the session is revoked and the event is recorded; and however the history
    goes on, no token of that family, whoever holds it, ever rotates again. *)
Theorem reuse_kills_family env cx tok s t :
  unique_hashes s -> t ∈ st_tokens s -> t_Hash t = Hash (TrimSpace tok) -> spent_row t -> well_formed tok -> sound env ->
  exists s1 contained, Refresh env cx tok s = (Err ErrRefreshReuse, s1) /\
    family_dead (t_FamilyID t) s1 /\
    (forall r, r ∈ st_sessions s1 -> s_ID r = t_SessionID t -> s_TenantID r = t_TenantID t -> is_Some (s_RevokedAt r)) /\
    st_audit s1 = st_audit s ++ [reuse_event cx (info_of t) contained] /\
    forall s2 u env2 cx2 tok2, reaches s1 s2 -> u ∈ st_tokens s2 -> t_FamilyID u = t_FamilyID t ->
      Hash (TrimSpace tok2) = t_Hash u -> exists e, fst (Refresh env2 cx2 tok2 s2) = Err e.
Proof.
  intros HN Ht Hh Hsp Hw Hok.
  destruct (contain_spec env cx (info_of t) s Hok) as (s1 & c & Hr & Hq & Hfd & Hses & Hau).
  { apply list_elem_of_fmap. by exists t. }
  assert (HR : Refresh env cx tok s = (Err ErrRefreshReuse, s1)).
  { rewrite Refresh_spent, (Hok OpBegin) by (done || by exists t). rewrite <- Hh, respond_reuse by done. by rewrite Hr. }
  exists s1, c. repeat (split; [done|]). intros s2 u env2 cx2 tok2 Hreach Hu Hfu Htok2.
  assert (HN2 : unique_hashes s2).
  { eapply (reaches_ind_evolves unique_hashes); [by eauto using unique_hashes_step|exact Hreach|].
    unfold unique_hashes, hashes. by rewrite (fades_hashes _ _ (quiet_tokens _ _ Hq)). }
  assert (Hd2 : family_dead (t_FamilyID t) s2).
  { eapply (reaches_ind_evolves (family_dead _)); [by eauto using family_dead_step|exact Hreach|exact Hfd]. }
  pose proof (Refresh_evolves env2 cx2 tok2 s2) as H.
  destruct (Refresh env2 cx2 tok2 s2) as [[issued|e] s3]; [|by exists e].
  destruct H as (x & row & [Hf _ _ _ _ _] & _). apply find_some in Hf as [Hin Hc].
  apply list_elem_of_In in Hin. destruct (claimable_spec _ _ _ Hc) as [Hhx Hax].
  rewrite (same_hash s2 x u) in Hax by (done || congruence). by rewrite (fd_dead _ _ Hd2 u Hu Hfu) in Hax.
Qed.

(** A family has at most one live token at any time, whatever requests ran,
    in whatever order and with whatever database faults; and token hashes stay
    unique, so a presented token names one row. *)
Theorem one_live_token_per_family s s' :
  reaches s s' -> unique_hashes s -> one_active (st_tokens s) ->
  unique_hashes s' /\
  forall t u, t ∈ st_tokens s' -> u ∈ st_tokens s' -> is_active t = true -> is_active u = true ->
    t_FamilyID t = t_FamilyID u -> t = u.
Proof.
  intros Hr HN H1. split; [eapply (reaches_ind_evolves unique_hashes); eauto using unique_hashes_step|].
  intros t u [i Hi]%list_elem_of_lookup [j Hj]%list_elem_of_lookup Ht Hu Hf.
  assert (Ho : one_active (st_tokens s')).
  { eapply (reaches_ind_evolves (fun s => one_active (st_tokens s))); eauto using one_active_step. }
  assert (i = j) as -> by (by eapply Ho). congruence.
Qed.

(** A signed-out device stays signed out.  When LogoutSession succeeds, the
    session was the caller's own, it is revoked, and after any further history
    neither its refresh tokens rotate nor do its access tokens introspect as
    active. *)
Theorem logout_session_final env cx sid s s1 :
  unique_hashes s -> NoDup (session_ids s) -> LogoutSession env cx sid s = (Ok tt, s1) ->
  (exists who r, cx_caller cx = Some who /\ r ∈ st_sessions s /\ s_ID r = sid /\
     s_IdentityID r = Authctx.IdentityID who /\ s_TenantID r = Authctx.TenantID who /\ s_RevokedAt r = None /\
     (Authctx.FirstParty who = true \/ sid = Authctx.SessionID who)) /\
  forall s2, reaches s1 s2 -> useless sid s2.
Proof.
  intros HN HS H. unfold LogoutSession in H. destruct (cx_caller cx) as [who|] eqn:Hc; [|done].
  destruct (negb _ && negb _) eqn:Hg; [done|].
  destruct (revokeOne_ok _ _ _ _ _ _ _ HS H) as ([Hq Hq'] & Hd & r & Hr & Hid & Hown & Htn & Hrev). split.
  - exists who, r. repeat (split; [done|]). apply andb_false_iff in Hg as [Hg|Hg]; unbool; auto.
  - intros s2 Hreach. eapply session_dead_forever; [|exact Hd|exact Hreach].
    unfold unique_hashes, hashes. by rewrite (fades_hashes _ _ Hq).
Qed.

(** Signing out everywhere ends every session of the person in the tenant,
    for good, and moves their token epoch on by one; only a first-party token may
    ask for it, and it answers how many sessions it ended. *)
Theorem logout_all_final env cx s n notified s1 :
  unique_hashes s -> NoDup (session_ids s) -> LogoutAll env cx s = (Ok (n, notified), s1) ->
  exists who, cx_caller cx = Some who /\ Authctx.FirstParty who = true /\
    n = length (List.filter (revocable_all (Authctx.TenantID who) (Authctx.IdentityID who)) (st_sessions s)) /\
    st_idents s1 = map (fun i => if bool_decide (id_ID i = Authctx.IdentityID who) &&
                                    bool_decide (id_TenantID i = Authctx.TenantID who) then bump i else i) (st_idents s) /\
    forall r s2, r ∈ st_sessions s -> s_TenantID r = Authctx.TenantID who -> s_IdentityID r = Authctx.IdentityID who ->
      reaches s1 s2 -> useless (s_ID r) s2.
Proof.
  intros HN HS H. pose proof (LogoutAll_quiet env cx s) as [Hq Hq']. rewrite H in Hq, Hq'. simpl in Hq, Hq'.
  unfold LogoutAll in H. destruct (cx_caller cx) as [who|]; [|done]. exists who. split; [done|].
  destruct (Authctx.FirstParty who); [split; [done|]|done]. simpl negb in H. cbv iota in H.
  apply bind_ok in H as (l & sa & H & He). apply WithinTx_ok in H. apply bind_ok in H as (l' & sb & H1 & H).
  apply map_err_ok in H1. destruct (RevokeAll_ok _ _ _ _ _ _ _ H1) as (Hi1 & Hlen & Hkill).
  cbv zeta in H. apply bind_ok in H as (k & sc & H2 & H). apply bind_ok in H as (ep & sd & H3 & H).
  apply map_err_ok, BumpTokenEpoch_ok in H3 as [Hs3 Hi3]. injection H as <- <-.
  assert (Hs2 : st_sessions sc = st_sessions sb /\ st_idents sc = st_idents sb).
  { destruct (_ <? _)%nat; [|by injection H2 as <- <-]. apply map_err_ok in H2.
    pose proof (RevokeBySessions_sessions env (map rs_ID l') sb) as Hx.
    pose proof (RevokeBySessions_idents env (map rs_ID l') sb) as Hy. by rewrite H2 in Hx, Hy. }
  destruct Hs2 as [Hs2 Hi2]. injection He as <- _ <-.
  split; [done|]. split; [simpl; by rewrite Hi3, Hi2, Hi1|].
  intros r s2 Hr Htn Hid Hreach. eapply session_dead_forever; [| |exact Hreach].
  - unfold unique_hashes, hashes. by rewrite (fades_hashes _ _ Hq).
  - eapply dead_of_tenant; [exact HS|exact Hq'|done|]. simpl. rewrite Hs3, Hs2. intros x Hx _ Htx Hix.
    apply (Hkill x Hx); congruence.
Qed.

End Histories.
End AuthTheorems.

(** ** A sample history *)
Module Sample.
Import Apperr AuthStore Issuer AuthFlows AuthFlowsProps AuthTheorems.

#[local] Instance issuer_prims : IssuerPrims := {|
  sha256 s := ("#" ++ s)%string;
  json_of_claims c := Some (Claims.Session c ++ "," ++ Claims.Tenant c)%string;
  json_parse_scopes _ := Some ∅;
  json_footer kid := kid
|}.
#[local] Instance flow_prims : FlowPrims := {|
  json_sid_tid _ := None;
  json_claims _ := None;
  json_logout iss aud iat exp jti sub sid := Some (iss ++ aud ++ jti ++ sub ++ sid)%string
|}.

Definition now : Time := (63000000000 * second)%Z.

Definition env : DbEnv := {| db_fails _ := false; db_now := now; db_token_id := "t2"; db_session_id := "s2" |}.

Definition key : Keys.Key := {|
  Keys.Kid := "k1"; Keys.Purpose := Keys.PurposeAccess; Keys.Alg := "Ed25519"; Keys.Status := Keys.StatusActive;
  Keys.Public := @ed_public Toy.prims Toy.sk; Keys.Private := Some Toy.sk; Keys.Secret := "";
  Keys.NotBefore := 0; Keys.NotAfter := 0
|}.

Definition ports : Ports := {|
  p_issuer := "iss";
  p_ring := {| Keys.byKid := {[ "k1"%string := key ]}; Keys.activeAccess := Some key; Keys.activeLocal := None |};
  p_now := now;
  p_tenant _ := Some {| tn_ID := "T"; tn_Slug := "acme"; tn_Status := "active" |};
  p_realm _ := None;
  p_app _ _ := None;
  p_holds _ _ _ := Some true;
  p_roles_in_app _ _ _ := Some [];
  p_roles _ _ := Some ["admin"%string];
  p_jti := Some "0123456789abcdef"%string;
  p_refresh := Some "0123456789abcdef0123456789abcdef"%string;
  p_family := Some "fedcba9876543210"%string
|}.

Definition caller : Authctx.Principal := {|
  Authctx.IdentityID := "I"; Authctx.TenantID := "T"; Authctx.TenantSlug := "acme"; Authctx.SessionID := "s1";
  Authctx.Realm := ""; Authctx.Roles := []; Authctx.Scopes := ∅; Authctx.AMR := []; Authctx.AuthTime := 0;
  Authctx.IAL := 1; Authctx.Epoch := 1; Authctx.Audience := [Authctx.FirstPartyAudience]; Authctx.Service := false;
  Authctx.Platform := false; Authctx.Token := ""
|}.

Definition cx : Ctx := {|
  cx_ports := ports; cx_ip := "192.0.2.1"; cx_user_agent := ""; cx_caller := Some caller;
  cx_tenant_by_slug _ := p_tenant ports "T"; cx_backchannel _ := Some [("app", "https://app/logout")]%string;
  cx_logout_jti _ := Some "0123456789abcdef"%string
|}.

Definition token : TokenRow := {|
  t_ID := "t1"; t_SessionID := "s1"; t_TenantID := "T"; t_FamilyID := "F"; t_Generation := 0;
  t_Hash := "#anb_rt_old"; t_Status := "active"; t_ExpiresAt := (now + 60 * second)%Z; t_BoundKey := None;
  t_ClientID := None; t_SuccessorID := None
|}.

Definition session : SessionRow := {|
  s_ID := "s1"; s_IdentityID := "I"; s_TenantID := "T"; s_ApplicationID := None; s_AMR := []; s_CreatedAt := 0;
  s_LastSeenAt := 0; s_AuthTime := 0; s_ExpiresAt := (now + 60 * second)%Z; s_ActiveScopes := ""; s_DeviceFP := None;
  s_RevokedAt := None; s_RevokeReason := None; s_CookieHash := None
|}.

Definition store : Store := {|
  st_tokens := [token];
  st_sessions := [session];
  st_idents := [{| id_ID := "I"; id_TenantID := "T"; id_TokenEpoch := 1; id_Status := "active"; id_AssuranceLevel := 1;
                   id_Username := None; id_Email := None; id_RealmID := None; id_RealmCode := None;
                   id_DisabledAt := None; id_AnonymizedAt := None; id_LastLoginAt := None |}];
  st_audit := []
|}.

(** The store after a request; what a refresh answered. *)
Definition after (req : Request) : Store := @perform Toy.prims _ _ env cx req store.
Definition refreshed : TokenPair :=
  match fst (@Refresh Toy.prims _ env cx "anb_rt_old" store) with
  | Ok issued => issued
  | Err _ => {| tp_AccessToken := ""; tp_RefreshToken := ""; tp_TokenType := ""; tp_ExpiresIn := 0; tp_SessionID := "" |}
  end.

Lemma store_unique : unique_hashes store /\ NoDup (session_ids store).
Proof. split; apply (bool_decide_unpack _); vm_compute; exact I. Qed.

Lemma store_fresh : fresh env cx store.
Proof.
  split.
  - intros h (raw & Hr & ->). vm_compute in Hr. injection Hr as <-.
    apply (bool_decide_unpack _). vm_compute. exact I.
  - intros f Hf. vm_compute in Hf. injection Hf as <-. apply (bool_decide_unpack _). vm_compute. exact I.
  - apply (bool_decide_unpack _). vm_compute. exact I.
Qed.

Lemma refresh_single_use_witness :
  fst (@Refresh Toy.prims _ env cx "anb_rt_old" (after (ReqRefresh "anb_rt_old"))) = Err ErrRefreshReuse.
Proof.
  apply (@refresh_single_use Toy.prims _ _ env cx "anb_rt_old" store refreshed (after (ReqRefresh "anb_rt_old"))
           (after (ReqRefresh "anb_rt_old")) env cx "anb_rt_old");
    [apply store_unique|apply store_fresh|vm_compute; reflexivity|apply reaches_refl|reflexivity|done].
Defined.

Lemma reuse_kills_family_witness :
  exists s1 contained,
    @Refresh Toy.prims _ env cx "anb_rt_old" (after (ReqRefresh "anb_rt_old")) = (Err ErrRefreshReuse, s1) /\
    family_dead "F" s1 /\
    st_audit s1 = [reuse_event cx (info_of (set_successor "t2" (set_status "consumed" token))) contained].
Proof.
  destruct (@reuse_kills_family Toy.prims _ _ env cx "anb_rt_old" (after (ReqRefresh "anb_rt_old"))
              (set_successor "t2" (set_status "consumed" token))) as (s1 & c & H1 & H2 & _ & H4 & _).
  - apply (bool_decide_unpack _). vm_compute. exact I.
  - vm_compute. left.
  - vm_compute. reflexivity.
  - by left.
  - split; vm_compute; [reflexivity|]. apply (bool_decide_unpack _). vm_compute. exact I.
  - done.
  - exists s1, c. split; [exact H1|]. split; [exact H2|exact H4].
Defined.

Lemma one_live_token_per_family_witness :
  unique_hashes (after (ReqRefresh "anb_rt_old")) /\ length (st_tokens (after (ReqRefresh "anb_rt_old"))) = 2%nat.
Proof.
  split; [|vm_compute; reflexivity].
  apply (@one_live_token_per_family Toy.prims _ _ store (after (ReqRefresh "anb_rt_old"))).
  - apply (@reaches_step Toy.prims _ _ store store env cx (ReqRefresh "anb_rt_old"));
      [apply reaches_refl|apply store_fresh].
  - apply store_unique.
  - intros [|i] [|j] t u Hi Hj _ _ _; [done|simpl in *; by try rewrite lookup_nil in *..].
Defined.

Lemma logout_session_final_witness : @useless Toy.prims _ _ "s1" (after (ReqLogoutSession "s1")).
Proof.
  apply (@logout_session_final Toy.prims _ _ env cx "s1" store (after (ReqLogoutSession "s1")));
    [apply store_unique|apply store_unique|vm_compute; reflexivity|apply reaches_refl].
Defined.

Lemma logout_all_final_witness : @useless Toy.prims _ _ "s1" (after ReqLogoutAll).
Proof.
  assert (H : exists nt, @LogoutAll Toy.prims _ _ env cx store = (Ok (1%nat, nt), after ReqLogoutAll))
    by (eexists; vm_compute; reflexivity).
  destruct H as [nt H].
  destruct (@logout_all_final Toy.prims _ _ env cx store 1 nt (after ReqLogoutAll)) as (who & [= <-] & _ & _ & _ & Hu);
    [apply store_unique|apply store_unique|exact H|].
  apply (Hu session); [by left|done|done|apply reaches_refl].
Defined.

End Sample.
