(* ===== verification/Credentials.v ===== *)
(** internal/identity: who may sign in and with what.  The domain rules of
    identities, realms, credentials and password policy (internal/identity/domain
    and its credential package), and the credential and one-time-token tables
    with the statements over them (adapter/postgres/credential_repository.go,
    rquery/credential.go; internal/auth/adapter/postgres/one_time_repository.go,
    rquery/one_time.go). *)

From Stdlib Require Import ZArith Lia Bool Ascii String.
From stdpp Require Import base gmap strings list.
From S2P Require Import Prelude.
From S2P Require Import GoStrings.
From S2P Require Import Base64.
From S2P Require Import GoConv.
From S2P Require Import Shared.
From S2P Require Import AuthStore.
From S2P Require Import TokenIssuer.

(** ** internal/identity/domain *)
Module IdentityDomain.
Import Apperr.

Record Identity := {
  i_ID : string; i_TenantID : string; i_RealmID : string; i_RealmCode : string; i_Username : string;
  i_Status : string; i_Disabled : bool; i_Anonymized : bool; i_Email : string; i_AssuranceLevel : Z; i_TokenEpoch : Z
}.

Definition CanAuthenticate (i : Identity) : result Error unit :=
  if i_Anonymized i || i_Disabled i || bool_decide (i_Status i = "disabled"%string) then Err ErrIdentityDisabled
  else if bool_decide (i_Status i = "locked"%string) then Err ErrIdentityLocked
  else if negb (bool_decide (i_Status i = "active"%string)) then Err ErrInvalidCredentials
  else Ok tt.

(** The realm's policy, with the lifetimes the issuer reads. *)
Record Realm := {
  r_ID : string; r_Code : string; r_AllowedFactors : list string; r_RequiredFactors : list string;
  r_FactorEnrolmentDeadline : Time; r_Lifetimes : Issuer.Realm
}.

Inductive EnrolmentStance := EnrolmentNotEnforced | EnrolmentDue | EnrolmentOverdue.

Definition contains (l : list string) (v : string) : bool := existsb (fun x => bool_decide (x = v)) l.

Definition AllowsFactor (r : Realm) (factor : string) : bool := contains (r_AllowedFactors r) factor.
Definition RequiresFactor (r : Realm) (factor : string) : bool := contains (r_RequiredFactors r) factor.

(** The loop over the required factors. *)
Definition missing_factors (r : Realm) (enrolled : list string) : list string :=
  List.filter (fun want => negb (bool_decide (want = "password"%string) || negb (AllowsFactor r want)) &&
                           negb (contains enrolled want)) (r_RequiredFactors r).

Definition EnrolmentStanceFor (r : Realm) (enrolled : list string) (now : Time) : EnrolmentStance * list string :=
  if time_is_zero (r_FactorEnrolmentDeadline r) then (EnrolmentNotEnforced, [])
  else
    let missing := missing_factors r enrolled in
    if bool_decide (missing = []) then (EnrolmentNotEnforced, [])
    else if time_before now (r_FactorEnrolmentDeadline r) then (EnrolmentDue, missing)
    else (EnrolmentOverdue, missing).

(** password_policy.go; [raw] is the minimum length json.Unmarshal reads, 0 when
    there is none or the text is garbled. *)
Definition ParsePasswordPolicy (raw : Z) : Z := if (raw <=? 0)%Z then 12 else raw.

Definition ErrPasswordPolicy : Error := E KindInvalidArgument "password_policy" "Password does not meet the realm policy".

Definition Check (min_length : Z) (password : string) : result Error unit :=
  if (Z.of_nat (String.length password) <? min_length)%Z then Err (With ErrPasswordPolicy "min_length" (Strconv.Itoa min_length))
  else if (512 <? Z.of_nat (String.length password))%Z then Err (With ErrPasswordPolicy "max_length" "512")
  else Ok tt.

(** validate.go: ^[^\s]{2,128}$, in runes. *)
Definition ValidUsername (s : string) : bool :=
  str_forallb (fun a => negb (bool_decide (a ∈ [chr 9; chr 10; chr 12; chr 13; chr 32]))) s &&
  (2 <=? Utf8.RuneCountInString s)%nat && (Utf8.RuneCountInString s <=? 128)%nat.

End IdentityDomain.

(** ** The credential and one-time tables *)
Module CredStore.
Import Apperr.

(** [cr_LastStep] is params->'last_step' where it is a number. *)
Record CredRow := {
  cr_ID : string; cr_IdentityID : string; cr_TenantID : string; cr_Kind : string; cr_Secret : option string;
  cr_SecretKid : option string; cr_LookupKey : option string; cr_LastStep : option Z; cr_SignCounter : Z;
  cr_CreatedAt : Time; cr_ExpiresAt : option Time; cr_RevokedAt : option Time
}.

Record OneTimeRow := { ot_Hash : string; ot_Kind : string; ot_TenantID : string; ot_Payload : string; ot_ExpiresAt : Time }.

(** A credential as the repository hands it out. *)
Record Credential := {
  c_ID : string; c_IdentityID : string; c_TenantID : string; c_Secret : string; c_SecretKid : string;
  c_SignCounter : Z; c_ExpiresAt : option Time
}.

Definition Expired (c : Credential) (now : Time) : bool :=
  match c_ExpiresAt c with Some t => negb (time_after t now) | None => false end.

Record CredentialInput := {
  ci_IdentityID : string; ci_TenantID : string; ci_Kind : string; ci_Secret : string; ci_LookupKey : string;
  ci_LastStep : option Z; ci_ExpiresAt : option Time
}.

Record Tables := { tb_creds : list CredRow; tb_onetime : list OneTimeRow }.

Inductive COp :=
| OpPassword | OpCreateCred | OpRevokeCred | OpRevokeKind | OpUpdateSecret | OpActiveOfKind | OpActiveKinds
| OpAdvance | OpOwner | OpListCreds | OpCreateOneTime | OpConsumeOneTime.

(** The database during one handler: failures, its clock, and the ids of the
    credentials it inserts, in order of insertion. *)
Record CEnv := { ce_fails : COp -> bool; ce_now : Time; ce_cred_id : nat -> string }.

Section Ops.
Context (env : CEnv).

Abbreviation M := (Eff Tables Error).

Definition guarded {A} (op : COp) (m : M A) : M A :=
  fun s => if ce_fails env op then (Err (Wrap ErrInternal "database"), s) else m s.

Definition with_creds (s : Tables) (l : list CredRow) : Tables := {| tb_creds := l; tb_onetime := tb_onetime s |}.
Definition with_onetime (s : Tables) (l : list OneTimeRow) : Tables := {| tb_creds := tb_creds s; tb_onetime := l |}.

Definition unrevoked (r : CredRow) : bool := bool_decide (cr_RevokedAt r = None).
(** revoked_at IS NULL AND (expires_at IS NULL OR expires_at > now()) *)
Definition live (r : CredRow) : bool :=
  unrevoked r && match cr_ExpiresAt r with None => true | Some t => time_after t (ce_now env) end.
Definition holds (identityID kind : string) (r : CredRow) : bool :=
  bool_decide (cr_IdentityID r = identityID) && bool_decide (cr_Kind r = kind).

Definition credential_of (r : CredRow) : Credential :=
  {| c_ID := cr_ID r; c_IdentityID := cr_IdentityID r; c_TenantID := cr_TenantID r; c_Secret := default ""%string (cr_Secret r);
     c_SecretKid := default ""%string (cr_SecretKid r); c_SignCounter := cr_SignCounter r; c_ExpiresAt := cr_ExpiresAt r |}.

Definition PasswordCredential (identityID : string) : M Credential :=
  guarded OpPassword (fun s =>
    match find (fun r => holds identityID "password" r && unrevoked r) (tb_creds s) with
    | None => (Err ErrNotFound, s)
    | Some r => (Ok (credential_of r), s)
    end).

(** The unique indexes credentials_one_password and credentials_lookup. *)
Definition clashes (inp : CredentialInput) (r : CredRow) : bool :=
  unrevoked r &&
  (bool_decide (ci_Kind inp = "password"%string) && holds (ci_IdentityID inp) "password" r ||
   negb (bool_decide (ci_LookupKey inp = ""%string)) && bool_decide (cr_LookupKey r = Some (ci_LookupKey inp))).

Definition new_row (id : string) (inp : CredentialInput) : CredRow :=
  {| cr_ID := id; cr_IdentityID := ci_IdentityID inp; cr_TenantID := ci_TenantID inp; cr_Kind := ci_Kind inp;
     cr_Secret := AuthStore.nullif (ci_Secret inp); cr_SecretKid := None; cr_LookupKey := AuthStore.nullif (ci_LookupKey inp);
     cr_LastStep := ci_LastStep inp; cr_SignCounter := 0; cr_CreatedAt := ce_now env; cr_ExpiresAt := ci_ExpiresAt inp;
     cr_RevokedAt := None |}.

(** [n] counts the credentials inserted by this handler before. *)
Definition CreateCredential (n : nat) (inp : CredentialInput) : M string :=
  guarded OpCreateCred (fun s =>
    if existsb (clashes inp) (tb_creds s) then (Err (Wrap ErrConflict "23505"), s)
    else (Ok (ce_cred_id env n), with_creds s (tb_creds s ++ [new_row (ce_cred_id env n) inp]))).

Definition set_cred_revoked (r : CredRow) : CredRow :=
  {| cr_ID := cr_ID r; cr_IdentityID := cr_IdentityID r; cr_TenantID := cr_TenantID r; cr_Kind := cr_Kind r;
     cr_Secret := cr_Secret r; cr_SecretKid := cr_SecretKid r; cr_LookupKey := cr_LookupKey r; cr_LastStep := cr_LastStep r;
     cr_SignCounter := cr_SignCounter r; cr_CreatedAt := cr_CreatedAt r; cr_ExpiresAt := cr_ExpiresAt r;
     cr_RevokedAt := Some (ce_now env) |}.

Definition RevokeCredential (tenantID id : string) : M unit :=
  guarded OpRevokeCred (fun s =>
    let hit r := bool_decide (cr_ID r = id) && bool_decide (cr_TenantID r = tenantID) && unrevoked r in
    if existsb hit (tb_creds s)
    then (Ok tt, with_creds s (map (fun r => if hit r then set_cred_revoked r else r) (tb_creds s)))
    else (Err ErrNotFound, s)).

Definition RevokeCredentialsOfKind (identityID kind : string) : M nat :=
  guarded OpRevokeKind (fun s =>
    let hit r := holds identityID kind r && unrevoked r in
    (Ok (length (List.filter hit (tb_creds s))),
     with_creds s (map (fun r => if hit r then set_cred_revoked r else r) (tb_creds s)))).

Definition set_secret (secret kid : string) (r : CredRow) : CredRow :=
  {| cr_ID := cr_ID r; cr_IdentityID := cr_IdentityID r; cr_TenantID := cr_TenantID r; cr_Kind := cr_Kind r;
     cr_Secret := AuthStore.nullif secret; cr_SecretKid := AuthStore.nullif kid; cr_LookupKey := cr_LookupKey r; cr_LastStep := cr_LastStep r;
     cr_SignCounter := cr_SignCounter r; cr_CreatedAt := cr_CreatedAt r; cr_ExpiresAt := cr_ExpiresAt r;
     cr_RevokedAt := cr_RevokedAt r |}.

Definition UpdateCredentialSecret (id secret kid : string) : M unit :=
  guarded OpUpdateSecret (fun s =>
    (Ok tt, with_creds s (map (fun r => if bool_decide (cr_ID r = id) then set_secret secret kid r else r) (tb_creds s)))).

(** ORDER BY created_at DESC LIMIT 1; between equals any row may come first,
    here the later one. *)
Fixpoint newest (l : list CredRow) : option CredRow :=
  match l with
  | [] => None
  | r :: rest => match newest rest with
                 | Some r' => if (cr_CreatedAt r' <? cr_CreatedAt r)%Z then Some r else Some r'
                 | None => Some r
                 end
  end.

Definition ActiveCredentialOfKind (identityID kind : string) : M Credential :=
  guarded OpActiveOfKind (fun s =>
    match newest (List.filter (fun r => holds identityID kind r && live r) (tb_creds s)) with
    | None => (Err ErrNotFound, s)
    | Some r => (Ok (credential_of r), s)
    end).

Definition ActiveCredentialKinds (identityID : string) : M (list string) :=
  guarded OpActiveKinds (fun s =>
    (Ok (remove_dups (map cr_Kind (List.filter (fun r => bool_decide (cr_IdentityID r = identityID) && live r) (tb_creds s)))), s)).

Definition set_step (step : Z) (r : CredRow) : CredRow :=
  {| cr_ID := cr_ID r; cr_IdentityID := cr_IdentityID r; cr_TenantID := cr_TenantID r; cr_Kind := cr_Kind r;
     cr_Secret := cr_Secret r; cr_SecretKid := cr_SecretKid r; cr_LookupKey := cr_LookupKey r; cr_LastStep := Some step;
     cr_SignCounter := cr_SignCounter r; cr_CreatedAt := cr_CreatedAt r; cr_ExpiresAt := cr_ExpiresAt r;
     cr_RevokedAt := cr_RevokedAt r |}.

(** Whether this call moved the step forward. *)
Definition AdvanceCredentialStep (id : string) (step : Z) : M bool :=
  guarded OpAdvance (fun s =>
    let hit r := bool_decide (cr_ID r = id) && (default 0 (cr_LastStep r) <? step)%Z in
    (Ok (existsb hit (tb_creds s)), with_creds s (map (fun r => if hit r then set_step step r else r) (tb_creds s)))).

(** (identity, tenant, kind) *)
Definition CredentialOwner (id : string) : M (string * string * string) :=
  guarded OpOwner (fun s =>
    match find (fun r => bool_decide (cr_ID r = id)) (tb_creds s) with
    | Some r => if unrevoked r then (Ok (cr_IdentityID r, cr_TenantID r, cr_Kind r), s) else (Err ErrNotFound, s)
    | None => (Err ErrNotFound, s)
    end).

(** The revocation stamps of the credentials of one kind, the part of the
    inventory the enrolment reads. *)
Definition ListCredentials (tenantID identityID kind : string) : M (list (option Time)) :=
  guarded OpListCreds (fun s =>
    (Ok (map cr_RevokedAt (List.filter (fun r => bool_decide (cr_IdentityID r = identityID) && bool_decide (cr_TenantID r = tenantID) &&
        (bool_decide (kind = ""%string) || bool_decide (cr_Kind r = kind))) (tb_creds s))), s)).

(** Best effort; GREATEST. *)
Definition TouchCredentialUsed (id : string) (counter : Z) : M unit := fun s =>
  (Ok tt, with_creds s (map (fun r => if bool_decide (cr_ID r = id) then
     {| cr_ID := cr_ID r; cr_IdentityID := cr_IdentityID r; cr_TenantID := cr_TenantID r; cr_Kind := cr_Kind r;
        cr_Secret := cr_Secret r; cr_SecretKid := cr_SecretKid r; cr_LookupKey := cr_LookupKey r; cr_LastStep := cr_LastStep r;
        cr_SignCounter := Z.max (cr_SignCounter r) counter; cr_CreatedAt := cr_CreatedAt r; cr_ExpiresAt := cr_ExpiresAt r;
        cr_RevokedAt := cr_RevokedAt r |} else r) (tb_creds s))).

(** *** one_time_repository.go *)

Definition CreateOneTime (tenantID kind hash payload : string) (expiresAt : Time) : M unit :=
  guarded OpCreateOneTime (fun s =>
    if existsb (fun r => bool_decide (ot_Hash r = hash)) (tb_onetime s) then (Err (Wrap ErrConflict "23505"), s)
    else (Ok tt, with_onetime s (tb_onetime s ++
      [{| ot_Hash := hash; ot_Kind := kind; ot_TenantID := tenantID; ot_Payload := payload; ot_ExpiresAt := expiresAt |}]))).

Definition consumable (kind hash : string) (r : OneTimeRow) : bool :=
  bool_decide (ot_Hash r = hash) && bool_decide (ot_Kind r = kind) && time_after (ot_ExpiresAt r) (ce_now env).

(** DELETE ... RETURNING: (tenant, payload). *)
Definition ConsumeOneTime (kind hash : string) : M (string * string) :=
  guarded OpConsumeOneTime (fun s =>
    match find (consumable kind hash) (tb_onetime s) with
    | None => (Err ErrNotFound, s)
    | Some r => (Ok (ot_TenantID r, ot_Payload r),
                 with_onetime s (List.filter (fun r => negb (consumable kind hash r)) (tb_onetime s)))
    end).

Definition SweepExpired : M nat := fun s =>
  let stale r := (ot_ExpiresAt r <? ce_now env - 60 * minute)%Z in
  (Ok (length (List.filter stale (tb_onetime s))), with_onetime s (List.filter (fun r => negb (stale r)) (tb_onetime s))).

End Ops.
End CredStore.
