(* ===== verification/Shares.v ===== *)
(** internal/authz: one person opening one record to another for a while.  The
    domain (domain/share), its table (adapter/postgres/share_repository.go and
    rquery/share.go) and the handlers (app/share/share_interactor.go). *)

From Stdlib Require Import ZArith Lia Bool Ascii String.
From stdpp Require Import base gmap strings list sorting.
From S2P Require Import Prelude.
From S2P Require Import GoStrings.
From S2P Require Import GoConv.
From S2P Require Import Shared.
From S2P Require Import Tokens.
From S2P Require Import AuthStore.
From S2P Require Import TokenIssuer.
From S2P Require Import Credentials.

(** ** domain/share *)
Module ShareDomain.

(** A record_shares row: the last three columns are the access link's, which no
    query answers with. *)
Record Share := {
  sh_ID : string; sh_TenantID : string; sh_FromIdentityID : string; sh_ToIdentityID : string; sh_Record : string;
  sh_RecordScopes : gmap string string; sh_Permissions : list string; sh_Note : string; sh_CreatedAt : Time; sh_ValidUntil : Time;
  sh_RevokedAt : option Time; sh_RevokeReason : string;
  sh_LinkHash : option string; sh_LinkOpened : Z; sh_LinkLastOpenedAt : option Time
}.

Record CreateInput := {
  ci_TenantID : string; ci_FromIdentityID : string; ci_ToIdentityID : string; ci_Record : string;
  ci_RecordScopes : gmap string string; ci_Permissions : list string; ci_Note : string; ci_ValidUntil : Time
}.

Definition MaxLife : Duration := (90 * 24 * 60 * minute)%Z.
Definition MaxPermissions : nat := 32.

Definition Live (s : Share) (now : Time) : bool := bool_decide (sh_RevokedAt s = None) && time_after (sh_ValidUntil s) now.
Definition Confers (s : Share) (permission : string) : bool := existsb (fun p => bool_decide (p = permission)) (sh_Permissions s).

(** ^[a-z][a-z0-9_]{1,40}$ *)
Definition kindRe (s : string) : bool :=
  match s with
  | EmptyString => false
  | String a r =>
      Validate.lower a && str_forallb (fun c => Validate.lower c || Validate.digit c || bool_decide (c = "_"%char)) r &&
      (1 <=? String.length r)%nat && (String.length r <=? 40)%nat
  end.

Definition ErrBadKind : string := "share: record kind must be a short lowercase code".
Definition ErrBadRef : string := "share: record ref is required and must fit on one line".

Definition one_line (ref : string) : bool := str_forallb (fun c => negb (bool_decide (c ∈ [chr 10; chr 13; chr 9]))) ref.

Definition RecordKey (kind0 ref0 : string) : result string string :=
  let kind := TrimSpace kind0 in
  let ref := TrimSpace ref0 in
  if negb (kindRe kind) then Err ErrBadKind
  else if bool_decide (ref = ""%string) || (200 <? String.length ref)%nat || negb (one_line ref) then Err ErrBadRef
  else Ok (kind ++ "/" ++ ref)%string.

(** strings.Cut at the first slash. *)
Fixpoint SplitRecordKey (key : string) : string * string :=
  match key with
  | EmptyString => (EmptyString, EmptyString)
  | String a r =>
      if bool_decide (a = "/"%char) then (EmptyString, r)
      else let '(kind, ref) := SplitRecordKey r in (String a kind, ref)
  end.

End ShareDomain.

(** ** share_repository.go *)
Module ShareStore.
Import Apperr ShareDomain Uuid.

Inductive Op := OpCreate | OpGet | OpOnRecord | OpForRecipient | OpRevoke | OpSetLink | OpByLink | OpTouch.

(** The database during one handler: which calls fail, its clock, the id it
    gives, whether a person is the tenant's, and how a map of scopes reads back
    from a jsonb column. *)
Record ShEnv := {
  se_fails : Op -> bool; se_now : Time; se_id : string; se_identity : string -> string -> bool;
  se_reads_back : gmap string string -> gmap string string
}.

Record ShStore := { ss_shares : list Share; ss_log : list AuthStore.AuditEvent }.

Definition DbErr : Error := Wrap ErrInternal "database".
Definition BadUUID : Error := Wrap ErrInternal "uuid".
Definition Check_ : Error := Wrap ErrInvalidArgument "check".
Definition FKey : Error := Wrap ErrInvalidArgument "foreign key".

Definition with_shares (s : ShStore) (l : list Share) : ShStore := {| ss_shares := l; ss_log := ss_log s |}.

Section Ops.
Context (env : ShEnv).

Abbreviation M := (Eff ShStore Error).

Definition guarded {X} (op : Op) (m : M X) : M X := fun s => if se_fails env op then (Err DbErr, s) else m s.
Definition with_uuid {X} (id : string) (k : string -> M X) : M X := match canon id with None => raise BadUUID | Some c => k c end.

(** The row inserted, and the CHECK and foreign keys it meets. *)
Definition new_share (tid from to : string) (inp : CreateInput) : Share := {|
  sh_ID := se_id env; sh_TenantID := tid; sh_FromIdentityID := from; sh_ToIdentityID := to; sh_Record := ci_Record inp;
  sh_RecordScopes := se_reads_back env (ci_RecordScopes inp); sh_Permissions := ci_Permissions inp; sh_Note := ci_Note inp;
  sh_CreatedAt := se_now env; sh_ValidUntil := ci_ValidUntil inp; sh_RevokedAt := None; sh_RevokeReason := "";
  sh_LinkHash := None; sh_LinkOpened := 0; sh_LinkLastOpenedAt := None |}.

Definition CreateShare (inp : CreateInput) : M Share :=
  with_uuid (ci_TenantID inp) (fun tid => with_uuid (ci_FromIdentityID inp) (fun from => with_uuid (ci_ToIdentityID inp) (fun to =>
    guarded OpCreate (fun s =>
      let row := new_share tid from to inp in
      if negb (time_after (sh_ValidUntil row) (se_now env)) || bool_decide (from = to) || bool_decide (sh_Record row = ""%string)
      then (Err Check_, s)
      else if negb (se_identity env tid from) || negb (se_identity env tid to) then (Err FKey, s)
      else (Ok row, with_shares s (ss_shares s ++ [row])))))).

Definition is_share (tid id : string) (r : Share) : bool := bool_decide (sh_ID r = id) && bool_decide (sh_TenantID r = tid).

Definition GetShare (tenantID id : string) : M Share :=
  with_uuid id (fun c => with_uuid tenantID (fun tid => guarded OpGet (fun s =>
    (match find (is_share tid c) (ss_shares s) with Some r => Ok r | None => Err ErrNotFound end, s)))).

(** revoked_at IS NULL AND valid_until > now() *)
Definition live_row (r : Share) : bool := Live r (se_now env).

(** ORDER BY created_at DESC *)
Definition newest (a b : Share) : Prop := (sh_CreatedAt b <= sh_CreatedAt a)%Z.
#[export] Instance newest_dec : RelDecision newest := fun a b => Z.le_dec (sh_CreatedAt b) (sh_CreatedAt a).

Definition SharesOnRecord (tenantID record : string) : M (list Share) :=
  with_uuid tenantID (fun tid => guarded OpOnRecord (fun s =>
    (Ok (merge_sort newest (List.filter (fun r => bool_decide (sh_TenantID r = tid) && bool_decide (sh_Record r = record) && live_row r)
           (ss_shares s))), s))).

Definition SharesForRecipient (tenantID identityID : string) : M (list Share) :=
  with_uuid tenantID (fun tid => with_uuid identityID (fun iid => guarded OpForRecipient (fun s =>
    (Ok (merge_sort newest (List.filter (fun r => bool_decide (sh_TenantID r = tid) && bool_decide (sh_ToIdentityID r = iid) && live_row r)
           (ss_shares s))), s)))).

Definition set_revoked (reason : string) (r : Share) : Share := {|
  sh_ID := sh_ID r; sh_TenantID := sh_TenantID r; sh_FromIdentityID := sh_FromIdentityID r; sh_ToIdentityID := sh_ToIdentityID r;
  sh_Record := sh_Record r; sh_RecordScopes := sh_RecordScopes r; sh_Permissions := sh_Permissions r; sh_Note := sh_Note r;
  sh_CreatedAt := sh_CreatedAt r; sh_ValidUntil := sh_ValidUntil r; sh_RevokedAt := Some (se_now env); sh_RevokeReason := reason;
  sh_LinkHash := sh_LinkHash r; sh_LinkOpened := sh_LinkOpened r; sh_LinkLastOpenedAt := sh_LinkLastOpenedAt r |}.

(** An UPDATE ... WHERE: how many rows. *)
Definition update_shares (p : Share -> bool) (f : Share -> Share) : M nat :=
  fun s => (Ok (length (List.filter p (ss_shares s))), with_shares s (update_where p f (ss_shares s))).

(** Whether this call revoked it. *)
Definition RevokeShare (tenantID id reason : string) : M bool :=
  with_uuid id (fun c => with_uuid tenantID (fun tid => guarded OpRevoke (
    n ← update_shares (fun r => is_share tid c r && bool_decide (sh_RevokedAt r = None)) (set_revoked reason); mret (0 <? n)%nat))).

Definition set_link (hash : option string) (opened : Z) (last : option Time) (r : Share) : Share := {|
  sh_ID := sh_ID r; sh_TenantID := sh_TenantID r; sh_FromIdentityID := sh_FromIdentityID r; sh_ToIdentityID := sh_ToIdentityID r;
  sh_Record := sh_Record r; sh_RecordScopes := sh_RecordScopes r; sh_Permissions := sh_Permissions r; sh_Note := sh_Note r;
  sh_CreatedAt := sh_CreatedAt r; sh_ValidUntil := sh_ValidUntil r; sh_RevokedAt := sh_RevokedAt r; sh_RevokeReason := sh_RevokeReason r;
  sh_LinkHash := hash; sh_LinkOpened := opened; sh_LinkLastOpenedAt := last |}.

(** Link hashes are unique. *)
Definition SetShareLink (tenantID id hash : string) : M bool :=
  with_uuid id (fun c => with_uuid tenantID (fun tid => guarded OpSetLink (fun s =>
    let p r := is_share tid c r && live_row r in
    if existsb (fun r => negb (p r) && bool_decide (sh_LinkHash r = Some hash)) (ss_shares s) && existsb p (ss_shares s)
    then (Err (Wrap ErrConflict "record_shares_link"), s)
    else (n ← update_shares p (set_link (Some hash) 0 None); mret (0 <? n)%nat) s))).

Definition ShareByLinkHash (hash : string) : M Share :=
  guarded OpByLink (fun s =>
    (match find (fun r => bool_decide (sh_LinkHash r = Some hash) && live_row r) (ss_shares s) with
     | Some r => Ok r | None => Err ErrNotFound end, s)).

(** Best effort; an id that is none changes nothing. *)
Definition TouchShareLink (id : string) : M unit := fun s =>
  match canon id with
  | None => (Ok tt, s)
  | Some c => (Ok tt, if se_fails env OpTouch then s
                      else with_shares s (update_where (fun r => bool_decide (sh_ID r = c))
                             (fun r => set_link (sh_LinkHash r) (sh_LinkOpened r + 1) (Some (se_now env)) r) (ss_shares s)))
  end.

End Ops.
End ShareStore.

(** ** share_interactor.go *)
Module ShareApp.
Import Apperr Authctx ShareDomain ShareStore Issuer.

(** [hi_RecordScopes] is the map in the order the loop visits it. *)
Record ShareInput := {
  hi_RecordKind : string; hi_RecordRef : string; hi_RecordScopes : list (string * string); hi_ToIdentityID : string;
  hi_Permissions : list string; hi_ValidUntil : Time; hi_Note : string
}.

(** What a handler reads besides the table: a person of a tenant, whether a
    permission key is known ([None] is a failed query), and the decision of the
    engine in the database. *)
Record ShCtx := {
  sc_caller : option Principal; sc_now : Time; sc_ip : string; sc_rand : option string;
  sc_identity : string -> string -> option IdentityDomain.Identity;
  sc_permission : string -> string -> option bool;
  sc_authorize : string -> string -> string -> gmap string string -> option bool;
  sc_format : Time -> string
}.

Definition maxNote : nat := 500.
Definition LinkPrefix : string := "anb_lk_".

Section App.
Context `{IP : IssuerPrims}.
Context (env : ShEnv) (sc : ShCtx).

Abbreviation M := (Eff ShStore Error).

Definition person : result Error Principal :=
  match sc_caller sc with
  | None => Err ErrUnauthenticated
  | Some p => if bool_decide (IdentityID p = ""%string) || Platform p || Service p then Err ErrUnauthenticated else Ok p
  end.

Definition emit (p : Principal) (action target res : string) (detail : gmap string string) : M unit := fun s =>
  (Ok tt, {| ss_shares := ss_shares s; ss_log := ss_log s ++ [{|
     AuthStore.au_TenantID := TenantID p; AuthStore.au_ActorID := IdentityID p; AuthStore.au_ActorKind := "identity";
     AuthStore.au_TargetID := target; AuthStore.au_SessionID := SessionID p; AuthStore.au_Action := action;
     AuthStore.au_Result := res; AuthStore.au_IP := sc_ip sc; AuthStore.au_Detail := detail |}] |}).

(** The loop of recordScopes. *)
Fixpoint clean_scopes (inp : list (string * string)) : result Error (gmap string string) :=
  match inp with
  | [] => Ok ∅
  | (axis, node) :: r =>
      if bool_decide (axis = "_record"%string) then clean_scopes r
      else if negb (bool_decide (axis = "_owner"%string)) && negb (Validate.ValidCode axis) then Err (With ErrInvalidArgument "axis" axis)
      else if bool_decide (node = ""%string) then Err (With (With ErrInvalidArgument "axis" axis) "hint" "empty target")
      else match clean_scopes r with Ok m => Ok (<[axis := node]> m) | Err e => Err e end
  end.

Definition recordScopes (inp : list (string * string)) : result Error (gmap string string) :=
  if (16 <? length inp)%nat then Err (With ErrInvalidArgument "record_scopes" "too many axes") else clean_scopes inp.

(** The loop of dedupe: [seen] are the keys kept so far. *)
Fixpoint dedupe_loop (seen : list string) (keys : list string) : list string :=
  match keys with
  | [] => []
  | k0 :: r =>
      let k := TrimSpace k0 in
      if bool_decide (k = ""%string) || bool_decide (k ∈ seen) then dedupe_loop seen r else k :: dedupe_loop (k :: seen) r
  end.
Definition dedupe (keys : list string) : list string := dedupe_loop [] keys.

(** The sharer is authorised for each permission in turn. *)
Fixpoint may_share (p : Principal) (record to : string) (scopes : gmap string string) (perms : list string) : M unit :=
  match perms with
  | [] => mret tt
  | key :: r =>
      match sc_permission sc (TenantID p) key with
      | Some true =>
          match sc_authorize sc (IdentityID p) (TenantID p) key scopes with
          | None => raise (Wrap ErrInternal "authorize")
          | Some true => may_share p record to scopes r
          | Some false =>
              _ ← emit p "share.create" to "deny"
                    (<["record" := record]> (<["permission" := key]> (<["reason" := "sharer_not_authorized"]> ∅)));
              raise (With (With ErrPermissionDenied "permission" key) "hint" "you can only share what you can do")
          end
      | _ => raise (With (With ErrInvalidArgument "permission" key) "hint" "unknown permission")
      end
  end.

Definition record_of (kind ref : string) : result Error string :=
  match RecordKey kind ref with Ok r => Ok r | Err why => Err (With ErrInvalidArgument "record" why) end.

(** What is refused before anybody is looked up. *)
Definition checked (p : Principal) (inp : ShareInput) : result Error unit :=
  if bool_decide (hi_ToIdentityID inp = ""%string) || bool_decide (hi_ToIdentityID inp = IdentityID p)
  then Err (With ErrInvalidArgument "to" "name somebody other than yourself")
  else if bool_decide (hi_Permissions inp = []) || (MaxPermissions <? length (hi_Permissions inp))%nat
  then Err (With ErrInvalidArgument "permissions" "between 1 and 32 permission keys")
  else if time_is_zero (hi_ValidUntil inp) || negb (time_after (hi_ValidUntil inp) (sc_now sc))
  then Err (With ErrInvalidArgument "valid_until" "must be in the future; a share always ends")
  else if time_after (hi_ValidUntil inp) (sc_now sc + MaxLife)
  then Err (With ErrInvalidArgument "valid_until" "a share may last at most 90 days")
  else if (maxNote <? String.length (hi_Note inp))%nat then Err (With ErrInvalidArgument "note" "at most 500 characters")
  else Ok tt.

(** The recipient is somebody here who can sign in. *)
Definition recipient (tenantID to : string) : result Error IdentityDomain.Identity :=
  match sc_identity sc tenantID to with
  | None => Err (With ErrNotFound "to" to)
  | Some i => match IdentityDomain.CanAuthenticate i with
              | Ok _ => Ok i
              | Err _ => Err (With ErrInvalidArgument "to" "that account cannot sign in")
              end
  end.

Definition Share (inp : ShareInput) : M ShareDomain.Share :=
  p ← lift person;
  record ← lift (record_of (hi_RecordKind inp) (hi_RecordRef inp));
  _ ← lift (checked p inp);
  scopes ← lift (recordScopes (hi_RecordScopes inp));
  _ ← lift (recipient (TenantID p) (hi_ToIdentityID inp));
  let perms := dedupe (hi_Permissions inp) in
  _ ← may_share p record (hi_ToIdentityID inp) scopes perms;
  sh ← CreateShare env {| ci_TenantID := TenantID p; ci_FromIdentityID := IdentityID p; ci_ToIdentityID := hi_ToIdentityID inp;
                          ci_Record := record; ci_RecordScopes := scopes; ci_Permissions := perms; ci_Note := TrimSpace (hi_Note inp);
                          ci_ValidUntil := hi_ValidUntil inp |};
  _ ← emit p "share.create" (hi_ToIdentityID inp) "allow"
        (<["share_id" := sh_ID sh]> (<["record" := record]> (<["permissions" := String.concat "," perms]>
          (<["valid_until" := sc_format sc (sh_ValidUntil sh)]> ∅))));
  mret sh.

(** Every permission of the share, held through grants where it was made. *)
Fixpoint holds_each (p : Principal) (scopes : gmap string string) (perms : list string) : result Error bool :=
  match perms with
  | [] => Ok true
  | key :: r =>
      match sc_authorize sc (IdentityID p) (TenantID p) key scopes with
      | None => Err (Wrap ErrInternal "authorize")
      | Some true => holds_each p scopes r
      | Some false => Ok false
      end
  end.
Definition holdsAll (p : Principal) (scopes : gmap string string) (sh : ShareDomain.Share) : result Error bool :=
  holds_each p scopes (sh_Permissions sh).

(** The sharer, or who holds all of it. *)
Definition may_manage (p : Principal) (sh : ShareDomain.Share) (hint : string) : result Error unit :=
  if bool_decide (sh_FromIdentityID sh = IdentityID p) then Ok tt
  else ok ← holdsAll p (sh_RecordScopes sh) sh;
       if (ok : bool) then Ok tt else Err (With ErrPermissionDenied "hint" hint).

Definition Unshare (shareID reason : string) : M unit :=
  p ← lift person;
  sh ← map_err (fun _ => ErrNotFound) (GetShare env (TenantID p) shareID);
  _ ← lift (may_manage p sh "only the sharer, or somebody who holds everything it gives, may end a share");
  _ ← RevokeShare env (TenantID p) shareID (TrimSpace reason);
  emit p "share.revoke" (sh_ToIdentityID sh) "allow"
    (<["share_id" := sh_ID sh]> (<["record" := sh_Record sh]> (<["reason" := TrimSpace reason]> ∅))).

Definition share_ended : Error := With ErrInvalidArgument "share" "ended".

Definition CreateAccessLink (shareID : string) : M string :=
  p ← lift person;
  sh ← map_err (fun _ => ErrNotFound) (GetShare env (TenantID p) shareID);
  if negb (Live sh (sc_now sc)) then raise share_ended
  else
    _ ← lift (may_manage p sh "only the sharer, or somebody who holds everything it gives, may make a link");
    raw ← lift (need "random" (secret_New (sc_rand sc)));
    let token := (LinkPrefix ++ raw)%string in
    ok ← SetShareLink env (TenantID p) (sh_ID sh) (Hash token);
    if negb (ok : bool) then raise share_ended
    else
      _ ← emit p "share.link_create" (sh_ToIdentityID sh) "allow" (<["share_id" := sh_ID sh]> (<["record" := sh_Record sh]> ∅));
      mret token.

(** The places to ask about: the ones given, when they are any and sound. *)
Definition probe_scopes (given : list (string * string)) (sh : ShareDomain.Share) : gmap string string :=
  if bool_decide (given = []) then sh_RecordScopes sh
  else match recordScopes given with Ok m => m | Err _ => sh_RecordScopes sh end.

(** The loop over the shares of a record. *)
Fixpoint visible (p : Principal) (given : list (string * string)) (all : list ShareDomain.Share) : result Error (list ShareDomain.Share) :=
  match all with
  | [] => Ok []
  | sh :: r =>
      if bool_decide (sh_FromIdentityID sh = IdentityID p) || bool_decide (sh_ToIdentityID sh = IdentityID p)
      then out ← visible p given r; Ok (sh :: out)
      else ok ← holdsAll p (probe_scopes given sh) sh;
           out ← visible p given r; Ok (if (ok : bool) then sh :: out else out)
  end.

Definition ListOnRecord (kind ref : string) (scopes : list (string * string)) : M (list ShareDomain.Share) :=
  p ← lift person;
  record ← lift (record_of kind ref);
  all ← SharesOnRecord env (TenantID p) record;
  lift (visible p scopes all).

Definition SharedWithMe : M (list ShareDomain.Share) :=
  p ← lift person; SharesForRecipient env (TenantID p) (IdentityID p).

End App.
End ShareApp.
