(* ===== verification/AuditLog.v ===== *)
(** internal/audit: what happened.  The hash-chained audit log (audit_log), its
    bounded queue, the walk that verifies a chain, and the signed anchors of
    chain heads (adapter/postgres/chained_auditor.go, audit_repository.go,
    audit_read_repository.go, chain_repository.go, domain/audit_event.go).
    SHA-256, Ed25519 and encoding/json are parameters. *)

From Stdlib Require Import ZArith Lia Bool Ascii String.
From stdpp Require Import base gmap strings list sorting.
From S2P Require Import Prelude.
From S2P Require Import GoStrings.
From S2P Require Import GoConv.
From S2P Require Import Tokens.
From S2P Require Import Keyring.
From S2P Require Import LocalTokens.
From S2P Require Import Shared.

Module Audit.
Import Apperr Uuid.

(** ** Data *)

Record AuditEvent := {
  ev_TenantID : string; ev_ActorID : string; ev_ActorKind : string; ev_TargetID : string; ev_SessionID : string;
  ev_Action : string; ev_Result : string; ev_IP : string; ev_Detail : string
}.

Definition InstallationTenant : string := "00000000-0000-0000-0000-000000000000".
Definition TenantOrInstallation (tenantID : string) : string :=
  if bool_decide (tenantID = ""%string) then InstallationTenant else tenantID.

(** A row of audit_log as it is read back; "" stands for a NULL id, address or
    previous hash. *)
Record AuditRow := {
  lg_TenantID : string; lg_OccurredAt : Time; lg_Seq : Z; lg_ActorID : string; lg_ActorKind : string; lg_TargetID : string;
  lg_SessionID : string; lg_Action : string; lg_Result : string; lg_IP : string; lg_Detail : string;
  lg_PrevHash : string; lg_EntryHash : string
}.

Record Anchor := { an_TenantID : string; an_Seq : Z; an_EntryHash : string; an_Kid : string; an_Signature : string }.

Record Log := { lg_rows : list AuditRow; lg_anchors : list Anchor }.

(** sha256.Sum256, json.Decoder with UseNumber followed by json.Marshal, what a
    jsonb column gives back, the text of a uuid and of an address. *)
Class AuditPrims := {
  sha256_sum : string -> string;
  json_reencode : string -> option string;
  jsonb : string -> string;
  uuid_text : string -> string;
  inet_text : string -> option string
}.

(** The database during one call: which statements fail, and the start of the
    transaction, which is what now() gives. *)
Inductive AOp := OpLock | OpLast | OpInsert | OpRange | OpAnchors | OpHashAt | OpInsertAnchor | OpCommit.
Record AEnv := { ae_fails : AOp -> bool; ae_now : Time }.

Section Audit.
Context `{P : TokenPrims} `{AP : AuditPrims}.

Abbreviation M := (Eff Log Error).

Definition DbErr : Error := Wrap ErrInternal "database".
Definition BadUUID : Error := Wrap ErrInternal "uuid".

(** ** The hash of an entry *)

Definition canonicalJSON (b : string) : string :=
  if bool_decide (b = ""%string) then ""
  else match json_reencode b with
       | None => b
       | Some out => if bool_decide (out = "{}"%string) then "" else out
       end.

Definition nul : string := String (chr 0) EmptyString.

(** What is hashed. *)
Definition chain_input (prev : string) (seq : Z) (ev : AuditEvent) (detail : string) : string :=
  (prev ++ Totp.put_uint64 (seq mod 2 ^ 64) ++
   (ev_TenantID ev ++ nul) ++ (ev_Action ev ++ nul) ++ (ev_Result ev ++ nul) ++ (ev_ActorID ev ++ nul) ++
   (ev_TargetID ev ++ nul) ++ (ev_SessionID ev ++ nul) ++ detail)%string.

Definition chainHashDetail (prev : string) (seq : Z) (ev : AuditEvent) (detail : string) : string :=
  sha256_sum (chain_input prev seq ev detail).

Definition chainHash (prev : string) (seq : Z) (ev : AuditEvent) : string :=
  chainHashDetail prev seq ev (canonicalJSON (ev_Detail ev)).

(** ** audit_repository.go *)
Section Db.
Context (env : AEnv).

Definition guarded {A} (op : AOp) (m : M A) : M A := fun s => if ae_fails env op then (Err DbErr, s) else m s.

Definition LockAuditChain (tenantID : string) : M unit := guarded OpLock (mret tt).

Definition seq_le (a b : AuditRow) : Prop := (lg_Seq a <= lg_Seq b)%Z.
#[local] Instance seq_le_dec : RelDecision seq_le := fun a b => decide (lg_Seq a <= lg_Seq b)%Z.

(** The rows of a tenant, by sequence. *)
Definition rows_of (tenantID : string) (s : Log) : list AuditRow :=
  merge_sort seq_le (List.filter (fun r => bool_decide (lg_TenantID r = tenantID)) (lg_rows s)).

(** (0, "") for an empty chain. *)
Definition LastAuditEntry (tenantID : string) : M (Z * string) :=
  guarded OpLast (fun s =>
    match ParseUUID tenantID with
    | None => (Err BadUUID, s)
    | Some _ => match last (rows_of tenantID s) with
                | None => (Ok (0%Z, ""%string), s)
                | Some r => (Ok (lg_Seq r, lg_EntryHash r), s)
                end
    end).

(** setOptUUID: "" is NULL; the text read back is the column's. *)
Definition setOptUUID (v : string) : option string :=
  if bool_decide (v = ""%string) then Some ""%string else match ParseUUID v with Some u => Some (uuid_text u) | None => None end.

Definition parseIP (v : string) : option string := if bool_decide (v = ""%string) then Some ""%string else inet_text v.

Definition OrEmptyJSON (b : string) : string := if bool_decide (b = ""%string) then "{}" else b.

Definition InsertAudit (ev : AuditEvent) (seq : Z) (prevHash entryHash : string) : M Time :=
  guarded OpInsert (fun s =>
    match ParseUUID (ev_TenantID ev), setOptUUID (ev_ActorID ev), setOptUUID (ev_TargetID ev), setOptUUID (ev_SessionID ev), parseIP (ev_IP ev) with
    | Some _, Some actor, Some target, Some session, Some ip =>
        (Ok (ae_now env),
         {| lg_rows := lg_rows s ++ [{| lg_TenantID := ev_TenantID ev; lg_OccurredAt := ae_now env; lg_Seq := seq; lg_ActorID := actor;
              lg_ActorKind := ev_ActorKind ev; lg_TargetID := target; lg_SessionID := session; lg_Action := ev_Action ev;
              lg_Result := ev_Result ev; lg_IP := ip; lg_Detail := jsonb (OrEmptyJSON (ev_Detail ev)); lg_PrevHash := prevHash;
              lg_EntryHash := entryHash |}];
            lg_anchors := lg_anchors s |})
    | _, _, _, _, _ => (Err BadUUID, s)
    end).

(** ** Appending *)

Definition append (ev : AuditEvent) : M unit :=
  within_tx (if ae_fails env OpCommit then Some DbErr else None) (
    _ ← LockAuditChain (ev_TenantID ev);
    tip ← LastAuditEntry (ev_TenantID ev);
    let '(seq, prevHash) := tip in
    let next := wrap64 (seq + 1) in
    let entryHash := chainHash prevHash next ev in
    _ ← InsertAudit ev next prevHash entryHash;
    mret tt).

(** ** Verifying a chain *)

Definition in_range (from to : option Time) (r : AuditRow) : bool :=
  match from with Some f => (f <=? lg_OccurredAt r)%Z | None => true end &&
  match to with Some t => (lg_OccurredAt r <? t)%Z | None => true end.

Definition AuditChainRange (tenantID : string) (afterSeq : Z) (from to : option Time) (batch : nat) : M (list AuditRow) :=
  guarded OpRange (fun s =>
    let n := if (batch =? 0)%nat || (5000 <? batch)%nat then 1000%nat else batch in
    match ParseUUID tenantID with
    | None => (Err BadUUID, s)
    | Some _ => (Ok (take n (List.filter (fun r => (afterSeq <? lg_Seq r)%Z && in_range from to r) (rows_of tenantID s))), s)
    end).

Definition event_of (tenantID : string) (r : AuditRow) (detail : string) : AuditEvent := {|
  ev_TenantID := tenantID; ev_ActorID := lg_ActorID r; ev_ActorKind := ""; ev_TargetID := lg_TargetID r; ev_SessionID := lg_SessionID r;
  ev_Action := lg_Action r; ev_Result := lg_Result r; ev_IP := ""; ev_Detail := detail
|}.

(** One row against the hash before it; an entry without a detail has two
    readings. *)
Definition entry_ok (tenantID prev : string) (r : AuditRow) : bool :=
  bool_decide (chainHash prev (lg_Seq r) (event_of tenantID r (lg_Detail r)) = lg_EntryHash r) ||
  (bool_decide (canonicalJSON (lg_Detail r) = ""%string) &&
   bool_decide (chainHashDetail prev (lg_Seq r) (event_of tenantID r "") "{}" = lg_EntryHash r)).

(** Where a walk stands: the previous hash once there is one, the rows checked,
    the cursor. *)
Record Walk := { wk_prev : option string; wk_checked : Z; wk_after : Z }.

(** The loop over a batch; [inl] is the sequence it breaks at. *)
Fixpoint check_batch (tenantID : string) (w : Walk) (rows : list AuditRow) : (Z * Z) + Walk :=
  match rows with
  | [] => inr w
  | r :: rest =>
      let prev := match wk_prev w with Some p => p | None => lg_PrevHash r end in
      if entry_ok tenantID prev r
      then check_batch tenantID {| wk_prev := Some (lg_EntryHash r); wk_checked := (wk_checked w + 1)%Z; wk_after := lg_Seq r |} rest
      else inl (wk_checked w, lg_Seq r)
  end.

(** The outer loop; [None] is out of fuel, [Some (checked, brokenAt, err)]. *)
Fixpoint verify_from (fuel : nat) (tenantID : string) (from to : option Time) (w : Walk) (s : Log) : option (Z * Z * option Error) :=
  match fuel with
  | O => None
  | S fuel =>
      match fst (AuditChainRange tenantID (wk_after w) from to 1000 s) with
      | Err e => Some (wk_checked w, 0%Z, Some e)
      | Ok [] => Some (wk_checked w, 0%Z, None)
      | Ok batch => match check_batch tenantID w batch with
                    | inl (checked, seq) => Some (checked, seq, None)
                    | inr w' => verify_from fuel tenantID from to w' s
                    end
      end
  end.

Definition start : Walk := {| wk_prev := None; wk_checked := 0; wk_after := 0 |}.

(** A batch more than there are rows is enough. *)
Definition VerifyChain (tenantID : string) (from to : option Time) (s : Log) : option (Z * Z * option Error) :=
  verify_from (S (length (lg_rows s))) tenantID from to start s.

(** ** Anchors *)

Definition anchorContext (tenantID : string) (seq : Z) (entryHash : string) : string :=
  ("anubis/audit-anchor/v1" ++ nul ++ tenantID ++ nul ++ Totp.put_uint64 (seq mod 2 ^ 64) ++ entryHash)%string.

(** ON CONFLICT (tenant_id, seq) DO NOTHING. *)
Definition InsertAnchor (a : Anchor) : M unit :=
  guarded OpInsertAnchor (fun s =>
    match ParseUUID (an_TenantID a) with
    | None => (Err BadUUID, s)
    | Some _ =>
        if existsb (fun b => bool_decide (an_TenantID b = an_TenantID a) && bool_decide (an_Seq b = an_Seq a)) (lg_anchors s) then (Ok tt, s)
        else (Ok tt, {| lg_rows := lg_rows s; lg_anchors := lg_anchors s ++ [a] |})
    end).

(** [ActiveAccess] hands the key out inside its window at [now]. *)
Definition AnchorChain (ring : Keys.Ring) (now : Time) (tenantID : string) : M unit :=
  tip ← LastAuditEntry tenantID;
  let '(seq, entryHash) := tip in
  if bool_decide (seq = 0%Z) || bool_decide (entryHash = ""%string) then mret tt
  else
    key ← lift (match Keys.ActiveAccessAt ring now with Ok k => Ok k | Err _ => Err (Wrap ErrInternal "no active key") end);
    match Keys.Private key with
    | None => raise (Wrap ErrInternal "no private key")
    | Some sk => InsertAnchor {| an_TenantID := tenantID; an_Seq := seq; an_EntryHash := entryHash; an_Kid := Keys.Kid key;
                                 an_Signature := ed_sign sk (anchorContext tenantID seq entryHash) |}
    end.

Definition anchor_le (a b : Anchor) : Prop := (an_Seq a <= an_Seq b)%Z.
#[local] Instance anchor_le_dec : RelDecision anchor_le := fun a b => decide (an_Seq a <= an_Seq b)%Z.

Definition AnchorsFrom (tenantID : string) (seq : Z) : M (list Anchor) :=
  guarded OpAnchors (fun s =>
    match ParseUUID tenantID with
    | None => (Err BadUUID, s)
    | Some _ => (Ok (merge_sort anchor_le (List.filter (fun a => bool_decide (an_TenantID a = tenantID) && (seq <=? an_Seq a)%Z) (lg_anchors s))), s)
    end).

(** "" where there is no such row. *)
Definition AuditEntryHashAt (tenantID : string) (seq : Z) : M string :=
  guarded OpHashAt (fun s =>
    match ParseUUID tenantID with
    | None => (Err BadUUID, s)
    | Some _ =>
        match find (fun r => bool_decide (lg_TenantID r = tenantID) && bool_decide (lg_Seq r = seq)) (lg_rows s) with
        | None => (Ok ""%string, s)
        | Some r => (Ok (lg_EntryHash r), s)
        end
    end).

(** (checked, brokenAt, err) *)
Fixpoint check_anchors (ring : Keys.Ring) (tenantID : string) (checked : Z) (l : list Anchor) (s : Log) : Z * Z * option Error :=
  match l with
  | [] => (checked, 0%Z, None)
  | a :: rest =>
      match Keys.Lookup ring (an_Kid a) with
      | Err _ => (checked, an_Seq a, Some (Wrap ErrInternal "no longer in the ring"))
      | Ok key =>
          if negb (ed_verify (Keys.Public key) (anchorContext tenantID (an_Seq a) (an_EntryHash a)) (an_Signature a)) then (checked, an_Seq a, None)
          else match fst (AuditEntryHashAt tenantID (an_Seq a) s) with
               | Err e => (checked, an_Seq a, Some e)
               | Ok got => if negb (bool_decide (got = an_EntryHash a)) then (checked, an_Seq a, None)
                           else check_anchors ring tenantID (checked + 1) rest s
               end
      end
  end.

Definition VerifyAnchors (ring : Keys.Ring) (tenantID : string) (s : Log) : Z * Z * option Error :=
  match fst (AnchorsFrom tenantID 0 s) with
  | Err e => (0%Z, 0%Z, Some e)
  | Ok l => check_anchors ring tenantID 0 l s
  end.

End Db.

(** ** The queue *)

Definition queueSize : nat := 4096.

(** [qs_blocked] are the callers waiting for room, [qs_dropped] the events
    counted as lost. *)
Record Queue := { qs_queue : list AuditEvent; qs_blocked : list AuditEvent; qs_dropped : list AuditEvent; qs_log : Log }.

(** What a call to Emit does at once. *)
Definition Emit (ev : AuditEvent) (q : Queue) : Queue :=
  if bool_decide (ev_TenantID ev = ""%string) then
    {| qs_queue := qs_queue q; qs_blocked := qs_blocked q; qs_dropped := qs_dropped q ++ [ev]; qs_log := qs_log q |}
  else if (length (qs_queue q) <? queueSize)%nat then
    {| qs_queue := qs_queue q ++ [ev]; qs_blocked := qs_blocked q; qs_dropped := qs_dropped q; qs_log := qs_log q |}
  else if bool_decide (ev_Action ev = "authorize"%string) then
    {| qs_queue := qs_queue q; qs_blocked := qs_blocked q; qs_dropped := qs_dropped q ++ [ev]; qs_log := qs_log q |}
  else
    {| qs_queue := qs_queue q; qs_blocked := qs_blocked q ++ [ev]; qs_dropped := qs_dropped q; qs_log := qs_log q |}.

(** One turn of [run]: the head is appended, or counted as lost. *)
Definition run_one (env : AEnv) (ev : AuditEvent) (rest : list AuditEvent) (q : Queue) : Queue :=
  let '(r, log) := append env ev (qs_log q) in
  {| qs_queue := rest; qs_blocked := qs_blocked q;
     qs_dropped := match r with Ok _ => qs_dropped q | Err _ => qs_dropped q ++ [ev] end; qs_log := log |}.

Inductive qstep : Queue -> Queue -> Prop :=
| QEmit ev q : qstep q (Emit ev q)
| QUnblock l1 ev l2 q : qs_blocked q = l1 ++ ev :: l2 -> (length (qs_queue q) < queueSize)%nat ->
    qstep q {| qs_queue := qs_queue q ++ [ev]; qs_blocked := l1 ++ l2; qs_dropped := qs_dropped q; qs_log := qs_log q |}
| QRun env ev rest q : qs_queue q = ev :: rest -> qstep q (run_one env ev rest q).

End Audit.
End Audit.
