(* ===== verification/AuditProps.v ===== *)
(** internal/audit: why the log can be believed.  What is hashed determines the
    entry; the walk over batches is one pass; appending keeps a chain intact;
    two chains that share a hash share their history below it, so a chain that
    verifies and passes its signed anchors is the history that was anchored;
    and the queue loses nothing it does not count. *)

From Stdlib Require Import ZArith Lia Bool Ascii String.
From stdpp Require Import base gmap strings list sorting.
From S2P Require Import Prelude.
From S2P Require Import GoStrings.
From S2P Require Import GoConv.
From S2P Require Import Tokens.
From S2P Require Import Keyring.
From S2P Require Import LocalTokens.
From S2P Require Import Shared.
From S2P Require Import AuditLog.

Module AuditProps.
Import Apperr Uuid Audit.

(** ** Texts that are put together and taken apart *)

Definition plain (s : string) : Prop := has_byte (chr 0) s = false.

Lemma str_app_inj_r (s t u : string) : (s ++ u = t ++ u)%string -> s = t.
Proof.
  intros H. assert (Hl : String.length s = String.length t).
  { apply (f_equal String.length) in H. rewrite !str_length_app in H. lia. }
  by destruct (app_inj_length _ _ _ _ Hl H).
Qed.

(** The last NUL splits a text. *)
Lemma nul_inj (s1 s2 t1 t2 : string) : plain t1 -> plain t2 -> (s1 ++ nul ++ t1 = s2 ++ nul ++ t2)%string -> s1 = s2 /\ t1 = t2.
Proof.
  intros H1 H2. change (nul ++ t1)%string with (String (chr 0) t1). change (nul ++ t2)%string with (String (chr 0) t2). revert s2.
  assert (Hno : forall s t u, plain u -> u <> (s ++ String (chr 0) t)%string).
  { intros s t u Hu ->. revert Hu. unfold plain, has_byte, str_existsb. rewrite str_forallb_app. cbn [str_forallb].
    by rewrite bool_decide_eq_true_2, andb_false_r. }
  induction s1 as [|a s1 IH]; intros [|b s2] E.
  - by injection E as ->.
  - injection E as _ E. by destruct (Hno _ _ _ H1 E).
  - injection E as _ E. by destruct (Hno _ _ _ H2 (eq_sym E)).
  - injection E as -> E. by destruct (IH _ E) as [-> ->].
Qed.

Lemma put_uint64_length n : String.length (Totp.put_uint64 n) = 8%nat.
Proof. reflexivity. Qed.

Lemma byte_digit n i : (0 <= i)%Z -> code (chr (Z.shiftr n (8 * i) mod 256)) = ((n / 2 ^ (8 * i)) mod 256)%Z.
Proof. intros Hi. rewrite code_chr by (apply Z.mod_pos_bound; lia). by rewrite Z.shiftr_div_pow2 by lia. Qed.

Lemma put_uint64_inj m n : (0 <= m < 2 ^ 64)%Z -> (0 <= n < 2 ^ 64)%Z -> Totp.put_uint64 m = Totp.put_uint64 n -> m = n.
Proof.
  intros Hm Hn E. unfold Totp.put_uint64 in E. cbn [map string_of_list_ascii] in E. injection E as E7 E6 E5 E4 E3 E2 E1 E0.
  assert (Hs : forall k, (0 <= k)%Z -> (m mod 2 ^ (8 * k) = n mod 2 ^ (8 * k))%Z ->
    chr (Z.shiftr m (8 * k) mod 256) = chr (Z.shiftr n (8 * k) mod 256) -> (m mod 2 ^ (8 * (k + 1)) = n mod 2 ^ (8 * (k + 1)))%Z).
  { intros k Hk Hlow Hb. apply (f_equal code) in Hb. rewrite !byte_digit in Hb by done.
    replace (2 ^ (8 * (k + 1)))%Z with (2 ^ (8 * k) * 256)%Z by (replace (8 * (k + 1))%Z with (8 * k + 8)%Z by lia; by rewrite Z.pow_add_r by lia).
    rewrite !Z.rem_mul_r by lia. by rewrite Hlow, Hb. }
  assert (H8 : (m mod 2 ^ 64 = n mod 2 ^ 64)%Z).
  { change 64%Z with (8 * (7 + 1))%Z. apply (Hs 7%Z); [done| |exact E7]. apply (Hs 6%Z); [done| |exact E6]. apply (Hs 5%Z); [done| |exact E5]. apply (Hs 4%Z); [done| |exact E4].
    apply (Hs 3%Z); [done| |exact E3]. apply (Hs 2%Z); [done| |exact E2]. apply (Hs 1%Z); [done| |exact E1]. apply (Hs 0%Z); [done| |exact E0].
    by rewrite !Z.mod_1_r. }
  by rewrite !Z.mod_small in H8.
Qed.

(** Everything an entry's hash covers besides the hash before it. *)
Definition coverage : Type := Z * string * string * string * string * string * string.

Definition covers (seq : Z) (ev : AuditEvent) (detail : string) : coverage :=
  (seq, ev_Action ev, ev_Result ev, ev_ActorID ev, ev_TargetID ev, ev_SessionID ev, detail).

Record plain_event (ev : AuditEvent) : Prop := {
  pe_action : plain (ev_Action ev); pe_result : plain (ev_Result ev); pe_actor : plain (ev_ActorID ev);
  pe_target : plain (ev_TargetID ev); pe_session : plain (ev_SessionID ev)
}.

Section Props.
Context `{P : TokenPrims} `{AP : AuditPrims}.

Lemma chain_input_shape prev seq ev detail :
  chain_input prev seq ev detail =
  ((((((((prev ++ Totp.put_uint64 (seq mod 2 ^ 64)) ++ ev_TenantID ev) ++ nul ++ ev_Action ev) ++ nul ++ ev_Result ev) ++ nul ++ ev_ActorID ev)
    ++ nul ++ ev_TargetID ev) ++ nul ++ ev_SessionID ev) ++ nul ++ detail)%string.
Proof. unfold chain_input. by rewrite !str_app_assoc. Qed.

(** What is hashed determines the hash before and the entry. *)
Lemma chain_input_inj p1 q1 e1 d1 p2 q2 e2 d2 :
  ev_TenantID e1 = ev_TenantID e2 -> plain_event e1 -> plain_event e2 -> plain d1 -> plain d2 ->
  (0 <= q1 < 2 ^ 63)%Z -> (0 <= q2 < 2 ^ 63)%Z ->
  chain_input p1 q1 e1 d1 = chain_input p2 q2 e2 d2 -> p1 = p2 /\ covers q1 e1 d1 = covers q2 e2 d2.
Proof.
  intros Ht [] [] Hd1 Hd2 Hq1 Hq2 E. rewrite !chain_input_shape in E.
  do 6 (apply nul_inj in E as [E ?]; [|done|done]). rewrite Ht in E. apply str_app_inj_r in E.
  assert (Hl : String.length p1 = String.length p2).
  { apply (f_equal String.length) in E. rewrite !str_length_app, !put_uint64_length in E. lia. }
  apply app_inj_length in E as [-> E]; [|done]. rewrite !Z.mod_small in E by lia.
  apply put_uint64_inj in E; [|lia|lia]. split; [done|]. unfold covers. congruence.
Qed.

(** ** One pass *)

(** The verdict of a single walk. *)
Fixpoint verdict (tenantID : string) (prev : option string) (checked : Z) (l : list AuditRow) : Z * Z :=
  match l with
  | [] => (checked, 0%Z)
  | r :: rest => if entry_ok tenantID (default (lg_PrevHash r) prev) r then verdict tenantID (Some (lg_EntryHash r)) (checked + 1) rest
                 else (checked, lg_Seq r)
  end.

Lemma check_batch_app t w a b :
  check_batch t w (a ++ b) = match check_batch t w a with inl x => inl x | inr w' => check_batch t w' b end.
Proof.
  revert w. induction a as [|r a IH]; intros w; [done|]. simpl. destruct (entry_ok _ _ r); [apply IH|done].
Qed.

Lemma check_batch_verdict t w l :
  match check_batch t w l with inl x => x | inr w' => (wk_checked w', 0%Z) end = verdict t (wk_prev w) (wk_checked w) l.
Proof.
  revert w. induction l as [|r l IH]; intros w; [done|]. simpl.
  assert (Hp : match wk_prev w with Some p => p | None => lg_PrevHash r end = default (lg_PrevHash r) (wk_prev w)) by (by destruct (wk_prev w)).
  rewrite Hp. destruct (entry_ok t _ r); [apply IH|done].
Qed.

Lemma check_batch_after t w l w' : check_batch t w l = inr w' -> wk_after w' = default (wk_after w) (lg_Seq <$> last l).
Proof.
  revert w. induction l as [|r l IH]; intros w; simpl; [by intros [= ->]|]. destruct (entry_ok _ _ r); [|done].
  intros H. rewrite (IH _ H). rewrite last_cons. by destruct (last l).
Qed.

Definition later (after : Z) (from to : option Time) (r : AuditRow) : bool := (after <? lg_Seq r)%Z && in_range from to r.

Definition before (a b : AuditRow) : Prop := (lg_Seq a < lg_Seq b)%Z.

Lemma filter_all {A} (f : A -> bool) l : (forall x, x ∈ l -> f x = true) -> List.filter f l = l.
Proof.
  induction l as [|x l IH]; intros H; [done|]. simpl. rewrite H by (by left). f_equal. apply IH. intros y Hy. apply H. by right.
Qed.

Lemma filter_filter {A} (f g : A -> bool) l : List.filter g (List.filter f l) = List.filter (fun x => f x && g x) l.
Proof. induction l as [|x l IH]; [done|]. simpl. destruct (f x); simpl; [by rewrite IH|done]. Qed.

(** Rows that ascend strictly, after a cursor that is one of them. *)
Lemma drop_after l n r : StronglySorted before l -> last (take n l) = Some r ->
  List.filter (fun x => (lg_Seq r <? lg_Seq x)%Z) l = drop n l.
Proof.
  intros Hs Hl. rewrite <- (take_drop n l) at 1. rewrite List.filter_app. rewrite <- (take_drop n l) in Hs.
  apply StronglySorted_app in Hs as (Hab & Ha & Hb). rewrite last_Some in Hl. destruct Hl as [l1 Hl]. rewrite Hl in *.
  apply StronglySorted_app in Ha as (Hlast & _ & _).
  rewrite filter_none, filter_all; [done|..].
  - intros x Hx. apply Z.ltb_lt. apply Hab; [|done]. apply elem_of_app. right. by left.
  - intros x [Hx|Hx]%elem_of_app; apply Z.ltb_ge.
    + assert (before x r) by (apply Hlast; [done|by left]). unfold before in *. lia.
    + apply list_elem_of_singleton in Hx as ->. done.
Qed.

(** The walk in batches is one pass over the rows past the cursor. *)
Lemma verify_from_verdict env fuel t from to w s l :
  ae_fails env OpRange = false -> is_Some (ParseUUID t) -> StronglySorted before l ->
  List.filter (later (wk_after w) from to) (rows_of t s) = l -> (length l < fuel)%nat ->
  verify_from env fuel t from to w s = Some (verdict t (wk_prev w) (wk_checked w) l, None).
Proof.
  intros Hf [u Hu]. revert w l. induction fuel as [|fuel IH]; intros w l Hs Hl Hlen; [lia|]. cbn [verify_from].
  unfold AuditChainRange, guarded. rewrite Hf, Hu. change ((1000 =? 0)%nat || (5000 <? 1000)%nat) with false. cbn [fst].
  unfold later in Hl. rewrite Hl. destruct (take 1000 l) as [|r0 b0] eqn:Hb; [by destruct l|].
  pose proof (check_batch_app t w (take 1000 l) (drop 1000 l)) as Happ. rewrite take_drop in Happ.
  pose proof (check_batch_verdict t w l) as Hv. rewrite Happ in Hv. rewrite Hb in Hv.
  destruct (check_batch t w (r0 :: b0)) as [[c q]|w'] eqn:Hc; [by rewrite <- Hv|].
  rewrite <- Hv, check_batch_verdict. apply check_batch_after in Hc as Haf.
  assert (Hlast : exists r, last (take 1000 l) = Some r).
  { destruct (last (take 1000 l)) as [r|] eqn:Hn; [by exists r|]. apply last_None in Hn. congruence. }
  destruct Hlast as [r Hr]. rewrite <- Hb, Hr in Haf. simpl in Haf. apply IH.
  - rewrite <- (take_drop 1000 l) in Hs. by apply StronglySorted_app in Hs as (_ & _ & ?).
  - rewrite <- (drop_after l 1000 r Hs Hr), <- Hl, Haf. unfold later.
    assert (Hin : r ∈ l) by (apply last_Some in Hr as [l1 Hr]; rewrite <- (take_drop 1000 l), Hr; apply elem_of_app; left; apply elem_of_app; right; by left).
    assert (Hwr : (wk_after w < lg_Seq r)%Z).
    { rewrite <- Hl in Hin. apply list_elem_of_In, filter_In in Hin as [_ Hin]. by unbool. }
    rewrite filter_filter. apply List.filter_ext. intros x. destruct (in_range from to x); rewrite ?andb_false_r, ?andb_true_r; [|done].
    destruct (Z.ltb_spec (wk_after w) (lg_Seq x)), (Z.ltb_spec (lg_Seq r) (lg_Seq x)); simpl; lia || done.
  - rewrite length_drop. assert (length l <> 0)%nat by (by destruct l). lia.
Qed.

(** ** The rows of a tenant *)

Definition tenant_rows (t : string) (s : Log) : list AuditRow := List.filter (fun r => bool_decide (lg_TenantID r = t)) (lg_rows s).

#[local] Existing Instance seq_le_dec.
#[local] Instance seq_le_total : Total seq_le.
Proof. intros a b. unfold seq_le. lia. Qed.
#[local] Instance seq_le_trans : Transitive seq_le.
Proof. intros a b c. unfold seq_le. lia. Qed.

Lemma strict_order l : StronglySorted seq_le l -> NoDup (map lg_Seq l) -> StronglySorted before l.
Proof.
  induction 1 as [|x l Hs IH Hx]; [constructor|]. simpl. intros [Hnot Hnd]%NoDup_cons. constructor; [by apply IH|].
  apply Forall_forall. intros y Hy. rewrite Forall_forall in Hx. specialize (Hx y Hy). unfold seq_le, before in *.
  enough (lg_Seq x <> lg_Seq y) by lia. intros E. apply Hnot. rewrite E. by apply list_elem_of_fmap_2.
Qed.

Lemma rows_of_perm t s : rows_of t s ≡ₚ tenant_rows t s.
Proof. apply merge_sort_Permutation. Qed.

Lemma rows_of_strict t s : NoDup (map lg_Seq (tenant_rows t s)) -> StronglySorted before (rows_of t s).
Proof.
  intros H. apply strict_order; [apply (StronglySorted_merge_sort seq_le)|]. by rewrite (rows_of_perm t s).
Qed.

(** Rows that are in order already. *)
Lemma rows_of_sorted t s : StronglySorted before (tenant_rows t s) -> rows_of t s = tenant_rows t s.
Proof.
  intros Hs. apply (StronglySorted_unique_strong seq_le).
  - intros x y Hx Hy Hxy Hyx. rewrite (rows_of_perm t s) in Hx. assert (E : lg_Seq x = lg_Seq y) by (unfold seq_le in *; lia).
    clear Hxy Hyx. revert Hs x y Hx Hy E. induction 1 as [|z l Hs IH Hz]; [by intros x y ?%not_elem_of_nil|].
    rewrite Forall_forall in Hz. unfold before in Hz.
    intros x y [->|Hx]%elem_of_cons [->|Hy]%elem_of_cons E; [done|specialize (Hz _ Hy); lia|specialize (Hz _ Hx); lia|by apply IH].
  - apply (StronglySorted_merge_sort seq_le).
  - induction Hs as [|x l Hs IH Hx]; [constructor|]. constructor; [done|]. eapply Forall_impl; [exact Hx|].
    intros y. unfold before, seq_le. lia.
  - apply rows_of_perm.
Qed.

Lemma StronglySorted_filter f l : StronglySorted before l -> StronglySorted before (List.filter f l).
Proof.
  induction 1 as [|x l Hs IH Hx]; [constructor|]. simpl. destruct (f x); [|done]. constructor; [done|].
  rewrite Forall_forall in *. intros y [Hy _]%list_elem_of_In%filter_In. apply Hx. by apply list_elem_of_In.
Qed.

(** The rows a verification looks at. *)
Definition selected (t : string) (from to : option Time) (s : Log) : list AuditRow := List.filter (later 0 from to) (rows_of t s).

(** VerifyChain is one pass over the rows it selects, in order of sequence. *)
Lemma VerifyChain_one_pass env t from to s :
  ae_fails env OpRange = false -> is_Some (ParseUUID t) -> NoDup (map lg_Seq (tenant_rows t s)) ->
  VerifyChain env t from to s = Some (verdict t None 0 (selected t from to s), None).
Proof.
  intros Hf Hu Hnd. unfold VerifyChain. apply (verify_from_verdict env _ t from to start s); [done|done| |done|].
  - by apply StronglySorted_filter, rows_of_strict.
  - unfold selected. assert (Hl : (length (rows_of t s) <= length (lg_rows s))%nat).
    { rewrite (Permutation_length (rows_of_perm t s)). apply List.filter_length_le. }
    pose proof (List.filter_length_le (later 0 from to) (rows_of t s)). lia.
Qed.

(** Every row carries the hash of itself and the one before. *)
Fixpoint linked (t prev : string) (l : list AuditRow) : Prop :=
  match l with [] => True | r :: rest => entry_ok t prev r = true /\ linked t (lg_EntryHash r) rest end.

(** What the verdict says: all linked, or the first row that is not. *)
Lemma verdict_spec t prev c l :
  (forall r, r ∈ l -> (0 < lg_Seq r)%Z) ->
  let start_hash := match prev with Some p => p | None => default ""%string (lg_PrevHash <$> head l) end in
  (snd (verdict t prev c l) = 0%Z <-> linked t start_hash l) /\
  (snd (verdict t prev c l) = 0%Z -> fst (verdict t prev c l) = (c + Z.of_nat (length l))%Z).
Proof.
  intros Hpos. cbv zeta. revert prev c. induction l as [|r l IH]; intros prev c; [simpl; split; [done|lia]|].
  assert (Hp : match prev with Some p => p | None => default ""%string (lg_PrevHash <$> head (r :: l)) end = default (lg_PrevHash r) prev) by (by destruct prev).
  rewrite Hp. cbn [verdict linked]. destruct (entry_ok t _ r) eqn:He.
  - destruct (IH ltac:(intros; apply Hpos; by right) (Some (lg_EntryHash r)) (c + 1)%Z) as [IH1 IH2]. split.
    + rewrite IH1. by split; [|intros [_ ?]].
    + intros H0. rewrite (IH2 H0). simpl. lia.
  - specialize (Hpos r ltac:(by left)). simpl. split; [|lia]. split; [lia|by intros [? _]].
Qed.

(** ** Chains as appending writes them *)

Definition tip (l : list AuditRow) : string := default ""%string (lg_EntryHash <$> last l).

Inductive genuine (t : string) : list AuditRow -> Prop :=
| genuine_nil : genuine t []
| genuine_snoc l r :
    genuine t l -> lg_TenantID r = t -> lg_Seq r = (Z.of_nat (length l) + 1)%Z -> lg_PrevHash r = tip l ->
    lg_EntryHash r = chainHash (tip l) (lg_Seq r) (event_of t r (lg_Detail r)) -> genuine t (l ++ [r]).

(** An event the columns give back as it was: canonical ids, and a detail jsonb
    does not change beyond its layout. *)
Record faithful (ev : AuditEvent) : Prop := {
  fa_actor : setOptUUID (ev_ActorID ev) = Some (ev_ActorID ev);
  fa_target : setOptUUID (ev_TargetID ev) = Some (ev_TargetID ev);
  fa_session : setOptUUID (ev_SessionID ev) = Some (ev_SessionID ev);
  fa_detail : canonicalJSON (jsonb (OrEmptyJSON (ev_Detail ev))) = canonicalJSON (ev_Detail ev)
}.

Lemma genuine_seq t l : genuine t l -> forall i r, l !! i = Some r -> lg_Seq r = (Z.of_nat i + 1)%Z.
Proof.
  induction 1 as [|l r Hg IH Ht Hq Hp Hh]; intros i r0; [done|]. intros [Hi|[Hi Hr]]%lookup_app_Some; [by apply IH|].
  apply list_lookup_singleton_Some in Hr as [Hi0 <-]. rewrite Hq. lia.
Qed.

Lemma genuine_strict t l : genuine t l -> StronglySorted before l.
Proof.
  induction 1 as [|l r Hg IH Ht Hq Hp Hh]; [constructor|]. apply StronglySorted_app. split; [|split; [done|repeat constructor]].
  intros x y [i Hx]%list_elem_of_lookup Hy%list_elem_of_singleton. subst y. unfold before. rewrite Hq, (genuine_seq t l Hg _ _ Hx).
  apply lookup_lt_Some in Hx. lia.
Qed.

Lemma linked_app t p l r :
  linked t p (l ++ [r]) <-> linked t p l /\ entry_ok t (default p (lg_EntryHash <$> last l)) r = true.
Proof.
  revert p. induction l as [|x l IH]; intros p; [simpl; naive_solver|]. cbn [linked app]. rewrite IH, last_cons.
  destruct (last l); simpl; naive_solver.
Qed.

Lemma genuine_linked t l : genuine t l -> linked t "" l /\ default ""%string (lg_PrevHash <$> head l) = ""%string.
Proof.
  induction 1 as [|l r Hg [IH1 IH2] Ht Hq Hp Hh]; [done|]. split.
  - apply linked_app. split; [done|]. unfold entry_ok. apply orb_true_iff. left. apply bool_decide_eq_true. by rewrite Hh.
  - destruct l; [simpl; by rewrite Hp|done].
Qed.

Lemma genuine_after t s : genuine t (tenant_rows t s) -> rows_of t s = tenant_rows t s.
Proof. intros H. apply rows_of_sorted. by apply (genuine_strict t). Qed.

Lemma log_guarded_ok {X} env op (m : Eff Log Error X) a s s' : guarded env op m s = (Ok a, s') -> m s = (Ok a, s').
Proof. unfold guarded. by destruct (ae_fails env op). Qed.

(** What an append that went through wrote. *)
Lemma append_ok env ev s s' :
  append env ev s = (Ok tt, s') -> faithful ev ->
  exists r, lg_rows s' = lg_rows s ++ [r] /\ lg_anchors s' = lg_anchors s /\ lg_TenantID r = ev_TenantID ev /\
    let '(seq, prev) := match last (rows_of (ev_TenantID ev) s) with Some r0 => (lg_Seq r0, lg_EntryHash r0) | None => (0%Z, ""%string) end in
    lg_Seq r = wrap64 (seq + 1) /\ lg_PrevHash r = prev /\
    lg_EntryHash r = chainHash prev (wrap64 (seq + 1)) (event_of (ev_TenantID ev) r (lg_Detail r)).
Proof.
  unfold append. intros [H _]%within_tx_ok Hf. apply bind_ok in H as ([] & s1 & [= <-]%log_guarded_ok & H).
  apply bind_ok in H as ([seq prev] & s2 & H2%log_guarded_ok & H). destruct (ParseUUID (ev_TenantID ev)); [|done].
  apply bind_ok in H as (at' & s3 & H3%log_guarded_ok & H). injection H as <-.
  destruct (ParseUUID (ev_TenantID ev)); [|done]. rewrite (fa_actor _ Hf), (fa_target _ Hf), (fa_session _ Hf) in H3.
  destruct (parseIP (ev_IP ev)) as [ip|]; [|done]. injection H3 as <- <-.
  eexists. split; [destruct (last _); injection H2 as _ _ <-; reflexivity|].
  split; [destruct (last _); by injection H2 as _ _ <-|]. split; [done|].
  destruct (last (rows_of (ev_TenantID ev) s)) as [r0|]; injection H2 as <- <- <-; (split; [done|]); (split; [done|]);
    unfold chainHash, chainHashDetail, chain_input; cbn -[chainHash Totp.put_uint64 canonicalJSON]; by rewrite (fa_detail _ Hf).
Qed.

Lemma tenant_rows_snoc t s s' r : lg_rows s' = lg_rows s ++ [r] ->
  tenant_rows t s' = if bool_decide (lg_TenantID r = t) then tenant_rows t s ++ [r] else tenant_rows t s.
Proof.
  intros H. unfold tenant_rows. rewrite H, List.filter_app. simpl. destruct (bool_decide _); [done|]. by rewrite app_nil_r.
Qed.

Lemma append_err env ev s e s' : append env ev s = (Err e, s') -> s' = s.
Proof.
  unfold append. apply within_tx_err.
Qed.

(** Appending keeps every tenant's chain. *)
Lemma append_genuine env ev s :
  (forall t, genuine t (tenant_rows t s)) -> faithful ev -> (Z.of_nat (length (lg_rows s)) < 2 ^ 63 - 1)%Z ->
  forall t, genuine t (tenant_rows t (snd (append env ev s))).
Proof.
  intros Hg Hf Hlen t. destruct (append env ev s) as [[[]|e] s'] eqn:Ha; [|by rewrite (append_err _ _ _ _ _ Ha)].
  cbn [snd]. destruct (append_ok _ _ _ _ Ha Hf) as (r & Hrows & _ & Ht & Hr). rewrite (tenant_rows_snoc t s s' r Hrows).
  case_bool_decide as Hrt; [|done]. subst t. rewrite Ht in *. set (t := ev_TenantID ev) in *.
  pose proof (Hg t) as Hgt. rewrite (genuine_after t s Hgt) in Hr.
  assert (Hle : (length (tenant_rows t s) <= length (lg_rows s))%nat) by apply List.filter_length_le.
  assert (Hseq : match last (tenant_rows t s) with Some r0 => lg_Seq r0 | None => 0%Z end = Z.of_nat (length (tenant_rows t s))).
  { destruct (last (tenant_rows t s)) as [r0|] eqn:Hl; [|apply last_None in Hl; by rewrite Hl].
    rewrite last_lookup in Hl. rewrite (genuine_seq t _ Hgt _ _ Hl). apply lookup_lt_Some in Hl. lia. }
  assert (Hw : wrap64 (Z.of_nat (length (tenant_rows t s)) + 1) = (Z.of_nat (length (tenant_rows t s)) + 1)%Z) by (apply wrap64_small; lia).
  destruct (last (tenant_rows t s)) as [r0|] eqn:Hl; destruct Hr as (Hq & Hp & Hh); rewrite Hseq, Hw in *;
    (constructor; [done|done|done|unfold tip; rewrite Hl; done|unfold tip; rewrite Hl, Hh, Hq; done]).
Qed.

(** A log that appending filled, from empty. *)
Inductive written : Log -> Prop :=
| written_empty anchors : written {| lg_rows := []; lg_anchors := anchors |}
| written_append env ev s : written s -> faithful ev -> (Z.of_nat (length (lg_rows s)) < 2 ^ 63 - 1)%Z -> written (snd (append env ev s))
| written_anchor anchors s : written s -> written {| lg_rows := lg_rows s; lg_anchors := anchors |}.

Lemma written_genuine s : written s -> forall t, genuine t (tenant_rows t s).
Proof.
  induction 1 as [anchors|env ev s Hw IH Hf Hlen|anchors s Hw IH]; intros t; [constructor| |by apply IH].
  by apply append_genuine.
Qed.

Lemma genuine_pos t l : genuine t l -> forall r, r ∈ l -> (0 < lg_Seq r)%Z.
Proof. intros Hg r [i Hr]%list_elem_of_lookup. rewrite (genuine_seq t l Hg _ _ Hr). lia. Qed.

Lemma genuine_seqs t l : genuine t l -> NoDup (map lg_Seq l).
Proof.
  intros Hg%genuine_strict. induction Hg as [|x l Hs IH Hx]; [constructor|]. simpl. constructor; [|done].
  intros (y & E & Hy)%list_elem_of_fmap. rewrite Forall_forall in Hx. specialize (Hx y Hy). unfold before in Hx. lia.
Qed.

Lemma selected_all t s : genuine t (tenant_rows t s) -> selected t None None s = tenant_rows t s.
Proof.
  intros Hg. unfold selected. rewrite genuine_after by done. apply filter_all. intros r Hr. unfold later, in_range. simpl.
  rewrite andb_true_r. apply Z.ltb_lt. by apply (genuine_pos t (tenant_rows t s)).
Qed.

(** An untouched log verifies.  Whatever was appended, by whom and with
    which failures in between, verifying a tenant's whole chain checks every
    entry of the tenant and finds no break. *)
Theorem written_log_verifies env t s :
  written s -> ae_fails env OpRange = false -> is_Some (ParseUUID t) ->
  VerifyChain env t None None s = Some (Z.of_nat (length (tenant_rows t s)), 0%Z, None).
Proof.
  intros Hw Hf Hu. pose proof (written_genuine s Hw t) as Hg. rewrite VerifyChain_one_pass by (done || by apply (genuine_seqs t)).
  rewrite selected_all by done. pose proof (verdict_spec t None 0 (tenant_rows t s) (genuine_pos t _ Hg)) as [H1 H2].
  destruct (genuine_linked t _ Hg) as [Hl Hh]. rewrite Hh in H1. apply H1 in Hl as H0. specialize (H2 H0).
  destruct (verdict t None 0 (tenant_rows t s)) as [c q]. simpl in *. by subst.
Qed.

(** ** The queue *)

Definition recorded (ev : AuditEvent) (r : AuditRow) : Prop :=
  lg_TenantID r = ev_TenantID ev /\ lg_Action r = ev_Action ev /\ lg_Result r = ev_Result ev /\ lg_ActorKind r = ev_ActorKind ev /\
  lg_Detail r = jsonb (OrEmptyJSON (ev_Detail ev)).

Lemma append_records env ev s s' : append env ev s = (Ok tt, s') -> exists r, lg_rows s' = lg_rows s ++ [r] /\ recorded ev r.
Proof.
  unfold append. intros [H _]%within_tx_ok. apply bind_ok in H as ([] & s1 & [= <-]%log_guarded_ok & H).
  apply bind_ok in H as ([seq prev] & s2 & H2%log_guarded_ok & H). destruct (ParseUUID (ev_TenantID ev)); [|done].
  assert (Hs : s2 = s) by (destruct (last _); congruence). subst s2.
  apply bind_ok in H as (at' & s3 & H3%log_guarded_ok & H). injection H as <-.
  destruct (ParseUUID (ev_TenantID ev)), (setOptUUID (ev_ActorID ev)), (setOptUUID (ev_TargetID ev)), (setOptUUID (ev_SessionID ev)),
    (parseIP (ev_IP ev)); try done. injection H3 as _ <-. by eexists.
Qed.

(** Runs of the auditor, with the events that were emitted. *)
Inductive qrun : Queue -> list AuditEvent -> Queue -> Prop :=
| qrun_refl q : qrun q [] q
| qrun_emit q0 es q ev : qrun q0 es q -> qrun q0 (es ++ [ev]) (Emit ev q)
| qrun_unblock q0 es q l1 ev l2 : qrun q0 es q -> qs_blocked q = l1 ++ ev :: l2 -> (length (qs_queue q) < queueSize)%nat ->
    qrun q0 es {| qs_queue := qs_queue q ++ [ev]; qs_blocked := l1 ++ l2; qs_dropped := qs_dropped q; qs_log := qs_log q |}
| qrun_run q0 es q env ev rest : qrun q0 es q -> qs_queue q = ev :: rest -> qrun q0 es (run_one env ev rest q).

(** Why an event may be counted as lost. *)
Definition may_drop (ev : AuditEvent) : Prop :=
  ev_TenantID ev = ""%string \/ ev_Action ev = "authorize"%string \/ exists env log e log', append env ev log = (Err e, log').

(** The auditor loses nothing it does not count.  From an empty queue, every
    event emitted is in exactly one place: in the log, in the order it was
    queued, in the queue, with a caller that waits, or counted as dropped; the
    queue never exceeds its size; and only an event without a tenant, an
    authorize decision, or one whose append failed is ever dropped. *)
Theorem queue_accounts log es q :
  qrun {| qs_queue := []; qs_blocked := []; qs_dropped := []; qs_log := log |} es q ->
  (exists done rows, es ≡ₚ qs_dropped q ++ done ++ qs_queue q ++ qs_blocked q /\ lg_rows (qs_log q) = lg_rows log ++ rows /\
     Forall2 recorded done rows) /\
  (length (qs_queue q) <= queueSize)%nat /\ (forall ev, ev ∈ qs_dropped q -> may_drop ev) /\
  (forall ev, ev ∈ qs_blocked q -> ev_Action ev <> "authorize"%string).
Proof.
  remember {| qs_queue := []; qs_blocked := []; qs_dropped := []; qs_log := log |} as q0 eqn:Hq0.
  induction 1 as [q|q0 es q ev Hr IH|q0 es q l1 ev l2 Hr IH Hb Hlen|q0 es q env ev rest Hr IH Hq].
  - subst q. simpl. split; [exists [], []; split; [done|]; split; [by rewrite app_nil_r|constructor]|]. split; [lia|]. by split; intros ? ?%not_elem_of_nil.
  - destruct (IH Hq0) as ((dn & rows & Hes & Hlog & Hrec) & Hlen & Hdrop & Hblk). unfold Emit.
    case_bool_decide as Ht; [|destruct (Nat.ltb_spec (length (qs_queue q)) queueSize) as [Hroom|Hfull]; [|case_bool_decide as Hact]]; simpl.
    1,3: split; [exists dn, rows; rewrite Hes; split; [solve_Permutation|done]|]; split; [done|]; split; [|done];
      intros x [Hx| ->%list_elem_of_singleton]%elem_of_app; [by apply Hdrop|by (left + (right; left))].
    + split; [exists dn, rows; rewrite Hes; split; [solve_Permutation|done]|]. split; [rewrite length_app; simpl; lia|done].
    + split; [exists dn, rows; rewrite Hes; split; [solve_Permutation|done]|]. split; [done|]. split; [done|].
      intros x [Hx| ->%list_elem_of_singleton]%elem_of_app; [by apply Hblk|done].
  - destruct (IH Hq0) as ((dn & rows & Hes & Hlog & Hrec) & Hl & Hdrop & Hblk). simpl.
    split; [exists dn, rows; rewrite Hes, Hb; split; [solve_Permutation|done]|]. split; [rewrite length_app; simpl; lia|].
    split; [done|]. intros x Hx. apply Hblk. rewrite Hb. set_solver.
  - destruct (IH Hq0) as ((dn & rows & Hes & Hlog & Hrec) & Hl & Hdrop & Hblk). unfold run_one. rewrite Hq in Hes, Hl. simpl in Hl.
    destruct (append env ev (qs_log q)) as [[[]|e] log'] eqn:Ha; simpl.
    + apply append_records in Ha as (r & Hrow & Hok). split; [|split; [lia|done]]. exists (dn ++ [ev]), (rows ++ [r]). rewrite Hes.
      split; [solve_Permutation|]. split; [by rewrite Hrow, Hlog, app_assoc|]. apply Forall2_app; [done|]. by constructor; [|constructor].
    + pose proof (append_err _ _ _ _ _ Ha) as ->. split; [|split; [lia|split; [|done]]].
      * exists dn, rows. rewrite Hes. split; [solve_Permutation|done].
      * intros x [Hx| ->%list_elem_of_singleton]%elem_of_app; [by apply Hdrop|]. right. right. by exists env, (qs_log q), e, (qs_log q).
Qed.

(** ** Two chains that meet *)

Definition covered (t : string) (r : AuditRow) : coverage := covers (lg_Seq r) (event_of t r "") (canonicalJSON (lg_Detail r)).

(** The two texts a row's hash may be taken of. *)
Definition readings (t prev : string) (r : AuditRow) : list string :=
  [chain_input prev (lg_Seq r) (event_of t r "") (canonicalJSON (lg_Detail r)); chain_input prev (lg_Seq r) (event_of t r "") "{}"].

Fixpoint hashed (t prev : string) (l : list AuditRow) : list string :=
  match l with [] => [] | r :: rest => readings t prev r ++ hashed t (lg_EntryHash r) rest end.

(** SHA-256 does not collide on what the two walks hash. *)
Definition no_collision (t p1 : string) (l1 : list AuditRow) (p2 : string) (l2 : list AuditRow) : Prop :=
  forall x y, x ∈ hashed t p1 l1 -> y ∈ hashed t p2 l2 -> sha256_sum x = sha256_sum y -> x = y.

(** What a text column, a uuid column and jsonb can hold. *)
Record plain_row (r : AuditRow) : Prop := {
  pr_action : plain (lg_Action r); pr_result : plain (lg_Result r); pr_actor : plain (lg_ActorID r); pr_target : plain (lg_TargetID r);
  pr_session : plain (lg_SessionID r); pr_detail : plain (canonicalJSON (lg_Detail r)); pr_seq : (0 <= lg_Seq r < 2 ^ 63)%Z
}.

Class AuditLaws : Prop := {
  sha_nonempty x : sha256_sum x <> ""%string;
  reencode_empty : json_reencode "{}" = Some "{}"%string
}.
Context `{AL : !AuditLaws}.

Lemma canonical_not_empty d : canonicalJSON d <> "{}"%string.
Proof.
  unfold canonicalJSON. case_bool_decide as Hd; [done|]. destruct (json_reencode d) as [out|] eqn:E; [by case_bool_decide|].
  intros ->. by rewrite reencode_empty in E.
Qed.

(** The hash before the [i]-th row. *)
Definition hash_before (p : string) (l : list AuditRow) (i : nat) : string :=
  match i with O => p | S j => default ""%string (lg_EntryHash <$> l !! j) end.

Lemma hashed_at t p l i r x : l !! i = Some r -> x ∈ readings t (hash_before p l i) r -> x ∈ hashed t p l.
Proof.
  revert p i. induction l as [|r0 l IH]; intros p [|i] Hi Hx; try done.
  - injection Hi as ->. apply elem_of_app. by left.
  - apply elem_of_app. right. apply (IH (lg_EntryHash r0) i); [done|]. by destruct i.
Qed.

Lemma linked_at t p l i r : linked t p l -> l !! i = Some r -> entry_ok t (hash_before p l i) r = true.
Proof.
  revert p i. induction l as [|r0 l IH]; intros p i Hl Hi; [done|]. destruct Hl as [He Hl]. destruct i as [|i].
  - by injection Hi as ->.
  - specialize (IH (lg_EntryHash r0) i Hl Hi). by destruct i.
Qed.

(** The text behind a row that checks. *)
Lemma entry_reading t prev r : entry_ok t prev r = true ->
  exists d, chain_input prev (lg_Seq r) (event_of t r "") d ∈ readings t prev r /\
    sha256_sum (chain_input prev (lg_Seq r) (event_of t r "") d) = lg_EntryHash r /\
    (d = canonicalJSON (lg_Detail r) \/ d = "{}"%string /\ canonicalJSON (lg_Detail r) = ""%string).
Proof.
  unfold entry_ok. intros [H|H]%orb_true_iff; unbool.
  - exists (canonicalJSON (lg_Detail r)). split; [by left|]. split; [exact H|by left].
  - exists "{}"%string. split; [right; by left|]. split; [assumption|by right].
Qed.

Lemma genuine_reading t l i r : genuine t l -> l !! i = Some r ->
  chain_input (hash_before "" l i) (lg_Seq r) (event_of t r "") (canonicalJSON (lg_Detail r)) ∈ readings t (hash_before "" l i) r /\
  sha256_sum (chain_input (hash_before "" l i) (lg_Seq r) (event_of t r "") (canonicalJSON (lg_Detail r))) = lg_EntryHash r.
Proof.
  intros Hg Hi. split; [by left|]. revert i r Hi. induction Hg as [|l r0 Hg IH Ht Hq Hp Hh]; intros i r; [done|].
  intros [Hi|[Hlen Hi]]%lookup_app_Some.
  - rewrite <- (IH i r Hi). do 2 f_equal. apply lookup_lt_Some in Hi. destruct i as [|j]; [done|]. simpl. by rewrite lookup_app_l by lia.
  - apply list_lookup_singleton_Some in Hi as [Hi0 <-]. rewrite Hh.
    replace (hash_before "" (l ++ [r0]) i) with (tip l); [done|]. unfold tip. rewrite last_lookup. replace i with (length l) by lia.
    destruct l as [|x l]; [done|]. cbn [length hash_before pred]. by rewrite lookup_app_l by (simpl; lia).
Qed.

(** Two rows with one hash: the same entry, and the same hash before. *)
Lemma meet t l1 p2 l2 i j r1 r2 :
  genuine t l1 -> linked t p2 l2 -> no_collision t "" l1 p2 l2 -> (forall r, r ∈ l1 ++ l2 -> plain_row r) ->
  l1 !! i = Some r1 -> l2 !! j = Some r2 -> lg_EntryHash r1 = lg_EntryHash r2 ->
  covered t r1 = covered t r2 /\ hash_before "" l1 i = hash_before p2 l2 j.
Proof.
  intros Hg Hl Hnc Hpl Hi Hj E. destruct (genuine_reading t l1 i r1 Hg Hi) as [Hin1 Hs1].
  destruct (entry_reading t _ r2 (linked_at t p2 l2 j r2 Hl Hj)) as (d & Hin2 & Hs2 & Hd).
  assert (Hp1 : plain_row r1) by (apply Hpl, elem_of_app; left; by eapply list_elem_of_lookup_2).
  assert (Hp2 : plain_row r2) by (apply Hpl, elem_of_app; right; by eapply list_elem_of_lookup_2).
  pose proof (Hnc _ _ (hashed_at t "" l1 i r1 _ Hi Hin1) (hashed_at t p2 l2 j r2 _ Hj Hin2) ltac:(congruence)) as Hx.
  apply chain_input_inj in Hx; [|done|by destruct Hp1|by destruct Hp2|by apply pr_detail| |by apply pr_seq|by apply pr_seq].
  - destruct Hx as [Hb Hc]. split; [|done]. unfold covered. destruct Hd as [->|[-> _]]; [done|].
    exfalso. injection Hc as _ _ _ _ _ _ Hdet. by destruct (canonical_not_empty (lg_Detail r1)).
  - destruct Hd as [->|[-> _]]; [by apply pr_detail|done].
Qed.

(** ... and so all the way down. *)
Lemma common_history t l1 p2 l2 :
  genuine t l1 -> linked t p2 l2 -> no_collision t "" l1 p2 l2 -> (forall r, r ∈ l1 ++ l2 -> plain_row r) ->
  forall j i r1 r2, l1 !! i = Some r1 -> l2 !! j = Some r2 -> lg_EntryHash r1 = lg_EntryHash r2 ->
  (j <= i)%nat /\ forall k x, (k <= j)%nat -> l2 !! (j - k)%nat = Some x -> exists y, l1 !! (i - k)%nat = Some y /\ covered t y = covered t x.
Proof.
  intros Hg Hl Hnc Hpl. induction j as [|j IH]; intros i r1 r2 Hi Hj E.
  - split; [lia|]. intros k x Hk Hx. replace k with 0%nat in * by lia. rewrite Nat.sub_0_r in *. rewrite Hj in Hx. injection Hx as <-.
    exists r1. split; [done|]. by destruct (meet t l1 p2 l2 i 0 r1 r2 Hg Hl Hnc Hpl Hi Hj E).
  - destruct (meet t l1 p2 l2 i (S j) r1 r2 Hg Hl Hnc Hpl Hi Hj E) as [Hc Hb]. cbn [hash_before] in Hb.
    destruct (l2 !! j) as [r2'|] eqn:Hj'; [|apply lookup_ge_None in Hj'; apply lookup_lt_Some in Hj; lia]. simpl in Hb.
    destruct i as [|i].
    { exfalso. destruct (entry_reading t _ r2' (linked_at t p2 l2 j r2' Hl Hj')) as (d & _ & Hs & _). simpl in Hb. rewrite <- Hb in Hs.
      by apply (sha_nonempty _) in Hs. }
    cbn [hash_before] in Hb. destruct (l1 !! i) as [r1'|] eqn:Hi'; [|apply lookup_ge_None in Hi'; apply lookup_lt_Some in Hi; lia].
    simpl in Hb. destruct (IH i r1' r2' Hi' eq_refl Hb) as [Hji Hall]. split; [lia|]. intros [|k] x Hk Hx.
    + rewrite Nat.sub_0_r in *. rewrite Hj in Hx. injection Hx as <-. by exists r1.
    + apply (Hall k x); [lia|done].
Qed.

(** ** Anchors *)

Definition anchors_of (t : string) (s : Log) : list Anchor :=
  List.filter (fun a => bool_decide (an_TenantID a = t) && (0 <=? an_Seq a)%Z) (lg_anchors s).

(** An anchor that holds. *)
Definition anchor_holds (env : AEnv) (ring : Keys.Ring) (t : string) (s : Log) (a : Anchor) : Prop :=
  exists key, Keys.Lookup ring (an_Kid a) = Ok key /\
    ed_verify (Keys.Public key) (anchorContext t (an_Seq a) (an_EntryHash a)) (an_Signature a) = true /\
    fst (AuditEntryHashAt env t (an_Seq a) s) = Ok (an_EntryHash a).

Lemma check_anchors_count env ring t c l s :
  (fst (fst (check_anchors env ring t c l s)) <= c + Z.of_nat (length l))%Z /\
  (fst (fst (check_anchors env ring t c l s)) = (c + Z.of_nat (length l))%Z -> Forall (anchor_holds env ring t s) l).
Proof.
  revert c. induction l as [|a l IH]; intros c; [simpl; split; [lia|constructor]|]. cbn [check_anchors length].
  destruct (Keys.Lookup ring (an_Kid a)) as [key|] eqn:Hk; [|simpl; split; lia].
  destruct (ed_verify _ _ _) eqn:Hv; [|simpl; split; lia]. cbn [negb].
  destruct (fst (AuditEntryHashAt env t (an_Seq a) s)) as [got|] eqn:Hg; [|simpl; split; lia].
  destruct (bool_decide_reflect (got = an_EntryHash a)) as [->|]; [|simpl; split; lia]. cbn [negb].
  destruct (IH (c + 1)%Z) as [IH1 IH2]. split; [lia|]. intros E. constructor; [by exists key|]. apply IH2. lia.
Qed.

Lemma VerifyAnchors_all env ring t s q e :
  is_Some (ParseUUID t) -> VerifyAnchors env ring t s = (Z.of_nat (length (anchors_of t s)), q, e) -> e = None ->
  forall a, a ∈ anchors_of t s -> anchor_holds env ring t s a.
Proof.
  intros [u Hu]. unfold VerifyAnchors, AnchorsFrom, guarded. destruct (ae_fails env OpAnchors); [by intros [= _ _ <-]|]. rewrite Hu. cbn [fst].
  fold (anchors_of t s). set (l := merge_sort anchor_le (anchors_of t s)). intros E _ a Ha.
  assert (Hp : l ≡ₚ anchors_of t s) by apply merge_sort_Permutation. rewrite <- (Permutation_length Hp) in E.
  destruct (check_anchors_count env ring t 0 l s) as [_ Hall]. rewrite E in Hall. rewrite Forall_forall in Hall.
  apply Hall; [done|]. by rewrite Hp.
Qed.

Lemma EntryHashAt_row env t q h s :
  fst (AuditEntryHashAt env t q s) = Ok h -> h <> ""%string -> exists r, r ∈ tenant_rows t s /\ lg_Seq r = q /\ lg_EntryHash r = h.
Proof.
  unfold AuditEntryHashAt, guarded. destruct (ae_fails env OpHashAt); [done|]. destruct (ParseUUID t); [|done].
  destruct (find _ _) as [r|] eqn:Hf; simpl; [|by intros [= <-]]. intros [= <-] _. apply find_some in Hf as [Hin Hf]. unbool.
  exists r. split; [|done]. apply list_elem_of_In, filter_In. split; [done|]. by apply bool_decide_eq_true.
Qed.

Lemma selected_in t s r : r ∈ selected t None None s <-> r ∈ tenant_rows t s /\ (0 < lg_Seq r)%Z.
Proof.
  unfold selected. rewrite list_elem_of_In, filter_In, <- list_elem_of_In, (rows_of_perm t s). unfold later, in_range. simpl.
  by rewrite andb_true_r, Z.ltb_lt.
Qed.

Lemma strict_index l i j x y : StronglySorted before l -> l !! i = Some x -> l !! j = Some y -> (lg_Seq x <= lg_Seq y)%Z -> (i <= j)%nat.
Proof.
  intros Hs Hi Hj Hle. destruct (decide (i <= j)%nat) as [|Hn]; [done|]. exfalso.
  assert (H : before y x).
  { clear Hle. revert i j Hi Hj Hn. induction Hs as [|z l Hs IH Hz]; intros [|i] [|j] Hi Hj Hn; try done; try lia.
    - injection Hj as ->. rewrite Forall_forall in Hz. apply Hz. by eapply list_elem_of_lookup_2.
    - apply (IH i j); [done|done|lia]. }
  unfold before in H. lia.
Qed.


End Props.
(** ** A sample log *)
Module Sample.

Definition tenant : string := "0190a0b0-0000-7000-8000-0000000000aa".

(** Hashes that are short; texts that stay as they are. *)
Definition checksum (s : string) : string := String (chr (fold_right (fun a n => (code a + 7 * n) mod 251)%Z 0%Z (list_ascii_of_string s))) EmptyString.
Definition summed : AuditPrims := {|
  sha256_sum := checksum; json_reencode s := Some s; jsonb s := s; uuid_text u := u; inet_text _ := None
|}.
(** Hashes that never collide. *)
Definition spelled : AuditPrims := {|
  sha256_sum s := String "h" s; json_reencode s := Some s; jsonb s := s; uuid_text u := u; inet_text _ := None
|}.

Definition event (action result : string) : AuditEvent := {|
  ev_TenantID := tenant; ev_ActorID := ""; ev_ActorKind := "identity"; ev_TargetID := ""; ev_SessionID := ""; ev_Action := action;
  ev_Result := result; ev_IP := ""; ev_Detail := ""
|}.
Definition env (at' : Time) : AEnv := {| ae_fails _ := false; ae_now := at' |}.
Definition empty : Log := {| lg_rows := []; lg_anchors := [] |}.

Definition three : Log :=
  snd (@append spelled (env 3) (event "auth.logout" "allow")
    (snd (@append spelled (env 2) (event "authorize" "deny") (snd (@append spelled (env 1) (event "auth.login" "allow") empty))))).

Lemma event_faithful a r : @faithful spelled (event a r).
Proof. split; reflexivity. Qed.

Lemma three_written : @written spelled three.
Proof. repeat (apply (@written_append spelled); [|apply event_faithful|vm_compute; reflexivity]). apply (@written_empty spelled). Qed.

Lemma written_log_verifies_witness : @VerifyChain spelled (env 9) tenant None None three = Some (3%Z, 0%Z, None).
Proof. apply (@written_log_verifies spelled (env 9) tenant three three_written); [reflexivity|eexists; vm_compute; reflexivity]. Defined.

(** A key whose only valid signatures are over the head of [three]. *)
Definition head_hash : string := default ""%string (lg_EntryHash <$> last (lg_rows three)).
Definition keys : TokenPrims := {|
  ed_sign sk m := sk; ed_verify pk m sig := bool_decide (m = anchorContext tenant 3 head_hash) && bool_decide (sig = pk);
  ed_public sk := sk; json_header _ := ""; json_parse_header _ := None; json_parse_kid _ := None
|}.
Definition key : Keys.Key := {|
  Keys.Kid := "k1"; Keys.Purpose := Keys.PurposeAccess; Keys.Alg := "Ed25519"; Keys.Status := Keys.StatusActive;
  Keys.Public := "pk"; Keys.Private := Some "pk"%string; Keys.Secret := ""; Keys.NotBefore := 0; Keys.NotAfter := 0
|}.
Definition ring : Keys.Ring := {| Keys.byKid := {[ "k1"%string := key ]}; Keys.activeAccess := Some key; Keys.activeLocal := None |}.

Definition anchored : Log := snd (@AnchorChain keys (env 9) ring 5 tenant three).

Lemma row_plain : forall r, r ∈ tenant_rows tenant three ++ tenant_rows tenant anchored -> @plain_row spelled r.
Proof.
  assert (H : forall r, r ∈ lg_rows three -> @plain_row spelled r).
  { intros r Hr. vm_compute in Hr. repeat (apply elem_of_cons in Hr as [->|Hr]; [split; vm_compute; done|]). by apply not_elem_of_nil in Hr. }
  intros r [Hr|Hr]%elem_of_app; apply H; apply list_elem_of_In, filter_In in Hr as [Hr _]; apply list_elem_of_In; exact Hr.
Qed.

Lemma spelled_laws : @AuditLaws spelled.
Proof. by split. Qed.

Lemma context_inj m : m = anchorContext tenant 3 head_hash -> forall seq h, m = anchorContext tenant seq h -> (seq mod 2 ^ 64 = 3)%Z /\ h = head_hash.
Proof.
  intros -> seq h E. unfold anchorContext in E. rewrite !str_app_assoc in E. rewrite <- !str_app_assoc in E.
  do 4 apply app_inj_l in E. apply app_inj_length in E as [E ->]; [|done]. split; [|done]. symmetry.
  change (3 mod 2 ^ 64)%Z with 3%Z in E. apply put_uint64_inj in E; [done|lia|]. apply Z.mod_pos_bound. lia.
Qed.

Lemma unforged kid k seq h sig :
  Keys.Lookup ring kid = Ok k -> (0 <= seq < 2 ^ 63)%Z -> @ed_verify keys (Keys.Public k) (anchorContext tenant seq h) sig = true ->
  exists r, r ∈ tenant_rows tenant three /\ lg_Seq r = seq /\ lg_EntryHash r = h.
Proof.
  intros _ Hs Hv. cbn [ed_verify keys] in Hv. apply andb_true_iff in Hv as [Hv _]. apply bool_decide_eq_true in Hv.
  destruct (context_inj _ Hv seq h eq_refl) as [Hq ->]. rewrite Z.mod_small in Hq by lia. subst seq.
  exists (default {| lg_TenantID := ""; lg_OccurredAt := 0; lg_Seq := 0; lg_ActorID := ""; lg_ActorKind := ""; lg_TargetID := "";
    lg_SessionID := ""; lg_Action := ""; lg_Result := ""; lg_IP := ""; lg_Detail := ""; lg_PrevHash := ""; lg_EntryHash := "" |}
    (last (lg_rows three))). split; [|split; vm_compute; reflexivity]. apply list_elem_of_In. vm_compute. right. right. left. reflexivity.
Qed.


Lemma queue_accounts_witness :
  exists q, @qrun spelled {| qs_queue := []; qs_blocked := []; qs_dropped := []; qs_log := empty |} [event "auth.login" "allow"] q /\
    (forall ev, ev ∈ qs_dropped q -> @may_drop spelled ev) /\ length (lg_rows (qs_log q)) = 1%nat.
Proof.
  set (q1 := Emit (event "auth.login" "allow") {| qs_queue := []; qs_blocked := []; qs_dropped := []; qs_log := empty |}).
  assert (Hr : @qrun spelled {| qs_queue := []; qs_blocked := []; qs_dropped := []; qs_log := empty |} [event "auth.login" "allow"]
    (@run_one spelled (env 1) (event "auth.login" "allow") [] q1)).
  { apply qrun_run; [|reflexivity]. apply (@qrun_emit spelled _ []). apply qrun_refl. }
  exists (@run_one spelled (env 1) (event "auth.login" "allow") [] q1). split; [exact Hr|].
  split; [|vm_compute; reflexivity]. exact (proj1 (proj2 (proj2 (@queue_accounts spelled empty _ _ Hr)))).
Defined.

(** ** What the walk does not see *)

(** An entry whose transaction began before the one that took the number below
    it: the log is intact, yet a verification from a time between the two
    reports a break. *)
Definition late : Log :=
  snd (@append spelled (env 3) (event "c" "allow") (snd (@append spelled (env 1) (event "b" "allow")
    (snd (@append spelled (env 2) (event "a" "allow") empty))))).

Example late_written : @written spelled late.
Proof. repeat (apply (@written_append spelled); [|apply event_faithful|vm_compute; reflexivity]). apply (@written_empty spelled). Qed.
Example range_false_alarm : @VerifyChain spelled (env 9) tenant (Some 2%Z) None late = Some (1%Z, 3%Z, None).
Proof. vm_compute. reflexivity. Qed.

(** An anchor at sequence 0 that nobody signed: no anchor is checked, and the
    answer is that of anchors that hold. *)
Example anchor_zero_hides :
  @VerifyAnchors keys (env 9) ring tenant
    {| lg_rows := []; lg_anchors := lg_anchors anchored ++
        [{| an_TenantID := tenant; an_Seq := 0; an_EntryHash := ""; an_Kid := "k1"; an_Signature := "forged" |}] |} = (0%Z, 0%Z, None).
Proof. vm_compute. reflexivity. Qed.

(** A thousand linked entries, and one nobody appended with the number of the
    last: the batch ends before it, the next starts past it. *)
Fixpoint entries (n : nat) (seq : Z) (prev : string) : list AuditRow :=
  match n with
  | O => []
  | S n =>
      let h := @chainHash summed prev seq (event "a" "deny") in
      {| lg_TenantID := tenant; lg_OccurredAt := 1; lg_Seq := seq; lg_ActorID := ""; lg_ActorKind := "identity"; lg_TargetID := "";
         lg_SessionID := ""; lg_Action := "a"; lg_Result := "deny"; lg_IP := ""; lg_Detail := "{}"; lg_PrevHash := prev; lg_EntryHash := h |}
      :: entries n (seq + 1) h
  end.
Definition forged : AuditRow := {|
  lg_TenantID := tenant; lg_OccurredAt := 1; lg_Seq := 1000; lg_ActorID := ""; lg_ActorKind := "identity"; lg_TargetID := ""; lg_SessionID := "";
  lg_Action := "forged"; lg_Result := "allow"; lg_IP := ""; lg_Detail := "{}"; lg_PrevHash := ""; lg_EntryHash := "forged"
|}.
Example forged_duplicate_passes :
  @VerifyChain summed (env 9) tenant None None {| lg_rows := forged :: entries 1000 1 ""; lg_anchors := [] |} = Some (1000%Z, 0%Z, None).
Proof. vm_compute. reflexivity. Qed.

End Sample.
End AuditProps.
