(* ===== verification/AdminGuard.v ===== *)
(** Who may administer: the operator roles and assignments
    (internal/control/domain/operator_role.go, assignment_record.go) and the
    guard of the administration plane (internal/authz/guard/admin_guard.go). *)

From Stdlib Require Import ZArith Lia Bool Ascii String.
From stdpp Require Import base gmap strings list.
From S2P Require Import Prelude.
From S2P Require Import Shared.

(** ** operator_role.go, assignment_record.go *)
Module Operator.

(** The type is a string: a role the schema has and this file does not know
    carries nothing. *)
Abbreviation OperatorRole := string (only parsing).
Definition RoleSupport : OperatorRole := "support".
Definition RoleAdmin : OperatorRole := "admin".
Definition RoleOwner : OperatorRole := "owner".

Definition PermAssignOperators : string := "anubis:platform:assign".
Definition PermManageTenants : string := "anubis:platform:tenants".

Definition operatorPermissions : list string :=
  ["anubis:identity:read"; "anubis:identity:write"; "anubis:credential:write"; "anubis:signin:admin"]%string.
Definition supportPermissions : list string :=
  ["anubis:identity:read"; "anubis:identity:write"; "anubis:credential:write"]%string.
Definition adminPermissions : list string :=
  (["anubis:audit:read"; "anubis:consent:write"; "anubis:grant:admin"; "anubis:membership:admin"; "anubis:realm:admin";
    "anubis:role:admin"; "anubis:scope:admin"; "anubis:sync:admin"; "anubis:application:admin"; "anubis:apikey:admin";
    "anubis:manifest:apply"]%string ++ operatorPermissions).
Definition installationPermissions : list string :=
  [PermAssignOperators; PermManageTenants; "anubis:tenant:admin"; "anubis:key:admin"; "anubis:audit:read"]%string.
Definition ownerPermissions : list string := ([] ++ installationPermissions) ++ adminPermissions.

(** The loops of [InstallationScoped] and [Allows]. *)
Definition listed (l : list string) (permission : string) : bool := existsb (fun p => bool_decide (p = permission)) l.

Definition InstallationScoped (permission : string) : bool := listed installationPermissions permission.

Definition Valid (r : OperatorRole) : bool :=
  bool_decide (r = RoleSupport) || bool_decide (r = RoleAdmin) || bool_decide (r = RoleOwner).

Definition permissions (r : OperatorRole) : list string :=
  if bool_decide (r = RoleSupport) then supportPermissions
  else if bool_decide (r = RoleAdmin) then adminPermissions
  else if bool_decide (r = RoleOwner) then ownerPermissions
  else [].

Definition Allows (r : OperatorRole) (permission : string) : bool := listed (permissions r) permission.

Record AssignmentRecord := {
  a_ID : string; a_OperatorID : string;
  a_TenantID : string;             (* empty: every tenant *)
  a_TenantSlug : string;           (* for display *)
  a_Role : OperatorRole; a_GrantedBy : string; a_Reason : string;
  a_ValidUntil : option Time;
  a_RevokedAt : option Time; a_CreatedAt : Time;
  a_Below : list string            (* the companies inside the tenant *)
}.

Definition Global (a : AssignmentRecord) : bool := bool_decide (a_TenantID a = ""%string).

Definition Live (a : AssignmentRecord) (now : Time) : bool :=
  match a_RevokedAt a with
  | Some _ => false
  | None => match a_ValidUntil a with
            | Some t => time_after t now
            | None => true
            end
  end.

Definition Covers (a : AssignmentRecord) (tenantID : string) (now : Time) : bool :=
  if negb (Live a now) then false
  else Global a || bool_decide (a_TenantID a = tenantID) || listed (a_Below a) tenantID.

Lemma listed_spec l p : listed l p = true <-> p ∈ l.
Proof.
  unfold listed. rewrite existsb_exists. split.
  - intros (x & Hx & ->%bool_decide_eq_true). by apply list_elem_of_In.
  - intros H. exists p. split; [by apply list_elem_of_In|by apply bool_decide_eq_true].
Qed.

End Operator.

(** ** admin_guard.go *)
Module AdminGuard.
Import Apperr Authctx Operator.

(** OperatorAuthority: [None] is a failed call. *)
Record OperatorAuthority := {
  AssignmentsForOperator : string -> option (list AssignmentRecord);
  OperatorStanding : string -> option (bool * Z)
}.

(** [ops] is nil on a guard nobody wired. *)
Record Guard := { g_ops : option OperatorAuthority; g_now : Time }.

Definition New (now : Time) : Guard := {| g_ops := None; g_now := now |}.
Definition WithOperators (ops : OperatorAuthority) (now : Time) : Guard := {| g_ops := Some ops; g_now := now |}.

Definition denied (permission : string) : Error := With ErrPermissionDenied "permission" permission.

Definition requirePlatform (g : Guard) (p : Principal) (permission : string) : result Error Principal :=
  match g_ops g with
  | None => Err (denied permission)
  | Some ops =>
      match OperatorStanding ops (IdentityID p) with
      | None => Err (Wrap ErrInternal "standing")
      | Some (active, epoch) =>
          if negb active || negb (epoch =? Epoch p)%Z then Err ErrUnauthenticated
          else match AssignmentsForOperator ops (IdentityID p) with
               | None => Err (Wrap ErrInternal "assignments")
               | Some mine =>
                   let now := g_now g in
                   if existsb (fun a => Global a && Live a now && Allows (a_Role a) permission) mine then
                     if bool_decide (TenantID p = ""%string) && negb (InstallationScoped permission)
                     then Err (With (With ErrNoTenantSelected "permission" permission) "hint" "send X-Anubis-Tenant")
                     else Ok p
                   else if bool_decide (TenantID p = ""%string) then Err (denied permission)
                   else if existsb (fun a => Covers a (TenantID p) now && Allows (a_Role a) permission) mine
                   then Ok p
                   else Err (denied permission)
               end
      end
  end.

Definition Require (g : Guard) (caller : option Principal) (permission : string) : result Error Principal :=
  match caller with
  | None => Err ErrUnauthenticated
  | Some p =>
      if negb (Platform p)
      then Err (With (denied permission) "hint" "administration is performed by platform users")
      else requirePlatform g p permission
  end.

End AdminGuard.

(** ** Who passes *)
Module GuardProps.
Import Apperr Authctx Operator AdminGuard.

(** An assignment that gives [permission] where the caller is working. *)
Definition authority (now : Time) (tenant permission : string) (a : AssignmentRecord) : Prop :=
  Live a now = true /\ permission ∈ permissions (a_Role a) /\
  (if bool_decide (tenant = ""%string)
   then a_TenantID a = ""%string /\ permission ∈ installationPermissions
   else a_TenantID a = ""%string \/ a_TenantID a = tenant \/ tenant ∈ a_Below a).

Lemma existsb_iff {A} (f : A -> bool) (Q : A -> Prop) l :
  (forall a, f a = true <-> Q a) -> existsb f l = true <-> exists a, a ∈ l /\ Q a.
Proof.
  intros HQ. rewrite existsb_exists. split; intros (a & Ha & Hf); exists a; (split; [by apply list_elem_of_In|by apply HQ]).
Qed.

Lemma Covers_spec a tenant now :
  Covers a tenant now = true <->
  Live a now = true /\ (a_TenantID a = ""%string \/ a_TenantID a = tenant \/ tenant ∈ a_Below a).
Proof.
  unfold Covers, Global. destruct (Live a now); simpl; [|naive_solver].
  rewrite !orb_true_iff, !bool_decide_eq_true, listed_spec. tauto.
Qed.

(** C30: the guard lets through exactly the platform user, on the token epoch
    and active, one of whose live assignments carries the permission where they
    are working: any tenant for a global one, the tenant or a company inside it
    otherwise, and no tenant at all only for installation permissions held
    globally.  It answers who they are, unchanged; an unwired guard, an unknown
    role and a failing lookup let nobody through. *)
Theorem Require_spec g caller permission q :
  Require g caller permission = Ok q <->
  caller = Some q /\ Platform q = true /\
  exists ops mine, g_ops g = Some ops /\ OperatorStanding ops (IdentityID q) = Some (true, Epoch q) /\
    AssignmentsForOperator ops (IdentityID q) = Some mine /\
    exists a, a ∈ mine /\ authority (g_now g) (TenantID q) permission a.
Proof.
  unfold Require, requirePlatform.
  destruct caller as [p|]; [|split; [done|by intros [? _]]].
  destruct (Platform p) eqn:Hp; simpl; [|split; [done|intros ([= ->] & ? & _); congruence]].
  destruct (g_ops g) as [ops|]; [|split; [done|by intros (_ & _ & ? & ? & ? & _)]].
  assert (Hst : forall e, OperatorStanding ops (IdentityID p) <> Some (true, Epoch p) ->
    @Err Error Principal e = Ok q <-> Some p = Some q /\ Platform q = true /\
      exists ops0 mine, Some ops = Some ops0 /\ OperatorStanding ops0 (IdentityID q) = Some (true, Epoch q) /\
        AssignmentsForOperator ops0 (IdentityID q) = Some mine /\
        exists a, a ∈ mine /\ authority (g_now g) (TenantID q) permission a).
  { intros e Hne. split; [done|]. intros ([= <-] & _ & ? & ? & [= <-] & Hs & _). by destruct Hne. }
  destruct (OperatorStanding ops (IdentityID p)) as [[active epoch]|] eqn:Hs; [|by apply Hst].
  destruct active; simpl; [|by apply Hst]. destruct (Z.eqb_spec epoch (Epoch p)); simpl; [subst|apply Hst; congruence].
  destruct (AssignmentsForOperator ops (IdentityID p)) as [mine|] eqn:Hm.
  2: { split; [done|]. intros ([= <-] & _ & ? & ? & [= <-] & _ & Hm' & _). congruence. }
  assert (Hauth : forall P : Prop,
    ((exists a, a ∈ mine /\ authority (g_now g) (TenantID p) permission a) <-> P) ->
    (Some p = Some q /\ Platform q = true /\
     exists ops0 mine0, Some ops = Some ops0 /\ OperatorStanding ops0 (IdentityID q) = Some (true, Epoch q) /\
       AssignmentsForOperator ops0 (IdentityID q) = Some mine0 /\
       exists a, a ∈ mine0 /\ authority (g_now g) (TenantID q) permission a) <-> p = q /\ P).
  { intros P HP. split.
    - intros ([= <-] & _ & o & m & [= <-] & _ & Hm' & Ha). rewrite Hm in Hm'. injection Hm' as <-. by rewrite <- HP.
    - intros [<- Ha]. split; [done|]. split; [done|]. exists ops, mine. rewrite HP. done. }
  assert (Hglob : existsb (fun a => Global a && Live a (g_now g) && Allows (a_Role a) permission) mine = true <->
    exists a, a ∈ mine /\ (a_TenantID a = ""%string /\ Live a (g_now g) = true /\ permission ∈ permissions (a_Role a))).
  { apply existsb_iff. intros a. unfold Allows, Global. rewrite !andb_true_iff, bool_decide_eq_true, listed_spec. tauto. }
  assert (Hcov : existsb (fun a => Covers a (TenantID p) (g_now g) && Allows (a_Role a) permission) mine = true <->
    exists a, a ∈ mine /\ (Live a (g_now g) = true /\ permission ∈ permissions (a_Role a) /\
      (a_TenantID a = ""%string \/ a_TenantID a = TenantID p \/ TenantID p ∈ a_Below a))).
  { apply existsb_iff. intros a. unfold Allows. rewrite andb_true_iff, Covers_spec, listed_spec. tauto. }
  unfold authority in Hauth. case_bool_decide as Ht; simpl.
  - rewrite (Hauth (InstallationScoped permission = true /\ existsb (fun a => Global a && Live a (g_now g) &&
      Allows (a_Role a) permission) mine = true)).
    2: { rewrite Hglob. unfold InstallationScoped. rewrite listed_spec. firstorder. }
    destruct (existsb _ mine); [|by split; [|intros (_ & _ & ?)]].
    destruct (InstallationScoped permission); simpl; [|by split; [|intros (_ & ? & _)]]. split; [by intros [= ->]|by intros [-> _]].
  - rewrite (Hauth _ (iff_sym Hcov)).
    destruct (existsb (fun a => Global a && _ && _) mine) eqn:Eg.
    + assert (existsb (fun a => Covers a (TenantID p) (g_now g) && Allows (a_Role a) permission) mine = true) as Hc.
      { apply Hcov. destruct (proj1 Hglob eq_refl) as (a & Ha & Hta & Hl & Hperm). exists a. auto 6. }
      split; [intros [= ->]; by split|by intros [-> _]].
    + destruct (existsb (fun a => Covers a (TenantID p) (g_now g) && Allows (a_Role a) permission) mine); split.
      * intros [= ->]. done.
      * by intros [-> _].
      * done.
      * by intros [_ ?].
Qed.

(** What each role may do is nested: support within operator within owner; and
    only an owner reaches the installation itself, its audit trail aside. *)
Lemma roles_nested permission :
  (permission ∈ supportPermissions -> permission ∈ adminPermissions) /\
  (permission ∈ adminPermissions -> permission ∈ ownerPermissions) /\
  (permission ∈ installationPermissions -> permission ∈ adminPermissions -> permission = "anubis:audit:read"%string).
Proof.
  assert (H1 : Forall (fun p => p ∈ adminPermissions) supportPermissions) by (apply (bool_decide_unpack _); vm_compute; exact I).
  assert (H2 : Forall (fun p => p ∈ ownerPermissions) adminPermissions) by (apply (bool_decide_unpack _); vm_compute; exact I).
  assert (H3 : Forall (fun p => p ∈ adminPermissions -> p = "anubis:audit:read"%string) installationPermissions)
    by (apply (bool_decide_unpack _); vm_compute; exact I).
  rewrite Forall_forall in H1, H2, H3. auto.
Qed.

Definition owner : AssignmentRecord :=
  {| a_ID := "A1"; a_OperatorID := "O1"; a_TenantID := ""; a_TenantSlug := ""; a_Role := RoleOwner; a_GrantedBy := ""; a_Reason := "";
     a_ValidUntil := None; a_RevokedAt := None; a_CreatedAt := 0; a_Below := [] |}.
Definition caller : Principal := {|
  IdentityID := "op"; TenantID := ""; TenantSlug := ""; SessionID := ""; Realm := ""; Roles := []; Scopes := ∅; AMR := [];
  AuthTime := 0; IAL := 0; Epoch := 3; Audience := []; Service := false; Platform := true; Token := ""
|}.
Definition wired : Guard :=
  WithOperators {| AssignmentsForOperator _ := Some [owner]; OperatorStanding _ := Some (true, 3%Z) |} 5.

Example owner_creates_tenants : Require wired (Some caller) "anubis:tenant:admin" = Ok caller.
Proof. vm_compute. reflexivity. Qed.
Example owner_needs_tenant :
  exists e, Require wired (Some caller) "anubis:role:admin" = Err e /\ Code e = "no_tenant_selected"%string.
Proof. eexists. split; [vm_compute; reflexivity|reflexivity]. Qed.

End GuardProps.
