(* ===== verification/ControlStore.v ===== *)
(** internal/control: the operators' own tables - platform_users,
    platform_assignments, platform_refresh_tokens, platform_api_keys - and the
    statements over them (adapter/postgres and its rquery), with the domain
    records they answer with (domain/platform_user.go, refresh_record.go,
    api_key_record.go).  A table is the list of its rows, a statement is atomic,
    and a [CtlEnv] says what the database does during one handler. *)

From Stdlib Require Import ZArith Lia Bool Ascii String.
From stdpp Require Import base gmap strings list sorting.
From S2P Require Import Prelude.
From S2P Require Import GoStrings.
From S2P Require Import GoConv.
From S2P Require Import Keyring.
From S2P Require Import Shared.
From S2P Require Import AuthStore.
From S2P Require Import AdminGuard.

Module ControlStore.
Import Apperr Operator Uuid.

(** ** Rows *)

Record UserRow := {
  pu_ID : string; pu_Username : string; pu_Email : option string; pu_PasswordHash : string; pu_Status : string;
  pu_TokenEpoch : Z; pu_CreatedAt : Time; pu_LastLoginAt : option Time; pu_DisabledAt : option Time;
  pu_TotpSecretEnc : option string; pu_TotpEnrolledAt : option Time; pu_TotpLastStep : Z
}.

Record AssignRow := {
  as_ID : string; as_OperatorID : string; as_TenantID : option string; as_Role : string; as_GrantedBy : option string;
  as_Reason : string; as_ValidUntil : option Time; as_RevokedAt : option Time; as_CreatedAt : Time
}.

Record PlatformRefresh := {
  pr_ID : string; pr_UserID : string; pr_FamilyID : string; pr_Hash : string; pr_CreatedAt : Time; pr_ExpiresAt : Time;
  pr_UsedAt : option Time; pr_RevokedAt : option Time
}.

Record KeyRow := {
  pk_ID : string; pk_UserID : string; pk_Label : string; pk_Lookup : string; pk_SecretHash : string; pk_CreatedAt : Time;
  pk_CreatedBy : option string; pk_LastUsedAt : option Time; pk_ExpiresAt : Time; pk_RevokedAt : option Time
}.

(** [cs_work] is the running time: the key derivations made. *)
Record CStore := {
  cs_users : list UserRow; cs_assign : list AssignRow; cs_refresh : list PlatformRefresh; cs_keys : list KeyRow;
  cs_audit : list AuthStore.AuditEvent; cs_work : list Z
}.

(** ** Domain records *)

Record PlatformUser := {
  u_ID : string; u_Username : string; u_Email : string; u_Status : string; u_TokenEpoch : Z; u_CreatedAt : Time;
  u_LastLoginAt : option Time; u_DisabledAt : option Time; u_Assignments : list AssignmentRecord;
  u_TOTPEnrolledAt : option Time; u_TOTPLastStep : Z
}.

Definition MFAEnrolled (u : PlatformUser) : bool := bool_decide (is_Some (u_TOTPEnrolledAt u)).
Definition Active (u : PlatformUser) : bool := bool_decide (u_Status u = "active"%string).
Definition Owner (u : PlatformUser) (now : Time) : bool :=
  existsb (fun a => Global a && bool_decide (a_Role a = RoleOwner) && Live a now) (u_Assignments u).

(** The refusal of a second presentation. *)
Definition Spent (r : PlatformRefresh) : bool := bool_decide (is_Some (pr_UsedAt r)) || bool_decide (is_Some (pr_RevokedAt r)).

Definition KeyLive (k : KeyRow) (now : Time) : bool := bool_decide (pk_RevokedAt k = None) && time_after (pk_ExpiresAt k) now.

(** ORDER BY created_at DESC *)
Definition newer (a b : KeyRow) : Prop := (pk_CreatedAt b <= pk_CreatedAt a)%Z.
#[export] Instance newer_dec : RelDecision newer := fun a b => Z.le_dec (pk_CreatedAt b) (pk_CreatedAt a).

Record PlatformAPIKeyAuth := {
  ka_ID : string; ka_PlatformUserID : string; ka_Username : string; ka_SecretHash : string; ka_ExpiresAt : Time;
  ka_OwnerStatus : string; ka_TokenEpoch : Z; ka_LastUsedAt : option Time
}.

(** ** The database during one handler *)

Inductive Op :=
| OpUserByName | OpUserByID | OpCreateUser | OpListUsers | OpCountUsers | OpTouchLogin | OpSetStatus | OpRehash | OpSetPassword
| OpTotpSecret | OpStage | OpConfirm | OpAdvance | OpClear
| OpAssignments | OpForOperator | OpCreateAssignment | OpRevokeAssignment | OpHasOwner
| OpCreateFamily | OpAppend | OpRefreshByHash | OpConsume | OpRevokeFamily | OpSweep
| OpCreateKey | OpKeyByLookup | OpTouchKey | OpListKeys | OpRevokeKey | OpBegin | OpCommit.

(** Which calls fail, the clock, the ids uuidv7() gives, SQL's lower(), and what
    the joins with the tenants table answer: whether there is such a tenant, its
    slug, and the companies below it. *)
Record CtlEnv := {
  ct_fails : Op -> bool;
  ct_now : Time;
  ct_user_id : string; ct_assign_id : string; ct_refresh_id : string; ct_key_id : string;
  ct_lower : string -> string;
  ct_tenant : string -> bool;
  ct_slug : string -> string;
  ct_below : string -> list string
}.

Definition DbErr : Error := Wrap ErrInternal "database".
Definition BadUUID : Error := Wrap ErrInternal "uuid".
Definition FKey : Error := Wrap ErrInvalidArgument "foreign key".

Definition with_users (s : CStore) (l : list UserRow) : CStore :=
  {| cs_users := l; cs_assign := cs_assign s; cs_refresh := cs_refresh s; cs_keys := cs_keys s; cs_audit := cs_audit s; cs_work := cs_work s |}.
Definition with_assign (s : CStore) (l : list AssignRow) : CStore :=
  {| cs_users := cs_users s; cs_assign := l; cs_refresh := cs_refresh s; cs_keys := cs_keys s; cs_audit := cs_audit s; cs_work := cs_work s |}.
Definition with_refresh (s : CStore) (l : list PlatformRefresh) : CStore :=
  {| cs_users := cs_users s; cs_assign := cs_assign s; cs_refresh := l; cs_keys := cs_keys s; cs_audit := cs_audit s; cs_work := cs_work s |}.
Definition with_keys (s : CStore) (l : list KeyRow) : CStore :=
  {| cs_users := cs_users s; cs_assign := cs_assign s; cs_refresh := cs_refresh s; cs_keys := l; cs_audit := cs_audit s; cs_work := cs_work s |}.

Section Ops.
Context (env : CtlEnv).

Abbreviation M := (Eff CStore Error).

Definition guarded {A} (op : Op) (m : M A) : M A := fun s => if ct_fails env op then (Err DbErr, s) else m s.

(** A statement whose failure nobody looks at. *)
Definition best_effort (op : Op) (f : CStore -> CStore) : M unit := fun s => (Ok tt, if ct_fails env op then s else f s).

(** A statement with a uuid parameter. *)
Definition with_uuid {A} (id : string) (k : string -> M A) : M A :=
  match canon id with None => raise BadUUID | Some c => k c end.

(** UPDATE ... WHERE: the rows it changed are counted. *)
Definition update_users (p : UserRow -> bool) (f : UserRow -> UserRow) : M nat :=
  fun s => (Ok (length (List.filter p (cs_users s))), with_users s (update_where p f (cs_users s))).

(** *** platform_user_repository.go *)

(** The CHECK on usernames. *)
Definition username_ok (s : string) : bool :=
  match s with
  | EmptyString => false
  | String a r =>
      let alnum c := Validate.lower (to_lower c) || Validate.digit c in
      alnum a && str_forallb (fun c => alnum c || bool_decide (c ∈ ["."%char; "_"%char; "-"%char])) r &&
      (1 <=? String.length r)%nat && (String.length r <=? 62)%nat
  end.

Definition CreatePlatformUser (username email passwordHash : string) : M string :=
  guarded OpCreateUser (fun s =>
    if negb (username_ok username) then (Err (Wrap ErrInvalidArgument "username check"), s)
    else if existsb (fun u => bool_decide (ct_lower env (pu_Username u) = ct_lower env username)) (cs_users s) ||
            (negb (bool_decide (email = ""%string)) &&
             existsb (fun u => bool_decide (ct_lower env <$> pu_Email u = Some (ct_lower env email))) (cs_users s))
    then (Err (Wrap ErrConflict "platform_users"), s)
    else (Ok (ct_user_id env), with_users s (cs_users s ++ [{|
      pu_ID := ct_user_id env; pu_Username := username; pu_Email := AuthStore.nullif email; pu_PasswordHash := passwordHash;
      pu_Status := "active"; pu_TokenEpoch := 0; pu_CreatedAt := ct_now env; pu_LastLoginAt := None; pu_DisabledAt := None;
      pu_TotpSecretEnc := None; pu_TotpEnrolledAt := None; pu_TotpLastStep := 0 |}]))).

Definition userOf (r : UserRow) : PlatformUser := {|
  u_ID := pu_ID r; u_Username := pu_Username r; u_Email := default ""%string (pu_Email r); u_Status := pu_Status r;
  u_TokenEpoch := pu_TokenEpoch r; u_CreatedAt := pu_CreatedAt r; u_LastLoginAt := pu_LastLoginAt r;
  u_DisabledAt := pu_DisabledAt r; u_Assignments := []; u_TOTPEnrolledAt := pu_TotpEnrolledAt r;
  u_TOTPLastStep := (pu_TotpLastStep r mod 2 ^ 64)%Z |}.

Definition row_of (id : string) (s : CStore) : option UserRow := find (fun u => bool_decide (pu_ID u = id)) (cs_users s).

(** The user and their password hash; nobody by that name is not an error. *)
Definition PlatformUserByUsername (username : string) : M (option (PlatformUser * string)) :=
  guarded OpUserByName (fun s =>
    (Ok ((fun r => (userOf r, pu_PasswordHash r)) <$>
         find (fun u => bool_decide (ct_lower env (pu_Username u) = ct_lower env username)) (cs_users s)), s)).

Definition PlatformUserByID (id : string) : M (option (PlatformUser * string)) :=
  with_uuid id (fun c => guarded OpUserByID (fun s => (Ok ((fun r => (userOf r, pu_PasswordHash r)) <$> row_of c s), s))).

Definition OperatorStanding (operatorID : string) : M (bool * Z) :=
  who ← PlatformUserByID operatorID;
  mret match who with None => (false, 0%Z) | Some (u, _) => (Active u, u_TokenEpoch u) end.

Definition AnyPlatformUser : M bool := guarded OpCountUsers (fun s => (Ok (negb (bool_decide (cs_users s = []))), s)).

Definition set_login (now : Time) (u : UserRow) : UserRow := {|
  pu_ID := pu_ID u; pu_Username := pu_Username u; pu_Email := pu_Email u; pu_PasswordHash := pu_PasswordHash u; pu_Status := pu_Status u;
  pu_TokenEpoch := pu_TokenEpoch u; pu_CreatedAt := pu_CreatedAt u; pu_LastLoginAt := Some now; pu_DisabledAt := pu_DisabledAt u;
  pu_TotpSecretEnc := pu_TotpSecretEnc u; pu_TotpEnrolledAt := pu_TotpEnrolledAt u; pu_TotpLastStep := pu_TotpLastStep u |}.
Definition set_user_status (now : Time) (status : string) (u : UserRow) : UserRow :=
  let off := bool_decide (status = "disabled"%string) in {|
  pu_ID := pu_ID u; pu_Username := pu_Username u; pu_Email := pu_Email u; pu_PasswordHash := pu_PasswordHash u; pu_Status := status;
  pu_TokenEpoch := (pu_TokenEpoch u + if off then 1 else 0)%Z; pu_CreatedAt := pu_CreatedAt u; pu_LastLoginAt := pu_LastLoginAt u;
  pu_DisabledAt := if off then Some now else None;
  pu_TotpSecretEnc := pu_TotpSecretEnc u; pu_TotpEnrolledAt := pu_TotpEnrolledAt u; pu_TotpLastStep := pu_TotpLastStep u |}.
Definition set_hash (hash : string) (epochs : Z) (u : UserRow) : UserRow := {|
  pu_ID := pu_ID u; pu_Username := pu_Username u; pu_Email := pu_Email u; pu_PasswordHash := hash; pu_Status := pu_Status u;
  pu_TokenEpoch := (pu_TokenEpoch u + epochs)%Z; pu_CreatedAt := pu_CreatedAt u; pu_LastLoginAt := pu_LastLoginAt u; pu_DisabledAt := pu_DisabledAt u;
  pu_TotpSecretEnc := pu_TotpSecretEnc u; pu_TotpEnrolledAt := pu_TotpEnrolledAt u; pu_TotpLastStep := pu_TotpLastStep u |}.
Definition set_totp (sealed : option string) (enrolled : option Time) (step : Z) (u : UserRow) : UserRow := {|
  pu_ID := pu_ID u; pu_Username := pu_Username u; pu_Email := pu_Email u; pu_PasswordHash := pu_PasswordHash u; pu_Status := pu_Status u;
  pu_TokenEpoch := pu_TokenEpoch u; pu_CreatedAt := pu_CreatedAt u; pu_LastLoginAt := pu_LastLoginAt u; pu_DisabledAt := pu_DisabledAt u;
  pu_TotpSecretEnc := sealed; pu_TotpEnrolledAt := enrolled; pu_TotpLastStep := step |}.

Definition is_user (id : string) (u : UserRow) : bool := bool_decide (pu_ID u = id).

Definition TouchLogin (id : string) : M unit :=
  best_effort OpTouchLogin (fun s =>
    match canon id with None => s | Some c => with_users s (update_where (is_user c) (set_login (ct_now env)) (cs_users s)) end).

(** No row is not found; a status the CHECK does not know is refused. *)
Definition SetStatus (id status : string) : M unit :=
  with_uuid id (fun c => guarded OpSetStatus (
    if negb (bool_decide (status ∈ ["active"; "disabled"]%string)) then raise (Wrap ErrInvalidArgument "status check")
    else n ← update_users (is_user c) (set_user_status (ct_now env) status);
         if (n =? 0)%nat then raise (With ErrNotFound "operator" id) else mret tt)).

(** Only over the hash that was verified. *)
Definition RehashPassword (id oldHash newHash : string) : M unit :=
  with_uuid id (fun c => guarded OpRehash (
    _ ← update_users (fun u => is_user c u && bool_decide (pu_PasswordHash u = oldHash)) (set_hash newHash 0); mret tt)).

Definition SetPassword (id newHash : string) : M unit :=
  with_uuid id (fun c => guarded OpSetPassword (
    n ← update_users (is_user c) (set_hash newHash 1);
    if (n =? 0)%nat then raise (With ErrNotFound "operator" id) else mret tt)).

(** Opened only when a code is checked; [None] is no secret at all. *)
Definition TOTPSecret `{A : AeadPrims} (master id : string) : M (option string) :=
  with_uuid id (fun c => guarded OpTotpSecret (fun s =>
    match row_of c s ≫= pu_TotpSecretEnc with
    | None => (Ok None, s)
    | Some sealed => if bool_decide (sealed = ""%string) then (Ok None, s)
                     else match Keys.OpenSecret master id sealed with
                          | Err _ => (Err (Wrap ErrInternal "unseal"), s)
                          | Ok sec => (Ok (Some sec), s)
                          end
    end)).

Definition StageTOTPSecret `{A : AeadPrims} (nonce master id sec : string) : M unit :=
  match Keys.SealSecret nonce master id sec with
  | Err _ => raise (Wrap ErrInternal "seal")
  | Ok sealed =>
      with_uuid id (fun c => guarded OpStage (
        _ ← update_users (is_user c) (fun u => set_totp (Some sealed) (pu_TotpEnrolledAt u) (pu_TotpLastStep u) u); mret tt))
  end.

Definition ConfirmTOTP (id : string) (step : Z) : M unit :=
  with_uuid id (fun c => guarded OpConfirm (
    n ← update_users (fun u => is_user c u && bool_decide (is_Some (pu_TotpSecretEnc u)))
          (fun u => set_totp (pu_TotpSecretEnc u) (Some (ct_now env)) (wrap64 step) u);
    if (n =? 0)%nat then raise (With ErrInvalidArgument "totp" "no enrolment in progress") else mret tt)).

Definition AdvanceTOTPStep (id : string) (step : Z) : M bool :=
  with_uuid id (fun c => guarded OpAdvance (
    n ← update_users (fun u => is_user c u && (pu_TotpLastStep u <? wrap64 step)%Z)
          (fun u => set_totp (pu_TotpSecretEnc u) (pu_TotpEnrolledAt u) (wrap64 step) u);
    mret (0 <? n)%nat)).

Definition ClearTOTP (id : string) : M unit :=
  with_uuid id (fun c => guarded OpClear (_ ← update_users (is_user c) (set_totp None None 0); mret tt)).

(** *** assignment_repository.go *)

(** The two partial unique indexes: one live assignment per operator and tenant,
    and one live global one. *)
Definition assignment_clash (operator : string) (tenant : option string) (r : AssignRow) : bool :=
  bool_decide (as_RevokedAt r = None) && bool_decide (as_OperatorID r = operator) && bool_decide (as_TenantID r = tenant).

Definition known_user (id : string) (s : CStore) : bool := existsb (is_user id) (cs_users s).

(** An optional uuid: "" is NULL. *)
Definition opt_uuid (id : string) : option (option string) :=
  if bool_decide (id = ""%string) then Some None else Some <$> canon id.

Definition CreateAssignment (a : AssignmentRecord) : M string :=
  with_uuid (a_OperatorID a) (fun operator =>
    match opt_uuid (a_TenantID a), opt_uuid (a_GrantedBy a) with
    | Some tenant, Some by_ =>
        guarded OpCreateAssignment (fun s =>
          if negb (bool_decide (a_Role a ∈ [RoleSupport; RoleAdmin; RoleOwner])) then (Err (Wrap ErrInvalidArgument "role check"), s)
          else if existsb (assignment_clash operator tenant) (cs_assign s) then (Err (Wrap ErrConflict "platform_assignments"), s)
          else if negb (known_user operator s) || negb (default true (ct_tenant env <$> tenant)) ||
                  negb (default true ((fun b => known_user b s) <$> by_)) then (Err FKey, s)
          else (Ok (ct_assign_id env), with_assign s (cs_assign s ++ [{|
            as_ID := ct_assign_id env; as_OperatorID := operator; as_TenantID := tenant; as_Role := a_Role a; as_GrantedBy := by_;
            as_Reason := a_Reason a; as_ValidUntil := a_ValidUntil a; as_RevokedAt := None; as_CreatedAt := ct_now env |}])))
    | _, _ => raise BadUUID
    end).

(** A row as the queries answer it. *)
Definition assignment_of (slugs : bool) (r : AssignRow) : AssignmentRecord := {|
  a_ID := as_ID r; a_OperatorID := as_OperatorID r; a_TenantID := default ""%string (as_TenantID r);
  a_TenantSlug := if slugs then default ""%string (ct_slug env <$> as_TenantID r) else ""%string;
  a_Role := as_Role r; a_GrantedBy := default ""%string (as_GrantedBy r); a_Reason := as_Reason r; a_ValidUntil := as_ValidUntil r;
  a_RevokedAt := as_RevokedAt r; a_CreatedAt := as_CreatedAt r; a_Below := default [] (ct_below env <$> as_TenantID r) |}.

(** ORDER BY operator_id, tenant_id NULLS FIRST: uuid texts have one length. *)
Definition assign_key (r : AssignRow) : string := (as_OperatorID r ++ default "" (as_TenantID r))%string.
Definition assign_sorted (l : list AssignRow) : list AssignRow := merge_sort (fun a b => String.le (assign_key a) (assign_key b)) l.

Definition unrevoked (r : AssignRow) : bool := bool_decide (as_RevokedAt r = None).

Definition Assignments : M (list AssignmentRecord) :=
  guarded OpAssignments (fun s => (Ok (map (assignment_of true) (assign_sorted (List.filter unrevoked (cs_assign s)))), s)).

Definition AssignmentsForOperator (operatorID : string) : M (list AssignmentRecord) :=
  with_uuid operatorID (fun c => guarded OpForOperator (fun s =>
    (Ok (map (assignment_of false) (assign_sorted (List.filter (fun r => unrevoked r && bool_decide (as_OperatorID r = c) &&
       default false ((fun u => bool_decide (pu_Status u = "active"%string)) <$> row_of c s)) (cs_assign s)))), s))).

Definition HasOwner : M bool :=
  guarded OpHasOwner (fun s =>
    (Ok (existsb (fun r => bool_decide (as_TenantID r = None) && bool_decide (as_Role r = RoleOwner) && unrevoked r) (cs_assign s)), s)).

Definition set_assign_revoked (r : AssignRow) : AssignRow := {|
  as_ID := as_ID r; as_OperatorID := as_OperatorID r; as_TenantID := as_TenantID r; as_Role := as_Role r; as_GrantedBy := as_GrantedBy r;
  as_Reason := as_Reason r; as_ValidUntil := as_ValidUntil r; as_RevokedAt := Some (ct_now env); as_CreatedAt := as_CreatedAt r |}.

Definition RevokeAssignment (id : string) : M unit :=
  with_uuid id (fun c => guarded OpRevokeAssignment (fun s =>
    let p r := bool_decide (as_ID r = c) && unrevoked r in
    if existsb p (cs_assign s) then (Ok tt, with_assign s (update_where p set_assign_revoked (cs_assign s)))
    else (Err (With ErrNotFound "assignment" id), s))).

(** *** refresh_repository.go *)

Definition insert_refresh (row : PlatformRefresh) (s : CStore) : result Error unit * CStore :=
  if existsb (fun r => bool_decide (pr_Hash r = pr_Hash row)) (cs_refresh s) then (Err (Wrap ErrConflict "platform_refresh_by_hash"), s)
  else if negb (known_user (pr_UserID row) s) then (Err FKey, s)
  else (Ok tt, with_refresh s (cs_refresh s ++ [row])).

Definition refresh_row (user family hash : string) (expiresAt : Time) : PlatformRefresh := {|
  pr_ID := ct_refresh_id env; pr_UserID := user; pr_FamilyID := family; pr_Hash := hash; pr_CreatedAt := ct_now env;
  pr_ExpiresAt := expiresAt; pr_UsedAt := None; pr_RevokedAt := None |}.

(** The first row's id is the family. *)
Definition CreateRefreshFamily (userID hash : string) (expiresAt : Time) : M string :=
  with_uuid userID (fun c => guarded OpCreateFamily (
    _ ← insert_refresh (refresh_row c (ct_refresh_id env) hash expiresAt); mret (ct_refresh_id env))).

Definition AppendRefresh (userID familyID hash : string) (expiresAt : Time) : M unit :=
  with_uuid userID (fun c => with_uuid familyID (fun f => guarded OpAppend (insert_refresh (refresh_row c f hash expiresAt)))).

Definition RefreshByHash (hash : string) : M (option PlatformRefresh) :=
  guarded OpRefreshByHash (fun s => (Ok (find (fun r => bool_decide (pr_Hash r = hash)) (cs_refresh s)), s)).

Definition set_refresh (used revoked : option Time) (r : PlatformRefresh) : PlatformRefresh := {|
  pr_ID := pr_ID r; pr_UserID := pr_UserID r; pr_FamilyID := pr_FamilyID r; pr_Hash := pr_Hash r; pr_CreatedAt := pr_CreatedAt r;
  pr_ExpiresAt := pr_ExpiresAt r; pr_UsedAt := used; pr_RevokedAt := revoked |}.

Definition consumable (id : string) (r : PlatformRefresh) : bool := bool_decide (pr_ID r = id) && negb (Spent r).

(** Flips used_at exactly once. *)
Definition ConsumeRefresh (id : string) : M bool :=
  with_uuid id (fun c => guarded OpConsume (fun s =>
    (Ok (existsb (consumable c) (cs_refresh s)),
     with_refresh s (update_where (consumable c) (fun r => set_refresh (Some (ct_now env)) (pr_RevokedAt r) r) (cs_refresh s))))).

Definition in_live_family (family : string) (r : PlatformRefresh) : bool :=
  bool_decide (pr_FamilyID r = family) && bool_decide (pr_RevokedAt r = None).

Definition RevokeRefreshFamily (familyID : string) : M unit :=
  with_uuid familyID (fun f => guarded OpRevokeFamily (fun s =>
    (Ok tt, with_refresh s (update_where (in_live_family f) (fun r => set_refresh (pr_UsedAt r) (Some (ct_now env)) r) (cs_refresh s))))).

Definition stale (r : PlatformRefresh) : bool := (pr_ExpiresAt r <? ct_now env - 24 * 60 * minute)%Z.

Definition SweepExpired : M nat :=
  guarded OpSweep (fun s =>
    (Ok (length (List.filter stale (cs_refresh s))), with_refresh s (List.filter (fun r => negb (stale r)) (cs_refresh s)))).

(** *** api_key_repository.go *)

(** Lookups are unique among the keys not revoked. *)
Definition CreatePlatformAPIKey (ownerID label lookup secretHash createdBy : string) (expiresAt : Time) : M string :=
  with_uuid ownerID (fun owner =>
    match opt_uuid createdBy with
    | None => raise BadUUID
    | Some by_ =>
        guarded OpCreateKey (fun s =>
          if existsb (fun k => bool_decide (pk_RevokedAt k = None) && bool_decide (pk_Lookup k = lookup)) (cs_keys s)
          then (Err (Wrap ErrConflict "platform_api_keys_lookup"), s)
          else if negb (known_user owner s) || negb (default true ((fun b => known_user b s) <$> by_)) then (Err FKey, s)
          else (Ok (ct_key_id env), with_keys s (cs_keys s ++ [{|
            pk_ID := ct_key_id env; pk_UserID := owner; pk_Label := label; pk_Lookup := lookup; pk_SecretHash := secretHash;
            pk_CreatedAt := ct_now env; pk_CreatedBy := by_; pk_LastUsedAt := None; pk_ExpiresAt := expiresAt; pk_RevokedAt := None |}])))
    end).

(** The key with its owner's standing of now. *)
Definition key_auth (k : KeyRow) (u : UserRow) : PlatformAPIKeyAuth := {|
  ka_ID := pk_ID k; ka_PlatformUserID := pk_UserID k; ka_Username := pu_Username u; ka_SecretHash := pk_SecretHash k;
  ka_ExpiresAt := pk_ExpiresAt k; ka_OwnerStatus := pu_Status u; ka_TokenEpoch := pu_TokenEpoch u; ka_LastUsedAt := pk_LastUsedAt k |}.

Definition PlatformAPIKeyByLookup (lookup : string) : M (option PlatformAPIKeyAuth) :=
  guarded OpKeyByLookup (fun s =>
    (Ok (k ← find (fun k => bool_decide (pk_Lookup k = lookup) && bool_decide (pk_RevokedAt k = None)) (cs_keys s);
         u ← row_of (pk_UserID k) s; Some (key_auth k u)), s)).

Definition set_key (used revoked : option Time) (k : KeyRow) : KeyRow := {|
  pk_ID := pk_ID k; pk_UserID := pk_UserID k; pk_Label := pk_Label k; pk_Lookup := pk_Lookup k; pk_SecretHash := pk_SecretHash k;
  pk_CreatedAt := pk_CreatedAt k; pk_CreatedBy := pk_CreatedBy k; pk_LastUsedAt := used; pk_ExpiresAt := pk_ExpiresAt k;
  pk_RevokedAt := revoked |}.

Definition TouchPlatformAPIKeyUsed (id : string) : M unit :=
  best_effort OpTouchKey (fun s =>
    match canon id with
    | None => s
    | Some c => with_keys s (update_where (fun k => bool_decide (pk_ID k = c)) (fun k => set_key (Some (ct_now env)) (pk_RevokedAt k) k) (cs_keys s))
    end).

Definition ListPlatformAPIKeys : M (list KeyRow) :=
  guarded OpListKeys (fun s => (Ok (merge_sort newer (cs_keys s)), s)).

(** Revoking one already revoked is no error. *)
Definition RevokePlatformAPIKey (id : string) : M unit :=
  with_uuid id (fun c => guarded OpRevokeKey (fun s =>
    (Ok tt, with_keys s (update_where (fun k => bool_decide (pk_ID k = c) && bool_decide (pk_RevokedAt k = None))
                           (fun k => set_key (pk_LastUsedAt k) (Some (ct_now env)) k) (cs_keys s))))).

End Ops.
End ControlStore.
