(* ===== verification/Authorize.v ===== *)
(** internal/authz: the authorize RPC's decision
    (app/authorize_interactor.go) with the step-up rule
    (domain/step_up_decision.go) and what it writes to the audit trail. *)

From Stdlib Require Import ZArith Lia Bool Ascii String.
From stdpp Require Import base gmap strings list pretty.
From S2P Require Import Prelude.
From S2P Require Import GoStrings.
From S2P Require Import Shared.
From S2P Require Import AuthStore.

(** ** step_up_decision.go *)
Module StepUp.

Record PermissionRequirements := { RequiresAMR : list string; MaxAuthAge : Duration }.

Record StepUpDecision := {
  sd_RequiredAMR : list string; sd_MaxAuthAge : Duration; sd_CurrentAMR : list string; sd_AuthAge : Duration
}.

(** [None] is the nil decision: the authentication will do. *)
Definition EvaluateStepUp (req : PermissionRequirements) (amr : list string) (authTime now : Time) : option StepUpDecision :=
  let have := map TrimSpace amr in
  let missing := existsb (fun m => negb (existsb (fun h => bool_decide (h = m)) have)) (RequiresAMR req) in
  let '(tooOld, age) :=
    if (0 <? MaxAuthAge req)%Z then
      if time_is_zero authTime then (true, 0%Z)
      else let age := time_sub now authTime in ((MaxAuthAge req <? age)%Z, age)
    else (false, 0%Z) in
  if negb missing && negb tooOld then None
  else Some {| sd_RequiredAMR := RequiresAMR req; sd_MaxAuthAge := MaxAuthAge req; sd_CurrentAMR := amr;
               sd_AuthAge := age |}.

End StepUp.

(** [time.Duration.String] *)
Module DurationText.

(** The fraction [v mod 10^prec] without trailing zeros, after its point. *)
Fixpoint frac_digits (prec : nat) (v : Z) (printing : bool) : string :=
  match prec with
  | O => EmptyString
  | S k =>
      let d := (v mod 10)%Z in
      let printing := printing || negb (d =? 0)%Z in
      (frac_digits k (v / 10) printing ++ (if printing then String (chr (48 + d)) EmptyString else EmptyString))%string
  end.

Definition frac (prec : nat) (v : Z) : string :=
  let s := frac_digits prec v false in if bool_decide (s = ""%string) then ""%string else String "." s.

Definition num (v : Z) : string := pretty (Z.to_N v).

Definition micro : string := String (chr 194) (String (chr 181) "s").

Definition String_ (d : Duration) : string :=
  let u := Z.abs d in
  let body :=
    if (u =? 0)%Z then "0s"%string
    else if (u <? 1000)%Z then (num u ++ "ns")%string
    else if (u <? 1000000)%Z then (num (u / 1000) ++ frac 3 u ++ micro)%string
    else if (u <? second)%Z then (num (u / 1000000) ++ frac 6 u ++ "ms")%string
    else
      let secs := (u / second)%Z in
      let s := (num (secs mod 60) ++ frac 9 u ++ "s")%string in
      let mins := (secs / 60)%Z in
      if (mins =? 0)%Z then s
      else let m := (num (mins mod 60) ++ "m" ++ s)%string in
           let hours := (mins / 60)%Z in
           if (hours =? 0)%Z then m else (num hours ++ "h" ++ m)%string in
  if (d <? 0)%Z then String "-" body else body.

Example String_ex :
  String_ (5 * minute) = "5m0s"%string /\ String_ (90 * minute + 1500 * millisecond) = "1h30m1.5s"%string /\
  String_ (- 250 * millisecond) = "-250ms"%string.
Proof. vm_compute. done. Qed.

End DurationText.

(** ** authorize_interactor.go *)
Module Authorize.
Import Apperr Authctx AuthStore StepUp.

Record Decision := {
  d_Allow : bool; d_Reason : string; d_FailingAxis : string; d_Message : string; d_RequiredAMR : list string;
  d_MaxAuthAge : string; d_CurrentAMR : list string; d_AuthAge : string
}.

Definition plain (allow : bool) (reason message : string) : Decision :=
  {| d_Allow := allow; d_Reason := reason; d_FailingAxis := ""; d_Message := message; d_RequiredAMR := [];
     d_MaxAuthAge := ""; d_CurrentAMR := []; d_AuthAge := "" |}.

(** A nil scopes map and an empty one are the same here: the handler makes
    the first into the second. *)
Record AuthorizeInput := {
  in_Subject : string; in_Permission : string; in_Scopes : gmap string string; in_AMR : list string; in_AuthTime : Z
}.

(** The decision engine in the database: AuthorizeGated, and AuthorizeExplain
    with its JSON parsed into (reason, failing axis); [None] is a failed call. *)
Record AuthzPort := {
  AuthorizeGated : string -> string -> string -> gmap string string -> option (bool * PermissionRequirements);
  AuthorizeExplain : string -> string -> string -> gmap string string -> option (option string * option string)
}.

(** The sampling counter (an atomic uint64) and the audit trail. *)
Record AState := { as_counter : Z; as_audit : list AuditEvent }.

Definition allowAuditSampleRate : Z := 16.

Section Execute.
Context (port : AuthzPort) (now : Time) (client_ip : string) (json_map : gmap string string -> string).

Abbreviation M := (Eff AState Error).

Definition stepUp (req : PermissionRequirements) (inp : AuthorizeInput) : option Decision :=
  let authTime := if (0 <? in_AuthTime inp)%Z then ((in_AuthTime inp + 62135596800) * second)%Z else 0%Z in
  match EvaluateStepUp req (in_AMR inp) authTime now with
  | None => None
  | Some step =>
      Some {| d_Allow := false; d_Reason := "step_up_required"; d_FailingAxis := "";
              d_Message := "Permission requires stronger or fresher authentication";
              d_RequiredAMR := sd_RequiredAMR step; d_MaxAuthAge := DurationText.String_ (sd_MaxAuthAge step);
              d_CurrentAMR := sd_CurrentAMR step; d_AuthAge := DurationText.String_ (sd_AuthAge step) |}
  end.

Definition explainDenial (tenantID : string) (inp : AuthorizeInput) : Decision :=
  let d := plain false "permission_denied" "Denied" in
  match AuthorizeExplain port (in_Subject inp) tenantID (in_Permission inp) (in_Scopes inp) with
  | None => d
  | Some (reason, axis) =>
      let reason := default (d_Reason d) reason in
      match axis with
      | None => plain false reason "Denied"
      | Some ax =>
          {| d_Allow := false; d_Reason := reason; d_FailingAxis := ax;
             d_Message := (if bool_decide (reason = "scope_excluded"%string)
                           then "a grant covers the requested " ++ ax ++ " node and excludes it"
                           else "no grant at or above the requested " ++ ax ++ " node")%string;
             d_RequiredAMR := []; d_MaxAuthAge := ""; d_CurrentAMR := []; d_AuthAge := "" |}
      end
  end.

Definition audit_event (p : Principal) (inp : AuthorizeInput) (res : string) (d : Decision) : AuditEvent :=
  {| au_TenantID := TenantID p; au_ActorID := IdentityID p; au_ActorKind := "service"; au_TargetID := in_Subject inp;
     au_SessionID := ""; au_Action := "authorize"; au_Result := res; au_IP := client_ip;
     au_Detail := <["subject" := in_Subject inp]> (<["permission" := in_Permission inp]>
                    (<["targets" := json_map (in_Scopes inp)]> (<["reason" := d_Reason d]> ∅))) |}.

(** Denials always; one allow in sixteen. *)
Definition auditDecision (p : Principal) (inp : AuthorizeInput) (d : Decision) : M unit := fun s =>
  if d_Allow d then
    let c := ((as_counter s + 1) mod 2 ^ 64)%Z in
    if negb (c mod allowAuditSampleRate =? 0)%Z then (Ok tt, {| as_counter := c; as_audit := as_audit s |})
    else (Ok tt, {| as_counter := c; as_audit := as_audit s ++ [audit_event p inp "allow" d] |})
  else (Ok tt, {| as_counter := as_counter s; as_audit := as_audit s ++ [audit_event p inp "deny" d] |}).

Definition LinkTrespass (p : Principal) (inp : AuthorizeInput) : bool :=
  let record := default ""%string (in_Scopes inp !! "_record"%string) in
  LinkBound p && (negb (bool_decide (in_Subject inp = IdentityID p)) || bool_decide (record = ""%string) ||
                  negb (bool_decide (record = LinkRecord p))).

Definition Execute (caller : option Principal) (inp : AuthorizeInput) : M Decision :=
  match caller with
  | None => raise ErrUnauthenticated
  | Some p =>
      if bool_decide (in_Subject inp = ""%string) || bool_decide (in_Permission inp = ""%string)
      then raise ErrInvalidArgument
      else if LinkTrespass p inp then
        let d := plain false "link_bound" "This token opens one record and decides nothing else" in
        _ ← auditDecision p inp d; mret d
      else if negb (MayAskAbout p (in_Subject inp)) then
        let d := plain false "subject_not_caller"
                   "A person's sign-in can ask only about that person; ask about others with the tenant's API key" in
        _ ← auditDecision p inp d; mret d
      else
        match AuthorizeGated port (in_Subject inp) (TenantID p) (in_Permission inp) (in_Scopes inp) with
        | None => raise (Wrap ErrInternal "authorize")
        | Some (allow, req) =>
            let d := if (allow : bool) then match stepUp req inp with
                                            | Some step => step
                                            | None => plain true "" ""
                                            end
                     else explainDenial (TenantID p) inp in
            _ ← auditDecision p inp d; mret d
        end
  end.

End Execute.
End Authorize.

(** ** What it decides, and records *)
Module AuthorizeProps.
Import Apperr Authctx AuthStore StepUp Authorize.

(** The presented authentication meets the permission's requirements. *)
Definition satisfies (req : PermissionRequirements) (amr : list string) (authTime now : Time) : Prop :=
  (forall m, m ∈ RequiresAMR req -> m ∈ map TrimSpace amr) /\
  ((0 < MaxAuthAge req)%Z -> authTime <> 0%Z /\ (time_sub now authTime <= MaxAuthAge req)%Z).

Lemma EvaluateStepUp_spec req amr authTime now :
  EvaluateStepUp req amr authTime now = None <-> satisfies req amr authTime now.
Proof.
  unfold EvaluateStepUp, satisfies.
  assert (Hm : existsb (fun m => negb (existsb (fun h => bool_decide (h = m)) (map TrimSpace amr))) (RequiresAMR req) = false <->
               forall m, m ∈ RequiresAMR req -> m ∈ map TrimSpace amr).
  { rewrite <- not_true_iff_false, existsb_exists. split.
    - intros H m Hin. destruct (decide (m ∈ map TrimSpace amr)) as [|Hn]; [done|]. destruct H. exists m.
      split; [by apply list_elem_of_In|]. apply negb_true_iff, not_true_iff_false. rewrite existsb_exists.
      intros (h & Hh & ->%bool_decide_eq_true). by apply Hn, list_elem_of_In.
    - intros H (m & Hin%list_elem_of_In & Hb). apply negb_true_iff in Hb. apply not_true_iff_false in Hb.
      apply Hb, existsb_exists. exists m. split; [by apply list_elem_of_In, H|by apply bool_decide_eq_true]. }
  rewrite <- Hm. destruct (existsb _ (RequiresAMR req)); simpl.
  { destruct (0 <? MaxAuthAge req)%Z; [destruct (time_is_zero authTime)|]; split; try done; by intros [? _]. }
  unfold time_is_zero. destruct (Z.ltb_spec 0 (MaxAuthAge req)); simpl; [|split; [intros _; split; [done|lia]|done]].
  destruct (Z.eqb_spec authTime 0); simpl; [split; [done|intros [_ H']; destruct H' as [? _]; [done|congruence]]|].
  destruct (Z.ltb_spec (MaxAuthAge req) (time_sub now authTime)); simpl.
  - split; [done|]. intros [_ H']. destruct H' as [_ ?]; lia.
  - split; [|done]. intros _. split; [done|]. intros _. split; [done|lia].
Qed.

Section Props.
Context (port : AuthzPort) (now : Time) (client_ip : string) (json_map : gmap string string -> string).
Abbreviation Exec := (Execute port now client_ip json_map).

(** [time.Unix(s, 0)], or the zero time for no authentication time. *)
Definition auth_time (inp : AuthorizeInput) : Time :=
  if (0 <? in_AuthTime inp)%Z then ((in_AuthTime inp + 62135596800) * second)%Z else 0%Z.

Lemma stepUp_none req inp : stepUp now req inp = None <-> satisfies req (in_AMR inp) (auth_time inp) now.
Proof.
  unfold stepUp. fold (auth_time inp). rewrite <- EvaluateStepUp_spec.
  by destruct (EvaluateStepUp req (in_AMR inp) (auth_time inp) now).
Qed.

Lemma stepUp_denies req inp d : stepUp now req inp = Some d -> d_Allow d = false.
Proof. unfold stepUp. destruct (EvaluateStepUp _ _ _ _); [|done]. by intros [= <-]. Qed.

Lemma explainDenial_denies tenantID inp : d_Allow (explainDenial port tenantID inp) = false.
Proof. unfold explainDenial. by destruct (AuthorizeExplain _ _ _ _ _) as [[reason [ax|]]|]. Qed.

Lemma audit_bind p inp d s :
  (auditDecision client_ip json_map p inp d ≫= fun _ => mret d) s =
  (Ok d, snd (auditDecision client_ip json_map p inp d s)).
Proof. unfold mbind, eff_bind, auditDecision. destruct (d_Allow d); [destruct (negb _)|]; done. Qed.

(** C31: authorize answers allow exactly when a known caller asked a complete
    question it may ask - its own record only, through a link - the engine
    allows it, and the presented authentication is strong and fresh enough.
    It fails only for an unknown caller, an incomplete question or a failing
    engine. *)
Theorem authorize_allows caller inp s :
  (exists d, fst (Exec caller inp s) = Ok d /\ d_Allow d = true) <->
  exists p req, caller = Some p /\ in_Subject inp <> ""%string /\ in_Permission inp <> ""%string /\
    (LinkBound p = true -> in_Subject inp = IdentityID p /\
       exists r, in_Scopes inp !! "_record"%string = Some r /\ r <> ""%string /\ r = LinkRecord p) /\
    MayAskAbout p (in_Subject inp) = true /\
    AuthorizeGated port (in_Subject inp) (TenantID p) (in_Permission inp) (in_Scopes inp) = Some (true, req) /\
    satisfies req (in_AMR inp) (auth_time inp) now.
Proof.
  unfold Execute. destruct caller as [p|]; [|by split; [intros (? & ? & _)|intros (? & ? & ? & _)]].
  assert (Hno : forall d, d_Allow d = false ->
    ~ exists d', fst ((auditDecision client_ip json_map p inp d ≫= fun _ => mret d) s) = Ok d' /\ d_Allow d' = true).
  { intros d Hd (d' & He & Ha). rewrite audit_bind in He. simpl in He. congruence. }
  case_bool_decide as Hs; [by simpl; split; [intros (? & ? & _)|intros (? & ? & [= <-] & ? & _)]|].
  case_bool_decide as Hp; [by simpl; split; [intros (? & ? & _)|intros (? & ? & [= <-] & _ & ? & _)]|]. simpl orb. cbv iota.
  destruct (LinkTrespass p inp) eqn:Hl.
  { split; [intros H; by apply Hno in H|]. intros (p' & req & [= <-] & _ & _ & Hlink & _). unfold LinkTrespass in Hl.
    apply andb_true_iff in Hl as [Hb Hl]. destruct (Hlink Hb) as (He & r & Hr & Hne & Hrec). rewrite Hr in Hl. simpl in Hl.
    by rewrite bool_decide_eq_true_2, bool_decide_eq_false_2, bool_decide_eq_true_2 in Hl. }
  destruct (MayAskAbout p (in_Subject inp)) eqn:Hm; simpl negb; cbv iota.
  2: { split; [intros H; by apply Hno in H|]. intros (p' & req & [= <-] & _ & _ & _ & Hm' & _). congruence. }
  assert (Hlk : LinkBound p = true -> in_Subject inp = IdentityID p /\
    exists r, in_Scopes inp !! "_record"%string = Some r /\ r <> ""%string /\ r = LinkRecord p).
  { intros Hb. unfold LinkTrespass in Hl. rewrite Hb in Hl. simpl in Hl. unbool.
    destruct (in_Scopes inp !! "_record"%string) as [r|]; simpl in *; [|done]. split; [done|]. by exists r. }
  destruct (AuthorizeGated _ _ _ _ _) as [[allow req]|] eqn:Hg.
  2: { split; [by intros (? & ? & _)|]. intros (p' & req & [= <-] & _ & _ & _ & _ & Hg' & _). congruence. }
  destruct allow.
  - destruct (stepUp now req inp) as [d|] eqn:Hst.
    + split; [intros H; apply Hno in H; [done|by eapply stepUp_denies]|].
      intros (p' & req' & [= <-] & _ & _ & _ & _ & Hg' & Hsat). rewrite Hg in Hg'. injection Hg' as <-.
      apply stepUp_none in Hsat. congruence.
    + apply stepUp_none in Hst. split; [intros _; by exists p, req|].
      intros _. exists (plain true "" ""). split; [|done]. exact (f_equal fst (audit_bind p inp (plain true "" "") s)).
  - split; [intros H; apply Hno in H; [done|apply explainDenial_denies]|].
    intros (p' & req' & [= <-] & _ & _ & _ & _ & Hg' & _). congruence.
Qed.

(** Every denial authorize answers is written to the audit trail, and of
    the allows exactly each sixteenth; nothing else is written, and an answer
    is never changed by the trail. *)
Theorem authorize_audits caller inp s d s' :
  Exec caller inp s = (Ok d, s') ->
  exists p, caller = Some p /\
    if d_Allow d then
      as_counter s' = ((as_counter s + 1) mod 2 ^ 64)%Z /\
      as_audit s' = as_audit s ++
        (if (as_counter s' mod 16 =? 0)%Z then [audit_event client_ip json_map p inp "allow" d] else [])
    else s' = {| as_counter := as_counter s; as_audit := as_audit s ++ [audit_event client_ip json_map p inp "deny" d] |}.
Proof.
  assert (Ha : forall p d0, (auditDecision client_ip json_map p inp d0 ≫= fun _ => mret d0) s = (Ok d, s') ->
    exists p', Some p = Some p' /\
    if d_Allow d then
      as_counter s' = ((as_counter s + 1) mod 2 ^ 64)%Z /\
      as_audit s' = as_audit s ++
        (if (as_counter s' mod 16 =? 0)%Z then [audit_event client_ip json_map p' inp "allow" d] else [])
    else s' = {| as_counter := as_counter s; as_audit := as_audit s ++ [audit_event client_ip json_map p' inp "deny" d] |}).
  { intros p d0 Hb. rewrite audit_bind in Hb. injection Hb as <- <-. exists p. split; [done|]. unfold auditDecision.
    destruct (d_Allow d0); [|done]. unfold allowAuditSampleRate.
    destruct (negb _) eqn:E; simpl; (split; [done|]);
      [apply negb_true_iff in E; rewrite E; by rewrite app_nil_r|apply negb_false_iff in E; by rewrite E]. }
  unfold Execute. destruct caller as [p|]; [|done]. destruct (_ || _); [done|].
  destruct (LinkTrespass p inp); [apply Ha|]. destruct (negb _); [apply Ha|].
  destruct (AuthorizeGated _ _ _ _ _) as [[allow req]|]; [|done]. apply Ha.
Qed.

End Props.

(** *** A concrete question *)
Definition sample_port : AuthzPort := {|
  AuthorizeGated _ _ _ _ := Some (true, {| RequiresAMR := ["otp"%string]; MaxAuthAge := (5 * minute)%Z |});
  AuthorizeExplain _ _ _ _ := None
|}.
Definition asker : Principal := {|
  IdentityID := "I"; TenantID := "T"; TenantSlug := ""; SessionID := "s"; Realm := ""; Roles := []; Scopes := ∅; AMR := [];
  AuthTime := 0; IAL := 0; Epoch := 0; Audience := []; Service := false; Platform := false; Token := ""
|}.
Definition question (amr : list string) : AuthorizeInput :=
  {| in_Subject := "I"; in_Permission := "app:doc:read"; in_Scopes := ∅; in_AMR := amr; in_AuthTime := 1000 |}.
Definition at_time : Time := ((62135596800 + 1060) * second)%Z.

Lemma authorize_audits_witness :
  exists d, fst (Execute sample_port at_time "" (fun _ => ""%string) (Some asker) (question [" otp "%string])
                   {| as_counter := 15; as_audit := [] |}) = Ok d /\ d_Allow d = true /\
    length (as_audit (snd (Execute sample_port at_time "" (fun _ => ""%string) (Some asker) (question [" otp "%string])
                             {| as_counter := 15; as_audit := [] |}))) = 1%nat.
Proof.
  eexists. split; [vm_compute; reflexivity|]. split; [reflexivity|].
  destruct (authorize_audits sample_port at_time "" (fun _ => ""%string) (Some asker) (question [" otp "%string])
              {| as_counter := 15; as_audit := [] |} (plain true "" "")
              {| as_counter := 16; as_audit := [audit_event "" (fun _ => ""%string) asker (question [" otp "%string]) "allow"
                                                  (plain true "" "")] |}) as (p & _ & H);
    [vm_compute; reflexivity|].
  vm_compute. reflexivity.
Defined.

End AuthorizeProps.
