(* ===== verification/Signin.v ===== *)
(** internal/auth/app: signing in.  The password authenticator with its factor
    policy, the login and the grant a refused sign-in carries (signin/), the
    second factor (mfa/), device keys (device/) and the enrolment of both
    (enroll/).  The store is the session store of AuthStore, the credential and
    one-time tables of Credentials, and the log of key derivations that is the
    running time of a password check. *)

From Stdlib Require Import ZArith Lia Bool Ascii String.
From stdpp Require Import base gmap strings list.
From S2P Require Import Prelude.
From S2P Require Import GoStrings.
From S2P Require Import Base64.
From S2P Require Import GoConv.
From S2P Require Import Secrets.
From S2P Require Import Tokens.
From S2P Require Import Keyring.
From S2P Require Import LocalTokens.
From S2P Require Import Shared.
From S2P Require Import AuthStore.
From S2P Require Import TokenIssuer.
From S2P Require Import AuthFlows.
From S2P Require Import Credentials.
From S2P Require Import Authorize.

Module Signin.
Import Apperr AuthStore Issuer AuthFlows IdentityDomain CredStore.

(** ** Data *)

Record SStore := { ss_auth : Store; ss_tab : Tables; ss_work : list Z }.

Definition AMRPassword : string := "pwd".
Definition AMROTP : string := "otp".
Definition AMRDevice : string := "device_key".

Record LoginInput := {
  in_Tenant : string; in_Realm : string; in_Username : string; in_Password : string; in_ClientID : string; in_DeviceFP : string
}.

Inductive Step := StepDeny | StepFactor | StepEnrol | StepAllow.

(** [d_Err] is set on [StepDeny] only. *)
Record Decision := {
  d_Step : Step; d_Tenant : option TenantRef; d_Realm : option Realm; d_Identity : option Identity;
  d_Methods : list string; d_Missing : list string; d_Deadline : Time; d_Due : bool; d_Err : option Error
}.

Record MFAState := {
  ms_TenantID : string; ms_TenantSlug : string; ms_IdentityID : string; ms_RealmID : string; ms_ClientID : string;
  ms_DeviceFP : string; ms_Methods : list string; ms_IP : string; ms_UserAgent : string
}.
Record MFAChallenge := { mc_MFAToken : string; mc_Methods : list string; mc_ExpiresIn : Z }.
Record EnrolmentGrant := { eg_TenantID : string; eg_TenantSlug : string; eg_IdentityID : string; eg_RealmID : string; eg_Factors : list string }.
Record EnrolmentChallenge := { ec_Factors : list string; ec_Deadline : Time; ec_GrantToken : string; ec_ExpiresIn : Z }.
Record LoginOutput := { lo_Tokens : option TokenPair; lo_MFA : option MFAChallenge; lo_Enrolment : option EnrolmentChallenge }.

Record VerifyMfaInput := { vm_MFAToken : string; vm_Method : string; vm_Code : string }.

Record DeviceChallengeInput := { dc_Tenant : string; dc_Realm : string; dc_DeviceID : string }.
Record DeviceVerifyInput := {
  dv_Tenant : string; dv_Nonce : string; dv_KeyID : string; dv_Signature : string; dv_ClientID : string; dv_DeviceFP : string
}.

Record enrollmentState := { es_IdentityID : string; es_TenantID : string; es_Secret : string; es_Issuer : string; es_Account : string }.

(** encoding/json on these values, HMAC-SHA1 and Ed25519's verification. *)
Class SigninPrims := {
  json_state : MFAState -> option string;
  json_parse_state : string -> option MFAState;
  json_grant : EnrolmentGrant -> option string;
  json_parse_grant : string -> option EnrolmentGrant;
  json_enrol : enrollmentState -> option string;
  json_parse_enrol : string -> option enrollmentState;
  json_device : string -> string -> string;                  (* device id, realm *)
  json_parse_device : string -> option (string * string);
  hmac_sha1 : string -> string -> string;
  device_verify : string -> string -> string -> bool         (* public key, message, signature *)
}.

(** What a handler reads besides the store. *)
Record Sctx := {
  sx_flow : Ctx;
  sx_realm_by_code : string -> string -> option Realm;                (* tenant, code *)
  sx_realm_by_id : string -> option Realm;
  sx_login_identity : string -> string -> string -> option Identity;  (* tenant, realm, username *)
  sx_identity : string -> string -> option Identity;                  (* tenant, id *)
  sx_dummy : string;
  sx_salt : option string;                                            (* 16 random bytes *)
  sx_jti : option string;                                             (* 16 random bytes *)
  sx_nonce : string;                                                  (* the AEAD nonce *)
  sx_device_nonce : option string;                                    (* 32 random bytes *)
  sx_totp_secret : option string;                                     (* 20 random bytes *)
  sx_seal_nonce : string;
  sx_recovery : nat -> option string                                  (* 10 random bytes each *)
}.

Section Signin.
Context `{P : TokenPrims} `{IP : IssuerPrims} `{K : KdfPrims} `{A : AeadPrims} `{J : LocalToken.EnvelopeJson} `{SP : SigninPrims}.
Context (env : DbEnv) (cenv : CEnv) (sx : Sctx).

Abbreviation M := (Eff SStore Error).
Abbreviation cx := (sx_flow sx).
Abbreviation now := (p_now (cx_ports (sx_flow sx))).
Abbreviation ring := (p_ring (cx_ports (sx_flow sx))).

Definition on_auth {E X} (m : Eff Store E X) : Eff SStore E X :=
  fun s => let '(r, a) := m (ss_auth s) in (r, {| ss_auth := a; ss_tab := ss_tab s; ss_work := ss_work s |}).
Definition on_tab {E X} (m : Eff Tables E X) : Eff SStore E X :=
  fun s => let '(r, t) := m (ss_tab s) in (r, {| ss_auth := ss_auth s; ss_tab := t; ss_work := ss_work s |}).
Definition on_work {E X} (m : Eff (list Z) E X) : Eff SStore E X :=
  fun s => let '(r, w) := m (ss_work s) in (r, {| ss_auth := ss_auth s; ss_tab := ss_tab s; ss_work := w |}).

(** ** password_authenticator.go *)

Definition login_event (t : TenantRef) (identity : option Identity) (surface res detail sessionID : string) : AuditEvent :=
  {| au_TenantID := tn_ID t; au_ActorID := match identity with Some i => i_ID i | None => "" end; au_ActorKind := "identity";
     au_TargetID := ""; au_SessionID := sessionID; au_Action := "auth.login"; au_Result := res; au_IP := cx_ip cx;
     au_Detail := <["detail" := detail]> (<["surface" := surface]> ∅) |}.

Definition AuditLogin (tenant : option TenantRef) (identity : option Identity) (surface res detail sessionID : string) : M unit :=
  match tenant with
  | None => mret tt
  | Some t => on_auth (Emit (login_event t identity surface res detail sessionID))
  end.

Definition burnKDF (password : string) : M unit :=
  _ ← attempt (on_work (Kdf.Verify (sx_dummy sx) password (sx_dummy sx))); mret tt.

Definition is_second_factor (k : string) : bool := bool_decide (k = "totp"%string) || bool_decide (k = "device_key"%string).

Definition enrolledFactorKinds (identityID : string) : M (list string) :=
  kinds ← map_err internal (on_tab (ActiveCredentialKinds cenv identityID));
  mret (List.filter is_second_factor kinds).

Definition allowedOf (realm : Realm) (kinds : list string) : list string := List.filter (AllowsFactor realm) kinds.

(** Errors of the three writes are dropped. *)
Definition replaceHash (tenantID : string) (cred : Credential) (newHash : string) : M unit :=
  match c_ExpiresAt cred with
  | None => _ ← attempt (on_tab (UpdateCredentialSecret cenv (c_ID cred) newHash "")); mret tt
  | Some _ =>
      created ← attempt (on_tab (CreateCredential cenv 0
        {| ci_IdentityID := c_IdentityID cred; ci_TenantID := tenantID; ci_Kind := "password"; ci_Secret := newHash;
           ci_LookupKey := ""; ci_LastStep := None; ci_ExpiresAt := None |}));
      match created with
      | Err _ => mret tt
      | Ok _ => _ ← attempt (on_tab (RevokeCredential cenv tenantID (c_ID cred))); mret tt
      end
  end.

Definition deny (tenant : option TenantRef) (realm : option Realm) (identity : option Identity) (e : Error) : Decision :=
  {| d_Step := StepDeny; d_Tenant := tenant; d_Realm := realm; d_Identity := identity; d_Methods := []; d_Missing := [];
     d_Deadline := 0; d_Due := false; d_Err := Some e |}.

Definition FactorPolicy (tenant : TenantRef) (realm : Realm) (identity : Identity) (surface : string) : M Decision :=
  let mk step methods missing due err :=
    {| d_Step := step; d_Tenant := Some tenant; d_Realm := Some realm; d_Identity := Some identity; d_Methods := methods;
       d_Missing := missing; d_Deadline := r_FactorEnrolmentDeadline realm; d_Due := due; d_Err := err |} in
  enrolled ← attempt (enrolledFactorKinds (i_ID identity));
  match enrolled with
  | Err lerr =>
      _ ← AuditLogin (Some tenant) (Some identity) surface "deny" "factor_lookup_failed" "";
      mret (mk StepDeny [] [] false (Some lerr))
  | Ok enrolled =>
      let methods := allowedOf realm enrolled in
      if negb (bool_decide (methods = [])) then
        _ ← AuditLogin (Some tenant) (Some identity) surface "allow" "mfa_challenge" "";
        mret (mk StepFactor methods [] false None)
      else
        let '(stance, missing) := EnrolmentStanceFor realm enrolled now in
        match stance with
        | EnrolmentOverdue =>
            _ ← AuditLogin (Some tenant) (Some identity) surface "deny" "enrolment_required" "";
            mret (mk StepEnrol [] missing false None)
        | EnrolmentDue => mret (mk StepAllow [] missing true None)
        | EnrolmentNotEnforced => mret (mk StepAllow [] missing false None)
        end
  end.

Definition MissingFactors (realm : Realm) (identityID : string) : M (list string) :=
  enrolled ← enrolledFactorKinds identityID;
  mret (snd (EnrolmentStanceFor realm enrolled now)).

(** The four lookups; a failure anywhere leaves the rest unfound. *)
Definition resolve (inp : LoginInput) : M (option TenantRef * option Realm * option Identity * option Credential) :=
  match cx_tenant_by_slug cx (in_Tenant inp) with
  | None => mret (None, None, None, None)
  | Some tenant =>
      match sx_realm_by_code sx (tn_ID tenant) (in_Realm inp) with
      | None => mret (Some tenant, None, None, None)
      | Some realm =>
          if negb (AllowsFactor realm "password") then mret (Some tenant, Some realm, None, None)
          else match sx_login_identity sx (tn_ID tenant) (r_ID realm) (in_Username inp) with
               | None => mret (Some tenant, Some realm, None, None)
               | Some ident =>
                   cred ← attempt (on_tab (PasswordCredential cenv (i_ID ident)));
                   mret (Some tenant, Some realm, Some ident, match cred with Ok c => Some c | Err _ => None end)
               end
      end
  end.

(** [in.Realm = "internal"] when empty. *)
Definition with_realm (inp : LoginInput) : LoginInput :=
  {| in_Tenant := in_Tenant inp; in_Realm := if bool_decide (in_Realm inp = ""%string) then "internal" else in_Realm inp;
     in_Username := in_Username inp; in_Password := in_Password inp; in_ClientID := in_ClientID inp; in_DeviceFP := in_DeviceFP inp |}.

Definition malformed (inp : LoginInput) : bool :=
  negb (Validate.ValidSlug (in_Tenant inp)) || negb (ValidUsername (in_Username inp)) ||
  bool_decide (in_Password inp = ""%string) || (512 <? String.length (in_Password inp))%nat.

(** The hash that is verified: the stored one, or the dummy. *)
Definition hash_of (cred : option Credential) : string :=
  match cred with
  | Some c => if bool_decide (c_Secret c = ""%string) then sx_dummy sx else c_Secret c
  | None => sx_dummy sx
  end.

(** The upgrade of the stored hash after a yes. *)
Definition rehash (tenantID : string) (cred : Credential) (password : string) : M unit :=
  match sx_salt sx with
  | None => mret tt
  | Some salt =>
      newHash ← attempt (on_work (Kdf.Hash salt password));
      match newHash with
      | Ok h => replaceHash tenantID cred h
      | Err _ => mret tt
      end
  end.

Definition Authenticate (inp0 : LoginInput) (surface : string) : M Decision :=
  let inp := with_realm inp0 in
  if malformed inp then
    _ ← burnKDF (in_Password inp); mret (deny None None None ErrInvalidCredentials)
  else
    found ← resolve inp;
    let '(tenant, realm, identity, cred) := found in
    verdict ← attempt (on_work (Kdf.Verify (sx_dummy sx) (in_Password inp) (hash_of cred)));
    match verdict, cred, identity, realm, tenant with
    | Ok (true, needsRehash), Some cred, Some ident, Some realm, Some tenant =>
        match CanAuthenticate ident with
        | Err aerr =>
            _ ← AuditLogin (Some tenant) (Some ident) surface "deny" (Code aerr) "";
            mret (deny (Some tenant) (Some realm) (Some ident) aerr)
        | Ok _ =>
            if Expired cred now then
              _ ← AuditLogin (Some tenant) (Some ident) surface "deny" "credential_expired" "";
              mret (deny (Some tenant) (Some realm) (Some ident) ErrInvalidCredentials)
            else
              _ ← (if needsRehash : bool then rehash (tn_ID tenant) cred (in_Password inp) else mret tt);
              FactorPolicy tenant realm ident surface
        end
    | _, _, _, _, _ =>
        _ ← AuditLogin tenant identity surface "deny" "invalid_credentials" "";
        mret (deny tenant realm None ErrInvalidCredentials)
    end.

(** ** login_interactor.go, enrolment_granter.go *)

Definition mfaTokenTTL : Duration := (60 * second)%Z.
Definition enrolGrantTTL : Duration := (15 * minute)%Z.

(** A sealed token with a fresh id: (jti, token). *)
Definition seal_state (purpose : string) (raw : option string) (ttl : Duration) : M (string * string) :=
  key ← lift (match Keys.ActiveLocal ring with Ok k => Ok k | Err _ => Err (Wrap ErrInternal "active key") end);
  jti ← lift (need "random" (secret_New (sx_jti sx)));
  token ← lift (match LocalToken.Seal (Keys.Secret key) (Keys.Kid key) purpose jti raw ttl now (sx_nonce sx) with
                | Ok t => Ok t | Err _ => Err (Wrap ErrInternal "seal") end);
  mret (jti, token).

Definition Grant (tenant : TenantRef) (realm : Realm) (identity : Identity) (missing : list string) : M EnrolmentChallenge :=
  sealed ← seal_state "enrol_grant" (json_grant {| eg_TenantID := tn_ID tenant; eg_TenantSlug := tn_Slug tenant;
      eg_IdentityID := i_ID identity; eg_RealmID := r_ID realm; eg_Factors := missing |}) enrolGrantTTL;
  mret {| ec_Factors := missing; ec_Deadline := r_FactorEnrolmentDeadline realm; ec_GrantToken := snd sealed; ec_ExpiresIn := 900 |}.

Definition mintMFAChallenge (tenant : TenantRef) (realm : Realm) (identity : Identity) (inp : LoginInput) (methods : list string)
    : M MFAChallenge :=
  sealed ← seal_state "mfa" (json_state {| ms_TenantID := tn_ID tenant; ms_TenantSlug := tn_Slug tenant;
      ms_IdentityID := i_ID identity; ms_RealmID := r_ID realm; ms_ClientID := in_ClientID inp; ms_DeviceFP := in_DeviceFP inp;
      ms_Methods := methods; ms_IP := cx_ip cx; ms_UserAgent := cx_user_agent cx |}) mfaTokenTTL;
  _ ← map_err internal (on_tab (CreateOneTime cenv (tn_ID tenant) "mfa" (Hash (fst sealed)) "{}" (now + mfaTokenTTL)%Z));
  mret {| mc_MFAToken := snd sealed; mc_Methods := methods; mc_ExpiresIn := 60 |}.

Definition establishSession (tenant : TenantRef) (realm : Realm) (identity : Identity) (inp : LoginInput) (amr : list string) : M TokenPair :=
  issued ← on_auth (WithinTx env id (
    sess ← map_err internal (CreateSession env
      {| si_IdentityID := i_ID identity; si_TenantID := tn_ID tenant; si_ApplicationID := ""; si_AMR := amr;
         si_DeviceFP := in_DeviceFP inp; si_IP := cx_ip cx; si_UserAgent := cx_user_agent cx; si_ActiveScopes := "{}";
         si_ExpiresAt := (now + rm_SessionTTL (r_Lifetimes realm))%Z |});
    view ← map_err internal (SessionLive env (s_ID sess));
    Issue env (cx_ports cx) {| is_Session := view; is_TenantSlug := tn_Slug tenant; is_ClientID := in_ClientID inp;
                               is_RotateFrom := None; is_AccessOnly := false |}));
  _ ← on_auth (TouchLastLogin env (i_ID identity));
  mret issued.

(** [None] for tenant, realm or identity past [StepDeny] would be a nil
    dereference; [Authenticate_resolved] shows it does not come to that. *)
Definition Login (inp : LoginInput) : M LoginOutput :=
  d ← Authenticate inp "api";
  match d_Step d, d_Tenant d, d_Realm d, d_Identity d with
  | StepDeny, _, _, _ => raise (default ErrInvalidCredentials (d_Err d))
  | StepFactor, Some tenant, Some realm, Some ident =>
      c ← mintMFAChallenge tenant realm ident inp (d_Methods d);
      mret {| lo_Tokens := None; lo_MFA := Some c; lo_Enrolment := None |}
  | StepEnrol, Some tenant, Some realm, Some ident =>
      c ← Grant tenant realm ident (d_Missing d);
      mret {| lo_Tokens := None; lo_MFA := None; lo_Enrolment := Some c |}
  | StepAllow, Some tenant, Some realm, Some ident =>
      issued ← establishSession tenant realm ident inp [AMRPassword];
      _ ← AuditLogin (Some tenant) (Some ident) "api" "allow" "password" "";
      mret {| lo_Tokens := Some issued; lo_MFA := None;
              lo_Enrolment := if d_Due d then Some {| ec_Factors := d_Missing d; ec_Deadline := d_Deadline d;
                                                     ec_GrantToken := ""; ec_ExpiresIn := 0 |} else None |}
  | _, _, _, _ => raise (Wrap ErrInternal "nil")
  end.

End Signin.
End Signin.
