(* ===== verification/SigninProps.v ===== *)
(** internal/auth/app/signin: what a password decides, what a refusal costs, and
    what becomes of an imported password. *)

From Stdlib Require Import ZArith Lia Bool Ascii String.
From stdpp Require Import base gmap strings list.
From S2P Require Import Prelude.
From S2P Require Import GoStrings.
From S2P Require Import Base64.
From S2P Require Import GoConv.
From S2P Require Import Secrets.
From S2P Require Import Tokens.
From S2P Require Import Keyring.
From S2P Require Import LocalTokens.
From S2P Require Import Shared.
From S2P Require Import AuthStore.
From S2P Require Import TokenProps.
From S2P Require Import TokenIssuer.
From S2P Require Import AuthFlows.
From S2P Require Import AuthTheorems.
From S2P Require Import Credentials.
From S2P Require Import Signin.

Module SigninProps.
Import Apperr AuthStore Issuer AuthFlows IdentityDomain CredStore Signin.

Section Props.
Context `{P : TokenPrims} `{IP : IssuerPrims} `{K : KdfPrims} `{A : AeadPrims} `{J : LocalToken.EnvelopeJson} `{SP : SigninPrims}.
Context (env : DbEnv) (cenv : CEnv) (sx : Sctx).

Abbreviation now := (p_now (cx_ports (sx_flow sx))).

(** ** The tables an operation leaves alone *)

Lemma AuditLogin_ok tenant ident surface res detail session s :
  exists s', AuditLogin sx tenant ident surface res detail session s = (Ok tt, s') /\ ss_tab s' = ss_tab s /\ ss_work s' = ss_work s.
Proof. destruct tenant; eexists; split; [reflexivity|done|reflexivity|done]. Qed.

(** The second factors a person holds, as the tables stand. *)
Definition factors (t : Tables) (identityID : string) : list string :=
  List.filter is_second_factor (remove_dups (map cr_Kind
    (List.filter (fun r => bool_decide (cr_IdentityID r = identityID) && live cenv r) (tb_creds t)))).

Lemma enrolled_ok identityID s :
  enrolledFactorKinds cenv identityID s =
    (if ce_fails cenv OpActiveKinds then Err (internal (Wrap ErrInternal "database")) else Ok (factors (ss_tab s) identityID), s).
Proof.
  unfold enrolledFactorKinds, mbind, eff_bind, map_err, on_tab, ActiveCredentialKinds, guarded.
  destruct s as [a t w]. simpl. by destruct (ce_fails cenv OpActiveKinds).
Qed.

(** The step the factor policy comes to. *)
Definition step_for (realm : Realm) (kinds : list string) : Step :=
  if negb (bool_decide (allowedOf realm kinds = [])) then StepFactor
  else match fst (EnrolmentStanceFor realm kinds now) with
       | EnrolmentOverdue => StepEnrol
       | _ => StepAllow
       end.

Lemma FactorPolicy_ok tenant realm ident surface s :
  exists d s', FactorPolicy cenv sx tenant realm ident surface s = (Ok d, s') /\ ss_tab s' = ss_tab s /\ ss_work s' = ss_work s /\
    d_Tenant d = Some tenant /\ d_Realm d = Some realm /\ d_Identity d = Some ident /\
    (if ce_fails cenv OpActiveKinds
     then d_Step d = StepDeny /\ d_Err d = Some (internal (Wrap ErrInternal "database"))
     else d_Step d = step_for realm (factors (ss_tab s) (i_ID ident)) /\ d_Err d = None /\
          (d_Step d = StepFactor -> d_Methods d = allowedOf realm (factors (ss_tab s) (i_ID ident)))).
Proof.
  unfold FactorPolicy. cbv zeta. rewrite attempt_bind, enrolled_ok. destruct (ce_fails cenv OpActiveKinds); cbn [fst snd].
  { destruct (AuditLogin_ok (Some tenant) (Some ident) surface "deny" "factor_lookup_failed" "" s) as (s' & Ha & Ht & Hw).
    eexists _, s'. unfold mbind, eff_bind. rewrite Ha. split; [reflexivity|done]. }
  unfold step_for. set (kinds := factors (ss_tab s) (i_ID ident)).
  destruct (bool_decide (allowedOf realm kinds = [])) eqn:Hm; cbn [negb].
  - destruct (EnrolmentStanceFor realm kinds now) as [[] missing]; cbn [fst].
    + eexists _, s. split; [reflexivity|done].
    + eexists _, s. split; [reflexivity|done].
    + destruct (AuditLogin_ok (Some tenant) (Some ident) surface "deny" "enrolment_required" "" s) as (s' & Ha & Ht & Hw).
      eexists _, s'. unfold mbind, eff_bind. rewrite Ha. split; [reflexivity|done].
  - destruct (AuditLogin_ok (Some tenant) (Some ident) surface "allow" "mfa_challenge" "" s) as (s' & Ha & Ht & Hw).
    eexists _, s'. unfold mbind, eff_bind. rewrite Ha. split; [reflexivity|done].
Qed.

(** ** The lookups *)

(** The password row of a person. *)
Definition password_row (t : Tables) (identityID : string) : option CredRow :=
  if ce_fails cenv OpPassword then None else find (fun r => holds identityID "password" r && unrevoked r) (tb_creds t).

Definition found (inp : LoginInput) (t : Tables) : option TenantRef * option Realm * option Identity * option Credential :=
  match cx_tenant_by_slug (sx_flow sx) (in_Tenant inp) with
  | None => (None, None, None, None)
  | Some tenant =>
      match sx_realm_by_code sx (tn_ID tenant) (in_Realm inp) with
      | None => (Some tenant, None, None, None)
      | Some realm =>
          if negb (AllowsFactor realm "password") then (Some tenant, Some realm, None, None)
          else match sx_login_identity sx (tn_ID tenant) (r_ID realm) (in_Username inp) with
               | None => (Some tenant, Some realm, None, None)
               | Some ident => (Some tenant, Some realm, Some ident, credential_of <$> password_row t (i_ID ident))
               end
      end
  end.

Lemma resolve_ok inp s : resolve cenv sx inp s = (Ok (found inp (ss_tab s)), s).
Proof.
  unfold resolve, found. destruct (cx_tenant_by_slug _ _) as [tenant|]; [|done].
  destruct (sx_realm_by_code sx _ _) as [realm|]; [|done]. destruct (negb _); [done|].
  destruct (sx_login_identity sx _ _ _) as [ident|]; [|done].
  rewrite attempt_bind. unfold on_tab, PasswordCredential, guarded, password_row. destruct s as [a t w]. simpl.
  destruct (ce_fails cenv OpPassword); [done|]. by destruct (find _ _).
Qed.

(** ** The upgrade of a stored hash *)

(** The password of a person is behind a hash. *)
Definition yes (password encoded : string) : Prop := exists rh, fst (Kdf.Verify (sx_dummy sx) password encoded []) = Ok (true, rh).

(** A second password row never gets past the index credentials_one_password:
    the expiring row it would take over from is still there. *)
Lemma replace_expiring tenantID ident cred h t s :
  password_row (ss_tab s) ident = Some cred -> cr_ExpiresAt cred = Some t ->
  exists s', replaceHash cenv tenantID (credential_of cred) h s = (Ok tt, s') /\ ss_tab s' = ss_tab s /\ ss_work s' = ss_work s.
Proof.
  unfold password_row. destruct (ce_fails cenv OpPassword); [done|]. intros Hf Ht.
  apply find_some in Hf as [Hin Hh]. apply andb_true_iff in Hh as [Hh Hu].
  unfold replaceHash. simpl. rewrite Ht, attempt_bind. unfold on_tab, CreateCredential, guarded. destruct s as [a tb w]. simpl in *.
  destruct (ce_fails cenv OpCreateCred); [by eexists|].
  replace (existsb _ (tb_creds tb)) with true; [by eexists|].
  symmetry. apply existsb_spec. exists cred. split; [by apply list_elem_of_In|]. unfold clashes. simpl. rewrite Hu. simpl.
  unfold holds in *. unbool. by rewrite !bool_decide_eq_true_2 by congruence.
Qed.

(** Writing a secret leaves the factors alone. *)
Lemma factors_set_secret id h k t who :
  factors (with_creds t (map (fun r => if bool_decide (cr_ID r = id) then set_secret h k r else r) (tb_creds t))) who = factors t who.
Proof.
  unfold factors, with_creds. simpl. f_equal. f_equal. induction (tb_creds t) as [|r l IH]; [done|]. simpl.
  assert (Hr : forall b : bool, (bool_decide (cr_IdentityID (if b then set_secret h k r else r) = who) &&
      live cenv (if b then set_secret h k r else r)) = (bool_decide (cr_IdentityID r = who) && live cenv r) /\
      cr_Kind (if b then set_secret h k r else r) = cr_Kind r) by (by intros []).
  destruct (Hr (bool_decide (cr_ID r = id))) as [-> Hk]. destruct (_ && live cenv r); [|done]. simpl. by rewrite Hk, IH.
Qed.

(** The upgrade never stops a sign-in; it leaves the factors alone, and a
    credential with an expiry entirely. *)
Lemma rehash_ok tenantID ident cred pw s :
  password_row (ss_tab s) ident = Some cred ->
  exists s', rehash cenv sx tenantID (credential_of cred) pw s = (Ok tt, s') /\
    (forall who, factors (ss_tab s') who = factors (ss_tab s) who) /\
    (cr_ExpiresAt cred <> None -> ss_tab s' = ss_tab s).
Proof.
  intros Hrow. unfold rehash. destruct (sx_salt sx) as [salt|]; [|by exists s]. rewrite attempt_bind. unfold on_work.
  destruct (Kdf.Hash salt pw (ss_work s)) as [[h|e] w]; cbn [fst snd]; [|by eexists].
  destruct (cr_ExpiresAt cred) as [t|] eqn:Ht.
  - destruct (replace_expiring tenantID ident cred h t {| ss_auth := ss_auth s; ss_tab := ss_tab s; ss_work := w |} Hrow Ht)
      as (s' & Hr & Hs & _). exists s'. rewrite Hs. done.
  - unfold replaceHash. simpl. rewrite Ht, attempt_bind. unfold on_tab, UpdateCredentialSecret, guarded. simpl.
    destruct (ce_fails cenv OpUpdateSecret); eexists; (split; [reflexivity|]); (split; [|done]); intros who; [done|apply factors_set_secret].
Qed.

(** ** Authenticate *)

(** Everything that has to hold for a password to get past the first factor. *)
Record first_factor (inp : LoginInput) (t : Tables) (tenant : TenantRef) (realm : Realm) (ident : Identity) (cred : Credential) : Prop := {
  ff_shape : malformed inp = false;
  ff_found : found inp t = (Some tenant, Some realm, Some ident, Some cred);
  ff_yes : yes (in_Password inp) (hash_of sx (Some cred));
  ff_identity : CanAuthenticate ident = Ok tt;
  ff_live : Expired cred now = false
}.

Lemma found_row inp t tenant realm ident cred :
  found inp t = (Some tenant, Some realm, Some ident, Some cred) ->
  AllowsFactor realm "password" = true /\ exists row, password_row t (i_ID ident) = Some row /\ cred = credential_of row.
Proof.
  unfold found. destruct (cx_tenant_by_slug _ _) as [t'|]; [|done]. destruct (sx_realm_by_code sx _ _) as [r|]; [|done].
  destruct (AllowsFactor r "password") eqn:Ha; simpl; [|done]. destruct (sx_login_identity sx _ _ _) as [i|]; [|done].
  destruct (password_row t (i_ID i)) as [row|] eqn:Hr; simpl; [|done]. intros [= -> -> -> <-]. split; [done|]. by exists row.
Qed.

(** The hash a submission is verified against. *)
Definition verified_hash (inp : LoginInput) (t : Tables) : string :=
  if malformed inp then sx_dummy sx else hash_of sx (snd (found inp t)).

(** A refusal before the factor policy: what it says, writes and costs. *)
Definition refused (inp : LoginInput) (s : SStore) (out : result Error Decision * SStore) : Prop :=
  exists d, fst out = Ok d /\ d_Step d = StepDeny /\ ss_tab (snd out) = ss_tab s /\
    (SecretsProps.dummy_ok (sx_dummy sx) -> ss_work (snd out) = ss_work s ++ SecretsProps.cost_of (verified_hash inp (ss_tab s))).

Lemma Authenticate_cases inp0 surface s :
  let inp := with_realm inp0 in
  (exists tenant realm ident cred s1, first_factor inp (ss_tab s) tenant realm ident cred /\
     Authenticate cenv sx inp0 surface s = FactorPolicy cenv sx tenant realm ident surface s1 /\
     (forall who, factors (ss_tab s1) who = factors (ss_tab s) who) /\ (c_ExpiresAt cred <> None -> ss_tab s1 = ss_tab s)) \/
  (~ (exists tenant realm ident cred, first_factor inp (ss_tab s) tenant realm ident cred)) /\
  refused inp s (Authenticate cenv sx inp0 surface s).
Proof.
  intros inp. remember (Authenticate cenv sx inp0 surface s) as out eqn:Ho. unfold Authenticate in Ho. fold inp in Ho.
  cbv zeta in Ho. destruct (malformed inp) eqn:Hm.
  { right. split; [intros (? & ? & ? & ? & [? _ _ _ _]); congruence|]. rewrite Ho. unfold burnKDF, mbind, eff_bind, attempt, on_work.
    destruct (Kdf.Verify _ _ _ (ss_work s)) as [r w] eqn:Hv. eexists. split; [reflexivity|]. split; [done|]. split; [done|]. intros Hd.
    unfold verified_hash. rewrite Hm. exact (eq_trans (f_equal snd (eq_sym Hv)) (SecretsProps.Verify_cost _ _ _ _ Hd)). }
  unfold mbind at 1, eff_bind at 1 in Ho. rewrite resolve_ok in Ho.
  destruct (found inp (ss_tab s)) as [[[tenant realm] ident] cred] eqn:Hf.
  rewrite attempt_bind in Ho. unfold on_work at 1 2 in Ho.
  pose proof (SecretsProps.Verify_answer (sx_dummy sx) (in_Password inp) (hash_of sx cred) (ss_work s)) as Kdf_answer.
  pose proof (SecretsProps.Verify_cost (sx_dummy sx) (in_Password inp) (hash_of sx cred) (ss_work s)) as Kdf_cost.
  destruct (Kdf.Verify _ _ _ (ss_work s)) as [v w]. cbn [fst snd] in Kdf_answer, Kdf_cost, Ho.
  set (s0 := {| ss_auth := ss_auth s; ss_tab := ss_tab s; ss_work := w |}) in *.
  assert (Hrest : forall t i su de dt r i' e, refused inp s ((AuditLogin sx t i su de dt "" ≫= fun _ => mret (deny t r i' e)) s0)).
  { intros t i su de dt r i' e. destruct (AuditLogin_ok t i su de dt "" s0) as (s' & Ha & Ht & Hw).
    unfold mbind, eff_bind. rewrite Ha. exists (deny t r i' e). split; [done|]. split; [done|]. split; [exact Ht|].
    intros Hd. refine (eq_trans Hw _). unfold verified_hash. rewrite Hm, Hf. by apply Kdf_cost. }
  destruct v as [[[] needs]|e]; [|right; rewrite Ho|right; rewrite Ho].
  2-3: split; [|by apply Hrest]; intros (t & r & i & c & [_ Hf' [rh Hy] _ _]); rewrite Hf in Hf'; injection Hf' as -> -> -> ->; congruence.
  destruct cred as [cred|], ident as [ident|], realm as [realm|], tenant as [tenant|].
  2-16: right; rewrite Ho; split; [intros (? & ? & ? & ? & [_ Hf' _ _ _]); congruence|by apply Hrest].
  destruct (CanAuthenticate ident) as [[]|aerr] eqn:Hc.
  2: { right. rewrite Ho. split; [|by apply Hrest]. intros (? & ? & ? & ? & [_ Hf' _ Hi _]). congruence. }
  destruct (Expired cred now) eqn:He.
  { right. rewrite Ho. split; [|by apply Hrest]. intros (? & ? & ? & ? & [_ Hf' _ _ Hl]). congruence. }
  left. destruct (found_row _ _ _ _ _ _ Hf) as [_ (row & Hrow & ->)].
  destruct (rehash_ok (tn_ID tenant) (i_ID ident) row (in_Password inp) s0 Hrow) as (s1 & Hr & Hk & Hx).
  exists tenant, realm, ident, (credential_of row), (if needs then s1 else s0).
  split; [split; [done|done|by exists needs; rewrite <- Kdf_answer|done|done]|].
  rewrite Ho. destruct needs; (split; [|by split]); unfold mbind, eff_bind; [by rewrite Hr|done].
Qed.

(** C32: what a password decides.  Authenticate always answers, and the answer
    is not a refusal exactly when the input has the right shape, tenant, realm,
    person and credential are found in a realm that takes passwords, the
    password verifies, the person may sign in, the credential has not expired
    and the enrolled factors can be read; the step is then the one the realm's
    factor policy gives for the factors the person holds. *)
Theorem Authenticate_decides inp0 surface s :
  let inp := with_realm inp0 in
  exists d s', Authenticate cenv sx inp0 surface s = (Ok d, s') /\
    (d_Step d <> StepDeny <->
       ce_fails cenv OpActiveKinds = false /\
       exists tenant realm ident cred, first_factor inp (ss_tab s) tenant realm ident cred) /\
    (d_Step d <> StepDeny -> exists tenant realm ident,
       d_Tenant d = Some tenant /\ d_Realm d = Some realm /\ d_Identity d = Some ident /\
       d_Step d = step_for realm (factors (ss_tab s) (i_ID ident)) /\
       (d_Step d = StepFactor -> d_Methods d = allowedOf realm (factors (ss_tab s) (i_ID ident)))).
Proof.
  intros inp. destruct (Authenticate_cases inp0 surface s) as [(tenant & realm & ident & cred & s1 & Hff & Ha & Hk & _)|[Hno (d & Hd & Hs & _)]].
  - destruct (FactorPolicy_ok tenant realm ident surface s1) as (d & s' & Hf & _ & _ & Ht & Hr & Hi & Hstep).
    exists d, s'. rewrite Ha. split; [done|]. rewrite !Hk in Hstep. destruct (ce_fails cenv OpActiveKinds).
    + destruct Hstep as [Hd _]. split; [|done]. split; [done|by intros [? _]].
    + destruct Hstep as (Hd & _ & Hm). split; [|intros _; by exists tenant, realm, ident].
      split; [intros _; split; [done|by exists tenant, realm, ident, cred]|]. intros _. rewrite Hd.
      unfold step_for. destruct (negb _); [done|]. by destruct (fst (EnrolmentStanceFor _ _ _)).
  - destruct (Authenticate cenv sx inp0 surface s) as [r s'] eqn:E. simpl in Hd. subst r. exists d, s'. split; [done|].
    split; [|by rewrite Hs]. split; [by rewrite Hs|]. by intros [_ ?].
Qed.

(** Every stored password hash is at today's cost. *)
Definition hashes_current (t : Tables) : Prop :=
  forall who row h, password_row t who = Some row -> cr_Secret row = Some h -> h <> ""%string -> SecretsProps.cost_of h = [Kdf.DefaultIterations].

Lemma dummy_cost : SecretsProps.dummy_ok (sx_dummy sx) -> SecretsProps.cost_of (sx_dummy sx) = [Kdf.DefaultIterations].
Proof. intros (salt & want & Hp). unfold SecretsProps.cost_of. destruct (Legacyhash.IsLegacy _); [done|]. by rewrite Hp. Qed.

Lemma found_cred inp t cred :
  snd (found inp t) = Some cred -> exists who row, password_row t who = Some row /\ cred = credential_of row.
Proof.
  unfold found. destruct (cx_tenant_by_slug _ _) as [t'|]; [|done]. destruct (sx_realm_by_code sx _ _) as [r|]; [|done].
  destruct (negb _); [done|]. destruct (sx_login_identity sx _ _ _) as [i|]; [|done]. simpl.
  destruct (password_row t (i_ID i)) as [row|] eqn:Hr; [|done]. intros [= <-]. by exists (i_ID i), row.
Qed.

Lemma verified_cost inp t :
  SecretsProps.dummy_ok (sx_dummy sx) -> hashes_current t -> SecretsProps.cost_of (verified_hash inp t) = [Kdf.DefaultIterations].
Proof.
  intros Hd Hc. unfold verified_hash. destruct (malformed inp); [by apply dummy_cost|].
  destruct (snd (found inp t)) as [cred|] eqn:Hf; simpl; [|by apply dummy_cost].
  apply found_cred in Hf as (who & row & Hr & ->). simpl. destruct (cr_Secret row) as [h|] eqn:Hs; simpl; [|by apply dummy_cost].
  case_bool_decide as Hh; [by apply dummy_cost|]. by eapply Hc.
Qed.

(** The time of a refusal tells nothing.  While the stored hashes are at
    today's cost, every submission refused as invalid credentials - malformed,
    an unknown tenant, realm or person, no password, a wrong one, an expired
    one - costs one derivation at that cost and changes no table. *)
Theorem refusals_cost_the_same inp0 surface s d s' :
  SecretsProps.dummy_ok (sx_dummy sx) -> hashes_current (ss_tab s) ->
  Authenticate cenv sx inp0 surface s = (Ok d, s') -> d_Err d = Some ErrInvalidCredentials ->
  ss_work s' = ss_work s ++ [Kdf.DefaultIterations] /\ ss_tab s' = ss_tab s.
Proof.
  intros Hd Hc Ha He.
  destruct (Authenticate_cases inp0 surface s) as [(tenant & realm & ident & cred & s1 & _ & Ha' & _)|[_ (d' & Hok & _ & Ht & Hw)]].
  - exfalso. destruct (FactorPolicy_ok tenant realm ident surface s1) as (d' & s2 & Hf & _ & _ & _ & _ & _ & Hstep).
    rewrite Ha', Hf in Ha. injection Ha as -> ->. destruct (ce_fails cenv OpActiveKinds).
    + destruct Hstep as [_ Herr]. rewrite Herr in He. discriminate He.
    + destruct Hstep as (_ & Herr & _). congruence.
  - rewrite Ha in Hok, Ht, Hw. injection Hok as <-. split; [|done]. rewrite <- (verified_cost (with_realm inp0) (ss_tab s) Hd Hc). exact (Hw Hd).
Qed.

(** A sign-in with an expiring credential leaves the tables as they were. *)
Lemma expiring_keeps_tables inp0 surface s tenant realm ident cred :
  first_factor (with_realm inp0) (ss_tab s) tenant realm ident cred -> c_ExpiresAt cred <> None ->
  ss_tab (snd (Authenticate cenv sx inp0 surface s)) = ss_tab s.
Proof.
  intros Hff Hx. destruct (Authenticate_cases inp0 surface s) as [(tenant' & realm' & ident' & cred' & s1 & Hff' & Ha & _ & Ht)|[Hno _]].
  - destruct (FactorPolicy_ok tenant' realm' ident' surface s1) as (d' & s2 & Hf & Ht2 & _).
    rewrite Ha, Hf. simpl. rewrite Ht2. apply Ht.
    pose proof (ff_found _ _ _ _ _ _ Hff) as H1. rewrite (ff_found _ _ _ _ _ _ Hff') in H1. by injection H1 as -> -> -> ->.
  - destruct Hno. by exists tenant, realm, ident, cred.
Qed.

End Props.

Section Later.
Context `{P : TokenPrims} `{IP : IssuerPrims} `{K : KdfPrims} `{A : AeadPrims} `{J : LocalToken.EnvelopeJson} `{SP : SigninPrims}.

(** An imported password is never taken over.  Signing in with a credential
    that has an expiry leaves the credential table as it was, whatever the
    upgrade of the hash set out to do; from the expiry on the person is refused,
    whatever they type. *)
Theorem imported_hash_stays cenv sx inp surface s tenant realm ident cred t :
  first_factor cenv sx (with_realm inp) (ss_tab s) tenant realm ident cred -> c_ExpiresAt cred = Some t ->
  let s' := snd (Authenticate cenv sx inp surface s) in
  ss_tab s' = ss_tab s /\
  forall cenv' sx' inp' surface' t' r' i' c',
    found cenv' sx' (with_realm inp') (ss_tab s') = (t', r', Some i', c') -> i_ID i' = i_ID ident ->
    (t <= p_now (cx_ports (sx_flow sx')))%Z ->
    exists d, fst (Authenticate cenv' sx' inp' surface' s') = Ok d /\ d_Step d = StepDeny.
Proof.
  intros Hff Hx. cbv zeta. rewrite (expiring_keeps_tables cenv sx inp surface s tenant realm ident cred Hff) by (by rewrite Hx).
  split; [done|]. intros cenv' sx' inp' surface' t' r' i' c' Hf' Hid Hlate.
  destruct (Authenticate_cases cenv' sx' inp' surface' (snd (Authenticate cenv sx inp surface s)))
    as [(tenant2 & realm2 & ident2 & cred2 & s1 & Hff2 & _)|[_ (d & Hd & Hs & _)]]; [|by exists d].
  exfalso. rewrite (expiring_keeps_tables cenv sx inp surface s tenant realm ident cred Hff) in Hff2 by (by rewrite Hx).
  pose proof (ff_found _ _ _ _ _ _ _ _ Hff2) as Hf2. rewrite Hf' in Hf2. injection Hf2 as -> -> -> ->.
  destruct (found_row _ _ _ _ _ _ _ _ Hf') as [_ (row2 & Hrow2 & Hc2)].
  destruct (found_row _ _ _ _ _ _ _ _ (ff_found _ _ _ _ _ _ _ _ Hff)) as [_ (row & Hrow & Hc)].
  unfold password_row in Hrow, Hrow2. destruct (ce_fails cenv' OpPassword); [done|]. destruct (ce_fails cenv OpPassword); [done|].
  rewrite Hid, Hrow in Hrow2. injection Hrow2 as <-. rewrite <- Hc in Hc2. subst cred2.
  pose proof (ff_live _ _ _ _ _ _ _ _ Hff2) as Hl. unfold Expired in Hl. rewrite Hx in Hl. unfold time_after in Hl. unbool. lia.
Qed.

End Later.
(** ** A sample tenant with one imported account *)
Module Sample.
Import AuthTheorems.Sample.
#[local] Existing Instance Toy.prims.
#[local] Existing Instance issuer_prims.
#[local] Existing Instance ToyKdf.prims.

Definition realm : Realm := {|
  r_ID := "R"; r_Code := "internal"; r_AllowedFactors := ["password"; "totp"]%string; r_RequiredFactors := []; r_FactorEnrolmentDeadline := 0;
  r_Lifetimes := {| rm_AccessTokenTTL := 900 * second; rm_RefreshTokenTTL := 3600 * second; rm_SessionTTL := 3600 * second |}
|}.
Definition alice : Identity := {|
  i_ID := "I"; i_TenantID := "T"; i_RealmID := "R"; i_RealmCode := "internal"; i_Username := "alice"; i_Status := "active";
  i_Disabled := false; i_Anonymized := false; i_Email := ""; i_AssuranceLevel := 1; i_TokenEpoch := 0
|}.

Definition sctx (at_ : Time) : Sctx := {|
  sx_flow := {| cx_ports := {| p_issuer := "iss"; p_ring := p_ring ports; p_now := at_; p_tenant := p_tenant ports; p_realm := p_realm ports;
      p_app := p_app ports; p_holds := p_holds ports; p_roles_in_app := p_roles_in_app ports; p_roles := p_roles ports;
      p_jti := p_jti ports; p_refresh := p_refresh ports; p_family := p_family ports |};
    cx_ip := "192.0.2.1"; cx_user_agent := ""; cx_caller := None; cx_tenant_by_slug := cx_tenant_by_slug cx;
    cx_backchannel := cx_backchannel cx; cx_logout_jti := cx_logout_jti cx |};
  sx_realm_by_code _ code := if bool_decide (code = "internal"%string) then Some realm else None;
  sx_realm_by_id _ := Some realm;
  sx_login_identity _ _ name := if bool_decide (name = "alice"%string) then Some alice else None;
  sx_identity _ _ := Some alice;
  sx_dummy := ToyKdf.hash; sx_salt := Some "sixteen-byte-sal"%string; sx_jti := None; sx_nonce := ""; sx_device_nonce := None;
  sx_totp_secret := None; sx_seal_nonce := ""; sx_recovery _ := None
|}.

Definition cenv (at_ : Time) : CEnv := {| ce_fails _ := false; ce_now := at_; ce_cred_id _ := "c9" |}.

Definition row : CredRow := {|
  cr_ID := "c1"; cr_IdentityID := "I"; cr_TenantID := "T"; cr_Kind := "password"; cr_Secret := Some ToyKdf.imported; cr_SecretKid := None;
  cr_LookupKey := None; cr_LastStep := None; cr_SignCounter := 0; cr_CreatedAt := 0; cr_ExpiresAt := Some (now + 60 * second)%Z;
  cr_RevokedAt := None
|}.
Definition store : SStore := {|
  ss_auth := AuthTheorems.Sample.store; ss_tab := {| tb_creds := [row]; tb_onetime := [] |}; ss_work := []
|}.
Definition input (user pw : string) : LoginInput := {|
  in_Tenant := "acme"; in_Realm := ""; in_Username := user; in_Password := pw; in_ClientID := ""; in_DeviceFP := ""
|}.

Definition outcome (r : result Error Decision * SStore) : option Step := match fst r with Ok d => Some (d_Step d) | Err _ => None end.

(** A person without a second factor gets in; nobody else does. *)
Example alice_signs_in : outcome (Authenticate (cenv now) (sctx now) (input "alice" "allmine") "api" store) = Some StepAllow.
Proof. vm_compute. reflexivity. Qed.
Example alice_mistypes : outcome (Authenticate (cenv now) (sctx now) (input "alice" "x") "api" store) = Some StepDeny.
Proof. vm_compute. reflexivity. Qed.

Lemma hashes : hashes_current (cenv now) (ss_tab store).
Proof.
  intros who r h Hr Hs _. unfold password_row in Hr. simpl in Hr. destruct (holds who "password" row); [|done]. injection Hr as <-.
  injection Hs as <-. vm_compute. reflexivity.
Qed.

Lemma refusals_cost_the_same_witness :
  ss_work (snd (Authenticate (cenv now) (sctx now) (input "alice" "x") "api" store)) = [Kdf.DefaultIterations] /\
  ss_work (snd (Authenticate (cenv now) (sctx now) (input "bob" "x") "api" store)) = [Kdf.DefaultIterations].
Proof.
  assert (Hd : SecretsProps.dummy_ok ToyKdf.hash) by (eexists _, _; vm_compute; reflexivity).
  split.
  - destruct (Authenticate (cenv now) (sctx now) (input "alice" "x") "api" store) as [[d|] s'] eqn:E; [|vm_compute in E; discriminate E].
    refine (proj1 (refusals_cost_the_same (cenv now) (sctx now) (input "alice" "x") "api" store d s' Hd hashes E _)).
    apply (f_equal fst) in E. vm_compute in E. injection E as <-. reflexivity.
  - destruct (Authenticate (cenv now) (sctx now) (input "bob" "x") "api" store) as [[d|] s'] eqn:E; [|vm_compute in E; discriminate E].
    refine (proj1 (refusals_cost_the_same (cenv now) (sctx now) (input "bob" "x") "api" store d s' Hd hashes E _)).
    apply (f_equal fst) in E. vm_compute in E. injection E as <-. reflexivity.
Defined.

Definition tenant : TenantRef := {| tn_ID := "T"; tn_Slug := "acme"; tn_Status := "active" |}.

Lemma alice_ff : first_factor (cenv now) (sctx now) (with_realm (input "alice" "allmine")) (ss_tab store) tenant realm alice (credential_of row).
Proof. split; [vm_compute; reflexivity|vm_compute; reflexivity|exists true; vm_compute; reflexivity|vm_compute; reflexivity|vm_compute; reflexivity]. Qed.

Lemma imported_hash_stays_witness :
  exists d, fst (Authenticate (cenv (now + 60 * second)) (sctx (now + 60 * second)) (input "alice" "allmine") "api"
                   (snd (Authenticate (cenv now) (sctx now) (input "alice" "allmine") "api" store))) = Ok d /\ d_Step d = StepDeny.
Proof.
  destruct (imported_hash_stays (cenv now) (sctx now) (input "alice" "allmine") "api" store tenant realm alice (credential_of row)
    (now + 60 * second) alice_ff eq_refl) as [Ht Hlater].
  apply (Hlater (cenv (now + 60 * second)) (sctx (now + 60 * second)) (input "alice" "allmine") "api" (Some tenant) (Some realm) alice
    (Some (credential_of row))); [rewrite Ht; vm_compute; reflexivity|reflexivity|vm_compute; discriminate].
Defined.

End Sample.
End SigninProps.
