(* ===== verification/SecondFactor.v ===== *)
(** internal/auth/app: the second factor and its enrolment.  Completing a login
    with a one-time code (mfa/verify_mfa_interactor.go), signing in with a device
    key (device/device_interactor.go), and enrolling either
    (enroll/enrollment_interactor.go, session_binding.go). *)

From Stdlib Require Import ZArith Lia Bool Ascii String.
From stdpp Require Import base gmap strings list.
From S2P Require Import Prelude.
From S2P Require Import GoStrings.
From S2P Require Import Base64.
From S2P Require Import GoConv.
From S2P Require Import Secrets.
From S2P Require Import Tokens.
From S2P Require Import Keyring.
From S2P Require Import LocalTokens.
From S2P Require Import Shared.
From S2P Require Import AuthStore.
From S2P Require Import TokenIssuer.
From S2P Require Import AuthFlows.
From S2P Require Import Credentials.
From S2P Require Import Authorize.
From S2P Require Import Signin.

Module SecondFactor.
Import Apperr AuthStore Issuer AuthFlows IdentityDomain CredStore Signin.

Section SecondFactor.
Context `{P : TokenPrims} `{IP : IssuerPrims} `{K : KdfPrims} `{A : AeadPrims} `{J : LocalToken.EnvelopeJson} `{SP : SigninPrims}.
Context (env : DbEnv) (cenv : CEnv) (sx : Sctx).

Abbreviation M := (Eff SStore Error).
Abbreviation cx := (sx_flow sx).
Abbreviation now := (p_now (cx_ports (sx_flow sx))).
Abbreviation ring := (p_ring (cx_ports (sx_flow sx))).

(** A handler's own transaction over all the tables. *)
Definition InTx {X} (m : M X) : M X :=
  if db_fails env OpBegin then raise DbErr else within_tx (if db_fails env OpCommit then Some DbErr else None) m.

(** Whatever went wrong, the caller hears one error. *)
Definition or_else {E X} (e : Error) (m : Eff SStore E X) : M X := map_err (fun _ => e) m.

Definition some_or {X} (e : Error) (o : option X) : result Error X := match o with Some x => Ok x | None => Err e end.

(** Opens a sealed state token of one purpose: (jti, payload). *)
Definition open_sealed (e : Error) (purpose token : string) : result Error (string * string) :=
  match LocalToken.Kid token with
  | Err _ => Err e
  | Ok kid =>
      match Keys.Lookup ring kid with
      | Err _ => Err e
      | Ok key => if bool_decide (Keys.Secret key = ""%string) then Err e
                  else match LocalToken.Open (Keys.Secret key) token purpose now with
                       | Err _ => Err e
                       | Ok r => Ok r
                       end
      end
  end.

(** ** verify_mfa_interactor.go *)

(** The state is read after the single use is spent. *)
Definition openState (token : string) : M MFAState :=
  r ← lift (open_sealed ErrMfaInvalid "mfa" token);
  _ ← or_else ErrMfaInvalid (on_tab (ConsumeOneTime cenv "mfa" (Hash (fst r))));
  lift (some_or ErrMfaInvalid (json_parse_state (snd r))).

Definition mfa_event (st : MFAState) (res : string) : AuditEvent :=
  {| au_TenantID := ms_TenantID st; au_ActorID := ms_IdentityID st; au_ActorKind := "identity"; au_TargetID := "";
     au_SessionID := ""; au_Action := "auth.mfa"; au_Result := res; au_IP := ms_IP st; au_Detail := <["method" := "totp"]> ∅ |}.

(** The shared secret of a credential; an enrolment without a key id gets the
    one that opened it. *)
Definition shared_secret (cred : Credential) : M string :=
  sealed ← lift (some_or (Wrap ErrInternal "base64") (StdBase64.decode (c_Secret cred)));
  opened ← lift (match Keys.OpenNamedSecret ring (c_SecretKid cred) ("totp:" ++ c_ID cred) sealed with
                 | Ok r => Ok r | Err _ => Err (Wrap ErrInternal "unseal") end);
  _ ← (if bool_decide (c_SecretKid cred = ""%string)
       then map_err internal (on_tab (UpdateCredentialSecret cenv (c_ID cred) (c_Secret cred) (snd opened)))
       else mret tt);
  mret (fst opened).

(** The step of the code, recorded by this call and no other. *)
Definition accept_code (cred : Credential) (secret code : string) : M bool :=
  match Totp.Verify hmac_sha1 secret code now Totp.DefaultStep (Z.to_nat Totp.DefaultDigits) 1 with
  | None => mret false
  | Some step => map_err internal (on_tab (AdvanceCredentialStep cenv (c_ID cred) step))
  end.

Definition VerifyMfa (inp : VerifyMfaInput) : M TokenPair :=
  st ← openState (vm_MFAToken inp);
  if negb (bool_decide (vm_Method inp = "totp"%string)) then raise ErrMfaInvalid
  else
    cred ← or_else ErrMfaInvalid (on_tab (ActiveCredentialOfKind cenv (ms_IdentityID st) "totp"));
    secret ← shared_secret cred;
    fresh ← accept_code cred secret (vm_Code inp);
    if negb (fresh : bool) then
      _ ← on_auth (Emit (mfa_event st "deny")); raise ErrMfaInvalid
    else
      tenant ← lift (need "tenant" (p_tenant (cx_ports cx) (ms_TenantID st)));
      ident ← lift (some_or ErrMfaInvalid (sx_identity sx (ms_TenantID st) (ms_IdentityID st)));
      _ ← lift (CanAuthenticate ident);
      realm ← lift (some_or ErrMfaInvalid (sx_realm_by_id sx (ms_RealmID st)));
      issued ← on_auth (Establish env cx tenant (r_Lifetimes realm) (i_ID ident) (ms_ClientID st) (ms_DeviceFP st) [AMRPassword; AMROTP]);
      _ ← on_auth (Emit (mfa_event st "allow"));
      mret issued.

(** ** device_interactor.go *)

Definition deviceNonceTTL : Duration := (60 * second)%Z.

(** The nonce, as text. *)
Definition DeviceChallenge (inp : DeviceChallengeInput) : M (string * Z) :=
  tenant ← lift (some_or ErrDeviceChallenge (cx_tenant_by_slug cx (dc_Tenant inp)));
  nonce ← lift (need "random" (secret_New (sx_device_nonce sx)));
  _ ← map_err internal (on_tab (CreateOneTime cenv (tn_ID tenant) "device_challenge" (Hash nonce)
                                  (json_device (dc_DeviceID inp) (dc_Realm inp)) (now + deviceNonceTTL)%Z));
  mret (nonce, 60%Z).

(** [deviceInteractor.credential] *)
Definition device_credential (id : string) : M Credential :=
  owner ← or_else ErrDeviceChallenge (on_tab (CredentialOwner cenv id));
  let '(identityID, _, kind) := owner in
  if negb (bool_decide (kind = "device_key"%string)) then raise ErrDeviceChallenge
  else
    c ← or_else ErrDeviceChallenge (on_tab (ActiveCredentialOfKind cenv identityID "device_key"));
    if negb (bool_decide (c_ID c = id)) then raise ErrDeviceChallenge else mret c.

Definition orDefault (v d : string) : string := if bool_decide (v = ""%string) then d else v.

Definition device_event (tenantID actor res : string) (detail : gmap string string) : AuditEvent :=
  {| au_TenantID := tenantID; au_ActorID := actor; au_ActorKind := "identity"; au_TargetID := ""; au_SessionID := "";
     au_Action := "auth.device"; au_Result := res; au_IP := ""; au_Detail := detail |}.

(** A 32-byte key in base64url. *)
Definition public_key (text : string) : option string :=
  raw ← Base64.decode false text; if (String.length raw =? 32)%nat then Some raw else None.

Definition DeviceVerify (inp : DeviceVerifyInput) : M TokenPair :=
  tenant ← lift (some_or ErrDeviceChallenge (cx_tenant_by_slug cx (dv_Tenant inp)));
  spent ← or_else ErrDeviceChallenge (on_tab (ConsumeOneTime cenv "device_challenge" (Hash (dv_Nonce inp))));
  st ← lift (some_or ErrDeviceChallenge (json_parse_device (snd spent)));
  if negb (bool_decide (fst st = dv_KeyID inp)) then raise ErrDeviceChallenge
  else
    c ← or_else ErrDeviceChallenge (device_credential (dv_KeyID inp));
    pub ← lift (some_or ErrDeviceChallenge (public_key (c_Secret c)));
    if negb (match Base64.decode false (dv_Signature inp) with
             | Some sig => device_verify pub (dv_Nonce inp) sig
             | None => false
             end)
    then _ ← on_auth (Emit (device_event (tn_ID tenant) "" "deny" (<["reason" := "bad_signature"]> ∅))); raise ErrDeviceChallenge
    else
      ident ← lift (some_or ErrDeviceChallenge (sx_identity sx (tn_ID tenant) (c_IdentityID c)));
      _ ← lift (CanAuthenticate ident);
      realm ← lift (some_or ErrDeviceChallenge (sx_realm_by_code sx (tn_ID tenant) (orDefault (snd st) (i_RealmCode ident))));
      if negb (AllowsFactor realm "device_key") then raise ErrDeviceChallenge
      else
        _ ← on_tab (TouchCredentialUsed (c_ID c) (wrap64 (c_SignCounter c + 1)));
        issued ← on_auth (Establish env cx tenant (r_Lifetimes realm) (i_ID ident) (dv_ClientID inp) (dv_DeviceFP inp) [AMRDevice]);
        _ ← on_auth (Emit (device_event (tn_ID tenant) (i_ID ident) "allow" ∅));
        mret issued.

(** ** enrollment_interactor.go, session_binding.go *)

Definition enrollTTL : Duration := (10 * minute)%Z.
Definition recoveryCodeCount : nat := 10.
Definition maxDeviceKeys : nat := 10.
Definition bindingWindow : Duration := (10 * minute)%Z.

Definition mayBindAuthenticator (p : Authctx.Principal) : result Error unit :=
  if negb (Authctx.FirstParty p) then
    Err (With (With ErrPermissionDenied "audience" (String.concat "," (Authctx.Audience p))) "hint"
          "authenticators are enrolled with a token Anubis issued for itself, not one issued to an application")
  else if (bindingWindow <? time_sub now (Authctx.AuthTime p))%Z then
    Err (With (With ErrStepUpRequired "max_auth_age" (DurationText.String_ bindingWindow)) "hint" "sign in again, then enrol")
  else Ok tt.

(** Who is enrolling: (tenant, identity, session). *)
Definition enrol_caller (grantToken : string) : M (string * string * string) :=
  if bool_decide (grantToken = ""%string) then
    match cx_caller cx with
    | None => raise ErrUnauthenticated
    | Some p => if Authctx.Service p then raise ErrUnauthenticated
                else _ ← lift (mayBindAuthenticator p);
                     mret (Authctx.TenantID p, Authctx.IdentityID p, Authctx.SessionID p)
    end
  else
    r ← lift (open_sealed ErrUnauthenticated "enrol_grant" grantToken);
    grant ← lift (some_or ErrUnauthenticated (json_parse_grant (snd r)));
    kinds ← map_err internal (on_tab (ActiveCredentialKinds cenv (eg_IdentityID grant)));
    if contains kinds "totp" then raise ErrConflict
    else mret (eg_TenantID grant, eg_IdentityID grant, ""%string).

(** base32Secret: five bits at a time, most significant first. *)
Definition base32_char (d : Z) : ascii := if (d <? 26)%Z then chr (65 + d) else chr (24 + d).
Fixpoint emit_quintets (fuel : nat) (buf bits : Z) : string * Z :=
  match fuel with
  | O => (EmptyString, bits)
  | S f => if (bits <? 5)%Z then (EmptyString, bits)
           else let '(s, b) := emit_quintets f buf (bits - 5) in
                (String (base32_char (Z.land (Z.shiftr buf (bits - 5)) 31)) s, b)
  end.
(** [buf] is a 64-bit accumulator; at most two digits are due after a byte. *)
Fixpoint base32_from (b : string) (buf bits : Z) : string :=
  match b with
  | EmptyString => if (0 <? bits)%Z then String (base32_char (Z.land (Z.shiftl buf (5 - bits)) 31)) EmptyString else EmptyString
  | String c r =>
      let buf := Z.lor (Z.shiftl buf 8 mod 2 ^ 64) (code c) in
      let '(s, due) := emit_quintets 2 buf (bits + 8) in
      (s ++ base32_from r buf due)%string
  end.
Definition base32Secret (b : string) : string := base32_from b 0 0.

Record TOTPEnrollment := { te_Secret : string; te_EnrollmentToken : string; te_ExpiresIn : Z }.

(** The provisioning URI is left out. *)
Definition BeginTOTP (grantToken : string) : M TOTPEnrollment :=
  who ← enrol_caller grantToken;
  let '(tenantID, identityID, _) := who in
  ident ← lift (some_or ErrNotFound (sx_identity sx tenantID identityID));
  sharedSecret ← lift (need "random" (sx_totp_secret sx));
  sealed ← seal_state sx "totp_enroll" (json_enrol {| es_IdentityID := identityID; es_TenantID := tenantID;
      es_Secret := sharedSecret; es_Issuer := "Anubis"; es_Account := i_Username ident |}) enrollTTL;
  _ ← map_err internal (on_tab (CreateOneTime cenv tenantID "mfa" (Hash (fst sealed)) "totp_enroll" (now + enrollTTL)%Z));
  mret {| te_Secret := base32Secret sharedSecret; te_EnrollmentToken := snd sealed; te_ExpiresIn := 600 |}.

(** The recovery codes, from the [n]-th on. *)
Fixpoint recovery_codes (tenantID identityID : string) (todo n : nat) : M (list string) :=
  match todo with
  | O => mret []
  | S todo =>
      plain ← lift (need "random" (secret_New (sx_recovery sx n)));
      _ ← on_tab (CreateCredential cenv (S n) {| ci_IdentityID := identityID; ci_TenantID := tenantID; ci_Kind := "recovery_code";
                    ci_Secret := Secret.Hex (Hash plain); ci_LookupKey := ""; ci_LastStep := None; ci_ExpiresAt := None |});
      rest ← recovery_codes tenantID identityID todo (S n);
      mret (plain :: rest)
  end.

Definition enrolled_event (tenantID identityID sessionID target action : string) (detail : gmap string string) : AuditEvent :=
  {| au_TenantID := tenantID; au_ActorID := identityID; au_ActorKind := "identity"; au_TargetID := target; au_SessionID := sessionID;
     au_Action := action; au_Result := "allow"; au_IP := cx_ip cx; au_Detail := detail |}.

(** The credential's id and the recovery codes. *)
Definition ConfirmTOTP (enrollmentToken code grantToken : string) : M (string * list string) :=
  who ← enrol_caller grantToken;
  let '(tenantID, identityID, sessionID) := who in
  r ← lift (open_sealed ErrMfaInvalid "totp_enroll" enrollmentToken);
  st ← lift (some_or ErrMfaInvalid (json_parse_enrol (snd r)));
  if negb (bool_decide (es_IdentityID st = identityID)) || negb (bool_decide (es_TenantID st = tenantID)) then raise ErrMfaInvalid
  else
    _ ← or_else ErrMfaInvalid (on_tab (ConsumeOneTime cenv "mfa" (Hash (fst r))));
    match Totp.Verify hmac_sha1 (es_Secret st) code now Totp.DefaultStep (Z.to_nat Totp.DefaultDigits) 1 with
    | None => raise ErrMfaInvalid
    | Some step =>
        master ← lift (match Keys.ActiveLocal ring with Ok k => Ok k | Err _ => Err (Wrap ErrInternal "active key") end);
        done ← InTx (
          _ ← on_tab (RevokeCredentialsOfKind cenv identityID "totp");
          credID ← on_tab (CreateCredential cenv 0 {| ci_IdentityID := identityID; ci_TenantID := tenantID; ci_Kind := "totp";
                             ci_Secret := ""; ci_LookupKey := ""; ci_LastStep := Some step; ci_ExpiresAt := None |});
          sealed ← lift (match Keys.SealSecret (sx_seal_nonce sx) (Keys.Secret master) ("totp:" ++ credID) (es_Secret st) with
                         | Ok s => Ok s | Err _ => Err (Wrap ErrInternal "seal") end);
          _ ← on_tab (UpdateCredentialSecret cenv credID (StdBase64.encode sealed) (Keys.Kid master));
          _ ← on_tab (RevokeCredentialsOfKind cenv identityID "recovery_code");
          codes ← recovery_codes tenantID identityID recoveryCodeCount 0;
          mret (credID, codes));
        _ ← on_auth (Emit (enrolled_event tenantID identityID sessionID "" "credential.totp_enrolled" ∅));
        mret done
    end.

Definition EnrollDeviceKey (publicKey label : string) : M string :=
  who ← enrol_caller "";
  let '(tenantID, identityID, sessionID) := who in
  match public_key publicKey with
  | None => raise (With ErrInvalidArgument "public_key" "expected base64url Ed25519 public key")
  | Some _ =>
      existing ← on_tab (ListCredentials cenv tenantID identityID "device_key");
      if (maxDeviceKeys <=? length (List.filter (fun r => bool_decide (r = None)) existing))%nat
      then raise (With ErrInvalidArgument "device_keys" "limit reached; revoke one first")
      else
        credID ← on_tab (CreateCredential cenv 0 {| ci_IdentityID := identityID; ci_TenantID := tenantID; ci_Kind := "device_key";
                           ci_Secret := publicKey; ci_LookupKey := ""; ci_LastStep := None; ci_ExpiresAt := None |});
        _ ← on_auth (Emit (enrolled_event tenantID identityID sessionID credID "credential.device_key_enrolled" (<["label" := label]> ∅)));
        mret credID
  end.

End SecondFactor.
End SecondFactor.
