(* ===== verification/PlatformAuth.v ===== *)
(** internal/control/app: signing operators in.  The guard of the control plane
    (platform_guard.go) and the door of the console (platform_auth_interactor.go):
    password, second factor, refresh, sign-out, password change, enrolment and
    the tenant picker. *)

From Stdlib Require Import ZArith Lia Bool Ascii String.
From stdpp Require Import base gmap strings list sorting.
From S2P Require Import Prelude.
From S2P Require Import GoStrings.
From S2P Require Import GoConv.
From S2P Require Import Secrets.
From S2P Require Import Tokens.
From S2P Require Import Keyring.
From S2P Require Import LocalTokens.
From S2P Require Import Sdk.
From S2P Require Import Shared.
From S2P Require Import AuthStore.
From S2P Require Import TokenIssuer.
From S2P Require Import AuditLog.
From S2P Require Import AdminGuard.
From S2P Require Import ControlStore.
From S2P Require Import SecondFactor.

Module PlatformAuth.
Import Apperr Authctx AuthStore Issuer Operator ControlStore.

(** ** Data *)

(** TenantRef, as ListTenants answers it. *)
Record Tenant := { tt_ID : string; tt_Slug : string; tt_Name : string; tt_ParentID : string }.

(** What a handler reads besides the store.  [cc_clock i] is the i-th reading of
    the clock, [cc_wall] the reading ActiveAccess makes of its own, [cc_rand i]
    what the i-th read of crypto/rand returns. *)
Record CCtx := {
  cc_caller : option Principal; cc_ip : string; cc_issuer : string; cc_ring : Keys.Ring; cc_master : string;
  cc_clock : nat -> Time; cc_wall : Time; cc_dummy : string; cc_salt : option string; cc_rand : nat -> option string;
  cc_nonce : string;
  cc_tenant_by_slug : string -> option Tenant;
  cc_tenants : option (list Tenant)
}.

(** encoding/json on a challenge's state, and HMAC-SHA1. *)
Class ConsolePrims := {
  json_mfa : string -> option string;
  json_parse_mfa : string -> option string;
  console_hmac : string -> string -> string
}.

Record TenantChoice := {
  tc_Slug : string; tc_Name : string; tc_Role : string; tc_All : bool; tc_ID : string; tc_ParentID : string; tc_Inherited : bool
}.

Record PlatformSession := {
  ps_AccessToken : string; ps_RefreshToken : string; ps_ExpiresIn : Z; ps_Username : string; ps_Owner : bool; ps_MFAToken : string
}.

Definition PlatformAudience : string := "anubis-platform".
Definition platformTokenTTL : Duration := (60 * minute)%Z.
Definition mfaChallengeTTL : Duration := (3 * minute)%Z.
Definition platformRefreshFamilyTTL : Duration := (12 * 60 * minute)%Z.
Definition MinOwnerPassword : nat := 12.
Definition purposePlatformMFA : string := "platform_mfa".

Definition Emit (ev : AuditEvent) : Eff CStore Error unit :=
  fun s => (Ok tt, {| cs_users := cs_users s; cs_assign := cs_assign s; cs_refresh := cs_refresh s; cs_keys := cs_keys s;
                      cs_audit := cs_audit s ++ [ev]; cs_work := cs_work s |}).

Definition on_work {E X} (m : Eff (list Z) E X) : Eff CStore E X :=
  fun s => let '(r, w) := m (cs_work s) in
    (r, {| cs_users := cs_users s; cs_assign := cs_assign s; cs_refresh := cs_refresh s; cs_keys := cs_keys s;
           cs_audit := cs_audit s; cs_work := w |}).

Section Console.
Context `{P : TokenPrims} `{IP : IssuerPrims} `{K : KdfPrims} `{A : AeadPrims} `{J : LocalToken.EnvelopeJson} `{CP : ConsolePrims}.
Context (env : CtlEnv) (cc : CCtx).

Abbreviation M := (Eff CStore Error).

(** kdf.Hash *)
Definition hash_password (password : string) : M string :=
  salt ← lift (need "random" (cc_salt cc));
  map_err (fun _ => Wrap ErrInternal "kdf") (on_work (Kdf.Hash salt password)).

(** secret.New *)
Definition fresh_secret (i : nat) : M string := lift (need "random" (secret_New (cc_rand cc i))).

(** ** platform_guard.go *)

Definition stillValid (p : Principal) : M unit :=
  who ← attempt (PlatformUserByID env (IdentityID p));
  match who with
  | Ok (Some (u, _)) =>
      if negb (Active u) then raise ErrUnauthenticated
      else if negb (Epoch p =? u_TokenEpoch u)%Z then raise ErrUnauthenticated
      else mret tt
  | _ => raise ErrUnauthenticated
  end.

(** The loop over the assignments. *)
Definition mine_of (who : string) (now : Time) (all : list AssignmentRecord) : list AssignmentRecord :=
  List.filter (fun a => bool_decide (a_OperatorID a = who) && Live a now) all.

Definition require (permission : string) : M (Principal * list AssignmentRecord) :=
  match cc_caller cc with
  | None => raise ErrUnauthenticated
  | Some p =>
      if negb (Platform p) then raise (With ErrPermissionDenied "permission" permission)
      else
        _ ← stillValid p;
        all ← Assignments env;
        let mine := mine_of (IdentityID p) (cc_clock cc 0) all in
        if bool_decide (mine = []) then raise (With ErrPermissionDenied "permission" permission)
        else if negb (existsb (fun a => Allows (a_Role a) permission) mine) then raise (With ErrPermissionDenied "permission" permission)
        else mret (p, mine)
  end.

Definition requireAny : M Principal :=
  match cc_caller cc with
  | None => raise ErrUnauthenticated
  | Some p =>
      if negb (Platform p) then raise ErrPermissionDenied
      else
        all ← Assignments env;
        if existsb (fun a => bool_decide (a_OperatorID a = IdentityID p) && Live a (cc_clock cc 0)) all then mret p
        else raise ErrPermissionDenied
  end.

(** ** platform_auth_interactor.go *)

Definition platform_event (actor target action res : string) (detail : gmap string string) : AuditEvent :=
  {| au_TenantID := Audit.InstallationTenant; au_ActorID := actor; au_ActorKind := "platform_user"; au_TargetID := target;
     au_SessionID := ""; au_Action := action; au_Result := res; au_IP := cc_ip cc; au_Detail := detail |}.

Definition deny (username reason : string) : M unit :=
  Emit (platform_event "" "" "platform.login" "deny" (<["username" := username]> (<["reason" := reason]> ∅))).

Definition signClaims (claims : Claims.Claims) : M string :=
  body ← lift (need "json" (json_of_claims claims));
  key ← lift (match Keys.ActiveAccessAt (cc_ring cc) (cc_wall cc) with Ok k => Ok k | Err _ => Err (Wrap ErrInternal "key") end);
  lift (match Paseto.Sign (default ""%string (Keys.Private key)) body (json_footer (Keys.Kid key)) "" with
        | Ok t => Ok t | Err _ => Err (Wrap ErrInternal "sign") end).

(** The claims of a platform token: no tenant. *)
Definition platform_claims (subject : string) (roles : list string) (epoch : Z) (now : Time) : Claims.Claims :=
  {| Claims.Issuer := cc_issuer cc; Claims.Subject := subject; Claims.Audience := [PlatformAudience];
     Claims.Expires := unix (now + platformTokenTTL)%Z; Claims.IssuedAt := unix now; Claims.NotBefore := unix now;
     Claims.TokenID := ""; Claims.Session := ""; Claims.Tenant := ""; Claims.Roles := roles; Claims.Scope := "";
     Claims.Scopes := ∅; Claims.Realm := ""; Claims.IAL := 0; Claims.AMR := []; Claims.AuthTime := 0; Claims.Epoch := epoch;
     Claims.Version := 1 |}.

Definition mint (subject : string) (roles : list string) (epoch : Z) (now : Time) : M string :=
  signClaims (platform_claims subject roles epoch now).

Definition session (who : PlatformUser) (token rt : string) (now : Time) : PlatformSession :=
  {| ps_AccessToken := token; ps_RefreshToken := rt; ps_ExpiresIn := 3600; ps_Username := u_Username who;
     ps_Owner := Owner who now; ps_MFAToken := "" |}.

Definition beginSession (who : PlatformUser) (roles : list string) (now : Time) : M PlatformSession :=
  token ← mint (u_ID who) roles (u_TokenEpoch who) now;
  rt ← fresh_secret 0;
  _ ← CreateRefreshFamily env (u_ID who) (Hash rt) (now + platformRefreshFamilyTTL)%Z;
  mret (session who token rt now).

Definition challenge (operatorID : string) (now : Time) : M string :=
  key ← lift (match Keys.ActiveLocal (cc_ring cc) with Ok k => Ok k | Err _ => Err (Wrap ErrInternal "key") end);
  jti ← fresh_secret 0;
  lift (match LocalToken.Seal (Keys.Secret key) (Keys.Kid key) purposePlatformMFA jti (json_mfa operatorID) mfaChallengeTTL now (cc_nonce cc) with
        | Ok t => Ok t | Err _ => Err (Wrap ErrInternal "seal") end).

(** "" when hashing fails. *)
Definition mustRehash (password : string) : M string :=
  h ← attempt (hash_password password); mret match h with Ok h => h | Err _ => ""%string end.

Definition with_owner_assignments (who : PlatformUser) (mine : list AssignmentRecord) : PlatformUser :=
  {| u_ID := u_ID who; u_Username := u_Username who; u_Email := u_Email who; u_Status := u_Status who; u_TokenEpoch := u_TokenEpoch who;
     u_CreatedAt := u_CreatedAt who; u_LastLoginAt := u_LastLoginAt who; u_DisabledAt := u_DisabledAt who;
     u_Assignments := u_Assignments who ++ List.filter (fun a => Global a && bool_decide (a_Role a = RoleOwner)) mine;
     u_TOTPEnrolledAt := u_TOTPEnrolledAt who; u_TOTPLastStep := u_TOTPLastStep who |}.

Definition Login (username0 password : string) : M PlatformSession :=
  let username := TrimSpace username0 in
  found ← PlatformUserByUsername env username;
  let hash := match found with Some (_, h) => h | None => ""%string end in
  verdict ← attempt (on_work (Kdf.Verify (cc_dummy cc) password hash));
  let '(ok, needsRehash) := match verdict with Ok r => r | Err _ => (false, false) end in
  match found with
  | None => _ ← deny username "invalid_credentials"; raise ErrInvalidCredentials
  | Some (who, _) =>
      if negb ok then _ ← deny username "invalid_credentials"; raise ErrInvalidCredentials
      else if negb (Active who) then _ ← deny username "disabled"; raise ErrIdentityDisabled
      else
        _ ← (if (needsRehash : bool) then
               new ← mustRehash password;
               _ ← attempt (F := Error) (RehashPassword env (u_ID who) hash new); mret tt
             else mret tt);
        all ← Assignments env;
        let now := cc_clock cc 0 in
        let mine := mine_of (u_ID who) now all in
        let who := with_owner_assignments who mine in
        if bool_decide (mine = []) then
          _ ← deny username "no_assignment"; raise (With ErrPermissionDenied "operator" "no live assignment")
        else if MFAEnrolled who then
          token ← challenge (u_ID who) now;
          mret {| ps_AccessToken := ""; ps_RefreshToken := ""; ps_ExpiresIn := 0; ps_Username := u_Username who; ps_Owner := false;
                  ps_MFAToken := token |}
        else
          sess ← beginSession who (map a_Role mine) now;
          _ ← TouchLogin env (u_ID who);
          _ ← Emit (platform_event (u_ID who) (u_ID who) "platform.login" "allow" ∅);
          mret sess
  end.

(** Whatever was wrong, one answer. *)
Definition or_refused {E X} (m : Eff CStore E X) : M X := map_err (fun _ => ErrInvalidCredentials) m.
Definition require_some {X} (e : Error) (o : option X) : result Error X := match o with Some x => Ok x | None => Err e end.

Definition liveRoles (operatorID : string) (now : Time) : M (list string * bool) :=
  all ← Assignments env;
  let roles := map a_Role (mine_of operatorID now all) in
  mret (roles, negb (bool_decide (roles = []))).

Definition no_assignment : Error := With ErrPermissionDenied "operator" "no live assignment".

(** The sealed state of a challenge. *)
Definition open_challenge (token : string) : M string :=
  key ← lift (match Keys.ActiveLocal (cc_ring cc) with Ok k => Ok k | Err _ => Err (Wrap ErrInternal "key") end);
  r ← or_refused (lift (LocalToken.Open (Keys.Secret key) token purposePlatformMFA (cc_clock cc 0)));
  oid ← lift (require_some ErrInvalidCredentials (json_parse_mfa (snd r)));
  if bool_decide (oid = ""%string) then raise ErrInvalidCredentials else mret oid.

(** Digits 6, step 30 s, one step of skew either way. *)
Definition check_code (sec code : string) (now : Time) : option Z :=
  Totp.Verify console_hmac sec code now Totp.DefaultStep (Z.to_nat Totp.DefaultDigits) 1.

Definition VerifyMFA (mfaToken code : string) : M PlatformSession :=
  oid ← open_challenge mfaToken;
  found ← or_refused (PlatformUserByID env oid);
  match found with
  | None => raise ErrInvalidCredentials
  | Some (who, _) =>
      if negb (Active who) || negb (MFAEnrolled who) then raise ErrInvalidCredentials
      else
        sec ← or_refused (TOTPSecret env (cc_master cc) (u_ID who));
        match sec with
        | None => raise ErrInvalidCredentials
        | Some sec =>
            if bool_decide (sec = ""%string) then raise ErrInvalidCredentials
            else
              let now := cc_clock cc 1 in
              match check_code sec code now with
              | None => _ ← deny (u_Username who) "bad_totp"; raise ErrInvalidCredentials
              | Some step =>
                  fresh ← AdvanceTOTPStep env (u_ID who) step;
                  if negb (fresh : bool) then _ ← deny (u_Username who) "totp_replay"; raise ErrInvalidCredentials
                  else
                    r ← liveRoles (u_ID who) now;
                    if negb (snd r) then raise no_assignment
                    else
                      sess ← beginSession who (fst r) now;
                      _ ← TouchLogin env (u_ID who);
                      _ ← Emit (platform_event (u_ID who) (u_ID who) "platform.login" "allow" (<["amr" := "totp"]> ∅));
                      mret sess
              end
        end
  end.

(** Kills the family and reports; the error to answer. *)
Definition refreshReuse (rec : PlatformRefresh) : M Error :=
  _ ← attempt (F := Error) (RevokeRefreshFamily env (pr_FamilyID rec));
  _ ← Emit (platform_event (pr_UserID rec) (pr_FamilyID rec) "token.reuse_detected" "deny" (<["plane" := "platform"]> ∅));
  mret ErrRefreshReuse.

Definition Refresh (refreshToken : string) : M PlatformSession :=
  if bool_decide (refreshToken = ""%string) then raise ErrRefreshInvalid
  else
    found ← RefreshByHash env (Hash refreshToken);
    let now := cc_clock cc 0 in
    match found with
    | None => raise ErrRefreshInvalid
    | Some rec =>
        if time_after now (pr_ExpiresAt rec) then raise ErrRefreshInvalid
        else if Spent rec then e ← refreshReuse rec; raise e
        else
          ok ← ConsumeRefresh env (pr_ID rec);
          if negb (ok : bool) then e ← refreshReuse rec; raise e
          else
            found ← PlatformUserByID env (pr_UserID rec);
            match found with
            | None => raise ErrIdentityDisabled
            | Some (who, _) =>
                if negb (Active who) then raise ErrIdentityDisabled
                else
                  r ← liveRoles (u_ID who) now;
                  if negb (snd r) then raise no_assignment
                  else
                    token ← mint (u_ID who) (fst r) (u_TokenEpoch who) now;
                    next ← fresh_secret 0;
                    _ ← AppendRefresh env (u_ID who) (pr_FamilyID rec) (Hash next) (pr_ExpiresAt rec);
                    mret (session who token next now)
            end
    end.

Definition Logout (refreshToken : string) : M unit :=
  if bool_decide (refreshToken = ""%string) then mret tt
  else
    found ← attempt (RefreshByHash env (Hash refreshToken));
    match found with
    | Ok (Some rec) =>
        _ ← attempt (F := Error) (RevokeRefreshFamily env (pr_FamilyID rec));
        Emit (platform_event (pr_UserID rec) (pr_FamilyID rec) "platform.logout" "allow" ∅)
    | _ => mret tt
    end.

Definition live : M (Principal * list AssignmentRecord) :=
  match cc_caller cc with
  | None => raise ErrUnauthenticated
  | Some p =>
      if negb (Platform p) then raise ErrUnauthenticated
      else
        _ ← stillValid p;
        all ← Assignments env;
        mret (p, mine_of (IdentityID p) (cc_clock cc 0) all)
  end.

(** The tenants reached: directly (the last assignment listed wins), or through
    a company above (the first wins). *)
Definition reach_direct (mine : list AssignmentRecord) : gmap string (string * bool) :=
  fold_left (fun m a => <[a_TenantID a := (a_Role a, false)]> m) mine ∅.
Definition reach_below (mine : list AssignmentRecord) (m : gmap string (string * bool)) : gmap string (string * bool) :=
  fold_left (fun m a => fold_left (fun m id => match m !! id with
                                               | Some _ => m
                                               | None => <[id := (a_Role a, true)]> m
                                               end) (a_Below a) m) mine m.

Definition choice (t : Tenant) (role : string) (all inherited : bool) : TenantChoice :=
  {| tc_Slug := tt_Slug t; tc_Name := tt_Name t; tc_Role := role; tc_All := all; tc_ID := tt_ID t; tc_ParentID := tt_ParentID t;
     tc_Inherited := inherited |}.

Definition MyTenants : M (list TenantChoice) :=
  r ← live;
  let mine := snd r in
  match find Global mine with
  | Some a =>
      all ← lift (need "tenants" (cc_tenants cc));
      mret (map (fun t => choice t (a_Role a) true false) all)
  | None =>
      let reached := reach_below mine (reach_direct mine) in
      if bool_decide (reached = ∅) then mret []
      else
        all ← lift (need "tenants" (cc_tenants cc));
        mret (omap (fun t => (fun rc => choice t (fst rc) false (snd rc)) <$> reached !! tt_ID t) all)
  end.

(** (base32 text, provisioning URI): the URI is left out. *)
Definition BeginTOTPEnrolment : M string :=
  match cc_caller cc with
  | None => raise ErrUnauthenticated
  | Some p =>
      if negb (Platform p) then raise ErrUnauthenticated
      else
        found ← map_err (fun _ => ErrNotFound) (PlatformUserByID env (IdentityID p));
        match found with
        | None => raise ErrNotFound
        | Some (who, _) =>
            sec ← lift (need "random" (cc_rand cc 0));
            _ ← StageTOTPSecret env (cc_nonce cc) (cc_master cc) (u_ID who) sec;
            mret (SecondFactor.base32Secret sec)
        end
  end.

Definition ConfirmTOTPEnrolment (code : string) : M unit :=
  match cc_caller cc with
  | None => raise ErrUnauthenticated
  | Some p =>
      if negb (Platform p) then raise ErrUnauthenticated
      else
        sec ← TOTPSecret env (cc_master cc) (IdentityID p);
        match sec with
        | None => raise (With ErrInvalidArgument "totp" "no enrolment in progress")
        | Some sec =>
            if bool_decide (sec = ""%string) then raise (With ErrInvalidArgument "totp" "no enrolment in progress")
            else match check_code sec code (cc_clock cc 0) with
                 | None => raise ErrInvalidCredentials
                 | Some step =>
                     _ ← ConfirmTOTP env (IdentityID p) step;
                     Emit (platform_event (IdentityID p) (IdentityID p) "platform.mfa_enrol" "allow" ∅)
                 end
        end
  end.

Definition ChangePassword (current next : string) : M unit :=
  r ← live;
  found ← map_err (fun _ => ErrUnauthenticated) (PlatformUserByID env (IdentityID (fst r)));
  match found with
  | None => raise ErrUnauthenticated
  | Some (who, hash) =>
      verdict ← attempt (on_work (Kdf.Verify (cc_dummy cc) current hash));
      if negb (match verdict with Ok (ok, _) => ok | Err _ => false end) then
        _ ← deny (u_Username who) "invalid_credentials"; raise ErrInvalidCredentials
      else if (Utf8.RuneCountInString next <? MinOwnerPassword)%nat then
        raise (With ErrInvalidArgument "new_password" ("at least " ++ Strconv.Itoa (Z.of_nat MinOwnerPassword) ++ " characters"))
      else if bool_decide (next = current) then raise (With ErrInvalidArgument "new_password" "must differ from the current one")
      else
        fresh ← hash_password next;
        _ ← SetPassword env (u_ID who) fresh;
        Emit (platform_event (u_ID who) (u_ID who) "platform.password_change" "allow" ∅)
  end.

End Console.
End PlatformAuth.
