(* ===== verification/OperatorAdmin.v ===== *)
(** internal/control/app: managing operators (operator_admin_interactor.go),
    their machine credentials (api_key_interactor.go) and the first owner
    (CreatePlatformOwner in provision.go). *)

From Stdlib Require Import ZArith Lia Bool Ascii String.
From stdpp Require Import base gmap strings list sorting.
From S2P Require Import Prelude.
From S2P Require Import GoStrings.
From S2P Require Import GoConv.
From S2P Require Import Secrets.
From S2P Require Import Tokens.
From S2P Require Import Shared.
From S2P Require Import AuthStore.
From S2P Require Import TokenIssuer.
From S2P Require Import AuditLog.
From S2P Require Import Credentials.
From S2P Require Import AdminGuard.
From S2P Require Import ControlStore.
From S2P Require Import PlatformAuth.

Module OperatorAdmin.
Import Apperr Authctx AuthStore Issuer Operator ControlStore PlatformAuth.

Record CreateOperatorInput := {
  co_Username : string; co_Email : string; co_Password : string; co_TenantSlug : string; co_Role : string; co_Reason : string
}.
Record AssignOperatorInput := {
  ao_OperatorID : string; ao_OperatorUsername : string; ao_TenantSlug : string; ao_Role : string; ao_Reason : string;
  ao_ValidUntil : option Time
}.
Record CreateAPIKeyInput := { ak_OwnerID : string; ak_Label : string; ak_ExpiresIn : Duration }.

(** The key as the caller is shown it. *)
Record PlatformAPIKey := {
  ky_ID : string; ky_PlatformUserID : string; ky_Username : string; ky_Label : string; ky_Lookup : string; ky_CreatedAt : Time;
  ky_ExpiresAt : Time
}.

Definition maxAPIKeyLife : Duration := (90 * 24 * 60 * minute)%Z.

Section Admin.
Context `{P : TokenPrims} `{IP : IssuerPrims} `{K : KdfPrims}.
Context (env : CtlEnv) (cc : CCtx).

Abbreviation M := (Eff CStore Error).

Definition InTx {X} (m : M X) : M X :=
  if ct_fails env OpBegin then raise DbErr else within_tx (if ct_fails env OpCommit then Some DbErr else None) m.

(** ** operator_admin_interactor.go *)

Definition emit (p : Principal) (action target : string) (detail : gmap string string) : M unit :=
  Emit {| au_TenantID := Audit.TenantOrInstallation (TenantID p); au_ActorID := IdentityID p; au_ActorKind := "platform_user";
          au_TargetID := target; au_SessionID := SessionID p; au_Action := action; au_Result := "allow"; au_IP := cc_ip cc;
          au_Detail := detail |}.

(** (tenant id, what the log calls it); no slug is every tenant. *)
Definition resolveTenant (slug0 : string) : result Error (string * string) :=
  let slug := TrimSpace slug0 in
  if bool_decide (slug = ""%string) then Ok (""%string, "*"%string)
  else match cc_tenant_by_slug cc slug with
       | None => Err (With ErrNotFound "tenant" slug)
       | Some t => Ok (tt_ID t, tt_Slug t)
       end.

(** The record CreateAssignment is given. *)
Definition new_assignment (operator tenant role by_ reason : string) (until : option Time) : AssignmentRecord :=
  {| a_ID := ""; a_OperatorID := operator; a_TenantID := tenant; a_TenantSlug := ""; a_Role := role; a_GrantedBy := by_;
     a_Reason := reason; a_ValidUntil := until; a_RevokedAt := None; a_CreatedAt := 0; a_Below := [] |}.

Definition username_rule : Error := With ErrInvalidArgument "username" "letters, digits, dot, dash or underscore".

Definition name_taken (username : string) : M bool :=
  found ← attempt (PlatformUserByUsername env username);
  mret match found with Ok (Some _) => true | _ => false end.

Definition CreateOperator (inp : CreateOperatorInput) : M (string * string) :=
  r ← require env cc PermAssignOperators;
  let p := fst r in
  if negb (Valid (co_Role inp)) then raise (With ErrInvalidArgument "role" (co_Role inp))
  else
    let username := TrimSpace (co_Username inp) in
    if negb (IdentityDomain.ValidUsername username) then raise username_rule
    else if (Utf8.RuneCountInString (co_Password inp) <? MinOwnerPassword)%nat
    then raise (With ErrInvalidArgument "password" "at least 12 characters")
    else
      taken ← name_taken username;
      if (taken : bool) then raise (With ErrInvalidArgument "username" "already taken")
      else
        t ← lift (resolveTenant (co_TenantSlug inp));
        ids ← InTx (
          hash ← hash_password cc (co_Password inp);
          id ← CreatePlatformUser env username (TrimSpace (co_Email inp)) hash;
          aid ← CreateAssignment env (new_assignment id (fst t) (co_Role inp) (IdentityID p) (co_Reason inp) None);
          mret (id, aid));
        _ ← emit p "platform.operator_create" (fst ids)
              (<["username" := username]> (<["tenant" := snd t]> (<["role" := co_Role inp]> ∅)));
        mret ids.

(** The id given, or the one the name has. *)
Definition operator_named (inp : AssignOperatorInput) : M string :=
  if negb (bool_decide (ao_OperatorID inp = ""%string)) then mret (ao_OperatorID inp)
  else
    found ← PlatformUserByUsername env (TrimSpace (ao_OperatorUsername inp));
    match found with
    | None => raise (With ErrInvalidArgument "operator" "no platform user by that name — create the account first")
    | Some (who, _) => mret (u_ID who)
    end.

Definition AssignOperator (inp : AssignOperatorInput) : M string :=
  r ← require env cc PermAssignOperators;
  let p := fst r in
  if negb (Valid (ao_Role inp)) then raise (With ErrInvalidArgument "role" (ao_Role inp))
  else
    operatorID ← operator_named inp;
    t ← lift (resolveTenant (ao_TenantSlug inp));
    id ← CreateAssignment env (new_assignment operatorID (fst t) (ao_Role inp) (IdentityID p) (ao_Reason inp) (ao_ValidUntil inp));
    _ ← emit p "platform.operator_assign" operatorID
          (<["assignment_id" := id]> (<["tenant" := snd t]> (<["role" := ao_Role inp]> ∅)));
    mret id.

(** The owners of the installation whose assignment is in force. *)
Definition is_owner (now : Time) (a : AssignmentRecord) : bool := Global a && bool_decide (a_Role a = RoleOwner) && Live a now.

Definition lastOwnerCheck (assignmentID : string) : M unit :=
  all ← Assignments env;
  let owners := List.filter (is_owner (cc_clock cc 1)) all in
  if existsb (fun a => bool_decide (a_ID a = assignmentID)) owners && (length owners <=? 1)%nat
  then raise (With ErrInvalidArgument "assignment" "this is the only owner — appoint another before removing this one")
  else mret tt.

Definition RevokeAssignment (assignmentID : string) : M unit :=
  r ← require env cc PermAssignOperators;
  _ ← lastOwnerCheck assignmentID;
  _ ← ControlStore.RevokeAssignment env assignmentID;
  emit (fst r) "platform.operator_revoke" assignmentID ∅.

Definition SetOperatorStatus (operatorID status : string) : M unit :=
  r ← require env cc PermAssignOperators;
  let p := fst r in
  if negb (bool_decide (status = "active"%string) || bool_decide (status = "disabled"%string))
  then raise (With ErrInvalidArgument "status" status)
  else if bool_decide (status = "disabled"%string) && bool_decide (operatorID = IdentityID p)
  then raise (With ErrInvalidArgument "operator" "you cannot disable your own account")
  else
    _ ← SetStatus env operatorID status;
    emit p "platform.operator_status" operatorID (<["status" := status]> ∅).

(** The temporary password. *)
Definition ResetOperatorPassword (operatorID : string) : M string :=
  r ← require env cc PermAssignOperators;
  let p := fst r in
  if bool_decide (operatorID = IdentityID p)
  then raise (With ErrInvalidArgument "operator" "use a password change for your own account, which asks for the current one")
  else
    found ← PlatformUserByID env operatorID;
    match found with
    | None => raise (With ErrNotFound "operator" operatorID)
    | Some (who, _) =>
        temporary ← fresh_secret cc 0;
        hash ← hash_password cc temporary;
        _ ← SetPassword env (u_ID who) hash;
        _ ← emit p "platform.operator_password_reset" (u_ID who) (<["username" := u_Username who]> ∅);
        mret temporary
    end.

(** ** api_key_interactor.go *)

Definition apikey_event (p : Principal) (action id : string) : AuditEvent :=
  {| au_TenantID := Audit.InstallationTenant; au_ActorID := IdentityID p; au_ActorKind := "platform_user"; au_TargetID := id;
     au_SessionID := ""; au_Action := action; au_Result := "allow"; au_IP := cc_ip cc; au_Detail := ∅ |}.

(** Between nothing and ninety days. *)
Definition key_life (d : Duration) : Duration := if ((d <=? 0) || (maxAPIKeyLife <? d))%Z then maxAPIKeyLife else d.

(** secret.NewAPIKey, with its two reads of the random source. *)
Definition new_key : M (string * string * string) :=
  r6 ← lift (need "random" (cc_rand cc 0));
  r32 ← lift (need "random" (cc_rand cc 1));
  mret (Secret.NewAPIKey sha256 r6 r32).

Definition CreateAPIKey (inp : CreateAPIKeyInput) : M (string * PlatformAPIKey) :=
  r ← require env cc PermAssignOperators;
  let p := fst r in
  let trimmed := TrimSpace (ak_OwnerID inp) in
  let owner := if bool_decide (trimmed = ""%string) then IdentityID p else trimmed in
  found ← PlatformUserByID env owner;
  match found with
  | None => raise (With ErrInvalidArgument "owner" "no such active operator")
  | Some (who, _) =>
      if negb (Active who) then raise (With ErrInvalidArgument "owner" "no such active operator")
      else
        k ← new_key;
        let '(full, lookup, hash) := k in
        let expires := (cc_clock cc 1 + key_life (ak_ExpiresIn inp))%Z in
        id ← CreatePlatformAPIKey env (u_ID who) (TrimSpace (ak_Label inp)) lookup (Secret.Hex hash) (IdentityID p) expires;
        _ ← Emit (apikey_event p "platform.apikey.create" id);
        mret (full, {| ky_ID := id; ky_PlatformUserID := u_ID who; ky_Username := u_Username who; ky_Label := ak_Label inp;
                       ky_Lookup := lookup; ky_CreatedAt := cc_clock cc 2; ky_ExpiresAt := expires |})
  end.

Definition ListAPIKeys : M (list KeyRow) := _ ← require env cc PermAssignOperators; ListPlatformAPIKeys env.

Definition RevokeAPIKey (id : string) : M unit :=
  r ← require env cc PermAssignOperators;
  _ ← RevokePlatformAPIKey env id;
  Emit (apikey_event (fst r) "platform.apikey.revoke" id).

(** ** provision.go *)

(** "" when there is an owner already. *)
Definition CreatePlatformOwner (username email password : string) : M string :=
  has ← HasOwner env;
  if (has : bool) then mret ""%string
  else
    hash ← hash_password cc password;
    id ← CreatePlatformUser env username email hash;
    _ ← CreateAssignment env (new_assignment id "" RoleOwner id "installation setup" None);
    mret id.

End Admin.
End OperatorAdmin.
