(* ===== verification/Authn.v ===== *)
(** internal/api/connect/authn_interceptor.go: who a request is from.  Bearer
    tokens verified against the ring, operators' keys and tenants' keys looked
    up in their tables.  With the tenants' machine credentials: the api_keys
    table (internal/auth/adapter/postgres/api_key_repository.go and rquery) and
    the handlers that make and revoke them
    (internal/tenancy/app/tenant_admin_interactor.go). *)

From Stdlib Require Import ZArith Lia Bool Ascii String.
From stdpp Require Import base gmap strings list.
From S2P Require Import Prelude.
From S2P Require Import GoStrings.
From S2P Require Import GoConv.
From S2P Require Import Secrets.
From S2P Require Import Tokens.
From S2P Require Import Keyring.
From S2P Require Import Sdk.
From S2P Require Import Shared.
From S2P Require Import AuthStore.
From S2P Require Import TokenIssuer.
From S2P Require Import AdminGuard.
From S2P Require Import ControlStore.
From S2P Require Import PlatformAuth.

(** ** The tenants' keys *)
Module ApiKeys.
Import Apperr Authctx Issuer Uuid ControlStore.

Record TenantKeyRow := {
  tk_ID : string; tk_TenantID : string; tk_Label : string; tk_Lookup : string; tk_SecretHash : string; tk_CreatedAt : Time;
  tk_CreatedBy : option string; tk_LastUsedAt : option Time; tk_ExpiresAt : option Time; tk_RevokedAt : option Time
}.

Record APIKeyAuth := {
  kt_ID : string; kt_TenantID : string; kt_TenantSlug : string; kt_TenantStatus : string; kt_SecretHash : string;
  kt_ExpiresAt : option Time; kt_LastUsedAt : option Time
}.

(** The operators' tables and the tenants' keys; what the tenants' admin writes
    to the audit log. *)
Record NStore := { ns_ctl : CStore; ns_keys : list TenantKeyRow; ns_audit : list AuthStore.AuditEvent }.

Inductive KOp := OpCreate | OpLookup | OpRevoke | OpTouch.

(** The database; [ke_tenant] answers the row of a tenant of this id. *)
Record KEnv := { ke_fails : KOp -> bool; ke_now : Time; ke_id : string; ke_tenant : string -> option TenantRef }.

Section Ops.
Context (env : KEnv).

Abbreviation M := (Eff NStore Error).

Definition guarded {A} (op : KOp) (m : M A) : M A := fun s => if ke_fails env op then (Err DbErr, s) else m s.

Definition with_tenant_keys (s : NStore) (l : list TenantKeyRow) : NStore := {| ns_ctl := ns_ctl s; ns_keys := l; ns_audit := ns_audit s |}.

(** An expiry is whole seconds since 1970. *)
Definition CreateAPIKey (tenantID label lookup secretHash createdBy : string) (expiresAt : option Z) : M string := fun s =>
  match canon tenantID, opt_uuid createdBy with
  | Some tid, Some by_ =>
      guarded OpCreate (fun s =>
        if existsb (fun k => bool_decide (tk_RevokedAt k = None) && bool_decide (tk_Lookup k = lookup)) (ns_keys s)
        then (Err (Wrap ErrConflict "api_keys_lookup"), s)
        else if negb (bool_decide (is_Some (ke_tenant env tid))) || negb (default true ((fun b => known_user b (ns_ctl s)) <$> by_))
        then (Err FKey, s)
        else (Ok (ke_id env), with_tenant_keys s (ns_keys s ++ [{|
          tk_ID := ke_id env; tk_TenantID := tid; tk_Label := label; tk_Lookup := lookup; tk_SecretHash := secretHash;
          tk_CreatedAt := ke_now env; tk_CreatedBy := by_; tk_LastUsedAt := None;
          tk_ExpiresAt := (fun sec => (sec + 62135596800) * second)%Z <$> expiresAt; tk_RevokedAt := None |}]))) s
  | _, _ => (Err BadUUID, s)
  end.

Definition presented (lookup : string) (k : TenantKeyRow) : bool := bool_decide (tk_Lookup k = lookup) && bool_decide (tk_RevokedAt k = None).

(** The key with its tenant's standing of now. *)
Definition APIKeyByLookup (lookup : string) : M (option APIKeyAuth) :=
  guarded OpLookup (fun s =>
    (Ok (k ← find (presented lookup) (ns_keys s);
         t ← ke_tenant env (tk_TenantID k);
         Some {| kt_ID := tk_ID k; kt_TenantID := tk_TenantID k; kt_TenantSlug := tn_Slug t; kt_TenantStatus := tn_Status t;
                 kt_SecretHash := tk_SecretHash k; kt_ExpiresAt := tk_ExpiresAt k; kt_LastUsedAt := tk_LastUsedAt k |}), s)).

Definition set_key (used revoked : option Time) (k : TenantKeyRow) : TenantKeyRow := {|
  tk_ID := tk_ID k; tk_TenantID := tk_TenantID k; tk_Label := tk_Label k; tk_Lookup := tk_Lookup k; tk_SecretHash := tk_SecretHash k;
  tk_CreatedAt := tk_CreatedAt k; tk_CreatedBy := tk_CreatedBy k; tk_LastUsedAt := used; tk_ExpiresAt := tk_ExpiresAt k; tk_RevokedAt := revoked |}.

Definition RevokeAPIKey (tenantID id : string) : M unit := fun s =>
  match canon tenantID, canon id with
  | Some tid, Some c =>
      guarded OpRevoke (fun s =>
        let p k := bool_decide (tk_ID k = c) && bool_decide (tk_TenantID k = tid) && bool_decide (tk_RevokedAt k = None) in
        if existsb p (ns_keys s)
        then (Ok tt, with_tenant_keys s (update_where p (fun k => set_key (tk_LastUsedAt k) (Some (ke_now env)) k) (ns_keys s)))
        else (Err (With ErrNotFound "api_key" id), s)) s
  | _, _ => (Err BadUUID, s)
  end.

Definition TouchAPIKeyUsed (id : string) : M unit := fun s =>
  match canon id with
  | None => (Ok tt, s)
  | Some c => (Ok tt, if ke_fails env OpTouch then s
                      else with_tenant_keys s (update_where (fun k => bool_decide (tk_ID k = c))
                             (fun k => set_key (Some (ke_now env)) (tk_RevokedAt k) k) (ns_keys s)))
  end.

End Ops.

(** ** tenant_admin_interactor.go *)
Section Admin.
Context `{IP : IssuerPrims}.
Context (env : KEnv) (guard : AdminGuard.Guard) (cc : PlatformAuth.CCtx).

Abbreviation M := (Eff NStore Error).

Definition permAPIKeys : string := "anubis:apikey:admin".

Definition tenant_emit (p : Principal) (action target : string) (detail : gmap string string) : M unit :=
  fun s => (Ok tt, {| ns_ctl := ns_ctl s; ns_keys := ns_keys s; ns_audit := ns_audit s ++ [{|
    AuthStore.au_TenantID := TenantID p; AuthStore.au_ActorID := IdentityID p; AuthStore.au_ActorKind := "identity";
    AuthStore.au_TargetID := target; AuthStore.au_SessionID := SessionID p; AuthStore.au_Action := action;
    AuthStore.au_Result := "allow"; AuthStore.au_IP := PlatformAuth.cc_ip cc; AuthStore.au_Detail := detail |}] |}).

(** (full key, lookup, id); an expiry that is not positive is none. *)
Definition CreateTenantKey (label : string) (expiresAt : Z) : M (string * string * string) :=
  p ← lift (AdminGuard.Require guard (PlatformAuth.cc_caller cc) permAPIKeys);
  r6 ← lift (need "random" (PlatformAuth.cc_rand cc 0));
  r32 ← lift (need "random" (PlatformAuth.cc_rand cc 1));
  let '(full, lookup, hash) := Secret.NewAPIKey sha256 r6 r32 in
  id ← CreateAPIKey env (TenantID p) label lookup (Secret.Hex hash) (IdentityID p) (if (0 <? expiresAt)%Z then Some expiresAt else None);
  _ ← tenant_emit p "apikey.create" id (<["label" := label]> (<["prefix" := lookup]> ∅));
  mret (full, lookup, id).

Definition RevokeTenantKey (id : string) : M unit :=
  p ← lift (AdminGuard.Require guard (PlatformAuth.cc_caller cc) permAPIKeys);
  _ ← RevokeAPIKey env (TenantID p) id;
  tenant_emit p "apikey.revoke" id ∅.

End Admin.
End ApiKeys.

(** ** authn_interceptor.go *)
Module Authn.
Import Apperr Authctx Issuer ControlStore ApiKeys.

Definition hexNibble (c : ascii) : option Z :=
  let z := code c in
  (if (48 <=? z) && (z <=? 57) then Some (z - 48)
   else if (97 <=? z) && (z <=? 102) then Some (z - 97 + 10)
   else if (65 <=? z) && (z <=? 70) then Some (z - 65 + 10)
   else None)%Z.

(** The loop over the pairs of an even-length string. *)
Fixpoint hex_pairs (s : string) : option string :=
  match s with
  | String a (String b r) =>
      hi ← hexNibble a; lo ← hexNibble b; t ← hex_pairs r;
      Some (String (chr (Z.lor (Z.shiftl hi 4 mod 256) lo)) t)
  | _ => Some EmptyString
  end.

Definition hexDecode (s : string) : option string := if Nat.odd (String.length s) then None else hex_pairs s.

Definition mustHexOrRaw (s : string) : string := match hexDecode s with Some b => b | None => s end.

Definition usageResolution : Duration := minute.
Definition usageStale (last : option Time) (now : Time) : bool :=
  match last with None => true | Some t => (usageResolution <=? time_sub now t)%Z end.

Definition platformAudience : string := "anubis-platform".
Definition AuthorizeProcedure : string := "/anubis.v1.AuthzService/Authorize".

(** What the interceptor reads besides the stores: the ring, the tenants by
    their slug, the readings of the clock (a key is tried as an operator's and then
    as a tenant's); [ix_operators] is whether it was given
    the operators' keys. *)
Record Interceptor := {
  ix_issuer : string; ix_ring : Keys.Ring; ix_tenant_by_slug : string -> option TenantRef; ix_clock : nat -> Time; ix_operators : bool
}.

(** The tenant an operator asked to work in, where there is one. *)
Definition in_tenant (ix : Interceptor) (wanted : string) : string * string :=
  if bool_decide (wanted = ""%string) then (""%string, ""%string)
  else match ix_tenant_by_slug ix wanted with
       | Some t => (tn_ID t, tn_Slug t)
       | None => (""%string, ""%string)
       end.

Section Authenticate.
Context `{P : TokenPrims} `{IP : IssuerPrims} (json_claims : string -> option Claims.Claims).
Context (cenv : CtlEnv) (kenv : KEnv) (ix : Interceptor).

Abbreviation M := (Eff NStore Error).

Definition on_ctl {E X} (m : Eff CStore E X) : Eff NStore E X :=
  fun s => let '(r, c) := m (ns_ctl s) in (r, {| ns_ctl := c; ns_keys := ns_keys s; ns_audit := ns_audit s |}).

(** The claims of a token that verifies now. *)
Definition token_claims (token : string) : option Claims.Claims :=
  match AccessToken.Kid token with
  | Err _ => None
  | Ok kid =>
      match Keys.Lookup (ix_ring ix) kid with
      | Err _ => None
      | Ok key =>
          if negb (bool_decide (Keys.Purpose key = Keys.PurposeAccess)) then None
          else match AccessToken.Verify (Keys.Public key) token with
               | Err _ => None
               | Ok msg =>
                   claims ← json_claims msg;
                   let now := unix (ix_clock ix 0) in
                   if negb (bool_decide (Claims.Issuer claims = ix_issuer ix)) ||
                      (negb (Claims.Expires claims =? 0) && (Claims.Expires claims <? now))%Z ||
                      (negb (Claims.NotBefore claims =? 0) && (now <? wrap64 (Claims.NotBefore claims - 60)))%Z
                   then None else Some claims
               end
      end
  end.

(** An operator: no tenant but the one asked for. *)
Definition operator_principal (id wanted token : string) (roles : list string) (epoch : Z) (service : bool) : Principal :=
  let t := in_tenant ix wanted in
  {| IdentityID := id; TenantID := fst t; TenantSlug := snd t; SessionID := ""; Authctx.Realm := ""; Roles := roles; Scopes := ∅; AMR := [];
     AuthTime := 0; IAL := 0; Epoch := epoch; Audience := []; Service := service; Platform := true; Token := token |}.

Definition person_principal (c : Claims.Claims) (t : TenantRef) (token : string) : Principal :=
  {| IdentityID := Claims.Subject c; TenantID := tn_ID t; TenantSlug := Claims.Tenant c; SessionID := Claims.Session c;
     Authctx.Realm := Claims.Realm c; Roles := Claims.Roles c; Scopes := Claims.Scopes c; AMR := Claims.AMR c;
     AuthTime := ((Claims.AuthTime c + 62135596800) * second)%Z; IAL := Claims.IAL c; Epoch := Claims.Epoch c;
     Audience := Claims.Audience c; Service := false; Platform := false; Token := token |}.

Definition principalFromToken (token wanted : string) : option Principal :=
  claims ← token_claims token;
  if bool_decide (Claims.Tenant claims = ""%string) then
    if existsb (fun aud => bool_decide (aud = platformAudience)) (Claims.Audience claims)
    then Some (operator_principal (Claims.Subject claims) wanted token (Claims.Roles claims) (Claims.Epoch claims) false)
    else None
  else
    match ix_tenant_by_slug ix (Claims.Tenant claims) with
    | None => None
    | Some t => if negb (Serving t) then None else Some (person_principal claims t token)
    end.

(** secret.Equal of the hash of the secret half and the stored one. *)
Definition secret_matches (secretPart stored : string) : bool := bool_decide (Hash secretPart = mustHexOrRaw stored).

Definition service_principal (k : APIKeyAuth) : Principal :=
  {| IdentityID := kt_ID k; TenantID := kt_TenantID k; TenantSlug := kt_TenantSlug k; SessionID := ""; Authctx.Realm := ""; Roles := [];
     Scopes := ∅; AMR := []; AuthTime := 0; IAL := 0; Epoch := 0; Audience := []; Service := true; Platform := false; Token := "" |}.

(** A key's lookup: a failed one finds nothing. *)
Definition found {X} (m : M (option X)) : M (option X) :=
  r ← attempt m; mret match r with Ok o => o | Err _ => None end.

Definition principalFromAPIKey (key : string) : M (option Principal) :=
  match Secret.SplitAPIKey key with
  | None => mret None
  | Some (lookup, secretPart) =>
      k ← found (APIKeyByLookup kenv lookup);
      match k with
      | None => mret None
      | Some k =>
          if negb (bool_decide (kt_TenantStatus k = "active"%string)) then mret None
          else if match kt_ExpiresAt k with Some t => negb (time_after t (ix_clock ix 2)) | None => false end then mret None
          else if negb (secret_matches secretPart (kt_SecretHash k)) then mret None
          else
            _ ← (if usageStale (kt_LastUsedAt k) (ix_clock ix 3) then TouchAPIKeyUsed kenv (kt_ID k) else mret tt);
            mret (Some (service_principal k))
      end
  end.

Definition principalFromPlatformKey (key wanted : string) : M (option Principal) :=
  if negb (ix_operators ix) then mret None
  else match Secret.SplitAPIKey key with
       | None => mret None
       | Some (lookup, secretPart) =>
           k ← found (on_ctl (PlatformAPIKeyByLookup cenv lookup));
           match k with
           | None => mret None
           | Some k =>
               if negb (bool_decide (ka_OwnerStatus k = "active"%string)) || negb (time_after (ka_ExpiresAt k) (ix_clock ix 0)) then mret None
               else if negb (secret_matches secretPart (ka_SecretHash k)) then mret None
               else
                 _ ← (if usageStale (ka_LastUsedAt k) (ix_clock ix 1) then on_ctl (TouchPlatformAPIKeyUsed cenv (ka_ID k)) else mret tt);
                 mret (Some (operator_principal (ka_PlatformUserID k) wanted "" [] (ka_TokenEpoch k) true))
           end
       end.

Definition linkMayReach (p : Principal) (procedure : string) : bool := negb (LinkBound p) || bool_decide (procedure = AuthorizeProcedure).

(** What follows "Bearer ", in any case. *)
Definition bearer_credential (auth : string) : option string :=
  if (7 <? String.length auth)%nat && equal_fold (str_take 7 auth) "Bearer " then Some (str_drop 7 auth) else None.

(** [auth] and [wanted] are the Authorization and X-Anubis-Tenant headers. *)
Definition authenticate (procedure auth wanted : string) : M (option Principal) :=
  match bearer_credential auth with
  | None => mret None
  | Some cred =>
      if String.prefix "v4.public." cred then
        mret (p ← principalFromToken cred wanted; if linkMayReach p procedure then Some p else None)
      else if String.prefix "anb_live_" cred then
        p ← principalFromPlatformKey cred wanted;
        match p with
        | Some p => mret (Some p)
        | None => principalFromAPIKey cred
        end
      else mret None
  end.

End Authenticate.
End Authn.
