(* ===== verification/Doors.v ===== *)
(** internal/auth/app: three doors beside the password.  accesslink opens one
    record to whoever holds a link to it, clientcreds lets an application in as
    itself, emaillink sends a person a link that signs in once. *)

From Stdlib Require Import ZArith Lia Bool Ascii String.
From stdpp Require Import base gmap strings list.
From S2P Require Import Prelude.
From S2P Require Import GoStrings.
From S2P Require Import GoConv.
From S2P Require Import Secrets.
From S2P Require Import Tokens.
From S2P Require Import Keyring.
From S2P Require Import Sdk.
From S2P Require Import Shared.
From S2P Require Import AuthStore.
From S2P Require Import TokenIssuer.
From S2P Require Import Credentials.
From S2P Require Import Shares.
From S2P Require Import Authorize.
From S2P Require Import Authn.

(** The access token both machine doors sign; [wall] is the reading ActiveAccess
    makes of the clock. *)
Module DoorToken.
Import Apperr Issuer.

Section Sign.
Context `{P : TokenPrims} `{IP : IssuerPrims}.

Definition active_key (ring : Keys.Ring) (wall : Time) : result Error Keys.Key :=
  match Keys.ActiveAccessAt ring wall with Ok k => Ok k | Err _ => Err (Wrap ErrInternal "key") end.

Definition sign_claims (key : Keys.Key) (claims : Claims.Claims) : result Error string :=
  body ← need "json" (json_of_claims claims);
  match Paseto.Sign (default ""%string (Keys.Private key)) body (json_footer (Keys.Kid key)) "" with
  | Ok t => Ok t
  | Err _ => Err (Wrap ErrInternal "sign")
  end.

End Sign.
End DoorToken.

(** ** accesslink/open_interactor.go *)
Module AccessLink.
Import Apperr Issuer ShareDomain ShareStore DoorToken.

Record OpenInput := { oi_Tenant : string; oi_ClientID : string; oi_Token : string }.

(** What opening reads besides the table. *)
Record OCtx := {
  oc_issuer : string; oc_ring : Keys.Ring; oc_wall : Time; oc_now : Time; oc_jti : option string; oc_ip : string;
  oc_tenant_by_slug : string -> option TenantRef;
  oc_app : string -> string -> option Application;
  oc_identity : string -> string -> option IdentityDomain.Identity
}.

Definition LinkPrefix : string := "anb_lk_".
Definition linkAccessTTL : Duration := (10 * minute)%Z.

Section Open.
Context `{P : TokenPrims} `{IP : IssuerPrims}.
Context (env : ShEnv) (oc : OCtx).

Abbreviation M := (Eff ShStore Error).

Definition log (ev : AuthStore.AuditEvent) : M unit := fun s => (Ok tt, {| ss_shares := ss_shares s; ss_log := ss_log s ++ [ev] |}).

Definition link_event (tenantID actor target res : string) (detail : gmap string string) : AuthStore.AuditEvent := {|
  AuthStore.au_TenantID := tenantID; AuthStore.au_ActorID := actor; AuthStore.au_ActorKind := "identity";
  AuthStore.au_TargetID := target; AuthStore.au_SessionID := ""; AuthStore.au_Action := "auth.link_open"; AuthStore.au_Result := res;
  AuthStore.au_IP := oc_ip oc; AuthStore.au_Detail := detail |}.

Definition deny (tenantID identityID reason : string) : M unit :=
  log (link_event tenantID identityID "" "deny" (<["reason" := reason]> ∅)).

(** Every refusal is the same refusal; the log says which. *)
Definition refused {X} (tenantID identityID reason : string) : M X := _ ← deny tenantID identityID reason; raise ErrTokenInvalid.

(** Ten minutes, or the application's shorter time, and never past the share. *)
Definition link_ttl (secs : Z) (valid now : Time) : Duration :=
  let ttl := stricter secs linkAccessTTL in
  if time_before valid (now + ttl) then time_sub valid now else ttl.

Definition link_claims (sh : Share) (tenant : TenantRef) (i : IdentityDomain.Identity) (app : Application) (jti : string) (ttl : Duration) : Claims.Claims :=
  let now := oc_now oc in
  {| Claims.Issuer := oc_issuer oc; Claims.Subject := IdentityDomain.i_ID i; Claims.Audience := [app_Slug app];
     Claims.Expires := unix (now + ttl)%Z; Claims.IssuedAt := unix now; Claims.NotBefore := unix now; Claims.TokenID := jti;
     Claims.Session := ""; Claims.Tenant := tn_Slug tenant; Claims.Roles := []; Claims.Scope := "";
     Claims.Scopes := <["_record" := sh_Record sh]> ∅; Claims.Realm := IdentityDomain.i_RealmCode i;
     Claims.IAL := IdentityDomain.i_AssuranceLevel i; Claims.AMR := ["link"]; Claims.AuthTime := unix now;
     Claims.Epoch := IdentityDomain.i_TokenEpoch i; Claims.Version := 1 |}.

(** What is refused without a word in the log. *)
Definition link_shaped (inp : OpenInput) : bool :=
  String.prefix LinkPrefix (oi_Token inp) && (String.length (oi_Token inp) <=? 128)%nat &&
  Validate.ValidSlug (oi_Tenant inp) && Validate.ValidSlug (oi_ClientID inp).

Definition issue_link_token (sh : Share) (tenant : TenantRef) (i : IdentityDomain.Identity) (app : Application) : M TokenPair :=
  key ← lift (active_key (oc_ring oc) (oc_wall oc));
  jti ← lift (need "random" (secret_New (oc_jti oc)));
  let ttl := link_ttl (app_AccessTokenTTLSecs app) (sh_ValidUntil sh) (oc_now oc) in
  token ← lift (sign_claims key (link_claims sh tenant i app jti ttl));
  _ ← TouchShareLink env (sh_ID sh);
  _ ← log (link_event (tn_ID tenant) (IdentityDomain.i_ID i) (sh_ID sh) "allow"
        (<["record" := sh_Record sh]> (<["client_id" := app_Slug app]> (<["from" := sh_FromIdentityID sh]> ∅))));
  mret {| tp_AccessToken := token; tp_RefreshToken := ""; tp_TokenType := "Bearer"; tp_ExpiresIn := Z.quot ttl second; tp_SessionID := "" |}.

Definition OpenAccessLink (inp : OpenInput) : M TokenPair :=
  if negb (link_shaped inp) then raise ErrTokenInvalid
  else
    match oc_tenant_by_slug oc (oi_Tenant inp) with
    | None => raise ErrTokenInvalid
    | Some tenant =>
        if negb (Serving tenant) then refused (tn_ID tenant) "" "tenant_not_active"
        else
          found ← attempt (F := Error) (ShareByLinkHash env (Hash (oi_Token inp)));
          match found with
          | Err _ => refused (tn_ID tenant) "" "no_such_link"
          | Ok sh =>
              if negb (bool_decide (sh_TenantID sh = tn_ID tenant)) then refused (tn_ID tenant) "" "no_such_link"
              else
                match oc_identity oc (tn_ID tenant) (sh_ToIdentityID sh) with
                | None => refused (tn_ID tenant) (sh_ToIdentityID sh) "recipient_missing"
                | Some i =>
                    match IdentityDomain.CanAuthenticate i with
                    | Err e => refused (tn_ID tenant) (IdentityDomain.i_ID i) (Code e)
                    | Ok _ =>
                        match oc_app oc (tn_ID tenant) (oi_ClientID inp) with
                        | None => refused (tn_ID tenant) (IdentityDomain.i_ID i) "unknown_application"
                        | Some app =>
                            if negb (bool_decide (app_Status app = "active"%string))
                            then refused (tn_ID tenant) (IdentityDomain.i_ID i) "unknown_application"
                            else if app_IsSystem app then refused (tn_ID tenant) (IdentityDomain.i_ID i) "system_application"
                            else issue_link_token sh tenant i app
                        end
                    end
                end
          end
    end.

End Open.
End AccessLink.

(** ** clientcreds/client_credentials_interactor.go *)
Module ClientCreds.
Import Apperr Issuer DoorToken AccessLink.

Record ClientCredentialsInput := { cc_Tenant : string; cc_ClientID : string; cc_ClientSecret : string; cc_Audience : string }.
Record ClientCredentialsOutput := { co_AccessToken : string; co_TokenType : string; co_ExpiresIn : Z }.

Definition clientAccessTTL : Duration := (10 * minute)%Z.

(** [""] when the text is not hexadecimal. *)
Definition decodeHex (s : string) : string := default ""%string (Authn.hexDecode s).

Definition contains (xs : list string) (v : string) : bool := existsb (fun x => bool_decide (x = v)) xs.

Section Client.
Context `{P : TokenPrims} `{IP : IssuerPrims}.
Context (oc : OCtx).

Abbreviation M := (Eff (list AuthStore.AuditEvent) Error).

Definition client_event (tenantID target res : string) (detail : gmap string string) : AuthStore.AuditEvent := {|
  AuthStore.au_TenantID := tenantID; AuthStore.au_ActorID := ""; AuthStore.au_ActorKind := "service"; AuthStore.au_TargetID := target;
  AuthStore.au_SessionID := ""; AuthStore.au_Action := "auth.client_credentials"; AuthStore.au_Result := res;
  AuthStore.au_IP := oc_ip oc; AuthStore.au_Detail := detail |}.
Definition note (ev : AuthStore.AuditEvent) : M unit := fun s => (Ok tt, s ++ [ev]).

Definition client_claims (tenant : TenantRef) (app : Application) (audience jti : string) (ttl : Duration) : Claims.Claims :=
  let now := oc_now oc in
  {| Claims.Issuer := oc_issuer oc; Claims.Subject := ("app_" ++ app_Slug app)%string; Claims.Audience := [audience];
     Claims.Expires := unix (now + ttl)%Z; Claims.IssuedAt := unix now; Claims.NotBefore := unix now; Claims.TokenID := jti;
     Claims.Session := ""; Claims.Tenant := tn_Slug tenant; Claims.Roles := []; Claims.Scope := ""; Claims.Scopes := ∅;
     Claims.Realm := ""; Claims.IAL := 0; Claims.AMR := ["client_secret"]; Claims.AuthTime := unix now; Claims.Epoch := 1;
     Claims.Version := 1 |}.

Definition Execute (inp : ClientCredentialsInput) : M ClientCredentialsOutput :=
  match oc_tenant_by_slug oc (cc_Tenant inp) with
  | None => raise ErrInvalidCredentials
  | Some tenant =>
      if negb (Serving tenant) then raise ErrInvalidCredentials
      else
        match oc_app oc (tn_ID tenant) (cc_ClientID inp) with
        | None => raise ErrInvalidCredentials
        | Some app =>
            if negb (bool_decide (app_Status app = "active"%string)) || bool_decide (app_ClientSecretHash app = ""%string)
            then raise ErrInvalidCredentials
            else if negb (bool_decide (Hash (cc_ClientSecret inp) = decodeHex (app_ClientSecretHash app))) then
              _ ← note (client_event (tn_ID tenant) (app_ID app) "deny" (<["client_id" := cc_ClientID inp]> ∅));
              raise ErrInvalidCredentials
            else
              let audience := if bool_decide (cc_Audience inp = ""%string) then app_Slug app else cc_Audience inp in
              if negb (bool_decide (audience = app_Slug app)) && negb (contains (app_AllowedAudiences app) audience) then
                _ ← note (client_event (tn_ID tenant) (app_ID app) "deny"
                      (<["client_id" := cc_ClientID inp]> (<["audience" := audience]> (<["reason" := "audience_not_allowed"]> ∅))));
                raise (With (With ErrPermissionDenied "audience" audience)
                         "hint" "add it to the application's allowed_audiences to request it")
              else
                key ← lift (active_key (oc_ring oc) (oc_wall oc));
                jti ← lift (need "random" (secret_New (oc_jti oc)));
                let ttl := stricter (app_AccessTokenTTLSecs app) clientAccessTTL in
                token ← lift (sign_claims key (client_claims tenant app audience jti ttl));
                _ ← note (client_event (tn_ID tenant) (app_ID app) "allow" (<["aud" := audience]> ∅));
                mret {| co_AccessToken := token; co_TokenType := "Bearer"; co_ExpiresIn := Z.quot ttl second |}
        end
  end.

End Client.
End ClientCreds.

(** ** emaillink/interactor.go *)
Module EmailLink.
Import Apperr Issuer CredStore IdentityDomain.

Record RequestInput := { rq_Tenant : string; rq_Realm : string; rq_Username : string; rq_Flow : gmap string string }.
Record payload := { py_IdentityID : string; py_TenantID : string; py_RealmID : string; py_Flow : gmap string string }.
Record Completed := { cd_Tenant : TenantRef; cd_Realm : IdentityDomain.Realm; cd_Identity : Identity; cd_Flow : gmap string string }.
Record Mail := { ml_To : string; ml_Subject : string; ml_Text : string }.

Class EmailPrims := { json_payload : payload -> string; json_parse_payload : string -> option payload }.

Record ELCtx := {
  el_mail : bool; el_ip : string; el_now : Time; el_rand : option string; el_link : string -> string;
  el_tenant_by_slug : string -> option TenantRef;
  el_tenant_by_id : string -> option TenantRef;
  el_realm_by_code : string -> string -> option IdentityDomain.Realm;
  el_realm_by_id : string -> option IdentityDomain.Realm;
  el_login_identity : string -> string -> string -> option Identity;
  el_identity : string -> string -> option Identity
}.

Record ELStore := { es_tab : Tables; es_log : list AuthStore.AuditEvent }.

Definition Factor : string := "email_link".
Definition LinkTTL : Duration := (15 * minute)%Z.

Section Email.
Context `{IP : IssuerPrims} `{EP : EmailPrims}.
Context (cenv : CEnv) (el : ELCtx).

Abbreviation M := (Eff ELStore Error).

Definition on_tab {X} (m : Eff Tables Error X) : M X := fun s => let '(r, t) := m (es_tab s) in (r, {| es_tab := t; es_log := es_log s |}).

Definition emit (tenantID identityID res detail sessionID : string) : M unit := fun s =>
  (Ok tt, {| es_tab := es_tab s; es_log := es_log s ++ [{|
     AuthStore.au_TenantID := tenantID; AuthStore.au_ActorID := identityID; AuthStore.au_ActorKind := "identity"; AuthStore.au_TargetID := "";
     AuthStore.au_SessionID := sessionID; AuthStore.au_Action := "auth.email_link"; AuthStore.au_Result := res;
     AuthStore.au_IP := el_ip el; AuthStore.au_Detail := <["detail" := detail]> ∅ |}] |}).

Definition nl : string := String (chr 10) "".

Definition mail_to (i : Identity) (token : string) : Mail := {|
  ml_To := i_Email i; ml_Subject := "Your sign-in link";
  ml_Text := "Open this link within " ++ DurationText.String_ LinkTTL ++ " to sign in as " ++ i_Username i ++ ":" ++ nl ++ nl ++
             "  " ++ el_link el token ++ nl ++ nl ++ "The link works once. If you did not ask for it, ignore this email; nobody" ++ nl ++
             "can use it without opening it." ++ nl |}.

(** The person a link may be sent to. *)
Definition addressee (inp : RequestInput) : option (TenantRef * IdentityDomain.Realm * Identity) :=
  let code := if bool_decide (rq_Realm inp = ""%string) then "internal"%string else rq_Realm inp in
  if negb (Validate.ValidSlug (rq_Tenant inp)) || negb (ValidUsername (rq_Username inp)) then None
  else
    tenant ← el_tenant_by_slug el (rq_Tenant inp);
    realm ← el_realm_by_code el (tn_ID tenant) code;
    if negb (AllowsFactor realm Factor) then None
    else
      i ← el_login_identity el (tn_ID tenant) (r_ID realm) (rq_Username inp);
      Some (tenant, realm, i).

(** The mail to deliver, if there is one: the answer to the caller is the same
    without. *)
Definition Request (inp : RequestInput) : M (option Mail) :=
  if negb (el_mail el) then raise ErrMailNotConfigured
  else
    match addressee inp with
    | None => mret None
    | Some (tenant, realm, i) =>
        match CanAuthenticate i with
        | Err e => _ ← emit (tn_ID tenant) (i_ID i) "deny" (Code e) ""; mret None
        | Ok _ =>
            if bool_decide (i_Email i = ""%string) then _ ← emit (tn_ID tenant) (i_ID i) "deny" "no_email" ""; mret None
            else
              token ← lift (need "random" (secret_New (el_rand el)));
              _ ← map_err (fun _ => Wrap ErrInternal "database") (on_tab (CreateOneTime cenv (tn_ID tenant) "email_login" (Hash token)
                    (json_payload {| py_IdentityID := i_ID i; py_TenantID := tn_ID tenant; py_RealmID := r_ID realm; py_Flow := rq_Flow inp |})
                    (el_now el + LinkTTL)%Z));
              _ ← emit (tn_ID tenant) (i_ID i) "allow" "link_requested" "";
              mret (Some (mail_to i token))
        end
    end.

(** The delivery, on its own goroutine. *)
Definition deliver (sent : bool) (tenantID identityID : string) : M unit :=
  if sent then emit tenantID identityID "allow" "link_sent" "" else emit tenantID identityID "deny" "delivery_failed" "".

Definition Complete (token : string) : M Completed :=
  if bool_decide (token = ""%string) || (128 <? String.length token)%nat then raise ErrTokenInvalid
  else
    spent ← map_err (fun _ => ErrTokenInvalid) (on_tab (ConsumeOneTime cenv "email_login" (Hash token)));
    let '(tenantID, raw) := spent in
    p ← lift (match json_parse_payload raw with Some p => Ok p | None => Err ErrTokenInvalid end);
    if bool_decide (py_IdentityID p = ""%string) || negb (bool_decide (py_TenantID p = tenantID)) then raise ErrTokenInvalid
    else
      match el_identity el tenantID (py_IdentityID p) with
      | None => raise ErrTokenInvalid
      | Some i =>
          match CanAuthenticate i with
          | Err e => _ ← emit tenantID (i_ID i) "deny" (Code e) ""; raise ErrTokenInvalid
          | Ok _ =>
              match el_realm_by_id el (py_RealmID p) with
              | Some realm =>
                  if negb (AllowsFactor realm Factor) then _ ← emit tenantID (i_ID i) "deny" "factor_not_allowed" ""; raise ErrTokenInvalid
                  else match el_tenant_by_id el tenantID with
                       | None => raise ErrTokenInvalid
                       | Some tenant => mret {| cd_Tenant := tenant; cd_Realm := realm; cd_Identity := i; cd_Flow := py_Flow p |}
                       end
              | None => _ ← emit tenantID (i_ID i) "deny" "factor_not_allowed" ""; raise ErrTokenInvalid
              end
          end
      end.

End Email.
End EmailLink.
