(* ===== verification/ConsoleMoves.v ===== *)
(** internal/control/app, over any history of requests: what the handlers of the
    console may do to the operators' tables.  Every handler is a sequence of
    moves - a mark on rows, a new row - and a history is any sequence of requests,
    by anyone, with any database faults. *)

From Stdlib Require Import ZArith Lia Bool Ascii String.
From stdpp Require Import base gmap strings list sorting.
From S2P Require Import Prelude.
From S2P Require Import Triples.
From S2P Require Import GoStrings.
From S2P Require Import GoConv.
From S2P Require Import Secrets.
From S2P Require Import Tokens.
From S2P Require Import Keyring.
From S2P Require Import LocalTokens.
From S2P Require Import Sdk.
From S2P Require Import Shared.
From S2P Require Import AuthStore.
From S2P Require Import TokenIssuer.
From S2P Require Import AdminGuard.
From S2P Require Import ControlStore.
From S2P Require Import PlatformAuth.
From S2P Require Import OperatorAdmin.

Module ConsoleMoves.
Import Triples Apperr Authctx Issuer Operator Uuid ControlStore PlatformAuth OperatorAdmin.

(** ** Rows after marks were put on them *)

(** The same link of a chain, and no mark is taken off again. *)
Record fades (r r' : PlatformRefresh) : Prop := {
  fd_id : pr_ID r' = pr_ID r; fd_user : pr_UserID r' = pr_UserID r; fd_family : pr_FamilyID r' = pr_FamilyID r;
  fd_hash : pr_Hash r' = pr_Hash r; fd_ends : pr_ExpiresAt r' = pr_ExpiresAt r;
  fd_used : is_Some (pr_UsedAt r) -> is_Some (pr_UsedAt r');
  fd_revoked : is_Some (pr_RevokedAt r) -> is_Some (pr_RevokedAt r')
}.

(** The same operator, no younger. *)
Record ages (u u' : UserRow) : Prop := {
  ag_id : pu_ID u' = pu_ID u; ag_name : pu_Username u' = pu_Username u; ag_epoch : (pu_TokenEpoch u <= pu_TokenEpoch u')%Z
}.

(** The same key, revoked for good. *)
Record key_fades (k k' : KeyRow) : Prop := {
  kf_id : pk_ID k' = pk_ID k; kf_user : pk_UserID k' = pk_UserID k; kf_lookup : pk_Lookup k' = pk_Lookup k;
  kf_hash : pk_SecretHash k' = pk_SecretHash k; kf_ends : pk_ExpiresAt k' = pk_ExpiresAt k;
  kf_revoked : is_Some (pk_RevokedAt k) -> is_Some (pk_RevokedAt k')
}.

(** The same assignment, revoked for good. *)
Record assign_fades (a a' : AssignRow) : Prop := {
  af_id : as_ID a' = as_ID a; af_who : as_OperatorID a' = as_OperatorID a; af_where : as_TenantID a' = as_TenantID a;
  af_role : as_Role a' = as_Role a; af_until : as_ValidUntil a' = as_ValidUntil a;
  af_revoked : is_Some (as_RevokedAt a) -> is_Some (as_RevokedAt a')
}.

Lemma Spent_spec r : Spent r = true <-> is_Some (pr_UsedAt r) \/ is_Some (pr_RevokedAt r).
Proof. unfold Spent. by rewrite orb_true_iff, !bool_decide_eq_true. Qed.

Lemma unspent r : Spent r = false -> pr_UsedAt r = None /\ pr_RevokedAt r = None.
Proof. unfold Spent. intros H. unbool. rewrite !eq_None_not_Some. done. Qed.

Lemma fades_spent r r' : fades r r' -> Spent r = true -> Spent r' = true.
Proof. rewrite !Spent_spec. intros [] [?|?]; auto. Qed.

(** ** Moves *)
Section Carried.
Context `{P : TokenPrims} `{IP : IssuerPrims} `{K : KdfPrims} `{A : AeadPrims} `{J : LocalToken.EnvelopeJson} `{CP : ConsolePrims}.

(** The end a sign-in gives its family. *)
Definition given_at (cc : CCtx) (ends : Time) : Prop := exists i, ends = (cc_clock cc i + platformRefreshFamilyTTL)%Z.

(** The lookup half of a key drawn here. *)
Definition drawn_lookup (cc : CCtx) (lookup : string) : Prop :=
  exists r6 r32, cc_rand cc 0 = Some r6 /\ lookup = snd (fst (Secret.NewAPIKey sha256 r6 r32)).

Section Walk.
Context (env : CtlEnv) (cc : CCtx) (s0 : CStore).

(** One statement; a chain's next link follows a link that was read unspent. *)
Inductive evolved : CStore -> Prop :=
| ev_start : evolved s0
| ev_other s s' : evolved s -> cs_users s' = cs_users s -> cs_assign s' = cs_assign s -> cs_refresh s' = cs_refresh s ->
    cs_keys s' = cs_keys s -> evolved s'
| ev_users p f s : evolved s -> (forall u, p u = true -> ages u (f u)) -> evolved (with_users s (update_where p f (cs_users s)))
| ev_user row s : evolved s -> pu_ID row = ct_user_id env -> evolved (with_users s (cs_users s ++ [row]))
| ev_unassign p f s : evolved s -> (forall a, p a = true -> assign_fades a (f a)) -> evolved (with_assign s (update_where p f (cs_assign s)))
| ev_assign row s : evolved s -> as_ID row = ct_assign_id env -> evolved (with_assign s (cs_assign s ++ [row]))
| ev_keys p f s : evolved s -> (forall k, p k = true -> key_fades k (f k)) -> evolved (with_keys s (update_where p f (cs_keys s)))
| ev_key row s : evolved s -> pk_ID row = ct_key_id env -> drawn_lookup cc (pk_Lookup row) -> evolved (with_keys s (cs_keys s ++ [row]))
| ev_links p f s : evolved s -> (forall r, p r = true -> fades r (f r)) -> evolved (with_refresh s (update_where p f (cs_refresh s)))
| ev_sweep p s : evolved s -> evolved (with_refresh s (List.filter p (cs_refresh s)))
| ev_root user raw ends s : evolved s -> given_at cc ends -> secret_New (cc_rand cc 0) = Some raw -> Hash raw ∉ map pr_Hash (cs_refresh s) ->
    evolved (with_refresh s (cs_refresh s ++ [refresh_row env user (ct_refresh_id env) (Hash raw) ends]))
| ev_next user family raw r sr s : evolved s -> evolved sr -> r ∈ cs_refresh sr -> Spent r = false -> secret_New (cc_rand cc 0) = Some raw ->
    Hash raw ∉ map pr_Hash (cs_refresh s) -> canon (pr_FamilyID r) = Some family ->
    evolved (with_refresh s (cs_refresh s ++ [refresh_row env user family (Hash raw) (pr_ExpiresAt r)])).

(** A call that leaves the tables alone. *)
Ltac elsewhere :=
  intros s Hs; cbv delta [guarded best_effort with_uuid update_users Emit on_work raise mbind mret eff_bind eff_ret] beta;
  repeat case_match; simplify_eq/=; (split; [|done]); try exact Hs; try (eapply ev_other; [exact Hs|done..]).

Lemma uuid_keeps {X} id (k : string -> Eff CStore Error X) post : (forall c, triple evolved (k c) post) -> triple evolved (with_uuid id k) post.
Proof. intros H. unfold with_uuid. destruct (canon id); [apply H|apply triple_raise]. Qed.

Lemma ctl_guarded_keeps {X} op (m : Eff CStore Error X) post : triple evolved m post -> triple evolved (guarded env op m) post.
Proof. intros H s Hs. unfold guarded. destruct (ct_fails env op); [by split|by apply H]. Qed.

Lemma users_keep p f : (forall u, p u = true -> ages u (f u)) -> triple evolved (update_users p f) (fun _ => True).
Proof. intros H s Hs. split; [by apply ev_users|done]. Qed.

(** An UPDATE of platform_users. *)
Ltac on_users :=
  repeat first
    [ apply uuid_keeps; intros ? | apply ctl_guarded_keeps
    | eapply triple_bind; [apply users_keep; intros ? _; split; simpl; done || lia|intros ? _]
    | walk_step idtac ].

Lemma user_by_name_keeps n : triple evolved (PlatformUserByUsername env n) (fun _ => True).
Proof. unfold PlatformUserByUsername. elsewhere. Qed.
Lemma user_by_id_keeps n : triple evolved (PlatformUserByID env n) (fun _ => True).
Proof. unfold PlatformUserByID. elsewhere. Qed.
Lemma totp_keeps a b : triple evolved (TOTPSecret env a b) (fun _ => True).
Proof. unfold TOTPSecret. elsewhere. Qed.
Lemma assignments_keep : triple evolved (Assignments env) (fun _ => True).
Proof. unfold Assignments. elsewhere. Qed.
Lemma has_owner_keeps : triple evolved (HasOwner env) (fun _ => True).
Proof. unfold HasOwner. elsewhere. Qed.
Lemma list_keys_keeps : triple evolved (ListPlatformAPIKeys env) (fun _ => True).
Proof. unfold ListPlatformAPIKeys. elsewhere. Qed.
Lemma emit_keeps ev : triple evolved (Emit ev) (fun _ => True).
Proof. elsewhere. Qed.
Lemma work_keeps {E X} (m : Eff (list Z) E X) : triple evolved (on_work m) (fun _ => True).
Proof. elsewhere. Qed.

Lemma create_user_keeps a b c : triple evolved (CreatePlatformUser env a b c) (fun _ => True).
Proof. unfold CreatePlatformUser. elsewhere. by apply ev_user. Qed.
Lemma touch_login_keeps n : triple evolved (TouchLogin env n) (fun _ => True).
Proof.
  unfold TouchLogin. elsewhere. apply ev_users; [done|]. intros u _. split; simpl; done || lia.
Qed.
Lemma status_keeps a b : triple evolved (SetStatus env a b) (fun _ => True).
Proof.
  unfold SetStatus. apply uuid_keeps; intros c. apply ctl_guarded_keeps. destruct (negb _); [apply triple_raise|].
  eapply triple_bind; [apply users_keep; intros u _; split; simpl; [done..|destruct (bool_decide _); lia]|]. intros n _. on_users.
Qed.
Lemma rehash_keeps a b c : triple evolved (RehashPassword env a b c) (fun _ => True).
Proof. unfold RehashPassword. on_users. Qed.
Lemma set_password_keeps a b : triple evolved (SetPassword env a b) (fun _ => True).
Proof. unfold SetPassword. on_users. Qed.
Lemma stage_keeps a b c d : triple evolved (StageTOTPSecret env a b c d) (fun _ => True).
Proof. unfold StageTOTPSecret. on_users. Qed.
Lemma confirm_keeps a b : triple evolved (ConfirmTOTP env a b) (fun _ => True).
Proof. unfold ConfirmTOTP. on_users. Qed.
Lemma step_keeps a b : triple evolved (AdvanceTOTPStep env a b) (fun _ => True).
Proof. unfold AdvanceTOTPStep. on_users. Qed.

Lemma assign_keeps a : triple evolved (CreateAssignment env a) (fun _ => True).
Proof. unfold CreateAssignment. elsewhere. by apply ev_assign. Qed.
Lemma unassign_keeps a : triple evolved (ControlStore.RevokeAssignment env a) (fun _ => True).
Proof.
  unfold ControlStore.RevokeAssignment. elsewhere. apply ev_unassign; [done|]. intros r _. split; simpl; done || by eexists.
Qed.

Lemma make_key_keeps a b c d e f : drawn_lookup cc c -> triple evolved (CreatePlatformAPIKey env a b c d e f) (fun _ => True).
Proof. intros Hc. unfold CreatePlatformAPIKey. elsewhere. by apply ev_key. Qed.
Lemma drop_key_keeps a : triple evolved (RevokePlatformAPIKey env a) (fun _ => True).
Proof.
  unfold RevokePlatformAPIKey. elsewhere. apply ev_keys; [done|]. intros k _. split; simpl; done || by eexists.
Qed.

Lemma touch_key_keeps a : triple evolved (TouchPlatformAPIKeyUsed env a) (fun _ => True).
Proof.
  unfold TouchPlatformAPIKeyUsed. elsewhere. apply ev_keys; [done|]. intros k _. split; simpl; done.
Qed.

(** *** The refresh table's statements *)


Lemma revoke_family_keeps f : triple evolved (RevokeRefreshFamily env f) (fun _ => True).
Proof.
  unfold RevokeRefreshFamily. elsewhere. apply ev_links; [done|]. intros r _. split; simpl; done || by eexists.
Qed.

Lemma link_consume_keeps c : triple evolved (ConsumeRefresh env c) (fun _ => True).
Proof.
  unfold ConsumeRefresh. elsewhere. apply ev_links; [done|]. intros r _. split; simpl; done || by eexists.
Qed.

Lemma sweep_keeps : triple evolved (SweepExpired env) (fun _ => True).
Proof. unfold SweepExpired. elsewhere. by apply ev_sweep. Qed.

(** The row a lookup answers was one of the table's. *)
Definition was_read (r : PlatformRefresh) : Prop := exists s, evolved s /\ r ∈ cs_refresh s.

Lemma by_hash_keeps h : triple evolved (RefreshByHash env h) (fun o => forall r, o = Some r -> was_read r).
Proof.
  intros s Hs. unfold RefreshByHash, guarded. destruct (ct_fails env OpRefreshByHash); [by split|]. split; [done|].
  intros o [= <-] r Hr. apply find_some in Hr as [Hin _]. exists s. split; [done|]. by apply list_elem_of_In.
Qed.

Lemma fresh_keeps : triple evolved (fresh_secret cc 0) (fun raw => secret_New (cc_rand cc 0) = Some raw).
Proof. apply triple_lift. intros a. unfold need. destruct (secret_New (cc_rand cc 0)); [|done]. by intros [= ->]. Qed.

Lemma new_key_keeps : triple evolved (new_key cc) (fun k => drawn_lookup cc (snd (fst k))).
Proof.
  unfold new_key. eapply (triple_bind _ _ _ (fun r6 => cc_rand cc 0 = Some r6)).
  { apply triple_lift. intros r. unfold need. destruct (cc_rand cc 0); [|done]. by intros [= ->]. }
  intros r6 H6. walk_step idtac. { by apply triple_lift. }
  intros r32 _. apply triple_ret. by exists r6, r32.
Qed.

Lemma insert_keeps row s :
  evolved s -> (pr_Hash row ∉ map pr_Hash (cs_refresh s) -> evolved (with_refresh s (cs_refresh s ++ [row]))) -> evolved (snd (insert_refresh row s)).
Proof.
  intros Hs Hr. unfold insert_refresh. destruct (existsb _ _) eqn:E; [done|]. destruct (negb _); [done|]. apply Hr.
  intros (r & Hh & Hin)%list_elem_of_fmap. apply not_true_iff_false in E. apply E, existsb_spec. exists r. split; [done|].
  by apply bool_decide_eq_true.
Qed.

Lemma family_keeps user raw ends :
  given_at cc ends -> secret_New (cc_rand cc 0) = Some raw -> triple evolved (CreateRefreshFamily env user (Hash raw) ends) (fun _ => True).
Proof.
  intros Hends Hraw. unfold CreateRefreshFamily. apply uuid_keeps; intros c. apply ctl_guarded_keeps. intros s Hs. unfold mbind, eff_bind.
  pose proof (insert_keeps (refresh_row env c (ct_refresh_id env) (Hash raw) ends) s Hs (ev_root c raw ends s Hs Hends Hraw)) as Hi.
  by destruct (insert_refresh _ s) as [[]].
Qed.

Lemma append_keeps user r raw :
  secret_New (cc_rand cc 0) = Some raw -> was_read r -> Spent r = false ->
  triple evolved (AppendRefresh env user (pr_FamilyID r) (Hash raw) (pr_ExpiresAt r)) (fun _ => True).
Proof.
  intros Hraw (sr & Hsr & Hin) Hsp. unfold AppendRefresh. apply uuid_keeps; intros c. unfold with_uuid.
  destruct (canon (pr_FamilyID r)) as [f|] eqn:Hf; [|apply triple_raise]. apply ctl_guarded_keeps. intros s Hs.
  pose proof (insert_keeps (refresh_row env c f (Hash raw) (pr_ExpiresAt r)) s Hs
    (fun Hn => ev_next c f raw r sr s Hs Hsr Hin Hsp Hraw Hn Hf)) as Hi.
  by destruct (insert_refresh _ s) as [[]].
Qed.

(** *** Handlers *)

Create HintDb console.
#[local] Hint Resolve user_by_name_keeps user_by_id_keeps create_user_keeps touch_login_keeps status_keeps rehash_keeps set_password_keeps
  totp_keeps stage_keeps confirm_keeps step_keeps assignments_keep assign_keeps unassign_keeps has_owner_keeps list_keys_keeps
  drop_key_keeps emit_keeps work_keeps revoke_family_keeps link_consume_keeps sweep_keeps : console.

Ltac console_leaf :=
  idtac;
  match goal with
  | |- triple _ (deny _ _ _) _ => apply emit_keeps
  | |- triple _ (emit _ _ _ _ _) _ => apply emit_keeps
  | |- triple _ (or_refused _) _ => apply triple_map_err
  | |- triple evolved _ _ => solve [auto with console nocore]
  end.
(** A drawn secret is remembered; a new row is one the predicate allows. *)
Ltac drawn :=
  match goal with
  | |- triple _ (fresh_secret _ _ ≫= _) _ => eapply triple_bind; [apply fresh_keeps|intros ? ?]
  | |- triple _ (new_key _ ≫= _) _ => eapply triple_bind; [apply new_key_keeps|intros [[? ?] ?] ?]
  | |- triple _ (CreatePlatformAPIKey _ _ _ _ _ _ _) _ => by apply make_key_keeps
  | |- triple _ (AppendRefresh _ _ _ _ _) _ => by apply append_keeps
  end.
Ltac walk := repeat first [drawn | walk_step console_leaf].

Lemma hash_keeps pw : triple evolved (hash_password cc pw) (fun _ => True).
Proof. unfold hash_password. walk. Qed.
Lemma valid_keeps p : triple evolved (stillValid env p) (fun _ => True).
Proof. unfold stillValid. walk. Qed.
#[local] Hint Resolve hash_keeps valid_keeps : console.

Lemma require_keeps perm : triple evolved (require env cc perm) (fun _ => True).
Proof. unfold require. walk. Qed.
Lemma live_keeps : triple evolved (live env cc) (fun _ => True).
Proof. unfold live. walk. Qed.
Lemma token_keeps a b c d : triple evolved (mint cc a b c d) (fun _ => True).
Proof. unfold mint, signClaims. walk. Qed.
Lemma challenge_keeps a b : triple evolved (challenge cc a b) (fun _ => True).
Proof. unfold challenge. walk. Qed.
Lemma must_keeps a : triple evolved (mustRehash cc a) (fun _ => True).
Proof. unfold mustRehash. walk. Qed.
Lemma roles_keep a b : triple evolved (liveRoles env a b) (fun _ => True).
Proof. unfold liveRoles. walk. Qed.
Lemma open_keeps a : triple evolved (open_challenge cc a) (fun _ => True).
Proof. unfold open_challenge. walk. Qed.
Lemma reuse_keeps r : triple evolved (refreshReuse env cc r) (fun _ => True).
Proof. unfold refreshReuse. walk. Qed.
#[local] Hint Resolve require_keeps live_keeps token_keeps challenge_keeps must_keeps roles_keep open_keeps reuse_keeps : console.

Lemma begin_keeps who roles i : triple evolved (beginSession env cc who roles (cc_clock cc i)) (fun _ => True).
Proof.
  unfold beginSession. walk. apply family_keeps; [by exists i|done].
Qed.
#[local] Hint Resolve begin_keeps : console.

Lemma Login_keeps u pw : triple evolved (Login env cc u pw) (fun _ => True).
Proof. unfold Login. cbv zeta. walk. Qed.

Lemma VerifyMFA_keeps t c : triple evolved (VerifyMFA env cc t c) (fun _ => True).
Proof. unfold VerifyMFA. cbv zeta. walk. Qed.

Lemma Refresh_keeps t : triple evolved (Refresh env cc t) (fun _ => True).
Proof.
  unfold Refresh. cbv zeta. destruct (bool_decide _); [apply triple_raise|].
  eapply triple_bind; [apply by_hash_keeps|]. intros [rec|] Hrec; [|walk]. pose proof (Hrec _ eq_refl) as Hok.
  walk.
Qed.

Lemma Logout_keeps t : triple evolved (Logout env cc t) (fun _ => True).
Proof. unfold Logout. walk; apply (triple_weaken _ _ _ _ (by_hash_keeps _)); done. Qed.

Lemma MyTenants_keeps : triple evolved (MyTenants env cc) (fun _ => True).
Proof. unfold MyTenants. cbv zeta. walk. Qed.

Lemma Begin_keeps : triple evolved (BeginTOTPEnrolment env cc) (fun _ => True).
Proof. unfold BeginTOTPEnrolment. walk. Qed.

Lemma Confirm_keeps c : triple evolved (ConfirmTOTPEnrolment env cc c) (fun _ => True).
Proof. unfold ConfirmTOTPEnrolment. walk. Qed.

Lemma Change_keeps a b : triple evolved (ChangePassword env cc a b) (fun _ => True).
Proof. unfold ChangePassword. walk. Qed.

Lemma CreateOperator_keeps i : triple evolved (CreateOperator env cc i) (fun _ => True).
Proof.
  unfold CreateOperator, name_taken, OperatorAdmin.InTx. cbv zeta. walk.
Qed.

Lemma AssignOperator_keeps i : triple evolved (AssignOperator env cc i) (fun _ => True).
Proof. unfold AssignOperator, operator_named. cbv zeta. walk. Qed.

Lemma Revoke_keeps i : triple evolved (RevokeAssignment env cc i) (fun _ => True).
Proof. unfold RevokeAssignment, lastOwnerCheck. cbv zeta. walk. Qed.

Lemma Status_keeps a b : triple evolved (SetOperatorStatus env cc a b) (fun _ => True).
Proof. unfold SetOperatorStatus. cbv zeta. walk. Qed.

Lemma Reset_keeps a : triple evolved (ResetOperatorPassword env cc a) (fun _ => True).
Proof. unfold ResetOperatorPassword. cbv zeta. walk. Qed.

Lemma CreateKey_keeps i : triple evolved (CreateAPIKey env cc i) (fun _ => True).
Proof. unfold CreateAPIKey. cbv zeta. walk. Qed.

Lemma RevokeKey_keeps i : triple evolved (RevokeAPIKey env cc i) (fun _ => True).
Proof. unfold RevokeAPIKey. walk. Qed.

End Walk.

(** ** Histories *)

(** Whole requests, by anyone, with any database faults, a key's use and the
    sweep among them; [given] restricts what the environment draws. *)
Inductive Request :=
| ReqLogin (username password : string)
| ReqVerifyMFA (token code : string)
| ReqRefresh (token : string)
| ReqLogout (token : string)
| ReqChangePassword (current next : string)
| ReqBegin
| ReqConfirm (code : string)
| ReqMyTenants
| ReqCreateOperator (inp : CreateOperatorInput)
| ReqAssignOperator (inp : AssignOperatorInput)
| ReqRevokeAssignment (id : string)
| ReqSetStatus (id status : string)
| ReqResetPassword (id : string)
| ReqCreateKey (inp : CreateAPIKeyInput)
| ReqRevokeKey (id : string)
| ReqKeyUsed (id : string)
| ReqSweep.

Definition perform (env : CtlEnv) (cc : CCtx) (req : Request) (s : CStore) : CStore :=
  match req with
  | ReqLogin u pw => snd (Login env cc u pw s)
  | ReqVerifyMFA t c => snd (VerifyMFA env cc t c s)
  | ReqRefresh t => snd (Refresh env cc t s)
  | ReqLogout t => snd (Logout env cc t s)
  | ReqChangePassword a b => snd (ChangePassword env cc a b s)
  | ReqBegin => snd (BeginTOTPEnrolment env cc s)
  | ReqConfirm c => snd (ConfirmTOTPEnrolment env cc c s)
  | ReqMyTenants => snd (MyTenants env cc s)
  | ReqCreateOperator i => snd (CreateOperator env cc i s)
  | ReqAssignOperator i => snd (AssignOperator env cc i s)
  | ReqRevokeAssignment i => snd (RevokeAssignment env cc i s)
  | ReqSetStatus a b => snd (SetOperatorStatus env cc a b s)
  | ReqResetPassword a => snd (ResetOperatorPassword env cc a s)
  | ReqCreateKey i => snd (CreateAPIKey env cc i s)
  | ReqRevokeKey i => snd (RevokeAPIKey env cc i s)
  | ReqKeyUsed i => snd (TouchPlatformAPIKeyUsed env i s)
  | ReqSweep => snd (SweepExpired env s)
  end.

Inductive console (given : CtlEnv -> CCtx -> Prop) (s : CStore) : CStore -> Prop :=
| console_refl : console given s s
| console_step s1 env cc req : console given s s1 -> given env cc -> console given s (perform env cc req s1).

Lemma request_evolves env cc req s : evolved env cc s (perform env cc req s).
Proof.
  destruct req; cbn [perform]; (eapply triple_after; [|apply ev_start]);
    eauto using Login_keeps, VerifyMFA_keeps, Refresh_keeps, Logout_keeps, Change_keeps, Begin_keeps, Confirm_keeps, MyTenants_keeps,
      CreateOperator_keeps, AssignOperator_keeps, Revoke_keeps, Status_keeps, Reset_keeps, CreateKey_keeps, RevokeKey_keeps, touch_key_keeps, sweep_keeps.
Qed.

(** An invariant that every move of an allowed request keeps. *)
Lemma console_keeps (Q : CStore -> Prop) given s s' :
  (forall env cc s1 s2, given env cc -> Q s1 -> evolved env cc s1 s2 -> Q s2) -> console given s s' -> Q s -> Q s'.
Proof. intros Hst H Hs. induction H as [|s1 env cc req _ IH Hg]; [done|]. eapply Hst; [done|exact IH|apply request_evolves]. Qed.

End Carried.
End ConsoleMoves.
