(* ===== verification/ConsoleProps.v ===== *)
(** internal/control/app: the console's sessions, over any history of requests.
    A predicate on the refresh table is carried through every handler; with it a
    refresh token rotates once, a replay ends its family, and a family ends when
    its sign-in said it would. *)

From Stdlib Require Import ZArith Lia Bool Ascii String.
From stdpp Require Import base gmap strings list sorting.
From S2P Require Import Prelude.
From S2P Require Import Triples.
From S2P Require Import GoStrings.
From S2P Require Import GoConv.
From S2P Require Import Secrets.
From S2P Require Import Tokens.
From S2P Require Import Keyring.
From S2P Require Import LocalTokens.
From S2P Require Import Sdk.
From S2P Require Import Shared.
From S2P Require Import AuthStore.
From S2P Require Import TokenIssuer.
From S2P Require Import AdminGuard.
From S2P Require Import ControlStore.
From S2P Require Import PlatformAuth.
From S2P Require Import OperatorAdmin.
From S2P Require Import ConsoleMoves.
From S2P Require Import TokenProps.
From S2P Require Import AuthTheorems.

Module ConsoleProps.
Import Triples Apperr Authctx Issuer Operator Uuid ControlStore PlatformAuth OperatorAdmin ConsoleMoves.

Section Carried.
Context `{P : TokenPrims} `{IP : IssuerPrims} `{K : KdfPrims} `{A : AeadPrims} `{J : LocalToken.EnvelopeJson} `{CP : ConsolePrims}.

(** ** What a predicate on the refresh table needs *)

(** [ok] is what is known of a row that was read. *)
Record stable (R : list PlatformRefresh -> Prop) (ok : PlatformRefresh -> Prop) (env : CtlEnv) (cc : CCtx) : Prop := {
  sb_marks p f l : (forall r, p r = true -> fades r (f r)) -> R l -> R (update_where p f l);
  sb_fewer p l : R l -> R (List.filter p l);
  sb_read r l : R l -> r ∈ l -> ok r;
  sb_root user raw ends l : R l -> given_at cc ends -> secret_New (cc_rand cc 0) = Some raw -> Hash raw ∉ map pr_Hash l ->
    R (l ++ [refresh_row env user (ct_refresh_id env) (Hash raw) ends]);
  sb_next user family raw r l : R l -> ok r -> Spent r = false -> secret_New (cc_rand cc 0) = Some raw ->
    Hash raw ∉ map pr_Hash l -> canon (pr_FamilyID r) = Some family -> R (l ++ [refresh_row env user family (Hash raw) (pr_ExpiresAt r)])
}.

Lemma evolved_links R ok env cc s s' : stable R ok env cc -> R (cs_refresh s) -> evolved env cc s s' -> R (cs_refresh s').
Proof.
  intros Hst Hs H. induction H; simpl; try done; try congruence.
  - by apply (sb_marks _ _ _ _ Hst).
  - by apply (sb_fewer _ _ _ _ Hst).
  - by apply (sb_root _ _ _ _ Hst).
  - eapply (sb_next _ _ _ _ Hst); eauto. by eapply (sb_read _ _ _ _ Hst).
Qed.

Lemma links_keep R ok given s s' :
  (forall env cc, given env cc -> stable R ok env cc) -> console given s s' -> R (cs_refresh s) -> R (cs_refresh s').
Proof.
  intros Hst. apply (console_keeps (fun s => R (cs_refresh s))). intros env cc s1 s2 Hg Hs He. by eapply evolved_links; eauto.
Qed.

(** *** A property of every row *)

Definition canonical (r : PlatformRefresh) : Prop := canon (pr_ID r) = Some (pr_ID r) /\ canon (pr_FamilyID r) = Some (pr_FamilyID r).
#[export] Instance canonical_dec r : Decision (canonical r).
Proof. unfold canonical. apply _. Defined.
Definition every (X : PlatformRefresh -> Prop) (l : list PlatformRefresh) : Prop := forall r, r ∈ l -> canonical r /\ X r.
Definition prints (env : CtlEnv) : Prop := canon (ct_refresh_id env) = Some (ct_refresh_id env).

Lemma stable_every X env cc :
  prints env -> (forall r r', fades r r' -> X r -> X r') ->
  (forall user raw ends, given_at cc ends -> secret_New (cc_rand cc 0) = Some raw -> X (refresh_row env user (ct_refresh_id env) (Hash raw) ends)) ->
  (forall user raw r, X r -> Spent r = false -> secret_New (cc_rand cc 0) = Some raw ->
     X (refresh_row env user (pr_FamilyID r) (Hash raw) (pr_ExpiresAt r))) ->
  stable (every X) (fun r => canonical r /\ X r) env cc.
Proof.
  intros Hid Hf Hroot Hnext. split.
  - intros p f l Hp HR r' (r & Hr & ->)%elem_of_update_where. destruct (HR r Hr) as [[H1 H2] H3].
    destruct (p r) eqn:E; [|done]. pose proof (Hp r E) as Hfd. unfold canonical.
    rewrite (fd_id _ _ Hfd), (fd_family _ _ Hfd). split; [done|]. by eapply Hf.
  - intros p l HR r [Hr _]%list_elem_of_In%filter_In. apply HR. by apply list_elem_of_In.
  - intros r l HR. apply HR.
  - intros user raw ends l HR Hends Hraw _ r [Hr| ->%list_elem_of_singleton]%elem_of_app; [by apply HR|]. split; [by split|by apply Hroot].
  - intros user family raw r l HR [[_ Hfam] HX] Hsp Hraw _ Hc r' [Hr| ->%list_elem_of_singleton]%elem_of_app; [by apply HR|].
    rewrite Hfam in Hc. injection Hc as <-. split; [by split|by apply Hnext].
Qed.

(** *** Hashes are unique *)

Definition wf (l : list PlatformRefresh) : Prop := every (fun _ => True) l /\ NoDup (map pr_Hash l).

Lemma NoDup_filter_map {B} (g : PlatformRefresh -> B) p l : NoDup (map g l) -> NoDup (map g (List.filter p l)).
Proof.
  induction l as [|r l IH]; simpl; [done|]. intros [Hn Hl]%NoDup_cons. destruct (p r); [|by apply IH]. simpl. apply NoDup_cons.
  split; [|by apply IH]. intros (r' & E & [Hr' _]%list_elem_of_In%filter_In)%list_elem_of_fmap. apply Hn, list_elem_of_fmap.
  exists r'. split; [done|]. by apply list_elem_of_In.
Qed.

Lemma stable_wf env cc : prints env -> stable wf canonical env cc.
Proof.
  intros Hid. pose proof (stable_every (fun _ => True) env cc Hid ltac:(done) ltac:(done) ltac:(done)) as Hev. split.
  - intros p f l Hp [H1 H2]. split; [by apply (sb_marks _ _ _ _ Hev)|]. unfold update_where. rewrite map_map.
    erewrite map_ext_in; [exact H2|]. intros r _. destruct (p r) eqn:E; [|done]. by apply (fd_hash _ _ (Hp r E)).
  - intros p l [H1 H2]. split; [by apply (sb_fewer _ _ _ _ Hev)|by apply NoDup_filter_map].
  - intros r l [H1 _] Hr. by apply H1.
  - intros user raw ends l [H1 H2] Hends Hraw Hn. split; [by apply (sb_root _ _ _ _ Hev)|]. rewrite map_app. by apply NoDup_snoc.
  - intros user family raw r l [H1 H2] Hc Hsp Hraw Hn Hf. split; [by eapply (sb_next _ _ _ _ Hev)|]. rewrite map_app. by apply NoDup_snoc.
Qed.

(** ** One rotation *)

Lemma ctl_guarded_ok {X} env op (m : Eff CStore Error X) a s s' : guarded env op m s = (Ok a, s') -> m s = (Ok a, s').
Proof. unfold guarded. by destruct (ct_fails env op). Qed.

Lemma with_uuid_ok {X} id (k : string -> Eff CStore Error X) a s s' :
  with_uuid id k s = (Ok a, s') -> exists c, canon id = Some c /\ k c s = (Ok a, s').
Proof. unfold with_uuid. destruct (canon id) as [c|]; [|done]. by exists c. Qed.

Lemma by_id_ok env id o s s' :
  PlatformUserByID env id s = (Ok o, s') ->
  s' = s /\ exists c, canon id = Some c /\ o = (fun r => (userOf r, pu_PasswordHash r)) <$> row_of c s.
Proof. intros (c & Hc & H%ctl_guarded_ok)%with_uuid_ok. injection H as <- <-. eauto. Qed.

Lemma liveRoles_ok env id now r s s' :
  liveRoles env id now s = (Ok r, s') ->
  s' = s /\ exists all, fst (Assignments env s) = Ok all /\ fst r = map a_Role (mine_of id now all) /\
    (snd r = true <-> exists a, a ∈ all /\ a_OperatorID a = id /\ Live a now = true).
Proof.
  unfold liveRoles. intros (all & s1 & H1 & [= <- <-])%bind_ok. pose proof H1 as H2. apply ctl_guarded_ok in H2. injection H2 as _ <-.
  split; [done|]. exists all. rewrite H1. split; [done|]. split; [done|]. simpl. rewrite negb_true_iff, bool_decide_eq_false.
  unfold mine_of. split.
  - intros Hne. destruct (List.filter _ all) as [|a l] eqn:E; [done|]. exists a.
    assert (a ∈ List.filter (fun a => bool_decide (a_OperatorID a = id) && Live a now) all) as Ha by (rewrite E; by left).
    apply list_elem_of_In, filter_In in Ha as [Hin Hb]. unbool. split; [by apply list_elem_of_In|done].
  - intros (a & Hin & Ho & Hl) Hn. apply map_eq_nil in Hn.
    assert (a ∈ List.filter (fun a => bool_decide (a_OperatorID a = id) && Live a now) all) as Ha.
    { apply list_elem_of_In, filter_In. split; [by apply list_elem_of_In|]. rewrite Hl. by rewrite bool_decide_eq_true_2. }
    rewrite Hn in Ha. by apply not_elem_of_nil in Ha.
Qed.

(** What a rotation found and what it leaves. *)
Record rotated (env : CtlEnv) (cc : CCtx) (tok : string) (s s' : CStore) (sess : PlatformSession) (rec : PlatformRefresh) : Prop := {
  ro_found : find (fun r => bool_decide (pr_Hash r = Hash tok)) (cs_refresh s) = Some rec;
  ro_unspent : Spent rec = false;
  ro_in_time : (cc_clock cc 0 <= pr_ExpiresAt rec)%Z;
  ro_person : exists c u, canon (pr_UserID rec) = Some c /\ row_of c s = Some u /\ pu_Status u = "active"%string;
  ro_table : exists id user family raw, canon (pr_ID rec) = Some id /\ canon (pr_FamilyID rec) = Some family /\
    ps_RefreshToken sess = raw /\
    insert_refresh (refresh_row env user family (Hash raw) (pr_ExpiresAt rec))
      (with_refresh s (update_where (consumable id) (fun r => set_refresh (Some (ct_now env)) (pr_RevokedAt r) r) (cs_refresh s))) = (Ok tt, s')
}.

Lemma Refresh_ok env cc tok s sess s' : Refresh env cc tok s = (Ok sess, s') -> exists rec, rotated env cc tok s s' sess rec.
Proof.
  unfold Refresh. cbv zeta. destruct (bool_decide _); [done|].
  intros (o & s1 & H1%ctl_guarded_ok & H)%bind_ok. injection H1 as Ho <-. destruct o as [rec|]; [|done].
  destruct (time_after _ _) eqn:Hexp; [done|]. destruct (Spent rec) eqn:Hsp; [by apply bind_ok in H as (? & ? & ? & ?)|].
  apply bind_ok in H as (ok & s2 & (id & Hid & Hc%ctl_guarded_ok)%with_uuid_ok & H). injection Hc as <- <-.
  destruct (existsb _ _); cbn [negb] in H; [|by apply bind_ok in H as (? & ? & ? & ?)].
  apply bind_ok in H as (o & s3 & (-> & c & Hcu & ->)%by_id_ok & H).
  destruct (row_of c _) as [u|] eqn:Hu; [|done]. cbn [fmap option_fmap option_map] in H.
  destruct (Active (userOf u)) eqn:Hact; cbn [negb] in H; [|done].
  apply bind_ok in H as (r & s4 & (-> & _)%liveRoles_ok & H). destruct (snd r); cbn [negb] in H; [|done].
  apply bind_ok in H as (token & s5 & Hm & H).
  assert (s5 = with_refresh s (update_where (consumable id) (fun r => set_refresh (Some (ct_now env)) (pr_RevokedAt r) r) (cs_refresh s))) as ->.
  { unfold mint, signClaims in Hm. apply bind_ok in Hm as (? & ? & [= _ <-] & Hm).
    apply bind_ok in Hm as (? & ? & [= _ <-] & Hm). by injection Hm as _ <-. }
  apply bind_ok in H as (raw & s6 & [= _ <-] & H).
  apply bind_ok in H as ([] & s7 & (user & _ & (fam & Hfam & Hins%ctl_guarded_ok)%with_uuid_ok)%with_uuid_ok & H).
  injection H as <- <-. exists rec. unfold time_after in Hexp. unbool. split; [done|done|done| |].
  - exists c, u. unfold Active in Hact. by unbool.
  - exists id, user, fam, raw. done.
Qed.

Lemma insert_ok row s s' :
  insert_refresh row s = (Ok tt, s') -> cs_refresh s' = cs_refresh s ++ [row] /\ pr_Hash row ∉ map pr_Hash (cs_refresh s).
Proof.
  unfold insert_refresh. destruct (existsb _ _) eqn:E; [done|]. destruct (negb _); [done|]. intros [= <-]. split; [done|].
  intros (r & Hh & Hin)%list_elem_of_fmap. apply not_true_iff_false in E. apply E, existsb_spec. exists r. split; [done|].
  by apply bool_decide_eq_true.
Qed.

(** ** Sessions of the console *)

Definition spent_hash (h : string) (r : PlatformRefresh) : Prop := pr_Hash r = h -> Spent r = true.
Definition family_over (f : string) (r : PlatformRefresh) : Prop := pr_FamilyID r = f -> is_Some (pr_RevokedAt r).
Definition family_ends (f : string) (ends : Time) (r : PlatformRefresh) : Prop := pr_FamilyID r = f -> (pr_ExpiresAt r <= ends)%Z.

(** What is drawn later is not a hash that is watched, nor a family. *)
Definition draws_not (h : string) (env : CtlEnv) (cc : CCtx) : Prop :=
  prints env /\ forall raw, secret_New (cc_rand cc 0) = Some raw -> Hash raw <> h.
Definition other_family (f : string) (env : CtlEnv) (cc : CCtx) : Prop := prints env /\ ct_refresh_id env <> f.

Lemma spent_hash_stays h s s' : console (draws_not h) s s' -> every (spent_hash h) (cs_refresh s) -> every (spent_hash h) (cs_refresh s').
Proof.
  apply (links_keep (every (spent_hash h)) (fun r => canonical r /\ spent_hash h r)). intros env cc [Hid Hraw]. apply stable_every; [done|..].
  - intros r r' Hf HX Hh. apply (fades_spent r r' Hf), HX. by rewrite <- (fd_hash _ _ Hf).
  - intros user raw ends _ Hr Hh. by destruct (Hraw raw Hr).
  - intros user raw r _ _ Hr Hh. by destruct (Hraw raw Hr).
Qed.

Lemma family_over_stays f s s' : console (other_family f) s s' -> every (family_over f) (cs_refresh s) -> every (family_over f) (cs_refresh s').
Proof.
  apply (links_keep (every (family_over f)) (fun r => canonical r /\ family_over f r)). intros env cc [Hid Hne]. apply stable_every; [done|..].
  - intros r r' Hf HX Hh. apply (fd_revoked _ _ Hf), HX. by rewrite <- (fd_family _ _ Hf).
  - intros user raw ends _ Hr Hh. done.
  - intros user raw r HX Hsp _ Hh. destruct (unspent r Hsp) as [_ Hno]. specialize (HX Hh). rewrite Hno in HX. by destruct HX.
Qed.

(** A family of this id is given no later end. *)
Definition begins_by (f : string) (ends : Time) (env : CtlEnv) (cc : CCtx) : Prop :=
  prints env /\ (ct_refresh_id env = f -> forall i, (cc_clock cc i + platformRefreshFamilyTTL <= ends)%Z).

Lemma family_ends_stays f e s s' : console (begins_by f e) s s' -> every (family_ends f e) (cs_refresh s) -> every (family_ends f e) (cs_refresh s').
Proof.
  apply (links_keep (every (family_ends f e)) (fun r => canonical r /\ family_ends f e r)). intros env cc [Hid Hby]. apply stable_every; [done|..].
  - intros r r' Hf HX Hh. rewrite (fd_ends _ _ Hf). apply HX. by rewrite <- (fd_family _ _ Hf).
  - intros user raw ends [i ->] Hr Hh. by apply Hby.
  - intros user raw r HX _ _ Hh. by apply HX.
Qed.

Lemma at_most_one l h r1 r2 : NoDup (map pr_Hash l) -> r1 ∈ l -> r2 ∈ l -> pr_Hash r1 = h -> pr_Hash r2 = h -> r1 = r2.
Proof. intros HN H1 H2 E1 E2. apply (NoDup_map_inj pr_Hash l); congruence. Qed.

(** The links after a rotation are canonical, the one presented is spent. *)
Lemma rotated_spent env cc tok s s1 sess rec :
  wf (cs_refresh s) -> prints env -> rotated env cc tok s s1 sess rec -> every (spent_hash (Hash tok)) (cs_refresh s1).
Proof.
  intros [Hev HN] Hid [Hfound Hsp _ _ (id & user & fam & raw & Hidr & Hfam & _ & Hins)].
  apply find_some in Hfound as [Hin Hh]. unbool. apply list_elem_of_In in Hin. destruct (Hev rec Hin) as [[Hc1 Hc2] _].
  rewrite Hc1 in Hidr. injection Hidr as <-. rewrite Hc2 in Hfam. injection Hfam as <-.
  apply insert_ok in Hins as [-> Hnew]. simpl in Hnew. rewrite update_where_map in Hnew by done. simpl.
  intros r [(r0 & Hr0 & ->)%elem_of_update_where| ->%list_elem_of_singleton]%elem_of_app.
  - destruct (Hev r0 Hr0) as [Hcan _]. destruct (consumable (pr_ID rec) r0) eqn:Hcon; simpl.
    + split; [done|]. intros _. apply Spent_spec. left. by eexists.
    + split; [done|]. intros Hr0h. assert (r0 = rec) as -> by (by eapply at_most_one).
      unfold consumable in Hcon. rewrite Hsp, bool_decide_eq_true_2 in Hcon; done.
  - split; [by split|]. intros Hraw. simpl in Hraw. destruct Hnew. rewrite Hraw. apply list_elem_of_fmap. exists rec. by split.
Qed.

(** C27: a console's refresh token buys one session.  A rotation presents the
    hash of a link that is unspent and in its time, and answers a successor of
    the same family that ends when the family does; afterwards, whatever requests
    come and whatever fails, the same token never refreshes again. *)
Theorem console_refresh_single_use env cc tok s sess s1 :
  wf (cs_refresh s) -> prints env -> Refresh env cc tok s = (Ok sess, s1) ->
  (exists rec next, rec ∈ cs_refresh s /\ pr_Hash rec = Hash tok /\ Spent rec = false /\ (cc_clock cc 0 <= pr_ExpiresAt rec)%Z /\
     next ∈ cs_refresh s1 /\ pr_Hash next = Hash (ps_RefreshToken sess) /\ Spent next = false /\
     pr_FamilyID next = pr_FamilyID rec /\ pr_ExpiresAt next = pr_ExpiresAt rec) /\
  forall s2, console (draws_not (Hash tok)) s1 s2 -> forall env' cc' sess', fst (Refresh env' cc' tok s2) <> Ok sess'.
Proof.
  intros Hwf Hid H. apply Refresh_ok in H as [rec Hro]. pose proof (rotated_spent _ _ _ _ _ _ _ Hwf Hid Hro) as Hspent. split.
  - destruct Hwf as [Hev _]. destruct Hro as [Hfound Hsp Ht _ (id & user & fam & raw & _ & Hfam & Hraw & Hins)].
    apply find_some in Hfound as [Hin Hh]. unbool. apply list_elem_of_In in Hin. destruct (Hev rec Hin) as [[_ Hc2] _].
    rewrite Hc2 in Hfam. injection Hfam as <-. apply insert_ok in Hins as [-> _]. eexists rec, _. split; [done|]. split; [done|].
    split; [done|]. split; [done|]. split; [apply elem_of_app; right; by apply list_elem_of_singleton|]. simpl. by rewrite Hraw.
  - intros s2 Hc env' cc' sess' Hok. destruct (Refresh env' cc' tok s2) as [r s3] eqn:E. simpl in Hok. subst r.
    apply Refresh_ok in E as [rec' [Hf Hsp _ _ _]]. apply find_some in Hf as [Hin Hh]. unbool. apply list_elem_of_In in Hin.
    destruct (spent_hash_stays _ _ _ Hc Hspent rec' Hin) as [_ HX]. by rewrite HX in Hsp.
Qed.

(** What a presentation of a spent link does. *)
Lemma replay_answers env cc tok s rec :
  tok <> ""%string -> find (fun r => bool_decide (pr_Hash r = Hash tok)) (cs_refresh s) = Some rec -> canonical rec ->
  Spent rec = true -> (cc_clock cc 0 <= pr_ExpiresAt rec)%Z ->
  ct_fails env OpRefreshByHash = false -> ct_fails env OpRevokeFamily = false ->
  let s1 := with_refresh s (update_where (in_live_family (pr_FamilyID rec)) (fun r => set_refresh (pr_UsedAt r) (Some (ct_now env)) r) (cs_refresh s)) in
  Refresh env cc tok s = (Err ErrRefreshReuse, snd (Emit (platform_event cc (pr_UserID rec) (pr_FamilyID rec) "token.reuse_detected" "deny"
    (<["plane" := "platform"]> ∅)) s1)).
Proof.
  intros Htok Hf [_ Hc2] Hsp Ht H1 H2. unfold Refresh. cbv zeta. rewrite bool_decide_eq_false_2 by done.
  unfold mbind at 1, eff_bind at 1, RefreshByHash, guarded at 1. rewrite H1. unfold Hash in *. rewrite Hf.
  assert (time_after (cc_clock cc 0) (pr_ExpiresAt rec) = false) as -> by (unfold time_after; lia).
  rewrite Hsp. unfold refreshReuse, mbind, eff_bind, attempt, RevokeRefreshFamily, with_uuid. rewrite Hc2. unfold guarded. rewrite H2. done.
Qed.

(** Presenting a spent token of the console ends the whole sign-in: the
    answer is that reuse was detected and it is recorded, and afterwards,
    whatever requests come and whatever fails, no token of the family refreshes. *)
Theorem console_family_over env cc tok s rec :
  wf (cs_refresh s) -> tok <> ""%string -> find (fun r => bool_decide (pr_Hash r = Hash tok)) (cs_refresh s) = Some rec ->
  Spent rec = true -> (cc_clock cc 0 <= pr_ExpiresAt rec)%Z ->
  ct_fails env OpRefreshByHash = false -> ct_fails env OpRevokeFamily = false ->
  let '(r, s1) := Refresh env cc tok s in
  r = Err ErrRefreshReuse /\ (exists ev, last (cs_audit s1) = Some ev /\ AuthStore.au_Action ev = "token.reuse_detected"%string) /\
  forall s2, console (other_family (pr_FamilyID rec)) s1 s2 ->
    forall env' cc' tok' sess' s3, Refresh env' cc' tok' s2 = (Ok sess', s3) ->
      exists rec', rec' ∈ cs_refresh s2 /\ pr_Hash rec' = Hash tok' /\ pr_FamilyID rec' <> pr_FamilyID rec.
Proof.
  intros [Hev HN] Htok Hf Hsp Ht H1 H2. pose proof Hf as Hin. apply find_some in Hin as [Hin _]. apply list_elem_of_In in Hin.
  destruct (Hev rec Hin) as [Hcan _]. rewrite (replay_answers env cc tok s rec Htok Hf Hcan Hsp Ht H1 H2). split; [done|]. split.
  { eexists. simpl. by rewrite last_snoc. }
  intros s2 Hc env' cc' tok' sess' s3 [rec' [Hf' Hsp' _ _ _]]%Refresh_ok. apply find_some in Hf' as [Hin' Hh]. unbool.
  apply list_elem_of_In in Hin'. exists rec'. split; [done|]. split; [done|]. intros E.
  assert (every (family_over (pr_FamilyID rec)) (cs_refresh s2)) as Hover.
  { apply (family_over_stays _ _ _ Hc). simpl. intros r (r0 & Hr0 & ->)%elem_of_update_where. destruct (Hev r0 Hr0) as [Hc0 _].
    destruct (in_live_family (pr_FamilyID rec) r0) eqn:El; [split; [done|]; intros _; by eexists|]. split; [done|]. intros Ef.
    unfold in_live_family in El. rewrite bool_decide_eq_true_2 in El by done. unbool. by destruct (pr_RevokedAt r0). }
  destruct (Hover rec' Hin') as [_ HX]. destruct (unspent rec' Hsp') as [_ Hno]. specialize (HX E). rewrite Hno in HX. by destruct HX.
Qed.

(** C28: a sign-in does not slide.  When every sign-in that could have begun a
    family happened before [t], no rotation, however often it is repeated and
    whatever else is asked of the console, refreshes that family later than
    twelve hours after [t]. *)
Theorem console_session_ends f t s s' env cc tok sess s2 :
  wf (cs_refresh s) -> f ∉ map pr_FamilyID (cs_refresh s) ->
  console (begins_by f (t + platformRefreshFamilyTTL)) s s' -> Refresh env cc tok s' = (Ok sess, s2) ->
  exists rec, rec ∈ cs_refresh s' /\ pr_Hash rec = Hash tok /\ (pr_FamilyID rec = f -> (cc_clock cc 0 <= t + platformRefreshFamilyTTL)%Z).
Proof.
  intros [Hev _] Hf Hc [rec [Hfound _ Ht _ _]]%Refresh_ok. apply find_some in Hfound as [Hin Hh]. unbool. apply list_elem_of_In in Hin.
  exists rec. split; [done|]. split; [done|]. intros Hfam.
  assert (every (family_ends f (t + platformRefreshFamilyTTL)) (cs_refresh s')) as He.
  { apply (family_ends_stays _ _ _ _ Hc). intros r Hr. split; [by apply Hev|]. intros E. destruct Hf. apply list_elem_of_fmap. by exists r. }
  destruct (He rec Hin) as [_ HX]. specialize (HX Hfam). lia.
Qed.

End Carried.

(** ** A sample console *)
Module Sample.
Import AuthTheorems.Sample Apperr.
#[local] Existing Instance Toy.prims.
#[local] Existing Instance issuer_prims.
#[local] Existing Instance ToyKdf.prims.
#[local] Existing Instance ToyAead.prims.

#[local] Instance envelopes : LocalToken.EnvelopeJson := {| LocalToken.json_envelope _ := None; LocalToken.json_parse_envelope _ := None |}.
#[local] Instance console_prims : ConsolePrims :=
  {| json_mfa s := Some s; json_parse_mfa s := Some s; console_hmac _ m := m |}.

Definition uuid (last : string) : string := ("0190a0b0-0000-7000-8000-00000000000" ++ last)%string.

Definition row (last token family : string) : PlatformRefresh := {|
  pr_ID := uuid last; pr_UserID := uuid "1"; pr_FamilyID := uuid family; pr_Hash := Hash token; pr_CreatedAt := now;
  pr_ExpiresAt := (now + 60 * second)%Z; pr_UsedAt := None; pr_RevokedAt := None |}.
Definition alice : UserRow := {|
  pu_ID := uuid "1"; pu_Username := "alice"; pu_Email := None; pu_PasswordHash := ToyKdf.hash; pu_Status := "active"; pu_TokenEpoch := 0;
  pu_CreatedAt := 0; pu_LastLoginAt := None; pu_DisabledAt := None; pu_TotpSecretEnc := None; pu_TotpEnrolledAt := None; pu_TotpLastStep := 0 |}.
Definition everywhere : AssignRow := {|
  as_ID := uuid "2"; as_OperatorID := uuid "1"; as_TenantID := None; as_Role := RoleOwner; as_GrantedBy := None; as_Reason := "";
  as_ValidUntil := None; as_RevokedAt := None; as_CreatedAt := 0 |}.
Definition store : CStore := {|
  cs_users := [alice]; cs_assign := [everywhere]; cs_refresh := [row "3" "tok" "3"; row "4" "other" "4"]; cs_keys := []; cs_audit := []; cs_work := [] |}.

Definition db (next : string) : CtlEnv := {|
  ct_fails _ := false; ct_now := now; ct_user_id := uuid next; ct_assign_id := uuid next; ct_refresh_id := uuid next; ct_key_id := uuid next;
  ct_lower s := str_lower s; ct_tenant _ := false; ct_slug s := s; ct_below _ := [] |}.
Definition ctx (draw : string) : CCtx := {|
  cc_caller := None; cc_ip := "192.0.2.1"; cc_issuer := "iss"; cc_ring := p_ring ports; cc_master := ""; cc_clock _ := now; cc_wall := now;
  cc_dummy := ToyKdf.hash; cc_salt := None; cc_rand _ := Some (draw ++ "0123456789abcdef0123456789abcde")%string; cc_nonce := "";
  cc_tenant_by_slug _ := None; cc_tenants := Some [] |}.

Definition rotation : result Error PlatformSession * CStore := Refresh (db "5") (ctx "a") "tok" store.
Definition session_of (r : result Error PlatformSession) : PlatformSession :=
  match r with
  | Ok s => s
  | Err _ => {| ps_AccessToken := ""; ps_RefreshToken := ""; ps_ExpiresIn := 0; ps_Username := ""; ps_Owner := false; ps_MFAToken := "" |}
  end.

Lemma rotation_ok : rotation = (Ok (session_of (fst rotation)), snd rotation).
Proof. vm_compute. reflexivity. Qed.

Lemma wf_decided l : bool_decide (Forall canonical l) && bool_decide (NoDup (map pr_Hash l)) = true -> wf l.
Proof.
  intros [H1%bool_decide_eq_true H2%bool_decide_eq_true]%andb_true_iff. split; [|done]. intros r Hr.
  rewrite Forall_forall in H1. split; [by apply H1|done].
Qed.

Lemma store_wf : wf (cs_refresh store).
Proof. apply wf_decided. vm_compute. reflexivity. Qed.

(** The rotated token is refused when it comes again, also after others came. *)
Lemma console_refresh_single_use_witness :
  ~ exists sess, fst (Refresh (db "7") (ctx "c") "tok" (perform (db "6") (ctx "b") (ReqRefresh "other") (snd rotation))) = Ok sess.
Proof.
  intros [sess H].
  destruct (console_refresh_single_use (db "5") (ctx "a") "tok" store _ _ store_wf eq_refl rotation_ok) as [_ Hno].
  apply (Hno (perform (db "6") (ctx "b") (ReqRefresh "other") (snd rotation))) in H; [done|].
  apply console_step; [apply console_refl|]. split; [reflexivity|]. intros raw Hr. vm_compute in Hr. injection Hr as <-. done.
Defined.

(** The successor dies with the family. *)
Lemma console_family_over_witness :
  ~ exists sess s3, Refresh (db "7") (ctx "c") (ps_RefreshToken (session_of (fst rotation))) (snd (Refresh (db "6") (ctx "b") "tok" (snd rotation)))
    = (Ok sess, s3).
Proof.
  intros (sess & s3 & H).
  pose (rec := set_refresh (Some now) None (row "3" "tok" "3")).
  assert (Hwf : wf (cs_refresh (snd rotation))) by (apply wf_decided; vm_compute; reflexivity).
  pose proof (console_family_over (db "6") (ctx "b") "tok" (snd rotation) rec Hwf ltac:(done) eq_refl eq_refl ltac:(done) eq_refl eq_refl) as Ho.
  destruct (Refresh (db "6") (ctx "b") "tok" (snd rotation)) as [r s1] eqn:E. destruct Ho as (_ & _ & Hno).
  destruct (Hno s1 (console_refl _ _) _ _ _ _ _ H) as (rec' & Hin & Hh & Hne).
  apply (f_equal snd) in E. vm_compute in E. cbn [snd] in H. rewrite <- E in Hin.
  repeat (apply elem_of_cons in Hin as [->|Hin]; [vm_compute in Hh; discriminate Hh || by apply Hne|]). by apply not_elem_of_nil in Hin.
Defined.

(** A sign-in begins family 9, and its token rotates in time. *)
Definition signed_in : CStore := perform (db "9") (ctx "d") (ReqLogin "alice" "secret") store.
Definition d_token : string := default ""%string (secret_New (cc_rand (ctx "d") 0)).
Definition later : result Error PlatformSession * CStore := Refresh (db "a") (ctx "e") d_token signed_in.

Lemma console_session_ends_witness :
  exists rec, rec ∈ cs_refresh signed_in /\ pr_Hash rec = Hash d_token /\
    (pr_FamilyID rec = uuid "9" -> (now <= now + platformRefreshFamilyTTL)%Z).
Proof.
  apply (console_session_ends (uuid "9") now store signed_in (db "a") (ctx "e") d_token (session_of (fst later)) (snd later) store_wf).
  - apply (bool_decide_unpack _). vm_compute. exact I.
  - apply console_step; [apply console_refl|]. split; [reflexivity|]. intros _ i. done.
  - vm_compute. reflexivity.
Defined.

End Sample.
End ConsoleProps.
