(* ===== verification/OperatorProps.v ===== *)
(** internal/control/app and internal/api/connect/authn_interceptor.go: what an
    operator's credentials are good for, and until when.  A password change, a
    reset and a disabling end every access token issued before; a machine key is
    its owner, with the owner's standing of now, until it expires or is revoked. *)

From Stdlib Require Import ZArith Lia Bool Ascii String.
From stdpp Require Import base gmap strings list sorting.
From S2P Require Import Prelude.
From S2P Require Import Triples.
From S2P Require Import GoStrings.
From S2P Require Import GoConv.
From S2P Require Import Secrets.
From S2P Require Import Tokens.
From S2P Require Import Keyring.
From S2P Require Import LocalTokens.
From S2P Require Import Sdk.
From S2P Require Import Shared.
From S2P Require Import AuthStore.
From S2P Require Import TokenIssuer.
From S2P Require Import AdminGuard.
From S2P Require Import ControlStore.
From S2P Require Import PlatformAuth.
From S2P Require Import OperatorAdmin.
From S2P Require Import Authn.
From S2P Require Import TokenProps.
From S2P Require Import AuthTheorems.
From S2P Require Import ConsoleMoves.
From S2P Require Import ConsoleProps.

(** ** The hash of a key as text *)
Module HexText.
Import Secret Authn.

Lemma nibble_digit d : (0 <= d < 16)%Z -> hexNibble (hex_digit d) = Some d.
Proof.
  intros Hd. assert (H : forallb (fun n => bool_decide (hexNibble (hex_digit (Z.of_nat n)) = Some (Z.of_nat n))) (seq 0 16) = true)
    by (vm_compute; reflexivity).
  rewrite forallb_forall in H. specialize (H (Z.to_nat d)). rewrite Z2Nat.id in H by lia. apply bool_decide_eq_true in H; [done|].
  apply in_seq. lia.
Qed.

Lemma nibbles_join c : chr (Z.lor (Z.shiftl (Z.shiftr (code c) 4) 4 mod 256) (Z.land (code c) 15)) = c.
Proof. destruct c as [[] [] [] [] [] [] [] []]; vm_compute; reflexivity. Qed.

Lemma hex_pairs_Hex b : hex_pairs (Hex b) = Some b.
Proof.
  induction b as [|c b IH]; [done|]. cbn [Hex hex_pairs]. pose proof (code_range c) as Hc.
  rewrite (nibble_digit (Z.shiftr (code c) 4)) by (rewrite Z.shiftr_div_pow2 by lia; change (2 ^ 4)%Z with 16%Z; split;
    [apply Z.div_pos; lia|apply Z.div_lt_upper_bound; lia]).
  rewrite (nibble_digit (Z.land (code c) 15)) by (change 15%Z with (Z.ones 4); rewrite Z.land_ones by lia; apply Z.mod_pos_bound; lia).
  cbn [mbind option_bind]. rewrite IH. cbn [mbind option_bind]. by rewrite nibbles_join.
Qed.

(** The stored text of a hash is read back as the hash. *)
Lemma mustHexOrRaw_Hex b : mustHexOrRaw (Hex b) = b.
Proof.
  unfold mustHexOrRaw, hexDecode. assert (Nat.odd (String.length (Hex b)) = false) as ->; [|by rewrite hex_pairs_Hex].
  induction b as [|c b IH]; [done|]. exact IH.
Qed.
End HexText.

Module OperatorProps.
Import Triples Apperr Authctx Issuer Operator Uuid ApiKeys Authn ControlStore PlatformAuth OperatorAdmin ConsoleMoves ConsoleProps.

Section Operators.
Context `{P : TokenPrims} `{IP : IssuerPrims} `{K : KdfPrims} `{A : AeadPrims} `{J : LocalToken.EnvelopeJson} `{CP : ConsolePrims}.

(** ** The guard *)

(** Who the guard lets do [perm]: an operator, active, at the token's epoch, with
    an assignment in force that allows it. *)
Record let_in (cc : CCtx) (env : CtlEnv) (s : CStore) (p : Principal) (id : string) (u : UserRow) : Prop := {
  li_caller : cc_caller cc = Some p; li_platform : Platform p = true;
  li_id : canon (IdentityID p) = Some id; li_row : row_of id s = Some u;
  li_active : pu_Status u = "active"%string; li_epoch : Epoch p = pu_TokenEpoch u
}.

Lemma stillValid_ok env p s s' :
  stillValid env p s = (Ok tt, s') ->
  s' = s /\ exists id u, canon (IdentityID p) = Some id /\ row_of id s = Some u /\ pu_Status u = "active"%string /\ Epoch p = pu_TokenEpoch u.
Proof.
  unfold stillValid. intros (r & s1 & H & Hk)%bind_ok. unfold attempt in H. destruct (PlatformUserByID env (IdentityID p) s) as [r0 s0] eqn:E.
  injection H as <- <-. destruct r0 as [[[w h]|]|e]; [|done..].
  apply by_id_ok in E as (-> & id & Hid & Ho). destruct (row_of id s) as [u|] eqn:Hu; [|done]. injection Ho as -> _.
  destruct (Active (userOf u)) eqn:Ha; [|done]. destruct (Epoch p =? _)%Z eqn:He; [|done]. injection Hk as <-.
  split; [done|]. exists id, u. unfold Active in Ha. unbool. done.
Qed.

Lemma require_ok env cc perm p mine s s' :
  require env cc perm s = (Ok (p, mine), s') ->
  s' = s /\ (exists id u, let_in cc env s p id u) /\ existsb (fun a => Allows (a_Role a) perm) mine = true.
Proof.
  unfold require. destruct (cc_caller cc) as [q|] eqn:Hq; [|done]. destruct (Platform q) eqn:Hp; [|done]. cbn [negb].
  intros ([] & s1 & (-> & id & u & Hid & Hu & Ha & He)%stillValid_ok & H)%bind_ok.
  apply bind_ok in H as (all & s2 & H2%ctl_guarded_ok & H). injection H2 as _ <-. destruct (bool_decide _); [done|].
  destruct (existsb _ _) eqn:Hx; [|done]. injection H as <- <- <-. split; [done|]. split; [|done]. exists id, u. by split.
Qed.

Lemma live_ok env cc p mine s s' : live env cc s = (Ok (p, mine), s') -> s' = s /\ exists id u, let_in cc env s p id u.
Proof.
  unfold live. destruct (cc_caller cc) as [q|] eqn:Hq; [|done]. destruct (Platform q) eqn:Hp; [|done]. cbn [negb].
  intros ([] & s1 & (-> & id & u & Hid & Hu & Ha & He)%stillValid_ok & H)%bind_ok.
  apply bind_ok in H as (all & s2 & H2%ctl_guarded_ok & H). injection H2 as _ <-. injection H as <- <- <-.
  split; [done|]. exists id, u. by split.
Qed.

(** ** Sessions that ended *)

(** The operator's epoch is past [e]. *)
Definition older (c : string) (e : Z) (s : CStore) : Prop := forall u, u ∈ cs_users s -> pu_ID u = c -> (e < pu_TokenEpoch u)%Z.
Definition other_user (c : string) (env : CtlEnv) (cc : CCtx) : Prop := ct_user_id env <> c.

Lemma older_stays c e s s' : console (other_user c) s s' -> older c e s -> older c e s'.
Proof.
  apply (console_keeps (older c e)). intros env cc s1 s2 Hne Hs1 Hev. induction Hev as [|sa sb _ IH E|p f sa _ IH Hag|row sa _ IH Hid| | | | | | | |]; try done.
  - intros u Hu. rewrite E in Hu. by apply IH.
  - intros u (u0 & Hu0 & ->)%elem_of_update_where. destruct (p u0) eqn:Ep; [|by apply IH].
    destruct (Hag u0 Ep) as [Hi _ He]. rewrite Hi. intros Hc. specialize (IH u0 Hu0 Hc). lia.
  - intros u [Hu| ->%list_elem_of_singleton]%elem_of_app Hc; [by apply IH|]. destruct Hne. by rewrite <- Hid.
Qed.

Lemma row_of_in c s u : row_of c s = Some u -> u ∈ cs_users s /\ pu_ID u = c.
Proof. intros [H1 H2]%find_some. unbool. split; [by apply list_elem_of_In|done]. Qed.

(** An update that raises the epoch of the rows of an operator. *)
Lemma raised_older c u f s :
  NoDup (map pu_ID (cs_users s)) -> row_of c s = Some u -> (forall v, pu_ID (f v) = pu_ID v) -> (forall v, (pu_TokenEpoch v < pu_TokenEpoch (f v))%Z) ->
  older c (pu_TokenEpoch u) (with_users s (update_where (is_user c) f (cs_users s))).
Proof.
  intros HN [Hu Hc]%row_of_in Hid Hep v (v0 & Hv0 & ->)%elem_of_update_where. destruct (is_user c v0) eqn:Ei.
  - rewrite Hid. intros Hv. assert (v0 = u) as -> by (apply (NoDup_map_inj pu_ID (cs_users s)); congruence). apply Hep.
  - intros Hv. unfold is_user in Ei. by unbool.
Qed.

Lemma canon_again s c c' : canon s = Some c -> canon c = Some c' -> c' = c.
Proof.
  unfold canon. destruct (ParseUUID s); [|done]. intros [= <-]. destruct (ParseUUID (str_lower s)); [|done]. intros [= <-].
  apply str_lower_again.
Qed.

Lemma update_users_ok p f n s s' : update_users p f s = (Ok n, s') -> s' = with_users s (update_where p f (cs_users s)).
Proof. by intros [= _ <-]. Qed.

Lemma SetPassword_ok env id c hash u s s' :
  NoDup (map pu_ID (cs_users s)) -> row_of c s = Some u -> canon id = Some c -> SetPassword env (pu_ID u) hash s = (Ok tt, s') -> older c (pu_TokenEpoch u) s'.
Proof.
  intros HN Hu Hid (c' & Hc & H%ctl_guarded_ok)%with_uuid_ok. destruct (row_of_in c s u Hu) as [_ E]. rewrite E in Hc.
  rewrite (canon_again id c c' Hid Hc) in H.
  apply bind_ok in H as (n & s1 & ->%update_users_ok & H). destruct (n =? 0)%nat; [done|]. injection H as <-.
  apply raised_older; try done. intros v. simpl. lia.
Qed.

(** What ends an operator's sessions: being disabled or reset by another, and a
    password change. *)
Inductive ends_sessions (env : CtlEnv) (cc : CCtx) (s : CStore) (c : string) : CStore -> Prop :=
| es_disable id s1 : canon id = Some c -> SetOperatorStatus env cc id "disabled" s = (Ok tt, s1) -> ends_sessions env cc s c s1
| es_reset id pw s1 : canon id = Some c -> ResetOperatorPassword env cc id s = (Ok pw, s1) -> ends_sessions env cc s c s1
| es_change p current next s1 : cc_caller cc = Some p -> canon (IdentityID p) = Some c ->
    ChangePassword env cc current next s = (Ok tt, s1) -> ends_sessions env cc s c s1.

Lemma hash_password_users cc pw h s s' : hash_password cc pw s = (Ok h, s') -> cs_users s' = cs_users s.
Proof.
  unfold hash_password. intros (salt & s1 & [= _ <-] & H)%bind_ok. unfold map_err, on_work in H.
  destruct (Kdf.Hash salt pw (cs_work s)) as [[h'|e] w]; by simplify_eq/=.
Qed.

Lemma ends_older env cc s c u s1 :
  NoDup (map pu_ID (cs_users s)) -> row_of c s = Some u -> ends_sessions env cc s c s1 -> older c (pu_TokenEpoch u) s1.
Proof.
  intros HN Hu [id s2 Hid H|id pw s2 Hid H|p cur next s2 Hcall Hid H].
  - unfold SetOperatorStatus in H. apply bind_ok in H as ([p mine] & s3 & (-> & _)%require_ok & H). cbv zeta in H. destruct (negb _); [done|].
    destruct (_ && _); [done|]. apply bind_ok in H as ([] & s3 & (c' & Hc & H2%ctl_guarded_ok)%with_uuid_ok & H). injection H as <-.
    rewrite Hid in Hc. injection Hc as <-. destruct (negb _); [done|]. apply bind_ok in H2 as (n & s4 & ->%update_users_ok & H2).
    destruct (n =? 0)%nat; [done|]. injection H2 as <-. apply (raised_older c u _ s HN Hu); [done|]. intros v. simpl. lia.
  - unfold ResetOperatorPassword in H. apply bind_ok in H as ([p mine] & s3 & (-> & _)%require_ok & H). cbv zeta in H.
    destruct (bool_decide _); [done|]. apply bind_ok in H as (o & s3 & (-> & c' & Hc & ->)%by_id_ok & H). rewrite Hid in Hc. injection Hc as <-.
    rewrite Hu in H. cbn [fmap option_fmap option_map] in H. apply bind_ok in H as (tmp & s3 & [= _ <-] & H).
    apply bind_ok in H as (hash & s3 & Hh%hash_password_users & H). apply bind_ok in H as ([] & s4 & Hs & H). injection H as _ <-.
    apply (SetPassword_ok env id c hash u s3 s4); [by rewrite Hh|unfold row_of; by rewrite Hh|done|done].
  - unfold ChangePassword in H. apply bind_ok in H as ([q mine] & s3 & (-> & id & w & Hli)%live_ok & H). cbn [fst] in H.
    pose proof (li_caller _ _ _ _ _ _ Hli) as Hq. rewrite Hcall in Hq. injection Hq as <-.
    apply bind_ok in H as (o & s3 & (-> & c' & Hc & ->)%map_err_ok%by_id_ok & H). rewrite Hid in Hc. injection Hc as <-.
    rewrite Hu in H. cbn [fmap option_fmap option_map] in H. apply bind_ok in H as (v & s3 & Hv & H).
    assert (cs_users s3 = cs_users s) as E3.
    { unfold attempt, on_work in Hv. destruct (Kdf.Verify _ _ _ _) as [r w']. by injection Hv as _ <-. }
    destruct (negb _); [by apply bind_ok in H as (? & ? & _ & ?)|]. destruct (_ <? _)%nat; [done|]. destruct (bool_decide _); [done|].
    apply bind_ok in H as (hash & s4 & Hh%hash_password_users & H). apply bind_ok in H as ([] & s5 & Hs & H). injection H as <-.
    apply (SetPassword_ok env (IdentityID p) c hash u s4 s5); [by rewrite Hh, E3|unfold row_of; by rewrite Hh, E3|done|done].
Qed.

(** Reading who calls changes nothing. *)
Lemma user_by_id_reads env id s : snd (PlatformUserByID env id s) = s.
Proof. unfold PlatformUserByID, with_uuid, ControlStore.guarded. destruct (canon id); [|done]. by destruct (ct_fails env OpUserByID). Qed.

Lemma stillValid_reads env p s : snd (stillValid env p s) = s.
Proof.
  unfold stillValid, mbind, eff_bind, attempt. pose proof (user_by_id_reads env (IdentityID p) s) as H.
  destruct (PlatformUserByID env (IdentityID p) s) as [r s1]. simpl in H. subst. by repeat case_match.
Qed.

Lemma require_reads env cc perm s : snd (require env cc perm s) = s.
Proof.
  unfold require. destruct (cc_caller cc) as [p|]; [|done]. destruct (negb _); [done|]. unfold mbind, eff_bind at 1.
  pose proof (stillValid_reads env p s) as H. destruct (stillValid env p s) as [[[]|e] s1]; [|done]. simpl in H. subst.
  unfold eff_bind, Assignments, ControlStore.guarded. destruct (ct_fails env OpAssignments); [done|]. by repeat case_match.
Qed.

Lemma live_reads env cc s : snd (live env cc s) = s.
Proof.
  unfold live. destruct (cc_caller cc) as [p|]; [|done]. destruct (negb _); [done|]. unfold mbind, eff_bind at 1.
  pose proof (stillValid_reads env p s) as H. destruct (stillValid env p s) as [[[]|e] s1]; [|done]. simpl in H. subst.
  unfold eff_bind, Assignments, ControlStore.guarded. by destruct (ct_fails env OpAssignments).
Qed.

(** The requests that the guard, or [live], answers first. *)
Definition guarded_request (req : Request) : Prop :=
  match req with
  | ReqLogin _ _ | ReqVerifyMFA _ _ | ReqRefresh _ | ReqLogout _ | ReqBegin | ReqConfirm _ | ReqKeyUsed _ | ReqSweep => False
  | _ => True
  end.

Lemma bind_refused {S E X Y} (m : Eff S E X) (f : X -> Eff S E Y) s : (exists e, fst (m s) = Err e) -> snd (m s) = s -> snd ((m ≫= f) s) = s.
Proof. unfold mbind, eff_bind. by destruct (m s) as [[a|e] s1]; intros [e' He] Hs; simpl in *; subst. Qed.

Lemma refused_request env cc req s :
  guarded_request req -> (forall perm, exists e, fst (require env cc perm s) = Err e) -> (exists e, fst (live env cc s) = Err e) ->
  perform env cc req s = s.
Proof.
  intros Hreq Hr Hl. destruct req; try done; simpl;
    (apply bind_refused; [apply Hr || exact Hl|apply require_reads || apply live_reads]).
Qed.


(** ** Machine keys *)

(** The key [k0] is in the table, and what else has its lookup is revoked. *)
Definition holds_key (k0 : KeyRow) (s : CStore) (k : KeyRow) : Prop :=
  exists l1 l2, cs_keys s = l1 ++ k :: l2 /\ key_fades k0 k /\
    forall k', k' ∈ l1 ++ l2 -> pk_Lookup k' = pk_Lookup k0 -> is_Some (pk_RevokedAt k').
Definition no_such_lookup (L : string) (env : CtlEnv) (cc : CCtx) : Prop := ~ drawn_lookup cc L.

Lemma key_fades_refl k : key_fades k k.
Proof. by split. Qed.
Lemma key_fades_trans k1 k2 k3 : key_fades k1 k2 -> key_fades k2 k3 -> key_fades k1 k3.
Proof. intros [] []. split; try congruence. auto. Qed.

Lemma holds_key_marked k0 s k p f :
  (forall k', p k' = true -> key_fades k' (f k')) -> holds_key k0 s k -> holds_key k0 (with_keys s (update_where p f (cs_keys s))) (if p k then f k else k).
Proof.
  intros Hf (l1 & l2 & Hl & Hfd & Ho). exists (update_where p f l1), (update_where p f l2). simpl. rewrite Hl. unfold update_where.
  rewrite map_app. split; [done|]. split.
  { destruct (p k) eqn:E; [|done]. eapply key_fades_trans; [exact Hfd|by apply Hf]. }
  intros k' Hk'. rewrite <- map_app in Hk'. apply elem_of_update_where in Hk' as (k1 & Hk1 & ->). destruct (p k1) eqn:E; [|by apply Ho].
  pose proof (Hf k1 E) as Hk. rewrite (kf_lookup _ _ Hk). intros HL. apply (kf_revoked _ _ Hk). by apply Ho.
Qed.

(** A key stays, and is the same key, and once revoked it is revoked. *)
Lemma holds_key_stays k0 k s s' :
  console (no_such_lookup (pk_Lookup k0)) s s' -> holds_key k0 s k -> exists k', holds_key k0 s' k' /\ key_fades k k'.
Proof.
  intros Hc Hk.
  apply (console_keeps (fun s => exists k', holds_key k0 s k' /\ key_fades k k') (no_such_lookup (pk_Lookup k0)) s s');
    [|done|exists k; split; [done|apply key_fades_refl]].
  intros env cc s1 s2 Hne Hs1 Hev. induction Hev as [|sa sb _ IH _ _ _ E| | | | |p f sa _ IH Hf|row sa _ IH _ Hd| | | |]; try done.
  - destruct IH as (k' & (l1 & l2 & Hl & H) & Hf'). exists k'. split; [|done]. exists l1, l2. by rewrite E.
  - destruct IH as (k' & H & Hf'). exists (if p k' then f k' else k'). split; [by apply holds_key_marked|].
    destruct (p k') eqn:Ep; [|done]. eapply key_fades_trans; [exact Hf'|by apply Hf].
  - destruct IH as (k' & (l1 & l2 & Hl & H1 & H2) & Hf'). exists k'. split; [|done]. exists l1, (l2 ++ [row]). simpl.
    rewrite Hl, <- app_assoc. split; [done|]. split; [done|]. intros k1. rewrite app_assoc, elem_of_app.
    intros [Hk1| ->%list_elem_of_singleton] HL; [by apply H2|]. destruct Hne. by rewrite <- HL.
Qed.

Lemma holds_key_found k0 s k :
  holds_key k0 s k ->
  find (fun k => bool_decide (pk_Lookup k = pk_Lookup k0) && bool_decide (pk_RevokedAt k = None)) (cs_keys s) =
    match pk_RevokedAt k with None => Some k | Some _ => None end.
Proof.
  intros (l1 & l2 & -> & Hfd & Ho). set (q := fun k => _).
  assert (Hq : forall l, (forall k', k' ∈ l -> k' ∈ l1 ++ l2) -> find q l = None).
  { intros l Hl. destruct (find q l) as [k'|] eqn:E; [|done]. apply find_some in E as [Hin Hb]. unfold q in Hb. unbool.
    destruct (Ho k') as [t Ht]; [|done|congruence]. apply Hl. by apply list_elem_of_In. }
  assert (Happ : forall l l', find q l = None -> find q (l ++ l') = find q l').
  { induction l as [|a l IH]; intros l' H; [done|]. simpl in *. destruct (q a); [done|by apply IH]. }
  rewrite Happ by (apply Hq; intros k' ?; apply elem_of_app; by left). simpl. unfold q at 1. rewrite (kf_lookup _ _ Hfd), bool_decide_eq_true_2 by done.
  destruct (pk_RevokedAt k); simpl; [|done]. apply Hq. intros k' ?. apply elem_of_app. by right.
Qed.

Lemma ret_ok {S E X} (a b : X) (s s' : S) : (mret a : Eff S E X) s = (Ok b, s') -> a = b /\ s = s'.
Proof. by intros [= -> ->]. Qed.

(** What minting leaves: the row of the key, alone with its lookup. *)
Lemma CreateAPIKey_ok env cc inp s full key s1 :
  CreateAPIKey env cc inp s = (Ok (full, key), s1) ->
  exists r6 r32 k, cc_rand cc 0 = Some r6 /\ cc_rand cc 1 = Some r32 /\
    full = fst (fst (Secret.NewAPIKey sha256 r6 r32)) /\ ky_Lookup key = snd (fst (Secret.NewAPIKey sha256 r6 r32)) /\
    pk_SecretHash k = Secret.Hex (snd (Secret.NewAPIKey sha256 r6 r32)) /\
    holds_key k s1 k /\ pk_RevokedAt k = None /\ pk_ID k = ky_ID key /\ pk_ID k = ct_key_id env /\ pk_UserID k = ky_PlatformUserID key /\
    pk_Lookup k = ky_Lookup key /\ pk_ExpiresAt k = ky_ExpiresAt key /\ ky_ExpiresAt key = (cc_clock cc 1 + key_life (ak_ExpiresIn inp))%Z.
Proof.
  unfold CreateAPIKey. cbv zeta. intros ([p mine] & s2 & (-> & _)%require_ok & H)%bind_ok.
  cbn [fst] in H. apply bind_ok in H as (o & s3 & (-> & c & Hc & ->)%by_id_ok & H). destruct (row_of c s) as [u|] eqn:Hu; [|done].
  cbn [fmap option_fmap option_map] in H. destruct (negb _); [done|].
  apply bind_ok in H as ([[full' lookup] hash] & s3 & Hnk & H). unfold new_key in Hnk.
  apply bind_ok in Hnk as (r6 & s4 & H6 & Hnk). injection H6 as H6 <-. apply bind_ok in Hnk as (r32 & s4 & H32 & Hnk). injection H32 as H32 <-.
  unfold need in H6, H32. destruct (cc_rand cc 0) as [r6'|]; [|done]. destruct (cc_rand cc 1) as [r32'|]; [|done].
  injection H6 as ->. injection H32 as ->. apply ret_ok in Hnk as [Hn <-].
  apply bind_ok in H as (id & s4 & (owner & Ho & Hk)%with_uuid_ok & H).
  destruct (row_of_in c s u Hu) as [_ Euc]. cbn [u_ID userOf] in Ho. rewrite Euc in Ho.
  destruct (opt_uuid (IdentityID p)) as [by_|]; [|done]. apply ctl_guarded_ok in Hk.
  destruct (existsb _ (cs_keys s)) eqn:Hun; [done|]. destruct (_ || _); [done|]. injection Hk as <- <-. injection H as <- <- <-.
  pose proof (canon_again _ _ _ Hc Ho) as ->.
  exists r6, r32. eexists. split; [done|]. split; [done|]. rewrite Hn.
  split; [done|]. split; [done|]. split; [|split].
  2:{ exists (cs_keys s), []. split; [done|]. split; [apply key_fades_refl|]. intros k' Hk' HL. rewrite app_nil_r in Hk'. simpl in HL.
    destruct (pk_RevokedAt k') eqn:Er; [done|]. apply not_true_iff_false in Hun. destruct Hun. apply existsb_spec. exists k'.
    split; [done|]. rewrite Er, HL, !bool_decide_eq_true_2; done. }
  - done.
  - split; [done|]. simpl. rewrite Euc. done.
Qed.

(** What a presented key is worth: its owner, with the standing of now. *)
Definition standing (ix : Interceptor) (wanted : string) (k : KeyRow) (s : CStore) : option Principal :=
  match pk_RevokedAt k, row_of (pk_UserID k) s with
  | None, Some u =>
      if bool_decide (pu_Status u = "active"%string) && time_after (pk_ExpiresAt k) (ix_clock ix 0)
      then Some (operator_principal ix (pk_UserID k) wanted "" [] (pu_TokenEpoch u) true) else None
  | _, _ => None
  end.

(** The draws of crypto/rand are as long as they were asked to be. *)
Definition draws_bytes (cc : CCtx) : Prop :=
  (forall r6, cc_rand cc 0 = Some r6 -> String.length r6 = 6%nat) /\ (forall r32, cc_rand cc 1 = Some r32 -> r32 <> ""%string).

Lemma presented_key k0 k r6 r32 cenv ix wanted ns :
  String.length r6 = 6%nat -> r32 <> ""%string -> holds_key k0 (ns_ctl ns) k ->
  pk_Lookup k0 = snd (fst (Secret.NewAPIKey sha256 r6 r32)) -> pk_SecretHash k0 = Secret.Hex (snd (Secret.NewAPIKey sha256 r6 r32)) ->
  ix_operators ix = true -> ct_fails cenv OpKeyByLookup = false ->
  fst (principalFromPlatformKey cenv ix (fst (fst (Secret.NewAPIKey sha256 r6 r32))) wanted ns) = Ok (standing ix wanted k (ns_ctl ns)).
Proof.
  intros H6 H32 Hk HL Hh Hix Hf. pose proof (SecretsProps.api_key_splits sha256 r6 r32 H6 H32) as Hsp.
  destruct (Secret.NewAPIKey sha256 r6 r32) as [[full lookup] hash]. cbn [fst snd] in *. destruct Hsp as (sec & Hsplit & Hhash & _).
  unfold principalFromPlatformKey. rewrite Hix, Hsplit. cbn [negb]. pose proof (holds_key_found _ _ _ Hk) as Hfind.
  destruct Hk as (_ & _ & _ & Hfd & _). unfold found, attempt, on_ctl, PlatformAPIKeyByLookup, ControlStore.guarded. rewrite Hf.
  unfold mbind, eff_bind. cbv beta iota zeta. rewrite <- HL, Hfind. unfold standing.
  destruct (pk_RevokedAt k); [done|]. cbn [option_bind mbind]. destruct (row_of (pk_UserID k) (ns_ctl ns)) as [u|]; [|done].
  cbn.
  destruct (bool_decide (pu_Status u = _)); [|done]. destruct (time_after (pk_ExpiresAt k) _); [|done]. cbn.
  unfold secret_matches, Hash. rewrite (kf_hash _ _ Hfd), Hh, HexText.mustHexOrRaw_Hex, Hhash, bool_decide_eq_true_2 by done. cbn.
  by destruct (usageStale _ _).
Qed.

(** A minted operator key is its owner, for ninety days at most.  Whatever
    the console is asked afterwards, the key that was shown once is answered as
    the operator it was minted for, at that operator's epoch of the moment, while
    its row is not revoked, its owner is active and its time has not come; else
    it is nobody. *)
Theorem operator_key_life env cc inp s full key s1 s2 :
  draws_bytes cc -> CreateAPIKey env cc inp s = (Ok (full, key), s1) -> console (no_such_lookup (ky_Lookup key)) s1 s2 ->
  (ky_ExpiresAt key <= cc_clock cc 1 + maxAPIKeyLife)%Z /\
  exists k, k ∈ cs_keys s2 /\ pk_ID k = ky_ID key /\ pk_UserID k = ky_PlatformUserID key /\ pk_ExpiresAt k = ky_ExpiresAt key /\
    forall cenv ix wanted ns, ns_ctl ns = s2 -> ix_operators ix = true -> ct_fails cenv OpKeyByLookup = false ->
      fst (principalFromPlatformKey cenv ix full wanted ns) = Ok (standing ix wanted k s2).
Proof.
  intros [Hd6 Hd32] H Hc. apply CreateAPIKey_ok in H as (r6 & r32 & k0 & H6 & H32 & -> & Hl & Hh & Hk & _ & Hid & _ & Hu & HL & He & Hends).
  split. { rewrite Hends. unfold key_life. destruct (_ || _) eqn:E; [lia|]. unbool. lia. }
  rewrite <- HL in Hc. destruct (holds_key_stays k0 k0 s1 s2 Hc Hk) as (k & Hk2 & Hfd).
  exists k. split. { destruct Hk2 as (l1 & l2 & -> & _). apply elem_of_app. right. by left. }
  rewrite (kf_id _ _ Hfd), (kf_user _ _ Hfd), (kf_ends _ _ Hfd). split; [done|]. split; [done|]. split; [done|].
  intros cenv ix wanted ns <- Hix Hf. apply (presented_key k0); auto. by rewrite HL.
Qed.

(** A revoked operator key is nobody for good: once RevokeAPIKey answered,
    no request that presents the key is an operator's again, whatever else is
    asked of the console. *)
Theorem operator_key_revoked env cc inp s full key s1 env' cc' s2 s3 s4 :
  draws_bytes cc -> CreateAPIKey env cc inp s = (Ok (full, key), s1) -> canon (ct_key_id env) = Some (ct_key_id env) ->
  console (no_such_lookup (ky_Lookup key)) s1 s2 -> RevokeAPIKey env' cc' (ky_ID key) s2 = (Ok tt, s3) ->
  console (no_such_lookup (ky_Lookup key)) s3 s4 ->
  forall cenv ix wanted ns, ns_ctl ns = s4 -> ix_operators ix = true -> ct_fails cenv OpKeyByLookup = false ->
    fst (principalFromPlatformKey cenv ix full wanted ns) = Ok None.
Proof.
  intros [Hd6 Hd32] H Hcan Hc1 Hr Hc2 cenv ix wanted ns <- Hix Hf.
  apply CreateAPIKey_ok in H as (r6 & r32 & k0 & H6 & H32 & -> & Hl & Hh & Hk & _ & Hid & Hdb & Hu & HL & _ & _).
  rewrite <- HL in Hc1, Hc2. destruct (holds_key_stays k0 k0 s1 s2 Hc1 Hk) as (k & Hk2 & Hfd).
  assert (exists k', holds_key k0 s3 k' /\ is_Some (pk_RevokedAt k')) as (k3 & Hk3 & Hrev).
  { unfold RevokeAPIKey in Hr. apply bind_ok in Hr as ([p mine] & s5 & (-> & _)%require_ok & Hr).
    apply bind_ok in Hr as ([] & s5 & (c & Hcc & Hr2%ctl_guarded_ok)%with_uuid_ok & Hr). injection Hr as <-. injection Hr2 as <-.
    rewrite <- Hid, Hdb, Hcan in Hcc. injection Hcc as <-.
    pose (q k := bool_decide (pk_ID k = ct_key_id env) && bool_decide (pk_RevokedAt k = None)).
    pose (mark k := set_key (pk_LastUsedAt k) (Some (ct_now env')) k).
    exists (if q k then mark k else k). split. { apply (holds_key_marked k0 s2 k q mark); [|done]. intros k' _. split; simpl; done || by eexists. }
    unfold q, mark. rewrite (kf_id _ _ Hfd), Hdb, bool_decide_eq_true_2 by done. destruct (pk_RevokedAt k) eqn:Er; simpl; [|by eexists].
    rewrite Er. by eexists. }
  destruct (holds_key_stays k0 k3 s3 _ Hc2 Hk3) as (k4 & Hk4 & Hfd4). rewrite (presented_key k0 k4); auto; [|by rewrite HL].
  unfold standing. by destruct (kf_revoked _ _ Hfd4 Hrev) as [t ->].
Qed.

(** ** Who a request speaks for *)
Section Interceptor.
Context (json_claims : string -> option Claims.Claims) (cenv : CtlEnv) (kenv : KEnv) (ix : Interceptor).

(** A token that an access key of the ring signed, of this issuer, in its time. *)
Record verified (token : string) (c : Claims.Claims) : Prop := {
  vf_signed : exists kid key msg, AccessToken.Kid token = Ok kid /\ Keys.Lookup (ix_ring ix) kid = Ok key /\ Keys.Purpose key = Keys.PurposeAccess /\
    AccessToken.Verify (Keys.Public key) token = Ok msg /\ json_claims msg = Some c;
  vf_issuer : Claims.Issuer c = ix_issuer ix;
  vf_ends : Claims.Expires c <> 0%Z -> (unix (ix_clock ix 0) <= Claims.Expires c)%Z;
  vf_begins : Claims.NotBefore c <> 0%Z -> (wrap64 (Claims.NotBefore c - 60) <= unix (ix_clock ix 0))%Z
}.

Lemma token_claims_ok token c : token_claims json_claims ix token = Some c -> verified token c.
Proof.
  unfold token_claims. destruct (AccessToken.Kid token) as [kid|] eqn:Hk; [|done]. destruct (Keys.Lookup _ kid) as [key|] eqn:Hl; [|done].
  destruct (bool_decide (Keys.Purpose key = _)) eqn:Hp; [|done]. cbn [negb]. destruct (AccessToken.Verify _ _) as [msg|] eqn:Hv; [|done].
  destruct (json_claims msg) as [c'|] eqn:Hj; [|done]. cbn [mbind option_bind]. cbv zeta. destruct (_ || _) eqn:Hc; [done|]. intros [= ->].
  unbool. split; [exists kid, key, msg; done|done| |]; intros Hne.
  - destruct (Z.eqb_spec (Claims.Expires c) 0); [done|]. simpl in *. lia.
  - destruct (Z.eqb_spec (Claims.NotBefore c) 0); [done|]. simpl in *. lia.
Qed.

(** The credentials that make [p]. *)
Inductive speaks (cred : string) (s : NStore) (p : Principal) : Prop :=
| sp_person c t : verified cred c -> Claims.Tenant c <> ""%string -> ix_tenant_by_slug ix (Claims.Tenant c) = Some t -> Serving t = true ->
    Platform p = false -> Service p = false -> IdentityID p = Claims.Subject c -> TenantID p = tn_ID t -> Epoch p = Claims.Epoch c -> speaks cred s p
| sp_operator c : verified cred c -> Claims.Tenant c = ""%string -> platformAudience ∈ Claims.Audience c ->
    Platform p = true -> Service p = false -> IdentityID p = Claims.Subject c -> Epoch p = Claims.Epoch c -> speaks cred s p
| sp_operator_key k u lookup sec : k ∈ cs_keys (ns_ctl s) -> u ∈ cs_users (ns_ctl s) -> Secret.SplitAPIKey cred = Some (lookup, sec) ->
    pk_Lookup k = lookup -> pk_RevokedAt k = None -> Hash sec = mustHexOrRaw (pk_SecretHash k) -> (ix_clock ix 0 < pk_ExpiresAt k)%Z ->
    pu_ID u = pk_UserID k -> pu_Status u = "active"%string ->
    Platform p = true -> Service p = true -> IdentityID p = pu_ID u -> Epoch p = pu_TokenEpoch u -> speaks cred s p
| sp_tenant_key k t lookup sec : k ∈ ns_keys s -> ke_tenant kenv (tk_TenantID k) = Some t -> tn_Status t = "active"%string ->
    Secret.SplitAPIKey cred = Some (lookup, sec) -> tk_Lookup k = lookup -> tk_RevokedAt k = None -> Hash sec = mustHexOrRaw (tk_SecretHash k) ->
    (forall e, tk_ExpiresAt k = Some e -> (ix_clock ix 2 < e)%Z) ->
    Platform p = false -> Service p = true -> IdentityID p = tk_ID k -> TenantID p = tk_TenantID k -> speaks cred s p.

Lemma person_or_operator token wanted s p : principalFromToken json_claims ix token wanted = Some p -> speaks token s p.
Proof.
  unfold principalFromToken. destruct (token_claims json_claims ix token) as [c|] eqn:Hc; [|done]. cbn [mbind option_bind].
  apply token_claims_ok in Hc. destruct (bool_decide (Claims.Tenant c = _)) eqn:Ht.
  - destruct (existsb _ _) eqn:Ha; [|done]. intros [= <-]. apply existsb_spec in Ha as (aud & Hin & Ha). unbool. subst aud.
    by apply (sp_operator token s _ c).
  - destruct (ix_tenant_by_slug ix _) as [t|] eqn:Hs; [|done]. destruct (Serving t) eqn:Hserv; [|done]. intros [= <-]. unbool.
    by apply (sp_person token s _ c t).
Qed.

Lemma found_ok {X} (m : Eff NStore Error (option X)) o s s' : found m s = (Ok (Some o), s') -> m s = (Ok (Some o), s').
Proof. unfold found. intros (r & s1 & H & Hr)%bind_ok. unfold attempt in H. destruct (m s) as [[x|e] s2]; by simplify_eq/=. Qed.

Lemma operator_key_speaks key wanted p s s' : principalFromPlatformKey cenv ix key wanted s = (Ok (Some p), s') -> speaks key s p.
Proof.
  unfold principalFromPlatformKey. destruct (ix_operators ix); [|done]. cbn [negb]. destruct (Secret.SplitAPIKey key) as [[lookup sec]|] eqn:Hs; [|done].
  intros ([a|] & s1 & H1 & H)%bind_ok; [|done]. apply found_ok in H1. unfold on_ctl in H1.
  destruct (PlatformAPIKeyByLookup cenv lookup (ns_ctl s)) as [r c] eqn:E. injection H1 as -> <-. apply ctl_guarded_ok in E. injection E as E <-.
  destruct (find _ (cs_keys (ns_ctl s))) as [k|] eqn:Hf; [|done]. cbn [mbind option_bind] in E.
  destruct (row_of (pk_UserID k) (ns_ctl s)) as [u|] eqn:Hu; [|done]. injection E as <-. apply find_some in Hf as [Hin Hb]. unbool.
  apply row_of_in in Hu as [Hu Hid]. cbn [key_auth ka_OwnerStatus ka_ExpiresAt ka_SecretHash ka_LastUsedAt ka_ID ka_PlatformUserID ka_TokenEpoch] in H.
  destruct (_ || _) eqn:Ho; [done|]. destruct (secret_matches sec _) eqn:Hm; [|done]. cbn [negb] in H.
  apply bind_ok in H as ([] & s2 & _ & H). injection H as <- _. unfold secret_matches, time_after in *. unbool.
  apply (sp_operator_key key s _ k u lookup sec); try done. by apply list_elem_of_In.
Qed.

Lemma tenant_key_speaks key p s s' : principalFromAPIKey kenv ix key s = (Ok (Some p), s') -> speaks key s p.
Proof.
  unfold principalFromAPIKey. destruct (Secret.SplitAPIKey key) as [[lookup sec]|] eqn:Hs; [|done].
  intros ([a|] & s1 & H1 & H)%bind_ok; [|done]. apply found_ok in H1. unfold APIKeyByLookup, ApiKeys.guarded in H1.
  destruct (ke_fails kenv OpLookup); [done|]. injection H1 as E <-. destruct (find _ (ns_keys s)) as [k|] eqn:Hf; [|done]. cbn [mbind option_bind] in E.
  destruct (ke_tenant kenv (tk_TenantID k)) as [t|] eqn:Ht; [|done]. injection E as <-. apply find_some in Hf as [Hin Hb].
  unfold presented in Hb. cbn [kt_TenantStatus kt_ExpiresAt kt_SecretHash kt_LastUsedAt kt_ID] in H.
  destruct (bool_decide (tn_Status t = _)) eqn:Hact; [|done]. cbn [negb] in H. 
  destruct (match tk_ExpiresAt k with Some t => negb (time_after t (ix_clock ix 2)) | None => false end) eqn:He; [done|].
  destruct (secret_matches sec _) eqn:Hm; [|done]. cbn [negb] in H. apply bind_ok in H as ([] & s2 & _ & H). injection H as <- _.
  unfold secret_matches in *. unbool. apply (sp_tenant_key key s _ k t lookup sec); try done; [by apply list_elem_of_In|].
  intros e Hx. rewrite Hx in He. unfold time_after in He. unbool. lia.
Qed.

(** A key of nobody leaves no trace. *)
Lemma unknown_key key wanted s s' : principalFromPlatformKey cenv ix key wanted s = (Ok None, s') -> s' = s.
Proof.
  unfold principalFromPlatformKey. destruct (negb _); [by intros [= <-]|]. destruct (Secret.SplitAPIKey key) as [[lookup sec]|]; [|by intros [= <-]].
  intros (o & s1 & H1 & H)%bind_ok.
  assert (s1 = s) as ->.
  { unfold found, mbind, eff_bind, attempt, on_ctl, PlatformAPIKeyByLookup, ControlStore.guarded in H1. destruct s.
    destruct (ct_fails cenv OpKeyByLookup); by injection H1 as _ <-. }
  destruct o as [a|]; [|by injection H as <-]. destruct (_ || _); [by injection H as <-|]. destruct (negb _); [by injection H as <-|].
  by apply bind_ok in H as ([] & s2 & _ & H).
Qed.

(** C21: nobody is let in without a credential.  A principal comes only from a
    bearer credential: an access token this issuer signed, in its time, which is a
    person of a serving tenant or, naming no tenant and addressed to the
    operators, an operator; a live key of an active operator, who it then is; or
    a live key of an active tenant.  A tenant's credential never is an
    operator's, and a token that a link made reaches the authorization procedure
    and no other. *)
Theorem authenticate_sound procedure auth wanted s p s' :
  authenticate json_claims cenv kenv ix procedure auth wanted s = (Ok (Some p), s') ->
  exists cred, bearer_credential auth = Some cred /\ speaks cred s p /\ (LinkBound p = true -> procedure = AuthorizeProcedure).
Proof.
  unfold authenticate. destruct (bearer_credential auth) as [cred|]; [|done]. intros H. exists cred. split; [done|].
  destruct (String.prefix "v4.public." cred).
  { injection H as H _. destruct (principalFromToken json_claims ix cred wanted) as [q|] eqn:Hq; [|done]. cbn [mbind option_bind] in H.
    destruct (linkMayReach q procedure) eqn:Hl; [|done]. injection H as ->. split; [by eapply person_or_operator|].
    unfold linkMayReach in Hl. intros Hb. rewrite Hb in Hl. by apply bool_decide_eq_true in Hl. }
  destruct (String.prefix "anb_live_" cred); [|done]. apply bind_ok in H as ([q|] & s1 & H1 & H).
  - injection H as -> _. split; [by eapply operator_key_speaks|]. intros Hb. exfalso. revert H1 Hb. unfold principalFromPlatformKey.
    destruct (negb _); [done|]. destruct (Secret.SplitAPIKey cred) as [[lookup sec]|]; [|done]. intros ([a|] & s2 & _ & H)%bind_ok; [|done].
    destruct (_ || _); [done|]. destruct (negb _); [done|]. apply bind_ok in H as ([] & s3 & _ & H). injection H as <- _.
    unfold LinkBound. by simpl.
  - apply unknown_key in H1 as ->. split; [by eapply tenant_key_speaks|]. intros Hb. exfalso. revert H Hb. unfold principalFromAPIKey.
    destruct (Secret.SplitAPIKey cred) as [[lookup sec]|]; [|done]. intros ([a|] & s2 & _ & H)%bind_ok; [|done].
    destruct (negb _); [done|]. destruct (match kt_ExpiresAt a with Some t => negb (time_after t (ix_clock ix 2)) | None => false end); [done|].
    destruct (negb _); [done|]. apply bind_ok in H as ([] & s3 & _ & H). injection H as <- _. unfold LinkBound. by simpl.
Qed.

End Interceptor.

End Operators.
End OperatorProps.

(** ** A sample *)
Module Sample.
Import AuthTheorems.Sample ConsoleProps.Sample Apperr Authctx Issuer Operator Uuid ApiKeys Authn ControlStore PlatformAuth OperatorAdmin ConsoleMoves ConsoleProps OperatorProps.
#[local] Existing Instance Toy.prims.
#[local] Existing Instance issuer_prims.
#[local] Existing Instance ToyKdf.prims.
#[local] Existing Instance ToyAead.prims.
#[local] Existing Instance envelopes.
#[local] Existing Instance console_prims.

Definition operator (last : string) (epoch : Z) : Principal := {|
  IdentityID := uuid last; TenantID := ""; TenantSlug := ""; SessionID := ""; Authctx.Realm := ""; Roles := []; Scopes := ∅; AMR := [];
  AuthTime := 0; IAL := 0; Epoch := epoch; Audience := []; Service := false; Platform := true; Token := "" |}.

Definition by_ (caller : Principal) : CCtx := {|
  cc_caller := Some caller; cc_ip := "192.0.2.1"; cc_issuer := "iss"; cc_ring := p_ring ports; cc_master := "m"; cc_clock _ := now; cc_wall := now;
  cc_dummy := ToyKdf.hash; cc_salt := Some "sixteen-byte-sal"%string;
  cc_rand i := Some (match i with O => "sixbyt" | _ => "0123456789abcdef0123456789abcdef" end)%string; cc_nonce := "nonce-12byte";
  cc_tenant_by_slug _ := None; cc_tenants := Some [] |}.

(** alice owns the installation; bob owns one tenant, and has a second factor. *)
Definition bob : UserRow := {|
  pu_ID := uuid "b"; pu_Username := "bob"; pu_Email := None; pu_PasswordHash := ToyKdf.hash; pu_Status := "active"; pu_TokenEpoch := 0;
  pu_CreatedAt := 0; pu_LastLoginAt := None; pu_DisabledAt := None; pu_TotpSecretEnc := Some "sealed"%string; pu_TotpEnrolledAt := Some 1%Z;
  pu_TotpLastStep := 7 |}.
Definition in_one_tenant : AssignRow := {|
  as_ID := uuid "c"; as_OperatorID := uuid "b"; as_TenantID := Some (uuid "d"); as_Role := RoleOwner; as_GrantedBy := None; as_Reason := "";
  as_ValidUntil := None; as_RevokedAt := None; as_CreatedAt := 0 |}.
Definition team : CStore := {|
  cs_users := [alice; bob]; cs_assign := [everywhere; in_one_tenant]; cs_refresh := [row "3" "tok" "3"]; cs_keys := []; cs_audit := []; cs_work := [] |}.

Definition ended : CStore := snd (SetOperatorStatus (db "5") (by_ (operator "1" 0)) (uuid "b") "disabled" team).
Definition again : CStore := perform (db "6") (by_ (operator "1" 0)) (ReqSetStatus (uuid "b") "active") ended.


(** The installation lets itself be escalated to.  An owner of one tenant gives
    himself the whole installation: the guard asks for the permission, and an
    owner's permissions hold the installation's whatever the assignment's scope. *)
Definition escalation : AssignOperatorInput := {|
  ao_OperatorID := uuid "b"; ao_OperatorUsername := ""; ao_TenantSlug := ""; ao_Role := RoleOwner; ao_Reason := ""; ao_ValidUntil := None |}.
Example tenant_owner_escalates :
  map as_TenantID (cs_assign team) = [None; Some (uuid "d")] /\
  fst (AssignOperator (db "5") (by_ (operator "b" 0)) escalation team) = Ok (uuid "5") /\
  map (fun a => (as_OperatorID a, as_TenantID a, as_Role a))
    (cs_assign (snd (AssignOperator (db "5") (by_ (operator "b" 0)) escalation team))) =
    [(uuid "1", None, RoleOwner); (uuid "b", Some (uuid "d"), RoleOwner); (uuid "b", None, RoleOwner)].
Proof. vm_compute. auto. Qed.

(** The same operator by an id in capitals: the checks that compare texts pass. *)
Definition capitals (last : string) : string := ("0190A0B0-0000-7000-8000-00000000000" ++ last)%string.
Example capitals_pass_the_checks :
  fst (SetOperatorStatus (db "5") (by_ (operator "1" 0)) (uuid "1") "disabled" team) =
    Err (With ErrInvalidArgument "operator" "you cannot disable your own account") /\
  fst (SetOperatorStatus (db "5") (by_ (operator "1" 0)) (capitals "1") "disabled" team) = Ok tt /\
  fst (RevokeAssignment (db "5") (by_ (operator "1" 0)) (uuid "2") team) =
    Err (With ErrInvalidArgument "assignment" "this is the only owner — appoint another before removing this one") /\
  fst (RevokeAssignment (db "5") (by_ (operator "1" 0)) (capitals "2") team) = Ok tt /\
  (exists temporary, fst (ResetOperatorPassword (db "5") (by_ (operator "1" 0)) (capitals "1") team) = Ok temporary).
Proof. vm_compute. repeat (split; [reflexivity|]). by eexists. Qed.

(** A refresh token outlives the password change, and mints at the new epoch. *)
Example refresh_survives_password :
  let changed := ChangePassword (db "5") (by_ (operator "1" 0)) "secret" "a longer secret" team in
  fst changed = Ok tt /\ map pu_TokenEpoch (cs_users (snd changed)) = [1; 0]%Z /\
  exists sess, fst (Refresh (db "6") (by_ (operator "1" 0)) "tok" (snd changed)) = Ok sess /\ ps_Owner sess = false.
Proof. vm_compute. eauto. Qed.

(** An enrolled operator's secret is replaced before any code was shown, also
    when the operator is disabled. *)
Example enrolment_replaces_the_secret :
  map pu_Status (cs_users ended) = ["active"; "disabled"]%string /\
  let after := snd (BeginTOTPEnrolment (db "5") (by_ (operator "b" 0)) ended) in
  map pu_TotpEnrolledAt (cs_users after) = [None; Some 1%Z] /\ map pu_TotpSecretEnc (cs_users after) <> map pu_TotpSecretEnc (cs_users ended).
Proof. vm_compute. done. Qed.

(** A key that bob mints for himself. *)
Definition minted : result Error (string * PlatformAPIKey) * CStore :=
  CreateAPIKey (db "5") (by_ (operator "b" 0)) {| ak_OwnerID := ""; ak_Label := "ci"; ak_ExpiresIn := 0 |} team.
Definition key_of (r : result Error (string * PlatformAPIKey)) : string * PlatformAPIKey :=
  match r with
  | Ok k => k
  | Err _ => (""%string, {| ky_ID := ""; ky_PlatformUserID := ""; ky_Username := ""; ky_Label := ""; ky_Lookup := ""; ky_CreatedAt := 0; ky_ExpiresAt := 0 |})
  end.
Definition ix : Interceptor := {| ix_issuer := "iss"; ix_ring := p_ring ports; ix_tenant_by_slug _ := None; ix_clock _ := now; ix_operators := true |}.
Definition kenv : KEnv := {| ke_fails _ := false; ke_now := now; ke_id := ""; ke_tenant _ := None |}.
Definition all_stores (s : CStore) : NStore := {| ns_ctl := s; ns_keys := []; ns_audit := [] |}.
Definition full : string := fst (key_of (fst minted)).

Lemma minted_ok : minted = (Ok (full, snd (key_of (fst minted))), snd minted).
Proof. vm_compute. reflexivity. Qed.
Lemma bytes_drawn p : draws_bytes (by_ p).
Proof. split; intros r [= <-]; [reflexivity|discriminate]. Qed.
Lemma others_drawn : no_such_lookup (ky_Lookup (snd (key_of (fst minted)))) (db "6") (ctx "b").
Proof. intros (r6 & r32 & [= <-] & H). vm_compute in H. discriminate H. Qed.

Definition used : CStore := perform (db "6") (ctx "b") (ReqLogout "tok") (snd minted).

Lemma operator_key_life_witness :
  fst (principalFromPlatformKey (db "7") ix full "" (all_stores used)) = Ok (Some (operator_principal ix (uuid "b") "" "" [] 0 true)).
Proof.
  destruct (operator_key_life (db "5") (by_ (operator "b" 0)) _ team full _ (snd minted) used (bytes_drawn _) minted_ok) as (_ & k & Hin & _ & _ & _ & H).
  - apply console_step; [apply console_refl|apply others_drawn].
  - rewrite (H (db "7") ix ""%string (all_stores used) eq_refl eq_refl eq_refl). f_equal. vm_compute in Hin.
    apply elem_of_cons in Hin as [->|Hin]; [vm_compute; reflexivity|by apply not_elem_of_nil in Hin].
Defined.

Definition revoked : CStore := snd (RevokeAPIKey (db "6") (by_ (operator "1" 0)) (uuid "5") used).

Lemma operator_key_revoked_witness :
  fst (principalFromPlatformKey (db "7") ix full "" (all_stores (perform (db "6") (ctx "b") ReqSweep revoked))) = Ok None.
Proof.
  apply (operator_key_revoked (db "5") (by_ (operator "b" 0)) _ team full _ (snd minted) (db "6") (by_ (operator "1" 0)) used revoked
    (perform (db "6") (ctx "b") ReqSweep revoked) (bytes_drawn _) minted_ok).
  - reflexivity.
  - apply console_step; [apply console_refl|apply others_drawn].
  - vm_compute. reflexivity.
  - apply console_step; [apply console_refl|apply others_drawn].
  - reflexivity.
  - reflexivity.
  - reflexivity.
Defined.

Lemma authenticate_sound_witness :
  speaks (fun _ => None) kenv ix full (all_stores used) (operator_principal ix (uuid "b") "" "" [] 0 true).
Proof.
  destruct (authenticate_sound (fun _ => None) (db "7") kenv ix "/anubis.v1.AdminService/ListTenants" ("bearer " ++ full) "" (all_stores used)
    (operator_principal ix (uuid "b") "" "" [] 0 true)
    (snd (authenticate (fun _ => None) (db "7") kenv ix "/anubis.v1.AdminService/ListTenants" ("bearer " ++ full) "" (all_stores used))))
    as (cred & Hc & Hs & _).
  - vm_compute. reflexivity.
  - vm_compute in Hc. injection Hc as <-. exact Hs.
Defined.

End Sample.
