(* ===== verification/SharesProps.v ===== *)
(** internal/authz/app/share and internal/auth/app/accesslink: what a share gives,
    and what a link to one opens.  Nobody hands on what they do not hold; a
    revoked share stays revoked over any history; a link's token reaches the one
    record it names and no procedure but the decision. *)

From Stdlib Require Import ZArith Lia Bool Ascii String.
From stdpp Require Import base gmap strings list sorting.
From S2P Require Import Prelude.
From S2P Require Import Triples.
From S2P Require Import GoStrings.
From S2P Require Import GoConv.
From S2P Require Import Secrets.
From S2P Require Import Tokens.
From S2P Require Import TokenProps.
From S2P Require Import Keyring.
From S2P Require Import Sdk.
From S2P Require Import Shared.
From S2P Require Import AuthStore.
From S2P Require Import TokenIssuer.
From S2P Require Import IssuerProps.
From S2P Require Import Credentials.
From S2P Require Import Shares.
From S2P Require Import ControlStore.
From S2P Require Import Authorize.
From S2P Require Import Authn.
From S2P Require Import Doors.
From S2P Require Import OperatorProps.

Module SharesProps.
Import Triples Apperr Authctx Issuer TokenProps.CodecProps Authn ShareDomain ShareStore ShareApp.

(** ** Keys of records *)

Lemma has_slash_cut kind ref : str_forallb (fun c => negb (bool_decide (c = "/"%char))) kind = true ->
  SplitRecordKey (kind ++ "/" ++ ref) = (kind, ref).
Proof.
  induction kind as [|a kind IH]; intros H; [done|]. simpl in H. apply andb_true_iff in H as [Ha H].
  change ((String a kind ++ "/" ++ ref)%string) with (String a (kind ++ "/" ++ ref)%string). cbn [SplitRecordKey].
  rewrite IH by done. by destruct (bool_decide (a = "/"%char)); simpl in Ha.
Qed.

Lemma kindRe_plain kind : kindRe kind = true -> str_forallb (fun c => negb (bool_decide (c = "/"%char))) kind = true.
Proof.
  assert (Hl : forall a, Validate.lower a || Validate.digit a || bool_decide (a = "_"%char) = true -> negb (bool_decide (a = "/"%char)) = true).
  { intros [[] [] [] [] [] [] [] []]; vm_compute; done. }
  destruct kind as [|a r]; [done|]. simpl. intros H. apply andb_true_iff in H as [H _]. apply andb_true_iff in H as [H _].
  apply andb_true_iff in H as [Ha Hr]. apply andb_true_iff. split; [apply Hl; by rewrite Ha|].
  clear Ha. induction r as [|b r IH]; [done|]. simpl in *. apply andb_true_iff in Hr as [Hb Hr]. apply andb_true_iff. auto.
Qed.

(** A record's key names its kind and its reference, whatever slashes the
    reference has. *)
Lemma record_key_splits kind ref key : RecordKey kind ref = Ok key -> SplitRecordKey key = (TrimSpace kind, TrimSpace ref).
Proof.
  unfold RecordKey. destruct (kindRe (TrimSpace kind)) eqn:Hk; [|done]. cbn [negb]. destruct (_ || _); [done|]. intros [= <-].
  by apply has_slash_cut, kindRe_plain.
Qed.

(** ** Sharing *)
Section Shares.
Context `{IP : IssuerPrims}.

Lemma clean_no_record inp scopes : clean_scopes inp = Ok scopes -> scopes !! "_record"%string = None.
Proof.
  revert scopes. induction inp as [|[axis node] inp IH]; intros scopes; simpl; [by intros [= <-]; apply lookup_empty|].
  case_bool_decide as Hr; [apply IH|]. destruct (_ && _); [done|]. case_bool_decide; [done|].
  destruct (clean_scopes inp) as [m|e]; [|done]. intros [= <-]. rewrite lookup_insert_ne by done. by apply IH.
Qed.

Lemma dedupe_in k keys : k ∈ dedupe keys -> k <> ""%string /\ exists k0, k0 ∈ keys /\ k = TrimSpace k0.
Proof.
  unfold dedupe. generalize (@nil string) as seen. induction keys as [|k0 keys IH]; intros seen; simpl; [by intros ?%not_elem_of_nil|].
  destruct (bool_decide (TrimSpace k0 = ""%string)) eqn:E; cbn [orb].
  { intros (H1 & k1 & H2 & H3)%IH. split; [done|]. exists k1. split; [by right|done]. }
  destruct (bool_decide (TrimSpace k0 ∈ seen)).
  { intros (H1 & k1 & H2 & H3)%IH. split; [done|]. exists k1. split; [by right|done]. }
  intros [->|H]%elem_of_cons.
  - split; [by unbool|]. exists k0. split; [by left|done].
  - apply IH in H as (H1 & k1 & H2 & H3). split; [done|]. exists k1. split; [by right|done].
Qed.

(** Permissions are given once each. *)
Lemma dedupe_once keys : NoDup (dedupe keys).
Proof.
  unfold dedupe. assert (H : forall seen, NoDup (dedupe_loop seen keys) /\ forall k, k ∈ dedupe_loop seen keys -> k ∉ seen); [|apply H].
  induction keys as [|k0 keys IH]; intros seen; simpl; [split; [apply NoDup_nil_2|by intros k ?%not_elem_of_nil]|].
  destruct (bool_decide (TrimSpace k0 = ""%string)); [apply IH|]. cbn [orb]. case_bool_decide as Hs; [apply IH|].
  destruct (IH (TrimSpace k0 :: seen)) as [H1 H2]. split.
  - apply NoDup_cons. split; [|done]. intros Hin. apply (H2 _ Hin). by left.
  - intros k [->|Hk]%elem_of_cons; [done|]. intros Hin. apply (H2 k Hk). by right.
Qed.

Lemma dedupe_length keys : (length (dedupe keys) <= length keys)%nat.
Proof.
  unfold dedupe. generalize (@nil string). induction keys as [|k keys IH]; intros seen; simpl; [lia|].
  destruct (_ || _); simpl; [specialize (IH seen)|specialize (IH (TrimSpace k :: seen))]; lia.
Qed.

Lemma may_share_ok sc p record to scopes perms s s' :
  may_share sc p record to scopes perms s = (Ok tt, s') ->
  s' = s /\ forall key, key ∈ perms -> sc_permission sc (TenantID p) key = Some true /\ sc_authorize sc (IdentityID p) (TenantID p) key scopes = Some true.
Proof.
  revert s. induction perms as [|key perms IH]; intros s; simpl; [intros [= <-]; split; [done|by intros k ?%not_elem_of_nil]|].
  destruct (sc_permission sc (TenantID p) key) as [[]|] eqn:Hp; [|done..].
  destruct (sc_authorize sc (IdentityID p) (TenantID p) key scopes) as [[]|] eqn:Ha; [|by intros (? & ? & _ & ?)%bind_ok|done].
  intros [-> H]%IH. split; [done|]. intros k [->|Hk]%elem_of_cons; auto.
Qed.

Lemma may_share_shares sc p record to scopes perms s : ss_shares (snd (may_share sc p record to scopes perms s)) = ss_shares s.
Proof.
  revert s. induction perms as [|key perms IH]; intros s; simpl; [done|].
  destruct (sc_permission sc (TenantID p) key) as [[]|]; [|done..]. by destruct (sc_authorize _ _ _ _ _) as [[]|]; [apply IH|..].
Qed.

Lemma person_ok sc p : person sc = Ok p -> sc_caller sc = Some p /\ IdentityID p <> ""%string /\ Platform p = false /\ Service p = false.
Proof.
  unfold person. destruct (sc_caller sc) as [q|]; [|done]. destruct (_ || _) eqn:E; [done|]. intros [= ->].
  destruct (Platform p), (Service p); unbool; done.
Qed.

Lemma checked_ok sc p inp : checked sc p inp = Ok tt ->
  hi_ToIdentityID inp <> IdentityID p /\ (sc_now sc < hi_ValidUntil inp <= sc_now sc + MaxLife)%Z /\ (length (hi_Permissions inp) <= MaxPermissions)%nat.
Proof.
  unfold checked. destruct (_ || bool_decide (hi_ToIdentityID inp = _)) eqn:E1; [done|]. destruct (_ || (MaxPermissions <? _)%nat) eqn:E2; [done|].
  destruct (time_is_zero _ || _) eqn:E3; [done|]. destruct (time_after _ (_ + MaxLife)%Z) eqn:E4; [done|]. destruct (maxNote <? _)%nat; [done|]. intros _.
  unbool. unfold time_after in *. unbool. split; [done|]. split; [lia|]. by apply Nat.ltb_ge.
Qed.

Lemma recipient_ok sc tid to i : recipient sc tid to = Ok i -> sc_identity sc tid to = Some i /\ IdentityDomain.CanAuthenticate i = Ok tt.
Proof.
  unfold recipient. destruct (sc_identity sc tid to) as [j|]; [|done]. destruct (IdentityDomain.CanAuthenticate j) as [[]|] eqn:E; [|done].
  by intros [= ->].
Qed.

Lemma record_of_ok kind ref key : record_of kind ref = Ok key -> SplitRecordKey key = (TrimSpace kind, TrimSpace ref).
Proof. unfold record_of. destruct (RecordKey kind ref) eqn:E; [|done]. intros [= ->]. by apply record_key_splits. Qed.

Lemma with_uuid_done {X} id (k : string -> Eff ShStore Error X) a s s' :
  with_uuid id k s = (Ok a, s') -> exists c, Uuid.canon id = Some c /\ k c s = (Ok a, s').
Proof. unfold with_uuid. destruct (Uuid.canon id) as [c|]; [|done]. by exists c. Qed.

Lemma guarded_done {X} env op (m : Eff ShStore Error X) a s s' : guarded env op m s = (Ok a, s') -> se_fails env op = false /\ m s = (Ok a, s').
Proof. unfold guarded. by destruct (se_fails env op). Qed.

(** What an accepted row is. *)
Lemma share_row_ok env inp sh s s' :
  CreateShare env inp s = (Ok sh, s') ->
  exists tid from to, Uuid.canon (ci_TenantID inp) = Some tid /\ Uuid.canon (ci_FromIdentityID inp) = Some from /\
    Uuid.canon (ci_ToIdentityID inp) = Some to /\ from <> to /\ sh = new_share env tid from to inp /\
    s' = with_shares s (ss_shares s ++ [sh]) /\ (se_now env < ci_ValidUntil inp)%Z /\
    se_identity env tid from = true /\ se_identity env tid to = true.
Proof.
  intros (tid & Ht & (from & Hf & (to & Hto & [_ H]%guarded_done)%with_uuid_done)%with_uuid_done)%with_uuid_done.
  cbv zeta in H. destruct (_ || _ || bool_decide (_ = ""%string)) eqn:E1; [done|]. destruct (_ || negb (se_identity _ _ to)) eqn:E2; [done|]. injection H as <- <-.
  exists tid, from, to. cbn [sh_ValidUntil new_share] in E1. unfold time_after in E1. unbool. done.
Qed.

Lemma create_refused env inp s e s' : CreateShare env inp s = (Err e, s') -> ss_shares s' = ss_shares s.
Proof.
  unfold CreateShare, with_uuid, guarded. destruct (Uuid.canon _); [|by intros [= _ <-]]. destruct (Uuid.canon _); [|by intros [= _ <-]].
  destruct (Uuid.canon _); [|by intros [= _ <-]]. destruct (se_fails _ _); [by intros [= _ <-]|]. cbv zeta.
  destruct (_ || _ || bool_decide (_ = ""%string)); [by intros [= _ <-]|]. by destruct (_ || _); [intros [= _ <-]|].
Qed.

(** C23: nobody shares what they do not hold.  When a share is made, the sharer is
    a signed-in person, every permission the new row gives was authorized for
    the sharer at the very places the row names, the recipient is another person
    of the same tenant who can sign in, the record key splits back into its kind
    and its reference, and the share ends within ninety days; the row is the only
    change to the table, and a refusal changes nothing. *)
Theorem share_gives_what_is_held env sc inp s :
  match Share env sc inp s with
  | (Err _, s') => ss_shares s' = ss_shares s
  | (Ok sh, s') =>
      ss_shares s' = ss_shares s ++ [sh] /\ Live sh (se_now env) = true /\ sh_LinkHash sh = None /\
      (sc_now sc < sh_ValidUntil sh <= sc_now sc + MaxLife)%Z /\
      SplitRecordKey (sh_Record sh) = (TrimSpace (hi_RecordKind inp), TrimSpace (hi_RecordRef inp)) /\
      exists p scopes to, sc_caller sc = Some p /\ Platform p = false /\ Service p = false /\
        Uuid.canon (IdentityID p) = Some (sh_FromIdentityID sh) /\ Uuid.canon (TenantID p) = Some (sh_TenantID sh) /\
        Uuid.canon (hi_ToIdentityID inp) = Some (sh_ToIdentityID sh) /\ sh_FromIdentityID sh <> sh_ToIdentityID sh /\
        sc_identity sc (TenantID p) (hi_ToIdentityID inp) = Some to /\ IdentityDomain.CanAuthenticate to = Ok tt /\
        recordScopes (hi_RecordScopes inp) = Ok scopes /\ scopes !! "_record"%string = None /\ sh_RecordScopes sh = se_reads_back env scopes /\
        NoDup (sh_Permissions sh) /\ (length (sh_Permissions sh) <= MaxPermissions)%nat /\
        forall key, key ∈ sh_Permissions sh -> sc_permission sc (TenantID p) key = Some true /\
                                              sc_authorize sc (IdentityID p) (TenantID p) key scopes = Some true
  end.
Proof.
  destruct (Share env sc inp s) as [[sh|e] s'] eqn:H.
  - apply bind_ok in H as (p & s1 & Hp & H). injection Hp as Hp <-. apply bind_ok in H as (record & s1 & Hr & H). injection Hr as Hr <-.
    apply bind_ok in H as ([] & s1 & Hc & H). injection Hc as Hc <-. apply bind_ok in H as (scopes & s1 & Hsc & H). injection Hsc as Hsc <-.
    apply bind_ok in H as (to & s1 & Hto & H). injection Hto as Hto <-. cbv zeta in H.
    apply bind_ok in H as ([] & s1 & [-> Hm]%may_share_ok & H). apply bind_ok in H as (sh' & s1 & Hcr & H). injection H as -> <-.
    apply share_row_ok in Hcr as (tid & from & to' & Ht & Hf & Hto' & Hne & -> & -> & Hnow & _).
    destruct (person_ok _ _ Hp) as (Hcall & _ & Hpl & Hse). destruct (checked_ok _ _ _ Hc) as (_ & Hend & _).
    destruct (recipient_ok _ _ _ _ Hto) as [Hi Hca]. apply record_of_ok in Hr.
    split; [done|]. split; [unfold Live, time_after; simpl; by apply Z.ltb_lt|]. split; [done|]. split; [done|]. split; [done|].
    exists p, scopes, to. repeat (split; [done|]). split. { unfold recordScopes in Hsc. destruct (_ <? _)%nat; [done|]. by eapply clean_no_record. }
    split; [done|]. split; [apply dedupe_once|]. split; [|exact Hm]. etrans; [apply dedupe_length|]. by apply checked_ok in Hc as (_ & _ & ?).
  - apply bind_err in H as [H|(p & s1 & Hp & H)]; [by injection H as _ <-|]. injection Hp as Hp <-.
    apply bind_err in H as [H|(record & s1 & Hr & H)]; [by injection H as _ <-|]. injection Hr as Hr <-.
    apply bind_err in H as [H|(u & s1 & Hc & H)]; [by injection H as _ <-|]. injection Hc as Hc <-.
    apply bind_err in H as [H|(scopes & s1 & Hsc & H)]; [by injection H as _ <-|]. injection Hsc as Hsc <-.
    apply bind_err in H as [H|(to & s1 & Hto & H)]; [by injection H as _ <-|]. injection Hto as Hto <-. cbv zeta in H.
    apply bind_err in H as [H|(u1 & s1 & Hm & H)].
    + pose proof (may_share_shares sc p record (hi_ToIdentityID inp) scopes (dedupe (hi_Permissions inp)) s) as E. by rewrite H in E.
    + pose proof (may_share_shares sc p record (hi_ToIdentityID inp) scopes (dedupe (hi_Permissions inp)) s) as E. rewrite Hm in E. simpl in E.
      apply bind_err in H as [H|(sh & s2 & _ & H)]; [|done]. rewrite <- E. by apply (create_refused _ _ _ e) in H.
Qed.

(** ** What becomes of the shares *)

(** A handler that writes the table, with the database's draw of an id. *)
Inductive moved (R : ShEnv -> Prop) `{P : TokenPrims} (s : ShStore) : ShStore -> Prop :=
| mv_share env sc inp : R env -> moved R s (snd (Share env sc inp s))
| mv_unshare env sc id reason : moved R s (snd (Unshare env sc id reason s))
| mv_link env sc id : moved R s (snd (CreateAccessLink env sc id s))
| mv_open env oc inp : moved R s (snd (AccessLink.OpenAccessLink env oc inp s)).

(** Every row of this id has ended. *)
Definition ended (c : string) (s : ShStore) : Prop := forall r, r ∈ ss_shares s -> sh_ID r = c -> is_Some (sh_RevokedAt r).
Definition other_id (c : string) (env : ShEnv) : Prop := se_id env <> c.

Lemma uuid_ends {X} c id (k : string -> Eff ShStore Error X) : (forall d, triple (ended c) (k d) (fun _ => True)) -> triple (ended c) (with_uuid id k) (fun _ => True).
Proof. intros H. unfold with_uuid. destruct (Uuid.canon id); [apply H|apply triple_raise]. Qed.

Lemma guarded_ends {X} c env op (m : Eff ShStore Error X) : triple (ended c) m (fun _ => True) -> triple (ended c) (guarded env op m) (fun _ => True).
Proof. intros H s Hs. unfold guarded. destruct (se_fails env op); [by split|by apply H]. Qed.

(** An update that keeps ids and marks. *)
Definition keeps_end (f : ShareDomain.Share -> ShareDomain.Share) : Prop :=
  forall r, sh_ID (f r) = sh_ID r /\ (is_Some (sh_RevokedAt r) -> is_Some (sh_RevokedAt (f r))).

Lemma ended_marked c p f s : keeps_end f -> ended c s -> ended c (with_shares s (update_where p f (ss_shares s))).
Proof.
  intros Hf Hs r (r0 & Hin & ->)%elem_of_update_where Hc. destruct (Hf r0) as [Hi Hr]. destruct (p r0); [|by apply Hs].
  apply Hr, Hs; [done|]. by rewrite <- Hi.
Qed.

Lemma update_ends c p f : keeps_end f -> triple (ended c) (update_shares p f) (fun _ => True).
Proof. intros Hf s Hs. split; [by apply ended_marked|done]. Qed.

Lemma set_revoked_keeps env reason : keeps_end (set_revoked env reason).
Proof. intros r. split; [done|]. by eexists. Qed.
Lemma set_link_keeps h o l : keeps_end (fun r => set_link (h r) (o r) l r).
Proof. done. Qed.

(** A call that leaves the rows alone. *)
Lemma log_ends {X} c (m : Eff ShStore Error X) : (forall s, ss_shares (snd (m s)) = ss_shares s) -> triple (ended c) m (fun _ => True).
Proof. intros H s Hs. specialize (H s). destruct (m s) as [r s']. simpl in H. split; [|done]. unfold ended. by rewrite H. Qed.

Ltac share_leaf :=
  idtac; match goal with
  | |- triple _ (with_uuid _ _) _ => apply uuid_ends; intros ?
  | |- triple _ (guarded _ _ _) _ => apply guarded_ends
  | |- triple _ (update_shares _ _) _ => apply update_ends; first [apply set_revoked_keeps|done]
  | |- triple _ (emit _ _ _ _ _ _) _ => by apply log_ends
  | |- triple _ (AccessLink.log _) _ => by apply log_ends
  | |- triple _ (may_share _ _ _ _ _ _) _ => apply log_ends; intros ?; apply may_share_shares
  end.
Ltac share_walk := walk_with share_leaf.

Lemma get_ends c env t i : triple (ended c) (GetShare env t i) (fun _ => True).
Proof. unfold GetShare. share_walk. by apply triple_reads. Qed.

Lemma revoke_ends c env t i r : triple (ended c) (RevokeShare env t i r) (fun _ => True).
Proof. unfold RevokeShare. share_walk. Qed.

Lemma set_link_ends c env t i h : triple (ended c) (SetShareLink env t i h) (fun _ => True).
Proof.
  unfold SetShareLink. apply uuid_ends; intros sid. apply uuid_ends; intros tid. apply guarded_ends. intros s Hs. cbv zeta.
  destruct (_ && _); [by split|].
  enough (H : triple (ended c) (n ← update_shares (fun r => is_share tid sid r && live_row env r) (set_link (Some h) 0 None);
                                mret (0 <? n)%nat) (fun _ => True)) by by apply H.
  share_walk.
Qed.

Lemma create_ends c env inp : other_id c env -> triple (ended c) (CreateShare env inp) (fun _ => True).
Proof.
  intros Hne. unfold CreateShare. share_walk. intros s Hs. cbv zeta. destruct (_ || _ || bool_decide (_ = ""%string)); [by split|].
  destruct (_ || negb _); [by split|]. split; [|done]. intros r [Hr| ->%list_elem_of_singleton]%elem_of_app Hc; [by apply Hs|]. by destruct Hne.
Qed.

Lemma touch_ends c env i : triple (ended c) (TouchShareLink env i) (fun _ => True).
Proof.
  intros s Hs. unfold TouchShareLink. destruct (Uuid.canon i); [|by split]. destruct (se_fails _ _); [by split|]. split; [|done].
  apply ended_marked; [apply set_link_keeps|done].
Qed.

Lemma find_link_ends c env h : triple (ended c) (ShareByLinkHash env h) (fun _ => True).
Proof. unfold ShareByLinkHash. apply guarded_ends. by apply triple_reads. Qed.

Ltac handler_leaf :=
  idtac; first
    [ share_leaf | apply get_ends | apply revoke_ends | apply set_link_ends | by apply create_ends | apply touch_ends | apply find_link_ends ].

Lemma moved_ends `{P : TokenPrims} c s s' : moved (other_id c) s s' -> ended c s -> ended c s'.
Proof.
  intros [env sc inp Hne|env sc id reason|env sc id|env oc inp] Hs;
    (eapply (triple_after _ _ (fun _ => True)); [|exact Hs]).
  - unfold Share. walk_with handler_leaf.
  - unfold Unshare. walk_with handler_leaf.
  - unfold CreateAccessLink. walk_with handler_leaf.
  - unfold AccessLink.OpenAccessLink, AccessLink.issue_link_token, AccessLink.refused, AccessLink.deny. cbv zeta. walk_with handler_leaf.
Qed.

Lemma history_ends `{P : TokenPrims} c s s' : rtc (moved (other_id c)) s s' -> ended c s -> ended c s'.
Proof. induction 1 as [|s1 s2 s3 Hm _ IH]; [done|]. intros H. by apply IH, (moved_ends c s1). Qed.

Lemma get_ok env t id sh s s' :
  GetShare env t id s = (Ok sh, s') -> s' = s /\ sh ∈ ss_shares s /\ Uuid.canon id = Some (sh_ID sh) /\ Uuid.canon t = Some (sh_TenantID sh).
Proof.
  intros (c & Hc & (tid & Ht & [_ H]%guarded_done)%with_uuid_done)%with_uuid_done. destruct (find _ _) as [r|] eqn:Hf; [|done].
  injection H as <- <-. apply find_some in Hf as [Hin Hb]. unfold is_share in Hb. unbool. subst. by rewrite list_elem_of_In.
Qed.

(** Ending a share marks its row. *)
Lemma unshare_ends env sc id c reason s s' :
  NoDup (map sh_ID (ss_shares s)) -> Uuid.canon id = Some c -> Unshare env sc id reason s = (Ok tt, s') -> ended c s'.
Proof.
  intros HN Hc H. apply bind_ok in H as (p & s1 & Hp & H). injection Hp as Hp <-.
  apply bind_ok in H as (sh & s1 & Hg%map_err_ok & H). apply get_ok in Hg as (-> & Hin & Hid & Ht).
  apply bind_ok in H as (u & s1 & Hm & H). injection Hm as Hm <-. apply bind_ok in H as (ok & s1 & Hr & H). injection H as <-.
  apply with_uuid_done in Hr as (c' & Hc' & (tid & Ht' & [_ Hr]%guarded_done)%with_uuid_done). simplify_eq.
  apply bind_ok in Hr as (n & s2 & [= _ <-] & [= _ <-]).
  intros r (r0 & Hr0 & ->)%elem_of_update_where Hrc. unfold is_share in *.
  assert (Hid0 : sh_ID r0 = sh_ID sh) by (revert Hrc; by destruct (_ && bool_decide (sh_RevokedAt r0 = None))).
  assert (r0 = sh) as -> by by apply (NoDup_map_inj sh_ID (ss_shares s)).
  clear Hrc. rewrite !bool_decide_eq_true_2 by done. cbn [andb]. case_bool_decide as Hl; [by eexists|]. by destruct (sh_RevokedAt sh); [eexists|].
Qed.

Lemma listed_live env (q : ShareDomain.Share -> bool) s r :
  r ∈ merge_sort newest (List.filter (fun r => q r && live_row env r) (ss_shares s)) -> q r = true /\ r ∈ ss_shares s /\ Live r (se_now env) = true.
Proof. rewrite merge_sort_Permutation, list_elem_of_In, filter_In, <- list_elem_of_In. intros [H1 H2]. unbool. done. Qed.

Lemma visible_sub sc p given all l : visible sc p given all = Ok l -> forall r, r ∈ l -> r ∈ all.
Proof.
  revert l. induction all as [|sh all IH]; intros l; simpl; [by intros [= <-]|].
  assert (Hsub : forall out r, visible sc p given all = Ok out -> r ∈ sh :: out \/ r ∈ out -> r ∈ sh :: all).
  { intros out r Ho [[->|Hr]%elem_of_cons|Hr]; [by left|right; by apply (IH out)|right; by apply (IH out)]. }
  destruct (_ || _); [|destruct (holdsAll _ _ _ _) as [ok|]; [|done]; cbn [mbind result_bind]];
    (destruct (visible sc p given all) as [out|]; [|done]); intros [= <-] r Hr; apply (Hsub out); auto. by destruct ok; auto.
Qed.

(** What lies behind a link that opened. *)
Record opened_from `{P : TokenPrims} (env : ShEnv) (oc : AccessLink.OCtx) (inp : AccessLink.OpenInput) (s : ShStore) (pair : TokenPair)
    (sh : ShareDomain.Share) (tenant : TenantRef) (i : IdentityDomain.Identity) (app : Application) (key : Keys.Key) (c : Claims.Claims) (body : string) : Prop := {
  of_tenant : AccessLink.oc_tenant_by_slug oc (AccessLink.oi_Tenant inp) = Some tenant; of_serving : Serving tenant = true;
  of_row : sh ∈ ss_shares s; of_link : sh_LinkHash sh = Some (Hash (AccessLink.oi_Token inp)); of_live : Live sh (se_now env) = true;
  of_here : sh_TenantID sh = tn_ID tenant;
  of_person : AccessLink.oc_identity oc (tn_ID tenant) (sh_ToIdentityID sh) = Some i; of_can : IdentityDomain.CanAuthenticate i = Ok tt;
  of_app : AccessLink.oc_app oc (tn_ID tenant) (AccessLink.oi_ClientID inp) = Some app; of_active : app_Status app = "active"%string;
  of_system : app_IsSystem app = false;
  of_key : DoorToken.active_key (AccessLink.oc_ring oc) (AccessLink.oc_wall oc) = Ok key;
  of_claims : exists jti, c = AccessLink.link_claims oc sh tenant i app jti (AccessLink.link_ttl (app_AccessTokenTTLSecs app) (sh_ValidUntil sh) (AccessLink.oc_now oc));
  of_body : json_of_claims c = Some body;
  of_signed : Paseto.Sign (default ""%string (Keys.Private key)) body (json_footer (Keys.Kid key)) "" = Ok (tp_AccessToken pair)
}.

Lemma sign_claims_ok `{P : TokenPrims} key c t :
  DoorToken.sign_claims key c = Ok t ->
  exists body, json_of_claims c = Some body /\ Paseto.Sign (default ""%string (Keys.Private key)) body (json_footer (Keys.Kid key)) "" = Ok t.
Proof.
  unfold DoorToken.sign_claims, need. destruct (json_of_claims c) as [body|]; [|done]. cbn [mbind result_bind].
  destruct (Paseto.Sign _ _ _ _) as [t'|] eqn:E; [|done]. intros [= ->]. by exists body.
Qed.

Lemma refused_fails `{P : TokenPrims} {X} oc a b c (x : X) s s' : AccessLink.refused oc a b c s = (Ok x, s') -> False.
Proof. unfold AccessLink.refused. by intros (u & s1 & _ & H)%bind_ok. Qed.

Lemma open_ok `{P : TokenPrims} env oc inp pair s s' :
  AccessLink.OpenAccessLink env oc inp s = (Ok pair, s') ->
  exists sh tenant i app key c body, opened_from env oc inp s pair sh tenant i app key c body.
Proof.
  unfold AccessLink.OpenAccessLink. destruct (negb _); [done|]. destruct (AccessLink.oc_tenant_by_slug _ _) as [tenant|] eqn:Ht; [|done].
  destruct (Serving tenant) eqn:Hserv; [|by intros ?%refused_fails]. cbn [negb].
  intros (found & s1 & Hf & H)%bind_ok. unfold attempt in Hf. destruct (ShareByLinkHash _ _ s) as [r s2] eqn:Hl. injection Hf as <- <-.
  destruct r as [sh|]; [|by apply refused_fails in H].
  apply guarded_done in Hl as [_ Hl]. destruct (find _ _) as [sh'|] eqn:Hfind; [|done]. injection Hl as -> <-.
  apply find_some in Hfind as [Hin Hb]. apply andb_true_iff in Hb as [Hh Hlive].
  destruct (bool_decide (sh_TenantID sh = _)) eqn:Hten; [|by apply refused_fails in H]. cbn [negb] in H.
  destruct (AccessLink.oc_identity _ _ _) as [i|] eqn:Hi; [|by apply refused_fails in H].
  destruct (IdentityDomain.CanAuthenticate i) as [[]|] eqn:Hca; [|by apply refused_fails in H].
  destruct (AccessLink.oc_app _ _ _) as [app|] eqn:Happ; [|by apply refused_fails in H].
  destruct (bool_decide (app_Status app = _)) eqn:Hact; [|by apply refused_fails in H]. cbn [negb] in H.
  destruct (app_IsSystem app) eqn:Hsys; [by apply refused_fails in H|].
  unfold AccessLink.issue_link_token in H. apply bind_ok in H as (key & s1 & Hk & H). injection Hk as Hk <-.
  apply bind_ok in H as (jti & s1 & Hj & H). injection Hj as Hj <-. cbv zeta in H. apply bind_ok in H as (token & s1 & Hs & H). injection Hs as Hs <-.
  apply bind_ok in H as (u & s1 & _ & H). apply bind_ok in H as (u' & s2 & _ & H). injection H as <- _. unbool.
  apply sign_claims_ok in Hs as (body & Hb & Hs).
  exists sh, tenant, i, app, key; do 2 eexists; split; try done; [by apply list_elem_of_In|by eexists].
Qed.

(** An ended share is over.  Once Unshare has answered, whatever sharing,
    unsharing, linking and opening comes after, no link opens that share, nobody
    is given a new link to it, and no listing shows it. *)
Theorem unshared_is_over `{P : TokenPrims} env sc id c reason s s1 s2 :
  NoDup (map sh_ID (ss_shares s)) -> Uuid.canon id = Some c -> Unshare env sc id reason s = (Ok tt, s1) -> rtc (moved (other_id c)) s1 s2 ->
  (forall env' oc inp pair s3, AccessLink.OpenAccessLink env' oc inp s2 = (Ok pair, s3) ->
     exists sh tenant i app key cl body, opened_from env' oc inp s2 pair sh tenant i app key cl body /\ sh_ID sh <> c) /\
  (forall env' sc' link s3, CreateAccessLink env' sc' id s2 <> (Ok link, s3)) /\
  (forall env' sc' l s3, SharedWithMe env' sc' s2 = (Ok l, s3) -> c ∉ map sh_ID l) /\
  (forall env' sc' kind ref scopes l s3, ListOnRecord env' sc' kind ref scopes s2 = (Ok l, s3) -> c ∉ map sh_ID l).
Proof.
  intros HN Hc Hu Hh. pose proof (history_ends c s1 s2 Hh (unshare_ends _ _ _ _ _ _ _ HN Hc Hu)) as Hend.
  assert (Hlive : forall r now, r ∈ ss_shares s2 -> Live r now = true -> sh_ID r <> c).
  { intros r now Hin Hl Hr. unfold Live in Hl. destruct (Hend r Hin Hr) as [t Ht]. unbool. congruence. }
  split; [|split; [|split]].
  - intros env' oc inp pair s3 (sh & tenant & i & app & key & cl & body & Ho)%open_ok. exists sh, tenant, i, app, key, cl, body.
    split; [done|]. eapply Hlive; [exact (of_row _ _ _ _ _ _ _ _ _ _ _ _ Ho)|exact (of_live _ _ _ _ _ _ _ _ _ _ _ _ Ho)].
  - intros env' sc' link s3 H. apply bind_ok in H as (p & s4 & Hp & H). injection Hp as Hp <-.
    apply bind_ok in H as (sh & s4 & Hg%map_err_ok & H). apply get_ok in Hg as (-> & Hin & Hid & _). simplify_eq.
    destruct (Live sh _) eqn:Hl; [|done]. by destruct (Hlive sh _ Hin Hl).
  - intros env' sc' l s3 H. apply bind_ok in H as (p & s4 & Hp & H). injection Hp as Hp <-.
    apply with_uuid_done in H as (tid & Ht & (iid & Hi & [_ H]%guarded_done)%with_uuid_done). injection H as <- <-.
    intros (r & Hr & (_ & Hin & Hl)%listed_live)%list_elem_of_fmap. by destruct (Hlive r _ Hin Hl).
  - intros env' sc' kind ref scopes l s3 H. apply bind_ok in H as (p & s4 & Hp & H). injection Hp as Hp <-.
    apply bind_ok in H as (key & s4 & Hk & H). injection Hk as Hk <-. apply bind_ok in H as (all & s4 & Ha & H). injection H as Hv <-.
    apply with_uuid_done in Ha as (tid & Ht & [_ H]%guarded_done). injection H as <- <-.
    intros (r & Hr & (_ & Hin & Hl)%(visible_sub _ _ _ _ _ Hv)%listed_live)%list_elem_of_fmap. by destruct (Hlive r _ Hin Hl).
Qed.

(** ** What the link's token is good for *)
Section Link.
Context `{P : TokenPrims} `{L : !TokenLaws P} `{IL : !IssuerProps.IssuerLaws IP}.

(** The last moment of the token: ten minutes, the application's shorter time,
    or the share's end. *)
Definition link_exp (oc : AccessLink.OCtx) (sh : ShareDomain.Share) (app : Application) : Time :=
  (AccessLink.oc_now oc + AccessLink.link_ttl (app_AccessTokenTTLSecs app) (sh_ValidUntil sh) (AccessLink.oc_now oc))%Z.

(** The two clocks are after 1970 and within 292 years. *)
Definition sane_clocks (env : ShEnv) (oc : AccessLink.OCtx) : Prop :=
  (0 < unix (se_now env))%Z /\ (0 < unix (AccessLink.oc_now oc))%Z /\ (min_duration <= se_now env - AccessLink.oc_now oc)%Z.

Lemma link_exp_bound env oc sh app :
  sane_clocks env oc -> Live sh (se_now env) = true ->
  (link_exp oc sh app <= sh_ValidUntil sh)%Z /\ (link_exp oc sh app <= AccessLink.oc_now oc + AccessLink.linkAccessTTL)%Z /\
  (0 < unix (link_exp oc sh app))%Z.
Proof.
  intros (H1 & H2 & H3) Hl. unfold Live, time_after in Hl. unbool.
  unfold link_exp, AccessLink.link_ttl, time_before. cbv zeta.
  pose proof (IssuerProps.stricter_le (app_AccessTokenTTLSecs app) AccessLink.linkAccessTTL) as Hle.
  pose proof (IssuerProps.stricter_pos (app_AccessTokenTTLSecs app) AccessLink.linkAccessTTL ltac:(done)) as Hpos.
  set (d := stricter _ _) in *. assert (AccessLink.linkAccessTTL = 600000000000)%Z as Hten by done.
  destruct (Z.ltb_spec (sh_ValidUntil sh) (AccessLink.oc_now oc + d)).
  - rewrite time_sub_exact by (unfold min_duration, max_duration in *; lia).
    replace (AccessLink.oc_now oc + (sh_ValidUntil sh - AccessLink.oc_now oc))%Z with (sh_ValidUntil sh) by lia.
    pose proof (unix_mono (se_now env) (sh_ValidUntil sh) ltac:(lia)). lia.
  - pose proof (unix_mono (AccessLink.oc_now oc) (AccessLink.oc_now oc + d) ltac:(lia)). lia.
Qed.

(** What a presented token of the ring says. *)
Lemma claims_of_signed json_claims ix key token msg c :
  AccessToken.Kid token = Ok (Keys.Kid key) -> Keys.Lookup (ix_ring ix) (Keys.Kid key) = Ok key -> AccessToken.Verify (Keys.Public key) token = Ok msg ->
  json_claims msg = Some c -> forall c', token_claims json_claims ix token = Some c' -> c' = c /\ (Claims.Expires c <> 0%Z -> (unix (ix_clock ix 0) <= Claims.Expires c)%Z).
Proof.
  intros Hk Hl Hv Hj c' H. unfold token_claims in H. rewrite Hk, Hl in H. destruct (negb _); [done|]. rewrite Hv, Hj in H. cbn [mbind option_bind] in H.
  cbv zeta in H. destruct (_ || _ || _) eqn:E; [done|]. injection H as <-. split; [done|]. unbool. intros Hne.
  destruct (Z.eqb_spec (Claims.Expires c) 0); [done|]. simpl in *. lia.
Qed.

(** A decision that a link's token may get. *)
Lemma link_decides port now ip json_map p inp st d :
  LinkBound p = true -> fst (Authorize.Execute port now ip json_map (Some p) inp st) = Ok d -> Authorize.d_Allow d = true ->
  Authorize.in_Subject inp = IdentityID p /\ Authorize.in_Scopes inp !! "_record"%string = Some (LinkRecord p).
Proof.
  intros Hb He Ha. unfold Authorize.Execute in He. destruct (_ || _); [done|]. destruct (Authorize.LinkTrespass p inp) eqn:Hl.
  { rewrite AuthorizeProps.audit_bind in He. simpl in He. by simplify_eq. }
  unfold Authorize.LinkTrespass in Hl. rewrite Hb in Hl. cbn [andb] in Hl. unbool. split; [done|].
  destruct (Authorize.in_Scopes inp !! _) as [r|]; simpl in *; congruence.
Qed.

Lemma signed_prefix sk m f t : Paseto.Sign sk m f "" = Ok t -> String.prefix "v4.public." t = true.
Proof. unfold Paseto.Sign. destruct (negb _); [done|]. intros [= <-]. apply prefix_app. Qed.

Lemma bearer_of token : token <> ""%string -> bearer_credential ("Bearer " ++ token) = Some token.
Proof. by destruct token. Qed.

(** The interceptor on a PASETO token. *)
Lemma link_request json_claims cenv kenv ix procedure token wanted ns p ns' :
  String.prefix "v4.public." token = true ->
  authenticate json_claims cenv kenv ix procedure ("Bearer " ++ token)%string wanted ns = (Ok (Some p), ns') ->
  principalFromToken json_claims ix token wanted = Some p /\ (LinkBound p = true -> procedure = AuthorizeProcedure).
Proof.
  intros Hp. unfold authenticate. rewrite bearer_of by by destruct token. rewrite Hp. intros [= H _].
  destruct (principalFromToken json_claims ix token wanted) as [q|]; [|done]. cbn [mbind option_bind] in H.
  destruct (linkMayReach q procedure) eqn:Hl; [|done]. injection H as ->. split; [done|].
  unfold linkMayReach in Hl. intros Hb. rewrite Hb in Hl. by apply bool_decide_eq_true in Hl.
Qed.

(** Who a token of the ring that names a tenant is. *)
Lemma signed_person key body token c json_claims cenv kenv ix procedure wanted ns p ns' :
  IssuerProps.good_key key -> Paseto.Sign (default ""%string (Keys.Private key)) body (json_footer (Keys.Kid key)) "" = Ok token ->
  json_claims body = Some c -> Keys.Lookup (ix_ring ix) (Keys.Kid key) = Ok key -> Claims.Tenant c <> ""%string ->
  authenticate json_claims cenv kenv ix procedure ("Bearer " ++ token)%string wanted ns = (Ok (Some p), ns') ->
  exists t, ix_tenant_by_slug ix (Claims.Tenant c) = Some t /\ Serving t = true /\ p = person_principal c t token /\
    (LinkBound p = true -> procedure = AuthorizeProcedure) /\ (Claims.Expires c <> 0%Z -> (unix (ix_clock ix 0) <= Claims.Expires c)%Z).
Proof using L IL.
  intros [Hpub _ _] Hs Hj Hlk Hten H. destruct (either_paseto _ _ _ _ Hs) as [Hv Hkid]. rewrite <- Hpub in Hv.
  rewrite bool_decide_eq_false_2, IssuerProps.footer_round in Hkid by apply IssuerProps.footer_nonempty.
  apply link_request in H as (Hq & Hreach); [|by eapply signed_prefix].
  unfold principalFromToken in Hq. destruct (token_claims _ _ _) as [c'|] eqn:Hc; [|done]. cbn [mbind option_bind] in Hq.
  apply (claims_of_signed json_claims ix key _ body c Hkid Hlk Hv Hj) in Hc as [-> Hexp].
  rewrite bool_decide_eq_false_2 in Hq by done. destruct (ix_tenant_by_slug ix _) as [t|] eqn:Hts; [|done].
  destruct (Serving t) eqn:Hserv; [|done]. cbn [negb] in Hq. injection Hq as <-. by exists t.
Qed.

(** C22: a link opens one record, for ten minutes.  Opening a link gives a token
    of the person the share is for, who can sign in; while the ring holds the
    key that signed it and the decoder reads its claims back, a request that
    presents it is that person's on the decision procedure and nobody's on any
    other, never after the share's end or ten minutes; and there authorize allows
    it nothing but questions about that person on the one record shared. *)
Theorem access_link_opens_one_record env oc inp s pair s' key :
  AccessLink.OpenAccessLink env oc inp s = (Ok pair, s') -> sane_clocks env oc ->
  DoorToken.active_key (AccessLink.oc_ring oc) (AccessLink.oc_wall oc) = Ok key -> IssuerProps.good_key key ->
  exists sh tenant i app c body, opened_from env oc inp s pair sh tenant i app key c body /\
    (link_exp oc sh app <= sh_ValidUntil sh)%Z /\ (link_exp oc sh app <= AccessLink.oc_now oc + AccessLink.linkAccessTTL)%Z /\
    forall json_claims ix cenv kenv procedure wanted ns p ns',
      json_claims body = Some c -> Keys.Lookup (ix_ring ix) (Keys.Kid key) = Ok key -> tn_Slug tenant <> ""%string ->
      authenticate json_claims cenv kenv ix procedure ("Bearer " ++ tp_AccessToken pair)%string wanted ns = (Ok (Some p), ns') ->
      procedure = AuthorizeProcedure /\ (unix (ix_clock ix 0) <= unix (link_exp oc sh app))%Z /\
      IdentityID p = IdentityDomain.i_ID i /\ Platform p = false /\ LinkBound p = true /\ LinkRecord p = sh_Record sh /\
      (exists t, ix_tenant_by_slug ix (tn_Slug tenant) = Some t /\ Serving t = true /\ TenantID p = tn_ID t) /\
      forall port now ip json_map q st d,
        fst (Authorize.Execute port now ip json_map (Some p) q st) = Ok d -> Authorize.d_Allow d = true ->
        Authorize.in_Subject q = IdentityDomain.i_ID i /\ Authorize.in_Scopes q !! "_record"%string = Some (sh_Record sh).
Proof using L IL.
  intros (sh & tenant & i & app & key' & c & body & Ho)%open_ok Hclk Hkey Hgood.
  pose proof (of_key _ _ _ _ _ _ _ _ _ _ _ _ Ho) as Hk'. rewrite Hkey in Hk'. injection Hk' as <-.
  exists sh, tenant, i, app, c, body. split; [done|]. destruct (link_exp_bound env oc sh app Hclk (of_live _ _ _ _ _ _ _ _ _ _ _ _ Ho)) as (He1 & He2 & He3).
  split; [done|]. split; [done|]. intros json_claims ix cenv kenv procedure wanted ns p ns' Hj Hlk Hslug H.
  destruct (of_claims _ _ _ _ _ _ _ _ _ _ _ _ Ho) as [jti Hc].
  apply (signed_person key body _ c) in H as (t & Hts & Hserv & -> & Hreach & Hexp); [|done|exact (of_signed _ _ _ _ _ _ _ _ _ _ _ _ Ho)|done|done|by rewrite Hc].
  subst c. cbn [AccessLink.link_claims Claims.Tenant Claims.Expires] in Hts, Hexp.
  split; [by apply Hreach|]. split; [apply Hexp; unfold link_exp in He3; lia|]. split; [done|]. split; [done|]. split; [done|].
  split; [done|]. split; [by exists t|]. intros port now ip json_map q st d Hd Ha.
  by refine (link_decides port now ip json_map (person_principal _ _ _) q st d _ Hd Ha).
Qed.

End Link.
End Shares.
End SharesProps.
