(* ===== verification/SecondFactorProps.v ===== *)
(** internal/auth/app: what second factors are good for.  A predicate over the
    credential and one-time tables is carried through every handler (a Hoare
    triple that reads the tables only); with it a sealed challenge and a code
    are each good for one sign-in, whatever happens in between.  Device keys:
    what a signature proves and which key can give one.  Enrolment: the secret
    that is sealed is the one that is opened again. *)

From Stdlib Require Import ZArith Lia Bool Ascii String.
From stdpp Require Import base gmap strings list.
From S2P Require Import Prelude.
From S2P Require Import Triples.
From S2P Require Import GoStrings.
From S2P Require Import Base64.
From S2P Require Import GoConv.
From S2P Require Import Secrets.
From S2P Require Import Tokens.
From S2P Require Import Keyring.
From S2P Require Import LocalTokens.
From S2P Require Import Shared.
From S2P Require Import AuthStore.
From S2P Require Import TokenIssuer.
From S2P Require Import AuthFlows.
From S2P Require Import TokenProps.
From S2P Require Import AuthTheorems.
From S2P Require Import Credentials.
From S2P Require Import Signin.
From S2P Require Import SigninProps.
From S2P Require Import SecondFactor.

Module SecondFactorProps.
Import Triples Apperr AuthStore Issuer AuthFlows IdentityDomain CredStore Signin SecondFactor.

(** ** Triples over the tables *)

Definition tabs (Q : Tables -> Prop) (s : SStore) : Prop := Q (ss_tab s).
Abbreviation triple Q m post := (Triples.triple (tabs Q) m post).

(** The same over the tables alone. *)
Definition ttriple {E X} (Q : Tables -> Prop) (m : Eff Tables E X) : Prop := forall t, Q t -> Q (snd (m t)).

Abbreviation keeps Q m := (triple Q m (fun _ => True)).

Section Rules.
Context (Q : Tables -> Prop).

Lemma triple_auth {E X} (m : Eff Store E X) : keeps Q (on_auth m).
Proof. intros s Hs. unfold on_auth. by destruct (m (ss_auth s)). Qed.

Lemma triple_work {E X} (m : Eff (list Z) E X) : keeps Q (on_work m).
Proof. intros s Hs. unfold on_work. by destruct (m (ss_work s)). Qed.

Lemma triple_tab {E X} (m : Eff Tables E X) : ttriple Q m -> keeps Q (on_tab m).
Proof. intros H s Hs. unfold on_tab. specialize (H (ss_tab s) Hs). by destruct (m (ss_tab s)). Qed.

Lemma triple_tx {X} (env : DbEnv) (m : Eff SStore Error X) post : triple Q m post -> triple Q (InTx env m) post.
Proof. intros H. unfold InTx. destruct (db_fails env OpBegin); [apply triple_raise|by apply triple_within]. Qed.

End Rules.

Create HintDb tables.
#[export] Hint Resolve triple_ret triple_raise triple_attempt triple_map_err triple_auth triple_work triple_tab triple_tx : tables.

(** The calls of the sign-in handlers. *)
Ltac signin_leaf :=
  idtac;
  match goal with
  | |- Triples.triple _ (on_auth _) _ => apply triple_auth
  | |- Triples.triple _ (on_work _) _ => apply triple_work
  | |- Triples.triple _ (or_else _ _) _ => apply triple_map_err
  | |- Triples.triple _ (InTx _ _) _ => apply triple_tx
  | |- Triples.triple _ (on_tab _) _ => apply triple_tab; by auto with tables
  end.
Ltac walk := walk_with signin_leaf.

(** ** What the handlers need of a predicate on the tables

    The hash [h] is that of a state token already spent and [id] a credential;
    nothing a handler draws is one of them. *)
Section Carried.
Context `{P : TokenPrims} `{IP : IssuerPrims} `{K : KdfPrims} `{A : AeadPrims} `{J : LocalToken.EnvelopeJson} `{SP : SigninPrims}.

Definition spent (h : string) (t : Tables) : Prop := forall r, r ∈ tb_onetime t -> ot_Hash r <> h.
Definition stepped (id : string) (k : Z) (t : Tables) : Prop :=
  forall r, r ∈ tb_creds t -> cr_ID r = id -> (k <= default 0%Z (cr_LastStep r))%Z.

Record avoids (h id : string) (cenv : CEnv) (sx : Sctx) : Prop := {
  av_jti j : secret_New (sx_jti sx) = Some j -> Hash j <> h;
  av_nonce n : secret_New (sx_device_nonce sx) = Some n -> Hash n <> h;
  av_cred n : ce_cred_id cenv n <> id
}.

Definition used_up (h id : string) (k : Z) (t : Tables) : Prop := spent h t /\ stepped id k t.

Section Tables.
Context (h id : string) (k : Z) (cenv : CEnv) (sx : Sctx).
Hypothesis Hav : avoids h id cenv sx.
Abbreviation Q := (used_up h id k).

Lemma guarded_keeps {X} op (m : Eff Tables Error X) : ttriple Q m -> ttriple Q (guarded cenv op m).
Proof. intros H t Ht. unfold guarded. destruct (ce_fails cenv op); [done|]. by apply H. Qed.

(** A row that is rewritten keeps its id and does not go back. *)
Lemma map_creds f t :
  (forall r, cr_ID (f r) = cr_ID r /\ (default 0 (cr_LastStep r) <= default 0 (cr_LastStep (f r)))%Z) -> Q t -> Q (with_creds t (map f (tb_creds t))).
Proof.
  intros Hf [Hs Hk]. split; [done|]. intros r' (r & -> & Hr)%list_elem_of_fmap Hid. destruct (Hf r) as [H1 H2].
  rewrite H1 in Hid. specialize (Hk r Hr Hid). lia.
Qed.

Lemma read_keeps {X} (m : Eff Tables Error X) : (forall t, snd (m t) = t) -> ttriple Q m.
Proof. intros H t Ht. by rewrite H. Qed.

Lemma create_keeps n inp : ttriple Q (CreateCredential cenv n inp).
Proof.
  apply guarded_keeps. intros t [Hs Hk]. destruct (existsb _ _); [done|]. split; [done|].
  intros r [Hr|[= ->]%list_elem_of_singleton]%elem_of_app; [by apply Hk|]. intros Hid. by destruct (av_cred _ _ _ _ Hav n).
Qed.

Lemma revoke_keeps tenant c : ttriple Q (RevokeCredential cenv tenant c).
Proof.
  apply guarded_keeps. intros t Ht. cbv zeta. destruct (existsb _ _); [|done]. apply map_creds; [|done].
  intros r. by destruct (_ && unrevoked r).
Qed.

Lemma revoke_kind_keeps who kind : ttriple Q (RevokeCredentialsOfKind cenv who kind).
Proof. apply guarded_keeps. intros t Ht. apply map_creds; [|done]. intros r. by destruct (_ && unrevoked r). Qed.

Lemma update_keeps c s kid : ttriple Q (UpdateCredentialSecret cenv c s kid).
Proof. apply guarded_keeps. intros t Ht. apply map_creds; [|done]. intros r. by destruct (bool_decide _). Qed.

Lemma advance_keeps c step : ttriple Q (AdvanceCredentialStep cenv c step).
Proof.
  apply guarded_keeps. intros t Ht. apply map_creds; [|done]. intros r.
  destruct (bool_decide _); [|done]. simpl. destruct (Z.ltb_spec (default 0%Z (cr_LastStep r)) step); [|done]. simpl. split; [done|lia].
Qed.

Lemma touch_keeps c n : ttriple (E := Error) Q (TouchCredentialUsed c n).
Proof. intros t Ht. apply map_creds; [|done]. intros r. by destruct (bool_decide _). Qed.

Lemma create_onetime_keeps tenant kind hash payload e : hash <> h -> ttriple Q (CreateOneTime cenv tenant kind hash payload e).
Proof.
  intros Hh. apply guarded_keeps. intros t [Hs Hk]. destruct (existsb _ _); [done|]. split; [|done].
  intros r [Hr| ->%list_elem_of_singleton]%elem_of_app; [by apply Hs|done].
Qed.

Lemma fewer_onetime f t : Q t -> Q (with_onetime t (List.filter f (tb_onetime t))).
Proof. intros [Hs Hk]. split; [|done]. intros r [Hr _]%list_elem_of_In%filter_In. apply Hs. by apply list_elem_of_In. Qed.

Lemma consume_keeps kind hash : ttriple Q (ConsumeOneTime cenv kind hash).
Proof. apply guarded_keeps. intros t Ht. destruct (find _ _); [by apply fewer_onetime|done]. Qed.

Lemma password_keeps who : ttriple Q (PasswordCredential cenv who).
Proof. apply guarded_keeps, read_keeps. intros t. by destruct (find _ _). Qed.

Lemma owner_keeps c : ttriple Q (CredentialOwner cenv c).
Proof. apply guarded_keeps, read_keeps. intros t. destruct (find _ _) as [r|]; [|done]. by destruct (unrevoked r). Qed.

Lemma of_kind_keeps who kind : ttriple Q (ActiveCredentialOfKind cenv who kind).
Proof. apply guarded_keeps, read_keeps. intros t. by destruct (newest _). Qed.

Lemma kinds_keep who : ttriple Q (ActiveCredentialKinds cenv who).
Proof. by apply guarded_keeps, read_keeps. Qed.

Lemma list_keeps tenant who kind : ttriple Q (ListCredentials cenv tenant who kind).
Proof. by apply guarded_keeps, read_keeps. Qed.

#[local] Hint Resolve create_keeps revoke_keeps revoke_kind_keeps update_keeps advance_keeps touch_keeps consume_keeps
  password_keeps owner_keeps of_kind_keeps kinds_keep list_keeps : tables.

(** *** The handlers *)
Context (env : DbEnv).

Lemma audit_login_keeps tenant ident surface res detail session : keeps Q (AuditLogin sx tenant ident surface res detail session).
Proof. unfold AuditLogin. walk. Qed.

Lemma enrolled_keeps who : keeps Q (enrolledFactorKinds cenv who).
Proof. unfold enrolledFactorKinds. walk. Qed.

Lemma factor_policy_keeps tenant realm ident surface : keeps Q (FactorPolicy cenv sx tenant realm ident surface).
Proof. unfold FactorPolicy. cbv zeta. walk; try apply audit_login_keeps; apply enrolled_keeps. Qed.

Lemma replace_keeps tenantID cred hash : keeps Q (replaceHash cenv tenantID cred hash).
Proof. unfold replaceHash. walk. Qed.

Lemma authenticate_keeps inp surface : keeps Q (Authenticate cenv sx inp surface).
Proof.
  unfold Authenticate, burnKDF, resolve, rehash. cbv zeta. walk; try apply audit_login_keeps.
  all: first [apply replace_keeps|apply factor_policy_keeps].
Qed.

Lemma seal_state_jti purpose raw ttl :
  triple Q (seal_state sx purpose raw ttl) (fun r => secret_New (sx_jti sx) = Some (fst r)).
Proof.
  unfold seal_state. eapply (triple_bind _ _ _ (fun _ => True)); [by apply triple_lift|]. intros key _.
  eapply (triple_bind _ _ _ (fun j => secret_New (sx_jti sx) = Some j)).
  { apply triple_lift. intros j. unfold need. destruct (secret_New _); [|done]. by intros [= ->]. }
  intros j Hj. eapply (triple_bind _ _ _ (fun _ => True)); [by apply triple_lift|]. intros tok _. by apply triple_ret.
Qed.

(** A token is sealed and its single use recorded. *)
Lemma seal_then {X} purpose raw ttl tenant kind payload e (f : string * string -> Eff SStore Error X) :
  (forall sealed, keeps Q (f sealed)) ->
  keeps Q (sealed ← seal_state sx purpose raw ttl;
           _ ← map_err internal (on_tab (CreateOneTime cenv tenant kind (Hash (fst sealed)) payload e));
           f sealed).
Proof.
  intros Hf. eapply triple_bind; [apply seal_state_jti|]. intros sealed Hj. eapply (triple_bind _ _ _ (fun _ => True)); [|auto].
  apply triple_map_err, triple_tab, create_onetime_keeps. by apply (av_jti _ _ _ _ Hav).
Qed.

Lemma mint_keeps tenant realm ident inp methods : keeps Q (mintMFAChallenge cenv sx tenant realm ident inp methods).
Proof. apply seal_then. intros sealed. by apply triple_ret. Qed.

Lemma grant_keeps tenant realm ident missing : keeps Q (Grant sx tenant realm ident missing).
Proof. eapply triple_bind; [apply seal_state_jti|]. intros sealed _. by apply triple_ret. Qed.

Lemma login_keeps inp : keeps Q (Login env cenv sx inp).
Proof.
  unfold Login, establishSession. eapply (triple_bind _ _ _ (fun _ => True)); [apply authenticate_keeps|].
  intros d _. walk; first [apply audit_login_keeps|apply mint_keeps|apply grant_keeps].
Qed.

Lemma verify_mfa_keeps inp : keeps Q (VerifyMfa env cenv sx inp).
Proof. unfold VerifyMfa, openState, shared_secret, accept_code. walk. Qed.

Lemma device_challenge_keeps inp : keeps Q (DeviceChallenge cenv sx inp).
Proof.
  eapply (triple_bind _ _ _ (fun _ => True)); [by apply triple_lift|]. intros t _. eapply (triple_bind _ _ _ (fun n => secret_New (sx_device_nonce sx) = Some n)).
  - apply triple_lift. intros j. unfold need. destruct (secret_New _); [|done]. by intros [= ->].
  - intros n Hn. eapply (triple_bind _ _ _ (fun _ => True)); [|intros; by apply triple_ret].
    apply triple_map_err, triple_tab, create_onetime_keeps. by apply (av_nonce _ _ _ _ Hav).
Qed.

Lemma device_verify_keeps inp : keeps Q (DeviceVerify env cenv sx inp).
Proof. unfold DeviceVerify, device_credential. walk. Qed.

Lemma caller_keeps grant : keeps Q (enrol_caller cenv sx grant).
Proof. unfold enrol_caller. walk. Qed.

Lemma begin_totp_keeps grant : keeps Q (BeginTOTP cenv sx grant).
Proof.
  unfold BeginTOTP. eapply (triple_bind _ _ _ (fun _ => True)); [apply caller_keeps|].
  intros [[tenantID identityID] session] _. eapply (triple_bind _ _ _ (fun _ => True)); [by apply triple_lift|]. intros ident _.
  eapply (triple_bind _ _ _ (fun _ => True)); [by apply triple_lift|]. intros sec _. apply seal_then. intros. by apply triple_ret.
Qed.

Lemma recovery_keeps tenantID identityID todo n : keeps Q (recovery_codes cenv sx tenantID identityID todo n).
Proof. revert n. induction todo as [|todo IH]; intros n; cbn [recovery_codes]; walk. apply IH. Qed.

Lemma confirm_totp_keeps token code grant : keeps Q (ConfirmTOTP env cenv sx token code grant).
Proof.
  unfold ConfirmTOTP. eapply (triple_bind _ _ _ (fun _ => True)); [apply caller_keeps|]. walk. apply recovery_keeps.
Qed.

Lemma enroll_key_keeps publicKey label : keeps Q (EnrollDeviceKey cenv sx publicKey label).
Proof. unfold EnrollDeviceKey. eapply (triple_bind _ _ _ (fun _ => True)); [apply caller_keeps|]. walk. Qed.

End Tables.

(** ** Histories *)

(** What a service can be asked to do between two sign-ins: the handlers of the
    sign-in and of enrolment, any operation of the session store, the removal
    of a credential, and the sweep of expired tokens. *)
Inductive Move :=
| MvLogin (inp : LoginInput)
| MvVerifyMfa (inp : VerifyMfaInput)
| MvDeviceChallenge (inp : DeviceChallengeInput)
| MvDeviceVerify (inp : DeviceVerifyInput)
| MvBeginTOTP (grantToken : string)
| MvConfirmTOTP (token code grantToken : string)
| MvEnrollDeviceKey (publicKey label : string)
| MvSession (m : Eff Store Error unit)
| MvRevoke (tenantID id : string)
| MvSweep.

Definition perform (env : DbEnv) (cenv : CEnv) (sx : Sctx) (mv : Move) (s : SStore) : SStore :=
  match mv with
  | MvLogin inp => snd (Login env cenv sx inp s)
  | MvVerifyMfa inp => snd (VerifyMfa env cenv sx inp s)
  | MvDeviceChallenge inp => snd (DeviceChallenge cenv sx inp s)
  | MvDeviceVerify inp => snd (DeviceVerify env cenv sx inp s)
  | MvBeginTOTP g => snd (BeginTOTP cenv sx g s)
  | MvConfirmTOTP t c g => snd (ConfirmTOTP env cenv sx t c g s)
  | MvEnrollDeviceKey k l => snd (EnrollDeviceKey cenv sx k l s)
  | MvSession m => snd (on_auth m s)
  | MvRevoke t i => snd (on_tab (RevokeCredential cenv t i) s)
  | MvSweep => snd (on_tab (E := Error) (SweepExpired cenv) s)
  end.

(** Moves whose random draws are neither the spent hash nor the id. *)
Definition history (h id : string) : SStore -> SStore -> Prop :=
  rtc (fun s s' => exists env cenv sx mv, avoids h id cenv sx /\ s' = perform env cenv sx mv s).

Lemma keeps_snd {X} (Q : Tables -> Prop) (m : Eff SStore Error X) s : keeps Q m -> Q (ss_tab s) -> Q (ss_tab (snd (m s))).
Proof. intros H Hs. specialize (H s Hs). destruct (m s). by destruct H. Qed.

Lemma perform_keeps h id k env cenv sx mv s :
  avoids h id cenv sx -> used_up h id k (ss_tab s) -> used_up h id k (ss_tab (perform env cenv sx mv s)).
Proof.
  intros Hav. destruct mv; apply keeps_snd.
  - by apply login_keeps.
  - by apply verify_mfa_keeps.
  - by apply device_challenge_keeps.
  - by apply device_verify_keeps.
  - by apply begin_totp_keeps.
  - by apply confirm_totp_keeps.
  - by apply enroll_key_keeps.
  - apply triple_auth.
  - apply triple_tab. by apply revoke_keeps.
  - apply triple_tab. intros t Ht. by apply fewer_onetime.
Qed.

Lemma history_keeps h id k s s' : history h id s s' -> used_up h id k (ss_tab s) -> used_up h id k (ss_tab s').
Proof. induction 1 as [|s s1 s' (env & cenv & sx & mv & Hav & ->) _ IH]; [done|]. intros Hs. by apply IH, perform_keeps. Qed.

(** ** What a second factor spends *)

(** The secret behind a credential, under a ring. *)
Definition secret_of (ring : Keys.Ring) (cred : Credential) : option string :=
  sealed ← StdBase64.decode (c_Secret cred);
  match Keys.OpenNamedSecret ring (c_SecretKid cred) ("totp:" ++ c_ID cred) sealed with Ok (m, _) => Some m | Err _ => None end.

(** The hash of the challenge, the credential and the step a submission uses. *)
Definition mfa_use (cenv : CEnv) (sx : Sctx) (inp : VerifyMfaInput) (s : SStore) : option (string * string * Z) :=
  let ports := cx_ports (sx_flow sx) in
  match open_sealed sx ErrMfaInvalid "mfa" (vm_MFAToken inp) with
  | Err _ => None
  | Ok (jti, raw) =>
      st ← json_parse_state raw;
      row ← newest (List.filter (fun r => holds (ms_IdentityID st) "totp" r && live cenv r) (tb_creds (ss_tab s)));
      secret ← secret_of (p_ring ports) (credential_of row);
      step ← Totp.Verify hmac_sha1 secret (vm_Code inp) (p_now ports) Totp.DefaultStep (Z.to_nat Totp.DefaultDigits) 1;
      Some (Hash jti, cr_ID row, step)
  end.

(** Where the step of a credential stands before a submission that uses [k]. *)
Definition behind (id : string) (k : Z) (t : Tables) : Prop :=
  exists r, r ∈ tb_creds t /\ cr_ID r = id /\ (default 0%Z (cr_LastStep r) < k)%Z.

Section Uses.
Context (env : DbEnv) (cenv : CEnv) (sx : Sctx).

Lemma openState_ok token st s s' :
  openState cenv sx token s = (Ok st, s') ->
  exists jti raw row, open_sealed sx ErrMfaInvalid "mfa" token = Ok (jti, raw) /\ json_parse_state raw = Some st /\
    row ∈ tb_onetime (ss_tab s) /\ ot_Hash row = Hash jti /\ tb_creds (ss_tab s') = tb_creds (ss_tab s) /\
    (NoDup (map ot_Hash (tb_onetime (ss_tab s))) -> spent (Hash jti) (ss_tab s')).
Proof.
  unfold openState. intros ([jti raw] & s1 & H1 & H2)%bind_ok. unfold lift in H1. injection H1 as H1 <-.
  apply bind_ok in H2 as ([tn pl] & s2 & H2 & H3). unfold lift in H3. injection H3 as H3 <-.
  apply map_err_ok in H2. unfold on_tab, ConsumeOneTime, guarded in H2. cbn [fst snd] in *.
  destruct (ce_fails cenv OpConsumeOneTime); [done|]. destruct (find _ _) as [row|] eqn:Hf; [|done]. injection H2 as _ _ <-.
  apply find_some in Hf as [Hin Hc]. exists jti, raw, row. split; [done|].
  split; [destruct (json_parse_state raw); [by injection H3 as ->|done]|]. apply list_elem_of_In in Hin. split; [done|].
  pose proof Hc as Hc'. unfold consumable in Hc'. unbool. split; [done|]. split; [done|].
  intros Hnd r [Hr Hneg]%list_elem_of_In%filter_In Hh. apply negb_true_iff in Hneg. apply list_elem_of_In in Hr.
  assert (r = row) as ->; [|congruence]. apply (NoDup_map_inj ot_Hash (tb_onetime (ss_tab s))); try done. congruence.
Qed.

Lemma shared_secret_ok cred secret s s' :
  shared_secret cenv sx cred s = (Ok secret, s') ->
  secret_of (p_ring (cx_ports (sx_flow sx))) cred = Some secret /\ tb_onetime (ss_tab s') = tb_onetime (ss_tab s) /\
  exists f, tb_creds (ss_tab s') = map f (tb_creds (ss_tab s)) /\ forall r, cr_ID (f r) = cr_ID r /\ cr_LastStep (f r) = cr_LastStep r.
Proof.
  unfold shared_secret. intros (sealed & s1 & H1 & H2)%bind_ok. unfold lift in H1. injection H1 as H1 <-.
  apply bind_ok in H2 as ([m kid] & s2 & H2 & H3). unfold lift in H2. injection H2 as H2 <-.
  apply bind_ok in H3 as ([] & s3 & H3 & H4). injection H4 as <- <-.
  split; [|split].
  - unfold secret_of. destruct (StdBase64.decode (c_Secret cred)) as [sl|]; [|done]. injection H1 as ->. simpl.
    destruct (Keys.OpenNamedSecret _ _ _ _) as [[? ?]|]; [by injection H2 as -> ->|done].
  - case_bool_decide; [|by injection H3 as <-]. apply map_err_ok in H3. unfold on_tab, UpdateCredentialSecret, guarded in H3.
    destruct (ce_fails cenv OpUpdateSecret); [done|]. by injection H3 as <-.
  - case_bool_decide; [|injection H3 as <-; exists (fun r => r); by rewrite map_id].
    apply map_err_ok in H3. unfold on_tab, UpdateCredentialSecret, guarded in H3. destruct (ce_fails cenv OpUpdateSecret); [done|].
    injection H3 as <-. eexists. split; [reflexivity|]. intros r. cbv beta. by destruct (bool_decide (cr_ID r = c_ID cred)).
Qed.

Lemma accept_code_ok cred secret code s s' :
  accept_code cenv sx cred secret code s = (Ok true, s') ->
  exists k, Totp.Verify hmac_sha1 secret code (p_now (cx_ports (sx_flow sx))) Totp.DefaultStep (Z.to_nat Totp.DefaultDigits) 1 = Some k /\
    behind (c_ID cred) k (ss_tab s) /\ stepped (c_ID cred) k (ss_tab s') /\ tb_onetime (ss_tab s') = tb_onetime (ss_tab s).
Proof.
  unfold accept_code. destruct (Totp.Verify _ _ _ _ _ _ _) as [k|]; [|done]. intros H. apply map_err_ok in H. exists k.
  unfold on_tab, AdvanceCredentialStep, guarded in H. destruct (ce_fails cenv OpAdvance); [done|]. injection H as He <-.
  split; [done|]. apply existsb_spec in He as (r & Hr & Hh). unbool. split; [by exists r|]. split; [|done].
  intros r' (r0 & -> & Hr0)%list_elem_of_fmap Hid. simpl in *.
  destruct (bool_decide (cr_ID r0 = c_ID cred)) eqn:Hb; simpl in *; unbool; [|done].
  destruct (Z.ltb_spec (default 0%Z (cr_LastStep r0)) k); simpl; [|done]. lia.
Qed.

(** What a submission that signs in spent. *)
Lemma VerifyMfa_spends inp p s s' :
  VerifyMfa env cenv sx inp s = (Ok p, s') ->
  exists h id k, mfa_use cenv sx inp s = Some (h, id, k) /\
    (exists row, row ∈ tb_onetime (ss_tab s) /\ ot_Hash row = h) /\ behind id k (ss_tab s) /\
    (NoDup (map ot_Hash (tb_onetime (ss_tab s))) -> used_up h id k (ss_tab s')).
Proof.
  unfold VerifyMfa. intros (st & s1 & H1 & H)%bind_ok.
  apply openState_ok in H1 as (jti & raw & row & Hop & Hst & Hrow & Hh & Hc1 & Hsp).
  destruct (negb _); [done|]. apply bind_ok in H as (cred & s2 & H2 & H). apply map_err_ok in H2.
  unfold on_tab, ActiveCredentialOfKind, guarded in H2. destruct (ce_fails cenv OpActiveOfKind); [done|].
  destruct (newest _) as [r|] eqn:Hn; [|done]. injection H2 as <- <-. cbn [ss_tab] in *.
  apply bind_ok in H as (secret & s3 & H3 & H). apply shared_secret_ok in H3 as (Hsec & Ho3 & f & Hc3 & Hf). cbn [ss_tab] in *.
  apply bind_ok in H as (fresh & s4 & H4 & H). destruct fresh; [|by apply bind_ok in H as (? & ? & _ & ?)].
  apply accept_code_ok in H4 as (k & Htotp & (rb & Hrb & Hid & Hlt) & Hstep & Ho4).
  assert (Htab : ss_tab s' = ss_tab s4).
  { cbn [negb] in H. repeat (apply bind_ok in H as (? & ? & ?Hm & H)).
    repeat match goal with Hm : lift _ _ = _ |- _ => injection Hm as Hm <- end. injection H as _ <-.
    repeat match goal with Hm : on_auth ?m ?s0 = (_, ?s9) |- _ => unfold on_auth in Hm; destruct (m (ss_auth s0)); injection Hm as _ <- end.
    done. }
  exists (Hash jti), (cr_ID r), k. split; [|split; [by exists row|split]].
  - unfold mfa_use. rewrite Hop, Hst. simpl. rewrite <- Hc1, Hn. simpl. rewrite Hsec. simpl. by rewrite Htotp.
  - rewrite Hc3, Hc1 in Hrb. apply list_elem_of_fmap in Hrb as (r0 & -> & Hr0). destruct (Hf r0) as [E1 E2]. rewrite E2 in Hlt.
    exists r0. split; [done|]. split; [by rewrite <- E1|done].
  - intros Hnd. rewrite Htab. split; [|done]. intros r0. rewrite Ho4, Ho3. by apply Hsp.
Qed.

End Uses.

(** C33: a second factor is good for one sign-in.  Between two submissions that
    both signed in, however long the history of logins, challenges, device
    sign-ins, enrolments, session operations and revocations between them, the
    challenge tokens are different ones, and on the same authenticator the
    second code is of a strictly later time step than the first: neither a
    token nor a code buys a second session. *)
Theorem second_factor_single_use env cenv sx inp p s s1 :
  NoDup (map ot_Hash (tb_onetime (ss_tab s))) -> VerifyMfa env cenv sx inp s = (Ok p, s1) ->
  exists h id k, mfa_use cenv sx inp s = Some (h, id, k) /\
    forall env' cenv' sx' inp' p' s2 s3, history h id s1 s2 -> VerifyMfa env' cenv' sx' inp' s2 = (Ok p', s3) ->
      exists h' id' k', mfa_use cenv' sx' inp' s2 = Some (h', id', k') /\ h <> h' /\ (id = id' -> (k < k')%Z).
Proof.
  intros Hnd H1. apply VerifyMfa_spends in H1 as (h & id & k & E1 & _ & _ & Hused). exists h, id, k. split; [done|].
  intros env' cenv' sx' inp' p' s2 s3 Hh H2.
  apply VerifyMfa_spends in H2 as (h' & id' & k' & E2 & (row & Hrow & Hhash) & (r & Hr & Hid & Hlt) & _).
  exists h', id', k'. split; [done|]. destruct (history_keeps _ _ _ _ _ Hh (Hused Hnd)) as [Hsp Hst]. split.
  - intros <-. by apply (Hsp row).
  - intros <-. specialize (Hst r Hr Hid). lia.
Qed.

(** ** Device keys *)

Lemma newest_max l r : newest l = Some r -> r ∈ l /\ forall r', r' ∈ l -> (cr_CreatedAt r' <= cr_CreatedAt r)%Z.
Proof.
  revert r. induction l as [|x l IH]; [done|]. intros r. simpl. destruct (newest l) as [y|] eqn:Hy.
  - destruct (IH y eq_refl) as [Hin Hmax]. destruct (Z.ltb_spec (cr_CreatedAt y) (cr_CreatedAt x)); intros [= <-].
    + split; [by left|]. intros r' [->|Hr]%elem_of_cons; [lia|]. specialize (Hmax r' Hr). lia.
    + split; [by right|]. intros r' [->|Hr]%elem_of_cons; [lia|]. by apply Hmax.
  - intros [= <-]. split; [by left|]. intros r' [->|Hr]%elem_of_cons; [lia|].
    destruct l as [|z l]; [by apply not_elem_of_nil in Hr|]. simpl in Hy. destruct (newest l) as [y|]; [by destruct (_ <? _)%Z|done].
Qed.

Section Device.
Context (env : DbEnv) (cenv : CEnv) (sx : Sctx).

(** The live device keys of a person. *)
Definition device_keys (t : Tables) (who : string) : list CredRow :=
  List.filter (fun r => holds who "device_key" r && live cenv r) (tb_creds t).

Lemma device_credential_ok id c s s' :
  device_credential cenv id s = (Ok c, s') ->
  s' = s /\ exists owner r, find (fun r => bool_decide (cr_ID r = id)) (tb_creds (ss_tab s)) = Some owner /\
    newest (device_keys (ss_tab s) (cr_IdentityID owner)) = Some r /\ c = credential_of r /\ cr_ID r = id.
Proof.
  unfold device_credential. intros ([[who tn] kind] & s1 & H1 & H)%bind_ok. apply map_err_ok in H1.
  unfold on_tab, CredentialOwner, guarded in H1. destruct (ce_fails cenv OpOwner); [done|].
  destruct (find _ _) as [owner|] eqn:Hf; [|done]. destruct (unrevoked owner); [|done]. injection H1 as <- _ _ <-.
  destruct (negb _); [done|]. apply bind_ok in H as (cred & s2 & H2 & H). apply map_err_ok in H2.
  unfold on_tab, ActiveCredentialOfKind, guarded in H2. destruct (ce_fails cenv OpActiveOfKind); [done|].
  cbn [ss_tab] in H2. fold (device_keys (ss_tab s) (cr_IdentityID owner)) in H2.
  destruct (newest _) as [r|] eqn:Hn; [|done]. injection H2 as <- <-.
  destruct (negb _) eqn:Hid; [done|]. injection H as <- <-. unbool. split; [by destruct s|]. by exists owner, r.
Qed.

(** What a device sign-in rests on. *)
Record device_proof (inp : DeviceVerifyInput) (t t' : Tables) : Prop := {
  dp_challenge : exists row realmCode, row ∈ tb_onetime t /\ consumable cenv "device_challenge" (Hash (dv_Nonce inp)) row = true /\
    json_parse_device (ot_Payload row) = Some (dv_KeyID inp, realmCode);
  dp_spent : forall row, row ∈ tb_onetime t' -> consumable cenv "device_challenge" (Hash (dv_Nonce inp)) row = false;
  dp_key : exists owner r pub sig, find (fun r => bool_decide (cr_ID r = dv_KeyID inp)) (tb_creds t) = Some owner /\
    newest (device_keys t (cr_IdentityID owner)) = Some r /\ cr_ID r = dv_KeyID inp /\
    public_key (default ""%string (cr_Secret r)) = Some pub /\ Base64.decode false (dv_Signature inp) = Some sig /\
    device_verify pub (dv_Nonce inp) sig = true;
  dp_person : exists tenant owner ident realm code, cx_tenant_by_slug (sx_flow sx) (dv_Tenant inp) = Some tenant /\
    find (fun r => bool_decide (cr_ID r = dv_KeyID inp)) (tb_creds t) = Some owner /\
    sx_identity sx (tn_ID tenant) (cr_IdentityID owner) = Some ident /\ CanAuthenticate ident = Ok tt /\
    sx_realm_by_code sx (tn_ID tenant) (orDefault code (i_RealmCode ident)) = Some realm /\ AllowsFactor realm "device_key" = true
}.

Lemma device_keys_owner t who r : r ∈ device_keys t who -> cr_IdentityID r = who.
Proof. intros [_ H]%list_elem_of_In%filter_In. apply andb_true_iff in H as [H _]. unfold holds in H. by unbool. Qed.

Lemma lift_ok {X} (r : result Error X) a (s s' : SStore) : lift r s = (Ok a, s') -> r = Ok a /\ s' = s.
Proof. by intros [= -> ->]. Qed.

Lemma some_or_ok {X} e (o : option X) a : some_or e o = Ok a -> o = Some a.
Proof. destruct o; [by intros [= ->]|done]. Qed.

Lemma DeviceVerify_proves inp p s s' : DeviceVerify env cenv sx inp s = (Ok p, s') -> device_proof inp (ss_tab s) (ss_tab s').
Proof.
  unfold DeviceVerify. intros (tenant & s1 & [H1%some_or_ok ->]%lift_ok & H)%bind_ok.
  apply bind_ok in H as ([tn payload] & s2 & H2 & H). apply map_err_ok in H2. unfold on_tab, ConsumeOneTime, guarded in H2.
  destruct (ce_fails cenv OpConsumeOneTime); [done|]. destruct (find _ (tb_onetime _)) as [row|] eqn:Hrow; [|done]. injection H2 as <- <- <-.
  apply bind_ok in H as ([keyID code] & s3 & [H3%some_or_ok ->]%lift_ok & H). cbn [fst snd] in *.
  destruct (negb _) eqn:Hkey; [done|]. unbool. subst keyID.
  apply bind_ok in H as (c & s4 & H4%map_err_ok & H). apply device_credential_ok in H4 as (-> & owner & r & Ho & Hn & -> & Hid).
  cbn [ss_tab with_onetime tb_creds] in Ho, Hn. apply bind_ok in H as (pub & s5 & [H5%some_or_ok ->]%lift_ok & H).
  destruct (Base64.decode false (dv_Signature inp)) as [sig|] eqn:Hsig; [|by apply bind_ok in H as (? & ? & _ & ?)].
  destruct (device_verify pub (dv_Nonce inp) sig) eqn:Hver; cbn [negb] in H; [|by apply bind_ok in H as (? & ? & _ & ?)].
  apply bind_ok in H as (ident & s6 & [H6%some_or_ok ->]%lift_ok & H). apply bind_ok in H as ([] & s7 & [H7 ->]%lift_ok & H).
  apply bind_ok in H as (realm & s8 & [H8%some_or_ok ->]%lift_ok & H). destruct (AllowsFactor realm "device_key") eqn:Hal; [|done].
  cbn [negb] in H. apply bind_ok in H as ([] & s9 & H9 & H). apply bind_ok in H as (issued & s10 & H10 & H).
  apply bind_ok in H as ([] & s11 & H11 & H). injection H as _ <-.
  unfold on_auth in H10, H11. destruct (Establish _ _ _ _ _ _ _ _ _); injection H10 as _ <-. injection H11 as <-.
  unfold on_tab in H9. injection H9 as <-. apply find_some in Hrow as [Hin Hc]. apply list_elem_of_In in Hin.
  assert (Hwho : cr_IdentityID r = cr_IdentityID owner) by (by apply (device_keys_owner (ss_tab s)), newest_max).
  split.
  - by exists row, code.
  - intros row' [_ Hneg]%list_elem_of_In%filter_In. by apply negb_true_iff.
  - by exists owner, r, pub, sig.
  - exists tenant, owner, ident, realm, code. simpl in H6. rewrite Hwho in H6. done.
Qed.

(** What a device sign-in rests on.  A key signs in only with the nonce of a
    challenge that was issued for this key, has not lapsed and is spent by it;
    with a signature over that nonce under the key's public half; for a person
    who may sign in, in a realm that takes device keys. *)
Theorem DeviceVerify_safe inp p s s' : DeviceVerify env cenv sx inp s = (Ok p, s') -> device_proof inp (ss_tab s) (ss_tab s').
Proof. apply DeviceVerify_proves. Qed.

(** Only the newest key of a person signs in.  While a later key of the same
    person is live, an earlier one is refused, whatever it signs. *)
Theorem older_device_key_refused inp s r1 r2 :
  NoDup (map cr_ID (tb_creds (ss_tab s))) -> r1 ∈ tb_creds (ss_tab s) -> cr_ID r1 = dv_KeyID inp ->
  r2 ∈ device_keys (ss_tab s) (cr_IdentityID r1) -> (cr_CreatedAt r1 < cr_CreatedAt r2)%Z ->
  exists e, fst (DeviceVerify env cenv sx inp s) = Err e.
Proof.
  intros Hnd Hr1 Hid Hr2 Hlt. destruct (DeviceVerify env cenv sx inp s) as [[p|e] s'] eqn:Hv; [|by exists e]. exfalso.
  destruct (dp_key _ _ _ (DeviceVerify_proves _ _ _ _ Hv)) as (owner & r & _ & _ & Ho & Hn & Hr & _).
  apply find_some in Ho as [Hoin Hoid]. apply list_elem_of_In in Hoin. unbool.
  assert (owner = r1) as -> by (apply (NoDup_map_inj cr_ID (tb_creds (ss_tab s))); congruence).
  destruct (newest_max _ _ Hn) as [Hin Hmax]. specialize (Hmax r2 Hr2).
  assert (Hrin : r ∈ tb_creds (ss_tab s)) by (apply list_elem_of_In in Hin; apply filter_In in Hin as [Hin _]; by apply list_elem_of_In).
  assert (r = r1) as -> by (apply (NoDup_map_inj cr_ID (tb_creds (ss_tab s))); congruence). lia.
Qed.

End Device.
(** ** Enrolling an authenticator *)
Section Enrol.
Context `{L : !AeadLaws A}.
Context (env : DbEnv) (cenv : CEnv) (sx : Sctx).

(** The rows of one kind of a person that are not revoked. *)
Definition held (who kind : string) (t : Tables) : list CredRow :=
  List.filter (fun r => holds who kind r && unrevoked r) (tb_creds t).

Lemma held_app who kind l1 l2 o :
  held who kind {| tb_creds := l1 ++ l2; tb_onetime := o |} =
  held who kind {| tb_creds := l1; tb_onetime := o |} ++ held who kind {| tb_creds := l2; tb_onetime := o |}.
Proof. apply List.filter_app. Qed.

Lemma revoke_kind_ok who kind n s s' :
  on_tab (RevokeCredentialsOfKind cenv who kind) s = (Ok n, s') ->
  held who kind (ss_tab s') = [] /\ (forall kind', kind' <> kind -> held who kind' (ss_tab s') = held who kind' (ss_tab s)).
Proof.
  unfold on_tab, RevokeCredentialsOfKind, guarded. destruct (ce_fails cenv OpRevokeKind); [done|]. intros [= _ <-].
  unfold held. cbn [ss_tab with_creds tb_creds]. generalize (tb_creds (ss_tab s)). intros l. split.
  - induction l as [|r l IH]; [done|]. simpl. destruct (holds who kind r && unrevoked r) eqn:Hh; simpl.
    + change (unrevoked (set_cred_revoked cenv r)) with false. by rewrite andb_false_r.
    + by rewrite Hh.
  - intros kind' Hne. induction l as [|r l IH]; [done|]. simpl. destruct (holds who kind r && unrevoked r) eqn:Hh; simpl; [|by rewrite IH].
    assert (Hk : holds who kind' r = false).
    { unfold holds in *. unbool. rewrite (bool_decide_eq_false_2 (cr_Kind r = kind')) by congruence. apply andb_false_r. }
    change (holds who kind' (set_cred_revoked cenv r)) with (holds who kind' r). by rewrite Hk, IH.
Qed.

Lemma create_ok n inp id s s' :
  on_tab (CreateCredential cenv n inp) s = (Ok id, s') ->
  id = ce_cred_id cenv n /\ tb_creds (ss_tab s') = tb_creds (ss_tab s) ++ [new_row cenv id inp].
Proof.
  unfold on_tab, CreateCredential, guarded. destruct (ce_fails cenv OpCreateCred); [done|]. destruct (existsb _ _); [done|].
  by intros [= <- <-].
Qed.

Lemma recovery_ok who tenantID todo n codes s s' :
  recovery_codes cenv sx tenantID who todo n s = (Ok codes, s') ->
  length codes = todo /\ forall kind, kind <> "recovery_code"%string -> held who kind (ss_tab s') = held who kind (ss_tab s).
Proof.
  revert n s codes. induction todo as [|todo IH]; intros n s codes; cbn [recovery_codes]; [by intros [= <- <-]|].
  intros (plain & s1 & [_ ->]%lift_ok & H)%bind_ok. apply bind_ok in H as (id & s2 & [-> Hc]%create_ok & H).
  apply bind_ok in H as (rest & s3 & H3 & H). injection H as <- <-. apply IH in H3 as [Hl Hk]. split; [simpl; by f_equal|].
  intros kind Hne. rewrite (Hk kind Hne). unfold held. rewrite Hc, List.filter_app. simpl. unfold holds at 2. simpl.
  rewrite (bool_decide_eq_false_2 ("recovery_code"%string = kind)) by congruence. by rewrite andb_false_r, app_nil_r.
Qed.

(** The row an enrolment leaves. *)
Definition sealed_row (id who tenantID : string) (k : Z) (sealed kid : string) : CredRow :=
  set_secret (StdBase64.encode sealed) kid (new_row cenv id {| ci_IdentityID := who; ci_TenantID := tenantID; ci_Kind := "totp";
    ci_Secret := ""; ci_LookupKey := ""; ci_LastStep := Some k; ci_ExpiresAt := None |}).

Lemma update_held who kind id secret kid s s' :
  on_tab (UpdateCredentialSecret cenv id secret kid) s = (Ok tt, s') ->
  held who kind (ss_tab s') = map (fun r => if bool_decide (cr_ID r = id) then set_secret secret kid r else r) (held who kind (ss_tab s)).
Proof.
  unfold on_tab, UpdateCredentialSecret, guarded. destruct (ce_fails cenv OpUpdateSecret); [done|]. intros [= <-].
  unfold held. cbn [ss_tab with_creds tb_creds]. induction (tb_creds (ss_tab s)) as [|r l IH]; [done|]. simpl.
  assert (Hr : holds who kind (if bool_decide (cr_ID r = id) then set_secret secret kid r else r) &&
    unrevoked (if bool_decide (cr_ID r = id) then set_secret secret kid r else r) = holds who kind r && unrevoked r)
    by (by destruct (bool_decide _)).
  rewrite Hr. destruct (_ && unrevoked r); simpl; by rewrite IH.
Qed.

Lemma sealed_row_opens id who tenantID k sealed secret kid master ring key :
  String.length (sx_seal_nonce sx) = 12%nat -> kid <> ""%string -> Keys.Lookup ring kid = Ok key -> Keys.Secret key = master ->
  Keys.SealSecret (sx_seal_nonce sx) master ("totp:" ++ id) secret = Ok sealed ->
  secret_of ring (credential_of (sealed_row id who tenantID k sealed kid)) = Some secret.
Proof.
  intros Hn Hkid Hl Hm Hs. unfold secret_of. simpl.
  assert (He : default ""%string (nullif (StdBase64.encode sealed)) = StdBase64.encode sealed) by (unfold nullif; by case_bool_decide as E).
  rewrite He, StdBase64.std_decode_encode. simpl. unfold nullif. rewrite bool_decide_eq_false_2 by done. simpl.
  unfold Keys.OpenNamedSecret. rewrite bool_decide_eq_false_2 by done. rewrite Hl, Hm.
  rewrite (Keys.Seal_Open _ _ _ _ _ Hn Hs). done.
Qed.

(** An authenticator that was enrolled works.  A confirmed enrolment leaves
    the person exactly one authenticator, with the step of the confirming code
    already spent, and ten recovery codes; its stored secret opens to the one
    the enrolment token carried, under every later ring that still holds the
    sealing key. *)
Theorem ConfirmTOTP_opens token code grantToken id codes s s' :
  String.length (sx_seal_nonce sx) = 12%nat ->
  ConfirmTOTP env cenv sx token code grantToken s = (Ok (id, codes), s') ->
  exists jti raw st k row master,
    open_sealed sx ErrMfaInvalid "totp_enroll" token = Ok (jti, raw) /\ json_parse_enrol raw = Some st /\
    Totp.Verify hmac_sha1 (es_Secret st) code (p_now (cx_ports (sx_flow sx))) Totp.DefaultStep (Z.to_nat Totp.DefaultDigits) 1 = Some k /\
    held (es_IdentityID st) "totp" (ss_tab s') = [row] /\ cr_ID row = id /\ cr_LastStep row = Some k /\ length codes = 10%nat /\
    Keys.ActiveLocal (p_ring (cx_ports (sx_flow sx))) = Ok master /\
    (Keys.Kid master <> ""%string -> forall ring key, Keys.Lookup ring (Keys.Kid master) = Ok key -> Keys.Secret key = Keys.Secret master ->
       secret_of ring (credential_of row) = Some (es_Secret st)).
Proof.
  intros Hn. unfold ConfirmTOTP. intros ([[tenantID who] session] & s1 & H1 & H)%bind_ok.
  apply bind_ok in H as ([jti raw] & s2 & [H2 ->]%lift_ok & H). apply bind_ok in H as (st & s3 & [H3%some_or_ok ->]%lift_ok & H).
  cbn [fst snd] in *. destruct (_ || _) eqn:Hcmp; [done|]. unbool. apply bind_ok in H as (spentrow & s4 & Hspent & H).
  destruct (Totp.Verify _ _ _ _ _ _ _) as [k|] eqn:Hk; [|done]. apply bind_ok in H as (master & s5 & [H5 ->]%lift_ok & H).
  apply bind_ok in H as ([id' codes'] & s6 & H6 & H). apply bind_ok in H as (u & s7 & H7 & H). injection H as -> -> <-.
  unfold InTx in H6. destruct (db_fails env OpBegin); [done|]. apply within_tx_ok in H6 as [H6 _].
  apply bind_ok in H6 as (n1 & t1 & [Hr1 _]%revoke_kind_ok & H6). apply bind_ok in H6 as (cid & t2 & [Hcid Hc2]%create_ok & H6).
  apply bind_ok in H6 as (sealed & t3 & [H8 ->]%lift_ok & H6). apply bind_ok in H6 as ([] & t4 & Hu4%(update_held who "totp") & H6).
  apply bind_ok in H6 as (n5 & t5 & [_ Hr5]%revoke_kind_ok & H6). apply bind_ok in H6 as (rc & t6 & [Hl6 Hr6]%recovery_ok & H6).
  injection H6 as -> -> ->. exists jti, raw, st, k, (sealed_row id who tenantID k sealed (Keys.Kid master)), master.
  split; [done|]. split; [done|]. split; [done|]. subst who.
  assert (Ht : ss_tab s7 = ss_tab s6) by (unfold on_auth in H7; destruct (Emit _ _); by injection H7 as _ <-).
  split; [|split; [done|split; [done|split; [done|split; [by destruct (Keys.ActiveLocal _); [injection H5 as ->|done]|]]]]].
  - rewrite Ht, Hr6, Hr5, Hu4 by done. unfold held at 1. rewrite Hc2, List.filter_app. unfold held in Hr1. rewrite Hr1. simpl.
    unfold holds, unrevoked. simpl. rewrite !bool_decide_eq_true_2 by done. simpl. by rewrite bool_decide_eq_true_2.
  - intros Hkid ring key Hlook Hsec. eapply sealed_row_opens; try done.
    destruct (Keys.SealSecret _ _ _ _) as [sl|]; [by injection H8 as ->|done].
Qed.

End Enrol.
End Carried.
(** ** A sample person with an authenticator and two device keys *)
Module Sample.
Import LocalToken AuthTheorems.Sample Apperr.
#[local] Existing Instance Toy.prims.
#[local] Existing Instance issuer_prims.
#[local] Existing Instance ToyKdf.prims.
#[local] Existing Instance ToyAead.prims.
#[local] Existing Instance ToyAead.laws.

Fixpoint nuls (n : nat) : string := match n with O => EmptyString | S n => String (chr 0) (nuls n) end.

(** A marshalled envelope is its purpose and its id. *)
#[local] Instance envelopes : EnvelopeJson := {|
  json_envelope e := Some (str_take 4 (e_Purpose e ++ "    ") ++ e_TokenID e)%string;
  json_parse_envelope s := Some {| e_Purpose := if String.prefix "totp" s then "totp_enroll" else "mfa"; e_Expires := unix (now + 600 * second);
                                   e_TokenID := str_drop 4 s; e_Data := "{}" |}
|}.
Definition state : MFAState := {|
  ms_TenantID := "T"; ms_TenantSlug := "acme"; ms_IdentityID := "I"; ms_RealmID := "R"; ms_ClientID := ""; ms_DeviceFP := "";
  ms_Methods := ["totp"]; ms_IP := ""; ms_UserAgent := ""
|}.
Definition shared : string := "12345678901234567890".
#[local] Instance signin_prims : SigninPrims := {|
  json_state _ := Some "{}"%string; json_parse_state _ := Some state;
  json_grant _ := None; json_parse_grant _ := None;
  json_enrol _ := Some "{}"%string;
  json_parse_enrol _ := Some {| es_IdentityID := "I"; es_TenantID := "T"; es_Secret := shared; es_Issuer := "Anubis"; es_Account := "alice" |};
  json_device id realm := (id ++ "," ++ realm)%string;
  json_parse_device s := match split_on "," s with [id; realm] => Some (id, realm) | _ => None end;
  hmac_sha1 _ msg := (str_drop 4 msg ++ nuls 16)%string;
  device_verify pub msg sig := bool_decide (sig = msg)
|}.

Definition lk : Keys.Key := {|
  Keys.Kid := "lk"; Keys.Purpose := Keys.PurposeLocal; Keys.Alg := "Ed25519"; Keys.Status := Keys.StatusActive;
  Keys.Public := ""; Keys.Private := None; Keys.Secret := "s"; Keys.NotBefore := 0; Keys.NotAfter := 0
|}.
Definition ring : Keys.Ring :=
  {| Keys.byKid := <["lk" := lk]> (Keys.byKid (p_ring ports)); Keys.activeAccess := Keys.activeAccess (p_ring ports); Keys.activeLocal := Some lk |}.

Definition sctx (caller : option Authctx.Principal) : Sctx := {|
  sx_flow := {| cx_ports := {| p_issuer := "iss"; p_ring := ring; p_now := now; p_tenant := p_tenant ports; p_realm := p_realm ports;
      p_app := p_app ports; p_holds := p_holds ports; p_roles_in_app := p_roles_in_app ports; p_roles := p_roles ports;
      p_jti := p_jti ports; p_refresh := p_refresh ports; p_family := p_family ports |};
    cx_ip := "192.0.2.1"; cx_user_agent := ""; cx_caller := caller; cx_tenant_by_slug := cx_tenant_by_slug cx;
    cx_backchannel := cx_backchannel cx; cx_logout_jti := cx_logout_jti cx |};
  sx_realm_by_code _ _ := Some {| r_ID := "R"; r_Code := "internal"; r_AllowedFactors := ["password"; "totp"; "device_key"]%string;
    r_RequiredFactors := []; r_FactorEnrolmentDeadline := 0; r_Lifetimes := r_Lifetimes SigninProps.Sample.realm |};
  sx_realm_by_id _ := Some SigninProps.Sample.realm;
  sx_login_identity _ _ _ := None; sx_identity _ _ := Some SigninProps.Sample.alice;
  sx_dummy := ToyKdf.hash; sx_salt := None; sx_jti := None; sx_nonce := "nonce-12byte"; sx_device_nonce := None;
  sx_totp_secret := None; sx_seal_nonce := "nonce-12byte"; sx_recovery _ := Some "0123456789"%string
|}.
Definition bound : Authctx.Principal := {|
  Authctx.IdentityID := "I"; Authctx.TenantID := "T"; Authctx.TenantSlug := "acme"; Authctx.SessionID := "s1";
  Authctx.Realm := ""; Authctx.Roles := []; Authctx.Scopes := ∅; Authctx.AMR := []; Authctx.AuthTime := now;
  Authctx.IAL := 1; Authctx.Epoch := 1; Authctx.Audience := [Authctx.FirstPartyAudience]; Authctx.Service := false;
  Authctx.Platform := false; Authctx.Token := ""
|}.

Definition token (purpose jti : string) : string :=
  match Seal "s" "lk" purpose jti (Some "{}"%string) (60 * second) now "nonce-12byte" with Ok t => t | Err _ => "" end.
Definition code : string := Totp.Generate hmac_sha1 shared now Totp.DefaultStep 6.

Definition cenv : CEnv := {| ce_fails _ := false; ce_now := now; ce_cred_id n := ("new" ++ Strconv.Itoa (Z.of_nat n))%string |}.

Definition key_row (id : string) (created : Time) : CredRow := {|
  cr_ID := id; cr_IdentityID := "I"; cr_TenantID := "T"; cr_Kind := "device_key";
  cr_Secret := Some (Base64.encode (str_take 32 (shared ++ shared))); cr_SecretKid := None; cr_LookupKey := None; cr_LastStep := None;
  cr_SignCounter := 0; cr_CreatedAt := created; cr_ExpiresAt := None; cr_RevokedAt := None
|}.
Definition totp_row : CredRow := {|
  cr_ID := "c2"; cr_IdentityID := "I"; cr_TenantID := "T"; cr_Kind := "totp";
  cr_Secret := Some (StdBase64.encode ("nonce-12byte" ++ shared ++ ToyAead.tag)); cr_SecretKid := Some "lk"%string; cr_LookupKey := None;
  cr_LastStep := None; cr_SignCounter := 0; cr_CreatedAt := 0; cr_ExpiresAt := None; cr_RevokedAt := None
|}.
Definition one_time (hash kind payload : string) : OneTimeRow :=
  {| ot_Hash := hash; ot_Kind := kind; ot_TenantID := "T"; ot_Payload := payload; ot_ExpiresAt := (now + 60 * second)%Z |}.
Definition store : SStore := {|
  ss_auth := AuthTheorems.Sample.store;
  ss_tab := {| tb_creds := [totp_row; key_row "k1" 1; key_row "k2" 2];
               tb_onetime := [one_time (Hash "j1") "mfa" "{}"; one_time (Hash "j2") "mfa" "totp_enroll";
                              one_time (Hash "n1") "device_challenge" "k2,internal"; one_time (Hash "n2") "device_challenge" "k1,internal"] |};
  ss_work := []
|}.

Definition mfa : VerifyMfaInput := {| vm_MFAToken := token "mfa" "j1"; vm_Method := "totp"; vm_Code := code |}.
Definition signed_in : result Error TokenPair * SStore := VerifyMfa env cenv (sctx None) mfa store.
Definition pair_of (r : result Error TokenPair) : TokenPair :=
  match r with Ok p => p | Err _ => {| tp_AccessToken := ""; tp_RefreshToken := ""; tp_TokenType := ""; tp_ExpiresIn := 0; tp_SessionID := "" |} end.
Definition ok {E X} (r : result E X) : bool := match r with Ok _ => true | Err _ => false end.

Example mfa_signs_in : ok (fst signed_in) = true.
Proof. vm_compute. reflexivity. Qed.

Lemma onetime_unique : NoDup (map ot_Hash (tb_onetime (ss_tab store))).
Proof. apply (bool_decide_unpack _). vm_compute. exact I. Qed.

Lemma ok_pair (r : result Error TokenPair * SStore) : ok (fst r) = true -> r = (Ok (pair_of (fst r)), snd r).
Proof. by destruct r as [[p|e] s]. Qed.

(** The same token with a later code does not sign in again. *)
Lemma second_factor_single_use_witness :
  ~ exists code' p s3, VerifyMfa env cenv (sctx None) {| vm_MFAToken := token "mfa" "j1"; vm_Method := "totp"; vm_Code := code' |}
    (snd signed_in) = (Ok p, s3).
Proof.
  intros (code' & p & s3 & H).
  destruct (second_factor_single_use env cenv (sctx None) mfa (pair_of (fst signed_in)) store (snd signed_in) onetime_unique
    (ok_pair signed_in mfa_signs_in)) as (h & id & k & Hu & Hall).
  destruct (Hall env cenv (sctx None) _ p (snd signed_in) s3 (rtc_refl _ _) H) as (h' & id' & k' & Hu' & Hne & _).
  apply Hne. assert (H1 : h = Hash "j1") by (vm_compute in Hu; injection Hu as <- _ _; vm_compute; reflexivity). rewrite H1.
  assert (Ho : open_sealed (sctx None) ErrMfaInvalid "mfa" (token "mfa" "j1") = Ok ("j1", "{}")%string) by (vm_compute; reflexivity).
  unfold mfa_use in Hu'. cbn [vm_MFAToken] in Hu'. rewrite Ho in Hu'.
  destruct (json_parse_state "{}") as [st|]; [|discriminate Hu']. cbn -[newest secret_of Totp.Verify holds live] in Hu'.
  destruct (newest _) as [r|]; [|discriminate Hu']. cbn -[secret_of Totp.Verify] in Hu'.
  destruct (secret_of _ _) as [sec|]; [|discriminate Hu']. cbn -[Totp.Verify] in Hu'.
  destruct (Totp.Verify _ _ _ _ _ _ _) as [step|]; [|discriminate Hu']. injection Hu' as <- _ _. reflexivity.
Defined.

Definition device (key nonce : string) : DeviceVerifyInput := {|
  dv_Tenant := "acme"; dv_Nonce := nonce; dv_KeyID := key; dv_Signature := Base64.encode nonce; dv_ClientID := ""; dv_DeviceFP := ""
|}.
Definition device_in : result Error TokenPair * SStore := DeviceVerify env cenv (sctx None) (device "k2" "n1") store.

Lemma DeviceVerify_safe_witness : device_proof cenv (sctx None) (device "k2" "n1") (ss_tab store) (ss_tab (snd device_in)).
Proof.
  apply (DeviceVerify_safe env cenv (sctx None) (device "k2" "n1") (pair_of (fst device_in))).
  apply (ok_pair device_in). vm_compute. reflexivity.
Defined.

Lemma older_device_key_refused_witness : exists e, fst (DeviceVerify env cenv (sctx None) (device "k1" "n2") store) = Err e.
Proof.
  apply (older_device_key_refused env cenv (sctx None) (device "k1" "n2") store (key_row "k1" 1) (key_row "k2" 2)).
  - apply (bool_decide_unpack _). vm_compute. exact I.
  - right. left.
  - reflexivity.
  - right. left.
  - reflexivity.
Defined.

Definition confirmed : result Error (string * list string) * SStore :=
  ConfirmTOTP env cenv (sctx (Some bound)) (token "totp_enroll" "j2") code "" store.

Lemma ConfirmTOTP_opens_witness :
  exists row, held "I" "totp" (ss_tab (snd confirmed)) = [row] /\ cr_ID row = "new0"%string /\ secret_of ring (credential_of row) = Some shared.
Proof.
  destruct confirmed as [[[id codes]|e] s'] eqn:E; [|apply (f_equal fst) in E; vm_compute in E; discriminate E].
  unfold confirmed in E. destruct (ConfirmTOTP_opens env cenv (sctx (Some bound)) (token "totp_enroll" "j2") code "" id codes store s' eq_refl E)
    as (jti & raw & st & k & row & master & _ & Hst & _ & Hrow & Hid & _ & _ & Hm & Hopen).
  injection Hst as <-. exists row. split; [exact Hrow|]. apply (f_equal fst) in E. vm_compute in E. injection E as <- _.
  split; [exact Hid|]. injection Hm as <-. apply (Hopen ltac:(discriminate) ring lk eq_refl eq_refl).
Defined.

End Sample.
End SecondFactorProps.
