(* ===== verification/DoorsProps.v ===== *)
(** internal/auth/app: what the doors beside the password let through.  A mailed
    link signs in the person it was mailed to, once; an application's token is
    for itself or for an audience it was given; and samples of these and of
    shares. *)

From Stdlib Require Import ZArith Lia Bool Ascii String.
From stdpp Require Import base gmap strings list sorting.
From S2P Require Import Prelude.
From S2P Require Import Triples.
From S2P Require Import GoStrings.
From S2P Require Import GoConv.
From S2P Require Import Secrets.
From S2P Require Import Tokens.
From S2P Require Import TokenProps.
From S2P Require Import Keyring.
From S2P Require Import LocalTokens.
From S2P Require Import Sdk.
From S2P Require Import Shared.
From S2P Require Import AuthStore.
From S2P Require Import TokenIssuer.
From S2P Require Import IssuerProps.
From S2P Require Import AuthTheorems.
From S2P Require Import Credentials.
From S2P Require Import Shares.
From S2P Require Import ControlStore.
From S2P Require Import Authorize.
From S2P Require Import Signin.
From S2P Require Import SecondFactor.
From S2P Require Import Authn.
From S2P Require Import Doors.
From S2P Require Import ConsoleProps.
From S2P Require Import OperatorProps.
From S2P Require Import SharesProps.
From S2P Require Import SecondFactorProps.

(** ** Links by mail *)
Module EmailProps.
Import Apperr Issuer Signin.Signin SecondFactorProps Triples CredStore IdentityDomain EmailLink.

Section Email.
Context `{P : TokenPrims} `{IP : IssuerPrims} `{K : KdfPrims} `{A : AeadPrims} `{J : LocalToken.EnvelopeJson} `{SP : SigninPrims} `{EP : EmailPrims}.

(** The rest of the service between two openings: the sign-in handlers' moves, and
    links asked for and opened. *)
Inductive around (h : string) : Tables -> Tables -> Prop :=
| ar_signin s s' : history h "" s s' -> around h (ss_tab s) (ss_tab s')
| ar_request cenv el inp s : (forall raw, secret_New (el_rand el) = Some raw -> Hash raw <> h) ->
    around h (es_tab s) (es_tab (snd (Request cenv el inp s)))
| ar_complete cenv el token s : around h (es_tab s) (es_tab (snd (Complete cenv el token s))).

(** Some bound holds of every step counter. *)
Lemma some_step id t : exists k, stepped id k t.
Proof.
  unfold stepped. induction (tb_creds t) as [|r l [k IH]]; [exists 0%Z; by intros ? ?%not_elem_of_nil|].
  exists (Z.min k (default 0%Z (cr_LastStep r))). intros r' [->|Hr]%elem_of_cons Hid; [lia|]. specialize (IH r' Hr Hid). lia.
Qed.

Lemma spent_signin h s s' : history h "" s s' -> spent h (ss_tab s) -> spent h (ss_tab s').
Proof. intros Hh Hs. destruct (some_step "" (ss_tab s)) as [k Hk]. by destruct (history_keeps h "" k s s' Hh (conj Hs Hk)). Qed.

Definition mailed (h : string) (s : ELStore) : Prop := spent h (es_tab s).

Lemma on_tab_keeps {X} h (m : Eff Tables Error X) : ttriple (spent h) m -> triple (mailed h) (on_tab m) (fun _ => True).
Proof. intros H s Hs. specialize (H _ Hs). unfold on_tab. destruct (m (es_tab s)). by split. Qed.

Lemma create_spent h cenv a b hash d e : hash <> h -> ttriple (spent h) (CreateOneTime cenv a b hash d e).
Proof.
  intros Hh t Ht. unfold CreateOneTime, guarded. destruct (ce_fails cenv _); [done|]. destruct (existsb _ _); [done|].
  intros r [Hr| ->%list_elem_of_singleton]%elem_of_app; [by apply Ht|done].
Qed.

Lemma consume_spent h cenv kind hash : ttriple (spent h) (ConsumeOneTime cenv kind hash).
Proof.
  intros t Ht. unfold ConsumeOneTime, guarded. destruct (ce_fails cenv _); [done|]. destruct (find _ _); [|done].
  intros r [Hr _]%list_elem_of_In%filter_In. apply Ht. by apply list_elem_of_In.
Qed.

Lemma mail_note_keeps h el a b c d e : triple (mailed h) (emit el a b c d e) (fun _ => True).
Proof. intros s Hs. by split. Qed.

Ltac email_leaf :=
  idtac; match goal with
  | |- triple _ (on_tab (CreateOneTime _ _ _ _ _ _)) _ => apply on_tab_keeps, create_spent
  | |- triple _ (on_tab (ConsumeOneTime _ _ _)) _ => apply on_tab_keeps, consume_spent
  | |- triple _ (emit _ _ _ _ _ _) _ => apply mail_note_keeps
  end.

Lemma request_keeps h cenv el inp :
  (forall raw, secret_New (el_rand el) = Some raw -> Hash raw <> h) -> triple (mailed h) (Request cenv el inp) (fun _ => True).
Proof.
  intros Hfresh. unfold Request.
  assert (Hn : triple (mailed h) (lift (need "random" (secret_New (el_rand el)))) (fun raw => secret_New (el_rand el) = Some raw)).
  { apply triple_lift. intros raw. unfold need. destruct (secret_New (el_rand el)); [|done]. by intros [= ->]. }
  destruct (negb _); [apply triple_raise|]. destruct (addressee el inp) as [[[t r] i]|]; [|by apply triple_ret].
  destruct (CanAuthenticate i); [|walk_with email_leaf]. destruct (bool_decide _); [walk_with email_leaf|].
  eapply triple_bind; [exact Hn|]. intros raw Hraw. walk_with email_leaf. by apply Hfresh.
Qed.

Lemma complete_keeps h cenv el token : triple (mailed h) (Complete cenv el token) (fun _ => True).
Proof. unfold Complete. walk_with email_leaf. Qed.

Lemma around_keeps h t t' : rtc (around h) t t' -> spent h t -> spent h t'.
Proof.
  induction 1 as [|t t1 t2 Hm _ IH]; [done|]. intros Ht. apply IH. destruct Hm as [s s' Hh|cenv el inp s Hf|cenv el token s].
  - by apply (spent_signin h s).
  - by apply (triple_after _ _ _ s (request_keeps h cenv el inp Hf)).
  - by apply (triple_after _ _ _ s (complete_keeps h cenv el token)).
Qed.

(** A link whose row is gone. *)
Lemma complete_unknown cenv el token s : spent (Hash token) (es_tab s) -> Complete cenv el token s = (Err ErrTokenInvalid, s).
Proof.
  intros Hs. unfold Complete. destruct (_ || _); [done|]. unfold mbind at 1, eff_bind, map_err, on_tab, ConsumeOneTime, guarded.
  destruct s as [t l]. simpl in *. destruct (ce_fails cenv OpConsumeOneTime); [done|].
  destruct (find _ _) as [r|] eqn:Hf; [|done]. apply find_some in Hf as [Hin Hb]. unfold consumable in Hb. unbool.
  destruct (Hs r); [by apply list_elem_of_In|done].
Qed.

(** What opening a link spends, and whom it is. *)
Lemma complete_ok cenv el token d s s' :
  NoDup (map ot_Hash (tb_onetime (es_tab s))) -> Complete cenv el token s = (Ok d, s') ->
  spent (Hash token) (es_tab s') /\ CanAuthenticate (cd_Identity d) = Ok tt /\ AllowsFactor (cd_Realm d) Factor = true /\
  exists r p, r ∈ tb_onetime (es_tab s) /\ ot_Hash r = Hash token /\ ot_Kind r = "email_login"%string /\ (ce_now cenv < ot_ExpiresAt r)%Z /\
    json_parse_payload (ot_Payload r) = Some p /\ py_TenantID p = ot_TenantID r /\
    el_identity el (ot_TenantID r) (py_IdentityID p) = Some (cd_Identity d) /\ el_tenant_by_id el (ot_TenantID r) = Some (cd_Tenant d) /\
    cd_Flow d = py_Flow p.
Proof.
  intros HN. unfold Complete. destruct (_ || _); [done|]. intros ([tenantID raw] & s1 & Hc%map_err_ok & H)%bind_ok.
  unfold on_tab, ConsumeOneTime, guarded in Hc. destruct (ce_fails cenv _); [done|]. destruct (find _ _) as [r|] eqn:Hf; [|done].
  injection Hc as <- <- <-. apply find_some in Hf as [Hin Hb]. unfold consumable, time_after in Hb. unbool. apply list_elem_of_In in Hin.
  apply bind_ok in H as (p & s1 & Hp & H). injection Hp as Hp <-. destruct (json_parse_payload _) as [p'|] eqn:Hj; [|done]. injection Hp as ->.
  destruct (_ || negb _) eqn:Hpl; [done|]. unbool. destruct (el_identity _ _ _) as [i|] eqn:Hi; [|done].
  destruct (CanAuthenticate i) as [[]|] eqn:Hca; [|by apply bind_ok in H as (? & ? & _ & ?)].
  destruct (el_realm_by_id _ _) as [realm|] eqn:Hr; [|by apply bind_ok in H as (? & ? & _ & ?)].
  destruct (AllowsFactor realm Factor) eqn:Hfac; [|by apply bind_ok in H as (? & ? & _ & ?)]. cbn [negb] in H.
  destruct (el_tenant_by_id _ _) as [tenant|] eqn:Ht; [|done]. injection H as <- <-. split; [|split; [done|split; [done|]]].
  - intros r' [Hr' Hne]%list_elem_of_In%filter_In Hh. apply list_elem_of_In in Hr'.
    assert (r' = r) as -> by (apply (NoDup_map_inj ot_Hash (tb_onetime (es_tab s))); congruence).
    unfold consumable, time_after in Hne. rewrite !bool_decide_eq_true_2 in Hne by done. simpl in Hne.
    apply negb_true_iff, Z.ltb_ge in Hne. lia.
  - exists r, p. done.
Qed.

(** C24: a mailed link signs in once.  Opening a link spends it: it is of a person
    who can sign in, in a realm that allows the factor, and whatever is signed
    in, enrolled, mailed and opened afterwards, the same link is refused and
    changes nothing. *)
Theorem email_link_once cenv el token d s s1 t2 :
  NoDup (map ot_Hash (tb_onetime (es_tab s))) -> Complete cenv el token s = (Ok d, s1) -> rtc (around (Hash token)) (es_tab s1) t2 ->
  CanAuthenticate (cd_Identity d) = Ok tt /\ AllowsFactor (cd_Realm d) Factor = true /\
  forall cenv' el' s2, es_tab s2 = t2 -> Complete cenv' el' token s2 = (Err ErrTokenInvalid, s2).
Proof.
  intros HN Hc Hh. destruct (complete_ok _ _ _ _ _ _ HN Hc) as (Hs & Hca & Hf & _). split; [done|]. split; [done|].
  intros cenv' el' s2 <-. by apply complete_unknown, (around_keeps _ (es_tab s1)).
Qed.

Lemma find_snoc {X} (f : X -> bool) l x : f x = true -> (forall y, y ∈ l -> f y = false) -> find f (l ++ [x]) = Some x.
Proof.
  intros Hx. induction l as [|y l IH]; intros H; simpl; [by rewrite Hx|]. rewrite H by by left. apply IH. intros z Hz. apply H. by right.
Qed.

Lemma bind_run {S E X Y} (m : Eff S E X) (f : X -> Eff S E Y) s a s' : m s = (Ok a, s') -> (m ≫= f) s = f a s'.
Proof. unfold mbind, eff_bind. by intros ->. Qed.

(** What asking for a link leaves. *)
Lemma request_ok cenv el inp s m s' :
  Request cenv el inp s = (Ok (Some m), s') ->
  exists tenant realm i token, addressee el inp = Some (tenant, realm, i) /\ CanAuthenticate i = Ok tt /\ i_Email i <> ""%string /\
    secret_New (el_rand el) = Some token /\ m = mail_to el i token /\
    (forall r, r ∈ tb_onetime (es_tab s) -> ot_Hash r <> Hash token) /\
    tb_onetime (es_tab s') = tb_onetime (es_tab s) ++ [{|
      ot_Hash := Hash token; ot_Kind := "email_login"; ot_TenantID := tn_ID tenant;
      ot_Payload := json_payload {| py_IdentityID := i_ID i; py_TenantID := tn_ID tenant; py_RealmID := r_ID realm; py_Flow := rq_Flow inp |};
      ot_ExpiresAt := (el_now el + LinkTTL)%Z |}].
Proof.
  unfold Request. destruct (negb _); [done|]. destruct (addressee el inp) as [[[tenant realm] i]|]; [|done].
  destruct (CanAuthenticate i) as [[]|] eqn:Hca; [|by intros (? & ? & _ & ?)%bind_ok].
  destruct (bool_decide (i_Email i = _)) eqn:He; [by intros (? & ? & _ & ?)%bind_ok|].
  intros (token & s1 & Ht & H)%bind_ok. injection Ht as Ht <-. unfold need in Ht. destruct (secret_New (el_rand el)) as [tk|]; [|done]. injection Ht as ->.
  apply bind_ok in H as ([] & s1 & Hc%map_err_ok & H). apply bind_ok in H as ([] & s2 & Hem & H). injection Hem as <-. injection H as <- <-.
  unfold on_tab, CreateOneTime, guarded in Hc. destruct (ce_fails cenv _); [done|]. destruct (existsb _ _) eqn:Hx; [done|]. injection Hc as <-.
  exists tenant, realm, i, token. unbool. split; [done|]. split; [done|]. split; [done|]. split; [done|]. split; [done|]. split; [|done].
  intros r Hr Hh. apply not_true_iff_false in Hx. destruct Hx. apply existsb_spec. exists r. by rewrite bool_decide_eq_true_2.
Qed.

(** What opening the link needs of the ports: the rows the request saw. *)
Record same_rows (el : ELCtx) (tenant : TenantRef) (realm : IdentityDomain.Realm) (i : Identity) : Prop := {
  sr_person : el_identity el (tn_ID tenant) (i_ID i) = Some i; sr_realm : el_realm_by_id el (r_ID realm) = Some realm;
  sr_tenant : el_tenant_by_id el (tn_ID tenant) = Some tenant
}.

(** The mailed link signs its addressee in.  When a link is mailed it goes
    to the address of a person who can sign in, and within fifteen minutes,
    while their rows are as they were, opening it gives that person, their realm
    and tenant, and the flow they began with. *)
Theorem email_link_signs_in cenv el inp s m s1 entropy :
  el_rand el = Some entropy -> String.length entropy = 32%nat -> Request cenv el inp s = (Ok (Some m), s1) ->
  exists tenant realm i token, addressee el inp = Some (tenant, realm, i) /\ CanAuthenticate i = Ok tt /\ AllowsFactor realm Factor = true /\
    secret_New (el_rand el) = Some token /\ m = mail_to el i token /\ ml_To m = i_Email i /\
    forall cenv' el' s2, es_tab s2 = es_tab s1 -> ce_fails cenv' OpConsumeOneTime = false -> (ce_now cenv' < el_now el + LinkTTL)%Z ->
      i_ID i <> ""%string -> same_rows el' tenant realm i ->
      (forall p, p = {| py_IdentityID := i_ID i; py_TenantID := tn_ID tenant; py_RealmID := r_ID realm; py_Flow := rq_Flow inp |} ->
         json_parse_payload (json_payload p) = Some p) ->
      fst (Complete cenv' el' token s2) = Ok {| cd_Tenant := tenant; cd_Realm := realm; cd_Identity := i; cd_Flow := rq_Flow inp |}.
Proof.
  intros He H32 (tenant & realm & i & token & Ha & Hca & _ & Ht & -> & Hnew & Htab)%request_ok.
  assert (Hfac : AllowsFactor realm Factor = true).
  { unfold addressee in Ha. destruct (_ || _); [done|]. destruct (el_tenant_by_slug _ _) as [t|]; [|done]. cbn [mbind option_bind] in Ha.
    destruct (el_realm_by_code _ _ _) as [r|]; [|done]. cbn [mbind option_bind] in Ha. destruct (AllowsFactor r Factor) eqn:E; [|done].
    cbn [negb] in Ha. destruct (el_login_identity _ _ _ _); [|done]. by injection Ha as _ <- _. }
  exists tenant, realm, i, token. repeat (split; [done|]). intros cenv' el' s2 Hs2 Hok Hnow Hid [Hi Hr Htn] Hj.
  assert (Hlen : String.length token = 43%nat).
  { rewrite He in Ht. injection Ht as <-. by rewrite SecretsProps.encode_length_exact, H32. }
  pose (p := {| py_IdentityID := i_ID i; py_TenantID := tn_ID tenant; py_RealmID := r_ID realm; py_Flow := rq_Flow inp |}).
  unfold Complete. rewrite bool_decide_eq_false_2 by (intros ->; done). rewrite Hlen. cbn [orb Nat.ltb Nat.leb].
  erewrite (bind_run _ _ s2 (tn_ID tenant, json_payload p)).
  2:{ unfold map_err, on_tab, ConsumeOneTime, guarded. destruct s2 as [t2 l2]. simpl in Hs2. subst t2. cbn [es_tab]. rewrite Hok, Htab, find_snoc; [done| |].
      - unfold consumable, time_after. cbn. rewrite !bool_decide_eq_true_2 by done. by apply Z.ltb_lt.
      - intros r Hr'. unfold consumable. by rewrite bool_decide_eq_false_2 by by apply Hnew. }
  cbv beta iota. erewrite (bind_run _ _ _ p) by (unfold lift; by rewrite Hj by done). cbn [p py_IdentityID py_TenantID py_RealmID py_Flow].
  rewrite bool_decide_eq_false_2, bool_decide_eq_true_2 by done. cbn [orb negb]. by rewrite Hi, Hca, Hr, Hfac, Htn.
Qed.

End Email.
End EmailProps.

(** ** Applications *)
Module ClientProps.
Import Triples Apperr Authctx Issuer Authn AccessLink ClientCreds.

Section Client.
Context `{P : TokenPrims} `{L : !TokenLaws P} `{IP : IssuerPrims} `{IL : !IssuerProps.IssuerLaws IP}.

(** C25: an application is let in as itself, for ten minutes, and towards nobody
    it was not allowed.  Client credentials give a token only to an active
    application of a serving tenant whose stored hash is of the secret presented;
    its audience is the application itself or one on its list; and who presents
    it is that application, in its tenant, never an operator. *)
Theorem client_token_confined oc inp s out s' key :
  (forall x, sha256 x <> ""%string) -> (0 < unix (oc_now oc))%Z -> Execute oc inp s = (Ok out, s') ->
  DoorToken.active_key (oc_ring oc) (oc_wall oc) = Ok key -> IssuerProps.good_key key ->
  exists tenant app audience c body,
    oc_tenant_by_slug oc (cc_Tenant inp) = Some tenant /\ Serving tenant = true /\ oc_app oc (tn_ID tenant) (cc_ClientID inp) = Some app /\
    app_Status app = "active"%string /\ hexDecode (app_ClientSecretHash app) = Some (Hash (cc_ClientSecret inp)) /\
    (audience = app_Slug app \/ audience ∈ app_AllowedAudiences app) /\ (cc_Audience inp <> ""%string -> audience = cc_Audience inp) /\
    json_of_claims c = Some body /\ Claims.Audience c = [audience] /\ (Claims.Expires c <= unix (oc_now oc + clientAccessTTL))%Z /\
    (0 <= co_ExpiresIn out <= 600)%Z /\
    forall json_claims ix cenv kenv procedure wanted ns p ns',
      json_claims body = Some c -> Keys.Lookup (ix_ring ix) (Keys.Kid key) = Ok key -> tn_Slug tenant <> ""%string ->
      authenticate json_claims cenv kenv ix procedure ("Bearer " ++ co_AccessToken out)%string wanted ns = (Ok (Some p), ns') ->
      IdentityID p = ("app_" ++ app_Slug app)%string /\ Audience p = [audience] /\ Platform p = false /\ SessionID p = ""%string /\ Scopes p = ∅ /\
      (unix (ix_clock ix 0) <= unix (oc_now oc + clientAccessTTL))%Z /\
      exists t, ix_tenant_by_slug ix (tn_Slug tenant) = Some t /\ Serving t = true /\ TenantID p = tn_ID t.
Proof using L IL.
  intros Hsha Hnow H Hkey Hgood. unfold ClientCreds.Execute in H. destruct (oc_tenant_by_slug oc _) as [tenant|] eqn:Htn; [|done].
  destruct (Serving tenant) eqn:Hst; [|done]. cbn [negb] in H. destruct (oc_app oc _ _) as [app|] eqn:Happ; [|done].
  destruct (_ || _) eqn:Hact; [done|]. destruct (bool_decide (Hash _ = _)) eqn:Hsec; [|by apply bind_ok in H as (? & ? & _ & ?)].
  cbn [negb] in H. cbv zeta in H. set (audience := if bool_decide (cc_Audience inp = _) then _ else _) in *.
  destruct (_ && _) eqn:Haud; [by apply bind_ok in H as (? & ? & _ & ?)|].
  apply bind_ok in H as (key' & s1 & Hk & H). injection Hk as Hk <-. rewrite Hkey in Hk. injection Hk as <-.
  apply bind_ok in H as (jti & s1 & Hj & H). injection Hj as Hj <-. apply bind_ok in H as (token & s1 & Hs & H). injection Hs as Hs <-.
  apply bind_ok in H as (u & s1 & Hn & H). injection H as <- _. apply SharesProps.sign_claims_ok in Hs as (body & Hb & Hs). unbool.
  pose proof (IssuerProps.stricter_le (app_AccessTokenTTLSecs app) clientAccessTTL) as Hle.
  pose proof (IssuerProps.stricter_pos (app_AccessTokenTTLSecs app) clientAccessTTL ltac:(done)) as Hpos.
  set (ttl := stricter _ _) in *. assert (clientAccessTTL = 600000000000)%Z as Hten by done.
  pose proof (unix_mono (oc_now oc) (oc_now oc + ttl) ltac:(lia)) as Hu1.
  pose proof (unix_mono (oc_now oc + ttl) (oc_now oc + clientAccessTTL) ltac:(lia)) as Hu2.
  exists tenant, app, audience. do 2 eexists. do 4 (split; [done|]). split.
  { unfold decodeHex in Hsec. destruct (hexDecode _) as [h|]; simpl in Hsec; [by rewrite Hsec|by destruct (Hsha (cc_ClientSecret inp))]. }
  split. { apply andb_false_iff in Haud as [E|E]; unbool; [by left|right]. unfold contains in E. apply existsb_spec in E as (x & Hx & E). unbool. by subst. }
  split; [intros Hne; unfold audience; by rewrite bool_decide_eq_false_2|]. split; [exact Hb|]. split; [done|]. split; [done|]. split.
  { simpl. rewrite Z.quot_div_nonneg by (unfold second; lia). pose proof (Z.div_le_mono ttl 600000000000 second ltac:(done) ltac:(lia)) as Hd.
    change (600000000000 / second)%Z with 600%Z in Hd. pose proof (Z.div_pos ttl second ltac:(lia) ltac:(done)). lia. }
  intros json_claims ix cenv kenv procedure wanted ns p ns' Hjc Hlk Hslug Hau.
  eapply (SharesProps.signed_person key body token) in Hau as (t & Hts & Hserv & -> & _ & Hexp); [|done..].
  repeat (split; [done|]). split; [simpl in Hexp; lia|]. by exists t.
Qed.

End Client.
End ClientProps.

(** ** A sample: a record shared, and its link *)
Module Sample.
Import Apperr Authctx Issuer TokenProps.CodecProps IssuerSample IdentityDomain Authn ShareDomain ShareStore ShareApp AccessLink.
#[local] Existing Instance IssuerSample.prims.
#[local] Existing Instance dashed.
#[local] Existing Instance ToyKdf.prims.
#[local] Existing Instance ToyAead.prims.
#[local] Existing Instance SecondFactorProps.Sample.envelopes.
#[local] Existing Instance SecondFactorProps.Sample.signin_prims.

Definition uuid (last : string) : string := ("0190a0b0-0000-7000-8000-00000000000" ++ last)%string.

Definition person_of (last : string) : Principal := {|
  IdentityID := uuid last; TenantID := uuid "d"; TenantSlug := "acme"; SessionID := "s1"; Authctx.Realm := ""; Roles := []; Scopes := ∅;
  AMR := ["pwd"%string]; AuthTime := 0; IAL := 0; Epoch := 0; Audience := []; Service := false; Platform := false; Token := "" |}.
Definition account (id : string) : Identity := {|
  i_ID := id; i_TenantID := uuid "d"; i_RealmID := "R"; i_RealmCode := "internal"; i_Username := "rudi"; i_Status := "active"; i_Disabled := false;
  i_Anonymized := false; i_Email := "rudi@example.test"; i_AssuranceLevel := 1; i_TokenEpoch := 0 |}.

(** dewi (1) holds what she shares with rudi (2). *)
Definition senv (id : string) : ShEnv := {|
  se_fails _ := false; se_now := now; se_id := uuid id; se_identity _ _ := true; se_reads_back m := m |}.
Definition sctx (last : string) : ShCtx := {|
  sc_caller := Some (person_of last); sc_now := now; sc_ip := ""; sc_rand := Some "0123456789abcdef0123456789abcdef"%string;
  sc_identity _ id := Some (account id); sc_permission _ _ := Some true; sc_authorize _ _ key _ := Some (bool_decide (key = "ats:read"%string));
  sc_format _ := ""%string |}.
Definition wish (perms : list string) : ShareInput := {|
  hi_RecordKind := "req"; hi_RecordRef := "JR/1"; hi_RecordScopes := [("_owner", "me"); ("_record", "else")]%string; hi_ToIdentityID := uuid "2";
  hi_Permissions := perms; hi_ValidUntil := (now + 5 * minute)%Z; hi_Note := "" |}.
Definition none : ShStore := {| ss_shares := []; ss_log := [] |}.

Definition shared : ShStore := snd (Share (senv "3") (sctx "1") (wish ["ats:read "; "ats:read"]%string) none).
Definition linked : result Error string * ShStore := CreateAccessLink (senv "4") (sctx "1") (uuid "3") shared.
Definition link : string := match fst linked with Ok t => t | Err _ => ""%string end.

Example one_row :
  map (fun r => (sh_Record r, sh_Permissions r, sh_FromIdentityID r, sh_ToIdentityID r)) (ss_shares shared) =
    [("req/JR/1", ["ats:read"], uuid "1", uuid "2")]%string /\
  fst (Share (senv "3") (sctx "1") (wish ["ats:write"%string]) none) =
    Err (With (With ErrPermissionDenied "permission" "ats:write") "hint" "you can only share what you can do").
Proof. vm_compute. done. Qed.

(** A share of nothing: blank permissions are dropped after they were counted, and
    nobody is asked whether the sharer may do anything. *)
Example share_of_nothing :
  map sh_Permissions (ss_shares (snd (Share (senv "3") (sctx "1") (wish [" "%string]) none))) = [[]] /\
  holdsAll (sctx "9") (person_of "9") ∅ (default (new_share (senv "3") "" "" "" {| ci_TenantID := ""; ci_FromIdentityID := ""; ci_ToIdentityID := "";
    ci_Record := ""; ci_RecordScopes := ∅; ci_Permissions := []; ci_Note := ""; ci_ValidUntil := 0 |})
    (head (ss_shares (snd (Share (senv "3") (sctx "1") (wish [" "%string]) none))))) = Ok true.
Proof. vm_compute. done. Qed.

Definition octx : OCtx := {|
  oc_issuer := "iss"; oc_ring := p_ring ports; oc_wall := now; oc_now := now; oc_jti := Some "0123456789abcdef"%string; oc_ip := "";
  oc_tenant_by_slug _ := Some {| tn_ID := uuid "d"; tn_Slug := "acme"; tn_Status := "active" |}; oc_app _ _ := Some billing;
  oc_identity _ id := Some (account id) |}.
Definition opening : OpenInput := {| oi_Tenant := "acme"; oi_ClientID := "billing"; oi_Token := link |}.
Definition opened : result Error TokenPair * ShStore := OpenAccessLink (senv "5") octx opening (snd linked).
Definition pair_of (r : result Error TokenPair) : TokenPair :=
  match r with Ok t => t | Err _ => {| tp_AccessToken := ""; tp_RefreshToken := ""; tp_TokenType := ""; tp_ExpiresIn := 0; tp_SessionID := "" |} end.

Definition interceptor : Interceptor := {|
  ix_issuer := "iss"; ix_ring := p_ring ports; ix_tenant_by_slug := oc_tenant_by_slug octx; ix_clock _ := now; ix_operators := false |}.
Definition cenv : ControlStore.CtlEnv := ConsoleProps.Sample.db "7".
Definition nobody : ApiKeys.NStore := OperatorProps.Sample.all_stores OperatorProps.Sample.team.

Lemma clocks : SharesProps.sane_clocks (senv "5") octx.
Proof. split; [|split]; vm_compute; done. Qed.
Lemma the_key : IssuerProps.good_key key.
Proof. split; [reflexivity|reflexivity|simpl; lia]. Qed.

(** The claims the link's token says, as a decoder reads them back. *)
Definition said : Claims.Claims :=
  match head (ss_shares (snd linked)) with
  | Some sh => link_claims octx sh {| tn_ID := uuid "d"; tn_Slug := "acme"; tn_Status := "active" |} (account (uuid "2")) billing "MDEyMzQ1Njc4OWFiY2RlZg" (120 * second)
  | None => link_claims octx (new_share (senv "") "" "" "" {| ci_TenantID := ""; ci_FromIdentityID := ""; ci_ToIdentityID := ""; ci_Record := "";
      ci_RecordScopes := ∅; ci_Permissions := []; ci_Note := ""; ci_ValidUntil := 0 |}) {| tn_ID := ""; tn_Slug := ""; tn_Status := "" |} (account "") billing "" 0
  end.
Definition presented (procedure : string) (s : ApiKeys.NStore) : result Error (option Principal) :=
  fst (authenticate (fun _ => Some said) cenv OperatorProps.Sample.kenv interceptor procedure ("Bearer " ++ tp_AccessToken (pair_of (fst opened))) "" s).
Definition fine {X} (r : result Error X) : bool := match r with Ok _ => true | Err _ => false end.
Definition holder : Principal := person_principal said {| tn_ID := uuid "d"; tn_Slug := "acme"; tn_Status := "active" |} (tp_AccessToken (pair_of (fst opened))).

Lemma access_link_opens_one_record_witness :
  presented AuthorizeProcedure nobody = Ok (Some holder) /\ presented "/anubis.v1.SessionService/Logout" nobody = Ok None /\
  tp_ExpiresIn (pair_of (fst opened)) = 120%Z /\
  exists sh app, sh_Record sh = "req/JR/1"%string /\ (SharesProps.link_exp octx sh app <= sh_ValidUntil sh)%Z.
Proof.
  split; [vm_compute; reflexivity|]. split; [vm_compute; reflexivity|]. split; [vm_compute; reflexivity|].
  destruct (@SharesProps.access_link_opens_one_record dashed IssuerSample.prims prims_laws dashed_laws (senv "5") octx opening (snd linked)
    (pair_of (fst opened)) (snd opened) key) as (sh & tenant & i & app & c & body & Ho & H & _).
  - vm_compute. reflexivity.
  - exact clocks.
  - vm_compute. reflexivity.
  - exact the_key.
  - exists sh, app. split; [|exact H]. pose proof (SharesProps.of_row _ _ _ _ _ _ _ _ _ _ _ _ Ho) as Hin. vm_compute in Hin.
    apply elem_of_cons in Hin as [->|Hin]; [reflexivity|by apply not_elem_of_nil in Hin].
Defined.

Definition unshared : ShStore := snd (Unshare (senv "6") (sctx "1") (uuid "3") "done" (snd opened)).
Definition later : ShStore := snd (Share (senv "7") (sctx "1") (wish ["ats:read"%string]) unshared).

Lemma unshared_is_over_witness :
  fine (fst (Unshare (senv "6") (sctx "1") (uuid "3") "done" (snd opened))) = true /\ length (ss_shares later) = 2%nat /\
  (forall t s, OpenAccessLink (senv "8") octx opening later <> (Ok t, s)) /\
  (forall l s, SharedWithMe (senv "8") (sctx "2") later = (Ok l, s) -> uuid "3" ∉ map sh_ID l).
Proof.
  destruct (SharesProps.unshared_is_over (senv "6") (sctx "1") (uuid "3") (uuid "3") "done" (snd opened) unshared later) as (H1 & _ & H3 & _).
  - apply (bool_decide_unpack _). vm_compute. exact I.
  - reflexivity.
  - vm_compute. reflexivity.
  - apply rtc_once. apply (SharesProps.mv_share _ unshared (senv "7") (sctx "1")). unfold SharesProps.other_id. vm_compute. discriminate.
  - split; [vm_compute; reflexivity|]. split; [vm_compute; reflexivity|]. split; [|exact (H3 (senv "8") (sctx "2"))].
    intros t s H. destruct (H1 _ _ _ _ _ H) as (sh & tn & i & app & key & c & body & Ho & Hne).
    pose proof (SharesProps.of_row _ _ _ _ _ _ _ _ _ _ _ _ Ho) as Hin. pose proof (SharesProps.of_link _ _ _ _ _ _ _ _ _ _ _ _ Ho) as Hlk.
    vm_compute in Hin, Hlk, Hne.
    apply elem_of_cons in Hin as [->|Hin]; [by destruct Hne|]. apply elem_of_cons in Hin as [->|Hin]; [discriminate Hlk|by apply not_elem_of_nil in Hin].
Defined.

(** The token of a link that was opened still is its person's on the decision
    procedure after the share has ended: nothing of the interceptor asks. *)
Example link_token_outlives_share :
  map (fun r => Live r now) (ss_shares unshared) = [false] /\ presented AuthorizeProcedure nobody = Ok (Some holder) /\
  exists d, fst (Authorize.Execute AuthorizeProps.sample_port AuthorizeProps.at_time "" (fun _ => ""%string) (Some holder)
    {| Authorize.in_Subject := uuid "2"; Authorize.in_Permission := "ats:approve"; Authorize.in_Scopes := {[ "_record" := "req/JR/1" ]}%string;
       Authorize.in_AMR := ["otp"%string]; Authorize.in_AuthTime := 1000 |} {| Authorize.as_counter := 0; Authorize.as_audit := [] |}) = Ok d /\
    Authorize.d_Allow d = true.
Proof. split; [vm_compute; reflexivity|]. split; [vm_compute; reflexivity|]. eexists. split; vm_compute; reflexivity. Qed.

(** *** A link by mail *)
#[local] Instance payloads : EmailLink.EmailPrims := {|
  EmailLink.json_payload p := (EmailLink.py_IdentityID p ++ "," ++ EmailLink.py_TenantID p)%string;
  EmailLink.json_parse_payload s := match cut "," s with None => None | Some (a, b) =>
    Some {| EmailLink.py_IdentityID := a; EmailLink.py_TenantID := b; EmailLink.py_RealmID := "R"; EmailLink.py_Flow := ∅ |} end |}.

Definition by_mail : IdentityDomain.Realm := {|
  r_ID := "R"; r_Code := "internal"; r_AllowedFactors := ["email_link"%string]; r_RequiredFactors := []; r_FactorEnrolmentDeadline := 0;
  r_Lifetimes := {| rm_AccessTokenTTL := 900 * second; rm_RefreshTokenTTL := 3600 * second; rm_SessionTTL := 3600 * second |} |}.
Definition acme : TenantRef := {| tn_ID := "T"; tn_Slug := "acme"; tn_Status := "active" |}.
Definition ectx (at_ : Time) : EmailLink.ELCtx := {|
  EmailLink.el_mail := true; EmailLink.el_ip := ""; EmailLink.el_now := at_; EmailLink.el_rand := Some "0123456789abcdef0123456789abcdef"%string;
  EmailLink.el_link t := ("https://id.example.test/v1/login/email?token=" ++ t)%string; EmailLink.el_tenant_by_slug _ := Some acme;
  EmailLink.el_tenant_by_id _ := Some acme; EmailLink.el_realm_by_code _ _ := Some by_mail; EmailLink.el_realm_by_id _ := Some by_mail;
  EmailLink.el_login_identity _ _ name := if bool_decide (name = "rudi"%string) then Some (account "I") else None;
  EmailLink.el_identity _ _ := Some (account "I") |}.
Definition tables (at_ : Time) : CredStore.CEnv := {| CredStore.ce_fails _ := false; CredStore.ce_now := at_; CredStore.ce_cred_id _ := "c" |}.
Definition asked : EmailLink.RequestInput := {| EmailLink.rq_Tenant := "acme"; EmailLink.rq_Realm := ""; EmailLink.rq_Username := "rudi"; EmailLink.rq_Flow := ∅ |}.
Definition mail_store : EmailLink.ELStore := {| EmailLink.es_tab := {| CredStore.tb_creds := []; CredStore.tb_onetime := [] |}; EmailLink.es_log := [] |}.
Definition sent : result Error (option EmailLink.Mail) * EmailLink.ELStore := EmailLink.Request (tables now) (ectx now) asked mail_store.
Definition secret : string := default ""%string (secret_New (EmailLink.el_rand (ectx now))).
Definition in_time : Time := (now + 14 * minute)%Z.
Definition signed_in : EmailLink.Completed := {|
  EmailLink.cd_Tenant := acme; EmailLink.cd_Realm := by_mail; EmailLink.cd_Identity := account "I"; EmailLink.cd_Flow := ∅ |}.

Lemma email_link_signs_in_witness : fst (EmailLink.Complete (tables in_time) (ectx in_time) secret (snd sent)) = Ok signed_in.
Proof.
  destruct (EmailProps.email_link_signs_in (tables now) (ectx now) asked mail_store (EmailLink.mail_to (ectx now) (account "I") secret) (snd sent)
    "0123456789abcdef0123456789abcdef") as (tenant & realm & i & token & Ha & _ & _ & Ht & _ & _ & H).
  - reflexivity.
  - reflexivity.
  - vm_compute. reflexivity.
  - vm_compute in Ha. injection Ha as <- <- <-. vm_compute in Ht. injection Ht as <-.
    apply (H (tables in_time) (ectx in_time) (snd sent)); [reflexivity|reflexivity|vm_compute; reflexivity|discriminate|by split|].
    intros p ->. vm_compute. reflexivity.
Defined.

Definition once : EmailLink.ELStore := snd (EmailLink.Complete (tables in_time) (ectx in_time) secret (snd sent)).
Definition unknown : EmailLink.RequestInput :=
  {| EmailLink.rq_Tenant := "acme"; EmailLink.rq_Realm := ""; EmailLink.rq_Username := "nobody"; EmailLink.rq_Flow := ∅ |}.

Lemma email_link_once_witness :
  fst (EmailLink.Complete (tables in_time) (ectx in_time) secret (snd (EmailLink.Request (tables in_time) (ectx in_time) unknown once))) =
    Err ErrTokenInvalid /\
  fst (EmailLink.Request (tables in_time) (ectx in_time) unknown once) = Ok None.
Proof.
  split; [|vm_compute; reflexivity].
  destruct (EmailProps.email_link_once (tables in_time) (ectx in_time) secret signed_in (snd sent) once
    (EmailLink.es_tab (snd (EmailLink.Complete (tables in_time) (ectx in_time) "other" once)))) as (_ & _ & H).
  - apply (bool_decide_unpack _). vm_compute. exact I.
  - vm_compute. reflexivity.
  - apply rtc_once, EmailProps.ar_complete.
  - rewrite H; [reflexivity|]. vm_compute. reflexivity.
Defined.

(** *** An application *)
Definition worker : Application := {|
  app_ID := "A"; app_Slug := "worker"; app_SignIn := ""; app_TokenFormat := jwsFormat; app_AccessTokenTTLSecs := 0; app_RefreshTokenTTLSecs := 0;
  app_Status := "active"; app_IsSystem := false; app_ClientSecretHash := Secret.Hex "#s3cret"; app_AllowedAudiences := ["billing"%string] |}.
Definition cctx : OCtx := {|
  oc_issuer := "iss"; oc_ring := p_ring ports; oc_wall := now; oc_now := now; oc_jti := Some "0123456789abcdef"%string; oc_ip := "";
  oc_tenant_by_slug _ := Some acme; oc_app _ _ := Some worker; oc_identity _ _ := None |}.
Definition asks (audience : string) : ClientCreds.ClientCredentialsInput := {|
  ClientCreds.cc_Tenant := "acme"; ClientCreds.cc_ClientID := "worker"; ClientCreds.cc_ClientSecret := "s3cret"; ClientCreds.cc_Audience := audience |}.
Definition given : result Error ClientCreds.ClientCredentialsOutput := fst (ClientCreds.Execute cctx (asks "billing") []).
Definition output : ClientCreds.ClientCredentialsOutput :=
  match given with
  | Ok o => o
  | Err _ => {| ClientCreds.co_AccessToken := ""; ClientCreds.co_TokenType := ""; ClientCreds.co_ExpiresIn := 0 |}
  end.

Lemma client_token_confined_witness :
  (0 <= ClientCreds.co_ExpiresIn output <= 600)%Z /\ Secret.Hex (Hash "s3cret") = app_ClientSecretHash worker /\
  fst (ClientCreds.Execute cctx (asks "payroll") []) =
    Err (With (With ErrPermissionDenied "audience" "payroll") "hint" "add it to the application's allowed_audiences to request it").
Proof.
  split; [|split; vm_compute; reflexivity].
  destruct (@ClientProps.client_token_confined IssuerSample.prims prims_laws dashed dashed_laws cctx (asks "billing") [] output
    (snd (ClientCreds.Execute cctx (asks "billing") [])) key) as (tenant & app & aud & c & body & _ & _ & _ & _ & _ & _ & _ & _ & _ & _ & H & _).
  - intros x. discriminate.
  - vm_compute. reflexivity.
  - vm_compute. reflexivity.
  - vm_compute. reflexivity.
  - exact the_key.
  - exact H.
Defined.

End Sample.
