(* ===== verification/GrantChange.v ===== *)
(** internal/authz/domain/grantchange: planning a bulk change of grants
    (spec.go, state.go, plan.go and the small types beside them).  The plan is
    a pure function of the candidates and of what is known about the places;
    GrantAdmin.v carries it out. *)

From Stdlib Require Import ZArith Lia Bool Ascii String.
From stdpp Require Import base gmap strings list sorting.
From S2P Require Import Prelude.
From S2P Require Import GoStrings.
From S2P Require Import Shared.

Module GrantChange.

(** ** Data *)

Record Pin := { Axis : string; NodeID : string; Inherit : bool; Exclude : bool }.

#[export] Instance Pin_eq_dec : EqDecision Pin.
Proof. solve_decision. Defined.

(** [Until] is a time or nil. *)
Record State := { Pins : list Pin; Until : option Time; Revoked : bool }.

Record Spec := {
  s_RoleID : string; s_Covers : list string; s_SiblingsOf : string; s_Kind : string; s_Axis : string;
  s_NodeID : string; s_ToNodeID : string; s_Inherit : bool; s_Until : option Time; s_Reason : string
}.

Record Candidate := {
  c_GrantID : string; c_IdentityID : string; c_Username : string; c_SelfScoped : bool; c_FromGroup : bool;
  c_State : State
}.

Record Item := { i_GrantID : string; i_IdentityID : string; i_Username : string; i_Before : State; i_After : State }.

(** [Below] is the set of places inside the spec's node. *)
Record AxisFacts := { f_Deny : bool; f_RootID : string; f_Siblings : list string; f_Below : list string }.

Record Plan := { p_Matched : Z; p_Items : list Item; p_Skipped : gmap string Z }.

Definition AddPlace : string := "add_place".
Definition RemovePlace : string := "remove_place".
Definition SwapPlace : string := "swap_place".
Definition Grow : string := "grow".
Definition SetUntil : string := "set_until".
Definition Revoke : string := "revoke".

Definition MaxGrants : nat := 100 * 100.

Definition NeedsAxis (s : Spec) : bool :=
  bool_decide (s_Kind s = AddPlace) || bool_decide (s_Kind s = RemovePlace) ||
  bool_decide (s_Kind s = SwapPlace) || bool_decide (s_Kind s = Grow).

(** ** state.go *)

(** The order of strings.Compare on the axis, then on the node. *)
Definition pin_key_le (a b : Pin) : Prop :=
  match String.compare (Axis a) (Axis b) with
  | Lt => True
  | Gt => False
  | Eq => String.compare (NodeID a) (NodeID b) <> Gt
  end.

#[export] Instance pin_key_le_dec : RelDecision pin_key_le.
Proof. intros a b. unfold pin_key_le. destruct (String.compare _ _); apply _. Defined.

Definition sortedPins (s : State) : list Pin := merge_sort pin_key_le (Pins s).

Definition SamePins (s o : State) : bool := bool_decide (sortedPins s = sortedPins o).

Definition Same (s o : State) : bool :=
  if negb (Bool.eqb (Revoked s) (Revoked o)) then false
  else if negb (Bool.eqb (bool_decide (Until s = None)) (bool_decide (Until o = None))) then false
  else if match Until s, Until o with
          | Some a, Some b => negb (unix a =? unix b)%Z
          | _, _ => false
          end then false
  else SamePins s o.

Definition on_axis (axis : string) (p : Pin) : bool := bool_decide (Axis p = axis).

Definition includes (s : State) (axis : string) : list string :=
  map NodeID (List.filter (fun p => on_axis axis p && negb (Exclude p)) (Pins s)).

Definition hasExcludes (s : State) (axis : string) : bool :=
  existsb (fun p => on_axis axis p && Exclude p) (Pins s).

Definition pin (s : State) (axis node : string) : option Pin :=
  find (fun p => on_axis axis p && bool_decide (NodeID p = node)) (Pins s).

Definition with_pins (s : State) (l : list Pin) : State := {| Pins := l; Until := Until s; Revoked := Revoked s |}.

Definition without (s : State) (axis : string) (drop : Pin -> bool) : State :=
  with_pins s (List.filter (fun p => negb (on_axis axis p && drop p)) (Pins s)).

Definition with_ (s : State) (p : Pin) : State := with_pins s (Pins s ++ [p]).

(** ** plan.go *)

Definition SkipFromGroup : string := "comes from a group; change the group instead".
Definition SkipSelf : string := "limited to the person's own records".
Definition SkipHasAll : string := "already has every place of this kind".
Definition SkipHasPlace : string := "already has this place".
Definition SkipNoPlace : string := "does not have this place picked".
Definition SkipLastPlace : string := "it is their only place here; removing it would give every place".
Definition SkipAlreadyUntil : string := "already ends then".
Definition SkipCovered : string := "already reaches it".

(** [slices.Contains] *)
Definition contains (l : list string) (x : string) : bool := existsb (fun y => bool_decide (y = x)) l.

Definition matches (s : Spec) (c : Candidate) (f : AxisFacts) : bool :=
  let have := includes (c_State c) (s_Axis s) in
  forallb (contains have) (s_Covers s) &&
  (if bool_decide (s_SiblingsOf s = ""%string) then true
   else if bool_decide (f_Siblings f = []) then false
   else if contains have (s_SiblingsOf s) then false
   else forallb (contains have) (f_Siblings f)).

Definition new_pin (axis node : string) (inherit : bool) : Pin :=
  {| Axis := axis; NodeID := node; Inherit := inherit; Exclude := false |}.

(** A skipped grant is [Err why]. *)
Definition grow (s : Spec) (st : State) (f : AxisFacts) : result string State :=
  let ax := s_Axis s in
  let inc := includes st ax in
  if bool_decide (s_NodeID s = ""%string) then
    if f_Deny f || hasExcludes st ax then
      if match pin st ax (f_RootID f) with
         | Some root => Inherit root && negb (Exclude root) && (length inc =? 1)%nat
         | None => false
         end
      then Err SkipHasAll
      else Ok (with_ (without st ax (fun p => negb (Exclude p))) (new_pin ax (f_RootID f) true))
    else if bool_decide (inc = []) then Err SkipHasAll
    else Ok (without st ax (fun _ => true))
  else if bool_decide (inc = []) && negb (f_Deny f) then Err SkipHasAll
  else if match pin st ax (s_NodeID s) with Some p => Inherit p && negb (Exclude p) | None => false end
  then Err SkipCovered
  else Ok (with_ (without st ax (fun p => negb (Exclude p) &&
                    (bool_decide (NodeID p = s_NodeID s) || contains (f_Below f) (NodeID p))))
                 (new_pin ax (s_NodeID s) true)).

Definition same_second (a b : option Time) : bool :=
  match a, b with
  | None, None => true
  | Some a, Some b => (unix a =? unix b)%Z
  | _, _ => false
  end.

Definition apply (s : Spec) (st : State) (f : AxisFacts) : result string State :=
  let ax := s_Axis s in
  let inc := includes st ax in
  if bool_decide (s_Kind s = AddPlace) then
    if bool_decide (inc = []) && negb (f_Deny f) then Err SkipHasAll
    else if match pin st ax (s_NodeID s) with Some p => negb (Exclude p) | None => false end then Err SkipHasPlace
    else Ok (with_ (without st ax (fun p => bool_decide (NodeID p = s_NodeID s)))
                   (new_pin ax (s_NodeID s) (s_Inherit s)))
  else if bool_decide (s_Kind s = RemovePlace) then
    if negb (contains inc (s_NodeID s)) then Err SkipNoPlace
    else if (length inc =? 1)%nat then Err SkipLastPlace
    else Ok (without st ax (fun p => bool_decide (NodeID p = s_NodeID s) && negb (Exclude p)))
  else if bool_decide (s_Kind s = SwapPlace) then
    if negb (contains inc (s_NodeID s)) then Err SkipNoPlace
    else Ok (with_ (without st ax (fun p => bool_decide (NodeID p = s_NodeID s) && negb (Exclude p) ||
                                            bool_decide (NodeID p = s_ToNodeID s)))
                   (new_pin ax (s_ToNodeID s) (s_Inherit s)))
  else if bool_decide (s_Kind s = Grow) then grow s st f
  else if bool_decide (s_Kind s = SetUntil) then
    if same_second (Until st) (s_Until s) then Err SkipAlreadyUntil
    else Ok {| Pins := Pins st; Until := s_Until s; Revoked := Revoked st |}
  else if bool_decide (s_Kind s = Revoke) then Ok {| Pins := Pins st; Until := Until st; Revoked := true |}
  else Err "unknown change"%string.

(** [out.Skipped[why]++] *)
Definition skip (why : string) (p : Plan) : Plan :=
  {| p_Matched := p_Matched p; p_Items := p_Items p;
     p_Skipped := <[why := (default 0 (p_Skipped p !! why) + 1)%Z]> (p_Skipped p) |}.

(** One turn of the loop. *)
Definition consider (s : Spec) (f : AxisFacts) (out : Plan) (c : Candidate) : Plan :=
  if negb (matches s c f) then out
  else
    let out := {| p_Matched := (p_Matched out + 1)%Z; p_Items := p_Items out; p_Skipped := p_Skipped out |} in
    if c_FromGroup c then skip SkipFromGroup out
    else if c_SelfScoped c && NeedsAxis s then skip SkipSelf out
    else match apply s (c_State c) f with
         | Err why => skip why out
         | Ok after =>
             {| p_Matched := p_Matched out;
                p_Items := p_Items out ++ [{| i_GrantID := c_GrantID c; i_IdentityID := c_IdentityID c;
                                              i_Username := c_Username c; i_Before := c_State c; i_After := after |}];
                p_Skipped := p_Skipped out |}
         end.

Inductive BuildError := ErrTooMany.

Definition Build (s : Spec) (cands : list Candidate) (f : AxisFacts) : result BuildError Plan :=
  if (MaxGrants <? length cands)%nat then Err ErrTooMany
  else Ok (fold_left (consider s f) cands {| p_Matched := 0; p_Items := []; p_Skipped := ∅ |}).

(** The distinct people a plan alters. *)
Definition People (p : Plan) : nat := length (remove_dups (map i_IdentityID (p_Items p))).

End GrantChange.
