(* ===== verification/GrantChangeProps.v ===== *)
(** internal/authz/domain/grantchange: what a bulk change does to a grant, in
    terms of the places the decision engine then lets it reach. *)

From Stdlib Require Import ZArith Lia Bool Ascii String Permutation.
From stdpp Require Import base gmap strings list sorting fin_maps.
From S2P Require Import Prelude.
From S2P Require Import Snapshot.
From S2P Require Import GrantChange.

Module GrantChangeProps.
Import ScopeIdx GrantChange.

(** ** What a grant reaches on one axis *)

Definition picks (st : State) (ax : string) : list Pin := List.filter (on_axis ax) (Pins st).

Definition constraint_of (p : Pin) : ScopeConstraint :=
  {| sc_NodeID := NodeID p; sc_node := 0; sc_Inherit := Inherit p; sc_Exclude := Exclude p |}.

(** No picks mean every place, or none on an axis that denies by default;
    otherwise the rule the engine decides ([CoveredBy_admits]). *)
Definition reaches (nodes : list ScopeNode) (deny : bool) (st : State) (ax target : string) : Prop :=
  match picks st ax with
  | [] => deny = false
  | l => admits nodes target (map constraint_of l)
  end.

Definition pin_key (p : Pin) : string * string := (Axis p, NodeID p).

(** The primary key of grant_scopes and the trigger of migration 0046. *)
Record valid (st : State) : Prop := {
  valid_keys : NoDup (map pin_key (Pins st));
  valid_excl p : p ∈ Pins st -> Exclude p = true -> exists q, q ∈ Pins st /\ Axis q = Axis p /\ Exclude q = false
}.

(** ** Membership *)

Lemma on_axis_spec ax p : on_axis ax p = true <-> Axis p = ax.
Proof. apply bool_decide_eq_true. Qed.

Lemma elem_of_filter_bool {A} (f : A -> bool) l x : x ∈ List.filter f l <-> x ∈ l /\ f x = true.
Proof. by rewrite !list_elem_of_In, filter_In. Qed.

Lemma elem_of_picks st ax p : p ∈ picks st ax <-> p ∈ Pins st /\ Axis p = ax.
Proof. unfold picks. by rewrite elem_of_filter_bool, on_axis_spec. Qed.

Lemma elem_of_includes st ax n :
  n ∈ includes st ax <-> exists p, p ∈ Pins st /\ Axis p = ax /\ Exclude p = false /\ NodeID p = n.
Proof.
  unfold includes. rewrite list_elem_of_fmap. split.
  - intros (p & -> & [Hp Hb]%elem_of_filter_bool). apply andb_true_iff in Hb as [Ha He].
    apply on_axis_spec in Ha. apply negb_true_iff in He. eauto.
  - intros (p & Hp & Ha & He & <-). exists p. split; [done|]. apply elem_of_filter_bool. split; [done|].
    apply andb_true_iff. split; [by apply on_axis_spec|by rewrite He].
Qed.

Lemma includes_nil st ax : includes st ax = [] <-> forall p, p ∈ Pins st -> Axis p = ax -> Exclude p = true.
Proof.
  split.
  - intros H p Hp Ha. apply not_false_iff_true. intros He.
    assert (NodeID p ∈ includes st ax) as Hin by (apply elem_of_includes; eauto). rewrite H in Hin. by apply elem_of_nil in Hin.
  - intros H. destruct (includes st ax) as [|n l] eqn:E; [done|].
    assert (n ∈ includes st ax) as Hin by (rewrite E; by left).
    apply elem_of_includes in Hin as (p & Hp & Ha & He & _). by rewrite (H p Hp Ha) in He.
Qed.

Lemma elem_of_without st ax drop p : p ∈ Pins (without st ax drop) <-> p ∈ Pins st /\ (Axis p = ax -> drop p = false).
Proof.
  simpl. rewrite elem_of_filter_bool. destruct (on_axis ax p) eqn:E.
  - apply on_axis_spec in E. simpl. rewrite negb_true_iff. naive_solver.
  - simpl. assert (Axis p <> ax) by (intros ?%on_axis_spec; congruence). naive_solver.
Qed.

Lemma elem_of_with st q p : p ∈ Pins (with_ st q) <-> p ∈ Pins st \/ p = q.
Proof. simpl. rewrite elem_of_app, list_elem_of_singleton. done. Qed.

Lemma contains_spec l x : contains l x = true <-> x ∈ l.
Proof.
  unfold contains. rewrite existsb_exists. split.
  - intros (y & Hy & ->%bool_decide_eq_true). by apply list_elem_of_In.
  - intros H. exists x. split; [by apply list_elem_of_In|by apply bool_decide_eq_true].
Qed.

Lemma pin_some st ax n p : pin st ax n = Some p -> p ∈ Pins st /\ Axis p = ax /\ NodeID p = n.
Proof. intros [Hp Hb]%find_some. apply list_elem_of_In in Hp. unfold on_axis in Hb. unbool. done. Qed.

Lemma pin_none st ax n p : pin st ax n = None -> p ∈ Pins st -> Axis p = ax -> NodeID p <> n.
Proof.
  intros Hf Hp%list_elem_of_In Ha Hn. apply (find_none _ _ Hf) in Hp. unfold on_axis in Hp.
  by rewrite !bool_decide_eq_true_2 in Hp.
Qed.

Lemma valid_same_key st p q :
  valid st -> p ∈ Pins st -> q ∈ Pins st -> Axis p = Axis q -> NodeID p = NodeID q -> p = q.
Proof.
  intros [HN _] [i Hi]%list_elem_of_lookup [j Hj]%list_elem_of_lookup Ha Hn.
  assert (i = j) as ->; [|congruence].
  eapply (NoDup_lookup (map pin_key (Pins st))); [done|..]; rewrite list_lookup_fmap, ?Hi, ?Hj; simpl; [done|].
  unfold pin_key. by rewrite Ha, Hn.
Qed.

(** With keys unique, [pin] is the pin at the place. *)
Lemma pin_valid st p : valid st -> p ∈ Pins st -> pin st (Axis p) (NodeID p) = Some p.
Proof.
  intros Hv Hp. destruct (pin st (Axis p) (NodeID p)) as [q|] eqn:E.
  - apply pin_some in E as (Hq & Ha & Hn). f_equal. by eapply valid_same_key.
  - by destruct (pin_none _ _ _ p E Hp).
Qed.

(** ** [reaches] in terms of the pins *)

Definition covers_pin (nodes : list ScopeNode) (target : string) (p : Pin) : Prop :=
  NodeID p = target \/ (Inherit p = true /\ tc (parent_of nodes) target (NodeID p)).

Lemma reaches_picked nodes deny st ax target :
  includes st ax <> [] ->
  reaches nodes deny st ax target <->
  (exists p, p ∈ Pins st /\ Axis p = ax /\ Exclude p = false /\ covers_pin nodes target p) /\
  (forall p, p ∈ Pins st -> Axis p = ax -> Exclude p = true -> ~ covers_pin nodes target p).
Proof.
  intros Hne. unfold reaches. destruct (picks st ax) as [|p0 l] eqn:E.
  - destruct Hne. apply includes_nil. intros p Hp Ha.
    assert (p ∈ picks st ax) as Hin by (by apply elem_of_picks). rewrite E in Hin. by apply elem_of_nil in Hin.
  - rewrite <- E. unfold admits, covers, covers_pin. split.
    + intros [(c & (p & -> & [Hp Ha]%elem_of_picks)%list_elem_of_fmap & He & Hc) Hno]. split; [by exists p|].
      intros q Hq Haq Heq. apply (Hno (constraint_of q)); [|done].
      apply list_elem_of_fmap. exists q. split; [done|by apply elem_of_picks].
    + intros [(p & Hp & Ha & He & Hc) Hno]. split.
      * exists (constraint_of p). split; [|done]. apply list_elem_of_fmap. exists p. split; [done|by apply elem_of_picks].
      * intros c (q & -> & [Hq Haq]%elem_of_picks)%list_elem_of_fmap. by apply Hno.
Qed.

Lemma reaches_unpicked nodes deny st ax target :
  valid st -> includes st ax = [] -> reaches nodes deny st ax target <-> deny = false.
Proof.
  intros [_ Hex] Hn. unfold reaches. destruct (picks st ax) as [|p l] eqn:E; [done|].
  assert (p ∈ picks st ax) as [Hp Ha]%elem_of_picks by (rewrite E; by left).
  pose proof (proj1 (includes_nil st ax) Hn p Hp Ha) as He.
  destruct (Hex p Hp He) as (q & Hq & Haq & Heq). rewrite <- Ha in Hn.
  by rewrite (proj1 (includes_nil st _) Hn q Hq Haq) in Heq.
Qed.

(** ** The branches of [apply] *)

(** What a change of each kind that is not skipped has checked and leaves. *)
Inductive applied (s : Spec) (st : State) (f : AxisFacts) : State -> Prop :=
| ap_add :
    s_Kind s = AddPlace -> (includes st (s_Axis s) <> [] \/ f_Deny f = true) ->
    (forall p, pin st (s_Axis s) (s_NodeID s) = Some p -> Exclude p = true) ->
    applied s st f (with_ (without st (s_Axis s) (fun p => bool_decide (NodeID p = s_NodeID s)))
                          (new_pin (s_Axis s) (s_NodeID s) (s_Inherit s)))
| ap_remove :
    s_Kind s = RemovePlace -> s_NodeID s ∈ includes st (s_Axis s) -> length (includes st (s_Axis s)) <> 1%nat ->
    applied s st f (without st (s_Axis s) (fun p => bool_decide (NodeID p = s_NodeID s) && negb (Exclude p)))
| ap_swap :
    s_Kind s = SwapPlace -> s_NodeID s ∈ includes st (s_Axis s) ->
    applied s st f (with_ (without st (s_Axis s) (fun p => bool_decide (NodeID p = s_NodeID s) && negb (Exclude p) ||
                                                           bool_decide (NodeID p = s_ToNodeID s)))
                          (new_pin (s_Axis s) (s_ToNodeID s) (s_Inherit s)))
| ap_grow_top :
    s_Kind s = Grow -> s_NodeID s = ""%string -> (f_Deny f = true \/ hasExcludes st (s_Axis s) = true) ->
    applied s st f (with_ (without st (s_Axis s) (fun p => negb (Exclude p))) (new_pin (s_Axis s) (f_RootID f) true))
| ap_grow_all :
    s_Kind s = Grow -> s_NodeID s = ""%string -> f_Deny f = false -> hasExcludes st (s_Axis s) = false ->
    includes st (s_Axis s) <> [] ->
    applied s st f (without st (s_Axis s) (fun _ => true))
| ap_grow_branch :
    s_Kind s = Grow -> s_NodeID s <> ""%string -> (includes st (s_Axis s) <> [] \/ f_Deny f = true) ->
    applied s st f (with_ (without st (s_Axis s) (fun p => negb (Exclude p) &&
                             (bool_decide (NodeID p = s_NodeID s) || contains (f_Below f) (NodeID p))))
                          (new_pin (s_Axis s) (s_NodeID s) true))
| ap_until :
    s_Kind s = SetUntil -> same_second (Until st) (s_Until s) = false ->
    applied s st f {| Pins := Pins st; Until := s_Until s; Revoked := Revoked st |}
| ap_revoke :
    s_Kind s = Revoke -> applied s st f {| Pins := Pins st; Until := Until st; Revoked := true |}.

Lemma open_or_deny (l : list string) deny : bool_decide (l = []) && negb deny = false -> l <> [] \/ deny = true.
Proof. intros [H|H]%andb_false_iff; [left; by apply bool_decide_eq_false in H|right; by apply negb_false_iff in H]. Qed.

(** Case analysis on the test of a leading [if]. *)
Ltac destruct_if :=
  match goal with |- (if ?b then _ else _) = _ -> _ => destruct b end.

Lemma grow_applied s st f st' : s_Kind s = Grow -> grow s st f = Ok st' -> applied s st f st'.
Proof.
  intros Hk. unfold grow. case_bool_decide as Hn.
  - destruct (f_Deny f || hasExcludes st (s_Axis s)) eqn:Hd.
    + destruct_if; [done|]. intros [= <-]. apply orb_true_iff in Hd. by apply ap_grow_top.
    + case_bool_decide; [done|]. intros [= <-]. apply orb_false_iff in Hd as [? ?]. by apply ap_grow_all.
  - destruct (bool_decide _ && negb (f_Deny f)) eqn:Ho; [done|]. destruct_if; [done|].
    intros [= <-]. apply ap_grow_branch; [done..|]. by apply open_or_deny.
Qed.

Lemma apply_applied s st f st' : apply s st f = Ok st' -> applied s st f st'.
Proof.
  unfold apply. case_bool_decide as H1.
  { destruct (bool_decide _ && negb (f_Deny f)) eqn:Ho; [done|].
    destruct (pin st (s_Axis s) (s_NodeID s)) as [p|] eqn:Hp; [destruct (Exclude p) eqn:He; [|done]|];
      intros [= <-]; (apply ap_add; [done|by apply open_or_deny|naive_solver]). }
  case_bool_decide as H2.
  { destruct (contains _ _) eqn:Hc; [|done]. destruct (Nat.eqb_spec (length (includes st (s_Axis s))) 1); [done|].
    intros [= <-]. apply ap_remove; [done|by apply contains_spec|done]. }
  case_bool_decide as H3.
  { destruct (contains _ _) eqn:Hc; [|done]. intros [= <-]. apply ap_swap; [done|by apply contains_spec]. }
  case_bool_decide as H4; [by apply grow_applied|].
  case_bool_decide as H5; [destruct (same_second _ _) eqn:Hs; [done|]; intros [= <-]; by apply ap_until|].
  case_bool_decide as H6; [intros [= <-]; by apply ap_revoke|done].
Qed.

(** ** Widening and narrowing *)

(** What the planner was told about the places involved. *)
Record facts_ok (nodes : list ScopeNode) (s : Spec) (st : State) (f : AxisFacts) : Prop := {
  fo_below x : x ∈ f_Below f -> tc (parent_of nodes) x (s_NodeID s);
  fo_root p : p ∈ Pins st -> Axis p = s_Axis s -> NodeID p = f_RootID f \/ tc (parent_of nodes) (NodeID p) (f_RootID f)
}.

(** The place itself or one inside it. *)
Definition inside (nodes : list ScopeNode) (target place : string) : Prop :=
  target = place \/ tc (parent_of nodes) target place.

Lemma inside_trans nodes a b c : inside nodes a b -> inside nodes b c -> inside nodes a c.
Proof. intros [->|H1] [->|H2]; unfold inside; eauto. right. by etrans. Qed.

Lemma covers_inside nodes target p : covers_pin nodes target p -> inside nodes target (NodeID p).
Proof. intros [H|[_ H]]; [by left|by right]. Qed.

Lemma covers_new nodes target ax place :
  inside nodes target place -> covers_pin nodes target (new_pin ax place true).
Proof. intros [->|H]; [by left|by right]. Qed.

Lemma includes_new st q ax : Axis q = ax -> Exclude q = false -> includes (with_ st q) ax <> [].
Proof.
  intros Ha He H. pose proof (proj1 (includes_nil _ _) H q) as Hq. rewrite Hq in He; [done| |done].
  apply elem_of_with. by right.
Qed.

Lemma reaches_more nodes deny st st' ax target :
  valid st -> (includes st ax <> [] \/ deny = true) -> includes st' ax <> [] ->
  (forall p, p ∈ Pins st -> Axis p = ax -> Exclude p = false -> covers_pin nodes target p ->
     exists q, q ∈ Pins st' /\ Axis q = ax /\ Exclude q = false /\ covers_pin nodes target q) ->
  (forall p, p ∈ Pins st' -> Axis p = ax -> Exclude p = true -> p ∈ Pins st) ->
  reaches nodes deny st ax target -> reaches nodes deny st' ax target.
Proof.
  intros Hv Hor Hne Hinc Hexc Hr. destruct (includes st ax) as [|n l] eqn:E.
  - destruct Hor as [?| ->]; [done|]. by apply (reaches_unpicked _ _ _ _ _ Hv E) in Hr.
  - apply reaches_picked in Hr as [(p & Hp & Ha & He & Hc) Hno]; [|by rewrite E].
    apply reaches_picked; [done|]. split; [by eapply Hinc|]. intros q Hq Haq Heq. apply Hno; auto.
Qed.

(** What is newly reached lies inside [place]. *)
Lemma reaches_confined nodes deny st st' ax place target :
  includes st ax <> [] -> includes st' ax <> [] -> ~ inside nodes target place ->
  (forall p, p ∈ Pins st' -> Axis p = ax -> Exclude p = false -> p ∈ Pins st \/ NodeID p = place) ->
  (forall p, p ∈ Pins st -> Axis p = ax -> Exclude p = true -> p ∈ Pins st' \/ NodeID p = place) ->
  reaches nodes deny st' ax target -> reaches nodes deny st ax target.
Proof.
  intros Hne Hne' Hout Hinc Hexc Hr. apply reaches_picked in Hr as [(p & Hp & Ha & He & Hc) Hno]; [|done].
  apply reaches_picked; [done|]. split.
  - destruct (Hinc p Hp Ha He) as [?|Hn]; [by exists p|]. destruct Hout. rewrite <- Hn. by apply covers_inside.
  - intros q Hq Haq Heq Hcq. destruct (Hexc q Hq Haq Heq) as [?|Hn]; [by eapply Hno|].
    destruct Hout. rewrite <- Hn. by apply covers_inside.
Qed.

Ltac pins := rewrite ?elem_of_with, ?elem_of_without in *; simpl in *.

Lemma no_include_at st ax n p :
  valid st -> (forall q, pin st ax n = Some q -> Exclude q = true) -> p ∈ Pins st -> Axis p = ax -> Exclude p = false ->
  NodeID p <> n.
Proof.
  intros Hv Hx Hp <- He <-. rewrite (Hx p) in He; [done|]. by apply pin_valid.
Qed.

(** Adding a place and growing never take a place away. *)
Lemma widens nodes s st f st' target :
  valid st -> facts_ok nodes s st f -> (s_Kind s = AddPlace \/ s_Kind s = Grow) -> applied s st f st' ->
  reaches nodes (f_Deny f) st (s_Axis s) target -> reaches nodes (f_Deny f) st' (s_Axis s) target.
Proof.
  intros Hv [Hb Hroot] Hk Ha. destruct Ha as [Hk' Ho Hx|Hk' ? ?|Hk' ?|Hk' Hn Ho|Hk' Hn Hd He Hne|Hk' Hn Ho|Hk' ?|Hk'];
    try by (rewrite Hk' in Hk; destruct Hk as [Hk|Hk]; vm_compute in Hk).
  - apply reaches_more; [done|done|by apply includes_new| |].
    + intros p Hp Hax He Hc. exists p. pins. split; [|done]. left. split; [done|]. intros _.
      apply bool_decide_eq_false. by eapply no_include_at.
    + intros p Hp _ He. pins. destruct Hp as [[? _]| ->]; done.
  - apply reaches_more; [done| |by apply includes_new| |].
    + destruct Ho as [|Ho]; [by right|]. left. unfold hasExcludes in Ho. apply existsb_exists in Ho as (p & Hp & Hb').
      apply list_elem_of_In in Hp. apply andb_true_iff in Hb' as [Hax%on_axis_spec Hex].
      destruct (valid_excl _ Hv p Hp Hex) as (q & Hq & Haq & Heq). intros Hn'.
      by rewrite (proj1 (includes_nil _ _) Hn' q Hq (eq_trans Haq Hax)) in Heq.
    + intros p Hp Hax He Hc. exists (new_pin (s_Axis s) (f_RootID f) true). pins. split; [by right|].
      split; [done|]. split; [done|]. apply covers_new. eapply inside_trans; [by apply covers_inside|].
      by apply Hroot.
    + intros p Hp _ He. pins. destruct Hp as [[? _]| ->]; done.
  - intros _. unfold reaches. destruct (picks _ _) as [|p l] eqn:E; [done|].
    assert (p ∈ picks (without st (s_Axis s) (fun _ => true)) (s_Axis s)) as [Hp Hax]%elem_of_picks by (rewrite E; by left).
    apply elem_of_without in Hp as [_ Hp]. by specialize (Hp Hax).
  - apply reaches_more; [done|done|by apply includes_new| |].
    + intros p Hp Hax He Hc. destruct (bool_decide (NodeID p = s_NodeID s) || contains (f_Below f) (NodeID p)) eqn:Hin.
      * exists (new_pin (s_Axis s) (s_NodeID s) true). pins. split; [by right|]. split; [done|]. split; [done|].
        apply covers_new. eapply inside_trans; [by apply covers_inside|].
        apply orb_true_iff in Hin as [->%bool_decide_eq_true|Hin%contains_spec]; [by left|right; by apply Hb].
      * exists p. pins. split; [|done]. left. split; [done|]. intros _. by rewrite Hin, andb_false_r.
    + intros p Hp _ He. pins. destruct Hp as [[? _]| ->]; done.
Qed.

(** Growing reaches the whole branch, exceptions aside. *)
Lemma grow_reaches nodes s st f st' target :
  s_Kind s = Grow -> applied s st f st' ->
  inside nodes target (if bool_decide (s_NodeID s = ""%string) then f_RootID f else s_NodeID s) ->
  (forall p, p ∈ Pins st -> Axis p = s_Axis s -> Exclude p = true -> ~ covers_pin nodes target p) ->
  reaches nodes (f_Deny f) st' (s_Axis s) target.
Proof.
  intros Hk Ha Hin Hex.
  assert (Hgo : forall place drop,
    inside nodes target place ->
    reaches nodes (f_Deny f) (with_ (without st (s_Axis s) drop) (new_pin (s_Axis s) place true)) (s_Axis s) target).
  { intros place drop Hi. apply reaches_picked; [by apply includes_new|]. split.
    - exists (new_pin (s_Axis s) place true). pins. split; [by right|]. split; [done|]. split; [done|]. by apply covers_new.
    - intros p Hp Hax He. pins. destruct Hp as [[Hp _]| ->]; [by apply Hex|done]. }
  destruct Ha as [Hk' _ _|Hk' ? ?|Hk' ?|Hk' Hn Ho|Hk' Hn Hd He Hne|Hk' Hn Ho|Hk' ?|Hk'];
    try by (rewrite Hk in Hk'; vm_compute in Hk').
  - apply Hgo. by rewrite bool_decide_eq_true_2 in Hin.
  - unfold reaches. destruct (picks _ _) as [|p l] eqn:E; [done|].
    assert (p ∈ picks (without st (s_Axis s) (fun _ => true)) (s_Axis s)) as [Hp Hax]%elem_of_picks by (rewrite E; by left).
    apply elem_of_without in Hp as [_ Hp]. by specialize (Hp Hax).
  - apply Hgo. by rewrite bool_decide_eq_false_2 in Hin.
Qed.

Lemma includes_NoDup st ax : NoDup (map pin_key (Pins st)) -> NoDup (includes st ax).
Proof.
  unfold includes. induction (Pins st) as [|p l IH]; simpl; [constructor|]. intros [Hp Hl]%NoDup_cons.
  destruct (on_axis ax p && negb (Exclude p)) eqn:Hf; [|by apply IH]. simpl. apply NoDup_cons. split; [|by apply IH].
  intros (q & Hn & [Hq Hfq]%elem_of_filter_bool)%list_elem_of_fmap. apply Hp.
  apply andb_true_iff in Hf as [Ha%on_axis_spec _]. apply andb_true_iff in Hfq as [Haq%on_axis_spec _].
  apply list_elem_of_fmap. exists q. split; [|done]. unfold pin_key. congruence.
Qed.

(** A grant with another include keeps one when [n] goes. *)
Lemma another_include st ax n :
  valid st -> n ∈ includes st ax -> length (includes st ax) <> 1%nat ->
  exists p, p ∈ Pins st /\ Axis p = ax /\ Exclude p = false /\ NodeID p <> n.
Proof.
  intros Hv Hin Hl. pose proof (includes_NoDup st ax (valid_keys _ Hv)) as HN.
  assert (exists m, m ∈ includes st ax /\ m <> n) as (m & Hm & Hmn).
  { destruct (includes st ax) as [|a [|b l]]; [by apply elem_of_nil in Hin|done|].
    apply NoDup_cons in HN as [Ha _]. destruct (decide (a = n)) as [->|]; [|exists a; split; [by left|done]].
    exists b. split; [by right; left|]. intros ->. apply Ha. by left. }
  apply elem_of_includes in Hm as (p & Hp & Ha & He & <-). by exists p.
Qed.

Lemma includes_ne st ax p : p ∈ Pins st -> Axis p = ax -> Exclude p = false -> includes st ax <> [].
Proof. intros Hp Ha He H. by rewrite (proj1 (includes_nil _ _) H p Hp Ha) in He. Qed.

(** Only growing to everything leaves a limited grant unlimited. *)
Lemma stays_limited s st f st' ax :
  valid st -> applied s st f st' -> includes st ax <> [] ->
  includes st' ax <> [] \/ (s_Kind s = Grow /\ s_NodeID s = ""%string /\ ax = s_Axis s).
Proof.
  intros Hv Ha Hne. destruct (decide (ax = s_Axis s)) as [->|Hax].
  - destruct Ha as [Hk' Ho Hx|Hk' Hin Hl|Hk' ?|Hk' Hn Ho|Hk' Hn Hd He _|Hk' Hn Ho|Hk' ?|Hk'];
      try (left; by apply includes_new); [|by right|by left|by left].
    left. destruct (another_include _ _ _ Hv Hin Hl) as (p & Hp & Ha & He & Hn).
    apply (includes_ne _ _ p); [|done|done]. apply elem_of_without. split; [done|]. intros _.
    by rewrite bool_decide_eq_false_2.
  - left. assert (exists p, p ∈ Pins st /\ Axis p = ax /\ Exclude p = false) as (p & Hp & Hpa & He).
    { destruct (includes st ax) as [|n l] eqn:E; [done|].
      assert (n ∈ includes st ax) as (p & Hp & ? & ? & _)%elem_of_includes by (rewrite E; by left). by exists p. }
    apply (includes_ne _ _ p); [|done|done]. subst ax.
    destruct Ha; rewrite ?elem_of_with, ?elem_of_without; simpl; auto; (left || idtac); by (split; [|intros ?]).
Qed.

(** Removing a place never gives one. *)
Lemma narrows nodes s st f st' target :
  valid st -> s_Kind s = RemovePlace -> applied s st f st' ->
  reaches nodes (f_Deny f) st' (s_Axis s) target -> reaches nodes (f_Deny f) st (s_Axis s) target.
Proof.
  intros Hv Hk Ha. pose proof (stays_limited s st f st' (s_Axis s) Hv Ha) as Hlim.
  destruct Ha as [Hk' _ _|Hk' Hin Hl|Hk' ?|Hk' ? ?|Hk' ? ? ? ?|Hk' ? ?|Hk' ?|Hk'];
    try by (rewrite Hk in Hk'; vm_compute in Hk').
  assert (Hne : includes st (s_Axis s) <> []).
  { intros E. rewrite E in Hin. by apply elem_of_nil in Hin. }
  destruct (Hlim Hne) as [Hne'|[Hg _]]; [|by rewrite Hk in Hg; vm_compute in Hg].
  intros [(p & Hp & Hax & He & Hc) Hno]%reaches_picked; [|done]. apply reaches_picked; [done|].
  apply elem_of_without in Hp as [Hp _]. split; [by exists p|]. intros q Hq Haq Heq. apply Hno; [|done..].
  apply elem_of_without. split; [done|]. intros _. by rewrite Heq, andb_false_r.
Qed.

(** Adding or swapping in a place gives nothing outside it. *)
Lemma confined nodes s st f st' target place :
  valid st -> (s_Kind s = AddPlace /\ place = s_NodeID s \/ s_Kind s = SwapPlace /\ place = s_ToNodeID s) ->
  applied s st f st' -> includes st (s_Axis s) <> [] ->
  reaches nodes (f_Deny f) st' (s_Axis s) target -> ~ inside nodes target place ->
  reaches nodes (f_Deny f) st (s_Axis s) target.
Proof.
  intros Hv Hk Ha Hne Hr Hout. revert Hr.
  destruct Ha as [Hk' Ho Hx|Hk' Hin Hl|Hk' Hin|Hk' ? ?|Hk' ? ? ? ?|Hk' ? ?|Hk' ?|Hk'];
    try by (rewrite Hk' in Hk; destruct Hk as [[Hk _]|[Hk _]]; vm_compute in Hk).
  - destruct Hk as [[_ ->]|[Hk _]]; [|by rewrite Hk' in Hk; vm_compute in Hk].
    apply (reaches_confined _ _ _ _ _ (s_NodeID s)); [done|by apply includes_new|done| |].
    + intros p Hp _ _. pins. destruct Hp as [[? _]| ->]; [by left|by right].
    + intros p Hp Hax _. pins. destruct (decide (NodeID p = s_NodeID s)); [by right|]. left. left. split; [done|].
      intros _. by apply bool_decide_eq_false.
  - destruct Hk as [[Hk _]|[_ ->]]; [by rewrite Hk' in Hk; vm_compute in Hk|].
    apply (reaches_confined _ _ _ _ _ (s_ToNodeID s)); [done|by apply includes_new|done| |].
    + intros p Hp _ _. pins. destruct Hp as [[? _]| ->]; [by left|by right].
    + intros p Hp Hax He. pins. destruct (decide (NodeID p = s_ToNodeID s)); [by right|]. left. left. split; [done|].
      intros _. rewrite He, andb_false_r. by apply bool_decide_eq_false.
Qed.

Lemma other_axes s st f st' ax : applied s st f st' -> ax <> s_Axis s -> picks st' ax = picks st ax.
Proof.
  intros Ha Hax.
  assert (Hw : forall drop, picks (without st (s_Axis s) drop) ax = picks st ax).
  { intros drop. unfold picks, without. simpl. induction (Pins st) as [|p l IH]; [done|]. simpl.
    destruct (on_axis (s_Axis s) p) eqn:E; simpl.
    - apply on_axis_spec in E. assert (on_axis ax p = false) as -> by (apply bool_decide_eq_false; congruence).
      destruct (drop p); simpl; [done|]. by assert (on_axis ax p = false) as -> by (apply bool_decide_eq_false; congruence).
    - by rewrite IH. }
  assert (Hn : forall st0 q, Axis q = s_Axis s -> picks (with_ st0 q) ax = picks st0 ax).
  { intros st0 q Hq. unfold picks, with_. simpl. rewrite List.filter_app. simpl.
    assert (on_axis ax q = false) as -> by (apply bool_decide_eq_false; congruence). by rewrite app_nil_r. }
  destruct Ha; rewrite ?Hn, ?Hw by done; done.
Qed.

(** Adding a first place on an axis that denies gives that place only. *)
Lemma add_first nodes s st f st' target :
  valid st -> s_Kind s = AddPlace -> applied s st f st' -> includes st (s_Axis s) = [] ->
  reaches nodes (f_Deny f) st' (s_Axis s) target -> inside nodes target (s_NodeID s).
Proof.
  intros Hv Hk Ha E. destruct Ha as [_ Ho Hx|Hk' Hin Hl|Hk' Hin|Hk' ? ?|Hk' ? ? ? ?|Hk' ? ?|Hk' ?|Hk'];
    try by (rewrite Hk in Hk'; vm_compute in Hk').
  intros [(p & Hp & Hax & He & Hc) _]%reaches_picked; [|by apply includes_new].
  apply elem_of_with in Hp as [[Hp _]%elem_of_without| ->]; [|by apply covers_inside in Hc].
  by rewrite (proj1 (includes_nil _ _) E p Hp Hax) in He.
Qed.

(** A bulk change does to what a grant reaches what its kind says, and
    nothing else.  Adding a place and growing lose nothing; removing gains
    nothing; adding or swapping gains nothing outside the place named; growing
    reaches the whole branch, exceptions aside; other kinds of place are left
    as they were; and a limited grant stays limited unless the change is to
    grow to everything. *)
Theorem apply_reach nodes s st f st' :
  valid st -> facts_ok nodes s st f -> apply s st f = Ok st' ->
  let before := reaches nodes (f_Deny f) st (s_Axis s) in
  let after := reaches nodes (f_Deny f) st' (s_Axis s) in
  (s_Kind s = AddPlace \/ s_Kind s = Grow -> forall t, before t -> after t) /\
  (s_Kind s = RemovePlace -> forall t, after t -> before t) /\
  (s_Kind s = AddPlace -> forall t, after t -> ~ inside nodes t (s_NodeID s) -> before t) /\
  (s_Kind s = SwapPlace -> forall t, after t -> ~ inside nodes t (s_ToNodeID s) -> before t) /\
  (s_Kind s = Grow -> forall t,
     inside nodes t (if bool_decide (s_NodeID s = ""%string) then f_RootID f else s_NodeID s) ->
     (forall p, p ∈ Pins st -> Axis p = s_Axis s -> Exclude p = true -> ~ covers_pin nodes t p) -> after t) /\
  (forall ax, ax <> s_Axis s -> picks st' ax = picks st ax) /\
  (forall ax, includes st ax <> [] -> includes st' ax <> [] \/
     (s_Kind s = Grow /\ s_NodeID s = ""%string /\ ax = s_Axis s)).
Proof.
  intros Hv Hf Hap%apply_applied before after.
  split; [intros Hk t; by eapply widens|]. split; [intros Hk t; by eapply narrows|]. split.
  { intros Hk t Ht Hout. destruct (decide (includes st (s_Axis s) = [])) as [E|Hne].
    - destruct Hout. by eapply add_first.
    - eapply (confined nodes s st f st' t (s_NodeID s)); eauto. }
  split.
  { intros Hk t Ht Hout. eapply (confined nodes s st f st' t (s_ToNodeID s)); eauto.
    destruct Hap as [Hk'|Hk'|_ Hin|Hk'|Hk'|Hk'|Hk'|Hk']; try by (rewrite Hk in Hk'; vm_compute in Hk').
    intros E. rewrite E in Hin. by apply elem_of_nil in Hin. }
  split; [intros Hk t Hin Hex; by eapply grow_reaches|]. split; [intros ax; by eapply other_axes|].
  intros ax. by eapply stays_limited.
Qed.

(** ** The table's own rules *)

Lemma keys_without st ax drop : NoDup (map pin_key (Pins st)) -> NoDup (map pin_key (Pins (without st ax drop))).
Proof.
  unfold without. simpl. induction (Pins st) as [|p l IH]; simpl; [done|]. intros [Hp Hl]%NoDup_cons.
  destruct (negb _); [|by apply IH]. simpl. apply NoDup_cons. split; [|by apply IH].
  intros (q & Hk & [Hq _]%elem_of_filter_bool)%list_elem_of_fmap. apply Hp, list_elem_of_fmap. by exists q.
Qed.

Lemma keys_with st q :
  NoDup (map pin_key (Pins st)) -> (forall p, p ∈ Pins st -> Axis p = Axis q -> NodeID p <> NodeID q) ->
  NoDup (map pin_key (Pins (with_ st q))).
Proof.
  intros HN Hq. unfold with_. simpl. rewrite map_app. apply NoDup_app. split; [done|]. split; [|apply NoDup_singleton].
  intros k (p & -> & Hp)%list_elem_of_fmap Hk%list_elem_of_singleton. injection Hk as Ha Hn. by eapply Hq.
Qed.

Lemma excl_with st q :
  Exclude q = false ->
  (forall p, p ∈ Pins st -> Exclude p = true ->
     Axis p = Axis q \/ exists r, r ∈ Pins st /\ Axis r = Axis p /\ Exclude r = false) ->
  forall p, p ∈ Pins (with_ st q) -> Exclude p = true ->
    exists r, r ∈ Pins (with_ st q) /\ Axis r = Axis p /\ Exclude r = false.
Proof.
  intros Hq Hex p [Hp| ->]%elem_of_with He; [|congruence]. destruct (Hex p Hp He) as [Ha|(r & Hr & Ha & Hre)].
  - exists q. split; [apply elem_of_with; by right|done].
  - exists r. split; [apply elem_of_with; by left|done].
Qed.

(** Off the axis of a [without] nothing changes; on it, the caller says. *)
Lemma excl_without st ax drop :
  valid st ->
  (forall p, p ∈ Pins st -> Axis p = ax -> Exclude p = true -> drop p = false ->
     exists r, r ∈ Pins st /\ Axis r = ax /\ Exclude r = false /\ drop r = false) ->
  forall p, p ∈ Pins (without st ax drop) -> Exclude p = true ->
    exists r, r ∈ Pins (without st ax drop) /\ Axis r = Axis p /\ Exclude r = false.
Proof.
  intros Hv Hon p [Hp Hd]%elem_of_without He. destruct (decide (Axis p = ax)) as [Ha|Ha].
  - destruct (Hon p Hp Ha He (Hd Ha)) as (r & Hr & Har & Her & Hdr). exists r. rewrite elem_of_without. by rewrite Ha.
  - destruct (valid_excl _ Hv p Hp He) as (r & Hr & Har & Her). exists r. rewrite elem_of_without.
    split; [split; [done|congruence]|done].
Qed.

(** A change of the pins on one axis by dropping some and adding an include. *)
Lemma valid_replace st ax drop place inherit :
  valid st -> (forall p, p ∈ Pins st -> Axis p = ax -> NodeID p = place -> drop p = true) ->
  valid (with_ (without st ax drop) (new_pin ax place inherit)).
Proof.
  intros Hv Hdrop. split.
  - apply keys_with; [apply keys_without, Hv|]. intros p [Hp Hd]%elem_of_without Ha Hn. simpl in Ha, Hn.
    by rewrite (Hdrop p Hp Ha Hn) in Hd; specialize (Hd Ha).
  - apply excl_with; [done|]. intros p [Hp Hd]%elem_of_without He. destruct (decide (Axis p = ax)); [by left|right].
    destruct (valid_excl _ Hv p Hp He) as (r & Hr & Har & Her). exists r. rewrite elem_of_without.
    split; [split; [done|congruence]|done].
Qed.


(** Growing onto an excluded place writes a second pin for it, beside the
    exclusion, which still vetoes the place. *)
Lemma grow_onto_excluded s st f st' p :
  s_Kind s = Grow -> s_NodeID s <> ""%string -> valid st -> p ∈ Pins st -> Axis p = s_Axis s -> NodeID p = s_NodeID s ->
  Exclude p = true -> apply s st f = Ok st' ->
  ~ NoDup (map pin_key (Pins st')) /\ forall nodes, ~ reaches nodes (f_Deny f) st' (s_Axis s) (s_NodeID s).
Proof.
  intros Hk Hn Hv Hp Ha Hpn He Hap%apply_applied.
  destruct Hap as [Hk'|Hk'|Hk'|Hk' Hn'|Hk' Hn'|_ _ Ho|Hk'|Hk']; try done; try by (rewrite Hk in Hk'; vm_compute in Hk').
  assert (Hin : p ∈ Pins (without st (s_Axis s) (fun p => negb (Exclude p) &&
      (bool_decide (NodeID p = s_NodeID s) || contains (f_Below f) (NodeID p))))).
  { apply elem_of_without. split; [done|]. intros _. by rewrite He. }
  split.
  - unfold with_. simpl. rewrite map_app. intros (_ & Hd & _)%NoDup_app.
    apply (Hd (pin_key p)); [apply list_elem_of_fmap; by exists p|]. unfold pin_key. rewrite Ha, Hpn. by left.
  - intros nodes [_ Hno]%reaches_picked; [|by apply includes_new]. apply (Hno p); [|done|done|by left].
    apply elem_of_with. by left.
Qed.

(** ** The plan *)

(** The item a candidate contributes, if any. *)
Definition plan_item (s : Spec) (f : AxisFacts) (c : Candidate) : option Item :=
  if matches s c f && negb (c_FromGroup c) && negb (c_SelfScoped c && NeedsAxis s) then
    match apply s (c_State c) f with
    | Err _ => None
    | Ok after => Some {| i_GrantID := c_GrantID c; i_IdentityID := c_IdentityID c; i_Username := c_Username c;
                          i_Before := c_State c; i_After := after |}
    end
  else None.

(** The sum of the counts by reason. *)
Definition total (m : gmap string Z) : Z := map_fold (fun _ v acc => (v + acc)%Z) 0%Z m.

Lemma total_insert_fresh m k v : m !! k = None -> total (<[k := v]> m) = (v + total m)%Z.
Proof. intros H. unfold total. apply (map_fold_insert_L (fun _ v acc => (v + acc)%Z)); [intros; lia|done]. Qed.

Lemma total_skip (m : gmap string Z) why : total (<[why := (default 0 (m !! why) + 1)%Z]> m) = (total m + 1)%Z.
Proof.
  destruct (m !! why) as [v|] eqn:E; simpl.
  - rewrite <- insert_delete_eq, total_insert_fresh by apply lookup_delete_eq.
    rewrite <- (insert_delete_id m why v E) at 2. rewrite total_insert_fresh by apply lookup_delete_eq. lia.
  - rewrite total_insert_fresh by done. lia.
Qed.

Lemma omap_snoc_one {A B} (f : A -> option B) l x : omap f (l ++ [x]) = omap f l ++ (match f x with Some y => [y] | None => [] end).
Proof. by rewrite omap_app. Qed.

Definition balanced (out : Plan) : Prop :=
  p_Matched out = (Z.of_nat (length (p_Items out)) + total (p_Skipped out))%Z.

Lemma skip_balanced why m items sk :
  balanced {| p_Matched := m; p_Items := items; p_Skipped := sk |} ->
  balanced (skip why {| p_Matched := (m + 1)%Z; p_Items := items; p_Skipped := sk |}).
Proof. unfold balanced, skip. simpl. rewrite total_skip. lia. Qed.

(** One turn of the loop, whatever was planned before. *)
Lemma consider_step s f out c :
  p_Matched (consider s f out c) = (p_Matched out + (if matches s c f then 1 else 0))%Z /\
  p_Items (consider s f out c) = p_Items out ++ (match plan_item s f c with Some it => [it] | None => [] end) /\
  (balanced out -> balanced (consider s f out c)).
Proof.
  destruct out as [m items sk]. unfold consider, plan_item. simpl p_Matched. simpl p_Items. simpl p_Skipped.
  destruct (matches s c f); [|simpl; rewrite app_nil_r; split; [lia|done]].
  cbn [negb andb]. destruct (c_FromGroup c); cbn [negb andb].
  { rewrite app_nil_r. split; [done|]. split; [done|apply skip_balanced]. }
  destruct (c_SelfScoped c && NeedsAxis s); cbn [negb andb].
  { rewrite app_nil_r. split; [done|]. split; [done|apply skip_balanced]. }
  destruct (apply s (c_State c) f) as [after|why].
  - split; [done|]. split; [done|]. unfold balanced. simpl. rewrite length_app. simpl. lia.
  - rewrite app_nil_r. split; [done|]. split; [done|apply skip_balanced].
Qed.

(** The loop, over the candidates seen so far. *)
Lemma consider_all s f cands :
  let out := fold_left (consider s f) cands {| p_Matched := 0; p_Items := []; p_Skipped := ∅ |} in
  p_Matched out = Z.of_nat (length (List.filter (fun c => matches s c f) cands)) /\
  p_Items out = omap (plan_item s f) cands /\ balanced out.
Proof.
  induction cands as [|c cands IH] using rev_ind; [done|]. cbv zeta in *.
  rewrite fold_left_app. cbn [fold_left].
  set (prev := fold_left (consider s f) cands _) in *. destruct IH as (Hm & Hi & Hb).
  destruct (consider_step s f prev c) as (-> & -> & Hb'). rewrite Hm, Hi, List.filter_app, omap_snoc_one, length_app.
  split; [|split; [done|by apply Hb']]. simpl. destruct (matches s c f); simpl; lia.
Qed.

(** A plan accounts for every grant it matched.  Past 10,000 candidates it
    is refused; otherwise its items are, in order, the changed candidates with
    their states before and after - never one kept by a group, and none limited
    to its own records when the change is about places - and what it matched is
    what it changes plus what it skips, reason by reason. *)
Theorem Build_spec s cands f :
  ((MaxGrants < length cands)%nat -> Build s cands f = Err ErrTooMany) /\
  ((length cands <= MaxGrants)%nat -> exists p, Build s cands f = Ok p /\
     p_Items p = omap (plan_item s f) cands /\
     p_Matched p = Z.of_nat (length (List.filter (fun c => matches s c f) cands)) /\
     p_Matched p = (Z.of_nat (length (p_Items p)) + total (p_Skipped p))%Z /\
     forall it, it ∈ p_Items p -> exists c, c ∈ cands /\ c_GrantID c = i_GrantID it /\ c_FromGroup c = false /\
       c_State c = i_Before it /\ apply s (i_Before it) f = Ok (i_After it)).
Proof.
  unfold Build. split; intros Hl.
  - by destruct (Nat.ltb_spec MaxGrants (length cands)); [|lia].
  - destruct (Nat.ltb_spec MaxGrants (length cands)); [lia|]. eexists. split; [done|].
    destruct (consider_all s f cands) as (Hm & Hi & Ht). split; [done|]. split; [done|]. split; [done|].
    intros it Hit. rewrite Hi in Hit. apply list_elem_of_omap in Hit as (c & Hc & Hp). exists c. split; [done|].
    unfold plan_item in Hp. destruct (matches s c f && negb (c_FromGroup c) && _) eqn:Hg; [|done].
    destruct (apply s (c_State c) f) as [after|] eqn:Ha; [|done]. injection Hp as <-. simpl.
    apply andb_true_iff in Hg as [[_ Hg]%andb_true_iff _]. apply negb_true_iff in Hg. done.
Qed.

(** ** A grant of two branches of a company, one department left out *)
Module Sample.

Definition places : list ScopeNode :=
  [ {| sn_ID := "root"; sn_Parent := "" |}; {| sn_ID := "north"; sn_Parent := "root" |};
    {| sn_ID := "south"; sn_Parent := "root" |}; {| sn_ID := "hr"; sn_Parent := "north" |} ]%string.
Definition north : Pin := {| Axis := "org"; NodeID := "north"; Inherit := true; Exclude := false |}.
Definition no_hr : Pin := {| Axis := "org"; NodeID := "hr"; Inherit := true; Exclude := true |}.
Definition before : State := {| Pins := [north; no_hr]; Until := None; Revoked := false |}.
Definition add_south : Spec := {|
  s_RoleID := "r"; s_Covers := []; s_SiblingsOf := ""; s_Kind := AddPlace; s_Axis := "org"; s_NodeID := "south"; s_ToNodeID := "";
  s_Inherit := true; s_Until := None; s_Reason := "" |}.
Definition facts : AxisFacts := {| f_Deny := false; f_RootID := "root"; f_Siblings := []; f_Below := [] |}.
Definition after : State := {| Pins := [north; no_hr; new_pin "org" "south" true]; Until := None; Revoked := false |}.

Lemma before_valid : valid before.
Proof.
  split; [apply (bool_decide_unpack _); vm_compute; exact I|].
  intros p Hp He. exists north. split; [by left|]. apply elem_of_cons in Hp as [->|Hp]; [done|].
  apply list_elem_of_singleton in Hp as ->. done.
Qed.

Lemma parent_in i j x y z : places !! i = Some {| sn_ID := x; sn_Parent := y |} -> places !! j = Some {| sn_ID := y; sn_Parent := z |} ->
  y <> ""%string -> parent_of places x y.
Proof. intros Hi%list_elem_of_lookup_2 Hj%list_elem_of_lookup_2 Hy. eexists _, _. split; [exact Hi|]. split; [exact Hj|]. done. Qed.

Lemma facts_hold : facts_ok places add_south before facts.
Proof.
  split; [intros x Hx; by apply elem_of_nil in Hx|].
  assert (Hn : parent_of places "north"%string "root"%string) by (by apply (parent_in 1 0 _ _ ""%string)).
  intros p Hp _. right. apply elem_of_cons in Hp as [->|Hp]; [by apply tc_once|].
  apply list_elem_of_singleton in Hp as ->. apply (tc_l _ _ "north"%string); [|by apply tc_once].
  by apply (parent_in 3 1 _ _ "root"%string).
Qed.

Lemma apply_reach_witness :
  (forall t, reaches places false before "org" t -> reaches places false after "org" t) /\
  (forall t, reaches places false after "org" t -> ~ inside places t "south" -> reaches places false before "org" t).
Proof.
  destruct (apply_reach places add_south before facts after before_valid facts_hold ltac:(vm_compute; reflexivity)) as (H1 & _ & H2 & _).
  split; [apply H1; by left|by apply H2].
Defined.


End Sample.

End GrantChangeProps.
