(* ===== verification/GrantAdmin.v ===== *)
(** internal/authz: carrying a bulk change out, and undoing it.  The statements
    of adapter/postgres/grant_bulk_repository.go over the grants, their picks
    and the recorded changes, and the handlers of
    app/admin/grant_change_interactor.go.  The rows of [gs_grants] stand in the
    order the candidate query asks for (username, id). *)

From Stdlib Require Import ZArith Lia Bool Ascii String.
From stdpp Require Import base gmap strings list sorting pretty.
From S2P Require Import Prelude.
From S2P Require Import GoStrings.
From S2P Require Import Shared.
From S2P Require Import AuthStore.
From S2P Require Import AdminGuard.
From S2P Require Import GrantChange.

Module GrantAdmin.
Import Apperr GrantChange.

(** ** Rows *)

Record GrantRow := {
  g_ID : string; g_TenantID : string; g_RoleID : string; g_IdentityID : string; g_Username : string;
  g_SelfScoped : bool; g_FromGroup : bool; g_Pins : list Pin; g_ValidUntil : option Time; g_RevokedAt : option Time;
  g_RevokeReason : option string
}.

(** A recorded change with its items; the items keep the grant and its two
    states only. *)
Record ChangeRow := {
  ch_ID : string; ch_TenantID : string; ch_ActorID : string; ch_Kind : string; ch_Reason : string; ch_Spec : Spec;
  ch_Grants : Z; ch_UndoneAt : option Time; ch_UndoneBy : string; ch_Items : list Item
}.

Record GStore := { gs_grants : list GrantRow; gs_changes : list ChangeRow; gs_audit : list AuthStore.AuditEvent }.

Inductive GOp :=
| OpAxisFacts | OpNodeFamily | OpCandidates | OpScopes | OpInsertChange | OpDeleteScopes | OpInsertScopes
| OpUpdateLives | OpInsertItems | OpGetChange | OpChangeItems | OpStates | OpMarkUndone | OpGBegin | OpGCommit.

(** The database during one handler: failures, clock, generated id, and the
    places: (deny, root) of an axis, (axis, siblings, below) of a node. *)
Record GEnv := {
  ge_fails : GOp -> bool;
  ge_now : Time;
  ge_change_id : string;
  ge_axis : string -> string -> option (bool * string);
  ge_family : string -> string -> option (string * list string * list string)
}.

(** database.MapErr on what PostgreSQL raised. *)
Inductive PgError := NoRows | UniqueViolation | Refused | OtherPg.
Definition MapErr (e : PgError) : Error :=
  match e with
  | NoRows => ErrNotFound
  | UniqueViolation => Wrap ErrConflict "23505"
  | Refused => Wrap ErrInvalidArgument "23514"
  | OtherPg => Wrap ErrInternal "database"
  end.

Section Repository.
Context (env : GEnv).

Abbreviation M := (Eff GStore Error).

Definition guarded {A} (op : GOp) (m : M A) : M A :=
  fun s => if ge_fails env op then (Err (MapErr OtherPg), s) else m s.

Definition with_grants (s : GStore) (l : list GrantRow) : GStore :=
  {| gs_grants := l; gs_changes := gs_changes s; gs_audit := gs_audit s |}.
Definition with_changes (s : GStore) (l : list ChangeRow) : GStore :=
  {| gs_grants := gs_grants s; gs_changes := l; gs_audit := gs_audit s |}.

Definition with_g_pins (g : GrantRow) (l : list Pin) : GrantRow :=
  {| g_ID := g_ID g; g_TenantID := g_TenantID g; g_RoleID := g_RoleID g; g_IdentityID := g_IdentityID g;
     g_Username := g_Username g; g_SelfScoped := g_SelfScoped g; g_FromGroup := g_FromGroup g; g_Pins := l;
     g_ValidUntil := g_ValidUntil g; g_RevokedAt := g_RevokedAt g; g_RevokeReason := g_RevokeReason g |}.

Definition with_g_life (g : GrantRow) (until revoked : option Time) (reason : option string) : GrantRow :=
  {| g_ID := g_ID g; g_TenantID := g_TenantID g; g_RoleID := g_RoleID g; g_IdentityID := g_IdentityID g;
     g_Username := g_Username g; g_SelfScoped := g_SelfScoped g; g_FromGroup := g_FromGroup g; g_Pins := g_Pins g;
     g_ValidUntil := until; g_RevokedAt := revoked; g_RevokeReason := reason |}.

(** *** Reads *)

Definition candidate_row (tenantID roleID : string) (g : GrantRow) : bool :=
  bool_decide (g_TenantID g = tenantID) && bool_decide (g_RoleID g = roleID) && bool_decide (g_RevokedAt g = None) &&
  (match g_ValidUntil g with None => true | Some t => time_after t (ge_now env) end).

Definition candidate_of (g : GrantRow) : Candidate :=
  {| c_GrantID := g_ID g; c_IdentityID := g_IdentityID g; c_Username := g_Username g; c_SelfScoped := g_SelfScoped g;
     c_FromGroup := g_FromGroup g; c_State := {| Pins := g_Pins g; Until := g_ValidUntil g; Revoked := false |} |}.

(** The picks are a second query, not sent when there are no grants. *)
Definition ChangeCandidates (tenantID roleID : string) (limit : nat) : M (list Candidate) :=
  guarded OpCandidates (fun s =>
    let rows := take limit (List.filter (candidate_row tenantID roleID) (gs_grants s)) in
    if bool_decide (rows = []) then (Ok [], s)
    else guarded OpScopes (fun s => (Ok (map candidate_of rows), s)) s).

Definition AxisFacts_ (tenantID axis : string) : M (bool * string) :=
  guarded OpAxisFacts (fun s =>
    match ge_axis env tenantID axis with None => (Err ErrNotFound, s) | Some a => (Ok a, s) end).

Definition NodeFamily (tenantID nodeID : string) : M (string * list string * list string) :=
  guarded OpNodeFamily (fun s =>
    match ge_family env tenantID nodeID with None => (Err ErrNotFound, s) | Some a => (Ok a, s) end).

Definition state_of (g : GrantRow) : State :=
  {| Pins := g_Pins g; Until := g_ValidUntil g; Revoked := bool_decide (is_Some (g_RevokedAt g)) |}.

Definition CurrentStates (tenantID : string) (ids : list string) : M (gmap string State) :=
  if bool_decide (ids = []) then mret ∅
  else guarded OpStates (guarded OpScopes (fun s =>
    (Ok (list_to_map (map (fun g => (g_ID g, state_of g))
           (List.filter (fun g => bool_decide (g_TenantID g = tenantID) && contains ids (g_ID g)) (gs_grants s)))), s))).

Definition GrantChange (tenantID id : string) : M (ChangeRow * list Item) :=
  guarded OpGetChange (fun s =>
    match find (fun c => bool_decide (ch_ID c = id) && bool_decide (ch_TenantID c = tenantID)) (gs_changes s) with
    | None => (Err ErrNotFound, s)
    | Some c => guarded OpChangeItems (fun s => (Ok (c, ch_Items c), s)) s
    end).

(** *** Writes *)

(** DELETE FROM grant_scopes of these grants. *)
Definition DeleteScopesOfGrants (tenantID : string) (ids : list string) : M unit :=
  guarded OpDeleteScopes (fun s =>
    (Ok tt, with_grants s (map (fun g => if bool_decide (g_TenantID g = tenantID) && contains ids (g_ID g)
                                         then with_g_pins g [] else g) (gs_grants s)))).

(** The rules of grant_scopes on the picks of one grant: its primary key, and
    the triggers of migrations 0010 and 0046. *)
Definition pin_key (p : Pin) : string * string := (Axis p, NodeID p).
Definition keys_unique (l : list Pin) : bool := bool_decide (NoDup (map pin_key l)).
Definition exclusions_backed (l : list Pin) : bool :=
  forallb (fun p => negb (Exclude p) || existsb (fun q => bool_decide (Axis q = Axis p) && negb (Exclude q)) l) l.

(** INSERT of (grant, pick) rows.  The rows of a grant that is not there break
    its foreign key.  The exclusion guard is deferred to the commit and is
    tested here on the rows it will then see: no statement in between touches
    them.  What it says is the commit's failure, which WithinTx reports as the
    server's own. *)
Definition InsertScopesFromJSON (tenantID : string) (rows : list (string * Pin)) : M unit :=
  guarded OpInsertScopes (fun s =>
    let of_grant id := map snd (List.filter (fun r => bool_decide (fst r = id)) rows) in
    let known id := existsb (fun g => bool_decide (g_ID g = id) && bool_decide (g_TenantID g = tenantID)) (gs_grants s) in
    let grants := map (fun g => if bool_decide (g_TenantID g = tenantID) then with_g_pins g (g_Pins g ++ of_grant (g_ID g))
                                else g) (gs_grants s) in
    let touched g := existsb (fun r => bool_decide (fst r = g_ID g)) rows in
    if negb (forallb (fun r => known (fst r)) rows) then (Err (MapErr Refused), s)
    else if negb (forallb (fun g => negb (touched g) || keys_unique (g_Pins g)) grants) then (Err (MapErr UniqueViolation), s)
    else if negb (forallb (fun g => negb (touched g) || negb (g_SelfScoped g)) grants) then (Err (MapErr Refused), s)
    else if negb (forallb (fun g => negb (touched g) || exclusions_backed (g_Pins g)) grants) then (Err (MapErr OtherPg), s)
    else (Ok tt, with_grants s grants)).

(** [to_timestamp]: the time of a count of seconds. *)
Definition to_timestamp (u : Z) : Time := ((u + 62135596800) * second)%Z.

Record lifeRow := { l_GrantID : string; l_Until : option Z; l_Revoked : bool }.

Definition live_row (reason : string) (l : lifeRow) (g : GrantRow) : GrantRow :=
  with_g_life g (to_timestamp <$> l_Until l)
    (if l_Revoked l then Some (default (ge_now env) (g_RevokedAt g)) else None)
    (if l_Revoked l then match g_RevokeReason g with
                         | Some r => Some r
                         | None => if bool_decide (reason = ""%string) then None else Some reason
                         end
     else None).

Definition UpdateGrantLives (tenantID reason : string) (lives : list lifeRow) : M unit :=
  guarded OpUpdateLives (fun s =>
    (Ok tt, with_grants s (map (fun g =>
       if bool_decide (g_TenantID g = tenantID)
       then match find (fun l => bool_decide (l_GrantID l = g_ID g)) lives with
            | Some l => live_row reason l g
            | None => g
            end
       else g) (gs_grants s)))).

(** Each item's [to] gives the state it is in and the state to write. *)
Definition writeStates (tenantID reason : string) (items : list Item) (to : Item -> State * State) : M unit :=
  let moved := List.filter (fun it => negb (SamePins (fst (to it)) (snd (to it)))) items in
  let rewrite := map i_GrantID moved in
  let pins := flat_map (fun it => map (fun p => (i_GrantID it, p)) (Pins (snd (to it)))) moved in
  let lives := map (fun it => {| l_GrantID := i_GrantID it; l_Until := unix <$> Until (snd (to it));
                                 l_Revoked := Revoked (snd (to it)) |}) items in
  _ ← (if bool_decide (rewrite = []) then mret tt else DeleteScopesOfGrants tenantID rewrite);
  _ ← (if bool_decide (pins = []) then mret tt else InsertScopesFromJSON tenantID pins);
  UpdateGrantLives tenantID reason lives.

Definition stored_item (it : Item) : Item :=
  {| i_GrantID := i_GrantID it; i_IdentityID := ""; i_Username := ""; i_Before := i_Before it; i_After := i_After it |}.

Definition set_items (id : string) (items : list Item) (c : ChangeRow) : ChangeRow :=
  if bool_decide (ch_ID c = id)
  then {| ch_ID := ch_ID c; ch_TenantID := ch_TenantID c; ch_ActorID := ch_ActorID c; ch_Kind := ch_Kind c;
          ch_Reason := ch_Reason c; ch_Spec := ch_Spec c; ch_Grants := ch_Grants c; ch_UndoneAt := ch_UndoneAt c;
          ch_UndoneBy := ch_UndoneBy c; ch_Items := items |}
  else c.

(** Run inside the handler's transaction, which its own WithinTx joins. *)
Definition RecordGrantChange (tenantID actorID : string) (spec : Spec) (items : list Item) : M string :=
  _ ← guarded OpInsertChange (fun s =>
        (Ok tt, with_changes s (gs_changes s ++
           [{| ch_ID := ge_change_id env; ch_TenantID := tenantID; ch_ActorID := actorID; ch_Kind := s_Kind spec;
               ch_Reason := s_Reason spec; ch_Spec := spec; ch_Grants := wrap32 (Z.of_nat (length items));
               ch_UndoneAt := None; ch_UndoneBy := ""; ch_Items := [] |}])));
  _ ← writeStates tenantID (s_Reason spec) items (fun it => (i_Before it, i_After it));
  _ ← guarded OpInsertItems (fun s =>
        (Ok tt, with_changes s (map (set_items (ge_change_id env) (map stored_item items)) (gs_changes s))));
  mret (ge_change_id env).

Definition mark_undone (tenantID id actorID : string) (c : ChangeRow) : ChangeRow :=
  if bool_decide (ch_ID c = id) && bool_decide (ch_TenantID c = tenantID) && bool_decide (ch_UndoneAt c = None)
  then {| ch_ID := ch_ID c; ch_TenantID := ch_TenantID c; ch_ActorID := ch_ActorID c; ch_Kind := ch_Kind c;
          ch_Reason := ch_Reason c; ch_Spec := ch_Spec c; ch_Grants := ch_Grants c; ch_UndoneAt := Some (ge_now env);
          ch_UndoneBy := actorID; ch_Items := ch_Items c |}
  else c.

Definition RestoreGrantChange (tenantID id actorID : string) (items : list Item) : M unit :=
  _ ← writeStates tenantID "" items (fun it => (i_After it, i_Before it));
  guarded OpMarkUndone (fun s => (Ok tt, with_changes s (map (mark_undone tenantID id actorID) (gs_changes s)))).

(** *** db.go: WithinTx *)
Definition GWithinTx {A} (m : M A) : M A :=
  if ge_fails env OpGBegin then raise (MapErr OtherPg)
  else within_tx (if ge_fails env OpGCommit then Some (MapErr OtherPg) else None) m.

End Repository.

(** ** grant_change_interactor.go *)
Section Handlers.
Context (env : GEnv) (guard : AdminGuard.Guard) (caller : option Authctx.Principal) (client_ip : string).

Abbreviation M := (Eff GStore Error).

Definition bad (field why : string) : result Error unit := Err (With ErrInvalidArgument field why).

Definition checkSpec (s : Spec) : result Error unit :=
  if bool_decide (s_RoleID s = ""%string) then bad "role_id" "a change is always about one role"
  else
    _ ← (if bool_decide (s_Kind s = AddPlace) || bool_decide (s_Kind s = RemovePlace) then
           if bool_decide (s_NodeID s = ""%string) then bad "node_id" "which place" else Ok tt
         else if bool_decide (s_Kind s = SwapPlace) then
           if bool_decide (s_NodeID s = ""%string) || bool_decide (s_ToNodeID s = ""%string) ||
              bool_decide (s_NodeID s = s_ToNodeID s)
           then bad "to_node_id" "a swap needs two different places" else Ok tt
         else if bool_decide (s_Kind s = Grow) then Ok tt
         else if bool_decide (s_Kind s = SetUntil) then
           match s_Until s with
           | Some t => if negb (time_after t (ge_now env)) then bad "valid_until" "must be in the future" else Ok tt
           | None => Ok tt
           end
         else if bool_decide (s_Kind s = Revoke) then
           if bool_decide (TrimSpace (s_Reason s) = ""%string) then bad "reason" "say why the access is being taken away"
           else Ok tt
         else bad "kind" "unknown change");
    if (NeedsAxis s || negb (bool_decide (s_Covers s = [])) || negb (bool_decide (s_SiblingsOf s = ""%string))) &&
       bool_decide (s_Axis s = ""%string)
    then bad "axis" "which kind of place" else Ok tt.

(** The loop over the places the spec names. *)
Fixpoint node_facts (tenantID : string) (s : Spec) (names : list string) (f : AxisFacts) : M AxisFacts :=
  match names with
  | [] => mret f
  | n :: rest =>
      if bool_decide (n = ""%string) then node_facts tenantID s rest f
      else
        fam ← attempt (NodeFamily env tenantID n);
        match fam with
        | Err _ => raise (With ErrInvalidArgument "node_id" "not a place of this kind")
        | Ok (axis, siblings, below) =>
            if negb (bool_decide (axis = s_Axis s)) then raise (With ErrInvalidArgument "node_id" "not a place of this kind")
            else
              let f := if bool_decide (n = s_SiblingsOf s)
                       then {| f_Deny := f_Deny f; f_RootID := f_RootID f; f_Siblings := siblings; f_Below := f_Below f |}
                       else f in
              let f := if bool_decide (n = s_NodeID s) && bool_decide (s_Kind s = Grow)
                       then {| f_Deny := f_Deny f; f_RootID := f_RootID f; f_Siblings := f_Siblings f; f_Below := below |}
                       else f in
              node_facts tenantID s rest f
        end
  end.

Definition no_facts : AxisFacts := {| f_Deny := false; f_RootID := ""; f_Siblings := []; f_Below := [] |}.

Definition plan (tenantID : string) (s : Spec) : M Plan :=
  _ ← lift (checkSpec s);
  f ← (if bool_decide (s_Axis s = ""%string) then mret no_facts
       else fam ← attempt (AxisFacts_ env tenantID (s_Axis s));
            match fam with
            | Err _ => raise (With ErrInvalidArgument "axis" "no such kind of place")
            | Ok (deny, root) => mret {| f_Deny := deny; f_RootID := root; f_Siblings := []; f_Below := [] |}
            end);
  f ← node_facts tenantID s [s_NodeID s; s_ToNodeID s; s_SiblingsOf s] f;
  cands ← ChangeCandidates env tenantID (s_RoleID s) (MaxGrants + 1);
  match Build s cands f with
  | Err ErrTooMany => raise (With ErrInvalidArgument "filter" "this change matches more than 10,000 grants; narrow it first")
  | Ok p => mret p
  end.

Definition PreviewGrantChange (s : Spec) : M Plan :=
  p ← lift (AdminGuard.Require guard caller "anubis:grant:admin");
  GWithinTx env (plan (Authctx.TenantID p) s).

Definition emit (p : Authctx.Principal) (action target : string) (detail : gmap string string) : M unit :=
  fun st => (Ok tt, {| gs_grants := gs_grants st; gs_changes := gs_changes st;
    gs_audit := gs_audit st ++ [{| AuthStore.au_TenantID := Authctx.TenantID p; AuthStore.au_ActorID := Authctx.IdentityID p;
      AuthStore.au_ActorKind := "identity"; AuthStore.au_TargetID := target; AuthStore.au_SessionID := Authctx.SessionID p;
      AuthStore.au_Action := action; AuthStore.au_Result := "allow"; AuthStore.au_IP := client_ip;
      AuthStore.au_Detail := detail |}] |}).

Definition count_text (n : nat) : string := pretty (N.of_nat n).

Definition ApplyGrantChange (s : Spec) : M (string * Plan) :=
  p ← lift (AdminGuard.Require guard caller "anubis:grant:admin");
  done ← GWithinTx env (
    pl ← plan (Authctx.TenantID p) s;
    if bool_decide (p_Items pl = []) then raise (With ErrInvalidArgument "change" "nothing to change")
    else id ← RecordGrantChange env (Authctx.TenantID p) (Authctx.IdentityID p) s (p_Items pl);
         mret (id, pl));
  _ ← emit p "grant.change.apply" (fst done)
        (<["kind" := s_Kind s]> (<["role_id" := s_RoleID s]>
         (<["grants" := count_text (length (p_Items (snd done)))]> (<["reason" := s_Reason s]> ∅))));
  mret done.

(** A grant that is gone, or not as the change left it. *)
Definition has_moved (now : gmap string State) (it : Item) : bool :=
  match now !! i_GrantID it with
  | None => true
  | Some cur => negb (Same cur (i_After it))
  end.

Definition UndoGrantChange (changeID reason : string) : M nat :=
  p ← lift (AdminGuard.Require guard caller "anubis:grant:admin");
  n ← GWithinTx env (
    rec ← GrantChange env (Authctx.TenantID p) changeID;
    let '(ch, items) := rec in
    if bool_decide (is_Some (ch_UndoneAt ch)) then raise (With ErrConflict "change" "already undone")
    else
      now ← CurrentStates env (Authctx.TenantID p) (map i_GrantID items);
      let moved := length (List.filter (has_moved now) items) in
      if (0 <? moved)%nat
      then raise (With ErrConflict "change" (count_text moved ++ " of these grants changed since; undo those changes first")%string)
      else _ ← RestoreGrantChange env (Authctx.TenantID p) changeID (Authctx.IdentityID p) items;
           mret (length items));
  _ ← emit p "grant.change.undo" changeID (<["grants" := count_text n]> (<["reason" := reason]> ∅));
  mret n.

End Handlers.
End GrantAdmin.
