(* ===== verification/GrantAdminProps.v ===== *)
(** internal/authz: bulk changes end to end.  What carrying out a plan does to
    the grants, that undoing it gives every grant its state back, and that
    neither works by halves. *)

From Stdlib Require Import ZArith Lia Bool Ascii String.
From stdpp Require Import base gmap strings list sorting fin_maps.
From S2P Require Import Prelude.
From S2P Require Import Shared.
From S2P Require Import AuthStore.
From S2P Require Import AdminGuard.
From S2P Require Import GrantChange.
From S2P Require Import GrantChangeProps.
From S2P Require Import GrantAdmin.

Module GrantAdminProps.
Import Apperr GrantChange GrantAdmin.

(** ** States that are the same *)

Lemma Same_iff a b :
  Same a b = true <-> Revoked a = Revoked b /\ unix <$> Until a = unix <$> Until b /\ SamePins a b = true.
Proof.
  unfold Same. destruct (eqb_spec (Revoked a) (Revoked b)) as [->|Hr]; simpl; [|split; [done|by intros []]].
  destruct (Until a) as [u|], (Until b) as [v|]; simpl; try (split; [by intros|by intros (_ & ? & _)]).
  - destruct (Z.eqb_spec (unix u) (unix v)) as [->|Hne]; simpl; [split; [done|by intros (_ & _ & ?)]|].
    split; [done|]. intros (_ & [= ?] & _). done.
  - split; [done|by intros (_ & _ & ?)].
Qed.

Definition same (a b : State) : Prop := Same a b = true.

#[export] Instance same_equivalence : Equivalence same.
Proof.
  unfold same. split.
  - intros a. apply Same_iff. unfold SamePins. by rewrite bool_decide_eq_true.
  - intros a b. rewrite !Same_iff. unfold SamePins. rewrite !bool_decide_eq_true. naive_solver.
  - intros a b c. rewrite !Same_iff. unfold SamePins. rewrite !bool_decide_eq_true. intros (-> & -> & ->). done.
Qed.

Lemma unix_to_timestamp u : unix (to_timestamp u) = u.
Proof. unfold unix, to_timestamp. rewrite Z.div_mul by done. lia. Qed.

Lemma contains_true l x : contains l x = true <-> x ∈ l.
Proof.
  unfold contains. rewrite existsb_spec. split; [intros (y & Hy & Hb); by unbool; subst|].
  intros H. exists x. by rewrite bool_decide_eq_true.
Qed.

(** ** One grant *)

Section Written.
Context (env : GEnv) (tenantID reason : string) (items : list Item) (to : Item -> State * State).

Definition item_for (id : string) : option Item := find (fun it => bool_decide (i_GrantID it = id)) items.

Definition changes_pins (it : Item) : bool := negb (SamePins (fst (to it)) (snd (to it))).

(** The row of one grant after [writeStates]. *)
Definition written (g : GrantRow) : GrantRow :=
  if bool_decide (g_TenantID g = tenantID) then
    match item_for (g_ID g) with
    | None => g
    | Some it =>
        live_row env reason {| l_GrantID := i_GrantID it; l_Until := unix <$> Until (snd (to it)); l_Revoked := Revoked (snd (to it)) |}
          (if changes_pins it then with_g_pins g (Pins (snd (to it))) else g)
    end
  else g.

(** A row that is in the state the item starts from ends in the state it
    ends in. *)
Lemma written_state g it :
  g_TenantID g = tenantID -> item_for (g_ID g) = Some it -> SamePins (state_of g) (fst (to it)) = true ->
  same (state_of (written g)) (snd (to it)).
Proof.
  intros Ht Hi Hs. unfold same, written. rewrite bool_decide_eq_true_2, Hi by done. apply Same_iff.
  unfold state_of, live_row. simpl. split; [|split].
  - destruct (Revoked (snd (to it))); [apply bool_decide_eq_true; eauto|apply bool_decide_eq_false; intros [? [=]]].
  - destruct (Until (snd (to it))); simpl; [by rewrite unix_to_timestamp|done].
  - unfold changes_pins, SamePins in *. destruct (bool_decide (sortedPins (fst (to it)) = _)) eqn:E; simpl; [|by apply bool_decide_eq_true].
    unbool. apply bool_decide_eq_true. rewrite <- E, <- Hs. done.
Qed.

Lemma written_key g : g_ID (written g) = g_ID g /\ g_TenantID (written g) = g_TenantID g /\ g_SelfScoped (written g) = g_SelfScoped g.
Proof. unfold written. case_bool_decide; [|done]. destruct (item_for _) as [it|]; [|done]. by destruct (changes_pins it). Qed.

Lemma written_other g : g_TenantID g <> tenantID \/ item_for (g_ID g) = None -> written g = g.
Proof. unfold written. intros [H|H]; [by rewrite bool_decide_eq_false_2|]. rewrite H. by case_bool_decide. Qed.

(** ** The three statements together *)

Definition moved : list Item := List.filter changes_pins items.
Definition scope_rows : list (string * Pin) :=
  flat_map (fun it => map (fun p => (i_GrantID it, p)) (Pins (snd (to it)))) moved.
Definition rows_of (id : string) : list Pin := map snd (List.filter (fun r => bool_decide (fst r = id)) scope_rows).

Lemma filter_ids id l :
  map snd (List.filter (fun r => bool_decide (fst r = id))
            (flat_map (fun it => map (fun p => (i_GrantID it, p)) (Pins (snd (to it)))) l)) =
  flat_map (fun it => Pins (snd (to it))) (List.filter (fun it => bool_decide (i_GrantID it = id)) l).
Proof.
  induction l as [|it l IH]; [done|]. simpl. rewrite List.filter_app, map_app, IH. case_bool_decide as Hid; simpl.
  - f_equal. induction (Pins (snd (to it))) as [|p ps IHp]; [done|]. simpl. rewrite bool_decide_eq_true_2 by done. simpl. by f_equal.
  - induction (Pins (snd (to it))) as [|p ps IHp]; [done|]. simpl. by rewrite bool_decide_eq_false_2.
Qed.

Lemma filter_unique l id : NoDup (map i_GrantID l) ->
  List.filter (fun it => bool_decide (i_GrantID it = id)) l =
  match find (fun it => bool_decide (i_GrantID it = id)) l with Some it => [it] | None => [] end.
Proof.
  induction l as [|it l IH]; [done|]. simpl. intros [Hn Hd]%NoDup_cons. case_bool_decide as Hid; [|by apply IH].
  f_equal. rewrite IH by done. destruct (find _ l) as [x|] eqn:E; [|done].
  apply find_some in E as [Hx%list_elem_of_In Hb]. unbool. destruct Hn. rewrite Hid, <- Hb. apply list_elem_of_fmap. eauto.
Qed.

Lemma find_moved l id : NoDup (map i_GrantID l) ->
  find (fun it => bool_decide (i_GrantID it = id)) (List.filter changes_pins l) =
  match find (fun it => bool_decide (i_GrantID it = id)) l with
  | Some it => if changes_pins it then Some it else None
  | None => None
  end.
Proof.
  induction l as [|it l IH]; [done|]. simpl. intros [Hn Hd]%NoDup_cons.
  destruct (changes_pins it) eqn:Hc; simpl; (case_bool_decide as Hid; [|by apply IH]); [by rewrite Hc|].
  rewrite Hc, IH by done. destruct (find _ l) as [x|] eqn:E; [|done].
  apply find_some in E as [Hx%list_elem_of_In Hb]. unbool. destruct Hn. rewrite Hid, <- Hb. apply list_elem_of_fmap. eauto.
Qed.

Lemma NoDup_moved : NoDup (map i_GrantID items) -> NoDup (map i_GrantID moved).
Proof.
  unfold moved. induction items as [|it l IH]; [done|]. simpl. intros [Hn Hd]%NoDup_cons.
  destruct (changes_pins it); simpl; [|by apply IH]. apply NoDup_cons. split; [|by apply IH].
  intros (x & Hx & Hin)%list_elem_of_fmap. apply Hn, list_elem_of_fmap. exists x. split; [done|].
  apply list_elem_of_In, filter_In in Hin as [Hin _]. by apply list_elem_of_In.
Qed.

Lemma rows_of_spec id : NoDup (map i_GrantID items) ->
  rows_of id = match item_for id with
               | Some it => if changes_pins it then Pins (snd (to it)) else []
               | None => []
               end.
Proof.
  intros Hd. unfold rows_of, scope_rows. rewrite filter_ids, filter_unique by (apply NoDup_moved; done).
  unfold moved. rewrite find_moved by done. fold (item_for id). destruct (item_for id) as [it|]; [|done].
  destruct (changes_pins it); [|done]. apply app_nil_r.
Qed.

Lemma contains_moved id : NoDup (map i_GrantID items) ->
  contains (map i_GrantID moved) id = match item_for id with Some it => changes_pins it | None => false end.
Proof.
  intros Hd. assert (Hf := find_moved items id Hd). fold (item_for id) moved in Hf.
  assert (contains (map i_GrantID moved) id =
    match find (fun it => bool_decide (i_GrantID it = id)) moved with Some _ => true | None => false end) as ->.
  { destruct (find _ moved) as [x|] eqn:E.
    - apply find_some in E as [Hx%list_elem_of_In Hb]. unbool. apply contains_true, list_elem_of_fmap. eauto.
    - apply not_true_iff_false. rewrite contains_true. intros (x & -> & Hx%list_elem_of_In)%list_elem_of_fmap.
      apply (find_none _ _ E) in Hx. by rewrite bool_decide_eq_true_2 in Hx. }
  rewrite Hf. destruct (item_for id) as [it|]; [|done]. by destruct (changes_pins it).
Qed.

End Written.

(** [bool_decide (l = [])] in front of a statement that does nothing on []. *)
Definition cleared (tenantID : string) (ids : list string) (g : GrantRow) : GrantRow :=
  if bool_decide (g_TenantID g = tenantID) && contains ids (g_ID g) then with_g_pins g [] else g.
Definition filled (tenantID : string) (rows : list (string * Pin)) (g : GrantRow) : GrantRow :=
  if bool_decide (g_TenantID g = tenantID)
  then with_g_pins g (g_Pins g ++ map snd (List.filter (fun r => bool_decide (fst r = g_ID g)) rows)) else g.

Definition lived (env : GEnv) (tenantID reason : string) (lives : list lifeRow) (g : GrantRow) : GrantRow :=
  if bool_decide (g_TenantID g = tenantID)
  then match find (fun l => bool_decide (l_GrantID l = g_ID g)) lives with
       | Some l => live_row env reason l g
       | None => g
       end
  else g.

(** What the tables of one grant insist on. *)
Definition row_ok (g : GrantRow) : bool :=
  keys_unique (g_Pins g) && exclusions_backed (g_Pins g) && (negb (g_SelfScoped g) || bool_decide (g_Pins g = [])).

Definition life_of (to : Item -> State * State) (it : Item) : lifeRow :=
  {| l_GrantID := i_GrantID it; l_Until := unix <$> Until (snd (to it)); l_Revoked := Revoked (snd (to it)) |}.

Definition sound (env : GEnv) : Prop := forall op, ge_fails env op = false.

Lemma guarded_ok {A} env op (m : Eff GStore Error A) a s s' :
  guarded env op m s = (Ok a, s') -> m s = (Ok a, s').
Proof. unfold guarded. by destruct (ge_fails env op). Qed.

Lemma guarded_sound {A} env op (m : Eff GStore Error A) s : sound env -> guarded env op m s = m s.
Proof. intros Hs. unfold guarded. by rewrite (Hs op). Qed.

Lemma with_grants_id s : with_grants s (gs_grants s) = s.
Proof. by destruct s. Qed.

Lemma with_g_pins_id g : with_g_pins g (g_Pins g) = g.
Proof. by destruct g. Qed.

(** *** DeleteScopesOfGrants, when there is something to clear *)
Definition clear_step env tenantID ids : Eff GStore Error unit :=
  if bool_decide (ids = []) then mret tt else DeleteScopesOfGrants env tenantID ids.

Lemma cleared_nil tenantID l : map (cleared tenantID []) l = l.
Proof. rewrite <- (map_id l) at 2. apply map_ext. intros g. unfold cleared. by rewrite andb_false_r. Qed.

Lemma clear_ok env tenantID ids s s' :
  clear_step env tenantID ids s = (Ok tt, s') -> s' = with_grants s (map (cleared tenantID ids) (gs_grants s)).
Proof.
  unfold clear_step. case_bool_decide as E.
  - subst ids. rewrite cleared_nil, with_grants_id. by intros [= <-].
  - intros H%guarded_ok. by injection H as <-.
Qed.

Lemma clear_run env tenantID ids s :
  sound env -> clear_step env tenantID ids s = (Ok tt, with_grants s (map (cleared tenantID ids) (gs_grants s))).
Proof.
  intros Hs. unfold clear_step. case_bool_decide as E.
  - subst ids. by rewrite cleared_nil, with_grants_id.
  - unfold DeleteScopesOfGrants. by rewrite guarded_sound.
Qed.

(** *** InsertScopesFromJSON, when there is something to insert *)
Definition fill_step env tenantID rows : Eff GStore Error unit :=
  if bool_decide (rows = []) then mret tt else InsertScopesFromJSON env tenantID rows.

Lemma filled_nil tenantID l : map (filled tenantID []) l = l.
Proof.
  rewrite <- (map_id l) at 2. apply map_ext. intros g. unfold filled. simpl. rewrite app_nil_r, with_g_pins_id.
  by case_bool_decide.
Qed.

Lemma fill_ok env tenantID rows s s' :
  fill_step env tenantID rows s = (Ok tt, s') -> s' = with_grants s (map (filled tenantID rows) (gs_grants s)).
Proof.
  unfold fill_step. case_bool_decide as E.
  - subst rows. rewrite filled_nil, with_grants_id. by intros [= <-].
  - intros H%guarded_ok. cbv zeta in H.
    destruct (negb (forallb _ rows)); [done|]. do 3 (destruct (negb (forallb _ _)); [done|]). by injection H as <-.
Qed.

Lemma fill_run env tenantID rows s :
  sound env ->
  (forall id p, (id, p) ∈ rows -> exists g, g ∈ gs_grants s /\ g_ID g = id /\ g_TenantID g = tenantID) ->
  (forall g, g ∈ gs_grants s -> row_ok (filled tenantID rows g) = true) ->
  (forall g p, g ∈ gs_grants s -> (g_ID g, p) ∈ rows -> g_Pins (filled tenantID rows g) <> []) ->
  fill_step env tenantID rows s = (Ok tt, with_grants s (map (filled tenantID rows) (gs_grants s))).
Proof.
  intros Hs Hknown Hrow Hne. unfold fill_step. case_bool_decide as E.
  { subst rows. by rewrite filled_nil, with_grants_id. }
  unfold InsertScopesFromJSON. rewrite guarded_sound by done. cbv zeta.
  assert (Hall : forall f : GrantRow -> bool, (forall g, g ∈ gs_grants s -> f (filled tenantID rows g) = true) ->
    forallb f (map (filled tenantID rows) (gs_grants s)) = true).
  { intros f Hf. apply forallb_spec. intros x (g & -> & Hg)%list_elem_of_fmap. by apply Hf. }
  fold (filled tenantID rows).
  rewrite (proj2 (forallb_spec _ rows)).
  2: { intros [id p] Hr. destruct (Hknown id p Hr) as (g & Hg & Hid & Ht). apply existsb_spec. exists g.
       split; [done|]. by rewrite !bool_decide_eq_true_2. }
  cbn [negb].
  rewrite (Hall (fun g => negb _ || keys_unique _)).
  2: { intros g Hg. specialize (Hrow g Hg). unfold row_ok in Hrow. unbool. apply orb_true_iff. by right. }
  cbn [negb].
  rewrite (Hall (fun g => negb _ || negb (g_SelfScoped g))).
  1: rewrite (Hall (fun g => negb _ || exclusions_backed _)); [done|].
  1: intros g Hg; specialize (Hrow g Hg); unfold row_ok in Hrow; unbool; apply orb_true_iff; by right.
  intros g Hg. specialize (Hrow g Hg). unfold row_ok in Hrow. unbool.
  destruct (existsb _ rows) eqn:Et; [|done]. simpl.
  apply existsb_spec in Et as ([id p] & Hr & Hb). unbool. simpl in Hb. subst id.
  assert (Hid : g_ID (filled tenantID rows g) = g_ID g) by (unfold filled; by destruct (bool_decide (g_TenantID g = tenantID))).
  rewrite Hid in Hr. specialize (Hne g p Hg Hr).
  match goal with H : _ || _ = true |- _ => apply orb_true_iff in H as [H|H]; [done|] end. unbool. done.
Qed.

(** *** The three, one after the other *)
Lemma grant_unique s g g' :
  NoDup (map g_ID (gs_grants s)) -> g ∈ gs_grants s -> g' ∈ gs_grants s -> g_ID g = g_ID g' -> g = g'.
Proof.
  intros HN [i Hi]%list_elem_of_lookup [j Hj]%list_elem_of_lookup Hid. assert (i = j) as ->; [|congruence].
  apply (NoDup_lookup (map g_ID (gs_grants s)) i j (g_ID g)); [done|..]; rewrite list_lookup_fmap, ?Hi, ?Hj; simpl; congruence.
Qed.

Lemma find_life to items id :
  find (fun l => bool_decide (l_GrantID l = id)) (map (life_of to) items) = life_of to <$> item_for items id.
Proof.
  unfold item_for. induction items as [|it l IH]; [done|]. simpl. by destruct (bool_decide (i_GrantID it = id)).
Qed.

Section Steps.
Context (env : GEnv) (tenantID reason : string) (items : list Item) (to : Item -> State * State).
Context (HN : NoDup (map i_GrantID items)).

Let ids := map i_GrantID (moved items to).
Let rows := scope_rows items to.

Lemma writeStates_steps :
  writeStates env tenantID reason items to =
  (_ ← clear_step env tenantID ids; _ ← fill_step env tenantID rows;
   UpdateGrantLives env tenantID reason (map (life_of to) items)).
Proof. reflexivity. Qed.

Lemma repinned g :
  filled tenantID rows (cleared tenantID ids g) =
  (if bool_decide (g_TenantID g = tenantID) then
     match item_for items (g_ID g) with
     | Some it => if changes_pins to it then with_g_pins g (Pins (snd (to it))) else g
     | None => g
     end
   else g).
Proof.
  unfold filled, cleared. destruct (bool_decide (g_TenantID g = tenantID)) eqn:Ht; simpl; [|by rewrite Ht].
  unfold ids. rewrite contains_moved by done.
  assert (Hr := rows_of_spec items to (g_ID g) HN). unfold rows_of in Hr. fold rows in Hr.
  destruct (item_for items (g_ID g)) as [it|]; [destruct (changes_pins to it)|]; simpl; rewrite Ht; simpl; rewrite Hr; [done|..];
    by rewrite app_nil_r, with_g_pins_id.
Qed.

Lemma lived_written g :
  lived env tenantID reason (map (life_of to) items) (filled tenantID rows (cleared tenantID ids g)) =
  written env tenantID reason items to g.
Proof.
  rewrite repinned. unfold lived, written. destruct (bool_decide (g_TenantID g = tenantID)) eqn:Ht; [|by rewrite Ht].
  destruct (item_for items (g_ID g)) as [it|] eqn:Ei.
  - destruct (changes_pins to it); simpl; by rewrite Ht, find_life, Ei.
  - by rewrite Ht, find_life, Ei.
Qed.

Lemma lived_all l :
  map (lived env tenantID reason (map (life_of to) items)) (map (filled tenantID rows) (map (cleared tenantID ids) l)) =
  map (written env tenantID reason items to) l.
Proof. rewrite !map_map. apply map_ext. apply lived_written. Qed.

(** Whenever the writes go through, every row is [written] and nothing else
    changes. *)
Lemma writeStates_ok s s' :
  writeStates env tenantID reason items to s = (Ok tt, s') ->
  s' = with_grants s (map (written env tenantID reason items to) (gs_grants s)).
Proof.
  rewrite writeStates_steps.
  intros ([] & s1 & ->%clear_ok & ([] & s2 & ->%fill_ok & H%guarded_ok)%bind_ok)%bind_ok.
  injection H as <-. unfold with_grants. simpl. f_equal. apply lived_all.
Qed.

Lemma written_pins g : g_Pins (written env tenantID reason items to g) = g_Pins (filled tenantID rows (cleared tenantID ids g)).
Proof.
  rewrite <- lived_written. unfold lived. destruct (bool_decide _); [|done]. by destruct (find _ _).
Qed.

Lemma cleared_key g : g_ID (cleared tenantID ids g) = g_ID g /\ g_TenantID (cleared tenantID ids g) = g_TenantID g.
Proof. unfold cleared. by destruct (_ && _). Qed.

Lemma filled_self g :
  g_SelfScoped (filled tenantID rows (cleared tenantID ids g)) = g_SelfScoped g.
Proof. rewrite repinned. destruct (bool_decide _); [|done]. destruct (item_for _ _) as [it|]; [|done]. by destruct (changes_pins to it). Qed.

(** With the database answering, they go through if every grant they name is
    there and the rows they leave keep the tables' rules. *)
Lemma writeStates_run s :
  sound env -> NoDup (map g_ID (gs_grants s)) ->
  (forall it, it ∈ items -> exists g, g ∈ gs_grants s /\ g_ID g = i_GrantID it /\ g_TenantID g = tenantID) ->
  (forall g, g ∈ gs_grants s -> row_ok (written env tenantID reason items to g) = true) ->
  writeStates env tenantID reason items to s =
    (Ok tt, with_grants s (map (written env tenantID reason items to) (gs_grants s))).
Proof.
  intros Hs HG Hknown Hrow. rewrite writeStates_steps. unfold mbind at 1, eff_bind at 1. rewrite clear_run by done.
  unfold mbind, eff_bind. rewrite fill_run.
  - unfold UpdateGrantLives. rewrite guarded_sound by done. unfold with_grants. simpl. do 2 f_equal. apply lived_all.
  - done.
  - intros id p Hr. unfold rows, scope_rows in Hr. apply list_elem_of_In, in_flat_map in Hr as (it & Hit & Hp).
    apply in_map_iff in Hp as (q & [= <- _] & _). apply filter_In in Hit as [Hit%list_elem_of_In _].
    destruct (Hknown it Hit) as (g & Hg & Hid & Ht). exists (cleared tenantID ids g). split; [by apply list_elem_of_fmap_2|].
    unfold cleared. by destruct (_ && _).
  - intros g0 (g & -> & Hg)%list_elem_of_fmap. specialize (Hrow g Hg). unfold row_ok in *.
    rewrite written_pins in Hrow. rewrite filled_self.
    by destruct (written_key env tenantID reason items to g) as (_ & _ & <-).
  - intros g0 p (g & -> & Hg)%list_elem_of_fmap Hr E. unfold filled in E.
    assert (Hin : p ∈ map snd (List.filter (fun r => bool_decide (fst r = g_ID (cleared tenantID ids g))) rows)).
    { apply list_elem_of_fmap. exists (g_ID (cleared tenantID ids g), p). split; [done|].
      apply list_elem_of_In, filter_In. split; [by apply list_elem_of_In|]. by apply bool_decide_eq_true. }
    destruct (bool_decide (g_TenantID (cleared tenantID ids g) = tenantID)) eqn:Ht.
    + simpl in E. apply app_eq_nil in E as [_ E]. rewrite E in Hin. by apply elem_of_nil in Hin.
    + unfold rows, scope_rows in Hr. apply list_elem_of_In, in_flat_map in Hr as (it & Hit & Hp).
      apply in_map_iff in Hp as (q & [= Hid _] & _). apply filter_In in Hit as [Hit%list_elem_of_In _].
      destruct (Hknown it Hit) as (g' & Hg' & Hid' & Ht'). destruct (cleared_key g) as [Hk Hkt]. rewrite Hkt in Ht.
      rewrite Hk, <- Hid' in Hid. rewrite (grant_unique s g g' HG Hg Hg') in Ht by congruence. unbool. done.
Qed.

End Steps.

(** ** The handlers' common shape *)

Lemma tx_err {A} env (m : Eff GStore Error A) e s s' : GWithinTx env m s = (Err e, s') -> s' = s.
Proof.
  unfold GWithinTx. destruct (ge_fails env OpGBegin); [by intros [= _ <-]|]. unfold within_tx.
  destruct (m s) as [[a|] s1]; [|by intros [= _ <-]]. destruct (ge_fails env OpGCommit); by intros [= _ <-].
Qed.

Lemma tx_ok {A} env (m : Eff GStore Error A) a s s' :
  GWithinTx env m s = (Ok a, s') -> m s = (Ok a, s') /\ ge_fails env OpGBegin = false /\ ge_fails env OpGCommit = false.
Proof.
  unfold GWithinTx. destruct (ge_fails env OpGBegin) eqn:Eb; [done|]. intros [H Hc]%within_tx_ok.
  by destruct (ge_fails env OpGCommit) eqn:Ec.
Qed.

Lemma tx_run {A} env (m : Eff GStore Error A) a s s' :
  ge_fails env OpGBegin = false -> ge_fails env OpGCommit = false -> m s = (Ok a, s') -> GWithinTx env m s = (Ok a, s').
Proof. intros Hb Hc Hm. unfold GWithinTx, within_tx. by rewrite Hb, Hc, Hm. Qed.

(** Guard, transaction, audit line. *)
Lemma handler_cases {A B} env (r : result Error Authctx.Principal) (m : Authctx.Principal -> Eff GStore Error A)
    (line : Authctx.Principal -> A -> Eff GStore Error unit) (out : A -> B) s res s' :
  (forall p a st, fst (line p a st) = Ok tt) ->
  (p ← lift r; a ← GWithinTx env (m p); _ ← line p a; mret (out a)) s = (res, s') ->
  match res with
  | Err _ => s' = s
  | Ok b => exists p a s1, r = Ok p /\ m p s = (Ok a, s1) /\ ge_fails env OpGBegin = false /\
      ge_fails env OpGCommit = false /\ b = out a /\ s' = snd (line p a s1)
  end.
Proof.
  intros Hline. unfold mbind, eff_bind, lift. destruct r as [p|e]; [|by intros [= <- <-]].
  destruct (GWithinTx env (m p) s) as [[a|e] s1] eqn:Et.
  - apply tx_ok in Et as (Hm & Hb & Hc). specialize (Hline p a s1). destruct (line p a s1) as [[[]|] s2] eqn:El; [|done].
    intros [= <- <-]. exists p, a, s1. by rewrite El.
  - intros [= <- <-]. by apply tx_err in Et.
Qed.

(** ** Planning *)

Definition pure {A} (m : Eff GStore Error A) : Prop := forall s, snd (m s) = s.

Lemma pure_guarded {A} env op (m : Eff GStore Error A) : pure m -> pure (guarded env op m).
Proof. intros Hm s. unfold guarded. destruct (ge_fails env op); [done|apply Hm]. Qed.

Lemma pure_bind {A B} (m : Eff GStore Error A) (f : A -> Eff GStore Error B) : pure m -> (forall a, pure (f a)) -> pure (m ≫= f).
Proof.
  intros Hm Hf s. specialize (Hm s). unfold mbind, eff_bind. destruct (m s) as [[a|] s1]; simpl in *; subst; [apply Hf|done].
Qed.

Lemma pure_attempt {A} (m : Eff GStore Error A) : pure m -> pure (attempt (F := Error) m).
Proof. intros Hm s. specialize (Hm s). unfold attempt. by destruct (m s). Qed.

Lemma pure_lift {A} (r : result Error A) : pure (lift r).
Proof. done. Qed.

Lemma pure_NodeFamily env t n : pure (NodeFamily env t n).
Proof. apply pure_guarded. intros s. by destruct (ge_family env t n). Qed.

Lemma pure_AxisFacts env t ax : pure (AxisFacts_ env t ax).
Proof. apply pure_guarded. intros s. by destruct (ge_axis env t ax). Qed.

Lemma pure_node_facts env t sp names f : pure (node_facts env t sp names f).
Proof.
  revert f. induction names as [|n names IH]; intros f; simpl; [done|]. destruct (bool_decide (n = ""%string)); [apply IH|].
  apply pure_bind; [apply pure_attempt, pure_NodeFamily|]. intros [[[axis siblings] below]|]; [|done].
  destruct (negb _); [done|apply IH].
Qed.

Lemma pure_ChangeCandidates env t role n : pure (ChangeCandidates env t role n).
Proof. apply pure_guarded. intros s. cbv zeta. destruct (bool_decide _); [done|]. by apply pure_guarded. Qed.

(** The candidates are the first grants of the role that still stand. *)
Lemma ChangeCandidates_ok env t role n cands s s' :
  ChangeCandidates env t role n s = (Ok cands, s') ->
  cands = map candidate_of (take n (List.filter (candidate_row env t role) (gs_grants s))).
Proof.
  intros H%guarded_ok. cbv zeta in H. case_bool_decide as E; [rewrite E; by injection H as <-|].
  apply guarded_ok in H. by injection H as <-.
Qed.

Lemma plan_pure env t sp : pure (plan env t sp).
Proof.
  unfold plan. apply pure_bind; [apply pure_lift|]. intros _. apply pure_bind.
  { destruct (bool_decide _); [done|]. apply pure_bind; [apply pure_attempt, pure_AxisFacts|]. by intros [[]|]. }
  intros f. apply pure_bind; [apply pure_node_facts|]. intros f'. apply pure_bind; [apply pure_ChangeCandidates|].
  intros cands. by destruct (Build sp cands f') as [|[]].
Qed.

(** What a plan comes from. *)
Lemma plan_ok env t sp p s s' :
  plan env t sp s = (Ok p, s') ->
  s' = s /\ exists f, Build sp (map candidate_of (take (MaxGrants + 1) (List.filter (candidate_row env t (s_RoleID sp)) (gs_grants s)))) f = Ok p.
Proof.
  intros H. assert (Hp := plan_pure env t sp s). rewrite H in Hp. simpl in Hp. subst s'. split; [done|].
  unfold plan in H. apply bind_ok in H as ([] & s1 & H1 & H). injection H1 as _ <-.
  apply bind_ok in H as (f & s1 & H1 & H).
  assert (s1 = s) as ->.
  { destruct (bool_decide _); [by injection H1 as _ <-|]. rewrite attempt_bind in H1.
    assert (Hx := pure_AxisFacts env t (s_Axis sp) s). destruct (AxisFacts_ env t (s_Axis sp) s) as [[[]|] s2]; simpl in *; [|done].
    injection H1 as _ <-. done. }
  apply bind_ok in H as (f' & s1 & H2 & H).
  assert (Hx := pure_node_facts env t sp [s_NodeID sp; s_ToNodeID sp; s_SiblingsOf sp] f s). rewrite H2 in Hx. simpl in Hx. subst s1.
  apply bind_ok in H as (cands & s1 & H3 & H).
  assert (Hc := ChangeCandidates_ok _ _ _ _ _ _ _ H3). exists f'. rewrite <- Hc.
  destruct (Build sp cands f') as [p'|[]]; [|done]. by injection H as <- _.
Qed.

(** ** The items of a plan *)

Lemma plan_item_some sp f c it :
  GrantChangeProps.plan_item sp f c = Some it -> i_GrantID it = c_GrantID c /\ i_Before it = c_State c.
Proof.
  unfold GrantChangeProps.plan_item. destruct (_ && _); [|done]. destruct (apply sp (c_State c) f); [|done]. by intros [= <-].
Qed.

Lemma Build_items sp cands f p : Build sp cands f = Ok p -> p_Items p = omap (GrantChangeProps.plan_item sp f) cands.
Proof.
  unfold Build. destruct (_ <? _)%nat; [done|]. intros [= <-]. apply (GrantChangeProps.consider_all sp f cands).
Qed.

Lemma omap_ids sp f cands :
  NoDup (map c_GrantID cands) -> NoDup (map i_GrantID (omap (GrantChangeProps.plan_item sp f) cands)).
Proof.
  induction cands as [|c cands IH]; [done|]. simpl. intros [Hn Hd]%NoDup_cons.
  destruct (GrantChangeProps.plan_item sp f c) as [it|] eqn:E; [|by apply IH]. simpl. apply NoDup_cons. split; [|by apply IH].
  apply plan_item_some in E as [-> _]. intros (it' & Hid & Hin)%list_elem_of_fmap.
  apply list_elem_of_omap in Hin as (c' & Hc' & [Hid' _]%plan_item_some). apply Hn, list_elem_of_fmap. exists c'. split; [congruence|done].
Qed.

Lemma sublist_candidates n f l : map g_ID (take n (List.filter f l)) `sublist_of` map g_ID l.
Proof.
  change (map g_ID) with (fmap (M := list) g_ID). apply fmap_sublist. etrans; [apply sublist_take|].
  clear n. induction l as [|g l IH]; [constructor|]. simpl. destruct (f g); by constructor.
Qed.

Lemma candidate_of_ids l : map c_GrantID (map candidate_of l) = map g_ID l.
Proof. rewrite map_map. by apply map_ext. Qed.

(** Each item is about one grant that stands, in the state it is in. *)
Lemma plan_items env t sp p s s' :
  NoDup (map g_ID (gs_grants s)) -> plan env t sp s = (Ok p, s') ->
  NoDup (map i_GrantID (p_Items p)) /\
  forall it, it ∈ p_Items p -> exists g, g ∈ gs_grants s /\ g_ID g = i_GrantID it /\ g_TenantID g = t /\
    g_RevokedAt g = None /\ i_Before it = state_of g.
Proof.
  intros HN (-> & f & Hi%Build_items)%plan_ok. rewrite Hi. split.
  - apply omap_ids. rewrite candidate_of_ids. eapply sublist_NoDup; [exact HN|apply sublist_candidates].
  - intros it (c & Hc & [Hid Hst]%plan_item_some)%list_elem_of_omap. apply list_elem_of_fmap in Hc as (g & -> & Hg).
    assert (Hin : g ∈ List.filter (candidate_row env t (s_RoleID sp)) (gs_grants s)).
    { eapply elem_of_sublist; [exact Hg|apply sublist_take]. }
    clear Hg. apply list_elem_of_In, filter_In in Hin as [Hg%list_elem_of_In Hf]. exists g. unfold candidate_row in Hf. unbool.
    split; [done|]. split; [done|]. split; [done|]. split; [done|]. rewrite Hst. unfold candidate_of, state_of. simpl.
    match goal with H : g_RevokedAt g = None |- _ => rewrite H end. by rewrite bool_decide_eq_false_2 by (by intros [? ?]).
Qed.

Lemma item_for_in items id it : item_for items id = Some it -> it ∈ items /\ i_GrantID it = id.
Proof. unfold item_for. intros [H%list_elem_of_In Hb]%find_some. by unbool. Qed.

Lemma in_item_for items it : NoDup (map i_GrantID items) -> it ∈ items -> item_for items (i_GrantID it) = Some it.
Proof.
  unfold item_for. induction items as [|x items IH]; [by intros _ ?%elem_of_nil|]. simpl.
  intros [Hn Hd]%NoDup_cons [->|Hin]%elem_of_cons; [by rewrite bool_decide_eq_true_2|].
  rewrite bool_decide_eq_false_2; [by apply IH|]. intros E. apply Hn, list_elem_of_fmap. eauto.
Qed.

(** The item about a grant, within a tenant. *)
Definition about (t : string) (items : list Item) (g : GrantRow) : option Item :=
  if bool_decide (g_TenantID g = t) then item_for items (g_ID g) else None.

(** Rows before and after a change that takes its items from one state to
    another: same grant, the new state, or the very same row. *)
Definition moved_row (t : string) (items : list Item) (from to : Item -> State) (g g' : GrantRow) : Prop :=
  match about t items g with
  | None => g' = g
  | Some it => same (state_of g) (from it) /\ same (state_of g') (to it) /\
      g_ID g' = g_ID g /\ g_TenantID g' = g_TenantID g /\ g_RoleID g' = g_RoleID g /\ g_IdentityID g' = g_IdentityID g /\
      g_SelfScoped g' = g_SelfScoped g
  end.

Lemma written_moved env t reason items to g :
  (forall it, about t items g = Some it -> same (state_of g) (fst (to it))) ->
  moved_row t items (fun it => fst (to it)) (fun it => snd (to it)) g (written env t reason items to g).
Proof.
  unfold moved_row, about. intros Hs. case_bool_decide as Ht; [|apply written_other; by left].
  destruct (item_for items (g_ID g)) as [it|] eqn:Ei; [|apply written_other; by right].
  specialize (Hs it eq_refl). split; [done|]. split; [apply written_state; [done..|by apply Same_iff in Hs as (_ & _ & ?)]|].
  unfold written. rewrite bool_decide_eq_true_2, Ei by done. by destruct (changes_pins to it).
Qed.

(** ** Applying *)

Lemma RecordGrantChange_ok env t actor sp items id s s' :
  NoDup (map i_GrantID items) -> RecordGrantChange env t actor sp items s = (Ok id, s') ->
  id = ge_change_id env /\
  gs_grants s' = map (written env t (s_Reason sp) items (fun it => (i_Before it, i_After it))) (gs_grants s) /\
  gs_audit s' = gs_audit s /\
  gs_changes s' = map (set_items id (map stored_item items)) (gs_changes s ++
     [{| ch_ID := id; ch_TenantID := t; ch_ActorID := actor; ch_Kind := s_Kind sp; ch_Reason := s_Reason sp; ch_Spec := sp;
         ch_Grants := wrap32 (Z.of_nat (length items)); ch_UndoneAt := None; ch_UndoneBy := ""; ch_Items := [] |}]).
Proof.
  intros HN. unfold RecordGrantChange.
  intros ([] & s1 & H1%guarded_ok & ([] & s2 & H2%(writeStates_ok env t (s_Reason sp) items _ HN) &
    ([] & s3 & H3%guarded_ok & H4)%bind_ok)%bind_ok)%bind_ok.
  injection H1 as <-. injection H3 as <-. injection H4 as <- <-. subst s2. done.
Qed.

(** Applying a bulk change either leaves the database alone or carries out
    exactly the plan a preview of it shows.  Then every grant of the plan goes
    from the state it was in to the state the plan says, every other grant keeps
    its row, and one line is added to the audit trail. *)
Theorem apply_as_previewed env guard caller ip sp s r s' :
  NoDup (map g_ID (gs_grants s)) ->
  ApplyGrantChange env guard caller ip sp s = (r, s') ->
  match r with
  | Err _ => s' = s
  | Ok (id, pl) =>
      PreviewGrantChange env guard caller sp s = (Ok pl, s) /\ p_Items pl <> [] /\
      (exists ev, gs_audit s' = gs_audit s ++ [ev]) /\
      exists p, AdminGuard.Require guard caller "anubis:grant:admin" = Ok p /\
        Forall2 (moved_row (Authctx.TenantID p) (p_Items pl) i_Before i_After) (gs_grants s) (gs_grants s') /\
        forall it, it ∈ p_Items pl -> exists g, g ∈ gs_grants s /\ about (Authctx.TenantID p) (p_Items pl) g = Some it
  end.
Proof.
  intros HN H. apply (handler_cases env _ _ _ (fun d => d)) in H; [|done].
  destruct r as [[id pl]|e]; [|done]. destruct H as (p & d & s1 & Hg & Hm & Hb & Hc & <- & ->).
  apply bind_ok in Hm as (pl' & s0 & Hp & Hm). destruct (plan_ok _ _ _ _ _ _ Hp) as [-> _].
  destruct (plan_items _ _ _ _ _ _ HN Hp) as [Hd Hit]. case_bool_decide as Hne; [done|].
  apply bind_ok in Hm as (id' & s2 & (-> & Hgr & Ha & _)%RecordGrantChange_ok & Hm); [|done]. injection Hm as <- <- <-.
  split; [|split; [done|split; [by eexists; rewrite <- Ha|]]].
  { unfold PreviewGrantChange, mbind, eff_bind, lift. rewrite Hg. by apply tx_run. }
  exists p. split; [done|]. split.
  - simpl. rewrite Hgr. apply Forall2_map_r. intros g Hgin. apply (written_moved _ _ _ _ (fun it => (i_Before it, i_After it))).
    unfold about. case_bool_decide as Ht; [|done]. intros it (Hin & Hid)%item_for_in. simpl.
    destruct (Hit it Hin) as (g' & Hg' & Hid' & _ & _ & ->). rewrite (grant_unique s g g' HN Hgin Hg'); [done|congruence].
  - intros it Hin. destruct (Hit it Hin) as (g & Hgin & Hid & Ht & _). exists g. split; [done|].
    unfold about. rewrite bool_decide_eq_true_2, Hid by done. by apply in_item_for.
Qed.

(** ** Undoing *)

Definition states_of (t : string) (ids : list string) (l : list GrantRow) : gmap string State :=
  list_to_map (map (fun g => (g_ID g, state_of g)) (List.filter (fun g => bool_decide (g_TenantID g = t) && contains ids (g_ID g)) l)).

Lemma states_of_some t ids l id st :
  states_of t ids l !! id = Some st -> exists g, g ∈ l /\ g_ID g = id /\ g_TenantID g = t /\ state_of g = st.
Proof.
  intros Hl%elem_of_list_to_map_2. apply list_elem_of_fmap in Hl as (g & [= -> ->] & Hg).
  apply list_elem_of_In, filter_In in Hg as [Hg%list_elem_of_In Hf]. unbool. eauto.
Qed.

Lemma states_of_lookup t ids l g :
  NoDup (map g_ID l) -> g ∈ l -> g_TenantID g = t -> g_ID g ∈ ids -> states_of t ids l !! g_ID g = Some (state_of g).
Proof.
  intros HN Hg Ht Hid. apply elem_of_list_to_map_1.
  - rewrite <- list_fmap_compose. eapply sublist_NoDup; [exact HN|]. apply fmap_sublist. clear.
    induction l as [|g l IH]; [constructor|]. simpl. destruct (_ && _); by constructor.
  - apply list_elem_of_fmap. exists g. split; [done|]. apply list_elem_of_In, filter_In. split; [by apply list_elem_of_In|].
    apply andb_true_iff. rewrite bool_decide_eq_true. by rewrite contains_true.
Qed.

Lemma CurrentStates_ok env t ids now s s' : CurrentStates env t ids s = (Ok now, s') -> s' = s /\ (ids = [] \/ now = states_of t ids (gs_grants s)).
Proof.
  unfold CurrentStates. case_bool_decide as E; [intros [= <- <-]; auto|].
  intros H%guarded_ok%guarded_ok. injection H as <- <-. auto.
Qed.

Definition named (t id : string) (c : ChangeRow) : bool := bool_decide (ch_ID c = id) && bool_decide (ch_TenantID c = t).

Lemma GrantChange_ok env t id c items s s' :
  GrantAdmin.GrantChange env t id s = (Ok (c, items), s') -> s' = s /\ find (named t id) (gs_changes s) = Some c /\ items = ch_Items c.
Proof.
  unfold GrantAdmin.GrantChange. intros H%guarded_ok. fold (named t id) in H.
  destruct (find (named t id) (gs_changes s)) as [c'|]; [|done]. apply guarded_ok in H. by injection H as <- <- <-.
Qed.

Lemma count_zero {A} (f : A -> bool) l : (0 <? length (List.filter f l))%nat = false -> forall x, x ∈ l -> f x = false.
Proof.
  intros Hl x Hx. apply Nat.ltb_ge in Hl. destruct (f x) eqn:E; [|done].
  assert (In x (List.filter f l)) as Hin by (apply filter_In; split; [by apply list_elem_of_In|done]).
  destruct (List.filter f l); [done|simpl in Hl; lia].
Qed.

(** What an undo that goes through has checked and written. *)
Lemma undo_ok env guard caller ip id reason s n s' :
  (forall c, c ∈ gs_changes s -> NoDup (map i_GrantID (ch_Items c))) ->
  UndoGrantChange env guard caller ip id reason s = (Ok n, s') ->
  exists p c ev, AdminGuard.Require guard caller "anubis:grant:admin" = Ok p /\
    find (named (Authctx.TenantID p) id) (gs_changes s) = Some c /\ ch_UndoneAt c = None /\ n = length (ch_Items c) /\
    (forall it, it ∈ ch_Items c -> exists g, g ∈ gs_grants s /\ g_ID g = i_GrantID it /\ g_TenantID g = Authctx.TenantID p /\
       same (state_of g) (i_After it)) /\
    gs_grants s' = map (written env (Authctx.TenantID p) "" (ch_Items c) (fun it => (i_After it, i_Before it))) (gs_grants s) /\
    gs_changes s' = map (mark_undone env (Authctx.TenantID p) id (Authctx.IdentityID p)) (gs_changes s) /\
    gs_audit s' = gs_audit s ++ [ev].
Proof.
  intros HC H. apply (handler_cases env _ _ _ (fun n => n)) in H; [|done].
  destruct H as (p & n' & s1 & Hg & Hm & _ & _ & -> & ->).
  apply bind_ok in Hm as ([c items] & s0 & (-> & Hf & ->)%GrantChange_ok & Hm).
  case_bool_decide as Hu; [done|]. apply bind_ok in Hm as (now & s0 & (-> & Hnow)%CurrentStates_ok & Hm). cbv zeta in Hm.
  destruct (0 <? _)%nat eqn:Hmv; [done|]. apply bind_ok in Hm as ([] & s2 & Hw & Hm). injection Hm as <- <-.
  assert (Hc : c ∈ gs_changes s) by (apply find_some in Hf as [? _]; by apply list_elem_of_In).
  apply bind_ok in Hw as ([] & s3 & ->%writeStates_ok & Hmk%guarded_ok); [|by apply HC]. injection Hmk as <-.
  exists p, c. eexists. split; [done|]. split; [done|]. split.
  { destruct (ch_UndoneAt c); [|done]. destruct Hu; eauto. }
  split; [done|]. split; [|done].
  intros it Hin. assert (Hit := count_zero _ _ Hmv it Hin). unfold has_moved in Hit.
  destruct Hnow as [E| ->]; [apply (map_eq_nil i_GrantID) in E; rewrite E in Hin; by apply elem_of_nil in Hin|].
  destruct (states_of _ _ _ !! i_GrantID it) as [cur|] eqn:El; [|done]. apply negb_false_iff in Hit.
  apply states_of_some in El as (g & Hgin & Hid & Ht & <-). eauto.
Qed.

Lemma find_map {A} (f : A -> bool) (h : A -> A) l : (forall x, f (h x) = f x) -> find f (map h l) = h <$> find f l.
Proof. intros Hf. induction l as [|x l IH]; [done|]. simpl. rewrite Hf. by destruct (f x). Qed.

Lemma find_marked env t id actor l : find (named t id) (map (mark_undone env t id actor) l) = mark_undone env t id actor <$> find (named t id) l.
Proof. apply find_map. intros c. unfold mark_undone. by destruct (_ && _). Qed.

Definition already_undone : Error := With ErrConflict "change" "already undone".

(** A change that carries its undo stamp is not undone again. *)
Lemma undo_twice env guard caller ip id reason s p c :
  sound env -> AdminGuard.Require guard caller "anubis:grant:admin" = Ok p ->
  find (named (Authctx.TenantID p) id) (gs_changes s) = Some c -> ch_UndoneAt c <> None ->
  UndoGrantChange env guard caller ip id reason s = (Err already_undone, s).
Proof.
  intros Hs Hg Hf Hu. unfold UndoGrantChange, mbind, eff_bind, lift. rewrite Hg.
  unfold GWithinTx. rewrite (Hs OpGBegin). unfold within_tx.
  unfold GrantAdmin.GrantChange. rewrite guarded_sound by done. fold (named (Authctx.TenantID p) id). rewrite Hf.
  rewrite guarded_sound by done. rewrite bool_decide_eq_true_2; [done|]. destruct (ch_UndoneAt c); [eauto|done].
Qed.

Lemma mark_undone_stamps env t id actor c : named t id c = true -> ch_UndoneAt (mark_undone env t id actor c) <> None.
Proof.
  unfold named, mark_undone. intros ->. simpl. destruct (bool_decide (ch_UndoneAt c = None)) eqn:E; [done|]. by unbool.
Qed.

(** Undoing a change either leaves the database alone or undoes all of it.
    It goes through only for a change of the caller's own tenant that was not
    undone before and whose grants are each still in the state it left them in;
    then every one of them gets back the state it was found in, every other
    grant keeps its row, one line joins the audit trail, and the change cannot
    be undone a second time. *)
Theorem undo_all_or_nothing env guard caller ip id reason s r s' :
  (forall c, c ∈ gs_changes s -> NoDup (map i_GrantID (ch_Items c))) -> NoDup (map g_ID (gs_grants s)) ->
  UndoGrantChange env guard caller ip id reason s = (r, s') ->
  match r with
  | Err _ => s' = s
  | Ok n => exists p c, AdminGuard.Require guard caller "anubis:grant:admin" = Ok p /\
      find (named (Authctx.TenantID p) id) (gs_changes s) = Some c /\ ch_UndoneAt c = None /\ n = length (ch_Items c) /\
      Forall2 (moved_row (Authctx.TenantID p) (ch_Items c) i_After i_Before) (gs_grants s) (gs_grants s') /\
      (forall it, it ∈ ch_Items c -> exists g, g ∈ gs_grants s /\ about (Authctx.TenantID p) (ch_Items c) g = Some it) /\
      (exists ev, gs_audit s' = gs_audit s ++ [ev]) /\
      (forall env' ip' reason', sound env' ->
         UndoGrantChange env' guard caller ip' id reason' s' = (Err already_undone, s'))
  end.
Proof.
  intros HC HN H. destruct r as [n|e].
  2: { by apply (handler_cases env _ _ _ (fun n => n)) in H. }
  destruct (undo_ok _ _ _ _ _ _ _ _ _ HC H) as (p & c & ev & Hg & Hf & Hu & Hn & Hit & Hgr & Hch & Ha).
  assert (Hc : c ∈ gs_changes s) by (apply find_some in Hf as [? _]; by apply list_elem_of_In).
  exists p, c. do 4 (split; [done|]). split; [|split; [|split; [by exists ev|]]].
  - rewrite Hgr. apply Forall2_map_r. intros g Hgin. apply (written_moved _ _ _ _ (fun it => (i_After it, i_Before it))).
    unfold about. case_bool_decide as Ht; [|done]. intros it (Hin & Hid)%item_for_in. simpl.
    destruct (Hit it Hin) as (g' & Hg' & Hid' & _ & Hst). rewrite (grant_unique s g g' HN Hgin Hg'); [done|congruence].
  - intros it Hin. destruct (Hit it Hin) as (g & Hgin & Hid & Ht & _). exists g. split; [done|].
    unfold about. rewrite bool_decide_eq_true_2, Hid by done. apply in_item_for; [by apply HC|done].
  - intros env' ip' reason' Hs. eapply undo_twice; [done..| |].
    + by rewrite Hch, find_marked, Hf.
    + apply mark_undone_stamps. by apply find_some in Hf as [_ ?].
Qed.

(** ** There and back *)

Lemma item_for_stored items id : item_for (map stored_item items) id = stored_item <$> item_for items id.
Proof. unfold item_for. apply (find_map (fun it => bool_decide (i_GrantID it = id)) stored_item). done. Qed.

Lemma stored_ids items : map i_GrantID (map stored_item items) = map i_GrantID items.
Proof. rewrite map_map. by apply map_ext. Qed.

Lemma find_new t id items c l :
  (forall x, x ∈ l -> ch_ID x <> id) -> named t id c = true ->
  find (named t id) (map (set_items id items) (l ++ [c])) = Some (set_items id items c).
Proof.
  intros Hl Hc. induction l as [|x l IH]; simpl.
  - assert (Hn : named t id (set_items id items c) = true) by (unfold set_items; by case_bool_decide). by rewrite Hn.
  - assert (Hx : ch_ID x <> id) by (apply Hl; by left). 
    assert (Hs : set_items id items x = x) by (unfold set_items; by rewrite bool_decide_eq_false_2).
    assert (Hn : named t id x = false) by (unfold named; by rewrite bool_decide_eq_false_2). rewrite Hs, Hn. apply IH. intros y Hy. apply Hl. by right.
Qed.

(** The invariant of the grants table. *)
Record grants_ok (l : list GrantRow) : Prop := {
  grants_ids : NoDup (map g_ID l);
  grants_rows g : g ∈ l -> row_ok g = true
}.

Lemma same_pins_sym a b : SamePins a b = SamePins b a.
Proof. unfold SamePins. apply bool_decide_ext. done. Qed.

Section ThereAndBack.
Context (env env' : GEnv) (t reason : string) (items : list Item) (s : GStore).
Context (HG : grants_ok (gs_grants s)) (HN : NoDup (map i_GrantID items)).
Context (Hit : forall it, it ∈ items -> exists g, g ∈ gs_grants s /\ g_ID g = i_GrantID it /\ g_TenantID g = t /\
  g_RevokedAt g = None /\ i_Before it = state_of g).

Let there := written env t reason items (fun it => (i_Before it, i_After it)).
Let back := written env' t "" (map stored_item items) (fun it => (i_After it, i_Before it)).

Lemma item_state g it : g ∈ gs_grants s -> item_for items (g_ID g) = Some it -> i_Before it = state_of g.
Proof.
  intros Hg [Hin Hid]%item_for_in. destruct (Hit it Hin) as (g' & Hg' & Hid' & _ & _ & ->).
  f_equal. eapply grant_unique; [apply HG|done..|congruence].
Qed.

Lemma there_state g it : g ∈ gs_grants s -> g_TenantID g = t -> item_for items (g_ID g) = Some it ->
  same (state_of (there g)) (i_After it).
Proof.
  intros Hg Ht Hi. apply (written_state env t reason items (fun it => (i_Before it, i_After it))); [done..|]. simpl.
  rewrite (item_state g it) by done. unfold SamePins. by apply bool_decide_eq_true.
Qed.

(** The picks come back exactly. *)
Lemma back_pins g : g ∈ gs_grants s -> g_Pins (back (there g)) = g_Pins g /\ g_SelfScoped (back (there g)) = g_SelfScoped g.
Proof.
  intros Hg. destruct (written_key env t reason items (fun it => (i_Before it, i_After it)) g) as (Hk & Hkt & Hks). fold there in Hk, Hkt, Hks.
  split; [|unfold back; by destruct (written_key env' t "" (map stored_item items) (fun it => (i_After it, i_Before it)) (there g)) as (_ & _ & ->)].
  unfold back, written. rewrite Hkt, Hk. destruct (bool_decide (g_TenantID g = t)) eqn:Ht.
  2: { unfold there. rewrite written_other; [done|left; by apply bool_decide_eq_false in Ht]. }
  rewrite item_for_stored. destruct (item_for items (g_ID g)) as [it|] eqn:Ei; simpl.
  2: { unfold there. rewrite written_other; [done|by right]. }
  unfold there, written. rewrite Ht, Ei. unfold changes_pins. simpl. rewrite (same_pins_sym (i_After it)).
  destruct (SamePins (i_Before it) (i_After it)); simpl; [done|]. by rewrite (item_state g it).
Qed.

Lemma back_state g : g ∈ gs_grants s -> same (state_of (back (there g))) (state_of g).
Proof.
  intros Hg. destruct (written_key env t reason items (fun it => (i_Before it, i_After it)) g) as (Hk & Hkt & _). fold there in Hk, Hkt.
  destruct (decide (g_TenantID g = t)) as [Ht|Ht].
  2: { unfold back. rewrite written_other by (left; congruence). unfold there. by rewrite written_other by (by left). }
  destruct (item_for items (g_ID g)) as [it|] eqn:Ei.
  2: { unfold back. rewrite written_other by (right; by rewrite item_for_stored, Hk, Ei). unfold there. by rewrite written_other by (by right). }
  rewrite <- (item_state g it Hg Ei). apply (written_state env' t "" (map stored_item items) (fun it => (i_After it, i_Before it)) (there g) (stored_item it)).
  - congruence.
  - by rewrite item_for_stored, Hk, Ei.
  - by apply Same_iff, (there_state g it).
Qed.

End ThereAndBack.

(** The undo of a change whose grants are as it left them, with the database
    answering. *)
Lemma undo_run env guard caller ip id reason s p c s1 :
  sound env -> NoDup (map g_ID (gs_grants s)) -> AdminGuard.Require guard caller "anubis:grant:admin" = Ok p ->
  find (named (Authctx.TenantID p) id) (gs_changes s) = Some c -> ch_UndoneAt c = None ->
  (forall it, it ∈ ch_Items c -> exists g, g ∈ gs_grants s /\ g_ID g = i_GrantID it /\ g_TenantID g = Authctx.TenantID p /\
     same (state_of g) (i_After it)) ->
  writeStates env (Authctx.TenantID p) "" (ch_Items c) (fun it => (i_After it, i_Before it)) s = (Ok tt, s1) ->
  exists s2, UndoGrantChange env guard caller ip id reason s = (Ok (length (ch_Items c)), s2) /\ gs_grants s2 = gs_grants s1 /\
    gs_changes s2 = map (mark_undone env (Authctx.TenantID p) id (Authctx.IdentityID p)) (gs_changes s1).
Proof.
  intros Hs HN Hg Hf Hu Hit Hw.
  assert (Hnow : CurrentStates env (Authctx.TenantID p) (map i_GrantID (ch_Items c)) s =
    (Ok (if bool_decide (map i_GrantID (ch_Items c) = []) then ∅ else states_of (Authctx.TenantID p) (map i_GrantID (ch_Items c)) (gs_grants s)), s)).
  { unfold CurrentStates. case_bool_decide; [done|]. by rewrite !guarded_sound. }
  assert (Hmv : forall it, it ∈ ch_Items c -> has_moved (if bool_decide (map i_GrantID (ch_Items c) = []) then ∅
    else states_of (Authctx.TenantID p) (map i_GrantID (ch_Items c)) (gs_grants s)) it = false).
  { intros it Hin. destruct (Hit it Hin) as (g & Hgin & Hid & Ht & Hst). case_bool_decide as E.
    - apply (map_eq_nil i_GrantID) in E. rewrite E in Hin. by apply elem_of_nil in Hin.
    - unfold has_moved. rewrite <- Hid, states_of_lookup; [by apply negb_false_iff|done..|].
      rewrite Hid. by apply list_elem_of_fmap_2. }
  eexists. split.
  - unfold UndoGrantChange, mbind, eff_bind, lift. rewrite Hg. unfold GWithinTx. rewrite (Hs OpGBegin), (Hs OpGCommit). unfold within_tx.
    unfold GrantAdmin.GrantChange. rewrite guarded_sound by done. fold (named (Authctx.TenantID p) id). rewrite Hf, guarded_sound by done.
    rewrite bool_decide_eq_false_2 by (rewrite Hu; by intros [? ?]). rewrite Hnow. cbv zeta.
    rewrite (filter_none _ _ Hmv). simpl. unfold RestoreGrantChange, mbind, eff_bind. rewrite Hw, guarded_sound by done. reflexivity.
  - done.
Qed.

(** The undo, right after the change. *)
Lemma undo_after env env' guard caller ip id reason why s s1 p c items :
  grants_ok (gs_grants s) -> NoDup (map i_GrantID items) ->
  (forall it, it ∈ items -> exists g, g ∈ gs_grants s /\ g_ID g = i_GrantID it /\ g_TenantID g = Authctx.TenantID p /\
     g_RevokedAt g = None /\ i_Before it = state_of g) ->
  gs_grants s1 = map (written env (Authctx.TenantID p) why items (fun it => (i_Before it, i_After it))) (gs_grants s) ->
  sound env' -> AdminGuard.Require guard caller "anubis:grant:admin" = Ok p ->
  find (named (Authctx.TenantID p) id) (gs_changes s1) = Some c -> ch_UndoneAt c = None -> ch_Items c = map stored_item items ->
  exists s2, UndoGrantChange env' guard caller ip id reason s1 = (Ok (length items), s2) /\
    Forall2 (fun g g2 => g_ID g2 = g_ID g /\ g_Pins g2 = g_Pins g /\ same (state_of g2) (state_of g)) (gs_grants s) (gs_grants s2) /\
    gs_changes s2 = map (mark_undone env' (Authctx.TenantID p) id (Authctx.IdentityID p)) (gs_changes s1).
Proof.
  intros HG Hd Hit Hst1 Hs Hg Hf Hu Hitems.
  set (there := written env (Authctx.TenantID p) why items (fun it => (i_Before it, i_After it))) in *.
  set (back := written env' (Authctx.TenantID p) "" (map stored_item items) (fun it => (i_After it, i_Before it))).
  assert (Hkey : forall g, g_ID (there g) = g_ID g /\ g_TenantID (there g) = g_TenantID g) by (intros g; split; apply written_key).
  assert (Hids : NoDup (map g_ID (gs_grants s1))).
  { rewrite Hst1, map_map. erewrite map_ext; [apply HG|]. intros g. apply Hkey. }
  assert (Hrow : forall it, it ∈ ch_Items c -> exists g, g ∈ gs_grants s1 /\ g_ID g = i_GrantID it /\ g_TenantID g = Authctx.TenantID p /\
    same (state_of g) (i_After it)).
  { rewrite Hitems. intros it0 (it & -> & Hin)%list_elem_of_fmap. destruct (Hit it Hin) as (g & Hgin & Hid & Ht & _).
    exists (there g). rewrite Hst1. destruct (Hkey g) as [-> ->]. split; [by apply list_elem_of_fmap_2|].
    split; [done|]. split; [done|].
    apply (there_state env (Authctx.TenantID p) why items s HG Hit g it); [done..|]. rewrite Hid. by apply in_item_for. }
  destruct (undo_run env' guard caller ip id reason s1 p c (with_grants s1 (map back (gs_grants s1)))) as (s2 & Hr & Hg2 & Hc2);
    [done..| |].
  - rewrite Hitems. apply writeStates_run; [by rewrite stored_ids|done|done|..].
    + intros it Hin. rewrite <- Hitems in Hin. destruct (Hrow it Hin) as (g & ? & ? & ? & _). eauto.
    + rewrite Hst1. intros g1 (g & -> & Hgin)%list_elem_of_fmap. pose proof (grants_rows _ HG g Hgin) as Hok. unfold row_ok, there in *.
      by destruct (back_pins env env' (Authctx.TenantID p) why items s HG Hit g Hgin) as [-> ->].
  - exists s2. split; [by rewrite Hr, Hitems, length_map|]. split; [|done].
    rewrite Hg2. simpl. rewrite Hst1, map_map. apply Forall2_map_r. intros g Hgin. split; [|split].
    + unfold back. destruct (Hkey g) as [<- _]. apply written_key.
    + by apply (back_pins env env' (Authctx.TenantID p) why items s HG Hit g Hgin).
    + by apply (back_state env env' (Authctx.TenantID p) why items s HG Hit g Hgin).
Qed.

(** C34: a change can be taken back.  After a change was applied - whatever its
    kind, on any grants table that keeps its rules - an undo with the database
    answering succeeds, reports as many grants as the change had, and leaves
    every grant in the state it was in before: the same picks, the same end to
    the second, revoked or not as before.  A second undo is refused. *)
Theorem apply_then_undo env env' guard caller ip ip' sp reason s id pl s1 :
  grants_ok (gs_grants s) -> (forall c, c ∈ gs_changes s -> ch_ID c <> ge_change_id env) -> sound env' ->
  ApplyGrantChange env guard caller ip sp s = (Ok (id, pl), s1) ->
  exists s2, UndoGrantChange env' guard caller ip' id reason s1 = (Ok (length (p_Items pl)), s2) /\
    Forall2 (fun g g2 => g_ID g2 = g_ID g /\ g_Pins g2 = g_Pins g /\ same (state_of g2) (state_of g)) (gs_grants s) (gs_grants s2) /\
    UndoGrantChange env' guard caller ip' id reason s2 = (Err already_undone, s2).
Proof.
  intros HG Hfresh Hs H. apply (handler_cases env _ _ _ (fun d => d)) in H; [|done].
  destruct H as (p & d & s3 & Hg & Hm & _ & _ & <- & ->). apply bind_ok in Hm as (pl' & s0 & Hp & Hm).
  destruct (plan_ok _ _ _ _ _ _ Hp) as [-> _]. destruct (plan_items _ _ _ _ _ _ (grants_ids _ HG) Hp) as [Hd Hit].
  case_bool_decide as Hne; [done|]. apply bind_ok in Hm as (id' & s2 & (-> & Hgr & _ & Hch)%RecordGrantChange_ok & Hm); [|done].
  injection Hm as <- <- <-. rename pl' into pl. set (st1 := snd (emit _ _ _ _ _ _)).
  assert (Hg1 : gs_grants st1 = gs_grants s2) by done. assert (Hc1 : gs_changes st1 = gs_changes s2) by done.
  clearbody st1. rewrite Hgr in Hg1. rewrite Hch in Hc1.
  set (new := Build_ChangeRow _ _ _ _ _ _ _ _ _ _) in Hc1.
  assert (Hf : find (named (Authctx.TenantID p) (ge_change_id env)) (gs_changes st1) =
    Some (set_items (ge_change_id env) (map stored_item (p_Items pl)) new)).
  { rewrite Hc1. apply find_new; [done|]. unfold named. simpl. by rewrite !bool_decide_eq_true_2. }
  assert (Hu : ch_UndoneAt (set_items (ge_change_id env) (map stored_item (p_Items pl)) new) = None) by (unfold set_items; by case_bool_decide).
  destruct (undo_after env env' guard caller ip' (ge_change_id env) reason (s_Reason sp) s st1 p _ (p_Items pl) HG Hd Hit Hg1 Hs Hg Hf Hu)
    as (s4 & Hr & Hrows & Hc2).
  { unfold set_items. simpl. by rewrite bool_decide_eq_true_2. }
  exists s4. split; [done|]. split; [done|]. eapply undo_twice; [done..|by rewrite Hc2, find_marked, Hf|].
  apply mark_undone_stamps. by apply find_some in Hf as [_ ?].
Qed.

(** ** Two people with one role, a place added for both, and taken back *)
Module Sample.
Import Authctx AdminGuard Operator.

Definition owner : AssignmentRecord :=
  {| a_ID := "A1"; a_OperatorID := "O1"; a_TenantID := ""; a_TenantSlug := ""; a_Role := RoleOwner; a_GrantedBy := ""; a_Reason := "";
     a_ValidUntil := None; a_RevokedAt := None; a_CreatedAt := 0; a_Below := [] |}.
Definition guard : Guard :=
  WithOperators {| AssignmentsForOperator _ := Some [owner]; OperatorStanding _ := Some (true, 3%Z) |} 5.
Definition caller : Principal := {|
  IdentityID := "op"; TenantID := "t"; TenantSlug := ""; SessionID := "s"; Realm := ""; Roles := []; Scopes := ∅; AMR := [];
  AuthTime := 0; IAL := 0; Epoch := 3; Audience := []; Service := false; Platform := true; Token := ""
|}.
Definition env : GEnv := {|
  ge_fails _ := false; ge_now := to_timestamp 1000; ge_change_id := "c1";
  ge_axis _ _ := Some (false, "root"%string);
  ge_family _ _ := Some ("org"%string, [], [])
|}.
Definition grant (id who : string) : GrantRow := {|
  g_ID := id; g_TenantID := "t"; g_RoleID := "r"; g_IdentityID := who; g_Username := who; g_SelfScoped := false;
  g_FromGroup := false; g_Pins := [{| Axis := "org"; NodeID := "north"; Inherit := true; Exclude := false |}];
  g_ValidUntil := None; g_RevokedAt := None; g_RevokeReason := None |}.
Definition store : GStore := {| gs_grants := [grant "g1" "ann"; grant "g2" "bob"]; gs_changes := []; gs_audit := [] |}.
Definition add_south : Spec := {|
  s_RoleID := "r"; s_Covers := []; s_SiblingsOf := ""; s_Kind := AddPlace; s_Axis := "org"; s_NodeID := "south"; s_ToNodeID := "";
  s_Inherit := true; s_Until := None; s_Reason := "" |}.
Definition applied := ApplyGrantChange env guard (Some caller) "ip" add_south store.
Definition undone := UndoGrantChange env guard (Some caller) "ip" "c1" "mistake" (snd applied).

Lemma store_ok : grants_ok (gs_grants store).
Proof.
  split; [apply (bool_decide_unpack _); vm_compute; exact I|].
  intros g [->|[->|?%elem_of_nil]%elem_of_cons]%elem_of_cons; by vm_compute.
Qed.

Lemma apply_as_previewed_witness :
  match fst applied with
  | Ok (id, pl) => PreviewGrantChange env guard (Some caller) add_south store = (Ok pl, store) /\ p_Items pl <> []
  | Err _ => False
  end.
Proof.
  pose proof (apply_as_previewed env guard (Some caller) "ip" add_south store (fst applied) (snd applied)
    (grants_ids _ store_ok) (surjective_pairing applied)) as H.
  assert (Hok : exists d, fst applied = Ok d) by (eexists; vm_compute; reflexivity).
  destruct Hok as [[id pl] Hok]. rewrite Hok in *. split; apply H.
Defined.

Lemma undo_all_or_nothing_witness :
  fst undone = Ok 2%nat /\ forall ip reason, UndoGrantChange env guard (Some caller) ip "c1" reason (snd undone) = (Err already_undone, snd undone).
Proof.
  assert (Hok : fst undone = Ok 2%nat) by (vm_compute; reflexivity). split; [exact Hok|]. intros ip reason.
  pose proof (undo_all_or_nothing env guard (Some caller) "ip" "c1" "mistake" (snd applied) (fst undone) (snd undone)) as H.
  rewrite Hok in H. destruct H as (p & c & _ & _ & _ & _ & _ & _ & _ & H).
  - intros c Hc. assert (Hin : Forall (fun c => bool_decide (NoDup (map i_GrantID (ch_Items c))) = true) (gs_changes (snd applied)))
      by (vm_compute; constructor; [reflexivity|constructor]).
    rewrite Forall_forall in Hin. by apply (bool_decide_eq_true_1 _), Hin.
  - apply (bool_decide_unpack _). vm_compute. exact I.
  - rewrite <- Hok. apply surjective_pairing.
  - exact (H env ip reason (fun _ => eq_refl)).
Defined.

Lemma apply_then_undo_witness :
  exists s2, UndoGrantChange env guard (Some caller) "ip" "c1" "mistake" (snd applied) = (Ok 2%nat, s2) /\
    Forall2 (fun g g2 => g_ID g2 = g_ID g /\ g_Pins g2 = g_Pins g /\ same (state_of g2) (state_of g)) (gs_grants store) (gs_grants s2).
Proof.
  assert (Hok : exists pl, fst applied = Ok ("c1"%string, pl) /\ length (p_Items pl) = 2%nat) by (eexists; split; vm_compute; reflexivity).
  destruct Hok as (pl & Hok & Hlen).
  destruct (apply_then_undo env env guard (Some caller) "ip" "ip" add_south "mistake" store "c1" pl (snd applied) store_ok)
    as (s2 & H & Hrows & _).
  - intros c Hc. by apply elem_of_nil in Hc.
  - exact (fun _ => eq_refl).
  - unfold applied in *. rewrite <- Hok. apply surjective_pairing.
  - exists s2. rewrite Hlen in H. exact (conj H Hrows).
Defined.

End Sample.

End GrantAdminProps.
