(* ===== verification/ScopeTree.v ===== *)
(** The structures a tenant's places live in: the scope tables with the
    constraints and triggers the schema puts on them, and the functions in the
    database that write the tree (internal/platform/schema/routines.go:
    scope_ensure_root, scope_add_node, scope_move_node and the two triggers on
    levels).  Every statement answers the tables it leaves or what it raises. *)

From Stdlib Require Import ZArith Lia Bool Ascii String.
From stdpp Require Import base gmap strings list sorting.
From S2P Require Import Prelude.
From S2P Require Import GoStrings.
From S2P Require Import GoConv.
From S2P Require Import Shared.

(** ** What PostgreSQL raises, and what the adapters make of it
    (internal/platform/database/errors.go) *)
Module Pg.
Import Apperr.

Record PgError := { pg_Code : string; pg_Message : string; pg_ConstraintName : string }.

(** [Driver]: anything else the driver answers. *)
Inductive DbError := ErrNoRows | Raised (e : PgError) | Driver.

Definition text (e : DbError) : string :=
  match e with
  | ErrNoRows => "no rows in result set"
  | Raised p => ("ERROR: " ++ pg_Message p ++ " (SQLSTATE " ++ pg_Code p ++ ")")%string
  | Driver => "driver"
  end.

Definition refusals : list string := ["23503"; "23514"; "0A000"; "42501"; "P0001"]%string.

Definition MapErr (e : DbError) : Error :=
  match e with
  | ErrNoRows => ErrNotFound
  | Raised p =>
      if bool_decide (pg_Code p = "23505"%string) then Wrap ErrConflict (text e)
      else if bool_decide (pg_Code p ∈ refusals) then Wrap ErrInvalidArgument (text e)
      else Wrap ErrInternal (text e)
  | Driver => Wrap ErrInternal (text e)
  end.

Definition MapErrSaying (e : DbError) : Error :=
  match e with
  | Raised p =>
      if negb (bool_decide (pg_ConstraintName p = ""%string)) then MapErr e
      else if negb (bool_decide (pg_Code p = "23514"%string)) && negb (bool_decide (pg_Code p = "P0001"%string)) then MapErr e
      else With (MapErr e) "reason" (pg_Message p)
  | _ => MapErr e
  end.

(** A declared constraint that does not hold, and an exception a function
    raises. *)
Definition violated (code name : string) : PgError := {| pg_Code := code; pg_Message := "violates " ++ name; pg_ConstraintName := name |}.
Definition exception (code message : string) : PgError := {| pg_Code := code; pg_Message := message; pg_ConstraintName := "" |}.

End Pg.

Module ScopeTree.
Import Pg.

(** ** The tables, by primary key

    Columns nothing reads back (created_at, updated_at, attributes) are left
    out; the closure has its depth under the pair (ancestor, descendant). *)
Record AxisRow := {
  ax_DisplayName : string; ax_DefaultEffect : string; ax_Status : string; ax_SortOrder : Z;
  ax_Resolution : string; ax_UISchema : string
}.
Record TypeRow := { ty_Axis : string; ty_DisplayName : string; ty_Parents : list string }.
Record NodeRow := {
  nd_Tenant : string; nd_Parent : option string; nd_Root : bool; nd_Status : string; nd_Axis : string;
  nd_Type : string; nd_Slug : string; nd_Name : string; nd_Ref : option string
}.

Record Tables := {
  t_axes : gmap (string * string) AxisRow;
  t_types : gmap (string * string) TypeRow;
  t_nodes : gmap string NodeRow;
  t_closure : gmap (string * string) Z
}.

Definition with_types (t : Tables) (m : gmap (string * string) TypeRow) : Tables :=
  {| t_axes := t_axes t; t_types := m; t_nodes := t_nodes t; t_closure := t_closure t |}.
Definition with_nodes (t : Tables) (m : gmap string NodeRow) : Tables :=
  {| t_axes := t_axes t; t_types := t_types t; t_nodes := m; t_closure := t_closure t |}.
Definition with_closure (t : Tables) (m : gmap (string * string) Z) : Tables :=
  {| t_axes := t_axes t; t_types := t_types t; t_nodes := t_nodes t; t_closure := m |}.
Definition with_axes (t : Tables) (m : gmap (string * string) AxisRow) : Tables :=
  {| t_axes := m; t_types := t_types t; t_nodes := t_nodes t; t_closure := t_closure t |}.

Abbreviation Sql A := (result PgError A).

(** A name in double quotes. *)
Definition quoted (s : string) : string := String (chr 34) (s ++ String (chr 34) "").

(** Some row of a table. *)
Definition some_row {K A} `{Countable K} (p : K -> A -> bool) (m : gmap K A) : bool := negb (map_all (fun k a => negb (p k a)) m).
Definition find_row {K A} `{Countable K} (p : K -> A -> bool) (m : gmap K A) : option (K * A) := find (fun '(k, a) => p k a) (map_to_list m).

(** ** The constraints of scope_nodes *)
Definition node_checks (n : NodeRow) : option PgError :=
  if negb (nd_Root n || bool_decide (is_Some (nd_Parent n))) then Some (violated "23514" "nonroot_has_parent")
  else if nd_Root n && bool_decide (is_Some (nd_Parent n)) then Some (violated "23514" "root_has_no_parent")
  else if bool_decide (nd_Slug n = ""%string) then Some (violated "23514" "scope_nodes_slug_check")
  else if negb (bool_decide (nd_Status n = "active"%string) || bool_decide (nd_Status n = "archived"%string))
  then Some (violated "23514" "scope_nodes_status_check")
  else None.

Definition same_axis (n m : NodeRow) : bool := bool_decide (nd_Tenant n = nd_Tenant m) && bool_decide (nd_Axis n = nd_Axis m).

(** The partial unique indexes, against the other rows. *)
Definition node_unique (others : gmap string NodeRow) (n : NodeRow) : option PgError :=
  if some_row (fun _ m => same_axis n m && bool_decide (is_Some (nd_Ref n)) && bool_decide (nd_Ref m = nd_Ref n)) others
  then Some (violated "23505" "scope_nodes_extref")
  else if some_row (fun _ m => same_axis n m && nd_Root n && nd_Root m) others then Some (violated "23505" "scope_nodes_one_root")
  else if some_row (fun _ m => bool_decide (is_Some (nd_Parent n)) && bool_decide (nd_Parent m = nd_Parent n) && bool_decide (nd_Slug m = nd_Slug n)) others
  then Some (violated "23505" "scope_nodes_sibling_slug")
  else None.

(** The level the row names, in its own structure; the parent, in the same
    tenant and structure. *)
Definition level_of (t : Tables) (n : NodeRow) : option TypeRow :=
  match t_types t !! (nd_Tenant n, nd_Type n) with
  | Some ty => if bool_decide (ty_Axis ty = nd_Axis n) then Some ty else None
  | None => None
  end.
Definition node_fkeys (t : Tables) (n : NodeRow) : option PgError :=
  match level_of t n with
  | None => Some (violated "23503" "scope_nodes_tenant_id_node_type_axis_code_fkey")
  | Some _ =>
      match nd_Parent n with
      | None => None
      | Some p => match t_nodes t !! p with
                  | Some up => if same_axis n up then None else Some (violated "23503" "scope_nodes_parent_id_tenant_id_axis_code_fkey")
                  | None => Some (violated "23503" "scope_nodes_parent_id_tenant_id_axis_code_fkey")
                  end
      end
  end.

(** trg_scope_node_type_guard: a comparison with NULL raises nothing. *)
Definition type_guard (t : Tables) (n : NodeRow) : option PgError :=
  match nd_Parent n with
  | None => None
  | Some p =>
      match t_nodes t !! p, level_of t n with
      | Some up, Some ty =>
          if bool_decide (nd_Type up ∈ ty_Parents ty) then None
          else Some (exception "23514" ("a " ++ quoted (nd_Type n) ++ " may not sit under a " ++ quoted (nd_Type up) ++
                                        " (legal parents: " ++ String.concat ", " (ty_Parents ty) ++ ")"))
      | _, _ => None
      end
  end.

Definition first_of (l : list (option PgError)) : option PgError := foldr (fun x acc => match x with Some e => Some e | None => acc end) None l.

(** The row [id] written as [n]: checks and indexes, then the foreign keys and
    the guard, which see the new row. *)
Definition write_node (t : Tables) (id : string) (n : NodeRow) : Sql Tables :=
  let t' := with_nodes t (<[id := n]> (t_nodes t)) in
  match first_of [node_checks n; node_unique (delete id (t_nodes t)) n; node_fkeys t' n; type_guard t' n] with
  | Some e => Err e
  | None => Ok t'
  end.

Definition insert_node (t : Tables) (id : string) (n : NodeRow) : Sql Tables :=
  match t_nodes t !! id with
  | Some _ => Err (default (violated "23505" "scope_nodes_pkey") (node_checks n))
  | None => write_node t id n
  end.

(** ** The closure *)
Definition scope_max_depth : Z := 32767.

(** SELECT ancestor_id, depth WHERE descendant_id = d, and the converse. *)
Definition ups (t : Tables) (d : string) : list (string * Z) :=
  omap (fun '((a, d'), n) => if bool_decide (d' = d) then Some (a, n) else None) (map_to_list (t_closure t)).
Definition downs (t : Tables) (a : string) : list (string * Z) :=
  omap (fun '((a', d), n) => if bool_decide (a' = a) then Some (d, n) else None) (map_to_list (t_closure t)).

(** max(depth): NULL of no rows. *)
Definition sql_max (l : list Z) : option Z :=
  match l with [] => None | n :: r => Some (foldl Z.max n r) end.

(** INSERT INTO scope_closure: a smallint, not negative, under a new key, of two
    nodes. *)
Definition insert_link (t : Tables) (r : string * string * Z) : Sql Tables :=
  let '(a, d, n) := r in
  if negb ((- 32768 <=? n)%Z && (n <=? 32767)%Z) then Err (exception "22003" "smallint out of range")
  else if (n <? 0)%Z then Err (violated "23514" "scope_closure_depth_check")
  else match t_closure t !! (a, d), t_nodes t !! a, t_nodes t !! d with
       | Some _, _, _ => Err (violated "23505" "scope_closure_pkey")
       | None, Some _, Some _ => Ok (with_closure t (<[(a, d) := n]> (t_closure t)))
       | None, None, _ => Err (violated "23503" "scope_closure_ancestor_id_fkey")
       | None, _, None => Err (violated "23503" "scope_closure_descendant_id_fkey")
       end.
Fixpoint insert_links (t : Tables) (l : list (string * string * Z)) : Sql Tables :=
  match l with [] => Ok t | r :: l => match insert_link t r with Ok t' => insert_links t' l | Err e => Err e end end.

(** ** scope_ensure_root *)
Definition is_root_of (tenant axis : string) (n : NodeRow) : bool :=
  bool_decide (nd_Tenant n = tenant) && bool_decide (nd_Axis n = axis) && nd_Root n.

(** The levels with no legal parents, the first by code. *)
Definition top_levels (t : Tables) (tenant axis : string) : list (string * TypeRow) :=
  omap (fun '((tn, code), ty) => if bool_decide (tn = tenant) && bool_decide (ty_Axis ty = axis) && bool_decide (ty_Parents ty = [])
                                 then Some (code, ty) else None) (map_to_list (t_types t)).
Definition by_code (a b : string * TypeRow) : Prop := String.le (fst a) (fst b).
#[export] Instance by_code_dec : RelDecision by_code := fun a b => _.

Definition scope_ensure_root (new_id tenant axis : string) (t : Tables) : Sql (string * Tables) :=
  match find_row (fun _ => is_root_of tenant axis) (t_nodes t) with
  | Some (id, _) => Ok (id, t)
  | None =>
      match merge_sort by_code (top_levels t tenant axis) with
      | [] => Err (exception "P0001" ("axis " ++ axis ++ " has no root node type (none with empty parent_types)"))
      | (code, ty) :: _ =>
          match insert_node t new_id {| nd_Tenant := tenant; nd_Parent := None; nd_Root := true; nd_Status := "active"; nd_Axis := axis;
                                        nd_Type := code; nd_Slug := "_root"; nd_Name := ty_DisplayName ty; nd_Ref := None |} with
          | Err e => Err e
          | Ok t1 => match insert_link t1 (new_id, new_id, 0%Z) with Ok t2 => Ok (new_id, t2) | Err e => Err e end
          end
      end
  end.

(** ** scope_add_node *)
Definition too_deep (what : string) : PgError := exception "54000" ("scope hierarchy too deep: " ++ what).

Definition scope_add_node (new_id tenant axis type parent slug name : string) (ref : option string) (t : Tables) : Sql (string * Tables) :=
  let above := ups t parent in
  let deep := match sql_max (map snd above) with Some d => (scope_max_depth <? d + 1)%Z | None => false end in
  if deep then Err (too_deep ("attaching " ++ axis ++ "." ++ slug ++ " under " ++ parent))
  else match insert_node t new_id {| nd_Tenant := tenant; nd_Parent := Some parent; nd_Root := false; nd_Status := "active"; nd_Axis := axis;
                                     nd_Type := type; nd_Slug := slug; nd_Name := name; nd_Ref := ref |} with
       | Err e => Err e
       | Ok t1 =>
           match insert_links t1 (map (fun '(a, d) => (a, new_id, (d + 1)%Z)) above ++ [(new_id, new_id, 0%Z)]) with
           | Ok t2 => Ok (new_id, t2)
           | Err e => Err e
           end
       end.

(** ** scope_move_node *)

(** DELETE: the links from former ancestors into the moving subtree. *)
Definition severed (t : Tables) (node : string) : gmap (string * string) Z :=
  let subtree := map fst (downs t node) in
  let former := List.filter (fun a => negb (bool_decide (a = node))) (map fst (ups t node)) in
  filter (fun '((a, d), _) => ~ (d ∈ subtree /\ a ∈ former)) (t_closure t).

(** INSERT: every ancestor of the new parent over everything in the subtree. *)
Definition grafts (t : Tables) (node parent : string) : list (string * string * Z) :=
  flat_map (fun '(a, up) => map (fun '(d, down) => (a, d, (up + down + 1)%Z)) (downs t node)) (ups t parent).

Definition with_parent (n : NodeRow) (p : option string) : NodeRow :=
  {| nd_Tenant := nd_Tenant n; nd_Parent := p; nd_Root := nd_Root n; nd_Status := nd_Status n; nd_Axis := nd_Axis n;
     nd_Type := nd_Type n; nd_Slug := nd_Slug n; nd_Name := nd_Name n; nd_Ref := nd_Ref n |}.

Definition scope_move_node (node parent : string) (t : Tables) : Sql Tables :=
  if bool_decide (is_Some (t_closure t !! (node, parent)))
  then Err (exception "P0001" ("cycle: " ++ parent ++ " is inside the subtree of " ++ node))
  else
    let above := default 0%Z (sql_max (map snd (ups t parent))) in
    let below := default 0%Z (sql_max (map snd (downs t node))) in
    if (scope_max_depth <? above + below + 1)%Z then Err (too_deep ("moving " ++ node ++ " under " ++ parent))
    else
      let t1 := with_closure t (severed t node) in
      match insert_links t1 (grafts t1 node parent) with
      | Err e => Err e
      | Ok t2 => match t_nodes t2 !! node with
                 | None => Ok t2
                 | Some n => write_node t2 node (with_parent n (Some parent))
                 end
      end.

(** A row whose name or status alone changes. *)
Definition retitled (n : NodeRow) (name status : string) : NodeRow :=
  {| nd_Tenant := nd_Tenant n; nd_Parent := nd_Parent n; nd_Root := nd_Root n; nd_Status := status; nd_Axis := nd_Axis n;
     nd_Type := nd_Type n; nd_Slug := nd_Slug n; nd_Name := name; nd_Ref := nd_Ref n |}.

(** ** The levels: trg_scope_node_type_rules *)

(** The first level a list names that is no level of the structure. *)
Definition foreign_level (t : Tables) (tenant code : string) (ty : TypeRow) : option string :=
  find (fun p => negb (bool_decide (p = code)) &&
                 match t_types t !! (tenant, p) with
                 | Some up => negb (bool_decide (ty_Axis up = ty_Axis ty))
                 | None => true
                 end) (ty_Parents ty).

Definition second_top (t : Tables) (tenant code : string) (ty : TypeRow) : bool :=
  bool_decide (ty_Parents ty = []) &&
  some_row (fun '(tn, c) o => bool_decide (tn = tenant) && bool_decide (ty_Axis o = ty_Axis ty) && negb (bool_decide (c = code)) &&
                              bool_decide (ty_Parents o = [])) (t_types t).

(** Some item of the level sits under one of level [p]. *)
Definition relied_on (t : Tables) (tenant code axis p : string) : bool :=
  some_row (fun _ n => bool_decide (nd_Tenant n = tenant) && bool_decide (nd_Axis n = axis) && bool_decide (nd_Type n = code) &&
                       match nd_Parent n with
                       | Some u => match t_nodes t !! u with Some up => bool_decide (nd_Type up = p) | None => false end
                       | None => false
                       end) (t_nodes t).

(** A rule taken away that items rely on. *)
Definition broken_rule (t : Tables) (tenant code : string) (old ty : TypeRow) : option string :=
  find (fun p => negb (bool_decide (p ∈ ty_Parents ty)) && relied_on t tenant code (ty_Axis ty) p) (ty_Parents old).

Definition display (t : Tables) (tenant code : string) : string :=
  match t_types t !! (tenant, code) with Some ty => ty_DisplayName ty | None => code end.

(** [old] is the row before an UPDATE, whose code and structure no statement
    changes. *)
Definition type_rules (t : Tables) (tenant code : string) (old : option TypeRow) (ty : TypeRow) : option PgError :=
  match foreign_level t tenant code ty with
  | Some bad => Some (exception "23514" (quoted bad ++ " is not a level of structure " ++ quoted (ty_Axis ty)))
  | None =>
      let name := quoted (ty_DisplayName ty) in
      if second_top t tenant code ty
      then Some (exception "23514" ("this structure already has a top level; " ++ name ++ " has to sit under something"))
      else match old with
      | None => None
      | Some o =>
          if bool_decide (ty_Parents o = []) && negb (bool_decide (ty_Parents ty = []))
          then Some (exception "23514" (name ++ " is the top of its structure and sits under nothing"))
          else if negb (bool_decide (ty_Parents o = [])) && bool_decide (ty_Parents ty = [])
          then Some (exception "23514" (name ++ " has to sit under something; only the top level sits under nothing"))
          else match broken_rule t tenant code o ty with
               | Some bad => Some (exception "23514" ("some " ++ name ++ " items already sit under a " ++
                                     quoted (display t tenant bad) ++ "; move them before removing that rule"))
               | None => None
               end
      end
  end.

(** INSERT and UPDATE of scope_node_types. *)
Definition write_type (t : Tables) (tenant code : string) (old : option TypeRow) (ty : TypeRow) : Sql Tables :=
  let t' := with_types t (<[(tenant, code) := ty]> (t_types t)) in
  match type_rules t' tenant code old ty with Some e => Err e | None => Ok t' end.

Definition insert_type (t : Tables) (tenant code : string) (ty : TypeRow) : Sql Tables :=
  if negb (Validate.ValidCode code) then Err (violated "23514" "scope_node_types_code_check")
  else match t_types t !! (tenant, code) with
  | Some _ => Err (violated "23505" "scope_node_types_pkey")
  | None =>
      match t_axes t !! (tenant, ty_Axis ty) with
      | None => Err (violated "23503" "scope_node_types_tenant_id_axis_code_fkey")
      | Some _ => write_type t tenant code None ty
      end
  end.

(** How many rows, and the tables. *)
Definition update_type (tenant code axis display : string) (parents : list string) (t : Tables) : Sql (nat * Tables) :=
  match t_types t !! (tenant, code) with
  | Some old =>
      if bool_decide (ty_Axis old = axis)
      then match write_type t tenant code (Some old) {| ty_Axis := axis; ty_DisplayName := display; ty_Parents := parents |} with
           | Ok t' => Ok (1, t')
           | Err e => Err e
           end
      else Ok (0, t)
  | None => Ok (0, t)
  end.

End ScopeTree.
