(* ===== verification/TreeProps.v ===== *)
(** What the functions that write a structure's tree keep: the closure holds
    exactly who is above whom and by how many steps, and every item sits where
    its level may sit. *)

From Stdlib Require Import ZArith Lia Bool Ascii String.
From stdpp Require Import base gmap strings list sorting.
From S2P Require Import Prelude.
From S2P Require Import GoStrings.
From S2P Require Import Shared.
From S2P Require Import ScopeTree.

(** ** Ancestors, along parent_id *)
Module Ancestry.
Import ScopeTree.

(** [a] is [n] steps above [d]. *)
Inductive up (m : gmap string NodeRow) : string -> string -> Z -> Prop :=
| up_self d n : m !! d = Some n -> up m d d 0
| up_parent a d n p k : m !! d = Some n -> nd_Parent n = Some p -> up m a p k -> up m a d (k + 1).

Definition exact (m : gmap string NodeRow) (c : gmap (string * string) Z) : Prop := forall a d n, c !! (a, d) = Some n <-> up m a d n.

(** Every parent is an item. *)
Definition rooted (m : gmap string NodeRow) : Prop := forall d n p, m !! d = Some n -> nd_Parent n = Some p -> is_Some (m !! p).

Section Up.
Context (m : gmap string NodeRow).

Lemma up_nonneg a d n : up m a d n -> (0 <= n)%Z.
Proof. induction 1; lia. Qed.

Lemma up_bottom a d n : up m a d n -> is_Some (m !! d).
Proof. destruct 1; eauto. Qed.

Lemma up_top a d n : up m a d n -> is_Some (m !! a).
Proof. induction 1; eauto. Qed.

Lemma up_trans a b d n k : up m a b n -> up m b d k -> up m a d (n + k).
Proof.
  intros Ha Hb. revert Ha. induction Hb as [d r Hd|b d r p k Hd Hp Hb IH]; intros Ha.
  - by rewrite Z.add_0_r.
  - rewrite Z.add_assoc. eapply up_parent; eauto.
Qed.

(** The items above one item are in a line. *)
Lemma up_line a b d n k : up m a d n -> up m b d k -> (n <= k)%Z -> up m b a (k - n).
Proof.
  intros Ha. revert b k. induction Ha as [d r Hd|a d r p n Hd Hp Ha IH]; intros b k Hb Hk; [by rewrite Z.sub_0_r|].
  destruct Hb as [d r' Hd'|b d r' p' k Hd' Hp' Hb].
  - apply up_nonneg in Ha. lia.
  - rewrite Hd in Hd'. injection Hd' as <-. rewrite Hp in Hp'. injection Hp' as <-.
    replace (k + 1 - (n + 1))%Z with (k - n)%Z by lia. apply IH; [done|lia].
Qed.

Lemma up_inv a d n :
  up m a d n -> (a = d /\ n = 0%Z) \/ exists r p k, m !! d = Some r /\ nd_Parent r = Some p /\ up m a p k /\ n = (k + 1)%Z.
Proof. intros H. inversion H as [|? ? r p k]; subst; [by left|right]. by exists r, p, k. Qed.

Lemma up_zero a d : up m a d 0 -> a = d.
Proof. intros H. inversion H as [|? ? ? ? k ? ? Hup]; [done|]. apply up_nonneg in Hup. lia. Qed.

(** A walk reads only the items it passes. *)
Lemma up_agree m' a d n :
  (forall x k, up m x d k -> nd_Parent <$> (m' !! x) = nd_Parent <$> (m !! x)) -> up m a d n -> up m' a d n.
Proof.
  intros Heq H. induction H as [d r Hd|a d r p k Hd Hp H IH].
  - assert (nd_Parent <$> m' !! d = nd_Parent <$> m !! d) as E by (eapply Heq; by econstructor).
    rewrite Hd in E. destruct (m' !! d) as [r'|] eqn:E'; [|done]. by eapply up_self.
  - assert (nd_Parent <$> m' !! d = nd_Parent <$> m !! d) as E by (eapply Heq, up_self; eauto).
    rewrite Hd in E. destruct (m' !! d) as [r'|] eqn:E'; [|done]. injection E as E.
    eapply up_parent; [done|by rewrite E|]. apply IH. intros x j Hx. eapply Heq. eapply up_parent; eauto.
Qed.

End Up.

(** An exact closure gives each pair one depth, so nothing is above itself. *)
Lemma exact_det m c a d n k : exact m c -> up m a d n -> up m a d k -> n = k.
Proof. intros He H1%He H2%He. congruence. Qed.

Lemma exact_acyclic m c a n : exact m c -> up m a a n -> n = 0%Z.
Proof. intros He H. destruct (up_bottom _ _ _ _ H) as [r Hr]. eapply exact_det; [done..|]. by eapply up_self. Qed.

(** *** A new item *)
Section Insert.
Context (m : gmap string NodeRow) (id : string) (r : NodeRow).
Hypothesis Hfresh : m !! id = None.
Hypothesis Hrooted : rooted m.

Lemma up_not_new a n x : up m a x n -> a <> id /\ x <> id.
Proof using Hfresh.
  intros H. pose proof (up_top _ _ _ _ H) as [? Ht]. pose proof (up_bottom _ _ _ _ H) as [? Hb].
  split; intros ->; rewrite Hfresh in *; done.
Qed.

Lemma up_insert_old a d n : d <> id -> up (<[id := r]> m) a d n <-> up m a d n.
Proof using Hfresh Hrooted.
  intros Hd. split.
  - intros H. induction H as [d x Hx|a d x p k Hx Hp H IH]; rewrite lookup_insert_ne in Hx by done.
    + by eapply up_self.
    + eapply up_parent; [done..|]. apply IH. intros ->. destruct (Hrooted _ _ _ Hx Hp) as [y Hy]. by rewrite Hfresh in Hy.
  - apply up_agree. intros x k Hx. destruct (up_not_new _ _ _ Hx). by rewrite lookup_insert_ne.
Qed.

Lemma up_insert_new a n :
  (forall p, nd_Parent r = Some p -> p <> id) ->
  up (<[id := r]> m) a id n <-> (a = id /\ n = 0%Z) \/ exists p k, nd_Parent r = Some p /\ up m a p k /\ n = (k + 1)%Z.
Proof using Hfresh Hrooted.
  intros Hp. split.
  - intros H. inversion H as [d x Hx|? d x p k Hx Hpx Hup]; subst; [by left|]. right.
    rewrite lookup_insert_eq in Hx. injection Hx as <-. exists p, k. split; [done|]. split; [|done].
    apply up_insert_old in Hup; [done|]. by apply Hp.
  - intros [[-> ->]|(p & k & Hpr & Hup & ->)].
    + eapply up_self, lookup_insert_eq.
    + eapply up_parent; [apply lookup_insert_eq|done|]. apply up_insert_old; [by apply Hp|done].
Qed.

End Insert.

(** *** A moved item *)
Section Move.
Context (m : gmap string NodeRow) (c : gmap (string * string) Z) (v q : string) (r : NodeRow).
Hypothesis Hexact : exact m c.
Hypothesis Hv : m !! v = Some r.

Let m' := <[v := with_parent r (Some q)]> m.

Lemma move_lookup x : x <> v -> m' !! x = m !! x.
Proof using. intros H. unfold m'. by rewrite lookup_insert_ne. Qed.

Lemma up_move_outside a d n : (forall k, ~ up m v d k) -> up m' a d n <-> up m a d n.
Proof using Hv.
  intros Hd. split.
  - intros H. induction H as [d x Hx|a d x p k Hx Hp H IH].
    + assert (d <> v) by (intros ->; by apply (Hd 0%Z), (up_self _ _ r)). rewrite move_lookup in Hx by done. by eapply up_self.
    + assert (d <> v) by (intros ->; by apply (Hd 0%Z), (up_self _ _ r)). rewrite move_lookup in Hx by done.
      eapply up_parent; [done..|]. apply IH. intros j Hj. eapply Hd. eapply up_parent; eauto.
  - apply up_agree. intros x k Hx. destruct (decide (x = v)) as [->|Hne]; [by destruct (Hd k)|by rewrite move_lookup].
Qed.

(** Within the subtree nothing changes below the moved item. *)
Lemma up_move_inside a d k n : up m v d k -> up m a d n -> (n <= k)%Z -> up m' a d n.
Proof using Hexact Hv.
  intros Hk Hn. revert k Hk. induction Hn as [d x Hx|a d x p n Hx Hp Hn IH]; intros k Hk Hle.
  - destruct (decide (d = v)) as [->|Hne]; [eapply up_self; apply lookup_insert_eq|]. eapply up_self. by rewrite move_lookup.
  - destruct (up_inv _ _ _ _ Hk) as [[-> ->]|(x' & p' & k' & Hx' & Hp' & Hk' & ->)]; [apply up_nonneg in Hn; lia|].
    rewrite Hx in Hx'. injection Hx' as <-. rewrite Hp in Hp'. injection Hp' as <-.
    eapply (up_parent _ _ _ x); [|done|apply (IH k'); [done|lia]].
    rewrite move_lookup; [done|]. intros ->.
    apply (exact_acyclic _ _ _ _ Hexact) in Hk. apply up_nonneg in Hk'. lia.
Qed.

Hypothesis Hout : forall n, ~ up m v q n.

(** Above a subtree's item: what was there up to the moved item, then whatever
    is above the new parent. *)
Lemma up_move_spec a d k n :
  up m v d k -> up m' a d n <-> (up m a d n /\ (n <= k)%Z) \/ exists j, up m a q j /\ n = (j + 1 + k)%Z.
Proof using Hexact Hv Hout.
  intros Hk. split.
  - intros H. revert k Hk. induction H as [d x Hx|a d x p n Hx Hp H IH]; intros k Hk.
    + left. destruct (up_bottom _ _ _ _ Hk) as [y Hy]. split; [by eapply up_self|]. by eapply up_nonneg.
    + destruct (decide (d = v)) as [->|Hne].
      * right. unfold m' in Hx. rewrite lookup_insert_eq in Hx. injection Hx as <-. injection Hp as <-.
        apply (exact_acyclic _ _ _ _ Hexact) in Hk as ->. exists n. split; [|lia]. by apply up_move_outside in H.
      * rewrite move_lookup in Hx by done.
        destruct (up_inv _ _ _ _ Hk) as [[-> _]|(x' & p' & k' & Hx' & Hp' & Hk' & ->)]; [done|].
        rewrite Hx in Hx'. injection Hx' as <-. rewrite Hp in Hp'. injection Hp' as <-.
        destruct (IH k' Hk') as [[Hup Hle]|(j & Hup & ->)].
        -- left. split; [by eapply up_parent|lia].
        -- right. exists j. split; [done|lia].
  - intros [[Hup Hle]|(j & Hup & ->)]; [by eapply up_move_inside|].
    apply (up_trans m' a v); [|apply (up_move_inside v d k k); [done..|lia]].
    eapply up_parent; [apply lookup_insert_eq|done|]. by apply up_move_outside.
Qed.

End Move.
End Ancestry.

(** ** What the statements do to the closure *)
Module Links.
Import Pg ScopeTree Ancestry.

Lemma some_row_true {K A} `{Countable K} (p : K -> A -> bool) (m : gmap K A) :
  some_row p m = true <-> exists k a, m !! k = Some a /\ p k a = true.
Proof.
  unfold some_row. rewrite negb_true_iff. split.
  - intros Hf. destruct (decide (map_Exists (fun k a => p k a = true) m)) as [(k & a & Hk & Hp)|Hno]; [eauto|].
    assert (map_all (fun k a => negb (p k a)) m = true) as E; [|congruence].
    apply map_all_spec. intros k a Hk. apply negb_true_iff. destruct (p k a) eqn:Ep; [|done].
    destruct Hno. by exists k, a.
  - intros (k & a & Hk & Hp). apply (map_all_false _ _ k a Hk). by rewrite Hp.
Qed.

Lemma some_row_false {K A} `{Countable K} (p : K -> A -> bool) (m : gmap K A) :
  some_row p m = false <-> forall k a, m !! k = Some a -> p k a = false.
Proof.
  rewrite <- not_true_iff_false, some_row_true. split.
  - intros Hn k a Hk. destruct (p k a) eqn:E; [|done]. destruct Hn. eauto.
  - intros Hn (k & a & Hk & Hp). rewrite (Hn k a Hk) in Hp. done.
Qed.

Lemma ups_spec t d a n : (a, n) ∈ ups t d <-> t_closure t !! (a, d) = Some n.
Proof.
  unfold ups. rewrite list_elem_of_omap. split.
  - intros ([[a' d'] k] & Hin & Heq). case_bool_decide as Hd; [|done]. injection Heq as -> ->. subst d'.
    by apply elem_of_map_to_list in Hin.
  - intros Hk. exists ((a, d), n). split; [by apply elem_of_map_to_list|]. by rewrite bool_decide_true.
Qed.

Lemma downs_spec t a d n : (d, n) ∈ downs t a <-> t_closure t !! (a, d) = Some n.
Proof.
  unfold downs. rewrite list_elem_of_omap. split.
  - intros ([[a' d'] k] & Hin & Heq). case_bool_decide as Hd; [|done]. injection Heq as -> ->. subst a'.
    by apply elem_of_map_to_list in Hin.
  - intros Hk. exists ((a, d), n). split; [by apply elem_of_map_to_list|]. by rewrite bool_decide_true.
Qed.

(** Two tables that differ in the closure at most. *)
Definition same_but_closure (t t' : Tables) : Prop := t' = with_closure t (t_closure t').

Lemma insert_link_ok t a d n t' :
  insert_link t (a, d, n) = Ok t' ->
  t' = with_closure t (<[(a, d) := n]> (t_closure t)) /\ t_closure t !! (a, d) = None /\ (0 <= n <= 32767)%Z.
Proof.
  unfold insert_link. destruct (negb _) eqn:E1; [done|]. unbool. destruct (Z.ltb_spec n 0); [done|].
  destruct (t_closure t !! (a, d)) eqn:Ec; [by repeat split_match|]. destruct (t_nodes t !! a); [|done]. destruct (t_nodes t !! d); [|done].
  intros [= <-]. split; [done|]. split; [done|lia].
Qed.

Lemma insert_links_ok l : forall t t',
  insert_links t l = Ok t' ->
  same_but_closure t t' /\ (forall a d n, (a, d, n) ∈ l -> (0 <= n <= 32767)%Z) /\
  forall a d n, t_closure t' !! (a, d) = Some n <-> t_closure t !! (a, d) = Some n \/ (a, d, n) ∈ l.
Proof.
  induction l as [|[[a d] n] l IH]; intros t t' H.
  - injection H as <-. split; [by destruct t|]. split; [by intros ? ? ? ?%not_elem_of_nil|]. set_solver.
  - cbn [insert_links] in H. destruct (insert_link t (a, d, n)) as [t1|] eqn:E; [|done].
    apply insert_link_ok in E as (-> & Hno & Hn). apply IH in H as (Hs & Hb & Hl). clear IH. cbn [with_closure t_closure] in Hl.
    split; [by rewrite Hs|]. split.
    { intros a' d' n' [[= -> -> ->]|Hin]%elem_of_cons; [done|by eapply Hb]. }
    intros a' d' n'. rewrite Hl, lookup_insert_Some, elem_of_cons. split.
    + intros [[[[= -> ->] ->]|[_ ?]]|?]; auto.
    + intros [Hk|[[= -> -> ->]|Hin]]; auto. left. right. split; [|done]. intros [= -> ->]. by rewrite Hno in Hk.
Qed.

(** Fresh pairs of items, within a smallint, are linked. *)
Lemma insert_links_succeed l : forall t,
  NoDup (map fst l) ->
  (forall a d n, (a, d, n) ∈ l -> (0 <= n <= 32767)%Z /\ t_closure t !! (a, d) = None /\ is_Some (t_nodes t !! a) /\ is_Some (t_nodes t !! d)) ->
  exists t', insert_links t l = Ok t'.
Proof.
  induction l as [|[[a d] n] l IH]; intros t Hnd Hl; [by exists t|].
  cbn [map fst] in Hnd. apply NoDup_cons in Hnd as [Hnew Hnd].
  destruct (Hl a d n) as (Hn & Hc & [x Hx] & [y Hy]); [by left|].
  assert (insert_link t (a, d, n) = Ok (with_closure t (<[(a, d) := n]> (t_closure t)))) as E.
  { unfold insert_link. replace (-32768 <=? n)%Z with true by lia. replace (n <=? 32767)%Z with true by lia.
    replace (n <? 0)%Z with false by lia. simpl. by rewrite Hc, Hx, Hy. }
  cbn [insert_links]. rewrite E. apply IH; [done|]. intros a' d' n' Hin.
  destruct (Hl a' d' n') as (Hn' & Hc' & Ha' & Hd'); [by right|]. cbn [with_closure t_closure t_nodes].
  split; [done|]. split; [|done]. rewrite lookup_insert_ne; [done|]. intros [= -> ->].
  apply Hnew. apply list_elem_of_fmap. by exists (a', d', n').
Qed.

(** *** The closure after an insert and after a move *)
Lemma exact_insert t t' id (r : NodeRow) :
  t_nodes t !! id = None -> rooted (t_nodes t) -> exact (t_nodes t) (t_closure t) -> nd_Parent r <> Some id ->
  insert_links (with_nodes t (<[id := r]> (t_nodes t)))
    (match nd_Parent r with Some p => map (fun '(a, k) => (a, id, (k + 1)%Z)) (ups t p) | None => [] end ++ [(id, id, 0%Z)]) = Ok t' ->
  exact (t_nodes t') (t_closure t').
Proof.
  intros Hf Hr He Hself Hins. apply insert_links_ok in Hins as (Hs & _ & Hl). intros a d n. rewrite Hl, Hs. cbn.
  rewrite elem_of_app, list_elem_of_singleton.
  assert (forall a d n, (a, d, n) ∈ match nd_Parent r with Some p => map (fun '(a, k) => (a, id, (k + 1)%Z)) (ups t p) | None => [] end <->
    d = id /\ exists p k, nd_Parent r = Some p /\ up (t_nodes t) a p k /\ n = (k + 1)%Z) as Habove.
  { intros a' d' n'. destruct (nd_Parent r) as [p|].
    - rewrite list_elem_of_fmap. split.
      + intros ([a0 k] & [= -> -> ->] & Hin%ups_spec%He). split; [done|]. by exists p, k.
      + intros (-> & p0 & k & [= <-] & Hup & ->). exists (a', k). split; [done|]. by apply ups_spec, He.
    - split; [by intros ?%not_elem_of_nil|by intros (_ & ? & ? & ? & _)]. }
  rewrite Habove, (He a d n). destruct (decide (d = id)) as [->|Hne].
  - rewrite (up_insert_new _ _ _ Hf Hr) by (intros p Hp ->; by rewrite Hp in Hself). split.
    + intros [Hup|[[_ H]|[= -> ->]]]; [|by right|by left]. by destruct (up_not_new _ _ Hf _ _ _ Hup).
    + intros [[-> ->]|H]; auto.
  - rewrite (up_insert_old _ _ _ Hf Hr) by done. split; [|by left]. intros [?|[[? _]|[= -> ->]]]; done.
Qed.

Lemma severed_spec t v a d n :
  exact (t_nodes t) (t_closure t) ->
  severed t v !! (a, d) = Some n <->
  up (t_nodes t) a d n /\ ~ ((exists k, up (t_nodes t) v d k) /\ a <> v /\ exists j, up (t_nodes t) a v j).
Proof.
  intros He. unfold severed. rewrite map_lookup_filter_Some, (He a d n).
  assert (d ∈ map fst (downs t v) <-> exists k, up (t_nodes t) v d k) as ->.
  { rewrite list_elem_of_fmap. split.
    - intros ([d' k] & -> & Hin%downs_spec%He). by exists k.
    - intros [k Hk%He%downs_spec]. by exists (d, k). }
  rewrite list_elem_of_In, filter_In, <- list_elem_of_In, negb_true_iff, bool_decide_eq_false.
  assert (a ∈ map fst (ups t v) <-> exists j, up (t_nodes t) a v j) as ->; [|tauto].
  rewrite list_elem_of_fmap. split.
  - intros ([a' k] & -> & Hin%ups_spec%He). by exists k.
  - intros [k Hk%He%ups_spec]. by exists (a, k).
Qed.

Lemma grafts_spec t v q a d n :
  (a, d, n) ∈ grafts t v q <-> exists i j, t_closure t !! (a, q) = Some i /\ t_closure t !! (v, d) = Some j /\ n = (i + j + 1)%Z.
Proof.
  unfold grafts. rewrite list_elem_of_In, in_flat_map. setoid_rewrite <- list_elem_of_In. split.
  - intros ([a' i] & Ha%ups_spec & Hin). apply list_elem_of_fmap in Hin as ([d' j] & [= -> -> ->] & Hd%downs_spec). by exists i, j.
  - intros (i & j & Ha%ups_spec & Hd%downs_spec & ->). exists (a, i). split; [done|]. apply list_elem_of_fmap. by exists (d, j).
Qed.

Section Moved.
Context (t : Tables) (v q : string) (r : NodeRow).
Hypothesis He : exact (t_nodes t) (t_closure t).
Hypothesis Hv : t_nodes t !! v = Some r.
Hypothesis Hout : forall n, ~ up (t_nodes t) v q n.

Abbreviation t1 := (with_closure t (severed t v)).

(** What is kept of the links into the subtree: those from inside it. *)
Lemma severed_inside a d k n :
  up (t_nodes t) v d k -> severed t v !! (a, d) = Some n <-> up (t_nodes t) a d n /\ (n <= k)%Z.
Proof using He.
  intros Hk. rewrite severed_spec by done. split; intros [Hup H]; (split; [done|]).
  - destruct (Z.le_gt_cases n k); [done|]. destruct H. split; [by exists k|].
    pose proof (up_line _ _ _ _ _ _ Hk Hup ltac:(lia)) as Hav. split; [|by exists (n - k)%Z].
    intros ->. pose proof (exact_det _ _ _ _ _ _ He Hup Hk). lia.
  - intros (_ & Hne & j & Hj). pose proof (up_trans _ _ _ _ _ _ Hj Hk) as Hup'.
    pose proof (exact_det _ _ _ _ _ _ He Hup Hup'). pose proof (up_nonneg _ _ _ _ Hj).
    assert (j = 0%Z) as -> by lia. by apply Hne, (up_zero _ _ _ Hj).
Qed.

Lemma severed_outside a d n : (forall k, ~ up (t_nodes t) v d k) -> severed t v !! (a, d) = Some n <-> up (t_nodes t) a d n.
Proof using He.
  intros Hd. rewrite severed_spec by done. split; [by intros [? _]|]. intros H. split; [done|].
  intros ((k & Hk) & _). by apply (Hd k).
Qed.

Lemma exact_move t2 :
  insert_links t1 (grafts t1 v q) = Ok t2 ->
  same_but_closure t t2 /\ exact (<[v := with_parent r (Some q)]> (t_nodes t)) (t_closure t2).
Proof using He Hv Hout.
  intros Hins. apply insert_links_ok in Hins as (Hs & _ & Hl). split; [by rewrite Hs|]. intros a d n. rewrite Hl, grafts_spec.
  cbn [with_closure t_closure]. destruct (t_closure t !! (v, d)) as [k|] eqn:Ek.
  - apply He in Ek. rewrite (up_move_spec (t_nodes t) (t_closure t) v q r He Hv Hout a d k n Ek), (severed_inside a d k n Ek).
    setoid_rewrite (severed_outside a q _ Hout). setoid_rewrite (severed_inside v d k _ Ek). split.
    + intros [?|(i & j & Hi & [Hj Hle] & ->)]; [by left|right]. exists i. split; [done|].
      rewrite (exact_det _ _ _ _ _ _ He Hj Ek). lia.
    + intros [?|(j & Hj & ->)]; [by left|right]. exists j, k. split; [done|]. split; [by split|lia].
  - assert (forall k, ~ up (t_nodes t) v d k) as Hd by (intros k Hk%He; by rewrite Hk in Ek).
    rewrite (up_move_outside (t_nodes t) v q r Hv a d n Hd), (severed_outside a d n Hd). split; [|by left].
    intros [?|(i & j & _ & Hj & _)]; [done|]. apply severed_spec in Hj as [Hj _]; [|done]. by destruct (Hd j).
Qed.

End Moved.

End Links.

(** ** A structure that is whole *)
Module Whole.
Import Pg ScopeTree Ancestry Links.

(** Where an item sits: a root is of the top level and under nothing, any other
    item under one of its own structure whose level its own level lists. *)
Definition placed (t : Tables) (n : NodeRow) : Prop :=
  exists ty, level_of t n = Some ty /\
  match nd_Parent n with
  | None => nd_Root n = true /\ ty_Parents ty = []
  | Some p => nd_Root n = false /\ exists up, t_nodes t !! p = Some up /\ same_axis n up = true /\ nd_Type up ∈ ty_Parents ty
  end.

(** No two rows clash on a unique index. *)
Definition clash (n m : NodeRow) : Prop :=
  (same_axis n m = true /\ is_Some (nd_Ref n) /\ nd_Ref m = nd_Ref n) \/
  (same_axis n m = true /\ nd_Root n = true /\ nd_Root m = true) \/
  (is_Some (nd_Parent n) /\ nd_Parent m = nd_Parent n /\ nd_Slug m = nd_Slug n).

Record tree_ok (t : Tables) : Prop := {
  to_exact : exact (t_nodes t) (t_closure t);
  to_depth : forall k n, t_closure t !! k = Some n -> (0 <= n <= scope_max_depth)%Z;
  to_placed : forall id n, t_nodes t !! id = Some n -> placed t n;
  to_checks : forall id n, t_nodes t !! id = Some n -> node_checks n = None;
  to_apart : forall i j n m, t_nodes t !! i = Some n -> t_nodes t !! j = Some m -> clash n m -> i = j;
  to_levels : forall tn code ty p, t_types t !! (tn, code) = Some ty -> p ∈ ty_Parents ty ->
    exists up, t_types t !! (tn, p) = Some up /\ ty_Axis up = ty_Axis ty;
  to_one_top : forall tn c1 c2 t1 t2, t_types t !! (tn, c1) = Some t1 -> t_types t !! (tn, c2) = Some t2 ->
    ty_Axis t1 = ty_Axis t2 -> ty_Parents t1 = [] -> ty_Parents t2 = [] -> c1 = c2
}.

Lemma tree_rooted t : tree_ok t -> rooted (t_nodes t).
Proof.
  intros Hok d n p Hd Hp. destruct (to_placed _ Hok _ _ Hd) as (ty & _ & Hpl). rewrite Hp in Hpl.
  destruct Hpl as (_ & u & Hu & _). by exists u.
Qed.

(** No item is above itself. *)
Lemma tree_acyclic t a n : tree_ok t -> up (t_nodes t) a a n -> n = 0%Z.
Proof. intros Hok. apply exact_acyclic with (c := t_closure t), Hok. Qed.

Lemma same_axis_sym n m : same_axis n m = same_axis m n.
Proof.
  unfold same_axis. f_equal; apply bool_decide_ext; split; congruence.
Qed.

Lemma clash_sym n m : clash n m -> clash m n.
Proof.
  unfold clash. rewrite (same_axis_sym m n). intros [(?&?&E)|[(?&?&?)|(?&E&?)]].
  - left. rewrite E. auto.
  - right. left. auto.
  - right. right. rewrite E. auto.
Qed.

Lemma node_unique_apart others n : node_unique others n = None -> forall j m, others !! j = Some m -> ~ clash n m.
Proof.
  unfold node_unique. intros H j m Hj.
  destruct (some_row _ others) eqn:E1 in H; [done|]. destruct (some_row _ others) eqn:E2 in H; [done|].
  destruct (some_row _ others) eqn:E3 in H; [done|].
  rewrite some_row_false in E1, E2, E3. specialize (E1 j m Hj). specialize (E2 j m Hj). specialize (E3 j m Hj). cbn in E1, E2, E3.
  intros [(Ha & Hr & Heq)|[(Ha & Hr & Heq)|(Hp & Hpe & Hs)]].
  - by rewrite Ha, !bool_decide_true in E1.
  - by rewrite Ha, Hr, Heq in E2.
  - by rewrite !bool_decide_true in E3.
Qed.

(** What a written row passed. *)
Lemma write_node_ok t id n t' :
  write_node t id n = Ok t' ->
  t' = with_nodes t (<[id := n]> (t_nodes t)) /\ node_checks n = None /\ node_unique (delete id (t_nodes t)) n = None /\
  node_fkeys t' n = None /\ type_guard t' n = None.
Proof.
  unfold write_node. cbn [first_of foldr]. destruct (node_checks n); [done|]. destruct (node_unique _ n); [done|].
  destruct (node_fkeys _ n) eqn:E1; [done|]. destruct (type_guard _ n) eqn:E2; [done|]. by intros [= <-].
Qed.

Lemma insert_node_ok t id n t' : insert_node t id n = Ok t' -> t_nodes t !! id = None /\ write_node t id n = Ok t'.
Proof. unfold insert_node. by destruct (t_nodes t !! id). Qed.

(** A row that passed sits where it may; a root has to be of a top level. *)
Lemma written_placed t id n t' :
  write_node t id n = Ok t' -> (nd_Root n = true -> forall ty, level_of t n = Some ty -> ty_Parents ty = []) -> placed t' n.
Proof.
  intros (-> & Hc & _ & Hf & Hg)%write_node_ok Hroot. unfold node_fkeys in Hf. unfold type_guard in Hg.
  change (level_of (with_nodes t (<[id:=n]> (t_nodes t))) n) with (level_of t n) in *.
  destruct (level_of t n) as [ty|] eqn:El; [|done]. exists ty. split; [done|]. unfold node_checks in Hc.
  destruct (nd_Parent n) as [p|] eqn:Ep.
  - destruct (nd_Root n); [by rewrite bool_decide_true in Hc|]. split; [done|].
    destruct (t_nodes _ !! p) as [u|] eqn:Eu; [|done]. exists u. split; [done|].
    destruct (same_axis n u); [|done]. split; [done|]. by case_bool_decide.
  - destruct (nd_Root n); [|by rewrite bool_decide_false in Hc by (by intros [? ?])]. split; [done|]. by apply Hroot.
Qed.

(** The other rows stay where they are when the written row keeps its place for
    its children: same tenant, structure and level. *)
Lemma others_placed t id n (m : NodeRow) j :
  placed t m -> t_nodes t !! j = Some m ->
  (forall o, t_nodes t !! id = Some o -> same_axis o n = true /\ nd_Type o = nd_Type n) ->
  placed (with_nodes t (<[id := n]> (t_nodes t))) m.
Proof.
  intros (ty & Hl & Hp) Hj Hn. exists ty. split; [done|]. destruct (nd_Parent m) as [p|]; [|done].
  destruct Hp as (Hr & u & Hu & Ha & Hin). split; [done|]. cbn [with_nodes t_nodes].
  destruct (decide (p = id)) as [->|Hne].
  - exists n. rewrite lookup_insert_eq. destruct (Hn u Hu) as [Hsa Hty]. split; [done|]. rewrite <- Hty. split; [|done].
    unfold same_axis in *. unbool. rewrite andb_true_iff, !bool_decide_eq_true in *. intuition congruence.
  - exists u. by rewrite lookup_insert_ne.
Qed.

Lemma apart_insert t id n :
  (forall i j n m, t_nodes t !! i = Some n -> t_nodes t !! j = Some m -> clash n m -> i = j) ->
  node_unique (delete id (t_nodes t)) n = None ->
  forall i j a b, <[id := n]> (t_nodes t) !! i = Some a -> <[id := n]> (t_nodes t) !! j = Some b -> clash a b -> i = j.
Proof.
  intros Hold Hu i j a b Hi Hj Hc. pose proof (node_unique_apart _ _ Hu) as Hn.
  apply lookup_insert_Some in Hi as [[<- <-]|[Hi1 Hi]], Hj as [[<- <-]|[Hj1 Hj]]; [done|..].
  - destruct (Hn j b); [by rewrite lookup_delete_ne|done].
  - destruct (Hn i a); [by rewrite lookup_delete_ne|by apply clash_sym].
  - by eapply Hold.
Qed.

Lemma depth_links t l t' :
  insert_links t l = Ok t' -> (forall k n, t_closure t !! k = Some n -> (0 <= n <= scope_max_depth)%Z) ->
  forall k n, t_closure t' !! k = Some n -> (0 <= n <= scope_max_depth)%Z.
Proof.
  intros (_ & Hb & Hl)%insert_links_ok Hd [a d] n [Hk|Hin]%Hl; [by eapply Hd|]. by eapply Hb.
Qed.

(** A new item with its links keeps a structure whole.  Its id is new, so it is
    not the parent it names either. *)
Lemma inserted_keeps t id r t1 t' :
  tree_ok t -> insert_node t id r = Ok t1 -> nd_Parent r <> Some id ->
  (nd_Root r = true -> forall ty, level_of t r = Some ty -> ty_Parents ty = []) ->
  insert_links t1 (match nd_Parent r with Some p => map (fun '(a, k) => (a, id, (k + 1)%Z)) (ups t p) | None => [] end ++ [(id, id, 0%Z)]) = Ok t' ->
  tree_ok t' /\ t_nodes t' = <[id := r]> (t_nodes t) /\ t_types t' = t_types t.
Proof.
  intros Hok Hins Hself Hroot Hl. apply insert_node_ok in Hins as [Hf Hw]. pose proof (written_placed _ _ _ _ Hw Hroot) as Hpl.
  destruct (write_node_ok _ _ _ _ Hw) as (-> & Hck & Hu & _ & _). pose proof (insert_links_ok _ _ _ Hl) as (Hs & _ & _).
  pose proof (exact_insert t t' id r Hf (tree_rooted _ Hok) (to_exact _ Hok) Hself Hl) as He.
  pose proof (depth_links _ _ _ Hl (to_depth _ Hok)) as Hd.
  rewrite Hs in He, Hd |- *. cbn in He, Hd |- *. split; [|done]. split; cbn; [done|done|..].
  - intros j m Hj. apply lookup_insert_Some in Hj as [[<- <-]|[Hne Hj]]; [done|].
    apply (others_placed t id r m j); [by apply (to_placed _ Hok) in Hj|done|]. intros o Ho. by rewrite Hf in Ho.
  - intros j m Hj. apply lookup_insert_Some in Hj as [[<- <-]|[Hne Hj]]; [done|by eapply (to_checks _ Hok)].
  - apply apart_insert; [apply Hok|done].
  - apply Hok.
  - apply Hok.
Qed.

(** The first of the rows a sort puts in order is one of them. *)
Lemma top_levels_spec t tn ax code ty :
  (code, ty) ∈ top_levels t tn ax -> t_types t !! (tn, code) = Some ty /\ ty_Axis ty = ax /\ ty_Parents ty = [].
Proof.
  unfold top_levels. intros Hin. apply list_elem_of_omap in Hin as ([[tn' c] y] & Hin & Heq).
  destruct (bool_decide (tn' = tn)) eqn:E1; [|done]. destruct (bool_decide (ty_Axis y = ax)) eqn:E2; [|done].
  destruct (bool_decide (ty_Parents y = [])) eqn:E3; [|done]. unbool. injection Heq as -> ->. subst.
  by apply elem_of_map_to_list in Hin.
Qed.

Lemma find_row_some {K A} `{Countable K} (p : K -> A -> bool) (m : gmap K A) k a :
  find_row p m = Some (k, a) -> m !! k = Some a /\ p k a = true.
Proof.
  unfold find_row. intros [Hin Hp]%find_some. split; [|done]. by apply elem_of_map_to_list, list_elem_of_In.
Qed.

Lemma find_row_none {K A} `{Countable K} (p : K -> A -> bool) (m : gmap K A) :
  find_row p m = None -> forall k a, m !! k = Some a -> p k a = false.
Proof.
  unfold find_row. intros Hn k a Hk. apply (find_none _ _ Hn (k, a)). by apply list_elem_of_In, elem_of_map_to_list.
Qed.

(** *** Each statement keeps it *)
Lemma ensure_root_keeps new_id tn ax t id t' :
  tree_ok t -> scope_ensure_root new_id tn ax t = Ok (id, t') ->
  tree_ok t' /\ t_types t' = t_types t /\
  exists n, t_nodes t' !! id = Some n /\ is_root_of tn ax n = true /\
    (t' = t \/ t_nodes t !! id = None /\ nd_Ref n = None /\ t_nodes t' = <[id := n]> (t_nodes t)).
Proof.
  intros Hok. unfold scope_ensure_root. destruct (find_row _ _) as [[i n]|] eqn:Ef.
  - intros [= <- <-]. apply find_row_some in Ef as [Hi Hr]. split; [done|]. split; [done|]. exists n. auto.
  - destruct (merge_sort by_code _) as [|[code ty] l] eqn:Em; [done|].
    assert ((code, ty) ∈ top_levels t tn ax) as (Hty & Hax & Hp)%top_levels_spec.
    { rewrite <- (merge_sort_Permutation by_code (top_levels t tn ax)), Em. by left. }
    destruct (insert_node _ _ _) as [t1|] eqn:Ei; [|done]. destruct (insert_link _ _) as [t2|] eqn:El; [|done]. intros [= <- <-].
    match type of Ei with insert_node _ _ ?r = _ => set (row := r) in Ei end.
    destruct (inserted_keeps t new_id row t1 t2) as (Hok2 & Hn & Ht); [done|done|done| | |].
    + intros _ ty' Hl. unfold level_of, row in Hl. cbn in Hl. rewrite Hty in Hl. case_bool_decide; [|done]. by injection Hl as <-.
    + change (insert_links t1 [(new_id, new_id, 0%Z)] = Ok t2). cbn [insert_links]. by rewrite El.
    + split; [done|]. split; [done|]. exists row. rewrite Hn, lookup_insert_eq. split; [done|].
      split; [unfold is_root_of, row; cbn; by rewrite !bool_decide_true|]. right. apply insert_node_ok in Ei as [Hf _]. done.
Qed.

Lemma add_node_keeps new_id tn ax ty parent slug name ref t id t' :
  tree_ok t -> new_id <> parent -> scope_add_node new_id tn ax ty parent slug name ref t = Ok (id, t') ->
  id = new_id /\ tree_ok t' /\ t_types t' = t_types t /\ t_nodes t !! id = None /\
  t_nodes t' = <[id := {| nd_Tenant := tn; nd_Parent := Some parent; nd_Root := false; nd_Status := "active"; nd_Axis := ax;
                          nd_Type := ty; nd_Slug := slug; nd_Name := name; nd_Ref := ref |}]> (t_nodes t).
Proof.
  intros Hok Hne. unfold scope_add_node. destruct (match sql_max _ with Some _ => _ | None => _ end); [done|].
  destruct (insert_node _ _ _) as [t1|] eqn:Ei; [|done]. destruct (insert_links _ _) as [t2|] eqn:El; [|done]. intros [= <- <-].
  match type of Ei with insert_node _ _ ?r = _ => set (row := r) in Ei |- * end.
  destruct (inserted_keeps t new_id row t1 t2) as (Hok2 & Hn & Ht); [done|done|intros [= E]; congruence|done|done|].
  apply insert_node_ok in Ei as [Hf _]. done.
Qed.

(** What a row keeps when it is moved. *)
Lemma move_node_keeps node parent t t' :
  tree_ok t -> is_Some (t_nodes t !! node) -> scope_move_node node parent t = Ok t' ->
  tree_ok t' /\ t_types t' = t_types t /\
  exists n, t_nodes t !! node = Some n /\ t_nodes t' = <[node := with_parent n (Some parent)]> (t_nodes t).
Proof.
  intros Hok [n Hn]. unfold scope_move_node. destruct (bool_decide _) eqn:Ec; [done|]. unbool.
  assert (forall k, ~ up (t_nodes t) node parent k) as Hout.
  { intros k Hk%(to_exact _ Hok). apply Ec. by exists k. }
  destruct (_ <? _)%Z; [done|]. destruct (insert_links _ _) as [t2|] eqn:El; [|done].
  destruct (exact_move t node parent n (to_exact _ Hok) Hn Hout t2 El) as [Hs He]. pose proof (depth_links _ _ _ El) as Hd.
  rewrite Hs. cbn [with_closure t_nodes]. rewrite Hn. intros Hw. destruct (write_node_ok _ _ _ _ Hw) as (-> & Hck & Hu & _ & _).
  assert (placed (with_nodes t2 (<[node:=with_parent n (Some parent)]> (t_nodes t))) (with_parent n (Some parent))) as Hpl.
  { rewrite Hs. apply (written_placed _ _ _ _ Hw). intros Hr. pose proof (to_placed _ Hok _ _ Hn) as (ty & Hl & _).
    unfold node_checks in Hck. cbn [with_parent nd_Root nd_Parent] in Hck, Hr.
    rewrite Hr, bool_decide_true in Hck by done. done. }
  rewrite Hs in Hpl. cbn in Hpl, Hu |- *. split; [|split; [done|by exists n]].
  split; cbn; [done| |..].
  - intros k m Hk. eapply Hd; [|exact Hk]. intros k' m' Hk'. cbn in Hk'. unfold severed in Hk'.
    apply map_lookup_filter_Some in Hk' as [Hk' _]. by eapply (to_depth _ Hok).
  - intros j m Hj. apply lookup_insert_Some in Hj as [[<- <-]|[Hne Hj]]; [done|].
    apply (others_placed t node _ m j); [by apply (to_placed _ Hok) in Hj|done|]. intros o Ho. rewrite Hn in Ho. injection Ho as <-.
    split; [|done]. unfold same_axis. cbn. by rewrite !bool_decide_true.
  - intros j m Hj. apply lookup_insert_Some in Hj as [[<- <-]|[Hne Hj]]; [done|by eapply (to_checks _ Hok)].
  - apply apart_insert; [apply Hok|done].
  - apply Hok.
  - apply Hok.
Qed.

Lemma clash_retitled n m name status : clash (retitled n name status) m <-> clash n m.
Proof. done. Qed.

Lemma retitle_keeps t id n name status :
  tree_ok t -> t_nodes t !! id = Some n -> status = "active"%string \/ status = "archived"%string ->
  tree_ok (with_nodes t (<[id := retitled n name status]> (t_nodes t))).
Proof.
  intros Hok Hn Hst. assert (forall x, nd_Parent <$> (<[id := retitled n name status]> (t_nodes t) !! x) = nd_Parent <$> (t_nodes t !! x)) as Hpar.
  { intros x. destruct (decide (x = id)) as [->|Hne]; [by rewrite lookup_insert_eq, Hn|by rewrite lookup_insert_ne]. }
  split; cbn; try apply Hok.
  - intros a d k. rewrite (to_exact _ Hok a d k). split; apply up_agree; intros x j _; by rewrite Hpar.
  - intros j m Hj. apply lookup_insert_Some in Hj as [[<- <-]|[Hne Hj]].
    + apply (others_placed t id (retitled n name status) n id); [by apply (to_placed _ Hok) in Hn|done|].
      intros o Ho. rewrite Hn in Ho. injection Ho as <-. split; [|done]. unfold same_axis. by rewrite !bool_decide_true.
    + apply (others_placed t id _ m j); [by apply (to_placed _ Hok) in Hj|done|].
      intros o Ho. rewrite Hn in Ho. injection Ho as <-. split; [|done]. unfold same_axis. by rewrite !bool_decide_true.
  - intros j m Hj. apply lookup_insert_Some in Hj as [[<- <-]|[Hne Hj]]; [|by eapply (to_checks _ Hok)].
    pose proof (to_checks _ Hok _ _ Hn) as Hck. unfold node_checks in *. cbn [retitled nd_Root nd_Parent nd_Slug nd_Status].
    destruct (negb (nd_Root n || _)); [done|]. destruct (nd_Root n && _); [done|]. destruct (bool_decide (nd_Slug n = _)); [done|].
    by destruct Hst as [-> | ->].
  - intros i j a b Hi Hj Hc.
    assert (forall x c, <[id:=retitled n name status]> (t_nodes t) !! x = Some c ->
      exists c', t_nodes t !! x = Some c' /\ (forall m, clash c m <-> clash c' m) /\ (forall m, clash m c <-> clash m c')) as Hold.
    { intros x c Hx. apply lookup_insert_Some in Hx as [[<- <-]|[_ Hx]]; [by exists n|by exists c]. }
    destruct (Hold i a Hi) as (a' & Hi' & Ha & _). destruct (Hold j b Hj) as (b' & Hj' & _ & Hb).
    apply (to_apart _ Hok i j a' b' Hi' Hj'). by apply Hb, Ha.
Qed.

Lemma axes_keep t m : tree_ok t -> tree_ok (with_axes t m).
Proof. intros Hok. split; cbn; apply Hok. Qed.

(** *** Levels *)
Lemma write_type_ok t tn code old ty t' :
  write_type t tn code old ty = Ok t' ->
  t' = with_types t (<[(tn, code) := ty]> (t_types t)) /\ type_rules t' tn code old ty = None.
Proof. unfold write_type. destruct (type_rules _ _ _ _ _) eqn:E; [done|]. by intros [= <-]. Qed.

Lemma find_nothing {A} (p : A -> bool) l : find p l = None -> forall x, x ∈ l -> p x = false.
Proof. intros H x Hx. apply (find_none _ _ H x). by apply list_elem_of_In. Qed.

(** The levels' own rules, after a write the trigger passed. *)
Lemma written_levels t tn code old ty t' :
  tree_ok t -> write_type t tn code old ty = Ok t' ->
  (forall o, t_types t !! (tn, code) = Some o -> ty_Axis o = ty_Axis ty) ->
  (forall n c y p, t_types t' !! (n, c) = Some y -> p ∈ ty_Parents y -> exists u, t_types t' !! (n, p) = Some u /\ ty_Axis u = ty_Axis y) /\
  (forall n c1 c2 y1 y2, t_types t' !! (n, c1) = Some y1 -> t_types t' !! (n, c2) = Some y2 ->
     ty_Axis y1 = ty_Axis y2 -> ty_Parents y1 = [] -> ty_Parents y2 = [] -> c1 = c2).
Proof.
  intros Hok Hw Hax. apply write_type_ok in Hw as [-> Hr]. unfold type_rules in Hr.
  destruct (foreign_level _ _ _ _) eqn:Ef; [done|]. destruct (second_top _ _ _ _) eqn:Es; [done|]. clear Hr. cbn in *.
  assert (ty_Parents ty = [] -> forall c o, c <> code -> t_types t !! (tn, c) = Some o -> ty_Axis o = ty_Axis ty -> ty_Parents o <> []) as Htop.
  { intros Hp c o Hc Ho Hao Hpo. unfold second_top in Es. rewrite Hp, bool_decide_true in Es by done. cbn in Es.
    rewrite some_row_false in Es. specialize (Es (tn, c) o). cbn in Es. rewrite lookup_insert_ne in Es by (intros [= E]; by rewrite E in Hc).
    specialize (Es Ho). by repeat case_bool_decide. }
  split.
  - intros n c y p Hy Hin. apply lookup_insert_Some in Hy as [[[= <- <-] <-]|[Hne Hy]].
    + destruct (decide (p = code)) as [->|Hp]; [exists ty; by rewrite lookup_insert_eq|].
      pose proof (find_nothing _ _ Ef p Hin) as Hf. cbn in Hf. rewrite bool_decide_false in Hf by done. cbn in Hf.
      destruct (<[_:=ty]> (t_types t) !! (tn, p)) as [u|]; [|done]. exists u. split; [done|]. by unbool.
    + destruct (to_levels _ Hok n c y p Hy Hin) as (u & Hu & Ha). destruct (decide ((tn, code) = (n, p))) as [[= <- <-]|Hn].
      * exists ty. rewrite lookup_insert_eq. split; [done|]. by rewrite <- (Hax u Hu).
      * exists u. by rewrite lookup_insert_ne.
  - intros n c1 c2 y1 y2 H1 H2 Ha Hp1 Hp2. destruct (decide (c1 = c2)) as [|Hc]; [done|]. exfalso.
    apply lookup_insert_Some in H1 as [[[= <- <-] <-]|[Hn1 H1]], H2 as [[Heq <-]|[Hn2 H2]].
    + by simplify_eq.
    + by eapply Htop.
    + simplify_eq. by eapply Htop.
    + by apply Hc, (to_one_top _ Hok n c1 c2 y1 y2).
Qed.

Lemma insert_type_keeps t tn code ty t' :
  tree_ok t -> insert_type t tn code ty = Ok t' -> tree_ok t' /\ t_nodes t' = t_nodes t.
Proof.
  intros Hok. unfold insert_type. destruct (negb _); [done|]. destruct (t_types t !! (tn, code)) eqn:Ety; [done|].
  destruct (t_axes t !! _); [|done]. intros Hw.
  destruct (written_levels _ _ _ _ _ _ Hok Hw) as [Hl Ht]; [intros o Ho; congruence|].
  apply write_type_ok in Hw as [-> _]. split; [|done]. split; cbn in *; try done; try apply Hok.
  intros id n Hn. destruct (to_placed _ Hok _ _ Hn) as (y & Hy & Hp). exists y. split; [|done].
  unfold level_of in *. cbn. rewrite lookup_insert_ne; [done|]. intros [= E1 E2]. subst.
  by rewrite Ety in Hy.
Qed.

(** A level keeps its items when its rules change: the trigger refuses to take
    away a rule one of them relies on. *)
Lemma update_type_keeps t tn code axis name parents n t' :
  tree_ok t -> update_type tn code axis name parents t = Ok (n, t') -> tree_ok t' /\ t_nodes t' = t_nodes t.
Proof.
  intros Hok. unfold update_type. destruct (t_types t !! (tn, code)) as [old|] eqn:Ety; [|by intros [= _ <-]].
  case_bool_decide as Hax; [|by intros [= _ <-]]. destruct (write_type _ _ _ _ _) as [t1|] eqn:Hw; [|done]. intros [= _ <-].
  destruct (written_levels _ _ _ _ _ _ Hok Hw) as [Hl Ht]; [intros o Ho; rewrite Ety in Ho; by injection Ho as <-|].
  apply write_type_ok in Hw as [-> Hr]. unfold type_rules in Hr.
  destruct (foreign_level _ _ _ _); [done|]. destruct (second_top _ _ _ _); [done|]. cbn [ty_Parents] in Hr.
  destruct (bool_decide (ty_Parents old = []) && _) eqn:Etop; [done|]. destruct (negb _ && bool_decide (parents = [])) eqn:Elow; [done|].
  destruct (broken_rule _ _ _ _ _) eqn:Eb; [done|]. split; [|done]. split; cbn in *; try done; try apply Hok.
  intros id m Hm. destruct (to_placed _ Hok _ _ Hm) as (y & Hy & Hp). unfold placed, level_of in *. cbn.
  destruct (decide ((nd_Tenant m, nd_Type m) = (tn, code))) as [[= E1 E2]|Hne]; [|rewrite lookup_insert_ne by done; by exists y].
  rewrite E1, E2, lookup_insert_eq. rewrite E1, E2, Ety in Hy. cbn. destruct (bool_decide (ty_Axis old = _)) eqn:Ea; [|done].
  injection Hy as <-. rewrite Hax in Ea. rewrite Ea. eexists. split; [done|]. destruct (nd_Parent m) as [p|] eqn:Ep.
  - destruct Hp as (Hroot & u & Hu & Hsa & Hin). split; [done|]. exists u. split; [done|]. split; [done|]. cbn.
    destruct (decide (nd_Type u ∈ parents)) as [|Hno]; [done|]. exfalso.
    pose proof (find_nothing _ _ Eb _ Hin) as Hbr. cbn in Hbr. rewrite bool_decide_false in Hbr by done. cbn in Hbr.
    unfold relied_on in Hbr. rewrite some_row_false in Hbr. specialize (Hbr id m Hm). cbn in Hbr. unbool.
    rewrite Ep, Hu, E1, E2, Ea, !bool_decide_true in Hbr by done. done.
  - destruct Hp as [Hroot Hnil]. split; [done|]. cbn. rewrite Hnil in Etop. by destruct parents.
Qed.

(** *** When a move goes through *)

(** What a move has to meet: not into its own subtree, no chain past the limit,
    under an item of the same structure whose level may take it, its slug free
    there. *)
Definition may_move (t : Tables) (v : string) (n : NodeRow) (q : string) : Prop :=
  (forall k, ~ up (t_nodes t) v q k) /\
  (forall a d i j, up (t_nodes t) a q i -> up (t_nodes t) v d j -> (i + j + 1 <= scope_max_depth)%Z) /\
  nd_Root n = false /\
  (exists u ty, t_nodes t !! q = Some u /\ same_axis n u = true /\ level_of t n = Some ty /\ nd_Type u ∈ ty_Parents ty) /\
  (forall j m, t_nodes t !! j = Some m -> nd_Parent m = Some q -> nd_Slug m = nd_Slug n -> j = v).

Lemma sql_max_spec l x : sql_max l = Some x -> x ∈ l /\ forall y, y ∈ l -> (y <= x)%Z.
Proof.
  destruct l as [|z l]; [done|]. cbn. intros [= <-]. revert z. induction l as [|w l IH]; intros z; cbn.
  - split; [by left|]. intros y [->|?%not_elem_of_nil]%elem_of_cons; done.
  - destruct (IH (Z.max z w)) as [H1 H2]. split.
    + apply elem_of_cons in H1 as [->|H1]; [|by right; right]. destruct (Z.max_spec z w) as [[_ ->]|[_ ->]]; [by right; left|by left].
    + intros y Hy. apply elem_of_cons in Hy as [->|Hy]; [specialize (H2 (Z.max z w) ltac:(by left)); lia|].
      apply elem_of_cons in Hy as [->|Hy]; [specialize (H2 (Z.max z w) ltac:(by left)); lia|]. apply H2. by right.
Qed.

Lemma sql_max_some l y : y ∈ l -> exists x, sql_max l = Some x.
Proof. destruct l; [by intros ?%not_elem_of_nil|]. cbn. eauto. Qed.

(** The limit check is on the deepest item the move would make. *)
Lemma depth_check t v q :
  exact (t_nodes t) (t_closure t) -> is_Some (t_nodes t !! v) -> is_Some (t_nodes t !! q) ->
  (default 0 (sql_max (map snd (ups t q))) + default 0 (sql_max (map snd (downs t v))) + 1 <= scope_max_depth)%Z <->
  forall a d i j, up (t_nodes t) a q i -> up (t_nodes t) v d j -> (i + j + 1 <= scope_max_depth)%Z.
Proof.
  intros He [n Hn] [u Hu].
  assert (forall a i, up (t_nodes t) a q i -> i ∈ map snd (ups t q)) as Hup.
  { intros a i H%He%ups_spec. apply list_elem_of_fmap. by exists (a, i). }
  assert (forall d j, up (t_nodes t) v d j -> j ∈ map snd (downs t v)) as Hdn.
  { intros d j H%He%downs_spec. apply list_elem_of_fmap. by exists (d, j). }
  destruct (sql_max_some _ _ (Hup q 0%Z (up_self _ _ _ Hu))) as [x Hx].
  destruct (sql_max_some _ _ (Hdn v 0%Z (up_self _ _ _ Hn))) as [y Hy]. rewrite Hx, Hy. cbn.
  apply sql_max_spec in Hx as [Hx1 Hx2]. apply sql_max_spec in Hy as [Hy1 Hy2]. split.
  - intros H a d i j Hi%Hup%Hx2 Hj%Hdn%Hy2. lia.
  - intros H. apply list_elem_of_fmap in Hx1 as ([a i] & -> & Ha%ups_spec%He). apply list_elem_of_fmap in Hy1 as ([d j] & -> & Hd%downs_spec%He).
    by apply (H a d).
Qed.

Lemma NoDup_omap {A B} (f : A -> option B) l :
  (forall x y b, f x = Some b -> f y = Some b -> x = y) -> NoDup l -> NoDup (omap f l).
Proof.
  intros Hf Hnd. induction Hnd as [|x l Hx Hnd IH]; cbn; [constructor|]. destruct (f x) as [b|] eqn:E; [|done].
  constructor; [|done]. intros (y & Hy & Hfy)%list_elem_of_omap. by rewrite (Hf x y b E Hfy) in Hx.
Qed.

Lemma NoDup_ups t d : NoDup (ups t d).
Proof.
  unfold ups. apply NoDup_omap; [|apply NoDup_map_to_list]. intros [[a x] n] [[b y] m] [c k].
  repeat case_bool_decide; by intros; simplify_eq.
Qed.

Lemma NoDup_downs t d : NoDup (downs t d).
Proof.
  unfold downs. apply NoDup_omap; [|apply NoDup_map_to_list]. intros [[a x] n] [[b y] m] [c k].
  repeat case_bool_decide; by intros; simplify_eq.
Qed.

(** Each pair is grafted once. *)
Lemma NoDup_grafts t v q : NoDup (map fst (grafts t v q)).
Proof.
  apply NoDup_fmap_fst.
  - intros [a d] n m (i & j & Hi & Hj & ->)%grafts_spec (i' & j' & Hi' & Hj' & ->)%grafts_spec. congruence.
  - unfold grafts. apply (NoDup_bind (fun '(a, i) => map (fun '(d, j) => (a, d, (i + j + 1)%Z)) (downs t v))).
    + intros [a i] [b j] [[c d] n] Ha Hb (? & ? & _)%list_elem_of_fmap (? & ? & _)%list_elem_of_fmap.
      destruct x, x0. simplify_eq. apply ups_spec in Ha, Hb. congruence.
    + intros [a i] _. apply NoDup_fmap_2_strong; [|apply NoDup_downs].
      intros [d1 j1] [d2 j2] H1 H2 [= <- Hj]. by replace j2 with j1 by lia.
    + apply NoDup_ups.
Qed.

(** The links of a move that is not into its own subtree are new. *)
Lemma grafts_linked t v q n :
  tree_ok t -> t_nodes t !! v = Some n -> is_Some (t_nodes t !! q) -> (forall k, ~ up (t_nodes t) v q k) ->
  (forall a d i j, up (t_nodes t) a q i -> up (t_nodes t) v d j -> (i + j + 1 <= scope_max_depth)%Z) ->
  exists t2, insert_links (with_closure t (severed t v)) (grafts (with_closure t (severed t v)) v q) = Ok t2.
Proof.
  intros Hok Hn Hq Hout Hdeep. pose proof (to_exact _ Hok) as He. apply insert_links_succeed; [apply NoDup_grafts|].
  intros a d k (i & j & Hi & Hj & ->)%grafts_spec. cbn [with_closure t_closure t_nodes] in *.
  apply (severed_outside _ _ He _ _ _ Hout) in Hi. apply severed_spec in Hj as [Hj _]; [|done].
  pose proof (up_nonneg _ _ _ _ Hi). pose proof (up_nonneg _ _ _ _ Hj). pose proof (Hdeep a d i j Hi Hj).
  unfold scope_max_depth in *. split; [lia|]. split; [|split; [by eapply up_top|by eapply up_bottom]].
  destruct (severed t v !! (a, d)) as [m|] eqn:Em; [|done]. apply (severed_inside _ _ He a d j m Hj) in Em as [Hm Hle].
  pose proof (up_line _ _ _ _ _ _ Hm Hj Hle) as Hva. by destruct (Hout (j - m + i)%Z (up_trans _ _ _ _ _ _ Hva Hi)).
Qed.

Lemma node_unique_free others n : (forall j m, others !! j = Some m -> ~ clash n m) -> node_unique others n = None.
Proof.
  intros H. unfold node_unique.
  rewrite (proj2 (some_row_false _ others)).
  2: { intros j m Hj. apply not_true_iff_false. intros Hc. unbool. destruct (H j m Hj). by left. }
  rewrite (proj2 (some_row_false _ others)).
  2: { intros j m Hj. apply not_true_iff_false. intros Hc. unbool. destruct (H j m Hj). by right; left. }
  rewrite (proj2 (some_row_false _ others)); [done|].
  intros j m Hj. apply not_true_iff_false. intros Hc. unbool. destruct (H j m Hj). by right; right.
Qed.

(** The row a move writes passes what [may_move] asks. *)
Lemma moved_row t v n q t2 :
  tree_ok t -> t_nodes t !! v = Some n -> may_move t v n q -> same_but_closure t t2 ->
  exists t', write_node t2 v (with_parent n (Some q)) = Ok t'.
Proof.
  intros Hok Hn (Hout & _ & Hroot & (u & ty & Hu & Hsa & Hl & Hin) & Hslug) Hs. rewrite Hs.
  assert (v <> q) as Hne by (intros ->; by destruct (Hout 0%Z (up_self _ _ _ Hn))).
  assert (node_checks (with_parent n (Some q)) = None) as Hc.
  { pose proof (to_checks _ Hok _ _ Hn) as Hc. unfold node_checks in *. cbn [with_parent nd_Root nd_Parent nd_Slug nd_Status].
    rewrite Hroot in *. rewrite (bool_decide_true (is_Some (Some q))) by done. cbn in *.
    destruct (negb (bool_decide (is_Some (nd_Parent n)))); [done|]. done. }
  assert (node_unique (delete v (t_nodes t)) (with_parent n (Some q)) = None) as Hun.
  { apply node_unique_free. intros j m Hj. apply lookup_delete_Some in Hj as [Hjv Hj].
    intros [Hc'|[(_ & Hc' & _)|(_ & Hp & Hs')]].
    - apply Hjv. symmetry. apply (to_apart _ Hok j v m n Hj Hn). apply clash_sym. by left.
    - cbn in Hc'. congruence.
    - apply Hjv. symmetry. by apply (Hslug j m). }
  unfold write_node. cbn [with_closure t_nodes first_of foldr]. rewrite Hc, Hun. unfold node_fkeys, type_guard.
  cbn [with_nodes with_closure t_nodes nd_Parent with_parent].
  change (level_of (with_nodes (with_closure t (t_closure t2)) (<[v:=with_parent n (Some q)]> (t_nodes t))) (with_parent n (Some q))) with (level_of t n).
  rewrite Hl, lookup_insert_ne, Hu by done.
  change (same_axis (with_parent n (Some q)) u) with (same_axis n u). rewrite Hsa, bool_decide_true by done. by eexists.
Qed.

(** A move goes through exactly when it may, on a whole structure. *)
Lemma move_iff t v n q :
  tree_ok t -> t_nodes t !! v = Some n -> (exists t', scope_move_node v q t = Ok t') <-> may_move t v n q.
Proof.
  intros Hok Hn. pose proof (to_exact _ Hok) as He. unfold scope_move_node.
  destruct (bool_decide _) eqn:Ec; unbool.
  { split; [by intros [? ?]|]. intros (Hout & _). destruct Ec as [k Hk%He]. by destruct (Hout k). }
  assert (forall k, ~ up (t_nodes t) v q k) as Hout by (intros k Hk%He; apply Ec; by exists k). split.
  - intros [t' H]. destruct (_ <? _)%Z eqn:Hdeep; [done|]. unbool.
    destruct (insert_links _ _) as [t2|] eqn:El; [|done]. destruct (exact_move t v q n He Hn Hout t2 El) as [Hs _].
    rewrite Hs in H. cbn [with_closure t_nodes] in H. rewrite Hn in H.
    destruct (write_node_ok _ _ _ _ H) as (-> & Hck & Hun & _ & _).
    assert (nd_Root n = false) as Hroot. { unfold node_checks in Hck. cbn in Hck. by destruct (nd_Root n). }
    destruct (written_placed _ _ _ _ H) as (ty & Hl & Hp); [intros Hr; cbn in Hr; congruence|]. cbn in Hp. destruct Hp as (_ & u & Hu & Hsa & Hin).
    assert (v <> q) as Hne by (intros ->; by destruct (Hout 0%Z (up_self _ _ _ Hn))). rewrite lookup_insert_ne in Hu by done.
    split; [done|]. split; [apply (depth_check t v q He); [by exists n|by exists u|done]|]. split; [done|].
    split; [by exists u, ty|]. intros j m Hj Hp Hsl. destruct (decide (j = v)) as [|Hjv]; [done|].
    destruct (node_unique_apart _ _ Hun j m); [cbn; by rewrite lookup_delete_ne|]. right. right. cbn. by rewrite Hp.
  - intros Hmay. pose proof Hmay as (_ & Hdeep & _ & (u & _ & Hu & _) & _).
    apply (depth_check t v q He) in Hdeep as Hle; [|by exists n|by exists u].
    destruct (_ <? _)%Z eqn:Hd; [unbool; lia|].
    destruct (grafts_linked t v q n Hok Hn ltac:(by exists u) Hout Hdeep) as [t2 El]. rewrite El.
    destruct (exact_move t v q n He Hn Hout t2 El) as [Hs _].
    destruct (moved_row t v n q t2 Hok Hn Hmay Hs) as [t' Hw]. exists t'.
    assert (t_nodes t2 = t_nodes t) as -> by (by rewrite Hs). by rewrite Hn.
Qed.

End Whole.
