(* ===== verification/Parity.v ===== *)
(** The two decisions over one database: authorize, the function in the database
    (internal/platform/schema/routines.go), and the gate's engine over the rows
    its snapshot queries return
    (internal/gate/adapter/postgres/rquery/snapshot.go and shares.go). *)

From Stdlib Require Import ZArith Lia Bool Ascii String.
From stdpp Require Import base gmap strings list.
From S2P Require Import Prelude.
From S2P Require Import GoStrings.
From S2P Require Import GoConv.
From S2P Require Import Snapshot.
From S2P Require Import Evaluator.
From S2P Require Import SnapshotLoad.
From S2P Require Import ScopeTree.
From S2P Require Import TreeProps.

Module Parity.
Import ScopeTree.

(** ** The tables both read *)
Record GrantT := {
  gt_ID : string; gt_Tenant : string; gt_Identity : string; gt_Role : string; gt_SelfScoped : bool;
  gt_ValidFrom : Time; gt_ValidUntil : option Time; gt_RevokedAt : option Time
}.
Record GrantScopeT := { gst_Grant : string; gst_Tenant : string; gst_Axis : string; gst_Node : string; gst_Inherit : bool; gst_Mode : string }.
Record ShareT := {
  sht_Tenant : string; sht_To : string; sht_Record : string; sht_Keys : list string; sht_ValidUntil : Time; sht_RevokedAt : option Time
}.
Record PermissionT := {
  pt_ID : string; pt_Tenant : string; pt_Key : string; pt_Risk : string; pt_MinAssurance : Z; pt_RequiresAmr : list string;
  pt_MaxAuthAge : option Z; pt_DeprecatedAt : option Time
}.
Record IdentityT := {
  it_ID : string; it_Tenant : string; it_TokenEpoch : Z; it_Status : string; it_Assurance : Z;
  it_DisabledAt : option Time; it_AnonymizedAt : option Time
}.
(** [db_role_perms]: role_permissions_effective, (role, permission). *)
Record Db := {
  db_tree : Tables; db_grants : list GrantT; db_grant_scopes : list GrantScopeT; db_shares : list ShareT;
  db_role_perms : list (string * string); db_permissions : list PermissionT; db_identities : list IdentityT
}.

Definition null {A} (x : option A) : bool := match x with None => true | Some _ => false end.

(** ** The snapshot's queries *)
Section Queries.
Context (db : Db) (tenant : string).

Definition SnapshotAxes : list Load.AxisRow :=
  omap (fun '((tn, code), a) => if bool_decide (tn = tenant) && bool_decide (ax_Status a = "active"%string)
                                then Some {| Load.ax_Code := code; Load.ax_DefaultEffect := ax_DefaultEffect a |} else None)
    (map_to_list (t_axes (db_tree db))).

Definition SnapshotNodes : list Load.NodeRow :=
  omap (fun '(id, n) => if bool_decide (nd_Tenant n = tenant) then Some {| Load.nr_ID := id; Load.nr_ParentID := nd_Parent n |} else None)
    (map_to_list (t_nodes (db_tree db))).

Definition SnapshotGrants : list Load.GrantRow :=
  omap (fun g => if bool_decide (gt_Tenant g = tenant) && null (gt_RevokedAt g)
                 then Some {| Load.gr_ID := gt_ID g; Load.gr_IdentityID := gt_Identity g; Load.gr_RoleID := gt_Role g;
                              Load.gr_SelfScoped := gt_SelfScoped g; Load.gr_ValidFrom := gt_ValidFrom g; Load.gr_ValidUntil := gt_ValidUntil g |}
                 else None) (db_grants db).

Definition SnapshotGrantScopes : list Load.GrantScopeRow :=
  omap (fun s => if bool_decide (gst_Tenant s = tenant)
                 then Some {| Load.gs_GrantID := gst_Grant s; Load.gs_AxisCode := gst_Axis s; Load.gs_ScopeNodeID := gst_Node s;
                              Load.gs_Inherit := gst_Inherit s; Load.gs_Exclude := bool_decide (gst_Mode s = "exclude"%string) |}
                 else None) (db_grant_scopes db).

Definition SnapshotShares (now : Time) : list Load.ShareRow :=
  omap (fun s => if bool_decide (sht_Tenant s = tenant) && null (sht_RevokedAt s) && (now <? sht_ValidUntil s)%Z
                 then Some {| Load.sr_ToIdentityID := sht_To s; Load.sr_Record := sht_Record s; Load.sr_PermissionKeys := sht_Keys s;
                              Load.sr_ValidUntil := sht_ValidUntil s |}
                 else None) (db_shares db).

(** role_permissions_effective JOIN permissions. *)
Definition SnapshotRolePermissions : list Load.RolePermissionRow :=
  flat_map (fun '(role, pid) =>
    omap (fun p => if bool_decide (pt_ID p = pid) && bool_decide (pt_Tenant p = tenant) && null (pt_DeprecatedAt p)
                   then Some {| Load.rp_RoleID := role; Load.rp_Key := pt_Key p |} else None) (db_permissions db)) (db_role_perms db).

Definition SnapshotPermissions : list Load.PermissionRow :=
  omap (fun p => if bool_decide (pt_Tenant p = tenant) && null (pt_DeprecatedAt p)
                 then Some {| Load.pr_Key := pt_Key p; Load.pr_Risk := pt_Risk p; Load.pr_MinAssurance := pt_MinAssurance p;
                              Load.pr_RequiresAmr := pt_RequiresAmr p; Load.pr_MaxAuthAgeSecs := default 0%Z (pt_MaxAuthAge p) |}
                 else None) (db_permissions db).

Definition SnapshotIdentities : list Load.IdentityRow :=
  omap (fun i => if bool_decide (it_Tenant i = tenant)
                 then Some {| Load.ir_ID := it_ID i; Load.ir_TokenEpoch := it_TokenEpoch i; Load.ir_Status := it_Status i;
                              Load.ir_AssuranceLevel := it_Assurance i;
                              Load.ir_Blocked := negb (null (it_DisabledAt i)) || negb (null (it_AnonymizedAt i)) |}
                 else None) (db_identities db).

End Queries.

(** ** authorize *)

(** key NOT LIKE '\_%' *)
Definition place_key (k : string) : bool := negb (bool_decide (str_take 1 k = "_"%string)).

(** The casts: every place, and the owner when it is read, is a uuid. *)
Definition castable (targets : gmap string string) : bool :=
  map_all (fun k v => if place_key k || bool_decide (k = "_owner"%string) then bool_decide (is_Some (Uuid.canon v)) else true) targets.

Section Authorize.
Context (db : Db) (now : Time) (p_identity p_tenant p_permission : string) (p_targets : gmap string string).

Definition place (axis : string) : option string := if place_key axis then p_targets !! axis ≫= Uuid.canon else None.

(** i.status = 'active' AND i.disabled_at IS NULL AND i.anonymized_at IS NULL *)
Definition unblocked (i : IdentityT) : bool :=
  bool_decide (it_Status i = "active"%string) && null (it_DisabledAt i) && null (it_AnonymizedAt i).

Definition confers (g : GrantT) (i : IdentityT) : bool :=
  existsb (fun rp => bool_decide (fst rp = gt_Role g) &&
    existsb (fun p => bool_decide (pt_ID p = snd rp) && bool_decide (pt_Tenant p = p_tenant) && bool_decide (pt_Key p = p_permission) &&
                      null (pt_DeprecatedAt p) && (pt_MinAssurance p <=? it_Assurance i)%Z) (db_permissions db)) (db_role_perms db).

Definition candidate (g : GrantT) : bool :=
  bool_decide (gt_Identity g = p_identity) && bool_decide (gt_Tenant g = p_tenant) && null (gt_RevokedAt g) &&
  (gt_ValidFrom g <=? now)%Z && match gt_ValidUntil g with None => true | Some u => (now <? u)%Z end &&
  existsb (fun i => bool_decide (it_ID i = gt_Identity g) && bool_decide (it_Tenant i = gt_Tenant g) && unblocked i && confers g i) (db_identities db).

(** Whether a binding covers the target of its axis. *)
Definition binding_covers (s : GrantScopeT) : bool :=
  match place (gst_Axis s) with
  | None => false
  | Some node => match t_closure (db_tree db) !! (gst_Node s, node) with
                 | Some depth => gst_Inherit s || (depth =? 0)%Z
                 | None => false
                 end
  end.
Definition verdict (s : GrantScopeT) : Z :=
  if negb (binding_covers s) then 2 else if bool_decide (gst_Mode s = "exclude"%string) then 0 else 1.

(** GROUP BY grant and axis: the least verdict is 1. *)
Definition on_axis (g : GrantT) (axis : string) : list GrantScopeT :=
  List.filter (fun s => bool_decide (gst_Grant s = gt_ID g) && bool_decide (gst_Axis s = axis)) (db_grant_scopes db).
Definition least (l : list Z) : option Z := match l with [] => None | n :: r => Some (foldl Z.min n r) end.
Definition satisfied (g : GrantT) (axis : string) : bool := bool_decide (least (map verdict (on_axis g axis)) = Some 1%Z).

Definition strict_addressed (g : GrantT) : bool :=
  map_all (fun '(tn, code) a =>
    negb (bool_decide (tn = p_tenant) && bool_decide (ax_DefaultEffect a = "deny"%string) && bool_decide (ax_Status a = "active"%string)) ||
    existsb (fun s => bool_decide (gst_Grant s = gt_ID g) && bool_decide (gst_Axis s = code)) (db_grant_scopes db)) (t_axes (db_tree db)).

Definition grant_authorizes (g : GrantT) : bool :=
  candidate g &&
  (negb (gt_SelfScoped g) || bool_decide ((p_targets !! "_owner" ≫= Uuid.canon) = Some p_identity)) &&
  forallb (fun s => negb (bool_decide (gst_Grant s = gt_ID g)) || satisfied g (gst_Axis s)) (db_grant_scopes db) &&
  strict_addressed g.

Definition share_authorizes (record : string) (s : ShareT) : bool :=
  bool_decide (sht_Tenant s = p_tenant) && bool_decide (sht_To s = p_identity) && bool_decide (sht_Record s = record) &&
  null (sht_RevokedAt s) && (now <? sht_ValidUntil s)%Z && bool_decide (p_permission ∈ sht_Keys s) &&
  existsb (fun i => bool_decide (it_ID i = sht_To s) && bool_decide (it_Tenant i = sht_Tenant s) && unblocked i &&
    existsb (fun p => bool_decide (pt_Tenant p = sht_Tenant s) && bool_decide (pt_Key p = p_permission) && null (pt_DeprecatedAt p) &&
                      (pt_MinAssurance p <=? it_Assurance i)%Z) (db_permissions db)) (db_identities db).

(** [None]: a cast that fails the statement. *)
Definition authorize : option bool :=
  if negb (castable p_targets) then None
  else Some (existsb grant_authorizes (db_grants db) ||
             match p_targets !! "_record" with Some record => existsb (share_authorizes record) (db_shares db) | None => false end).

End Authorize.

End Parity.

(** ** They agree *)
Module ParityProps.
Import ScopeIdx Evaluator ScopeTree Ancestry Links Whole Parity.

(** What the schema's keys guarantee of the tables, and that no grant ends in
    the year one, which Go reads as no end at all. *)
Record schema_ok (db : Db) (tenant : string) : Prop := {
  so_tree : tree_ok (db_tree db);
  so_ids : forall id, is_Some (t_nodes (db_tree db) !! id) -> id <> ""%string;
  so_size : (Z.of_nat (length (SnapshotNodes db tenant)) < 2 ^ 31)%Z;
  so_grants : NoDup (map gt_ID (db_grants db));
  so_scopes : forall s, s ∈ db_grant_scopes db -> place_key (gst_Axis s) = true /\
    (forall g, g ∈ db_grants db -> gt_ID g = gst_Grant s -> gt_Tenant g = gst_Tenant s) /\
    exists n, t_nodes (db_tree db) !! gst_Node s = Some n /\ nd_Tenant n = gst_Tenant s;
  so_perms : NoDup (map (fun p => (pt_Tenant p, pt_Key p)) (db_permissions db));
  so_idents : NoDup (map it_ID (db_identities db));
  so_until : forall g, g ∈ db_grants db -> gt_ValidUntil g <> Some 0%Z
}.

(** Targets as PostgreSQL prints uuids. *)
Definition printed (targets : gmap string string) : Prop :=
  forall k v, targets !! k = Some v -> place_key k = true \/ k = "_owner"%string -> Uuid.canon v = Some v.

(** *** The rows of a query *)
Lemma NoDup_query {A B K} (f : A -> option B) (key : B -> K) l :
  NoDup l -> (forall x y b c, x ∈ l -> y ∈ l -> f x = Some b -> f y = Some c -> key b = key c -> x = y) -> NoDup (map key (omap f l)).
Proof.
  intros Hnd. induction Hnd as [|x l Hx Hnd IH]; intros Hk; cbn; [constructor|].
  assert (NoDup (map key (omap f l))) as Hl.
  { apply IH. intros y z b c Hy Hz. apply Hk; by right. }
  destruct (f x) as [b|] eqn:Ef; [|done]. cbn. constructor; [|done].
  intros (c & Hc & (y & Hy & Hfy)%list_elem_of_omap)%list_elem_of_fmap.
  destruct Hx. by rewrite (Hk x y b c ltac:(by left) ltac:(by right) Ef Hfy Hc).
Qed.

Lemma NoDup_of_map {A B} (f : A -> B) l : NoDup (map f l) -> NoDup l.
Proof. apply NoDup_fmap_1. Qed.

Section Agree.
Context (db : Db) (tn : string) (Hok : schema_ok db tn).

Abbreviation nodes := (SnapshotNodes db tn).
Abbreviation closure := (t_closure (db_tree db)).
Abbreviation table := (t_nodes (db_tree db)).

Lemma snapshot_node id p : {| Load.nr_ID := id; Load.nr_ParentID := p |} ∈ nodes <->
  exists n, table !! id = Some n /\ nd_Tenant n = tn /\ nd_Parent n = p.
Proof using.
  unfold SnapshotNodes. rewrite list_elem_of_omap. split.
  - intros ([i n] & Hin%elem_of_map_to_list & Heq). destruct (bool_decide _) eqn:E; [|done]. unbool. injection Heq as -> <-. by exists n.
  - intros (n & Hn & Ht & <-). exists (id, n). split; [by apply elem_of_map_to_list|]. by rewrite bool_decide_true.
Qed.

Lemma known_snapshot t : known_node (Load.hierarchy nodes) t <-> exists n, table !! t = Some n /\ nd_Tenant n = tn.
Proof using.
  unfold known_node, Load.hierarchy. split.
  - intros (nd & ([id p] & -> & Hin)%list_elem_of_fmap & <-). apply snapshot_node in Hin as (n & ? & ? & _). by exists n.
  - intros (n & Hn & Ht). exists {| sn_ID := t; sn_Parent := default ""%string (nd_Parent n) |}. split; [|done].
    apply list_elem_of_fmap. exists {| Load.nr_ID := t; Load.nr_ParentID := nd_Parent n |}. split; [done|]. apply snapshot_node. by exists n.
Qed.

(** Everything above an item is in its tenant. *)
Lemma up_tenant t a d n x y :
  tree_ok t -> up (t_nodes t) a d n -> t_nodes t !! a = Some x -> t_nodes t !! d = Some y -> nd_Tenant x = nd_Tenant y.
Proof using.
  intros Hw H. revert x y. induction H as [d z Hz|a d z p k Hz Hp H IH]; intros x y Hx Hy; [congruence|].
  rewrite Hz in Hy. injection Hy as <-. destruct (to_placed _ Hw _ _ Hz) as (ty & _ & Hpl). rewrite Hp in Hpl.
  destruct Hpl as (_ & u & Hu & Hsa & _). rewrite (IH x u Hx Hu). unfold same_axis in Hsa. unbool. done.
Qed.

Lemma parent_snapshot a b : parent_of (Load.hierarchy nodes) a b <->
  exists n m, table !! a = Some n /\ nd_Tenant n = tn /\ nd_Parent n = Some b /\ table !! b = Some m /\ nd_Tenant m = tn.
Proof using Hok.
  unfold parent_of, Load.hierarchy. split.
  - intros (x & y & ([i p] & -> & Hx)%list_elem_of_fmap & ([j q] & -> & Hy)%list_elem_of_fmap & <- & <- & Hj & Hne). cbn in *.
    apply snapshot_node in Hx as (n & Hn & Ht & Hp). apply snapshot_node in Hy as (m & Hm & Hu & _).
    destruct p as [p|]; [|done]. cbn in *. subst j. exists n, m. done.
  - intros (n & m & Hn & Ht & Hp & Hm & Hu).
    exists {| sn_ID := a; sn_Parent := default ""%string (nd_Parent n) |},
           {| sn_ID := b; sn_Parent := default ""%string (nd_Parent m) |}.
    split; [|split; [|split; [done|split; [by rewrite Hp|split; [done|]]]]].
    + apply list_elem_of_fmap. exists {| Load.nr_ID := a; Load.nr_ParentID := nd_Parent n |}. split; [done|]. apply snapshot_node. by exists n.
    + apply list_elem_of_fmap. exists {| Load.nr_ID := b; Load.nr_ParentID := nd_Parent m |}. split; [done|]. apply snapshot_node. by exists m.
    + apply (so_ids _ _ Hok). by exists m.
Qed.

(** The pointers of the snapshot and the closure state one relation. *)
Lemma tc_closure t a n :
  table !! a = Some n -> nd_Tenant n = tn ->
  tc (parent_of (Load.hierarchy nodes)) t a <-> exists k, closure !! (a, t) = Some k /\ (0 < k)%Z.
Proof using Hok.
  intros Ha Ht. pose proof (so_tree _ _ Hok) as Hw. pose proof (to_exact _ Hw) as He. split.
  - intros H. induction H as [t a Hp|t b a Hp H IH].
    + apply parent_snapshot in Hp as (x & y & Hx & _ & Hpx & Hy & _). exists 1%Z. split; [|done]. apply He.
      apply (up_parent _ _ _ x a 0); [done..|by eapply up_self].
    + apply parent_snapshot in Hp as (x & y & Hx & _ & Hpx & _ & _). destruct (IH Ha) as (k & Hk%He & Hpos).
      exists (k + 1)%Z. split; [|lia]. apply He. by eapply up_parent.
  - intros (k & Hk%He & Hpos). revert Hpos. induction Hk as [d x Hx|a d x p k Hx Hp Hup IH]; [done|]. intros _.
    destruct (up_bottom _ _ _ _ Hup) as [y Hy]. assert (nd_Tenant y = tn) as Hyt by (by rewrite <- (up_tenant _ _ _ _ _ _ Hw Hup Ha Hy)).
    assert (nd_Tenant x = tn) as Hxt.
    { rewrite <- (up_tenant _ a d (k + 1) n x Hw); [done| |done|done]. by eapply up_parent. }
    assert (parent_of (Load.hierarchy nodes) d p) as Hpar by (apply parent_snapshot; by exists x, y).
    destruct (Z.eq_dec k 0%Z) as [->|Hk].
    + apply up_zero in Hup as ->. by apply tc_once.
    + eapply tc_l; [exact Hpar|]. apply IH; [done|]. pose proof (up_nonneg _ _ _ _ Hup). lia.
Qed.

(** A binding covers a place in the gate exactly when the closure says so. *)
Lemma covers_closure c t n :
  table !! sc_NodeID c = Some n -> nd_Tenant n = tn ->
  covers (Load.hierarchy nodes) t c <->
  exists k, closure !! (sc_NodeID c, t) = Some k /\ (sc_Inherit c || (k =? 0)%Z) = true.
Proof using Hok.
  intros Hn Ht. pose proof (so_tree _ _ Hok) as Hw. pose proof (to_exact _ Hw) as He.
  unfold covers. rewrite (tc_closure t _ n Hn Ht). split.
  - intros [<-|(Hi & k & Hk & _)].
    + exists 0%Z. split; [by eapply He, up_self|]. by rewrite orb_true_r.
    + exists k. split; [done|]. by rewrite Hi.
  - intros (k & Hk & Hor). destruct (Z.eqb_spec k 0) as [->|Hne].
    + left. apply He in Hk. by apply up_zero in Hk.
    + right. rewrite orb_false_r in Hor. split; [done|]. exists k. split; [done|]. apply He, up_nonneg in Hk. lia.
Qed.

(** *** One grant *)
Lemma least_spec l : least l = Some 1%Z <-> 1%Z ∈ l /\ forall z, z ∈ l -> (1 <= z)%Z.
Proof using.
  assert (forall r n, (foldl Z.min n r ∈ n :: r) /\ forall z, z ∈ n :: r -> (foldl Z.min n r <= z)%Z) as H.
  { induction r as [|m r IH]; intros n; cbn.
    - split; [by left|]. intros z [->|?%not_elem_of_nil]%elem_of_cons; done.
    - destruct (IH (Z.min n m)) as [H1 H2]. split.
      + apply elem_of_cons in H1 as [->|H1]; [|by right; right]. destruct (Z.min_spec n m) as [[_ ->]|[_ ->]]; [by left|by right; left].
      + intros z Hz. pose proof (H2 (Z.min n m) ltac:(by left)). apply elem_of_cons in Hz as [->|Hz]; [lia|].
        apply elem_of_cons in Hz as [->|Hz]; [lia|]. apply H2. by right. }
  destruct l as [|n r]; cbn; [split; [done|by intros [?%not_elem_of_nil _]]|]. destruct (H r n) as [H1 H2]. split.
  - intros [= Hf]. rewrite Hf in H1, H2. done.
  - intros [H3 H4]. f_equal. apply Z.le_antisymm; [by apply H2|by apply H4].
Qed.

Context (targets : gmap string string) (Hprinted : printed targets).

Lemma place_target axis : place_key axis = true -> place targets axis = targets !! axis.
Proof using Hprinted.
  intros Hk. unfold place. rewrite Hk. destruct (targets !! axis) as [v|] eqn:E; [|done]. cbn. apply (Hprinted axis v E). by left.
Qed.

(** A binding as the snapshot reads it. *)
Definition scope_row (s : GrantScopeT) : Load.GrantScopeRow :=
  {| Load.gs_GrantID := gst_Grant s; Load.gs_AxisCode := gst_Axis s; Load.gs_ScopeNodeID := gst_Node s;
     Load.gs_Inherit := gst_Inherit s; Load.gs_Exclude := bool_decide (gst_Mode s = "exclude"%string) |}.

Lemma snapshot_scope g gs :
  g ∈ db_grants db -> gt_Tenant g = tn -> Load.gs_GrantID gs = gt_ID g ->
  gs ∈ SnapshotGrantScopes db tn <-> exists s, s ∈ db_grant_scopes db /\ gst_Grant s = gt_ID g /\ gs = scope_row s.
Proof using Hok.
  intros Hg Ht Hid. unfold SnapshotGrantScopes. rewrite list_elem_of_omap. split.
  - intros (s & Hs & Heq). destruct (bool_decide _); [|done]. injection Heq as <-. exists s. done.
  - intros (s & Hs & Hgs & ->). exists s. split; [done|]. rewrite bool_decide_true; [done|].
    destruct (so_scopes _ _ Hok s Hs) as (_ & Hten & _). by rewrite <- (Hten g Hg (eq_sym Hgs)).
Qed.

Lemma binding_node s g : s ∈ db_grant_scopes db -> g ∈ db_grants db -> gst_Grant s = gt_ID g -> gt_Tenant g = tn ->
  exists n, table !! gst_Node s = Some n /\ nd_Tenant n = tn.
Proof using Hok.
  intros Hs Hg Hgs Ht. destruct (so_scopes _ _ Hok s Hs) as (_ & Hten & n & Hn & Hnt).
  exists n. split; [done|]. rewrite Hnt. by rewrite <- (Hten g Hg (eq_sym Hgs)).
Qed.

Lemma binding_covers_spec s g :
  s ∈ db_grant_scopes db -> g ∈ db_grants db -> gst_Grant s = gt_ID g -> gt_Tenant g = tn ->
  binding_covers db targets s = true <->
  exists t, targets !! gst_Axis s = Some t /\ covers (Load.hierarchy nodes) t (Load.constraint_of_row (scope_row s)).
Proof using Hok Hprinted.
  intros Hs Hg Hgs Ht. destruct (binding_node s g Hs Hg Hgs Ht) as (n & Hn & Hnt).
  destruct (so_scopes _ _ Hok s Hs) as (Hkey & _). unfold binding_covers. rewrite (place_target _ Hkey).
  destruct (targets !! gst_Axis s) as [t|]; [|by split; [|intros (? & ? & _)]].
  pose proof (covers_closure (Load.constraint_of_row (scope_row s)) t n Hn Hnt) as Hc. cbn in Hc. split.
  - intros H. exists t. split; [done|]. apply Hc. destruct (closure !! _) as [k|]; [|done]. by exists k.
  - intros (t' & [= <-] & H). apply Hc in H as (k & Hk & H). by rewrite Hk.
Qed.

Lemma bindings_spec g axis s : s ∈ on_axis db g axis <-> s ∈ db_grant_scopes db /\ gst_Grant s = gt_ID g /\ gst_Axis s = axis.
Proof using.
  unfold on_axis. rewrite list_elem_of_In, filter_In, <- list_elem_of_In, andb_true_iff, !bool_decide_eq_true. done.
Qed.

Lemma covered_known s g t :
  s ∈ db_grant_scopes db -> g ∈ db_grants db -> gst_Grant s = gt_ID g -> gt_Tenant g = tn ->
  covers (Load.hierarchy nodes) t (Load.constraint_of_row (scope_row s)) -> known_node (Load.hierarchy nodes) t.
Proof using Hok.
  intros Hs Hg Hgs Ht Hc. destruct (binding_node s g Hs Hg Hgs Ht) as (n & Hn & Hnt).
  apply (covers_closure (Load.constraint_of_row (scope_row s)) t n Hn Hnt) in Hc as (k & Hk & _). pose proof (so_tree _ _ Hok) as Hw. apply (to_exact _ Hw) in Hk.
  apply known_snapshot. destruct (up_bottom _ _ _ _ Hk) as [m Hm]. exists m. split; [done|].
  by rewrite <- (up_tenant _ _ _ _ _ _ Hw Hk Hn Hm).
Qed.

(** The least verdict is 1 exactly when some include covers the target and no
    exclude does. *)
Lemma satisfied_spec g axis :
  g ∈ db_grants db -> gt_Tenant g = tn ->
  satisfied db targets g axis = true <->
  exists t, targets !! axis = Some t /\ known_node (Load.hierarchy nodes) t /\
    (exists s, s ∈ on_axis db g axis /\ gst_Mode s <> "exclude"%string /\ covers (Load.hierarchy nodes) t (Load.constraint_of_row (scope_row s))) /\
    (forall s, s ∈ on_axis db g axis -> gst_Mode s = "exclude"%string -> ~ covers (Load.hierarchy nodes) t (Load.constraint_of_row (scope_row s))).
Proof using Hok Hprinted.
  intros Hg Ht. unfold satisfied. rewrite bool_decide_eq_true, least_spec. setoid_rewrite list_elem_of_fmap.
  assert (forall s, s ∈ on_axis db g axis -> binding_covers db targets s = true <->
    exists t, targets !! axis = Some t /\ covers (Load.hierarchy nodes) t (Load.constraint_of_row (scope_row s))) as Hb.
  { intros s (Hs & Hgs & <-)%bindings_spec. by apply (binding_covers_spec s g). }
  unfold verdict. split.
  - intros [(s & Hv & Hs) Hall]. destruct (binding_covers db targets s) eqn:Ec; [|done]. cbn in Hv.
    destruct (bool_decide (gst_Mode s = _)) eqn:Em; [done|]. unbool. destruct (proj1 (Hb s Hs) Ec) as (t & Ht' & Hc).
    exists t. split; [done|]. split; [|split; [by exists s|]].
    + pose proof Hs as (Hin & Hgs & _)%bindings_spec. by apply (covered_known s g).
    + intros s' Hs' Hm Hc'. specialize (Hall _ ltac:(by exists s')). cbn in Hall.
      rewrite (proj2 (Hb s' Hs')) in Hall by (by exists t). rewrite bool_decide_true in Hall by done. cbn in Hall. lia.
  - intros (t & Ht' & _ & (s & Hs & Hm & Hc) & Hex). split.
    + exists s. split; [|done]. rewrite (proj2 (Hb s Hs)) by (by exists t). by rewrite bool_decide_false.
    + intros z (s' & -> & Hs'). destruct (binding_covers db targets s') eqn:Ec; [|cbn; lia]. cbn.
      case_bool_decide as Hm'; [|lia]. exfalso. destruct (proj1 (Hb s' Hs') Ec) as (t' & Ht'' & Hc'). rewrite Ht' in Ht''.
      injection Ht'' as <-. by apply (Hex s').
Qed.

(** *** The whole question *)
Context (id permission : string) (now : Time).

Abbreviation rows_grant := (Load.row_grant_ok (SnapshotAxes db tn) nodes (SnapshotGrantScopes db tn) (SnapshotRolePermissions db tn) id permission targets now).

Definition grant_row (g : GrantT) : Load.GrantRow :=
  {| Load.gr_ID := gt_ID g; Load.gr_IdentityID := gt_Identity g; Load.gr_RoleID := gt_Role g;
     Load.gr_SelfScoped := gt_SelfScoped g; Load.gr_ValidFrom := gt_ValidFrom g; Load.gr_ValidUntil := gt_ValidUntil g |}.

Lemma snapshot_grant r : r ∈ SnapshotGrants db tn <-> exists g, g ∈ db_grants db /\ gt_Tenant g = tn /\ gt_RevokedAt g = None /\ r = grant_row g.
Proof using.
  unfold SnapshotGrants. rewrite list_elem_of_omap. split.
  - intros (g & Hg & Heq). destruct (_ && _) eqn:E; [|done]. unbool. injection Heq as <-. exists g.
    unfold null in *. destruct (gt_RevokedAt g); done.
  - intros (g & Hg & Ht & Hr & ->). exists g. split; [done|]. by rewrite bool_decide_true, Hr.
Qed.

Lemma snapshot_axis a : a ∈ SnapshotAxes db tn <->
  exists row, t_axes (db_tree db) !! (tn, Load.ax_Code a) = Some row /\ ax_Status row = "active"%string /\ Load.ax_DefaultEffect a = ax_DefaultEffect row.
Proof using.
  unfold SnapshotAxes. rewrite list_elem_of_omap. split.
  - intros ([[x c] row] & Hin%elem_of_map_to_list & Heq). destruct (_ && _) eqn:E; [|done]. unbool. injection Heq as <-. subst. by exists row.
  - intros (row & Hrow & Hs & He). exists ((tn, Load.ax_Code a), row). split; [by apply elem_of_map_to_list|].
    rewrite !bool_decide_true by done. destruct a. cbn in *. by subst.
Qed.

Lemma strict_spec g : g ∈ db_grants db -> gt_Tenant g = tn ->
  strict_addressed db tn g = true <->
  forall a, a ∈ SnapshotAxes db tn -> Load.ax_DefaultEffect a = "deny"%string ->
    exists gs, gs ∈ SnapshotGrantScopes db tn /\ Load.gs_GrantID gs = gt_ID g /\ Load.gs_AxisCode gs = Load.ax_Code a.
Proof using Hok.
  intros Hg Ht. unfold strict_addressed. rewrite map_all_spec. split.
  - intros H a Ha Hd. apply snapshot_axis in Ha as (row & Hrow & Hs & He). specialize (H _ _ Hrow). cbn in H.
    rewrite <- He, Hs, Hd, !bool_decide_true in H by done. cbn in H. apply existsb_spec in H as (s & Hin & Hb). unbool.
    exists (scope_row s). split; [|done]. apply (snapshot_scope g); [done..|]. by exists s.
  - intros H [x code] row Hrow. destruct (bool_decide (x = tn) && _ && _) eqn:E; [|done]. unbool. subst x. cbn. apply existsb_spec.
    destruct (H {| Load.ax_Code := code; Load.ax_DefaultEffect := ax_DefaultEffect row |}) as (gs & Hgs & Hid & Hax); [|done|].
    { apply snapshot_axis. by exists row. }
    apply (snapshot_scope g) in Hgs as (s & Hs & Hg' & ->); [|done..]. exists s. split; [done|]. cbn in Hax. by rewrite !bool_decide_true.
Qed.

Lemma rows_admit_spec g axis t :
  g ∈ db_grants db -> gt_Tenant g = tn ->
  Load.rows_admit nodes (SnapshotGrantScopes db tn) (grant_row g) axis t <->
  (exists s, s ∈ on_axis db g axis /\ gst_Mode s <> "exclude"%string /\ covers (Load.hierarchy nodes) t (Load.constraint_of_row (scope_row s))) /\
  (forall s, s ∈ on_axis db g axis -> gst_Mode s = "exclude"%string -> ~ covers (Load.hierarchy nodes) t (Load.constraint_of_row (scope_row s))).
Proof using Hok.
  intros Hg Ht. unfold Load.rows_admit. setoid_rewrite bindings_spec. split; intros [(gs & H1) H2]; split.
  - destruct H1 as (Hgs & Hid & Hax & Hx & Hc). apply (snapshot_scope g) in Hgs as (s & Hs & Hgr & ->); [|done..].
    exists s. cbn in Hx. unbool. done.
  - intros s (Hs & Hgr & Hax) Hm. apply (H2 (scope_row s)); [|done..|]; [|cbn; by rewrite bool_decide_true].
    apply (snapshot_scope g); [done..|]. by exists s.
  - destruct H1 as ((Hs & Hgr & Hax) & Hm & Hc). exists (scope_row gs). split; [apply (snapshot_scope g); [done..|by exists gs]|].
    cbn. rewrite bool_decide_false by done. done.
  - intros gs' Hgs' Hid Hax Hx. apply (snapshot_scope g) in Hgs' as (s & Hs & Hgr & ->); [|done..]. cbn in Hx. unbool. by apply H2.
Qed.

(** The role confers the permission, whatever the assurance. *)
Lemma confers_row role : (exists rp, rp ∈ SnapshotRolePermissions db tn /\ Load.rp_RoleID rp = role /\ Load.rp_Key rp = permission) <->
  exists p, p ∈ db_permissions db /\ (role, pt_ID p) ∈ db_role_perms db /\ pt_Tenant p = tn /\ pt_Key p = permission /\ pt_DeprecatedAt p = None.
Proof using Hok.
  unfold SnapshotRolePermissions. setoid_rewrite list_elem_of_In. setoid_rewrite in_flat_map. setoid_rewrite <- list_elem_of_In. split.
  - intros (rp & ([r pid] & Hin & Hrp) & Hr & Hk). apply list_elem_of_omap in Hrp as (p & Hp & Heq). destruct (_ && _) eqn:E; [|done].
    unbool. injection Heq as <-. cbn in *. subst. exists p. split; [done|]. split; [done|]. unfold null in *. by destruct (pt_DeprecatedAt p).
  - intros (p & Hp & Hin & Ht & Hk & Hd). exists {| Load.rp_RoleID := role; Load.rp_Key := permission |}. split; [|done].
    exists (role, pt_ID p). split; [done|]. apply list_elem_of_omap. exists p. split; [done|]. by rewrite !bool_decide_true, Hd, Hk.
Qed.

(** Who asks, and for what: an identity that may act and a permission within its
    assurance. *)
Definition gate_pair (i : IdentityT) (p : PermissionT) : Prop :=
  i ∈ db_identities db /\ it_ID i = id /\ it_Tenant i = tn /\ unblocked i = true /\
  p ∈ db_permissions db /\ pt_Tenant p = tn /\ pt_Key p = permission /\ pt_DeprecatedAt p = None /\ (pt_MinAssurance p <= it_Assurance i)%Z.

Lemma unblocked_spec i : unblocked i = true <->
  negb (null (it_DisabledAt i)) || negb (null (it_AnonymizedAt i)) = false /\ it_Status i = "active"%string.
Proof using.
  unfold unblocked. rewrite !andb_true_iff, bool_decide_eq_true, orb_false_iff, !negb_false_iff. tauto.
Qed.

Lemma gates_spec :
  (exists ir pr, ir ∈ SnapshotIdentities db tn /\ Load.ir_ID ir = id /\ Load.ir_Blocked ir = false /\ Load.ir_Status ir = "active"%string /\
     pr ∈ SnapshotPermissions db tn /\ Load.pr_Key pr = permission /\ (Load.pr_MinAssurance pr <= Load.ir_AssuranceLevel ir)%Z) <->
  exists i p, gate_pair i p.
Proof using.
  unfold SnapshotIdentities, SnapshotPermissions. setoid_rewrite list_elem_of_omap. split.
  - intros (ir & pr & (i & Hi & Hir) & Hid & Hb & Hst & (p & Hp & Hpr) & Hk & Hm).
    destruct (bool_decide (it_Tenant i = tn)) eqn:E1; [|done]. injection Hir as <-.
    destruct (_ && _) eqn:E2; [|done]. injection Hpr as <-. unbool. cbn in *. exists i, p.
    split; [done|]. split; [done|]. split; [done|]. split; [by apply unblocked_spec|]. unfold null in *. by destruct (pt_DeprecatedAt p).
  - intros (i & p & Hi & Hid & Ht & Hu & Hp & Hpt & Hk & Hd & Hm). apply unblocked_spec in Hu as [Hb Hs]. do 2 eexists.
    split; [exists i; split; [done|]; by rewrite bool_decide_true|]. split; [done|]. split; [exact Hb|]. split; [done|].
    split; [exists p; split; [done|]; by rewrite bool_decide_true, Hd|]. done.
Qed.

Lemma candidate_spec g :
  g ∈ db_grants db -> candidate db now id tn permission g = true <->
  gt_Identity g = id /\ gt_Tenant g = tn /\ gt_RevokedAt g = None /\ Load.row_live (grant_row g) now /\
  exists i p, gate_pair i p /\ (gt_Role g, pt_ID p) ∈ db_role_perms db.
Proof using Hok.
  intros Hg. unfold candidate. rewrite !andb_true_iff, !bool_decide_eq_true, Z.leb_le, existsb_spec.
  assert (match gt_ValidUntil g with None => true | Some u => (now <? u)%Z end = true <->
    match gt_ValidUntil g with None => True | Some u => u = 0%Z \/ (now < u)%Z end) as ->.
  { pose proof (so_until _ _ Hok g Hg) as Hz. destruct (gt_ValidUntil g) as [u|]; [|done]. rewrite Z.ltb_lt.
    split; [by right|]. intros [->|?]; done. }
  assert (null (gt_RevokedAt g) = true <-> gt_RevokedAt g = None) as -> by (destruct (gt_RevokedAt g); done).
  unfold Load.row_live, confers. cbn [grant_row Load.gr_ValidFrom Load.gr_ValidUntil]. split.
  - intros (((((Hi & Ht) & Hr) & Hf) & Hu) & i & Hin & Hb). unbool.
    match goal with H : existsb _ _ = true |- _ => apply existsb_spec in H as ([r pid] & Hrp & Hb) end. unbool.
    match goal with H : existsb _ _ = true |- _ => apply existsb_spec in H as (p & Hp & Hb) end. unbool. cbn in *. subst.
    split; [done|]. split; [done|]. split; [done|]. split; [done|]. exists i, p. split; [|done].
    split; [done|]. split; [congruence|]. split; [congruence|]. split; [done|]. unfold null in *. by destruct (pt_DeprecatedAt p).
  - intros (Hi & Ht & Hr & (Hf & Hu) & i & p & (Hin & Hid & Hit & Hub & Hp & Hpt & Hk & Hd & Hm) & Hrp).
    split; [done|]. exists i. split; [done|]. rewrite Hid, Hit, Hi, Ht, !bool_decide_true, Hub by done. cbn.
    apply existsb_spec. exists (gt_Role g, pt_ID p). split; [done|]. rewrite bool_decide_true by done. cbn.
    apply existsb_spec. exists p. split; [done|]. rewrite !bool_decide_true, Hd by done. cbn. by apply Z.leb_le.
Qed.

(** Two permissions of a tenant under one key are one. *)
Lemma perm_unique p q : p ∈ db_permissions db -> q ∈ db_permissions db -> pt_Tenant p = pt_Tenant q -> pt_Key p = pt_Key q -> p = q.
Proof using Hok.
  intros Hp Hq Ht Hk. apply (NoDup_map_inj (fun p => (pt_Tenant p, pt_Key p)) (db_permissions db)); [apply Hok|done..|].
  by rewrite Ht, Hk.
Qed.

Lemma owner_spec : (targets !! "_owner" ≫= Uuid.canon) = Some id <-> targets !! "_owner" = Some id.
Proof using Hprinted.
  destruct (targets !! "_owner") as [v|] eqn:E; [|done]. cbn. by rewrite (Hprinted _ _ E) by (by right).
Qed.

(** A grant authorizes in the database exactly when its row does at the gate. *)
Lemma grant_agrees g :
  g ∈ db_grants db ->
  grant_authorizes db now id tn permission targets g = true <->
  gt_Tenant g = tn /\ gt_RevokedAt g = None /\ (exists i p, gate_pair i p) /\ rows_grant (grant_row g).
Proof using Hok Hprinted.
  intros Hg. unfold grant_authorizes. rewrite !andb_true_iff, (candidate_spec g Hg), orb_true_iff, negb_true_iff, bool_decide_eq_true, owner_spec, forallb_spec.
  unfold Load.row_grant_ok. cbn [grant_row Load.gr_IdentityID Load.gr_RoleID Load.gr_SelfScoped Load.gr_ID]. rewrite (confers_row (gt_Role g)). split.
  - intros ((((Hi & Ht & Hr & Hl & i & p & Hgp & Hrp) & Hself) & Hsc) & Hst).
    split; [done|]. split; [done|]. split; [by exists i, p|]. split; [done|]. split; [done|].
    pose proof Hgp as (_ & _ & _ & _ & Hp & Hpt & Hk & Hd & _).
    split; [by exists p|]. split; [intros Hs; destruct Hself as [Hf|?]; [congruence|done]|]. split; [|by apply strict_spec].
    intros gs Hgs Hid. apply (snapshot_scope g) in Hgs as (s & Hs & Hgr & ->); [|done..]. specialize (Hsc s Hs).
    rewrite bool_decide_true in Hsc by done. cbn in Hsc. apply (satisfied_spec g) in Hsc as (t & Htt & Hkn & Hadm); [|done..].
    exists t. split; [done|]. split; [done|]. by apply rows_admit_spec.
  - intros (Ht & Hr & (i & p & Hgp) & Hi & Hl & (p' & Hp' & Hrp & Hpt' & Hk' & Hd') & Hself & Hsc & Hst).
    pose proof Hgp as (_ & _ & _ & _ & Hp & Hpt & Hk & _).
    assert (p' = p) as -> by (apply perm_unique; congruence).
    split; [split; [split|]|by apply strict_spec].
    + split; [done|]. split; [done|]. split; [done|]. split; [done|]. by exists i, p.
    + destruct (gt_SelfScoped g); [right; by apply Hself|by left].
    + intros s Hs. destruct (bool_decide_reflect (gst_Grant s = gt_ID g)) as [Hgr|]; [cbn|done].
      destruct (Hsc (scope_row s)) as (t & Htt & Hkn & Hadm); [apply (snapshot_scope g); [done..|by exists s]|done|].
      apply (satisfied_spec g); [done..|]. exists t. split; [done|]. split; [done|]. by apply (rows_admit_spec g) in Hadm.
Qed.

Lemma share_agrees t0 record :
  (t0 <= now)%Z ->
  existsb (share_authorizes db now id tn permission record) (db_shares db) = true <->
  (exists i p, gate_pair i p) /\ exists s, s ∈ SnapshotShares db tn t0 /\ Load.row_share_ok id permission record now s.
Proof using.
  intros Hle. rewrite existsb_spec. unfold share_authorizes, SnapshotShares, Load.row_share_ok. setoid_rewrite list_elem_of_omap. split.
  - intros (s & Hs & Hb). unbool. match goal with H : existsb _ _ = true |- _ => apply existsb_spec in H as (i & Hi & Hb) end. unbool.
    match goal with H : existsb _ _ = true |- _ => apply existsb_spec in H as (p & Hp & Hb) end. unbool. split.
    + exists i, p. unfold gate_pair. unfold null in *. destruct (pt_DeprecatedAt p); [done|].
      split; [done|]. split; [congruence|]. split; [congruence|]. split; [done|]. split; [done|]. split; [congruence|]. done.
    + eexists. split; [exists s; split; [done|]|].
      * rewrite bool_decide_true by congruence. match goal with H : null (sht_RevokedAt s) = true |- _ => rewrite H end.
        replace (t0 <? sht_ValidUntil s)%Z with true by lia. done.
      * done.
  - intros ((i & p & Hi & Hid & Hit & Hu & Hp & Hpt & Hk & Hd & Hm) & r & (s & Hs & Heq) & Hto & Hrec & Huntil & Hkeys).
    destruct (bool_decide (sht_Tenant s = tn) && _ && _) eqn:E; [|done]. unbool. injection Heq as <-. cbn in *. exists s. split; [done|].
    rewrite !andb_true_iff, !bool_decide_eq_true, Z.ltb_lt, existsb_spec. split; [by split_and!|]. exists i. split; [done|].
    rewrite !andb_true_iff, !bool_decide_eq_true, existsb_spec. split; [by split_and!; congruence|]. exists p. split; [done|].
    rewrite !andb_true_iff, !bool_decide_eq_true, Z.leb_le, Hd. split_and!; congruence || done.
Qed.

Lemma targets_castable : castable targets = true.
Proof using Hprinted.
  unfold castable. apply map_all_spec. intros k v Hk. destruct (place_key k || bool_decide (k = "_owner"%string)) eqn:E; [|done].
  apply bool_decide_eq_true. exists v. apply (Hprinted k v Hk). apply orb_true_iff in E as [?|?%bool_decide_eq_true]; auto.
Qed.

(** What authorize answers is what the rules say of the snapshot's rows. *)
Lemma authorize_rows t0 :
  (t0 <= now)%Z ->
  exists b, authorize db now id tn permission targets = Some b /\
    (b = true <-> Load.rows_authorize (SnapshotAxes db tn) nodes (SnapshotGrants db tn) (SnapshotGrantScopes db tn) (SnapshotShares db tn t0)
                    (SnapshotRolePermissions db tn) (SnapshotPermissions db tn) (SnapshotIdentities db tn) id permission targets now).
Proof using Hok Hprinted.
  intros Hle. unfold authorize. rewrite targets_castable. cbn [negb]. eexists. split; [done|].
  unfold Load.rows_authorize. rewrite orb_true_iff, gates_spec, existsb_spec. split.
  - intros [(g & Hg & Ha)|Hs].
    + apply grant_agrees in Ha as (Ht & Hr & Hgp & Hrow); [|done]. split; [done|]. left. exists (grant_row g). split; [|done].
      apply snapshot_grant. by exists g.
    + destruct (targets !! "_record") as [record|]; [|done]. apply (share_agrees t0) in Hs as (Hgp & s & Hs & Hsr); [|done].
      split; [done|]. right. by exists record, s.
  - intros [Hgp [(gr & Hgr & Hrow)|(record & s & Hrec & Hs & Hsr)]].
    + apply snapshot_grant in Hgr as (g & Hg & Ht & Hr & ->). left. exists g. split; [done|]. by apply grant_agrees.
    + right. rewrite Hrec. apply (share_agrees t0); [done|]. split; [done|]. by exists s.
Qed.

(** The snapshot's rows keep the keys of the tables. *)
Lemma snapshot_rows_ok : Load.rows_ok nodes (SnapshotGrants db tn) (SnapshotPermissions db tn) (SnapshotIdentities db tn).
Proof using Hok.
  split; [|apply Hok|..].
  - apply NoDup_query; [apply NoDup_map_to_list|]. intros [i n] [j m] b c Hi%elem_of_map_to_list Hj%elem_of_map_to_list Hb Hc Hk.
    destruct (bool_decide _); [|done]. destruct (bool_decide _); [|done]. injection Hb as <-. injection Hc as <-. cbn in Hk. subst j.
    rewrite Hi in Hj. by injection Hj as <-.
  - apply NoDup_query; [eapply NoDup_of_map, Hok|]. intros x y b c Hx Hy Hb Hc Hk. destruct (_ && _); [|done]. destruct (_ && _); [|done].
    injection Hb as <-. injection Hc as <-. apply (NoDup_map_inj gt_ID (db_grants db)); [apply Hok|done..].
  - apply NoDup_query; [eapply NoDup_of_map, Hok|]. intros x y b c Hx Hy Hb Hc Hk.
    destruct (bool_decide (pt_Tenant x = tn)) eqn:E1; [|done]. destruct (bool_decide (pt_Tenant y = tn)) eqn:E2; [|done]. unbool. cbn in Hb, Hc.
    destruct (null _); [|done]. destruct (null _); [|done]. injection Hb as <-. injection Hc as <-. cbn in Hk. apply perm_unique; congruence.
  - apply NoDup_query; [eapply NoDup_of_map, Hok|]. intros x y b c Hx Hy Hb Hc Hk. destruct (bool_decide _); [|done]. destruct (bool_decide _); [|done].
    injection Hb as <-. injection Hc as <-. apply (NoDup_map_inj it_ID (db_identities db)); [apply Hok|done..].
Qed.

End Agree.

(** What the snapshot's transaction reads at [t0]. *)
Definition snapshot_of (db : Db) (tenant : string) (t0 : Time) (version : option (option Z)) (revoked : list string) (routes : list Load.RouteRow) : Load.Rows := {|
  Load.q_isolation := Some "repeatable read"%string; Load.q_version := version; Load.q_axes := Some (SnapshotAxes db tenant);
  Load.q_nodes := Some (SnapshotNodes db tenant); Load.q_grants := Some (SnapshotGrants db tenant);
  Load.q_gscopes := Some (SnapshotGrantScopes db tenant); Load.q_shares := Some (SnapshotShares db tenant t0);
  Load.q_rps := Some (SnapshotRolePermissions db tenant); Load.q_perms := Some (SnapshotPermissions db tenant);
  Load.q_idents := Some (SnapshotIdentities db tenant); Load.q_revoked := Some revoked; Load.q_routes := Some routes |}.


End ParityProps.

(** ** A small company *)
Module ParitySample.
Import Evaluator ScopeTree Whole Parity ParityProps.

Definition acme : string := "t".
Definition hq : string := "hq".
Definition jakarta : string := "0190a0b0-0000-7000-8000-00000000000b".
Definition ann : string := "ann".

Definition or_else {A} (r : Sql A) (d : A) : A := match r with Ok a => a | Err _ => d end.

Definition bare : Tables := {|
  t_axes := {[(acme, "org"%string) := {| ax_DisplayName := "Organisation"; ax_DefaultEffect := "deny"; ax_Status := "active"; ax_SortOrder := 1;
                                         ax_Resolution := "{}"; ax_UISchema := "{}" |}]};
  t_types := ∅; t_nodes := ∅; t_closure := ∅ |}.
Definition one_level : Tables := Eval vm_compute in
  or_else (insert_type bare acme "company" {| ty_Axis := "org"; ty_DisplayName := "Company"; ty_Parents := [] |}) bare.
Definition two_levels : Tables := Eval vm_compute in
  or_else (insert_type one_level acme "office" {| ty_Axis := "org"; ty_DisplayName := "Office"; ty_Parents := ["company"; "office"]%string |}) bare.
Definition with_root : Tables := Eval vm_compute in
  snd (or_else (scope_ensure_root hq acme "org" two_levels) (""%string, bare)).
Definition with_office : Tables := Eval vm_compute in
  snd (or_else (scope_add_node jakarta acme "org" "office" hq "jakarta" "Jakarta" None with_root) (""%string, bare)).

Lemma bare_ok : tree_ok bare.
Proof.
  split; cbn; try done. intros a d n. rewrite lookup_empty. split; [done|]. intros H. by destruct H.
Qed.

Lemma step_company : insert_type bare acme "company" {| ty_Axis := "org"; ty_DisplayName := "Company"; ty_Parents := [] |} = Ok one_level.
Proof. vm_compute. reflexivity. Qed.
Lemma step_office :
  insert_type one_level acme "office" {| ty_Axis := "org"; ty_DisplayName := "Office"; ty_Parents := ["company"; "office"]%string |} = Ok two_levels.
Proof. vm_compute. reflexivity. Qed.
Lemma step_root : scope_ensure_root hq acme "org" two_levels = Ok (hq, with_root).
Proof. vm_compute. reflexivity. Qed.
Lemma step_jakarta : scope_add_node jakarta acme "org" "office" hq "jakarta" "Jakarta" None with_root = Ok (jakarta, with_office).
Proof. vm_cast_no_check (@eq_refl (Sql (string * Tables)) (Ok (jakarta, with_office))). Qed.

Lemma office_ok : tree_ok with_office.
Proof.
  destruct (insert_type_keeps _ _ _ _ _ bare_ok step_company) as [H1 _]. destruct (insert_type_keeps _ _ _ _ _ H1 step_office) as [H2 _].
  destruct (ensure_root_keeps _ _ _ _ _ _ H2 step_root) as [H3 _].
  assert (jakarta <> hq) as Hne by done.
  by destruct (add_node_keeps _ _ _ _ _ _ _ _ _ _ _ H3 Hne step_jakarta) as (_ & H4 & _).
Qed.

(** Ann may read everywhere in the company. *)
Definition db : Db := {|
  db_tree := with_office;
  db_grants := [{| gt_ID := "g1"; gt_Tenant := acme; gt_Identity := ann; gt_Role := "reader"; gt_SelfScoped := false; gt_ValidFrom := 10;
                   gt_ValidUntil := None; gt_RevokedAt := None |}];
  db_grant_scopes := [{| gst_Grant := "g1"; gst_Tenant := acme; gst_Axis := "org"; gst_Node := hq; gst_Inherit := true; gst_Mode := "include" |}];
  db_shares := []; db_role_perms := [("reader", "p1")]%string;
  db_permissions := [{| pt_ID := "p1"; pt_Tenant := acme; pt_Key := "doc:read"; pt_Risk := "low"; pt_MinAssurance := 0; pt_RequiresAmr := [];
                        pt_MaxAuthAge := None; pt_DeprecatedAt := None |}];
  db_identities := [{| it_ID := ann; it_Tenant := acme; it_TokenEpoch := 0; it_Status := "active"; it_Assurance := 1; it_DisabledAt := None;
                       it_AnonymizedAt := None |}] |}.

Lemma db_ok : schema_ok db acme.
Proof.
  split; [exact office_ok|..].
  - intros id [n Hn] ->. vm_compute in Hn. discriminate Hn.
  - vm_compute. reflexivity.
  - apply (bool_decide_unpack _). vm_compute. exact I.
  - intros s ->%list_elem_of_singleton. split; [reflexivity|]. split; [by intros g ->%list_elem_of_singleton|].
    eexists. split; vm_compute; reflexivity.
  - apply (bool_decide_unpack _). vm_compute. exact I.
  - apply (bool_decide_unpack _). vm_compute. exact I.
  - by intros g ->%list_elem_of_singleton.
Qed.


(** A place written in capitals is the same uuid to the database and an unknown
    place to the gate, which compares text: the two decide differently. *)
Definition JAKARTA : string := "0190A0B0-0000-7000-8000-00000000000B".
Example capitals_disagree :
  authorize db 30 ann acme "doc:read" {["org" := JAKARTA]} = Some true /\
  match Load.LoadSnapshot (fun _ => ∅) true acme "acme" 20 20 (snapshot_of db acme 20 None [] []) with
  | Ok d => Evaluate d ann "doc:read" {["org" := JAKARTA]} 30 = false
  | Err _ => False
  end.
Proof. vm_compute. done. Qed.

End ParitySample.
