(* ===== verification/SyncFeed.v ===== *)
(** What the structure handlers compute before the database is asked
    (internal/scope): the order of a feed (domain/sync_feed_sort.go), page tokens
    (domain/scope_node_record.go), slugs and levels
    (app/scope_admin_interactor.go). *)

From Stdlib Require Import ZArith Lia Bool Ascii String.
From stdpp Require Import base gmap strings list.
From S2P Require Import Prelude.
From S2P Require Import GoStrings.
From S2P Require Import Base64.
From S2P Require Import GoConv.
From S2P Require Import Shared.

(** ** sync_feed_row.go, sync_feed_sort.go *)
Module FeedSort.

Record SyncFeedRow := { Ref : string; ParentRef : string; Name : string; NodeType : string }.

(** [state]: int8 constants. *)
Inductive Mark := unvisited | inStack | done.
#[export] Instance Mark_eq_dec : EqDecision Mark.
Proof. solve_decision. Defined.

(** The first row of each ref. *)
Fixpoint index_from (i : nat) (rows : list SyncFeedRow) (m : gmap string nat) : gmap string nat :=
  match rows with
  | [] => m
  | r :: rest => index_from (S i) rest (match m !! Ref r with Some _ => m | None => <[Ref r := i]> m end)
  end.
Definition index_of (rows : list SyncFeedRow) : gmap string nat := index_from 0 rows ∅.

Section Sort.
Context (rows : list SyncFeedRow).

(** parent, hasParent *)
Definition parent_of (i : nat) : option nat :=
  match rows !! i with
  | None => None
  | Some r =>
      if bool_decide (ParentRef r = ""%string) then None
      else match index_of rows !! ParentRef r with
           | None => None
           | Some p => if bool_decide (p = i) then None else Some p
           end
  end.

(** One iteration of the inner loop: the loop ends or goes on.  [None] is a read
    out of bounds. *)
Inductive Turn := Stop (state : list Mark) (out : list SyncFeedRow)
                | Go (state : list Mark) (i : nat) (stack : list nat) (out : list SyncFeedRow).

Definition emit (state : list Mark) (i : nat) (stack : list nat) (out : list SyncFeedRow) : option Turn :=
  match rows !! i with
  | None => None
  | Some r =>
      let state := <[i := done]> state in
      let out := out ++ [r] in
      match stack with [] => Some (Stop state out) | j :: stack => Some (Go state j stack out) end
  end.

Definition turn (state : list Mark) (i : nat) (stack : list nat) (out : list SyncFeedRow) : option Turn :=
  match state !! i with
  | None => None
  | Some done => Some (Stop state out)
  | Some _ =>
      match parent_of i with
      | None => emit state i stack out
      | Some p =>
          match state !! p with
          | None => None
          | Some unvisited => Some (Go (<[i := inStack]> state) p (i :: stack) out)
          | Some _ => emit state i stack out
          end
      end
  end.

Fixpoint walk (fuel : nat) (state : list Mark) (i : nat) (stack : list nat) (out : list SyncFeedRow) : option (list Mark * list SyncFeedRow) :=
  match fuel with
  | O => None
  | S fuel =>
      match turn state i stack out with
      | None => None
      | Some (Stop state out) => Some (state, out)
      | Some (Go state i stack out) => walk fuel state i stack out
      end
  end.

(** Each row goes on the stack and off it at most once. *)
Definition fuel : nat := S (2 * length rows).

Fixpoint starts (l : list nat) (state : list Mark) (out : list SyncFeedRow) : option (list Mark * list SyncFeedRow) :=
  match l with
  | [] => Some (state, out)
  | i :: l =>
      match state !! i with
      | None => None
      | Some unvisited => match walk fuel state i [] out with None => None | Some (state, out) => starts l state out end
      | Some _ => starts l state out
      end
  end.

(** The last loop: whatever is still unplaced, in input order. *)
Definition unplaced (state : list Mark) : list SyncFeedRow :=
  omap (fun '(r, m) => if bool_decide (m = done) then None else Some r) (zip rows state).

Definition SortFeedParentsFirst : option (list SyncFeedRow) :=
  if (length rows <? 2)%nat then Some rows
  else match starts (seq 0 (length rows)) (replicate (length rows) unvisited) [] with
       | None => None
       | Some (state, out) => Some (out ++ unplaced state)
       end.

End Sort.

Definition row (r p : string) : SyncFeedRow := {| Ref := r; ParentRef := p; Name := r; NodeType := "" |}.
Example sort_ex : SortFeedParentsFirst [row "c" "b"; row "b" "a"; row "a" ""; row "x" "y"; row "y" "x"]
  = Some [row "a" ""; row "b" "a"; row "c" "b"; row "y" "x"; row "x" "y"].
Proof. vm_compute. reflexivity. Qed.

End FeedSort.

(** ** page tokens *)
Module PageToken.

Definition ErrBadPageToken : string := "malformed page token".

(** strings.LastIndex of one byte: the text before it and after it. *)
Fixpoint split_last (c : ascii) (s : string) : option (string * string) :=
  match s with
  | EmptyString => None
  | String a r =>
      match split_last c r with
      | Some (x, y) => Some (String a x, y)
      | None => if bool_decide (a = c) then Some (EmptyString, r) else None
      end
  end.

Definition NUL : ascii := chr 0.

Definition PageToken (name id : string) : string := Base64.encode (name ++ String NUL id).

Definition ParsePageToken (tok : string) : result string (string * string) :=
  if bool_decide (tok = ""%string) then Ok (""%string, ""%string)
  else match Base64.decode false tok with
       | None => Err ErrBadPageToken
       | Some decoded =>
           match split_last NUL decoded with
           | None => Err ErrBadPageToken
           | Some (name, id) => if bool_decide (id = ""%string) then Err ErrBadPageToken else Ok (name, id)
           end
       end.

Example token_ex : ParsePageToken (PageToken "Sales" "n1") = Ok ("Sales", "n1")%string /\ ParsePageToken "!" = Err ErrBadPageToken.
Proof. vm_compute. done. Qed.

End PageToken.

(** ** slugs *)
Module Slug.

Definition slug_char (a : ascii) : bool := Validate.lower a || Validate.digit a.

(** ReplaceAllString of [^a-z0-9]+ by a dash, byte by byte: every byte of a rune
    outside ASCII is outside the class, and a run makes one dash. *)
Fixpoint dashed (after_dash : bool) (s : string) : string :=
  match s with
  | EmptyString => EmptyString
  | String a r =>
      if slug_char a then String a (dashed false r)
      else if after_dash then dashed true r else String "-" (dashed true r)
  end.

Section Lower.
(** strings.ToLower, whose tables of runes are not these definitions'. *)
Context (ToLower : string -> string).

Definition slugify (name : string) : string :=
  let s := trim "-" (dashed false (ToLower name)) in
  let s := if (40 <? String.length s)%nat then str_take 40 s else s in
  if bool_decide (s = ""%string) then "node" else s.

(** The last six bytes. *)
Definition suffix (ref : string) : string :=
  ToLower (if (6 <? String.length ref)%nat then str_drop (String.length ref - 6) ref else ref).

End Lower.

Example slugify_ex : slugify str_lower "Head Office (Jakarta)" = "head-office-jakarta"%string /\ slugify str_lower "***" = "node"%string.
Proof. vm_compute. done. Qed.

End Slug.
