(* ===== verification/FeedProps.v ===== *)
(** What the feed's order, page tokens and slugs promise. *)

From Stdlib Require Import ZArith Lia Bool Ascii String.
From stdpp Require Import base gmap strings list relations.
From S2P Require Import Prelude.
From S2P Require Import GoStrings.
From S2P Require Import Base64.
From S2P Require Import GoConv.
From S2P Require Import Shared.
From S2P Require Import Tokens.
From S2P Require Import SyncFeed.

(** ** Parents first *)
Module FeedSortProps.
Import FeedSort.

Lemma index_from_spec rows : forall i m ref k,
  index_from i rows m !! ref = Some k ->
  m !! ref = Some k \/ (i <= k)%nat /\ exists r, rows !! (k - i)%nat = Some r /\ Ref r = ref.
Proof.
  induction rows as [|r rows IH]; intros i m ref k H; [by left|]. cbn in H. apply IH in H as [H|(Hle & x & Hx & Hr)].
  - destruct (m !! Ref r) eqn:E; [by left|]. apply lookup_insert_Some in H as [[<- <-]|[_ H]]; [|by left].
    right. split; [done|]. exists r. by rewrite Nat.sub_diag.
  - right. split; [lia|]. exists x. split; [|done]. replace (k - i)%nat with (S (k - S i)) by lia. done.
Qed.

Section Sorting.
Context (rows : list SyncFeedRow).

(** Row [i] names row [p], another one. *)
Definition names (p i : nat) : Prop := parent_of rows i = Some p.

Lemma names_row p i : names p i -> (p < length rows)%nat /\ p <> i /\
  exists x y, rows !! p = Some x /\ rows !! i = Some y /\ Ref x = ParentRef y.
Proof using.
  unfold names, parent_of. destruct (rows !! i) as [y|]; [|done]. case_bool_decide; [done|].
  destruct (index_of rows !! ParentRef y) as [q|] eqn:E; [|done]. case_bool_decide as Hne; [done|]. intros [= <-].
  apply index_from_spec in E as [E|(_ & x & Hx & Hr)]; [by rewrite lookup_empty in E|]. rewrite Nat.sub_0_r in Hx.
  split; [by eapply lookup_lt_Some|]. split; [done|]. by exists x, y.
Qed.

(** An order of the rows in which each comes after the row it names, unless that
    row is below it. *)
Definition parents_first (order : list nat) : Prop :=
  forall l1 i l2, order = l1 ++ i :: l2 -> forall p, names p i -> p ∈ l1 \/ tc names i p.

Definition picks (order : list nat) (out : list SyncFeedRow) : Prop := Forall2 (fun i r => rows !! i = Some r) order out.

Lemma parents_first_snoc order i :
  parents_first order -> (forall p, names p i -> p ∈ order \/ tc names i p) -> parents_first (order ++ [i]).
Proof using.
  intros Ho Hi l1 j l2 Heq p Hp. destruct l2 as [|k l2 _] using rev_ind.
  - apply app_inj_tail in Heq as [-> ->]. by apply Hi.
  - rewrite app_comm_cons, app_assoc in Heq. apply app_inj_tail in Heq as [-> _]. by eapply Ho.
Qed.

(** The rows being placed: each is named by the next, from the bottom of the
    stack's row up. *)
Fixpoint chain (path : list nat) : Prop :=
  match path with
  | x :: ((y :: _) as rest) => names x y /\ chain rest
  | _ => True
  end.

Lemma chain_below path : forall x, chain (x :: path) -> forall y, y ∈ path -> tc names x y.
Proof using.
  induction path as [|z path IH]; intros x Hc y Hy; [by apply not_elem_of_nil in Hy|]. destruct Hc as [Hn Hc].
  apply elem_of_cons in Hy as [->|Hy]; [by apply tc_once|]. eapply tc_l; [exact Hn|]. by apply IH.
Qed.

(** The state of the walk: [order] is what has been emitted, [path] what is under
    way. *)
Record placing (state : list Mark) (path order : list nat) (out : list SyncFeedRow) : Prop := {
  pl_len : length state = length rows;
  pl_done : forall i, state !! i = Some done <-> i ∈ order;
  pl_stack : forall i, state !! i = Some inStack -> i ∈ path;
  pl_path : forall i, i ∈ path -> (i < length rows)%nat /\ i ∉ order;
  pl_marked : forall i, i ∈ tail path -> state !! i = Some inStack;
  pl_head : forall i p, head path = Some i -> state !! i = Some inStack -> names p i -> p ∈ order;
  pl_chain : chain path;
  pl_nodup : NoDup path;
  pl_order : NoDup order;
  pl_picks : picks order out;
  pl_first : parents_first order
}.

(** What is left to do: a row not yet reached is twice the work of one on the
    stack. *)
Definition weight (m : Mark) : nat := match m with unvisited => 2 | inStack => 1 | done => 0 end.
Definition work (state : list Mark) : nat := sum_list_with weight state.

Lemma work_insert state i m m' : state !! i = Some m -> (work (<[i := m']> state) + weight m = work state + weight m')%nat.
Proof using.
  unfold work. revert i. induction state as [|x state IH]; intros [|i] H; [done..| |].
  - injection H as ->. change (weight m' + sum_list_with weight state + weight m = weight m + sum_list_with weight state + weight m')%nat. lia.
  - specialize (IH i H). change (weight x + sum_list_with weight (<[i:=m']> state) + weight m = weight x + sum_list_with weight state + weight m')%nat. lia.
Qed.

(** Emitting the head of the path. *)
Lemma emit_placing state i stack order out :
  placing state (i :: stack) order out -> (forall p, names p i -> p ∈ order \/ tc names i p) ->
  exists r, rows !! i = Some r /\
  let state' := <[i := done]> state in
  emit rows state i stack out = Some (match stack with [] => Stop state' (out ++ [r]) | j :: stack => Go state' j stack (out ++ [r]) end) /\
  placing state' stack (order ++ [i]) (out ++ [r]) /\ (work state' < work state)%nat.
Proof using.
  intros H Hp. destruct (pl_path _ _ _ _ H i ltac:(by left)) as [Hlt Hnew].
  destruct (lookup_lt_is_Some_2 rows i Hlt) as [r Hr]. exists r. split; [done|].
  assert (i < length state)%nat as Hls by (by rewrite (pl_len _ _ _ _ H)).
  destruct (lookup_lt_is_Some_2 state i Hls) as [m Hm]. intros state'.
  split; [|split].
  - unfold emit. rewrite Hr. by destruct stack.
  - pose proof (pl_nodup _ _ _ _ H) as [Hni Hnd]%NoDup_cons. split.
    + unfold state'. rewrite length_insert. apply H.
    + intros j. unfold state'. rewrite elem_of_app, list_elem_of_singleton, <- (pl_done _ _ _ _ H).
      destruct (decide (j = i)) as [->|Hne]; [|rewrite list_lookup_insert_ne by done; naive_solver].
      rewrite list_lookup_insert_eq by done. naive_solver.
    + intros j Hj. unfold state' in Hj. destruct (decide (j = i)) as [->|Hne]; [by rewrite list_lookup_insert_eq in Hj|].
      rewrite list_lookup_insert_ne in Hj by done. apply (pl_stack _ _ _ _ H) in Hj. apply elem_of_cons in Hj as [->|?]; done.
    + intros j Hj. destruct (pl_path _ _ _ _ H j ltac:(by right)) as [? Hno]. split; [done|].
      rewrite elem_of_app, list_elem_of_singleton. intros [?| ->]; done.
    + intros j Hj. assert (j ∈ stack) as Hjs by (destruct stack; [by apply not_elem_of_nil in Hj|by right]).
      unfold state'. rewrite list_lookup_insert_ne by (by intros ->). by apply (pl_marked _ _ _ _ H).
    + intros j p Hj _ Hn. destruct stack as [|k stack]; [done|]. injection Hj as ->.
      destruct (pl_chain _ _ _ _ H) as [Hc _]. unfold names in *. rewrite Hc in Hn. injection Hn as <-. set_solver.
    + pose proof (pl_chain _ _ _ _ H) as Hc. destruct stack; [done|apply Hc].
    + done.
    + apply NoDup_snoc. split; [apply H|done].
    + apply Forall2_app; [apply H|]. by repeat constructor.
    + apply parents_first_snoc; [apply H|done].
  - pose proof (work_insert state i m done Hm) as Hw. unfold state'.
    assert (m <> done) as Hmd by (intros ->; by apply Hnew, (pl_done _ _ _ _ H)). destruct m; cbn in Hw; [lia|lia|done].
Qed.

(** Walking up to a row not yet reached. *)
Lemma push_placing state i p stack order out :
  placing state (i :: stack) order out -> state !! i = Some unvisited -> names p i -> state !! p = Some unvisited ->
  placing (<[i := inStack]> state) (p :: i :: stack) order out.
Proof using.
  intros H Hm Hn Hmp. destruct (names_row p i Hn) as (Hpl & Hpi & _). destruct (pl_path _ _ _ _ H i ltac:(by left)) as [Hlt Hnew].
  assert (i < length state)%nat as Hls by (by rewrite (pl_len _ _ _ _ H)).
  assert (p ∉ i :: stack) as Hpn.
  { intros [->|Hin]%elem_of_cons; [done|]. rewrite (pl_marked _ _ _ _ H p Hin) in Hmp. done. }
  split.
  - rewrite length_insert. apply H.
  - intros j. rewrite <- (pl_done _ _ _ _ H). destruct (decide (j = i)) as [->|Hne]; [|by rewrite list_lookup_insert_ne].
    rewrite list_lookup_insert_eq by done. rewrite Hm. done.
  - intros j Hj. destruct (decide (j = i)) as [->|Hne]; [by right; left|]. rewrite list_lookup_insert_ne in Hj by done.
    right. by apply (pl_stack _ _ _ _ H).
  - intros j [->|Hj]%elem_of_cons; [|by apply H]. split; [done|]. intros Hpo%(pl_done _ _ _ _ H). congruence.
  - intros j Hj. cbn in Hj. apply elem_of_cons in Hj as [->|Hj]; [by apply list_lookup_insert_eq|].
    pose proof (pl_nodup _ _ _ _ H) as [Hni _]%NoDup_cons. rewrite list_lookup_insert_ne by (by intros ->). by apply (pl_marked _ _ _ _ H).
  - intros j q [= <-] Hj. rewrite list_lookup_insert_ne in Hj by done. congruence.
  - split; [done|apply H].
  - constructor; [done|apply H].
  - apply H.
  - apply H.
  - apply H.
Qed.

(** One turn of the loop. *)
Lemma turn_placing state i stack order out :
  placing state (i :: stack) order out ->
  match turn rows state i stack out with
  | None => False
  | Some (Stop state' out') => stack = [] /\ (work state' < work state)%nat /\ placing state' [] (order ++ [i]) out'
  | Some (Go state' j stack' out') => (work state' < work state)%nat /\
      (exists order', placing state' (j :: stack') order' out' /\ order ⊆ order') /\ last (j :: stack') = last (i :: stack)
  end.
Proof using.
  intros H. destruct (pl_path _ _ _ _ H i ltac:(by left)) as [Hlt Hnew].
  assert (i < length state)%nat as Hls by (by rewrite (pl_len _ _ _ _ H)).
  destruct (lookup_lt_is_Some_2 state i Hls) as [m Hm]. unfold turn. rewrite Hm.
  assert (m <> done) as Hmd by (intros ->; by apply Hnew, (pl_done _ _ _ _ H)).
  assert ((forall p, names p i -> p ∈ order \/ tc names i p) ->
    match emit rows state i stack out with
    | None => False
    | Some (Stop state' out') => stack = [] /\ (work state' < work state)%nat /\ placing state' [] (order ++ [i]) out'
    | Some (Go state' j stack' out') => (work state' < work state)%nat /\
        (exists order', placing state' (j :: stack') order' out' /\ order ⊆ order') /\ last (j :: stack') = last (i :: stack)
    end) as Hemit.
  { intros Hp. destruct (emit_placing _ _ _ _ _ H Hp) as (r & Hr & -> & Hpl & Hw). destruct stack as [|j stack]; [done|].
    split; [done|]. split; [|done]. exists (order ++ [i]). split; [done|set_solver]. }
  destruct (parent_of rows i) as [p|] eqn:Ep; [|by destruct m; [apply Hemit..|]; [intros p Hp; unfold names in Hp; congruence..|]].
  destruct (names_row p i Ep) as (Hpl & Hpi & _).
  assert (p < length state)%nat as Hps by (by rewrite (pl_len _ _ _ _ H)).
  destruct (lookup_lt_is_Some_2 state p Hps) as [mp Hmp].
  assert (mp <> unvisited -> forall q, names q i -> q ∈ order \/ tc names i q) as Hother.
  { intros Hne q Hq. unfold names in Hq. rewrite Ep in Hq. injection Hq as <-. destruct mp; [done| |left; by apply (pl_done _ _ _ _ H)].
    right. apply (chain_below stack i (pl_chain _ _ _ _ H)). apply (pl_stack _ _ _ _ H) in Hmp. by apply elem_of_cons in Hmp as [->|?]. }
  destruct (decide (mp = unvisited)) as [->|Hmpu]; [|destruct m, mp; try done; rewrite Hmp; by apply Hemit, Hother].
  destruct m; [rewrite Hmp| |done].
  2: { pose proof (pl_head _ _ _ _ H i p eq_refl Hm Ep) as Hpo. apply (pl_done _ _ _ _ H) in Hpo. congruence. }
  pose proof (work_insert _ _ _ inStack Hm) as Hw. cbn [weight] in Hw. split; [lia|]. split; [|done].
  exists order. split; [by apply push_placing|done].
Qed.

Lemma walk_placing f : forall state i stack order out,
  placing state (i :: stack) order out -> (work state < f)%nat ->
  exists state' order' out', walk rows f state i stack out = Some (state', out') /\ placing state' [] order' out' /\
    order ⊆ order' /\ forall x, last (i :: stack) = Some x -> x ∈ order'.
Proof using.
  induction f as [|f IH]; intros state i stack order out H Hw; [lia|]. pose proof (turn_placing _ _ _ _ _ H) as Ht.
  cbn [walk]. destruct (turn rows state i stack out) as [[state' out'|state' j stack' out']|]; [| |done].
  - destruct Ht as (-> & _ & Hpl). exists state', (order ++ [i]), out'. split; [done|]. split; [done|]. split; [set_solver|].
    intros x [= <-]. set_solver.
  - destruct Ht as (Hlt & (order' & Hpl & Hsub) & Hlast). destruct (IH _ _ _ _ _ Hpl ltac:(lia)) as (s2 & o2 & out2 & -> & Hpl2 & Hsub2 & Hx).
    exists s2, o2, out2. split; [done|]. split; [done|]. split; [set_solver|]. intros x. rewrite <- Hlast. apply Hx.
Qed.

Lemma work_bound state : (work state <= 2 * length state)%nat.
Proof using.
  induction state as [|m state IH]; [done|]. change (weight m + work state <= 2 * S (length state))%nat.
  assert (weight m <= 2)%nat by (destruct m; cbn; lia). lia.
Qed.

(** Between two walks nothing is under way. *)
Lemma start_placing state i order out :
  placing state [] order out -> (i < length rows)%nat -> state !! i = Some unvisited -> placing state [i] order out.
Proof using.
  intros H Hi Hm. split; try apply H.
  - intros j Hj. apply (pl_stack _ _ _ _ H) in Hj. by apply not_elem_of_nil in Hj.
  - intros j ->%list_elem_of_singleton. split; [done|]. intros Ho%(pl_done _ _ _ _ H). congruence.
  - intros j p [= <-] Hj. congruence.
  - apply NoDup_singleton.
Qed.

Lemma starts_placing l : forall state order out,
  placing state [] order out -> (forall i, i ∈ l -> (i < length rows)%nat) ->
  exists state' order' out', starts rows l state out = Some (state', out') /\ placing state' [] order' out' /\
    order ⊆ order' /\ forall i, i ∈ l -> i ∈ order'.
Proof using.
  induction l as [|i l IH]; intros state order out H Hl.
  { exists state, order, out. split; [done|]. split; [done|]. split; [done|]. intros i Hi. by apply not_elem_of_nil in Hi. }
  assert (i < length rows)%nat as Hi by (apply Hl; by left).
  assert (i < length state)%nat as Hls by (by rewrite (pl_len _ _ _ _ H)).
  destruct (lookup_lt_is_Some_2 state i Hls) as [m Hm]. cbn [starts]. rewrite Hm.
  assert (forall j, j ∈ l -> (j < length rows)%nat) as Hl' by (intros j Hj; apply Hl; by right).
  destruct m.
  - pose proof (start_placing _ _ _ _ H Hi Hm) as Hs. pose proof (work_bound state) as Hb. rewrite (pl_len _ _ _ _ H) in Hb.
    destruct (walk_placing (fuel rows) _ _ _ _ _ Hs) as (s1 & o1 & out1 & -> & Hp1 & Hsub1 & Hx); [unfold fuel; lia|].
    destruct (IH _ _ _ Hp1 Hl') as (s2 & o2 & out2 & -> & Hp2 & Hsub2 & Hall). exists s2, o2, out2.
    split; [done|]. split; [done|]. split; [set_solver|]. intros j [->|Hj]%elem_of_cons; [|by apply Hall]. apply Hsub2. by apply Hx.
  - apply (pl_stack _ _ _ _ H) in Hm. by apply not_elem_of_nil in Hm.
  - destruct (IH _ _ _ H Hl') as (s2 & o2 & out2 & -> & Hp2 & Hsub2 & Hall). exists s2, o2, out2.
    split; [done|]. split; [done|]. split; [done|]. intros j [->|Hj]%elem_of_cons; [|by apply Hall]. apply Hsub2. by apply (pl_done _ _ _ _ H).
Qed.

Lemma initial_placing : placing (replicate (length rows) unvisited) [] [] [].
Proof using.
  split; try done.
  - apply length_replicate.
  - intros i. split; [by intros [? _]%lookup_replicate|]. intros Hi. by apply not_elem_of_nil in Hi.
  - intros i [? _]%lookup_replicate. done.
  - intros i Hi. by apply not_elem_of_nil in Hi.
  - intros i Hi. by apply not_elem_of_nil in Hi.
  - constructor.
  - constructor.
  - constructor.
  - intros l1 i l2 Heq. by destruct l1.
Qed.

Lemma picks_permutation order out : order ≡ₚ seq 0 (length rows) -> picks order out -> out ≡ₚ rows.
Proof using.
  intros Hperm Hp. assert (out = omap (fun i => rows !! i) order) as ->.
  { clear Hperm. induction Hp as [|i r order out Hr Hp IH]; [done|]. cbn. rewrite Hr. by f_equal. }
  rewrite Hperm. clear Hperm Hp. assert (omap (fun i => rows !! i) (seq 0 (length rows)) = rows) as ->; [|done].
  induction rows as [|r l IH]; [done|]. cbn [length seq]. rewrite <- fmap_S_seq.
  assert (forall k : list nat, omap (fun i : nat => (r :: l) !! i) (S <$> k) = omap (fun i : nat => l !! i) k) as Hs.
  { induction k as [|x k IHk]; [done|]. cbn. by rewrite IHk. }
  cbn. rewrite Hs. by rewrite IH.
Qed.

End Sorting.

Lemma sort_places rows : (2 <= length rows)%nat ->
  exists state order out, SortFeedParentsFirst rows = Some out /\ placing rows state [] order out /\ order ≡ₚ seq 0 (length rows).
Proof.
  intros Hge. unfold SortFeedParentsFirst. destruct (Nat.ltb_spec (length rows) 2) as [Hlt|_]; [lia|].
  destruct (starts_placing rows (seq 0 (length rows)) _ _ _ (initial_placing rows)) as (state & order & out & Hs & Hpl & _ & Hall).
  { intros i Hi%elem_of_seq. lia. }
  rewrite Hs. assert (order ≡ₚ seq 0 (length rows)) as Hperm.
  { apply NoDup_Permutation; [apply Hpl|apply NoDup_seq|]. intros i. split; [|apply Hall].
    intros Hi%(pl_done _ _ _ _ _ Hpl)%lookup_lt_Some. rewrite (pl_len _ _ _ _ _ Hpl) in Hi. apply elem_of_seq. lia. }
  assert (unplaced rows state = []) as ->; [|rewrite app_nil_r; by exists state, order, out].
  unfold unplaced. destruct (omap _ _) as [|r l] eqn:E; [done|].
  assert (r ∈ omap (fun '(r, m) => if bool_decide (m = done) then None else Some r) (zip rows state)) as Hr by (rewrite E; by left).
  apply list_elem_of_omap in Hr as ([x m] & Hin & Hr). case_bool_decide as Hm; [done|].
  apply list_elem_of_lookup in Hin as [i Hi]. apply lookup_zip_with_Some in Hi as (x' & m' & [= <- <-] & Hx & Hm').
  destruct Hm. apply lookup_lt_Some in Hx. assert (i ∈ order) as Ho by (apply Hall, elem_of_seq; lia).
  apply (pl_done _ _ _ _ _ Hpl) in Ho. congruence.
Qed.

(** What comes out is the rows given, each once. *)
Lemma sort_permutation rows : exists out, SortFeedParentsFirst rows = Some out /\ out ≡ₚ rows.
Proof.
  destruct (Nat.ltb_spec (length rows) 2) as [Hlt|Hge].
  - exists rows. unfold SortFeedParentsFirst. by apply Nat.ltb_lt in Hlt as ->.
  - destruct (sort_places rows Hge) as (state & order & out & Hs & Hpl & Hperm). exists out. split; [done|].
    by apply (picks_permutation rows order); [|apply Hpl].
Qed.

(** A feed of any shape is put in order and none of it is lost.  The walk ends
    and reads nothing out of bounds; what it yields is the rows given, each once;
    and every row comes after the row its parent_ref names, unless that row is
    below it, so that only a cycle is ever out of order.  Rows that share a ref
    are all kept, a parent being the first of them. *)
Theorem feed_parents_first rows :
  exists order out, SortFeedParentsFirst rows = Some out /\ out ≡ₚ rows /\
    order ≡ₚ seq 0 (length rows) /\ picks rows order out /\ parents_first rows order.
Proof.
  destruct (sort_permutation rows) as (o & Ho & Hp). destruct (Nat.ltb_spec (length rows) 2) as [Hlt|Hge].
  - exists (seq 0 (length rows)), o. split; [done|]. split; [done|]. split; [done|].
    unfold SortFeedParentsFirst in Ho. apply Nat.ltb_lt in Hlt as Hb. rewrite Hb in Ho. injection Ho as <-.
    destruct rows as [|r [|]]; [| |cbn in Hlt; lia]; (split; [by repeat constructor|]); intros l1 i l2 Heq p Hn.
    + by destruct l1.
    + destruct (names_row _ p i Hn) as (Hpl & Hne & x & y & _ & Hy & _). apply lookup_lt_Some in Hy. cbn in *. lia.
  - destruct (sort_places rows Hge) as (state & order & out & Hs & Hpl & Hperm). rewrite Ho in Hs. injection Hs as <-.
    exists order, o. split; [done|]. split; [done|]. split; [done|]. split; apply Hpl.
Qed.

End FeedSortProps.

(** ** Page tokens and slugs *)
Module TextProps.
Import PageToken Slug.

Lemma split_last_none c s : has_byte c s = false -> split_last c s = None.
Proof.
  induction s as [|a s IH]; [done|]. unfold has_byte, str_existsb. cbn. rewrite negb_false_iff, andb_true_iff, negb_true_iff, bool_decide_eq_false.
  intros [Ha Hs]. rewrite IH; [by rewrite bool_decide_false|]. unfold has_byte, str_existsb. by rewrite Hs.
Qed.

Lemma split_last_app c x y : has_byte c y = false -> split_last c (x ++ String c y) = Some (x, y).
Proof.
  intros Hy. induction x as [|a x IH].
  - change (split_last c (String c y) = Some (""%string, y)). cbn [split_last]. rewrite (split_last_none c y Hy). by rewrite bool_decide_true.
  - change (split_last c (String a (x ++ String c y)) = Some (String a x, y)). cbn [split_last]. by rewrite IH.
Qed.

Lemma split_last_some c s x y : split_last c s = Some (x, y) -> has_byte c y = false /\ s = (x ++ String c y)%string.
Proof.
  revert x y. induction s as [|a s IH]; intros x y H; [done|]. cbn in H. destruct (split_last c s) as [[x' y']|] eqn:E.
  - injection H as <- <-. destruct (IH _ _ eq_refl) as [H1 H2]. split; [done|]. by rewrite H2.
  - case_bool_decide as Ha; [|done]. injection H as <- <-. subst a. split; [|done].
    clear IH. induction s as [|b s IHs]; [done|]. cbn in E. destruct (split_last c s) as [[? ?]|] eqn:E'; [done|].
    case_bool_decide as Hb; [done|]. unfold has_byte, str_existsb in *. cbn. rewrite bool_decide_false by done. cbn. by apply IHs.
Qed.

(** A page token is read back exactly, whatever the name: the id, which
    holds no NUL, is the last field, so a name with a NUL in it does not shift the
    position.  A token that is not one is refused; the start of the listing is the
    empty token and no other. *)
Theorem page_token_roundtrip name id :
  id <> ""%string -> has_byte NUL id = false ->
  ParsePageToken (PageToken name id) = Ok (name, id) /\
  forall tok n i, ParsePageToken tok = Ok (n, i) -> (i = ""%string <-> tok = ""%string) /\ has_byte NUL i = false.
Proof.
  intros Hid Hnul. split.
  - unfold ParsePageToken, PageToken. case_bool_decide as He.
    { assert (Base64.decode false (Base64.encode (name ++ String NUL id)) = Some ""%string) as H by (by rewrite He).
      rewrite Base64.decode_encode in H. injection H as H. by destruct name. }
    rewrite Base64.decode_encode, split_last_app by done. by rewrite bool_decide_false.
  - intros tok n i. unfold ParsePageToken. case_bool_decide as He; [by intros [= <- <-]|].
    destruct (Base64.decode false tok) as [d|]; [|done]. destruct (split_last NUL d) as [[x y]|] eqn:E; [|done].
    case_bool_decide as Hy; [done|]. intros [= <- <-]. apply split_last_some in E as [E _]. done.
Qed.

Lemma page_token_roundtrip_witness :
  ParsePageToken (PageToken (String NUL "Sales") "n1") = Ok (String NUL "Sales", "n1"%string) /\
  (forall tok n i, ParsePageToken tok = Ok (n, i) -> (i = ""%string <-> tok = ""%string) /\ has_byte NUL i = false).
Proof. apply page_token_roundtrip; [done|vm_compute; reflexivity]. Defined.

Definition slug_ok (a : ascii) : bool := slug_char a || bool_decide (a = "-"%char).

Lemma dashed_ok b s : str_forallb slug_ok (dashed b s) = true.
Proof.
  revert b. induction s as [|a s IH]; intros b; [done|]. cbn. destruct (slug_char a) eqn:E.
  - cbn. unfold slug_ok at 1. by rewrite E, IH.
  - destruct b; [apply IH|]. cbn. by rewrite IH.
Qed.

Lemma trim_left_ok p c s : str_forallb p s = true -> str_forallb p (trim_left c s) = true.
Proof.
  induction s as [|a s IH]; [done|]. cbn. rewrite andb_true_iff. intros [Ha Hs]. case_bool_decide; [by apply IH|]. cbn. by rewrite Ha.
Qed.

Lemma trim_ok p c s : str_forallb p s = true -> str_forallb p (trim c s) = true.
Proof.
  intros H. unfold trim, trim_right. rewrite Jws.rev_forallb. apply trim_left_ok. rewrite Jws.rev_forallb. by apply trim_left_ok.
Qed.

Lemma take_ok p n s : str_forallb p s = true -> str_forallb p (str_take n s) = true.
Proof. revert n. induction s as [|a s IH]; intros [|n]; [done..|]. cbn. rewrite !andb_true_iff. intros [Ha Hs]. split; [done|by apply IH]. Qed.

(** A slug made from any name is one the table takes and a URL needs no
    escape for: never empty, at most forty bytes, lower-case letters, digits and
    dashes alone. *)
Theorem slug_shape ToLower name :
  let s := slugify ToLower name in s <> ""%string /\ (1 <= String.length s <= 40)%nat /\ str_forallb slug_ok s = true.
Proof.
  cbn zeta. unfold slugify. pose proof (trim_ok slug_ok "-" _ (dashed_ok false (ToLower name))) as Hok.
  set (t := trim "-" (dashed false (ToLower name))) in *. clearbody t.
  set (u := if (40 <? String.length t)%nat then str_take 40 t else t).
  assert (str_forallb slug_ok u = true /\ (String.length u <= 40)%nat) as [Hu Hl].
  { unfold u. destruct (Nat.ltb_spec 40 (String.length t)); [|by split]. split; [by apply take_ok|]. rewrite str_length_take. lia. }
  clearbody u. case_bool_decide as He; [cbn; repeat split; [done|lia|lia]|]. split; [done|]. split; [|done]. destruct u; [done|cbn in *; lia].
Qed.

End TextProps.
