(* ===== verification/ScopeStore.v ===== *)
(** internal/scope: the records of structures, places and feeds
    (domain/*_record.go, sync_run.go) and the repository over the tables
    (adapter/postgres/*_repository.go, rquery/*.go), on a connection that is
    alone or inside a transaction (internal/platform/database/db.go). *)

From Stdlib Require Import ZArith Lia Bool Ascii String.
From stdpp Require Import base gmap strings list sorting.
From S2P Require Import Prelude.
From S2P Require Import GoStrings.
From S2P Require Import GoConv.
From S2P Require Import Shared.
From S2P Require Import AuthStore.
From S2P Require Import ScopeTree.
From S2P Require Import SyncFeed.

Module ScopeStore.
Import Apperr Pg ScopeTree.

(** ** Records *)
Record ScopeNodeRecord := {
  sr_ID : string; sr_Axis : string; sr_NodeType : string; sr_ParentID : string; sr_Slug : string; sr_Name : string;
  sr_ExternalRef : string; sr_Status : string; sr_IsAxisRoot : bool; sr_ChildCount : Z; sr_Path : list string
}.
Record ScopeNodeTypeRecord := { tr_Code : string; tr_Axis : string; tr_DisplayName : string; tr_ParentTypes : list string }.
Record ScopeAxisRecord := {
  xr_Code : string; xr_DisplayName : string; xr_DefaultEffect : string; xr_Status : string; xr_SortOrder : Z;
  xr_Resolution : string; xr_UISchema : string
}.
Record ScopeAncestor := { an_Node : ScopeNodeRecord; an_Depth : Z }.

Definition DefaultScopeNodePage : Z := 2000.
Definition MaxScopeNodePage : Z := 2000.

Record ScopeNodeFilter := {
  f_Axis : string; f_ParentID : string; f_Query : string; f_IncludeArchived : bool; f_AfterName : string; f_AfterID : string; f_Limit : Z
}.
Definition with_limit (f : ScopeNodeFilter) (n : Z) : ScopeNodeFilter := {|
  f_Axis := f_Axis f; f_ParentID := f_ParentID f; f_Query := f_Query f; f_IncludeArchived := f_IncludeArchived f;
  f_AfterName := f_AfterName f; f_AfterID := f_AfterID f; f_Limit := n |}.
Definition Normalise (f : ScopeNodeFilter) : ScopeNodeFilter :=
  let f := if (f_Limit f <=? 0)%Z then with_limit f DefaultScopeNodePage else f in
  if (MaxScopeNodePage <? f_Limit f)%Z then with_limit f MaxScopeNodePage else f.
Definition After (f : ScopeNodeFilter) (r : ScopeNodeRecord) : ScopeNodeFilter := {|
  f_Axis := f_Axis f; f_ParentID := f_ParentID f; f_Query := f_Query f; f_IncludeArchived := f_IncludeArchived f;
  f_AfterName := sr_Name r; f_AfterID := sr_ID r; f_Limit := f_Limit f |}.

Definition MinSyncIntervalSeconds : Z := 300.

Record SyncSourceRecord := {
  so_ID : string; so_TenantID : string; so_Axis : string; so_Kind : string; so_Status : string; so_Config : string;
  so_LastRunAt : option Time; so_IntervalSeconds : Z; so_NextRunAt : option Time
}.
Definition Scheduled (s : SyncSourceRecord) : bool := (0 <? so_IntervalSeconds s)%Z.

(** The reconciler's report: (ref, error) for each row it could not place. *)
Record Report := {
  rp_Error : option string; rp_Added : Z; rp_Renamed : Z; rp_Moved : Z; rp_Archived : Z; rp_Unchanged : Z;
  rp_Errors : list (string * string); rp_Dry : bool
}.
Record SyncRun := {
  ru_ID : string; ru_SourceID : string; ru_StartedAt : Time; ru_FinishedAt : option Time; ru_Dry : bool; ru_Status : string; ru_Report : Report
}.

(** ** The store

    [ss_calls] and [ss_made] count the database's calls and the ids it has
    given; neither is undone by a rollback. *)
Inductive TxState := NoTx | InTx | Aborted.
Record ScStore := {
  ss_tables : Tables; ss_sources : gmap string SyncSourceRecord; ss_runs : list SyncRun;
  ss_log : list AuthStore.AuditEvent; ss_tx : TxState; ss_calls : nat; ss_made : nat
}.
Definition set_tables (s : ScStore) (t : Tables) : ScStore := {|
  ss_tables := t; ss_sources := ss_sources s; ss_runs := ss_runs s; ss_log := ss_log s; ss_tx := ss_tx s;
  ss_calls := ss_calls s; ss_made := ss_made s |}.
Definition set_sources (s : ScStore) (m : gmap string SyncSourceRecord) : ScStore := {|
  ss_tables := ss_tables s; ss_sources := m; ss_runs := ss_runs s; ss_log := ss_log s; ss_tx := ss_tx s;
  ss_calls := ss_calls s; ss_made := ss_made s |}.
Definition set_runs (s : ScStore) (l : list SyncRun) : ScStore := {|
  ss_tables := ss_tables s; ss_sources := ss_sources s; ss_runs := l; ss_log := ss_log s; ss_tx := ss_tx s;
  ss_calls := ss_calls s; ss_made := ss_made s |}.
Definition set_tx (s : ScStore) (x : TxState) : ScStore := {|
  ss_tables := ss_tables s; ss_sources := ss_sources s; ss_runs := ss_runs s; ss_log := ss_log s; ss_tx := x;
  ss_calls := ss_calls s; ss_made := ss_made s |}.
Definition called (s : ScStore) : ScStore := {|
  ss_tables := ss_tables s; ss_sources := ss_sources s; ss_runs := ss_runs s; ss_log := ss_log s; ss_tx := ss_tx s;
  ss_calls := S (ss_calls s); ss_made := ss_made s |}.
Definition made (s : ScStore) : ScStore := {|
  ss_tables := ss_tables s; ss_sources := ss_sources s; ss_runs := ss_runs s; ss_log := ss_log s; ss_tx := ss_tx s;
  ss_calls := ss_calls s; ss_made := S (ss_made s) |}.
Definition logged (s : ScStore) (e : AuthStore.AuditEvent) : ScStore := {|
  ss_tables := ss_tables s; ss_sources := ss_sources s; ss_runs := ss_runs s; ss_log := ss_log s ++ [e]; ss_tx := ss_tx s;
  ss_calls := ss_calls s; ss_made := ss_made s |}.

(** The database during one handler: which of its calls fail, its clock, the ids
    it gives, the order its collation puts names in, what ILIKE finds, how it
    stores JSON ([None] is text that is none), and whether a tenant exists. *)
Record ScEnv := {
  se_fails : nat -> bool; se_now : Time; se_id : nat -> string; se_le : string -> string -> bool;
  se_ilike : string -> string -> bool; se_jsonb : string -> option string; se_tenant : string -> bool
}.

Definition aborting (s : ScStore) : ScStore := match ss_tx s with InTx => set_tx s Aborted | _ => s end.

Section Repository.
Context (env : ScEnv).

Abbreviation M := (Eff ScStore Error).

Definition in_failed_tx : DbError := Raised (exception "25P02" "current transaction is aborted, commands ignored until end of transaction block").

(** One statement.  A statement that fails leaves nothing of itself, and inside a
    transaction nothing else is answered after it. *)
Definition statement {A} (map : DbError -> Error) (m : ScStore -> result DbError A * ScStore) : M A := fun s0 =>
  let s := called s0 in
  match ss_tx s with
  | Aborted => (Err (map in_failed_tx), s)
  | _ =>
      if se_fails env (ss_calls s0) then (Err (map Driver), aborting s)
      else match m s with
           | (Ok a, s') => (Ok a, s')
           | (Err e, s') => (Err (map e), aborting {| ss_tables := ss_tables s; ss_sources := ss_sources s; ss_runs := ss_runs s; ss_log := ss_log s;
                                                     ss_tx := ss_tx s; ss_calls := ss_calls s; ss_made := ss_made s' |})
           end
  end.

(** A statement over the structure's tables, and one that generates an id. *)
Definition reads {A} (f : Tables -> A) : ScStore -> result DbError A * ScStore := fun s => (Ok (f (ss_tables s)), s).
Definition writes {A} (f : Tables -> Sql (A * Tables)) : ScStore -> result DbError A * ScStore := fun s =>
  match f (ss_tables s) with Ok (a, t) => (Ok a, set_tables s t) | Err e => (Err (Raised e), s) end.
Definition makes {A} (f : string -> Tables -> Sql (A * Tables)) : ScStore -> result DbError A * ScStore := fun s =>
  writes (f (se_id env (ss_made s))) (made s).

(** A rollback: the tables as they were. *)
Definition rolled_back (s s' : ScStore) : ScStore := {|
  ss_tables := ss_tables s; ss_sources := ss_sources s; ss_runs := ss_runs s; ss_log := ss_log s'; ss_tx := ss_tx s;
  ss_calls := ss_calls s'; ss_made := ss_made s' |}.

(** TxManager.WithinTx: BEGIN, the calls, COMMIT.  A transaction with a failed
    statement in it does not commit; one inside another joins it. *)
Definition WithinTx {A} (m : M A) : M A := fun s =>
  match ss_tx s with
  | NoTx =>
      if se_fails env (ss_calls s) then (Err (Wrap ErrInternal "begin"), called s)
      else match m (set_tx (called s) InTx) with
           | (Err e, s') => (Err e, rolled_back s s')
           | (Ok a, s') =>
               if se_fails env (ss_calls s') || match ss_tx s' with InTx => false | _ => true end
               then (Err (Wrap ErrInternal "commit"), rolled_back s (called s'))
               else (Ok a, set_tx (called s') (ss_tx s))
           end
  | _ => m s
  end.

(** WithinTx of calls whose last error the caller makes up to have them rolled
    back, and swallows; what they counted is kept. *)
Definition DryRun {A} (m : M A) : M A := fun s =>
  match ss_tx s with
  | NoTx =>
      if se_fails env (ss_calls s) then (Err (Wrap ErrInternal "begin"), called s)
      else let '(r, s') := m (set_tx (called s) InTx) in (r, rolled_back s s')
  | _ => m s
  end.

Definition BadUUID : Error := MapErr Driver.
Definition with_uuid {A} (id : string) (k : string -> M A) : M A := match Uuid.canon id with None => raise BadUUID | Some c => k c end.
Definition opt_uuid (id : string) : result unit (option string) :=
  if bool_decide (id = ""%string) then Ok None else match Uuid.canon id with Some c => Ok (Some c) | None => Err tt end.

(** A row found, or NotFound. *)
Definition found {A} (what : Error) (m : M (option A)) : M A := r ← m; match r with Some a => mret a | None => raise what end.
(** An UPDATE that touched a row, or NotFound. *)
Definition touched (what : Error) (m : M nat) : M unit := n ← m; if (n =? 0)%nat then raise what else mret tt.

(** *** scope_axis_repository.go *)
Definition OrDefaultStr (v d : string) : string := if bool_decide (v = ""%string) then d else v.
Definition OrDefaultInt (v d : Z) : Z := if (v =? 0)%Z then d else v.

Definition from_context : string := ("{" ++ quoted "from" ++ ":" ++ quoted "context" ++ "}")%string.

Definition axisRecord (code : string) (r : AxisRow) : ScopeAxisRecord := {|
  xr_Code := code; xr_DisplayName := ax_DisplayName r; xr_DefaultEffect := ax_DefaultEffect r; xr_Status := ax_Status r;
  xr_SortOrder := ax_SortOrder r; xr_Resolution := ax_Resolution r; xr_UISchema := ax_UISchema r |}.

Definition ScopeAxis (tenantID code : string) : M ScopeAxisRecord :=
  with_uuid tenantID (fun tid => found (With ErrNotFound "scope_axis" code)
    (statement MapErr (reads (fun t => axisRecord code <$> t_axes t !! (tid, code))))).

Definition axis_checks (code : string) (r : AxisRow) : option PgError :=
  if negb (Validate.ValidCode code) then Some (violated "23514" "scope_axes_code_check")
  else if negb (bool_decide (ax_DefaultEffect r ∈ ["unconstrained"; "deny"]%string)) then Some (violated "23514" "scope_axes_default_effect_check")
  else if negb (bool_decide (ax_Status r ∈ ["active"; "deprecated"]%string)) then Some (violated "23514" "scope_axes_status_check")
  else None.

Definition bad_json : PgError := exception "22P02" "invalid input syntax for type json".

Definition insert_axis (tid : string) (a : ScopeAxisRecord) (t : Tables) : Sql (unit * Tables) :=
  match se_jsonb env (OrDefaultStr (xr_Resolution a) from_context), se_jsonb env (OrDefaultStr (xr_UISchema a) "{}") with
  | Some res, Some ui =>
      let r := {| ax_DisplayName := xr_DisplayName a; ax_DefaultEffect := OrDefaultStr (xr_DefaultEffect a) "unconstrained"; ax_Status := "active";
                  ax_SortOrder := wrap32 (OrDefaultInt (xr_SortOrder a) 100); ax_Resolution := res; ax_UISchema := ui |} in
      match axis_checks (xr_Code a) r with
      | Some e => Err e
      | None =>
          match t_axes t !! (tid, xr_Code a) with
          | Some _ => Err (violated "23505" "scope_axes_pkey")
          | None => if se_tenant env tid then Ok (tt, with_axes t (<[(tid, xr_Code a) := r]> (t_axes t))) else Err (violated "23503" "scope_axes_tenant_id_fkey")
          end
      end
  | _, _ => Err bad_json
  end.
Definition CreateScopeAxis (tenantID : string) (a : ScopeAxisRecord) : M unit :=
  with_uuid tenantID (fun tid => statement MapErr (writes (insert_axis tid a))).

(** Everything but the code and where a request's value comes from. *)
Definition update_axis (tid : string) (a : ScopeAxisRecord) (t : Tables) : Sql (nat * Tables) :=
  match se_jsonb env (OrDefaultStr (xr_UISchema a) "{}") with
  | None => Err bad_json
  | Some ui =>
      match t_axes t !! (tid, xr_Code a) with
      | None => Ok (0, t)
      | Some old =>
          let r := {| ax_DisplayName := xr_DisplayName a; ax_DefaultEffect := xr_DefaultEffect a; ax_Status := xr_Status a;
                      ax_SortOrder := wrap32 (xr_SortOrder a); ax_Resolution := ax_Resolution old; ax_UISchema := ui |} in
          match axis_checks (xr_Code a) r with Some e => Err e | None => Ok (1, with_axes t (<[(tid, xr_Code a) := r]> (t_axes t))) end
      end
  end.
Definition UpdateScopeAxis (tenantID : string) (a : ScopeAxisRecord) : M unit :=
  with_uuid tenantID (fun tid => touched (With ErrNotFound "scope_axis" (xr_Code a)) (statement MapErr (writes (update_axis tid a)))).

(** *** scope_node_repository.go: levels *)
Definition CreateScopeNodeType (tenantID : string) (t : ScopeNodeTypeRecord) : M unit :=
  with_uuid tenantID (fun tid => statement MapErrSaying (writes (fun tb =>
    match insert_type tb tid (tr_Code t) {| ty_Axis := tr_Axis t; ty_DisplayName := tr_DisplayName t; ty_Parents := tr_ParentTypes t |} with
    | Ok tb' => Ok (tt, tb') | Err e => Err e end))).

Definition UpdateScopeNodeType (tenantID : string) (t : ScopeNodeTypeRecord) : M unit :=
  with_uuid tenantID (fun tid => touched ErrNotFound
    (statement MapErrSaying (writes (update_type tid (tr_Code t) (tr_Axis t) (tr_DisplayName t) (tr_ParentTypes t))))).

(** *** scope_node_repository.go: items *)
Definition children (t : Tables) (id : string) (archived : bool) : Z :=
  Z.of_nat (length (List.filter (fun '(_, n) => bool_decide (nd_Parent n = Some id) && (archived || bool_decide (nd_Status n = "active"%string)))
                      (map_to_list (t_nodes t)))).

Definition scopeNodeFromRow (id : string) (n : NodeRow) (children : Z) (path : list string) : ScopeNodeRecord := {|
  sr_ID := id; sr_Axis := nd_Axis n; sr_NodeType := nd_Type n; sr_ParentID := default ""%string (nd_Parent n); sr_Slug := nd_Slug n;
  sr_Name := nd_Name n; sr_ExternalRef := default ""%string (nd_Ref n); sr_Status := nd_Status n; sr_IsAxisRoot := nd_Root n;
  sr_ChildCount := children; sr_Path := path |}.
Definition nodeRecord (t : Tables) (archived : bool) (path : list string) (id : string) (n : NodeRow) : ScopeNodeRecord :=
  scopeNodeFromRow id n (children t id archived) path.

Definition own (tid : string) (n : NodeRow) : bool := bool_decide (nd_Tenant n = tid).

Definition ScopeNode (tenantID id : string) : M ScopeNodeRecord :=
  with_uuid id (fun c => with_uuid tenantID (fun tid => found ErrNotFound (statement MapErr (reads (fun t =>
    match t_nodes t !! c with Some n => if own tid n then Some (nodeRecord t false [] c n) else None | None => None end))))).

Definition by_ref (t : Tables) (tid axis ref : string) : option (string * NodeRow) :=
  find_row (fun _ n => own tid n && bool_decide (nd_Axis n = axis) && bool_decide (nd_Ref n = Some ref)) (t_nodes t).
Definition ScopeNodeByRef (tenantID axis ref : string) : M ScopeNodeRecord :=
  with_uuid tenantID (fun tid => found ErrNotFound (statement MapErr (reads (fun t =>
    (fun '(id, n) => nodeRecord t false [] id n) <$> by_ref t tid axis ref)))).

Definition ScopeNodesByIDs (tenantID : string) (ids : list string) : M (list ScopeNodeRecord) :=
  match ids with
  | [] => mret []
  | _ => with_uuid tenantID (fun tid =>
           match mapM Uuid.canon ids with
           | None => raise BadUUID
           | Some cs => statement MapErr (reads (fun t =>
               omap (fun '(id, n) => if own tid n && bool_decide (id ∈ cs) then Some (nodeRecord t false [] id n) else None) (map_to_list (t_nodes t))))
           end)
  end.

(** ORDER BY name, id: names as the collation puts them, equal names by id. *)
Definition name_lt (a b : string) : bool := se_le env a b && negb (se_le env b a).
Definition before (a b : ScopeNodeRecord) : bool :=
  name_lt (sr_Name a) (sr_Name b) || (bool_decide (sr_Name a = sr_Name b) && String.leb (sr_ID a) (sr_ID b)).
Definition listing_order (a b : ScopeNodeRecord) : Prop := before a b = true.
#[export] Instance listing_order_dec : RelDecision listing_order := fun a b => bool_dec (before a b) true.

(** ORDER BY depth DESC *)
Definition deeper (a b : string * Z) : Prop := (snd b <= snd a)%Z.
#[export] Instance deeper_dec : RelDecision deeper := fun a b => Z.le_dec (snd b) (snd a).

(** The names above an item, top first, the root left out. *)
Definition path_of (t : Tables) (id : string) : list string :=
  let above := List.filter (fun '(_, d) => (0 <? d)%Z) (ups t id) in
  let deepest := merge_sort deeper above in
  omap (fun '(a, _) => match t_nodes t !! a with Some n => if nd_Root n then None else Some (nd_Name n) | None => None end) deepest.

(** The cursor: strictly after (name, id).  An empty name is NULL, which resumes
    nowhere. *)
Definition past (f : ScopeNodeFilter) (after_id : option string) (id : string) (n : NodeRow) : bool :=
  bool_decide (f_AfterName f = ""%string) || name_lt (f_AfterName f) (nd_Name n) ||
  (bool_decide (nd_Name n = f_AfterName f) && match after_id with Some a => negb (String.leb id a) | None => false end).

Definition listed (tid : string) (f : ScopeNodeFilter) (parent after_id : option string) (id : string) (n : NodeRow) : bool :=
  own tid n && bool_decide (nd_Axis n = f_Axis f) &&
  match parent with None => true | Some p => bool_decide (nd_Parent n = Some p) end &&
  (bool_decide (f_Query f = ""%string) || se_ilike env (f_Query f) (nd_Name n)) &&
  (f_IncludeArchived f || bool_decide (nd_Status n = "active"%string)) && past f after_id id n.

Definition page (t : Tables) (tid : string) (f : ScopeNodeFilter) (parent after_id : option string) : list ScopeNodeRecord :=
  take (Z.to_nat (f_Limit f)) (merge_sort listing_order
    (omap (fun '(id, n) => if listed tid f parent after_id id n
                           then Some (nodeRecord t (f_IncludeArchived f) (if bool_decide (f_Query f = ""%string) then [] else path_of t id) id n)
                           else None) (map_to_list (t_nodes t)))).

Definition ListScopeNodes (tenantID : string) (f0 : ScopeNodeFilter) : M (list ScopeNodeRecord) :=
  let f := Normalise f0 in
  with_uuid tenantID (fun tid =>
    match opt_uuid (f_ParentID f), opt_uuid (f_AfterID f) with
    | Ok parent, Ok after_id => statement MapErr (reads (fun t => page t tid f parent after_id))
    | _, _ => raise BadUUID
    end).

Definition EnsureAxisRoot (tenantID axis : string) : M string :=
  with_uuid tenantID (fun tid => statement MapErr (makes (fun id => scope_ensure_root id tid axis))).

Definition nullif_empty (s : string) : option string := if bool_decide (s = ""%string) then None else Some s.

Definition AddScopeNode (tenantID axis nodeType parentID slug name externalRef : string) : M string :=
  with_uuid tenantID (fun tid => with_uuid parentID (fun pid =>
    statement MapErrSaying (makes (fun id => scope_add_node id tid axis nodeType pid slug name (nullif_empty externalRef))))).

Definition MoveScopeNode (nodeID newParentID : string) : M unit :=
  with_uuid nodeID (fun c => with_uuid newParentID (fun p =>
    statement MapErrSaying (writes (fun t => match scope_move_node c p t with Ok t' => Ok (tt, t') | Err e => Err e end)))).

(** UPDATE of one item's name and status. *)
Definition retitle (tid c : string) (p : NodeRow -> bool) (name : NodeRow -> string) (status : string) (t : Tables) : Sql (nat * Tables) :=
  match t_nodes t !! c with
  | Some n => if own tid n && p n then Ok (1, with_nodes t (<[c := retitled n (name n) status]> (t_nodes t))) else Ok (0, t)
  | None => Ok (0, t)
  end.

Definition ArchiveScopeNode (tenantID id : string) : M unit :=
  with_uuid id (fun c => with_uuid tenantID (fun tid => touched ErrNotFound
    (statement MapErr (writes (retitle tid c (fun n => negb (nd_Root n)) nd_Name "archived"))))).
Definition RestoreScopeNode (tenantID id : string) : M unit :=
  with_uuid id (fun c => with_uuid tenantID (fun tid => touched ErrNotFound
    (statement MapErr (writes (retitle tid c (fun n => bool_decide (nd_Status n = "archived"%string)) nd_Name "active"))))).
Definition RenameScopeNode (tenantID id name : string) : M unit :=
  with_uuid id (fun c => with_uuid tenantID (fun tid => touched ErrNotFound
    (statement MapErr (writes (retitle tid c (fun _ => true) (fun _ => name) "active"))))).

Definition ScopeAncestors (tenantID nodeID : string) : M (list ScopeAncestor) :=
  with_uuid nodeID (fun c => with_uuid tenantID (fun tid => statement MapErr (reads (fun t =>
    omap (fun '(a, d) => match t_nodes t !! a with
                         | Some n => if own tid n then Some {| an_Depth := d; an_Node := scopeNodeFromRow a n 0 [] |} else None
                         | None => None end)
      (merge_sort deeper (ups t c)))))).

End Repository.
End ScopeStore.
