(* ===== verification/ScopeSync.v ===== *)
(** internal/scope: the feeds that keep a structure in step with somebody else's
    system.  The repository over the sources and their runs
    (adapter/postgres/scope_sync_repository.go, rquery/sync.go) and the
    reconciler in the database (internal/platform/schema/routines.go:
    scope_sync_apply). *)

From Stdlib Require Import ZArith Lia Bool Ascii String.
From stdpp Require Import base gmap strings list sorting.
From S2P Require Import Prelude.
From S2P Require Import GoStrings.
From S2P Require Import GoConv.
From S2P Require Import Shared.
From S2P Require Import ScopeTree.
From S2P Require Import SyncFeed.
From S2P Require Import ScopeStore.

Module ScopeSync.
Import Apperr Pg ScopeTree FeedSort ScopeStore.

(** ** scope_sync_apply *)

(** What the loop over the rows carries: the tables, the ids given, the refs a
    dry run would have created, the counters and the errors. *)
Record Sync := {
  sy_tables : Tables; sy_made : nat; sy_pending : list string;
  sy_add : Z; sy_ren : Z; sy_mov : Z; sy_same : Z; sy_errs : list (string * string)
}.
Definition sy_with (s : Sync) (t : Tables) (n : nat) : Sync := {|
  sy_tables := t; sy_made := n; sy_pending := sy_pending s; sy_add := sy_add s; sy_ren := sy_ren s; sy_mov := sy_mov s;
  sy_same := sy_same s; sy_errs := sy_errs s |}.
Definition added1 (s : Sync) (pending : list string) : Sync := {|
  sy_tables := sy_tables s; sy_made := sy_made s; sy_pending := pending; sy_add := sy_add s + 1; sy_ren := sy_ren s; sy_mov := sy_mov s;
  sy_same := sy_same s; sy_errs := sy_errs s |}.
Definition renamed1 (s : Sync) : Sync := {|
  sy_tables := sy_tables s; sy_made := sy_made s; sy_pending := sy_pending s; sy_add := sy_add s; sy_ren := sy_ren s + 1; sy_mov := sy_mov s;
  sy_same := sy_same s; sy_errs := sy_errs s |}.
Definition moved1 (s : Sync) : Sync := {|
  sy_tables := sy_tables s; sy_made := sy_made s; sy_pending := sy_pending s; sy_add := sy_add s; sy_ren := sy_ren s; sy_mov := sy_mov s + 1;
  sy_same := sy_same s; sy_errs := sy_errs s |}.
Definition same1 (s : Sync) : Sync := {|
  sy_tables := sy_tables s; sy_made := sy_made s; sy_pending := sy_pending s; sy_add := sy_add s; sy_ren := sy_ren s; sy_mov := sy_mov s;
  sy_same := sy_same s + 1; sy_errs := sy_errs s |}.
Definition failed1 (s : Sync) (made : nat) (ref why : string) : Sync := {|
  sy_tables := sy_tables s; sy_made := made; sy_pending := sy_pending s; sy_add := sy_add s; sy_ren := sy_ren s; sy_mov := sy_mov s;
  sy_same := sy_same s; sy_errs := sy_errs s ++ [(ref, why)] |}.

Section Apply.
(** [lower] and [right6] are the database's lower(x) and right(x, 6), [new_id]
    its uuidv7(); [default_type] is the source's config, read at
    default_node_type. *)
Context (lower right6 : string -> string) (new_id : nat -> string) (tenant axis : string) (default_type : option string) (root : option string) (p_dry : bool).

Definition node_by_ref (t : Tables) (ref : string) : option (string * NodeRow) :=
  find_row (fun _ n => bool_decide (nd_Tenant n = tenant) && bool_decide (nd_Axis n = axis) && bool_decide (nd_Ref n = Some ref)) (t_nodes t).

(** An empty field is left out of the JSON the rows travel in, so it is NULL. *)
Definition v_pref (r : SyncFeedRow) : option string := if bool_decide (ParentRef r = ""%string) then None else Some (ParentRef r).
Definition v_type (r : SyncFeedRow) : option string := if bool_decide (NodeType r = ""%string) then default_type else Some (NodeType r).

Definition sync_parent (s : Sync) (r : SyncFeedRow) : Sql (option string) :=
  match v_pref r with
  | None => Ok root
  | Some pref =>
      match node_by_ref (sy_tables s) pref with
      | Some (id, _) => Ok (Some id)
      | None => if p_dry && bool_decide (pref ∈ sy_pending s) then Ok root
                else Err (exception "P0001" ("parent ref " ++ quoted pref ++ " not found (feed must list parents first)"))
      end
  end.

(** left(regexp_replace(lower(name), '[^a-z0-9]+', '-', 'g'), 40), with the end
    of the ref where a sibling has it. *)
Definition sync_slug (t : Tables) (parent : option string) (r : SyncFeedRow) : string :=
  let base := str_take 40 (Slug.dashed false (lower (Name r))) in
  let taken := match parent with
               | None => false
               | Some p => some_row (fun _ n => bool_decide (nd_Parent n = Some p) && bool_decide (nd_Slug n = base)) (t_nodes t)
               end in
  (base ++ if taken then "-" ++ lower (right6 (Ref r)) else "")%string.

Definition sync_add (s : Sync) (parent : option string) (r : SyncFeedRow) : Sql Tables :=
  match parent, v_type r with
  | None, _ => Err (violated "23514" "nonroot_has_parent")
  | _, None => Err (violated "23502" "node_type")
  | Some p, Some ty =>
      match scope_add_node (new_id (sy_made s)) tenant axis ty p (sync_slug (sy_tables s) parent r) (Name r) (Some (Ref r)) (sy_tables s) with
      | Ok (_, t) => Ok t
      | Err e => Err e
      end
  end.

Definition sync_move (s : Sync) (id : string) (parent : option string) : Sql Tables :=
  match parent with None => Err (violated "23514" "nonroot_has_parent") | Some p => scope_move_node id p (sy_tables s) end.

(** One row: BEGIN ... EXCEPTION WHEN OTHERS.  What it raised leaves the tables
    as they were and is noted. *)
Definition sync_row (s : Sync) (r : SyncFeedRow) : Sync :=
  match sync_parent s r with
  | Err e => failed1 s (sy_made s) (Ref r) (pg_Message e)
  | Ok parent =>
      match node_by_ref (sy_tables s) (Ref r) with
      | None =>
          if p_dry then added1 s (sy_pending s ++ [Ref r])
          else match sync_add s parent r with
               | Ok t => added1 (sy_with s t (S (sy_made s))) (sy_pending s)
               | Err e => failed1 s (S (sy_made s)) (Ref r) (pg_Message e)
               end
      | Some (id, n) =>
          if negb (bool_decide (nd_Parent n = parent)) then
            if p_dry then moved1 s
            else match sync_move s id parent with
                 | Ok t => moved1 (sy_with s t (sy_made s))
                 | Err e => failed1 s (sy_made s) (Ref r) (pg_Message e)
                 end
          else if negb (bool_decide (nd_Name n = Name r)) || bool_decide (nd_Status n = "archived"%string) then
            renamed1 (if p_dry then s
                      else sy_with s (with_nodes (sy_tables s) (<[id := retitled n (Name r) "active"]> (t_nodes (sy_tables s)))) (sy_made s))
          else same1 s
      end
  end.

(** The items of this structure a feed owns, active, that no row names. *)
Definition gone (rows : list SyncFeedRow) (n : NodeRow) : bool :=
  bool_decide (nd_Tenant n = tenant) && bool_decide (nd_Axis n = axis) && bool_decide (nd_Status n = "active"%string) &&
  match nd_Ref n with Some ref => negb (existsb (fun r => bool_decide (Ref r = ref)) rows) | None => false end.
Definition archive_gone (rows : list SyncFeedRow) (t : Tables) : Tables :=
  with_nodes t ((fun n => if gone rows n then retitled n (nd_Name n) "archived" else n) <$> t_nodes t).
Definition count_gone (rows : list SyncFeedRow) (t : Tables) : Z :=
  Z.of_nat (length (List.filter (fun '(_, n) => gone rows n) (map_to_list (t_nodes t)))).

Definition sync_rows (rows : list SyncFeedRow) (s : Sync) : Sync := foldl sync_row s rows.

Definition sync_report (rows : list SyncFeedRow) (s : Sync) : Report := {|
  rp_Error := None; rp_Added := sy_add s; rp_Renamed := sy_ren s; rp_Moved := sy_mov s; rp_Archived := count_gone rows (sy_tables s);
  rp_Unchanged := sy_same s; rp_Errors := sy_errs s; rp_Dry := p_dry |}.

End Apply.

Definition run_status (dry : bool) (r : Report) : string := if dry then "dry_run" else if bool_decide (rp_Errors r = []) then "ok" else "failed".

(** ** The repository *)
Section Repository.
(** [lower] and [right6] are the database's; [config] reads a source's
    configuration at default_node_type. *)
Context (env : ScEnv) (lower right6 : string -> string) (config : string -> option string).

Abbreviation M := (Eff ScStore Error).

Definition initial (s : ScStore) : Sync := {|
  sy_tables := ss_tables s; sy_made := ss_made s; sy_pending := []; sy_add := 0; sy_ren := 0; sy_mov := 0; sy_same := 0; sy_errs := [] |}.

Definition last_run (now : Time) (src : SyncSourceRecord) : SyncSourceRecord := {|
  so_ID := so_ID src; so_TenantID := so_TenantID src; so_Axis := so_Axis src; so_Kind := so_Kind src; so_Status := so_Status src;
  so_Config := so_Config src; so_LastRunAt := Some now; so_IntervalSeconds := so_IntervalSeconds src; so_NextRunAt := so_NextRunAt src |}.

Definition scope_sync_apply (source : string) (rows : list SyncFeedRow) (dry : bool) (s : ScStore) : result DbError Report * ScStore :=
  match ss_sources s !! source with
  | None => (Err (Raised (exception "P0001" ("unknown sync source " ++ source))), s)
  | Some src =>
      let tenant := so_TenantID src in let axis := so_Axis src in
      let root := fst <$> find_row (fun _ => is_root_of tenant axis) (t_nodes (ss_tables s)) in
      let run := se_id env (ss_made s) in
      let y := sync_rows lower right6 (se_id env) tenant axis (config (so_Config src)) root dry rows (initial (made s)) in
      let rep := sync_report tenant axis dry rows y in
      (Ok rep, {| ss_tables := if dry then sy_tables y else archive_gone tenant axis rows (sy_tables y);
                  ss_sources := if dry then ss_sources s else <[source := last_run (se_now env) src]> (ss_sources s);
                  ss_runs := ss_runs s ++ [{| ru_ID := run; ru_SourceID := source; ru_StartedAt := se_now env; ru_FinishedAt := Some (se_now env);
                                              ru_Dry := dry; ru_Status := run_status dry rep; ru_Report := rep |}];
                  ss_log := ss_log s; ss_tx := ss_tx s; ss_calls := ss_calls s; ss_made := sy_made y |})
  end.

Definition ScopeSyncApply (sourceID : string) (rows : list SyncFeedRow) (dry : bool) : M Report :=
  with_uuid sourceID (fun c => statement env MapErr (scope_sync_apply c rows dry)).

Definition SyncSource (tenantID id : string) : M SyncSourceRecord :=
  with_uuid tenantID (fun tid => with_uuid id (fun c => found ErrNotFound (statement env MapErr (fun s =>
    (Ok (match ss_sources s !! c with Some r => if bool_decide (so_TenantID r = tid) then Some r else None | None => None end), s))))).

(** WHERE status = 'active' AND next_run_at <= now ORDER BY next_run_at LIMIT. *)
Definition due (now : Time) (r : SyncSourceRecord) : bool :=
  bool_decide (so_Status r = "active"%string) && match so_NextRunAt r with Some t => (t <=? now)%Z | None => false end.
Definition sooner (a b : SyncSourceRecord) : Prop := (default 0%Z (so_NextRunAt a) <= default 0%Z (so_NextRunAt b))%Z.
#[export] Instance sooner_dec : RelDecision sooner := fun a b => Z.le_dec _ _.
Definition DueSyncSources (now : Time) (limit : Z) : M (list SyncSourceRecord) :=
  statement env MapErr (fun s =>
    (Ok (take (Z.to_nat limit) (merge_sort sooner (List.filter (due now) (map snd (map_to_list (ss_sources s)))))), s)).

(** CHECKs, the unique (tenant, axis), the axis. *)
Definition source_checks (r : SyncSourceRecord) : option PgError :=
  if negb ((so_IntervalSeconds r =? 0)%Z || (300 <=? so_IntervalSeconds r)%Z) then Some (violated "23514" "scope_sync_sources_interval_seconds_check")
  else if negb (bool_decide (so_Kind r ∈ ["http"; "db_query"; "db_table"]%string)) then Some (violated "23514" "scope_sync_sources_kind_check")
  else if negb (bool_decide (so_Status r ∈ ["active"; "disabled"]%string)) then Some (violated "23514" "scope_sync_sources_status_check")
  else None.

Definition put_source (s : ScStore) (id : string) (r : SyncSourceRecord) : result DbError ScStore :=
  match source_checks r with Some e => Err (Raised e) | None => Ok (set_sources s (<[id := r]> (ss_sources s))) end.

Definition CreateSyncSource (tenantID : string) (src : SyncSourceRecord) : M string :=
  with_uuid tenantID (fun tid => statement env MapErr (fun s =>
    let id := se_id env (ss_made s) in
    match se_jsonb env (OrDefaultStr (so_Config src) "{}") with
    | None => (Err (Raised bad_json), made s)
    | Some cfg =>
        let r := {| so_ID := id; so_TenantID := tid; so_Axis := so_Axis src; so_Kind := so_Kind src; so_Status := "active"; so_Config := cfg;
                    so_LastRunAt := None; so_IntervalSeconds := so_IntervalSeconds src;
                    so_NextRunAt := if (0 <? so_IntervalSeconds src)%Z then Some (se_now env) else None |} in
        match put_source s id r with
        | Err e => (Err e, made s)
        | Ok s' =>
            if some_row (fun _ o => bool_decide (so_TenantID o = tid) && bool_decide (so_Axis o = so_Axis src)) (ss_sources s)
            then (Err (Raised (violated "23505" "scope_sync_sources_tenant_id_axis_code_key")), made s)
            else match t_axes (ss_tables s) !! (tid, so_Axis src) with
                 | None => (Err (Raised (violated "23503" "scope_sync_sources_tenant_id_axis_code_fkey")), made s)
                 | Some _ => (Ok id, made s')
                 end
        end
    end)).

(** The CASE both updates share: a changed interval, or none set yet, is due
    now. *)
Definition next_run (interval : Z) (old : SyncSourceRecord) : option Time :=
  if (interval =? 0)%Z then None
  else if negb (interval =? so_IntervalSeconds old)%Z then Some (se_now env)
  else match so_NextRunAt old with None => Some (se_now env) | Some t => Some t end.

Definition update_source (tid c : string) (f : SyncSourceRecord -> option SyncSourceRecord) : M nat :=
  statement env MapErr (fun s =>
    match ss_sources s !! c with
    | Some old =>
        if bool_decide (so_TenantID old = tid)
        then match f old with
             | None => (Err (Raised bad_json), s)
             | Some r => match put_source s c r with Ok s' => (Ok 1%nat, s') | Err e => (Err e, s) end
             end
        else (Ok 0%nat, s)
    | None => (Ok 0%nat, s)
    end).

Definition UpdateSyncSource (tenantID : string) (src : SyncSourceRecord) : M unit :=
  with_uuid (so_ID src) (fun c => with_uuid tenantID (fun tid => touched ErrNotFound (update_source tid c (fun old =>
    match se_jsonb env (OrDefaultStr (so_Config src) "{}") with
    | None => None
    | Some cfg => Some {| so_ID := so_ID old; so_TenantID := so_TenantID old; so_Axis := so_Axis old; so_Kind := so_Kind old;
                          so_Status := OrDefaultStr (so_Status src) "active"; so_Config := cfg; so_LastRunAt := so_LastRunAt old;
                          so_IntervalSeconds := so_IntervalSeconds src; so_NextRunAt := next_run (so_IntervalSeconds src) old |}
    end)))).

Definition rescheduled (old : SyncSourceRecord) (interval : Z) (next : option Time) : SyncSourceRecord := {|
  so_ID := so_ID old; so_TenantID := so_TenantID old; so_Axis := so_Axis old; so_Kind := so_Kind old; so_Status := so_Status old;
  so_Config := so_Config old; so_LastRunAt := so_LastRunAt old; so_IntervalSeconds := interval; so_NextRunAt := next |}.

Definition SetSyncSchedule (tenantID id : string) (intervalSeconds : Z) : M unit :=
  with_uuid id (fun c => with_uuid tenantID (fun tid => touched ErrNotFound (update_source tid c (fun old =>
    Some (rescheduled old intervalSeconds (next_run intervalSeconds old)))))).

Definition ScheduleNextSyncSource (sourceID : string) : M unit :=
  with_uuid sourceID (fun c => statement env MapErr (fun s =>
    (Ok tt, set_sources s (alter (fun old => rescheduled old (so_IntervalSeconds old)
       (if (0 <? so_IntervalSeconds old)%Z then Some (se_now env + so_IntervalSeconds old * second)%Z else None)) c (ss_sources s))))).

Definition RecordSyncFailure (sourceID reason : string) : M unit :=
  with_uuid sourceID (fun c => statement env MapErr (fun s =>
    match ss_sources s !! c with
    | None => (Err (Raised (violated "23503" "scope_sync_runs_source_id_fkey")), made s)
    | Some _ => (Ok tt, made (set_runs s (ss_runs s ++ [{| ru_ID := se_id env (ss_made s); ru_SourceID := c; ru_StartedAt := se_now env;
                   ru_FinishedAt := Some (se_now env); ru_Dry := false; ru_Status := "failed";
                   ru_Report := {| rp_Error := Some reason; rp_Added := 0; rp_Renamed := 0; rp_Moved := 0; rp_Archived := 0; rp_Unchanged := 0;
                                   rp_Errors := []; rp_Dry := false |} |}])))
    end)).

(** The runs of a source of the tenant, newest first. *)
Definition newer (a b : SyncRun) : Prop := (ru_StartedAt b <= ru_StartedAt a)%Z.
#[export] Instance newer_dec : RelDecision newer := fun a b => Z.le_dec _ _.
Definition ListSyncRuns (tenantID sourceID : string) (limit : Z) : M (list SyncRun) :=
  with_uuid tenantID (fun tid => with_uuid sourceID (fun c => statement env MapErr (fun s =>
    (Ok (take (Z.to_nat limit) (merge_sort newer (List.filter (fun r => bool_decide (ru_SourceID r = c) &&
           match ss_sources s !! c with Some src => bool_decide (so_TenantID src = tid) | None => false end) (ss_runs s)))), s)))).

End Repository.
End ScopeSync.
