(* ===== verification/ScopeAdmin.v ===== *)
(** internal/scope/app/scope_admin_interactor.go: the handlers that administer
    structures, their levels and items, and the feeds that fill them. *)

From Stdlib Require Import ZArith Lia Bool Ascii String.
From stdpp Require Import base gmap strings list sorting.
From S2P Require Import Prelude.
From S2P Require Import GoStrings.
From S2P Require Import GoConv.
From S2P Require Import Shared.
From S2P Require Import AuthStore.
From S2P Require Import AdminGuard.
From S2P Require Import ScopeTree.
From S2P Require Import SyncFeed.
From S2P Require Import ScopeStore.
From S2P Require Import ScopeSync.

Module ScopeAdmin.
Import Apperr Authctx AdminGuard ScopeStore FeedSort.

(** encoding/json of a source's configuration: the values this file reads. *)
Inductive JVal := JStr (s : string) | JObj (m : gmap string string) | JOther.

(** What a handler has besides the database: the guard and the caller, the
    caller's address, strings.ToLower, json.Unmarshal into an object (whose
    nested objects keep their strings), and the fetcher, if any. *)
Record SCtx := {
  sc_guard : Guard; sc_caller : option Principal; sc_ip : string; sc_ToLower : string -> string;
  sc_json : string -> option (gmap string JVal);
  sc_fetcher : option (SyncSourceRecord -> result Error (list SyncFeedRow));
  sc_error_text : Error -> string;
  sc_lower : string -> string; sc_right6 : string -> string; sc_default_type : string -> option string
}.

Section App.
Context (env : ScEnv) (sc : SCtx).

Abbreviation M := (Eff ScStore Error).

Definition Require (permission : string) : M Principal := lift (AdminGuard.Require (sc_guard sc) (sc_caller sc) permission).

Definition emit (p : Principal) (action target : string) (detail : gmap string string) : M unit := fun s =>
  (Ok tt, logged s {| AuthStore.au_TenantID := TenantID p; AuthStore.au_ActorID := IdentityID p; AuthStore.au_ActorKind := "identity";
     AuthStore.au_TargetID := target; AuthStore.au_SessionID := SessionID p; AuthStore.au_Action := action; AuthStore.au_Result := "allow";
     AuthStore.au_IP := sc_ip sc; AuthStore.au_Detail := detail |}).

(** [p] is nil for a timer's run. *)
Definition emitSync (tenantID : string) (p : option Principal) (action target : string) (detail : gmap string string) : M unit := fun s =>
  (Ok tt, logged s {| AuthStore.au_TenantID := tenantID;
     AuthStore.au_ActorID := match p with Some p => IdentityID p | None => "" end;
     AuthStore.au_ActorKind := match p with Some _ => "identity" | None => "system" end;
     AuthStore.au_TargetID := target; AuthStore.au_SessionID := match p with Some p => SessionID p | None => "" end;
     AuthStore.au_Action := action; AuthStore.au_Result := "allow"; AuthStore.au_IP := sc_ip sc; AuthStore.au_Detail := detail |}).

(** ** Structures and levels *)
Definition maxLevelName : nat := 80.

(** The loop over the parents: the first named twice. *)
Fixpoint named_twice (seen : list string) (parents : list string) : option string :=
  match parents with
  | [] => None
  | p :: r => if bool_decide (p ∈ seen) then Some p else named_twice (p :: seen) r
  end.

Definition validLevel (t : ScopeNodeTypeRecord) : result Error unit :=
  if negb (Validate.ValidCode (tr_Code t)) then Err (With ErrInvalidArgument "code" "lowercase letters, digits and _, 2 to 31 long")
  else
    let name := TrimSpace (tr_DisplayName t) in
    if bool_decide (name = ""%string) || (maxLevelName <? Utf8.RuneCountInString name)%nat
    then Err (With ErrInvalidArgument "display_name" "1 to 80 characters")
    else match named_twice [] (tr_ParentTypes t) with
         | Some p => Err (With ErrInvalidArgument "parent_types" ("names " ++ p ++ " twice"))
         | None => Ok tt
         end.

Definition top_level (axis : string) (top : ScopeNodeTypeRecord) : ScopeNodeTypeRecord :=
  {| tr_Code := tr_Code top; tr_Axis := axis; tr_DisplayName := tr_DisplayName top; tr_ParentTypes := [] |}.

Definition CreateScopeAxis (a : ScopeAxisRecord) (top0 : option ScopeNodeTypeRecord) : M ScopeAxisRecord :=
  p ← Require "anubis:scope:admin";
  if negb (Validate.ValidCode (xr_Code a)) then raise (With ErrInvalidArgument "code" (xr_Code a))
  else
    let top := top_level (xr_Code a) <$> top0 in
    _ ← lift (match top with Some t => validLevel t | None => Ok tt end);
    _ ← WithinTx env (
          _ ← ScopeStore.CreateScopeAxis env (TenantID p) a;
          match top with Some t => ScopeStore.CreateScopeNodeType env (TenantID p) t | None => mret tt end);
    _ ← emit p "scope.axis_create" "" (<["axis" := xr_Code a]> (<["effect" := xr_DefaultEffect a]> ∅));
    _ ← match top with
        | Some t => emit p "scope.node_type_create" "" (<["axis" := xr_Code a]> (<["node_type" := tr_Code t]> ∅))
        | None => mret tt
        end;
    ScopeStore.ScopeAxis env (TenantID p) (xr_Code a).

Definition UpdateScopeAxis (a : ScopeAxisRecord) : M ScopeAxisRecord :=
  p ← Require "anubis:scope:admin";
  _ ← ScopeStore.UpdateScopeAxis env (TenantID p) a;
  _ ← emit p "scope.axis_update" "" (<["axis" := xr_Code a]> (<["effect" := xr_DefaultEffect a]> (<["status" := xr_Status a]> ∅)));
  ScopeStore.ScopeAxis env (TenantID p) (xr_Code a).

Definition CreateScopeNodeType (t : ScopeNodeTypeRecord) : M unit :=
  p ← Require "anubis:scope:admin";
  _ ← lift (validLevel t);
  ax ← attempt (ScopeStore.ScopeAxis env (TenantID p) (tr_Axis t));
  match ax with
  | Err _ => raise (With ErrInvalidArgument "axis" "no such structure")
  | Ok _ =>
      _ ← ScopeStore.CreateScopeNodeType env (TenantID p) t;
      emit p "scope.node_type_create" "" (<["axis" := tr_Axis t]> (<["node_type" := tr_Code t]> ∅))
  end.

Definition UpdateScopeNodeType (t0 : ScopeNodeTypeRecord) : M unit :=
  p ← Require "anubis:scope:admin";
  _ ← lift (validLevel t0);
  let t := {| tr_Code := tr_Code t0; tr_Axis := tr_Axis t0; tr_DisplayName := TrimSpace (tr_DisplayName t0); tr_ParentTypes := tr_ParentTypes t0 |} in
  _ ← ScopeStore.UpdateScopeNodeType env (TenantID p) t;
  emit p "scope.node_type_update" "" (<["axis" := tr_Axis t]> (<["node_type" := tr_Code t]> (<["parent_types" := String.concat "," (tr_ParentTypes t)]> ∅))).

(** ** Items *)
Definition ListScopeNodes (f0 : ScopeNodeFilter) : M (list ScopeNodeRecord * string) :=
  p ← Require "anubis:identity:read";
  let f := Normalise f0 in
  page ← ScopeStore.ListScopeNodes env (TenantID p) f;
  mret (page, match last page with
              | Some n => if (Z.of_nat (length page) =? f_Limit f)%Z then PageToken.PageToken (sr_Name n) (sr_ID n) else ""%string
              | None => ""%string
              end).

(** The callback over one page. *)
Fixpoint each {A B} (fn : A -> B -> M A) (acc : A) (l : list B) : M A :=
  match l with [] => mret acc | x :: l => acc ← fn acc x; each fn acc l end.

(** The loop's fuel has run out: no code answers this. *)
Definition Hung : Error := E KindInternal "hung" "the loop goes on".

(** [for]: a page, its items, and on from its last until a short one. *)
Fixpoint eachPage {A} (fuel : nat) (tenantID : string) (f : ScopeNodeFilter) (fn : A -> ScopeNodeRecord -> M A) (acc : A) : M A :=
  match fuel with
  | O => raise Hung
  | S fuel =>
      page ← ScopeStore.ListScopeNodes env tenantID f;
      acc ← each fn acc page;
      if (Z.of_nat (length page) <? f_Limit f)%Z then mret acc
      else match last page with
           | Some n => eachPage fuel tenantID (After f n) fn acc
           | None => mret acc
           end
  end.
Definition eachScopeNode {A} (fuel : nat) (tenantID : string) (f : ScopeNodeFilter) (fn : A -> ScopeNodeRecord -> M A) (acc : A) : M A :=
  eachPage fuel tenantID (Normalise f) fn acc.

Definition CreateScopeNode (axis nodeType parentID0 slug0 name externalRef : string) : M ScopeNodeRecord :=
  p ← Require "anubis:scope:admin";
  parentID ← (if bool_decide (parentID0 = ""%string) then ScopeStore.EnsureAxisRoot env (TenantID p) axis else mret parentID0);
  let slug := if bool_decide (slug0 = ""%string) then Slug.slugify (sc_ToLower sc) name else slug0 in
  id ← AddScopeNode env (TenantID p) axis nodeType parentID slug name externalRef;
  _ ← emit p "scope.node_create" id (<["axis" := axis]> (<["name" := name]> ∅));
  ScopeStore.ScopeNode env (TenantID p) id.

Definition EnsureAxisRoot (axis : string) : M string :=
  p ← Require "anubis:scope:admin"; ScopeStore.EnsureAxisRoot env (TenantID p) axis.

(** A call whose error is answered as another. *)
Definition or_not_found {A} (m : M A) : M A := map_err (fun _ => ErrNotFound) m.

Definition MoveScopeNode (nodeID newParentID : string) : M unit :=
  p ← Require "anubis:scope:admin";
  _ ← or_not_found (ScopeStore.ScopeNode env (TenantID p) nodeID);
  _ ← or_not_found (ScopeStore.ScopeNode env (TenantID p) newParentID);
  _ ← ScopeStore.MoveScopeNode env nodeID newParentID;
  emit p "scope.node_move" nodeID (<["new_parent" := newParentID]> ∅).

Definition ArchiveScopeNode (nodeID : string) : M unit :=
  p ← Require "anubis:scope:admin";
  _ ← ScopeStore.ArchiveScopeNode env (TenantID p) nodeID;
  emit p "scope.node_archive" nodeID ∅.

Definition RestoreScopeNode (nodeID : string) : M unit :=
  p ← Require "anubis:scope:admin";
  _ ← ScopeStore.RestoreScopeNode env (TenantID p) nodeID;
  emit p "scope.node_restore" nodeID ∅.

Definition maxNodeName : nat := 200.

Definition RenameScopeNode (nodeID name0 : string) : M unit :=
  p ← Require "anubis:scope:admin";
  let name := TrimSpace name0 in
  if bool_decide (name = ""%string) || (maxNodeName <? Utf8.RuneCountInString name)%nat
  then raise (With ErrInvalidArgument "name" "1 to 200 characters")
  else
    n ← or_not_found (ScopeStore.ScopeNode env (TenantID p) nodeID);
    if bool_decide (sr_Status n = "archived"%string) then raise (With ErrInvalidArgument "node" "archived; restore it before renaming")
    else
      _ ← ScopeStore.RenameScopeNode env (TenantID p) nodeID name;
      emit p "scope.node_rename" nodeID (<["from" := sr_Name n]> (<["to" := name]> ∅)).

(** ** Bulk upsert *)

(** The counters and the refs seen. *)
Record Tally := {
  ta_added : Z; ta_renamed : Z; ta_moved : Z; ta_unchanged : Z; ta_archived : Z; ta_errs : list (string * string); ta_seen : list string
}.
Definition no_tally : Tally := {| ta_added := 0; ta_renamed := 0; ta_moved := 0; ta_unchanged := 0; ta_archived := 0; ta_errs := []; ta_seen := [] |}.
Definition t_err (t : Tally) (ref why : string) : Tally := {|
  ta_added := ta_added t; ta_renamed := ta_renamed t; ta_moved := ta_moved t; ta_unchanged := ta_unchanged t; ta_archived := ta_archived t;
  ta_errs := ta_errs t ++ [(ref, why)]; ta_seen := ta_seen t |}.
Definition t_see (t : Tally) (ref : string) : Tally := {|
  ta_added := ta_added t; ta_renamed := ta_renamed t; ta_moved := ta_moved t; ta_unchanged := ta_unchanged t; ta_archived := ta_archived t;
  ta_errs := ta_errs t; ta_seen := ref :: ta_seen t |}.
Definition t_count (t : Tally) (added renamed moved unchanged archived : Z) : Tally := {|
  ta_added := ta_added t + added; ta_renamed := ta_renamed t + renamed; ta_moved := ta_moved t + moved; ta_unchanged := ta_unchanged t + unchanged;
  ta_archived := ta_archived t + archived; ta_errs := ta_errs t; ta_seen := ta_seen t |}.

(** [if err := m(); err != nil { errs = append(...); continue }; k] *)
Definition or_note (t : Tally) (ref : string) (k : Tally) (r : result Error unit) : M Tally :=
  match r with Err e => mret (t_err t ref (Message e)) | Ok _ => mret k end.

(** A row whose parent is known: added, moved, renamed or as it was. *)
Definition place_row (p : Principal) (axis defaultNodeType parent : string) (t : Tally) (row : SyncFeedRow) : M Tally :=
  let nodeType := if bool_decide (NodeType row = ""%string) then defaultNodeType else NodeType row in
  existing ← attempt (ScopeNodeByRef env (TenantID p) axis (Ref row));
  match existing with
  | Err _ =>
      r ← attempt (AddScopeNode env (TenantID p) axis nodeType parent
            (Slug.slugify (sc_ToLower sc) (Name row) ++ "-" ++ Slug.suffix (sc_ToLower sc) (Ref row))%string (Name row) (Ref row));
      or_note t (Ref row) (t_count t 1 0 0 0 0) (match r with Ok _ => Ok tt | Err e => Err e end)
  | Ok n =>
      if negb (bool_decide (sr_ParentID n = parent)) then
        r ← attempt (ScopeStore.MoveScopeNode env (sr_ID n) parent); or_note t (Ref row) (t_count t 0 0 1 0 0) r
      else if negb (bool_decide (sr_Name n = Name row)) || bool_decide (sr_Status n = "archived"%string) then
        r ← attempt (ScopeStore.RenameScopeNode env (TenantID p) (sr_ID n) (Name row)); or_note t (Ref row) (t_count t 0 1 0 0 0) r
      else mret (t_count t 0 0 0 1 0)
  end.

(** One turn of the loop. *)
Definition upsert_row (p : Principal) (axis defaultNodeType root : string) (t0 : Tally) (row : SyncFeedRow) : M Tally :=
  if bool_decide (Ref row = ""%string) || bool_decide (Name row = ""%string) then mret (t_err t0 (Ref row) "missing ref or name")
  else
    let t := t_see t0 (Ref row) in
    parent ← (if bool_decide (ParentRef row = ""%string) then mret (Ok root)
              else pn ← attempt (ScopeNodeByRef env (TenantID p) axis (ParentRef row));
                   mret (match pn with Ok n => Ok (sr_ID n) | Err e => Err e end));
    match parent with
    | Err _ => mret (t_err t (Ref row) "parent ref not found (parents must come first)")
    | Ok parent => place_row p axis defaultNodeType parent t row
    end.

(** The archive pass over one item. *)
Definition archive_unseen (p : Principal) (t : Tally) (n : ScopeNodeRecord) : M Tally :=
  if negb (bool_decide (sr_ExternalRef n = ""%string)) && negb (bool_decide (sr_ExternalRef n ∈ ta_seen t)) && negb (sr_IsAxisRoot n) then
    r ← attempt (ScopeStore.ArchiveScopeNode env (TenantID p) (sr_ID n));
    mret (match r with Ok _ => t_count t 0 0 0 0 1 | Err _ => t end)
  else mret t.

Definition whole_axis (axis : string) : ScopeNodeFilter :=
  {| f_Axis := axis; f_ParentID := ""; f_Query := ""; f_IncludeArchived := false; f_AfterName := ""; f_AfterID := ""; f_Limit := 0 |}.

Definition upsert_run (fuel : nat) (p : Principal) (axis defaultNodeType : string) (rows : list SyncFeedRow) : M Tally :=
  root ← ScopeStore.EnsureAxisRoot env (TenantID p) axis;
  t ← each (upsert_row p axis defaultNodeType root) no_tally rows;
  eachScopeNode fuel (TenantID p) (whole_axis axis) (archive_unseen p) t.

Definition maxBulk : nat := Z.to_nat 50000.

(** A dry run keeps the counters and rolls everything else back. *)
Definition UpsertScopeNodes (fuel : nat) (axis defaultNodeType : string) (rows : list SyncFeedRow) (dry : bool) : M Tally :=
  p ← Require "anubis:scope:admin";
  if (maxBulk <? length rows)%nat then raise (With ErrInvalidArgument "rows" "max 50000 per call")
  else if dry then DryRun env (upsert_run fuel p axis defaultNodeType rows)
  else
    t ← WithinTx env (upsert_run fuel p axis defaultNodeType rows);
    _ ← emit p "scope.bulk_upsert" "" (<["axis" := axis]> (<["rows" := Strconv.Itoa (Z.of_nat (length rows))]> ∅));
    mret t.

(** ** Feeds *)

(** need: the first key of the configuration that is no non-empty string. *)
Definition missing (cfg : gmap string JVal) (keys : list string) : option string :=
  find (fun k => match cfg !! k with Some (JStr v) => bool_decide (v = ""%string) | _ => true end) keys.

Definition validateSyncConfig (s : SyncSourceRecord) : result Error unit :=
  if negb (so_IntervalSeconds s =? 0)%Z && (so_IntervalSeconds s <? MinSyncIntervalSeconds)%Z
  then Err (With ErrInvalidArgument "interval_seconds" "0 for manual, or at least 300 seconds")
  else match sc_json sc (so_Config s) with
  | None => Err (With ErrInvalidArgument "config" "invalid JSON")
  | Some cfg =>
      let need keys := match missing cfg keys with Some k => Err (With ErrInvalidArgument "config" ("missing " ++ k)) | None => Ok tt end in
      if bool_decide (so_Kind s = "http"%string) then
        _ ← need ["url"%string];
        let u := match cfg !! "url"%string with Some (JStr v) => v | _ => ""%string end in
        if negb (String.prefix "http://" u) && negb (String.prefix "https://" u) then Err (With ErrInvalidArgument "url" "http(s) only") else Ok tt
      else if bool_decide (so_Kind s = "db_query"%string) then need ["dsn"; "query"]%string
      else if bool_decide (so_Kind s = "db_table"%string) then
        _ ← need ["dsn"; "table"]%string;
        match cfg !! "columns"%string with
        | Some (JObj cols) =>
            match find (fun k => bool_decide (default ""%string (cols !! k) = ""%string)) ["ref"; "name"]%string with
            | Some k => Err (With ErrInvalidArgument "columns" ("missing " ++ k))
            | None => Ok tt
            end
        | _ => Err (With ErrInvalidArgument "columns" "required for db_table")
        end
      else Err (With ErrInvalidArgument "kind" (so_Kind s))
  end.

Definition CreateSyncSource (s : SyncSourceRecord) : M SyncSourceRecord :=
  p ← Require "anubis:sync:admin";
  _ ← lift (validateSyncConfig s);
  id ← ScopeSync.CreateSyncSource env (TenantID p) s;
  _ ← emit p "sync.source_create" id (<["axis" := so_Axis s]> (<["kind" := so_Kind s]> ∅));
  ScopeSync.SyncSource env (TenantID p) id.

Definition with_identity (src existing : SyncSourceRecord) : SyncSourceRecord := {|
  so_ID := so_ID src; so_TenantID := so_TenantID src; so_Axis := so_Axis existing; so_Kind := so_Kind existing; so_Status := so_Status src;
  so_Config := so_Config src; so_LastRunAt := so_LastRunAt src; so_IntervalSeconds := so_IntervalSeconds src; so_NextRunAt := so_NextRunAt src |}.

Definition UpdateSyncSource (src0 : SyncSourceRecord) : M SyncSourceRecord :=
  p ← Require "anubis:sync:admin";
  existing ← or_not_found (ScopeSync.SyncSource env (TenantID p) (so_ID src0));
  let src := with_identity src0 existing in
  _ ← lift (validateSyncConfig src);
  _ ← ScopeSync.UpdateSyncSource env (TenantID p) src;
  _ ← emit p "sync.source_update" (so_ID src) (<["axis" := so_Axis existing]> (<["kind" := so_Kind existing]> ∅));
  ScopeSync.SyncSource env (TenantID p) (so_ID src).

Definition SetSyncSchedule (sourceID : string) (intervalSeconds : Z) : M SyncSourceRecord :=
  p ← Require "anubis:sync:admin";
  if negb (intervalSeconds =? 0)%Z && (intervalSeconds <? MinSyncIntervalSeconds)%Z
  then raise (With ErrInvalidArgument "interval_seconds" "0 for manual, or at least 300 seconds")
  else
    existing ← or_not_found (ScopeSync.SyncSource env (TenantID p) sourceID);
    _ ← ScopeSync.SetSyncSchedule env (TenantID p) sourceID intervalSeconds;
    _ ← emit p "sync.schedule_set" sourceID (<["axis" := so_Axis existing]> (<["interval_seconds" := Strconv.Itoa intervalSeconds]> ∅));
    ScopeSync.SyncSource env (TenantID p) sourceID.

Definition maxSyncRuns : Z := 100.
Definition ListSyncRuns (sourceID : string) (limit0 : Z) : M (list SyncRun) :=
  p ← Require "anubis:sync:admin";
  let limit := if (limit0 <=? 0)%Z || (maxSyncRuns <? limit0)%Z then 25%Z else limit0 in
  ScopeSync.ListSyncRuns env (TenantID p) sourceID limit.

(** Losing the record of a failure does not fail the caller. *)
Definition recordFailure (sourceID reason : string) : M unit := _ ← attempt (ScopeSync.RecordSyncFailure env sourceID reason); mret tt.

(** Parents first, pushed or pulled. *)
Definition sorted (rows : list SyncFeedRow) : list SyncFeedRow := default [] (SortFeedParentsFirst rows).

Definition runSync (tenantID : string) (p : option Principal) (src : SyncSourceRecord) (rows0 : list SyncFeedRow) (dry : bool) : M Report :=
  if negb (bool_decide (so_Status src = "active"%string)) then raise (With ErrInvalidArgument "source" "disabled")
  else
    _ ← ScopeStore.EnsureAxisRoot env tenantID (so_Axis src);
    rows ← (match rows0 with
            | _ :: _ => mret rows0
            | [] =>
                match sc_fetcher sc with
                | None => raise (With ErrInvalidArgument "rows" "no rows supplied and no feed fetcher configured")
                | Some fetch =>
                    match fetch src with
                    | Err e =>
                        _ ← emitSync tenantID p "sync.fetch_failed" (so_ID src) (<["kind" := so_Kind src]> (<["error" := Code e]> ∅));
                        _ ← recordFailure (so_ID src) (sc_error_text sc e);
                        raise e
                    | Ok [] =>
                        _ ← recordFailure (so_ID src) "feed returned zero rows; refusing to archive the whole axis";
                        raise (With ErrInvalidArgument "feed" "returned zero rows; refusing to archive the whole axis")
                    | Ok fetched => mret fetched
                    end
                end
            end);
    if (maxBulk <? length rows)%nat then raise (With ErrInvalidArgument "rows" "max 50000 per run")
    else
      report ← ScopeSync.ScopeSyncApply env (sc_lower sc) (sc_right6 sc) (sc_default_type sc) (so_ID src) (sorted rows) dry;
      _ ← (if dry then mret tt
           else emitSync tenantID p "sync.run" (so_ID src) (<["rows" := Strconv.Itoa (Z.of_nat (length (sorted rows)))]> (<["kind" := so_Kind src]> ∅)));
      mret report.

Definition RunSync (sourceID : string) (rows : list SyncFeedRow) (dry : bool) : M Report :=
  p ← Require "anubis:sync:admin";
  source ← or_not_found (ScopeSync.SyncSource env (TenantID p) sourceID);
  runSync (TenantID p) (Some p) source rows dry.

(** The deferred reschedule runs whether the run worked or not. *)
Definition runDueOne (src : SyncSourceRecord) : M unit :=
  _ ← attempt (runSync (so_TenantID src) None src [] false);
  _ ← attempt (ScopeSync.ScheduleNextSyncSource env (so_ID src));
  mret tt.

Definition dueSyncBatch : Z := 50.
Definition RunDue (now : Time) (limit0 : Z) : M nat :=
  let limit := if (limit0 <=? 0)%Z || (dueSyncBatch <? limit0)%Z then dueSyncBatch else limit0 in
  due ← ScopeSync.DueSyncSources env now limit;
  each (fun ran src => _ ← runDueOne src; mret (S ran)) 0 due.

(** ** Reads *)
Definition ScopeNode (id : string) : M ScopeNodeRecord := p ← Require "anubis:identity:read"; ScopeStore.ScopeNode env (TenantID p) id.

Definition maxNodeLookup : nat := 500.
Definition ScopeNodes (ids : list string) : M (list ScopeNodeRecord) :=
  p ← Require "anubis:identity:read";
  match ids with
  | [] => mret []
  | _ => if (maxNodeLookup <? length ids)%nat
         then raise (With (With ErrInvalidArgument "ids" "at most 500 per call") "hint" "resolve the names for one page, not the whole axis")
         else ScopeNodesByIDs env (TenantID p) ids
  end.

Definition ScopeAncestors (id : string) : M (list ScopeAncestor) := p ← Require "anubis:identity:read"; ScopeStore.ScopeAncestors env (TenantID p) id.

End App.
End ScopeAdmin.
