(* ===== verification/ScopeProps.v ===== *)
(** What administering structures keeps: whoever asks, in whatever order, and
    whatever fails, a structure stays whole. *)

From Stdlib Require Import ZArith Lia Bool Ascii String.
From stdpp Require Import base gmap strings list sorting.
From S2P Require Import Prelude.
From S2P Require Import Triples.
From S2P Require Import GoStrings.
From S2P Require Import GoConv.
From S2P Require Import Shared.
From S2P Require Import AuthStore.
From S2P Require Import AdminGuard.
From S2P Require Import ScopeTree.
From S2P Require Import TreeProps.
From S2P Require Import SyncFeed.
From S2P Require Import ScopeStore.
From S2P Require Import ScopeSync.
From S2P Require Import ScopeAdmin.

Module ScopeProps.
Import Apperr Authctx Pg ScopeTree Ancestry Links Whole FeedSort ScopeStore ScopeSync ScopeAdmin Triples.

Definition is_uuid (x : string) : Prop := Uuid.canon x = Some x.

(** The tables are whole, every item's id is a uuid as the database prints it,
    and these items are among them. *)
Definition whole (xs : list string) (t : Tables) : Prop :=
  tree_ok t /\ (forall x, is_Some (t_nodes t !! x) -> is_uuid x) /\ forall x, x ∈ xs -> is_Some (t_nodes t !! x).

(** Every source is kept under its own id, a uuid. *)
Definition sources_ok (m : gmap string SyncSourceRecord) : Prop :=
  forall c src, m !! c = Some src -> so_ID src = c /\ is_uuid c.
Definition Whole_ (xs : list string) (s : ScStore) : Prop := whole xs (ss_tables s) /\ sources_ok (ss_sources s).

Lemma sources_put m c src : sources_ok m -> so_ID src = c -> is_uuid c -> sources_ok (<[c := src]> m).
Proof.
  intros Hm H1 H2 c' src' H. destruct (decide (c' = c)) as [->|]; [rewrite lookup_insert_eq in H; by injection H as <-|].
  rewrite lookup_insert_ne in H by done. by apply Hm.
Qed.

Lemma sources_at s c src : sources_ok (ss_sources s) -> ss_sources s !! c = Some src -> Uuid.canon (so_ID src) = Some c.
Proof. intros Hm H. by destruct (Hm _ _ H) as [-> ?]. Qed.

(** A change of the tables that loses no item and adds only uuids. *)
Definition grows (t t' : Tables) : Prop :=
  tree_ok t' /\ (forall x, is_Some (t_nodes t !! x) -> is_Some (t_nodes t' !! x)) /\
  forall x, is_Some (t_nodes t' !! x) -> is_Some (t_nodes t !! x) \/ is_uuid x.

Lemma whole_grows xs t t' : whole xs t -> grows t t' -> whole xs t'.
Proof.
  intros (_ & Hu & Hx) (Hok & Hg & Hb). split; [done|]. split; [|intros x Hin; by apply Hg, Hx].
  intros x Hn. destruct (Hb x Hn) as [?|?]; [by apply Hu|done].
Qed.

Lemma Whole_grows xs s s' : Whole_ xs s -> grows (ss_tables s) (ss_tables s') -> ss_sources s' = ss_sources s -> Whole_ xs s'.
Proof. intros [Hw Hm] Hg Hs. split; [by eapply whole_grows|by rewrite Hs]. Qed.

Lemma whole_more xs x t : whole xs t -> is_Some (t_nodes t !! x) -> whole (x :: xs) t.
Proof. intros (Hok & Hu & Hx) Hn. split; [done|]. split; [done|]. intros y [->|Hy]%elem_of_cons; [done|by apply Hx]. Qed.

Lemma whole_less xs x t : whole (x :: xs) t -> whole xs t.
Proof. intros (Hok & Hu & Hx). split; [done|]. split; [done|]. intros y Hy. apply Hx. by right. Qed.

Lemma Whole_more xs x s : Whole_ xs s -> is_Some (t_nodes (ss_tables s) !! x) -> Whole_ (x :: xs) s.
Proof. intros [Hw Hm] Hx. split; [by apply whole_more|done]. Qed.
Lemma Whole_less xs x s : Whole_ (x :: xs) s -> Whole_ xs s.
Proof. intros [Hw Hm]. split; [by eapply whole_less|done]. Qed.

Lemma grows_refl t : tree_ok t -> grows t t.
Proof. intros Hok. split; [done|]. auto. Qed.

Lemma grows_trans t t' t'' : grows t t' -> grows t' t'' -> grows t t''.
Proof.
  intros (_ & G1 & B1) (Hok & G2 & B2). split; [done|]. split; [auto|]. intros x Hx. destruct (B2 x Hx) as [H|?]; [|by right]. auto.
Qed.

Lemma grows_insert t t' id n : tree_ok t' -> t_nodes t' = <[id := n]> (t_nodes t) -> is_Some (t_nodes t !! id) \/ is_uuid id -> grows t t'.
Proof.
  intros Hok Hn Hid. split; [done|]. rewrite Hn. split; intros x.
  - intros Hx. destruct (decide (x = id)) as [->|]; [rewrite lookup_insert_eq; by eexists|by rewrite lookup_insert_ne].
  - destruct (decide (x = id)) as [->|]; [done|]. rewrite lookup_insert_ne by done. by left.
Qed.

Lemma grows_same t t' : tree_ok t' -> t_nodes t' = t_nodes t -> grows t t'.
Proof. intros Hok Hn. split; [done|]. rewrite Hn. auto. Qed.

(** *** The statements grow the tables *)
Lemma ensure_root_grows id tn ax t r t' : is_uuid id -> tree_ok t -> scope_ensure_root id tn ax t = Ok (r, t') ->
  grows t t' /\ is_Some (t_nodes t' !! r).
Proof.
  intros Hid Hok H. destruct (ensure_root_keeps _ _ _ _ _ _ Hok H) as (Hok' & _ & n & Hn & _ & [->|(_ & _ & Hins)]).
  - split; [by apply grows_refl|by exists n].
  - split; [|by exists n]. apply (grows_insert t t' r n); [done..|].
    unfold scope_ensure_root in H. destruct (find_row _ _) as [[i m]|] eqn:Ef.
    + injection H as -> ->. left. apply find_row_some in Ef as [Ef _]. by exists m.
    + destruct (merge_sort _ _) as [|[code ty] l]; [done|]. destruct (insert_node _ _ _); [|done].
      destruct (insert_link _ _); [|done]. injection H as <- _. by right.
Qed.

Lemma add_node_apart id tn ax ty p slug name ref t r :
  is_Some (t_nodes t !! p) -> scope_add_node id tn ax ty p slug name ref t = Ok r -> id <> p.
Proof.
  intros [m Hm] H ->. unfold scope_add_node in H. destruct (match sql_max _ with Some _ => _ | None => _ end); [done|].
  unfold insert_node in H. by rewrite Hm in H.
Qed.

Lemma add_node_grows id tn ax ty p slug name ref t r t' :
  is_uuid id -> tree_ok t -> id <> p \/ is_Some (t_nodes t !! p) -> scope_add_node id tn ax ty p slug name ref t = Ok (r, t') -> grows t t'.
Proof.
  intros Hid Hok Hp H. assert (id <> p) as Hne.
  { destruct Hp as [|Hp]; [done|]. by eapply add_node_apart. }
  destruct (add_node_keeps _ _ _ _ _ _ _ _ _ _ _ Hok Hne H) as (-> & Hok' & _ & _ & Hn).
  eapply grows_insert; [done|exact Hn|by right].
Qed.

(** A move of what is not there changes nothing. *)
Lemma move_absent v q t t' : tree_ok t -> t_nodes t !! v = None -> scope_move_node v q t = Ok t' -> tree_ok t' /\ t_nodes t' = t_nodes t.
Proof.
  intros Hok Hv H. pose proof (to_exact _ Hok) as He. unfold scope_move_node in H.
  destruct (bool_decide _); [done|]. destruct (_ <? _)%Z; [done|].
  assert (forall d n, t_closure t !! (v, d) <> Some n) as Hno.
  { intros d n Hd%He. apply up_top in Hd as [? Hd]. congruence. }
  assert (severed t v = t_closure t) as Hs.
  { apply map_eq. intros [a d]. apply option_eq. intros n. rewrite (severed_spec t v a d n He), <- (He a d n). split; [by intros [? _]|].
    intros Hn. split; [done|]. intros ((k & Hk%He) & _). by apply (Hno d k). }
  rewrite Hs in H. assert (grafts (with_closure t (t_closure t)) v q = []) as Hg.
  { destruct (grafts _ v q) as [|[[a d] n] l] eqn:E; [done|]. assert ((a, d, n) ∈ grafts (with_closure t (t_closure t)) v q) as Hin by (rewrite E; by left).
    apply grafts_spec in Hin as (i & j & _ & Hj & _). by destruct (Hno d j). }
  rewrite Hg in H. cbn in H. rewrite Hv in H. injection H as <-. split; [|done]. by destruct t.
Qed.

Lemma move_node_grows v q t t' : tree_ok t -> scope_move_node v q t = Ok t' -> grows t t'.
Proof.
  intros Hok H. destruct (t_nodes t !! v) as [n|] eqn:Hv.
  - destruct (move_node_keeps _ _ _ _ Hok ltac:(by exists n) H) as (Hok' & _ & m & Hm & Hn). eapply grows_insert; [done|exact Hn|]. left. by exists n.
  - destruct (move_absent _ _ _ _ Hok Hv H) as [Hok' Hn]. by apply grows_same.
Qed.

Lemma retitle_grows t id n name status :
  tree_ok t -> t_nodes t !! id = Some n -> status = "active"%string \/ status = "archived"%string ->
  grows t (with_nodes t (<[id := retitled n name status]> (t_nodes t))).
Proof. intros Hok Hn Hs. eapply grows_insert; [by apply retitle_keeps|done|]. left. by exists n. Qed.

(** Names and statuses alone change, of any number of items. *)
Lemma retitle_all_grows t f :
  tree_ok t -> (forall n, node_checks n = None -> node_checks (f n) = None) ->
  (forall n, f n = retitled n (nd_Name (f n)) (nd_Status (f n))) -> grows t (with_nodes t (f <$> t_nodes t)).
Proof.
  intros Hok Hc Hf.
  assert (forall x, nd_Parent <$> ((f <$> t_nodes t) !! x) = nd_Parent <$> (t_nodes t !! x)) as Hpar.
  { intros x. rewrite lookup_fmap. destruct (t_nodes t !! x) as [n|]; [|done]. cbn. by rewrite (Hf n). }
  assert (forall n m, clash (f n) (f m) <-> clash n m) as Hcl by (intros n m; by rewrite (Hf n), (Hf m)).
  split; [|split; intros x; cbn; rewrite lookup_fmap, fmap_is_Some; auto]. split; cbn; try apply Hok.
  - intros a d k. rewrite (to_exact _ Hok a d k). split; apply up_agree; intros x j _; by rewrite Hpar.
  - intros i m Hm. apply lookup_fmap_Some in Hm as (n & <- & Hn). destruct (to_placed _ Hok _ _ Hn) as (ty & Hl & Hp). rewrite (Hf n).
    exists ty. split; [done|]. cbn [nd_Parent retitled nd_Root]. destruct (nd_Parent n) as [p|]; [|done]. destruct Hp as (Hr & u & Hu & Ha & Hin).
    split; [done|]. exists (f u). cbn. rewrite lookup_fmap, Hu. split; [done|]. by rewrite (Hf u).
  - intros i m Hm. apply lookup_fmap_Some in Hm as (n & <- & Hn). apply Hc. by eapply (to_checks _ Hok).
  - intros i j n m Hi Hj. apply lookup_fmap_Some in Hi as (n' & <- & Hi). apply lookup_fmap_Some in Hj as (m' & <- & Hj).
    rewrite Hcl. by apply (to_apart _ Hok i j n' m').
Qed.

(** *** The reconciler *)
Section Reconciler.
Context (lower right6 : string -> string) (new_id : nat -> string) (tenant axis : string) (default_type : option string) (root : option string) (dry : bool).
Hypothesis Hids : forall k, is_uuid (new_id k).

Abbreviation srow := (sync_row lower right6 new_id tenant axis default_type root dry).

Lemma sync_row_grows s r :
  tree_ok (sy_tables s) -> (forall x, root = Some x -> is_Some (t_nodes (sy_tables s) !! x)) -> grows (sy_tables s) (sy_tables (srow s r)).
Proof using Hids.
  intros Hok Hroot. unfold sync_row. destruct (sync_parent _ _ _ _ _ _) as [parent|e] eqn:Ep; [|by apply grows_refl].
  assert (forall p, parent = Some p -> is_Some (t_nodes (sy_tables s) !! p)) as Hpar.
  { unfold sync_parent in Ep. destruct (v_pref r) as [pref|]; [|injection Ep as <-; done].
    destruct (node_by_ref _ _ _ pref) as [[id n]|] eqn:Er.
    - injection Ep as <-. intros p [= <-]. apply find_row_some in Er as [Er _]. by exists n.
    - destruct (_ && _); [|done]. injection Ep as <-. done. }
  destruct (node_by_ref _ _ _ (Ref r)) as [[id n]|] eqn:En.
  - apply find_row_some in En as [En _]. destruct (negb _).
    + destruct dry; [by apply grows_refl|]. unfold sync_move. destruct parent as [p|]; [|by apply grows_refl].
      destruct (scope_move_node id p _) eqn:Em; [|by apply grows_refl]. by apply (move_node_grows id p).
    + destruct (_ || _); [|by apply grows_refl]. destruct dry; [by apply grows_refl|]. cbn. apply retitle_grows; [done..|by left].
  - destruct dry; [by apply grows_refl|]. unfold sync_add. destruct parent as [p|]; [|by apply grows_refl].
    destruct (v_type _ _) as [ty|]; [|by apply grows_refl].
    destruct (scope_add_node _ _ _ _ _ _ _ _ _) as [[i t]|] eqn:Ea; [|by apply grows_refl]. cbn.
    eapply add_node_grows; [apply Hids|done| |exact Ea]. right. by apply Hpar.
Qed.

Lemma sync_rows_grow rows : forall s,
  tree_ok (sy_tables s) -> (forall x, root = Some x -> is_Some (t_nodes (sy_tables s) !! x)) ->
  grows (sy_tables s) (sy_tables (sync_rows lower right6 new_id tenant axis default_type root dry rows s)).
Proof using Hids.
  unfold sync_rows. induction rows as [|r rows IH]; intros s Hok Hroot; [by apply grows_refl|]. cbn.
  pose proof (sync_row_grows s r Hok Hroot) as Hg. eapply grows_trans; [exact Hg|]. destruct Hg as (Hok' & Hk & _).
  apply IH; [done|]. intros x Hx. by apply Hk, Hroot.
Qed.

End Reconciler.

Lemma archive_gone_grows tenant axis rows t : tree_ok t -> grows t (archive_gone tenant axis rows t).
Proof.
  intros Hok. unfold archive_gone. apply retitle_all_grows; [done|..]; intros n; destruct (gone _ _ _ n); try done.
  - unfold node_checks. cbn [retitled nd_Root nd_Parent nd_Slug nd_Status].
    destruct (negb (nd_Root n || _)); [done|]. destruct (nd_Root n && _); [done|]. by destruct (bool_decide (nd_Slug n = _)).
  - by destruct n.
Qed.

Section Handlers.
Context (env : ScEnv).

Lemma triple_statement {A} map (m : ScStore -> result DbError A * ScStore) xs (post : A -> Prop) :
  (forall s a s', Whole_ xs s -> m s = (Ok a, s') -> Whole_ xs s' /\ post a) -> triple (Whole_ xs) (statement env map m) post.
Proof using.
  intros Hm s Hs. unfold statement. assert (Whole_ xs (called s)) as Hc by done.
  assert (forall s0, Whole_ xs s0 -> Whole_ xs (aborting s0)) as Hab by (intros s0 H0; unfold aborting; by destruct (ss_tx s0)).
  destruct (ss_tx (called s)); [..|by split]; (destruct (se_fails env (ss_calls s)); [split; [by apply Hab|done]|]);
    (destruct (m (called s)) as [[a|e] s'] eqn:E; [|split; [by apply Hab|done]]);
    destruct (Hm _ _ _ Hc E) as [H1 H2]; (split; [done|]); by intros ? [= <-].
Qed.

Lemma triple_reading {A} map (f : Tables -> A) xs : triple (Whole_ xs) (statement env map (reads f)) (fun _ => True).
Proof using. apply triple_statement. unfold reads. by intros s a s' Hs [= <- <-]. Qed.

Lemma triple_writing {A} map (f : Tables -> Sql (A * Tables)) xs :
  (forall t a t', tree_ok t -> f t = Ok (a, t') -> grows t t') -> triple (Whole_ xs) (statement env map (writes f)) (fun _ => True).
Proof using.
  intros Hf. apply triple_statement. unfold writes. intros s a s' Hs H. destruct (f (ss_tables s)) as [[a' t']|] eqn:E; [|done].
  injection H as <- <-. split; [|done]. eapply Whole_grows; [exact Hs| |done]. eapply Hf; [apply Hs|done].
Qed.

Lemma triple_making {A} map (f : string -> Tables -> Sql (A * Tables)) xs :
  (forall k t a t', tree_ok t -> whole xs t -> f (se_id env k) t = Ok (a, t') -> grows t t') ->
  triple (Whole_ xs) (statement env map (makes env f)) (fun _ => True).
Proof using.
  intros Hf. apply triple_statement. unfold makes, writes. cbn. intros s a s' Hs H.
  destruct (f (se_id env (ss_made s)) (ss_tables s)) as [[a' t']|] eqn:E; [|done]. injection H as <- <-. split; [|done].
  eapply Whole_grows; [exact Hs| |done]. eapply Hf; [apply Hs|apply Hs|done].
Qed.

Lemma triple_uuid {A} id (k : string -> Eff ScStore Error A) xs post :
  (forall c, Uuid.canon id = Some c -> triple (Whole_ xs) (k c) post) -> triple (Whole_ xs) (with_uuid id k) post.
Proof using. intros Hk. unfold with_uuid. destruct (Uuid.canon id) as [c|]; [by apply Hk|apply triple_raise]. Qed.

Lemma triple_scope_tx {A} (m : Eff ScStore Error A) xs post : triple (Whole_ xs) m post -> triple (Whole_ xs) (WithinTx env m) post.
Proof using.
  intros Hm s Hs. unfold WithinTx. destruct (ss_tx s); [|by apply Hm..]. destruct (se_fails env (ss_calls s)); [by split|].
  specialize (Hm (set_tx (called s) InTx) Hs). destruct (m _) as [[a|e] s']; [|by split]. destruct Hm as [H1 H2].
  destruct (_ || _); [by split|]. split; [done|]. intros ? [= <-]. by apply H2.
Qed.

Lemma triple_dry {A} (m : Eff ScStore Error A) xs : triple (Whole_ xs) m (fun _ => True) -> triple (Whole_ xs) (DryRun env m) (fun _ => True).
Proof using.
  intros Hm s Hs. unfold DryRun. destruct (ss_tx s); [|by apply Hm..]. destruct (se_fails env (ss_calls s)); [by split|]. by destruct (m _) as [r s'].
Qed.

Lemma triple_found {A} what (m : Eff ScStore Error (option A)) xs :
  triple (Whole_ xs) m (fun _ => True) -> triple (Whole_ xs) (found what m) (fun _ => True).
Proof using. intros Hm. eapply triple_bind; [exact Hm|]. intros [a|] _; [by apply triple_ret|apply triple_raise]. Qed.

Lemma triple_touched what (m : Eff ScStore Error nat) xs :
  triple (Whole_ xs) m (fun _ => True) -> triple (Whole_ xs) (touched what m) (fun _ => True).
Proof using. intros Hm. eapply triple_bind; [exact Hm|]. intros n _. destruct (n =? 0)%nat; [apply triple_raise|by apply triple_ret]. Qed.

(** An item a call found or made stays among the items. *)
Lemma triple_gains {A B} (m : Eff ScStore Error A) (f : A -> Eff ScStore Error B) (id : A -> string) xs :
  (forall s, Whole_ xs s -> let '(r, s') := m s in Whole_ xs s' /\ forall a, r = Ok a -> Whole_ (id a :: xs) s') ->
  (forall a, triple (Whole_ (id a :: xs)) (f a) (fun _ => True)) -> triple (Whole_ xs) (m ≫= f) (fun _ => True).
Proof using.
  intros Hm Hf s Hs. specialize (Hm s Hs). unfold mbind, eff_bind. destruct (m s) as [[a|e] s1]; destruct Hm as [H1 H2]; [|by split].
  specialize (Hf a s1 (H2 a eq_refl)). destruct (f a s1) as [r s2]. destruct Hf as [Hf _]. split; [|done]. by apply Whole_less in Hf.
Qed.

(** *** The repository *)
(** uuidv7() prints uuids. *)
Hypothesis Hids : forall k, is_uuid (se_id env k).

Abbreviation keeps xs m := (triple (Whole_ xs) m (fun _ => True)).

Lemma CreateScopeAxis_keeps tn a xs : keeps xs (ScopeStore.CreateScopeAxis env tn a).
Proof using.
  apply triple_uuid. intros tid _. apply triple_writing. intros t [] t' Hok. unfold insert_axis.
  destruct (se_jsonb _ _); [|done]. destruct (se_jsonb _ _); [|done]. destruct (axis_checks _ _); [done|]. destruct (t_axes t !! _); [done|].
  destruct (se_tenant _ _); [|done]. intros [= <-]. apply grows_same; [by apply axes_keep|done].
Qed.

Lemma UpdateScopeAxis_keeps tn a xs : keeps xs (ScopeStore.UpdateScopeAxis env tn a).
Proof using.
  apply triple_uuid. intros tid _. apply triple_touched, triple_writing. intros t n t' Hok. unfold update_axis.
  destruct (se_jsonb _ _); [|done]. destruct (t_axes t !! _); [|intros [= _ <-]; by apply grows_refl]. destruct (axis_checks _ _); [done|].
  intros [= _ <-]. apply grows_same; [by apply axes_keep|done].
Qed.

Lemma ScopeAxis_keeps tn c xs : keeps xs (ScopeStore.ScopeAxis env tn c).
Proof using. apply triple_uuid. intros tid _. apply triple_found, triple_reading. Qed.

Lemma CreateScopeNodeType_keeps tn ty xs : keeps xs (ScopeStore.CreateScopeNodeType env tn ty).
Proof using.
  apply triple_uuid. intros tid _. apply triple_writing. intros t [] t' Hok. destruct (insert_type _ _ _ _) as [t1|] eqn:E; [|done].
  intros [= <-]. destruct (insert_type_keeps _ _ _ _ _ Hok E) as [H1 H2]. by apply grows_same.
Qed.

Lemma UpdateScopeNodeType_keeps tn ty xs : keeps xs (ScopeStore.UpdateScopeNodeType env tn ty).
Proof using.
  apply triple_uuid. intros tid _. apply triple_touched, triple_writing. intros t n t' Hok E.
  destruct (update_type_keeps _ _ _ _ _ _ _ _ Hok E) as [H1 H2]. by apply grows_same.
Qed.

Lemma ScopeNode_keeps tn id xs : keeps xs (ScopeStore.ScopeNode env tn id).
Proof using. apply triple_uuid. intros c _. apply triple_uuid. intros tid _. apply triple_found, triple_reading. Qed.

Lemma ScopeNodesByIDs_keeps tn ids xs : keeps xs (ScopeNodesByIDs env tn ids).
Proof using.
  unfold ScopeNodesByIDs. destruct ids; [by apply triple_ret|]. apply triple_uuid. intros tid _.
  destruct (mapM _ _); [apply triple_reading|apply triple_raise].
Qed.

Lemma ListScopeNodes_keeps tn f xs : keeps xs (ScopeStore.ListScopeNodes env tn f).
Proof using.
  apply triple_uuid. intros tid _. destruct (opt_uuid _); [|apply triple_raise]. destruct (opt_uuid _); [apply triple_reading|apply triple_raise].
Qed.

Lemma ScopeAncestors_keeps tn id xs : keeps xs (ScopeStore.ScopeAncestors env tn id).
Proof using. apply triple_uuid. intros c _. apply triple_uuid. intros tid _. apply triple_reading. Qed.

Lemma AddScopeNode_keeps tn ax ty parent slug name ref xs :
  (forall c, Uuid.canon parent = Some c -> c ∈ xs \/ forall k, se_id env k <> c) -> keeps xs (AddScopeNode env tn ax ty parent slug name ref).
Proof using Hids.
  intros Hp. apply triple_uuid. intros tid _. apply triple_uuid. intros c Hc. apply triple_making. intros k t a t' Hok Hw E.
  eapply add_node_grows; [apply Hids|done| |exact E]. destruct (Hp c Hc) as [Hin|Hne]; [right; by apply Hw|left; by apply Hne].
Qed.

Lemma MoveScopeNode_keeps a b xs : keeps xs (ScopeStore.MoveScopeNode env a b).
Proof using.
  apply triple_uuid. intros c _. apply triple_uuid. intros p _. apply triple_writing. intros t [] t' Hok.
  destruct (scope_move_node c p t) as [t1|] eqn:E; [|done]. intros [= <-]. by eapply move_node_grows.
Qed.

Lemma retitle_keeps_ tid c p name status :
  status = "active"%string \/ status = "archived"%string ->
  forall t n t', tree_ok t -> retitle tid c p name status t = Ok (n, t') -> grows t t'.
Proof using.
  intros Hs t n t' Hok. unfold retitle. destruct (t_nodes t !! c) as [m|] eqn:E; [|intros [= _ <-]; by apply grows_refl].
  destruct (_ && _); [|intros [= _ <-]; by apply grows_refl]. intros [= _ <-]. by apply retitle_grows.
Qed.

Lemma ArchiveScopeNode_keeps tn id xs : keeps xs (ScopeStore.ArchiveScopeNode env tn id).
Proof using.
  apply triple_uuid. intros c _. apply triple_uuid. intros tid _. apply triple_touched, triple_writing. apply retitle_keeps_. by right.
Qed.
Lemma RestoreScopeNode_keeps tn id xs : keeps xs (ScopeStore.RestoreScopeNode env tn id).
Proof using.
  apply triple_uuid. intros c _. apply triple_uuid. intros tid _. apply triple_touched, triple_writing. apply retitle_keeps_. by left.
Qed.
Lemma RenameScopeNode_keeps tn id name xs : keeps xs (ScopeStore.RenameScopeNode env tn id name).
Proof using.
  apply triple_uuid. intros c _. apply triple_uuid. intros tid _. apply triple_touched, triple_writing. apply retitle_keeps_. by left.
Qed.

(** A statement gains what it answers. *)
Lemma statement_gains {A} map (m : ScStore -> result DbError A * ScStore) (P : A -> Tables -> Prop) xs :
  (forall s a s', Whole_ xs s -> m s = (Ok a, s') -> Whole_ xs s' /\ P a (ss_tables s')) ->
  forall s, Whole_ xs s -> let '(r, s') := statement env map m s in Whole_ xs s' /\ forall a, r = Ok a -> P a (ss_tables s').
Proof using.
  intros Hm s Hs. unfold statement. assert (Whole_ xs (called s)) as Hc by done.
  assert (forall s0, Whole_ xs s0 -> Whole_ xs (aborting s0)) as Hab by (intros s0 H0; unfold aborting; by destruct (ss_tx s0)).
  destruct (ss_tx (called s)); [..|by split]; (destruct (se_fails env (ss_calls s)); [split; [by apply Hab|done]|]);
    (destruct (m (called s)) as [[a|e] s'] eqn:E; [|split; [by apply Hab|done]]);
    destruct (Hm _ _ _ Hc E) as [H1 H2]; (split; [done|]); by intros ? [= <-].
Qed.

Lemma EnsureAxisRoot_gains tn ax xs s :
  Whole_ xs s -> let '(r, s') := ScopeStore.EnsureAxisRoot env tn ax s in Whole_ xs s' /\ forall a, r = Ok a -> Whole_ (a :: xs) s'.
Proof using Hids.
  intros Hs. unfold ScopeStore.EnsureAxisRoot, with_uuid. destruct (Uuid.canon tn) as [tid|]; [|by split].
  pose proof (statement_gains MapErr (makes env (fun id => scope_ensure_root id tid ax)) (fun a t => is_Some (t_nodes t !! a)) xs) as H.
  specialize (H ltac:(
    unfold makes, writes; cbn; intros s0 a s1 H0 E;
    destruct (scope_ensure_root (se_id env (ss_made s0)) tid ax (ss_tables s0)) as [[a' t']|] eqn:E'; [|done]; injection E as <- <-;
    destruct (ensure_root_grows _ _ _ _ _ _ (Hids _) (proj1 (proj1 H0)) E') as [Hg Ha]; split; [eapply Whole_grows; [exact H0|exact Hg|done]|exact Ha]) s Hs).
  destruct (statement _ _ _ s) as [r s']. destruct H as [H1 H2]. split; [done|]. intros a Ha. apply Whole_more; [done|by apply H2].
Qed.

Lemma EnsureAxisRoot_keeps tn ax xs : keeps xs (ScopeStore.EnsureAxisRoot env tn ax).
Proof using Hids.
  intros s Hs. pose proof (EnsureAxisRoot_gains tn ax xs s Hs) as H. destruct (ScopeStore.EnsureAxisRoot _ _ _ _). by destruct H.
Qed.

Lemma by_ref_gains tn ax ref xs s :
  Whole_ xs s -> let '(r, s') := ScopeNodeByRef env tn ax ref s in Whole_ xs s' /\ forall n, r = Ok n -> Whole_ (sr_ID n :: xs) s'.
Proof using.
  intros Hs. unfold ScopeNodeByRef, with_uuid. destruct (Uuid.canon tn) as [tid|]; [|by split].
  pose proof (statement_gains MapErr (reads (fun t => (fun '(id, n) => nodeRecord t false [] id n) <$> by_ref t tid ax ref))
    (fun o t => forall n, o = Some n -> is_Some (t_nodes t !! sr_ID n)) xs) as H.
  specialize (H ltac:(
    unfold reads; intros s0 a s1 H0 [= <- <-]; split; [done|]; intros n Hn; destruct (by_ref _ _ _ _) as [[id m]|] eqn:E; [|done];
    injection Hn as <-; apply find_row_some in E as [E _]; by exists m) s Hs).
  unfold found, mbind, eff_bind. destruct (statement _ _ _ s) as [[[n|]|e] s']; destruct H as [H1 H2]; [|by split..].
  split; [done|]. intros n' [= <-]. apply Whole_more; [done|]. by apply (H2 (Some n)).
Qed.

Lemma ScopeNodeByRef_keeps tn ax ref xs : keeps xs (ScopeNodeByRef env tn ax ref).
Proof using.
  intros s Hs. pose proof (by_ref_gains tn ax ref xs s Hs) as H. destruct (ScopeNodeByRef _ _ _ _ _). by destruct H.
Qed.

(** *** The feeds *)
Section Feeds.
Context (lower right6 : string -> string) (config : string -> option string).

Lemma ScopeSyncApply_keeps id rows dry xs : keeps xs (ScopeSync.ScopeSyncApply env lower right6 config id rows dry).
Proof using Hids.
  apply triple_uuid. intros c _. apply triple_statement. intros s a s' Hs H. split; [|done]. unfold scope_sync_apply in H.
  destruct (ss_sources s !! c) as [src|] eqn:Esrc; [|done]. injection H as _ <-. unfold Whole_. cbn [ss_tables ss_sources].
  set (root := fst <$> find_row _ _).
  assert (grows (ss_tables s) (sy_tables (sync_rows lower right6 (se_id env) (so_TenantID src) (so_Axis src) (config (so_Config src)) root dry rows
    (initial (made s))))) as Hg.
  { apply (sync_rows_grow lower right6 (se_id env) (so_TenantID src) (so_Axis src) (config (so_Config src)) root dry Hids rows (initial (made s))).
    - apply Hs.
    - intros x Hx. subst root. destruct (find_row _ _) as [[i n]|] eqn:E; [|done]. injection Hx as <-. apply find_row_some in E as [E _]. by exists n. }
  split.
  - eapply whole_grows; [apply Hs|]. destruct dry; [done|]. eapply grows_trans; [exact Hg|]. apply archive_gone_grows, Hg.
  - destruct dry; [apply Hs|]. destruct (proj2 Hs _ _ Esrc) as [H1 H2]. by apply sources_put; [apply Hs|..].
Qed.
End Feeds.

(** A statement over the feeds leaves the structures alone. *)
Lemma triple_feeds {A} map (m : ScStore -> result DbError A * ScStore) xs :
  (forall s a s', sources_ok (ss_sources s) -> m s = (Ok a, s') -> ss_tables s' = ss_tables s /\ sources_ok (ss_sources s')) ->
  keeps xs (statement env map m).
Proof using. intros Hm. apply triple_statement. intros s a s' [Hw Hs] E. split; [|done]. destruct (Hm _ _ _ Hs E) as [H1 H2]. split; [by rewrite H1|done]. Qed.

Lemma SyncSource_keeps tn id xs : keeps xs (ScopeSync.SyncSource env tn id).
Proof using.
  apply triple_uuid. intros tid _. apply triple_uuid. intros c _. apply triple_found, triple_feeds. by intros s a s' Hs [= _ <-].
Qed.

Lemma put_source_ok s id r s' : put_source s id r = Ok s' -> s' = set_sources s (<[id := r]> (ss_sources s)).
Proof using. unfold put_source. destruct (source_checks r); [done|]. by intros [= <-]. Qed.

Lemma CreateSyncSource_keeps tn src xs : keeps xs (ScopeSync.CreateSyncSource env tn src).
Proof using Hids.
  apply triple_uuid. intros tid _. apply triple_feeds. intros s a s' Hs. destruct (se_jsonb _ _); [|done].
  cbn zeta. match goal with |- context [put_source ?a ?b ?c] => destruct (put_source a b c) as [s1|] eqn:E; [|done] end.
  apply put_source_ok in E as ->. destruct (some_row _ _); [done|]. destruct (t_axes _ !! _); [|done]. intros [= _ <-]. split; [done|].
  by apply sources_put.
Qed.

Lemma update_source_keeps tid c f xs : (forall old r, f old = Some r -> so_ID r = so_ID old) -> keeps xs (update_source env tid c f).
Proof using.
  intros Hf. apply triple_feeds. intros s a s' Hs. destruct (ss_sources s !! c) as [old|] eqn:Eo; [|by intros [= _ <-]].
  destruct (bool_decide _); [|by intros [= _ <-]]. destruct (f old) as [r|] eqn:Er; [|done].
  destruct (put_source s c r) as [s2|] eqn:E; [|done]. apply put_source_ok in E as ->. intros [= _ <-]. split; [done|].
  destruct (Hs _ _ Eo) as [H1 H2]. apply sources_put; [done|by rewrite (Hf _ _ Er)|done].
Qed.

Lemma UpdateSyncSource_keeps tn src xs : keeps xs (ScopeSync.UpdateSyncSource env tn src).
Proof using. apply triple_uuid. intros c _. apply triple_uuid. intros tid _. apply triple_touched, update_source_keeps. intros old r. destruct (se_jsonb _ _); [by intros [= <-]|done]. Qed.
Lemma SetSyncSchedule_keeps tn id n xs : keeps xs (ScopeSync.SetSyncSchedule env tn id n).
Proof using. apply triple_uuid. intros c _. apply triple_uuid. intros tid _. apply triple_touched, update_source_keeps. by intros old r [= <-]. Qed.
Lemma ScheduleNextSyncSource_keeps id xs : keeps xs (ScopeSync.ScheduleNextSyncSource env id).
Proof using. apply triple_uuid. intros c _. apply triple_feeds. intros s a s' Hs [= _ <-]. split; [done|]. cbn. intros c' src H.
  destruct (decide (c = c')) as [<-|]; [|rewrite lookup_alter_ne in H by done; by apply Hs]. rewrite lookup_alter_eq in H.
  apply fmap_Some in H as (old & Ho & ->). by apply Hs in Ho. Qed.
Lemma RecordSyncFailure_keeps id why xs : keeps xs (ScopeSync.RecordSyncFailure env id why).
Proof using. apply triple_uuid. intros c _. apply triple_feeds. intros s a s' Hs. destruct (_ !! c); [|done]. by intros [= _ <-]. Qed.
Lemma DueSyncSources_keeps now n xs : keeps xs (ScopeSync.DueSyncSources env now n).
Proof using. apply triple_feeds. by intros s a s' Hs [= _ <-]. Qed.

(** *** The handlers *)
Context (sc : SCtx).

Lemma emitted_keeps p a t d xs : keeps xs (emit sc p a t d).
Proof using. by intros s Hs. Qed.
Lemma emitSync_keeps tn p a t d xs : keeps xs (emitSync sc tn p a t d).
Proof using. by intros s Hs. Qed.
Lemma Require_keeps perm xs : keeps xs (ScopeAdmin.Require sc perm).
Proof using. by apply triple_lift. Qed.

Ltac scope_leaf :=
  first [ apply Require_keeps | apply emitted_keeps | apply emitSync_keeps | apply CreateScopeAxis_keeps | apply UpdateScopeAxis_keeps
        | apply ScopeAxis_keeps | apply CreateScopeNodeType_keeps | apply UpdateScopeNodeType_keeps | apply ScopeNode_keeps
        | apply ScopeNodesByIDs_keeps | apply ListScopeNodes_keeps | apply ScopeAncestors_keeps | apply MoveScopeNode_keeps
        | apply ArchiveScopeNode_keeps | apply RestoreScopeNode_keeps | apply RenameScopeNode_keeps | apply EnsureAxisRoot_keeps
        | apply ScopeNodeByRef_keeps | apply ScopeSyncApply_keeps | apply SyncSource_keeps | apply CreateSyncSource_keeps
        | apply UpdateSyncSource_keeps | apply SetSyncSchedule_keeps | apply ScheduleNextSyncSource_keeps | apply RecordSyncFailure_keeps
        | apply DueSyncSources_keeps | apply triple_scope_tx | apply triple_dry ].
Ltac walk := walk_with ltac:(scope_leaf).

Lemma h_CreateScopeAxis a top xs : keeps xs (CreateScopeAxis env sc a top).
Proof using Hids. unfold CreateScopeAxis. walk. Qed.
Lemma h_UpdateScopeAxis a xs : keeps xs (UpdateScopeAxis env sc a).
Proof using Hids. unfold UpdateScopeAxis. walk. Qed.
Lemma h_CreateScopeNodeType t xs : keeps xs (CreateScopeNodeType env sc t).
Proof using Hids. unfold CreateScopeNodeType. walk. Qed.
Lemma h_UpdateScopeNodeType t xs : keeps xs (UpdateScopeNodeType env sc t).
Proof using Hids. unfold UpdateScopeNodeType. walk. Qed.
Lemma h_EnsureAxisRoot axis xs : keeps xs (EnsureAxisRoot env sc axis).
Proof using Hids. unfold EnsureAxisRoot. walk. Qed.
Lemma h_MoveScopeNode a b xs : keeps xs (MoveScopeNode env sc a b).
Proof using Hids. unfold MoveScopeNode, or_not_found. walk. Qed.
Lemma h_ArchiveScopeNode a xs : keeps xs (ArchiveScopeNode env sc a).
Proof using Hids. unfold ArchiveScopeNode. walk. Qed.
Lemma h_RestoreScopeNode a xs : keeps xs (RestoreScopeNode env sc a).
Proof using Hids. unfold RestoreScopeNode. walk. Qed.
Lemma h_RenameScopeNode a n xs : keeps xs (RenameScopeNode env sc a n).
Proof using Hids. unfold RenameScopeNode, or_not_found. walk. Qed.
Lemma h_CreateSyncSource r xs : keeps xs (CreateSyncSource env sc r).
Proof using Hids. unfold CreateSyncSource. walk. Qed.
Lemma h_UpdateSyncSource r xs : keeps xs (UpdateSyncSource env sc r).
Proof using Hids. unfold UpdateSyncSource, or_not_found. walk. Qed.
Lemma h_SetSyncSchedule id n xs : keeps xs (SetSyncSchedule env sc id n).
Proof using Hids. unfold SetSyncSchedule, or_not_found. walk. Qed.

Lemma h_runSync tn p src rows dry xs : keeps xs (runSync env sc tn p src rows dry).
Proof using Hids. unfold runSync, recordFailure. walk. Qed.
Lemma h_RunSync id rows dry xs : keeps xs (RunSync env sc id rows dry).
Proof using Hids. unfold RunSync, or_not_found. walk. apply h_runSync. Qed.

Lemma each_keeps {A B} (fn : A -> B -> Eff ScStore Error A) xs l : (forall a b, keeps xs (fn a b)) -> forall acc, keeps xs (each fn acc l).
Proof using. intros Hf. induction l as [|x l IH]; intros acc; [by apply triple_ret|]. cbn. eapply triple_bind; [apply Hf|]. intros a _. apply IH. Qed.

Lemma h_RunDue now n xs : keeps xs (RunDue env sc now n).
Proof using Hids.
  unfold RunDue. walk. apply each_keeps. intros k src. walk. unfold runDueOne. walk. apply h_runSync.
Qed.

Lemma AddUnder_keeps tn ax ty parent slug name ref xs : parent ∈ xs -> keeps xs (AddScopeNode env tn ax ty parent slug name ref).
Proof using Hids.
  intros Hin s Hs. apply AddScopeNode_keeps; [|done]. intros c Hc. left. destruct Hs as ((_ & Hu & Hx) & _). rewrite (Hu parent) in Hc; [|by apply Hx].
  by injection Hc as <-.
Qed.

(** A parent the caller names is no id the database is yet to give. *)
Definition not_yet (x : string) : Prop := forall c, Uuid.canon x = Some c -> forall k, se_id env k <> c.

Lemma h_CreateScopeNode axis ty parent slug name ref xs : not_yet parent -> keeps xs (CreateScopeNode env sc axis ty parent slug name ref).
Proof using Hids.
  intros Hp. unfold CreateScopeNode. eapply (triple_bind _ _ _ (fun _ => True)); [apply Require_keeps|]. intros p _. destruct (bool_decide (parent = _)).
  - eapply (triple_gains _ _ (fun a => a)); [intros s Hs; by apply EnsureAxisRoot_gains|]. intros a. walk. apply AddUnder_keeps. by left.
  - apply (triple_bind _ _ _ (fun a => a = parent)); [by apply triple_ret|]. intros a ->. walk.
    apply AddScopeNode_keeps. intros c Hc. right. by apply (Hp c).
Qed.

(** *** Bulk upsert *)
Lemma parent_gains (p : Principal) axis root ref xs s : root ∈ xs -> Whole_ xs s ->
  let '(r, s') := (if bool_decide (ref = ""%string) then mret (Ok root)
                   else pn ← attempt (ScopeNodeByRef env (TenantID p) axis ref);
                        mret (match pn with Ok n => Ok (sr_ID n) | Err e => Err e end) : Eff ScStore Error (result Error string)) s in
  Whole_ xs s' /\ forall a : result Error string, r = Ok a -> Whole_ (match a with Ok x => x | Err _ => root end :: xs) s'.
Proof using.
  intros Hin Hs. destruct (bool_decide (ref = _)).
  - split; [done|]. intros a [= <-]. apply Whole_more; [done|]. by apply Hs.
  - unfold attempt, mbind, eff_bind. pose proof (by_ref_gains (TenantID p) axis ref xs s Hs) as H.
    destruct (ScopeNodeByRef _ _ _ _ _) as [[n|e] s']; destruct H as [H1 H2]; (split; [done|]); intros a [= <-]; [by apply H2|].
    apply Whole_more; [done|]. by apply H1.
Qed.

Lemma upsert_row_keeps p axis ty root t row xs : root ∈ xs -> keeps xs (upsert_row env sc p axis ty root t row).
Proof using Hids.
  intros Hin. unfold upsert_row. destruct (_ || _); [walk|].
  eapply (triple_gains _ _ (fun a => match a with Ok x => x | Err _ => root end)); [intros s Hs; by apply parent_gains|].
  intros [parent|e]; unfold place_row, or_note; walk. apply AddUnder_keeps. by left.
Qed.

Lemma eachPage_keeps {A} (fn : A -> ScopeNodeRecord -> Eff ScStore Error A) xs tn fuel : (forall a n, keeps xs (fn a n)) ->
  forall f acc, keeps xs (eachPage env fuel tn f fn acc).
Proof using Hids.
  intros Hf. induction fuel as [|fuel IH]; intros f acc; cbn; [apply triple_raise|]. walk; [by apply each_keeps|apply IH].
Qed.

Lemma archive_unseen_keeps p t n xs : keeps xs (archive_unseen env p t n).
Proof using Hids. unfold archive_unseen. walk. Qed.

Lemma upsert_run_keeps fuel p axis ty rows xs : keeps xs (upsert_run env sc fuel p axis ty rows).
Proof using Hids.
  unfold upsert_run. eapply (triple_gains _ _ (fun a => a)); [intros s Hs; by apply EnsureAxisRoot_gains|]. intros root. walk.
  - apply each_keeps. intros t row. apply upsert_row_keeps. by left.
  - apply eachPage_keeps. intros t n. apply archive_unseen_keeps.
Qed.

Lemma h_UpsertScopeNodes fuel axis ty rows dry xs : keeps xs (UpsertScopeNodes env sc fuel axis ty rows dry).
Proof using Hids. unfold UpsertScopeNodes. walk; apply upsert_run_keeps. Qed.

Lemma h_ListScopeNodes f xs : keeps xs (ListScopeNodes env sc f).
Proof using Hids. unfold ListScopeNodes. walk. Qed.
Lemma h_ScopeNodes ids xs : keeps xs (ScopeNodes env sc ids).
Proof using Hids. unfold ScopeNodes. walk. Qed.
Lemma h_ListSyncRuns id n xs : keeps xs (ListSyncRuns env sc id n).
Proof using Hids.
  unfold ListSyncRuns. walk. apply triple_uuid. intros tid _. apply triple_uuid. intros c _. apply triple_feeds. by intros s l s' Hs [= _ <-].
Qed.

(** ** Requests *)
Inductive Request :=
  | QCreateScopeAxis (a : ScopeAxisRecord) (top : option ScopeNodeTypeRecord)
  | QUpdateScopeAxis (a : ScopeAxisRecord)
  | QCreateScopeNodeType (t : ScopeNodeTypeRecord)
  | QUpdateScopeNodeType (t : ScopeNodeTypeRecord)
  | QListScopeNodes (f : ScopeNodeFilter)
  | QCreateScopeNode (axis nodeType parentID slug name externalRef : string)
  | QEnsureAxisRoot (axis : string)
  | QMoveScopeNode (nodeID newParentID : string)
  | QArchiveScopeNode (nodeID : string)
  | QRestoreScopeNode (nodeID : string)
  | QRenameScopeNode (nodeID name : string)
  | QUpsertScopeNodes (fuel : nat) (axis defaultNodeType : string) (rows : list SyncFeedRow) (dry : bool)
  | QCreateSyncSource (r : SyncSourceRecord)
  | QUpdateSyncSource (r : SyncSourceRecord)
  | QSetSyncSchedule (sourceID : string) (seconds : Z)
  | QListSyncRuns (sourceID : string) (limit : Z)
  | QRunSync (sourceID : string) (rows : list SyncFeedRow) (dry : bool)
  | QRunDue (now : Time) (limit : Z)
  | QScopeNode (id : string)
  | QScopeNodes (ids : list string)
  | QScopeAncestors (id : string).

Definition after {A} (m : Eff ScStore Error A) (s : ScStore) : ScStore := snd (m s).

(** What a request leaves behind. *)
Definition serve (r : Request) : ScStore -> ScStore :=
  match r with
  | QCreateScopeAxis a top => after (CreateScopeAxis env sc a top)
  | QUpdateScopeAxis a => after (UpdateScopeAxis env sc a)
  | QCreateScopeNodeType t => after (CreateScopeNodeType env sc t)
  | QUpdateScopeNodeType t => after (UpdateScopeNodeType env sc t)
  | QListScopeNodes f => after (ListScopeNodes env sc f)
  | QCreateScopeNode axis ty parent slug name ref => after (CreateScopeNode env sc axis ty parent slug name ref)
  | QEnsureAxisRoot axis => after (EnsureAxisRoot env sc axis)
  | QMoveScopeNode a b => after (MoveScopeNode env sc a b)
  | QArchiveScopeNode a => after (ArchiveScopeNode env sc a)
  | QRestoreScopeNode a => after (RestoreScopeNode env sc a)
  | QRenameScopeNode a n => after (RenameScopeNode env sc a n)
  | QUpsertScopeNodes fuel axis ty rows dry => after (UpsertScopeNodes env sc fuel axis ty rows dry)
  | QCreateSyncSource r => after (CreateSyncSource env sc r)
  | QUpdateSyncSource r => after (UpdateSyncSource env sc r)
  | QSetSyncSchedule id n => after (SetSyncSchedule env sc id n)
  | QListSyncRuns id n => after (ListSyncRuns env sc id n)
  | QRunSync id rows dry => after (RunSync env sc id rows dry)
  | QRunDue now n => after (RunDue env sc now n)
  | QScopeNode id => after (ScopeNode env sc id)
  | QScopeNodes ids => after (ScopeNodes env sc ids)
  | QScopeAncestors id => after (ScopeAncestors env sc id)
  end.

Definition askable (r : Request) : Prop := match r with QCreateScopeNode _ _ parent _ _ _ => not_yet parent | _ => True end.

Lemma serve_keeps r xs s : askable r -> Whole_ xs s -> Whole_ xs (serve r s).
Proof using Hids.
  intros Ha Hs. destruct r; unfold serve, after; (eapply triple_after; [|exact Hs]);
    first [ apply h_CreateScopeAxis | apply h_UpdateScopeAxis | apply h_CreateScopeNodeType | apply h_UpdateScopeNodeType | apply h_ListScopeNodes
          | by apply h_CreateScopeNode | apply h_EnsureAxisRoot | apply h_MoveScopeNode | apply h_ArchiveScopeNode | apply h_RestoreScopeNode
          | apply h_RenameScopeNode | apply h_UpsertScopeNodes | apply h_CreateSyncSource | apply h_UpdateSyncSource | apply h_SetSyncSchedule
          | apply h_ListSyncRuns | apply h_RunSync | apply h_RunDue | apply h_ScopeNodes | unfold ScopeNode, ScopeAncestors; walk ].
Qed.

End Handlers.

(** A store reached from one with no structure yet: each request by whomever,
    with a database that gives uuids no earlier caller can have named. *)
Definition no_tables : Tables := {| t_axes := ∅; t_types := ∅; t_nodes := ∅; t_closure := ∅ |}.
Definition no_store : ScStore := {|
  ss_tables := no_tables; ss_sources := ∅; ss_runs := []; ss_log := []; ss_tx := NoTx; ss_calls := 0; ss_made := 0 |}.

Lemma no_tables_ok : tree_ok no_tables.
Proof.
  split; try done. intros a d n. split; [done|]. intros Hu. apply up_top in Hu as [m Hm]. done.
Qed.

Inductive reached : ScStore -> Prop :=
  | at_first : reached no_store
  | served env sc r s : (forall k, is_uuid (se_id env k)) -> askable env r -> reached s -> reached (serve env sc r s).

Lemma reached_whole s : reached s -> Whole_ [] s.
Proof.
  induction 1 as [|env sc r s Hids Ha _ IH]; [|by apply serve_keeps].
  split; [|done]. split; [apply no_tables_ok|]. split; [by intros x [? ?]|]. intros x Hx. by apply not_elem_of_nil in Hx.
Qed.

(** C4: whatever requests are made of the structures, by whomever, in whatever
    order, and whichever of the database's statements fail on the way, the
    tables stay whole: the closure lists exactly the ancestors each item's
    parents lead to, at their distances and none past the limit; every item has
    a level of its structure that may sit under its parent's, a parent of its
    own tenant and structure unless it is the one root; no two items share a
    slug under a parent or a feed's reference; every level can be reached from a
    top one, of which a structure has at most one; and an item's id is a uuid as
    the database prints it. *)
Theorem structures_stay_whole s : reached s ->
  tree_ok (ss_tables s) /\ forall x, is_Some (t_nodes (ss_tables s) !! x) -> is_uuid x.
Proof. intros H. by destruct (reached_whole s H) as ((Hok & Hu & _) & _). Qed.

End ScopeProps.
