(* ===== verification/SyncProps.v ===== *)
(** What a feed's run does to a structure: it writes the items its rows name and
    no others, and a run without errors leaves the structure as the feed has it. *)

From Stdlib Require Import ZArith Lia Bool Ascii String.
From stdpp Require Import base gmap strings list sorting.
From S2P Require Import Prelude.
From S2P Require Import Triples.
From S2P Require Import GoStrings.
From S2P Require Import GoConv.
From S2P Require Import Shared.
From S2P Require Import AuthStore.
From S2P Require Import AdminGuard.
From S2P Require Import ScopeTree.
From S2P Require Import TreeProps.
From S2P Require Import SyncFeed.
From S2P Require Import FeedProps.
From S2P Require Import ScopeStore.
From S2P Require Import ScopeSync.
From S2P Require Import ScopeAdmin.
From S2P Require Import ScopeProps.

Module SyncProps.
Import Apperr Authctx Pg ScopeTree Ancestry Links Whole FeedSort ScopeStore ScopeSync ScopeAdmin ScopeProps.

Section Rows.
Context (lower right6 : string -> string) (new_id : nat -> string) (tenant axis : string) (default_type : option string) (rt : string).
Hypothesis Hids : forall k, is_uuid (new_id k).

Abbreviation srow := (sync_row lower right6 new_id tenant axis default_type (Some rt)).
Abbreviation srows := (sync_rows lower right6 new_id tenant axis default_type (Some rt)).

Definition inside (n : NodeRow) : Prop := nd_Tenant n = tenant /\ nd_Axis n = axis.
(** An item of the structure a feed knows by this reference. *)
Definition known (ref : string) (n : NodeRow) : Prop := inside n /\ nd_Ref n = Some ref.

#[export] Instance known_dec ref n : Decision (known ref n).
Proof using. unfold known, inside. apply _. Defined.

Lemma by_ref_known t ref id n : node_by_ref tenant axis t ref = Some (id, n) -> t_nodes t !! id = Some n /\ known ref n.
Proof using.
  intros [Hn Hp]%find_row_some. split; [done|]. apply andb_true_iff in Hp as [Hp Hr]. apply andb_true_iff in Hp as [Ht Ha].
  unbool. done.
Qed.

Lemma by_ref_none t ref : node_by_ref tenant axis t ref = None -> forall id n, t_nodes t !! id = Some n -> ~ known ref n.
Proof using.
  intros Hf id n Hn ((Ht & Ha) & Hr). pose proof (find_row_none _ _ Hf id n Hn) as H. cbn in H.
  by rewrite !bool_decide_true in H by done.
Qed.

Lemma known_one t ref i j n m : tree_ok t -> t_nodes t !! i = Some n -> t_nodes t !! j = Some m -> known ref n -> known ref m -> i = j.
Proof using.
  intros Hok Hi Hj ((Hn1 & Hn2) & Hn3) ((Hm1 & Hm2) & Hm3). apply (to_apart _ Hok i j n m Hi Hj). left.
  unfold same_axis. rewrite Hn1, Hn2, Hm1, Hm2, !bool_decide_true by done. split; [done|]. rewrite Hn3, Hm3. by split.
Qed.

(** A dry run's rows write nothing. *)
Lemma dry_row s r : sy_tables (srow true s r) = sy_tables s.
Proof using.
  unfold sync_row. destruct (sync_parent _ _ _ _ _ _); [|done]. destruct (node_by_ref _ _ _ _) as [[id n]|]; [|done].
  destruct (negb _); [done|]. by destruct (_ || _).
Qed.
Lemma dry_rows rows : forall s, sy_tables (srows true rows s) = sy_tables s.
Proof using. unfold sync_rows. induction rows as [|r rows IH]; intros s; [done|]. cbn. by rewrite IH, dry_row. Qed.

Lemma checked_status n : node_checks n = None -> nd_Status n = "active"%string \/ nd_Status n = "archived"%string.
Proof using.
  unfold node_checks. destruct (negb (nd_Root n || _)); [done|]. destruct (nd_Root n && _); [done|]. destruct (bool_decide (nd_Slug n = _)); [done|].
  destruct (bool_decide (nd_Status n = "active"%string)) eqn:E1; destruct (bool_decide (nd_Status n = "archived"%string)) eqn:E2; unbool; auto. done.
Qed.

(** Where a row's item belongs. *)
Definition belongs (t : Tables) (r : SyncFeedRow) (p : string) : Prop :=
  match v_pref r with None => p = rt | Some ref => exists m, t_nodes t !! p = Some m /\ known ref m end.

(** What one row comes to: an error noted, or its item, which a move leaves with
    the name and status it had. *)
Inductive outcome (s : Sync) (r : SyncFeedRow) (s' : Sync) : Prop :=
  | noted why : sy_errs s' = sy_errs s ++ [(Ref r, why)] -> sy_tables s' = sy_tables s -> outcome s r s'
  | put id n p :
      sy_errs s' = sy_errs s -> t_nodes (sy_tables s') = <[id := n]> (t_nodes (sy_tables s)) -> known (Ref r) n ->
      nd_Parent n = Some p -> belongs (sy_tables s) r p ->
      match t_nodes (sy_tables s) !! id with
      | None => nd_Name n = Name r /\ nd_Status n = "active"%string
      | Some n0 => known (Ref r) n0 /\ nd_Root n = nd_Root n0 /\
          if bool_decide (nd_Parent n0 = Some p) then nd_Name n = Name r /\ nd_Status n = "active"%string else n = with_parent n0 (Some p)
      end -> outcome s r s'.

Lemma row_outcome s r : tree_ok (sy_tables s) -> is_Some (t_nodes (sy_tables s) !! rt) -> outcome s r (srow false s r).
Proof using Hids.
  intros Hok Hrt. unfold sync_row. destruct (sync_parent _ _ _ _ _ _) as [parent|e] eqn:Ep; [|by eapply noted].
  assert (exists p, parent = Some p /\ belongs (sy_tables s) r p /\ is_Some (t_nodes (sy_tables s) !! p)) as (p & -> & Hb & Hp).
  { unfold sync_parent in Ep. unfold belongs. destruct (v_pref r) as [pref|]; [|injection Ep as <-; by exists rt].
    destruct (node_by_ref _ _ _ pref) as [[id n]|] eqn:Er; [|done]. injection Ep as <-. apply by_ref_known in Er as [Hn Hk].
    exists id. split; [done|]. split; [by exists n|by eexists]. }
  destruct (node_by_ref _ _ _ (Ref r)) as [[id n]|] eqn:En.
  - apply by_ref_known in En as [Hn Hk]. destruct (bool_decide (nd_Parent n = Some p)) eqn:Eq; cbn [negb].
    + unbool. destruct (_ || _) eqn:Ec.
      * eapply (put _ _ _ id (retitled n (Name r) "active") p); [done..| |exact Hb|]; [done|]. rewrite Hn, bool_decide_true by done. done.
      * apply orb_false_iff in Ec as [H1 H2]. unbool. eapply (put _ _ _ id n p); [done| |done..|]; [by rewrite insert_id|].
        rewrite Hn, bool_decide_true by done. split; [done|]. split; [done|]. split; [done|].
        pose proof (to_checks _ Hok _ _ Hn) as Hc. by apply checked_status in Hc as [?|?].
    + unfold sync_move. destruct (scope_move_node id p _) as [t'|e] eqn:Em; [|by eapply noted].
      destruct (move_node_keeps _ _ _ _ Hok ltac:(by exists n) Em) as (_ & _ & m & Hm & Hw). rewrite Hn in Hm. injection Hm as <-.
      eapply (put _ _ _ id (with_parent n (Some p)) p); [done|exact Hw|done|done|exact Hb|]. rewrite Hn, Eq. done.
  - unfold sync_add. destruct (v_type _ _) as [ty|]; [|by eapply noted].
    destruct (scope_add_node _ _ _ _ _ _ _ _ _) as [[i t]|e] eqn:Ea; [|by eapply noted].
    pose proof (add_node_apart _ _ _ _ _ _ _ _ _ _ Hp Ea) as Hne. destruct (add_node_keeps _ _ _ _ _ _ _ _ _ _ _ Hok Hne Ea) as (-> & _ & _ & Hf & Hw).
    eapply put; [done|exact Hw|done|done|exact Hb|]. by rewrite Hf.
Qed.

(** ** All the rows *)
Abbreviation ok_run s := (tree_ok (sy_tables s) /\ is_Some (t_nodes (sy_tables s) !! rt)).

Lemma row_ok s r : ok_run s -> ok_run (srow false s r).
Proof using Hids.
  intros [Hok Hrt]. destruct (sync_row_grows lower right6 new_id tenant axis default_type (Some rt) false Hids s r Hok) as (H1 & H2 & _);
    [by intros x [= <-]|]. auto.
Qed.

(** What an item is, apart from its parent, its name and its status. *)
Record stands (n n' : NodeRow) : Prop := {
  st_tenant : nd_Tenant n' = nd_Tenant n;
  st_axis : nd_Axis n' = nd_Axis n;
  st_ref : nd_Ref n' = nd_Ref n;
  st_root : nd_Root n' = nd_Root n
}.

Lemma stands_refl n : stands n n.
Proof using. done. Qed.
Lemma stands_trans n1 n2 n3 : stands n1 n2 -> stands n2 n3 -> stands n1 n3.
Proof using. intros [? ? ? ?] [? ? ? ?]. split; congruence. Qed.
Lemma stands_known n n' ref : stands n n' -> known ref n -> known ref n'.
Proof using. intros [? ? ? ?] [[? ?] ?]. split; [split|]; congruence. Qed.

(** What a row does to an item: none of its place in the structure changes, and
    nothing unless the row names it. *)
Lemma row_keeps s r x n : ok_run s -> t_nodes (sy_tables s) !! x = Some n ->
  exists n', t_nodes (sy_tables (srow false s r)) !! x = Some n' /\ stands n n' /\ (~ known (Ref r) n -> n' = n).
Proof using Hids.
  intros [Hok Hrt] Hx. destruct (row_outcome s r Hok Hrt) as [why _ Ht|id m p _ Ht Hk _ _ Hm].
  - exists n. by rewrite Ht.
  - rewrite Ht. destruct (decide (x = id)) as [->|Hne]; [|exists n; by rewrite lookup_insert_ne].
    rewrite Hx in Hm. destruct Hm as (Hn & Hroot & _). exists m. rewrite lookup_insert_eq. split; [done|]. split; [|done].
    destruct Hn as [[Ht1 Ha1] Hr1], Hk as [[Ht2 Ha2] Hr2]. split; congruence.
Qed.

Lemma belongs_keeps s r r' p : ok_run s -> belongs (sy_tables s) r p -> belongs (sy_tables (srow false s r')) r p.
Proof using Hids.
  intros Hs. unfold belongs. destruct (v_pref r); [|done]. intros (m & Hm & Hk). destruct (row_keeps s r' p m Hs Hm) as (m' & H1 & H2 & _).
  exists m'. split; [done|]. by eapply stands_known.
Qed.

(** The item a row names is where the row has it, with the row's name and active,
    or as it was but for the parent it had. *)
Definition filed (t0 t : Tables) (r : SyncFeedRow) : Prop :=
  exists id n p, t_nodes t !! id = Some n /\ known (Ref r) n /\ nd_Parent n = Some p /\ belongs t r p /\
    (nd_Name n = Name r /\ nd_Status n = "active"%string \/
     exists n0, t_nodes t0 !! id = Some n0 /\ nd_Parent n0 <> Some p /\ n = with_parent n0 (Some p)).

Lemma filed_keeps t0 s r r' : ok_run s -> Ref r <> Ref r' -> filed t0 (sy_tables s) r -> filed t0 (sy_tables (srow false s r')) r.
Proof using Hids.
  intros Hs Hne (id & n & p & Hn & Hk & Hp & Hb & Hw). destruct (row_keeps s r' id n Hs Hn) as (n' & Hn' & _ & Heq).
  rewrite Heq in Hn'; [|intros [_ Hr]; destruct Hk as [_ Hk]; congruence]. exists id, n, p. split; [done|]. split; [done|]. split; [done|].
  split; [by apply belongs_keeps|done].
Qed.

(** No row before it has written the item a row names. *)
Definition unread (t0 : Tables) (s : Sync) (r : SyncFeedRow) : Prop :=
  forall x n, t_nodes (sy_tables s) !! x = Some n -> known (Ref r) n -> t_nodes t0 !! x = Some n.

Lemma unread_keeps t0 s r r' : ok_run s -> Ref r <> Ref r' -> unread t0 s r -> unread t0 (srow false s r') r.
Proof using Hids.
  intros [Hok Hrt] Hne Hu x n Hx Hk. destruct (row_outcome s r' Hok Hrt) as [why _ Ht|id m p _ Ht Hm _ _ _]; rewrite Ht in Hx; [by apply Hu|].
  destruct (decide (x = id)) as [->|Hx']; [|rewrite lookup_insert_ne in Hx by done; by apply Hu].
  rewrite lookup_insert_eq in Hx. injection Hx as ->. destruct Hk as [_ Hk], Hm as [_ Hm]. congruence.
Qed.

Lemma row_files t0 s r : ok_run s -> unread t0 s r -> sy_errs s = [] -> sy_errs (srow false s r) = [] -> filed t0 (sy_tables (srow false s r)) r.
Proof using Hids.
  intros [Hok Hrt] Hu Hs He. destruct (row_outcome s r Hok Hrt) as [why Hn Ht|id n p _ Ht Hk Hp Hb Hm].
  - rewrite He, Hs in Hn. done.
  - exists id, n, p. rewrite Ht, lookup_insert_eq. split; [done|]. split; [done|]. split; [done|]. split; [by apply belongs_keeps|].
    destruct (t_nodes (sy_tables s) !! id) as [n0|] eqn:E; [|by left]. destruct Hm as (Hk0 & _ & Hm). case_bool_decide; [by left|].
    right. exists n0. split; [by apply Hu|]. by split.
Qed.

Lemma errs_only_grow rows : forall s, ok_run s -> sy_errs (srows false rows s) = [] -> sy_errs s = [].
Proof using Hids.
  unfold sync_rows. induction rows as [|r rows IH]; intros s Hs He; [done|]. cbn in He. apply IH in He; [|by apply row_ok].
  destruct Hs as [Hok Hrt]. destruct (row_outcome s r Hok Hrt) as [why Hn _|id n p Hn _ _ _ _ _]; rewrite He in Hn; [|done].
  by destruct (sy_errs s).
Qed.

Lemma rows_file t0 rows : forall past s, NoDup (map Ref (past ++ rows)) -> ok_run s -> (forall r, r ∈ past -> filed t0 (sy_tables s) r) ->
  (forall r, r ∈ rows -> unread t0 s r) -> sy_errs (srows false rows s) = [] ->
  forall r, r ∈ past ++ rows -> filed t0 (sy_tables (srows false rows s)) r.
Proof using Hids.
  induction rows as [|r rows IH]; intros past s Hnd Hs Hp Hu He; [by rewrite app_nil_r|].
  assert (forall r', r' ∈ past \/ r' ∈ rows -> Ref r' <> Ref r) as Hne.
  { intros r' Hr' Heq. rewrite map_app, map_cons in Hnd. apply NoDup_app in Hnd as (_ & Hd & Hr). apply NoDup_cons in Hr as [Hr _].
    destruct Hr' as [Hr'|Hr']; [apply (Hd (Ref r')); [by apply list_elem_of_fmap_2|rewrite Heq; by left]|].
    apply Hr. rewrite <- Heq. by apply (list_elem_of_fmap_2 Ref). }
  pose proof (errs_only_grow (r :: rows) s Hs He) as He0.
  pose proof (row_ok s r Hs) as Hs'. pose proof (errs_only_grow rows _ Hs' He) as He1.
  replace (past ++ r :: rows) with ((past ++ [r]) ++ rows) in * by (by rewrite <- app_assoc).
  apply (IH (past ++ [r]) (srow false s r)); [done|done|..|done].
  - intros r' [Hr'|Hr']%elem_of_app.
    + apply filed_keeps; [done|by apply Hne; left|by apply Hp].
    + apply list_elem_of_singleton in Hr' as ->. apply row_files; [done|apply Hu; by left|done|done].
  - intros r' Hr'. apply unread_keeps; [done|apply Hne; by right|]. apply Hu. by right.
Qed.

(** Nothing else is written. *)
Lemma rows_confined rows x n : forall s, ok_run s -> t_nodes (sy_tables s) !! x = Some n -> (forall r, r ∈ rows -> ~ known (Ref r) n) ->
  t_nodes (sy_tables (srows false rows s)) !! x = Some n.
Proof using Hids.
  unfold sync_rows. induction rows as [|r rows IH]; intros s Hs Hx Hr; [done|]. cbn. apply IH; [by apply row_ok| |intros r' Hin; apply Hr; by right].
  destruct (row_keeps s r x n Hs Hx) as (n' & Hn' & _ & Heq). rewrite Heq in Hn'; [done|]. apply Hr. by left.
Qed.

(** What a row's item was known by, it is known by. *)
Lemma rows_keep rows x : forall s m, ok_run s -> t_nodes (sy_tables s) !! x = Some m ->
  exists n, t_nodes (sy_tables (srows false rows s)) !! x = Some n /\ stands m n.
Proof using Hids.
  unfold sync_rows. induction rows as [|r rows IH]; intros s m Hs Hm; [by exists m|]. cbn.
  destruct (row_keeps s r x m Hs Hm) as (m' & Hm' & Hk & _). destruct (IH _ m' (row_ok s r Hs) Hm') as (n & Hn & Hkn). exists n. split; [done|]. by eapply stands_trans.
Qed.

(** What is new is the feed's. *)
Lemma rows_fresh rows x n : forall s, ok_run s -> t_nodes (sy_tables s) !! x = None -> t_nodes (sy_tables (srows false rows s)) !! x = Some n ->
  exists r, r ∈ rows /\ known (Ref r) n.
Proof using Hids.
  unfold sync_rows. induction rows as [|r rows IH]; intros s Hs Hx Hn; [cbn in Hn; congruence|]. cbn in Hn.
  destruct (t_nodes (sy_tables (srow false s r)) !! x) as [m|] eqn:Hm.
  - exists r. split; [by left|]. destruct (rows_keep rows x _ m (row_ok s r Hs) Hm) as (n' & Hn' & Hkk). unfold sync_rows in Hn'.
    rewrite Hn in Hn'. injection Hn' as <-. apply (stands_known _ _ _ Hkk). destruct Hs as [Hok Hrt].
    destruct (row_outcome s r Hok Hrt) as [why _ Ht|id m' p _ Ht Hk _ _ _]; rewrite Ht in Hm; [congruence|].
    destruct (decide (x = id)) as [->|]; [rewrite lookup_insert_eq in Hm; by injection Hm as <-|rewrite lookup_insert_ne in Hm by done; congruence].
  - destruct (IH _ (row_ok s r Hs) Hm Hn) as (r' & Hr' & Hk). exists r'. split; [by right|done].
Qed.

End Rows.

(** ** A run *)
Section Run.
Context (env : ScEnv).

Lemma statement_out {A} map (m : ScStore -> result DbError A * ScStore) s r s' : statement env map m s = (r, s') ->
  (exists a, r = Ok a /\ m (called s) = (Ok a, s')) \/
  (exists e, r = Err e) /\ ss_tables s' = ss_tables s /\ ss_sources s' = ss_sources s.
Proof using.
  unfold statement. assert (forall s0, ss_tables (aborting s0) = ss_tables s0 /\ ss_sources (aborting s0) = ss_sources s0) as Hab.
  { intros s0. unfold aborting. by destruct (ss_tx s0). }
  destruct (ss_tx (called s)); [..|intros [= <- <-]; right; by split; [eexists|]];
    (destruct (se_fails env (ss_calls s)); [intros [= <- <-]; right; split; [by eexists|apply (Hab (called s))]|]);
    (destruct (m (called s)) as [[a|e] s1] eqn:E; intros [= <- <-]; [left; by exists a|right; split; [by eexists|]]);
    match goal with |- ss_tables (aborting ?x) = _ /\ _ => apply (Hab x) end.
Qed.

Lemma bind_cases {S E A B} (m : Eff S E A) (f : A -> Eff S E B) s r s' : (m ≫= f) s = (r, s') ->
  (exists e, r = Err e /\ m s = (Err e, s')) \/ exists a s1, m s = (Ok a, s1) /\ f a s1 = (r, s').
Proof using. unfold mbind, eff_bind. destruct (m s) as [[a|e] s1]; [eauto|]. intros [= <- <-]. left. eauto. Qed.

(** A call that may note things but leaves the tables and the sources. *)
Definition leaves {A} (m : Eff ScStore Error A) : Prop := forall s, ss_tables (snd (m s)) = ss_tables s /\ ss_sources (snd (m s)) = ss_sources s.

Lemma leaves_statement {A} map (m : ScStore -> result DbError A * ScStore) :
  (forall s, ss_tables (snd (m s)) = ss_tables s /\ ss_sources (snd (m s)) = ss_sources s) -> leaves (statement env map m).
Proof using.
  intros Hm s. destruct (statement env map m s) as [r s'] eqn:E. apply statement_out in E as [(a & _ & E)|(_ & E)]; [|done].
  specialize (Hm (called s)). by rewrite E in Hm.
Qed.
Lemma leaves_bind {A B} (m : Eff ScStore Error A) (f : A -> Eff ScStore Error B) : leaves m -> (forall a, leaves (f a)) -> leaves (m ≫= f).
Proof using.
  intros Hm Hf s. destruct ((m ≫= f) s) as [r s'] eqn:E. specialize (Hm s). apply bind_cases in E as [(e & _ & E)|(a & s1 & E1 & E)].
  - by rewrite E in Hm.
  - rewrite E1 in Hm. specialize (Hf a s1). rewrite E in Hf. cbn in *. by destruct Hf as [-> ->].
Qed.
Lemma leaves_attempt {A} (m : Eff ScStore Error A) : leaves m -> leaves (attempt m).
Proof using. intros Hm s. specialize (Hm s). unfold attempt. by destruct (m s). Qed.
Lemma leaves_uuid {A} id (k : string -> Eff ScStore Error A) : (forall c, leaves (k c)) -> leaves (with_uuid id k).
Proof using. intros Hk. unfold with_uuid. by destruct (Uuid.canon id). Qed.

Lemma leaves_recordFailure id why : leaves (recordFailure env id why).
Proof using.
  apply leaves_bind; [|done]. apply leaves_attempt, leaves_uuid. intros c. apply leaves_statement. intros s. by destruct (ss_sources s !! c).
Qed.

Lemma leaves_SyncSource tn id : leaves (ScopeSync.SyncSource env tn id).
Proof using.
  apply leaves_uuid. intros tid. apply leaves_uuid. intros c. apply leaves_bind; [by apply leaves_statement|]. by intros [a|].
Qed.

(** What a run answers and leaves: nothing of the structure but its root, or the
    feed's rows applied to it, sorted. *)
Definition applies (sc : SCtx) (c : string) (src : SyncSourceRecord) (feed : list SyncFeedRow) (dry : bool) (t t' : Tables) (rep : Report) : Prop :=
  exists s1 s2, ss_tables s1 = t /\ ss_sources s1 !! c = Some src /\ ss_tables s2 = t' /\
    scope_sync_apply env (sc_lower sc) (sc_right6 sc) (sc_default_type sc) c (sorted feed) dry s1 = (Ok rep, s2).

Lemma runSync_leaves sc tn p src rows dry c s r s' :
  Uuid.canon tn = Some (so_TenantID src) -> Uuid.canon (so_ID src) = Some c -> ss_sources s !! c = Some src ->
  runSync env sc tn p src rows dry s = (r, s') ->
  (exists e, r = Err e /\ ss_tables s' = ss_tables s) \/
  exists k root t1, scope_ensure_root (se_id env k) (so_TenantID src) (so_Axis src) (ss_tables s) = Ok (root, t1) /\
    ((exists e, r = Err e /\ ss_tables s' = t1) \/
     exists feed rep, feed <> [] /\ (rows <> [] -> feed = rows) /\ r = Ok rep /\ applies sc c src feed dry t1 (ss_tables s') rep).
Proof using.
  intros Htn Hid Hsrc. unfold runSync. destruct (negb _); [intros [= <- <-]; left; by eexists|].
  intros [(e & -> & E)|(root & s1 & E1 & E)]%bind_cases.
  - left. exists e. split; [done|]. unfold ScopeStore.EnsureAxisRoot, with_uuid in E. rewrite Htn in E.
    by apply statement_out in E as [(a & ? & _)|(_ & ? & _)].
  - right. unfold ScopeStore.EnsureAxisRoot, with_uuid in E1. rewrite Htn in E1. apply statement_out in E1 as [(a & [= <-] & E1)|((e & ?) & _)]; [|done].
    unfold makes, writes in E1. destruct (scope_ensure_root _ _ _ _) as [[a t1]|] eqn:Er; [|done]. injection E1 as <- <-.
    exists (ss_made (called s)), a, t1. split; [exact Er|].
    match type of E with _ ?s1 = _ => assert (ss_tables s1 = t1 /\ ss_sources s1 !! c = Some src) as [Ht1 Hs1] by done; revert E Ht1 Hs1; generalize s1 end.
    clear Er. intros s1 E Ht1 Hs1. rewrite <- Ht1. apply bind_cases in E.
    match type of E with (exists e, _ /\ ?m _ = _) \/ _ => assert (leaves m) as Hl end.
    { destruct rows; [|done]. destruct (sc_fetcher sc) as [fetch|]; [|done]. destruct (fetch src) as [[|]|]; [|done|];
        repeat (apply leaves_bind; [first [done|apply leaves_recordFailure]|]; intros ?); done. }
    specialize (Hl s1). destruct E as [(e & -> & E)|(feed & s2 & E2 & E)]; [left; exists e; by rewrite E in Hl; destruct Hl as [<- _]|].
    rewrite E2 in Hl. destruct Hl as [Hl1 Hl2]. cbn in Hl1, Hl2. destruct (_ <? _)%nat; [injection E as <- <-; left; by exists (With ErrInvalidArgument "rows" "max 50000 per run")|].
    apply bind_cases in E as [(e & -> & E)|(rep & s3 & E3 & E)]; unfold ScopeSyncApply, with_uuid in *; rewrite Hid in *.
    + left. exists e. split; [done|]. apply statement_out in E as [(b & ? & _)|(_ & -> & _)]; done.
    + right. apply statement_out in E3 as [(b & [= <-] & E3)|((e & ?) & _)]; [|done]. exists feed, rep.
      split.
      { destruct rows; [|by injection E2 as <- _]. destruct (sc_fetcher sc) as [fetch|]; [|done]. destruct (fetch src) as [[|]|].
        - by apply bind_ok in E2 as (? & ? & _ & ?).
        - by injection E2 as <- _.
        - apply bind_ok in E2 as (? & ? & _ & E2). by apply bind_ok in E2 as (? & ? & _ & ?). }
      split; [intros Hr; destruct rows; [done|]; by injection E2 as <- _|].
      assert (r = Ok rep /\ ss_tables s' = ss_tables s3) as [-> Hs'] by (destruct dry; by injection E as <- <-). split; [done|].
      exists (called s2), s3. split; [exact Hl1|]. split; [|by split]. cbn. by rewrite Hl2.
Qed.

(** ** What is asked for is the caller's own *)
Record asked (sc : SCtx) (id : string) (s : ScStore) (p : Principal) (c : string) (src : SyncSourceRecord) : Prop := {
  ak_may : AdminGuard.Require (sc_guard sc) (sc_caller sc) "anubis:sync:admin" = Ok p;
  ak_id : Uuid.canon id = Some c;
  ak_source : ss_sources s !! c = Some src;
  ak_own : Uuid.canon (TenantID p) = Some (so_TenantID src)
}.

Lemma RunSync_leaves sc id rows dry s r s' : sources_ok (ss_sources s) -> RunSync env sc id rows dry s = (r, s') ->
  (exists e, r = Err e /\ ss_tables s' = ss_tables s) \/
  exists p c src k root t1, asked sc id s p c src /\
    scope_ensure_root (se_id env k) (so_TenantID src) (so_Axis src) (ss_tables s) = Ok (root, t1) /\
    ((exists e, r = Err e /\ ss_tables s' = t1) \/
     exists feed rep, feed <> [] /\ (rows <> [] -> feed = rows) /\ r = Ok rep /\ applies sc c src feed dry t1 (ss_tables s') rep).
Proof using.
  intros Hs. unfold RunSync. intros [(e & -> & E)|(p & s1 & [= Hp <-] & E)]%bind_cases; [left; exists e; by injection E as _ <-|].
  pose proof (leaves_SyncSource (TenantID p) id s) as [Hl1 Hl2]. unfold or_not_found in E.
  apply bind_cases in E as [(e & -> & E)|(src & s2 & E2 & E)].
  - left. exists e. split; [done|]. unfold map_err in E. destruct (ScopeSync.SyncSource _ _ _ s) as [[a|e'] s3]; [done|]. by injection E as _ <-.
  - apply map_err_ok in E2. rewrite E2 in Hl1, Hl2. cbn in Hl1, Hl2.
    unfold ScopeSync.SyncSource, with_uuid in E2. destruct (Uuid.canon (TenantID p)) as [tid|] eqn:Ht; [|done]. destruct (Uuid.canon id) as [c|] eqn:Hc; [|done].
    apply bind_ok in E2 as (o & s3 & E3 & E2). apply statement_out in E3 as [(b & [= <-] & E3)|((e & ?) & _)]; [|done]. injection E3 as <- <-.
    cbn in E2. destruct (ss_sources s !! c) as [src'|] eqn:Esrc; [|done]. destruct (bool_decide _) eqn:Eo; [|done]. injection E2 as <- <-. unbool.
    destruct (Hs _ _ Esrc) as [Hid Hu].
    destruct (runSync_leaves sc (TenantID p) (Some p) src' rows dry c (called s) r s') as [H|(k & root & t1 & Hr & H)]; [by rewrite Ht, Eo|by rewrite Hid|done|done|by left|].
    right. exists p, c, src', k, root, t1. split; [split; [done..|by rewrite Ht, Eo]|]. by split.
Qed.

(** A run applied, over tables its structure's root is in. *)
Lemma applies_rows sc c src feed dry t t' rep root : tree_ok t -> applies sc c src feed dry t t' rep ->
  (exists n, t_nodes t !! root = Some n /\ is_root_of (so_TenantID src) (so_Axis src) n = true) ->
  exists s0, sy_tables s0 = t /\ sy_errs s0 = [] /\
    let y := sync_rows (sc_lower sc) (sc_right6 sc) (se_id env) (so_TenantID src) (so_Axis src) (sc_default_type sc (so_Config src)) (Some root) dry (sorted feed) s0 in
    rp_Errors rep = sy_errs y /\ t' = if dry then sy_tables y else archive_gone (so_TenantID src) (so_Axis src) (sorted feed) (sy_tables y).
Proof using.
  intros Hok (s1 & s2 & <- & Hs & <- & H) (n & Hn & Hr). unfold scope_sync_apply in H. rewrite Hs in H.
  assert (fst <$> find_row (fun _ => is_root_of (so_TenantID src) (so_Axis src)) (t_nodes (ss_tables s1)) = Some root) as Hroot.
  { destruct (find_row _ _) as [[i m]|] eqn:E; [|by rewrite (find_row_none _ _ E root n Hn) in Hr]. apply find_row_some in E as [Hi Hm]. cbn. f_equal.
    apply (to_apart _ Hok i root m n Hi Hn). right; left. unfold is_root_of in *. rewrite !andb_true_iff in *.
    destruct Hm as [[H1 H2] H3], Hr as [[H4 H5] H6]. unbool. unfold same_axis. rewrite H1, H2, H4, H5, !bool_decide_true by done. done. }
  rewrite Hroot in H. injection H as <- <-. exists (initial (made s1)). by destruct dry.
Qed.

(** ** What goes *)
Lemma gone_iff tn ax rows n : gone tn ax rows n = true <->
  nd_Status n = "active"%string /\ inside tn ax n /\ exists ref, nd_Ref n = Some ref /\ ref ∉ map Ref rows.
Proof using.
  unfold gone, inside. rewrite !andb_true_iff, !bool_decide_eq_true. destruct (nd_Ref n) as [ref|]; [|naive_solver].
  assert (existsb (fun r => bool_decide (Ref r = ref)) rows = true <-> ref ∈ map Ref rows) as Hx.
  { rewrite existsb_exists. setoid_rewrite bool_decide_eq_true. setoid_rewrite <- list_elem_of_In. split.
    - intros (r & Hr & <-). by apply (list_elem_of_fmap_2 Ref).
    - intros (r & -> & Hr)%list_elem_of_fmap. by exists r. }
  rewrite negb_true_iff, <- not_true_iff_false, Hx. naive_solver.
Qed.

Lemma archived_at tn ax rows t x :
  t_nodes (archive_gone tn ax rows t) !! x = (fun n => if gone tn ax rows n then retitled n (nd_Name n) "archived" else n) <$> t_nodes t !! x.
Proof using. apply lookup_fmap. Qed.

(** An item a row names stays. *)
Lemma archived_known tn ax rows t x n r : r ∈ rows -> known tn ax (Ref r) n -> t_nodes t !! x = Some n ->
  t_nodes (archive_gone tn ax rows t) !! x = Some n.
Proof using.
  intros Hr [_ Hk] Hx. rewrite archived_at, Hx. cbn. destruct (gone tn ax rows n) eqn:E; [|done].
  apply gone_iff in E as (_ & _ & ref & Href & Hno). destruct Hno. rewrite Hk in Href. injection Href as <-. by apply (list_elem_of_fmap_2 Ref).
Qed.

Lemma sorted_rows feed : sorted feed ≡ₚ feed.
Proof using. destruct (FeedSortProps.sort_permutation feed) as (out & H & Hp). unfold sorted. by rewrite H. Qed.
Lemma sorted_refs feed ref : ref ∈ map Ref (sorted feed) <-> ref ∈ map Ref feed.
Proof using. by rewrite (Permutation_map Ref (sorted_rows feed)). Qed.

(** Nothing but a root, where there was none. *)
Definition rooted_at (tn ax : string) (t t' : Tables) : Prop :=
  t_nodes t' = t_nodes t \/
  exists x n, t_nodes t !! x = None /\ is_root_of tn ax n = true /\ nd_Ref n = None /\ t_nodes t' = <[x := n]> (t_nodes t).

Lemma ensure_rooted id tn ax t r t' : tree_ok t -> scope_ensure_root id tn ax t = Ok (r, t') ->
  tree_ok t' /\ rooted_at tn ax t t' /\ exists n, t_nodes t' !! r = Some n /\ is_root_of tn ax n = true.
Proof using.
  intros Hok H. destruct (ensure_root_keeps _ _ _ _ _ _ Hok H) as (Hok' & _ & n & Hn & Hr & Hw). split; [done|].
  split; [|by exists n]. destruct Hw as [->|(Hf & Href & Hw)]; [by left|right; by exists r, n].
Qed.

(** What a real run does to the items, each of them. *)
Definition written (tn ax : string) (feed : list SyncFeedRow) (t t' : Tables) : Prop :=
  (forall x n, t_nodes t !! x = Some n -> t_nodes t' !! x = Some n \/
     exists ref n', inside tn ax n /\ nd_Ref n = Some ref /\ t_nodes t' !! x = Some n' /\
       (ref ∈ map Ref feed \/ ref ∉ map Ref feed /\ nd_Status n = "active"%string /\ n' = retitled n (nd_Name n) "archived")) /\
  (forall x n', t_nodes t !! x = None -> t_nodes t' !! x = Some n' ->
     inside tn ax n' /\ (nd_Root n' = true \/ exists ref, nd_Ref n' = Some ref /\ ref ∈ map Ref feed)).

Hypothesis Hids : forall k, is_uuid (se_id env k).

Lemma rows_written lower right6 tn ax ty root rows s :
  tree_ok (sy_tables s) -> is_Some (t_nodes (sy_tables s) !! root) ->
  written tn ax rows (sy_tables s) (archive_gone tn ax rows (sy_tables (sync_rows lower right6 (se_id env) tn ax ty (Some root) false rows s))).
Proof using Hids.
  intros Hok Hrt. split.
  - intros x n Hx. destruct (decide (Exists (fun r => known tn ax (Ref r) n) rows)) as [(r & Hr & Hk)%Exists_exists|Hno].
    + destruct (rows_keep lower right6 (se_id env) tn ax ty root Hids rows x s n (conj Hok Hrt) Hx) as (n' & Hn' & Hkk).
      right. exists (Ref r), n'. destruct Hk as [Hin Hk]. split; [done|]. split; [done|].
      split; [eapply archived_known; [exact Hr| |exact Hn']; by eapply stands_known|]. left. by apply (list_elem_of_fmap_2 Ref).
    + pose proof (rows_confined lower right6 (se_id env) tn ax ty root Hids rows x n s (conj Hok Hrt) Hx) as Hn.
      rewrite archived_at, Hn; [|intros r Hr Hk; apply Hno, Exists_exists; by exists r]. cbn. destruct (gone tn ax rows n) eqn:E; [|by left].
      apply gone_iff in E as (Ha & Hin & ref & Href & Hout). right. exists ref, (retitled n (nd_Name n) "archived"). split; [done|]. split; [done|].
      split; [done|]. by right.
  - intros x n' Hx Hn'. rewrite archived_at in Hn'. apply fmap_Some in Hn' as (n & Hn & ->).
    destruct (rows_fresh lower right6 (se_id env) tn ax ty root Hids rows x n s (conj Hok Hrt) Hx Hn) as (r & Hr & Hin & Hk).
    assert (gone tn ax rows n = false) as ->.
    { destruct (gone tn ax rows n) eqn:E; [|done]. apply gone_iff in E as (_ & _ & ref & Href & Hout). destruct Hout.
      rewrite Hk in Href. injection Href as <-. by apply (list_elem_of_fmap_2 Ref). }
    split; [done|]. right. exists (Ref r). split; [done|]. by apply (list_elem_of_fmap_2 Ref).
Qed.

Lemma filed_archived tn ax rows root t0 t r : r ∈ rows -> filed tn ax root t0 t r -> filed tn ax root t0 (archive_gone tn ax rows t) r.
Proof using.
  intros Hr (id & n & p & Hn & Hk & Hp & Hb & Hw). exists id, n, p. split; [by eapply archived_known|]. split; [done|]. split; [done|].
  split; [|done]. unfold belongs in *. destruct (v_pref r) as [pref|]; [|done]. destruct Hb as (m & Hm & Hkm). rewrite archived_at, Hm. cbn.
  eexists. split; [done|]. by destruct (gone tn ax rows m).
Qed.

Lemma rows_filed lower right6 tn ax ty root rows s t0 :
  tree_ok (sy_tables s) -> is_Some (t_nodes (sy_tables s) !! root) -> NoDup (map Ref rows) ->
  (forall r, r ∈ rows -> unread tn ax t0 s r) ->
  let y := sync_rows lower right6 (se_id env) tn ax ty (Some root) false rows s in
  sy_errs y = [] -> forall r, r ∈ rows -> filed tn ax root t0 (archive_gone tn ax rows (sy_tables y)) r.
Proof using Hids.
  intros Hok Hrt Hnd Hu y He r Hr. apply filed_archived; [done|]. unfold y.
  apply (rows_file lower right6 (se_id env) tn ax ty root Hids t0 rows [] s); try done. intros r' Hr'. by apply not_elem_of_nil in Hr'.
Qed.

Lemma written_rooted tn ax feed t t1 t' : rooted_at tn ax t t1 -> written tn ax feed t1 t' -> written tn ax feed t t'.
Proof using.
  intros [Heq|(x0 & n0 & Hx0 & Hr0 & Href & Heq)] [H1 H2]; (split; [intros x n Hx|intros x n' Hx Hn']).
  - apply H1. by rewrite Heq.
  - apply (H2 x); [by rewrite Heq|done].
  - apply H1. rewrite Heq, lookup_insert_ne; [done|]. intros ->. congruence.
  - destruct (decide (x = x0)) as [->|Hne]; [|apply (H2 x); [rewrite Heq, lookup_insert_ne by done; done|done]].
    destruct (H1 x0 n0) as [Hsame|(ref & m & _ & Href' & _)]; [by rewrite Heq, lookup_insert_eq| |congruence].
    rewrite Hsame in Hn'. injection Hn' as <-. unfold is_root_of in Hr0. rewrite !andb_true_iff in Hr0. destruct Hr0 as [[? ?] ?]. unbool. by split; [|left].
Qed.

End Run.

(** C5: a feed's run writes what it may and nothing else, whoever asks for it and
    however it ends.  Every item it changes is of the tenant the caller acts for
    and of the source's own structure, and carries a reference a feed gave it:
    one that the rows name, or one that they no longer do, which is archived and
    otherwise left as it was.  An item made by hand, another tenant's and another
    structure's stay as they are; what is new is the structure's root or the
    item of a row.  No run is of an empty feed; and a run that fails, or is a dry
    one, leaves at most a root. *)
Theorem sync_confined env sc id rows dry s r s' :
  reached s -> (forall k, is_uuid (se_id env k)) -> RunSync env sc id rows dry s = (r, s') ->
  t_nodes (ss_tables s') = t_nodes (ss_tables s) \/
  exists p c src, asked sc id s p c src /\
    if dry then rooted_at (so_TenantID src) (so_Axis src) (ss_tables s) (ss_tables s')
    else match r with
         | Err _ => rooted_at (so_TenantID src) (so_Axis src) (ss_tables s) (ss_tables s')
         | Ok _ => exists feed, feed <> [] /\ (rows <> [] -> feed = rows) /\
                     written (so_TenantID src) (so_Axis src) feed (ss_tables s) (ss_tables s')
         end.
Proof.
  intros [(Hok & _ & _) Hs]%reached_whole Hids H.
  apply RunSync_leaves in H as [(e & _ & ->)|(p & c & src & k & root & t1 & Hask & Hr & H)]; [by left| |done].
  right. exists p, c, src. split; [done|]. destruct (ensure_rooted _ _ _ _ _ _ Hok Hr) as (Hok1 & Hroot & n & Hn & Hir).
  destruct H as [(e & -> & ->)|(feed & rep & Hne & Hf & -> & Ha)]; [by destruct dry|].
  destruct (applies_rows _ _ _ _ _ _ _ _ _ root Hok1 Ha) as (s0 & Ht & _ & _ & Heq); [by exists n|].
  destruct dry.
  - rewrite Heq, dry_rows, Ht. done.
  - exists feed. split; [done|]. split; [done|]. apply (written_rooted _ _ _ _ t1); [done|]. rewrite Heq.
    pose proof (rows_written env Hids (sc_lower sc) (sc_right6 sc) (so_TenantID src) (so_Axis src) (sc_default_type sc (so_Config src)) root (sorted feed) s0) as Hw.
    rewrite Ht in Hw. destruct Hw as [H1 H2]; [done|by exists n|]. setoid_rewrite sorted_refs in H1. setoid_rewrite sorted_refs in H2. by split.
Qed.

(** C6: after a run without errors the structure is the feed.  Every row's item is
    there, in the tenant's structure, under the item its parent reference names
    or under the root when it names none, and it is active under the row's name,
    unless this run moved it: a move leaves the name and the status an item had.
    And no active item of the structure has a reference the feed does not list. *)
Theorem sync_mirrors_feed env sc id rows s rep s' :
  reached s -> (forall k, is_uuid (se_id env k)) -> RunSync env sc id rows false s = (Ok rep, s') ->
  rp_Errors rep = [] -> rows <> [] -> NoDup (map Ref rows) ->
  exists p c src rt root, asked sc id s p c src /\
    t_nodes (ss_tables s') !! rt = Some root /\ is_root_of (so_TenantID src) (so_Axis src) root = true /\
    (forall row, row ∈ rows -> filed (so_TenantID src) (so_Axis src) rt (ss_tables s) (ss_tables s') row) /\
    (forall x n ref, t_nodes (ss_tables s') !! x = Some n -> inside (so_TenantID src) (so_Axis src) n -> nd_Status n = "active"%string ->
       nd_Ref n = Some ref -> ref ∈ map Ref rows).
Proof.
  intros [(Hok & _ & _) Hs]%reached_whole Hids H He Hrows Hnd.
  apply RunSync_leaves in H as [(e & ? & _)|(p & c & src & k & root & t1 & Hask & Hr & H)]; [done| |done].
  destruct H as [(e & ? & _)|(feed & rep' & _ & Hf & [= <-] & Ha)]; [done|]. rewrite (Hf Hrows) in Ha. clear Hf feed.
  destruct (ensure_rooted _ _ _ _ _ _ Hok Hr) as (Hok1 & Hroot & n & Hn & Hir). exists p, c, src, root.
  destruct (applies_rows _ _ _ _ _ _ _ _ _ root Hok1 Ha) as (s0 & <- & _ & Her & Heq); [by exists n|]. rewrite He in Her.
  set (tn := so_TenantID src) in *. set (ax := so_Axis src) in *.
  destruct (rows_keep (sc_lower sc) (sc_right6 sc) (se_id env) tn ax (sc_default_type sc (so_Config src)) root Hids (sorted rows) root s0 n)
    as (n' & Hn' & Hst); [by split|done|].
  pose proof (sorted_rows rows) as Hperm. rewrite Heq. eexists. split; [done|]. split; [rewrite archived_at, Hn'; done|].
  split; [|split].
  - destruct Hst as [H1 H2 _ H4]. unfold is_root_of in *. destruct (gone _ _ _ n'); cbn; by rewrite H1, H2, H4.
  - intros row Hrow. apply (rows_filed env Hids); [done|by exists n|by rewrite (Permutation_map Ref Hperm)| |done|by rewrite Hperm].
    intros r _ x m Hx [_ Hk]. destruct Hroot as [Hsame|(x0 & n0 & _ & _ & Href & Hins)]; [by rewrite <- Hsame|]. rewrite Hins in Hx.
    destruct (decide (x = x0)) as [->|]; [rewrite lookup_insert_eq in Hx; congruence|by rewrite lookup_insert_ne in Hx].
  - intros x m ref Hx Hin Hst' Href. apply sorted_refs. destruct (decide (ref ∈ map Ref (sorted rows))) as [|Hno]; [done|]. exfalso.
    rewrite archived_at in Hx. apply fmap_Some in Hx as (m0 & Hm0 & ->). destruct (gone tn ax (sorted rows) m0) eqn:E; [done|].
    apply not_true_iff_false in E. apply E, gone_iff. split; [done|]. split; [done|]. by exists ref.
Qed.

End SyncProps.
