(* ===== verification/UpsertProps.v ===== *)
(** A bulk upsert is one transaction, and one refused statement is the end of
    it. *)

From Stdlib Require Import ZArith Lia Bool Ascii String.
From stdpp Require Import base gmap strings list sorting.
From S2P Require Import Prelude.
From S2P Require Import Triples.
From S2P Require Import GoStrings.
From S2P Require Import GoConv.
From S2P Require Import Shared.
From S2P Require Import AuthStore.
From S2P Require Import AdminGuard.
From S2P Require Import ScopeTree.
From S2P Require Import TreeProps.
From S2P Require Import SyncFeed.
From S2P Require Import ScopeStore.
From S2P Require Import ScopeSync.
From S2P Require Import ScopeAdmin.
From S2P Require Import ScopeProps.
From S2P Require Import SyncProps.

Module UpsertProps.
Import Apperr Authctx Pg ScopeTree Whole FeedSort ScopeStore ScopeSync ScopeAdmin ScopeProps SyncProps Triples.

(** What a row may be refused for by the code itself. *)
Definition missing_field : string := "missing ref or name".
Definition parent_unknown : string := "parent ref not found (parents must come first)".
Definition fine (t : Tally) : Prop := forall ref why, (ref, why) ∈ ta_errs t -> why = missing_field \/ why = parent_unknown.

Lemma fine_err t ref why : fine t -> why = missing_field \/ why = parent_unknown -> fine (t_err t ref why).
Proof. intros Ht Hw r w [H|H%list_elem_of_singleton]%elem_of_app; [by eapply Ht|by injection H as -> ->]. Qed.

Section Upsert.
Context (env : ScEnv) (sc : SCtx).

Definition Stopped (s : ScStore) : Prop := ss_tx s = Aborted.

(** Once refused, always refused. *)
Lemma stopped_statement {A} map (m : ScStore -> result DbError A * ScStore) : triple Stopped (statement env map m) (fun _ => True).
Proof using. intros s Hs. unfold statement. change (ss_tx (called s)) with (ss_tx s). by rewrite Hs. Qed.
Lemma stopped_uuid {A} id (k : string -> Eff ScStore Error A) : (forall c, triple Stopped (k c) (fun _ => True)) -> triple Stopped (with_uuid id k) (fun _ => True).
Proof using. intros Hk. unfold with_uuid. destruct (Uuid.canon id); [apply Hk|apply triple_raise]. Qed.

Ltac stopped := walk_with ltac:(idtac; first [apply stopped_statement | apply stopped_uuid; intros ?
  | progress unfold ScopeNodeByRef, AddScopeNode, ScopeStore.MoveScopeNode, ScopeStore.RenameScopeNode, ScopeStore.ArchiveScopeNode, ScopeStore.ListScopeNodes, found, touched, place_row, or_note]).

Lemma stopped_row p axis ty root t row : triple Stopped (upsert_row env sc p axis ty root t row) (fun _ => True).
Proof using. unfold upsert_row. stopped. Qed.
Lemma stopped_each {A B} (fn : A -> B -> Eff ScStore Error A) l : (forall a b, triple Stopped (fn a b) (fun _ => True)) ->
  forall acc, triple Stopped (each fn acc l) (fun _ => True).
Proof using. intros Hf. induction l as [|x l IH]; intros acc; [by apply triple_ret|]. cbn. eapply triple_bind; [apply Hf|]. intros a _. apply IH. Qed.
Lemma stopped_pass p fuel tn : forall f t, triple Stopped (eachPage env fuel tn f (archive_unseen env p) t) (fun _ => True).
Proof using.
  induction fuel as [|fuel IH]; intros f t; cbn; [apply triple_raise|]. stopped.
  - apply stopped_each. intros ? ?. unfold archive_unseen. stopped.
  - apply IH.
Qed.

Lemma aborting_stops s : ss_tx s = InTx -> Stopped (aborting s).
Proof using. unfold Stopped, aborting. by intros ->. Qed.

(** A statement inside a transaction: done, or the transaction is. *)
Lemma statement_in_tx {A} map (m : ScStore -> result DbError A * ScStore) s :
  ss_tx s = InTx -> (forall s a s', m s = (Ok a, s') -> ss_tx s' = ss_tx s) ->
  Stopped (snd (statement env map m s)) \/
  exists a s', statement env map m s = (Ok a, s') /\ m (called s) = (Ok a, s') /\ ss_tx s' = InTx.
Proof using.
  intros Hs Hm. unfold statement. change (ss_tx (called s)) with (ss_tx s). rewrite Hs.
  destruct (se_fails env (ss_calls s)); [left; by apply (aborting_stops (called s))|].
  destruct (m (called s)) as [[a|e] s'] eqn:E; [right; exists a, s'; split; [done|]; split; [done|]; by rewrite (Hm _ _ _ E)|].
  left. by apply aborting_stops.
Qed.

(** The three writes of a row. *)
Definition done_or_stopped {A} (m : Eff ScStore Error A) (s : ScStore) : Prop :=
  Stopped (snd (m s)) \/ exists a s', m s = (Ok a, s') /\ ss_tx s' = InTx.

Lemma writes_tx {A} (f : Tables -> Sql (A * Tables)) s a s' : writes f s = (Ok a, s') -> ss_tx s' = ss_tx s.
Proof using. unfold writes. destruct (f _) as [[]|]; [|done]. by intros [= _ <-]. Qed.
Lemma makes_tx {A} (f : string -> Tables -> Sql (A * Tables)) s a s' : makes env f s = (Ok a, s') -> ss_tx s' = ss_tx s.
Proof using. unfold makes. intros H. by apply writes_tx in H. Qed.

Lemma add_in_tx tn tid axis ty parent slug name ref s :
  Uuid.canon tn = Some tid -> Uuid.canon parent = Some parent -> ss_tx s = InTx ->
  done_or_stopped (AddScopeNode env tn axis ty parent slug name ref) s.
Proof using.
  intros Htn Hp Hs. unfold done_or_stopped, AddScopeNode, with_uuid. rewrite Htn, Hp.
  destruct (statement_in_tx MapErrSaying (makes env (fun id => scope_add_node id tid axis ty parent slug name (nullif_empty ref))) s Hs) as [H|(a & s' & H & _ & Ht)];
    [intros ???; apply makes_tx|by left|right; by exists a, s'].
Qed.

Lemma move_in_tx id parent s : Uuid.canon id = Some id -> Uuid.canon parent = Some parent -> ss_tx s = InTx ->
  done_or_stopped (ScopeStore.MoveScopeNode env id parent) s.
Proof using.
  intros Hid Hp Hs. unfold done_or_stopped, ScopeStore.MoveScopeNode, with_uuid. rewrite Hid, Hp.
  match goal with |- context [statement _ _ ?m s] => destruct (statement_in_tx MapErrSaying m s Hs) as [H|(a & s' & H & _ & Ht)] end;
    [intros ???; apply writes_tx|by left|right; by exists a, s'].
Qed.

Lemma rename_in_tx tn tid id n name s : Uuid.canon tn = Some tid -> Uuid.canon id = Some id -> t_nodes (ss_tables s) !! id = Some n -> own tid n = true ->
  ss_tx s = InTx -> done_or_stopped (ScopeStore.RenameScopeNode env tn id name) s.
Proof using.
  intros Htn Hid Hn Ho Hs. unfold done_or_stopped, ScopeStore.RenameScopeNode, with_uuid. rewrite Htn, Hid.
  match goal with |- context [statement _ _ ?m] => destruct (statement_in_tx MapErr m s Hs) as [H|(a & s' & H & Hm & Ht)] end; [intros ???; apply writes_tx|..].
  - left. unfold touched, mbind, eff_bind. destruct (statement _ _ _ s) as [[a|e] s']; [|done]. by destruct (a =? 0)%nat.
  - right. unfold touched, mbind, eff_bind. rewrite H. unfold writes, retitle in Hm. cbn in Hm. rewrite Hn, Ho in Hm. injection Hm as <- <-. cbn. by eexists _, _.
Qed.

(** The lookup by reference: refused, or what the tables have. *)
Lemma by_ref_in_tx tn tid axis ref s xs : Uuid.canon tn = Some tid -> ss_tx s = InTx -> Whole_ xs s ->
  Stopped (snd (ScopeNodeByRef env tn axis ref s)) \/
  exists s', ss_tables s' = ss_tables s /\ ss_tx s' = InTx /\ Whole_ xs s' /\
    (ScopeNodeByRef env tn axis ref s = (Err ErrNotFound, s') \/
     exists n row, ScopeNodeByRef env tn axis ref s = (Ok n, s') /\ Uuid.canon (sr_ID n) = Some (sr_ID n) /\
       t_nodes (ss_tables s') !! sr_ID n = Some row /\ own tid row = true).
Proof using.
  intros Htn Hs Hw. unfold ScopeNodeByRef, with_uuid. rewrite Htn. unfold found, mbind, eff_bind.
  match goal with |- context [statement _ _ ?m] => destruct (statement_in_tx MapErr m s Hs) as [H|(o & s' & H & Hm & Ht)] end; [intros ??? [= _ <-]; done|..].
  - left. destruct (statement _ _ _ s) as [[[n|]|e] s']; done.
  - right. exists s'. rewrite H. injection Hm as Ho <-. split; [done|]. split; [done|]. split; [done|]. cbn in Ho.
    destruct (by_ref (ss_tables s) tid axis ref) as [[id row]|] eqn:E; cbn in Ho; subst o; [right|by left]. apply find_row_some in E as [Hn Hp].
    apply andb_true_iff in Hp as [Hp _]. apply andb_true_iff in Hp as [Ho _]. exists (nodeRecord (ss_tables s) false [] id row), row.
    split; [done|]. split; [apply Hw; by exists row|done].
Qed.

(** A row is never the end of the loop. *)
Definition always {A} (m : Eff ScStore Error A) : Prop := forall s, exists a, fst (m s) = Ok a.
Lemma always_bind {A B} (m : Eff ScStore Error A) (f : A -> Eff ScStore Error B) : always m -> (forall a, always (f a)) -> always (m ≫= f).
Proof using.
  intros Hm Hf s. destruct (Hm s) as [a Ha]. unfold mbind, eff_bind. destruct (m s) as [r s']. cbn in Ha. subst r. apply Hf.
Qed.
Lemma always_ret {A} (a : A) : always (mret a).
Proof using. intros s. by exists a. Qed.
Lemma always_attempt {A} (m : Eff ScStore Error A) : always (attempt m).
Proof using. intros s. unfold attempt. destruct (m s) as [r s']. by exists r. Qed.
Ltac answers := repeat first [apply always_ret | apply always_attempt | apply always_bind; [|intros ?] | progress unfold place_row, or_note
  | match goal with |- always (match ?x with _ => _ end) => destruct x end].

Lemma row_answers p axis ty root t row : always (upsert_row env sc p axis ty root t row).
Proof using. unfold upsert_row. answers. Qed.

Hypothesis Hids : forall k, is_uuid (se_id env k).

(** The loop's invariant: what was refused ended the transaction. *)
Definition going (root : string) (t : Tally) (s : ScStore) : Prop := Whole_ [root] s /\ (Stopped s \/ ss_tx s = InTx /\ fine t).

Definition settled (t : Tally) (r : result Error Tally * ScStore) : Prop :=
  Stopped (snd r) \/ ss_tx (snd r) = InTx /\ forall t', fst r = Ok t' -> fine t'.

Lemma settled_stopped {A} (m : Eff ScStore Error A) (f : A -> Eff ScStore Error Tally) t s :
  Stopped (snd (m s)) -> (forall a, triple Stopped (f a) (fun _ => True)) -> settled t ((m ≫= f) s).
Proof using.
  intros Hs Hf. left. unfold mbind, eff_bind. destruct (m s) as [[a|e] s']; [|done]. exact (triple_after _ _ _ _ (Hf a) Hs).
Qed.

(** The row's write, whichever it is. *)
Lemma write_settled {A} (m : Eff ScStore Error A) (f : result Error A -> Eff ScStore Error Tally) t k s :
  done_or_stopped m s -> fine k -> (forall r, triple Stopped (f r) (fun _ => True)) -> (forall a, f (Ok a) = mret k) ->
  settled t ((attempt m ≫= f) s).
Proof using.
  intros [Hs|(a & s' & Hm & Ht)] Hk Hf Ho.
  - apply settled_stopped; [|done]. unfold attempt. by destruct (m s).
  - unfold settled. rewrite attempt_bind, Hm. cbn. rewrite Ho. right. split; [done|]. by intros t' [= <-].
Qed.

Lemma placed_settled p tid axis ty parent t row s xs :
  Uuid.canon (TenantID p) = Some tid -> Uuid.canon parent = Some parent -> Whole_ xs s -> ss_tx s = InTx -> fine t ->
  settled t (place_row env sc p axis ty parent t row s).
Proof using.
  intros Htn Hp Hw Hs Hf. unfold place_row.
  assert (forall r k, triple Stopped (or_note t (Ref row) k r) (fun _ => True)) as Hnote by (intros r k; stopped).
  destruct (by_ref_in_tx (TenantID p) tid axis (Ref row) s xs Htn Hs Hw) as [H|(s' & _ & Hs' & Hw' & [H|(n & r & H & Hc & Hn & Ho)])].
  - apply settled_stopped; [unfold attempt; by destruct (ScopeNodeByRef _ _ _ _ _)|]. intros x. stopped.
  - rewrite attempt_bind, H. cbn [fst snd]. apply (write_settled _ _ _ (t_count t 1 0 0 0 0)); [by eapply add_in_tx|exact Hf|intros x; apply Hnote|done].
  - rewrite attempt_bind, H. cbn [fst snd]. destruct (negb _); [|destruct (_ || _)].
    + apply (write_settled _ _ _ (t_count t 0 0 1 0 0)); [by apply move_in_tx|exact Hf|intros x; apply Hnote|done].
    + apply (write_settled _ _ _ (t_count t 0 1 0 0 0)); [by eapply rename_in_tx|exact Hf|intros x; apply Hnote|done].
    + right. split; [done|]. by intros t' [= <-].
Qed.

Lemma row_settled p tid axis ty root t row s : Uuid.canon (TenantID p) = Some tid -> Whole_ [root] s -> ss_tx s = InTx -> fine t ->
  settled t (upsert_row env sc p axis ty root t row s).
Proof using.
  intros Htn Hw Hs Hf. unfold upsert_row. destruct (_ || _).
  { right. split; [done|]. intros t' [= <-]. apply fine_err; [done|by left]. }
  destruct (bool_decide (ParentRef row = _)).
  - apply (placed_settled p tid axis ty root (t_see t (Ref row)) row s [root]); [done| |done..]. apply Hw. apply Hw. by left.
  - destruct (by_ref_in_tx (TenantID p) tid axis (ParentRef row) s [root] Htn Hs Hw) as [H|(s' & _ & Hs' & Hw' & [H|(n & r & H & Hc & _)])].
    + apply settled_stopped; [by rewrite attempt_bind|]. intros x. stopped.
    + unfold mbind at 1, eff_bind at 1. rewrite attempt_bind, H. right. split; [done|]. intros t' [= <-]. apply fine_err; [done|by right].
    + unfold mbind at 1, eff_bind at 1. rewrite attempt_bind, H. by apply (placed_settled p tid axis ty (sr_ID n) (t_see t (Ref row)) row s' [root]).
Qed.

Lemma rows_going p tid axis ty root rows : Uuid.canon (TenantID p) = Some tid -> forall t s, going root t s ->
  exists t' s', each (upsert_row env sc p axis ty root) t rows s = (Ok t', s') /\ going root t' s'.
Proof using Hids.
  intros Htn. induction rows as [|row rows IH]; intros t s Hg; [by exists t, s|]. cbn.
  pose proof (row_answers p axis ty root t row s) as [t1 Ha].
  pose proof (upsert_row_keeps env Hids sc p axis ty root t row [root] ltac:(by left) s (proj1 Hg)) as Hk.
  assert (going root t1 (snd (upsert_row env sc p axis ty root t row s))) as Hg1.
  { destruct (upsert_row env sc p axis ty root t row s) as [r s1] eqn:E. cbn in Ha. subst r. destruct Hk as [Hk _]. split; [exact Hk|].
    destruct Hg as [Hw [Hst|[Hs Hf]]].
    - left. pose proof (stopped_row p axis ty root t row s Hst) as H. rewrite E in H. by destruct H.
    - pose proof (row_settled p tid axis ty root t row s Htn Hw Hs Hf) as H. rewrite E in H. destruct H as [H|[H1 H2]]; [by left|right].
      split; [exact H1|by apply H2]. }
  unfold mbind, eff_bind. destruct (upsert_row env sc p axis ty root t row s) as [r s1]. cbn in Ha. subst r. by apply IH.
Qed.

Lemma triple_any {A} (m : Eff ScStore Error A) : triple (fun _ => True) m (fun _ => True).
Proof using. intros s _. by destruct (m s). Qed.

(** The pass notes nothing. *)
Definition notes (t : Tally) (t' : Tally) : Prop := ta_errs t' = ta_errs t.
Lemma unseen_notes p t n : triple (fun _ => True) (archive_unseen env p t n) (notes t).
Proof using.
  unfold archive_unseen. destruct (_ && _); [|by apply triple_ret]. eapply triple_bind; [apply triple_attempt, triple_any|].
  intros [x|e] _; by apply triple_ret.
Qed.
Lemma pass_notes p tn fuel : forall f t, triple (fun _ => True) (eachPage env fuel tn f (archive_unseen env p) t) (notes t).
Proof using.
  induction fuel as [|fuel IH]; intros f t; cbn; [apply triple_raise|].
  apply (triple_bind _ _ _ (fun _ => True)); [apply triple_any|]. intros page _. apply (triple_bind _ _ _ (notes t)).
  - generalize t. induction page as [|n l IHl]; intros t0; [by apply triple_ret|]. cbn. eapply triple_bind; [apply unseen_notes|].
    intros t1 H1. eapply triple_weaken; [apply IHl|]. intros t2 H2. unfold notes in *. congruence.
  - intros t1 H1. destruct (_ <? _)%Z; [by apply triple_ret|]. destruct (last page); [|by apply triple_ret].
    eapply triple_weaken; [apply IH|]. intros t2 H2. unfold notes in *. congruence.
Qed.

Lemma upsert_run_fine fuel p axis ty rows s t s' : Whole_ [] s -> ss_tx s = InTx -> upsert_run env sc fuel p axis ty rows s = (Ok t, s') ->
  ss_tx s' = InTx -> fine t.
Proof using Hids.
  intros Hw Hs. unfold upsert_run. intros (root & s1 & E1 & E)%bind_ok Hs'.
  pose proof (EnsureAxisRoot_gains env Hids (TenantID p) axis [] s Hw) as Hg. rewrite E1 in Hg. destruct Hg as [_ Hg]. specialize (Hg root eq_refl).
  assert (exists tid, Uuid.canon (TenantID p) = Some tid /\ ss_tx s1 = InTx) as (tid & Htn & Hs1).
  { unfold ScopeStore.EnsureAxisRoot, with_uuid in E1. destruct (Uuid.canon (TenantID p)) as [tid|]; [|done]. exists tid. split; [done|].
    destruct (statement_in_tx MapErr (makes env (fun id => scope_ensure_root id tid axis)) s Hs (fun s0 a0 s0' => makes_tx _ s0 a0 s0')) as [H|(a & s2 & H & _ & Ht)].
    - rewrite E1 in H. apply statement_out in E1 as [(a & _ & E1)|((e & ?) & _)]; [|done]. apply makes_tx in E1. cbn in H, E1. unfold Stopped in H. congruence.
    - rewrite E1 in H. by injection H as _ <-. }
  destruct (rows_going p tid axis ty root rows Htn no_tally s1) as (t1 & s2 & E2 & Hw2 & Hg2).
  { split; [done|]. right. split; [done|]. intros ref why H. by apply not_elem_of_nil in H. }
  unfold mbind, eff_bind in E. rewrite E2 in E. unfold eachScopeNode in E.
  pose proof (pass_notes p (TenantID p) fuel (Normalise (whole_axis axis)) t1 s2 I) as Hn. rewrite E in Hn. destruct Hn as [_ Hn]. specialize (Hn t eq_refl).
  destruct Hg2 as [Hst|[_ Hf]].
  - pose proof (stopped_pass p fuel (TenantID p) (Normalise (whole_axis axis)) t1 s2 Hst) as H. rewrite E in H. destruct H as [H _]. unfold Stopped in H. congruence.
  - intros ref why Hin. rewrite Hn in Hin. by eapply Hf.
Qed.

End Upsert.


End UpsertProps.
