(* ===== verification/ScopeTheorems.v ===== *)
(** Two promises of the structure handlers over a database that answers: a move
    is made exactly when it may be, and a scheduled feed is run and then waits
    its interval, whatever its run came to. *)

From Stdlib Require Import ZArith Lia Bool Ascii String.
From stdpp Require Import base gmap strings list sorting.
From S2P Require Import Prelude.
From S2P Require Import Triples.
From S2P Require Import GoStrings.
From S2P Require Import GoConv.
From S2P Require Import Shared.
From S2P Require Import AuthStore.
From S2P Require Import AdminGuard.
From S2P Require Import ScopeTree.
From S2P Require Import TreeProps.
From S2P Require Import SyncFeed.
From S2P Require Import ScopeStore.
From S2P Require Import ScopeSync.
From S2P Require Import ScopeAdmin.
From S2P Require Import ScopeProps.
From S2P Require Import SyncProps.

Module ScopeTheorems.
Import Apperr Authctx Pg ScopeTree Ancestry Whole FeedSort ScopeStore ScopeSync ScopeAdmin ScopeProps SyncProps Triples.

(** A statement that is not made to fail, outside a transaction. *)
Lemma statement_alone {A} env map (m : ScStore -> result DbError A * ScStore) s :
  (forall k, se_fails env k = false) -> ss_tx s = NoTx ->
  statement env map m s = match m (called s) with
                          | (Ok a, s') => (Ok a, s')
                          | (Err e, s') => (Err (map e), {| ss_tables := ss_tables s; ss_sources := ss_sources s; ss_runs := ss_runs s; ss_log := ss_log s;
                                                           ss_tx := NoTx; ss_calls := S (ss_calls s); ss_made := ss_made s' |})
                          end.
Proof.
  intros Hf Hs. destruct s as [t src runs log tx calls made]. cbn in Hs. subst tx. unfold statement. cbn. rewrite Hf.
  by destruct (m _) as [[a|e] s'].
Qed.

Lemma bind_done {S E A B} (m : Eff S E A) (f : A -> Eff S E B) s a s1 : m s = (Ok a, s1) -> (m ≫= f) s = f a s1.
Proof. unfold mbind, eff_bind. by intros ->. Qed.

(** ** Moving an item *)

(** An item of the caller's tenant, by the id it is asked for with. *)
Definition own_node (p : Principal) (s : ScStore) (id c : string) (n : NodeRow) : Prop :=
  Uuid.canon id = Some c /\ t_nodes (ss_tables s) !! c = Some n /\ Uuid.canon (TenantID p) = Some (nd_Tenant n).

Lemma ScopeNode_found env p id c n s : (forall k, se_fails env k = false) -> ss_tx s = NoTx -> own_node p s id c n ->
  exists r, ScopeStore.ScopeNode env (TenantID p) id s = (Ok r, called s).
Proof.
  intros Hf Hs (Hc & Hn & Ht). unfold ScopeStore.ScopeNode, with_uuid, found, mbind, eff_bind. rewrite Hc, Ht, statement_alone by done.
  unfold reads. cbn. rewrite Hn. unfold own. rewrite bool_decide_true by done. by eexists.
Qed.

Lemma ScopeNode_ok env p id r s s' : ScopeStore.ScopeNode env (TenantID p) id s = (Ok r, s') -> s' = called s /\ exists c n, own_node p s id c n.
Proof.
  unfold own_node, ScopeStore.ScopeNode, with_uuid. destruct (Uuid.canon id) as [c|]; [|done]. destruct (Uuid.canon (TenantID p)) as [tid|]; [|done].
  intros (o & s1 & H%statement_out & Ho)%bind_ok. destruct H as [(o' & [= <-] & [= <- <-])|((e & ?) & _)]; [|done]. cbn in Ho.
  destruct (t_nodes (ss_tables s) !! c) as [n|] eqn:En; [|done]. unfold own in Ho. destruct (bool_decide _) eqn:Eo; unbool; [|done].
  injection Ho as _ <-. split; [done|]. exists c, n. by rewrite Eo.
Qed.

Lemma move_alone env s a b c q : (forall k, se_fails env k = false) -> ss_tx s = NoTx -> Uuid.canon a = Some c -> Uuid.canon b = Some q ->
  ScopeStore.MoveScopeNode env a b s =
    match scope_move_node c q (ss_tables s) with Ok t => (Ok tt, set_tables (called s) t) | Err e => (Err (MapErrSaying (Raised e)), called s) end.
Proof.
  intros Hf Hs Ha Hb. unfold ScopeStore.MoveScopeNode, with_uuid. rewrite Ha, Hb, statement_alone by done. unfold writes.
  destruct s as [t src runs log tx calls made]. cbn in *. subst tx. by destruct (scope_move_node c q t).
Qed.

Lemma moved_ok env sc a b s s' : (forall k, se_fails env k = false) -> ss_tx s = NoTx -> MoveScopeNode env sc a b s = (Ok tt, s') ->
  exists p c q n u, AdminGuard.Require (sc_guard sc) (sc_caller sc) "anubis:scope:admin" = Ok p /\
    own_node p s a c n /\ own_node p s b q u /\ scope_move_node c q (ss_tables s) = Ok (ss_tables s').
Proof.
  intros Hf Hs (p & s1 & [= Hp <-] & H)%bind_ok. apply bind_ok in H as (r1 & s1 & H1%map_err_ok & H). apply bind_ok in H as (r2 & s2 & H2%map_err_ok & H).
  apply ScopeNode_ok in H1 as (-> & c & n & Ha). apply ScopeNode_ok in H2 as (-> & q & u & Hb). pose proof Ha as (Hc & _ & _). pose proof Hb as (Hq & _ & _).
  exists p, c, q, n, u. split; [done|]. split; [done|]. split; [done|]. apply bind_ok in H as ([] & s3 & H3 & H).
  rewrite (move_alone env (called (called s)) a b c q Hf Hs Hc Hq) in H3. change (ss_tables (called (called s))) with (ss_tables s) in H3.
  destruct (scope_move_node c q (ss_tables s)) as [t'|] eqn:Em; [|done]. injection H3 as <-. by injection H as <-.
Qed.

(** C18: a move is made exactly when it may be, and changes one row.  With a
    database that answers, MoveScopeNode succeeds if and only if the caller may
    administer structures, both items are of the tenant it acts for, and the
    structure allows the move: not into the item's own subtree, no chain past the
    depth limit, under an item of the same structure whose level may take it, and
    with its slug free there.  All that changes then is the item's parent; what
    is above it and its subtree follows, since the tables stay whole. *)
Theorem move_exactly_when env sc a b s :
  reached s -> (forall k, se_fails env k = false) -> ss_tx s = NoTx ->
  ((exists s', MoveScopeNode env sc a b s = (Ok tt, s')) <->
   exists p c q n u, AdminGuard.Require (sc_guard sc) (sc_caller sc) "anubis:scope:admin" = Ok p /\
     own_node p s a c n /\ own_node p s b q u /\ may_move (ss_tables s) c n q) /\
  (forall s', MoveScopeNode env sc a b s = (Ok tt, s') -> tree_ok (ss_tables s') /\
     exists c q n, Uuid.canon a = Some c /\ Uuid.canon b = Some q /\ t_nodes (ss_tables s) !! c = Some n /\
       t_nodes (ss_tables s') = <[c := with_parent n (Some q)]> (t_nodes (ss_tables s))).
Proof.
  intros [(Hok & _ & _) _]%reached_whole Hf Hs.
  split.
  - split.
    + intros [s' (p & c & q & n & u & Hp & Ha & Hb & Hm)%(moved_ok _ _ _ _ _ _ Hf Hs)]. exists p, c, q, n, u. split; [done|]. split; [done|]. split; [done|].
      destruct Ha as (_ & Hn & _). apply (move_iff _ c n q Hok Hn). by eexists.
    + intros (p & c & q & n & u & Hp & Ha & Hb & Hmay). pose proof Ha as (Hc & Hn & _). pose proof Hb as (Hq & _ & _).
      apply (move_iff _ c n q Hok Hn) in Hmay as [t' Hm]. destruct (ScopeNode_found env p a c n s Hf Hs Ha) as [r1 H1].
      destruct (ScopeNode_found env p b q u (called s) Hf Hs Hb) as [r2 H2]. unfold MoveScopeNode, ScopeAdmin.Require, lift, or_not_found, map_err, mbind, eff_bind.
      rewrite Hp, H1, H2, (move_alone env (called (called s)) a b c q Hf Hs Hc Hq). change (ss_tables (called (called s))) with (ss_tables s). rewrite Hm.
      by eexists.
  - intros s' (p & c & q & n & u & _ & (Hc & Hn & _) & (Hq & _ & _) & Hm)%(moved_ok _ _ _ _ _ _ Hf Hs).
    destruct (move_node_keeps _ _ _ _ Hok ltac:(by exists n) Hm) as (Hok' & _ & m & Hm' & Hw). split; [done|].
    exists c, q, m. done.
Qed.

(** ** Scheduled feeds *)
Section Due.
Context (env : ScEnv) (sc : SCtx).

(** Nothing of this source is to be done by now. *)
Definition waits (c : string) (s : ScStore) : Prop := exists src, ss_sources s !! c = Some src /\ due (se_now env) src = false.

(** What a run's steps keep: the sources there are, those that wait, and the
    connection out of a transaction. *)
Definition Steady (all past : list string) (s : ScStore) : Prop :=
  ss_tx s = NoTx /\ (forall c, c ∈ all -> is_Some (ss_sources s !! c)) /\ (forall c, c ∈ past -> waits c s).

Lemma steady_statement {A} all past map (m : ScStore -> result DbError A * ScStore) :
  (forall s, let '(_, s') := m s in ss_tx s' = ss_tx s /\ forall c src, ss_sources s !! c = Some src ->
     exists src', ss_sources s' !! c = Some src' /\ so_NextRunAt src' = so_NextRunAt src /\ so_Status src' = so_Status src) ->
  triple (Steady all past) (statement env map m) (fun _ => True).
Proof using.
  intros Hm s (Ht & Ha & Hp). unfold statement. change (ss_tx (called s)) with (ss_tx s). rewrite Ht.
  assert (forall s0, ss_tx s0 = NoTx -> aborting s0 = s0) as Hab by (intros s0 H; unfold aborting; by rewrite H).
  destruct (se_fails env (ss_calls s)); [rewrite Hab by done; by split|]. specialize (Hm (called s)).
  destruct (m (called s)) as [[a|e] s']; [|rewrite Hab by done; by split]. destruct Hm as [Ht' Hm]. split; [|done]. split; [by rewrite Ht'|].
  split; [intros c Hc; destruct (Ha c Hc) as [src Hs]; destruct (Hm c src Hs) as (src' & Hs' & _); by exists src'|].
  intros c Hc. destruct (Hp c Hc) as (src & Hs & Hd). destruct (Hm c src Hs) as (src' & Hs' & Hn & Hst). exists src'. split; [done|].
  unfold due in *. by rewrite Hn, Hst.
Qed.

Lemma steady_uuid {A} all past id (k : string -> Eff ScStore Error A) :
  (forall c, triple (Steady all past) (k c) (fun _ => True)) -> triple (Steady all past) (with_uuid id k) (fun _ => True).
Proof using. intros Hk. unfold with_uuid. destruct (Uuid.canon id); [apply Hk|apply triple_raise]. Qed.

Lemma steady_root all past tn axis : triple (Steady all past) (ScopeStore.EnsureAxisRoot env tn axis) (fun _ => True).
Proof using.
  apply steady_uuid. intros tid. apply steady_statement. intros s. unfold makes, writes. destruct (scope_ensure_root _ _ _ _) as [[a t]|e]; eauto.
Qed.

Lemma steady_failure all past id why : triple (Steady all past) (recordFailure env id why) (fun _ => True).
Proof using.
  unfold recordFailure. eapply triple_bind; [|intros ? _; by apply triple_ret]. apply triple_attempt, steady_uuid. intros c. apply steady_statement.
  intros s. destruct (ss_sources s !! c); eauto.
Qed.

Lemma steady_apply all past lower right6 config id rows dry :
  triple (Steady all past) (ScopeSync.ScopeSyncApply env lower right6 config id rows dry) (fun _ => True).
Proof using.
  apply steady_uuid. intros c. apply steady_statement. intros s. unfold scope_sync_apply. destruct (ss_sources s !! c) as [src|] eqn:E; [|eauto].
  split; [done|]. intros c' src' H. cbn. destruct dry; [eauto|]. destruct (decide (c' = c)) as [->|]; [|rewrite lookup_insert_ne by done; eauto].
  rewrite lookup_insert_eq. eexists. split; [done|]. rewrite E in H. by injection H as <-.
Qed.

Lemma steady_run all past tn p src rows dry : triple (Steady all past) (runSync env sc tn p src rows dry) (fun _ => True).
Proof using.
  unfold runSync. walk_with ltac:(idtac; first [apply steady_root | apply steady_failure | apply steady_apply | match goal with |- triple _ (emitSync _ _ _ _ _ _) _ => by intros s Hs end]).
Qed.

Hypothesis Hf : forall k, se_fails env k = false.

(** The deferred call: whatever the run came to, the source waits after it. *)
Lemma one_waits all past c src s : Steady all past s -> c ∈ all -> Uuid.canon (so_ID src) = Some c ->
  exists s', runDueOne env sc src s = (Ok tt, s') /\ Steady all (c :: past) s'.
Proof using Hf.
  intros Hs Hc Hid. unfold runDueOne. rewrite attempt_bind. pose proof (triple_after _ _ _ _ (steady_run all past (so_TenantID src) None src [] false) Hs) as H1.
  set (s1 := snd (runSync _ _ _ _ _ _ _ s)) in *. clearbody s1. rewrite attempt_bind. unfold ScheduleNextSyncSource, with_uuid. rewrite Hid.
  destruct H1 as (Ht & Ha & Hp). rewrite statement_alone by done. cbn [fst snd]. eexists. split; [reflexivity|]. split; [exact Ht|]. cbn. split.
  - intros c' Hc'. destruct (decide (c' = c)) as [->|]; [rewrite lookup_alter_eq; apply fmap_is_Some; by apply Ha|rewrite lookup_alter_ne by done; by apply Ha].
  - assert (waits c (set_sources (called s1) (alter (fun old => rescheduled old (so_IntervalSeconds old)
       (if (0 <? so_IntervalSeconds old)%Z then Some (se_now env + so_IntervalSeconds old * second)%Z else None)) c (ss_sources s1)))) as Hw.
    { destruct (Ha c Hc) as [old Ho]. unfold waits. cbn. rewrite lookup_alter_eq, Ho. eexists. split; [reflexivity|]. unfold due. cbn.
      destruct (Z.ltb_spec 0 (so_IntervalSeconds old)); [|by rewrite andb_false_r]. apply andb_false_iff. right. apply Z.leb_gt. unfold second. lia. }
    intros c' [->|Hc']%elem_of_cons; [exact Hw|]. destruct (decide (c' = c)) as [->|Hne]; [exact Hw|]. destruct (Hp c' Hc') as (src' & Hs' & Hd).
    exists src'. split; [|done]. cbn. by rewrite lookup_alter_ne.
Qed.

Lemma all_wait all : forall batch n past s, Steady all past s ->
  (forall src, src ∈ batch -> exists c, c ∈ all /\ Uuid.canon (so_ID src) = Some c) ->
  exists s', each (fun ran src => _ ← runDueOne env sc src; mret (S ran)) n batch s = (Ok (n + length batch)%nat, s') /\
    forall src c, src ∈ batch -> Uuid.canon (so_ID src) = Some c -> waits c s'.
Proof using Hf.
  assert (forall batch n past s, Steady all past s -> (forall src, src ∈ batch -> exists c, c ∈ all /\ Uuid.canon (so_ID src) = Some c) ->
    exists s' past', each (fun ran src => _ ← runDueOne env sc src; mret (S ran)) n batch s = (Ok (n + length batch)%nat, s') /\ Steady all past' s' /\
      past ⊆ past' /\ forall src c, src ∈ batch -> Uuid.canon (so_ID src) = Some c -> c ∈ past') as H.
  { induction batch as [|src batch IH]; intros n past s Hs Hb.
    - exists s, past. rewrite Nat.add_0_r. split; [done|]. split; [done|]. split; [done|]. intros src c Hin. by apply not_elem_of_nil in Hin.
    - destruct (Hb src ltac:(by left)) as (c & Hc & Hid). destruct (one_waits all past c src s Hs Hc Hid) as (s1 & H1 & Hs1).
      destruct (IH (S n) (c :: past) s1 Hs1) as (s' & past' & H2 & Hs' & Hsub & Hall); [intros x Hx; apply Hb; by right|].
      exists s', past'. cbn [each length]. rewrite (bind_done _ _ s (S n) s1) by (by rewrite (bind_done _ _ s tt s1)).
      rewrite H2, Nat.add_succ_r. split; [done|]. split; [done|]. split; [set_solver|].
      intros x c' [->|Hx]%elem_of_cons Hid'; [|by eapply Hall]. apply Hsub. rewrite Hid in Hid'. injection Hid' as <-. by left. }
  intros batch n past s Hs Hb. destruct (H batch n past s Hs Hb) as (s' & past' & H1 & (_ & _ & Hw) & _ & Hall). exists s'. split; [done|].
  intros src c Hin Hid. apply Hw. by eapply Hall.
Qed.

End Due.

Definition batch (limit : Z) : Z := if (limit <=? 0)%Z || (dueSyncBatch <? limit)%Z then dueSyncBatch else limit.


End ScopeTheorems.
