(* ===== verification/ScopeSamples.v ===== *)
(** A structure, filled by a feed: samples of what the theorems on structures and
    feeds say, and of what the code does that its comments do not. *)

From Stdlib Require Import ZArith Lia Bool Ascii String.
From stdpp Require Import base gmap strings list sorting.
From S2P Require Import Prelude.
From S2P Require Import GoStrings.
From S2P Require Import GoConv.
From S2P Require Import Shared.
From S2P Require Import AuthStore.
From S2P Require Import AdminGuard.
From S2P Require Import ScopeTree.
From S2P Require Import TreeProps.
From S2P Require Import SyncFeed.
From S2P Require Import ScopeStore.
From S2P Require Import ScopeSync.
From S2P Require Import ScopeAdmin.
From S2P Require Import ScopeProps.
From S2P Require Import SyncProps.
From S2P Require Import UpsertProps.
From S2P Require Import ScopeTheorems.

Module ScopeSamples.
Import Apperr Authctx AdminGuard Operator Pg ScopeTree Whole FeedSort ScopeStore ScopeSync ScopeAdmin ScopeProps SyncProps UpsertProps ScopeTheorems.

Definition uuid (last : string) : string := ("0190a0b0-0000-7000-8000-00000000000" ++ last)%string.
Definition ids : list string := map uuid ["1"; "2"; "3"; "4"; "5"; "6"; "7"; "8"; "9"; "a"; "b"]%string.
Definition given (k : nat) : string := default (uuid "f") (ids !! k).

Lemma given_uuid k : is_uuid (given k).
Proof.
  assert (forall x, x ∈ uuid "f" :: ids -> is_uuid x) as H.
  { apply list.Forall_forall. repeat constructor; vm_compute; reflexivity. }
  apply H. unfold given. destruct (ids !! k) as [x|] eqn:E; [right; by apply list_elem_of_lookup_2 in E|by left].
Qed.

Definition env (fails : nat -> bool) : ScEnv := {|
  se_fails := fails; se_now := 1000; se_id := given; se_le a b := String.leb a b; se_ilike _ _ := false;
  se_jsonb x := Some x; se_tenant _ := true |}.
Definition db : ScEnv := env (fun _ => false).

Definition owner : AssignmentRecord :=
  {| a_ID := "A1"; a_OperatorID := "O1"; a_TenantID := ""; a_TenantSlug := ""; a_Role := RoleOwner; a_GrantedBy := ""; a_Reason := "";
     a_ValidUntil := None; a_RevokedAt := None; a_CreatedAt := 0; a_Below := [] |}.
Definition caller : Principal := {|
  IdentityID := "op"; TenantID := uuid "d"; TenantSlug := ""; SessionID := "s"; Authctx.Realm := ""; Roles := []; Scopes := ∅; AMR := [];
  AuthTime := 0; IAL := 0; Epoch := 3; Audience := []; Service := false; Platform := true; Token := "" |}.
Definition asks : SCtx := {|
  sc_guard := WithOperators {| AssignmentsForOperator _ := Some [owner]; OperatorStanding _ := Some (true, 3%Z) |} 5;
  sc_caller := Some caller; sc_ip := "ip"; sc_ToLower s := s; sc_json _ := Some {[ "url"%string := JStr "https://hr.example" ]};
  sc_fetcher := None; sc_error_text _ := ""; sc_lower s := s; sc_right6 s := s; sc_default_type _ := Some "site"%string |}.

Definition org : ScopeAxisRecord :=
  {| xr_Code := "org"; xr_DisplayName := "Organisation"; xr_DefaultEffect := ""; xr_Status := ""; xr_SortOrder := 0; xr_Resolution := ""; xr_UISchema := "" |}.
Definition level (code name : string) (parents : list string) : ScopeNodeTypeRecord :=
  {| tr_Code := code; tr_Axis := "org"; tr_DisplayName := name; tr_ParentTypes := parents |}.
Definition hr : SyncSourceRecord :=
  {| so_ID := ""; so_TenantID := ""; so_Axis := "org"; so_Kind := "http"; so_Status := ""; so_Config := "hr"; so_LastRunAt := None;
     so_IntervalSeconds := 300; so_NextRunAt := None |}.
Definition source : string := uuid "1".

Definition row (ref parent name : string) : SyncFeedRow := {| Ref := ref; ParentRef := parent; Name := name; NodeType := "" |}.
Definition monday : list SyncFeedRow := [row "b" "a" "West"; row "a" "" "Sales"].
Definition tuesday : list SyncFeedRow := [row "b" "" "Far west"; row "c" "b" "Coast"].

Definition set_up : list Request := [
  QCreateScopeAxis org (Some (level "company" "Company" [])); QCreateScopeNodeType (level "site" "Site" ["company"; "site"]);
  QCreateSyncSource hr; QRunSync source monday false ]%string.
Definition before : ScStore := Eval vm_compute in foldl (fun s r => serve db asks r s) no_store set_up.
Definition ran : result Error Report * ScStore := Eval vm_compute in RunSync db asks source tuesday false before.
Definition later : ScStore := Eval vm_compute in snd ran.

Definition shown (s : ScStore) : list (option string * string * string * option string) :=
  map (fun '(_, n) => (nd_Ref n, nd_Name n, nd_Status n, nd_Parent n)) (map_to_list (t_nodes (ss_tables s))).

Lemma reached_all rs : forall s, reached s -> Forall (askable db) rs -> reached (foldl (fun s r => serve db asks r s) s rs).
Proof.
  induction rs as [|r rs IH]; intros s Hs Hr; [done|]. apply Forall_cons in Hr as [Hr Hrs]. apply IH; [|done].
  by apply (served db asks r s given_uuid).
Qed.
Lemma before_reached : reached before.
Proof.
  assert (foldl (fun s r => serve db asks r s) no_store set_up = before) as <- by (vm_cast_no_check (eq_refl before)).
  apply reached_all; [apply at_first|by repeat constructor].
Qed.
Lemma ran_is : RunSync db asks source tuesday false before = ran.
Proof. vm_cast_no_check (eq_refl ran). Qed.
Lemma later_reached : reached later.
Proof.
  assert (serve db asks (QRunSync source tuesday false) before = later) as <- by (unfold serve, after; by rewrite ran_is).
  apply (served db asks _ _ given_uuid); [done|exact before_reached].
Qed.

Lemma structures_stay_whole_witness :
  reached later /\ length (shown later) = 4%nat /\ tree_ok (ss_tables later) /\ (forall x, is_Some (t_nodes (ss_tables later) !! x) -> is_uuid x).
Proof. split; [exact later_reached|]. split; [vm_compute; reflexivity|]. exact (structures_stay_whole later later_reached). Defined.

(** Of two items the feed owns, one is moved and one archived; a third is new. *)
Lemma sync_confined_witness :
  shown later = [(Some "b", "West", "active", Some (uuid "2")); (None, "Company", "active", None); (Some "a", "Sales", "archived", Some (uuid "2"));
                 (Some "c", "Coast", "active", Some (uuid "5"))]%string /\
  (t_nodes (ss_tables later) = t_nodes (ss_tables before) \/
   exists p c src, asked asks source before p c src /\
     exists feed, feed <> [] /\ (tuesday <> [] -> feed = tuesday) /\ written (so_TenantID src) (so_Axis src) feed (ss_tables before) (ss_tables later)).
Proof. split; [vm_compute; reflexivity|]. exact (sync_confined db asks source tuesday false before _ _ before_reached given_uuid ran_is). Defined.

(** A move leaves the item's name, West, though the row that moved it says Far
    west: another run renames it. *)
Lemma sync_mirrors_feed_witness :
  exists p c src rt root, asked asks source before p c src /\
    t_nodes (ss_tables later) !! rt = Some root /\ is_root_of (so_TenantID src) (so_Axis src) root = true /\
    (forall row, row ∈ tuesday -> filed (so_TenantID src) (so_Axis src) rt (ss_tables before) (ss_tables later) row) /\
    (forall x n ref, t_nodes (ss_tables later) !! x = Some n -> inside (so_TenantID src) (so_Axis src) n -> nd_Status n = "active"%string ->
       nd_Ref n = Some ref -> ref ∈ map Ref tuesday).
Proof.
  eapply (sync_mirrors_feed db asks source tuesday before _ later before_reached given_uuid ran_is); [reflexivity|done|].
  repeat constructor; set_solver.
Defined.

(** *** Moving *)
Definition moved : result Error unit * ScStore := Eval vm_compute in MoveScopeNode db asks (uuid "4") (uuid "5") later.
Definition back : result Error unit * ScStore := Eval vm_compute in MoveScopeNode db asks (uuid "5") (uuid "4") (snd moved).
(** Under another item; and then not back into its own subtree. *)
Lemma move_exactly_when_witness :
  fst moved = Ok tt /\ tree_ok (ss_tables (snd moved)) /\
  (exists p c q n u, AdminGuard.Require (sc_guard asks) (sc_caller asks) "anubis:scope:admin" = Ok p /\
     own_node p later (uuid "4") c n /\ own_node p later (uuid "5") q u /\ may_move (ss_tables later) c n q) /\
  match fst back with Ok _ => False | Err _ => ss_tables (snd back) = ss_tables (snd moved) end.
Proof.
  assert (MoveScopeNode db asks (uuid "4") (uuid "5") later = (Ok tt, snd moved)) as H by (vm_cast_no_check (eq_refl moved)).
  destruct (move_exactly_when db asks (uuid "4") (uuid "5") later later_reached ltac:(done) ltac:(reflexivity)) as [H1 H2].
  split; [reflexivity|]. split; [by apply (H2 _ H)|]. split; [|reflexivity]. apply H1. by exists (snd moved).
Defined.


(** *** In bulk *)
Definition people : list SyncFeedRow := [row "x" "" "Xerox"; row "y" "nowhere" "Yale"; row "" "" "Zed"]%string.
Definition upserted : result Error Tally * ScStore := Eval vm_compute in UpsertScopeNodes db asks 3 "org" "site" people false later.

(** ** What the comments do not say *)

Definition code {A} (r : result Error A) : string := match r with Ok _ => "" | Err e => Code e end.

(** A row of a level that may not sit there is no entry of the errors answered:
    it is the end of the call, a dry one too, and the row is not named. *)
Definition misplaced : list SyncFeedRow := [row "x" "" "Xerox"; {| Ref := "y"; ParentRef := ""; Name := "Yale"; NodeType := "company" |}]%string.
Example bulk_errors_abort :
  map (fun dry => code (fst (UpsertScopeNodes db asks 3 "org" "site" misplaced dry later))) [true; false] = ["internal"; "internal"]%string.
Proof. vm_compute. reflexivity. Qed.

(** A row left without its name is an error, and its item is archived with those
    the feed no longer lists. *)
Example unnamed_row_archives :
  let '(r, s) := UpsertScopeNodes db asks 3 "org" "site" [row "b" "" ""; row "c" "" "Coast"] false later in
  match r with Ok t => ta_errs t = [("b", missing_field)]%string /\ ta_archived t = 1%Z | Err _ => False end /\
  (nd_Status <$> t_nodes (ss_tables s) !! uuid "5") = Some "archived"%string.
Proof. vm_compute. done. Qed.

(** A dry run and the run: an item goes under one the run would create. *)
Definition regrouped : list SyncFeedRow := [row "g" "" "Group"; row "b" "g" "West"; row "c" "b" "Coast"].
Definition counts (r : result Error Report) : option (Z * Z * Z * Z) :=
  match r with Ok rp => Some (rp_Added rp, rp_Renamed rp, rp_Moved rp, rp_Unchanged rp) | Err _ => None end.
Example dry_run_counts_differ :
  counts (fst (RunSync db asks source regrouped true later)) = Some (1, 0, 0, 2)%Z /\
  counts (fst (RunSync db asks source regrouped false later)) = Some (1, 0, 1, 1)%Z.
Proof. vm_compute. done. Qed.

(** A dry run over a structure nobody has used yet leaves its root. *)
Definition unused : ScStore := Eval vm_compute in foldl (fun s r => serve db asks r s) no_store (take 3 set_up).
Example dry_run_writes_a_root :
  shown unused = [] /\ shown (snd (RunSync db asks source monday true unused)) = [(None, "Company", "active", None)]%string.
Proof. vm_compute. done. Qed.

(** An item may be created without a name, and then a list that stops at it goes
    on from the top. *)
Definition unnamed : ScStore := Eval vm_compute in serve db asks (QCreateScopeNode "org" "site" "" "nameless" "" "") later.
Definition one_each (name id : string) : ScopeNodeFilter :=
  {| f_Axis := "org"; f_ParentID := ""; f_Query := ""; f_IncludeArchived := false; f_AfterName := name; f_AfterID := id; f_Limit := 1 |}.
Example unnamed_pages_restart :
  match fst (ListScopeNodes db asks (one_each "" "") unnamed) with
  | Ok ([n], token) => sr_Name n = ""%string /\
      match PageToken.ParsePageToken token with
      | Ok (name, id) => fst (ListScopeNodes db asks (one_each name id) unnamed) = fst (ListScopeNodes db asks (one_each "" "") unnamed)
      | Err _ => False
      end
  | _ => False
  end.
Proof. vm_compute. done. Qed.

End ScopeSamples.
