(* ===== verification/Db.v ===== *)
(** internal/platform/database: one store's statements and transactions
    (db.go, storm.go), for any tables.  A statement is a function of the tables;
    a transaction joins the one around it, undoes what failed, and runs the
    constraint triggers that wait for its end. *)

From Stdlib Require Import ZArith Lia Bool Ascii String.
From stdpp Require Import base gmap strings list.
From S2P Require Import Prelude.
From S2P Require Import Triples.
From S2P Require Import GoStrings.
From S2P Require Import GoConv.
From S2P Require Import Shared.
From S2P Require Import AuthStore.
From S2P Require Import ScopeTree.

Module Db.
Import Apperr Pg.

Inductive TxState := NoTx | InTx | Aborted.
#[export] Instance tx_eq_dec : EqDecision TxState.
Proof. solve_decision. Defined.

(** [st_calls] counts the database's calls; a rollback does not undo it, nor
    the audit log, which is not this transaction's. *)
Record Store (T : Type) := { st_tables : T; st_log : list AuthStore.AuditEvent; st_tx : TxState; st_calls : nat }.
Arguments st_tables {T}. Arguments st_log {T}. Arguments st_tx {T}. Arguments st_calls {T}.
Arguments Build_Store {T}.

Definition with_tables {T} (s : Store T) (t : T) : Store T :=
  {| st_tables := t; st_log := st_log s; st_tx := st_tx s; st_calls := st_calls s |}.
Definition with_tx {T} (s : Store T) (x : TxState) : Store T :=
  {| st_tables := st_tables s; st_log := st_log s; st_tx := x; st_calls := st_calls s |}.
Definition called {T} (s : Store T) : Store T :=
  {| st_tables := st_tables s; st_log := st_log s; st_tx := st_tx s; st_calls := S (st_calls s) |}.
Definition logged {T} (s : Store T) (e : AuthStore.AuditEvent) : Store T :=
  {| st_tables := st_tables s; st_log := st_log s ++ [e]; st_tx := st_tx s; st_calls := st_calls s |}.

(** The database during one handler: which of its calls fail, what its clock
    reads, and the ids each call generates, in turn. *)
Record Env := { ev_fails : nat -> bool; ev_now : Time; ev_id : nat -> nat -> string }.

(** SQL over the tables: what is left of the call's ids goes along. *)
Abbreviation Sql_ T := (Eff (T * nat) PgError).

Section Statements.
Context {T : Type} (env : Env).
(** The triggers that wait: the first that raises, and the tables once they have
    run. *)
Context (settle : T -> option PgError) (settled : T -> T).

Abbreviation M := (Eff (Store T) Error).

Definition in_failed_tx : DbError := Raised (exception "25P02" "current transaction is aborted, commands ignored until end of transaction block").
Definition aborting (s : Store T) : Store T := match st_tx s with InTx => with_tx s Aborted | _ => s end.

(** One statement: alone it is its own transaction. *)
Definition statement {A} (map : DbError -> Error) (q : (nat -> string) -> Sql_ T A) : M A := fun s0 =>
  let s := called s0 in
  match st_tx s with
  | Aborted => (Err (map in_failed_tx), s)
  | x =>
      if ev_fails env (st_calls s0) then (Err (map Driver), aborting s)
      else match q (ev_id env (st_calls s0)) (st_tables s, 0) with
           | (Err e, _) => (Err (map (Raised e)), aborting s)
           | (Ok a, (t, _)) =>
               match x with
               | NoTx => match settle t with
                         | Some e => (Err (map (Raised e)), s)
                         | None => (Ok a, with_tables s (settled t))
                         end
               | _ => (Ok a, with_tables s t)
               end
           end
  end.

(** A rollback: the tables as they were. *)
Definition rolled_back (s s' : Store T) : Store T :=
  {| st_tables := st_tables s; st_log := st_log s'; st_tx := st_tx s; st_calls := st_calls s' |}.

(** WithinTx: BEGIN, the calls, COMMIT.  A transaction with a failed statement in
    it does not commit, nor one whose waiting triggers raise. *)
Definition WithinTx {A} (m : M A) : M A := fun s =>
  match st_tx s with
  | NoTx =>
      if ev_fails env (st_calls s) then (Err (Wrap ErrInternal "begin"), called s)
      else match m (with_tx (called s) InTx) with
           | (Err e, s') => (Err e, rolled_back s s')
           | (Ok a, s') =>
               if ev_fails env (st_calls s') || match st_tx s' with InTx => false | _ => true end
               then (Err (Wrap ErrInternal "commit"), rolled_back s (called s'))
               else match settle (st_tables s') with
                    | Some e => (Err (Wrap ErrInternal (text (Raised e))), rolled_back s (called s'))
                    | None => (Ok a, with_tx (with_tables (called s') (settled (st_tables s'))) NoTx)
                    end
           end
  | _ => m s
  end.

End Statements.

(** A parameter that is no uuid. *)
Definition BadUUID : Error := MapErr Driver.
Definition with_uuid {T A} (id : string) (k : string -> Eff (Store T) Error A) : Eff (Store T) Error A :=
  match Uuid.canon id with None => raise BadUUID | Some c => k c end.
Definition found {T A} (what : Error) (m : Eff (Store T) Error (option A)) : Eff (Store T) Error A :=
  r ← m; match r with Some a => mret a | None => raise what end.

(** The pieces of SQL. *)
Definition refuse {T A} (e : PgError) : Sql_ T A := raise e.
Definition query {T A} (f : T -> A) : Sql_ T A := fun s => (Ok (f (fst s)), s).
Definition change {T} (f : T -> T) : Sql_ T unit := fun s => (Ok tt, (f (fst s), snd s)).
Definition fresh {T} (ids : nat -> string) : Sql_ T string := fun s => (Ok (ids (snd s)), (fst s, S (snd s))).
(** A check that may raise. *)
Definition must {T} (f : T -> option PgError) : Sql_ T unit := fun s => match f (fst s) with Some e => (Err e, s) | None => (Ok tt, s) end.
(** FOR x IN l LOOP: the number of turns. *)
Fixpoint loop {T A} (f : A -> Sql_ T unit) (l : list A) : Sql_ T unit :=
  match l with [] => mret tt | x :: r => _ ← f x; loop f r end.

(** ** Rules *)

(** What a piece of SQL that answers leaves. *)
Definition sql {T A} (P : T -> Prop) (m : Sql_ T A) (R : A -> T -> Prop) : Prop :=
  forall t n a t' n', P t -> m (t, n) = (Ok a, (t', n')) -> R a t'.

Section SqlRules.
Context {T : Type}.

Lemma sql_bind {A B} P (m : Sql_ T A) mid (f : A -> Sql_ T B) R :
  sql P m mid -> (forall a, sql (mid a) (f a) R) -> sql P (m ≫= f) R.
Proof.
  intros Hm Hf t n b t' n' HP H. apply bind_ok in H as (a & [t1 n1] & H1 & H2). eapply Hf; [|exact H2]. by eapply Hm.
Qed.

Lemma sql_ret {A} P (a : A) (R : A -> T -> Prop) : (forall t, P t -> R a t) -> sql P (mret a) R.
Proof. intros H t n b t' n' HP [= <- <- <-]. auto. Qed.
Lemma sql_refuse {A} P e (R : A -> T -> Prop) : sql P (refuse e) R.
Proof. by intros t n b t' n' HP. Qed.
Lemma sql_query {A} P (f : T -> A) (R : A -> T -> Prop) : (forall t, P t -> R (f t) t) -> sql P (query f) R.
Proof. intros H t n b t' n' HP [= <- <- <-]. auto. Qed.
Lemma sql_change P f (R : unit -> T -> Prop) : (forall t, P t -> R tt (f t)) -> sql P (change f) R.
Proof. intros H t n b t' n' HP [= <- <- <-]. auto. Qed.
Lemma sql_must P f (R : unit -> T -> Prop) : (forall t, P t -> f t = None -> R tt t) -> sql P (must f) R.
Proof. intros H t n b t' n' HP. unfold must. cbn. destruct (f t) eqn:E; [done|]. intros [= <- <- <-]. auto. Qed.
Lemma sql_fresh P ids (R : string -> T -> Prop) : (forall t k, P t -> R (ids k) t) -> sql P (fresh ids) R.
Proof. intros H t n b t' n' HP [= <- <- <-]. by apply H. Qed.

Lemma sql_weaken {A} (P P' : T -> Prop) (m : Sql_ T A) (R R' : A -> T -> Prop) :
  sql P' m R' -> (forall t, P t -> P' t) -> (forall a t, R' a t -> R a t) -> sql P m R.
Proof. intros H H1 H2 t n a t' n' HP E. eapply H2, H; [by apply H1|exact E]. Qed.

(** A loop with what is so after the turns done. *)
Lemma sql_loop {A} (I : list A -> T -> Prop) (f : A -> Sql_ T unit) l :
  (forall done x todo, l = done ++ x :: todo -> sql (I done) (f x) (fun _ => I (done ++ [x]))) ->
  sql (I []) (loop f l) (fun _ => I l).
Proof.
  intros H. assert (forall todo d, l = d ++ todo -> sql (I d) (loop f todo) (fun _ => I l)) as G; [|by apply (G l [])].
  induction todo as [|x todo IH]; intros d ->.
  - apply sql_ret. intros t. by rewrite app_nil_r.
  - simpl. eapply sql_bind; [by eapply H|]. intros []. apply IH. by rewrite <- app_assoc.
Qed.

Lemma sql_loop_keeps {A} (P : T -> Prop) (f : A -> Sql_ T unit) l : (forall x, sql P (f x) (fun _ => P)) -> sql P (loop f l) (fun _ => P).
Proof. intros H. apply (sql_loop (fun _ => P)). intros. apply H. Qed.

End SqlRules.

(** Walks a piece of SQL; [leaf] for what is left. *)
Ltac sql_step leaf :=
  match goal with
  | |- sql _ (_ ≫= _) _ => eapply sql_bind
  | |- sql _ (mret _) _ => apply sql_ret; intros
  | |- sql _ (refuse _) _ => apply sql_refuse
  | |- sql _ (match ?x with _ => _ end) _ => destruct x eqn:?
  | |- _ => leaf
  end.
Ltac sql_walk leaf := repeat sql_step leaf.

(** *** Statements and transactions *)
Section StoreRules.
Context {T : Type} (env : Env) (settle : T -> option PgError) (settled : T -> T).

Lemma statement_ok {A} map (q : (nat -> string) -> Sql_ T A) s a s' :
  statement env settle settled map q s = (Ok a, s') ->
  exists t n, q (ev_id env (st_calls s)) (st_tables s, 0) = (Ok a, (t, n)) /\ st_tx s' = st_tx s /\ st_log s' = st_log s /\
    match st_tx s with NoTx => settle t = None /\ st_tables s' = settled t | _ => st_tables s' = t end.
Proof.
  unfold statement. cbn. destruct (st_tx s) eqn:Ex; [| |done];
    (destruct (ev_fails _ _); [done|]); destruct (q _ _) as [[b|e] [t n]]; try done.
  - destruct (settle t) eqn:Es; [done|]. intros [= <- <-]. by exists t, n.
  - intros [= <- <-]. by exists t, n.
Qed.

Lemma statement_err {A} map (q : (nat -> string) -> Sql_ T A) s e s' :
  statement env settle settled map q s = (Err e, s') -> st_tables s' = st_tables s /\ st_log s' = st_log s /\ (st_tx s' = NoTx <-> st_tx s = NoTx).
Proof.
  unfold statement, aborting. cbn. destruct (st_tx s) eqn:Ex; [| |by intros [= _ <-]; cbn; rewrite Ex];
    (destruct (ev_fails _ _); [by intros [= _ <-]; cbn; rewrite ?Ex|]); destruct (q _ _) as [[b|e'] [t n]];
    try destruct (settle t); intros [= _ <-]; cbn; by rewrite ?Ex.
Qed.

Lemma transaction_ok {A} (m : Eff (Store T) Error A) s a s' : st_tx s = NoTx -> WithinTx env settle settled m s = (Ok a, s') ->
  exists s1, m (with_tx (called s) InTx) = (Ok a, s1) /\ st_tx s1 = InTx /\ settle (st_tables s1) = None /\
    st_tables s' = settled (st_tables s1) /\ st_tx s' = NoTx /\ st_log s' = st_log s1.
Proof.
  intros Hx. unfold WithinTx. rewrite Hx. destruct (ev_fails _ _); [done|]. destruct (m _) as [[b|e] s1]; [|done].
  destruct (st_tx s1) eqn:E1; rewrite ?orb_true_r; [done| |done]. destruct (ev_fails _ _); [done|]. cbn.
  destruct (settle _) eqn:Es; [done|]. intros [= <- <-]. by exists s1.
Qed.

Lemma transaction_err {A} (m : Eff (Store T) Error A) s e s' : st_tx s = NoTx -> WithinTx env settle settled m s = (Err e, s') ->
  st_tables s' = st_tables s /\ st_tx s' = NoTx.
Proof.
  intros Hx. unfold WithinTx. rewrite Hx. destruct (ev_fails _ _); [by intros [= _ <-]|]. destruct (m _) as [[b|e'] s1].
  - destruct (_ || _); [by intros [= _ <-]|]. destruct (settle _); [by intros [= _ <-]|done].
  - by intros [= _ <-].
Qed.

(** Inside a transaction nothing is added. *)
Lemma transaction_joins {A} (m : Eff (Store T) Error A) s : st_tx s <> NoTx -> WithinTx env settle settled m s = m s.
Proof. unfold WithinTx. by destruct (st_tx s). Qed.

End StoreRules.

(** *** What a handler leaves

    [Base] holds of the tables after every call; [Rest] between transactions
    besides.  A handler started where [W] holds leaves [R] when it answers and
    [Base] when it fails. *)
Section Hoare.
Context {T : Type} (env : Env) (settle : T -> option PgError) (settled : T -> T) (Base Rest : T -> Prop).

Definition sound (W : T -> Prop) (s : Store T) : Prop := W (st_tables s) /\ (st_tx s = NoTx -> Rest (st_tables s)).

Definition hoare {A} (W : T -> Prop) (m : Eff (Store T) Error A) (R : A -> T -> Prop) : Prop :=
  forall s, sound W s -> match m s with (Ok a, s') => sound (R a) s' | (Err _, s') => sound Base s' end.

(** The end of a transaction leaves it so. *)
Definition stable (W : T -> Prop) : Prop := forall t, W t -> settle t = None -> W (settled t) /\ Rest (settled t).

Lemma sound_weaken W W' s : sound W s -> (forall t, W t -> W' t) -> sound W' s.
Proof. intros [H1 H2] H. split; auto. Qed.

Lemma hoare_bind {A B} W (m : Eff (Store T) Error A) mid (f : A -> Eff (Store T) Error B) R :
  hoare W m mid -> (forall a, hoare (mid a) (f a) R) -> hoare W (m ≫= f) R.
Proof.
  intros Hm Hf s Hs. specialize (Hm s Hs). unfold mbind, eff_bind. destruct (m s) as [[a|e] s1]; [|done]. by apply Hf.
Qed.
Lemma hoare_ret {A} W (a : A) (R : A -> T -> Prop) : (forall t, W t -> R a t) -> hoare W (mret a) R.
Proof. intros H s Hs. by eapply sound_weaken. Qed.
Lemma hoare_raise {A} W e (R : A -> T -> Prop) : (forall t, W t -> Base t) -> hoare W (raise e) R.
Proof. intros H s Hs. by eapply sound_weaken. Qed.
Lemma hoare_lift {A} W (r : result Error A) (R : A -> T -> Prop) :
  (forall t, W t -> Base t) -> (forall a t, r = Ok a -> W t -> R a t) -> hoare W (lift r) R.
Proof. intros Hb H s Hs. unfold lift. destruct r as [a|e]; [|by eapply sound_weaken]. eapply sound_weaken; [done|]. auto. Qed.
Lemma hoare_weaken {A} W W' (m : Eff (Store T) Error A) (R R' : A -> T -> Prop) :
  hoare W' m R' -> (forall t, W t -> W' t) -> (forall a t, R' a t -> R a t) -> hoare W m R.
Proof.
  intros H H1 H2 s Hs. specialize (H s (sound_weaken _ _ _ Hs H1)). destruct (m s) as [[a|e] s']; [|done]. eapply sound_weaken; [exact H|apply H2].
Qed.
(** A call that only writes the log. *)
Lemma hoare_log {A} W (m : Eff (Store T) Error A) (R : A -> T -> Prop) :
  (forall s, exists a s', m s = (Ok a, s') /\ st_tables s' = st_tables s /\ st_tx s' = st_tx s) -> (forall a t, W t -> R a t) -> hoare W m R.
Proof.
  intros H HR s [Hw Hr]. destruct (H s) as (a & s' & -> & Ht & Hx). split; rewrite Ht; [by apply HR|]. by rewrite Hx.
Qed.

Lemma hoare_statement {A} W map (q : (nat -> string) -> Sql_ T A) (R : A -> T -> Prop) :
  (forall t, W t -> Base t) -> (forall a, stable (R a)) -> (forall ids, sql W (q ids) R) -> hoare W (statement env settle settled map q) R.
Proof.
  intros Hb Hst Hq s [Hw Hr]. destruct (statement _ _ _ _ _ s) as [[a|e] s'] eqn:E.
  - apply statement_ok in E as (t & n & E & Hx & _ & Hm). specialize (Hq _ _ _ _ _ _ Hw E). unfold sound. rewrite Hx. destruct (st_tx s).
    + destruct Hm as [Hs ->]. destruct (Hst _ _ Hq Hs). by split.
    + by rewrite Hm.
    + by rewrite Hm.
  - apply statement_err in E as (Ht & _ & Hx). unfold sound. rewrite Ht. split; [auto|]. intros H%Hx. auto.
Qed.

Lemma hoare_tx {A} W (m : Eff (Store T) Error A) (R : A -> T -> Prop) :
  (forall t, W t -> Base t) -> (forall a, stable (R a)) -> hoare W m R -> hoare W (WithinTx env settle settled m) R.
Proof.
  intros Hb Hst Hm s [Hw Hr]. destruct (decide (st_tx s = NoTx)) as [Hx|Hx].
  - assert (sound W (with_tx (called s) InTx)) as H1 by (split; [done|by intros [=]]). specialize (Hm _ H1).
    destruct (WithinTx _ _ _ m s) as [[a|e] s'] eqn:E.
    + apply transaction_ok in E as (s1 & E & _ & Hs & Ht & Hx' & _); [|done]. rewrite E in Hm. destruct Hm as [Hw1 _].
      destruct (Hst _ _ Hw1 Hs). split; by rewrite Ht.
    + apply transaction_err in E as [Ht Hx']; [|done]. split; rewrite Ht; auto.
  - rewrite transaction_joins by done. by apply Hm.
Qed.

Lemma hoare_with_uuid {A} W id (k : string -> Eff (Store T) Error A) R :
  (forall t, W t -> Base t) -> (forall c, Uuid.canon id = Some c -> hoare W (k c) R) -> hoare W (with_uuid id k) R.
Proof. intros Hb H. unfold with_uuid. destruct (Uuid.canon id); [by apply H|by apply hoare_raise]. Qed.

Lemma hoare_found {A} W what (m : Eff (Store T) Error (option A)) (R : A -> T -> Prop) :
  hoare W m (fun o t => Base t /\ forall a, o = Some a -> R a t) -> hoare W (found what m) R.
Proof.
  intros H. eapply hoare_bind; [exact H|]. intros [a|]; [apply hoare_ret; intros t [_ Ha]; by apply Ha|apply hoare_raise; by intros t [? _]].
Qed.

(** What a handler that answers left, alone in its transaction. *)
Lemma hoare_use {A} W (m : Eff (Store T) Error A) R s r s' : hoare W m R -> sound W s -> m s = (r, s') ->
  match r with Ok a => sound (R a) s' | Err _ => sound Base s' end.
Proof. intros H Hs E. specialize (H s Hs). by rewrite E in H. Qed.

End Hoare.

End Db.
