(* ===== verification/Members.v ===== *)
(** Grants and memberships as the database keeps them: the tables with their
    constraints and triggers, and the functions that turn a membership into
    grants and take them back (internal/platform/schema/model.go and
    routines.go: membership_materialize, membership_assign, membership_resync,
    membership_leave, membership_unassign, and the guards of the tables they
    write). *)

From Stdlib Require Import ZArith Lia Bool Ascii String.
From stdpp Require Import base gmap strings list sorting.
From S2P Require Import Prelude.
From S2P Require Import GoStrings.
From S2P Require Import Shared.
From S2P Require Import ScopeTree.
From S2P Require Import Db.

Module Members.
Import Pg Db.
Import ScopeTree (some_row, find_row, quoted, first_of).

(** ** Rows, by primary key *)

Record GrantRow := {
  gr_Tenant : string; gr_Identity : string; gr_Role : string; gr_GrantedBy : string; gr_Reason : option string;
  gr_RevokeReason : option string; gr_SelfScoped : bool; gr_CreatedAt : Time; gr_ValidFrom : Time; gr_ValidUntil : option Time;
  gr_RevokedAt : option Time; gr_ViaMembership : option string; gr_ViaEntry : option string; gr_ViaMember : option string
}.
(** A row of grant_scopes or membership_entry_scopes under (grant or entry,
    axis, node). *)
Record PinRow := { pi_Tenant : string; pi_Inherit : bool; pi_Exclude : bool }.
Abbreviation PinKey := (string * string * string)%type.
Record MembershipRow := { ms_Tenant : string; ms_Name : string; ms_Description : string; ms_Anchor : option string }.
Record EntryRow := { en_Membership : string; en_Tenant : string; en_Role : string; en_RetiredAt : option Time }.
Record MemberRow := {
  mb_Membership : string; mb_Identity : string; mb_Tenant : string; mb_AssignedBy : string; mb_AssignedAt : Time;
  mb_Axis : option string; mb_Node : option string; mb_Inherit : bool; mb_ValidUntil : option Time; mb_Reason : option string;
  mb_RemovedAt : option Time; mb_RemovedBy : option string
}.

(** A row whose exclusion is looked at when the transaction ends. *)
Inductive Deferred := GrantExcludes (grant axis : string) | EntryExcludes (entry axis : string).

Record Tables := {
  t_grants : gmap string GrantRow;
  t_pins : gmap PinKey PinRow;
  t_memberships : gmap string MembershipRow;
  t_entries : gmap string EntryRow;
  t_places : gmap PinKey PinRow;
  t_members : gmap string MemberRow;
  t_deferred : list Deferred
}.

Definition with_grants (t : Tables) (m : gmap string GrantRow) : Tables := {|
  t_grants := m; t_pins := t_pins t; t_memberships := t_memberships t; t_entries := t_entries t; t_places := t_places t;
  t_members := t_members t; t_deferred := t_deferred t |}.
Definition with_pins (t : Tables) (m : gmap PinKey PinRow) : Tables := {|
  t_grants := t_grants t; t_pins := m; t_memberships := t_memberships t; t_entries := t_entries t; t_places := t_places t;
  t_members := t_members t; t_deferred := t_deferred t |}.
Definition with_memberships (t : Tables) (m : gmap string MembershipRow) : Tables := {|
  t_grants := t_grants t; t_pins := t_pins t; t_memberships := m; t_entries := t_entries t; t_places := t_places t;
  t_members := t_members t; t_deferred := t_deferred t |}.
Definition with_entries (t : Tables) (m : gmap string EntryRow) : Tables := {|
  t_grants := t_grants t; t_pins := t_pins t; t_memberships := t_memberships t; t_entries := m; t_places := t_places t;
  t_members := t_members t; t_deferred := t_deferred t |}.
Definition with_places (t : Tables) (m : gmap PinKey PinRow) : Tables := {|
  t_grants := t_grants t; t_pins := t_pins t; t_memberships := t_memberships t; t_entries := t_entries t; t_places := m;
  t_members := t_members t; t_deferred := t_deferred t |}.
Definition with_members (t : Tables) (m : gmap string MemberRow) : Tables := {|
  t_grants := t_grants t; t_pins := t_pins t; t_memberships := t_memberships t; t_entries := t_entries t; t_places := t_places t;
  t_members := m; t_deferred := t_deferred t |}.
Definition defer (d : Deferred) (t : Tables) : Tables := {|
  t_grants := t_grants t; t_pins := t_pins t; t_memberships := t_memberships t; t_entries := t_entries t; t_places := t_places t;
  t_members := t_members t; t_deferred := t_deferred t ++ [d] |}.
Definition settled (t : Tables) : Tables := {|
  t_grants := t_grants t; t_pins := t_pins t; t_memberships := t_memberships t; t_entries := t_entries t; t_places := t_places t;
  t_members := t_members t; t_deferred := [] |}.

(** The rows of other tables these look at: roles, people with the kind of
    their realm (if they have one), places by (tenant, axis), structures. *)
Record RoleRow := { ro_Tenant : string; ro_Name : string; ro_Kinds : list string; ro_Deprecated : option Time }.
Record PersonRow := { pe_Tenant : string; pe_Username : string; pe_Kind : option string }.
Record World := {
  wo_role : string -> option RoleRow;
  wo_person : string -> option PersonRow;
  wo_node : string -> option (string * string);
  wo_node_name : string -> string;
  wo_axis : string -> string -> bool;
  wo_tenant : string -> bool;
  wo_date : Time -> string;
  wo_timestamp : Time -> string
}.

(** ** Triggers that wait *)
Definition is_include (m : gmap PinKey PinRow) (owner axis : string) : bool :=
  some_row (fun '(o, a, _) p => bool_decide (o = owner) && bool_decide (a = axis) && negb (pi_Exclude p)) m.

(** trg_exclusion_needs_include, trg_entry_exclusion_needs_include *)
Definition needs_include (t : Tables) (d : Deferred) : option PgError :=
  match d with
  | GrantExcludes g a =>
      if is_include (t_pins t) g a then None
      else Some (exception "23514" ("grant " ++ g ++ " excludes a place on axis " ++ a ++ " without including one first"))
  | EntryExcludes e a =>
      if is_include (t_places t) e a then None
      else Some (exception "23514" ("membership entry " ++ e ++ " excludes a place on axis " ++ a ++ " without including one first"))
  end.
Definition settle (t : Tables) : option PgError := first_of (map (needs_include t) (t_deferred t)).

(** btrim(s), and NULLIF(btrim(s), ''). *)
Definition btrim (s : string) : string := trim " "%char s.
Definition nullif_empty (s : string) : option string := if bool_decide (s = ""%string) then None else Some s.

Section Functions.
(** now() of the transaction, the other tables, and the ids of one call. *)
Context (now : Time) (w : World) (ids : nat -> string).

Abbreviation Q := (Sql_ Tables).

(** The end of what runs until [u] is not yet reached. *)
Definition unended (u : option Time) : bool := match u with None => true | Some u => (now <? u)%Z end.

(** ** Rows written *)

(** trg_grant_realm_guard: the person's realm is one the role may serve; nobody
    without a realm is held to it. *)
Definition realm_guard (g : GrantRow) : option PgError :=
  match wo_person w (gr_Identity g), wo_role w (gr_Role g) with
  | Some p, Some r =>
      match pe_Kind p with
      | Some k => if bool_decide (k ∈ ro_Kinds r) then None
                  else Some (exception "42501" ("role " ++ quoted (ro_Name r) ++ " may not be granted to a " ++ quoted k ++
                                                " identity (allowed: {" ++ String.concat "," (ro_Kinds r) ++ "})"))
      | None => None
      end
  | _, _ => None
  end.

(** trg_grant_role_live *)
Definition role_live (g : GrantRow) : option PgError :=
  match wo_role w (gr_Role g) with
  | Some r => match ro_Deprecated r with
              | Some d => Some (exception "42501" ("role " ++ quoted (ro_Name r) ++ " was retired from the catalog on " ++ wo_date w d ++
                                                   " and cannot be granted; existing grants of it still work"))
              | None => None
              end
  | None => None
  end.

Definition known {A} (m : gmap string A) (k : option string) : bool := match k with None => true | Some k => bool_decide (is_Some (m !! k)) end.
Definition person_of (id tenant : string) : bool := match wo_person w id with Some p => bool_decide (pe_Tenant p = tenant) | None => false end.
Definition role_of (id tenant : string) : bool := match wo_role w id with Some r => bool_decide (ro_Tenant r = tenant) | None => false end.

Definition grant_fkeys (t : Tables) (g : GrantRow) : option PgError :=
  if negb (wo_tenant w (gr_Tenant g)) then Some (violated "23503" "grants_tenant_id_fkey")
  else if negb (person_of (gr_Identity g) (gr_Tenant g)) then Some (violated "23503" "grants_identity_id_tenant_id_fkey")
  else if negb (role_of (gr_Role g) (gr_Tenant g)) then Some (violated "23503" "grants_role_id_tenant_id_fkey")
  else if negb (known (t_memberships t) (gr_ViaMembership g)) then Some (violated "23503" "grants_via_membership_id_fkey")
  else if negb (known (t_entries t) (gr_ViaEntry g)) then Some (violated "23503" "grants_via_entry_id_fkey")
  else if negb (known (t_members t) (gr_ViaMember g)) then Some (violated "23503" "grants_via_member_id_fkey")
  else None.

Definition grant_checks (t : Tables) (id : string) (g : GrantRow) : option PgError :=
  if match gr_ValidUntil g with Some u => (u <=? gr_ValidFrom g)%Z | None => false end then Some (violated "23514" "grants_check")
  else if bool_decide (is_Some (t_grants t !! id)) then Some (violated "23505" "grants_pkey")
  else first_of [grant_fkeys t g; realm_guard g; role_live g].

Definition insert_grant (g : GrantRow) : Q string :=
  id ← fresh ids;
  _ ← must (fun t => grant_checks t id g);
  _ ← change (fun t => with_grants t (<[id := g]> (t_grants t)));
  mret id.

(** The structure and the place of a pick, in the tenant. *)
Definition place_fkeys (table tenant axis node : string) : option PgError :=
  if negb (wo_axis w tenant axis) then Some (violated "23503" (table ++ "_tenant_id_axis_code_fkey"))
  else if negb (bool_decide (wo_node w node = Some (tenant, axis))) then Some (violated "23503" (table ++ "_scope_node_id_tenant_id_axis_code_fkey"))
  else None.

(** trg_self_scope_guard *)
Definition self_guard (t : Tables) (grant : string) : option PgError :=
  match t_grants t !! grant with
  | Some g => if gr_SelfScoped g then Some (exception "23514" ("self-scoped grant " ++ grant ++ " may not carry axis constraints")) else None
  | None => None
  end.

Definition grant_of (t : Tables) (grant tenant : string) : bool :=
  match t_grants t !! grant with Some g => bool_decide (gr_Tenant g = tenant) | None => false end.

Definition pin_checks (t : Tables) (k : PinKey) (p : PinRow) : option PgError :=
  let '(grant, axis, node) := k in
  if bool_decide (is_Some (t_pins t !! k)) then Some (violated "23505" "grant_scopes_pkey")
  else first_of [if grant_of t grant (pi_Tenant p) then None else Some (violated "23503" "grant_scopes_grant_id_tenant_id_fkey");
                 place_fkeys "grant_scopes" (pi_Tenant p) axis node; self_guard t grant].

Definition insert_pin (k : PinKey) (p : PinRow) : Q unit :=
  _ ← must (fun t => pin_checks t k p);
  _ ← change (fun t => with_pins t (<[k := p]> (t_pins t)));
  if pi_Exclude p then change (defer (GrantExcludes (fst (fst k)) (snd (fst k)))) else mret tt.

(** trg_membership_entry_anchor *)
Definition entry_anchor (t : Tables) (entry axis : string) : option PgError :=
  match t_entries t !! entry with
  | Some e => match t_memberships t !! en_Membership e with
              | Some m => if bool_decide (ms_Anchor m = Some axis)
                          then Some (exception "23514" ("this membership applies where each member is assigned in " ++ quoted axis ++
                                                        ", so its roles may not name places there themselves"))
                          else None
              | None => None
              end
  | None => None
  end.

Definition entry_of (t : Tables) (entry tenant : string) : bool :=
  match t_entries t !! entry with Some e => bool_decide (en_Tenant e = tenant) | None => false end.

Definition entry_place_checks (t : Tables) (k : PinKey) (p : PinRow) : option PgError :=
  let '(entry, axis, node) := k in
  if bool_decide (is_Some (t_places t !! k)) then Some (violated "23505" "membership_entry_scopes_pkey")
  else first_of [if entry_of t entry (pi_Tenant p) then None else Some (violated "23503" "membership_entry_scopes_entry_id_tenant_id_fkey");
                 place_fkeys "membership_entry_scopes" (pi_Tenant p) axis node; entry_anchor t entry axis].

Definition insert_entry_place (k : PinKey) (p : PinRow) : Q unit :=
  _ ← must (fun t => entry_place_checks t k p);
  _ ← change (fun t => with_places t (<[k := p]> (t_places t)));
  if pi_Exclude p then change (defer (EntryExcludes (fst (fst k)) (snd (fst k)))) else mret tt.

Definition membership_of (t : Tables) (membership tenant : string) : bool :=
  match t_memberships t !! membership with Some m => bool_decide (ms_Tenant m = tenant) | None => false end.

Definition insert_entry (e : EntryRow) : Q string :=
  id ← fresh ids;
  _ ← must (fun t =>
        if bool_decide (is_Some (t_entries t !! id)) then Some (violated "23505" "membership_entries_pkey")
        else if negb (membership_of t (en_Membership e) (en_Tenant e)) then Some (violated "23503" "membership_entries_membership_id_tenant_id_fkey")
        else if negb (role_of (en_Role e) (en_Tenant e)) then Some (violated "23503" "membership_entries_role_id_tenant_id_fkey")
        else None);
  _ ← change (fun t => with_entries t (<[id := e]> (t_entries t)));
  mret id.

Definition no_own_place : PgError :=
  exception "23514" "this membership gives every member the same places; an assignment names no place of its own".
Definition choose_a_place (anchor : string) : PgError :=
  exception "23514" ("this membership applies where each member is assigned: choose a place in " ++ quoted anchor).

(** trg_membership_member_place *)
Definition member_place (t : Tables) (m : MemberRow) : option PgError :=
  match ms_Anchor <$> t_memberships t !! mb_Membership m with
  | Some (Some a) => if bool_decide (mb_Node m = None) || negb (bool_decide (mb_Axis m = Some a)) then Some (choose_a_place a) else None
  | _ => if bool_decide (mb_Node m = None) then None else Some no_own_place
  end.

(** The partial unique indexes: one live assignment per person and place. *)
Definition same_seat (membership identity : string) (node : option string) (m : MemberRow) : bool :=
  bool_decide (mb_Membership m = membership) && bool_decide (mb_Identity m = identity) && bool_decide (mb_RemovedAt m = None) &&
  bool_decide (mb_Node m = node).

Definition member_checks (t : Tables) (id : string) (m : MemberRow) : option PgError :=
  if negb (bool_decide (mb_Axis m = None <-> mb_Node m = None)) then Some (violated "23514" "membership_members_place_check")
  else if negb (bool_decide (mb_RemovedAt m = None <-> mb_RemovedBy m = None)) then Some (violated "23514" "membership_members_removal_check")
  else if bool_decide (is_Some (t_members t !! id)) then Some (violated "23505" "membership_members_pkey")
  else if bool_decide (mb_RemovedAt m = None) && some_row (fun _ => same_seat (mb_Membership m) (mb_Identity m) (mb_Node m)) (t_members t)
  then Some (violated "23505" (match mb_Node m with None => "membership_members_live_everywhere" | Some _ => "membership_members_live_placed" end))
  else if negb (person_of (mb_Identity m) (mb_Tenant m)) then Some (violated "23503" "membership_members_identity_id_tenant_id_fkey")
  else if negb (membership_of t (mb_Membership m) (mb_Tenant m)) then Some (violated "23503" "membership_members_membership_id_tenant_id_fkey")
  else match mb_Axis m, mb_Node m with
       | Some a, Some n => if bool_decide (wo_node w n = Some (mb_Tenant m, a)) then member_place t m
                           else Some (violated "23503" "membership_members_scope_node_id_tenant_id_axis_code_fkey")
       | _, _ => member_place t m
       end.

Definition insert_member (m : MemberRow) : Q string :=
  id ← fresh ids;
  _ ← must (fun t => member_checks t id m);
  _ ← change (fun t => with_members t (<[id := m]> (t_members t)));
  mret id.

(** ** The functions *)

(** UPDATE grants SET revoked_at = now(), revoke_reason = ... WHERE: how many. *)
Definition revoked (reason : option string -> option string) (g : GrantRow) : GrantRow := {|
  gr_Tenant := gr_Tenant g; gr_Identity := gr_Identity g; gr_Role := gr_Role g; gr_GrantedBy := gr_GrantedBy g; gr_Reason := gr_Reason g;
  gr_RevokeReason := reason (gr_RevokeReason g); gr_SelfScoped := gr_SelfScoped g; gr_CreatedAt := gr_CreatedAt g;
  gr_ValidFrom := gr_ValidFrom g; gr_ValidUntil := gr_ValidUntil g; gr_RevokedAt := Some now; gr_ViaMembership := gr_ViaMembership g;
  gr_ViaEntry := gr_ViaEntry g; gr_ViaMember := gr_ViaMember g |}.

Definition count_rows {A} (p : A -> bool) (m : gmap string A) : Z := Z.of_nat (length (List.filter (fun '(_, a) => p a) (map_to_list m))).

Definition live (g : GrantRow) : bool := bool_decide (gr_RevokedAt g = None).

Definition revoke_where (p : GrantRow -> bool) (reason : option string -> option string) : Q Z :=
  n ← query (fun t => count_rows (fun g => p g && live g) (t_grants t));
  _ ← change (fun t => with_grants t ((fun g => if p g && live g then revoked reason g else g) <$> t_grants t));
  mret n.

Definition removed (by_ : string) (m : MemberRow) : MemberRow := {|
  mb_Membership := mb_Membership m; mb_Identity := mb_Identity m; mb_Tenant := mb_Tenant m; mb_AssignedBy := mb_AssignedBy m;
  mb_AssignedAt := mb_AssignedAt m; mb_Axis := mb_Axis m; mb_Node := mb_Node m; mb_Inherit := mb_Inherit m;
  mb_ValidUntil := mb_ValidUntil m; mb_Reason := mb_Reason m; mb_RemovedAt := Some now; mb_RemovedBy := Some by_ |}.

Definition remove_where (p : string -> MemberRow -> bool) (by_ : string) : Q unit :=
  change (fun t => with_members t (map_imap (fun id m => Some (if p id m && bool_decide (mb_RemovedAt m = None) then removed by_ m else m)) (t_members t))).

(** SELECT ... FROM membership_entry_scopes WHERE entry_id = e *)
Definition places_of (t : Tables) (entry : string) : list (string * string * PinRow) :=
  omap (fun '((e, axis, node), p) => if bool_decide (e = entry) then Some (axis, node, p) else None) (map_to_list (t_places t)).

Definition derived (id entry : string) (m : MemberRow) (e : EntryRow) : GrantRow := {|
  gr_Tenant := mb_Tenant m; gr_Identity := mb_Identity m; gr_Role := en_Role e; gr_GrantedBy := mb_AssignedBy m; gr_Reason := mb_Reason m;
  gr_RevokeReason := None; gr_SelfScoped := false; gr_CreatedAt := now; gr_ValidFrom := now; gr_ValidUntil := mb_ValidUntil m;
  gr_RevokedAt := None; gr_ViaMembership := Some (mb_Membership m); gr_ViaEntry := Some entry; gr_ViaMember := Some id |}.

(** A NOT NULL column given NULL: the columns of no row at all. *)
Definition no_row : PgError := exception "23502" "null value violates not-null constraint".

Definition membership_materialize (member entry : string) : Q string :=
  me ← query (fun t => (t_members t !! member, t_entries t !! entry));
  match me with
  | (Some m, Some e) =>
      g ← insert_grant (derived member entry m e);
      places ← query (fun t => places_of t entry);
      _ ← loop (fun '(axis, node, p) => insert_pin (g, axis, node) p) places;
      _ ← match mb_Node m with
          | Some n => insert_pin (g, default ""%string (mb_Axis m), n) {| pi_Tenant := mb_Tenant m; pi_Inherit := mb_Inherit m; pi_Exclude := false |}
          | None => mret tt
          end;
      mret g
  | _ => refuse no_row
  end.

(** SELECT id FROM membership_entries WHERE membership_id = m AND retired_at IS
    NULL, in the order of the table. *)
Definition live_entry (membership : string) (e : EntryRow) : bool :=
  bool_decide (en_Membership e = membership) && bool_decide (en_RetiredAt e = None).
Definition live_entries (t : Tables) (membership : string) : list string :=
  omap (fun '(id, e) => if live_entry membership e then Some id else None) (map_to_list (t_entries t)).

Definition lapsed (m : MemberRow) : bool := match mb_ValidUntil m with Some u => (u <=? now)%Z | None => false end.

Definition unknown_membership (m : string) : PgError := exception "P0001" ("unknown membership " ++ m).
Definition ends_before (u : Time) : PgError := exception "23514" ("an assignment cannot end before it starts (" ++ wo_timestamp w u ++ ")").

Definition assign_refusal (anchor node : option string) (until : option Time) : option PgError :=
  match anchor, node with
  | None, Some _ => Some no_own_place
  | Some a, None => Some (choose_a_place a)
  | _, _ => match until with Some u => if (u <=? now)%Z then Some (ends_before u) else None | None => None end
  end.

Definition membership_assign (identity membership by_ : string) (node : option string) (inherit : bool) (until : option Time) (reason : string) : Q (option string) :=
  m ← query (fun t => t_memberships t !! membership);
  match m with
  | None => refuse (unknown_membership membership)
  | Some ms =>
      _ ← must (fun _ => assign_refusal (ms_Anchor ms) node until);
      _ ← remove_where (fun _ m => same_seat membership identity node m && lapsed m) by_;
      held ← query (fun t => some_row (fun _ => same_seat membership identity node) (t_members t));
      if held : bool then mret None
      else
        v ← insert_member {|
              mb_Membership := membership; mb_Identity := identity; mb_Tenant := ms_Tenant ms; mb_AssignedBy := by_; mb_AssignedAt := now;
              mb_Axis := match node with None => None | Some _ => ms_Anchor ms end; mb_Node := node; mb_Inherit := inherit;
              mb_ValidUntil := until; mb_Reason := nullif_empty (btrim reason); mb_RemovedAt := None; mb_RemovedBy := None |};
        es ← query (fun t => live_entries t membership);
        _ ← loop (fun e => _ ← membership_materialize v e; mret tt) es;
        mret (Some v)
  end.

(** *** membership_resync *)
Definition no_longer : string := "the membership no longer gives this role".

Definition is_retired (t : Tables) (entry : option string) : bool :=
  match entry with
  | Some e => match t_entries t !! e with Some r => bool_decide (is_Some (en_RetiredAt r)) | None => false end
  | None => false
  end.

Definition current (m : MemberRow) : bool := bool_decide (mb_RemovedAt m = None) && unended (mb_ValidUntil m).
Definition current_members (t : Tables) (membership : string) : list string :=
  omap (fun '(id, m) => if bool_decide (mb_Membership m = membership) && current m then Some id else None) (map_to_list (t_members t)).

Definition gives (t : Tables) (entry member : string) : bool :=
  some_row (fun _ g => bool_decide (gr_ViaEntry g = Some entry) && bool_decide (gr_ViaMember g = Some member) && live g) (t_grants t).
Definition missing_entries (t : Tables) (membership member : string) : list string :=
  List.filter (fun e => negb (gives t e member)) (live_entries t membership).

Definition resync_member (membership member : string) : Q Z :=
  es ← query (fun t => missing_entries t membership member);
  _ ← loop (fun e => _ ← membership_materialize member e; mret tt) es;
  mret (Z.of_nat (length es)).

Fixpoint resync_members (membership : string) (l : list string) (n : Z) : Q Z :=
  match l with [] => mret n | m :: r => k ← resync_member membership m; resync_members membership r (n + k) end.

Definition membership_resync (membership : string) : Q Z :=
  retired ← query (fun t => fun g : GrantRow => bool_decide (gr_ViaMembership g = Some membership) && is_retired t (gr_ViaEntry g));
  n ← revoke_where retired (fun r => Some (default no_longer r));
  ms ← query (fun t => current_members t membership);
  resync_members membership ms n.

(** *** Leaving *)
Definition left_reason (reason : string) : option string -> option string :=
  fun _ => Some (default "left the membership"%string (nullif_empty (btrim reason))).

Definition membership_leave (member by_ reason : string) : Q Z :=
  n ← revoke_where (fun g => bool_decide (gr_ViaMember g = Some member)) (left_reason reason);
  _ ← remove_where (fun id _ => bool_decide (id = member)) by_;
  mret n.

Definition membership_unassign (identity membership by_ reason : string) : Q Z :=
  n ← revoke_where (fun g => bool_decide (gr_Identity g = identity) && bool_decide (gr_ViaMembership g = Some membership)) (left_reason reason);
  _ ← remove_where (fun _ m => bool_decide (mb_Membership m = membership) && bool_decide (mb_Identity m = identity)) by_;
  mret n.

End Functions.
End Members.
