(* ===== verification/MemberStore.v ===== *)
(** internal/authz: the repositories of grants and memberships
    (adapter/postgres/grant_repository.go and membership_repository.go) with
    their queries (rquery/grant.go and rquery/membership.go) and the records
    they answer (domain/grant, domain/membership). *)

From Stdlib Require Import ZArith Lia Bool Ascii String.
From stdpp Require Import base gmap strings list sorting.
From S2P Require Import Prelude.
From S2P Require Import GoStrings.
From S2P Require Import GoConv.
From S2P Require Import Shared.
From S2P Require Import ScopeTree.
From S2P Require Import Db.
From S2P Require Import Members.

Module MemberStore.
Import Apperr Pg Db Members.
Import ScopeTree (find_row).

(** ** Records *)
Record GrantScopeInput := { si_Axis : string; si_NodeID : string; si_Inherit : bool; si_Exclude : bool }.
Record GrantCreate := {
  gc_TenantID : string; gc_IdentityID : string; gc_RoleID : string; gc_GrantedBy : string; gc_Reason : string;
  gc_SelfScoped : bool; gc_ValidUntil : option Time; gc_Scopes : list GrantScopeInput
}.
Record GrantRecord := {
  gd_ID : string; gd_IdentityID : string; gd_RoleID : string; gd_RoleName : string; gd_SelfScoped : bool; gd_ValidFrom : Time;
  gd_ValidUntil : option Time; gd_RevokedAt : option Time; gd_GrantedBy : string; gd_ViaMembershipID : string;
  gd_ViaAssignmentID : string; gd_Reason : string; gd_RevokeReason : string
}.
Record GrantHit := { gh_Grant : GrantRecord; gh_Username : string }.
(** GrantScopeRecord and MembershipEntryScopeRecord: [sd_Owner] is the grant or
    the entry. *)
Record ScopeRecord := { sd_Owner : string; sd_Axis : string; sd_NodeID : string; sd_NodeName : string; sd_Inherit : bool; sd_Exclude : bool }.
Record GrantSearch := {
  gq_Query : string; gq_IdentityID : string; gq_RoleID : string; gq_Source : string; gq_IncludeRevoked : bool;
  gq_Cursor : string; gq_PageSize : Z
}.

Record MembershipRecord := { mr_ID : string; mr_Name : string; mr_Description : string; mr_AnchorAxis : string; mr_MemberCount : Z }.
Record MembershipEntryRecord := { er_ID : string; er_MembershipID : string; er_RoleID : string; er_RoleName : string }.
Record MembershipEntryInput := { ei_RoleID : string; ei_Scopes : list GrantScopeInput }.
Record MembershipAssignmentInput := {
  ai_MembershipID : string; ai_IdentityID : string; ai_NodeID : string; ai_Exact : bool; ai_ValidUntil : option Time; ai_Reason : string
}.
Record MembershipAssignOutcome := { ao_AssignmentID : string; ao_GrantsCreated : Z }.
Record MembershipAssignmentFilter := { af_MembershipID : string; af_IdentityID : string; af_Cursor : string; af_PageSize : Z }.
Record MembershipAssignmentRecord := {
  ar_ID : string; ar_MembershipID : string; ar_MembershipName : string; ar_AnchorAxis : string; ar_IdentityID : string;
  ar_Username : string; ar_NodeID : string; ar_NodeName : string; ar_Exact : bool; ar_ValidUntil : option Time; ar_Reason : string;
  ar_AssignedAt : Time; ar_AssignedBy : string
}.

(** strings.ToLower, the collation's order, and ILIKE of a part. *)
Record Text := { tx_ToLower : string -> string; tx_le : string -> string -> bool; tx_ilike : string -> string -> bool }.

(** A timestamptz keeps microseconds. *)
Definition microseconds (t : Time) : Time := (t / 1000 * 1000)%Z.
(** database.OptTime: the zero time is none. *)
Definition OptTime (t : option Time) : option Time := match t with Some u => if (u =? 0)%Z then None else Some u | None => None end.

(** ** What makes two entries the same entry *)
Section Keys.
Context (tx : Text).

Definition show_bool (b : bool) : string := if b then "true" else "false".
Definition placeKey (axis nodeID : string) (inherit exclude : bool) : string :=
  (axis ++ ":" ++ tx_ToLower tx nodeID ++ ":" ++ show_bool inherit ++ ":" ++ show_bool exclude)%string.
Definition entryKey (roleID : string) (places : list string) : string :=
  (tx_ToLower tx roleID ++ "|" ++ String.concat "," (merge_sort String.le places))%string.

Definition scope_key (sc : GrantScopeInput) : string := placeKey (si_Axis sc) (si_NodeID sc) (si_Inherit sc) (si_Exclude sc).
Definition input_key (e : MembershipEntryInput) : string := entryKey (ei_RoleID e) (map scope_key (ei_Scopes e)).
Definition record_key (r : ScopeRecord) : string := placeKey (sd_Axis r) (sd_NodeID r) (sd_Inherit r) (sd_Exclude r).

(** placesOf and have: what is under a key, [nil] when nothing is. *)
Definition under (m : gmap string (list string)) (k : string) : list string := default [] (m !! k).
Definition append_to (m : gmap string (list string)) (k v : string) : gmap string (list string) := <[k := under m k ++ [v]]> m.

Definition placesOf (scopes : list ScopeRecord) : gmap string (list string) :=
  foldl (fun m r => append_to m (sd_Owner r) (record_key r)) ∅ scopes.
Definition have_of (live : list MembershipEntryRecord) (places : gmap string (list string)) : gmap string (list string) :=
  foldl (fun m e => append_to m (entryKey (er_RoleID e) (under places (er_ID e))) (er_ID e)) ∅ live.

(** The loop over the given entries: each keeps at most one that is there. *)
Fixpoint keep_or_add (have : gmap string (list string)) (add : list MembershipEntryInput) (entries : list MembershipEntryInput)
  : gmap string (list string) * list MembershipEntryInput :=
  match entries with
  | [] => (have, add)
  | e :: r =>
      match under have (input_key e) with
      | _ :: kept => keep_or_add (<[input_key e := kept]> have) add r
      | [] => keep_or_add have (add ++ [e]) r
      end
  end.
Definition retire_of (have : gmap string (list string)) : list string := flat_map snd (map_to_list have).

End Keys.

Section Repository.
Context (env : Env) (w : World) (tx : Text).

Abbreviation M := (Eff (Store Tables) Error).
Abbreviation now := (ev_now env).

Definition run {A} (map : DbError -> Error) (q : (nat -> string) -> Sql_ Tables A) : M A := statement env settle settled map q.
Definition ask {A} (f : Tables -> A) : M A := run MapErr (fun _ => query f).
Definition Tx {A} (m : M A) : M A := Db.WithinTx env settle settled m.

(** ORDER BY: the first of the comparisons that tells the two apart. *)
Definition by_text (a b : string) : comparison :=
  match tx_le tx a b, tx_le tx b a with true, true => Eq | true, false => Lt | false, _ => Gt end.
Definition by_bytes (a b : string) : comparison := String.compare a b.
Definition by_bool (a b : bool) : comparison := match a, b with false, true => Lt | true, false => Gt | _, _ => Eq end.
Definition in_order (l : list comparison) : bool :=
  match List.filter (fun c => match c with Eq => false | _ => true end) l with Gt :: _ => false | _ => true end.

(** *** membership_repository.go *)
Definition member_count (t : Tables) (membership : string) : Z :=
  Z.of_nat (length (remove_dups (omap (fun '(_, m) =>
    if bool_decide (mb_Membership m = membership) && current now m then Some (mb_Identity m) else None) (map_to_list (t_members t))))).

Definition membershipRecord (count : Z) (id : string) (m : MembershipRow) : MembershipRecord := {|
  mr_ID := id; mr_Name := ms_Name m; mr_Description := ms_Description m; mr_AnchorAxis := default ""%string (ms_Anchor m); mr_MemberCount := count |}.

Definition by_name (a b : MembershipRecord) : Prop := in_order [by_text (mr_Name a) (mr_Name b)] = true.
#[export] Instance by_name_dec : RelDecision by_name := fun a b => bool_dec _ true.

Definition ListMemberships (tenantID : string) : M (list MembershipRecord) :=
  with_uuid tenantID (fun tid => ask (fun t => merge_sort by_name
    (omap (fun '(id, m) => if bool_decide (ms_Tenant m = tid) then Some (membershipRecord (member_count t id) id m) else None)
       (map_to_list (t_memberships t))))).

Definition MembershipByID (tenantID id : string) : M MembershipRecord :=
  with_uuid id (fun c => with_uuid tenantID (fun tid => found ErrNotFound (ask (fun t =>
    match t_memberships t !! c with
    | Some m => if bool_decide (ms_Tenant m = tid) then Some (membershipRecord 0 c m) else None
    | None => None
    end)))).

Definition insert_membership (ids : nat -> string) (m : MembershipRow) : Sql_ Tables string :=
  id ← fresh ids;
  _ ← must (fun t =>
        if bool_decide (is_Some (t_memberships t !! id)) then Some (violated "23505" "memberships_pkey")
        else if ScopeTree.some_row (fun _ r => bool_decide (ms_Tenant r = ms_Tenant m) && bool_decide (ms_Name r = ms_Name m)) (t_memberships t)
        then Some (violated "23505" "memberships_tenant_id_name_key")
        else if negb (wo_tenant w (ms_Tenant m)) then Some (violated "23503" "memberships_tenant_id_fkey")
        else match ms_Anchor m with
             | Some a => if wo_axis w (ms_Tenant m) a then None else Some (violated "23503" "memberships_tenant_id_anchor_axis_fkey")
             | None => None
             end);
  _ ← change (fun t => with_memberships t (<[id := m]> (t_memberships t)));
  mret id.

Definition CreateMembership (tenantID name description anchorAxis : string) : M string :=
  with_uuid tenantID (fun tid => run MapErr (fun ids => insert_membership ids
    {| ms_Tenant := tid; ms_Name := name; ms_Description := description; ms_Anchor := nullif_empty anchorAxis |})).

(** A join with the roles; ORDER BY r.name. *)
Definition by_role_name (a b : MembershipEntryRecord) : Prop := in_order [by_text (er_RoleName a) (er_RoleName b)] = true.
#[export] Instance by_role_name_dec : RelDecision by_role_name := fun a b => bool_dec _ true.

Definition entry_records (t : Tables) (memberships : list string) : list MembershipEntryRecord :=
  merge_sort by_role_name (omap (fun '(id, e) =>
    if bool_decide (en_Membership e ∈ memberships) && bool_decide (en_RetiredAt e = None)
    then (fun r => {| er_ID := id; er_MembershipID := en_Membership e; er_RoleID := en_Role e; er_RoleName := ro_Name r |}) <$> wo_role w (en_Role e)
    else None) (map_to_list (t_entries t))).

Definition MembershipEntries (membershipIDs : list string) : M (list MembershipEntryRecord) :=
  match membershipIDs with
  | [] => mret []
  | _ => match mapM Uuid.canon membershipIDs with None => raise BadUUID | Some cs => ask (fun t => entry_records t cs) end
  end.

(** A join with the places; includes before excludes. *)
Definition by_place (a b : ScopeRecord) : Prop :=
  in_order [by_bytes (sd_Owner a) (sd_Owner b); by_text (sd_Axis a) (sd_Axis b); by_bool (sd_Exclude a) (sd_Exclude b);
            by_text (sd_NodeName a) (sd_NodeName b)] = true.
#[export] Instance by_place_dec : RelDecision by_place := fun a b => bool_dec _ true.

Definition scope_records (pins : gmap PinKey PinRow) (owners : list string) : list ScopeRecord :=
  merge_sort by_place (omap (fun '((o, axis, node), p) =>
    if bool_decide (o ∈ owners)
    then (fun _ => {| sd_Owner := o; sd_Axis := axis; sd_NodeID := node; sd_NodeName := wo_node_name w node;
                      sd_Inherit := pi_Inherit p; sd_Exclude := pi_Exclude p |}) <$> wo_node w node
    else None) (map_to_list pins)).

Definition scopes_of (pins : Tables -> gmap PinKey PinRow) (owners : list string) : M (list ScopeRecord) :=
  match owners with
  | [] => mret []
  | _ => match mapM Uuid.canon owners with None => raise BadUUID | Some cs => ask (fun t => scope_records (pins t) cs) end
  end.
Definition MembershipEntryScopes (entryIDs : list string) : M (list ScopeRecord) := scopes_of t_places entryIDs.
Definition GrantScopes (grantIDs : list string) : M (list ScopeRecord) := scopes_of t_pins grantIDs.

(** UPDATE membership_entries SET retired_at *)
Definition retired (e : EntryRow) : EntryRow := {|
  en_Membership := en_Membership e; en_Tenant := en_Tenant e; en_Role := en_Role e; en_RetiredAt := Some now |}.
Definition retire_entries (membership : string) (ids : list string) : Sql_ Tables unit :=
  change (fun t => with_entries t (map_imap (fun id e =>
    Some (if bool_decide (en_Membership e = membership) && bool_decide (id ∈ ids) && bool_decide (en_RetiredAt e = None) then retired e else e)) (t_entries t))).

(** One statement per place of one entry. *)
Fixpoint insert_places (entry tid : string) (scopes : list GrantScopeInput) : M unit :=
  match scopes with
  | [] => mret tt
  | sc :: r =>
      _ ← with_uuid (si_NodeID sc) (fun node => run MapErrSaying (fun _ =>
            insert_entry_place w (entry, si_Axis sc, node) {| pi_Tenant := tid; pi_Inherit := si_Inherit sc; pi_Exclude := si_Exclude sc |}));
      insert_places entry tid r
  end.

Fixpoint insert_entries (mid tid : string) (add : list MembershipEntryInput) : M unit :=
  match add with
  | [] => mret tt
  | e :: r =>
      id ← with_uuid (ei_RoleID e) (fun role => run MapErrSaying (fun ids =>
             insert_entry w ids {| en_Membership := mid; en_Tenant := tid; en_Role := role; en_RetiredAt := None |}));
      _ ← insert_places id tid (ei_Scopes e);
      insert_entries mid tid r
  end.

Definition ReplaceMembershipEntries (tenantID membershipID : string) (entries : list MembershipEntryInput) : M unit :=
  Tx (live ← MembershipEntries [membershipID];
      scopes ← MembershipEntryScopes (map er_ID live);
      let '(have, add) := keep_or_add tx (have_of tx live (placesOf tx scopes)) [] entries in
      with_uuid membershipID (fun mid =>
        _ ← (match retire_of have with [] => mret tt | ids => run MapErrSaying (fun _ => retire_entries mid ids) end);
        match add with
        | [] => mret tt
        | _ => with_uuid tenantID (fun tid => insert_entries mid tid add)
        end)).

Definition live_grants_of (t : Tables) (member : string) : Z := count_rows (fun g => bool_decide (gr_ViaMember g = Some member) && live g) (t_grants t).

Definition opt_uuid {A} (id : string) (k : option string -> M A) : M A :=
  if bool_decide (id = ""%string) then k None else with_uuid id (fun c => k (Some c)).

Definition AssignMembership (i : MembershipAssignmentInput) (assignedBy : string) : M MembershipAssignOutcome :=
  Tx (id ← with_uuid (ai_IdentityID i) (fun identity => with_uuid (ai_MembershipID i) (fun mid => with_uuid assignedBy (fun by_ =>
             opt_uuid (ai_NodeID i) (fun node => run MapErrSaying (fun ids =>
               membership_assign now w ids identity mid by_ node (negb (ai_Exact i)) (microseconds <$> OptTime (ai_ValidUntil i)) (ai_Reason i))))));
      match id with
      | None => mret {| ao_AssignmentID := ""; ao_GrantsCreated := 0 |}
      | Some a =>
          if bool_decide (a = ""%string) then mret {| ao_AssignmentID := ""; ao_GrantsCreated := 0 |}
          else n ← with_uuid a (fun c => run MapErrSaying (fun _ => query (fun t => live_grants_of t c)));
               mret {| ao_AssignmentID := a; ao_GrantsCreated := n |}
      end).

Definition UnassignMembership (identityID membershipID removedBy reason : string) : M Z :=
  with_uuid identityID (fun identity => with_uuid membershipID (fun mid => with_uuid removedBy (fun by_ =>
    run MapErr (fun _ => membership_unassign now identity mid by_ reason)))).

(** No row of the tenant's, no function call. *)
Definition leave_row (assignment tid by_ reason : string) : Sql_ Tables (option Z) :=
  m ← query (fun t => t_members t !! assignment);
  match m with
  | Some m => if bool_decide (mb_Tenant m = tid) && bool_decide (mb_RemovedAt m = None)
              then n ← membership_leave now assignment by_ reason; mret (Some n) else mret None
  | None => mret None
  end.
Definition LeaveMembership (tenantID assignmentID removedBy reason : string) : M Z :=
  with_uuid tenantID (fun tid => with_uuid removedBy (fun by_ => opt_uuid assignmentID (fun a =>
    found ErrNotFound (run MapErr (fun _ => match a with Some a => leave_row a tid by_ reason | None => mret None end))))).

Definition ResyncMembership (membershipID : string) : M Z :=
  with_uuid membershipID (fun mid => run MapErr (fun ids => membership_resync now w ids mid)).

(** 50 when none is named, 200 at most. *)
Definition page_size (n : Z) : Z := if (n <=? 0)%Z then 50 else if (200 <? n)%Z then 200 else n.

(** (at, id), newest first; strictly after a cursor. *)
Definition newest (a b : Time * string) : bool := in_order [Z.compare (fst b) (fst a); by_bytes (snd b) (snd a)].
Definition older (a b : Time * string) : bool := negb (newest a b).

Definition assignment_key (r : MembershipAssignmentRecord) : Time * string := (ar_AssignedAt r, ar_ID r).
Definition newest_assignment (a b : MembershipAssignmentRecord) : Prop := newest (assignment_key a) (assignment_key b) = true.
#[export] Instance newest_assignment_dec : RelDecision newest_assignment := fun a b => bool_dec _ true.

(** The joins with the membership and the person. *)
Definition assignmentRecord (t : Tables) (id : string) (m : MemberRow) : option MembershipAssignmentRecord :=
  match t_memberships t !! mb_Membership m, wo_person w (mb_Identity m) with
  | Some ms, Some p => Some {|
      ar_ID := id; ar_MembershipID := mb_Membership m; ar_MembershipName := ms_Name ms; ar_AnchorAxis := default ""%string (ms_Anchor ms);
      ar_IdentityID := mb_Identity m; ar_Username := pe_Username p; ar_NodeID := default ""%string (mb_Node m);
      ar_NodeName := match mb_Node m with Some n => wo_node_name w n | None => "" end; ar_Exact := negb (mb_Inherit m);
      ar_ValidUntil := mb_ValidUntil m; ar_Reason := default ""%string (mb_Reason m); ar_AssignedAt := mb_AssignedAt m;
      ar_AssignedBy := mb_AssignedBy m |}
  | _, _ => None
  end.

Definition unless_empty (x : option string) (v : string) : bool := match x with None => true | Some c => bool_decide (v = c) end.

(** The row the cursor names, wherever it is: none compares with nothing. *)
Definition past_member (t : Tables) (cursor : option string) (k : Time * string) : bool :=
  match cursor with
  | None => true
  | Some c => match t_members t !! c with Some m => older k (mb_AssignedAt m, c) | None => false end
  end.

Definition assignments (t : Tables) (tid : string) (membership identity cursor : option string) : list MembershipAssignmentRecord :=
  merge_sort newest_assignment (omap (fun '(id, m) =>
    if bool_decide (mb_Tenant m = tid) && bool_decide (mb_RemovedAt m = None) && unless_empty membership (mb_Membership m) &&
       unless_empty identity (mb_Identity m) && past_member t cursor (mb_AssignedAt m, id)
    then assignmentRecord t id m else None) (map_to_list (t_members t))).

Definition ListMembershipAssignments (tenantID : string) (f : MembershipAssignmentFilter) : M (list MembershipAssignmentRecord) :=
  with_uuid tenantID (fun tid => opt_uuid (af_MembershipID f) (fun membership => opt_uuid (af_IdentityID f) (fun identity =>
    opt_uuid (af_Cursor f) (fun cursor => ask (fun t => take (Z.to_nat (page_size (af_PageSize f))) (assignments t tid membership identity cursor)))))).

(** *** grant_repository.go *)
Definition grantRecord (id : string) (g : GrantRow) (role : string) : GrantRecord := {|
  gd_ID := id; gd_IdentityID := gr_Identity g; gd_RoleID := gr_Role g; gd_RoleName := role; gd_SelfScoped := gr_SelfScoped g;
  gd_ValidFrom := gr_ValidFrom g; gd_ValidUntil := gr_ValidUntil g; gd_RevokedAt := gr_RevokedAt g; gd_GrantedBy := gr_GrantedBy g;
  gd_ViaMembershipID := default ""%string (gr_ViaMembership g); gd_ViaAssignmentID := default ""%string (gr_ViaMember g);
  gd_Reason := default ""%string (gr_Reason g); gd_RevokeReason := default ""%string (gr_RevokeReason g) |}.

Definition latest_first (a b : Time * GrantRecord) : Prop := (fst b <= fst a)%Z.
#[export] Instance latest_first_dec : RelDecision latest_first := fun a b => Z.le_dec _ _.

Definition ListGrants (tenantID identityID : string) (includeRevoked : bool) : M (list GrantRecord) :=
  with_uuid identityID (fun identity => with_uuid tenantID (fun tid => ask (fun t => map snd (merge_sort latest_first
    (omap (fun '(id, g) =>
       if bool_decide (gr_Identity g = identity) && bool_decide (gr_Tenant g = tid) && (includeRevoked || live g)
       then (fun r => (gr_CreatedAt g, grantRecord id g (ro_Name r))) <$> wo_role w (gr_Role g) else None) (map_to_list (t_grants t))))))).

Fixpoint insert_scopes (id tid : string) (scopes : list GrantScopeInput) : M unit :=
  match scopes with
  | [] => mret tt
  | sc :: r =>
      _ ← with_uuid (si_NodeID sc) (fun node => run MapErr (fun _ =>
            insert_pin w (id, si_Axis sc, node) {| pi_Tenant := tid; pi_Inherit := si_Inherit sc; pi_Exclude := si_Exclude sc |}));
      insert_scopes id tid r
  end.

Definition CreateGrant (i : GrantCreate) : M string :=
  Tx (with_uuid (gc_TenantID i) (fun tid => with_uuid (gc_IdentityID i) (fun identity => with_uuid (gc_RoleID i) (fun role =>
      with_uuid (gc_GrantedBy i) (fun by_ =>
        id ← run MapErr (fun ids => insert_grant w ids {|
               gr_Tenant := tid; gr_Identity := identity; gr_Role := role; gr_GrantedBy := by_; gr_Reason := nullif_empty (gc_Reason i);
               gr_RevokeReason := None; gr_SelfScoped := gc_SelfScoped i; gr_CreatedAt := now; gr_ValidFrom := now;
               gr_ValidUntil := microseconds <$> OptTime (gc_ValidUntil i); gr_RevokedAt := None; gr_ViaMembership := None; gr_ViaEntry := None;
               gr_ViaMember := None |});
        _ ← insert_scopes id tid (gc_Scopes i);
        mret id))))).

(** Whether a row was there is not looked at. *)
Definition RevokeGrant (tenantID id reason : string) : M unit :=
  with_uuid id (fun c => with_uuid tenantID (fun tid => run MapErr (fun _ => change (fun t => with_grants t (alter (fun g =>
    if bool_decide (gr_Tenant g = tid) && live g then revoked now (fun _ => nullif_empty reason) g else g) c (t_grants t)))))).

Definition newest_hit (a b : (Time * string) * GrantHit) : Prop := newest (fst a) (fst b) = true.
#[export] Instance newest_hit_dec : RelDecision newest_hit := fun a b => bool_dec _ true.

Definition past_grant (t : Tables) (cursor : string) (k : Time * string) : bool :=
  bool_decide (cursor = ""%string) || match t_grants t !! cursor with Some g => older k (gr_CreatedAt g, cursor) | None => false end.

Definition matches (t : Tables) (tid : string) (q : GrantSearch) (id : string) (g : GrantRow) (username role : string) : bool :=
  bool_decide (gr_Tenant g = tid) && (gq_IncludeRevoked q || live g) &&
  (bool_decide (gq_IdentityID q = ""%string) || bool_decide (gr_Identity g = gq_IdentityID q)) &&
  (bool_decide (gq_RoleID q = ""%string) || bool_decide (gr_Role g = gq_RoleID q)) &&
  (negb (bool_decide (gq_Source q = "direct"%string)) || bool_decide (gr_ViaMembership g = None)) &&
  (negb (bool_decide (gq_Source q = "membership"%string)) || bool_decide (is_Some (gr_ViaMembership g))) &&
  (bool_decide (gq_Query q = ""%string) || tx_ilike tx (gq_Query q) username || tx_ilike tx (gq_Query q) role) &&
  past_grant t (gq_Cursor q) (gr_CreatedAt g, id).

Definition hits (t : Tables) (tid : string) (q : GrantSearch) : list GrantHit :=
  map snd (merge_sort newest_hit (omap (fun '(id, g) =>
    match wo_role w (gr_Role g), wo_person w (gr_Identity g) with
    | Some r, Some p => if matches t tid q id g (pe_Username p) (ro_Name r)
                        then Some ((gr_CreatedAt g, id), {| gh_Grant := grantRecord id g (ro_Name r); gh_Username := pe_Username p |}) else None
    | _, _ => None
    end) (map_to_list (t_grants t)))).

Definition SearchGrants (tenantID : string) (q : GrantSearch) : M (list GrantHit) :=
  with_uuid tenantID (fun tid => ask (fun t => take (Z.to_nat (page_size (gq_PageSize q))) (hits t tid q))).

Definition CountLiveGrants (tenantID : string) : M Z :=
  with_uuid tenantID (fun tid => ask (fun t =>
    count_rows (fun g => bool_decide (gr_Tenant g = tid) && live g && unended now (gr_ValidUntil g)) (t_grants t))).

End Repository.
End MemberStore.
