(* ===== verification/MemberAdmin.v ===== *)
(** internal/authz/app/admin/authz_admin_interactor.go: the handlers that give
    and take grants one at a time and administer memberships. *)

From Stdlib Require Import ZArith Lia Bool Ascii String.
From stdpp Require Import base gmap strings list sorting pretty.
From S2P Require Import Prelude.
From S2P Require Import GoStrings.
From S2P Require Import GoConv.
From S2P Require Import Shared.
From S2P Require Import AuthStore.
From S2P Require Import AdminGuard.
From S2P Require Import Db.
From S2P Require Import Members.
From S2P Require Import MemberStore.

Module MemberAdmin.
Import Apperr Authctx AdminGuard Db Members MemberStore.

(** What a handler has besides the database: the guard and the caller, the
    caller's address, time.Now(), and a time printed in RFC 3339. *)
Record ACtx := {
  ac_guard : Guard; ac_caller : option Principal; ac_ip : string; ac_clock : Time; ac_rfc3339 : Time -> string
}.

Section App.
Context (env : Env) (w : World) (tx : Text) (ac : ACtx).

Abbreviation M := (Eff (Store Tables) Error).

Definition Require (permission : string) : M Principal := lift (AdminGuard.Require (ac_guard ac) (ac_caller ac) permission).

Definition emit (p : Principal) (action target : string) (detail : gmap string string) : M unit := fun s =>
  (Ok tt, logged s {| AuthStore.au_TenantID := TenantID p; AuthStore.au_ActorID := IdentityID p; AuthStore.au_ActorKind := "identity";
     AuthStore.au_TargetID := target; AuthStore.au_SessionID := SessionID p; AuthStore.au_Action := action; AuthStore.au_Result := "allow";
     AuthStore.au_IP := ac_ip ac; AuthStore.au_Detail := detail |}).

(** fmt.Sprint of a count. *)
Definition show_count (n : Z) : string := pretty n.

(** ** Grants *)
Definition SearchGrants (q : GrantSearch) : M (list GrantHit * list ScopeRecord) :=
  p ← Require "anubis:identity:read";
  hits ← MemberStore.SearchGrants env w tx (TenantID p) q;
  scopes ← GrantScopes env w tx (map (fun h => gd_ID (gh_Grant h)) hits);
  mret (hits, scopes).

Definition ListGrants (identityID : string) (includeRevoked : bool) : M (list GrantRecord * list ScopeRecord) :=
  p ← Require "anubis:identity:read";
  grants ← MemberStore.ListGrants env w (TenantID p) identityID includeRevoked;
  scopes ← GrantScopes env w tx (map gd_ID grants);
  mret (grants, scopes).

Definition CreateGrant (i : GrantCreate) : M string :=
  p ← Require "anubis:grant:admin";
  let i := {| gc_TenantID := TenantID p; gc_IdentityID := gc_IdentityID i; gc_RoleID := gc_RoleID i; gc_GrantedBy := IdentityID p;
              gc_Reason := gc_Reason i; gc_SelfScoped := gc_SelfScoped i; gc_ValidUntil := gc_ValidUntil i; gc_Scopes := gc_Scopes i |} in
  id ← MemberStore.CreateGrant env w i;
  _ ← emit p "grant.create" (gc_IdentityID i) (<["grant_id" := id]> (<["role_id" := gc_RoleID i]> ∅));
  mret id.

Definition RevokeGrant (grantID reason : string) : M unit :=
  p ← Require "anubis:grant:admin";
  _ ← MemberStore.RevokeGrant env (TenantID p) grantID reason;
  emit p "grant.revoke" grantID {["reason" := reason]}.

(** ** Memberships *)
Definition ListMemberships : M (list MembershipRecord * list MembershipEntryRecord * list ScopeRecord) :=
  p ← Require "anubis:membership:admin";
  ms ← MemberStore.ListMemberships env tx (TenantID p);
  entries ← MembershipEntries env w tx (map mr_ID ms);
  scopes ← MembershipEntryScopes env w tx (map er_ID entries);
  mret (ms, entries, scopes).

Definition CreateMembership (name description anchorAxis0 : string) : M MembershipRecord :=
  p ← Require "anubis:membership:admin";
  let anchorAxis := TrimSpace anchorAxis0 in
  id ← MemberStore.CreateMembership env w (TenantID p) name description anchorAxis;
  _ ← emit p "membership.create" id
        (if bool_decide (anchorAxis = ""%string) then {["name" := name]}
         else <["applies_where_assigned_in" := anchorAxis]> {["name" := name]});
  mret {| mr_ID := id; mr_Name := name; mr_Description := description; mr_AnchorAxis := anchorAxis; mr_MemberCount := 0 |}.

Definition membershipInTenant (tenantID membershipID : string) : M MembershipRecord :=
  if bool_decide (TrimSpace membershipID = ""%string) then raise (With ErrInvalidArgument "membership_id" "required")
  else MembershipByID env tenantID membershipID.

Definition names_anchor (anchor : string) (entries : list MembershipEntryInput) : bool :=
  existsb (fun e => existsb (fun sc => bool_decide (si_Axis sc = anchor)) (ei_Scopes e)) entries.

Definition SetMembershipEntries (membershipID : string) (entries : list MembershipEntryInput) : M Z :=
  p ← Require "anubis:membership:admin";
  m ← membershipInTenant (TenantID p) membershipID;
  if negb (bool_decide (mr_AnchorAxis m = ""%string)) && names_anchor (mr_AnchorAxis m) entries
  then raise (With ErrInvalidArgument "scopes" ("this membership applies where each member is assigned in " ++ mr_AnchorAxis m ++
                                                ", so its roles may not name places there themselves"))
  else
    changed ← Tx env (
      _ ← ReplaceMembershipEntries env w tx (TenantID p) membershipID entries;
      MemberStore.ResyncMembership env w membershipID);
    _ ← emit p "membership.set_entries" membershipID {["changed" := show_count changed]};
    mret changed.

Definition maxAssignmentReason : nat := 500.

Definition assignment_refusal (anchor : string) (i : MembershipAssignmentInput) : option Error :=
  if bool_decide (TrimSpace (ai_IdentityID i) = ""%string) then Some (With ErrInvalidArgument "identity_id" "required")
  else if negb (bool_decide (anchor = ""%string)) && bool_decide (ai_NodeID i = ""%string)
  then Some (With ErrInvalidArgument "scope_node_id" ("this membership applies where each member is assigned: choose a place in " ++ anchor))
  else if bool_decide (anchor = ""%string) && negb (bool_decide (ai_NodeID i = ""%string))
  then Some (With ErrInvalidArgument "scope_node_id" "this membership gives every member the same places; an assignment names no place of its own")
  else if match ai_ValidUntil i with Some u => negb (time_after u (ac_clock ac)) | None => false end
  then Some (With ErrInvalidArgument "valid_until" "must be in the future")
  else if (maxAssignmentReason <? Utf8.RuneCountInString (ai_Reason i))%nat
  then Some (With ErrInvalidArgument "reason" ("at most " ++ pretty (Z.of_nat maxAssignmentReason) ++ " characters"))
  else None.

Definition assign_detail (i : MembershipAssignmentInput) (assignment : string) : gmap string string :=
  let d := <["membership_id" := ai_MembershipID i]> {["assignment_id" := assignment]} : gmap string string in
  let d := if bool_decide (ai_NodeID i = ""%string) then d
           else let d := <["place" := ai_NodeID i]> d in if ai_Exact i then <["exact" := "true"]> d else d in
  match ai_ValidUntil i with Some u => <["valid_until" := ac_rfc3339 ac u]> d | None => d end.

Definition AssignMembership (i0 : MembershipAssignmentInput) : M MembershipAssignOutcome :=
  p ← Require "anubis:grant:admin";
  m ← membershipInTenant (TenantID p) (ai_MembershipID i0);
  let i := {| ai_MembershipID := ai_MembershipID i0; ai_IdentityID := ai_IdentityID i0; ai_NodeID := TrimSpace (ai_NodeID i0);
              ai_Exact := ai_Exact i0; ai_ValidUntil := ai_ValidUntil i0; ai_Reason := TrimSpace (ai_Reason i0) |} in
  match assignment_refusal (mr_AnchorAxis m) i with
  | Some e => raise e
  | None =>
      out ← MemberStore.AssignMembership env w i (IdentityID p);
      _ ← (if bool_decide (ao_AssignmentID out = ""%string) then mret tt
           else emit p "membership.assign" (ai_IdentityID i) (assign_detail i (ao_AssignmentID out)));
      mret out
  end.

Definition UnassignMembership (membershipID identityID reason : string) : M Z :=
  p ← Require "anubis:grant:admin";
  _ ← membershipInTenant (TenantID p) membershipID;
  n ← MemberStore.UnassignMembership env identityID membershipID (IdentityID p) (TrimSpace reason);
  _ ← emit p "membership.unassign" identityID {["membership_id" := membershipID]};
  mret n.

Definition RemoveMembershipAssignment (assignmentID reason : string) : M Z :=
  p ← Require "anubis:grant:admin";
  if bool_decide (TrimSpace assignmentID = ""%string) then raise (With ErrInvalidArgument "assignment_id" "required")
  else
    n ← LeaveMembership env (TenantID p) assignmentID (IdentityID p) (TrimSpace reason);
    _ ← emit p "membership.leave" assignmentID {["grants_revoked" := show_count n]};
    mret n.

Definition ResyncMembership (membershipID : string) : M Z :=
  p ← Require "anubis:membership:admin";
  _ ← membershipInTenant (TenantID p) membershipID;
  n ← MemberStore.ResyncMembership env w membershipID;
  _ ← emit p "membership.resync" membershipID ∅;
  mret n.

Definition ListMembershipAssignments (f0 : MembershipAssignmentFilter) : M (list MembershipAssignmentRecord * string) :=
  p ← Require "anubis:identity:read";
  let f := if (af_PageSize f0 <=? 0)%Z || (200 <? af_PageSize f0)%Z
           then {| af_MembershipID := af_MembershipID f0; af_IdentityID := af_IdentityID f0; af_Cursor := af_Cursor f0; af_PageSize := 50 |}
           else f0 in
  page ← MemberStore.ListMembershipAssignments env w (TenantID p) f;
  mret (page, match last page with
              | Some r => if (Z.of_nat (length page) =? af_PageSize f)%Z then ar_ID r else ""%string
              | None => ""%string
              end).

End App.
End MemberAdmin.
