(* ===== verification/MemberProps.v ===== *)
(** What holds of the tables of grants and memberships, and what the functions
    over memberships do to it. *)

From Stdlib Require Import ZArith Lia Bool Ascii String.
From stdpp Require Import base gmap strings list sorting.
From S2P Require Import Prelude.
From S2P Require Import GoStrings.
From S2P Require Import Shared.
From S2P Require Import ScopeTree.
From S2P Require Import TreeProps.
From S2P Require Import Db.
From S2P Require Import Members.

(** * What the tables of grants and memberships keep, whoever writes them: every
    grant that came from a membership says what its assignment and its entry
    say, a pair of them gives one live grant at most, and nobody who has left
    holds one. *)
Module MemberProps.
Import Pg Db Members.
Import ScopeTree (some_row, find_row, quoted, first_of).
Import Links (some_row_true, some_row_false).

(** ** The invariant *)

Definition seat_pin (m : MemberRow) : list (string * string * PinRow) :=
  match mb_Node m with
  | Some n => [(default ""%string (mb_Axis m), n, {| pi_Tenant := mb_Tenant m; pi_Inherit := mb_Inherit m; pi_Exclude := false |})]
  | None => []
  end.
(** What an entry gives a member: its places, and the member's seat. *)
Definition given (t : Tables) (entry : string) (m : MemberRow) : list (string * string * PinRow) := places_of t entry ++ seat_pin m.

Definition derived_from (t : Tables) (id : string) (g : GrantRow) (member : string) : Prop :=
  exists m e er, t_members t !! member = Some m /\ gr_ViaEntry g = Some e /\ t_entries t !! e = Some er /\
    en_Membership er = mb_Membership m /\ gr_ViaMembership g = Some (mb_Membership m) /\ gr_Role g = en_Role er /\
    gr_Identity g = mb_Identity m /\ gr_Tenant g = mb_Tenant m /\ gr_ValidUntil g = mb_ValidUntil m /\ gr_SelfScoped g = false /\
    forall a n p, t_pins t !! (id, a, n) = Some p <-> (a, n, p) ∈ given t e m.

Definition places_ok (t : Tables) : Prop := forall e a n p, t_places t !! (e, a, n) = Some p ->
  exists er ms, t_entries t !! e = Some er /\ en_Tenant er = pi_Tenant p /\ t_memberships t !! en_Membership er = Some ms /\ ms_Anchor ms <> Some a.
Definition entries_ok (t : Tables) : Prop := forall e er, t_entries t !! e = Some er ->
  exists ms, t_memberships t !! en_Membership er = Some ms /\ ms_Tenant ms = en_Tenant er.
(** A seat where the membership has them, and none where it does not. *)
Definition seated (ms : MembershipRow) (m : MemberRow) : Prop :=
  match ms_Anchor ms with Some a => mb_Axis m = Some a /\ is_Some (mb_Node m) | None => mb_Axis m = None /\ mb_Node m = None end.
Definition members_ok (t : Tables) : Prop := forall id m, t_members t !! id = Some m ->
  exists ms, t_memberships t !! mb_Membership m = Some ms /\ ms_Tenant ms = mb_Tenant m /\ seated ms m.
Definition pins_ok (t : Tables) : Prop := forall g a n p, t_pins t !! (g, a, n) = Some p ->
  exists gr, t_grants t !! g = Some gr /\ gr_Tenant gr = pi_Tenant p.
Definition via_ok (t : Tables) : Prop := forall id g m, t_grants t !! id = Some g -> gr_ViaMembership g = Some m ->
  exists ms, t_memberships t !! m = Some ms /\ ms_Tenant ms = gr_Tenant g.
Definition derived_ok (t : Tables) : Prop := forall id g m, t_grants t !! id = Some g -> gr_ViaMember g = Some m -> derived_from t id g m.
Definition once (t : Tables) : Prop := forall i j g h e m,
  t_grants t !! i = Some g -> t_grants t !! j = Some h -> gr_ViaEntry g = Some e -> gr_ViaEntry h = Some e ->
  gr_ViaMember g = Some m -> gr_ViaMember h = Some m -> live g = true -> live h = true -> i = j.
(** A live grant of an assignment that has ended ran out before it did. *)
Definition ended (t : Tables) : Prop := forall id g m mr at_,
  t_grants t !! id = Some g -> gr_ViaMember g = Some m -> live g = true -> t_members t !! m = Some mr -> mb_RemovedAt mr = Some at_ ->
  exists u, gr_ValidUntil g = Some u /\ (u <= at_)%Z.
Definition seats (t : Tables) : Prop := forall i j m m',
  t_members t !! i = Some m -> t_members t !! j = Some m' ->
  same_seat (mb_Membership m) (mb_Identity m) (mb_Node m) m' = true -> mb_RemovedAt m = None -> i = j.
Definition backed (t : Tables) : Prop :=
  (forall g a n p, t_pins t !! (g, a, n) = Some p -> pi_Exclude p = true -> is_include (t_pins t) g a = true \/ GrantExcludes g a ∈ t_deferred t) /\
  (forall e a n p, t_places t !! (e, a, n) = Some p -> pi_Exclude p = true -> is_include (t_places t) e a = true \/ EntryExcludes e a ∈ t_deferred t).

Record Whole (t : Tables) : Prop := {
  wh_places : places_ok t; wh_entries : entries_ok t; wh_members : members_ok t; wh_pins : pins_ok t; wh_via : via_ok t;
  wh_derived : derived_ok t; wh_once : once t; wh_ended : ended t; wh_seats : seats t; wh_backed : backed t
}.

(** Between transactions nothing waits. *)
Definition AtRest (t : Tables) : Prop := t_deferred t = [].

(** ** Lookups *)
Lemma places_of_spec t e a n p : (a, n, p) ∈ places_of t e <-> t_places t !! (e, a, n) = Some p.
Proof.
  unfold places_of. rewrite list_elem_of_omap. split.
  - intros ([[[e' a'] n'] p'] & Hin%elem_of_map_to_list & H). case_bool_decide; [|done]. simplify_eq. done.
  - intros H. exists ((e, a, n), p). split; [by apply elem_of_map_to_list|]. by rewrite bool_decide_true.
Qed.

Lemma is_include_spec m o a : is_include m o a = true <-> exists n p, m !! (o, a, n) = Some p /\ pi_Exclude p = false.
Proof.
  unfold is_include. rewrite some_row_true. split.
  - intros ([[o' a'] n] & p & Hk & Hb). unbool. subst. by exists n, p.
  - intros (n & p & Hk & Hb). exists (o, a, n), p. split; [done|]. by rewrite !bool_decide_true, Hb.
Qed.

Lemma first_of_None l : first_of l = None <-> forall x, x ∈ l -> x = None.
Proof.
  induction l as [|[e|] l IH]; cbn.
  - split; [by intros _ x ?%not_elem_of_nil|done].
  - split; [done|]. intros H. by specialize (H (Some e) ltac:(by left)).
  - rewrite IH. split; intros H x; [intros [->|]%elem_of_cons; auto|intros Hx; apply H; by right].
Qed.

(** ** The end of a transaction *)
Lemma whole_settles t : Whole t -> settle t = None -> Whole (settled t) /\ AtRest (settled t).
Proof.
  intros [? ? ? ? ? Hd ? ? ? [Hb1 Hb2]] Hs. split; [|done]. unfold settle in Hs. rewrite first_of_None in Hs.
  assert (forall d, d ∈ t_deferred t -> needs_include t d = None) as Hn by (intros d Hin; apply Hs, list_elem_of_fmap; by exists d).
  split; try done. split; cbn.
  - intros g a n p Hp Hx. left. destruct (Hb1 g a n p Hp Hx) as [|Hq%Hn]; [done|]. cbn in Hq. by destruct (is_include _ _ _).
  - intros e a n p Hp Hx. left. destruct (Hb2 e a n p Hp Hx) as [|Hq%Hn]; [done|]. cbn in Hq. by destruct (is_include _ _ _).
Qed.

(** ** Grants taken back *)

(** The same grant, with less life. *)
Definition lessened (g g' : GrantRow) : Prop :=
  gr_Tenant g' = gr_Tenant g /\ gr_Identity g' = gr_Identity g /\ gr_Role g' = gr_Role g /\ gr_SelfScoped g' = gr_SelfScoped g /\
  gr_ValidUntil g' = gr_ValidUntil g /\ gr_ViaMembership g' = gr_ViaMembership g /\ gr_ViaEntry g' = gr_ViaEntry g /\
  gr_ViaMember g' = gr_ViaMember g /\ (live g' = true -> live g = true).
Lemma lessened_refl g : lessened g g.
Proof. by repeat split. Qed.
Lemma lessened_revoked now r g : lessened g (revoked now r g).
Proof. by repeat split. Qed.

Lemma whole_lessen t G : Whole t -> (forall id, option_Forall2 lessened (t_grants t !! id) (G !! id)) -> Whole (with_grants t G).
Proof.
  intros [? ? ? Hpin Hvia Hder Honce Hend ? ?] HG.
  assert (forall id g', G !! id = Some g' -> exists g, t_grants t !! id = Some g /\ lessened g g') as Hback.
  { intros id g' H. specialize (HG id). rewrite H in HG. inversion HG; subst. by eexists. }
  split; try done; unfold pins_ok, via_ok, derived_ok, once, ended, derived_from, given; cbn.
  - intros g a n p Hp. destruct (Hpin _ _ _ _ Hp) as (gr & Hg & Ht). specialize (HG g). rewrite Hg in HG. inversion HG as [? g' Hl E1 E2|]; subst.
    exists g'. split; [done|]. by destruct Hl as (-> & _).
  - intros id g' m Hg Hm. destruct (Hback _ _ Hg) as (g & Hg0 & Hl). destruct Hl as (Ht & _ & _ & _ & _ & Hv & _).
    rewrite Hv in Hm. rewrite Ht. by eapply Hvia.
  - intros id g' m Hg Hm. destruct (Hback _ _ Hg) as (g & Hg0 & Ht & Hi & Hr & Hs & Hu & Hvm & Hve & Hvb & _). rewrite Hvb in Hm.
    destruct (Hder _ _ _ Hg0 Hm) as (mr & e & er & ? & ? & ? & ? & ? & ? & ? & ? & ? & ? & ?). exists mr, e, er. by rewrite Ht, Hi, Hr, Hs, Hu, Hvm, Hve.
  - intros i j g' h' e m Hi Hj He He' Hm Hm' Hl Hl'. destruct (Hback _ _ Hi) as (g & Hg & _ & _ & _ & _ & _ & _ & E1 & E2 & L1).
    destruct (Hback _ _ Hj) as (h & Hh & _ & _ & _ & _ & _ & _ & E3 & E4 & L2). rewrite E1 in He. rewrite E2 in Hm. rewrite E3 in He'. rewrite E4 in Hm'.
    eapply (Honce i j g h); eauto.
  - intros id g' m mr at_ Hg Hm Hl Hmr Hat. destruct (Hback _ _ Hg) as (g & Hg0 & _ & _ & _ & _ & Hu & _ & _ & Hvb & L). rewrite Hvb in Hm. rewrite Hu.
    eapply Hend; eauto.
Qed.

Definition revoke_rows (now : Time) (p : GrantRow -> bool) (reason : option string -> option string) (G : gmap string GrantRow) : gmap string GrantRow :=
  (fun g => if p g && live g then revoked now reason g else g) <$> G.

Lemma revoke_where_is now p r t n k t' n' : revoke_where now p r (t, n) = (Ok k, (t', n')) ->
  t' = with_grants t (revoke_rows now p r (t_grants t)) /\ k = count_rows (fun g => p g && live g) (t_grants t).
Proof. unfold revoke_where. by intros [= <- <- <-]. Qed.

Lemma whole_revoke now p r t : Whole t -> Whole (with_grants t (revoke_rows now p r (t_grants t))).
Proof.
  intros Hw. apply whole_lessen; [done|]. intros id. unfold revoke_rows. rewrite lookup_fmap. destruct (t_grants t !! id) as [g|]; cbn; constructor.
  destruct (_ && _); [apply lessened_revoked|apply lessened_refl].
Qed.

Lemma revoke_rows_lookup now p r G id g : revoke_rows now p r G !! id = Some g <->
  exists g0, G !! id = Some g0 /\ g = if p g0 && live g0 then revoked now r g0 else g0.
Proof.
  unfold revoke_rows. rewrite lookup_fmap, fmap_Some. split; intros (g0 & ? & ?); exists g0; by split.
Qed.

(** Nothing live is left of what was taken back. *)
Lemma revoke_rows_live now p r G id g : (forall g0, p (revoked now r g0) = p g0) ->
  revoke_rows now p r G !! id = Some g -> live g = true -> p g = false /\ G !! id = Some g.
Proof.
  intros Hp (g0 & Hg & ->)%revoke_rows_lookup. destruct (p g0) eqn:E; cbn; [|by split].
  destruct (live g0) eqn:El; cbn; [done|]. by rewrite El.
Qed.

(** ** Assignments ended *)
Definition remove_rows (now : Time) (p : string -> MemberRow -> bool) (by_ : string) (M : gmap string MemberRow) : gmap string MemberRow :=
  map_imap (fun id m => Some (if p id m && bool_decide (mb_RemovedAt m = None) then removed now by_ m else m)) M.

Lemma remove_rows_lookup now p b M id m : remove_rows now p b M !! id = Some m <->
  exists m0, M !! id = Some m0 /\ m = if p id m0 && bool_decide (mb_RemovedAt m0 = None) then removed now b m0 else m0.
Proof.
  unfold remove_rows. rewrite map_lookup_imap. destruct (M !! id) as [m0|]; cbn; split; [|by intros (? & [= <-] & ->)|done|by intros (? & [=] & _)].
  intros [= <-]. by exists m0.
Qed.

Lemma whole_remove now p b t : Whole t ->
  (forall id g m mr, t_grants t !! id = Some g -> gr_ViaMember g = Some m -> live g = true -> t_members t !! m = Some mr -> p m mr = true ->
     mb_RemovedAt mr = None -> lapsed now mr = true) ->
  Whole (with_members t (remove_rows now p b (t_members t))).
Proof.
  intros [? ? Hmem ? ? Hder ? Hend Hseats ?] Hp.
  split; try done; unfold members_ok, derived_ok, ended, seats, derived_from, given; cbn.
  - intros id m (m0 & Hm & ->)%remove_rows_lookup. destruct (Hmem _ _ Hm) as (ms & ? & ? & ?). exists ms. by destruct (_ && _).
  - intros id g m Hg Hm. destruct (Hder _ _ _ Hg Hm) as (mr & e & er & Hmr & H). exists (if p m mr && bool_decide (mb_RemovedAt mr = None) then removed now b mr else mr), e, er.
    split; [apply remove_rows_lookup; by exists mr|]. unfold given in H. by destruct (_ && _).
  - intros id g m mr at_ Hg Hm Hl (m0 & Hm0 & ->)%remove_rows_lookup Hat. destruct (p m m0 && bool_decide (mb_RemovedAt m0 = None)) eqn:E; [|by eapply Hend].
    unbool. pose proof (Hp _ _ _ _ Hg Hm Hl Hm0 ltac:(done) ltac:(done)) as Hlap. unfold lapsed in Hlap. cbn in Hat. injection Hat as <-.
    destruct (Hder _ _ _ Hg Hm) as (m1 & e & er & Hm1 & _ & _ & _ & _ & _ & _ & _ & Hu & _). rewrite Hm0 in Hm1. injection Hm1 as <-. rewrite Hu.
    destruct (mb_ValidUntil m0) as [u|]; [|done]. unbool. by exists u.
  - intros i j m m' (m0 & Hm & ->)%remove_rows_lookup (m0' & Hm' & ->)%remove_rows_lookup Hs Hr.
    destruct (p i m0 && bool_decide (mb_RemovedAt m0 = None)); [done|].
    destruct (p j m0' && bool_decide (mb_RemovedAt m0' = None)) eqn:E.
    + unfold same_seat in Hs. cbn in Hs. by rewrite andb_false_r in Hs.
    + by eapply Hseats.
Qed.

(** ** A grant made of an assignment and an entry *)
Definition put_pin (g : string) (m : gmap PinKey PinRow) (r : string * string * PinRow) : gmap PinKey PinRow := <[(g, fst (fst r), snd (fst r)) := snd r]> m.
Definition put_pins (g : string) (l : list (string * string * PinRow)) (m : gmap PinKey PinRow) : gmap PinKey PinRow := foldl (put_pin g) m l.
Definition waiting (g : string) (l : list (string * string * PinRow)) : list Deferred :=
  omap (fun '(a, _, p) => if pi_Exclude p then Some (GrantExcludes g a) else None) l.

Definition pinned (t : Tables) (g : string) (l : list (string * string * PinRow)) : Tables := {|
  t_grants := t_grants t; t_pins := put_pins g l (t_pins t); t_memberships := t_memberships t; t_entries := t_entries t; t_places := t_places t;
  t_members := t_members t; t_deferred := t_deferred t ++ waiting g l |}.

Definition with_grant (t : Tables) (id : string) (g : GrantRow) : Tables := with_grants t (<[id := g]> (t_grants t)).

Lemma pinned_app t g l l' : pinned (pinned t g l) g l' = pinned t g (l ++ l').
Proof. unfold pinned, put_pins, waiting. cbn. f_equal; [by rewrite foldl_app|]. by rewrite omap_app, app_assoc. Qed.

Lemma insert_pin_is w t n g a x p u t' n' : insert_pin w (g, a, x) p (t, n) = (Ok u, (t', n')) ->
  pin_checks w t (g, a, x) p = None /\ t' = pinned t g [(a, x, p)] /\ n' = n.
Proof.
  unfold insert_pin, must, change, mbind, eff_bind. cbn -[pin_checks]. destruct (pin_checks w t _ p) eqn:?; [done|].
  unfold pinned, put_pins, waiting, put_pin. cbn.
  destruct (pi_Exclude p); intros [= <- <- <-]; (split; [done|]); (split; [|done]); [done|]. unfold with_pins. by rewrite app_nil_r.
Qed.

Lemma pinned_grants t g l : t_grants (pinned t g l) = t_grants t.
Proof. done. Qed.

Lemma insert_pins_are w g l : forall t n u t' n', loop (fun '(a, x, p) => insert_pin w (g, a, x) p) l (t, n) = (Ok u, (t', n')) ->
  t' = pinned t g l /\ n' = n /\ forall r, r ∈ l -> grant_of t g (pi_Tenant (snd r)) = true.
Proof.
  induction l as [|[[a x] p] l IH]; intros t n u t' n' H.
  - injection H as <- <- <-. split; [|split; [done|by intros r ?%not_elem_of_nil]]. unfold pinned, waiting. cbn. rewrite app_nil_r. by destruct t.
  - cbn [loop] in H. apply bind_ok in H as ([] & [t1 n1] & H1 & H2). apply insert_pin_is in H1 as (Hc & -> & ->).
    destruct (IH _ _ _ _ _ H2) as (-> & -> & Hg). rewrite pinned_app. split; [done|]. split; [done|].
    intros r [->|Hr]%elem_of_cons; [|by apply (Hg r)]. unfold pin_checks in Hc. destruct (bool_decide _); [done|].
    rewrite first_of_None in Hc. specialize (Hc _ (list_elem_of_here _ _)). cbn. by destruct (grant_of _ _ _).
Qed.

Lemma insert_grant_is w ids g t n id t' n' : insert_grant w ids g (t, n) = (Ok id, (t', n')) ->
  grant_checks w t id g = None /\ t_grants t !! id = None /\ t' = with_grant t id g /\ id = ids n.
Proof.
  unfold insert_grant, fresh, must, change, mbind, eff_bind. cbn. destruct (grant_checks w t (ids n) g) eqn:E; [done|].
  intros [= <- <- <-]. split; [done|]. split; [|done]. unfold grant_checks in E. destruct (match gr_ValidUntil g with Some _ => _ | None => _ end); [done|].
  destruct (bool_decide (is_Some _)) eqn:Eb; [done|]. unbool. by destruct (t_grants t !! ids n) eqn:?; [destruct Eb; eexists|].
Qed.

Lemma grant_checks_fkeys w t id g : grant_checks w t id g = None ->
  grant_fkeys w t g = None /\ realm_guard w g = None /\ role_live w g = None.
Proof.
  unfold grant_checks. destruct (match gr_ValidUntil g with Some _ => _ | None => _ end); [done|]. destruct (bool_decide _); [done|].
  rewrite first_of_None. intros H. split; [|split]; apply H; set_solver.
Qed.

Lemma materialize_is now w ids member entry t n g t' n' : membership_materialize now w ids member entry (t, n) = (Ok g, (t', n')) ->
  exists m e, t_members t !! member = Some m /\ t_entries t !! entry = Some e /\ t_grants t !! g = None /\
    grant_checks w t g (derived now member entry m e) = None /\
    t' = pinned (with_grant t g (derived now member entry m e)) g (given t entry m) /\
    (forall r, r ∈ given t entry m -> pi_Tenant (snd r) = mb_Tenant m) /\ g = ids n.
Proof.
  unfold membership_materialize. intros H. apply bind_ok in H as ([om oe] & [t0 n0] & [= <- <- <- <-] & H).
  destruct (t_members t !! member) as [m|]; [|done]. destruct (t_entries t !! entry) as [e|]; [|done]. cbn [fst] in H.
  apply bind_ok in H as (g' & [t1 n1] & H1 & H). apply insert_grant_is in H1 as (Hc & Hg & -> & Hid).
  apply bind_ok in H as (places & [t2 n2] & [= <- <- <-] & H). apply bind_ok in H as ([] & [t3 n3] & H3 & H).
  apply insert_pins_are in H3 as (-> & -> & Ht3). apply bind_ok in H as ([] & [t4 n4] & H4 & [= -> -> ->]).
  assert (places_of (with_grant t g (derived now member entry m e)) entry = places_of t entry) as Hpl by done. rewrite Hpl in H4, Ht3.
  assert (forall r, r ∈ places_of t entry -> pi_Tenant (snd r) = mb_Tenant m) as Htn.
  { intros r Hr. specialize (Ht3 r Hr). unfold grant_of, with_grant in Ht3. cbn in Ht3. rewrite lookup_insert_eq in Ht3. cbn in Ht3. by unbool. }
  exists m, e. do 4 (split; [done|]). unfold given, seat_pin.
  destruct (mb_Node m) as [x|].
  - apply insert_pin_is in H4 as (_ & -> & _). rewrite pinned_app. split; [done|]. split; [|done].
    intros r [Hr| ->%list_elem_of_singleton]%elem_of_app; [by apply Htn|done].
  - injection H4 as <- _. rewrite app_nil_r. by split.
Qed.

(** *** What the picks are afterwards *)
Lemma put_pins_other g l : forall m o a x, o <> g -> put_pins g l m !! (o, a, x) = m !! (o, a, x).
Proof.
  induction l as [|[[a' x'] p'] l IH]; intros m o a x Ho; [done|].
  change (put_pins g ((a', x', p') :: l) m) with (put_pins g l (put_pin g m (a', x', p'))). rewrite IH by done. unfold put_pin. cbn.
  rewrite lookup_insert_ne; [done|]. congruence.
Qed.

Lemma put_pins_own g l : forall m, NoDup (map fst l) -> (forall a x, m !! (g, a, x) = None) ->
  forall a x p, put_pins g l m !! (g, a, x) = Some p <-> (a, x, p) ∈ l.
Proof.
  induction l as [|[[a' x'] p'] l IH] using rev_ind; intros m Hnd Hm a x p.
  - cbn. rewrite Hm. split; [done|by intros ?%not_elem_of_nil].
  - rewrite map_app in Hnd. apply NoDup_snoc in Hnd as [Hnd Hni]. unfold put_pins. rewrite foldl_app. cbn. unfold put_pin at 1. cbn.
    rewrite elem_of_app, list_elem_of_singleton. destruct (decide ((a', x') = (a, x))) as [[= -> ->]|Hne].
    + rewrite lookup_insert_eq. split; [intros [= ->]; by right|]. intros [Hin|[= ->]]; [|done].
      destruct Hni. by apply (list_elem_of_fmap_2 fst) in Hin.
    + rewrite lookup_insert_ne by congruence. rewrite (IH m Hnd Hm). split; [by left|]. intros [?|[= -> -> _]]; done.
Qed.

Lemma given_NoDup t e m er ms : Whole t -> t_entries t !! e = Some er -> en_Membership er = mb_Membership m ->
  t_memberships t !! mb_Membership m = Some ms -> seated ms m -> NoDup (map fst (given t e m)).
Proof.
  intros Hw He Hem Hms Hseat. unfold given. rewrite map_app. apply NoDup_app. split; [|split].
  - unfold places_of. assert (forall l : list (PinKey * PinRow), NoDup (map fst l) ->
      NoDup (map fst (omap (fun '((e', a, x), p) => if bool_decide (e' = e) then Some (a, x, p) else None) l))) as G; [|apply G, NoDup_fst_map_to_list].
    induction l as [|[[[e' a] x] p] l IH]; intros Hnd; [constructor|]. apply NoDup_cons in Hnd as [Hni Hnd]. cbn. case_bool_decide as He'; [|by apply IH].
    cbn. apply NoDup_cons. split; [|by apply IH]. intros ([[a1 x1] p1] & [= -> ->] & Hin)%list_elem_of_fmap.
    apply list_elem_of_omap in Hin as ([[[e2 a2] x2] p2] & Hin & Hx). case_bool_decide; [|done]. simplify_eq.
    apply Hni. by apply (list_elem_of_fmap_2 fst) in Hin.
  - intros [a x] ([[a1 x1] p1] & [= -> ->] & Hin%places_of_spec)%list_elem_of_fmap Hs. unfold seat_pin in Hs.
    destruct (mb_Node m) as [n|] eqn:En; [|by apply not_elem_of_nil in Hs]. apply list_elem_of_singleton in Hs. injection Hs as -> ->.
    destruct (wh_places t Hw _ _ _ _ Hin) as (er' & ms' & He' & _ & Hms' & Hna). rewrite He in He'. injection He' as <-. rewrite Hem, Hms in Hms'. injection Hms' as <-.
    unfold seated in Hseat. destruct (ms_Anchor ms) as [c|]; [|destruct Hseat as [_ Hn]; congruence]. destruct Hseat as [Hax _]. rewrite Hax in Hna. done.
  - unfold seat_pin. destruct (mb_Node m); [apply NoDup_singleton|constructor].
Qed.

Lemma gives_false t e m : gives t e m = false <->
  forall id g, t_grants t !! id = Some g -> gr_ViaEntry g = Some e -> gr_ViaMember g = Some m -> live g = true -> False.
Proof.
  unfold gives. rewrite some_row_false. split.
  - intros H id g Hg He Hm Hl. specialize (H _ _ Hg). by rewrite !bool_decide_true, Hl in H.
  - intros H id g Hg. destruct (_ && _) eqn:E; [|done]. unbool. exfalso. by eapply H.
Qed.

Lemma gives_true t e m : gives t e m = true <->
  exists id g, t_grants t !! id = Some g /\ gr_ViaEntry g = Some e /\ gr_ViaMember g = Some m /\ live g = true.
Proof.
  unfold gives. rewrite some_row_true. split; intros (id & g & Hg & H).
  - unbool. by exists id, g.
  - exists id, g. split; [done|]. destruct H as (? & ? & ->). by rewrite !bool_decide_true.
Qed.

Lemma is_include_mono (m m' : gmap PinKey PinRow) o a :
  (forall n p, m !! (o, a, n) = Some p -> m' !! (o, a, n) = Some p) -> is_include m o a = true -> is_include m' o a = true.
Proof. intros H. rewrite !is_include_spec. intros (n & p & Hk & Hx). exists n, p. auto. Qed.

Section Materialized.
Context (t : Tables) (now : Time) (g member entry : string) (m : MemberRow) (e : EntryRow).
Hypothesis Hw : Whole t.
Hypothesis Hm : t_members t !! member = Some m.
Hypothesis He : t_entries t !! entry = Some e.
Hypothesis Hem : en_Membership e = mb_Membership m.
Hypothesis Hg : t_grants t !! g = None.

Let t' := pinned (with_grant t g (derived now member entry m e)) g (given t entry m).

Lemma no_pins_before a x : t_pins t !! (g, a, x) = None.
Proof using Hw Hg.
  destruct (t_pins t !! (g, a, x)) as [p|] eqn:E; [|done]. destruct (wh_pins t Hw _ _ _ _ E) as (gr & Hgr & _). congruence.
Qed.

Lemma own_pins a x p : t_pins t' !! (g, a, x) = Some p <-> (a, x, p) ∈ given t entry m.
Proof using Hw Hm He Hem Hg.
  apply put_pins_own; [|intros; apply no_pins_before]. destruct (wh_members t Hw _ _ Hm) as (ms & Hms & _ & Hs). by eapply given_NoDup.
Qed.
Lemma other_pins o a x : o <> g -> t_pins t' !! (o, a, x) = t_pins t !! (o, a, x).
Proof using. apply put_pins_other. Qed.
Lemma other_grants o : o <> g -> t_grants t' !! o = t_grants t !! o.
Proof using. intros H. cbn. by rewrite lookup_insert_ne. Qed.
Lemma own_grant : t_grants t' !! g = Some (derived now member entry m e).
Proof using. cbn. by rewrite lookup_insert_eq. Qed.

Lemma derived_materialized id gr mb : t_grants t' !! id = Some gr -> gr_ViaMember gr = Some mb -> derived_from t' id gr mb.
Proof using Hw Hm He Hem Hg.
  intros Hgr Hmb. destruct (decide (id = g)) as [->|Hne].
  - rewrite own_grant in Hgr. injection Hgr as <-. injection Hmb as <-. exists m, entry, e. do 10 (split; [done|]). intros a x p. by rewrite own_pins.
  - rewrite other_grants in Hgr by done. destruct (wh_derived t Hw _ _ _ Hgr Hmb) as (mr & en & er & H1 & H2 & H3 & H4 & H5 & H6 & H7 & H8 & H9 & H10 & H11).
    exists mr, en, er. do 10 (split; [done|]). intros a x p. rewrite other_pins by done. by rewrite H11.
Qed.

Lemma backed_materialized : backed t'.
Proof using Hw Hm He Hem Hg.
  destruct (wh_backed t Hw) as [Hb1 Hb2]. split; cbn; intros o a x p Hp Hx.
  - destruct (decide (o = g)) as [->|Hne].
    + right. apply elem_of_app. right. apply own_pins in Hp. apply list_elem_of_omap. exists (a, x, p). split; [done|]. by rewrite Hx.
    + change (put_pins g _ (t_pins t) !! (o, a, x)) with (t_pins t' !! (o, a, x)) in Hp. rewrite other_pins in Hp by done.
      destruct (Hb1 _ _ _ _ Hp Hx) as [Hi|Hd]; [left|right; set_solver]. eapply is_include_mono; [|exact Hi].
      intros n q Hq. change (t_pins t' !! (o, a, n) = Some q). by rewrite other_pins.
  - destruct (Hb2 _ _ _ _ Hp Hx); [by left|right; set_solver].
Qed.

Hypothesis Hr : mb_RemovedAt m = None.
Hypothesis Hno : gives t entry member = false.
Hypothesis Htn : forall r, r ∈ given t entry m -> pi_Tenant (snd r) = mb_Tenant m.

Lemma whole_materialized : Whole t'.
Proof using Hw Hm He Hem Hg Hr Hno Htn.
  pose proof (wh_members t Hw _ _ Hm) as (ms & Hms & Hmt & Hs).
  split; try apply Hw; try apply backed_materialized; try (by intros ? ? ?; apply derived_materialized).
  - intros o a x p Hp. destruct (decide (o = g)) as [->|Hne].
    + rewrite own_grant. apply own_pins, Htn in Hp. eexists. split; [done|]. cbn in Hp |- *. by rewrite Hp.
    + rewrite other_pins in Hp by done. rewrite other_grants by done. by eapply (wh_pins t Hw).
  - intros id gr mb Hgr Hmb. destruct (decide (id = g)) as [->|Hne].
    + rewrite own_grant in Hgr. injection Hgr as <-. injection Hmb as <-. by exists ms.
    + rewrite other_grants in Hgr by done. by eapply (wh_via t Hw).
  - pose proof (proj1 (gives_false t entry member) Hno) as Hn. intros i j a b en mb Hi Hj Hai Hbj Ham Hbm La Lb.
    destruct (decide (i = g)) as [->|Hi'], (decide (j = g)) as [->|Hj']; [done|..];
      rewrite ?own_grant, ?other_grants in Hi by done; rewrite ?own_grant, ?other_grants in Hj by done.
    + injection Hi as <-. injection Hai as <-. injection Ham as <-. by destruct (Hn _ _ Hj Hbj Hbm Lb).
    + injection Hj as <-. injection Hbj as <-. injection Hbm as <-. by destruct (Hn _ _ Hi Hai Ham La).
    + by eapply (wh_once t Hw i j a b).
  - intros id gr mb mr at_ Hgr Hmb Hl Hmr Hat. change (t_members t !! mb = Some mr) in Hmr. destruct (decide (id = g)) as [->|Hne].
    + rewrite own_grant in Hgr. injection Hgr as <-. injection Hmb as <-. rewrite Hm in Hmr. injection Hmr as <-. congruence.
    + rewrite other_grants in Hgr by done. by eapply (wh_ended t Hw).
Qed.

End Materialized.

(** ** Grants made of assignments and entries *)

(** Nothing but new grants, of the pairs (entry, member) in [P]; the database's
    guards let each of them through. *)
Record extends (now : Time) (w : World) (P : string -> string -> Prop) (t t' : Tables) : Prop := {
  ex_keep : forall id g, t_grants t !! id = Some g -> t_grants t' !! id = Some g;
  ex_new : forall id g, t_grants t' !! id = Some g -> t_grants t !! id = Some g \/
    exists mb m e er, P e mb /\ t_members t !! mb = Some m /\ t_entries t !! e = Some er /\ g = derived now mb e m er /\
      realm_guard w g = None /\ role_live w g = None;
  ex_pins : forall id a x, is_Some (t_grants t !! id) -> t_pins t' !! (id, a, x) = t_pins t !! (id, a, x);
  ex_frame : t_memberships t' = t_memberships t /\ t_entries t' = t_entries t /\ t_places t' = t_places t /\ t_members t' = t_members t
}.

Lemma extended_not now w P t : extends now w P t t.
Proof. split; auto. Qed.

Lemma added_after now w (P1 P2 P : string -> string -> Prop) t t1 t2 : extends now w P1 t t1 -> extends now w P2 t1 t2 ->
  (forall e m, P1 e m -> P e m) -> (forall e m, P2 e m -> P e m) -> extends now w P t t2.
Proof.
  intros [K1 N1 Q1 (F1 & F2 & F3 & F4)] [K2 N2 Q2 (G1 & G2 & G3 & G4)] H1 H2. split.
  - auto.
  - intros id g Hg. destruct (N2 _ _ Hg) as [Hg1|(mb & m & e & er & HP & Hm & He & H)].
    + destruct (N1 _ _ Hg1) as [|(mb & m & e & er & HP & H)]; [by left|]. right. exists mb, m, e, er. split; [by apply H1|done].
    + right. exists mb, m, e, er. rewrite <- F4, <- F2. split; [by apply H2|done].
  - intros id a x [g Hg]. rewrite Q2, Q1; [done|by exists g|]. exists g. by apply K1.
  - split; [by rewrite G1|]. split; [by rewrite G2|]. split; [by rewrite G3|by rewrite G4].
Qed.

Lemma extends_gives now w P t t' e m : extends now w P t t' -> gives t e m = true -> gives t' e m = true.
Proof. intros H. rewrite !gives_true. intros (id & g & Hg & Hr). exists id, g. split; [by apply (ex_keep _ _ _ _ _ H)|done]. Qed.

Lemma extends_not_gives now w P t t' e m : extends now w P t t' -> ~ P e m -> gives t e m = false -> gives t' e m = false.
Proof.
  intros H HP. rewrite !gives_false. intros Hn id g Hg He Hm Hl.
  destruct (ex_new _ _ _ _ _ H _ _ Hg) as [Hg0|(mb & mr & e' & er & HP' & _ & _ & -> & _)]; [by eapply Hn|].
  injection He as ->. injection Hm as ->. done.
Qed.

Lemma materialize_step now w ids mb e t n g t' n' m er : membership_materialize now w ids mb e (t, n) = (Ok g, (t', n')) ->
  Whole t -> t_members t !! mb = Some m -> t_entries t !! e = Some er -> en_Membership er = mb_Membership m -> mb_RemovedAt m = None ->
  gives t e mb = false -> Whole t' /\ extends now w (fun e' mb' => e' = e /\ mb' = mb) t t' /\ gives t' e mb = true.
Proof.
  intros H Hw Hm He Hem Hr Hno. apply materialize_is in H as (m' & er' & Hm' & He' & Hg & Hc & -> & Htn & _).
  rewrite Hm in Hm'. injection Hm' as <-. rewrite He in He'. injection He' as <-. split; [by apply whole_materialized|]. split.
  - apply grant_checks_fkeys in Hc as (_ & Hc1 & Hc2). split; cbn.
    + intros id gr Hgr. rewrite lookup_insert_ne; [done|]. intros ->. congruence.
    + intros id gr Hgr. destruct (decide (id = g)) as [->|Hne]; [|left; by rewrite lookup_insert_ne in Hgr].
      rewrite lookup_insert_eq in Hgr. injection Hgr as <-. right. exists mb, m, e, er. by repeat split.
    + intros id a x [gr Hgr]. apply put_pins_other. intros ->. congruence.
    + done.
  - apply gives_true. exists g, (derived now mb e m er). split; [by apply own_grant|done].
Qed.

Lemma materialize_all now w ids mb m l : forall t n u t' n',
  loop (fun e => _ ← membership_materialize now w ids mb e; mret tt) l (t, n) = (Ok u, (t', n')) ->
  Whole t -> t_members t !! mb = Some m -> mb_RemovedAt m = None -> NoDup l ->
  (forall e, e ∈ l -> gives t e mb = false /\ exists er, t_entries t !! e = Some er /\ en_Membership er = mb_Membership m) ->
  Whole t' /\ extends now w (fun e b => e ∈ l /\ b = mb) t t' /\ forall e, e ∈ l -> gives t' e mb = true.
Proof.
  induction l as [|e l IH]; intros t n u t' n' H Hw Hm Hr Hnd Hl.
  - injection H as <- <- <-. split; [done|]. split; [apply extended_not|by intros e ?%not_elem_of_nil].
  - cbn [loop] in H. apply bind_ok in H as ([] & [t1 n1] & H1 & H2). apply bind_ok in H1 as (g & [t1' n1'] & H1 & [= -> ->]).
    apply NoDup_cons in Hnd as [Hni Hnd]. destruct (Hl e ltac:(by left)) as [Hno (er & He & Hem)].
    destruct (materialize_step _ _ _ _ _ _ _ _ _ _ _ _ H1 Hw Hm He Hem Hr Hno) as (Hw1 & Hx1 & Hg1).
    pose proof (ex_frame _ _ _ _ _ Hx1) as (_ & Fe & _ & Fm).
    destruct (IH _ _ _ _ _ H2 Hw1 ltac:(by rewrite Fm) Hr Hnd) as (Hw2 & Hx2 & Hg2).
    { intros e' He'. destruct (Hl e' ltac:(by right)) as [Hn' Hr']. rewrite Fe. split; [|done]. eapply extends_not_gives; [exact Hx1| |done].
      intros [-> _]. done. }
    split; [done|]. split.
    + eapply added_after; [exact Hx1|exact Hx2|..]; cbn; [intros ? ? [-> ->]; split; [by left|done]|intros ? ? [? ->]; split; [by right|done]].
    + intros e' [->|He']%elem_of_cons; [by eapply extends_gives|by apply Hg2].
Qed.

Lemma live_entries_spec t ms e : e ∈ live_entries t ms <-> exists er, t_entries t !! e = Some er /\ en_Membership er = ms /\ en_RetiredAt er = None.
Proof.
  unfold live_entries, live_entry. rewrite list_elem_of_omap. split.
  - intros ([id er] & Hin%elem_of_map_to_list & H). destruct (_ && _) eqn:E; [|done]. injection H as ->. unbool. by exists er.
  - intros (er & He & <- & Hr). exists (e, er). split; [by apply elem_of_map_to_list|]. by rewrite !bool_decide_true.
Qed.

Lemma keys_NoDup {A} (p : string -> A -> bool) (m : gmap string A) : NoDup (omap (fun '(id, a) => if p id a then Some id else None) (map_to_list m)).
Proof.
  pose proof (NoDup_fst_map_to_list m) as H. induction (map_to_list m) as [|[k a] l IH]; [constructor|]. apply NoDup_cons in H as [Hni H].
  cbn. destruct (p k a); [|by apply IH]. apply NoDup_cons. split; [|by apply IH].
  intros ([k' a'] & Hin & Hk)%list_elem_of_omap. destruct (p k' a'); [|done]. injection Hk as ->. apply Hni. by apply (list_elem_of_fmap_2 fst) in Hin.
Qed.
Lemma live_entries_NoDup t ms : NoDup (live_entries t ms).
Proof. apply (keys_NoDup (fun _ => live_entry ms)). Qed.

End MemberProps.

(** * What the functions over memberships do: assigning gives one grant for each
    live entry, resyncing leaves every current member with what the membership
    gives and nothing it no longer gives, leaving takes back what was given. *)
Module MemberOps.
Import Pg Db Members MemberProps.
Import ScopeTree (some_row, find_row, quoted, first_of).
Import Links (some_row_true, some_row_false).

(** ** Resyncing *)
Lemma current_members_spec now t ms mb : mb ∈ current_members now t ms <->
  exists m, t_members t !! mb = Some m /\ mb_Membership m = ms /\ current now m = true.
Proof.
  unfold current_members. rewrite list_elem_of_omap. split.
  - intros ([id m] & Hin%elem_of_map_to_list & H). destruct (_ && _) eqn:E; [|done]. injection H as ->. unbool. by exists m.
  - intros (m & Hm & <- & Hc). exists (mb, m). split; [by apply elem_of_map_to_list|]. by rewrite Hc, bool_decide_true.
Qed.

Lemma current_here now m : current now m = true -> mb_RemovedAt m = None.
Proof. unfold current. intros H. by unbool. Qed.

Lemma resync_members_spec now w ids ms l : forall t n k k' t' n', resync_members now w ids ms l k (t, n) = (Ok k', (t', n')) ->
  Whole t -> (forall mb, mb ∈ l -> mb ∈ current_members now t ms) ->
  Whole t' /\ extends now w (fun e mb => e ∈ live_entries t ms /\ mb ∈ l) t t' /\
  forall mb e, mb ∈ l -> e ∈ live_entries t ms -> gives t' e mb = true.
Proof.
  induction l as [|mb l IH]; intros t n k k' t' n' H Hw Hl.
  - injection H as <- <- <-. split; [done|]. split; [apply extended_not|by intros mb e ?%not_elem_of_nil].
  - cbn [resync_members] in H. apply bind_ok in H as (j & [t1 n1] & H1 & H2).
    unfold resync_member in H1. apply bind_ok in H1 as (es & [ta na] & [= <- <- <-] & H1). cbn [fst] in H1.
    apply bind_ok in H1 as ([] & [tb nb] & H1 & [= <- -> ->]).
    destruct (proj1 (current_members_spec _ _ _ _) (Hl mb ltac:(by left))) as (m & Hm & Hms & Hc).
    assert (Whole t1 /\ extends now w (fun e b => e ∈ missing_entries t ms mb /\ b = mb) t t1 /\
            forall e, e ∈ missing_entries t ms mb -> gives t1 e mb = true) as (Hw1 & Hx1 & Hg1).
    { eapply materialize_all; [exact H1|done|exact Hm|by eapply current_here|..].
      - apply NoDup_ListNoDup, List.NoDup_filter, NoDup_ListNoDup, live_entries_NoDup.
      - intros e (Hin & Hn)%list_elem_of_In%filter_In. apply list_elem_of_In, live_entries_spec in Hin as (er & He & Hem & _).
        split; [by apply negb_true_iff|]. exists er. by rewrite Hem. }
    pose proof (ex_frame _ _ _ _ _ Hx1) as (_ & Fe & _ & Fm).
    assert (forall x, x ∈ live_entries t1 ms <-> x ∈ live_entries t ms) as Hle by (intros x; by rewrite !live_entries_spec, Fe).
    destruct (IH _ _ _ _ _ _ H2 Hw1) as (Hw2 & Hx2 & Hg2).
    { intros b Hb. apply current_members_spec. rewrite Fm. apply current_members_spec, Hl. by right. }
    split; [done|]. split.
    + eapply added_after; [exact Hx1|exact Hx2|..]; cbn.
      * intros e b [He ->]. apply list_elem_of_In, filter_In in He as [He _]. split; [by apply list_elem_of_In|by left].
      * intros e b [He Hb]. split; [by apply Hle|by right].
    + intros b e [->|Hb]%elem_of_cons He; [|apply Hg2; [done|by apply Hle]]. eapply extends_gives; [exact Hx2|].
      destruct (gives t e mb) eqn:Eg; [by eapply extends_gives|]. apply Hg1, list_elem_of_In, filter_In. split; [by apply list_elem_of_In|by rewrite Eg].
Qed.

(** What is taken back first: what retired entries gave. *)
Definition no_longer_given (t : Tables) (ms : string) (g : GrantRow) : bool :=
  bool_decide (gr_ViaMembership g = Some ms) && is_retired t (gr_ViaEntry g).
Definition cleared (now : Time) (ms : string) (t : Tables) : Tables :=
  with_grants t (revoke_rows now (no_longer_given t ms) (fun r => Some (default no_longer r)) (t_grants t)).

(** Nothing live of what it gave once, and all it gives. *)
Definition in_step (now : Time) (ms : string) (t : Tables) : Prop :=
  (forall id g, t_grants t !! id = Some g -> gr_ViaMembership g = Some ms -> live g = true -> is_retired t (gr_ViaEntry g) = false) /\
  (forall mb e, mb ∈ current_members now t ms -> e ∈ live_entries t ms -> gives t e mb = true).

Lemma is_retired_same t t' e : t_entries t' = t_entries t -> is_retired t' e = is_retired t e.
Proof. unfold is_retired. by intros ->. Qed.

Lemma live_not_retired t ms e : e ∈ live_entries t ms -> is_retired t (Some e) = false.
Proof. intros (er & He & _ & Hr)%live_entries_spec. unfold is_retired. rewrite He, Hr. by rewrite bool_decide_false by (by intros [? ?]). Qed.

Lemma membership_resync_spec now w ids ms t n k t' n' : membership_resync now w ids ms (t, n) = (Ok k, (t', n')) -> Whole t ->
  Whole t' /\ extends now w (fun e mb => e ∈ live_entries t ms /\ mb ∈ current_members now t ms) (cleared now ms t) t' /\ in_step now ms t'.
Proof.
  intros H Hw. unfold membership_resync in H. apply bind_ok in H as (f & [t0 n0] & [= <- <- <-] & H). cbn [fst] in H.
  apply bind_ok in H as (j & [t1 n1] & H1 & H). apply revoke_where_is in H1 as [-> _].
  apply bind_ok in H as (l & [t2 n2] & [= <- <- <-] & H). cbn [fst] in H. fold (no_longer_given t ms) in H. fold (cleared now ms t) in H.
  pose proof (whole_revoke now (no_longer_given t ms) (fun r => Some (default no_longer r)) t Hw) as Hw1. fold (cleared now ms t) in Hw1.
  destruct (resync_members_spec _ _ _ _ _ _ _ _ _ _ _ H Hw1 ltac:(done)) as (Hw' & Hx & Hg). split; [done|]. split; [exact Hx|].
  pose proof (ex_frame _ _ _ _ _ Hx) as (_ & Fe & _ & Fm). split.
  - intros id g Hgr Hv Hl. rewrite (is_retired_same _ _ _ Fe). destruct (ex_new _ _ _ _ _ Hx _ _ Hgr) as [Hgr0|(mb & m & e & er & [He _] & _ & _ & -> & _)].
    + cbn in Hgr0. apply revoke_rows_live in Hgr0 as [Hn _]; [|done..]. unfold no_longer_given in Hn.
      rewrite bool_decide_true in Hn by done. exact Hn.
    + by eapply live_not_retired.
  - intros mb e Hmb He. apply Hg.
    + apply current_members_spec. rewrite <- Fm. by apply current_members_spec.
    + apply live_entries_spec. rewrite <- Fe. by apply live_entries_spec.
Qed.

(** ** Leaving *)
Definition left_by (now : Time) (p : string -> MemberRow -> bool) (q : GrantRow -> bool) (b reason : string) (t : Tables) : Tables :=
  with_members (with_grants t (revoke_rows now q (left_reason reason) (t_grants t))) (remove_rows now p b (t_members t)).

Lemma whole_left now p q b reason t : Whole t -> (forall r g, q (revoked now r g) = q g) ->
  (forall id g m mr, t_grants t !! id = Some g -> gr_ViaMember g = Some m -> t_members t !! m = Some mr -> p m mr = true -> q g = true) ->
  Whole (left_by now p q b reason t).
Proof.
  intros Hw Hq Hp. unfold left_by. apply (whole_remove now p b (with_grants t (revoke_rows now q (left_reason reason) (t_grants t)))); [by apply whole_revoke|].
  intros id g m mr Hg Hm Hl Hmr Hpm _. cbn in Hg. apply revoke_rows_live in Hg as [Hn Hg]; [|intros; by rewrite Hq|done].
  exfalso. rewrite (Hp _ _ _ _ Hg Hm Hmr Hpm) in Hn. done.
Qed.

Definition via_member (a : string) (g : GrantRow) : bool := bool_decide (gr_ViaMember g = Some a).
Definition via_person (identity ms : string) (g : GrantRow) : bool := bool_decide (gr_Identity g = identity) && bool_decide (gr_ViaMembership g = Some ms).

Lemma membership_leave_is now a b reason t n k t' n' : membership_leave now a b reason (t, n) = (Ok k, (t', n')) ->
  t' = left_by now (fun id _ => bool_decide (id = a)) (via_member a) b reason t /\ k = count_rows (fun g => via_member a g && live g) (t_grants t).
Proof.
  unfold membership_leave. intros H. apply bind_ok in H as (j & [t1 n1] & H1 & H). apply revoke_where_is in H1 as [-> ->].
  apply bind_ok in H as ([] & [t2 n2] & [= <- _] & [= <- <- _]). done.
Qed.

Lemma membership_unassign_is now i ms b reason t n k t' n' : membership_unassign now i ms b reason (t, n) = (Ok k, (t', n')) ->
  t' = left_by now (fun _ m => bool_decide (mb_Membership m = ms) && bool_decide (mb_Identity m = i)) (via_person i ms) b reason t /\
  k = count_rows (fun g => via_person i ms g && live g) (t_grants t).
Proof.
  unfold membership_unassign. intros H. apply bind_ok in H as (j & [t1 n1] & H1 & H). apply revoke_where_is in H1 as [-> ->].
  apply bind_ok in H as ([] & [t2 n2] & [= <- _] & [= <- <- _]). done.
Qed.

Lemma whole_leave now a b reason t : Whole t -> Whole (left_by now (fun id _ => bool_decide (id = a)) (via_member a) b reason t).
Proof.
  intros Hw. apply whole_left; [done|done|]. intros id g m mr Hg Hm _ H. unbool. subst. unfold via_member. by apply bool_decide_true.
Qed.

Lemma whole_unassign now i ms b reason t : Whole t ->
  Whole (left_by now (fun _ m => bool_decide (mb_Membership m = ms) && bool_decide (mb_Identity m = i)) (via_person i ms) b reason t).
Proof.
  intros Hw. apply whole_left; [done|done|]. intros id g m mr Hg Hm Hmr H. unbool.
  destruct (wh_derived t Hw _ _ _ Hg Hm) as (mr' & e & er & Hmr' & _ & _ & _ & Hv & _ & Hi & _). rewrite Hmr in Hmr'. injection Hmr' as <-.
  unfold via_person. rewrite Hv, Hi. apply andb_true_iff. split; apply bool_decide_true; congruence.
Qed.

(** ** Assigning *)
Definition closing (ms identity : string) (node : option string) (now : Time) (m : MemberRow) : bool := same_seat ms identity node m && lapsed now m.
Definition closed (now : Time) (ms identity : string) (node : option string) (b : string) (t : Tables) : Tables :=
  with_members t (remove_rows now (fun _ => closing ms identity node now) b (t_members t)).

Lemma whole_closed now ms identity node b t : Whole t -> Whole (closed now ms identity node b t).
Proof. intros Hw. apply whole_remove; [done|]. unfold closing. intros. by unbool. Qed.

Lemma insert_member_is w ids m t n id t' n' : insert_member w ids m (t, n) = (Ok id, (t', n')) ->
  member_checks w t id m = None /\ t' = with_members t (<[id := m]> (t_members t)) /\ id = ids n.
Proof.
  unfold insert_member, fresh, must, change, mbind, eff_bind. cbn. destruct (member_checks w t (ids n) m) eqn:E; [done|]. by intros [= <- <- <-].
Qed.

Lemma member_checks_say w t id m : member_checks w t id m = None ->
  t_members t !! id = None /\ membership_of t (mb_Membership m) (mb_Tenant m) = true /\ member_place t m = None /\
  (mb_Axis m = None <-> mb_Node m = None) /\
  (mb_RemovedAt m = None -> forall j m', t_members t !! j = Some m' -> same_seat (mb_Membership m) (mb_Identity m) (mb_Node m) m' = false).
Proof.
  unfold member_checks. destruct (bool_decide (mb_Axis m = None <-> _)) eqn:E0; [|done]. cbn [negb].
  destruct (negb (bool_decide (mb_RemovedAt m = None <-> _))); [done|]. destruct (bool_decide (is_Some (t_members t !! id))) eqn:E1; [done|].
  destruct (bool_decide (mb_RemovedAt m = None) && _) eqn:E2; [done|]. destruct (negb (person_of _ _ _)); [done|].
  destruct (membership_of _ _ _); [|done]. cbn [negb]. intros H. unbool.
  assert (member_place t m = None) as Hp by (clear E0; destruct (mb_Axis m), (mb_Node m); try done; by destruct (bool_decide (wo_node w _ = _))).
  split; [by destruct (t_members t !! id) eqn:?; [destruct E1; eexists|]|]. do 3 (split; [done|]).
  intros Hr j m' Hj. rewrite bool_decide_true in E2 by done. cbn in E2. by eapply (proj1 (some_row_false _ _) E2).
Qed.

Lemma whole_new_member w t v m : Whole t -> member_checks w t v m = None -> mb_RemovedAt m = None -> Whole (with_members t (<[v := m]> (t_members t))).
Proof.
  intros Hw Hc Hr. apply member_checks_say in Hc as (Hv & Hms & Hp & Hax & Hs). specialize (Hs Hr).
  split; try apply Hw; unfold members_ok, derived_ok, ended, seats, derived_from, given; cbn.
  - intros id m' Hm. destruct (decide (id = v)) as [->|]; [|rewrite lookup_insert_ne in Hm by done; by eapply (wh_members t Hw)].
    rewrite lookup_insert_eq in Hm. injection Hm as <-. unfold membership_of in Hms. destruct (t_memberships t !! mb_Membership m) as [ms|] eqn:E; [|done].
    unbool. exists ms. do 2 (split; [done|]). unfold member_place in Hp. rewrite E in Hp. cbn in Hp. unfold seated. destruct (ms_Anchor ms) as [a|].
    + destruct (bool_decide (mb_Node m = None)) eqn:E1; [done|]. cbn in Hp. destruct (bool_decide (mb_Axis m = Some a)) eqn:E2; [|done]. unbool.
      split; [done|]. by destruct (mb_Node m); [eexists|].
    + destruct (bool_decide (mb_Node m = None)) eqn:E1; [|done]. unbool. split; [by apply Hax|done].
  - intros id g m' Hg Hm. destruct (wh_derived t Hw _ _ _ Hg Hm) as (mr & e & er & Hmr & H). exists mr, e, er. split; [|exact H].
    rewrite lookup_insert_ne; [done|]. intros ->. congruence.
  - intros id g m' mr at_ Hg Hm Hl Hmr. destruct (wh_derived t Hw _ _ _ Hg Hm) as (mr' & _ & _ & Hmr' & _). rewrite lookup_insert_ne in Hmr by (intros ->; congruence).
    by eapply (wh_ended t Hw).
  - intros i j a b Hi Hj Hab Ha. destruct (decide (i = v)) as [->|], (decide (j = v)) as [->|]; [done|..];
      rewrite ?lookup_insert_eq, ?lookup_insert_ne in Hi by done; rewrite ?lookup_insert_eq, ?lookup_insert_ne in Hj by done.
    + injection Hi as <-. by rewrite (Hs _ _ Hj) in Hab.
    + injection Hj as <-. specialize (Hs _ _ Hi). exfalso. unfold same_seat in Hab, Hs. unbool. rewrite !bool_decide_true in Hs by congruence. done.
    + by eapply (wh_seats t Hw).
Qed.

Definition seat (now : Time) (ms identity by_ : string) (r : MembershipRow) (node : option string) (inherit : bool) (until : option Time) (reason : string) : MemberRow := {|
  mb_Membership := ms; mb_Identity := identity; mb_Tenant := ms_Tenant r; mb_AssignedBy := by_; mb_AssignedAt := now;
  mb_Axis := match node with None => None | Some _ => ms_Anchor r end; mb_Node := node; mb_Inherit := inherit;
  mb_ValidUntil := until; mb_Reason := nullif_empty (btrim reason); mb_RemovedAt := None; mb_RemovedBy := None |}.

(** With a new seat: the row, and a grant for each live entry. *)
Definition assigned (now : Time) (w : World) (ms identity by_ : string) (node : option string) (inherit : bool) (until : option Time) (reason : string)
    (v : string) (t t' : Tables) : Prop :=
  exists r, t_memberships t !! ms = Some r /\ t_members t !! v = None /\
    let m := seat now ms identity by_ r node inherit until reason in
    let t1 := closed now ms identity node by_ t in
    extends now w (fun e mb => e ∈ live_entries t ms /\ mb = v) (with_members t1 (<[v := m]> (t_members t1))) t' /\
    forall e, e ∈ live_entries t ms -> gives t' e v = true.

(** Somebody who holds the seat keeps it as it is. *)
Lemma closed_held now ms identity node b t : Whole t ->
  some_row (fun _ => same_seat ms identity node) (t_members (closed now ms identity node b t)) = true -> closed now ms identity node b t = t.
Proof.
  intros Hw (j & m & (m0 & Hm0 & Hj)%remove_rows_lookup & Hs)%some_row_true.
  destruct (closing ms identity node now m0 && bool_decide (mb_RemovedAt m0 = None)) eqn:Ej; subst m.
  { unfold same_seat in Hs. cbn in Hs. by rewrite andb_false_r in Hs. }
  unfold closed. replace (remove_rows _ _ _ _) with (t_members t); [by destruct t|]. apply map_eq. intros i.
  destruct (t_members t !! i) as [m|] eqn:Hi.
  - symmetry. apply remove_rows_lookup. exists m. split; [done|]. destruct (closing ms identity node now m && _) eqn:E; [|done]. exfalso.
    assert (same_seat ms identity node m = true /\ mb_RemovedAt m = None) as [Hsm Hrm] by (unfold closing in E; by unbool).
    assert (i = j) as ->.
    { eapply (wh_seats t Hw i j m m0); [done|done| |done]. unfold same_seat in *. unbool. rewrite !bool_decide_true by congruence. done. }
    rewrite Hi in Hm0. injection Hm0 as <-. congruence.
  - symmetry. destruct (remove_rows _ _ _ _ !! i) as [m|] eqn:E; [|done]. apply remove_rows_lookup in E as (m1 & E & _). congruence.
Qed.

Lemma membership_assign_spec now w ids identity ms by_ node inherit until reason t n r t' n' :
  membership_assign now w ids identity ms by_ node inherit until reason (t, n) = (Ok r, (t', n')) -> Whole t ->
  Whole t' /\ match r with
              | None => t' = t /\ exists j m, t_members t !! j = Some m /\ same_seat ms identity node m = true
              | Some v => assigned now w ms identity by_ node inherit until reason v t t' /\ v = ids n
              end.
Proof.
  intros H Hw. unfold membership_assign in H. apply bind_ok in H as (o & [t0 n0] & [= <- <- <-] & H). cbn [fst] in H.
  destruct (t_memberships t !! ms) as [row|] eqn:Hms; [|done]. apply bind_ok in H as ([] & [t0 n0] & Hc & H).
  unfold must in Hc. cbn in Hc. destruct (assign_refusal now w _ _ _); [done|]. injection Hc as <- <-.
  apply bind_ok in H as ([] & [t1 n1] & [= <- <-] & H). cbn [fst snd] in H.
  fold (remove_rows now (fun _ m => same_seat ms identity node m && lapsed now m) by_ (t_members t)) in H.
  fold (closing ms identity node now) in H. fold (closed now ms identity node by_ t) in H.
  apply bind_ok in H as (held & [t1 n1] & [= <- <- <-] & H). cbn [fst] in H. pose proof (whole_closed now ms identity node by_ t Hw) as Hw1.
  destruct (some_row _ _) eqn:Eh.
  - injection H as <- <- _. pose proof (closed_held _ _ _ _ _ _ Hw Eh) as Hcl. apply some_row_true in Eh as (j & m & Hj & Hs).
    change (t_members (closed now ms identity node by_ t) !! j = Some m) in Hj. rewrite Hcl in *. split; [done|]. split; [done|]. by exists j, m.
  - apply bind_ok in H as (v & [t2 n2] & H2 & H). apply insert_member_is in H2 as (Hc & -> & Hv). fold (seat now ms identity by_ row node inherit until reason) in *.
    pose proof (whole_new_member _ _ _ _ Hw1 Hc eq_refl) as Hw2. pose proof (member_checks_say _ _ _ _ Hc) as (Hfree & _).
    apply bind_ok in H as (es & [t3 n3] & [= <- <- <-] & H). cbn [fst] in H. apply bind_ok in H as ([] & [t4 n4] & H4 & [= <- <- _]).
    assert (t_members t !! v = None) as Hfree'.
    { destruct (t_members t !! v) as [m|] eqn:E; [|done]. exfalso. cbn in Hfree.
      assert (is_Some (remove_rows now (fun _ => closing ms identity node now) by_ (t_members t) !! v)) as [? ?]; [|congruence].
      eexists. apply remove_rows_lookup. exists m. by split. }
    change (live_entries (with_members _ _) ms) with (live_entries t ms) in H4.
    destruct (materialize_all _ _ _ _ (seat now ms identity by_ row node inherit until reason) _ _ _ _ _ _ H4 Hw2) as (Hw4 & Hx & Hg).
    + cbn. by rewrite lookup_insert_eq.
    + done.
    + apply live_entries_NoDup.
    + intros e (er & He & Hem & _)%live_entries_spec. split; [|by exists er]. apply gives_false. intros id g Hg He' Hm Hl.
      destruct (wh_derived _ Hw1 _ _ _ Hg Hm) as (mr & _ & _ & Hmr & _). congruence.
    + split; [done|]. split; [|done]. exists row. split; [done|]. split; [done|]. cbn zeta. split; [exact Hx|exact Hg].
Qed.

End MemberOps.
