(* ===== verification/MemberKeeps.v ===== *)
(** Every statement and handler of grants and memberships keeps the tables
    whole; and a membership's contents replaced ([MemberEntries]). *)

From Stdlib Require Import ZArith Lia Bool Ascii String.
From stdpp Require Import base gmap strings list sorting.
From S2P Require Import Prelude.
From S2P Require Import GoStrings.
From S2P Require Import GoConv.
From S2P Require Import Shared.
From S2P Require Import AdminGuard.
From S2P Require Import ScopeTree.
From S2P Require Import TreeProps.
From S2P Require Import Db.
From S2P Require Import Members.
From S2P Require Import MemberStore.
From S2P Require Import MemberAdmin.
From S2P Require Import MemberProps.

(** * The rules of the tables of grants and memberships through every statement,
    every transaction and every handler. *)
Module MemberKeeps.
Import Apperr Pg Db Members MemberStore MemberAdmin MemberProps MemberOps.
Import ScopeTree (some_row, first_of).
Import Links (some_row_true, some_row_false).

(** ** Rows added *)
Lemma given_spec t e m a n p : (a, n, p) ∈ given t e m <-> t_places t !! (e, a, n) = Some p \/ (a, n, p) ∈ seat_pin m.
Proof. unfold given. by rewrite elem_of_app, places_of_spec. Qed.

(** An entry nobody has a grant from. *)
Definition ungiven (e : string) (t : Tables) : Prop :=
  forall id g m, t_grants t !! id = Some g -> gr_ViaEntry g = Some e -> gr_ViaMember g = Some m -> False.

Lemma whole_new_entry t id e : Whole t -> t_entries t !! id = None -> membership_of t (en_Membership e) (en_Tenant e) = true ->
  Whole (with_entries t (<[id := e]> (t_entries t))) /\ ungiven id (with_entries t (<[id := e]> (t_entries t))).
Proof.
  intros Hw Hid Hms.
  assert (forall x r, t_entries t !! x = Some r -> <[id := e]> (t_entries t) !! x = Some r) as Hkeep.
  { intros x r Hx. rewrite lookup_insert_ne; [done|]. intros ->. congruence. }
  split.
  - split; try apply Hw; unfold places_ok, entries_ok, derived_ok, derived_from, given; cbn.
    + intros x a n p Hp. destruct (wh_places t Hw _ _ _ _ Hp) as (er & ms & He & H). exists er, ms. split; [by apply Hkeep|done].
    + intros x er He. destruct (decide (x = id)) as [->|]; [|rewrite lookup_insert_ne in He by done; by eapply (wh_entries t Hw)].
      rewrite lookup_insert_eq in He. injection He as <-. unfold membership_of in Hms. destruct (t_memberships t !! en_Membership e) as [ms|] eqn:E; [|done].
      unbool. by exists ms.
    + intros i g m Hg Hm. destruct (wh_derived t Hw _ _ _ Hg Hm) as (mr & x & er & H1 & H2 & H3 & H). exists mr, x, er.
      do 2 (split; [done|]). split; [by apply Hkeep|exact H].
  - intros i g m Hg He Hm. cbn in Hg. destruct (wh_derived t Hw _ _ _ Hg Hm) as (mr & x & er & _ & H2 & H3 & _). congruence.
Qed.

Lemma whole_new_place w t entry a n p : Whole t -> ungiven entry t -> entry_place_checks w t (entry, a, n) p = None ->
  Whole (with_places (if pi_Exclude p then defer (EntryExcludes entry a) t else t) (<[(entry, a, n) := p]> (t_places t))).
Proof.
  intros Hw Hun Hc. unfold entry_place_checks in Hc. destruct (bool_decide (is_Some (t_places t !! (entry, a, n)))) eqn:Ek; [done|]. unbool.
  assert (t_places t !! (entry, a, n) = None) as Hk by (by destruct (t_places t !! (entry, a, n)); [destruct Ek; eexists|]).
  rewrite first_of_None in Hc. assert (entry_of t entry (pi_Tenant p) = true) as He.
  { pose proof (Hc _ (list_elem_of_here _ _)) as H. by destruct (entry_of _ _ _). }
  assert (entry_anchor t entry a = None) as Ha by (apply Hc; set_solver).
  unfold entry_of in He. destruct (t_entries t !! entry) as [er|] eqn:Ee; [|done]. unbool.
  destruct (wh_entries t Hw _ _ Ee) as (ms & Hms & Hmt). unfold entry_anchor in Ha. rewrite Ee, Hms in Ha.
  destruct (bool_decide (ms_Anchor ms = Some a)) eqn:Eanch; [done|]. unbool.
  assert (forall k q, t_places t !! k = Some q -> <[(entry, a, n) := p]> (t_places t) !! k = Some q) as Hkeep.
  { intros k q Hq. rewrite lookup_insert_ne; [done|]. intros <-. congruence. }
  destruct (wh_backed t Hw) as [Hb1 Hb2].
  split; try (destruct (pi_Exclude p); apply Hw); unfold places_ok, derived_ok, derived_from, backed; cbn.
  - intros x a' n' q Hq. assert (t_entries (if pi_Exclude p then defer (EntryExcludes entry a) t else t) = t_entries t /\
      t_memberships (if pi_Exclude p then defer (EntryExcludes entry a) t else t) = t_memberships t) as [-> ->] by (by destruct (pi_Exclude p)).
    destruct (decide ((entry, a, n) = (x, a', n'))) as [[= -> -> ->]|Hne].
    + rewrite lookup_insert_eq in Hq. injection Hq as <-. by exists er, ms.
    + rewrite lookup_insert_ne in Hq by done. by eapply (wh_places t Hw).
  - intros i g m Hg Hm. assert (t_grants t !! i = Some g) as Hg' by (by destruct (pi_Exclude p)).
    destruct (wh_derived t Hw _ _ _ Hg' Hm) as (mr & x & er' & H1 & H2 & H3 & H4 & H5 & H6 & H7 & H8 & H9 & H10 & H11).
    assert (x <> entry) as Hx by (intros ->; by eapply Hun). exists mr, x, er'.
    split; [by destruct (pi_Exclude p)|]. split; [done|]. split; [by destruct (pi_Exclude p)|]. do 7 (split; [done|]).
    intros a' n' q. specialize (H11 a' n' q). rewrite given_spec in H11 |- *. cbn. rewrite lookup_insert_ne by congruence.
    by destruct (pi_Exclude p).
  - split.
    + intros g a' n' q Hq Hx. assert (t_pins t !! (g, a', n') = Some q) as Hq' by (by destruct (pi_Exclude p)).
      destruct (Hb1 _ _ _ _ Hq' Hx); [left|right]; destruct (pi_Exclude p); cbn; set_solver.
    + intros x a' n' q Hq Hx. destruct (decide ((entry, a, n) = (x, a', n'))) as [[= -> -> ->]|Hne].
      * rewrite lookup_insert_eq in Hq. injection Hq as <-. right. rewrite Hx. cbn. set_solver.
      * rewrite lookup_insert_ne in Hq by done. destruct (Hb2 _ _ _ _ Hq Hx) as [Hi|Hd].
        -- left. eapply is_include_mono; [|exact Hi]. intros. by apply Hkeep.
        -- right. destruct (pi_Exclude p); cbn; set_solver.
Qed.

Lemma whole_new_membership t id m : Whole t -> t_memberships t !! id = None -> Whole (with_memberships t (<[id := m]> (t_memberships t))).
Proof.
  intros Hw Hid.
  assert (forall x r, t_memberships t !! x = Some r -> <[id := m]> (t_memberships t) !! x = Some r) as Hkeep.
  { intros x r Hx. rewrite lookup_insert_ne; [done|]. intros ->. congruence. }
  split; try apply Hw; unfold places_ok, entries_ok, members_ok, via_ok; cbn.
  - intros e a n p Hp. destruct (wh_places t Hw _ _ _ _ Hp) as (er & ms & H1 & H2 & H3 & H4). exists er, ms. auto.
  - intros e er He. destruct (wh_entries t Hw _ _ He) as (ms & H1 & H2). exists ms. auto.
  - intros i mb Hm. destruct (wh_members t Hw _ _ Hm) as (ms & H1 & H2). exists ms. auto.
  - intros i g v Hg Hv. destruct (wh_via t Hw _ _ _ Hg Hv) as (ms & H1 & H2). exists ms. auto.
Qed.

(** Entries retired, and nothing else of them. *)
Definition same_entry (e e' : EntryRow) : Prop := en_Membership e' = en_Membership e /\ en_Tenant e' = en_Tenant e /\ en_Role e' = en_Role e.

Lemma whole_retire t E : Whole t -> (forall id, option_Forall2 same_entry (t_entries t !! id) (E !! id)) -> Whole (with_entries t E).
Proof.
  intros Hw HE.
  assert (forall x r, t_entries t !! x = Some r -> exists r', E !! x = Some r' /\ same_entry r r') as Hkeep.
  { intros x r Hx. specialize (HE x). rewrite Hx in HE. inversion HE; subst. by eexists. }
  split; try apply Hw; unfold places_ok, entries_ok, derived_ok, derived_from, given; cbn.
  - intros e a n p Hp. destruct (wh_places t Hw _ _ _ _ Hp) as (er & ms & He & H1 & H2 & H3). destruct (Hkeep _ _ He) as (er' & He' & Hm & Ht & _).
    exists er', ms. rewrite Hm, Ht. done.
  - intros e er' He'. specialize (HE e). rewrite He' in HE. inversion HE as [er ? Hs E1 E2|]; subst. destruct (wh_entries t Hw e er ltac:(congruence)) as (ms & H1 & H2).
    destruct Hs as (-> & -> & _). by exists ms.
  - intros i g m Hg Hm. destruct (wh_derived t Hw _ _ _ Hg Hm) as (mr & e & er & H1 & H2 & H3 & H4 & H5 & H6 & H).
    destruct (Hkeep _ _ H3) as (er' & He' & Em & Et & Er). exists mr, e, er'. rewrite Em, Er. done.
Qed.

Lemma retire_rows_same env ms (ids : list string) (E : gmap string EntryRow) id :
  option_Forall2 same_entry (E !! id) (map_imap (fun id e =>
    Some (if bool_decide (en_Membership e = ms) && bool_decide (id ∈ ids) && bool_decide (en_RetiredAt e = None) then retired env e else e)) E !! id).
Proof.
  rewrite map_lookup_imap. destruct (E !! id) as [e|]; cbn; constructor. by destruct (_ && _).
Qed.

(** A grant given directly. *)
Definition direct (id : string) (t : Tables) : Prop := exists g, t_grants t !! id = Some g /\ gr_ViaMember g = None.

Lemma whole_new_grant t id g : Whole t -> t_grants t !! id = None -> gr_ViaMember g = None -> gr_ViaMembership g = None ->
  Whole (with_grant t id g) /\ direct id (with_grant t id g).
Proof.
  intros Hw Hid Hm Hv.
  assert (forall i h, <[id := g]> (t_grants t) !! i = Some h -> i = id /\ h = g \/ t_grants t !! i = Some h) as Hcase.
  { intros i h H. destruct (decide (i = id)) as [->|]; [rewrite lookup_insert_eq in H; left; by injection H|right; by rewrite lookup_insert_ne in H]. }
  split; [|exists g; cbn; by rewrite lookup_insert_eq].
  split; try apply Hw; unfold pins_ok, via_ok, derived_ok, once, ended; cbn.
  - intros o a n p Hp. destruct (wh_pins t Hw _ _ _ _ Hp) as (gr & Hgr & Ht). exists gr. rewrite lookup_insert_ne; [done|]. intros ->. congruence.
  - intros i h m [[-> ->]|Hh]%Hcase Hvm; [congruence|by eapply (wh_via t Hw)].
  - intros i h m [[-> ->]|Hh]%Hcase Hvm; [congruence|]. exact (wh_derived t Hw _ _ _ Hh Hvm).
  - intros i j a b e m [[-> ->]|Ha]%Hcase [[-> ->]|Hb]%Hcase; try congruence. by eapply (wh_once t Hw).
  - intros i h m mr at_ [[-> ->]|Hh]%Hcase; [congruence|]. by eapply (wh_ended t Hw).
Qed.

Lemma whole_new_pin w t id a n p : Whole t -> direct id t -> pin_checks w t (id, a, n) p = None -> Whole (pinned t id [(a, n, p)]).
Proof.
  intros Hw (g & Hg & Hv) Hc. unfold pin_checks in Hc. destruct (bool_decide (is_Some (t_pins t !! (id, a, n)))) eqn:Ek; [done|]. unbool.
  assert (t_pins t !! (id, a, n) = None) as Hk by (by destruct (t_pins t !! (id, a, n)); [destruct Ek; eexists|]).
  rewrite first_of_None in Hc. assert (grant_of t id (pi_Tenant p) = true) as Ht.
  { pose proof (Hc _ (list_elem_of_here _ _)) as H. by destruct (grant_of _ _ _). }
  unfold grant_of in Ht. rewrite Hg in Ht. unbool. destruct (wh_backed t Hw) as [Hb1 Hb2].
  split; try apply Hw; unfold pins_ok, derived_ok, derived_from, given, backed, pinned, put_pins, put_pin, waiting; cbn.
  - intros o a' n' q Hq. destruct (decide ((id, a, n) = (o, a', n'))) as [[= <- <- <-]|Hne]; [|rewrite lookup_insert_ne in Hq by done; by eapply (wh_pins t Hw)].
    rewrite lookup_insert_eq in Hq. injection Hq as <-. by exists g.
  - intros i h m Hh Hm. assert (i <> id) as Hi by (intros ->; congruence).
    destruct (wh_derived t Hw _ _ _ Hh Hm) as (mr & e & er & H1 & H2 & H3 & H4 & H5 & H6 & H7 & H8 & H9 & H10 & H11). exists mr, e, er.
    do 10 (split; [done|]). intros a' n' q. rewrite lookup_insert_ne by congruence. apply H11.
  - split.
    + intros o a' n' q Hq Hx. destruct (decide ((id, a, n) = (o, a', n'))) as [[= <- <- <-]|Hne].
      * rewrite lookup_insert_eq in Hq. injection Hq as <-. right. rewrite Hx. set_solver.
      * rewrite lookup_insert_ne in Hq by done. destruct (Hb1 _ _ _ _ Hq Hx) as [Hi|Hd]; [left|right; set_solver].
        eapply is_include_mono; [|exact Hi]. intros. rewrite lookup_insert_ne; [done|]. intros Heq. congruence.
    + intros e a' n' q Hq Hx. destruct (Hb2 _ _ _ _ Hq Hx); [by left|right; set_solver].
Qed.

(** ** Statements and handlers *)
Lemma stable_whole : stable settle settled AtRest Whole.
Proof. intros t. apply whole_settles. Qed.
Create HintDb stable.
#[export] Hint Resolve stable_whole : stable.

(** *** Any property of the tables a transaction's end leaves alone *)
Section Any.
Context (env : Env) (w : World) (tx : Text) (ac : ACtx) (W : Tables -> Prop).

Abbreviation keeps m := (hoare W AtRest W m (fun _ => W)).
Abbreviation HW := (stable settle settled AtRest W).

Lemma k_look {A} (f : Tables -> A) : HW -> keeps (ask env f).
Proof using. intros H. apply hoare_statement; [done|intros _; exact H|]. intros ids. by apply sql_query. Qed.
Lemma k_run {A} map (q : (nat -> string) -> Sql_ Tables A) : HW -> (forall ids, sql W (q ids) (fun _ => W)) -> keeps (run env map q).
Proof using. intros H. apply hoare_statement; [done|intros _; exact H]. Qed.
Lemma k_uuid {A} id (k : string -> Eff (Store Tables) Error A) : (forall c, keeps (k c)) -> keeps (with_uuid id k).
Proof using. intros H. by apply hoare_with_uuid. Qed.
Lemma k_opt_uuid {A} id (k : option string -> Eff (Store Tables) Error A) : (forall c, keeps (k c)) -> keeps (opt_uuid id k).
Proof using. intros H. unfold opt_uuid. destruct (bool_decide _); [apply H|]. by apply k_uuid. Qed.
Lemma k_found {A} what (m : Eff (Store Tables) Error (option A)) : keeps m -> keeps (found what m).
Proof using. intros H. apply hoare_found. eapply hoare_weaken; [exact H|done|]. by intros o t Ht. Qed.
Lemma k_tx {A} (m : Eff (Store Tables) Error A) : HW -> keeps m -> keeps (Tx env m).
Proof using. intros H. apply hoare_tx; [done|intros _; exact H]. Qed.
Lemma k_emit p a tg d : keeps (emit ac p a tg d).
Proof using. apply hoare_log; [|done]. intros s. by eexists _, _. Qed.
End Any.

(** Walks a handler whose calls keep the property; [leaf] for the others. *)
Ltac keep_step leaf :=
  match goal with
  | |- forall _, hoare _ _ _ _ _ => intros ?
  | |- hoare ?W _ _ (_ ≫= _) _ => eapply hoare_bind with (mid := fun _ => W)
  | |- hoare _ _ _ (mret _) _ => by apply hoare_ret
  | |- hoare _ _ _ (raise _) _ => by apply hoare_raise
  | |- hoare _ _ _ (lift _) _ => by apply hoare_lift
  | |- hoare _ _ _ (Require _ _) _ => by apply hoare_lift
  | |- hoare _ _ _ (emit _ _ _ _ _) _ => apply k_emit
  | |- hoare _ _ _ (ask _ _) _ => apply k_look; solve [auto with stable]
  | |- hoare _ _ _ (with_uuid _ _) _ => apply k_uuid
  | |- hoare _ _ _ (opt_uuid _ _) _ => apply k_opt_uuid
  | |- hoare _ _ _ (found _ _) _ => apply k_found
  | |- hoare _ _ _ (Tx _ _) _ => apply k_tx; [solve [auto with stable]|]
  | |- hoare _ _ _ (match ?x with _ => _ end) _ => destruct x
  | |- hoare _ _ _ (let '(_, _) := ?x in _) _ => destruct x
  | |- _ => leaf
  end.
Ltac keep_with leaf := repeat keep_step leaf.

(** *** Handlers that look *)
Section Looking.
Context (env : Env) (w : World) (tx : Text) (ac : ACtx) (W : Tables -> Prop).
Hypothesis HW : stable settle settled AtRest W.
Abbreviation keeps m := (hoare W AtRest W m (fun _ => W)).

Lemma k_SearchGrants q : keeps (SearchGrants env w tx ac q).
Proof using HW. unfold SearchGrants, MemberStore.SearchGrants, GrantScopes, scopes_of. keep_with idtac. Qed.
Lemma k_ListGrants i b : keeps (ListGrants env w tx ac i b).
Proof using HW. unfold ListGrants, MemberStore.ListGrants, GrantScopes, scopes_of. keep_with idtac. Qed.
Lemma k_ListMemberships : keeps (ListMemberships env w tx ac).
Proof using HW. unfold ListMemberships, MemberStore.ListMemberships, MembershipEntries, MembershipEntryScopes, scopes_of. keep_with idtac. Qed.
Lemma k_ListMembershipAssignments f : keeps (ListMembershipAssignments env w ac f).
Proof using HW. unfold ListMembershipAssignments, MemberStore.ListMembershipAssignments. keep_with idtac. Qed.
Lemma k_membershipInTenant t m : keeps (membershipInTenant env t m).
Proof using HW. unfold membershipInTenant, MembershipByID. keep_with idtac. Qed.
Lemma k_MembershipEntries l : keeps (MembershipEntries env w tx l).
Proof using HW. unfold MembershipEntries. keep_with idtac. Qed.
Lemma k_MembershipEntryScopes l : keeps (MembershipEntryScopes env w tx l).
Proof using HW. unfold MembershipEntryScopes, scopes_of. keep_with idtac. Qed.

End Looking.

(** *** Handlers that write *)
Section Handlers.
Context (env : Env) (w : World) (tx : Text) (ac : ACtx).

Abbreviation keeps m := (hoare Whole AtRest Whole m (fun _ => Whole)).

(** *** One key that is not there *)
Lemma absent {A} (m : gmap string A) k : bool_decide (is_Some (m !! k)) = false -> m !! k = None.
Proof using. intros H. unbool. destruct (m !! k) eqn:E; [|done]. destruct H. by eexists. Qed.

Lemma k_CreateMembership n d a : keeps (CreateMembership env w ac n d a).
Proof using.
  unfold CreateMembership, MemberStore.CreateMembership. keep_with idtac. apply k_run; [apply stable_whole|]. intros ids. unfold insert_membership.
  eapply sql_bind; [apply (sql_fresh _ _ (fun _ => Whole)); auto|]. intros id.
  eapply sql_bind; [apply (sql_must _ _ (fun _ t => Whole t /\ t_memberships t !! id = None))|intros []].
  - intros t Hw. destruct (bool_decide (is_Some (t_memberships t !! id))) eqn:E; [done|]. intros _. split; [done|by apply absent].
  - eapply sql_bind; [apply (sql_change _ _ (fun _ => Whole))|intros []; by apply sql_ret].
    intros t [Hw Hid]. by apply whole_new_membership.
Qed.

(** *** Grants *)
Lemma stable_direct id : stable settle settled AtRest (fun t => Whole t /\ direct id t).
Proof using. intros t [Hw Hd] Hs. destruct (whole_settles t Hw Hs). done. Qed.

Lemma k_insert_scopes id tid l : hoare Whole AtRest (fun t => Whole t /\ direct id t) (insert_scopes env w id tid l) (fun _ => Whole).
Proof using.
  induction l as [|sc l IH]; cbn [insert_scopes]; [apply hoare_ret; by intros t [? _]|].
  eapply hoare_bind with (mid := fun _ t => Whole t /\ direct id t); [|intros _; exact IH]. apply hoare_with_uuid; [by intros t [? _]|]. intros c _.
  apply hoare_statement; [by intros t [? _]|intros _; apply stable_direct|]. intros ids t n [] t' n' [Hw Hd] H.
  apply insert_pin_is in H as (Hc & -> & _). split; [by eapply whole_new_pin|]. destruct Hd as (g & Hg & Hv). by exists g.
Qed.

Lemma k_grant_row i : keeps (MemberStore.CreateGrant env w i).
Proof using.
  unfold MemberStore.CreateGrant. apply k_tx; [apply stable_whole|]. do 4 (apply k_uuid; intros ?).
  eapply hoare_bind with (mid := fun id t => Whole t /\ direct id t).
  - apply hoare_statement; [done|intros id; apply stable_direct|]. intros ids t n id t' n' Hw H.
    apply insert_grant_is in H as (_ & Hid & -> & _). by apply whole_new_grant.
  - intros id. eapply hoare_bind with (mid := fun _ => Whole); [apply k_insert_scopes|]. intros _. by apply hoare_ret.
Qed.
Lemma k_CreateGrant i : keeps (CreateGrant env w ac i).
Proof using. unfold CreateGrant. keep_with ltac:(apply k_grant_row). Qed.

Lemma whole_revoke_one now tid c reason t : Whole t ->
  Whole (with_grants t (alter (fun g => if bool_decide (gr_Tenant g = tid) && live g then revoked now reason g else g) c (t_grants t))).
Proof using.
  intros Hw. apply whole_lessen; [done|]. intros i. rewrite lookup_alter. case_decide as Hi; [|destruct (t_grants t !! i); constructor; apply lessened_refl].
  destruct (t_grants t !! i) as [g|] eqn:E; subst; rewrite ?E; cbn; constructor. destruct (_ && _); [apply lessened_revoked|apply lessened_refl].
Qed.

Lemma k_RevokeGrant id r : keeps (RevokeGrant env ac id r).
Proof using.
  unfold RevokeGrant, MemberStore.RevokeGrant. keep_with idtac. apply k_run; [apply stable_whole|]. intros _. apply sql_change.
  intros t. apply whole_revoke_one.
Qed.

(** *** Entries *)
Lemma stable_ungiven id : stable settle settled AtRest (fun t => Whole t /\ ungiven id t).
Proof using. intros t [Hw Hd] Hs. destruct (whole_settles t Hw Hs). done. Qed.

Lemma insert_place_is e a x p t n u t' n' : insert_entry_place w (e, a, x) p (t, n) = (Ok u, (t', n')) ->
  entry_place_checks w t (e, a, x) p = None /\
  t' = with_places (if pi_Exclude p then defer (EntryExcludes e a) t else t) (<[(e, a, x) := p]> (t_places t)).
Proof using.
  unfold insert_entry_place. intros H. apply bind_ok in H as ([] & [t1 n1] & H1 & H). unfold must in H1.
  destruct (entry_place_checks w _ _ _) eqn:Hc in H1; [done|]. injection H1 as <- <-.
  apply bind_ok in H as ([] & [t2 n2] & [= <- <-] & H). split; [exact Hc|]. by destruct (pi_Exclude p); injection H as _ <- _.
Qed.

Lemma k_insert_places id tid l : hoare Whole AtRest (fun t => Whole t /\ ungiven id t) (insert_places env w id tid l) (fun _ => Whole).
Proof using.
  induction l as [|sc l IH]; cbn [insert_places]; [apply hoare_ret; by intros t [? _]|].
  eapply hoare_bind with (mid := fun _ t => Whole t /\ ungiven id t); [|intros _; exact IH].
  apply hoare_with_uuid; [by intros t [? _]|]. intros c _. apply hoare_statement; [by intros t [? _]|intros _; apply stable_ungiven|].
  intros ids. set (p := {| pi_Tenant := tid; pi_Inherit := _; pi_Exclude := _ |}). intros t n [] t' n' [Hw Hun] H.
  apply insert_place_is in H as [Hc ->]. pose proof (whole_new_place _ _ _ _ _ _ Hw Hun Hc) as Hw'. by destruct (pi_Exclude p).
Qed.

Lemma insert_entry_is ids e t n id t' n' : insert_entry w ids e (t, n) = (Ok id, (t', n')) ->
  t_entries t !! id = None /\ membership_of t (en_Membership e) (en_Tenant e) = true /\ t' = with_entries t (<[id := e]> (t_entries t)) /\ id = ids n.
Proof using.
  unfold insert_entry, fresh, must, change, mbind, eff_bind. cbn.
  destruct (bool_decide (is_Some (t_entries t !! ids n))) eqn:E; [done|]. destruct (membership_of _ _ _) eqn:Em; [|done]. cbn.
  destruct (negb (role_of _ _ _)); [done|]. intros [= <- <- <-]. by apply absent in E.
Qed.

Lemma k_insert_entries mid tid l : keeps (insert_entries env w mid tid l).
Proof using.
  induction l as [|e l IH]; cbn [insert_entries]; [by apply hoare_ret|].
  eapply hoare_bind with (mid := fun id t => Whole t /\ ungiven id t).
  - apply hoare_with_uuid; [done|]. intros c _. apply hoare_statement; [done|intros id; apply stable_ungiven|].
    intros ids t n id t' n' Hw H. apply insert_entry_is in H as (Hid & Hms & -> & _). by apply whole_new_entry.
  - intros id. eapply hoare_bind with (mid := fun _ => Whole); [apply k_insert_places|]. intros _. exact IH.
Qed.

Lemma k_ReplaceMembershipEntries tid mid l : keeps (ReplaceMembershipEntries env w tx tid mid l).
Proof using.
  unfold ReplaceMembershipEntries, MembershipEntries, MembershipEntryScopes, scopes_of. keep_with ltac:(first [apply k_insert_entries|idtac]).
  all: apply k_run; [apply stable_whole|]; intros _; apply sql_change; intros t Hw; apply whole_retire; [done|]; apply retire_rows_same.
Qed.

Lemma k_resync mid : keeps (MemberStore.ResyncMembership env w mid).
Proof using.
  unfold MemberStore.ResyncMembership. keep_with idtac. apply k_run; [apply stable_whole|]. intros ids t n k t' n' Hw H.
  by apply (membership_resync_spec _ _ _ _ _ _ _ _ _ H).
Qed.

Lemma k_SetMembershipEntries m l : keeps (SetMembershipEntries env w tx ac m l).
Proof using.
  unfold SetMembershipEntries. keep_with ltac:(first [apply k_membershipInTenant; apply stable_whole|apply k_ReplaceMembershipEntries|apply k_resync]).
Qed.
Lemma k_ResyncMembership m : keeps (ResyncMembership env w ac m).
Proof using. unfold ResyncMembership. keep_with ltac:(first [apply k_membershipInTenant; apply stable_whole|apply k_resync]). Qed.

(** *** Assignments *)
Lemma k_AssignMembership i : keeps (AssignMembership env w ac i).
Proof using.
  unfold AssignMembership, MemberStore.AssignMembership. keep_with ltac:(first [apply k_membershipInTenant; apply stable_whole|apply k_run; [apply stable_whole|]]).
  - intros ids t n r t' n' Hw H. by apply (membership_assign_spec _ _ _ _ _ _ _ _ _ _ _ _ _ _ _ H).
  - intros ids. by apply sql_query.
Qed.

Lemma k_UnassignMembership m i r : keeps (UnassignMembership env ac m i r).
Proof using.
  unfold UnassignMembership, MemberStore.UnassignMembership. keep_with ltac:(first [apply k_membershipInTenant; apply stable_whole|apply k_run; [apply stable_whole|]]).
  intros ids t n k t' n' Hw H. apply membership_unassign_is in H as [-> _]. by apply whole_unassign.
Qed.

Lemma k_RemoveMembershipAssignment a r : keeps (RemoveMembershipAssignment env ac a r).
Proof using.
  unfold RemoveMembershipAssignment, LeaveMembership. keep_with ltac:(apply k_run; [apply stable_whole|]).
  intros _. match goal with |- sql _ (match ?x with _ => _ end) _ => destruct x end; [|by apply sql_ret]. intros t n k t' n' Hw H. unfold leave_row in H.
  apply bind_ok in H as (m & [t1 n1] & [= <- <- <-] & H). destruct (_ !! _) as [m|]; [|by injection H as _ <- _].
  destruct (_ && _); [|by injection H as _ <- _]. apply bind_ok in H as (j & [t2 n2] & H & [= _ <- _]).
  apply membership_leave_is in H as [-> _]. by apply whole_leave.
Qed.

End Handlers.

(** ** Whatever is asked, by whomever, whatever fails *)
Inductive Request :=
| RSearchGrants (q : GrantSearch) | RListGrants (identity : string) (revoked : bool) | RCreateGrant (i : GrantCreate)
| RRevokeGrant (id reason : string) | RListMemberships | RCreateMembership (name description anchor : string)
| RSetEntries (membership : string) (entries : list MembershipEntryInput) | RAssign (i : MembershipAssignmentInput)
| RUnassign (membership identity reason : string) | RRemove (assignment reason : string) | RResync (membership : string)
| RListAssignments (f : MembershipAssignmentFilter).

Definition done_with {S E A} (m : Eff S E A) : S -> S := fun s => snd (m s).

Definition serve (env : Env) (w : World) (tx : Text) (ac : ACtx) (r : Request) : Store Tables -> Store Tables :=
  match r with
  | RSearchGrants q => done_with (SearchGrants env w tx ac q)
  | RListGrants i b => done_with (ListGrants env w tx ac i b)
  | RCreateGrant i => done_with (CreateGrant env w ac i)
  | RRevokeGrant id r => done_with (RevokeGrant env ac id r)
  | RListMemberships => done_with (ListMemberships env w tx ac)
  | RCreateMembership n d a => done_with (CreateMembership env w ac n d a)
  | RSetEntries m l => done_with (SetMembershipEntries env w tx ac m l)
  | RAssign i => done_with (AssignMembership env w ac i)
  | RUnassign m i r => done_with (UnassignMembership env ac m i r)
  | RRemove a r => done_with (RemoveMembershipAssignment env ac a r)
  | RResync m => done_with (ResyncMembership env w ac m)
  | RListAssignments f => done_with (ListMembershipAssignments env w ac f)
  end.

(** Requests one after another; each has its own caller, its own database
    failures, clock and ids, and finds roles, people and places as they then
    are. *)
Inductive reached (s0 : Store Tables) : Store Tables -> Prop :=
| reached_start : reached s0 s0
| reached_next s env w tx ac r : reached s0 s -> reached s0 (serve env w tx ac r s).

Lemma kept {A} (m : Eff (Store Tables) Error A) s : hoare Whole AtRest Whole m (fun _ => Whole) -> sound AtRest Whole s -> sound AtRest Whole (done_with m s).
Proof. intros H Hs. specialize (H s Hs). unfold done_with. by destruct (m s) as [[a|e] s']. Qed.

Lemma served_whole env w tx ac r s : sound AtRest Whole s -> sound AtRest Whole (serve env w tx ac r s).
Proof.
  intros Hs. destruct r; cbn [serve]; apply kept; try done;
    [apply k_SearchGrants; apply stable_whole|apply k_ListGrants; apply stable_whole|apply k_CreateGrant|apply k_RevokeGrant|apply k_ListMemberships; apply stable_whole|apply k_CreateMembership
    |apply k_SetMembershipEntries|apply k_AssignMembership|apply k_UnassignMembership|apply k_RemoveMembershipAssignment|apply k_ResyncMembership
    |apply k_ListMembershipAssignments; apply stable_whole].
Qed.

Lemma history_whole s0 s : sound AtRest Whole s0 -> reached s0 s -> sound AtRest Whole s.
Proof. intros H0 H. induction H; [done|by apply served_whole]. Qed.

End MemberKeeps.

(** * A membership's contents replaced: which entries stay, which go and which
    come (ReplaceMembershipEntries), as multisets of what makes two entries the
    same. *)
Module MemberEntries.
Import Apperr Pg Db Members MemberStore MemberProps MemberOps MemberKeeps.

Section Keys.
Context (tx : Text).

(** ** Keys *)
Lemma entryKey_perm role l l' : l ≡ₚ l' -> entryKey tx role l = entryKey tx role l'.
Proof using.
  intros H. unfold entryKey. do 2 f_equal. f_equal. apply (StronglySorted_unique String.le).
  - apply StronglySorted_merge_sort; apply _.
  - apply StronglySorted_merge_sort; apply _.
  - rewrite !merge_sort_Permutation. exact H.
Qed.

(** What is under the keys, as one list of pairs. *)
Definition flat (m : gmap string (list string)) : list (string * string) := flat_map (fun '(k, l) => map (pair k) l) (map_to_list m).

#[local] Instance flat_map_perm : Proper ((≡ₚ) ==> (≡ₚ)) (flat_map (fun '(k, l) => map (pair (A := string) (B := string) k) l)).
Proof. intros l l' H. induction H as [|[k x] l l' _ IH|[k x] [k' x'] l|l l' l'' _ IH1 _ IH2]; cbn; [done|by rewrite IH| |by rewrite IH1].
  rewrite !app_assoc. f_equiv. apply Permutation_app_comm.
Qed.

Lemma flat_insert m k l : m !! k = None -> flat (<[k := l]> m) ≡ₚ map (pair k) l ++ flat m.
Proof using. intros H. unfold flat. by rewrite map_to_list_insert. Qed.
Lemma flat_delete m k l : m !! k = Some l -> flat m ≡ₚ map (pair k) l ++ flat (delete k m).
Proof using. intros H. unfold flat. rewrite <- (map_to_list_delete m k l H). done. Qed.

Lemma flat_put m k l : flat (<[k := l]> m) ≡ₚ map (pair k) l ++ flat (delete k m).
Proof using. rewrite <- insert_delete_eq. apply flat_insert, lookup_delete_eq. Qed.

Lemma flat_append m k v : flat (append_to m k v) ≡ₚ (k, v) :: flat m.
Proof using.
  unfold append_to, under. rewrite flat_put, map_app. cbn. destruct (m !! k) as [l|] eqn:E; cbn.
  - rewrite (flat_delete m k l E). rewrite <- app_assoc. cbn. by rewrite Permutation_middle.
  - by rewrite delete_id.
Qed.

Lemma flat_have_of live places : flat (have_of tx live places) ≡ₚ map (fun e => (entryKey tx (er_RoleID e) (under places (er_ID e)), er_ID e)) live.
Proof using.
  unfold have_of. assert (forall l m, flat (foldl (fun m e => append_to m (entryKey tx (er_RoleID e) (under places (er_ID e))) (er_ID e)) m l) ≡ₚ
    map (fun e => (entryKey tx (er_RoleID e) (under places (er_ID e)), er_ID e)) l ++ flat m) as G.
  { induction l as [|e l IH]; intros m; [done|]. cbn [foldl map]. rewrite IH, flat_append. cbn. by rewrite Permutation_middle. }
  rewrite G. unfold flat at 1. rewrite map_to_list_empty. cbn. by rewrite app_nil_r.
Qed.

(** The places of an owner, as placesOf keeps them. *)
Lemma under_placesOf scopes o : under (placesOf tx scopes) o = map (record_key tx) (List.filter (fun r => bool_decide (sd_Owner r = o)) scopes).
Proof using.
  unfold placesOf. assert (forall l m, under (foldl (fun m r => append_to m (sd_Owner r) (record_key tx r)) m l) o =
    under m o ++ map (record_key tx) (List.filter (fun r => bool_decide (sd_Owner r = o)) l)) as G.
  { induction l as [|r l IH]; intros m; cbn; [by rewrite app_nil_r|]. rewrite IH. unfold append_to, under.
    case_bool_decide as E; [rewrite E, lookup_insert_eq; cbn; by rewrite <- app_assoc|by rewrite lookup_insert_ne]. }
  by rewrite G.
Qed.

(** ** The loop over the given entries *)
Lemma keep_or_add_spec entries : forall have add have' add', keep_or_add tx have add entries = (have', add') ->
  exists kept new, add' = add ++ new /\ flat have ≡ₚ kept ++ flat have' /\
    map (input_key tx) entries ≡ₚ map fst kept ++ map (input_key tx) new.
Proof using.
  induction entries as [|e l IH]; intros have add have' add' H; cbn [keep_or_add] in H.
  - injection H as <- <-. exists [], []. by rewrite app_nil_r.
  - set (k := input_key tx e) in *. destruct (under have k) as [|id rest] eqn:E.
    + destruct (IH _ _ _ _ H) as (kept & new & -> & Hf & Hk). exists kept, (e :: new). rewrite <- app_assoc. split; [done|]. split; [done|].
      cbn [map]. rewrite Hk. apply Permutation_middle.
    + destruct (IH _ _ _ _ H) as (kept & new & -> & Hf & Hk). exists ((k, id) :: kept), new. split; [done|].
      assert (have !! k = Some (id :: rest)) as Hh by (unfold under in E; destruct (have !! k); cbn in E; congruence).
      split; [|cbn [map fst app]; by rewrite Hk]. rewrite (flat_delete _ _ _ Hh). cbn [map app]. f_equiv.
      by rewrite <- Hf, flat_put.
Qed.

(** Nothing is left under a key that something was added for. *)
Lemma keep_or_add_empty entries : forall have add have' add' k, keep_or_add tx have add entries = (have', add') -> under have k = [] -> under have' k = [].
Proof using.
  induction entries as [|e l IH]; intros have add have' add' k H Hk; cbn [keep_or_add] in H; [by injection H as <- _|].
  destruct (under have (input_key tx e)) as [|id rest] eqn:E; [by eapply IH|]. eapply IH; [exact H|]. unfold under in *.
  rewrite lookup_insert_ne; [done|]. intros <-. by rewrite Hk in E.
Qed.
Lemma keep_or_add_added entries : forall have add have' add', keep_or_add tx have add entries = (have', add') ->
  forall e, e ∈ add' -> e ∈ add \/ under have' (input_key tx e) = [].
Proof using.
  induction entries as [|i l IH]; intros have add have' add' H e He; cbn [keep_or_add] in H; [injection H as _ <-; by left|].
  destruct (under have (input_key tx i)) as [|id rest] eqn:E; [|by eapply IH].
  destruct (IH _ _ _ _ H e He) as [[?| ->%list_elem_of_singleton]%elem_of_app|?]; [by left| |by right]. right. by eapply keep_or_add_empty.
Qed.

Lemma elem_of_flat m k v : (k, v) ∈ flat m <-> v ∈ under m k.
Proof using.
  unfold flat. rewrite list_elem_of_In, in_flat_map. unfold under. split.
  - intros ([k' l] & Hin%list_elem_of_In%elem_of_map_to_list & (v' & [= <- <-] & Hv)%in_map_iff). rewrite Hin. by apply list_elem_of_In.
  - destruct (m !! k) as [l|] eqn:E; cbn; [|by intros ?%not_elem_of_nil]. intros Hv. exists (k, l). split; [by apply list_elem_of_In, elem_of_map_to_list|].
    by apply in_map, list_elem_of_In.
Qed.

Lemma retire_of_flat m : retire_of m = map snd (flat m).
Proof using.
  unfold retire_of, flat. induction (map_to_list m) as [|[k l] r IH]; [done|]. cbn. rewrite IH, map_app, map_map, map_id. done.
Qed.

(** ** Keys of what the tables hold *)
Definition stored_place (r : string * string * PinRow) : string := placeKey tx (fst (fst r)) (snd (fst r)) (pi_Inherit (snd r)) (pi_Exclude (snd r)).
Definition stored_key (t : Tables) (e : string) : string :=
  match t_entries t !! e with Some er => entryKey tx (en_Role er) (map stored_place (places_of t e)) | None => "" end.

(** The rows the foreign keys name are there, and entries have uuids. *)
Record knows (w : World) (t : Tables) : Prop := {
  kn_role : forall e er, t_entries t !! e = Some er -> is_Some (wo_role w (en_Role er));
  kn_node : forall e a n p, t_places t !! (e, a, n) = Some p -> is_Some (wo_node w n);
  kn_id : forall e, is_Some (t_entries t !! e) -> Uuid.canon e = Some e
}.

Lemma scope_keys w t cs o : knows w t -> o ∈ cs ->
  map (record_key tx) (List.filter (fun r => bool_decide (sd_Owner r = o)) (scope_records w tx (t_places t) cs)) ≡ₚ map stored_place (places_of t o).
Proof using.
  intros Hk Ho. assert (forall l : list (PinKey * PinRow), (forall k p, (k, p) ∈ l -> t_places t !! k = Some p) ->
    map (record_key tx) (List.filter (fun r => bool_decide (sd_Owner r = o)) (omap (fun '((o, axis, node), p) =>
      if bool_decide (o ∈ cs)
      then (fun _ => {| sd_Owner := o; sd_Axis := axis; sd_NodeID := node; sd_NodeName := wo_node_name w node;
                        sd_Inherit := pi_Inherit p; sd_Exclude := pi_Exclude p |}) <$> wo_node w node
      else None) l)) =
    map stored_place (omap (fun '((e, axis, node), p) => if bool_decide (e = o) then Some (axis, node, p) else None) l)) as G.
  { induction l as [|[[[e a] n] p] l IH]; intros Hin; [done|]. specialize (IH ltac:(intros; apply Hin; by right)).
    destruct (kn_node _ _ Hk e a n p) as [x Hx]; [apply Hin; by left|]. cbn. destruct (bool_decide (e ∈ cs)) eqn:Ee; cbn.
    - rewrite Hx. cbn. destruct (bool_decide (e = o)); cbn; [f_equal|]; exact IH.
    - rewrite (bool_decide_false (e = o)) by (intros ->; by unbool). apply IH. }
  unfold places_of. rewrite <- (G (map_to_list (t_places t))); [|by intros k p Hkp; apply elem_of_map_to_list].
  apply Permutation_map. unfold scope_records.
  assert (forall (f : ScopeRecord -> bool) l l', l ≡ₚ l' -> List.filter f l ≡ₚ List.filter f l') as Hf.
  { intros f l l' H. induction H as [|x l l' _ IH|x y l|l l' l'' _ IH1 _ IH2]; cbn; [done|by destruct (f x); rewrite IH| |by rewrite IH1].
    destruct (f x), (f y); try done. apply Permutation_swap. }
  apply Hf, merge_sort_Permutation.
Qed.

Lemma entry_keys w t c places : knows w t -> (forall e, e ∈ live_entries t c -> under places e ≡ₚ map stored_place (places_of t e)) ->
  map (fun r => (entryKey tx (er_RoleID r) (under places (er_ID r)), er_ID r)) (entry_records w tx t [c]) ≡ₚ
  map (fun e => (stored_key t e, e)) (live_entries t c).
Proof using.
  intros Hk Hp. unfold entry_records. rewrite merge_sort_Permutation. unfold live_entries in *.
  assert (forall k er, (k, er) ∈ map_to_list (t_entries t) -> t_entries t !! k = Some er) as Hin by (intros k er; apply elem_of_map_to_list).
  revert Hin Hp. generalize (map_to_list (t_entries t)) as l. induction l as [|[e er] l IH]; intros Hin Hp; [done|].
  destruct (kn_role _ _ Hk e er ltac:(apply Hin; by left)) as [r Hr]. cbn in Hp |- *. unfold live_entry in *.
  specialize (IH ltac:(intros; apply Hin; by right)).
  assert (bool_decide (en_Membership er ∈ [c]) = bool_decide (en_Membership er = c)) as ->.
  { apply bool_decide_ext. by rewrite list_elem_of_singleton. }
  destruct (_ && _) eqn:E; cbn in *; [|by apply IH]. rewrite Hr. cbn. rewrite IH by (intros; apply Hp; by right).
  f_equiv. unfold stored_key. rewrite (Hin e er) by (by left). f_equal. apply entryKey_perm, Hp. by left.
Qed.

(** ** Places and entries added *)
Hypothesis lowers : forall s c, Uuid.canon s = Some c -> tx_ToLower tx s = c /\ tx_ToLower tx c = c.

Lemma omap_perm {A B} (f : A -> option B) l l' : l ≡ₚ l' -> omap f l ≡ₚ omap f l'.
Proof using.
  intros H. induction H as [|x l l' _ IH|x y l|l l' l'' _ IH1 _ IH2]; cbn; [done|by destruct (f x); rewrite IH| |by rewrite IH1].
  destruct (f x), (f y); try done. apply Permutation_swap.
Qed.

Lemma places_of_insert t e a n p o : t_places t !! (e, a, n) = None ->
  places_of (with_places t (<[(e, a, n) := p]> (t_places t))) o ≡ₚ (if bool_decide (e = o) then [(a, n, p)] else []) ++ places_of t o.
Proof using.
  intros H. unfold places_of. cbn [t_places with_places]. rewrite (omap_perm _ _ _ (map_to_list_insert _ _ _ H)). cbn. by case_bool_decide.
Qed.

Lemma live_entries_insert t e er c : t_entries t !! e = None ->
  live_entries (with_entries t (<[e := er]> (t_entries t))) c ≡ₚ (if live_entry c er then [e] else []) ++ live_entries t c.
Proof using.
  intros H. unfold live_entries. cbn [t_entries with_entries]. rewrite (omap_perm _ _ _ (map_to_list_insert _ _ _ H)). cbn. by destruct (live_entry _ _).
Qed.

Section Running.
Context (env : Env) (w : World).

Lemma run_in_tx {A} map (q : (nat -> string) -> Sql_ Tables A) s a s' : st_tx s = InTx -> run env map q s = (Ok a, s') ->
  exists n, q (ev_id env (st_calls s)) (st_tables s, 0) = (Ok a, (st_tables s', n)) /\ st_tx s' = InTx.
Proof using.
  intros Hx H. apply statement_ok in H as (t & n & H & Hx' & _ & Ht). rewrite Hx in Ht. subst t. exists n. by rewrite Hx', Hx.
Qed.

Lemma uuid_read {A} id (k : string -> Eff (Store Tables) Error A) s a s' : with_uuid id k s = (Ok a, s') ->
  exists c, Uuid.canon id = Some c /\ k c s = (Ok a, s').
Proof using. unfold with_uuid. destruct (Uuid.canon id) as [c|]; [|done]. intros H. by exists c. Qed.

(** Nothing but places of one entry. *)
Record placed (e : string) (t t' : Tables) : Prop := {
  pl_frame : t_grants t' = t_grants t /\ t_pins t' = t_pins t /\ t_memberships t' = t_memberships t /\ t_entries t' = t_entries t /\ t_members t' = t_members t;
  pl_other : forall o, o <> e -> places_of t' o ≡ₚ places_of t o
}.

Lemma insert_places_ok e tid l : forall s s', st_tx s = InTx -> insert_places env w e tid l s = (Ok tt, s') ->
  st_tx s' = InTx /\ placed e (st_tables s) (st_tables s') /\
  map stored_place (places_of (st_tables s') e) ≡ₚ map (scope_key tx) l ++ map stored_place (places_of (st_tables s) e).
Proof using lowers.
  induction l as [|sc l IH]; intros s s' Hx H; cbn [insert_places] in H.
  - injection H as <-. done.
  - apply bind_ok in H as ([] & s1 & H1 & H). apply uuid_read in H1 as (c & Hc & H1). apply run_in_tx in H1 as (n & H1 & Hx1); [|done].
    set (p := {| pi_Tenant := tid; pi_Inherit := si_Inherit sc; pi_Exclude := si_Exclude sc |}) in *.
    unfold insert_entry_place in H1. apply bind_ok in H1 as ([] & [t1 n1] & Hm & H1). unfold must in Hm. cbn [fst] in Hm.
    destruct (entry_place_checks w (st_tables s) _ p) eqn:Hk in Hm; [done|]. injection Hm as <- <-.
    apply bind_ok in H1 as ([] & [t2 n2] & [= <- <-] & H1). cbn [fst snd] in H1.
    set (t2 := with_places (st_tables s) (<[(e, si_Axis sc, c) := p]> (t_places (st_tables s)))) in *.
    assert (t_places (st_tables s) !! (e, si_Axis sc, c) = None) as Hfree.
    { unfold entry_place_checks in Hk. destruct (bool_decide (is_Some _)) eqn:Eb in Hk; [done|]. unbool.
      by destruct (t_places (st_tables s) !! (e, si_Axis sc, c)); [destruct Eb; eexists|]. }
    assert (t_places (st_tables s1) = t_places t2 /\ placed e (st_tables s) (st_tables s1)) as [Hp1 Hpl].
    { assert (forall o, o <> e -> places_of t2 o ≡ₚ places_of (st_tables s) o) as Ho.
      { intros o Ho. unfold t2. rewrite places_of_insert by done. by rewrite bool_decide_false by congruence. }
      destruct (pi_Exclude p); injection H1 as <- _; (split; [done|]); (split; [done|]); exact Ho. }
    destruct (IH _ _ Hx1 H) as (Hx2 & Hpl2 & Hk2). split; [done|]. split.
    + destruct Hpl as [(F1 & F2 & F3 & F4 & F5) Ho], Hpl2 as [(G1 & G2 & G3 & G4 & G5) Ho2]. split; [by rewrite G1, G2, G3, G4, G5|].
      intros o Hne. rewrite Ho2, Ho; done.
    + rewrite Hk2. assert (places_of (st_tables s1) e ≡ₚ (si_Axis sc, c, p) :: places_of (st_tables s) e) as ->.
      { transitivity (places_of t2 e); [unfold places_of; by rewrite Hp1|]. unfold t2. rewrite places_of_insert by done. by rewrite bool_decide_true. }
      cbn [map]. rewrite <- Permutation_middle. cbn [app]. f_equiv. unfold stored_place, scope_key. cbn. unfold placeKey.
      destruct (lowers _ _ Hc) as [-> ->]. done.
Qed.

(** Entries added, with the keys of what was asked for. *)
Definition housed (t : Tables) : Prop := forall e, t_entries t !! e = None -> places_of t e = [].
Record added (c : string) (l : list MembershipEntryInput) (ids : list string) (t t' : Tables) : Prop := {
  ad_live : live_entries t' c ≡ₚ ids ++ live_entries t c;
  ad_keys : map (stored_key t') ids = map (input_key tx) l;
  ad_keep : forall e er, t_entries t !! e = Some er -> t_entries t' !! e = Some er /\ stored_key t' e = stored_key t e;
  ad_new : forall e er, t_entries t' !! e = Some er -> t_entries t !! e = Some er \/ e ∈ ids;
  ad_frame : t_grants t' = t_grants t /\ t_pins t' = t_pins t /\ t_memberships t' = t_memberships t /\ t_members t' = t_members t;
  ad_housed : housed t'
}.

Lemma stored_key_same t t' e : t_entries t' !! e = t_entries t !! e -> places_of t' e ≡ₚ places_of t e -> stored_key t' e = stored_key t e.
Proof using. intros He Hp. unfold stored_key. rewrite He. destruct (t_entries t !! e); [|done]. by apply entryKey_perm, Permutation_map. Qed.

Lemma added_none c t : housed t -> added c [] [] t t.
Proof using. intros H. split; auto. Qed.

Lemma insert_entries_ok c tid l : forall s s', st_tx s = InTx -> housed (st_tables s) -> insert_entries env w c tid l s = (Ok tt, s') ->
  st_tx s' = InTx /\ exists ids, added c l ids (st_tables s) (st_tables s').
Proof using lowers.
  induction l as [|e l IH]; intros s s' Hx Hh H; cbn [insert_entries] in H.
  - injection H as <-. split; [done|]. exists []. by apply added_none.
  - apply bind_ok in H as (id & s1 & H1 & H). apply uuid_read in H1 as (role & Hrole & H1). apply run_in_tx in H1 as (n & H1 & Hx1); [|done].
    apply insert_entry_is in H1 as (Hid & _ & Ht1 & _). apply bind_ok in H as ([] & s2 & H2 & H).
    apply insert_places_ok in H2 as (Hx2 & [(F1 & F2 & F3 & F4 & F5) Ho] & Hk); [|done].
    set (er := {| en_Membership := c; en_Tenant := tid; en_Role := role; en_RetiredAt := None |}) in *.
    assert (forall o, places_of (st_tables s1) o = places_of (st_tables s) o) as Hps by (intros o; by rewrite Ht1).
    assert (t_entries (st_tables s2) = <[id := er]> (t_entries (st_tables s))) as He2 by (rewrite F4, Ht1; done).
    rewrite Hps, (Hh id Hid), app_nil_r in Hk.
    assert (housed (st_tables s2)) as Hh2.
    { intros o Hno. rewrite He2 in Hno. destruct (decide (o = id)) as [->|Hne]; [by rewrite lookup_insert_eq in Hno|].
      rewrite lookup_insert_ne in Hno by done. apply Permutation_nil_r. rewrite (Ho o Hne), Hps, (Hh o Hno). done. }
    destruct (IH _ _ Hx2 Hh2 H) as (Hx3 & ids & [A1 A2 A3 A4 (G1 & G2 & G3 & G4) A6]). split; [done|]. exists (id :: ids).
    assert (t_entries (st_tables s2) !! id = Some er) as Hid2 by (by rewrite He2, lookup_insert_eq).
    split; [| | | |by rewrite G1, G2, G3, G4, F1, F2, F3, F5, Ht1|done].
    + rewrite A1. assert (live_entries (st_tables s2) c ≡ₚ id :: live_entries (st_tables s) c) as ->; [|by rewrite <- Permutation_middle].
      transitivity (live_entries (st_tables s1) c); [unfold live_entries; by rewrite F4|]. rewrite Ht1, live_entries_insert by done.
      unfold live_entry. cbn. by rewrite bool_decide_true.
    + cbn [map]. f_equal; [|exact A2]. destruct (A3 _ _ Hid2) as [_ ->]. unfold stored_key. rewrite Hid2. unfold input_key.
      rewrite (entryKey_perm _ _ _ Hk). unfold entryKey. cbn [en_Role er]. by destruct (lowers _ _ Hrole) as [-> ->].
    + intros o r Hor. assert (o <> id) as Hne by (intros ->; congruence). assert (t_entries (st_tables s2) !! o = Some r) as Ho2 by (by rewrite He2, lookup_insert_ne).
      destruct (A3 _ _ Ho2) as [-> ->]. split; [done|]. apply stored_key_same; [by rewrite Ho2|]. by rewrite (Ho o Hne), Hps.
    + intros o r Hor. destruct (A4 _ _ Hor) as [H2|]; [|right; by right]. rewrite He2 in H2.
      destruct (decide (o = id)) as [->|Hne]; [right; by left|]. rewrite lookup_insert_ne in H2 by done. by left.
Qed.

(** Entries retired. *)
Definition retire_rows (c : string) (ids : list string) (t : Tables) : Tables :=
  with_entries t (map_imap (fun id e => Some (if bool_decide (en_Membership e = c) && bool_decide (id ∈ ids) && bool_decide (en_RetiredAt e = None)
                                              then retired env e else e)) (t_entries t)).

Lemma retire_rows_lookup c ids t e er' : t_entries (retire_rows c ids t) !! e = Some er' <->
  exists er, t_entries t !! e = Some er /\ er' = if live_entry c er && bool_decide (e ∈ ids) then retired env er else er.
Proof using.
  cbn. rewrite map_lookup_imap. unfold live_entry. destruct (t_entries t !! e) as [er|]; cbn; [|split; [done|by intros (? & [=] & _)]].
  assert (bool_decide (en_Membership er = c) && bool_decide (e ∈ ids) && bool_decide (en_RetiredAt er = None) =
    bool_decide (en_Membership er = c) && bool_decide (en_RetiredAt er = None) && bool_decide (e ∈ ids)) as -> by
    (destruct (bool_decide (en_Membership er = c)), (bool_decide (e ∈ ids)), (bool_decide (en_RetiredAt er = None)); done).
  split; [intros [= <-]; by exists er|by intros (? & [= <-] & ->)].
Qed.

Lemma live_retire_rows c ids t e : e ∈ live_entries (retire_rows c ids t) c <-> e ∈ live_entries t c /\ e ∉ ids.
Proof using.
  rewrite !live_entries_spec. split.
  - intros (er' & (er & He & ->)%retire_rows_lookup & Hm & Hr). destruct (live_entry c er) eqn:El; cbn in *.
    + destruct (bool_decide (e ∈ ids)) eqn:Ei; [done|]. unbool. split; [by exists er|done].
    + exfalso. unfold live_entry in El. by rewrite !bool_decide_true in El.
  - intros [(er & He & Hm & Hr) Hi]. exists er. split; [|done]. apply retire_rows_lookup. exists er. split; [done|].
    rewrite (bool_decide_false (e ∈ ids)) by done. by rewrite andb_false_r.
Qed.

(** What replacing leaves. *)
Record replaced (c : string) (entries : list MembershipEntryInput) (t t' : Tables) : Prop := {
  rp_keys : map (stored_key t') (live_entries t' c) ≡ₚ map (input_key tx) entries;
  rp_entries : forall e er, t_entries t !! e = Some er ->
    (t_entries t' !! e = Some er \/ (en_Membership er = c /\ en_RetiredAt er = None /\ t_entries t' !! e = Some (retired env er))) /\
    stored_key t' e = stored_key t e;
  rp_spared : forall e n, e ∈ live_entries t c -> e ∉ live_entries t' c -> n ∈ live_entries t' c -> t_entries t !! n = None ->
    stored_key t e <> stored_key t' n;
  rp_frame : t_grants t' = t_grants t /\ t_pins t' = t_pins t /\ t_memberships t' = t_memberships t /\ t_members t' = t_members t
}.

Lemma whole_housed t : Whole t -> housed t.
Proof using.
  intros Hw e He. destruct (places_of t e) as [|[[a n] p] l] eqn:E; [done|]. exfalso.
  assert ((a, n, p) ∈ places_of t e) as Hin%places_of_spec by (rewrite E; by left).
  destruct (wh_places t Hw _ _ _ _ Hin) as (er & _ & Her & _). congruence.
Qed.

(** What the two queries and the loop come to. *)
Lemma plan_spec t c scopes entries have add : knows w t ->
  scopes = match map er_ID (entry_records w tx t [c]) with [] => [] | ids => scope_records w tx (t_places t) ids end ->
  keep_or_add tx (have_of tx (entry_records w tx t [c]) (placesOf tx scopes)) [] entries = (have, add) ->
  exists kept, map (fun e => (stored_key t e, e)) (live_entries t c) ≡ₚ kept ++ flat have /\
    map (input_key tx) entries ≡ₚ map fst kept ++ map (input_key tx) add /\
    forall e k v, e ∈ add -> (k, v) ∈ flat have -> input_key tx e <> k.
Proof using.
  intros Hk Hs H. destruct (keep_or_add_spec _ _ _ _ _ H) as (kept & new & -> & Hf & Hi). exists kept. cbn [app] in *.
  assert (forall e, e ∈ live_entries t c -> e ∈ map er_ID (entry_records w tx t [c])) as Hids.
  { intros e (er & He & Hm & Hr)%live_entries_spec. destruct (kn_role _ _ Hk _ _ He) as [r Hro].
    unfold entry_records. rewrite merge_sort_Permutation. apply list_elem_of_fmap. eexists. split; [|apply list_elem_of_omap; exists (e, er); split; [by apply elem_of_map_to_list|]].
    2:{ cbn. rewrite bool_decide_true by (rewrite Hm; by left). by rewrite bool_decide_true, Hro. } done. }
  split; [|split; [done|]].
  - rewrite <- Hf, flat_have_of. symmetry. apply entry_keys; [done|]. intros e He%Hids. rewrite under_placesOf, Hs.
    destruct (map er_ID _) as [|x l]; [by apply not_elem_of_nil in He|]. by apply scope_keys.
  - intros e k v He Hkv Heq. destruct (keep_or_add_added _ _ _ _ _ H e He) as [?%not_elem_of_nil|Hn]; [done|].
    apply elem_of_flat in Hkv. rewrite <- Heq, Hn in Hkv. by apply not_elem_of_nil in Hkv.
Qed.

Lemma mapM_canon l : (forall x, x ∈ l -> Uuid.canon x = Some x) -> mapM Uuid.canon l = Some l.
Proof using.
  induction l as [|x l IH]; intros H; [done|]. cbn. rewrite (H x) by (by left). cbn. rewrite IH; [done|]. intros y Hy. apply H. by right.
Qed.

Lemma entry_record_known t c x : x ∈ map er_ID (entry_records w tx t [c]) -> is_Some (t_entries t !! x).
Proof using.
  intros (r & -> & Hr)%list_elem_of_fmap. unfold entry_records in Hr. rewrite merge_sort_Permutation in Hr.
  apply list_elem_of_omap in Hr as ([e er] & Hin%elem_of_map_to_list & H). destruct (_ && _); [|done]. destruct (wo_role w _); [|done]. injection H as <-. by exists er.
Qed.

Lemma ask_in_tx {A} (f : Tables -> A) s a s' : st_tx s = InTx -> ask env f s = (Ok a, s') -> a = f (st_tables s) /\ st_tables s' = st_tables s /\ st_tx s' = InTx.
Proof using. intros Hx H. apply run_in_tx in H as (n & [= -> <- _] & Hx'); done. Qed.

Lemma reads_ok c membershipID s live scopes s1 s2 : st_tx s = InTx -> knows w (st_tables s) -> Uuid.canon membershipID = Some c ->
  MembershipEntries env w tx [membershipID] s = (Ok live, s1) -> MembershipEntryScopes env w tx (map er_ID live) s1 = (Ok scopes, s2) ->
  live = entry_records w tx (st_tables s) [c] /\
  scopes = match map er_ID live with [] => [] | ids => scope_records w tx (t_places (st_tables s)) ids end /\ st_tables s2 = st_tables s /\ st_tx s2 = InTx.
Proof using.
  intros Hx Hk Hc H1 H2. unfold MembershipEntries in H1. cbn [mapM] in H1. rewrite Hc in H1. cbn in H1. apply ask_in_tx in H1 as (-> & Ht1 & Hx1); [|done].
  split; [done|]. unfold MembershipEntryScopes, scopes_of in H2.
  destruct (map er_ID (entry_records w tx (st_tables s) [c])) as [|x l] eqn:El; [injection H2 as <- <-; done|].
  rewrite mapM_canon in H2.
  - apply ask_in_tx in H2 as (-> & Ht2 & Hx2); [|done]. by rewrite Ht2, Ht1.
  - intros y Hy. apply (kn_id _ _ Hk), (entry_record_known _ c). by rewrite El.
Qed.

Lemma retire_ok c ids s s' : st_tx s = InTx ->
  (match ids with [] => mret tt | x :: l => run env MapErrSaying (fun _ => retire_entries env c (x :: l)) end) s = (Ok tt, s') ->
  st_tx s' = InTx /\ st_tables s' = retire_rows c ids (st_tables s).
Proof using.
  intros Hx H. destruct ids as [|x l]; [|by apply run_in_tx in H as (n & [= <- _] & Hx')].
  injection H as <-. split; [done|]. transitivity (with_entries (st_tables s) (t_entries (st_tables s))); [by destruct (st_tables s)|].
  unfold retire_rows. f_equal. apply map_eq. intros e. rewrite map_lookup_imap. destruct (t_entries _ !! e) as [er|]; [|done]. cbn. by rewrite (bool_decide_false (e ∈ [])) by (by intros ?%not_elem_of_nil); rewrite andb_false_r.
Qed.

(** Of the entries there were, the kept stay live and the others do not. *)
Lemma stay_live t c kept have : map (fun e => (stored_key t e, e)) (live_entries t c) ≡ₚ kept ++ flat have ->
  live_entries (retire_rows c (retire_of have) t) c ≡ₚ map snd kept /\
  (forall k e, (k, e) ∈ kept ++ flat have -> k = stored_key t e) /\ (forall e, e ∈ live_entries t c -> e ∉ map snd kept -> (stored_key t e, e) ∈ flat have).
Proof using.
  intros H. assert (forall k e, (k, e) ∈ kept ++ flat have -> k = stored_key t e /\ e ∈ live_entries t c) as Hke.
  { intros k e Hin. rewrite <- H in Hin. apply list_elem_of_fmap in Hin as (e' & [= -> ->] & He). done. }
  assert (live_entries t c ≡ₚ map snd kept ++ retire_of have) as Hl.
  { rewrite retire_of_flat, <- map_app, <- H, map_map. cbn. by rewrite map_id. }
  pose proof (live_entries_NoDup t c) as Hnd. rewrite Hl in Hnd. apply NoDup_app in Hnd as (Hnd1 & Hdis & _).
  split; [|split; [by intros k e Hin; apply Hke|]].
  - apply NoDup_Permutation; [apply live_entries_NoDup|done|]. intros e. rewrite live_retire_rows, Hl, elem_of_app. split; [by intros [[?|?] ?]|].
    intros He. split; [by left|by apply Hdis].
  - intros e He Hn. assert ((stored_key t e, e) ∈ kept ++ flat have) as Hin by (rewrite <- H; apply list_elem_of_fmap; by exists e).
    apply elem_of_app in Hin as [Hin|]; [|done]. destruct Hn. by apply (list_elem_of_fmap_2 snd) in Hin.
Qed.

Lemma retired_key c ids t e : stored_key (retire_rows c ids t) e = stored_key t e.
Proof using.
  unfold stored_key. destruct (t_entries t !! e) as [er|] eqn:E.
  - assert (t_entries (retire_rows c ids t) !! e = Some (if live_entry c er && bool_decide (e ∈ ids) then retired env er else er)) as ->.
    { apply retire_rows_lookup. by exists er. }
    by destruct (_ && _).
  - destruct (t_entries (retire_rows c ids t) !! e) as [er|] eqn:E'; [|done]. apply retire_rows_lookup in E' as (er' & E' & _). congruence.
Qed.

Lemma replaced_as_planned t c entries kept have add ids t' :
  map (fun e => (stored_key t e, e)) (live_entries t c) ≡ₚ kept ++ flat have ->
  map (input_key tx) entries ≡ₚ map fst kept ++ map (input_key tx) add ->
  (forall e k v, e ∈ add -> (k, v) ∈ flat have -> input_key tx e <> k) ->
  added c add ids (retire_rows c (retire_of have) t) t' -> replaced c entries t t'.
Proof using.
  intros Hlive Hin Hapart [A1 A2 A3 A4 (G1 & G2 & G3 & G4) _]. destruct (stay_live _ _ _ _ Hlive) as (Hst & Hkeys & Hgo).
  assert (forall e, is_Some (t_entries t !! e) -> stored_key t' e = stored_key t e /\ is_Some (t_entries (retire_rows c (retire_of have) t) !! e)) as Hsame.
  { intros e [er He]. assert (exists er', t_entries (retire_rows c (retire_of have) t) !! e = Some er') as [er' He'].
    { eexists. apply retire_rows_lookup. by exists er. }
    destruct (A3 _ _ He') as [_ ->]. rewrite retired_key. split; [done|by exists er']. }
  split.
  - rewrite A1, map_app, A2, Hst, Hin, Permutation_app_comm. f_equiv. rewrite map_map. apply reflexive_eq, map_ext_in. intros [k e] Hk%list_elem_of_In.
    cbn. assert ((k, e) ∈ kept ++ flat have) as Hk' by (apply elem_of_app; by left). rewrite (Hkeys _ _ Hk'). apply Hsame.
    rewrite <- Hlive in Hk'. apply list_elem_of_fmap in Hk' as (e' & [= _ ->] & (er & He & _)%live_entries_spec). by exists er.
  - intros e er He. split; [|apply Hsame; by exists er]. assert (t_entries (retire_rows c (retire_of have) t) !! e =
      Some (if live_entry c er && bool_decide (e ∈ retire_of have) then retired env er else er)) as He'.
    { apply retire_rows_lookup. by exists er. }
    destruct (A3 _ _ He') as [-> _]. destruct (live_entry c er && _) eqn:El; [|by left]. right. unfold live_entry in El. by unbool.
  - intros e n He Hne Hn Hnew. rewrite A1, Hst in Hne, Hn. rewrite elem_of_app in Hne, Hn.
    assert ((stored_key t e, e) ∈ flat have) as Hf by (apply Hgo; tauto).
    destruct Hn as [Hn|Hn]; [|exfalso; apply list_elem_of_fmap in Hn as ([k n'] & -> & Hk)].
    + assert (stored_key t' n ∈ map (input_key tx) add) as (i & -> & Hi)%list_elem_of_fmap by (rewrite <- A2; by apply list_elem_of_fmap_2).
      intros Heq. by apply (Hapart _ _ _ Hi Hf).
    + assert ((k, n') ∈ kept ++ flat have) as Hk' by (apply elem_of_app; by left). rewrite <- Hlive in Hk'.
      apply list_elem_of_fmap in Hk' as (e' & [= _ ->] & (er & Her & _)%live_entries_spec). cbn in Hnew. congruence.
  - done.
Qed.

Lemma replace_ok tenantID membershipID c entries s s' : st_tx s = InTx -> Whole (st_tables s) -> knows w (st_tables s) ->
  Uuid.canon membershipID = Some c -> ReplaceMembershipEntries env w tx tenantID membershipID entries s = (Ok tt, s') ->
  st_tx s' = InTx /\ replaced c entries (st_tables s) (st_tables s').
Proof using lowers.
  intros Hx Hw Hk Hc H. unfold ReplaceMembershipEntries, Tx in H. rewrite transaction_joins in H by (by rewrite Hx).
  apply bind_ok in H as (live & s1 & H1 & H). apply bind_ok in H as (scopes & s2 & H2 & H).
  destruct (reads_ok _ _ _ _ _ _ _ Hx Hk Hc H1 H2) as (-> & Hsc & Ht2 & Hx2). destruct (keep_or_add _ _ _ _) as [have add] eqn:Ek.
  destruct (plan_spec _ _ _ _ _ _ Hk Hsc Ek) as (kept & Hlive & Hin & Hapart). apply uuid_read in H as (c' & Hc' & H).
  rewrite Hc in Hc'. injection Hc' as <-. apply bind_ok in H as ([] & s3 & H3 & H). destruct (retire_ok c (retire_of have) s2 s3 Hx2 H3) as [Hx3 Ht3]. rewrite Ht2 in Ht3.
  assert (housed (st_tables s3)) as Hh3.
  { intros e He. rewrite Ht3. apply (whole_housed _ Hw). rewrite Ht3 in He. destruct (t_entries (st_tables s) !! e) as [er|] eqn:E; [|done]. exfalso.
    assert (is_Some (t_entries (retire_rows c (retire_of have) (st_tables s)) !! e)) as [? ?]; [|congruence]. eexists. apply retire_rows_lookup. exists er. by split. }
  assert (st_tx s' = InTx /\ exists ids, added c add ids (st_tables s3) (st_tables s')) as (Hx' & ids & Hadd).
  { destruct add as [|e l]; [injection H as <-; split; [done|]; exists []; by apply added_none|].
    apply uuid_read in H as (tid & _ & H). by eapply insert_entries_ok. }
  split; [done|]. rewrite Ht3 in Hadd. by eapply replaced_as_planned.
Qed.

End Running.
End Keys.
End MemberEntries.
