(* ===== verification/MemberTheorems.v ===== *)
(** What administering memberships comes to: a membership's contents replaced,
    somebody put in it, somebody out of it; and what holds at all times. *)

From Stdlib Require Import ZArith Lia Bool Ascii String.
From stdpp Require Import base gmap strings list sorting.
From S2P Require Import Prelude.
From S2P Require Import GoStrings.
From S2P Require Import GoConv.
From S2P Require Import Shared.
From S2P Require Import AdminGuard.
From S2P Require Import ScopeTree.
From S2P Require Import Db.
From S2P Require Import Members.
From S2P Require Import MemberStore.
From S2P Require Import MemberAdmin.
From S2P Require Import MemberProps.
From S2P Require Import MemberKeeps.

Module MemberTheorems.
Import Apperr Authctx Pg Db Members MemberStore MemberAdmin MemberProps MemberOps MemberKeeps MemberEntries.

(** ** At all times *)

(** C14: Whatever is asked of grants and memberships, by whomever, in whatever order
    and whatever fails: a grant that came from a membership carries its entry's
    role, its assignment's person, tenant and end, and exactly the entry's
    places with the assignment's own; an assignment and an entry give one live
    grant at most; a live grant of somebody who has left ran out before they
    did; a person holds a seat once; and every excluded place stands beside an
    included one. *)
Theorem memberships_stay_whole (s0 s : Store Tables) :
  Whole (st_tables s0) -> t_deferred (st_tables s0) = [] -> st_tx s0 = NoTx -> reached s0 s -> st_tx s = NoTx ->
  let t := st_tables s in
  (forall id g m, t_grants t !! id = Some g -> gr_ViaMember g = Some m -> derived_from t id g m) /\ once t /\ ended t /\ seats t /\
  (forall g a n p, t_pins t !! (g, a, n) = Some p -> pi_Exclude p = true -> is_include (t_pins t) g a = true) /\
  (forall e a n p, t_places t !! (e, a, n) = Some p -> pi_Exclude p = true -> is_include (t_places t) e a = true).
Proof.
  intros Hw Hd Hx0 Hr Hx. destruct (history_whole s0 s) as [Hw' Hrest]; [by split|done|]. specialize (Hrest Hx).
  cbv zeta. destruct (wh_backed _ Hw') as [Hb1 Hb2]. rewrite Hrest in Hb1, Hb2.
  split; [apply (wh_derived _ Hw')|]. split; [apply (wh_once _ Hw')|]. split; [apply (wh_ended _ Hw')|]. split; [apply (wh_seats _ Hw')|].
  split; [intros g a n p Hp He|intros e a n p Hp He]; [destruct (Hb1 _ _ _ _ Hp He)|destruct (Hb2 _ _ _ _ Hp He)]; set_solver.
Qed.

(** ** Calls between transactions *)
Section Alone.
Context (env : Env) (w : World) (tx : Text) (ac : ACtx).

Lemma settled_rest t : AtRest t -> settled t = t.
Proof. unfold AtRest. intros H. destruct t. cbn in *. by rewrite H. Qed.

Lemma ask_alone {A} (f : Tables -> A) s r s' : st_tx s = NoTx -> AtRest (st_tables s) -> ask env f s = (r, s') ->
  st_tables s' = st_tables s /\ st_tx s' = NoTx /\ forall a, r = Ok a -> a = f (st_tables s).
Proof.
  intros Hx Hr H. destruct r as [a|e].
  - apply statement_ok in H as (t & n & [= <- <- _] & Hx' & _ & Ht). rewrite Hx in Ht. destruct Ht as [_ ->]. rewrite settled_rest by done.
    rewrite Hx', Hx. split; [done|]. split; [done|]. by intros ? [= <-].
  - apply statement_err in H as (Ht & _ & Hx'). split; [done|]. split; [by apply Hx'|done].
Qed.

(** The membership looked up is the tenant's. *)
Lemma in_tenant_alone tenant id s r s' : st_tx s = NoTx -> AtRest (st_tables s) -> membershipInTenant env tenant id s = (r, s') ->
  st_tables s' = st_tables s /\ st_tx s' = NoTx /\
  forall m, r = Ok m -> exists c tid row, Uuid.canon id = Some c /\ Uuid.canon tenant = Some tid /\ t_memberships (st_tables s) !! c = Some row /\
    ms_Tenant row = tid /\ m = membershipRecord 0 c row.
Proof.
  intros Hx Hr H. unfold membershipInTenant, MembershipByID in H. destruct (bool_decide _); [by injection H as <- <-|].
  unfold with_uuid in H. destruct (Uuid.canon id) as [c|]; [|by injection H as <- <-]. destruct (Uuid.canon tenant) as [tid|]; [|by injection H as <- <-].
  unfold found, mbind, eff_bind in H. destruct (ask _ _ s) as [r1 s1] eqn:E. destruct (ask_alone _ _ _ _ Hx Hr E) as (Ht & Hx1 & Ha).
  destruct r1 as [o|e]; [|by injection H as <- <-]. rewrite (Ha _ eq_refl) in H. destruct (t_memberships _ !! c) as [row|] eqn:Em; [|by injection H as <- <-].
  destruct (bool_decide (ms_Tenant row = tid)) eqn:Et; [|by injection H as <- <-]. injection H as <- <-. unbool.
  do 2 (split; [done|]). intros m [= <-]. by exists c, tid, row.
Qed.

End Alone.

(** A caller the guard lets through. *)
Definition asks (ac : ACtx) (permission : string) (p : Principal) : Prop := AdminGuard.Require (ac_guard ac) (ac_caller ac) permission = Ok p.

Lemma require_split {A} ac permission (f : Principal -> Eff (Store Tables) Error A) s r s' :
  (Require ac permission ≫= f) s = (r, s') -> (exists e, r = Err e /\ s' = s) \/ exists p, asks ac permission p /\ f p s = (r, s').
Proof.
  unfold Require, lift, mbind, eff_bind, asks. destruct (AdminGuard.Require _ _ _) as [p|e]; [intros H; right; by exists p|].
  intros [= <- <-]. left. by exists e.
Qed.

(** ** A membership's contents replaced *)
Section InStep.
Context (env : Env) (w : World) (tx : Text).
Hypothesis lowers : forall x c, Uuid.canon x = Some c -> tx_ToLower tx x = c /\ tx_ToLower tx c = c.

(** What a membership [c] whose contents became [entries] comes to.  Its live
    entries are those asked for, by role and places; one that was there goes
    only when no equal one comes; its grants are in step, and no grant is
    touched but the live ones of retired entries. *)
Record brought_in_step (c : string) (entries : list MembershipEntryInput) (t t' : Tables) : Prop := {
  br_keys : map (stored_key tx t') (live_entries t' c) ≡ₚ map (input_key tx) entries;
  br_entries : forall e er, t_entries t !! e = Some er -> t_entries t' !! e = Some er \/
    (e ∈ live_entries t c /\ t_entries t' !! e = Some (retired env er) /\
     forall n, n ∈ live_entries t' c -> t_entries t !! n = None -> stored_key tx t e <> stored_key tx t' n);
  br_step : in_step (ev_now env) c t';
  br_kept : forall id g, t_grants t !! id = Some g -> t_grants t' !! id = Some g \/
    (live g = true /\ gr_ViaMembership g = Some c /\ is_retired t' (gr_ViaEntry g) = true /\
     exists why, t_grants t' !! id = Some (revoked (ev_now env) why g));
  br_new : forall id g, t_grants t' !! id = Some g -> t_grants t !! id = None ->
    exists mb m e er, mb ∈ current_members (ev_now env) t' c /\ e ∈ live_entries t' c /\ t_members t' !! mb = Some m /\
      t_entries t' !! e = Some er /\ g = derived (ev_now env) mb e m er /\ realm_guard w g = None /\ role_live w g = None
}.

Lemma stored_key_frame t t' e : t_entries t' = t_entries t -> t_places t' = t_places t -> stored_key tx t' e = stored_key tx t e.
Proof using. intros He Hp. unfold stored_key, places_of. by rewrite He, Hp. Qed.

Lemma replaced_resynced c entries t t1 t' : replaced tx env c entries t t1 ->
  extends (ev_now env) w (fun e mb => e ∈ live_entries t1 c /\ mb ∈ current_members (ev_now env) t1 c) (cleared (ev_now env) c t1) t' ->
  in_step (ev_now env) c t' -> brought_in_step c entries t t'.
Proof using.
  intros [R1 R2 R3 (F1 & F2 & F3 & F4)] Hx Hs. pose proof (ex_frame _ _ _ _ _ Hx) as (_ & G2 & G3 & G4). cbn in G2, G3, G4.
  assert (live_entries t' c = live_entries t1 c) as Hl by (unfold live_entries; by rewrite G2).
  assert (forall e, stored_key tx t' e = stored_key tx t1 e) as Hk by (intros e; by apply stored_key_frame).
  split; [|..|exact Hs| |].
  - rewrite Hl, <- R1. apply reflexive_eq, map_ext. exact Hk.
  - intros e er He. rewrite G2. destruct (R2 _ _ He) as [[?|(Hm & Hr & He')] _]; [by left|]. right.
    assert (e ∈ live_entries t c) as Hin by (apply live_entries_spec; by exists er). split; [done|]. split; [done|].
    intros n Hn Hnew. rewrite Hl in Hn. rewrite Hk. apply R3; try done. rewrite live_entries_spec. intros (er' & H1 & _ & H2). rewrite He' in H1. by injection H1 as <-.
  - intros id g Hg. rewrite (is_retired_same _ _ _ G2). destruct (no_longer_given t1 c g && live g) eqn:E.
    + right. assert (live g = true /\ gr_ViaMembership g = Some c /\ is_retired t1 (gr_ViaEntry g) = true) as (H1 & H2 & H3) by (unfold no_longer_given in E; by unbool).
      do 3 (split; [done|]). exists (fun r => Some (default no_longer r)). apply (ex_keep _ _ _ _ _ Hx). cbn.
      apply revoke_rows_lookup. exists g. rewrite F1. split; [done|]. by rewrite E.
    + left. apply (ex_keep _ _ _ _ _ Hx). cbn. apply revoke_rows_lookup. exists g. rewrite F1. split; [done|]. by rewrite E.
  - intros id g Hg Hn. destruct (ex_new _ _ _ _ _ Hx _ _ Hg) as [Hg0|(mb & m & e & er & [He Hmb] & Hm & Her & H)].
    + cbn in Hg0. apply revoke_rows_lookup in Hg0 as (g0 & Hg0 & _). rewrite F1 in Hg0. congruence.
    + exists mb, m, e, er. rewrite Hl, G2, G4. split; [|done]. apply current_members_spec. rewrite G4. by apply current_members_spec in Hmb.
Qed.

Lemma set_entries_in_tx tenant membership c entries s n s' : st_tx s = InTx -> Whole (st_tables s) -> knows w (st_tables s) ->
  Uuid.canon membership = Some c ->
  (_ ← ReplaceMembershipEntries env w tx tenant membership entries; MemberStore.ResyncMembership env w membership) s = (Ok n, s') ->
  brought_in_step c entries (st_tables s) (st_tables s').
Proof using lowers.
  intros Hx Hw Hk Hc H. apply bind_ok in H as ([] & s1 & H1 & H).
  assert (Whole (st_tables s1)) as Hw1.
  { assert (sound AtRest Whole s) as Hs by (split; [done|by rewrite Hx]).
    by destruct (hoare_use _ _ _ _ _ _ _ _ (k_ReplaceMembershipEntries env w tx tenant membership entries) Hs H1). }
  destruct (replace_ok tx lowers env w _ _ _ _ _ _ Hx Hw Hk Hc H1) as [Hx1 Hrep].
  unfold MemberStore.ResyncMembership in H. apply uuid_read in H as (c' & Hc' & H). rewrite Hc in Hc'. injection Hc' as <-.
  apply run_in_tx in H as (k & H & _); [|done]. destruct (membership_resync_spec _ _ _ _ _ _ _ _ _ H Hw1) as (_ & Hext & Hst).
  by eapply replaced_resynced.
Qed.

Lemma brought_settled c entries t t' : brought_in_step c entries t t' -> brought_in_step c entries t (settled t').
Proof using. intros []. by split. Qed.

End InStep.

(** C15: When an administrator replaces what a membership gives, either nothing
    changes, or its entries become exactly the ones asked for (each counted as
    often as asked, whatever their order; an entry that stays keeps its id), and
    at once every current member holds one live grant of each entry and nobody a
    live grant of an entry that went; no other grant changes, and the new grants
    are the entries', through the database's guards. *)
Theorem set_entries_brings_in_step (env : Env) (w : World) (tx : Text) (ac : ACtx) (membership : string) (entries : list MembershipEntryInput)
    (s : Store Tables) r s' :
  (forall x c, Uuid.canon x = Some c -> tx_ToLower tx x = c /\ tx_ToLower tx c = c) ->
  st_tx s = NoTx -> AtRest (st_tables s) -> Whole (st_tables s) -> knows w (st_tables s) ->
  SetMembershipEntries env w tx ac membership entries s = (r, s') ->
  match r with
  | Err _ => st_tables s' = st_tables s
  | Ok _ => exists c, Uuid.canon membership = Some c /\ brought_in_step env w tx c entries (st_tables s) (st_tables s')
  end.
Proof.
  intros Hlow Hx Hr Hw Hk H. unfold SetMembershipEntries in H.
  apply require_split in H as [(e & -> & ->)|(p & _ & H)]; [done|]. unfold mbind at 1, eff_bind at 1 in H.
  destruct (membershipInTenant _ _ _ s) as [r1 s1] eqn:E1. destruct (in_tenant_alone _ _ _ _ _ _ Hx Hr E1) as (Ht1 & Hx1 & Hm).
  destruct r1 as [m|e]; [|by injection H as <- <-]. destruct (Hm _ eq_refl) as (c & _ & _ & Hc & _).
  destruct (_ && _); [by injection H as <- <-|]. unfold mbind at 1, eff_bind at 1 in H. destruct (Tx env _ s1) as [r2 s2] eqn:E2. destruct r2 as [n|e].
  - injection H as <- <-. exists c. split; [done|]. cbn. apply transaction_ok in E2 as (s3 & E2 & _ & _ & -> & _); [|done].
    rewrite <- Ht1 in Hw, Hk |- *. apply brought_settled. by eapply (set_entries_in_tx _ _ _ Hlow _ _ _ _ _ _ _ _ _ _ _ E2).
  - apply transaction_err in E2 as [Ht2 _]; [|done]. injection H as <- <-. by rewrite Ht2.
  Unshelve. all: done.
Qed.

(** ** Somebody put in it *)
Lemma filter_keys {A} (f : A -> bool) (m : gmap string A) : NoDup (map fst (List.filter (fun '(_, a) => f a) (map_to_list m))).
Proof.
  assert (forall l : list (string * A), NoDup (map fst l) -> NoDup (map fst (List.filter (fun '(_, a) => f a) l))) as G; [|apply G, NoDup_fst_map_to_list].
  induction l as [|[k a] l IH]; intros H; [constructor|]. cbn [map fst] in H. apply NoDup_cons in H as [Hni H]. cbn [List.filter].
  destruct (f a); [|by apply IH]. cbn [map fst]. apply NoDup_cons. split; [|by apply IH]. intros ([k' a'] & -> & Hin)%list_elem_of_fmap.
  apply list_elem_of_In, filter_In in Hin as [Hin%list_elem_of_In _]. apply Hni. by apply (list_elem_of_fmap_2 fst) in Hin.
Qed.

(** One live grant of the assignment for each live entry. *)
Lemma count_assigned now w c person by_ node inherit until reason v t t' : Whole t -> Whole t' ->
  assigned now w c person by_ node inherit until reason v t t' -> live_grants_of t' v = Z.of_nat (length (live_entries t c)).
Proof.
  intros Hw Hw' (row & Hrow & Hv & Hx & Hg). cbv zeta in Hx. unfold live_grants_of, count_rows. f_equal.
  set (L := List.filter _ _). set (f := fun x : string * GrantRow => default ""%string (gr_ViaEntry (snd x))).
  rewrite <- (length_map f). apply Permutation_length.
  assert (forall id g, (id, g) ∈ L -> t_grants t' !! id = Some g /\ gr_ViaMember g = Some v /\ live g = true /\
      exists e, e ∈ live_entries t c /\ gr_ViaEntry g = Some e) as HL.
  { intros id g (Hin%list_elem_of_In%elem_of_map_to_list & Hb)%list_elem_of_In%filter_In. unbool. do 3 (split; [done|]).
    destruct (ex_new _ _ _ _ _ Hx _ _ Hin) as [Hg0|(mb & m & e & er & [He _] & _ & _ & -> & _)]; [|by exists e]. exfalso.
    destruct (wh_derived t Hw _ _ _ Hg0 ltac:(done)) as (mr & _ & _ & Hmr & _). congruence. }
  apply NoDup_Permutation.
  - apply NoDup_ListNoDup. assert (NoDup (map fst L)) as Hnd by apply filter_keys. revert HL Hnd. generalize L. intros l.
    induction l as [|[id g] l IH]; intros Hl Hnd; [constructor|]. cbn [map] in Hnd |- *. apply NoDup_cons in Hnd as [Hni Hnd]. constructor.
    + intros ([id' g'] & Hf & Hin)%in_map_iff. apply list_elem_of_In in Hin. destruct (Hl id g ltac:(by left)) as (H1 & H2 & H3 & e & _ & H4).
      destruct (Hl id' g' ltac:(by right)) as (H5 & H6 & H7 & e' & _ & H8). unfold f in Hf. cbn in Hf. rewrite H4, H8 in Hf. cbn in Hf. subst e'.
      assert (id = id') as -> by by eapply (wh_once t' Hw'). apply Hni. by apply (list_elem_of_fmap_2 fst) in Hin.
    + apply IH; [|done]. intros ? ? ?. apply Hl. by right.
  - apply live_entries_NoDup.
  - intros e. split.
    + intros ([id g] & -> & Hin)%list_elem_of_fmap. destruct (HL _ _ Hin) as (_ & _ & _ & e & He & Hve). unfold f. cbn. by rewrite Hve.
    + intros He. apply Hg, gives_true in He as (id & g & Hgr & Hve & Hvm & Hl). apply list_elem_of_fmap. exists (id, g). split; [unfold f; cbn; by rewrite Hve|].
      apply list_elem_of_In, filter_In. split; [by apply list_elem_of_In, elem_of_map_to_list|]. by rewrite bool_decide_true, Hl.
Qed.

Lemma assigned_settled now w c person by_ node inherit until reason v t t' :
  assigned now w c person by_ node inherit until reason v t t' -> assigned now w c person by_ node inherit until reason v t (settled t').
Proof. intros (row & H1 & H2 & [] & H4). exists row. do 2 (split; [done|]). split; [by split|exact H4]. Qed.

Definition same_place (given : string) (node : option string) : Prop :=
  match node with None => given = ""%string | Some c => Uuid.canon given = Some c end.

Lemma opt_uuid_ok {A} id (k : option string -> Eff (Store Tables) Error A) s a s' : opt_uuid id k s = (Ok a, s') ->
  exists node, same_place id node /\ k node s = (Ok a, s').
Proof.
  unfold opt_uuid. case_bool_decide as E; [intros H; by exists None|]. intros (c & Hc & H)%uuid_read. by exists (Some c).
Qed.

(** The repository's transaction, on its own. *)
Lemma assign_alone env w i by0 s r s' : (forall k n, Uuid.canon (ev_id env k n) = Some (ev_id env k n)) ->
  st_tx s = NoTx -> AtRest (st_tables s) -> Whole (st_tables s) -> MemberStore.AssignMembership env w i by0 s = (r, s') ->
  match r with
  | Err _ => st_tables s' = st_tables s
  | Ok out => exists c person by_ node, Uuid.canon (ai_MembershipID i) = Some c /\ Uuid.canon (ai_IdentityID i) = Some person /\
      Uuid.canon by0 = Some by_ /\ same_place (ai_NodeID i) node /\
      if bool_decide (ao_AssignmentID out = ""%string)
      then st_tables s' = st_tables s /\ exists j m, t_members (st_tables s) !! j = Some m /\ same_seat c person node m = true
      else assigned (ev_now env) w c person by_ node (negb (ai_Exact i)) (microseconds <$> OptTime (ai_ValidUntil i)) (ai_Reason i) (ao_AssignmentID out)
             (st_tables s) (st_tables s') /\ ao_GrantsCreated out = Z.of_nat (length (live_entries (st_tables s) c))
  end.
Proof.
  intros Hid Hx Hr Hw H. unfold MemberStore.AssignMembership, Tx in H. destruct r as [out|e]; [|by apply transaction_err in H as [? _]].
  apply transaction_ok in H as (s1 & H & _ & _ & Ht' & _); [|done]. apply bind_ok in H as (o & s2 & H1 & H2).
  apply uuid_read in H1 as (person & Hp & H1). apply uuid_read in H1 as (c & Hc & H1). apply uuid_read in H1 as (by_ & Hb & H1).
  apply opt_uuid_ok in H1 as (node & Hn & H1). apply run_in_tx in H1 as (k & H1 & Hx2); [|done].
  destruct (membership_assign_spec _ _ _ _ _ _ _ _ _ _ _ _ _ _ _ H1 Hw) as [Hw2 Ho]. exists c, person, by_, node. do 4 (split; [done|]).
  destruct o as [v|].
  - destruct Ho as [Ha Hv]. assert (Uuid.canon v = Some v) as Hcv by (rewrite Hv; apply Hid).
    destruct (bool_decide (v = ""%string)) eqn:Ev; [unbool; by subst|].
    apply bind_ok in H2 as (n & s3 & H2 & [= <- <-]). cbn. rewrite Ev. apply uuid_read in H2 as (v' & Hv' & H2). rewrite Hcv in Hv'. injection Hv' as <-.
    apply run_in_tx in H2 as (k2 & [= <- Ht3 _] & _); [|done]. rewrite Ht', <- Ht3. split; [by apply assigned_settled|].
    by eapply (count_assigned _ _ _ _ _ _ _ _ _ _ (st_tables s)).
  - injection H2 as <- <-. cbn. destruct Ho as [Ht Hj]. rewrite Ht', Ht. cbn. rewrite settled_rest by done. done.
Qed.

(** C16: Putting somebody in a membership either changes nothing, or finds they
    hold that seat already and changes nothing, or makes one assignment with the
    end, the place and the note asked for and exactly one live grant for each of
    the membership's live entries, as many as it answers; assignments of theirs
    to that seat whose end has passed are closed, and no other row changes. *)
Theorem assigning_gives_exactly (env : Env) (w : World) (ac : ACtx) (i : MembershipAssignmentInput) (s : Store Tables) r s' :
  (forall k n, Uuid.canon (ev_id env k n) = Some (ev_id env k n)) ->
  st_tx s = NoTx -> AtRest (st_tables s) -> Whole (st_tables s) -> AssignMembership env w ac i s = (r, s') ->
  match r with
  | Err _ => st_tables s' = st_tables s
  | Ok out => exists p c person by_ node, asks ac "anubis:grant:admin" p /\ Uuid.canon (ai_MembershipID i) = Some c /\
      Uuid.canon (ai_IdentityID i) = Some person /\ Uuid.canon (IdentityID p) = Some by_ /\ same_place (TrimSpace (ai_NodeID i)) node /\
      if bool_decide (ao_AssignmentID out = ""%string)
      then st_tables s' = st_tables s /\ exists j m, t_members (st_tables s) !! j = Some m /\ same_seat c person node m = true
      else assigned (ev_now env) w c person by_ node (negb (ai_Exact i)) (microseconds <$> OptTime (ai_ValidUntil i)) (TrimSpace (ai_Reason i))
             (ao_AssignmentID out) (st_tables s) (st_tables s') /\
           ao_GrantsCreated out = Z.of_nat (length (live_entries (st_tables s) c))
  end.
Proof.
  intros Hid Hx Hr Hw H. unfold AssignMembership in H. apply require_split in H as [(e & -> & ->)|(p & Hp & H)]; [done|].
  unfold mbind at 1, eff_bind at 1 in H. destruct (membershipInTenant _ _ _ s) as [r1 s1] eqn:E1.
  destruct (in_tenant_alone _ _ _ _ _ _ Hx Hr E1) as (Ht1 & Hx1 & _). destruct r1 as [m|e]; [|by injection H as <- <-].
  destruct (assignment_refusal _ _ _); [by injection H as <- <-|]. unfold mbind at 1, eff_bind at 1 in H.
  destruct (MemberStore.AssignMembership _ _ _ _ s1) as [r2 s2] eqn:E2. rewrite <- Ht1 in Hr, Hw.
  pose proof (assign_alone _ _ _ _ _ _ _ Hid Hx1 Hr Hw E2) as Ha. rewrite Ht1 in Ha. destruct r2 as [out|e]; [|by injection H as <- <-].
  destruct Ha as (c & person & by_ & node & H1 & H2 & H3 & H4 & H5). cbn [ai_MembershipID ai_IdentityID ai_NodeID ai_Exact ai_ValidUntil ai_Reason] in *.
  assert (r = Ok out /\ st_tables s' = st_tables s2) as [-> ->] by (by destruct (bool_decide (ao_AssignmentID out = _)); injection H as <- <-).
  exists p, c, person, by_, node. by do 5 (split; [done|]).
Qed.

(** ** Somebody out of it *)

Lemma run_alone {A} env map (q : (nat -> string) -> Sql_ Tables A) s r s' : st_tx s = NoTx -> run env map q s = (r, s') ->
  match r with
  | Ok a => exists t n, q (ev_id env (st_calls s)) (st_tables s, 0%nat) = (Ok a, (t, n)) /\ st_tables s' = settled t
  | Err _ => st_tables s' = st_tables s
  end.
Proof.
  intros Hx H. destruct r as [a|e]; [|by apply statement_err in H as [? _]].
  apply statement_ok in H as (t & n & H & _ & _ & Ht). rewrite Hx in Ht. exists t, n. by destruct Ht.
Qed.

(** What ending one assignment leaves. *)
Record left_one (now : Time) (c by_ reason : string) (m : MemberRow) (t t' : Tables) : Prop := {
  lo_grants : forall id g, t_grants t' !! id = Some g <-> exists g0, t_grants t !! id = Some g0 /\
    g = if bool_decide (gr_ViaMember g0 = Some c) && live g0 then revoked now (left_reason reason) g0 else g0;
  lo_none : forall id g, t_grants t' !! id = Some g -> gr_ViaMember g = Some c -> live g = false;
  lo_members : forall o, t_members t' !! o = if bool_decide (o = c) then Some (removed now by_ m) else t_members t !! o;
  lo_frame : t_entries t' = t_entries t /\ t_pins t' = t_pins t /\ t_places t' = t_places t /\ t_memberships t' = t_memberships t
}.

Lemma left_one_is now c by_ reason m t : t_members t !! c = Some m -> mb_RemovedAt m = None ->
  left_one now c by_ reason m t (left_by now (fun id _ => bool_decide (id = c)) (via_member c) by_ reason t).
Proof.
  intros Hm Hr. split; [..|done].
  - intros id g. cbn. rewrite revoke_rows_lookup. done.
  - intros id g Hg Hv. cbn in Hg. destruct (live g) eqn:El; [|done]. apply revoke_rows_live in Hg as [Hn _]; [|done|done].
    unfold via_member in Hn. by rewrite bool_decide_true in Hn.
  - intros o. cbn. case_bool_decide as Ho.
    + subst. apply remove_rows_lookup. exists m. split; [done|]. by rewrite !bool_decide_true.
    + destruct (t_members t !! o) as [mo|] eqn:Eo.
      * apply remove_rows_lookup. exists mo. split; [done|]. by rewrite bool_decide_false.
      * destruct (remove_rows _ _ _ _ !! o) as [mo|] eqn:E; [|done]. apply remove_rows_lookup in E as (? & E & _). congruence.
Qed.

Lemma leave_alone env tenant a by0 reason s r s' : st_tx s = NoTx -> AtRest (st_tables s) -> LeaveMembership env tenant a by0 reason s = (r, s') ->
  match r with
  | Err _ => st_tables s' = st_tables s
  | Ok n => exists c m tid by_, Uuid.canon a = Some c /\ Uuid.canon tenant = Some tid /\ Uuid.canon by0 = Some by_ /\
      t_members (st_tables s) !! c = Some m /\ mb_Tenant m = tid /\ mb_RemovedAt m = None /\
      left_one (ev_now env) c by_ reason m (st_tables s) (st_tables s') /\ n = live_grants_of (st_tables s) c
  end.
Proof.
  intros Hx Hr H. unfold LeaveMembership, opt_uuid, with_uuid in H. destruct (Uuid.canon tenant) as [tid|]; [|by injection H as <- <-].
  destruct (Uuid.canon by0) as [by_|]; [|by injection H as <- <-].
  assert (forall ca r s', found ErrNotFound (run env MapErr (fun _ => match ca with Some a => leave_row env a tid by_ reason | None => mret None end)) s = (r, s') ->
    match r with
    | Err _ => st_tables s' = st_tables s
    | Ok n => exists c m, ca = Some c /\ t_members (st_tables s) !! c = Some m /\ mb_Tenant m = tid /\ mb_RemovedAt m = None /\
        left_one (ev_now env) c by_ reason m (st_tables s) (st_tables s') /\ n = live_grants_of (st_tables s) c
    end) as G.
  { clear r s' H. intros ca r s' H. unfold found, mbind, eff_bind in H. destruct (run _ _ _ s) as [r1 s1] eqn:E.
    pose proof (run_alone _ _ _ _ _ _ Hx E) as Ha. destruct r1 as [o|e]; [|by injection H as <- <-]. destruct Ha as (t & n & Hq & Ht).
    destruct ca as [c|]; [|injection Hq as <- <- _; injection H as <- <-; rewrite Ht; by apply settled_rest].
    unfold leave_row in Hq. apply bind_ok in Hq as (m & [t1 n1] & [= <- <- <-] & Hq). cbn [fst] in Hq.
    destruct (t_members (st_tables s) !! c) as [m|] eqn:Em; [|injection Hq as <- <- _; injection H as <- <-; rewrite Ht; by apply settled_rest].
    destruct (_ && _) eqn:Ec; [|injection Hq as <- <- _; injection H as <- <-; rewrite Ht; by apply settled_rest].
    apply bind_ok in Hq as (k & [t2 n2] & Hq & [= <- <- _]). apply membership_leave_is in Hq as [-> ->]. injection H as <- <-. unbool.
    exists c, m. do 4 (split; [done|]). split; [|done]. rewrite Ht. rewrite settled_rest by exact Hr. by apply left_one_is. }
  destruct (bool_decide (a = ""%string)).
  - specialize (G None _ _ H). destruct r as [n|]; [|done]. by destruct G as (? & ? & [=] & _).
  - destruct (Uuid.canon a) as [c|]; [|by injection H as <- <-]. specialize (G (Some c) _ _ H). destruct r as [n|]; [|done].
    destruct G as (c' & m & [= <-] & H1 & H2 & H3 & H4 & H5). by exists c, m, tid, by_.
Qed.

(** Ending one assignment either changes nothing, or it was a current one of the
    caller's tenant: every live grant it gave is taken back, with the note given,
    it counts them, and no other grant, assignment or entry changes, so the same
    person's other seats stay. *)
Theorem leaving_takes_back_exactly (env : Env) (ac : ACtx) (a reason : string) (s : Store Tables) r s' :
  st_tx s = NoTx -> AtRest (st_tables s) -> RemoveMembershipAssignment env ac a reason s = (r, s') ->
  match r with
  | Err _ => st_tables s' = st_tables s
  | Ok n => exists p c m tid by_, asks ac "anubis:grant:admin" p /\ Uuid.canon a = Some c /\ Uuid.canon (TenantID p) = Some tid /\
      Uuid.canon (IdentityID p) = Some by_ /\ t_members (st_tables s) !! c = Some m /\ mb_Tenant m = tid /\ mb_RemovedAt m = None /\
      left_one (ev_now env) c by_ (TrimSpace reason) m (st_tables s) (st_tables s') /\ n = live_grants_of (st_tables s) c
  end.
Proof.
  intros Hx Hr H. unfold RemoveMembershipAssignment in H.
  apply require_split in H as [(e & -> & ->)|(p & Hp & H)]; [done|]. destruct (bool_decide _); [by injection H as <- <-|].
  unfold mbind at 1, eff_bind at 1 in H. destruct (LeaveMembership _ _ _ _ _ s) as [r1 s1] eqn:E1.
  pose proof (leave_alone _ _ _ _ _ _ _ _ Hx Hr E1) as Ha. destruct r1 as [n|e]; injection H as <- <-; [|done].
  destruct Ha as (c & m & tid & by_ & H1 & H2 & H3 & H4). by exists p, c, m, tid, by_.
Qed.

End MemberTheorems.
