(* ===== verification/MemberConfined.v ===== *)
(** Administering grants and memberships writes rows of the caller's tenant and
    no others. *)

From Stdlib Require Import ZArith Lia Bool Ascii String.
From stdpp Require Import base gmap strings list sorting.
From S2P Require Import Prelude.
From S2P Require Import GoStrings.
From S2P Require Import GoConv.
From S2P Require Import Shared.
From S2P Require Import AdminGuard.
From S2P Require Import ScopeTree.
From S2P Require Import Db.
From S2P Require Import Members.
From S2P Require Import MemberStore.
From S2P Require Import MemberAdmin.
From S2P Require Import MemberProps.
From S2P Require Import MemberKeeps.
From S2P Require Import MemberTheorems.

Module MemberConfined.
Import Apperr Authctx Pg Db Members MemberStore MemberAdmin MemberProps MemberOps MemberKeeps MemberTheorems.

(** ** The rows of the other tenants *)
Definition others {K A} `{Countable K} (ten : A -> string) (tid : string) (m0 m : gmap K A) : Prop :=
  forall k a, ten a <> tid -> m !! k = Some a <-> m0 !! k = Some a.

Lemma others_refl {K A} `{Countable K} (ten : A -> string) tid (m : gmap K A) : others ten tid m m.
Proof. done. Qed.
Lemma others_trans {K A} `{Countable K} (ten : A -> string) tid (m0 m1 m2 : gmap K A) : others ten tid m0 m1 -> others ten tid m1 m2 -> others ten tid m0 m2.
Proof. intros H1 H2 k a Ha. rewrite (H2 k a Ha). by apply H1. Qed.

(** Every row that is new, gone or changed is the tenant's. *)
Lemma others_of {K A} `{Countable K} (ten : A -> string) tid (m m' : gmap K A) :
  (forall k a, m !! k = Some a -> m' !! k = Some a \/ ten a = tid) -> (forall k a, m' !! k = Some a -> m !! k = Some a \/ ten a = tid) -> others ten tid m m'.
Proof. intros H1 H2 k a Ha. split; intros Hk; [destruct (H2 _ _ Hk)|destruct (H1 _ _ Hk)]; done. Qed.

Lemma others_insert {K A} `{Countable K} (ten : A -> string) tid (m : gmap K A) k a :
  m !! k = None -> ten a = tid -> others ten tid m (<[k := a]> m).
Proof.
  intros Hk Ha. apply others_of; intros k' a' H'; (destruct (decide (k = k')) as [<-|]; [|by left; rewrite lookup_insert_ne in * by done]).
  - congruence.
  - rewrite lookup_insert_eq in H'. injection H' as <-. by right.
Qed.

Record apart (tid : string) (t0 t : Tables) : Prop := {
  ap_grants : others gr_Tenant tid (t_grants t0) (t_grants t);
  ap_pins : others pi_Tenant tid (t_pins t0) (t_pins t);
  ap_memberships : others ms_Tenant tid (t_memberships t0) (t_memberships t);
  ap_entries : others en_Tenant tid (t_entries t0) (t_entries t);
  ap_places : others pi_Tenant tid (t_places t0) (t_places t);
  ap_members : others mb_Tenant tid (t_members t0) (t_members t)
}.
Lemma apart_refl tid t : apart tid t t.
Proof. by split. Qed.
Lemma apart_trans tid t0 t1 t2 : apart tid t0 t1 -> apart tid t1 t2 -> apart tid t0 t2.
Proof. intros [] []. split; by eapply others_trans. Qed.

(** *** What each write changes *)
Section Writes.
Context (tid : string).

Lemma apart_extends now w P t t' : pins_ok t -> pins_ok t' -> extends now w P t t' ->
  (forall e mb m, P e mb -> t_members t !! mb = Some m -> mb_Tenant m = tid) -> apart tid t t'.
Proof using.
  intros Hw Hw' Hx HP. pose proof (ex_frame _ _ _ _ _ Hx) as (F1 & F2 & F3 & F4).
  assert (forall id g, t_grants t' !! id = Some g -> t_grants t !! id = Some g \/ gr_Tenant g = tid) as Hg.
  { intros id g H. destruct (ex_new _ _ _ _ _ Hx _ _ H) as [|(mb & m & e & er & He & Hm & _ & -> & _)]; [by left|]. right. by eapply (HP e mb). }
  split; rewrite ?F1, ?F2, ?F3, ?F4; try apply others_refl.
  - apply others_of; [|exact Hg]. intros id g H. left. by apply (ex_keep _ _ _ _ _ Hx).
  - apply others_of; intros [[o a] n] p Hp.
    + left. destruct (Hw _ _ _ _ Hp) as (g & Ho & _). rewrite (ex_pins _ _ _ _ _ Hx); [done|by exists g].
    + destruct (Hw' _ _ _ _ Hp) as (g & Ho & Ht). destruct (Hg _ _ Ho) as [Ho'|Ht']; [left|right; congruence].
      rewrite <- (ex_pins _ _ _ _ _ Hx o a n); [done|by exists g].
Qed.

Lemma apart_revoke now p r t : (forall id g, t_grants t !! id = Some g -> p g = true -> gr_Tenant g = tid) ->
  apart tid t (with_grants t (revoke_rows now p r (t_grants t))).
Proof using.
  intros Hp. split; try apply others_refl. cbn. apply others_of.
  - intros id g Hg. destruct (p g) eqn:E; [right; by eapply Hp|]. left. apply revoke_rows_lookup. exists g. by rewrite E.
  - intros id g (g0 & Hg & ->)%revoke_rows_lookup. destruct (p g0) eqn:E; cbn; [|by left]. right. destruct (live g0); cbn; by eapply Hp.
Qed.

Lemma apart_remove now p b t : (forall id m, t_members t !! id = Some m -> p id m = true -> mb_Tenant m = tid) ->
  apart tid t (with_members t (remove_rows now p b (t_members t))).
Proof using.
  intros Hp. split; try apply others_refl. cbn. apply others_of.
  - intros id m Hm. destruct (p id m) eqn:E; [right; by eapply Hp|]. left. apply remove_rows_lookup. exists m. by rewrite E.
  - intros id m (m0 & Hm & ->)%remove_rows_lookup. destruct (p id m0) eqn:E; cbn; [|by left]. right. destruct (bool_decide _); cbn; by eapply Hp.
Qed.

Lemma apart_left now p q b reason t :
  (forall id g, t_grants t !! id = Some g -> q g = true -> gr_Tenant g = tid) ->
  (forall id m, t_members t !! id = Some m -> p id m = true -> mb_Tenant m = tid) -> apart tid t (left_by now p q b reason t).
Proof using.
  intros Hq Hp. eapply apart_trans; [by apply apart_revoke|]. by apply (apart_remove now p b (with_grants t (revoke_rows now q (left_reason reason) (t_grants t)))).
Qed.

(** The rows a membership of the tenant's has. *)
Definition owned (c : string) (t : Tables) : Prop := exists row, t_memberships t !! c = Some row /\ ms_Tenant row = tid.

Lemma owned_grant c t id g : Whole t -> owned c t -> t_grants t !! id = Some g -> gr_ViaMembership g = Some c -> gr_Tenant g = tid.
Proof using. intros Hw (row & Hr & Ht) Hg Hv. destruct (wh_via t Hw _ _ _ Hg Hv) as (ms & Hms & <-). congruence. Qed.
Lemma owned_member c t id m : Whole t -> owned c t -> t_members t !! id = Some m -> mb_Membership m = c -> mb_Tenant m = tid.
Proof using. intros Hw (row & Hr & Ht) Hm <-. destruct (wh_members t Hw _ _ Hm) as (ms & Hms & <- & _). congruence. Qed.
Lemma owned_entry c t e er : Whole t -> owned c t -> t_entries t !! e = Some er -> en_Membership er = c -> en_Tenant er = tid.
Proof using. intros Hw (row & Hr & Ht) He <-. destruct (wh_entries t Hw _ _ He) as (ms & Hms & <-). congruence. Qed.

Lemma apart_resync now w ids c t n k t' n' : membership_resync now w ids c (t, n) = (Ok k, (t', n')) -> Whole t -> owned c t -> apart tid t t'.
Proof using.
  intros H Hw Ho. destruct (membership_resync_spec _ _ _ _ _ _ _ _ _ H Hw) as (Hw' & Hx & _).
  assert (Whole (cleared now c t)) as Hc by (by apply whole_revoke). eapply apart_trans; [|eapply apart_extends; [apply Hc|apply Hw'|exact Hx|]].
  - apply apart_revoke. intros id g Hg Hp. unfold no_longer_given in Hp. unbool. by eapply (owned_grant c t).
  - intros e mb m [_ (m' & Hm & Hmc & _)%current_members_spec] Hm'. cbn in Hm'. rewrite Hm in Hm'. injection Hm' as <-. by eapply (owned_member c t).
Qed.

Lemma apart_assign now w ids i c b node inh until reason t n r t' n' :
  membership_assign now w ids i c b node inh until reason (t, n) = (Ok r, (t', n')) -> Whole t -> owned c t -> apart tid t t'.
Proof using.
  intros H Hw Ho. destruct (membership_assign_spec _ _ _ _ _ _ _ _ _ _ _ _ _ _ _ H Hw) as [Hw' Hr]. destruct r as [v|]; [|by destruct Hr as [-> _]].
  destruct Hr as ((row & Hrow & Hv & Hx & _) & _). cbv zeta in Hx. set (m := seat _ _ _ _ _ _ _ _ _) in Hx. set (t1 := closed now c i node b t) in Hx.
  assert (mb_Tenant m = tid) as Hmt by (destruct Ho as (row' & Hr' & <-); cbn; congruence).
  assert (t_members t1 !! v = None) as Hv1.
  { destruct (t_members t1 !! v) as [x|] eqn:E; [|done]. apply remove_rows_lookup in E as (x0 & E & _). congruence. }
  assert (apart tid t t1) as H1.
  { apply apart_remove. intros id x Hid Hcl. unfold closing, same_seat in Hcl. unbool. by eapply (owned_member c t). }
  assert (apart tid t1 (with_members t1 (<[v := m]> (t_members t1)))) as H2 by (split; try apply others_refl; by apply others_insert).
  eapply apart_trans; [exact H1|]. eapply apart_trans; [exact H2|]. eapply apart_extends; [exact (wh_pins t Hw)|apply Hw'|exact Hx|].
  intros e mb x [_ ->] Hm. cbn in Hm. rewrite lookup_insert_eq in Hm. injection Hm as <-. exact Hmt.
Qed.

Lemma apart_unassign now i c b reason t : Whole t -> owned c t ->
  apart tid t (left_by now (fun _ m => bool_decide (mb_Membership m = c) && bool_decide (mb_Identity m = i)) (via_person i c) b reason t).
Proof using.
  intros Hw Ho. apply apart_left.
  - intros id g Hg Hq. unfold via_person in Hq. unbool. by eapply (owned_grant c t).
  - intros id m Hm Hp. unbool. by eapply (owned_member c t).
Qed.

Lemma apart_leave now a m b reason t : Whole t -> t_members t !! a = Some m -> mb_Tenant m = tid ->
  apart tid t (left_by now (fun id _ => bool_decide (id = a)) (via_member a) b reason t).
Proof using.
  intros Hw Hm Ht. apply apart_left.
  - intros id g Hg Hq. unfold via_member in Hq. unbool. destruct (wh_derived t Hw _ _ _ Hg Hq) as (mr & e & er & Hmr & H). destruct H as (_ & _ & _ & _ & _ & _ & -> & _). congruence.
  - intros id x Hx Hp. unbool. congruence.
Qed.

Lemma apart_retire env c (ids : list string) t : Whole t -> owned c t ->
  apart tid t (with_entries t (map_imap (fun id e =>
    Some (if bool_decide (en_Membership e = c) && bool_decide (id ∈ ids) && bool_decide (en_RetiredAt e = None) then retired env e else e)) (t_entries t))).
Proof using.
  intros Hw Ho. split; try apply others_refl. cbn. apply others_of.
  - intros id e He. destruct (bool_decide (en_Membership e = c)) eqn:E; [right; unbool; by eapply (owned_entry c t)|]. left. rewrite map_lookup_imap, He. cbn. by rewrite E.
  - intros id e' He'. rewrite map_lookup_imap in He'. destruct (t_entries t !! id) as [e|] eqn:He; [|done]. cbn in He'. injection He' as <-.
    destruct (_ && _) eqn:E; [|by left]. right. unbool. cbn. by eapply (owned_entry c t).
Qed.

Lemma apart_new_entry t id e : t_entries t !! id = None -> en_Tenant e = tid -> apart tid t (with_entries t (<[id := e]> (t_entries t))).
Proof using. intros Hid He. split; try apply others_refl. by apply others_insert. Qed.
Lemma apart_new_membership t id m : t_memberships t !! id = None -> ms_Tenant m = tid -> apart tid t (with_memberships t (<[id := m]> (t_memberships t))).
Proof using. intros Hid He. split; try apply others_refl. by apply others_insert. Qed.
Lemma apart_new_place t k p d : t_places t !! k = None -> pi_Tenant p = tid -> apart tid t (with_places (if pi_Exclude p then defer d t else t) (<[k := p]> (t_places t))).
Proof using. intros Hk Hp. split; destruct (pi_Exclude p); try apply others_refl; by apply others_insert. Qed.
Lemma apart_new_grant t id g : t_grants t !! id = None -> gr_Tenant g = tid -> apart tid t (with_grant t id g).
Proof using. intros Hid He. split; try apply others_refl. by apply others_insert. Qed.
Lemma apart_new_pin t id a n p : t_pins t !! (id, a, n) = None -> pi_Tenant p = tid -> apart tid t (pinned t id [(a, n, p)]).
Proof using. intros Hk Hp. split; try apply others_refl. by apply others_insert. Qed.

Lemma apart_revoke_one now t c reason :
  apart tid t (with_grants t (alter (fun g => if bool_decide (gr_Tenant g = tid) && live g then revoked now reason g else g) c (t_grants t))).
Proof using.
  split; try apply others_refl. cbn. apply others_of; intros id g Hg; destruct (decide (c = id)) as [->|]; try (left; by rewrite lookup_alter_ne in * by done).
  - destruct (decide (gr_Tenant g = tid)); [by right|left]. rewrite lookup_alter_eq, Hg. cbn. by rewrite bool_decide_false.
  - rewrite lookup_alter_eq in Hg. destruct (t_grants t !! id) as [g0|]; [|done]. injection Hg as <-. destruct (bool_decide _) eqn:E; [|by left].
    unbool. right. by destruct (live g0).
Qed.

Lemma pin_absent w t k p : pin_checks w t k p = None -> t_pins t !! k = None.
Proof using. unfold pin_checks. destruct k as [[g a] n]. destruct (t_pins t !! _); [by rewrite bool_decide_true by (by eexists)|done]. Qed.
Lemma place_absent w t k p : entry_place_checks w t k p = None -> t_places t !! k = None.
Proof using. unfold entry_place_checks. destruct k as [[g a] n]. destruct (t_places t !! _); [by rewrite bool_decide_true by (by eexists)|done]. Qed.

End Writes.

(** ** Handlers *)
Section Handlers.
Context (env : Env) (w : World) (tx : Text) (ac : ACtx) (tid : string) (t0 : Tables).
(** Whoever the guard lets through acts for the tenant. *)
Hypothesis acts_for : forall permission p c, asks ac permission p -> Uuid.canon (TenantID p) = Some c -> c = tid.

Definition confined (t : Tables) : Prop := Whole t /\ apart tid t0 t.
(** With a membership of the tenant's. *)
Definition with_own (id : string) (t : Tables) : Prop := confined t /\ forall c, Uuid.canon id = Some c -> owned tid c t.

Lemma stable_confined : stable settle settled AtRest confined.
Proof using. intros t [Hw []] Hs. destruct (whole_settles t Hw Hs). split; [|done]. split; [done|]. by split. Qed.
Lemma stable_own id : stable settle settled AtRest (with_own id).
Proof using. intros t [Hc Ho] Hs. destruct (stable_confined t Hc Hs) as [H1 H2]. split; [|exact H2]. split; [exact H1|exact Ho]. Qed.
Hint Resolve stable_confined stable_own : stable.

Abbreviation keeps m := (hoare confined AtRest confined m (fun _ => confined)).
Abbreviation own id m := (hoare (with_own id) AtRest (with_own id) m (fun _ => with_own id)).

Lemma confined_after t t' : confined t -> Whole t' -> apart tid t t' -> confined t'.
Proof using. intros [_ H0] Hw H. split; [done|]. by eapply apart_trans. Qed.

Lemma hoare_asks {A} permission (f : Principal -> Eff (Store Tables) Error A) :
  (forall p, (forall c, Uuid.canon (TenantID p) = Some c -> c = tid) -> keeps (f p)) -> keeps (Require ac permission ≫= f).
Proof using acts_for.
  intros H s Hs. destruct ((Require ac permission ≫= f) s) as [r s'] eqn:E. apply require_split in E as [(e & -> & ->)|(p & Hp & E)]; [done|].
  specialize (H p (fun c => acts_for _ _ _ Hp) s Hs). by rewrite E in H.
Qed.

(** After the membership is found to be the tenant's. *)
Lemma hoare_own {A} tenant id (f : MembershipRecord -> Eff (Store Tables) Error A) :
  (forall c, Uuid.canon tenant = Some c -> c = tid) -> (forall m, own id (f m)) -> keeps (membershipInTenant env tenant id ≫= f).
Proof using.
  intros Ht Hf. eapply hoare_bind with (mid := fun _ => with_own id).
  - unfold membershipInTenant, MembershipByID. destruct (bool_decide _); [by apply hoare_raise|]. apply hoare_with_uuid; [done|]. intros c Hc.
    apply hoare_with_uuid; [done|]. intros x Hx%Ht. subst x. apply hoare_found. eapply hoare_statement; [done| |].
    + intros o t [Hw Ho] Hs. destruct (stable_confined t Hw Hs) as [H1 H2]. split; [|exact H2]. split; [exact H1|]. intros a Ha. split; [exact H1|apply (Ho a Ha)].
    + intros ids. apply sql_query. intros t Hw. split; [done|]. intros m Hm. split; [done|]. intros c' Hc'. rewrite Hc in Hc'. injection Hc' as <-.
      destruct (t_memberships t !! c) as [row|] eqn:E; [|done]. destruct (bool_decide (ms_Tenant row = tid)) eqn:Eb; [|done]. unbool. by exists row.
  - intros m s Hs. specialize (Hf m s Hs). destruct (f m s) as [[a|e] s']; (eapply sound_weaken; [exact Hf|]); by intros t [? _].
Qed.

Lemma c_CreateMembership n d a : keeps (CreateMembership env w ac n d a).
Proof using acts_for.
  unfold CreateMembership. apply hoare_asks. intros p Hp. unfold MemberStore.CreateMembership. eapply hoare_bind with (mid := fun _ => confined); [|intros id; keep_with idtac].
  apply hoare_with_uuid; [done|]. intros c Hc%Hp. subst c. apply k_run; [apply stable_confined|]. intros ids. unfold insert_membership.
  eapply sql_bind; [apply (sql_fresh _ _ (fun _ => confined)); auto|]. intros id.
  eapply sql_bind; [apply (sql_must _ _ (fun _ t => confined t /\ t_memberships t !! id = None))|intros []].
  - intros t Hw. destruct (bool_decide (is_Some (t_memberships t !! id))) eqn:E; [done|]. intros _. split; [done|by apply absent].
  - eapply sql_bind; [apply (sql_change _ _ (fun _ => confined))|intros []; by apply sql_ret].
    intros t [Hw Hid]. eapply confined_after; [exact Hw|by apply whole_new_membership; [apply Hw|]|by apply apart_new_membership].
Qed.

(** *** Grants *)
Lemma stable_confined_direct id : stable settle settled AtRest (fun t => confined t /\ direct id t).
Proof using. intros t [Hw Hd] Hs. by destruct (stable_confined t Hw Hs). Qed.

Lemma c_insert_scopes id l : hoare confined AtRest (fun t => confined t /\ direct id t) (insert_scopes env w id tid l) (fun _ => confined).
Proof using.
  induction l as [|sc l IH]; cbn [insert_scopes]; [apply hoare_ret; by intros t [? _]|].
  eapply hoare_bind with (mid := fun _ t => confined t /\ direct id t); [|intros _; exact IH]. apply hoare_with_uuid; [by intros t [? _]|]. intros c _.
  apply hoare_statement; [by intros t [? _]|intros _; apply stable_confined_direct|]. intros ids t n [] t' n' [Hw Hd] H.
  apply insert_pin_is in H as (Hc & -> & _). split; [|destruct Hd as (g & Hg & Hv); by exists g].
  eapply confined_after; [exact Hw|eapply whole_new_pin; [apply Hw|exact Hd|exact Hc]|]. apply apart_new_pin; [|done]. by eapply pin_absent.
Qed.

Lemma c_CreateGrant i : keeps (CreateGrant env w ac i).
Proof using acts_for.
  unfold CreateGrant. apply hoare_asks. intros p Hp. eapply hoare_bind with (mid := fun _ => confined); [|intros id; keep_with idtac].
  unfold MemberStore.CreateGrant. apply k_tx; [apply stable_confined|]. apply hoare_with_uuid; [done|]. intros c Hc%Hp. subst c. do 3 (apply k_uuid; intros ?).
  eapply hoare_bind with (mid := fun id t => confined t /\ direct id t).
  - apply hoare_statement; [done|intros id; apply stable_confined_direct|]. intros ids t n id t' n' Hw H.
    apply insert_grant_is in H as (_ & Hid & -> & _). pose proof Hw as [Hwh _]. split; [|by apply whole_new_grant].
    eapply confined_after; [exact Hw|by apply whole_new_grant|by apply apart_new_grant].
  - intros id. eapply hoare_bind with (mid := fun _ => confined); [apply c_insert_scopes|]. intros _. by apply hoare_ret.
Qed.

Lemma c_RevokeGrant id r : keeps (RevokeGrant env ac id r).
Proof using acts_for.
  unfold RevokeGrant. apply hoare_asks. intros p Hp. eapply hoare_bind with (mid := fun _ => confined); [|intros []; keep_with idtac].
  unfold MemberStore.RevokeGrant. apply k_uuid. intros g. apply hoare_with_uuid; [done|]. intros c Hc%Hp. subst c.
  apply k_run; [apply stable_confined|]. intros _. apply sql_change. intros t Hw.
  eapply confined_after; [exact Hw|apply whole_revoke_one; apply Hw|by apply apart_revoke_one].
Qed.

(** *** A membership of the tenant's *)
Lemma own_after id t t' : with_own id t -> Whole t' -> apart tid t t' -> t_memberships t' = t_memberships t -> with_own id t'.
Proof using.
  intros [Hc Ho] Hw Ha Hm. split; [by eapply confined_after|]. intros c Hid. unfold owned. rewrite Hm. by apply Ho.
Qed.

Lemma own_resync id : own id (MemberStore.ResyncMembership env w id).
Proof using.
  apply hoare_with_uuid; [done|]. intros c Hc. apply k_run; [apply stable_own|]. intros ids t n k t' n' Ht H.
  pose proof Ht as [[Hw _] Ho]. destruct (membership_resync_spec _ _ _ _ _ _ _ _ _ H Hw) as (Hw' & Hx & _). pose proof (ex_frame _ _ _ _ _ Hx) as (Hm & _).
  eapply own_after; [exact Ht|exact Hw'|by eapply apart_resync; [exact H|exact Hw|apply Ho]|exact Hm].
Qed.

Lemma own_assign i by0 : own (ai_MembershipID i) (MemberStore.AssignMembership env w i by0).
Proof using.
  unfold MemberStore.AssignMembership. apply k_tx; [apply stable_own|]. eapply hoare_bind with (mid := fun _ => with_own (ai_MembershipID i)).
  - apply k_uuid. intros person. apply hoare_with_uuid; [done|]. intros c Hc. apply k_uuid. intros by_. apply k_opt_uuid. intros node.
    apply k_run; [apply stable_own|]. intros ids t n r t' n' Ht H. pose proof Ht as [[Hw _] Ho].
    destruct (membership_assign_spec _ _ _ _ _ _ _ _ _ _ _ _ _ _ _ H Hw) as [Hw' Hr].
    eapply own_after; [exact Ht|exact Hw'|by eapply apart_assign; [exact H|exact Hw|apply Ho]|]. destruct r as [v|]; [|by destruct Hr as [-> _]].
    destruct Hr as ((row & _ & _ & Hx & _) & _). cbv zeta in Hx. pose proof (ex_frame _ _ _ _ _ Hx) as (Hm & _). exact Hm.
  - intros o. keep_with ltac:(apply k_run; [apply stable_own|]). intros ids. by apply sql_query.
Qed.

Lemma own_unassign id i by0 reason : own id (MemberStore.UnassignMembership env i id by0 reason).
Proof using.
  unfold MemberStore.UnassignMembership. apply k_uuid. intros person. apply hoare_with_uuid; [done|]. intros c Hc. apply k_uuid. intros by_.
  apply k_run; [apply stable_own|]. intros ids t n k t' n' Ht H. apply membership_unassign_is in H as [-> _]. pose proof Ht as [[Hw _] Ho].
  eapply own_after; [exact Ht|by apply whole_unassign|by apply apart_unassign; [|apply Ho]|done].
Qed.

(** *** Entries *)
Lemma stable_own_ungiven id e : stable settle settled AtRest (fun t => with_own id t /\ ungiven e t).
Proof using. intros t [Hw Hd] Hs. by destruct (stable_own id t Hw Hs). Qed.

Lemma own_insert_places id e l :
  hoare (with_own id) AtRest (fun t => with_own id t /\ ungiven e t) (insert_places env w e tid l) (fun _ => with_own id).
Proof using.
  induction l as [|sc l IH]; cbn [insert_places]; [apply hoare_ret; by intros t [? _]|].
  eapply hoare_bind with (mid := fun _ t => with_own id t /\ ungiven e t); [|intros _; exact IH].
  apply hoare_with_uuid; [by intros t [? _]|]. intros c _. apply hoare_statement; [by intros t [? _]|intros _; apply stable_own_ungiven|].
  intros ids. set (p := {| pi_Tenant := tid; pi_Inherit := _; pi_Exclude := _ |}). intros t n [] t' n' [Ht Hun] H.
  apply insert_place_is in H as [Hc ->]. split; [|by destruct (pi_Exclude p)].
  eapply own_after; [exact Ht|eapply whole_new_place; [apply Ht|exact Hun|exact Hc]| |by destruct (pi_Exclude p)].
  apply apart_new_place; [by eapply place_absent|done].
Qed.

Lemma own_insert_entries id mid l : own id (insert_entries env w mid tid l).
Proof using.
  induction l as [|e l IH]; cbn [insert_entries]; [by apply hoare_ret|].
  eapply hoare_bind with (mid := fun x t => with_own id t /\ ungiven x t).
  - apply hoare_with_uuid; [done|]. intros c _. apply hoare_statement; [done|intros x; apply stable_own_ungiven|].
    intros ids t n x t' n' Ht H. apply insert_entry_is in H as (Hid & Hms & -> & _). pose proof Ht as [[Hw _] _]. split; [|by apply whole_new_entry].
    eapply own_after; [exact Ht|by apply whole_new_entry|by apply apart_new_entry|done].
  - intros x. eapply hoare_bind with (mid := fun _ => with_own id); [apply own_insert_places|]. intros _. exact IH.
Qed.

Lemma own_replace tenant id l : (forall c, Uuid.canon tenant = Some c -> c = tid) -> own id (ReplaceMembershipEntries env w tx tenant id l).
Proof using.
  intros Htn. unfold ReplaceMembershipEntries. apply k_tx; [apply stable_own|].
  eapply hoare_bind; [apply k_MembershipEntries; apply stable_own|]. intros le. eapply hoare_bind; [apply k_MembershipEntryScopes; apply stable_own|].
  intros sc. destruct (keep_or_add _ _ _ _) as [have add]. apply hoare_with_uuid; [done|]. intros c Hc.
  eapply hoare_bind with (mid := fun _ => with_own id).
  - destruct (retire_of have) as [|x ids]; [by apply hoare_ret|]. apply k_run; [apply stable_own|]. intros _. apply sql_change. intros t Ht. pose proof Ht as [[Hw _] Ho].
    eapply own_after; [exact Ht|apply whole_retire; [done|]; apply retire_rows_same|by apply apart_retire; [|apply Ho]|done].
  - intros []. destruct add as [|a add]; [by apply hoare_ret|]. apply hoare_with_uuid; [done|]. intros x Hx%Htn. subst x. apply own_insert_entries.
Qed.

Lemma c_SetMembershipEntries m l : keeps (SetMembershipEntries env w tx ac m l).
Proof using acts_for.
  unfold SetMembershipEntries. apply hoare_asks. intros p Hp. apply hoare_own; [done|]. intros row.
  keep_with ltac:(first [by apply own_replace|apply own_resync|apply stable_own]).
Qed.
Lemma c_AssignMembership i : keeps (AssignMembership env w ac i).
Proof using acts_for.
  unfold AssignMembership. apply hoare_asks. intros p Hp. apply hoare_own; [done|]. intros row.
  match goal with |- hoare _ _ _ (match ?x with _ => _ end) _ => destruct x end; [by apply hoare_raise|].
  eapply hoare_bind with (mid := fun _ => with_own (ai_MembershipID i)); [|intros o; keep_with idtac].
  set (i' := {| ai_MembershipID := _ |}). exact (own_assign i' _).
Qed.
Lemma c_UnassignMembership m i r : keeps (UnassignMembership env ac m i r).
Proof using acts_for.
  unfold UnassignMembership. apply hoare_asks. intros p Hp. apply hoare_own; [done|]. intros row. keep_with ltac:(apply own_unassign).
Qed.
Lemma c_ResyncMembership m : keeps (ResyncMembership env w ac m).
Proof using acts_for.
  unfold ResyncMembership. apply hoare_asks. intros p Hp. apply hoare_own; [done|]. intros row. keep_with ltac:(apply own_resync).
Qed.

Lemma c_RemoveMembershipAssignment a r : keeps (RemoveMembershipAssignment env ac a r).
Proof using acts_for.
  unfold RemoveMembershipAssignment. apply hoare_asks. intros p Hp. destruct (bool_decide _); [by apply hoare_raise|].
  eapply hoare_bind with (mid := fun _ => confined); [|intros n; keep_with idtac]. unfold LeaveMembership.
  apply hoare_with_uuid; [done|]. intros c Hc%Hp. subst c. apply k_uuid. intros by_. apply k_opt_uuid. intros ca. apply k_found. apply k_run; [apply stable_confined|].
  intros _. destruct ca as [c|]; [|by apply sql_ret]. intros t n k t' n' Ht H. unfold leave_row in H. pose proof Ht as [Hw _].
  apply bind_ok in H as (m & [t1 n1] & [= <- <- <-] & H). cbn [fst] in H. destruct (t_members t !! c) as [m|] eqn:Em; [|by injection H as _ <- _].
  destruct (_ && _) eqn:Eb; [|by injection H as _ <- _]. apply bind_ok in H as (j & [t2 n2] & H & [= _ <- _]). unbool.
  apply membership_leave_is in H as [-> _]. eapply confined_after; [exact Ht|by apply whole_leave|by eapply apart_leave].
Qed.

End Handlers.

(** C17: Whatever a request does about grants and memberships, when everyone the
    guard lets through acts for one tenant, no row of any other tenant's is
    added, changed or dropped: not a grant or a pick of one, not a membership, an
    entry, a place of one or an assignment; whatever ids the request names,
    whether it answers or fails, and wherever the database fails it. *)
Theorem requests_stay_in_tenant (env : Env) (w : World) (tx : Text) (ac : ACtx) (tid : string) (r : Request) (s : Store Tables) :
  (forall permission p c, asks ac permission p -> Uuid.canon (TenantID p) = Some c -> c = tid) ->
  sound AtRest Whole s -> apart tid (st_tables s) (st_tables (serve env w tx ac r s)).
Proof.
  intros Ha Hs. set (t0 := st_tables s).
  assert (sound AtRest (confined tid t0) s) as H0 by (destruct Hs; split; [split; [done|apply apart_refl]|done]).
  assert (forall A (m : Eff (Store Tables) Error A), hoare (confined tid t0) AtRest (confined tid t0) m (fun _ => confined tid t0) ->
    apart tid t0 (st_tables (done_with m s))) as G.
  { intros A m H. specialize (H s H0). unfold done_with. destruct (m s) as [[a|e] s']; apply H. }
  destruct r; cbn [serve]; apply G;
    [apply k_SearchGrants, stable_confined|apply k_ListGrants, stable_confined|by apply c_CreateGrant|by apply c_RevokeGrant
    |apply k_ListMemberships, stable_confined|by apply c_CreateMembership|by apply c_SetMembershipEntries|by apply c_AssignMembership
    |by apply c_UnassignMembership|by apply c_RemoveMembershipAssignment|by apply c_ResyncMembership
    |apply k_ListMembershipAssignments, stable_confined].
Qed.

End MemberConfined.
