(* ===== verification/MemberSamples.v ===== *)
(** Two memberships and the people in them: samples of what the theorems on
    grants and memberships say, and of what the code does that its comments do
    not. *)

From Stdlib Require Import ZArith Lia Bool Ascii String.
From stdpp Require Import base gmap strings list sorting.
From S2P Require Import Prelude.
From S2P Require Import GoStrings.
From S2P Require Import GoConv.
From S2P Require Import Shared.
From S2P Require Import AuthStore.
From S2P Require Import AdminGuard.
From S2P Require Import ScopeTree.
From S2P Require Import TreeProps.
From S2P Require Import Db.
From S2P Require Import Members.
From S2P Require Import MemberStore.
From S2P Require Import MemberAdmin.
From S2P Require Import MemberProps.
From S2P Require Import MemberKeeps.
From S2P Require Import MemberTheorems.
From S2P Require Import MemberConfined.

Module MemberSamples.
Import Apperr Authctx AdminGuard Operator Pg Db Members MemberStore MemberAdmin MemberProps MemberOps MemberKeeps MemberEntries MemberTheorems MemberConfined.

Definition uuid (last : string) : string := ("0190a0b0-0000-7000-8000-000000000" ++ last)%string.
Definition hex (n : nat) : string := substring (n mod 16) 1 "0123456789abcdef".
(** What sixty-four calls generate, sixteen at most each. *)
Definition ids : list string := Eval vm_compute in map (fun i => uuid (hex (i / 256) ++ hex (i / 16) ++ hex i)) (seq 0 1024).
Definition made (k n : nat) : string := default (uuid "fff") (ids !! (k * 16 + n)).

Lemma made_uuid k n : Uuid.canon (made k n) = Some (made k n).
Proof.
  assert (Forall (fun x => Uuid.canon x = Some x) (uuid "fff" :: ids)) as H by (apply (bool_decide_unpack _); vm_compute; exact I).
  rewrite list.Forall_forall in H. apply H. unfold made. destruct (ids !! _) as [x|] eqn:E; [right; by apply list_elem_of_lookup_2 in E|by left].
Qed.

Definition tenant : string := uuid "e00".
Definition other : string := uuid "e01".
Definition ann : string := uuid "e0a".
Definition bob : string := uuid "e0b".
Definition admin : string := uuid "e0c".
Definition viewer : string := uuid "e11".
Definition editor : string := uuid "e12".
Definition sales : string := uuid "e21".
Definition coast : string := uuid "e22".

Definition world : World := {|
  wo_role r := if bool_decide (r = viewer) then Some {| ro_Tenant := tenant; ro_Name := "viewer"; ro_Kinds := ["workforce"]; ro_Deprecated := None |}
               else if bool_decide (r = editor) then Some {| ro_Tenant := tenant; ro_Name := "editor"; ro_Kinds := ["workforce"]; ro_Deprecated := None |}
               else None;
  wo_person i := if bool_decide (i = ann) then Some {| pe_Tenant := tenant; pe_Username := "ann"; pe_Kind := Some "workforce" |}
                 else if bool_decide (i = bob) then Some {| pe_Tenant := tenant; pe_Username := "bob"; pe_Kind := Some "workforce" |} else None;
  wo_node n := if bool_decide (n = sales) || bool_decide (n = coast) then Some (tenant, "org") else None;
  wo_node_name n := n; wo_axis t a := bool_decide (t = tenant) && bool_decide (a = "org"); wo_tenant t := bool_decide (t = tenant) || bool_decide (t = other);
  wo_date _ := ""; wo_timestamp _ := "" |}%string.

Definition txt : Text := {| tx_ToLower := str_lower; tx_le := String.leb; tx_ilike _ _ := false |}.

Definition owner : AssignmentRecord :=
  {| a_ID := "A1"; a_OperatorID := "O1"; a_TenantID := ""; a_TenantSlug := ""; a_Role := RoleOwner; a_GrantedBy := ""; a_Reason := "";
     a_ValidUntil := None; a_RevokedAt := None; a_CreatedAt := 0; a_Below := [] |}.
Definition caller (works_in : string) : Principal := {|
  IdentityID := admin; TenantID := works_in; TenantSlug := ""; SessionID := "s"; Authctx.Realm := ""; Roles := []; Scopes := ∅; AMR := [];
  AuthTime := 0; IAL := 0; Epoch := 3; Audience := []; Service := false; Platform := true; Token := "" |}.
Definition console_in (works_in : string) : ACtx := {|
  ac_guard := WithOperators {| AssignmentsForOperator _ := Some [owner]; OperatorStanding _ := Some (true, 3%Z) |} 5;
  ac_caller := Some (caller works_in); ac_ip := "ip"; ac_clock := 5000; ac_rfc3339 _ := "" |}.
Abbreviation console := (console_in tenant).
Definition db : Env := {| ev_fails _ := false; ev_now := 5000; ev_id := made |}.

Definition place (node : string) (exclude : bool) : GrantScopeInput := {| si_Axis := "org"; si_NodeID := node; si_Inherit := true; si_Exclude := exclude |}.
Definition gives_role (role : string) (places : list GrantScopeInput) : MembershipEntryInput := {| ei_RoleID := role; ei_Scopes := places |}.
Definition seat_of (membership person node : string) : MembershipAssignmentInput := {|
  ai_MembershipID := membership; ai_IdentityID := person; ai_NodeID := node; ai_Exact := false; ai_ValidUntil := None; ai_Reason := " " |}.

(** The ids come in turn. *)
Definition staff : string := made 0 0.
Definition leads : string := made 1 0.
Definition ann_in_staff : string := made 20 0.
Definition theirs : string := made 28 0.

Definition empty : Store Tables := {|
  st_tables := {| t_grants := ∅; t_pins := ∅; t_memberships := ∅; t_entries := ∅; t_places := ∅; t_members := ∅; t_deferred := [] |};
  st_log := []; st_tx := NoTx; st_calls := 0 |}.
Definition asked (s : Store Tables) (r : string * Request) : Store Tables := serve db world txt (console_in (fst r)) (snd r) s.

Definition set_up : list (string * Request) := map (pair tenant) [
  RCreateMembership "Staff" "" ""; RCreateMembership "Leads" "" "org";
  RSetEntries staff [gives_role viewer [place sales false; place coast true]; gives_role editor [place coast false]];
  RSetEntries leads [gives_role editor []];
  RAssign (seat_of staff ann ""); RAssign (seat_of leads ann sales)]%string ++ [(other, RCreateMembership "Theirs" "" "")]%string.
Definition before : Store Tables := Eval vm_compute in foldl asked empty set_up.

Lemma empty_whole : Whole (st_tables empty).
Proof. split; try split; unfold places_ok, entries_ok, members_ok, pins_ok, via_ok, derived_ok, once, ended, seats; cbn; intros *; rewrite ?lookup_empty; done. Qed.
Lemma history_all rs : forall s, reached empty s -> reached empty (foldl asked s rs).
Proof. induction rs as [|r rs IH]; intros s Hs; [done|]. apply IH. by apply reached_next. Qed.
Lemma set_up_reached : reached empty before.
Proof.
  assert (foldl asked empty set_up = before) as <- by (vm_cast_no_check (eq_refl before)). apply history_all. constructor.
Qed.
Lemma before_sound : sound AtRest Whole before.
Proof. eapply history_whole; [|exact set_up_reached]. split; [exact empty_whole|done]. Qed.
Lemma before_whole : Whole (st_tables before).
Proof. apply before_sound. Qed.

(** Who has what: the person, the role, whether it is live. *)
Definition shown (s : Store Tables) : list (string * string * bool) :=
  map (fun '(_, g) => (gr_Identity g, gr_Role g, live g)) (map_to_list (t_grants (st_tables s))).
Definition shown_members (s : Store Tables) : list (string * bool) :=
  map (fun '(_, m) => (mb_Identity m, bool_decide (mb_RemovedAt m = None))) (map_to_list (t_members (st_tables s))).

Lemma memberships_stay_whole_witness :
  shown before = [(ann, editor, true); (ann, viewer, true); (ann, editor, true)] /\
  let t := st_tables before in
  (forall id g m, t_grants t !! id = Some g -> gr_ViaMember g = Some m -> derived_from t id g m) /\ once t /\ ended t /\ seats t /\
  (forall g a n p, t_pins t !! (g, a, n) = Some p -> pi_Exclude p = true -> is_include (t_pins t) g a = true) /\
  (forall e a n p, t_places t !! (e, a, n) = Some p -> pi_Exclude p = true -> is_include (t_places t) e a = true).
Proof. split; [vm_compute; reflexivity|]. exact (memberships_stay_whole empty before empty_whole eq_refl eq_refl set_up_reached eq_refl). Defined.

(** ** Staff's contents replaced *)
Lemma lowers x c : Uuid.canon x = Some c -> tx_ToLower txt x = c /\ tx_ToLower txt c = c.
Proof. unfold Uuid.canon. destruct (Uuid.ParseUUID x); [|done]. intros [= <-]. split; [done|apply str_lower_again]. Qed.

Lemma before_known : knows world (st_tables before).
Proof.
  assert (map_Forall (fun e er => is_Some (wo_role world (en_Role er)) /\ Uuid.canon e = Some e) (t_entries (st_tables before))) as H1
    by (apply (bool_decide_unpack _); vm_compute; exact I).
  assert (map_Forall (fun k (_ : PinRow) => is_Some (wo_node world (snd k))) (t_places (st_tables before))) as H2
    by (apply (bool_decide_unpack _); vm_compute; exact I).
  split; [intros e er He; apply (H1 _ _ He)|intros e a n p Hp; apply (H2 _ _ Hp)|intros e [er He]; apply (H1 _ _ He)].
Qed.

(** The editors keep what they have; the viewers may now see the coast too. *)
Definition wider : list MembershipEntryInput := [gives_role viewer [place coast false; place sales false]; gives_role editor [place coast false]].
Definition widened : result Error Z * Store Tables := Eval vm_compute in SetMembershipEntries db world txt console staff wider before.
Lemma widened_is : SetMembershipEntries db world txt console staff wider before = widened.
Proof. vm_cast_no_check (eq_refl widened). Qed.

Lemma set_entries_brings_in_step_witness :
  fst widened = Ok 2%Z /\ shown (snd widened) = [(ann, editor, true); (ann, viewer, false); (ann, editor, true); (ann, viewer, true)] /\
  exists c, Uuid.canon staff = Some c /\ brought_in_step db world txt c wider (st_tables before) (st_tables (snd widened)).
Proof.
  split; [vm_compute; reflexivity|]. split; [vm_compute; reflexivity|].
  exact (set_entries_brings_in_step db world txt console staff wider before _ _ lowers eq_refl eq_refl before_whole before_known widened_is).
Defined.

(** ** Bob leads the coast, and Ann leaves the staff *)
Definition cover : MembershipAssignmentInput := {|
  ai_MembershipID := leads; ai_IdentityID := bob; ai_NodeID := coast; ai_Exact := true; ai_ValidUntil := Some 9000000%Z; ai_Reason := " cover " |}.
Definition covered : result Error MembershipAssignOutcome * Store Tables := Eval vm_compute in AssignMembership db world console cover before.
Definition outcome : MembershipAssignOutcome := {| ao_AssignmentID := made 31 0; ao_GrantsCreated := 1 |}.
Lemma covered_is : AssignMembership db world console cover before = (Ok outcome, snd covered).
Proof. vm_cast_no_check (eq_refl covered). Qed.

Lemma assigning_gives_exactly_witness :
  shown (snd covered) = [(ann, editor, true); (bob, editor, true); (ann, viewer, true); (ann, editor, true)] /\
  exists p c person by_ node, asks console "anubis:grant:admin" p /\ Uuid.canon leads = Some c /\
    Uuid.canon bob = Some person /\ Uuid.canon (IdentityID p) = Some by_ /\ same_place (TrimSpace coast) node /\
    if bool_decide (ao_AssignmentID outcome = ""%string)
    then st_tables (snd covered) = st_tables before /\ exists j m, t_members (st_tables before) !! j = Some m /\ same_seat c person node m = true
    else assigned (ev_now db) world c person by_ node (negb true) (microseconds <$> OptTime (Some 9000000%Z)) (TrimSpace " cover ")
           (ao_AssignmentID outcome) (st_tables before) (st_tables (snd covered)) /\
         ao_GrantsCreated outcome = Z.of_nat (length (live_entries (st_tables before) c)).
Proof.
  split; [vm_compute; reflexivity|].
  exact (assigning_gives_exactly db world console cover before (Ok outcome) (snd covered) made_uuid eq_refl eq_refl before_whole covered_is).
Defined.

Definition left : result Error Z * Store Tables := Eval vm_compute in RemoveMembershipAssignment db console ann_in_staff " moved on " before.
Lemma left_is : RemoveMembershipAssignment db console ann_in_staff " moved on " before = left.
Proof. vm_cast_no_check (eq_refl left). Qed.

Lemma leaving_takes_back_exactly_witness :
  shown (snd left) = [(ann, editor, true); (ann, viewer, false); (ann, editor, false)] /\ shown_members (snd left) = [(ann, true); (ann, false)] /\
  exists p c m tid by_, asks console "anubis:grant:admin" p /\ Uuid.canon ann_in_staff = Some c /\ Uuid.canon (TenantID p) = Some tid /\
    Uuid.canon (IdentityID p) = Some by_ /\ t_members (st_tables before) !! c = Some m /\ mb_Tenant m = tid /\ mb_RemovedAt m = None /\
    left_one (ev_now db) c by_ "moved on" m (st_tables before) (st_tables (snd left)) /\ 2%Z = live_grants_of (st_tables before) c.
Proof.
  do 2 (split; [vm_compute; reflexivity|]).
  exact (leaving_takes_back_exactly db console ann_in_staff " moved on " before _ _ eq_refl eq_refl left_is).
Defined.

(** ** Another tenant's membership *)
Lemma console_asks permission p : asks console permission p -> p = caller tenant.
Proof.
  unfold asks, Require, requirePlatform. cbn. repeat (match goal with |- context [if ?b then _ else _] => destruct b end); congruence.
Qed.

Definition emptied : Store Tables := Eval vm_compute in asked (asked before (tenant, RAssign (seat_of theirs ann ""))) (tenant, RSetEntries staff []).

Lemma requests_stay_in_tenant_witness :
  shown emptied = [(ann, editor, true); (ann, viewer, false); (ann, editor, false)] /\
  apart tenant (st_tables before) (st_tables (asked before (tenant, RAssign (seat_of theirs ann "")))).
Proof.
  split; [vm_compute; reflexivity|].
  apply (requests_stay_in_tenant db world txt console tenant (RAssign (seat_of theirs ann "")) before); [|exact before_sound].
  intros permission p c Hp%console_asks Hc. subst p. revert Hc. vm_compute. congruence.
Defined.

(** ** What the comments say otherwise *)

(** An id nobody's grant has: the answer is yes, and the log tells of a
    revocation.  The query's comment: an already-revoked grant is not found. *)
Example nothing_revoked :
  let '(r, s) := RevokeGrant db console (uuid "ddd") "typo" before in
  r = Ok tt /\ shown s = shown before /\ map (fun e => (AuthStore.au_Action e, AuthStore.au_TargetID e)) (skipn (length (st_log before)) (st_log s)) = [("grant.revoke", uuid "ddd")]%string.
Proof. vm_compute. done. Qed.

(** A grant that only excludes: the guard that says so runs when the transaction
    ends, and what it says comes back as the server's own fault. *)
Example exclusion_alone :
  let '(r, s) := CreateGrant db world console {| gc_TenantID := ""; gc_IdentityID := ann; gc_RoleID := viewer; gc_GrantedBy := ""; gc_Reason := "";
    gc_SelfScoped := false; gc_ValidUntil := None; gc_Scopes := [place coast true] |} before in
  (match r with Err e => Some (EKind e, Code e) | Ok _ => None end, length (shown s)) = (Some (EKind ErrInternal, Code ErrInternal), 3%nat).
Proof. vm_cast_no_check (eq_refl (Some (EKind ErrInternal, Code ErrInternal), 3%nat)). Qed.

(** One grant of a membership revoked on its own is back at the next resync. *)
Definition one_of_anns : string := made 20 1.
Definition live_now (s : Store Tables) : nat := length (List.filter snd (shown s)).
Example revoked_then_back :
  let revoked := asked before (tenant, RRevokeGrant one_of_anns "no longer needed") in
  bool_decide ((live_now before, live_now revoked, live_now (asked revoked (tenant, RResync staff))) = (3, 2, 3)%nat) = true.
Proof. vm_cast_no_check (eq_refl true). Qed.

End MemberSamples.
