(* ===== verification/Catalog.v ===== *)
(** internal/authz/app/catalog: what an application's catalog document says.
    manifest.go, parse.go and validate.go; the lines encoding/csv reads are
    modelled, encoding/json's decoding is a parameter. *)

From Stdlib Require Import ZArith Lia Bool Ascii String.
From stdpp Require Import base gmap strings list.
From S2P Require Import Prelude.
From S2P Require Import GoStrings.
From S2P Require Import GoConv.
From S2P Require Import Shared.

(** ** encoding/csv

    A Reader with commas, no comments, strict quotes, any number of fields and
    leading blanks trimmed: what csv.NewReader gives and parse.go sets. *)
Module Csv.

Definition NL : ascii := chr 10.
Definition CR : ascii := chr 13.
Definition Quote : ascii := chr 34.

(** readLine: each line with its newline, CRLF as LF; a CR at the very end is
    dropped. *)
Fixpoint lines_from (acc s : string) : list string :=
  match s with
  | EmptyString => if bool_decide (acc = ""%string) then []
                   else [if has_suffix_byte CR acc then str_init acc else acc]
  | String c r =>
      if bool_decide (c = NL)
      then ((if has_suffix_byte CR acc then str_init acc else acc) ++ String NL "")%string :: lines_from "" r
      else lines_from (acc ++ String c "") r
  end.
Definition lines (s : string) : list string := lines_from "" s.

Definition chomp (s : string) : string := if has_suffix_byte NL s then str_init s else s.
Definition trim_space_left (s : string) : string := drop_front spaces (String.length s) s.

(** The part of a record being read. *)
Inductive Mode := Start | Quoted (buf : string).

(** One record: the fields so far, the rest of the line, the lines after it.
    [None] for a stray quote or a field never closed; the record with the lines
    left otherwise.  Every turn drops a byte or a line, so the text's length and
    its lines are enough fuel. *)
Fixpoint record (fuel : nat) (m : Mode) (fields : list string) (line : string) (rest : list string) : option (list string * list string) :=
  match fuel with
  | O => None
  | S fuel =>
      match m with
      | Start =>
          let line := trim_space_left line in
          match line with
          | String q line' =>
              if bool_decide (q = Quote) then record fuel (Quoted "") fields line' rest
              else match cut "," line with
                   | Some (field, line') => if has_byte Quote field then None else record fuel Start (fields ++ [field]) line' rest
                   | None => if has_byte Quote (chomp line) then None else Some (fields ++ [chomp line], rest)
                   end
          | EmptyString => Some (fields ++ [""%string], rest)
          end
      | Quoted buf =>
          match cut Quote line with
          | Some (part, line') =>
              match line' with
              | String c line'' =>
                  if bool_decide (c = Quote) then record fuel (Quoted (buf ++ part ++ String Quote "")) fields line'' rest
                  else if bool_decide (c = ","%char) then record fuel Start (fields ++ [(buf ++ part)%string]) line'' rest
                  else if bool_decide (line' = String NL "") then Some (fields ++ [(buf ++ part)%string], rest)
                  else None
              | EmptyString => Some (fields ++ [(buf ++ part)%string], rest)
              end
          | None =>
              match line, rest with
              | EmptyString, _ => None
              | _, next :: rest' => record fuel (Quoted (buf ++ line)) fields next rest'
              | _, [] => record fuel (Quoted (buf ++ line)) fields "" []
              end
          end
      end
  end.

Definition size (line : string) (rest : list string) : nat :=
  String.length line + list_sum (map (fun l => S (String.length l)) rest).

(** Read: empty lines are passed over; [None] at the end of the file. *)
Fixpoint Read (ls : list string) : option (option (list string) * list string) :=
  match ls with
  | [] => None
  | l :: rest =>
      if bool_decide (l = ""%string) || bool_decide (l = String NL "") then Read rest
      else match record (S (S (size l rest))) Start [] l rest with
           | Some (fields, rest') => Some (Some fields, rest')
           | None => Some (None, rest)
           end
  end.

(** The fuel is enough: more changes nothing. *)
Lemma drop_front_length encs f s : (String.length (drop_front encs f s) <= String.length s)%nat.
Proof.
  revert s. induction f as [|f IH]; intros s; [done|]. simpl. destruct (find _ _); [|done]. rewrite IH, str_length_drop. lia.
Qed.
Lemma trim_space_length s : (String.length (trim_space_left s) <= String.length s)%nat.
Proof. apply drop_front_length. Qed.
Lemma cut_length c s h t : cut c s = Some (h, t) -> (String.length t < String.length s)%nat.
Proof. intros [-> _]%cut_some. rewrite str_length_app. simpl. lia. Qed.

Lemma record_fuel f1 : forall f2 m fields line rest, (size line rest < f1)%nat -> (size line rest < f2)%nat ->
  record f1 m fields line rest = record f2 m fields line rest.
Proof.
  unfold size. induction f1 as [|f1 IH]; intros [|f2] m fields line rest H1 H2; try lia. simpl. destruct m as [|buf].
  - pose proof (trim_space_length line) as Hl. destruct (trim_space_left line) as [|c line'] eqn:E; [done|].
    case_bool_decide; [apply IH; simpl in Hl; lia|]. destruct (cut _ _) as [[field l]|] eqn:Ec; [|done].
    apply cut_length in Ec. destruct (has_byte _ _); [done|]. apply IH; lia.
  - destruct (cut _ _) as [[part l]|] eqn:Ec.
    + apply cut_length in Ec. destruct l as [|c l]; [done|]. simpl in Ec.
      case_bool_decide; [apply IH; lia|]. case_bool_decide; [apply IH; lia|done].
    + destruct line as [|c line]; [done|]. destruct rest as [|next rest]; apply IH; simpl in *; lia.
Qed.

(** A record takes lines of what is left. *)
Lemma record_rest f : forall m fields line rest r rest', record f m fields line rest = Some (r, rest') -> (length rest' <= length rest)%nat.
Proof.
  induction f as [|f IH]; intros m fields line rest r rest'; [done|]. simpl. intros H.
  repeat (case_match; try done); simplify_eq; try done; apply IH in H; simpl in *; lia.
Qed.
Lemma Read_shorter ls r rest : Read ls = Some (r, rest) -> (length rest < length ls)%nat.
Proof.
  induction ls as [|l ls IH]; [done|]. cbn [Read length]. destruct (bool_decide (l = _) || _); [intros H%IH; lia|].
  destruct (record (S (S (size l ls))) Start [] l ls) as [[fields rest']|] eqn:E; intros [= <- <-]; [|lia]. apply record_rest in E. lia.
Qed.

Definition text_of (l : list string) : string := String.concat (String NL "") l.
Example lines_ex : lines (text_of ["a"; "b"]) = [text_of ["a"; ""]; "b"%string] /\ lines (String.append "a" (String CR (String NL (String CR "")))) = [text_of ["a"; ""]; ""%string].
Proof. vm_compute. done. Qed.

Definition q (s : string) : string := String Quote (s ++ String Quote "").
Example Read_ex :
  Read (lines (text_of [""; "a, " ++ q "b,c" ++ ",d "; q ("x" ++ String Quote (q "y")); "z"]%string)) =
    Some (Some ["a"; "b,c"; "d "]%string, lines (text_of [q ("x" ++ String Quote (q "y")); "z"]%string)) /\
  Read (lines (text_of [(q ("x" ++ String Quote (String Quote "y")))%string; "z"]%string)) = Some (Some [("x" ++ String Quote "y")%string], ["z"%string]) /\
  option_map fst (Read (lines ("a" ++ q "b"))) = Some None /\
  Read (lines (text_of [(String Quote "x")%string; ("y" ++ String Quote ",")%string])) = Some (Some [text_of ["x"; "y"]; ""%string], []).
Proof. vm_compute. done. Qed.

End Csv.

(** ** The document *)
Module Catalog.
Import Apperr.

Record Permission := {
  cp_Resource : string; cp_Action : string; cp_Description : string; cp_Risk : string; cp_MinAssurance : Z;
  cp_RequiresAMR : list string; cp_MaxAuthAge : string; cp_Module : string
}.
Record Role := {
  cr_Name : string; cr_Description : string; cr_Permissions : list string; cr_Patterns : list string;
  cr_AllowedRealmKinds : list string
}.
(** [ct_ScopeBindings] is [None] where the document gives none: a nil map. *)
Record Route := {
  ct_Priority : Z; ct_PathPattern : string; ct_HostPattern : string; ct_Methods : list string; ct_Effect : string;
  ct_Permission : string; ct_ScopeBindings : option (gmap string string)
}.

(** A section that was not declared is [None]. *)
Record Document := { Permissions : option (list Permission); Roles : option (list Role); Routes : option (list Route) }.

Definition declared {A} (o : option A) (name : string) : list string := match o with Some _ => [name] | None => [] end.
Definition Sections (d : Document) : list string :=
  declared (Permissions d) "permissions" ++ declared (Roles d) "roles" ++ declared (Routes d) "routes".

(** *** parse.go *)
Section Parse.
(** strings.ToLower, and json.Unmarshal into the three sections: a key that is
    absent or null is a nil pointer. *)
Context (ToLower : string -> string) (unmarshal : string -> option Document).

Definition FormatJSON : string := "json".
Definition FormatCSV : string := "csv".
Definition maxRows : nat := Z.to_nat 10000.

Definition parseJSON (text : string) : result Error Document :=
  match unmarshal text with Some d => Ok d | None => Err (Wrap (With ErrInvalidArgument "manifest" "invalid JSON") "json") end.

Fixpoint str_filter (p : ascii -> bool) (s : string) : string :=
  match s with EmptyString => "" | String c r => if p c then String c (str_filter p r) else str_filter p r end.
Definition letter_or_digit (c : ascii) : bool := in_range 97 122 c || in_range 48 57 c.
Definition normalise (s : string) : string := str_filter letter_or_digit (ToLower (TrimSpace s)).

Abbreviation headerIndex := (gmap string nat).
Fixpoint index_from (i : nat) (header : list string) (idx : headerIndex) : headerIndex :=
  match header with
  | [] => idx
  | h :: r =>
      let k := normalise h in
      index_from (S i) r (if bool_decide (k = ""%string) || bool_decide (is_Some (idx !! k)) then idx else <[k := i]> idx)
  end.
Definition index (header : list string) : headerIndex := index_from 0 header ∅.
Definition has (h : headerIndex) (name : string) : bool := bool_decide (is_Some (h !! normalise name)).
Definition get (h : headerIndex) (rec : list string) (name : string) : string :=
  match h !! normalise name with
  | Some i => match rec !! i with Some v => TrimSpace v | None => "" end
  | None => ""
  end.

(** strings.FieldsFunc, for separators of one byte. *)
Fixpoint fields_func (sep : ascii -> bool) (acc s : string) : list string :=
  let field := if bool_decide (acc = ""%string) then [] else [acc] in
  match s with
  | EmptyString => field
  | String c r => if sep c then field ++ fields_func sep "" r else fields_func sep (acc ++ String c "") r
  end.
Definition multi (cell : string) : list string :=
  List.filter (fun v => negb (bool_decide (v = ""%string)))
    (map TrimSpace (fields_func (fun c => bool_decide (c = ";"%char) || bool_decide (c = ","%char)) "" cell)).
Definition blank (rec : list string) : bool := forallb (fun c => bool_decide (TrimSpace c = ""%string)) rec.

Definition unreadable (line : Z) : Error := Wrap (With (With ErrInvalidArgument "csv" "unreadable") "line" (Strconv.Itoa line)) "csv".
Definition too_many_rows : Error := With (With ErrInvalidArgument "csv" "too many rows") "max" (Strconv.Itoa (Z.of_nat maxRows)).

(** The rows after the header: [row] reads one.  Each Read drops a line, so the
    lines are enough fuel. *)
Fixpoint rows {A} (row : Z -> list string -> result Error A) (fuel : nat) (line : Z) (ls : list string) (out : list A) : result Error (list A) :=
  match fuel with
  | O => Ok out
  | S fuel =>
      match Csv.Read ls with
      | None => Ok out
      | Some (None, _) => Err (unreadable line)
      | Some (Some rec, rest) =>
          if blank rec then rows row fuel (line + 1) rest out
          else if (maxRows <=? length out)%nat then Err too_many_rows
          else match row line rec with Ok a => rows row fuel (line + 1) rest (out ++ [a]) | Err e => Err e end
      end
  end.

Lemma rows_fuel {A} row f1 : forall f2 line ls (out : list A), (length ls < f1)%nat -> (length ls < f2)%nat ->
  rows row f1 line ls out = rows row f2 line ls out.
Proof.
  induction f1 as [|f1 IH]; intros [|f2] line ls out H1 H2; try lia. cbn [rows]. destruct (Csv.Read ls) as [[[rec|] rest]|] eqn:E; [|done..].
  apply Csv.Read_shorter in E. destruct (blank rec); [apply IH; lia|]. destruct (maxRows <=? length out)%nat; [done|]. destruct (row line rec); [apply IH; lia|done].
Qed.

Definition permission_row (idx : headerIndex) (line : Z) (rec : list string) : result Error Permission :=
  let risk := get idx rec "risk" in
  let p n := {| cp_Resource := get idx rec "resource"; cp_Action := get idx rec "action"; cp_Description := get idx rec "description";
                cp_Risk := if bool_decide (risk = ""%string) then "normal" else risk; cp_MinAssurance := n;
                cp_RequiresAMR := multi (get idx rec "requires_amr"); cp_MaxAuthAge := get idx rec "max_auth_age";
                cp_Module := get idx rec "module" |} in
  let v := get idx rec "min_assurance" in
  if bool_decide (v = ""%string) then Ok (p 0%Z)
  else match Strconv.Atoi v with
       | Some n => Ok (p n)
       | None => Err (With (With (With ErrInvalidArgument "line" (Strconv.Itoa line)) "min_assurance" v) "expected" "1, 2 or 3")
       end.
Definition csvPermissions (idx : headerIndex) (ls : list string) : result Error Document :=
  match rows (permission_row idx) (S (length ls)) 2 ls [] with
  | Ok ps => Ok {| Permissions := Some ps; Roles := None; Routes := None |}
  | Err e => Err e
  end.

Definition role_row (idx : headerIndex) (line : Z) (rec : list string) : result Error Role :=
  let name := get idx rec "role" in
  Ok {| cr_Name := if bool_decide (name = ""%string) then get idx rec "name" else name; cr_Description := get idx rec "description";
        cr_Permissions := multi (get idx rec "permissions"); cr_Patterns := multi (get idx rec "patterns");
        cr_AllowedRealmKinds := multi (get idx rec "allowed_realm_kinds") |}.
Definition csvRoles (idx : headerIndex) (ls : list string) : result Error Document :=
  match rows (role_row idx) (S (length ls)) 2 ls [] with
  | Ok rs => Ok {| Permissions := None; Roles := Some rs; Routes := None |}
  | Err e => Err e
  end.

(** The byte order mark. *)
Definition BOM : string := str_of [239; 187; 191]%Z.
Definition trim_bom (text : string) : string := if String.prefix BOM text then str_drop 3 text else text.

Definition parseCSV (text : string) : result Error Document :=
  match Csv.Read (Csv.lines (trim_bom text)) with
  | None => Err (With ErrInvalidArgument "csv" "empty file")
  | Some (None, _) => Err (Wrap (With ErrInvalidArgument "csv" "unreadable") "csv")
  | Some (Some header, ls) =>
      let idx := index header in
      if has idx "resource" && has idx "action" then csvPermissions idx ls
      else if has idx "permissions" || has idx "role" then csvRoles idx ls
      else Err (With (With (With ErrInvalidArgument "csv" "header names neither a permission nor a role sheet")
                  "permissions" "resource, action, description, risk, min_assurance, requires_amr, max_auth_age, module")
                  "roles" "role, description, permissions, patterns, allowed_realm_kinds")
  end.

Definition Parse (text format : string) : result Error Document :=
  let f := ToLower (TrimSpace format) in
  if bool_decide (f = ""%string) || bool_decide (f = FormatJSON) then parseJSON text
  else if bool_decide (f = FormatCSV) then parseCSV text
  else Err (With (With ErrInvalidArgument "format" format) "expected" (FormatJSON ++ " or " ++ FormatCSV)).

(** *** validate.go *)
Definition ra (resource action : string) : string := (resource ++ ":" ++ action)%string.
Definition cp_key (p : Permission) : string := ra (cp_Resource p) (cp_Action p).
Definition risks : list string := ["normal"; "sensitive"; "critical"]%string.
Definition row_at (i : nat) : string := "row " ++ Strconv.Itoa (Z.of_nat (S i)).

Fixpoint check_permissions (i : nat) (seen : list string) (ps : list Permission) : option Error :=
  match ps with
  | [] => None
  | p :: r =>
      if bool_decide (cp_Resource p = ""%string) || bool_decide (cp_Action p = ""%string)
      then Some (With (With ErrInvalidArgument "manifest" "permission missing resource/action") "at" (row_at i))
      else if bool_decide (cp_key p ∈ seen)
      then Some (With (With (With ErrInvalidArgument "permission" (cp_key p)) "at" (row_at i)) "conflict" "declared twice in this document")
      else if negb (bool_decide (cp_Risk p = ""%string)) && negb (bool_decide (ToLower (cp_Risk p) ∈ risks))
      then Some (With (With (With ErrInvalidArgument "permission" (cp_key p)) "risk" (cp_Risk p)) "expected" "normal, sensitive or critical")
      else if (64 <? String.length (cp_Module p))%nat || negb (bool_decide (cp_Module p = TrimSpace (cp_Module p)))
      then Some (With (With (With ErrInvalidArgument "permission" (cp_key p)) "module" (cp_Module p)) "expected"
                  "a short label of at most 64 characters, no surrounding spaces")
      else if (cp_MinAssurance p <? 0)%Z || (3 <? cp_MinAssurance p)%Z
      then Some (With (With (With ErrInvalidArgument "permission" (cp_key p)) "min_assurance" (Strconv.Itoa (cp_MinAssurance p)))
                  "expected" "0 (unset), 1, 2 or 3")
      else check_permissions (S i) (cp_key p :: seen) r
  end.

Fixpoint check_roles (i : nat) (seen : list string) (rs : list Role) : option Error :=
  match rs with
  | [] => None
  | r :: rest =>
      if bool_decide (TrimSpace (cr_Name r) = ""%string)
      then Some (With (With ErrInvalidArgument "manifest" "role missing name") "at" (row_at i))
      else if bool_decide (cr_Name r ∈ seen)
      then Some (With (With (With ErrInvalidArgument "role" (cr_Name r)) "at" (row_at i)) "conflict" "declared twice in this document")
      else check_roles (S i) (cr_Name r :: seen) rest
  end.

Definition effects : list string := ["public"; "require_auth"; "require_permission"; "deny"]%string.
Fixpoint check_routes (prio : list (Z * string)) (rs : list Route) : option Error :=
  match rs with
  | [] => None
  | r :: rest =>
      if negb (bool_decide (ct_Effect r ∈ effects)) then Some (With (With ErrInvalidArgument "route" (ct_PathPattern r)) "effect" (ct_Effect r))
      else match find (fun '(p, _) => (p =? ct_Priority r)%Z) prio with
           | Some (_, prev) => Some (With (With (With ErrInvalidArgument "route" (ct_PathPattern r)) "conflict" prev)
                                       "priority" (Strconv.Itoa (ct_Priority r)))
           | None => check_routes ((ct_Priority r, ct_PathPattern r) :: prio) rest
           end
  end.

Definition Validate (d : Document) : option Error :=
  match check_permissions 0 [] (default [] (Permissions d)) with
  | Some e => Some e
  | None => match check_roles 0 [] (default [] (Roles d)) with
            | Some e => Some e
            | None => check_routes [] (default [] (Routes d))
            end
  end.

End Parse.

(** *** What a parsed or validated document is *)

(** A spreadsheet is one kind of row: it says nothing of the other sections. *)
Definition one_sheet (d : Document) : Prop :=
  Routes d = None /\ (is_Some (Permissions d) /\ Roles d = None \/ Permissions d = None /\ is_Some (Roles d)).

Lemma parseCSV_one_sheet lower text d : parseCSV lower text = Ok d -> one_sheet d.
Proof.
  unfold parseCSV, csvPermissions, csvRoles, one_sheet. intros H. repeat (case_match; try done); injection H as <-; cbn; eauto.
Qed.

Record valid (lower : string -> string) (d : Document) : Prop := {
  v_keys : NoDup (map cp_key (default [] (Permissions d)));
  v_permission p : p ∈ default [] (Permissions d) ->
    cp_Resource p <> ""%string /\ cp_Action p <> ""%string /\ (0 <= cp_MinAssurance p <= 3)%Z /\
    (cp_Risk p = ""%string \/ lower (cp_Risk p) ∈ risks);
  v_names : NoDup (map cr_Name (default [] (Roles d)));
  v_role r : r ∈ default [] (Roles d) -> TrimSpace (cr_Name r) <> ""%string;
  v_priorities : NoDup (map ct_Priority (default [] (Routes d)));
  v_route r : r ∈ default [] (Routes d) -> ct_Effect r ∈ effects
}.

Lemma check_permissions_ok lower i seen ps : check_permissions lower i seen ps = None ->
  NoDup (map cp_key ps) /\ (forall k, k ∈ seen -> k ∉ map cp_key ps) /\
  forall p, p ∈ ps -> cp_Resource p <> ""%string /\ cp_Action p <> ""%string /\ (0 <= cp_MinAssurance p <= 3)%Z /\
    (cp_Risk p = ""%string \/ lower (cp_Risk p) ∈ risks).
Proof.
  revert i seen. induction ps as [|p ps IH]; intros i seen; simpl.
  - intros _. split; [constructor|]. split; [intros ? _ []%elem_of_nil|intros ? []%elem_of_nil].
  - destruct (bool_decide (cp_Resource p = _) || _) eqn:E1; [done|]. destruct (decide (cp_key p ∈ seen)) as [|E2]; [by rewrite bool_decide_eq_true_2|].
    rewrite (bool_decide_eq_false_2 _ E2). destruct (negb _ && negb _) eqn:E3; [done|].
    destruct (_ || negb _) eqn:E4; [done|]. destruct ((_ <? 0)%Z || _) eqn:E5; [done|]. intros (Hnd & Hs & Hp)%IH.
    split; [|split].
    + constructor; [apply Hs; left|done].
    + intros k Hk [->|Hk']%elem_of_cons; [done|]. by eapply Hs; [right|].
    + intros p' [->|Hp']%elem_of_cons; [|by apply Hp]. apply orb_false_iff in E1 as [E1 E1'], E5 as [E5 E5'].
      apply bool_decide_eq_false in E1, E1'. apply Z.ltb_ge in E5, E5'. split; [done|]. split; [done|]. split; [lia|].
      destruct (decide (cp_Risk p = ""%string)) as [|E]; [by left|right].
      rewrite bool_decide_eq_false_2 in E3 by done. cbn in E3. by apply negb_false_iff, bool_decide_eq_true in E3.
Qed.

Lemma check_roles_ok i seen rs : check_roles i seen rs = None ->
  NoDup (map cr_Name rs) /\ (forall k, k ∈ seen -> k ∉ map cr_Name rs) /\ forall r, r ∈ rs -> TrimSpace (cr_Name r) <> ""%string.
Proof.
  revert i seen. induction rs as [|r rs IH]; intros i seen; simpl.
  - intros _. split; [constructor|]. split; [intros ? _ []%elem_of_nil|intros ? []%elem_of_nil].
  - case_bool_decide as E1; [done|]. case_bool_decide as E2; [done|]. intros (Hnd & Hs & Hp)%IH. split; [|split].
    + constructor; [apply Hs; left|done].
    + intros k Hk [->|Hk']%elem_of_cons; [done|]. by eapply Hs; [right|].
    + intros r' [->|Hr']%elem_of_cons; [done|]. by apply Hp.
Qed.

Lemma check_routes_ok prio rs : check_routes prio rs = None ->
  NoDup (map ct_Priority rs) /\ (forall p v, (p, v) ∈ prio -> p ∉ map ct_Priority rs) /\ forall r, r ∈ rs -> ct_Effect r ∈ effects.
Proof.
  revert prio. induction rs as [|r rs IH]; intros prio; cbn [check_routes map].
  - intros _. split; [constructor|]. split; [intros ? ? _ []%elem_of_nil|intros ? []%elem_of_nil].
  - case_bool_decide as E1; cbn [negb]; [|done]. destruct (find _ _) as [[]|] eqn:E2; [done|]. intros (Hnd & Hs & Hp)%IH. split; [|split].
    + constructor; [|done]. eapply (Hs _ (ct_PathPattern r)). left.
    + intros k v Hk [->|Hk']%elem_of_cons; [|by eapply Hs; [right|]].
      apply list_elem_of_In in Hk. eapply find_none in E2; [|exact Hk]. cbn in E2. by rewrite Z.eqb_refl in E2.
    + intros r' [->|Hr']%elem_of_cons; [done|]. by apply Hp.
Qed.

Lemma Validate_ok lower d : Validate lower d = None -> valid lower d.
Proof.
  unfold Validate. destruct (check_permissions _ _ _ _) eqn:E1; [done|]. destruct (check_roles _ _ _) eqn:E2; [done|]. intros E3.
  apply check_permissions_ok in E1 as (?&_&?). apply check_roles_ok in E2 as (?&_&?). apply check_routes_ok in E3 as (?&_&?). by constructor.
Qed.

End Catalog.
