(* ===== verification/Roles.v ===== *)
(** internal/authz and internal/tenancy: roles, permissions and routes as the
    database keeps them.  [RoleGraph] is the walk from a role up and down its
    parents, [Roles] the rows and the statements over them, [RoleStore] the
    repositories. *)

From Stdlib Require Import ZArith Lia Bool Ascii String.
From stdpp Require Import base gmap strings list sorting relations sets.
From S2P Require Import Prelude.
From S2P Require Import GoStrings.
From S2P Require Import GoConv.
From S2P Require Import Shared.
From S2P Require Import ScopeTree.
From S2P Require Import Db.
From S2P Require Import MemberStore.

(** * The two recursive queries over role_parents: the ancestry that
    role_recompute_effective walks with PostgreSQL's CYCLE clause
    (internal/platform/schema/routines.go) and the descendants RolesBelow finds
    with UNION (authz/adapter/postgres/rquery/role.go).  Both end, whatever loops
    the graph has, and find exactly the roles the graph reaches. *)
Module RoleGraph.

(** role_parents: (role_id, parent_id). *)
Abbreviation Edges := (gset (string * string)).

Definition parents (E : Edges) (r : string) : list string :=
  omap (fun '(x, p) => if bool_decide (x = r) then Some p else None) (elements E).
Definition children (E : Edges) (r : string) : list string :=
  omap (fun '(x, p) => if bool_decide (p = r) then Some x else None) (elements E).

(** ** CYCLE rid SET is_cycle USING cyc_path

    A row is its path, newest first, and whether its role was on the path
    already; such a row is not followed. *)
Abbreviation Row := (list string * bool)%type.
Definition start (r : string) : Row := ([r], false).
Definition follow (E : Edges) (row : Row) : list Row :=
  match row with
  | (r :: path, false) => map (fun p => (p :: r :: path, bool_decide (p ∈ r :: path))) (parents E r)
  | _ => []
  end.

(** The rounds of WITH RECURSIVE: each works on the rows of the one before. *)
Fixpoint ancestry (fuel : nat) (E : Edges) (working : list Row) : list Row :=
  match fuel with
  | O => []
  | S f => working ++ ancestry f E (flat_map (follow E) working)
  end.

(** WHERE NOT a.is_cycle *)
Definition rid (row : Row) : option string := match row with (r :: _, false) => Some r | _ => None end.

(** A path repeats no role and each role after the first is a parent: there are
    fewer rounds than edges, two more. *)
Definition rounds (E : Edges) : nat := S (S (size E)).
Definition ancestors (E : Edges) (r : string) : list string := omap rid (ancestry (rounds E) E [start r]).

(** ** WITH RECURSIVE down AS (... UNION ...) *)
Definition below_step (E : Edges) (seen working : gset string) : gset string :=
  list_to_set (flat_map (children E) (elements working)) ∖ seen.
Fixpoint down (fuel : nat) (E : Edges) (seen working : gset string) : gset string :=
  match fuel with
  | O => seen
  | S f => let new := below_step E seen working in if bool_decide (new = ∅) then seen else down f E (seen ∪ new) new
  end.
Definition roles_below (E : Edges) (r : string) : gset string :=
  let first := list_to_set (children E r) in down (S (size E)) E first first.

(** ** What they find *)
Section Spec.
Context (E : Edges).

Definition edge (x p : string) : Prop := (x, p) ∈ E.

Lemma elem_of_parents r p : p ∈ parents E r <-> edge r p.
Proof.
  unfold parents, edge. rewrite list_elem_of_omap. split.
  - intros ([x q] & H & Heq). case_bool_decide; [|done]. simplify_eq. by apply elem_of_elements.
  - intros H. exists (r, p). split; [by apply elem_of_elements|]. by rewrite bool_decide_eq_true_2.
Qed.
Lemma elem_of_children r x : x ∈ children E r <-> edge x r.
Proof.
  unfold children, edge. rewrite list_elem_of_omap. split.
  - intros ([y q] & H & Heq). case_bool_decide; [|done]. simplify_eq. by apply elem_of_elements.
  - intros H. exists (x, r). split; [by apply elem_of_elements|]. by rewrite bool_decide_eq_true_2.
Qed.

(** A path from [s] that repeats nothing, newest first. *)
Inductive simple (s : string) : list string -> Prop :=
| simple_one : simple s [s]
| simple_more p r path : simple s (r :: path) -> edge r p -> p ∉ r :: path -> simple s (p :: r :: path).

Lemma simple_reaches s path : simple s path -> forall r, r ∈ path -> rtc edge s r.
Proof.
  induction 1 as [|p r path H IH He Hn]; intros x Hx.
  - apply list_elem_of_singleton in Hx as ->. constructor.
  - apply elem_of_cons in Hx as [->|Hx]; [|by apply IH]. eapply rtc_r; [apply IH; left|done].
Qed.

Lemma simple_cut s path r : simple s path -> r ∈ path -> exists path', simple s (r :: path').
Proof.
  induction 1 as [|p r' path H IH He Hn]; intros Hx.
  - apply list_elem_of_singleton in Hx as ->. exists []. constructor.
  - apply elem_of_cons in Hx as [->|Hx]; [|by apply IH]. eexists. by econstructor.
Qed.

Lemma reaches_simple s r : rtc edge s r -> exists path, simple s (r :: path).
Proof.
  revert r. apply rtc_ind_r; [exists []; constructor|]. intros y z _ He [path IH].
  destruct (decide (z ∈ y :: path)) as [Hz|Hz]; [by eapply simple_cut|]. exists (y :: path). by constructor.
Qed.

Lemma simple_nodup s path : simple s path -> NoDup path.
Proof. induction 1; [apply NoDup_singleton|by constructor]. Qed.

Lemma simple_targets s path : simple s path -> forall x, x ∈ path -> x = s \/ x ∈ map snd (elements E).
Proof.
  induction 1 as [|p r path H IH He Hn]; intros x Hx.
  - left. by apply list_elem_of_singleton in Hx.
  - apply elem_of_cons in Hx as [->|Hx]; [|by apply IH]. right. apply list_elem_of_fmap. exists (r, p). split; [done|]. by apply elem_of_elements.
Qed.

Lemma simple_length s path : simple s path -> (length path <= S (size E))%nat.
Proof.
  intros H. assert (path ⊆+ s :: map snd (elements E)) as Hs.
  { apply NoDup_submseteq; [by eapply simple_nodup|]. intros x Hx. apply elem_of_cons. by eapply simple_targets. }
  apply submseteq_length in Hs. simpl in Hs. rewrite length_map in Hs. done.
Qed.

(** *** The walk *)
Lemma ancestry_simple s f : forall W, (forall path, (path, false) ∈ W -> simple s path) ->
  forall path, (path, false) ∈ ancestry f E W -> simple s path.
Proof.
  induction f as [|f IH]; intros W HW path; simpl; [by intros ?%not_elem_of_nil|].
  intros [H|H]%elem_of_app; [by apply HW|]. eapply IH; [|exact H]. clear path H. intros path H.
  apply list_elem_of_In, in_flat_map in H as ([l b] & Hl & H). apply list_elem_of_In in Hl. destruct l as [|r l], b; try done.
  simpl in H. apply in_map_iff in H as (p & [= <- Hp] & Hin). apply list_elem_of_In in Hin. constructor; [by apply HW|by apply elem_of_parents|].
  by apply bool_decide_eq_false in Hp.
Qed.

Lemma ancestry_follows f : forall W r path p, (r :: path, false) ∈ ancestry f E W -> edge r p -> p ∉ r :: path ->
  (p :: r :: path, false) ∈ ancestry (S f) E W.
Proof.
  induction f as [|f IH]; intros W r path p H He Hn; [by apply not_elem_of_nil in H|].
  cbn [ancestry] in H. change (ancestry (S (S f)) E W) with (W ++ ancestry (S f) E (flat_map (follow E) W)).
  apply elem_of_app. right. apply elem_of_app in H as [H|H].
  - cbn [ancestry]. apply elem_of_app. left. apply list_elem_of_In, in_flat_map. exists (r :: path, false). split; [by apply list_elem_of_In|].
    apply in_map_iff. exists p. split; [by rewrite bool_decide_eq_false_2|]. by apply list_elem_of_In, elem_of_parents.
  - by apply IH.
Qed.

Lemma simple_found s path : simple s path -> (path, false) ∈ ancestry (length path) E [start s].
Proof.
  induction 1 as [|p r path H IH He Hn]; [by left|]. by apply ancestry_follows.
Qed.

Lemma ancestry_more f : forall g W row, (f <= g)%nat -> row ∈ ancestry f E W -> row ∈ ancestry g E W.
Proof.
  induction f as [|f IH]; intros [|g] W row Hg H; try (by apply not_elem_of_nil in H); [lia|]. simpl in *.
  apply elem_of_app in H as [H|H]; apply elem_of_app; [by left|right]. apply IH; [lia|done].
Qed.

(** The roles of the walk are those the graph reaches. *)
Lemma elem_of_ancestors r x : x ∈ ancestors E r <-> rtc edge r x.
Proof.
  unfold ancestors. rewrite list_elem_of_omap. split.
  - intros ([path b] & Hin & Hr). destruct path as [|y path], b; try done. injection Hr as ->.
    eapply simple_reaches; [|left]. eapply (ancestry_simple _ _ [start r]); [|exact Hin].
    intros p' [= ->]%list_elem_of_singleton. constructor.
  - intros (path & H)%reaches_simple. exists (x :: path, false). split; [|done].
    eapply ancestry_more; [|by apply simple_found]. apply simple_length in H. unfold rounds. lia.
Qed.

(** After that many rounds nothing is left to follow. *)
Definition worked (n : nat) (W : list Row) : list Row := Nat.iter n (flat_map (follow E)) W.
Lemma worked_length n : forall W path b, (path, b) ∈ worked n W -> exists path0 b0, (path0, b0) ∈ W /\ length path = (n + length path0)%nat.
Proof.
  induction n as [|n IH]; intros W path b H; [by exists path, b|]. simpl in H.
  apply list_elem_of_In, in_flat_map in H as ([l c] & Hl & H). apply list_elem_of_In, IH in Hl as (path0 & b0 & Hin & Hlen).
  exists path0, b0. split; [done|]. destruct l as [|r l], c; try done. simpl in H. apply in_map_iff in H as (p & [= <- _] & _). simpl in *. lia.
Qed.
Lemma worked_ancestry n : forall W row, row ∈ worked n W -> row ∈ ancestry (S n) E W.
Proof.
  induction n as [|n IH]; intros W row H; [simpl; by rewrite app_nil_r|]. unfold worked in H. rewrite Nat.iter_succ_r in H.
  change (ancestry (S (S n)) E W) with (W ++ ancestry (S n) E (flat_map (follow E) W)). apply elem_of_app. right. by apply IH.
Qed.
Lemma walk_ends r : worked (rounds E) [start r] = [].
Proof.
  destruct (worked (rounds E) [start r]) as [|[path b] W] eqn:Hw; [done|]. exfalso.
  assert ((path, b) ∈ flat_map (follow E) (worked (S (size E)) [start r])) as H by (change ((path, b) ∈ worked (rounds E) [start r]); rewrite Hw; left).
  apply list_elem_of_In, in_flat_map in H as ([l c] & Hl & H). apply list_elem_of_In in Hl. destruct l as [|x l], c; try done.
  pose proof (worked_length _ _ _ _ Hl) as (p0 & b0 & [= -> ->]%list_elem_of_singleton & Hlen). simpl in Hlen.
  apply worked_ancestry, (ancestry_simple r) in Hl; [|intros p' [= ->]%list_elem_of_singleton; constructor]. apply simple_length in Hl. simpl in Hl. lia.
Qed.

(** *** Those below *)
Lemma elem_of_below_step seen W x : x ∈ below_step E seen W <-> ((x ∉ seen) /\ exists y, y ∈ W /\ edge x y).
Proof.
  unfold below_step. rewrite elem_of_difference, elem_of_list_to_set, list_elem_of_In, in_flat_map. split.
  - intros [(y & Hy & Hx) Hn]. split; [done|]. exists y. split; [by apply elem_of_elements, list_elem_of_In|by apply elem_of_children, list_elem_of_In].
  - intros [Hn (y & Hy & He)]. split; [|done]. exists y. split; [by apply list_elem_of_In, elem_of_elements|by apply list_elem_of_In, elem_of_children].
Qed.

(** Between rounds: what is new is among what was seen, and every role below
    something seen earlier has been seen. *)
Lemma down_spec r f : forall seen W, (size E < f + size seen)%nat -> W ⊆ seen ->
  (forall x, x ∈ seen -> tc edge x r /\ exists y, edge x y) ->
  (forall x, edge x r -> x ∈ seen) -> (forall x y, y ∈ seen -> y ∉ W -> edge x y -> x ∈ seen) ->
  forall x, x ∈ down f E seen W <-> tc edge x r.
Proof.
  assert (Hsrc : forall seen : gset string, (forall x, x ∈ seen -> tc edge x r /\ exists y, edge x y) -> (size seen <= size E)%nat).
  { intros seen H. assert (elements seen ⊆+ map fst (elements E)) as Hs.
    { apply NoDup_submseteq; [apply NoDup_elements|]. intros x [_ [y Hy]]%elem_of_elements%H.
      apply list_elem_of_fmap. exists (x, y). split; [done|]. by apply elem_of_elements. }
    apply submseteq_length in Hs. by rewrite length_map in Hs. }
  induction f as [|f IH]; intros seen W Hf HW Hseen Hfirst Hclosed x.
  - pose proof (Hsrc _ Hseen). lia.
  - simpl. case_bool_decide as Hnew.
    + split; [by intros [H _]%Hseen|]. intros H. clear IH Hsrc Hf. induction H as [x y He|x y z He _ IHt].
      { by apply Hfirst. }
      specialize (IHt Hseen Hfirst). destruct (decide (y ∈ W)) as [Hy|Hy]; [|by eapply Hclosed].
      destruct (decide (x ∈ seen)) as [|Hx]; [done|]. assert (x ∈ below_step E seen W) as Hc by (apply elem_of_below_step; eauto).
      rewrite Hnew in Hc. by apply not_elem_of_empty in Hc.
    + apply IH.
      * assert (seen ## below_step E seen W) as Hd. { intros z Hz [Hn _]%elem_of_below_step. done. }
        rewrite size_union by done. assert (size (below_step E seen W) <> 0%nat); [|lia]. intros Hz%size_empty_inv. by apply Hnew, leibniz_equiv.
      * set_solver.
      * intros z [Hz|[_ (y & Hy & He)]%elem_of_below_step]%elem_of_union; [by apply Hseen|]. split; [|by exists y].
        eapply tc_l; [exact He|]. apply Hseen, HW, Hy.
      * intros z Hz. apply elem_of_union_l. by apply Hfirst.
      * intros z y [Hy|Hy]%elem_of_union Hn He; [|done]. destruct (decide (z ∈ seen)); [set_solver|].
        apply elem_of_union. destruct (decide (y ∈ W)); [right; apply elem_of_below_step; eauto|left; by eapply Hclosed].
Qed.

Lemma elem_of_roles_below r x : x ∈ roles_below E r <-> tc edge x r.
Proof.
  unfold roles_below. apply down_spec; [lia|done| | |done].
  - intros z Hz%elem_of_list_to_set%elem_of_children. split; [by constructor|eauto].
  - intros z Hz. by apply elem_of_list_to_set, elem_of_children.
Qed.

End Spec.

(** ** A role's own edges changed

    Only the roles that reach it can reach anything else than before. *)
Lemma rtc_off (E E' : Edges) r s x : (forall y z, y <> r -> edge E y z <-> edge E' y z) -> ~ tc (edge E') s r -> s <> r ->
  rtc (edge E) s x <-> rtc (edge E') s x.
Proof.
  intros Hsame Hs Hne. split; intros H.
  - assert (forall y, rtc (edge E) s y -> rtc (edge E') s y /\ y <> r) as G; [|by apply G].
    clear x H. apply rtc_ind_r; [split; [constructor|done]|]. intros y z _ He [IH Hy].
    apply Hsame in He; [|done]. split; [by eapply rtc_r|]. intros ->. by apply Hs; eapply tc_rtc_l; [|constructor].
  - revert x H. apply rtc_ind_r; [constructor|]. intros y z Hy He IH. eapply rtc_r; [done|]. apply Hsame; [|done].
    intros ->. apply rtc_tc in Hy as [->|Hy]; done.
Qed.

Example ancestors_loop :
  let E : Edges := list_to_set [("a", "b"); ("b", "c"); ("c", "a"); ("c", "d")]%string in
  ancestors E "a" = ["a"; "b"; "c"; "d"]%string /\ bool_decide (roles_below E "a" = {["a"; "b"; "c"]}%string) = true /\
  length (ancestry (rounds E) E [start "a"]) = 5%nat.
Proof. vm_compute. done. Qed.

End RoleGraph.

(** * Roles, permissions and the routes that name them, as the database keeps them
    (internal/platform/schema/model.go and routines.go): the rows with their
    constraints, and role_recompute_effective. *)
Module Roles.
Import Pg Db RoleGraph.
Import ScopeTree (some_row, find_row, first_of).

(** ** Rows, by primary key; columns nothing here reads are left out *)

Record AppRow := { ap_Tenant : string; ap_Slug : string; ap_Name : string; ap_Version : Z }.
Record PermRow := {
  pm_App : string; pm_Tenant : string; pm_AppSlug : string; pm_Resource : string; pm_Action : string; pm_Description : string;
  pm_Risk : string; pm_MinAssurance : Z; pm_RequiresAmr : list string; pm_MaxAuthAge : option string; pm_Module : string;
  pm_DeprecatedAt : option Time
}.
Record RoleRow := {
  ro_Tenant : string; ro_Application : option string; ro_IsSystem : bool; ro_Name : string; ro_Description : string;
  ro_Assignable : list string; ro_Kinds : list string; ro_DeprecatedAt : option Time
}.
(** [rt_Bindings]: an object, or the JSON null. *)
Record RouteRow := {
  rt_App : string; rt_Tenant : string; rt_Permission : option string; rt_Priority : Z; rt_Effect : string; rt_Path : string;
  rt_Host : option string; rt_Methods : list string; rt_Bindings : option (gmap string string)
}.
Record SourceRow := {
  so_Tenant : string; so_App : string; so_Kind : string; so_Format : string; so_Status : string; so_Name : string; so_Config : string;
  so_Interval : Z; so_LastRunAt : option Time; so_NextRunAt : option Time
}.
Record RunRow := {
  rn_Source : string; rn_Tenant : string; rn_StartedAt : Time; rn_FinishedAt : option Time; rn_Dry : bool; rn_Status : string;
  rn_Actor : string; rn_DocumentSha : string; rn_Report : option string; rn_Error : string
}.

(** role_parents is (role_id, parent_id), role_permission_patterns is (role_id,
    pattern), role_permissions is (role_id, permission_id) and
    role_permissions_effective gives via_role_id under (role_id, permission_id). *)
Record Tables := {
  t_apps : gmap string AppRow;
  t_perms : gmap string PermRow;
  t_roles : gmap string RoleRow;
  t_parents : gset (string * string);
  t_patterns : gset (string * string);
  t_direct : gset (string * string);
  t_effective : gmap (string * string) string;
  t_routes : gmap string RouteRow;
  t_sources : gmap string SourceRow;
  t_runs : gmap string RunRow
}.

Definition with_apps (t : Tables) (m : gmap string AppRow) : Tables := {|
  t_apps := m; t_perms := t_perms t; t_roles := t_roles t; t_parents := t_parents t; t_patterns := t_patterns t;
  t_direct := t_direct t; t_effective := t_effective t; t_routes := t_routes t; t_sources := t_sources t; t_runs := t_runs t |}.
Definition with_perms (t : Tables) (m : gmap string PermRow) : Tables := {|
  t_apps := t_apps t; t_perms := m; t_roles := t_roles t; t_parents := t_parents t; t_patterns := t_patterns t;
  t_direct := t_direct t; t_effective := t_effective t; t_routes := t_routes t; t_sources := t_sources t; t_runs := t_runs t |}.
Definition with_roles (t : Tables) (m : gmap string RoleRow) : Tables := {|
  t_apps := t_apps t; t_perms := t_perms t; t_roles := m; t_parents := t_parents t; t_patterns := t_patterns t;
  t_direct := t_direct t; t_effective := t_effective t; t_routes := t_routes t; t_sources := t_sources t; t_runs := t_runs t |}.
Definition with_parents (t : Tables) (m : gset (string * string)) : Tables := {|
  t_apps := t_apps t; t_perms := t_perms t; t_roles := t_roles t; t_parents := m; t_patterns := t_patterns t;
  t_direct := t_direct t; t_effective := t_effective t; t_routes := t_routes t; t_sources := t_sources t; t_runs := t_runs t |}.
Definition with_patterns (t : Tables) (m : gset (string * string)) : Tables := {|
  t_apps := t_apps t; t_perms := t_perms t; t_roles := t_roles t; t_parents := t_parents t; t_patterns := m;
  t_direct := t_direct t; t_effective := t_effective t; t_routes := t_routes t; t_sources := t_sources t; t_runs := t_runs t |}.
Definition with_direct (t : Tables) (m : gset (string * string)) : Tables := {|
  t_apps := t_apps t; t_perms := t_perms t; t_roles := t_roles t; t_parents := t_parents t; t_patterns := t_patterns t;
  t_direct := m; t_effective := t_effective t; t_routes := t_routes t; t_sources := t_sources t; t_runs := t_runs t |}.
Definition with_effective (t : Tables) (m : gmap (string * string) string) : Tables := {|
  t_apps := t_apps t; t_perms := t_perms t; t_roles := t_roles t; t_parents := t_parents t; t_patterns := t_patterns t;
  t_direct := t_direct t; t_effective := m; t_routes := t_routes t; t_sources := t_sources t; t_runs := t_runs t |}.
Definition with_routes (t : Tables) (m : gmap string RouteRow) : Tables := {|
  t_apps := t_apps t; t_perms := t_perms t; t_roles := t_roles t; t_parents := t_parents t; t_patterns := t_patterns t;
  t_direct := t_direct t; t_effective := t_effective t; t_routes := m; t_sources := t_sources t; t_runs := t_runs t |}.
Definition with_sources (t : Tables) (m : gmap string SourceRow) : Tables := {|
  t_apps := t_apps t; t_perms := t_perms t; t_roles := t_roles t; t_parents := t_parents t; t_patterns := t_patterns t;
  t_direct := t_direct t; t_effective := t_effective t; t_routes := t_routes t; t_sources := m; t_runs := t_runs t |}.
Definition with_runs (t : Tables) (m : gmap string RunRow) : Tables := {|
  t_apps := t_apps t; t_perms := t_perms t; t_roles := t_roles t; t_parents := t_parents t; t_patterns := t_patterns t;
  t_direct := t_direct t; t_effective := t_effective t; t_routes := t_routes t; t_sources := t_sources t; t_runs := m |}.

(** key: GENERATED ALWAYS AS (app_slug || ':' || resource || ':' || action) *)
Definition pm_key (p : PermRow) : string := (pm_AppSlug p ++ ":" ++ pm_Resource p ++ ":" ++ pm_Action p)%string.
Definition live (p : PermRow) : bool := bool_decide (pm_DeprecatedAt p = None).

(** The tables of other components these look at, and what PostgreSQL decides:
    which tenants there are, how an interval prints (a text that is none does
    not parse), how jsonb prints a text that is JSON, and which of several rows
    DISTINCT ON keeps. *)
Record World := {
  wo_tenant : string -> bool;
  wo_interval : string -> option string;
  wo_jsonb : string -> option string;
  wo_via : list string -> nat
}.

(** ** LIKE

    A text as its characters. *)
Fixpoint chars (s : string) : list string :=
  match s with
  | EmptyString => []
  | String a r =>
      match chars r with
      | String b c :: cs => if in_range 128 191 b then String a (String b c) :: cs else String a "" :: String b c :: cs
      | cs => String a "" :: cs
      end
  end.
Fixpoint like (pattern : string) (cs : list string) : bool :=
  match pattern with
  | EmptyString => match cs with [] => true | _ => false end
  | String p r =>
      if bool_decide (p = "%"%char)
      then (fix any (cs : list string) : bool := like r cs || match cs with [] => false | _ :: cs' => any cs' end) cs
      else match cs with
           | [] => false
           | c :: cs' => (bool_decide (p = "_"%char) || bool_decide (c = String p "")) && like r cs'
           end
  end.

(** pm.key LIKE replace(pp.pattern, '*', '%') *)
Definition glob (pattern : string) : string := StdBase64.str_map (fun c => if bool_decide (c = "*"%char) then "%"%char else c) pattern.
Definition matches (pattern key : string) : bool := like (glob pattern) (chars key).

(** CHECK (pattern ~ '^[a-z0-9_:*-]+$') *)
Definition pattern_char (c : ascii) : bool :=
  in_range 97 122 c || in_range 48 57 c || bool_decide (c = "_"%char) || bool_decide (c = ":"%char) || bool_decide (c = "*"%char) || bool_decide (c = "-"%char).
Definition pattern_ok (p : string) : bool := negb (bool_decide (p = ""%string)) && str_forallb pattern_char p.

Example matches_ex :
  matches "billing:*" "billing:invoice:read" = true /\ matches "*:read" "billing:invoice:read" = true /\
  matches "billing:*:read" "billing:invoice:approve" = false /\ matches "billing:a_b:*" "billing:axb:read" = true /\
  matches "*_*" (String.append "x" (str_of [195; 169]%Z)) = true /\ like "_" (chars (str_of [195; 169]%Z)) = true.
Proof. vm_compute. done. Qed.

(** ** role_recompute_effective *)

(** What [r] names itself: permissions directly, and those its patterns match,
    of any application and tenant; live ones. *)
Definition named (t : Tables) (r : string) (id : string) (p : PermRow) : bool :=
  live p && (bool_decide ((r, id) ∈ t_direct t) ||
             existsb (fun '(x, pattern) => bool_decide (x = r) && matches pattern (pm_key p)) (elements (t_patterns t))).

Definition candidates (t : Tables) (r : string) (id : string) (p : PermRow) : list string :=
  List.filter (fun a => named t a id p) (ancestors (t_parents t) r).

(** DISTINCT ON (perm.id) with no order: one of them. *)
Definition pick (w : World) (l : list string) : option string :=
  match l with [] => None | x :: _ => Some (nth (wo_via w l mod length l) l x) end.

Definition computed (w : World) (t : Tables) (r : string) : gmap string string :=
  map_imap (fun id p => pick w (candidates t r id p)) (t_perms t).

Definition set_effective (eff : gmap (string * string) string) (r : string) (mine : gmap string string) : gmap (string * string) string :=
  kmap (fun id => (r, id)) mine ∪ filter (fun x => x.1.1 <> r) eff.

Definition role_recompute_effective (w : World) (r : string) : Sql_ Tables unit :=
  mine ← query (fun t => computed w t r);
  _ ← must (fun t => if bool_decide (mine = ∅) || bool_decide (is_Some (t_roles t !! r)) then None
                     else Some (violated "23503" "role_permissions_effective_role_id_fkey"));
  change (fun t => with_effective t (set_effective (t_effective t) r mine)).

(** ** Rows written *)
Section Rows.
Context (now : Time) (w : World) (ids : nat -> string).
Abbreviation Q := (Sql_ Tables).

Definition has_app (t : Tables) (app tenant : string) : bool :=
  match t_apps t !! app with Some a => bool_decide (ap_Tenant a = tenant) | None => false end.
Definition no_row {A} (m : gmap string A) (id name : string) : option PgError :=
  if bool_decide (is_Some (m !! id)) then None else Some (violated "23503" name).

(** *** roles *)
Definition role_named (t : Tables) (tenant name : string) : option (string * RoleRow) :=
  find_row (fun _ r => bool_decide (ro_Tenant r = tenant) && bool_decide (ro_Name r = name)) (t_roles t).

Definition role_fkeys (t : Tables) (r : RoleRow) : option PgError :=
  if negb (wo_tenant w (ro_Tenant r)) then Some (violated "23503" "roles_tenant_id_fkey")
  else match ro_Application r with
       | Some a => if has_app t a (ro_Tenant r) then None else Some (violated "23503" "roles_application_id_tenant_id_fkey")
       | None => None
       end.

Definition insert_role (r : RoleRow) : Q string :=
  id ← fresh ids;
  _ ← must (fun t =>
        if bool_decide (is_Some (t_roles t !! id)) then Some (violated "23505" "roles_pkey")
        else match role_named t (ro_Tenant r) (ro_Name r) with
             | Some _ => Some (violated "23505" "roles_tenant_id_name_key")
             | None => role_fkeys t r
             end);
  _ ← change (fun t => with_roles t (<[id := r]> (t_roles t)));
  mret id.

Definition edited (r : RoleRow) (description : string) (kinds assignable : list string) : RoleRow := {|
  ro_Tenant := ro_Tenant r; ro_Application := ro_Application r; ro_IsSystem := ro_IsSystem r; ro_Name := ro_Name r;
  ro_Description := description; ro_Assignable := assignable; ro_Kinds := kinds; ro_DeprecatedAt := ro_DeprecatedAt r |}.
Definition update_role (id tenant description : string) (kinds assignable : list string) : Q unit :=
  change (fun t => match t_roles t !! id with
                   | Some r => if bool_decide (ro_Tenant r = tenant) && negb (ro_IsSystem r)
                               then with_roles t (<[id := edited r description kinds assignable]> (t_roles t)) else t
                   | None => t
                   end).

(** UpsertSystemRole: [None] where the name is somebody else's. *)
Definition redeclared (r : RoleRow) (description : string) (kinds : list string) : RoleRow := {|
  ro_Tenant := ro_Tenant r; ro_Application := ro_Application r; ro_IsSystem := ro_IsSystem r; ro_Name := ro_Name r;
  ro_Description := description; ro_Assignable := ro_Assignable r; ro_Kinds := kinds; ro_DeprecatedAt := None |}.
Definition declared_role (tenant name description app : string) (kinds : list string) : RoleRow := {|
  ro_Tenant := tenant; ro_Application := Some app; ro_IsSystem := true; ro_Name := name; ro_Description := description;
  ro_Assignable := []; ro_Kinds := kinds; ro_DeprecatedAt := None |}.
Definition upsert_system_role (tenant name description app : string) (kinds : list string) : Q (option string) :=
  found ← query (fun t => role_named t tenant name);
  match found with
  | Some (id, r) =>
      if ro_IsSystem r && bool_decide (ro_Application r = Some app)
      then _ ← change (fun t => with_roles t (<[id := redeclared r description kinds]> (t_roles t))); mret (Some id)
      else mret None
  | None => id ← insert_role (declared_role tenant name description app kinds); mret (Some id)
  end.

Definition retired (r : RoleRow) : RoleRow := {|
  ro_Tenant := ro_Tenant r; ro_Application := ro_Application r; ro_IsSystem := ro_IsSystem r; ro_Name := ro_Name r;
  ro_Description := ro_Description r; ro_Assignable := ro_Assignable r; ro_Kinds := ro_Kinds r; ro_DeprecatedAt := Some now |}.
Definition retires (app : string) (keep : list string) (id : string) (r : RoleRow) : bool :=
  bool_decide (ro_Application r = Some app) && ro_IsSystem r && bool_decide (ro_DeprecatedAt r = None) && negb (bool_decide (id ∈ keep)).
Definition deprecate_roles_except (app : string) (keep : list string) : Q (list string) :=
  names ← query (fun t => omap (fun '(id, r) => if retires app keep id r then Some (ro_Name r) else None) (map_to_list (t_roles t)));
  _ ← change (fun t => with_roles t (map_imap (fun id r => Some (if retires app keep id r then retired r else r)) (t_roles t)));
  mret names.

(** *** role_parents, role_permission_patterns, role_permissions *)
Definition without (r : string) (s : gset (string * string)) : gset (string * string) := filter (fun x => x.1 <> r) s.

Definition delete_role_parents (r : string) : Q unit := change (fun t => with_parents t (without r (t_parents t))).
Definition insert_role_parent (r p : string) : Q unit :=
  _ ← must (fun t =>
        if bool_decide (r = p) then Some (violated "23514" "role_parents_check")
        else if bool_decide ((r, p) ∈ t_parents t) then None
        else first_of [no_row (t_roles t) r "role_parents_role_id_fkey"; no_row (t_roles t) p "role_parents_parent_id_fkey"]);
  change (fun t => with_parents t ({[(r, p)]} ∪ t_parents t)).

Definition delete_role_patterns (r : string) : Q unit := change (fun t => with_patterns t (without r (t_patterns t))).
Definition insert_role_pattern (r p : string) : Q unit :=
  _ ← must (fun t =>
        if negb (pattern_ok p) then Some (violated "23514" "role_permission_patterns_pattern_check")
        else if bool_decide ((r, p) ∈ t_patterns t) then None
        else no_row (t_roles t) r "role_permission_patterns_role_id_fkey");
  change (fun t => with_patterns t ({[(r, p)]} ∪ t_patterns t)).

Definition delete_role_permissions (r : string) : Q unit := change (fun t => with_direct t (without r (t_direct t))).
Definition insert_role_permission (r p : string) : Q unit :=
  _ ← must (fun t =>
        if bool_decide ((r, p) ∈ t_direct t) then None
        else first_of [no_row (t_roles t) r "role_permissions_role_id_fkey"; no_row (t_perms t) p "role_permissions_permission_id_fkey"]);
  change (fun t => with_direct t ({[(r, p)]} ∪ t_direct t)).

(** *** permissions *)
Definition perm_checks (p : PermRow) : option PgError :=
  if negb ((1 <=? pm_MinAssurance p)%Z && (pm_MinAssurance p <=? 3)%Z) then Some (violated "23514" "permissions_min_assurance_check")
  else if negb (bool_decide (pm_Risk p ∈ ["normal"; "sensitive"; "critical"]%string)) then Some (violated "23514" "permissions_risk_check")
  else None.
Definition perm_fkeys (t : Tables) (p : PermRow) : option PgError :=
  match t_apps t !! pm_App p with
  | None => Some (violated "23503" "permissions_application_id_fkey")
  | Some a => if negb (bool_decide (ap_Slug a = pm_AppSlug p)) then Some (violated "23503" "permissions_application_id_app_slug_fkey")
              else if negb (bool_decide (ap_Tenant a = pm_Tenant p)) then Some (violated "23503" "permissions_application_id_tenant_id_fkey")
              else None
  end.
Definition perm_at (t : Tables) (app resource action : string) : option (string * PermRow) :=
  find_row (fun _ p => bool_decide (pm_App p = app) && bool_decide (pm_Resource p = resource) && bool_decide (pm_Action p = action)) (t_perms t).

(** DO UPDATE SET: what a manifest says; who the row is stays. *)
Definition redescribed (old new : PermRow) : PermRow := {|
  pm_App := pm_App old; pm_Tenant := pm_Tenant old; pm_AppSlug := pm_AppSlug old; pm_Resource := pm_Resource old; pm_Action := pm_Action old;
  pm_Description := pm_Description new; pm_Risk := pm_Risk new; pm_MinAssurance := pm_MinAssurance new;
  pm_RequiresAmr := pm_RequiresAmr new; pm_MaxAuthAge := pm_MaxAuthAge new; pm_Module := pm_Module new; pm_DeprecatedAt := None |}.

Definition upsert_permission (p : PermRow) : Q (string * string) :=
  _ ← must (fun _ => perm_checks p);
  found ← query (fun t => perm_at t (pm_App p) (pm_Resource p) (pm_Action p));
  match found with
  | Some (id, old) =>
      _ ← change (fun t => with_perms t (<[id := redescribed old p]> (t_perms t)));
      mret (id, pm_key old)
  | None =>
      id ← fresh ids;
      _ ← must (fun t =>
            if bool_decide (is_Some (t_perms t !! id)) then Some (violated "23505" "permissions_pkey")
            else if some_row (fun _ q => bool_decide (pm_Tenant q = pm_Tenant p) && bool_decide (pm_key q = pm_key p)) (t_perms t)
            then Some (violated "23505" "permissions_key")
            else perm_fkeys t p);
      _ ← change (fun t => with_perms t (<[id := p]> (t_perms t)));
      mret (id, pm_key p)
  end.

Definition withdrawn (p : PermRow) : PermRow := {|
  pm_App := pm_App p; pm_Tenant := pm_Tenant p; pm_AppSlug := pm_AppSlug p; pm_Resource := pm_Resource p; pm_Action := pm_Action p;
  pm_Description := pm_Description p; pm_Risk := pm_Risk p; pm_MinAssurance := pm_MinAssurance p; pm_RequiresAmr := pm_RequiresAmr p;
  pm_MaxAuthAge := pm_MaxAuthAge p; pm_Module := pm_Module p; pm_DeprecatedAt := Some now |}.
Definition withdraws (app : string) (keep : list string) (id : string) (p : PermRow) : bool :=
  bool_decide (pm_App p = app) && live p && negb (bool_decide (id ∈ keep)).
Definition deprecate_permissions_except (app : string) (keep : list string) : Q (list string) :=
  keys ← query (fun t => omap (fun '(id, p) => if withdraws app keep id p then Some (pm_key p) else None) (map_to_list (t_perms t)));
  _ ← change (fun t => with_perms t (map_imap (fun id p => Some (if withdraws app keep id p then withdrawn p else p)) (t_perms t)));
  mret keys.

(** *** route_policies, and the application's version *)
Definition route_checks (r : RouteRow) : option PgError :=
  if bool_decide (rt_Effect r = "require_permission"%string) && bool_decide (rt_Permission r = None) then Some (violated "23514" "route_policies_check")
  else if negb (bool_decide (rt_Effect r ∈ ["public"; "require_auth"; "require_permission"; "deny"]%string))
  then Some (violated "23514" "route_policies_effect_check") else None.
Definition delete_routes (app : string) : Q unit := change (fun t => with_routes t (filter (fun x => rt_App x.2 <> app) (t_routes t))).
Definition insert_route (r : RouteRow) : Q unit :=
  id ← fresh ids;
  _ ← must (fun t => first_of [
        route_checks r;
        if bool_decide (is_Some (t_routes t !! id)) then Some (violated "23505" "route_policies_pkey") else None;
        if some_row (fun _ q => bool_decide (rt_App q = rt_App r) && bool_decide (rt_Priority q = rt_Priority r)) (t_routes t)
        then Some (violated "23505" "route_policies_application_id_priority_key") else None;
        match rt_Permission r with Some p => no_row (t_perms t) p "route_policies_permission_id_fkey" | None => None end;
        if has_app t (rt_App r) (rt_Tenant r) then None else Some (violated "23503" "route_policies_application_id_tenant_id_fkey")]);
  change (fun t => with_routes t (<[id := r]> (t_routes t))).

Definition at_version (a : AppRow) (v : Z) : AppRow := {| ap_Tenant := ap_Tenant a; ap_Slug := ap_Slug a; ap_Name := ap_Name a; ap_Version := v |}.
(** manifest_version + 1 in an int4 column; [0] where no row is updated. *)
Definition bump_version (app : string) : Q Z :=
  a ← query (fun t => t_apps t !! app);
  match a with
  | None => mret 0%Z
  | Some a =>
      _ ← must (fun _ => if (2 ^ 31 - 1 <? ap_Version a + 1)%Z then Some (exception "22003" "integer out of range") else None);
      _ ← change (fun t => with_apps t (<[app := at_version a (ap_Version a + 1)]> (t_apps t)));
      mret (ap_Version a + 1)%Z
  end.

End Rows.

End Roles.

(** * internal/authz and internal/tenancy: the repositories of roles and of the
    permission catalogue (authz/adapter/postgres/role_repository.go and
    permission_catalog_repository.go with rquery/role.go and
    rquery/permission.go), and what the catalogue uses of applications and
    routes (tenancy/adapter/postgres/application_repository.go and
    route_repository.go). *)
Module RoleStore.
Import Apperr Pg Db RoleGraph Roles.
Import ScopeTree (find_row).
Import MemberStore (Text, tx_ToLower, tx_le, tx_ilike, by_text, in_order).

(** ** Records *)
Record RoleRecord := {
  rr_ID : string; rr_Name : string; rr_Description : string; rr_ApplicationSlug : string; rr_IsSystem : bool;
  rr_AllowedRealmKinds : list string; rr_AssignableAt : list string; rr_Deprecated : bool; rr_PermissionCount : Z
}.
Record EffectivePermissionRecord := { ep_Key : string; ep_ViaRole : string }.
Record PermissionRecord := {
  pr_ID : string; pr_Key : string; pr_AppSlug : string; pr_Resource : string; pr_Action : string; pr_Risk : string;
  pr_Description : string; pr_MinAssurance : Z; pr_RequiresAMR : list string; pr_MaxAuthAge : string; pr_Deprecated : bool; pr_Module : string
}.
(** What is read of an ApplicationRecord. *)
Record ApplicationRecord := { al_ID : string; al_Slug : string; al_Name : string; al_ManifestVersion : Z }.
Record RoutePolicyInput := {
  ri_Priority : Z; ri_Effect : string; ri_PathPattern : string; ri_HostPattern : string; ri_Methods : list string;
  ri_PermissionID : string; ri_ScopeBindings : option (gmap string string)
}.
Record RoutePolicyRecord := {
  rl_ID : string; rl_Priority : Z; rl_Effect : string; rl_PathPattern : string; rl_HostPattern : string; rl_Methods : list string;
  rl_PermissionKey : string; rl_ScopeBindings : option (gmap string string)
}.

(** database.OptStr, database.OrDefaultStr, int16, int32. *)
Definition OptStr (s : string) : option string := if bool_decide (s = ""%string) then None else Some s.
Definition OrDefaultStr (v d : string) : string := if bool_decide (v = ""%string) then d else v.
Definition wrap16 (z : Z) : Z := ((z + 2 ^ 15) mod 2 ^ 16 - 2 ^ 15)%Z.
Definition orDefaultKinds (k : list string) : list string := match k with [] => ["internal"%string] | _ => k end.

Section Repository.
Context (env : Env) (w : World) (tx : Text).

Abbreviation M := (Eff (Store Tables) Error).
Abbreviation now := (ev_now env).

(** No trigger waits in these tables. *)
Definition nothing_waits (t : Tables) : option PgError := None.
Definition as_it_is (t : Tables) : Tables := t.
Definition run {A} (q : (nat -> string) -> Sql_ Tables A) : M A := statement env nothing_waits as_it_is MapErr q.
Definition ask {A} (f : Tables -> A) : M A := run (fun _ => query f).
Definition Tx {A} (m : M A) : M A := Db.WithinTx env nothing_waits as_it_is m.
Fixpoint each {A} (f : A -> M unit) (l : list A) : M unit := match l with [] => mret tt | x :: r => _ ← f x; each f r end.

(** *** role_repository.go *)
Definition app_slug (t : Tables) (r : RoleRow) : string :=
  match ro_Application r with Some a => match t_apps t !! a with Some ap => ap_Slug ap | None => "" end | None => "" end.
Definition permission_count (t : Tables) (id : string) : Z :=
  Z.of_nat (length (List.filter (fun '((r, _), _) => bool_decide (r = id)) (map_to_list (t_effective t)))).
Definition roleRecordOf (t : Tables) (id : string) (r : RoleRow) : RoleRecord := {|
  rr_ID := id; rr_Name := ro_Name r; rr_Description := ro_Description r; rr_ApplicationSlug := app_slug t r; rr_IsSystem := ro_IsSystem r;
  rr_AllowedRealmKinds := ro_Kinds r; rr_AssignableAt := ro_Assignable r;
  rr_Deprecated := negb (bool_decide (ro_DeprecatedAt r = None)); rr_PermissionCount := permission_count t id |}.

Definition by_role_name (a b : RoleRecord) : Prop := in_order [by_text tx (rr_Name a) (rr_Name b)] = true.
#[export] Instance by_role_name_dec : RelDecision by_role_name := fun a b => bool_dec _ true.

Definition ListRoles (tenantID name : string) : M (list RoleRecord) :=
  with_uuid tenantID (fun tid => ask (fun t => merge_sort by_role_name
    (omap (fun '(id, r) =>
       if bool_decide (ro_Tenant r = tid) && (bool_decide (OptStr name = None) || tx_ilike tx (ro_Name r) name)
       then Some (roleRecordOf t id r) else None) (map_to_list (t_roles t))))).

Definition RoleByID (tenantID id : string) : M RoleRecord :=
  with_uuid id (fun c => with_uuid tenantID (fun tid => found ErrNotFound (ask (fun t =>
    match t_roles t !! c with
    | Some r => if bool_decide (ro_Tenant r = tid) then Some (roleRecordOf t c r) else None
    | None => None
    end)))).

(** The generated query reads the role alone. *)
Definition RoleByName (tenantID name : string) : M RoleRecord :=
  with_uuid tenantID (fun tid => found ErrNotFound (ask (fun t =>
    match role_named t tid name with
    | Some (id, r) => Some {| rr_ID := id; rr_Name := ro_Name r; rr_Description := ro_Description r; rr_ApplicationSlug := "";
        rr_IsSystem := ro_IsSystem r; rr_AllowedRealmKinds := ro_Kinds r; rr_AssignableAt := [];
        rr_Deprecated := negb (bool_decide (ro_DeprecatedAt r = None)); rr_PermissionCount := 0 |}
    | None => None
    end))).

Definition CreateRole (tenantID : string) (r : RoleRecord) (applicationID : string) : M string :=
  with_uuid tenantID (fun tid =>
    let insert app := run (fun ids => insert_role w ids {|
      ro_Tenant := tid; ro_Application := app; ro_IsSystem := rr_IsSystem r; ro_Name := rr_Name r; ro_Description := rr_Description r;
      ro_Assignable := rr_AssignableAt r; ro_Kinds := orDefaultKinds (rr_AllowedRealmKinds r); ro_DeprecatedAt := None |}) in
    match OptStr applicationID with None => insert None | Some a => with_uuid a (fun app => insert (Some app)) end).

(** How many rows it touched is not looked at. *)
Definition UpdateRole (tenantID : string) (r : RoleRecord) : M unit :=
  with_uuid (rr_ID r) (fun c => with_uuid tenantID (fun tid =>
    run (fun _ => update_role c tid (rr_Description r) (orDefaultKinds (rr_AllowedRealmKinds r)) (rr_AssignableAt r)))).

Definition RoleParents (roleID : string) : M (list string) := with_uuid roleID (fun c => ask (fun t => parents (t_parents t) c)).

Definition SetRoleParents (roleID : string) (ps : list string) : M unit :=
  Tx (_ ← with_uuid roleID (fun c => run (fun _ => delete_role_parents c));
      each (fun p => with_uuid roleID (fun c => with_uuid p (fun pc => run (fun _ => insert_role_parent c pc)))) ps).

Definition patterns_of (t : Tables) (r : string) : list string :=
  omap (fun '(x, p) => if bool_decide (x = r) then Some p else None) (elements (t_patterns t)).
Definition text_order (a b : string) : Prop := tx_le tx a b = true.
#[export] Instance text_order_dec : RelDecision text_order := fun a b => bool_dec _ true.
Definition RolePatterns (roleID : string) : M (list string) :=
  with_uuid roleID (fun c => ask (fun t => merge_sort text_order (patterns_of t c))).

Definition SetRolePatterns (roleID : string) (ps : list string) : M unit :=
  Tx (_ ← with_uuid roleID (fun c => run (fun _ => delete_role_patterns c));
      each (fun p => with_uuid roleID (fun c => run (fun _ => insert_role_pattern c p))) ps).

Definition AddRolePermission (roleID permissionID : string) : M unit :=
  with_uuid roleID (fun c => with_uuid permissionID (fun pc => run (fun _ => insert_role_permission c pc))).

Definition SetRolePermissions (roleID : string) (permissionIDs : list string) : M unit :=
  Tx (_ ← with_uuid roleID (fun c => run (fun _ => delete_role_permissions c));
      each (AddRolePermission roleID) permissionIDs).

Definition RecomputeRole (roleID : string) : M unit := with_uuid roleID (fun c => run (fun _ => role_recompute_effective w c)).

Definition RolesBelow (roleID : string) : M (list string) := with_uuid roleID (fun c => ask (fun t => elements (roles_below (t_parents t) c))).

Definition RolesUsingPatterns (tenantID : string) : M (list string) :=
  with_uuid tenantID (fun tid => ask (fun t =>
    List.filter (fun r => match t_roles t !! r with Some row => bool_decide (ro_Tenant row = tid) | None => false end)
      (remove_dups (map fst (elements (t_patterns t)))))).

Definition by_key (a b : EffectivePermissionRecord) : Prop := tx_le tx (ep_Key a) (ep_Key b) = true.
#[export] Instance by_key_dec : RelDecision by_key := fun a b => bool_dec _ true.
Definition RoleEffective (tenantID roleID : string) : M (list EffectivePermissionRecord) :=
  with_uuid roleID (fun c => with_uuid tenantID (fun tid => ask (fun t => merge_sort by_key
    (omap (fun '((r, p), via) =>
       match t_roles t !! r, t_perms t !! p, t_roles t !! via with
       | Some row, Some perm, Some vr => if bool_decide (r = c) && bool_decide (ro_Tenant row = tid)
                                         then Some {| ep_Key := pm_key perm; ep_ViaRole := ro_Name vr |} else None
       | _, _, _ => None
       end) (map_to_list (t_effective t)))))).

Definition name_taken (name : string) : Error :=
  With (With ErrConflict "role" name) "reason" "a role with this name exists and was not created by this application's manifest".
Definition UpsertSystemRole (tenantID applicationID : string) (r : RoleRecord) : M string :=
  with_uuid tenantID (fun tid => with_uuid applicationID (fun app =>
    found (name_taken (rr_Name r)) (run (fun ids =>
      upsert_system_role w ids tid (rr_Name r) (rr_Description r) app (orDefaultKinds (rr_AllowedRealmKinds r)))))).

Definition DeprecateRolesExcept (applicationID : string) (keepIDs : list string) : M (list string) :=
  with_uuid applicationID (fun app => match mapM Uuid.canon keepIDs with
    | Some keep => run (fun _ => deprecate_roles_except now app keep)
    | None => raise BadUUID
    end).

(** *** permission_catalog_repository.go *)
Definition permissionRecord (id : string) (p : PermRow) : PermissionRecord := {|
  pr_ID := id; pr_Key := pm_key p; pr_AppSlug := pm_AppSlug p; pr_Resource := pm_Resource p; pr_Action := pm_Action p; pr_Risk := pm_Risk p;
  pr_Description := pm_Description p; pr_MinAssurance := pm_MinAssurance p; pr_RequiresAMR := pm_RequiresAmr p;
  pr_MaxAuthAge := default ""%string (pm_MaxAuthAge p); pr_Deprecated := negb (live p); pr_Module := pm_Module p |}.
Definition by_perm_key (a b : PermissionRecord) : Prop := tx_le tx (pr_Key a) (pr_Key b) = true.
#[export] Instance by_perm_key_dec : RelDecision by_perm_key := fun a b => bool_dec _ true.

Definition ListPermissions (tenantID applicationID : string) (includeDeprecated : bool) : M (list PermissionRecord) :=
  with_uuid tenantID (fun tid =>
    let list app := ask (fun t => merge_sort by_perm_key (omap (fun '(id, p) =>
      if bool_decide (pm_Tenant p = tid) && match app with Some a => bool_decide (pm_App p = a) | None => true end && (includeDeprecated || live p)
      then Some (permissionRecord id p) else None) (map_to_list (t_perms t)))) in
    match OptStr applicationID with None => list None | Some a => with_uuid a (fun app => list (Some app)) end).

Definition as_row (tid app appSlug : string) (age : option string) (p : PermissionRecord) : PermRow := {|
  pm_App := app; pm_Tenant := tid; pm_AppSlug := appSlug; pm_Resource := pr_Resource p; pm_Action := pr_Action p;
  pm_Description := pr_Description p; pm_Risk := OrDefaultStr (pr_Risk p) "normal"; pm_MinAssurance := wrap16 (Z.max (pr_MinAssurance p) 1);
  pm_RequiresAmr := pr_RequiresAMR p; pm_MaxAuthAge := age; pm_Module := pr_Module p; pm_DeprecatedAt := None |}.
(** nullif($10, '')::interval *)
Definition interval (s : string) : result PgError (option string) :=
  if bool_decide (s = ""%string) then Ok None
  else match wo_interval w s with Some i => Ok (Some i) | None => Err (exception "22007" ("invalid input syntax for type interval: " ++ s)) end.
Definition UpsertPermission (tenantID applicationID appSlug : string) (p : PermissionRecord) : M (string * string) :=
  with_uuid applicationID (fun app => with_uuid tenantID (fun tid => run (fun ids =>
    age ← (fun s => (interval (pr_MaxAuthAge p), s) : result PgError (option string) * (Tables * nat));
    upsert_permission ids (as_row tid app appSlug age p)))).

Definition DeprecatePermissionsExcept (applicationID : string) (keepIDs : list string) : M (list string) :=
  with_uuid applicationID (fun app => match mapM Uuid.canon keepIDs with
    | Some keep => run (fun _ => deprecate_permissions_except now app keep)
    | None => raise BadUUID
    end).

Definition PermissionIDByKey (tenantID key : string) : M string :=
  with_uuid tenantID (fun tid => found ErrNotFound (ask (fun t =>
    match OptStr key with
    | None => None
    | Some k => fst <$> find_row (fun _ p => bool_decide (pm_Tenant p = tid) && bool_decide (pm_key p = k) && live p) (t_perms t)
    end))).

(** *** application_repository.go *)
Definition no_application : ApplicationRecord := {| al_ID := ""; al_Slug := ""; al_Name := ""; al_ManifestVersion := 0 |}.
(** That no row was found is not looked at: the zero record is answered. *)
Definition ApplicationBySlug (tenantID slug : string) : M ApplicationRecord :=
  with_uuid tenantID (fun tid => ask (fun t =>
    match find_row (fun _ a => bool_decide (ap_Tenant a = tid) && bool_decide (ap_Slug a = slug)) (t_apps t) with
    | Some (id, a) => {| al_ID := id; al_Slug := ap_Slug a; al_Name := ap_Name a; al_ManifestVersion := ap_Version a |}
    | None => no_application
    end)).

Definition BumpManifestVersion (applicationID : string) : M Z := with_uuid applicationID (fun app => run (fun _ => bump_version app)).

(** *** route_repository.go *)
Definition by_priority (a b : RoutePolicyRecord) : Prop := (rl_Priority a <= rl_Priority b)%Z.
#[export] Instance by_priority_dec : RelDecision by_priority := fun a b => Z_le_dec _ _.
Definition ListRoutePolicies (applicationID : string) : M (list RoutePolicyRecord) :=
  with_uuid applicationID (fun app => ask (fun t => merge_sort by_priority (omap (fun '(id, r) =>
    if bool_decide (rt_App r = app)
    then Some {| rl_ID := id; rl_Priority := rt_Priority r; rl_Effect := rt_Effect r; rl_PathPattern := rt_Path r;
                 rl_HostPattern := default ""%string (rt_Host r); rl_Methods := rt_Methods r;
                 rl_PermissionKey := match rt_Permission r with Some p => match t_perms t !! p with Some q => pm_key q | None => "" end | None => "" end;
                 rl_ScopeBindings := rt_Bindings r |}
    else None) (map_to_list (t_routes t))))).

(** The column's default is every method. *)
Definition route_row (app tid : string) (perm : option string) (p : RoutePolicyInput) : RouteRow := {|
  rt_App := app; rt_Tenant := tid; rt_Permission := perm; rt_Priority := wrap32 (ri_Priority p); rt_Effect := ri_Effect p;
  rt_Path := ri_PathPattern p; rt_Host := OptStr (ri_HostPattern p);
  rt_Methods := match ri_Methods p with [] => ["*"%string] | ms => ms end; rt_Bindings := ri_ScopeBindings p |}.
Definition add_route (app tid : string) (p : RoutePolicyInput) : M unit :=
  let insert perm := run (fun ids => insert_route ids (route_row app tid perm p)) in
  match OptStr (ri_PermissionID p) with None => insert None | Some pid => with_uuid pid (fun c => insert (Some c)) end.
Definition ReplaceRoutePolicies (tenantID applicationID : string) (policies : list RoutePolicyInput) : M unit :=
  with_uuid applicationID (fun app => with_uuid tenantID (fun tid => Tx (
    _ ← run (fun _ => delete_routes app);
    each (add_route app tid) policies))).

End Repository.

End RoleStore.
