(* ===== verification/RoleAdmin.v ===== *)
(** internal/authz/app: the handlers of roles, permissions and catalogue
    documents ([RoleAdmin]) and of the feeds catalogues come from
    ([CatalogSync]). *)

From Stdlib Require Import ZArith Lia Bool Ascii String.
From stdpp Require Import base gmap strings list sorting pretty.
From S2P Require Import Prelude.
From S2P Require Import GoStrings.
From S2P Require Import GoConv.
From S2P Require Import Shared.
From S2P Require Import AuthStore.
From S2P Require Import AdminGuard.
From S2P Require Import ScopeTree.
From S2P Require Import Db.
From S2P Require Import MemberStore.
From S2P Require Import MemberAdmin.
From S2P Require Import Catalog.
From S2P Require Import Roles.

(** * internal/authz/app/admin/authz_admin_interactor.go: the handlers of roles and
    permissions, and the one that applies an application's catalog document. *)
Module RoleAdmin.
Import Apperr Authctx AdminGuard Pg Db Roles RoleStore.
Import MemberAdmin (ACtx, ac_guard, ac_caller, ac_ip, show_count).
Import MemberStore (Text, tx_ToLower).
Import Catalog (Document, Permissions, Sections, ct_Priority, ct_PathPattern, ct_HostPattern, ct_Methods, ct_Effect, ct_Permission, ct_ScopeBindings,
  cr_Name, cr_Description, cr_Permissions, cr_Patterns, cr_AllowedRealmKinds, cp_Resource, cp_Action, cp_Description, cp_Risk, cp_MinAssurance,
  cp_RequiresAMR, cp_MaxAuthAge, cp_Module, cp_key, ra).

(** Who a catalog is applied on behalf of: Kind is identity or system. *)
Record applyActor := { aa_TenantID : string; aa_IdentityID : string; aa_SessionID : string; aa_Kind : string }.

(** The report: how many were applied, the keys and names deprecated. *)
Record Report := {
  rp_dry : bool; rp_sections : list string; rp_permissions : option (Z * list string); rp_roles : option (Z * list string); rp_routes : option Z
}.
Definition reported_permissions (r : Report) (n : Z) (deprecated : list string) : Report := {|
  rp_dry := rp_dry r; rp_sections := rp_sections r; rp_permissions := Some (n, deprecated); rp_roles := rp_roles r; rp_routes := rp_routes r |}.
Definition reported_roles (r : Report) (n : Z) (deprecated : list string) : Report := {|
  rp_dry := rp_dry r; rp_sections := rp_sections r; rp_permissions := rp_permissions r; rp_roles := Some (n, deprecated); rp_routes := rp_routes r |}.
Definition reported_routes (r : Report) (n : Z) : Report := {|
  rp_dry := rp_dry r; rp_sections := rp_sections r; rp_permissions := rp_permissions r; rp_roles := rp_roles r; rp_routes := Some n |}.

(** The variables [apply] writes and its caller answers, and its error. *)
Record Draft := { dr_report : Report; dr_version : Z; dr_err : option Error }.

Section App.
Context (env : Env) (w : World) (tx : Text) (unmarshal : string -> option Document) (ac : ACtx).

Abbreviation M := (Eff (Store Tables) Error).

Definition Require (permission : string) : M Principal := lift (AdminGuard.Require (ac_guard ac) (ac_caller ac) permission).
Definition emitAs (a : applyActor) (action target : string) (detail : gmap string string) : M unit := fun s =>
  (Ok tt, logged s {| AuthStore.au_TenantID := aa_TenantID a; AuthStore.au_ActorID := aa_IdentityID a; AuthStore.au_ActorKind := aa_Kind a;
     AuthStore.au_TargetID := target; AuthStore.au_SessionID := aa_SessionID a; AuthStore.au_Action := action; AuthStore.au_Result := "allow";
     AuthStore.au_IP := ac_ip ac; AuthStore.au_Detail := detail |}).
Definition as_identity (p : Principal) : applyActor := {|
  aa_TenantID := TenantID p; aa_IdentityID := IdentityID p; aa_SessionID := SessionID p; aa_Kind := "identity" |}.
Definition emit (p : Principal) : string -> string -> gmap string string -> M unit := emitAs (as_identity p).

(** ** Roles *)

(** What the lookups of each role gave; one that failed is left out. *)
Fixpoint of_each (lookup : string -> M (list string)) (ids : list string) : M (gmap string (list string)) :=
  match ids with
  | [] => mret ∅
  | id :: r => got ← attempt (lookup id); rest ← of_each lookup r;
               mret (match got with Ok l => <[id := l]> rest | Err _ => rest end)
  end.
Definition ListRoles (name : string) : M (list RoleRecord * gmap string (list string) * gmap string (list string)) :=
  p ← Require "anubis:role:admin";
  roles ← RoleStore.ListRoles env tx (TenantID p) name;
  ps ← of_each (RoleParents env) (map rr_ID roles);
  pts ← of_each (RolePatterns env tx) (map rr_ID roles);
  mret (roles, ps, pts).

Definition applyRoleGraph (roleID : string) (ps pts : list string) : M unit :=
  _ ← SetRoleParents env roleID ps;
  _ ← SetRolePatterns env roleID pts;
  _ ← RecomputeRole env w roleID;
  below ← RolesBelow env roleID;
  each (RecomputeRole env w) below.

Definition CreateRole (r : RoleRecord) (ps pts : list string) : M RoleRecord :=
  p ← Require "anubis:role:admin";
  appID ← (if bool_decide (rr_ApplicationSlug r = ""%string) then mret ""%string
           else app ← attempt (ApplicationBySlug env (TenantID p) (rr_ApplicationSlug r));
                match app with
                | Ok a => mret (al_ID a)
                | Err _ => raise (With ErrInvalidArgument "application" (rr_ApplicationSlug r))
                end);
  id ← Tx env (id ← RoleStore.CreateRole env w (TenantID p) r appID;
               _ ← applyRoleGraph id ps pts;
               mret id);
  _ ← emit p "role.create" id {["name" := rr_Name r]};
  RoleByID env (TenantID p) id.

Definition UpdateRole (r : RoleRecord) (ps pts : list string) : M RoleRecord :=
  p ← Require "anubis:role:admin";
  _ ← Tx env (_ ← RoleStore.UpdateRole env (TenantID p) r;
              applyRoleGraph (rr_ID r) ps pts);
  _ ← emit p "role.update" (rr_ID r) {["name" := rr_Name r]};
  RoleByID env (TenantID p) (rr_ID r).

Definition GetRoleEffective (roleID : string) : M (list EffectivePermissionRecord) :=
  p ← Require "anubis:role:admin";
  RoleEffective env tx (TenantID p) roleID.

Definition ListPermissions (applicationSlug : string) (includeDeprecated : bool) : M (list PermissionRecord) :=
  p ← Require "anubis:identity:read";
  appID ← (if bool_decide (applicationSlug = ""%string) then mret ""%string
           else app ← attempt (ApplicationBySlug env (TenantID p) applicationSlug);
                match app with Ok a => mret (al_ID a) | Err _ => raise (With ErrNotFound "application" applicationSlug) end);
  RoleStore.ListPermissions env tx (TenantID p) appID includeDeprecated.

(** ** Applying a catalog document *)
Abbreviation Keys := (gmap string string).

Definition declared_permission (mp : Catalog.Permission) : PermissionRecord := {|
  pr_ID := ""; pr_Key := ""; pr_AppSlug := ""; pr_Resource := cp_Resource mp; pr_Action := cp_Action mp; pr_Risk := cp_Risk mp;
  pr_Description := cp_Description mp; pr_MinAssurance := cp_MinAssurance mp; pr_RequiresAMR := cp_RequiresAMR mp;
  pr_MaxAuthAge := cp_MaxAuthAge mp; pr_Deprecated := false; pr_Module := cp_Module mp |}.
Fixpoint upsert_all (tenant : string) (app : ApplicationRecord) (ps : list Catalog.Permission) (keep : list string) (keys : Keys) : M (list string * Keys) :=
  match ps with
  | [] => mret (keep, keys)
  | mp :: r =>
      got ← UpsertPermission env w tenant (al_ID app) (al_Slug app) (declared_permission mp);
      upsert_all tenant app r (keep ++ [fst got]) (<[cp_key mp := fst got]> keys)
  end.

Definition empty_section (section catalog hint : string) : Error :=
  With (With (With ErrInvalidArgument section "section is present but empty") "catalog" catalog) "hint" hint.
Definition permissions_section (tenant : string) (app : ApplicationRecord) (existing : list PermissionRecord) (ps : list Catalog.Permission)
  (keys : Keys) : M (Keys * list string) :=
  if (length ps =? 0)%nat && negb (length existing =? 0)%nat
  then raise (empty_section "permissions" (show_count (Z.of_nat (length existing)) ++ " live permissions")
                "refusing to deprecate an entire catalog in one apply")
  else
    got ← upsert_all tenant app ps [] keys;
    deprecated ← DeprecatePermissionsExcept env (al_ID app) (fst got);
    mret (snd got, deprecated).

(** The ids of what a role names. *)
Definition expected (app : ApplicationRecord) : string :=
  "resource:action, without the application slug — the manifest is already scoped to " ++ al_Slug app.
Fixpoint resolve (app : ApplicationRecord) (keys : Keys) (role : string) (l : list string) : result Error (list string) :=
  match l with
  | [] => Ok []
  | k :: r => match keys !! k with
              | None => Err (With (With (With ErrInvalidArgument "role" role) "permission" k) "expected" (expected app))
              | Some id => match resolve app keys role r with Ok ids => Ok (id :: ids) | Err e => Err e end
              end
  end.

Definition role_name (app : ApplicationRecord) (mr : Catalog.Role) : string := (al_Slug app ++ "." ++ cr_Name mr)%string.
Definition declared_role_record (app : ApplicationRecord) (mr : Catalog.Role) : RoleRecord := {|
  rr_ID := ""; rr_Name := role_name app mr; rr_Description := cr_Description mr; rr_ApplicationSlug := ""; rr_IsSystem := false;
  rr_AllowedRealmKinds := cr_AllowedRealmKinds mr; rr_AssignableAt := []; rr_Deprecated := false; rr_PermissionCount := 0 |}.
Definition apply_role (tenant : string) (app : ApplicationRecord) (keys : Keys) (mr : Catalog.Role) : M string :=
  roleID ← UpsertSystemRole env w tenant (al_ID app) (declared_role_record app mr);
  permIDs ← lift (resolve app keys (cr_Name mr) (cr_Permissions mr));
  _ ← SetRolePermissions env roleID permIDs;
  _ ← applyRoleGraph roleID [] (cr_Patterns mr);
  mret roleID.
Fixpoint apply_roles (tenant : string) (app : ApplicationRecord) (keys : Keys) (rs : list Catalog.Role) (keep : list string) : M (list string) :=
  match rs with
  | [] => mret keep
  | mr :: r => id ← apply_role tenant app keys mr; apply_roles tenant app keys r (keep ++ [id])
  end.
Definition roles_section (tenant : string) (app : ApplicationRecord) (keys : Keys) (rs : list Catalog.Role) : M (list string) :=
  keep ← apply_roles tenant app keys rs [];
  retired ← DeprecateRolesExcept env (al_ID app) keep;
  if (length rs =? 0)%nat && negb (length retired =? 0)%nat
  then raise (empty_section "roles" (show_count (Z.of_nat (length retired)) ++ " live roles") "refusing to retire an entire role catalog in one apply")
  else mret retired.

Definition policy_of (keys : Keys) (rt : Catalog.Route) : result Error RoutePolicyInput :=
  let input permID := {| ri_Priority := ct_Priority rt; ri_Effect := ct_Effect rt; ri_PathPattern := ct_PathPattern rt;
    ri_HostPattern := ct_HostPattern rt; ri_Methods := match ct_Methods rt with [] => ["*"%string] | ms => ms end;
    ri_PermissionID := permID; ri_ScopeBindings := ct_ScopeBindings rt |} in
  if bool_decide (ct_Effect rt = "require_permission"%string)
  then match keys !! ct_Permission rt with
       | Some id => Ok (input id)
       | None => Err (With (With ErrInvalidArgument "route" (ct_PathPattern rt)) "permission" (ct_Permission rt))
       end
  else Ok (input ""%string).
Fixpoint policies_of (keys : Keys) (rts : list Catalog.Route) : result Error (list RoutePolicyInput) :=
  match rts with
  | [] => Ok []
  | rt :: r => match policy_of keys rt with
               | Ok p => match policies_of keys r with Ok ps => Ok (p :: ps) | Err e => Err e end
               | Err e => Err e
               end
  end.
Definition routes_section (tenant : string) (app : ApplicationRecord) (keys : Keys) (rts : list Catalog.Route) : M Z :=
  policies ← lift (policies_of keys rts);
  _ ← ReplaceRoutePolicies env tenant (al_ID app) policies;
  mret (Z.of_nat (length policies)).

(** A section that was declared, with what it leaves. *)
Definition section {A B} (o : option A) (none : B) (f : A -> M B) : M B := match o with None => mret none | Some a => f a end.

(** keyByRA, from what is stored. *)
Definition stored_keys (existing : list PermissionRecord) : Keys :=
  foldl (fun m e => <[ra (pr_Resource e) (pr_Action e) := pr_ID e]> m) ∅ existing.

Definition failing (report : Report) (version : Z) (e : Error) : Draft := {| dr_report := report; dr_version := version; dr_err := Some e |}.
(** [if err != nil { return err }], with what the caller's variables hold. *)
Definition try {A} (report : Report) (version : Z) (m : M A) (k : A -> M Draft) : M Draft :=
  r ← attempt m; match r with Ok a => k a | Err e => mret (failing report version e) end.

Definition apply (tenant : string) (app : ApplicationRecord) (m : Document) (r0 : Report) : M Draft :=
  let v := al_ManifestVersion app in
  try r0 v (RoleStore.ListPermissions env tx tenant (al_ID app) false) (fun existing =>
  let keys0 := stored_keys existing in
  try r0 v (section (Permissions m) (keys0, r0) (fun ps =>
              got ← permissions_section tenant app existing ps keys0;
              mret (fst got, reported_permissions r0 (Z.of_nat (length ps)) (snd got)))) (fun '(keys, r1) =>
  try r1 v (section (Catalog.Roles m) r1 (fun rs =>
              retired ← roles_section tenant app keys rs;
              mret (reported_roles r1 (Z.of_nat (length rs)) retired))) (fun r2 =>
  try r2 v (section (Catalog.Routes m) r2 (fun rts =>
              n ← routes_section tenant app keys rts;
              mret (reported_routes r2 n))) (fun r3 =>
  try r3 v (BumpManifestVersion env (al_ID app)) (fun version =>
  mret {| dr_report := r3; dr_version := version; dr_err := None |}))))).

(** WithinTx(apply), its error the transaction's. *)
Definition outcome (d : Draft) : M Draft := match dr_err d with None => mret d | Some e => raise e end.
Definition for_good (m : M Draft) : M Draft := Tx env (m ≫= outcome).

(** A transaction that always ends in an error, the sentinel when nothing else
    failed; an error that has the sentinel in it is passed over. *)
Definition sentinel : string := "manifest dry run rollback".
Definition passed_over (d : Draft) : result Error Draft :=
  match dr_err d with
  | None => Ok d
  | Some e => if str_contains sentinel (Error_text e) then Ok d else Err e
  end.
Definition DryRun (m : M Draft) : M Draft := fun s =>
  match st_tx s with
  | NoTx =>
      if ev_fails env (st_calls s) then (Err (Wrap ErrInternal "begin"), called s)
      else match m (with_tx (called s) InTx) with
           | (Ok d, s') => (passed_over d, rolled_back s s')
           | (Err e, s') => (Err e, rolled_back s s')
           end
  | _ => match m s with (Ok d, s') => (passed_over d, s') | (Err e, s') => (Err e, s') end
  end.

Definition applyCatalog (actor : applyActor) (applicationSlug document format : string) (dry : bool) : M (Report * Z) :=
  got ← attempt (ApplicationBySlug env (aa_TenantID actor) applicationSlug);
  match got with
  | Err _ => raise (With ErrNotFound "application" applicationSlug)
  | Ok app =>
      m ← lift (Catalog.Parse (tx_ToLower tx) unmarshal document format);
      match Catalog.Validate (tx_ToLower tx) m with
      | Some e => raise e
      | None =>
          if (length (Sections m) =? 0)%nat
          then raise (With (With ErrInvalidArgument "document" "declares no permissions, roles or routes")
                        "hint" "an empty document changes nothing; there is nothing to apply")
          else
            let report := {| rp_dry := dry; rp_sections := Sections m; rp_permissions := None; rp_roles := None; rp_routes := None |} in
            if dry then d ← DryRun (apply (aa_TenantID actor) app m report); mret (dr_report d, dr_version d)
            else
              d ← for_good (apply (aa_TenantID actor) app m report);
              _ ← emitAs actor "manifest.apply" (al_ID app)
                    (<["application" := applicationSlug]> (<["version" := show_count (dr_version d)]>
                      (<["format" := format]> {["sections" := String.concat "," (Sections m)]})));
              mret (dr_report d, dr_version d)
      end
  end.

Definition ApplyManifest (applicationSlug document format : string) (dry : bool) : M (Report * Z) :=
  p ← Require "anubis:manifest:apply";
  applyCatalog (as_identity p) applicationSlug document format dry.

Definition ApplyDocumentAsSystem (tenantID applicationSlug document format : string) (dry : bool) : M (Report * Z) :=
  applyCatalog {| aa_TenantID := tenantID; aa_IdentityID := ""; aa_SessionID := ""; aa_Kind := "system" |} applicationSlug document format dry.

End App.

End RoleAdmin.

(** * internal/authz/app/catalog/sync_interactor.go: the feeds a catalogue comes
    from, run by an operator or when they are due, with their repository
    (authz/adapter/postgres/catalog_sync_repository.go, rquery/catalog_sync.go)
    and records (domain/catalogsync). *)
Module CatalogSync.
Import Apperr Authctx Pg Db Roles RoleStore.
Import MemberAdmin (ACtx).
Import MemberStore (Text, tx_ToLower, tx_le).
Import ScopeTree (some_row, first_of).
Import RoleAdmin (Report, Require, emit, ApplyDocumentAsSystem).

(** ** Records *)
Record Source := {
  sr_ID : string; sr_TenantID : string; sr_ApplicationID : string; sr_ApplicationSlug : string; sr_Kind : string; sr_Format : string;
  sr_Status : string; sr_Name : string; sr_Config : string; sr_IntervalSeconds : Z; sr_LastRunAt : option Time; sr_NextRunAt : option Time;
  sr_LastStatus : string
}.
Record Run := {
  rr_ID : string; rr_SourceID : string; rr_StartedAt : Time; rr_FinishedAt : option Time; rr_Dry : bool; rr_Status : string; rr_Actor : string;
  rr_DocumentSHA : string; rr_Report : string; rr_Error : string
}.
Record SourceInput := {
  in_ID : string; in_ApplicationSlug : string; in_Name : string; in_Kind : string; in_Format : string; in_Status : string; in_ConfigJSON : string;
  in_IntervalSeconds : Z
}.
Definition Scheduled (s : Source) : bool := (0 <? sr_IntervalSeconds s)%Z.

Definition KindHTTP : string := "http".
Definition StatusActive : string := "active".
Definition StatusDisabled : string := "disabled".
Definition RunRunning : string := "running".
Definition RunOK : string := "ok".
Definition RunFailed : string := "failed".
Definition RunDry : string := "dry_run".
Definition RunSkipped : string := "skipped".
Definition ActorSystem : string := "system".

(** ** Rows *)
Section Rows.
Context (now : Time) (w : World) (ids : nat -> string).

(** ORDER BY started_at DESC: which of two that started together comes first is
    not said. *)
Definition later (a b : string * RunRow) : Prop := (rn_StartedAt (snd b) <= rn_StartedAt (snd a))%Z.
#[export] Instance later_dec : RelDecision later := fun a b => Z_le_dec _ _.
Definition runs_of (t : Tables) (p : RunRow -> bool) (source : string) : list (string * RunRow) :=
  merge_sort later (List.filter (fun '(_, r) => bool_decide (rn_Source r = source) && p r) (map_to_list (t_runs t))).

Definition source_record (t : Tables) (id : string) (s : SourceRow) : option Source :=
  (fun a => {| sr_ID := id; sr_TenantID := so_Tenant s; sr_ApplicationID := so_App s; sr_ApplicationSlug := ap_Slug a; sr_Kind := so_Kind s;
     sr_Format := so_Format s; sr_Status := so_Status s; sr_Name := so_Name s; sr_Config := so_Config s; sr_IntervalSeconds := so_Interval s;
     sr_LastRunAt := so_LastRunAt s; sr_NextRunAt := so_NextRunAt s;
     sr_LastStatus := match runs_of t (fun _ => true) id with (_, r) :: _ => rn_Status r | [] => "" end |}) <$> t_apps t !! so_App s.

Definition jsonb (s : string) : Sql_ Tables string := match wo_jsonb w s with Some j => mret j | None => refuse (exception "22P02" "invalid input syntax for type json") end.

Definition source_checks (s : SourceRow) : option PgError :=
  if negb (bool_decide (so_Format s ∈ ["json"; "csv"]%string)) then Some (violated "23514" "catalog_sync_sources_format_check")
  else if negb ((so_Interval s =? 0)%Z || (300 <=? so_Interval s)%Z) then Some (violated "23514" "catalog_sync_sources_interval_seconds_check")
  else if negb (bool_decide (so_Kind s = "http"%string)) then Some (violated "23514" "catalog_sync_sources_kind_check")
  else if negb (bool_decide (so_Status s ∈ ["active"; "disabled"]%string)) then Some (violated "23514" "catalog_sync_sources_status_check")
  else None.
Definition source_name_taken (t : Tables) (id : string) (s : SourceRow) : option PgError :=
  if some_row (fun i q => negb (bool_decide (i = id)) && bool_decide (so_Tenant q = so_Tenant s) && bool_decide (so_Name q = so_Name s)) (t_sources t)
  then Some (violated "23505" "catalog_sync_sources_tenant_id_name_key") else None.

Definition insert_source (tenant app kind format status name config : string) (interval : Z) : Sql_ Tables string :=
  j ← jsonb config;
  let s := {| so_Tenant := tenant; so_App := app; so_Kind := kind; so_Format := format; so_Status := status; so_Name := name; so_Config := j;
              so_Interval := interval; so_LastRunAt := None; so_NextRunAt := if (0 <? interval)%Z then Some now else None |} in
  id ← fresh ids;
  _ ← must (fun t => first_of [source_checks s;
        if bool_decide (is_Some (t_sources t !! id)) then Some (violated "23505" "catalog_sync_sources_pkey") else None;
        source_name_taken t id s;
        if negb (wo_tenant w tenant) then Some (violated "23503" "catalog_sync_sources_tenant_id_fkey") else None;
        if has_app t app tenant then None else Some (violated "23503" "catalog_sync_sources_application_id_tenant_id_fkey")]);
  _ ← change (fun t => with_sources t (<[id := s]> (t_sources t)));
  mret id.

Definition updated_source (s : SourceRow) (name status config format : string) (interval : Z) : SourceRow := {|
  so_Tenant := so_Tenant s; so_App := so_App s; so_Kind := so_Kind s; so_Format := format; so_Status := status; so_Name := name; so_Config := config;
  so_Interval := interval; so_LastRunAt := so_LastRunAt s;
  so_NextRunAt := if (interval =? 0)%Z then None
                  else if negb (interval =? so_Interval s)%Z || bool_decide (so_NextRunAt s = None) then Some now else so_NextRunAt s |}.
(** The number of rows. *)
Definition update_source (id tenant name status config format : string) (interval : Z) : Sql_ Tables nat :=
  j ← jsonb config;
  row ← query (fun t => t_sources t !! id);
  match row with
  | Some s =>
      if bool_decide (so_Tenant s = tenant) then
        let s' := updated_source s name status j format interval in
        _ ← must (fun t => first_of [source_checks s'; source_name_taken t id s']);
        _ ← change (fun t => with_sources t (<[id := s']> (t_sources t)));
        mret 1%nat
      else mret 0%nat
  | None => mret 0%nat
  end.

(** ON DELETE CASCADE: the source's runs go too. *)
Definition delete_source (id tenant : string) : Sql_ Tables nat :=
  row ← query (fun t => t_sources t !! id);
  match row with
  | Some s =>
      if bool_decide (so_Tenant s = tenant)
      then _ ← change (fun t => with_runs (with_sources t (delete id (t_sources t))) (filter (fun x => rn_Source x.2 <> id) (t_runs t))); mret 1%nat
      else mret 0%nat
  | None => mret 0%nat
  end.

Definition moved_on (s : SourceRow) : SourceRow := {|
  so_Tenant := so_Tenant s; so_App := so_App s; so_Kind := so_Kind s; so_Format := so_Format s; so_Status := so_Status s; so_Name := so_Name s;
  so_Config := so_Config s; so_Interval := so_Interval s; so_LastRunAt := Some now;
  so_NextRunAt := if (0 <? so_Interval s)%Z then Some (now + so_Interval s * second)%Z else None |}.
Definition schedule_source (id : string) : Sql_ Tables unit := change (fun t => with_sources t (alter moved_on id (t_sources t))).

Definition run_checks (r : RunRow) : option PgError :=
  if bool_decide (rn_Status r ∈ ["running"; "ok"; "failed"; "dry_run"; "skipped"]%string) then None else Some (violated "23514" "catalog_sync_runs_status_check").
Definition started (source tenant actor : string) (dry : bool) : RunRow := {|
  rn_Source := source; rn_Tenant := tenant; rn_StartedAt := now; rn_FinishedAt := None; rn_Dry := dry; rn_Status := "running"; rn_Actor := actor;
  rn_DocumentSha := ""; rn_Report := None; rn_Error := "" |}.
Definition start_run (source tenant actor : string) (dry : bool) : Sql_ Tables string :=
  id ← fresh ids;
  _ ← must (fun t => first_of [
        if bool_decide (is_Some (t_runs t !! id)) then Some (violated "23505" "catalog_sync_runs_pkey") else None;
        no_row (t_sources t) source "catalog_sync_runs_source_id_fkey";
        if wo_tenant w tenant then None else Some (violated "23503" "catalog_sync_runs_tenant_id_fkey")]);
  _ ← change (fun t => with_runs t (<[id := started source tenant actor dry]> (t_runs t)));
  mret id.

Definition finished (status digest : string) (report : option string) (errMsg : string) (r : RunRow) : RunRow := {|
  rn_Source := rn_Source r; rn_Tenant := rn_Tenant r; rn_StartedAt := rn_StartedAt r; rn_FinishedAt := Some now; rn_Dry := rn_Dry r; rn_Status := status;
  rn_Actor := rn_Actor r; rn_DocumentSha := digest; rn_Report := report; rn_Error := errMsg |}.
Definition finish_run (id status digest reportJSON errMsg : string) : Sql_ Tables unit :=
  report ← (if bool_decide (reportJSON = ""%string) then mret None else j ← jsonb reportJSON; mret (Some j));
  _ ← must (fun t => match t_runs t !! id with Some r => run_checks (finished status digest report errMsg r) | None => None end);
  change (fun t => with_runs t (alter (finished status digest report errMsg) id (t_runs t))).

Definition run_record (x : string * RunRow) : Run := let '(id, r) := x in {|
  rr_ID := id; rr_SourceID := rn_Source r; rr_StartedAt := rn_StartedAt r; rr_FinishedAt := rn_FinishedAt r; rr_Dry := rn_Dry r; rr_Status := rn_Status r;
  rr_Actor := rn_Actor r; rr_DocumentSHA := rn_DocumentSha r; rr_Report := default ""%string (rn_Report r); rr_Error := rn_Error r |}.

(** What a source last acted on: no dry run, ok or skipped, with a digest. *)
Definition acted (r : RunRow) : bool :=
  negb (rn_Dry r) && bool_decide (rn_Status r ∈ ["ok"; "skipped"]%string) && negb (bool_decide (rn_DocumentSha r = ""%string)).
Definition last_applied (t : Tables) (source : string) : string := match runs_of t acted source with (_, r) :: _ => rn_DocumentSha r | [] => "" end.

Definition due (at_ : Time) (s : SourceRow) : bool :=
  bool_decide (so_Status s = "active"%string) && match so_NextRunAt s with Some n => (n <=? at_)%Z | None => false end.
Definition sooner (a b : Source) : Prop := (default 0 (sr_NextRunAt a) <= default 0 (sr_NextRunAt b))%Z.
#[export] Instance sooner_dec : RelDecision sooner := fun a b => Z_le_dec _ _.
Definition due_sources (t : Tables) (at_ : Time) (limit : Z) : list Source :=
  take (Z.to_nat limit) (merge_sort sooner (omap (fun '(id, s) => if due at_ s then source_record t id s else None) (map_to_list (t_sources t)))).

End Rows.

(** ** catalog_sync_repository.go *)
Section Repository.
Context (env : Env) (w : World) (tx : Text).
Abbreviation M := (Eff (Store Tables) Error).

Definition by_source_name (a b : Source) : Prop := tx_le tx (sr_Name a) (sr_Name b) = true.
#[export] Instance by_source_name_dec : RelDecision by_source_name := fun a b => bool_dec _ true.
Definition ListSources (tenantID : string) : M (list Source) :=
  with_uuid tenantID (fun tid => ask env (fun t => merge_sort by_source_name
    (omap (fun '(id, s) => if bool_decide (so_Tenant s = tid) then source_record t id s else None) (map_to_list (t_sources t))))).

Definition no_source (id : string) : Error := With ErrNotFound "source" id.
Definition SourceByID (tenantID id : string) : M Source :=
  with_uuid id (fun c => with_uuid tenantID (fun tid => found (no_source id) (ask env (fun t =>
    match t_sources t !! c with Some s => if bool_decide (so_Tenant s = tid) then source_record t c s else None | None => None end)))).

Definition DueSources (at_ : Time) (limit : Z) : M (list Source) := ask env (fun t => due_sources t at_ limit).

Definition CreateSource (src : Source) : M string :=
  with_uuid (sr_TenantID src) (fun tid => with_uuid (sr_ApplicationID src) (fun app => run env (fun ids =>
    insert_source (ev_now env) w ids tid app (sr_Kind src) (sr_Format src) (sr_Status src) (sr_Name src) (sr_Config src) (wrap32 (sr_IntervalSeconds src))))).

Definition touched (id : string) (m : M nat) : M unit := n ← m; if (n =? 0)%nat then raise (no_source id) else mret tt.
Definition UpdateSource (src : Source) : M unit :=
  touched (sr_ID src) (with_uuid (sr_ID src) (fun c => with_uuid (sr_TenantID src) (fun tid => run env (fun _ =>
    update_source (ev_now env) w c tid (sr_Name src) (sr_Status src) (sr_Config src) (sr_Format src) (wrap32 (sr_IntervalSeconds src)))))).
Definition DeleteSource (tenantID id : string) : M unit :=
  touched id (with_uuid id (fun c => with_uuid tenantID (fun tid => run env (fun _ => delete_source c tid)))).

Definition ScheduleNext (sourceID : string) : M unit := with_uuid sourceID (fun c => run env (fun _ => schedule_source (ev_now env) c)).
Definition StartRun (sourceID tenantID actor : string) (dry : bool) : M string :=
  with_uuid sourceID (fun c => with_uuid tenantID (fun tid => run env (fun ids => start_run (ev_now env) w ids c tid actor dry))).
Definition FinishRun (runID status digest reportJSON errMsg : string) : M unit :=
  with_uuid runID (fun c => run env (fun _ => finish_run (ev_now env) w c status digest reportJSON errMsg)).
Definition ListRuns (sourceID : string) (limit : Z) : M (list Run) :=
  with_uuid sourceID (fun c => ask env (fun t => map run_record (take (Z.to_nat limit) (runs_of t (fun _ => true) c)))).
Definition LastAppliedDigest (sourceID : string) : M string := with_uuid sourceID (fun c => ask env (fun t => last_applied t c)).

End Repository.

(** ** The handlers *)

(** The ports besides the database: what fetching gives, the hex of SHA-256,
    json.Valid, and the report with its version as JSON. *)
Record Feed := { fd_fetch : Source -> result Error string; fd_digest : string -> string; fd_valid : string -> bool; fd_report : Report -> Z -> string }.

Section App.
Context (env : Env) (w : World) (tx : Text) (unmarshal : string -> option Catalog.Document) (ac : ACtx) (fd : Feed).
Abbreviation M := (Eff (Store Tables) Error).

Definition permApply : string := "anubis:manifest:apply".
Definition dueBatch : Z := 25.

Definition lastRun (sourceID : string) : M (option Run) := runs ← ListRuns env sourceID 1; mret (head runs).

(** What failed in closing the run, or in rescheduling, is only logged. *)
Definition finish (runID status digest report errMsg : string) : M unit := _ ← attempt (FinishRun env w runID status digest report errMsg); mret tt.

Definition carry_out (src : Source) (runID : string) (dry : bool) : M (option Run) :=
  match fd_fetch fd src with
  | Err e => _ ← finish runID RunFailed "" "" (Error_text e); raise e
  | Ok document =>
      let digest := fd_digest fd document in
      unchanged ← (if dry then mret false
                   else last ← attempt (LastAppliedDigest env (sr_ID src));
                        mret (match last with Ok l => bool_decide (l = digest) | Err _ => false end));
      if (unchanged : bool) then
        _ ← finish runID RunSkipped digest ("{" ++ ScopeTree.quoted "skipped" ++ ":" ++ ScopeTree.quoted "document unchanged" ++ "}") "";
        lastRun (sr_ID src)
      else
        got ← attempt (ApplyDocumentAsSystem env w tx unmarshal ac (sr_TenantID src) (sr_ApplicationSlug src) document (sr_Format src) dry);
        match got with
        | Err e => _ ← finish runID RunFailed digest "" (Error_text e); raise e
        | Ok (report, version) =>
            _ ← finish runID (if dry then RunDry else RunOK) digest (fd_report fd report version) "";
            lastRun (sr_ID src)
        end
  end.

(** The deferred call runs after the answer is made, whatever it is. *)
Definition deferred {A} (m : M A) (d : M unit) : M A := fun s => let '(r, s') := m s in (r, snd (d s')).
Definition run_source (src : Source) (actor : string) (dry : bool) : M (option Run) :=
  runID ← StartRun env w (sr_ID src) (sr_TenantID src) actor dry;
  deferred (carry_out src runID dry)
    (if Scheduled src && negb dry then _ ← attempt (F := Error) (ScheduleNext env (sr_ID src)); mret tt else mret tt).

Definition ListSourcesH : M (list Source) := p ← Require ac permApply; ListSources env tx (TenantID p).

Definition ListRunsH (sourceID : string) (limit : Z) : M (list Run) :=
  p ← Require ac permApply;
  _ ← SourceByID env (TenantID p) sourceID;
  ListRuns env sourceID (if (limit <=? 0)%Z || (200 <? limit)%Z then 50 else limit)%Z.

Definition either (s a b : string) : bool := bool_decide (s = a) || bool_decide (s = b).
Definition or_default (s d : string) : string := if bool_decide (s = ""%string) then d else s.
Definition validate (tenantID : string) (i : SourceInput) : M Source :=
  got ← attempt (ApplicationBySlug env tenantID (in_ApplicationSlug i));
  match got with
  | Err _ => raise (With ErrNotFound "application" (in_ApplicationSlug i))
  | Ok app =>
      let kind := or_default (in_Kind i) KindHTTP in
      let format := or_default (in_Format i) Catalog.FormatJSON in
      let status := or_default (in_Status i) StatusActive in
      if bool_decide (in_Name i = ""%string) then raise (With ErrInvalidArgument "name" "required")
      else if negb (bool_decide (kind = KindHTTP)) then raise (With (With ErrInvalidArgument "kind" kind) "expected" KindHTTP)
      else if negb (either format Catalog.FormatJSON Catalog.FormatCSV)
      then raise (With (With ErrInvalidArgument "format" format) "expected" (Catalog.FormatJSON ++ " or " ++ Catalog.FormatCSV))
      else if negb (either status StatusActive StatusDisabled) then raise (With ErrInvalidArgument "status" status)
      else if negb (fd_valid fd (in_ConfigJSON i)) then raise (With ErrInvalidArgument "config" "not JSON")
      else if negb (in_IntervalSeconds i =? 0)%Z && (in_IntervalSeconds i <? 300)%Z
      then raise (With (With ErrInvalidArgument "interval_seconds" (Strconv.Itoa (in_IntervalSeconds i)))
                    "minimum" "300 — a catalog is a document, not a data feed")
      else mret {| sr_ID := ""; sr_TenantID := tenantID; sr_ApplicationID := al_ID app; sr_ApplicationSlug := al_Slug app; sr_Kind := kind;
                   sr_Format := format; sr_Status := status; sr_Name := in_Name i; sr_Config := in_ConfigJSON i;
                   sr_IntervalSeconds := in_IntervalSeconds i; sr_LastRunAt := None; sr_NextRunAt := None; sr_LastStatus := "" |}
  end.

Definition CreateSourceH (i : SourceInput) : M Source :=
  p ← Require ac permApply;
  src ← validate (TenantID p) i;
  id ← CreateSource env w src;
  _ ← emit ac p "catalog.source.create" id (<["application" := in_ApplicationSlug i]> (<["kind" := sr_Kind src]> (<["format" := sr_Format src]>
        {["interval_seconds" := Strconv.Itoa (sr_IntervalSeconds src)]})));
  SourceByID env (TenantID p) id.

Definition with_id (src : Source) (id : string) : Source := {|
  sr_ID := id; sr_TenantID := sr_TenantID src; sr_ApplicationID := sr_ApplicationID src; sr_ApplicationSlug := sr_ApplicationSlug src; sr_Kind := sr_Kind src;
  sr_Format := sr_Format src; sr_Status := sr_Status src; sr_Name := sr_Name src; sr_Config := sr_Config src; sr_IntervalSeconds := sr_IntervalSeconds src;
  sr_LastRunAt := sr_LastRunAt src; sr_NextRunAt := sr_NextRunAt src; sr_LastStatus := sr_LastStatus src |}.
(** The application a source writes to is fixed at creation. *)
Definition same_application (i : SourceInput) (slug : string) : SourceInput := {|
  in_ID := in_ID i; in_ApplicationSlug := slug; in_Name := in_Name i; in_Kind := in_Kind i; in_Format := in_Format i; in_Status := in_Status i;
  in_ConfigJSON := in_ConfigJSON i; in_IntervalSeconds := in_IntervalSeconds i |}.
Definition UpdateSourceH (i : SourceInput) : M Source :=
  p ← Require ac permApply;
  if bool_decide (in_ID i = ""%string) then raise (With ErrInvalidArgument "id" "required")
  else
    existing ← SourceByID env (TenantID p) (in_ID i);
    src ← validate (TenantID p) (same_application i (sr_ApplicationSlug existing));
    _ ← UpdateSource env w (with_id src (in_ID i));
    _ ← emit ac p "catalog.source.update" (in_ID i) (<["application" := sr_ApplicationSlug src]> (<["status" := sr_Status src]>
          {["interval_seconds" := Strconv.Itoa (sr_IntervalSeconds src)]}));
    SourceByID env (TenantID p) (in_ID i).

Definition DeleteSourceH (sourceID : string) : M unit :=
  p ← Require ac permApply;
  src ← SourceByID env (TenantID p) sourceID;
  _ ← DeleteSource env (TenantID p) sourceID;
  emit ac p "catalog.source.delete" sourceID (<["application" := sr_ApplicationSlug src]> {["name" := sr_Name src]}).

Definition RunSource (sourceID : string) (dry : bool) : M (option Run) :=
  p ← Require ac permApply;
  src ← SourceByID env (TenantID p) sourceID;
  if negb (bool_decide (sr_Status src = StatusActive)) then raise (With ErrInvalidArgument "source" "disabled")
  else run_source src (or_default (IdentityID p) ActorSystem) dry.

Fixpoint run_each (l : list Source) : M nat :=
  match l with
  | [] => mret 0%nat
  | src :: r => _ ← attempt (F := Error) (run_source src ActorSystem false); n ← run_each r; mret (S n)
  end.
Definition RunDue (at_ : Time) (limit : Z) : M nat :=
  due ← DueSources env at_ (if (limit <=? 0)%Z || (dueBatch <? limit)%Z then dueBatch else limit);
  run_each due.

End App.

End CatalogSync.
