(* ===== verification/RoleProps.v ===== *)
(** What the handlers of roles leave: what a role is given ([RoleProps]), what
    every statement keeps ([RoleKeeps]), what a handler keeps from one
    transaction to the next ([RoleTheorems]), and what a feed's statements touch
    ([SourceProps]). *)

From Stdlib Require Import ZArith Lia Bool Ascii String.
From stdpp Require Import base gmap strings list sorting relations.
From S2P Require Import Prelude.
From S2P Require Import Triples.
From S2P Require Import GoStrings.
From S2P Require Import GoConv.
From S2P Require Import Shared.
From S2P Require Import AuthStore.
From S2P Require Import AdminGuard.
From S2P Require Import ScopeTree.
From S2P Require Import TreeProps.
From S2P Require Import Db.
From S2P Require Import MemberStore.
From S2P Require Import MemberAdmin.
From S2P Require Import Catalog.
From S2P Require Import Roles.
From S2P Require Import RoleAdmin.

(** * What the recomputation of a role leaves, what replacing a role's place in the
    graph leaves, and the rules for reasoning inside and outside a transaction. *)
Module RoleProps.
Import Apperr Pg Db RoleGraph Roles RoleStore.
Import ScopeTree (find_row, first_of).

(** ** Flat roles *)

(** [v] gives [r] the permission [p]: [r] is [v] or has it above it, and [v]
    names [p]. *)
Definition via (t : Tables) (r p v : string) : Prop :=
  rtc (edge (t_parents t)) r v /\ exists row, t_perms t !! p = Some row /\ named t v p row = true.

(** What is stored of [r] is what the graph gives it, each from a role that does
    give it. *)
Definition flat_at (t : Tables) (r : string) : Prop :=
  (forall p v, t_effective t !! (r, p) = Some v -> via t r p v) /\ (forall p v, via t r p v -> is_Some (t_effective t !! (r, p))).

Lemma pick_elem w l v : pick w l = Some v -> v ∈ l.
Proof.
  unfold pick. destruct l as [|x l]; [done|]. generalize (wo_via w (x :: l)). intros k H.
  assert (v = nth (k mod length (x :: l)) (x :: l) x) as -> by congruence. apply list_elem_of_In, nth_In, Nat.mod_upper_bound. done.
Qed.
Lemma pick_some w l v : v ∈ l -> is_Some (pick w l).
Proof. destruct l; [by intros ?%not_elem_of_nil|]. intros _. unfold pick. eauto. Qed.

Lemma elem_of_candidates t r p row v : v ∈ candidates t r p row <-> rtc (edge (t_parents t)) r v /\ named t v p row = true.
Proof. unfold candidates. rewrite list_elem_of_In, filter_In, <- list_elem_of_In, elem_of_ancestors. done. Qed.

Lemma lookup_computed w t r p : computed w t r !! p = match t_perms t !! p with Some row => pick w (candidates t r p row) | None => None end.
Proof. unfold computed. rewrite map_lookup_imap. by destruct (t_perms t !! p). Qed.

Lemma computed_via w t r p v : computed w t r !! p = Some v -> via t r p v.
Proof.
  rewrite lookup_computed. destruct (t_perms t !! p) as [row|] eqn:E; [|done]. intros [H1 H2]%pick_elem%elem_of_candidates. split; eauto.
Qed.
Lemma via_computed w t r p v : via t r p v -> is_Some (computed w t r !! p).
Proof. intros [H1 (row & E & H2)]. rewrite lookup_computed, E. eapply pick_some, elem_of_candidates. eauto. Qed.

Lemma lookup_set_effective eff r mine s p :
  set_effective eff r mine !! (s, p) = if bool_decide (s = r) then mine !! p else eff !! (s, p).
Proof.
  unfold set_effective. case_bool_decide as E.
  - subst. destruct (mine !! p) as [v|] eqn:Em.
    + apply lookup_union_Some_l. rewrite lookup_kmap by (intros ?? [=]; done). done.
    + rewrite lookup_union_r; [|rewrite lookup_kmap by (intros ?? [=]; done); done].
      apply map_lookup_filter_None. right. intros x _ H. by apply H.
  - rewrite lookup_union_r.
    + destruct (eff !! (s, p)) as [v|] eqn:Ee; [by apply map_lookup_filter_Some|]. apply map_lookup_filter_None. by left.
    + apply lookup_kmap_None; [intros ?? [=]; done|]. by intros ? [= -> _].
Qed.

Definition recomputed (w : World) (t : Tables) (r : string) : Tables := with_effective t (set_effective (t_effective t) r (computed w t r)).

Lemma recompute_sql w r (P : Tables -> Prop) : sql P (role_recompute_effective w r) (fun _ t' => exists t, P t /\ t' = recomputed w t r).
Proof.
  intros t n [] t' n' HP H. unfold role_recompute_effective in H. apply bind_ok in H as (mine & [t1 n1] & [= <- <- <-] & H).
  apply bind_ok in H as ([] & [t2 n2] & H1 & [= <- <-]). unfold must in H1. cbn in H1. destruct (_ || _); [|done]. injection H1 as <- <-. by exists t.
Qed.

Lemma recomputed_flat w t r : flat_at (recomputed w t r) r.
Proof.
  split; intros p v.
  - cbn. rewrite lookup_set_effective, bool_decide_eq_true_2 by done. intros [H1 H2]%computed_via. split; [exact H1|exact H2].
  - intros H. cbn. rewrite lookup_set_effective, bool_decide_eq_true_2 by done. eapply (via_computed w t r). exact H.
Qed.
Lemma recomputed_else w t r s p : s <> r -> t_effective (recomputed w t r) !! (s, p) = t_effective t !! (s, p).
Proof. intros H. cbn. by rewrite lookup_set_effective, bool_decide_eq_false_2. Qed.

(** The graph, the permissions and what is stored of [r] decide whether it is
    flat. *)
Lemma flat_at_same t t' r : (forall p v, via t r p v <-> via t' r p v) -> (forall p, t_effective t' !! (r, p) = t_effective t !! (r, p)) ->
  flat_at t r -> flat_at t' r.
Proof. intros Hv He [H1 H2]. split; intros p v; [rewrite He; intros H; by apply Hv, H1|intros H%Hv; rewrite He; by eapply H2]. Qed.

(** ** Inside a transaction

    A rollback undoes what an error leaves, so nothing is asked of it. *)
Definition ht {A} (W : Tables -> Prop) (m : Eff (Store Tables) Error A) (R : A -> Tables -> Prop) : Prop :=
  forall s a s', W (st_tables s) -> m s = (Ok a, s') -> R a (st_tables s').

Section Inside.
Context (env : Env).

Lemma ht_bind {A B} W (m : Eff (Store Tables) Error A) mid (f : A -> Eff (Store Tables) Error B) R :
  ht W m mid -> (forall a, ht (mid a) (f a) R) -> ht W (m ≫= f) R.
Proof. intros Hm Hf s b s' HW H. apply bind_ok in H as (a & s1 & H1 & H2). eapply Hf; [|exact H2]. by eapply Hm. Qed.
Lemma ht_ret {A} W (a : A) (R : A -> Tables -> Prop) : (forall t, W t -> R a t) -> ht W (mret a) R.
Proof. intros H s b s' HW [= <- <-]. auto. Qed.
Lemma ht_raise {A} W e (R : A -> Tables -> Prop) : ht W (raise e) R.
Proof. by intros s b s' HW. Qed.
Lemma ht_lift {A} W (r : result Error A) (R : A -> Tables -> Prop) : (forall a t, r = Ok a -> W t -> R a t) -> ht W (lift r) R.
Proof. intros H s b s' HW [= -> <-]. auto. Qed.
Lemma ht_weaken {A} W W' (m : Eff (Store Tables) Error A) (R R' : A -> Tables -> Prop) :
  ht W' m R' -> (forall t, W t -> W' t) -> (forall a t, R' a t -> R a t) -> ht W m R.
Proof. intros H H1 H2 s a s' HW E. eapply H2, H; [by apply H1|exact E]. Qed.
Lemma ht_run {A} W (q : (nat -> string) -> Sql_ Tables A) (R : A -> Tables -> Prop) :
  (forall k, sql W (q (ev_id env k)) R) -> ht W (run env q) R.
Proof.
  intros Hq s a s' HW H. unfold run in H. apply statement_ok in H as (t & n & H & _ & _ & Ht). eapply Hq in H; [|done].
  destruct (st_tx s); [destruct Ht as [_ Ht]|..]; by rewrite Ht.
Qed.
Lemma ht_ask {A} W (f : Tables -> A) (R : A -> Tables -> Prop) : (forall t, W t -> R (f t) t) -> ht W (ask env f) R.
Proof. intros H. apply ht_run. intros k. by apply sql_query. Qed.
Lemma ht_tx {A} W (m : Eff (Store Tables) Error A) (R : A -> Tables -> Prop) : ht W m R -> ht W (Tx env m) R.
Proof.
  intros Hm s a s' HW H. unfold Tx in H. destruct (decide (st_tx s = NoTx)) as [Hx|Hx].
  - apply transaction_ok in H as (s1 & H & _ & _ & Ht & _); [|done]. rewrite Ht. by eapply Hm; [|exact H].
  - rewrite transaction_joins in H by done. by eapply Hm.
Qed.
Lemma ht_with_uuid {A} W id (k : string -> Eff (Store Tables) Error A) R :
  (forall c, Uuid.canon id = Some c -> ht W (k c) R) -> ht W (with_uuid id k) R.
Proof. intros H. unfold with_uuid. destruct (Uuid.canon id); [by apply H|apply ht_raise]. Qed.
Lemma ht_found {A} W what (m : Eff (Store Tables) Error (option A)) (R : A -> Tables -> Prop) :
  ht W m (fun o t => forall a, o = Some a -> R a t) -> ht W (found what m) R.
Proof. intros H. eapply ht_bind; [exact H|]. intros [a|]; [apply ht_ret; intros t Ha; by apply Ha|apply ht_raise]. Qed.
Lemma ht_each {A} (I : list A -> Tables -> Prop) (f : A -> Eff (Store Tables) Error unit) l :
  (forall done x todo, l = done ++ x :: todo -> ht (I done) (f x) (fun _ => I (done ++ [x]))) -> ht (I []) (each f l) (fun _ => I l).
Proof.
  intros H. assert (forall todo d, l = d ++ todo -> ht (I d) (each f todo) (fun _ => I l)) as G; [|by apply (G l [])].
  induction todo as [|x todo IH]; intros d ->.
  - apply ht_ret. intros t. by rewrite app_nil_r.
  - simpl. eapply ht_bind; [by eapply H|]. intros []. apply IH. by rewrite <- app_assoc.
Qed.
(** What is so of the tables it starts from. *)
Lemma ht_at {A} (W : Tables -> Prop) (m : Eff (Store Tables) Error A) R : (forall t, W t -> ht (fun t' => t' = t) m R) -> ht W m R.
Proof. intros H s a s' HW E. by eapply (H _ HW). Qed.
(** What is left besides. *)
Lemma ht_pure {A} (P : Prop) W (m : Eff (Store Tables) Error A) R : (P -> ht W m R) -> ht (fun t => P /\ W t) m R.
Proof. intros H s a s' [HP HW] E. by eapply H. Qed.

End Inside.

(** Walks a piece of SQL whose effect is written out. *)
Ltac sql_go := repeat sql_step ltac:(fail).

(** *** A uuid printed is a uuid printed again *)
Lemma lower_digit a : HexCodec.fromHexChar (to_lower a) = HexCodec.fromHexChar a.
Proof. by destruct a as [[] [] [] [] [] [] [] []]. Qed.
Lemma lower_decode s : HexCodec.Decode (str_lower s) = HexCodec.Decode s.
Proof.
  enough (forall n s, (String.length s <= n)%nat -> HexCodec.Decode (str_lower s) = HexCodec.Decode s) as H by (by apply (H (String.length s))).
  clear s. induction n as [|n IH]; intros [|a [|b s]]; simpl; intros H; try done; [lia|]. rewrite !lower_digit, IH by lia. done.
Qed.
Lemma lower_take n s : str_lower (str_take n s) = str_take n (str_lower s).
Proof. revert n. induction s as [|a s IH]; intros [|n]; simpl; [done..|]. by rewrite IH. Qed.
Lemma lower_drop n s : str_lower (str_drop n s) = str_drop n (str_lower s).
Proof. revert n. induction s as [|a s IH]; intros [|n]; simpl; done. Qed.
Lemma lower_app s t : str_lower (s ++ t) = (str_lower s ++ str_lower t)%string.
Proof. induction s as [|a s IH]; simpl; [done|]. by rewrite !str_app_cons, <- IH. Qed.
Lemma lower_length s : String.length (str_lower s) = String.length s.
Proof. induction s as [|a s IH]; simpl; [done|]. by rewrite IH. Qed.
Lemma lower_dash s i : Uuid.dash_at (str_lower s) i = Uuid.dash_at s i.
Proof.
  unfold Uuid.dash_at. apply bool_decide_ext. revert i. induction s as [|a s IH]; intros [|i]; simpl; [done|done| |apply IH].
  destruct a as [[] [] [] [] [] [] [] []]; done.
Qed.
Lemma canon_stays s c : Uuid.canon s = Some c -> Uuid.canon c = Some c.
Proof.
  unfold Uuid.canon. destruct (Uuid.ParseUUID s) eqn:E; [|done]. intros [= <-]. rewrite str_lower_again.
  assert (Uuid.ParseUUID (str_lower s) = Uuid.ParseUUID s) as ->; [|by rewrite E].
  unfold Uuid.ParseUUID. rewrite lower_length, !lower_dash. destruct (negb _); [done|].
  by rewrite <- !lower_drop, <- !lower_take, <- !lower_app, lower_decode.
Qed.

(** ** A role's place in the graph replaced *)

(** The tables but for the graph, the patterns and what is stored of it. *)
Definition same_but_graph (t t' : Tables) : Prop :=
  t_apps t' = t_apps t /\ t_perms t' = t_perms t /\ t_roles t' = t_roles t /\ t_direct t' = t_direct t /\ t_routes t' = t_routes t /\
  t_sources t' = t_sources t /\ t_runs t' = t_runs t.

(** What [r] names is replaced; what every other role names stays. *)
Definition replaced (r : string) (now_named : string -> Prop) (s s' : gset (string * string)) : Prop :=
  forall x y, (x, y) ∈ s' <-> (x <> r /\ (x, y) ∈ s) \/ (x = r /\ now_named y).

Record regraphed (r : string) (ps : string -> Prop) (pts : list string) (t t' : Tables) : Prop := {
  rg_same : same_but_graph t t';
  rg_parents : replaced r ps (t_parents t) (t_parents t');
  rg_patterns : replaced r (fun p => p ∈ pts) (t_patterns t) (t_patterns t');
  rg_flat s : s = r \/ tc (edge (t_parents t')) s r -> flat_at t' s;
  rg_else s p : s <> r -> ~ tc (edge (t_parents t')) s r -> t_effective t' !! (s, p) = t_effective t !! (s, p)
}.

Lemma named_same t t' v p row : ((v, p) ∈ t_direct t' <-> (v, p) ∈ t_direct t) -> (forall y, (v, y) ∈ t_patterns t' <-> (v, y) ∈ t_patterns t) ->
  named t' v p row = named t v p row.
Proof.
  intros Hd Hp. unfold named. f_equal. rewrite (bool_decide_ext _ _ Hd). f_equal. apply eq_bool_prop_intro. rewrite !Is_true_true, !existsb_exists. split.
  - intros ([x y] & Hin & H). apply andb_true_iff in H as [E%bool_decide_eq_true H]. subst x. exists (v, y). split.
    + apply list_elem_of_In, elem_of_elements, Hp, elem_of_elements. by apply list_elem_of_In.
    + by rewrite bool_decide_eq_true_2.
  - intros ([x y] & Hin & H). apply andb_true_iff in H as [E%bool_decide_eq_true H]. subst x. exists (v, y). split.
    + apply list_elem_of_In, elem_of_elements, Hp, elem_of_elements. by apply list_elem_of_In.
    + by rewrite bool_decide_eq_true_2.
Qed.

(** But for what [r] itself names, nothing that decides what roles are given has
    changed. *)
Record same_off (r : string) (t t' : Tables) : Prop := {
  so_perms : t_perms t' = t_perms t;
  so_parents x y : x <> r -> (x, y) ∈ t_parents t' <-> (x, y) ∈ t_parents t;
  so_patterns x y : x <> r -> (x, y) ∈ t_patterns t' <-> (x, y) ∈ t_patterns t;
  so_direct x y : x <> r -> (x, y) ∈ t_direct t' <-> (x, y) ∈ t_direct t
}.

(** A role that does not reach the changed one is given what it was given. *)
Lemma off_via r t t' s p v : same_off r t t' -> s <> r -> ~ tc (edge (t_parents t')) s r -> via t s p v <-> via t' s p v.
Proof.
  intros [Hp Hpar Hpat Hdir] Hne Hn.
  assert (forall y z, y <> r -> edge (t_parents t) y z <-> edge (t_parents t') y z) as Hsame.
  { intros y z Hy. symmetry. by apply Hpar. }
  unfold via. rewrite (rtc_off _ _ _ _ _ Hsame Hn Hne), Hp.
  assert (forall row, rtc (edge (t_parents t')) s v -> named t v p row = named t' v p row) as Hnm.
  { intros row Hreach. assert (v <> r) by (intros ->; apply rtc_tc in Hreach as [->|]; done). symmetry. apply named_same; [by apply Hdir|].
    intros y. by apply Hpat. }
  split; intros [H1 (row & H2 & H3)]; (split; [done|]); exists row; (split; [done|]); [rewrite <- Hnm|rewrite Hnm]; done.
Qed.

(** So what was flat is flat once the changed role and those below it are. *)
Lemma off_flat r t t' s : same_off r t t' -> (forall x, x = r \/ tc (edge (t_parents t')) x r -> flat_at t' x) ->
  (forall x p, x <> r -> ~ tc (edge (t_parents t')) x r -> t_effective t' !! (x, p) = t_effective t !! (x, p)) -> flat_at t s -> flat_at t' s.
Proof.
  intros Ho Hf He Hs. destruct (decide (s = r)) as [->|Hne]; [by apply Hf; left|].
  destruct (decide (s ∈ roles_below (t_parents t') r)) as [Hb|Hb].
  - apply Hf. right. by apply elem_of_roles_below in Hb.
  - assert (~ tc (edge (t_parents t')) s r) as Hn by (intros Ht; by apply Hb, elem_of_roles_below).
    eapply flat_at_same; [intros p v; by eapply off_via|intros p; by eapply He|done].
Qed.

Lemma regraphed_off r ps pts t t' : regraphed r ps pts t t' -> same_off r t t'.
Proof. intros [(Ha & Hp & Hr & Hd & _) Hpar Hpat _ _]. constructor; [done|intros x y Hx..|by rewrite Hd]; [rewrite (Hpar x y)|rewrite (Hpat x y)]; naive_solver. Qed.
Lemma regraphed_flat r ps pts t t' s : regraphed r ps pts t t' -> flat_at t s -> flat_at t' s.
Proof. intros H. apply (off_flat r); [by eapply regraphed_off|apply (rg_flat _ _ _ _ _ H)|apply (rg_else _ _ _ _ _ H)]. Qed.

(** *** applyRoleGraph *)
Section ApplyGraph.
Context (env : Env) (w : World).

Lemma elem_of_without_role r s x y : (x, y) ∈ without r s <-> x <> r /\ (x, y) ∈ s.
Proof. unfold without. by rewrite elem_of_filter. Qed.

Lemma replaced_none r s : replaced r (fun _ => False) s (without r s).
Proof. intros x y. rewrite elem_of_without_role. naive_solver. Qed.
Lemma replaced_more r (P Q : string -> Prop) s s' p : replaced r P s s' -> (forall y, Q y <-> P y \/ y = p) -> replaced r Q s ({[(r, p)]} ∪ s').
Proof. intros H HQ x y. rewrite elem_of_union, elem_of_singleton, (H x y), HQ. naive_solver. Qed.
Lemma replaced_ext r (P Q : string -> Prop) s s' : replaced r P s s' -> (forall y, Q y <-> P y) -> replaced r Q s s'.
Proof. intros H HQ x y. rewrite (H x y), HQ. done. Qed.

(** What a row that was inserted names, of a list. *)
Lemma snoc_named {A} (f : A -> option string) done x p : f x = Some p ->
  forall y, (exists a, a ∈ done ++ [x] /\ f a = Some y) <-> (exists a, a ∈ done /\ f a = Some y) \/ y = p.
Proof.
  intros Hx y. split.
  - intros (a & [Ha| ->%list_elem_of_singleton]%elem_of_app & E); [left; eauto|right; congruence].
  - intros [(a & Ha & E)| ->]; [exists a|exists x]; split; try done; apply elem_of_app; [by left|right; by apply list_elem_of_singleton].
Qed.

(** An insert that is checked, and then changes the tables. *)
Lemma insert_sql (P : Tables -> Prop) check f (R : unit -> Tables -> Prop) :
  (forall t, P t -> check t = None -> R tt (f t)) -> sql P (_ ← must check; change f) R.
Proof.
  intros H. eapply (sql_bind _ _ (fun _ t => P t /\ check t = None)); [by apply sql_must|].
  intros []. apply sql_change. intros t [HP Hc]. by apply H.
Qed.

Definition uuids (l : list string) (p : string) : Prop := exists x, x ∈ l /\ Uuid.canon x = Some p.

Lemma set_parents t0 id ps : ht (fun t => t = t0) (SetRoleParents env id ps)
  (fun _ t => exists r E, Uuid.canon id = Some r /\ t = with_parents t0 E /\ replaced r (uuids ps) (t_parents t0) E).
Proof.
  apply ht_tx. eapply (ht_bind _ _ (fun _ t => exists r E, Uuid.canon id = Some r /\ t = with_parents t0 E /\ replaced r (uuids []) (t_parents t0) E)).
  - apply ht_with_uuid. intros c Hc. apply ht_run. intros k. apply sql_change. intros t ->. exists c, (without c (t_parents t0)).
    split; [done|]. split; [done|]. eapply replaced_ext; [apply replaced_none|]. intros y. split; [|done]. by intros (x & ?%not_elem_of_nil & _).
  - intros [].
    apply (ht_each (fun l t => exists r E, Uuid.canon id = Some r /\ t = with_parents t0 E /\ replaced r (uuids l) (t_parents t0) E)).
    intros done x todo _. apply ht_with_uuid. intros c Hc. apply ht_with_uuid. intros pc Hpc. apply ht_run. intros k.
    apply insert_sql. intros t (r & E & Hr & -> & HE) _. rewrite Hc in Hr. injection Hr as <-. eexists c, _. split; [done|]. split; [done|].
    eapply replaced_more; [exact HE|]. intros y. by apply snoc_named.
Qed.

Lemma set_patterns t0 id pts : ht (fun t => t = t0) (SetRolePatterns env id pts)
  (fun _ t => exists r E, Uuid.canon id = Some r /\ t = with_patterns t0 E /\ replaced r (fun p => p ∈ pts) (t_patterns t0) E).
Proof.
  apply ht_tx. eapply (ht_bind _ _ (fun _ t => exists r E, Uuid.canon id = Some r /\ t = with_patterns t0 E /\ replaced r (fun p => p ∈ []) (t_patterns t0) E)).
  - apply ht_with_uuid. intros c Hc. apply ht_run. intros k. apply sql_change. intros t ->. exists c, (without c (t_patterns t0)).
    split; [done|]. split; [done|]. eapply replaced_ext; [apply replaced_none|]. intros y. split; [|done]. by intros ?%not_elem_of_nil.
  - intros [].
    apply (ht_each (fun l t => exists r E, Uuid.canon id = Some r /\ t = with_patterns t0 E /\ replaced r (fun p => p ∈ l) (t_patterns t0) E)).
    intros done x todo _. apply ht_with_uuid. intros c Hc. apply ht_run. intros k.
    apply insert_sql. intros t (r & E & Hr & -> & HE) _. rewrite Hc in Hr. injection Hr as <-. eexists c, _. split; [done|]. split; [done|].
    eapply replaced_more; [exact HE|]. intros y. by rewrite elem_of_app, list_elem_of_singleton.
Qed.

Lemma set_permissions t0 id l : ht (fun t => t = t0) (SetRolePermissions env id l)
  (fun _ t => exists r E, Uuid.canon id = Some r /\ t = with_direct t0 E /\ replaced r (uuids l) (t_direct t0) E).
Proof.
  apply ht_tx. eapply (ht_bind _ _ (fun _ t => exists r E, Uuid.canon id = Some r /\ t = with_direct t0 E /\ replaced r (uuids []) (t_direct t0) E)).
  - apply ht_with_uuid. intros c Hc. apply ht_run. intros k. apply sql_change. intros t ->. exists c, (without c (t_direct t0)).
    split; [done|]. split; [done|]. eapply replaced_ext; [apply replaced_none|]. intros y. split; [|done]. by intros (x & ?%not_elem_of_nil & _).
  - intros [].
    apply (ht_each (fun l t => exists r E, Uuid.canon id = Some r /\ t = with_direct t0 E /\ replaced r (uuids l) (t_direct t0) E)).
    intros done x todo _. apply ht_with_uuid. intros c Hc. apply ht_with_uuid. intros pc Hpc. apply ht_run. intros k.
    apply insert_sql. intros t (r & E & Hr & -> & HE) _. rewrite Hc in Hr. injection Hr as <-. eexists c, _. split; [done|]. split; [done|].
    eapply replaced_more; [exact HE|]. intros y. by apply snoc_named.
Qed.

(** A set of roles recomputed: those are flat, the others as they were. *)
Definition flattened (rs : string -> Prop) (t t' : Tables) : Prop :=
  exists eff, t' = with_effective t eff /\ (forall s, rs s -> flat_at t' s) /\ forall s p, ~ rs s -> eff !! (s, p) = t_effective t !! (s, p).

Lemma flattened_more (P Q : string -> Prop) t t' r : flattened P t t' -> (forall s, Q s <-> P s \/ s = r) -> flattened Q t (recomputed w t' r).
Proof.
  intros (eff & -> & Hf & He) HQ. exists (set_effective eff r (computed w (with_effective t eff) r)). split; [done|]. split.
  - intros s Hs. destruct (decide (s = r)) as [->|Hne]; [apply recomputed_flat|]. apply HQ in Hs as [Hs|Hs]; [|done].
    eapply flat_at_same; [|intros p; by apply recomputed_else|by apply Hf]. done.
  - intros s p Hs. rewrite lookup_set_effective, bool_decide_eq_false_2; [apply He|]; intros H; apply Hs, HQ; auto.
Qed.
Lemma flattened_ext (P Q : string -> Prop) t t' : flattened P t t' -> (forall s, Q s <-> P s) -> flattened Q t t'.
Proof.
  intros (eff & -> & Hf & He) HQ. exists eff. split; [done|]. split; [intros s Hs; by apply Hf, HQ|]. intros s p Hs. apply He. by rewrite <- HQ.
Qed.

Lemma recompute_ht t0 (P Q : string -> Prop) id : (forall r, Uuid.canon id = Some r -> forall s, Q s <-> P s \/ s = r) ->
  ht (flattened P t0) (RecomputeRole env w id) (fun _ => flattened Q t0).
Proof.
  intros HQ. apply ht_with_uuid. intros r Hr. apply ht_run. intros k. eapply sql_weaken; [apply recompute_sql|done|].
  intros [] t (t1 & H1 & ->). cbn beta in H1. eapply flattened_more; [exact H1|]. by apply HQ.
Qed.

(** Ids of the graph are as they print. *)
Definition printed (E : Edges) : Prop := forall x p, (x, p) ∈ E -> Uuid.canon x = Some x.

Lemma recompute_below t0 id r : printed (t_parents t0) -> Uuid.canon id = Some r ->
  ht (flattened (fun s => s = r) t0) (below ← RolesBelow env id; each (RecomputeRole env w) below)
     (fun _ => flattened (fun s => s = r \/ tc (edge (t_parents t0)) s r) t0).
Proof.
  intros Hprint Hr. eapply (ht_bind _ _ (fun below t => (forall x, x ∈ below <-> tc (edge (t_parents t0)) x r) /\ flattened (fun s => s = r) t0 t)).
  - apply ht_with_uuid. intros c Hc. apply ht_ask. intros t Ht. split; [|done]. intros x.
    assert (c = r) as -> by congruence. destruct Ht as (eff & -> & _). rewrite elem_of_elements. apply elem_of_roles_below.
  - intros below. apply ht_pure. intros Hb. eapply (ht_weaken _ (flattened (fun s => s = r \/ s ∈ []) t0) _ _ (fun _ => flattened (fun s => s = r \/ s ∈ below) t0)).
    + apply (ht_each (fun l => flattened (fun s => s = r \/ s ∈ l) t0)). intros done x todo Hd. apply recompute_ht. intros c Hc s.
      assert (x ∈ below) as Hx by (rewrite Hd; set_solver). apply Hb in Hx. assert (exists y, (x, y) ∈ t_parents t0) as [y Hy] by (destruct Hx; eauto).
      apply Hprint in Hy. assert (c = x) as -> by congruence. rewrite elem_of_app, list_elem_of_singleton. tauto.
    + intros t H. eapply flattened_ext; [exact H|]. intros s. rewrite elem_of_nil. tauto.
    + intros _ t H. eapply flattened_ext; [exact H|]. intros s. cbv beta. by rewrite (Hb s).
Qed.

Lemma replaced_printed r P E E' : replaced r P E E' -> Uuid.canon r = Some r -> printed E -> printed E'.
Proof. intros H Hr HE x p [[_ Hx]|[-> _]]%H; [by eapply HE|done]. Qed.

Lemma apply_graph t0 id ps pts : printed (t_parents t0) ->
  ht (fun t => t = t0) (RoleAdmin.applyRoleGraph env w id ps pts)
     (fun _ t => exists r, Uuid.canon id = Some r /\ regraphed r (uuids ps) pts t0 t).
Proof.
  intros Hprint. eapply ht_bind; [apply set_parents|]. intros []. intros s1 a s' (r & E & Hr & Ht1 & HE).
  assert (Uuid.canon r = Some r) as Hr' by (by eapply canon_stays).
  revert s1 a s' Ht1. change (ht (fun t => t = with_parents t0 E) (_ ← SetRolePatterns env id pts; _ ← RecomputeRole env w id;
    below ← RolesBelow env id; each (RecomputeRole env w) below) (fun _ t => exists r, Uuid.canon id = Some r /\ regraphed r (uuids ps) pts t0 t)).
  eapply ht_bind; [apply set_patterns|]. intros []. intros s2 a s' (r2 & F & Hr2 & Ht2 & HF). assert (r2 = r) as -> by congruence.
  set (t1 := with_patterns (with_parents t0 E) F) in *.
  revert s2 a s' Ht2. change (ht (fun t => t = t1) (_ ← RecomputeRole env w id; below ← RolesBelow env id; each (RecomputeRole env w) below)
    (fun _ t => exists r, Uuid.canon id = Some r /\ regraphed r (uuids ps) pts t0 t)).
  eapply (ht_bind _ _ (fun _ => flattened (fun s => s = r) t1)).
  - apply (ht_weaken _ (flattened (fun _ => False) t1) _ _ (fun _ => flattened (fun s => s = r) t1)); [apply recompute_ht| |].
    + intros c Hc s. cbv beta. assert (c = r) as -> by congruence. split; [by right|intros [|]; done].
    + intros t ->. exists (t_effective t1). split; [by destruct t1|]. by split.
    + done.
  - intros []. eapply ht_weaken; [apply (recompute_below t1 id r); [|done]|done|].
    + cbn. by eapply replaced_printed.
    + intros _ t (eff & -> & Hf & He). exists r. split; [done|]. split; cbn; [done|done|done|intros s Hs; by apply Hf|].
      intros s p Hne Hn. apply He. intros [|]; done.
Qed.

End ApplyGraph.

End RoleProps.

(** * The catalogue at all times: what every statement leaves of the tables'
    constraints, and what the handlers leave of them and of the flat roles. *)
Module RoleKeeps.
Import Apperr Pg Db RoleGraph Roles RoleStore RoleProps.
Import ScopeTree (find_row, some_row, first_of).
Import Links (some_row_true, some_row_false).

(** ** Tables of rows *)

Definition has {A} (m : gmap string A) (id : string) : Prop := is_Some (m !! id).
(** No two rows have the same [f]. *)
Definition uniq {A B} (f : A -> B) (m : gmap string A) : Prop := forall i j a b, m !! i = Some a -> m !! j = Some b -> f a = f b -> i = j.
(** An id is as its column prints it. *)
Definition prints {A} (m : gmap string A) : Prop := forall id, has m id -> Uuid.canon id = Some id.

Lemma has_insert {A} (m : gmap string A) i a j : has m j -> has (<[i := a]> m) j.
Proof. unfold has. rewrite lookup_insert_is_Some'. by right. Qed.
Lemma uniq_insert {A B} (f : A -> B) m i a : uniq f m -> (forall j b, m !! j = Some b -> f b = f a -> j = i) -> uniq f (<[i := a]> m).
Proof.
  intros Hu Hn i1 i2 a1 a2. rewrite !lookup_insert_Some. intros [[-> ->]|[H1 Ha]] [[-> ->]|[H2 Hb]] E; try done.
  - symmetry. by eapply Hn.
  - by eapply Hn.
  - by eapply Hu.
Qed.
Lemma uniq_imap {A B} (f : A -> B) (g : string -> A -> A) m : (forall id a, f (g id a) = f a) -> uniq f m -> uniq f (map_imap (fun id a => Some (g id a)) m).
Proof.
  intros Hg Hu i j a b. rewrite !map_lookup_imap. intros (a0 & Ha & [= <-])%bind_Some (b0 & Hb & [= <-])%bind_Some. rewrite !Hg. by eapply Hu.
Qed.
Lemma uniq_filter {A B} (f : A -> B) (P : string * A -> Prop) `{forall x, Decision (P x)} m : uniq f m -> uniq f (filter P m).
Proof. intros Hu i j a b [Ha _]%map_lookup_filter_Some [Hb _]%map_lookup_filter_Some. by eapply Hu. Qed.
Lemma lookup_imap_rows {A} (g : string -> A -> A) (m : gmap string A) i : map_imap (fun id a => Some (g id a)) m !! i = g i <$> m !! i.
Proof. rewrite map_lookup_imap. by destruct (m !! i). Qed.
Lemma prints_insert {A} (m : gmap string A) i a : prints m -> Uuid.canon i = Some i -> prints (<[i := a]> m).
Proof. intros Hm Hi id [H|H]%lookup_insert_is_Some; [by rewrite <- H|]. destruct H. by apply Hm. Qed.

Lemma find_row_spec {A} (p : string -> A -> bool) (m : gmap string A) :
  match find_row p m with
  | Some (i, a) => m !! i = Some a /\ p i a = true
  | None => forall i a, m !! i = Some a -> p i a = false
  end.
Proof.
  destruct (find_row p m) as [[i a]|] eqn:E; [by apply TreeProps.Whole.find_row_some|by apply TreeProps.Whole.find_row_none].
Qed.

(** ** The constraints *)
Definition app_is (apps : gmap string AppRow) (id tenant slug : string) : Prop :=
  exists a, apps !! id = Some a /\ ap_Tenant a = tenant /\ ap_Slug a = slug.
Definition in_tenant (apps : gmap string AppRow) (id tenant : string) : Prop := exists slug, app_is apps id tenant slug.

Definition app_name (a : AppRow) : string * string := (ap_Tenant a, ap_Slug a).
Definition perm_ident (p : PermRow) : string * string * string := (pm_App p, pm_Resource p, pm_Action p).
Definition perm_name (p : PermRow) : string * string := (pm_Tenant p, pm_key p).
Definition role_ident (r : RoleRow) : string * string := (ro_Tenant r, ro_Name r).
Definition route_slot (r : RouteRow) : string * Z := (rt_App r, rt_Priority r).

Definition apps_ok (apps : gmap string AppRow) : Prop := uniq app_name apps /\ prints apps /\ map_Forall (fun _ a => (ap_Version a < 2 ^ 31)%Z) apps.
Definition perms_ok (apps : gmap string AppRow) (perms : gmap string PermRow) : Prop :=
  uniq perm_ident perms /\ uniq perm_name perms /\ prints perms /\
  map_Forall (fun _ p => app_is apps (pm_App p) (pm_Tenant p) (pm_AppSlug p) /\ perm_checks p = None) perms.
Definition roles_ok (apps : gmap string AppRow) (roles : gmap string RoleRow) : Prop :=
  uniq role_ident roles /\ prints roles /\ map_Forall (fun _ r => forall a, ro_Application r = Some a -> in_tenant apps a (ro_Tenant r)) roles.
Definition graph_ok (roles : gmap string RoleRow) (ps : gset (string * string)) : Prop :=
  forall r p, (r, p) ∈ ps -> r <> p /\ has roles r /\ has roles p.
Definition patterns_ok (roles : gmap string RoleRow) (pts : gset (string * string)) : Prop :=
  forall r p, (r, p) ∈ pts -> has roles r /\ pattern_ok p = true.
Definition direct_ok (roles : gmap string RoleRow) (perms : gmap string PermRow) (ds : gset (string * string)) : Prop :=
  forall r p, (r, p) ∈ ds -> has roles r /\ has perms p.
Definition effective_ok (roles : gmap string RoleRow) (perms : gmap string PermRow) (eff : gmap (string * string) string) : Prop :=
  forall r p v, eff !! (r, p) = Some v -> has roles r /\ has perms p /\ has roles v.
Definition routes_ok (apps : gmap string AppRow) (perms : gmap string PermRow) (routes : gmap string RouteRow) : Prop :=
  uniq route_slot routes /\
  map_Forall (fun _ r => route_checks r = None /\ in_tenant apps (rt_App r) (rt_Tenant r) /\ forall p, rt_Permission r = Some p -> has perms p) routes.

Record Whole (t : Tables) : Prop := {
  wh_apps : apps_ok (t_apps t);
  wh_perms : perms_ok (t_apps t) (t_perms t);
  wh_roles : roles_ok (t_apps t) (t_roles t);
  wh_graph : graph_ok (t_roles t) (t_parents t);
  wh_patterns : patterns_ok (t_roles t) (t_patterns t);
  wh_direct : direct_ok (t_roles t) (t_perms t) (t_direct t);
  wh_effective : effective_ok (t_roles t) (t_perms t) (t_effective t);
  wh_routes : routes_ok (t_apps t) (t_perms t) (t_routes t)
}.

Lemma whole_printed t : Whole t -> printed (t_parents t).
Proof. intros Hw r p H. destruct (wh_graph _ Hw _ _ H) as (_ & Hr & _). apply (wh_roles _ Hw), Hr. Qed.

(** Rows of roles or permissions that stay; others may come. *)
Definition grows {A} (m m' : gmap string A) : Prop := forall id, has m id -> has m' id.
Lemma links_grow t roles perms : Whole t -> grows (t_roles t) roles -> grows (t_perms t) perms ->
  graph_ok roles (t_parents t) /\ patterns_ok roles (t_patterns t) /\ direct_ok roles perms (t_direct t) /\ effective_ok roles perms (t_effective t).
Proof.
  intros Hw Hr Hp. split; [|split; [|split]].
  - intros r p (?&?&?)%(wh_graph _ Hw). auto.
  - intros r p (?&?)%(wh_patterns _ Hw). auto.
  - intros r p (?&?)%(wh_direct _ Hw). auto.
  - intros r p v (?&?&?)%(wh_effective _ Hw). auto.
Qed.

Lemma whole_roles t roles : Whole t -> grows (t_roles t) roles -> roles_ok (t_apps t) roles -> Whole (with_roles t roles).
Proof.
  intros Hw Hg Hr. destruct (links_grow t roles (t_perms t) Hw Hg (fun _ H => H)) as (?&?&?&?). destruct Hw. by constructor.
Qed.
Lemma whole_perms t perms : Whole t -> grows (t_perms t) perms -> perms_ok (t_apps t) perms -> Whole (with_perms t perms).
Proof.
  intros Hw Hg Hp. destruct (links_grow t (t_roles t) perms Hw (fun _ H => H) Hg) as (?&?&?&?). destruct Hw as [?????? ? [Hu Hf]]. constructor; try done.
  split; [done|]. intros i r Hi. destruct (Hf _ _ Hi) as (?&?&Hx). split; [done|]. split; [done|]. intros p E. by apply Hg, Hx.
Qed.

(** ** The statements *)
Section Statements.
Context (now : Time) (w : World) (ids : nat -> string).
Hypothesis ids_print : forall n, Uuid.canon (ids n) = Some (ids n).

Definition kept {A} (q : Sql_ Tables A) : Prop := sql Whole q (fun _ => Whole).

(** A row that is checked, given an id and put in. *)
Lemma fresh_row_sql {A} (P : Tables -> Prop) check (f : string -> Tables -> Tables) (k : string -> A) (R : A -> Tables -> Prop) :
  (forall t i, P t -> Uuid.canon i = Some i -> check i t = None -> R (k i) (f i t)) ->
  sql P (id ← fresh ids; _ ← must (check id); _ ← change (f id); mret (k id)) R.
Proof using ids_print.
  intros H. eapply (sql_bind _ _ (fun i t => P t /\ Uuid.canon i = Some i)).
  { intros t n i t' n' HP [= <- <- <-]. by split. }
  intros i. eapply (sql_bind _ _ (fun _ t => P t /\ Uuid.canon i = Some i /\ check i t = None)).
  { apply sql_must. intros t [HP Hi] Hc. done. }
  intros []. eapply (sql_bind _ _ (fun _ => R (k i))); [apply sql_change; intros t (HP & Hi & Hc); by apply H|]. intros []. apply sql_ret. done.
Qed.

Lemma role_named_none t tenant name : role_named t tenant name = None -> forall j r, t_roles t !! j = Some r -> role_ident r <> (tenant, name).
Proof.
  unfold role_named. intros H j r Hj [= E1 E2]. pose proof (find_row_spec (fun _ r => bool_decide (ro_Tenant r = tenant) && bool_decide (ro_Name r = name)) (t_roles t)) as Hs.
  rewrite H in Hs. specialize (Hs _ _ Hj). cbn beta in Hs. by rewrite !bool_decide_eq_true_2 in Hs.
Qed.
Lemma role_named_some t tenant name i r : role_named t tenant name = Some (i, r) -> t_roles t !! i = Some r /\ role_ident r = (tenant, name).
Proof.
  unfold role_named. intros H. pose proof (find_row_spec (fun _ r => bool_decide (ro_Tenant r = tenant) && bool_decide (ro_Name r = name)) (t_roles t)) as Hs.
  rewrite H in Hs. destruct Hs as [Hi Hp]. unbool. unfold role_ident. by subst.
Qed.

Lemma role_fkeys_ok t r : role_fkeys w t r = None -> forall a, ro_Application r = Some a -> in_tenant (t_apps t) a (ro_Tenant r).
Proof.
  unfold role_fkeys. destruct (negb _); [done|]. intros H a Ha. rewrite Ha in H. destruct (has_app t a (ro_Tenant r)) eqn:E; [|done].
  unfold has_app in E. destruct (t_apps t !! a) as [ap|] eqn:Eap; [|done]. unbool. exists (ap_Slug ap), ap. done.
Qed.

Lemma roles_insert apps roles i r : roles_ok apps roles -> (forall j s, roles !! j = Some s -> role_ident s = role_ident r -> j = i) ->
  Uuid.canon i = Some i -> (forall a, ro_Application r = Some a -> in_tenant apps a (ro_Tenant r)) -> roles_ok apps (<[i := r]> roles).
Proof.
  intros (Hu & Hp & Hf) Hn Hi Ha. split; [by apply uniq_insert|]. split; [by apply prints_insert|]. by apply map_Forall_insert_2.
Qed.

(** A new role; [Q] of it for the callers that ask. *)
Lemma insert_role_sql (P : Tables -> Prop) r (R : string -> Tables -> Prop) :
  (forall t i, P t -> Uuid.canon i = Some i -> t_roles t !! i = None -> (forall j s, t_roles t !! j = Some s -> role_ident s <> role_ident r) ->
     (forall a, ro_Application r = Some a -> in_tenant (t_apps t) a (ro_Tenant r)) -> R i (with_roles t (<[i := r]> (t_roles t)))) ->
  sql P (insert_role w ids r) R.
Proof using ids_print.
  intros H. unfold insert_role. apply (fresh_row_sql P _ (fun i t => with_roles t (<[i := r]> (t_roles t))) (fun i => i)).
  intros t i HP Hi Hc. case_bool_decide as Hn; [done|]. apply eq_None_not_Some in Hn. destruct (role_named _ _ _) eqn:E; [done|].
  apply H; [done..|by apply role_named_none|by apply role_fkeys_ok].
Qed.
Lemma keep_insert_role r : kept (insert_role w ids r).
Proof using ids_print.
  apply insert_role_sql. intros t i Hw Hi Hnone Hnew Ha. apply whole_roles; [done|intros j; by apply has_insert|].
  apply roles_insert; [apply (wh_roles _ Hw)| |done|done]. intros j s Hj E. by destruct (Hnew _ _ Hj).
Qed.

(** A role rewritten under the same name. *)
Lemma whole_role_edit t i r r' : Whole t -> t_roles t !! i = Some r -> role_ident r' = role_ident r -> ro_Application r' = ro_Application r ->
  Whole (with_roles t (<[i := r']> (t_roles t))).
Proof.
  intros Hw Hi Hn Ha. apply whole_roles; [done|intros j; by apply has_insert|]. apply roles_insert; [apply (wh_roles _ Hw)|..].
  - intros j s Hj E. eapply (wh_roles _ Hw); [exact Hj|exact Hi|congruence].
  - apply (wh_roles _ Hw). by exists r.
  - intros a. rewrite Ha. assert (ro_Tenant r' = ro_Tenant r) as -> by (unfold role_ident in Hn; congruence). intros E. by eapply (wh_roles _ Hw).
Qed.

Lemma keep_update_role id tenant description kinds assignable : kept (update_role id tenant description kinds assignable).
Proof.
  apply sql_change. intros t Hw. destruct (t_roles t !! id) as [r|] eqn:E; [|done]. destruct (_ && _); [|done]. by eapply whole_role_edit.
Qed.

Lemma keep_upsert_system_role tenant name description app kinds : kept (upsert_system_role w ids tenant name description app kinds).
Proof using ids_print.
  unfold upsert_system_role. eapply (sql_bind _ _ (fun o t => Whole t /\ forall i r, o = Some (i, r) -> t_roles t !! i = Some r)).
  { apply sql_query. intros t Hw. split; [done|]. intros i r E. by eapply role_named_some. }
  intros [[i r]|].
  - destruct (_ && _); [|by apply sql_ret; intros t [? _]]. eapply (sql_bind _ _ (fun _ => Whole)); [|intros []; by apply sql_ret].
    apply sql_change. intros t [Hw Hi]. by eapply whole_role_edit; [|by apply Hi|..].
  - eapply (sql_bind _ _ (fun _ => Whole)); [|intros ?; by apply sql_ret]. eapply sql_weaken; [apply keep_insert_role|by intros t [? _]|done].
Qed.

Lemma grows_imap {A} (g : string -> A -> A) (m : gmap string A) : grows m (map_imap (fun id a => Some (g id a)) m).
Proof. intros id [a H]. unfold has. rewrite lookup_imap_rows, H. by eexists. Qed.
Lemma prints_imap {A} (g : string -> A -> A) (m : gmap string A) : prints m -> prints (map_imap (fun id a => Some (g id a)) m).
Proof. intros Hp id [b H]. rewrite lookup_imap_rows in H. destruct (m !! id) eqn:E; [|done]. apply Hp. by eexists. Qed.

Lemma keep_deprecate_roles app keep : kept (deprecate_roles_except now app keep).
Proof.
  unfold deprecate_roles_except. eapply (sql_bind _ _ (fun _ => Whole)); [by apply sql_query|]. intros names.
  eapply (sql_bind _ _ (fun _ => Whole)); [|intros []; by apply sql_ret]. apply sql_change. intros t Hw.
  apply whole_roles; [done|apply grows_imap|]. destruct (wh_roles _ Hw) as (Hu & Hp & Hf). split; [|split].
  - apply uniq_imap; [|done]. intros id r. by destruct (retires _ _ _ _).
  - by apply prints_imap.
  - intros id r' H. rewrite lookup_imap_rows in H. apply fmap_Some in H as (r & Hr & ->). specialize (Hf _ _ Hr). by destruct (retires _ _ _ _).
Qed.

(** *** The graph, the patterns, the permissions named *)
Lemma whole_graph t E : Whole t -> graph_ok (t_roles t) E -> Whole (with_parents t E).
Proof. intros [] H. by constructor. Qed.
Lemma whole_patterns t E : Whole t -> patterns_ok (t_roles t) E -> Whole (with_patterns t E).
Proof. intros [] H. by constructor. Qed.
Lemma whole_direct t E : Whole t -> direct_ok (t_roles t) (t_perms t) E -> Whole (with_direct t E).
Proof. intros [] H. by constructor. Qed.

Lemma no_row_none {A} (m : gmap string A) id name : no_row m id name = None -> has m id.
Proof. unfold no_row. by case_bool_decide. Qed.
Lemma first_of_cons (x : option PgError) l : first_of (x :: l) = None -> x = None /\ first_of l = None.
Proof. simpl. by destruct x. Qed.

Lemma keep_delete_parents r : kept (delete_role_parents r).
Proof. apply sql_change. intros t Hw. apply whole_graph; [done|]. intros x p [_ H]%elem_of_without_role. by apply (wh_graph _ Hw). Qed.
Lemma keep_insert_parent r p : kept (insert_role_parent r p).
Proof.
  apply insert_sql. intros t Hw Hc. apply whole_graph; [done|]. intros x y [[= -> ->]%elem_of_singleton|H]%elem_of_union; [|by apply (wh_graph _ Hw)].
  case_bool_decide as Hne; [done|]. case_bool_decide as Hin; [by apply (wh_graph _ Hw)|].
  apply first_of_cons in Hc as [H1%no_row_none [H2%no_row_none _]%first_of_cons]. done.
Qed.
Lemma keep_delete_patterns r : kept (delete_role_patterns r).
Proof. apply sql_change. intros t Hw. apply whole_patterns; [done|]. intros x p [_ H]%elem_of_without_role. by apply (wh_patterns _ Hw). Qed.
Lemma keep_insert_pattern r p : kept (insert_role_pattern r p).
Proof.
  apply insert_sql. intros t Hw Hc. apply whole_patterns; [done|]. intros x y [[= -> ->]%elem_of_singleton|H]%elem_of_union; [|by apply (wh_patterns _ Hw)].
  destruct (pattern_ok p) eqn:Hp; [|done]. split; [|done]. cbn [negb] in Hc. case_bool_decide as Hin; [by apply (wh_patterns _ Hw) in Hin as [? _]|].
  by apply no_row_none in Hc.
Qed.
Lemma keep_delete_permissions r : kept (delete_role_permissions r).
Proof. apply sql_change. intros t Hw. apply whole_direct; [done|]. intros x p [_ H]%elem_of_without_role. by apply (wh_direct _ Hw). Qed.
Lemma keep_insert_permission r p : kept (insert_role_permission r p).
Proof.
  apply insert_sql. intros t Hw Hc. apply whole_direct; [done|]. intros x y [[= -> ->]%elem_of_singleton|H]%elem_of_union; [|by apply (wh_direct _ Hw)].
  case_bool_decide as Hin; [by apply (wh_direct _ Hw)|]. apply first_of_cons in Hc as [H1%no_row_none [H2%no_row_none _]%first_of_cons]. done.
Qed.

(** What names something exists. *)
Lemma named_exists t v p row : Whole t -> named t v p row = true -> has (t_roles t) v.
Proof.
  intros Hw H. unfold named in H. apply andb_true_iff in H as [_ H]. apply orb_true_iff in H as [H|H].
  - apply bool_decide_eq_true in H. by apply (wh_direct _ Hw) in H as [? _].
  - apply existsb_exists in H as ([x y] & Hin & H). unbool. subst. apply list_elem_of_In, elem_of_elements in Hin. by apply (wh_patterns _ Hw) in Hin as [? _].
Qed.
Lemma via_exists t r p v : Whole t -> via t r p v -> has (t_roles t) r /\ has (t_perms t) p /\ has (t_roles t) v.
Proof.
  intros Hw [Hr (row & Hp & Hn)]. pose proof (named_exists _ _ _ _ Hw Hn) as Hv. split; [|split; [by exists row|done]].
  destruct Hr as [|x y z Hxy _]; [done|]. by apply (wh_graph _ Hw) in Hxy as (_ & ? & _).
Qed.

Lemma keep_recompute r : kept (role_recompute_effective w r).
Proof.
  eapply sql_weaken; [apply (recompute_sql w r Whole)|done|]. intros [] t' (t & Hw & ->). unfold recomputed.
  assert (effective_ok (t_roles t) (t_perms t) (set_effective (t_effective t) r (computed w t r))) as He; [|destruct Hw; by constructor].
  intros s p v. rewrite lookup_set_effective. case_bool_decide as E; [|by apply (wh_effective _ Hw)].
  subst s. intros H%computed_via. by apply via_exists.
Qed.

(** *** Permissions *)
Lemma perm_at_some t app resource action i p : perm_at t app resource action = Some (i, p) -> t_perms t !! i = Some p /\ perm_ident p = (app, resource, action).
Proof.
  unfold perm_at. intros [H1 H2]%TreeProps.Whole.find_row_some. split; [done|]. unbool. unfold perm_ident. by subst.
Qed.
Lemma perm_at_none t app resource action : perm_at t app resource action = None -> forall j p, t_perms t !! j = Some p -> perm_ident p <> (app, resource, action).
Proof.
  unfold perm_at. intros H j p Hj [= <- <- <-]. pose proof (TreeProps.Whole.find_row_none _ _ H _ _ Hj) as E. cbn in E. by rewrite !bool_decide_eq_true_2 in E.
Qed.

(** A new permission passed its checks; a stored one is told again. *)
Lemma perm_fkeys_ok t p : perm_fkeys t p = None -> app_is (t_apps t) (pm_App p) (pm_Tenant p) (pm_AppSlug p).
Proof.
  unfold perm_fkeys. destruct (t_apps t !! pm_App p) as [a|] eqn:E; [|done]. case_bool_decide; [|done]. case_bool_decide; [|done]. intros _. by exists a.
Qed.

Lemma whole_perm_insert t i p : Whole t -> Uuid.canon i = Some i -> t_perms t !! i = None ->
  (forall j q, t_perms t !! j = Some q -> perm_ident q <> perm_ident p) -> (forall j q, t_perms t !! j = Some q -> perm_name q <> perm_name p) ->
  app_is (t_apps t) (pm_App p) (pm_Tenant p) (pm_AppSlug p) -> perm_checks p = None -> Whole (with_perms t (<[i := p]> (t_perms t))).
Proof.
  intros Hw Hi Hn H1 H2 Ha Hc. apply whole_perms; [done|intros j; by apply has_insert|]. destruct (wh_perms _ Hw) as (Hu & Hk & Hp & Hf).
  split; [apply uniq_insert; [done|intros j q Hj E; by destruct (H1 _ _ Hj)]|]. split; [apply uniq_insert; [done|intros j q Hj E; by destruct (H2 _ _ Hj)]|].
  split; [by apply prints_insert|]. by apply map_Forall_insert_2.
Qed.
Lemma whole_perm_edit t i old p : Whole t -> t_perms t !! i = Some old -> perm_checks p = None ->
  Whole (with_perms t (<[i := redescribed old p]> (t_perms t))).
Proof.
  intros Hw Hi Hc. apply whole_perms; [done|intros j; by apply has_insert|]. destruct (wh_perms _ Hw) as (Hu & Hk & Hp & Hf).
  split; [apply uniq_insert; [done|]; intros j q Hj E; by eapply Hu|]. split; [apply uniq_insert; [done|]; intros j q Hj E; by eapply Hk|].
  split; [apply prints_insert; [done|]; apply Hp; by exists old|]. apply map_Forall_insert_2; [|done]. split; [apply (Hf _ _ Hi)|done].
Qed.

(** What an upsert leaves, for those that ask. *)
Lemma upsert_permission_sql (P : Tables -> Prop) p (R : string * string -> Tables -> Prop) :
  (forall t i old, P t -> perm_checks p = None -> t_perms t !! i = Some old -> perm_ident old = perm_ident p ->
     R (i, pm_key old) (with_perms t (<[i := redescribed old p]> (t_perms t)))) ->
  (forall t i, P t -> perm_checks p = None -> Uuid.canon i = Some i -> t_perms t !! i = None ->
     (forall j q, t_perms t !! j = Some q -> perm_ident q <> perm_ident p) -> (forall j q, t_perms t !! j = Some q -> perm_name q <> perm_name p) ->
     app_is (t_apps t) (pm_App p) (pm_Tenant p) (pm_AppSlug p) -> R (i, pm_key p) (with_perms t (<[i := p]> (t_perms t)))) ->
  sql P (upsert_permission ids p) R.
Proof using ids_print.
  intros Hold Hnew. unfold upsert_permission. eapply (sql_bind _ _ (fun _ t => P t /\ perm_checks p = None)); [by apply sql_must|]. intros [].
  eapply (sql_bind _ _ (fun o t => (P t /\ perm_checks p = None) /\ o = perm_at t (pm_App p) (pm_Resource p) (pm_Action p))); [by apply sql_query|].
  intros [[i old]|].
  - eapply (sql_bind _ _ (fun _ => R (i, pm_key old))); [|intros []; by apply sql_ret]. apply sql_change. intros t [[HP Hc] E].
    symmetry in E. apply perm_at_some in E as [Hi E]. by apply Hold.
  - apply (fresh_row_sql _ _ (fun i t => with_perms t (<[i := p]> (t_perms t))) (fun i => (i, pm_key p))). intros t i [[HP Hc] E] Hi H.
    case_bool_decide as Hn; [done|]. apply eq_None_not_Some in Hn. destruct (some_row _ _) eqn:Es; [done|]. rewrite some_row_false in Es.
    apply Hnew; try done; [|intros j q Hj [= E1 E2]; specialize (Es _ _ Hj); cbn in Es; by rewrite !bool_decide_eq_true_2 in Es|by apply perm_fkeys_ok].
    by apply perm_at_none.
Qed.
Lemma keep_upsert_permission p : kept (upsert_permission ids p).
Proof using ids_print.
  apply upsert_permission_sql; intros t i; [intros old Hw Hc Hi _; by apply whole_perm_edit|intros; by apply whole_perm_insert].
Qed.

Lemma keep_deprecate_permissions app keep : kept (deprecate_permissions_except now app keep).
Proof.
  unfold deprecate_permissions_except. eapply (sql_bind _ _ (fun _ => Whole)); [by apply sql_query|]. intros keys.
  eapply (sql_bind _ _ (fun _ => Whole)); [|intros []; by apply sql_ret]. apply sql_change. intros t Hw.
  apply whole_perms; [done|apply grows_imap|]. destruct (wh_perms _ Hw) as (Hu & Hk & Hp & Hf). split; [|split; [|split]].
  - apply uniq_imap; [|done]. intros id p. by destruct (withdraws _ _ _ _).
  - apply uniq_imap; [|done]. intros id p. by destruct (withdraws _ _ _ _).
  - by apply prints_imap.
  - intros id p' H. rewrite lookup_imap_rows in H. apply fmap_Some in H as (p & Hr & ->). specialize (Hf _ _ Hr). by destruct (withdraws _ _ _ _).
Qed.

(** *** Routes and the version *)
Lemma keep_delete_routes app : kept (delete_routes app).
Proof.
  apply sql_change. intros t [????? ? ? [Hu Hf]]. constructor; try done. split; [by apply uniq_filter|]. intros i r [Hi _]%map_lookup_filter_Some. by apply (Hf _ _ Hi).
Qed.

Lemma route_insert_checks t i r : first_of [
        route_checks r;
        if bool_decide (is_Some (t_routes t !! i)) then Some (violated "23505" "route_policies_pkey") else None;
        if some_row (fun _ q => bool_decide (rt_App q = rt_App r) && bool_decide (rt_Priority q = rt_Priority r)) (t_routes t)
        then Some (violated "23505" "route_policies_application_id_priority_key") else None;
        match rt_Permission r with Some p => no_row (t_perms t) p "route_policies_permission_id_fkey" | None => None end;
        if has_app t (rt_App r) (rt_Tenant r) then None else Some (violated "23503" "route_policies_application_id_tenant_id_fkey")] = None ->
  route_checks r = None /\ t_routes t !! i = None /\ (forall j q, t_routes t !! j = Some q -> route_slot q <> route_slot r) /\
  (forall p, rt_Permission r = Some p -> has (t_perms t) p) /\ in_tenant (t_apps t) (rt_App r) (rt_Tenant r).
Proof.
  intros (H1 & (H2 & (H3 & (H4 & (H5 & _)%first_of_cons)%first_of_cons)%first_of_cons)%first_of_cons)%first_of_cons.
  split; [done|]. split; [by case_bool_decide as E; [done|apply eq_None_not_Some]|]. split; [|split].
  - destruct (some_row _ _) eqn:Es; [done|]. rewrite some_row_false in Es. intros j q Hj [= E1 E2]. specialize (Es _ _ Hj). cbn in Es.
    by rewrite !bool_decide_eq_true_2 in Es.
  - intros p E. rewrite E in H4. by eapply no_row_none.
  - unfold has_app in H5. destruct (t_apps t !! rt_App r) as [a|] eqn:Ea; [|done]. case_bool_decide; [|done]. by exists (ap_Slug a), a.
Qed.

Lemma insert_route_sql (P : Tables -> Prop) r (R : unit -> Tables -> Prop) :
  (forall t i, P t -> route_checks r = None -> t_routes t !! i = None -> (forall j q, t_routes t !! j = Some q -> route_slot q <> route_slot r) ->
     (forall p, rt_Permission r = Some p -> has (t_perms t) p) -> in_tenant (t_apps t) (rt_App r) (rt_Tenant r) ->
     R tt (with_routes t (<[i := r]> (t_routes t)))) ->
  sql P (insert_route ids r) R.
Proof.
  intros H. unfold insert_route. eapply (sql_bind _ _ (fun _ => P)); [by apply sql_fresh|]. intros i. apply insert_sql.
  intros t HP (?&?&?&?&?)%route_insert_checks. by apply H.
Qed.
Lemma keep_insert_route r : kept (insert_route ids r).
Proof.
  apply insert_route_sql. intros t i [????? ? ? [Hu Hf]] Hc Hn Hs Hp Ha. constructor; try done. split.
  - apply uniq_insert; [done|]. intros j q Hj E. by destruct (Hs _ _ Hj).
  - by apply map_Forall_insert_2.
Qed.

Lemma app_is_insert apps id a a' x tenant slug : apps !! id = Some a -> ap_Tenant a' = ap_Tenant a -> ap_Slug a' = ap_Slug a ->
  app_is apps x tenant slug -> app_is (<[id := a']> apps) x tenant slug.
Proof.
  intros Hi Ht Hs (b & Hb & <- & <-). destruct (decide (x = id)) as [->|Hne].
  - rewrite Hb in Hi. injection Hi as ->. exists a'. by rewrite lookup_insert_eq.
  - exists b. by rewrite lookup_insert_ne.
Qed.

Lemma keep_bump app : kept (bump_version app).
Proof.
  unfold bump_version. eapply (sql_bind _ _ (fun o t => Whole t /\ o = t_apps t !! app)); [by apply sql_query|]. intros [a|]; [|by apply sql_ret; intros t [? _]].
  eapply (sql_bind _ _ (fun _ t => (Whole t /\ Some a = t_apps t !! app) /\ (ap_Version a + 1 < 2 ^ 31)%Z)).
  { apply sql_must. intros t H. destruct (_ <? _)%Z eqn:E; [done|]. apply Z.ltb_ge in E. split; [done|lia]. }
  intros []. eapply (sql_bind _ _ (fun _ => Whole)); [|intros []; by apply sql_ret]. apply sql_change. intros t [[Hw Ha] Hv]. symmetry in Ha.
  assert (forall x tenant slug, app_is (t_apps t) x tenant slug -> app_is (<[app := at_version a (ap_Version a + 1)]> (t_apps t)) x tenant slug) as Hx.
  { intros x tenant slug. by eapply app_is_insert. }
  assert (forall x tenant, in_tenant (t_apps t) x tenant -> in_tenant (<[app := at_version a (ap_Version a + 1)]> (t_apps t)) x tenant) as Hy.
  { intros x tenant [slug H]. exists slug. by apply Hx. }
  destruct Hw as [(A1 & A2 & A3) (P1 & P2 & P3 & P4) (R1 & R2 & R3) ? ? ? ? [U F]]. constructor; cbn; try done.
  - split; [apply uniq_insert; [done|intros j b Hj E; by eapply A1]|]. split; [apply prints_insert; [done|]; apply A2; by exists a|].
    by apply map_Forall_insert_2.
  - split; [done|]. split; [done|]. split; [done|]. intros i p Hi. destruct (P4 _ _ Hi). split; [by apply Hx|done].
  - split; [done|]. split; [done|]. intros i r Hi b E. apply Hy. by eapply R3.
  - split; [done|]. intros i r Hi. destruct (F _ _ Hi) as (?&?&?). split; [done|]. split; [by apply Hy|done].
Qed.

End Statements.

End RoleKeeps.

(** * What the handlers of roles and of the catalogue leave, whatever is asked: the
    tables whole, and every role flat as long as no catalogue is applied. *)
Module RoleTheorems.
Import Apperr Authctx Pg Db RoleGraph Roles RoleStore RoleAdmin RoleProps RoleKeeps.
Import MemberAdmin (ACtx, ac_guard, ac_caller).
Import MemberStore (Text).

(** ** Between transactions *)
Section Outside.
Context (env : Env) (w : World) (tx : Text) (ac : ACtx) (Inv : Tables -> Prop).

Definition keeps {A} (m : Eff (Store Tables) Error A) : Prop :=
  forall s, st_tx s = NoTx -> Inv (st_tables s) -> st_tx (snd (m s)) = NoTx /\ Inv (st_tables (snd (m s))).

Lemma keeps_bind {A B} (m : Eff (Store Tables) Error A) (f : A -> Eff (Store Tables) Error B) : keeps m -> (forall a, keeps (f a)) -> keeps (m ≫= f).
Proof using.
  intros Hm Hf s Hx Hi. destruct (Hm s Hx Hi) as [Hx1 Hi1]. unfold mbind, eff_bind. destruct (m s) as [[a|e] s1]; [|done]. by apply Hf.
Qed.
Lemma keeps_same {A} (r : result Error A) : keeps (fun s => (r, s)).
Proof using. by intros s. Qed.
Lemma keeps_attempt {A} (m : Eff (Store Tables) Error A) : keeps m -> keeps (attempt (F := Error) m).
Proof using. intros H s Hx Hi. destruct (H s Hx Hi). unfold attempt. by destruct (m s). Qed.
Lemma keeps_uuid {A} id (k : string -> Eff (Store Tables) Error A) : (forall c, keeps (k c)) -> keeps (with_uuid id k).
Proof using. intros H. unfold with_uuid. destruct (Uuid.canon id); [apply H|apply keeps_same]. Qed.
Lemma keeps_found {A} what (m : Eff (Store Tables) Error (option A)) : keeps m -> keeps (found what m).
Proof using. intros H. apply keeps_bind; [done|]. intros [a|]; apply keeps_same. Qed.
Lemma keeps_ask {A} (f : Tables -> A) : keeps (ask env f).
Proof using.
  intros s Hx Hi. destruct (ask env f s) as [[a|e] s'] eqn:E; cbn.
  - apply statement_ok in E as (t & n & [= _ <- _] & Hx' & _ & Ht). rewrite Hx', Hx in *. destruct Ht as [_ ->]. done.
  - apply statement_err in E as (Ht & _ & Hx'). rewrite Ht. split; [by apply Hx'|done].
Qed.
Lemma keeps_tx {A} (m : Eff (Store Tables) Error A) : (forall t0, Inv t0 -> ht (fun t => t = t0) m (fun _ => Inv)) -> keeps (Tx env m).
Proof using.
  intros H s Hx Hi. destruct (Tx env m s) as [[a|e] s'] eqn:E; cbn.
  - apply transaction_ok in E as (s1 & E & _ & _ & Ht & Hx' & _); [|done]. rewrite Ht. split; [done|]. by eapply H; [exact Hi| |exact E].
  - apply transaction_err in E as [Ht Hx']; [|done]. by rewrite Ht.
Qed.
Lemma keeps_emit a action target detail : keeps (emitAs ac a action target detail).
Proof using. by intros s. Qed.

(** A dry run leaves the tables alone. *)
Lemma dry_run_same (m : Eff (Store Tables) Error Draft) s : st_tx s = NoTx ->
  st_tx (snd (DryRun env m s)) = NoTx /\ st_tables (snd (DryRun env m s)) = st_tables s.
Proof using. intros Hx. unfold DryRun. rewrite Hx. destruct (ev_fails _ _); [done|]. by destruct (m _) as [[d|e] s']. Qed.
Lemma keeps_dry_run m : keeps (DryRun env m).
Proof using. intros s Hx Hi. destruct (dry_run_same m s Hx) as [? ->]. done. Qed.

End Outside.

Ltac keeps_step leaf :=
  match goal with
  | |- forall _, keeps _ _ => intros ?
  | |- keeps _ (_ ≫= _) => apply keeps_bind
  | |- keeps _ (mret _) => apply keeps_same
  | |- keeps _ (raise _) => apply keeps_same
  | |- keeps _ (lift _) => apply keeps_same
  | |- keeps _ (Require _ _) => apply keeps_same
  | |- keeps _ (emit _ _ _ _ _) => apply keeps_emit
  | |- keeps _ (emitAs _ _ _ _ _) => apply keeps_emit
  | |- keeps _ (attempt _) => apply keeps_attempt
  | |- keeps _ (with_uuid _ _) => apply keeps_uuid
  | |- keeps _ (found _ _) => apply keeps_found
  | |- keeps _ (ask _ _) => apply keeps_ask
  | |- keeps _ (DryRun _ _) => apply keeps_dry_run
  | |- keeps _ (match ?x with _ => _ end) => destruct x
  | |- _ => leaf
  end.
Ltac keeps_with leaf := repeat keeps_step leaf.

(** *** Handlers that look *)
Section Looking.
Context (env : Env) (w : World) (tx : Text) (ac : ACtx) (Inv : Tables -> Prop).

Lemma keeps_of_each lookup ids : (forall id, keeps Inv (lookup id)) -> keeps Inv (of_each lookup ids).
Proof using. intros H. induction ids as [|id ids IH]; simpl; keeps_with ltac:(first [apply H|apply IH]). Qed.
Lemma keeps_ListRoles name : keeps Inv (ListRoles env tx ac name).
Proof using. unfold ListRoles, RoleStore.ListRoles. keeps_with ltac:(apply keeps_of_each; unfold RoleParents, RolePatterns). Qed.
Lemma keeps_GetRoleEffective id : keeps Inv (GetRoleEffective env tx ac id).
Proof using. unfold GetRoleEffective, RoleEffective. keeps_with fail. Qed.
Lemma keeps_ListPermissions slug deprecated : keeps Inv (RoleAdmin.ListPermissions env tx ac slug deprecated).
Proof using. unfold RoleAdmin.ListPermissions, ApplicationBySlug, RoleStore.ListPermissions. keeps_with fail. Qed.
End Looking.

(** *** Inside an apply: what failed is the draft's error *)
Definition ends_well (Q : Draft -> Tables -> Prop) (d : Draft) (t : Tables) : Prop := dr_err d = None -> Q d t.

Lemma ht_try {A} W report version (m : Eff (Store Tables) Error A) mid (k : A -> Eff (Store Tables) Error Draft) Q :
  ht W m mid -> (forall a, ht (mid a) (k a) (ends_well Q)) -> ht W (try report version m k) (ends_well Q).
Proof.
  intros Hm Hk s d s' HW E. unfold try in E. rewrite attempt_bind in E. destruct (m s) as [[a|e] s1] eqn:Em; cbn in E.
  - eapply Hk; [|exact E]. by eapply Hm.
  - injection E as <- <-. by intros H.
Qed.
Lemma ht_outcome W (m : Eff (Store Tables) Error Draft) Q : ht W m (ends_well Q) -> ht W (m ≫= outcome) (fun d t => dr_err d = None /\ Q d t).
Proof.
  intros Hm. eapply ht_bind; [exact Hm|]. intros d. unfold outcome. destruct (dr_err d) eqn:E; [apply ht_raise|]. apply ht_ret. intros t H. by split; [|apply H].
Qed.

(** ** The tables stay whole *)
Abbreviation htw m := (ht Whole m (fun _ => Whole)).

Ltac htw_step leaf :=
  match goal with
  | |- forall _, ht _ _ _ => intros ?
  | |- ht _ (_ ≫= _) _ => eapply (ht_bind _ _ (fun _ => Whole))
  | |- ht _ (mret _) _ => by apply ht_ret
  | |- ht _ (raise _) _ => by apply ht_raise
  | |- ht _ (lift _) _ => by apply ht_lift
  | |- ht _ (with_uuid _ _) _ => apply ht_with_uuid; intros ? _
  | |- ht _ (ask _ _) _ => by apply ht_ask
  | |- ht _ (run _ _) _ => apply ht_run; intros ?
  | |- ht _ (Tx _ _) _ => apply ht_tx
  | |- ht _ (each _ _) _ => apply (ht_each (fun _ => Whole)); intros ? ? ? _
  | |- ht _ (match ?x with _ => _ end) _ => destruct x
  | |- _ => leaf
  end.
Ltac htw_with leaf := repeat htw_step leaf.

Section StaysWhole.
Context (env : Env) (w : World) (tx : Text) (unmarshal : string -> option Catalog.Document) (ac : ACtx).
Hypothesis ids_print : forall k n, Uuid.canon (ev_id env k n) = Some (ev_id env k n).

Lemma w_graph id ps pts : htw (applyRoleGraph env w id ps pts).
Proof using.
  unfold applyRoleGraph, SetRoleParents, SetRolePatterns, RecomputeRole, RolesBelow.
  htw_with ltac:(first [apply keep_delete_parents|apply keep_insert_parent|apply keep_delete_patterns|apply keep_insert_pattern|apply keep_recompute]).
Qed.
Lemma w_CreateRole tenant r app : htw (RoleStore.CreateRole env w tenant r app).
Proof using ids_print. unfold RoleStore.CreateRole. htw_with ltac:(by apply keep_insert_role). Qed.
Lemma w_UpdateRole tenant r : htw (RoleStore.UpdateRole env tenant r).
Proof using. unfold RoleStore.UpdateRole. htw_with ltac:(apply keep_update_role). Qed.

Lemma whole_CreateRole r ps pts : keeps Whole (CreateRole env w ac r ps pts).
Proof using ids_print.
  unfold CreateRole, ApplicationBySlug, RoleByID. keeps_with ltac:(first [apply keeps_tx; intros t0 H0; apply (ht_weaken _ Whole _ _ (fun _ => Whole)); [|by intros ? ->|done]]).
  htw_with ltac:(first [apply w_CreateRole|apply w_graph]).
Qed.
Lemma whole_UpdateRole r ps pts : keeps Whole (UpdateRole env w ac r ps pts).
Proof using.
  unfold UpdateRole, RoleByID. keeps_with ltac:(first [apply keeps_tx; intros t0 H0; apply (ht_weaken _ Whole _ _ (fun _ => Whole)); [|by intros ? ->|done]]).
  htw_with ltac:(first [apply w_UpdateRole|apply w_graph]).
Qed.

Lemma w_upsert_all tenant app ps : forall keep keys, htw (upsert_all env w tenant app ps keep keys).
Proof using ids_print.
  induction ps as [|mp ps IH]; intros keep keys; simpl; [by apply ht_ret|]. unfold UpsertPermission. htw_with ltac:(first [apply IH|idtac]).
  eapply (sql_bind _ _ (fun _ => Whole)); [|intros age; by apply keep_upsert_permission]. by intros t n a t' n' Hw [= _ <- _].
Qed.
Lemma w_permissions tenant app existing ps keys : htw (permissions_section env w tenant app existing ps keys).
Proof using ids_print.
  unfold permissions_section, DeprecatePermissionsExcept. htw_with ltac:(first [apply w_upsert_all|apply keep_deprecate_permissions]).
Qed.
Lemma w_apply_role tenant app keys mr : htw (apply_role env w tenant app keys mr).
Proof using ids_print.
  unfold apply_role, UpsertSystemRole, SetRolePermissions, AddRolePermission.
  htw_with ltac:(first [apply w_graph|by apply keep_upsert_system_role|apply keep_delete_permissions|apply keep_insert_permission|
    apply ht_found, (ht_weaken _ Whole _ _ (fun _ => Whole)); [|done|done]]).
Qed.

Lemma w_apply_roles tenant app keys rs : forall keep, htw (apply_roles env w tenant app keys rs keep).
Proof using ids_print. induction rs as [|mr rs IH]; intros keep; simpl; htw_with ltac:(first [apply w_apply_role|apply IH]). Qed.
Lemma w_roles tenant app keys rs : htw (roles_section env w tenant app keys rs).
Proof using ids_print. unfold roles_section, DeprecateRolesExcept. htw_with ltac:(first [apply w_apply_roles|apply keep_deprecate_roles]). Qed.
Lemma w_routes tenant app keys rts : htw (routes_section env tenant app keys rts).
Proof using ids_print.
  unfold routes_section, ReplaceRoutePolicies, add_route. htw_with ltac:(first [apply keep_delete_routes|by apply keep_insert_route]).
Qed.
Lemma w_section {A B} (o : option A) (none : B) f : (forall a, htw (f a)) -> htw (section o none f).
Proof using. intros H. unfold section. destruct o; [apply H|by apply ht_ret]. Qed.
Lemma w_apply tenant app m r0 : ht Whole (apply env w tx tenant app m r0) (ends_well (fun _ => Whole)).
Proof using ids_print.
  unfold apply. repeat (eapply (ht_try _ _ _ _ (fun _ => Whole)); [|intros]).
  - unfold RoleStore.ListPermissions. htw_with fail.
  - apply w_section. intros ps. htw_with ltac:(apply w_permissions).
  - destruct a0 as [keys r1]. repeat (eapply (ht_try _ _ _ _ (fun _ => Whole)); [|intros]).
    + apply w_section. intros rs. htw_with ltac:(apply w_roles).
    + apply w_section. intros rts. htw_with ltac:(apply w_routes).
    + unfold BumpManifestVersion. htw_with ltac:(apply keep_bump).
    + apply ht_ret; by intros t H _.
Qed.

Lemma whole_applyCatalog actor slug document format dry : keeps Whole (applyCatalog env w tx unmarshal ac actor slug document format dry).
Proof using ids_print.
  unfold applyCatalog, ApplicationBySlug, for_good.
  keeps_with ltac:(first [apply keeps_tx; intros t0 H0; apply (ht_weaken _ Whole _ _ (fun _ => Whole)); [|by intros ? ->|done]]).
  eapply ht_weaken; [apply ht_outcome, w_apply|done|by intros d t [_ H]].
Qed.

End StaysWhole.

(** ** Flat roles stay flat *)
Definition AllFlat (t : Tables) : Prop := Whole t /\ forall r, flat_at t r.

Section StaysFlat.
Context (env : Env) (w : World) (tx : Text) (ac : ACtx).
Hypothesis ids_print : forall k n, Uuid.canon (ev_id env k n) = Some (ev_id env k n).

(** A role put in or edited changes what no role is given. *)
Definition graph_alone (t t' : Tables) : Prop :=
  t_parents t' = t_parents t /\ t_patterns t' = t_patterns t /\ t_direct t' = t_direct t /\ t_perms t' = t_perms t /\ t_effective t' = t_effective t.
Lemma graph_alone_flat t t' r : graph_alone t t' -> flat_at t r -> flat_at t' r.
Proof using.
  intros (Hp & Hpt & Hd & Hpm & He). apply flat_at_same; [|by rewrite He]. intros p v. unfold via, named. by rewrite Hp, Hpt, Hd, Hpm.
Qed.

(** What CreateRole and UpdateRole leave: rows of roles, then the graph. *)
Definition regraphed_from (r : string) (ps pts : list string) (t t' : Tables) : Prop :=
  exists t1, graph_alone t t1 /\ regraphed r (uuids ps) pts t1 t'.
Lemma regraphed_from_flat r ps pts t t' : regraphed_from r ps pts t t' -> (forall s, flat_at t s) -> forall s, flat_at t' s.
Proof using. intros (t1 & H1 & H2) H s. eapply regraphed_flat; [exact H2|]. by eapply graph_alone_flat. Qed.

Lemma graph_after {B} t0 (m : Eff (Store Tables) Error B) (id : B -> string) ps pts : Whole t0 ->
  ht (fun t => t = t0) m (fun _ t => Whole t /\ graph_alone t0 t) ->
  ht (fun t => t = t0) (b ← m; _ ← applyRoleGraph env w (id b) ps pts; mret b)
     (fun b t => Whole t /\ exists r, Uuid.canon (id b) = Some r /\ regraphed_from r ps pts t0 t).
Proof using.
  intros Hw Hm. eapply ht_bind; [exact Hm|]. intros b s1 b' s' [Hw1 Hg] E. apply bind_ok in E as ([] & s2 & E & [= <- <-]).
  split; [by eapply (w_graph env w); [exact Hw1|exact E]|].
  eapply (apply_graph env w (st_tables s1)) in E as (r & Hr & Hre); [|by apply whole_printed|done]. exists r. split; [done|]. by exists (st_tables s1).
Qed.

Lemma created tenant r app t0 : Whole t0 ->
  ht (fun t => t = t0) (RoleStore.CreateRole env w tenant r app) (fun _ t => Whole t /\ graph_alone t0 t).
Proof using ids_print.
  intros Hw. unfold RoleStore.CreateRole. apply ht_with_uuid. intros tid _.
  assert (forall a, ht (fun t => t = t0) (run env (fun ids => insert_role w ids {|
      ro_Tenant := tid; ro_Application := a; ro_IsSystem := rr_IsSystem r; ro_Name := rr_Name r; ro_Description := rr_Description r;
      ro_Assignable := rr_AssignableAt r; ro_Kinds := orDefaultKinds (rr_AllowedRealmKinds r); ro_DeprecatedAt := None |}))
    (fun _ t => Whole t /\ graph_alone t0 t)) as H.
  { intros a. apply ht_run. intros k. apply insert_role_sql; [apply ids_print|]. intros t i -> Hi Hnone Hnew Ha. split; [|done].
    apply whole_roles; [done|intros j; by apply has_insert|]. apply roles_insert; [apply (wh_roles _ Hw)| |done|done].
    intros j s Hj E. by destruct (Hnew _ _ Hj). }
  destruct (OptStr app); [|apply H]. apply ht_with_uuid. intros c _. apply H.
Qed.
Lemma updated tenant r t0 : Whole t0 ->
  ht (fun t => t = t0) (RoleStore.UpdateRole env tenant r) (fun _ t => Whole t /\ graph_alone t0 t).
Proof using.
  intros Hw. unfold RoleStore.UpdateRole. apply ht_with_uuid. intros c _. apply ht_with_uuid. intros tid _. apply ht_run. intros k.
  apply sql_change. intros t ->. destruct (t_roles t0 !! c) as [row|] eqn:E; [|done]. destruct (_ && _); [|done]. split; [by eapply whole_role_edit|done].
Qed.

Lemma flat_CreateRole r ps pts : keeps AllFlat (CreateRole env w ac r ps pts).
Proof using ids_print.
  unfold CreateRole, ApplicationBySlug, RoleByID. keeps_with ltac:(first [apply keeps_tx; intros t0 [Hw Hf]]).
  eapply ht_weaken; [apply (graph_after t0 _ (fun id => id)); [done|by apply created]|done|].
  intros id t (Hw' & c & _ & H). split; [done|]. by eapply regraphed_from_flat.
Qed.
Lemma flat_UpdateRole r ps pts : keeps AllFlat (UpdateRole env w ac r ps pts).
Proof using.
  unfold UpdateRole, RoleByID. keeps_with ltac:(first [apply keeps_tx; intros t0 [Hw Hf]]).
  eapply (ht_weaken _ (fun t => t = t0) _ _ (fun _ t => Whole t /\ exists c, Uuid.canon (rr_ID r) = Some c /\ regraphed_from c ps pts t0 t)); [|done|].
  - intros s u s' Ht E. eapply (graph_after t0 _ (fun _ => rr_ID r) ps pts); [done|by apply updated|exact Ht|].
    apply bind_ok in E as ([] & s1 & E1 & E2). unfold mbind, eff_bind. rewrite E1, E2. by destruct u.
  - intros u t (Hw' & c & _ & H). split; [done|]. by eapply regraphed_from_flat.
Qed.

End StaysFlat.

End RoleTheorems.

(** * Feeds: what their statements touch, and what holds of the tables around a
    run of one. *)
Module SourceProps.
Import Apperr Authctx Pg Db Roles RoleStore RoleAdmin RoleProps RoleKeeps RoleTheorems CatalogSync.
Import MemberAdmin (ACtx).
Import MemberStore (Text).

(** Nothing but the feeds and their runs has changed. *)
Definition feed_alone (t t' : Tables) : Prop := t' = with_runs (with_sources t (t_sources t')) (t_runs t').
#[export] Instance feed_alone_refl : Reflexive feed_alone.
Proof. by intros []. Qed.
#[export] Instance feed_alone_trans : Transitive feed_alone.
Proof. intros t t' t'' -> ->. done. Qed.
Lemma with_runs_alone t m : feed_alone t (with_runs t m).
Proof. by destruct t. Qed.
Lemma with_sources_alone t m : feed_alone t (with_sources t m).
Proof. by destruct t. Qed.
Lemma feed_alone_both t s r : feed_alone t (with_runs (with_sources t s) r).
Proof. by destruct t. Qed.
Create HintDb feeds.
#[export] Hint Resolve with_runs_alone with_sources_alone feed_alone_both feed_alone_refl : feeds.

Lemma feed_alone_whole t t' : feed_alone t t' -> Whole t -> Whole t'.
Proof. intros -> []. by constructor. Qed.
Lemma feed_alone_flat t t' : feed_alone t t' -> AllFlat t -> AllFlat t'.
Proof. intros H [Hw Hf]. split; [by eapply feed_alone_whole|]. intros r. specialize (Hf r). rewrite H. by destruct Hf. Qed.

(** ** Each statement *)
Section Statements.
Context (now : Time) (w : World) (ids : nat -> string).
Abbreviation alone m := (forall t0, sql (fun t => feed_alone t0 t) m (fun _ t => feed_alone t0 t)).

Lemma alone_jsonb s : alone (jsonb w s).
Proof using. intros t0. unfold jsonb. destruct (wo_jsonb w s); [by apply sql_ret|apply sql_refuse]. Qed.
Ltac alone_step :=
  match goal with
  | |- forall _, sql _ _ _ => intros ?
  | |- sql ?P (_ ≫= _) _ => eapply (sql_bind _ _ (fun _ => P))
  | |- sql _ (mret _) _ => by apply sql_ret
  | |- sql _ (refuse _) _ => apply sql_refuse
  | |- sql _ (query _) _ => by apply sql_query
  | |- sql _ (must _) _ => by apply sql_must
  | |- sql _ (fresh _) _ => by apply sql_fresh
  | |- sql _ (jsonb _ _) _ => apply alone_jsonb
  | |- sql _ (change _) _ => apply sql_change; intros ? ?; etrans; [eassumption|]; auto with feeds
  | |- sql _ (match ?x with _ => _ end) _ => destruct x
  end.

Lemma alone_insert tenant app kind format status name config interval : alone (insert_source now w ids tenant app kind format status name config interval).
Proof using. intros t0. unfold insert_source. repeat alone_step. Qed.
Lemma alone_update id tenant name status config format interval : alone (update_source now w id tenant name status config format interval).
Proof using. intros t0. unfold update_source. repeat alone_step. Qed.
Lemma alone_delete id tenant : alone (delete_source id tenant).
Proof using. intros t0. unfold delete_source. repeat alone_step. Qed.
Lemma alone_schedule id : alone (schedule_source now id).
Proof using. intros t0. unfold schedule_source. repeat alone_step. Qed.
Lemma alone_start source tenant actor dry : alone (start_run now w ids source tenant actor dry).
Proof using. intros t0. unfold start_run. repeat alone_step. Qed.
Lemma alone_finish id status digest report errMsg : alone (finish_run now w id status digest report errMsg).
Proof using. intros t0. unfold finish_run. repeat alone_step. Qed.
End Statements.
#[export] Hint Resolve alone_insert alone_update alone_delete alone_schedule alone_start alone_finish : feeds.

(** ** Each handler, for what the feeds do not bear on *)
Section Handlers.
Context (env : Env) (w : World) (tx : Text) (unmarshal : string -> option Catalog.Document) (ac : ACtx) (fd : Feed).
Context (Inv : Tables -> Prop).
Hypothesis elsewhere : forall t t', feed_alone t t' -> Inv t -> Inv t'.

Lemma keeps_run {A} (q : (nat -> string) -> Sql_ Tables A) :
  (forall ids t0, sql (fun t => feed_alone t0 t) (q ids) (fun _ t => feed_alone t0 t)) -> keeps Inv (run env q).
Proof using elsewhere.
  intros Hq s Hx Hi. destruct (run env q s) as [[a|e] s'] eqn:E; cbn.
  - apply statement_ok in E as (t & n & E & Hx' & _ & Ht). rewrite Hx', Hx in *. destruct Ht as [_ ->]. split; [done|].
    eapply elsewhere; [|exact Hi]. by eapply Hq; [|exact E].
  - apply statement_err in E as (Ht & _ & Hx'). rewrite Ht. split; [by apply Hx'|done].
Qed.
Lemma keeps_deferred {A} (m : Eff (Store Tables) Error A) d : keeps Inv m -> keeps Inv d -> keeps Inv (deferred m d).
Proof using. intros Hm Hd s Hx Hi. unfold deferred. destruct (Hm s Hx Hi) as [Hx1 Hi1]. destruct (m s) as [r s1]. by apply Hd. Qed.
Ltac feeds_with leaf := keeps_with ltac:(first [apply keeps_run; intros ?; by auto with feeds|apply keeps_deferred|leaf]).

Lemma keeps_ListRuns id limit : keeps Inv (ListRuns env id limit).
Proof using. unfold ListRuns. keeps_with fail. Qed.
Lemma keeps_lastRun id : keeps Inv (lastRun env id).
Proof using. unfold lastRun. keeps_with ltac:(apply keeps_ListRuns). Qed.
Lemma keeps_finish id status digest report errMsg : keeps Inv (finish env w id status digest report errMsg).
Proof using elsewhere. unfold finish, FinishRun. feeds_with fail. Qed.
Lemma keeps_StartRun id tenant actor dry : keeps Inv (StartRun env w id tenant actor dry).
Proof using elsewhere. unfold StartRun. feeds_with fail. Qed.
Lemma keeps_ScheduleNext id : keeps Inv (ScheduleNext env id).
Proof using elsewhere. unfold ScheduleNext. feeds_with fail. Qed.
Lemma keeps_SourceByID tenant id : keeps Inv (SourceByID env tenant id).
Proof using. unfold SourceByID. keeps_with fail. Qed.
Lemma keeps_validate tenant i : keeps Inv (validate env fd tenant i).
Proof using. unfold validate, ApplicationBySlug. keeps_with fail. Qed.

Lemma keeps_ListSourcesH : keeps Inv (ListSourcesH env tx ac).
Proof using. unfold ListSourcesH, ListSources. keeps_with fail. Qed.
Lemma keeps_ListRunsH id limit : keeps Inv (ListRunsH env ac id limit).
Proof using. unfold ListRunsH. keeps_with ltac:(first [apply keeps_SourceByID|apply keeps_ListRuns]). Qed.
Lemma keeps_CreateSourceH i : keeps Inv (CreateSourceH env w ac fd i).
Proof using elsewhere. unfold CreateSourceH, CreateSource. feeds_with ltac:(first [apply keeps_SourceByID|apply keeps_validate]). Qed.
Lemma keeps_UpdateSourceH i : keeps Inv (UpdateSourceH env w ac fd i).
Proof using elsewhere. unfold UpdateSourceH, UpdateSource, touched. feeds_with ltac:(first [apply keeps_SourceByID|apply keeps_validate]). Qed.
Lemma keeps_DeleteSourceH id : keeps Inv (DeleteSourceH env ac id).
Proof using elsewhere. unfold DeleteSourceH, DeleteSource, touched. feeds_with ltac:(apply keeps_SourceByID). Qed.

(** A run, if an apply keeps it. *)
Section Runs.
Context (dry : bool).
Hypothesis apply_keeps : forall tenant slug document format,
  keeps Inv (ApplyDocumentAsSystem env w tx unmarshal ac tenant slug document format dry).

Lemma keeps_run_source src actor : keeps Inv (run_source env w tx unmarshal ac fd src actor dry).
Proof using elsewhere apply_keeps.
  unfold run_source, carry_out, LastAppliedDigest.
  feeds_with ltac:(first [apply keeps_StartRun|apply keeps_finish|apply keeps_lastRun|apply keeps_ScheduleNext|apply apply_keeps]).
Qed.
Lemma keeps_RunSource id : keeps Inv (RunSource env w tx unmarshal ac fd id dry).
Proof using elsewhere apply_keeps. unfold RunSource. keeps_with ltac:(first [apply keeps_SourceByID|apply keeps_run_source]). Qed.
End Runs.

Lemma keeps_RunDue at_ limit :
  (forall tenant slug document format, keeps Inv (ApplyDocumentAsSystem env w tx unmarshal ac tenant slug document format false)) ->
  keeps Inv (RunDue env w tx unmarshal ac fd at_ limit).
Proof using elsewhere.
  intros Ha. unfold RunDue, DueSources. apply keeps_bind; [apply keeps_ask|]. intros due. induction due as [|src due IH]; simpl;
    keeps_with ltac:(first [by apply keeps_run_source|apply IH]).
Qed.

End Handlers.
End SourceProps.
