(* ===== verification/CatalogProps.v ===== *)
(** What applying a catalogue document leaves of permissions, roles and routes,
    section by section. *)

From Stdlib Require Import ZArith Lia Bool Ascii String.
From stdpp Require Import base gmap strings list sorting relations.
From S2P Require Import Prelude.
From S2P Require Import GoStrings.
From S2P Require Import GoConv.
From S2P Require Import Shared.
From S2P Require Import ScopeTree.
From S2P Require Import Db.
From S2P Require Import MemberStore.
From S2P Require Import Catalog.
From S2P Require Import Roles.
From S2P Require Import RoleAdmin.
From S2P Require Import RoleProps.

Module CatalogProps.
Import Apperr Pg Db RoleGraph Roles RoleStore RoleAdmin RoleProps RoleKeeps.
Import MemberStore (Text, tx_ToLower).
Import Catalog (ra, cp_key, cp_Resource, cp_Action, cp_MaxAuthAge, cr_Name, cr_Description, cr_Permissions, cr_Patterns, cr_AllowedRealmKinds,
  ct_Effect, ct_Permission, ct_Priority, ct_PathPattern, ct_HostPattern, ct_Methods, ct_ScopeBindings).

(** Ids that tables hold come back as they went. *)
Lemma canon_held {A} (m : gmap string A) l : prints m -> (forall x, x ∈ l -> has m x) -> mapM Uuid.canon l = Some l.
Proof.
  intros Hp Hl. apply mapM_Some. induction l as [|x l IH]; constructor; [apply Hp, Hl; by left|]. apply IH. intros y Hy. apply Hl. by right.
Qed.

Section Sections.
Context (env : Env) (w : World) (tx : Text).
Hypothesis ids_print : forall k n, Uuid.canon (ev_id env k n) = Some (ev_id env k n).
(** The caller's tenant, and the application as its row says. *)
Context (tenant tid app slug name : string) (version : Z).
Hypothesis tenant_is : Uuid.canon tenant = Some tid.
Hypothesis app_prints : Uuid.canon app = Some app.
Abbreviation record := {| al_ID := app; al_Slug := slug; al_Name := name; al_ManifestVersion := version |}.

(** ** Permissions *)

(** [p] is what the document says of [mp]. *)
Definition told (mp : Catalog.Permission) (p : PermRow) : Prop :=
  exists age, interval w (cp_MaxAuthAge mp) = Ok age /\ p = as_row tid app slug age (declared_permission mp).
Definition ident_of (mp : Catalog.Permission) : string * string * string := (app, cp_Resource mp, cp_Action mp).

(** What a role or a route means by [k]. *)
Definition means (perms : gmap string PermRow) (k id : string) : Prop :=
  exists p, perms !! id = Some p /\ pm_App p = app /\ ra (pm_Resource p) (pm_Action p) = k.

(** Rows stay who they are; those of other applications stay as they are. *)
Record perms_stay (m m' : gmap string PermRow) : Prop := {
  ps_rows id p : m !! id = Some p -> exists p', m' !! id = Some p' /\ perm_ident p' = perm_ident p /\ (pm_App p <> app -> p' = p);
  ps_others id p : m' !! id = Some p -> pm_App p <> app -> m !! id = Some p
}.

(** Between two rows of the document. *)
Record upserting (t0 : Tables) (done : list Catalog.Permission) (keep : list string) (keys : gmap string string) (t : Tables) : Prop := {
  up_whole : Whole t;
  up_only : t = with_perms t0 (t_perms t);
  up_stay : perms_stay (t_perms t0) (t_perms t);
  up_told mp : mp ∈ done -> exists id p, t_perms t !! id = Some p /\ id ∈ keep /\ told mp p;
  up_keep id : id ∈ keep -> exists p mp, t_perms t !! id = Some p /\ mp ∈ done /\ perm_ident p = ident_of mp;
  up_keys k id : keys !! k = Some id -> means (t_perms t) k id
}.

Lemma told_ident mp p : told mp p -> perm_ident p = ident_of mp.
Proof using. by intros (age & _ & ->). Qed.
Lemma ident_key mp mp' : ident_of mp = ident_of mp' -> cp_key mp = cp_key mp'.
Proof using. unfold cp_key. by intros [= -> ->]. Qed.

(** A stored permission of the application, told again. *)
Lemma told_again t i old mp age : Whole t -> t_perms t !! i = Some old -> perm_ident old = ident_of mp -> app_is (t_apps t) app tid slug ->
  redescribed old (as_row tid app slug age (declared_permission mp)) = as_row tid app slug age (declared_permission mp).
Proof using.
  intros Hw Hi Hid (a & Ha & Ht & Hs). destruct (wh_perms _ Hw) as (_ & _ & _ & Hf). destruct (Hf _ _ Hi) as [(b & Hb & Hbt & Hbs) _].
  unfold perm_ident, ident_of in Hid. injection Hid as H1 H2 H3. rewrite H1, Ha in Hb. injection Hb as <-.
  unfold redescribed, as_row. cbn. congruence.
Qed.

(** One row put in or rewritten. *)
Lemma upsert_step t0 done keep keys t mp i p : upserting t0 done keep keys t -> cp_key mp ∉ map cp_key done ->
  Whole (with_perms t (<[i := p]> (t_perms t))) -> told mp p ->
  (forall q, t_perms t !! i = Some q -> perm_ident q = ident_of mp) ->
  upserting t0 (done ++ [mp]) (keep ++ [i]) (<[cp_key mp := i]> keys) (with_perms t (<[i := p]> (t_perms t))).
Proof using.
  intros [Hw Ho [Hs1 Hs2] Ht Hk Hy] Hnew Hw' Hp Hi. pose proof (told_ident _ _ Hp) as Hpi.
  assert (forall mp' id q, mp' ∈ done -> t_perms t !! id = Some q -> perm_ident q = ident_of mp' -> id <> i) as Hne.
  { intros mp' id q Hin Hq Hid ->. apply Hnew, list_elem_of_fmap. exists mp'. split; [|done]. apply ident_key. rewrite <- (Hi _ Hq). done. }
  constructor; cbn.
  - done.
  - rewrite Ho at 1. done.
  - split.
    + intros id q (q' & Hq' & Hid & Hq)%Hs1. destruct (decide (id = i)) as [->|Hx].
      * exists p. rewrite lookup_insert_eq. split; [done|]. rewrite Hpi, <- (Hi _ Hq'). split; [done|]. intros Hna. exfalso. apply Hna.
        assert (perm_ident q = ident_of mp) as E by (rewrite <- Hid; by apply Hi). by injection E.
      * exists q'. by rewrite lookup_insert_ne.
    + intros id q [[-> <-]|[Hx Hq]]%lookup_insert_Some Hna; [|by apply Hs2]. by injection Hpi as E _ _.
  - intros mp' [Hin| ->%list_elem_of_singleton]%elem_of_app.
    + destruct (Ht _ Hin) as (id & q & Hq & Hin' & Htq). exists id, q. rewrite lookup_insert_ne by (intros <-; eapply Hne; [exact Hin|exact Hq|by apply told_ident|done]).
      split; [done|]. split; [apply elem_of_app; by left|done].
    + exists i, p. rewrite lookup_insert_eq. split; [done|]. split; [apply elem_of_app; right; by left|done].
  - intros id [Hin| ->%list_elem_of_singleton]%elem_of_app.
    + destruct (Hk _ Hin) as (q & mp' & Hq & Hin' & Hid). exists q, mp'. rewrite lookup_insert_ne by (intros <-; by eapply Hne).
      split; [done|]. split; [apply elem_of_app; by left|done].
    + exists p, mp. rewrite lookup_insert_eq. split; [done|]. split; [apply elem_of_app; right; by left|done].
  - intros k id [[<- <-]|[Hx Hin]]%lookup_insert_Some.
    + exists p. rewrite lookup_insert_eq. injection Hpi as E1 E2 E3. split; [done|]. split; [done|]. unfold cp_key. by rewrite E2, E3.
    + destruct (Hy _ _ Hin) as (q & Hq & Ha & Hr). destruct (decide (id = i)) as [->|Hz].
      * exists p. rewrite lookup_insert_eq. specialize (Hi _ Hq). rewrite <- Hi in Hpi. injection Hpi as E1 E2 E3. by rewrite E1, E2, E3.
      * exists q. by rewrite lookup_insert_ne.
Qed.

Lemma upsert_one t0 done keep keys mp : app_is (t_apps t0) app tid slug -> cp_key mp ∉ map cp_key done ->
  ht (upserting t0 done keep keys) (UpsertPermission env w tenant app slug (declared_permission mp))
     (fun got => upserting t0 (done ++ [mp]) (keep ++ [fst got]) (<[cp_key mp := fst got]> keys)).
Proof using ids_print tenant_is app_prints.
  intros Happ Hnew. unfold UpsertPermission. apply ht_with_uuid. intros c Hc. apply ht_with_uuid. intros d Hd. apply ht_run. intros k.
  assert (c = app) as -> by congruence. assert (d = tid) as -> by congruence.
  eapply (sql_bind _ _ (fun age t => upserting t0 done keep keys t /\ interval w (cp_MaxAuthAge mp) = Ok age)).
  { intros t n age t' n' Ht [= E <- _]. by split. }
  intros age. assert (forall t, upserting t0 done keep keys t -> app_is (t_apps t) app tid slug) as Ha.
  { intros t Ht. rewrite (up_only _ _ _ _ _ Ht). done. }
  apply upsert_permission_sql; [apply ids_print|..].
  - intros t i old [Ht Hage] Hchk Hi Hid. pose proof (up_whole _ _ _ _ _ Ht) as Hw. rewrite (told_again t i old mp age) by auto.
    apply upsert_step; [done|done| |by exists age|].
    + erewrite <- (told_again t i old mp age); [by apply whole_perm_edit|auto..].
    + intros q Hq. assert (q = old) as -> by congruence. done.
  - intros t i [Ht Hage] Hchk Hci Hn H1 H2 H3. apply upsert_step; [done|done| |by exists age|].
    + by apply whole_perm_insert; [apply (up_whole _ _ _ _ _ Ht)|..].
    + intros q Hq. congruence.
Qed.

Lemma upsert_all_ht t0 ps : forall done keep keys, app_is (t_apps t0) app tid slug -> NoDup (map cp_key (done ++ ps)) ->
  ht (upserting t0 done keep keys) (upsert_all env w tenant record ps keep keys) (fun got => upserting t0 (done ++ ps) (fst got) (snd got)).
Proof using ids_print tenant_is app_prints.
  induction ps as [|mp ps IH]; intros done keep keys Happ Hnd; simpl.
  - apply ht_ret. intros t. by rewrite app_nil_r.
  - eapply ht_bind; [apply upsert_one; [done|]|].
    + rewrite map_app in Hnd. apply NoDup_app in Hnd as (_ & Hd & _). intros Hin. apply (Hd _ Hin). by left.
    + intros got. cbn beta. specialize (IH (done ++ [mp]) (keep ++ [fst got]) (<[cp_key mp := fst got]> keys) Happ).
      rewrite <- !app_assoc in IH. by apply IH.
Qed.

(** What is stored of the application and live, as it is listed. *)
Definition listed (t : Tables) (existing : list PermissionRecord) : Prop :=
  forall e, e ∈ existing <-> exists id p, t_perms t !! id = Some p /\ pm_Tenant p = tid /\ pm_App p = app /\ live p = true /\ e = permissionRecord id p.

Record perms_applied (ps : list Catalog.Permission) (keys : gmap string string) (t0 t : Tables) : Prop := {
  pa_whole : Whole t;
  pa_only : t = with_perms t0 (t_perms t);
  pa_stay : perms_stay (t_perms t0) (t_perms t);
  pa_told mp : mp ∈ ps -> exists id p, t_perms t !! id = Some p /\ told mp p;
  pa_live id p : t_perms t !! id = Some p -> pm_App p = app -> live p = true -> exists mp, mp ∈ ps /\ perm_ident p = ident_of mp;
  pa_keys k id : keys !! k = Some id -> means (t_perms t) k id;
  pa_rail id p : ps = [] -> t_perms t0 !! id = Some p -> pm_Tenant p = tid -> pm_App p = app -> live p = false
}.

Lemma means_imap g m k id : (forall id p, perm_ident (g id p) = perm_ident p) -> means m k id -> means (map_imap (fun id p => Some (g id p)) m) k id.
Proof using.
  intros Hg (p & Hp & Ha & Hk). exists (g id p). rewrite lookup_imap_rows, Hp. split; [done|]. specialize (Hg id p). injection Hg as -> -> ->. done.
Qed.

Lemma deprecate_applied ps t0 keep keys t : upserting t0 ps keep keys t ->
  let g := fun id p => if withdraws app keep id p then withdrawn (ev_now env) p else p in
  Whole (with_perms t (map_imap (fun id p => Some (g id p)) (t_perms t))) ->
  (ps = [] -> forall id p, t_perms t0 !! id = Some p -> pm_Tenant p = tid -> pm_App p = app -> live p = false) ->
  perms_applied ps keys t0 (with_perms t (map_imap (fun id p => Some (g id p)) (t_perms t))).
Proof using.
  intros [Hw Ho [Hs1 Hs2] Ht Hk Hy] g Hw' Hrail. assert (forall id p, perm_ident (g id p) = perm_ident p) as Hg.
  { intros id p. unfold g. by destruct (withdraws _ _ _ _). }
  constructor; cbn; [done|rewrite Ho at 1; done|split|..|intros k id H; by apply means_imap, Hy|intros id p E; by apply Hrail].
  - intros id p (p' & Hp' & Hid & Hn)%Hs1. exists (g id p'). rewrite lookup_imap_rows, Hp'. split; [done|]. split; [by rewrite Hg|].
    intros Hna. rewrite (Hn Hna) in *. unfold g, withdraws. by rewrite bool_decide_eq_false_2.
  - intros id p' H Hna. rewrite lookup_imap_rows in H. apply fmap_Some in H as (p & Hp & ->). pose proof (Hg id p) as E. injection E as E _ _.
    rewrite E in Hna. unfold g, withdraws. rewrite bool_decide_eq_false_2 by done. by apply Hs2.
  - intros mp (id & p & Hp & Hin & Htold)%Ht. exists id, (g id p). rewrite lookup_imap_rows, Hp. split; [done|].
    unfold g, withdraws. rewrite (bool_decide_eq_true_2 (id ∈ keep)) by done. by rewrite andb_false_r.
  - intros id p' H Ha Hl. rewrite lookup_imap_rows in H. apply fmap_Some in H as (p & Hp & ->). unfold g in *.
    destruct (withdraws app keep id p) eqn:E; [done|]. unfold withdraws in E. rewrite Ha, Hl, bool_decide_eq_true_2 in E by done. cbn in E.
    apply negb_false_iff, bool_decide_eq_true in E. destruct (Hk _ E) as (q & mp & Hq & Hin & Hid). exists mp. split; [done|]. congruence.
Qed.

Lemma permissions_ht t0 existing ps keys : app_is (t_apps t0) app tid slug -> NoDup (map cp_key ps) -> listed t0 existing ->
  ht (upserting t0 [] [] keys) (permissions_section env w tenant record existing ps keys) (fun got => perms_applied ps (fst got) t0).
Proof using ids_print tenant_is app_prints.
  intros Happ Hnd Hex. unfold permissions_section. destruct (_ && _) eqn:Eb; [apply ht_raise|].
  assert (ps = [] -> forall id p, t_perms t0 !! id = Some p -> pm_Tenant p = tid -> pm_App p = app -> live p = false) as Hrail.
  { intros -> id p Hp Ht Ha. destruct (live p) eqn:El; [|done]. exfalso. cbn in Eb. apply negb_false_iff, Nat.eqb_eq, length_zero_iff_nil in Eb.
    assert (permissionRecord id p ∈ existing) as H by (apply Hex; eauto 10). rewrite Eb in H. by apply not_elem_of_nil in H. }
  eapply ht_bind; [by apply (upsert_all_ht t0 ps [] [] keys)|]. intros [keep keys']. simpl. eapply ht_bind; [|intros d; apply ht_ret; intros t H; exact H].
  unfold DeprecatePermissionsExcept. apply ht_with_uuid. intros c Hc. cbn in Hc. assert (c = app) as -> by congruence.
  intros s d s' Hup E. rewrite (canon_held (t_perms (st_tables s)) keep) in E; [| |].
  - revert s d s' Hup E. change (ht (upserting t0 ps keep keys') (run env (fun _ => deprecate_permissions_except (ev_now env) app keep)) (fun _ => perms_applied ps keys' t0)).
    apply ht_run. intros k t n d t' n' Hup H. pose proof (keep_deprecate_permissions (ev_now env) app keep _ _ _ _ _ (up_whole _ _ _ _ _ Hup) H) as Hw'.
    unfold deprecate_permissions_except in H. apply bind_ok in H as (l & [t1 n1] & [= <- <- <-] & H). apply bind_ok in H as ([] & [t2 n2] & [= <- <-] & [= _ <- _]).
    by apply deprecate_applied.
  - apply (wh_perms _ (up_whole _ _ _ _ _ Hup)).
  - intros x (p & mp & Hp & _)%(up_keep _ _ _ _ _ Hup). by exists p.
Qed.

(** ** Roles *)

Definition ours (r : RoleRow) : Prop := ro_Application r = Some app /\ ro_IsSystem r = true.
Definition named_in (mr : Catalog.Role) : string := role_name record mr.

(** [r] is what the document says of [mr]; what it may be assigned at is not
    said. *)
Record declared (mr : Catalog.Role) (r : RoleRow) : Prop := {
  de_tenant : ro_Tenant r = tid;
  de_ours : ours r;
  de_name : ro_Name r = named_in mr;
  de_description : ro_Description r = cr_Description mr;
  de_kinds : ro_Kinds r = orDefaultKinds (cr_AllowedRealmKinds mr);
  de_live : ro_DeprecatedAt r = None
}.

(** The role [id] has nothing above it, the patterns and the permissions the
    document gives it, and is flat. *)
Record of_document (mr : Catalog.Role) (id : string) (t : Tables) : Prop := {
  od_parents p : (id, p) ∉ t_parents t;
  od_patterns p : (id, p) ∈ t_patterns t <-> p ∈ cr_Patterns mr;
  od_direct p : (id, p) ∈ t_direct t <-> exists k, k ∈ cr_Permissions mr /\ means (t_perms t) k p;
  od_flat : flat_at t id
}.

Record roles_stay (m m' : gmap string RoleRow) : Prop := {
  rs_rows id r : m !! id = Some r -> exists r', m' !! id = Some r' /\ role_ident r' = role_ident r /\
    ro_Application r' = ro_Application r /\ ro_IsSystem r' = ro_IsSystem r /\ (~ ours r -> r' = r);
  rs_others id r : m' !! id = Some r -> ~ ours r -> m !! id = Some r
}.

(** What a role names stays. *)
Definition links_stay (id : string) (t t' : Tables) : Prop :=
  (forall p, (id, p) ∈ t_parents t' <-> (id, p) ∈ t_parents t) /\ (forall p, (id, p) ∈ t_patterns t' <-> (id, p) ∈ t_patterns t) /\
  (forall p, (id, p) ∈ t_direct t' <-> (id, p) ∈ t_direct t).

Definition but_roles (t t' : Tables) : Prop :=
  t_apps t' = t_apps t /\ t_perms t' = t_perms t /\ t_routes t' = t_routes t /\ t_sources t' = t_sources t /\ t_runs t' = t_runs t.

(** Between two roles of the document. *)
Record rolling (t0 : Tables) (done : list Catalog.Role) (keep : list string) (t : Tables) : Prop := {
  ro_whole : Whole t;
  ro_only : but_roles t0 t;
  ro_stay : roles_stay (t_roles t0) (t_roles t);
  ro_doc mr : mr ∈ done -> exists id r, t_roles t !! id = Some r /\ id ∈ keep /\ declared mr r /\ of_document mr id t;
  ro_keep id : id ∈ keep -> exists mr r, mr ∈ done /\ t_roles t !! id = Some r /\ role_ident r = (tid, named_in mr);
  ro_links id : id ∉ keep -> links_stay id t0 t;
  ro_flat id : flat_at t0 id -> flat_at t id
}.

(** *** The row *)
Lemma upsert_role t0 mr : Whole t0 ->
  ht (fun t => t = t0) (UpsertSystemRole env w tenant app (declared_role_record record mr))
     (fun id t => Whole t /\ exists r, t = with_roles t0 (<[id := r]> (t_roles t0)) /\ declared mr r /\ Uuid.canon id = Some id /\
        forall old, t_roles t0 !! id = Some old -> ours old /\ role_ident old = (tid, named_in mr)).
Proof using ids_print tenant_is app_prints.
  intros Hw. unfold UpsertSystemRole. apply ht_with_uuid. intros c Hc. apply ht_with_uuid. intros d Hd.
  assert (c = tid) as -> by congruence. assert (d = app) as -> by congruence. apply ht_found, ht_run. intros k. unfold upsert_system_role.
  eapply (sql_bind _ _ (fun o t => t = t0 /\ o = role_named t0 tid (named_in mr))); [by apply sql_query; intros t ->|].
  intros [[i old]|]; cbn [rr_Name declared_role_record].
  - destruct (ro_IsSystem old && _) eqn:E; [|apply sql_ret; by intros]. apply andb_true_iff in E as [E1 E2%bool_decide_eq_true].
    eapply (sql_bind _ _ (fun _ t => forall id, Some i = Some id -> Whole t /\ exists r, t = with_roles t0 (<[id := r]> (t_roles t0)) /\ declared mr r /\
      Uuid.canon id = Some id /\ forall old, t_roles t0 !! id = Some old -> ours old /\ role_ident old = (tid, named_in mr))); [|intros []; by apply sql_ret].
    apply sql_change. intros t [-> Eo] id [= <-]. symmetry in Eo. apply role_named_some in Eo as [Hi Hn]. split; [by eapply whole_role_edit|].
    eexists. split; [done|]. injection Hn as Hn1 Hn2. split; [|split; [apply (wh_roles _ Hw); by exists old|]].
    + split; cbn; [done|by split|done..].
    + intros o Ho. assert (o = old) as -> by congruence. split; [by split|]. unfold role_ident. by rewrite Hn1, Hn2.
  - eapply (sql_bind _ _ (fun i t => Whole t /\ exists r, t = with_roles t0 (<[i := r]> (t_roles t0)) /\ declared mr r /\ Uuid.canon i = Some i /\
      t_roles t0 !! i = None)).
    + apply insert_role_sql; [apply ids_print|]. intros t i [-> _] Hi Hnone Hnew Ha. split.
      * apply whole_roles; [done|intros j; by apply has_insert|]. apply roles_insert; [apply (wh_roles _ Hw)| |done|done].
        intros j s Hj E. by destruct (Hnew _ _ Hj).
      * eexists. split; [done|]. split; [|done]. split; cbn; [done|by split|done..].
    + intros i. apply sql_ret. intros t (Hw' & r & Ht & Hr & Hi & Hnone) id [= <-]. split; [done|]. exists r. do 3 (split; [done|]). intros old Ho. congruence.
Qed.

(** *** What it names *)
Lemma resolve_names keys role l ids : resolve record keys role l = Ok ids -> (forall p, p ∈ ids <-> exists k, k ∈ l /\ keys !! k = Some p) /\
  forall k, k ∈ l -> is_Some (keys !! k).
Proof using.
  revert ids. induction l as [|k l IH]; intros ids; simpl.
  - intros [= <-]. split; [|by intros ? ?%not_elem_of_nil]. intros p. split; [by intros ?%not_elem_of_nil|]. by intros (k & ?%not_elem_of_nil & _).
  - destruct (keys !! k) as [id|] eqn:E; [|done]. destruct (resolve _ _ _ l) as [rest|] eqn:Er; [|done]. intros [= <-]. destruct (IH _ eq_refl) as [H1 H2].
    split.
    + intros p. rewrite elem_of_cons, H1. split.
      * intros [->|(k' & Hk & E')]; [exists k|exists k']; split; auto; [by left|by right].
      * intros (k' & [->|Hk]%elem_of_cons & E'); [left; congruence|right; eauto].
    + intros k' [->|Hk]%elem_of_cons; [by exists id|by apply H2].
Qed.

Lemma means_unique t k p q : Whole t -> means (t_perms t) k p -> means (t_perms t) k q -> p = q.
Proof using.
  intros Hw (a & Ha & Haa & Hak) (b & Hb & Hba & Hbk). destruct (wh_perms _ Hw) as (_ & Hu & _ & Hf).
  destruct (Hf _ _ Ha) as [(x & Hx & Hx1 & Hx2) _], (Hf _ _ Hb) as [(y & Hy & Hy1 & Hy2) _].
  eapply Hu; [exact Ha|exact Hb|]. assert (x = y) as -> by congruence. unfold perm_name, pm_key. rewrite <- Hx1, <- Hx2, <- Hy1, <- Hy2.
  unfold ra in Hak, Hbk. by rewrite Hak, Hbk.
Qed.

Lemma named_ids t keys role l ids : Whole t -> (forall k p, keys !! k = Some p -> means (t_perms t) k p) -> resolve record keys role l = Ok ids ->
  forall p, uuids ids p <-> exists k, k ∈ l /\ means (t_perms t) k p.
Proof using.
  intros Hw Hk Hr p. destruct (resolve_names _ _ _ _ Hr) as [H1 H2]. assert (forall x, x ∈ ids -> Uuid.canon x = Some x) as Hc.
  { intros x (k & _ & E)%H1. apply (wh_perms _ Hw). destruct (Hk _ _ E) as (q & Hq & _). by exists q. }
  split.
  - intros (x & Hx & E). rewrite (Hc _ Hx) in E. injection E as <-. apply H1 in Hx as (k & Hin & E). eauto.
  - intros (k & Hin & Hm). destruct (H2 _ Hin) as [q Hq]. assert (q = p) as -> by (eapply means_unique; eauto).
    assert (p ∈ ids) as Hp by (apply H1; eauto). exists p. eauto.
Qed.

(** *** One role of the document *)
Lemma named_in_inj mr mr' : named_in mr = named_in mr' -> cr_Name mr = cr_Name mr'.
Proof using. unfold named_in, role_name. cbn. intros H%app_inj_l. by apply (app_inj_l ".") in H. Qed.

(** From the row of [mr] put in to its place in the graph taken. *)
Record role_written (mr : Catalog.Role) (id : string) (r : RoleRow) (t t' : Tables) : Prop := {
  rw_whole : Whole t';
  rw_only : but_roles t t';
  rw_roles : t_roles t' = <[id := r]> (t_roles t);
  rw_declared : declared mr r;
  rw_old old : t_roles t !! id = Some old -> ours old /\ role_ident old = (tid, named_in mr);
  rw_off : same_off id t t';
  rw_document : of_document mr id t';
  rw_flat s : flat_at t s -> flat_at t' s
}.

Lemma written t id mr r D td ids keys role : Whole t -> Whole (with_roles t (<[id := r]> (t_roles t))) -> Whole td -> declared mr r -> Uuid.canon id = Some id ->
  (forall old, t_roles t !! id = Some old -> ours old /\ role_ident old = (tid, named_in mr)) ->
  (forall k p, keys !! k = Some p -> means (t_perms t) k p) -> resolve record keys role (cr_Permissions mr) = Ok ids ->
  replaced id (uuids ids) (t_direct t) D ->
  regraphed id (uuids []) (cr_Patterns mr) (with_direct (with_roles t (<[id := r]> (t_roles t))) D) td -> role_written mr id r t td.
Proof using.
  intros Hw Hwr Hwd Hde Hid Hold Hkeys Hres HD Hre. pose proof Hre as [(E1 & E2 & E3 & E4 & E5 & E6 & E7) Hpar Hpat Hflat Helse]. cbn in *.
  assert (same_off id t td) as Hoff.
  { pose proof (regraphed_off _ _ _ _ _ Hre) as [O1 O2 O3 O4]. cbn in *. constructor; [done|done|done|]. intros x y Hx. rewrite (O4 x y Hx), (HD x y). naive_solver. }
  constructor; [done|split; [done|by split]|done|done|done|done| |].
  - constructor.
    + intros p H%Hpar. destruct H as [[H _]|[_ (x & Hx & _)]]; [done|]. by apply not_elem_of_nil in Hx.
    + intros p. rewrite (Hpat id p). naive_solver.
    + intros p. rewrite E4, (HD id p), E2. rewrite (named_ids t keys role _ _ Hw Hkeys Hres p). naive_solver.
    + apply Hflat. by left.
  - intros s. apply (off_flat id); [done|exact Hflat|]. intros x p Hx Hn. by rewrite Helse.
Qed.

Lemma apply_role_ht t0 keys mr : Whole t0 -> (forall k p, keys !! k = Some p -> means (t_perms t0) k p) ->
  ht (fun t => t = t0) (apply_role env w tenant record keys mr) (fun id t => exists r, role_written mr id r t0 t).
Proof using ids_print tenant_is app_prints.
  intros Hw Hkeys s id s' Hs E. unfold apply_role in E. apply bind_ok in E as (i & s1 & E1 & E).
  destruct (upsert_role t0 mr Hw _ _ _ Hs E1) as (Hw1 & r & Ht1 & Hde & Hi & Hold).
  apply bind_ok in E as (ids & s2 & [= Hres <-] & E). apply bind_ok in E as ([] & s3 & E3 & E).
  destruct (set_permissions env _ i ids _ _ _ Ht1 E3) as (j & D & Hj & Ht3 & HD). assert (j = i) as -> by congruence. cbn in HD.
  apply bind_ok in E as ([] & s4 & E4 & [= <- <-]).
  assert (Whole (st_tables s3)) as Hw3.
  { rewrite Ht3. apply whole_direct; [by rewrite <- Ht1|]. intros x p [[_ H]|[-> H]]%HD; [cbn; rewrite Ht1 in Hw1; by apply (wh_direct _ Hw1)|].
    apply (named_ids t0 keys _ _ _ Hw Hkeys Hres) in H as (k & _ & q & Hq & _). cbn. split; [exists r; by rewrite lookup_insert_eq|by exists q]. }
  assert (Whole (st_tables s4)) as Hw4 by (by eapply RoleTheorems.w_graph; [exact Hw3|exact E4]).
  eapply (apply_graph env w (st_tables s3)) in E4 as (j & Hj' & Hre); [|by apply whole_printed|done]. assert (j = i) as -> by congruence.
  rewrite Ht3 in Hre. exists r. eapply written; try done. by rewrite <- Ht1.
Qed.

Lemma roll t0 done keep t mr id r t' : rolling t0 done keep t -> role_written mr id r t t' -> cr_Name mr ∉ map cr_Name done ->
  rolling t0 (done ++ [mr]) (keep ++ [id]) t'.
Proof using.
  intros [Hw Ho [Hs1 Hs2] Hd Hk Hl Hf] [Ww Wo Wr Wd Wold Woff Wdoc Wf] Hnew.
  assert (id ∉ keep) as Hid.
  { intros (mr' & r0 & Hin & Hr0 & Hn)%Hk. destruct (Wold _ Hr0) as [_ Hn']. apply Hnew, list_elem_of_fmap. exists mr'. split; [|done].
    apply named_in_inj. rewrite Hn in Hn'. by injection Hn'. }
  destruct Wo as (O1 & O2 & O3 & O4 & O5). destruct Ho as (P1 & P2 & P3 & P4 & P5). destruct (de_ours _ _ Wd) as [Da Db].
  constructor; [done|unfold but_roles; repeat split; congruence|split|..].
  - intros i x (y & Hy & Hn & Ha & Hb & He)%Hs1. rewrite Wr. destruct (decide (i = id)) as [->|Hne].
    + destruct (Wold _ Hy) as [[Oa Ob] Hon]. exists r. rewrite lookup_insert_eq. split; [done|]. split.
      { rewrite <- Hn, Hon. unfold role_ident. by rewrite (de_tenant _ _ Wd), (de_name _ _ Wd). }
      split; [congruence|]. split; [congruence|]. intros Hno. exfalso. apply Hno. split; congruence.
    + exists y. by rewrite lookup_insert_ne.
  - intros i x. rewrite Wr. intros [[<- <-]|[Hne Hx]]%lookup_insert_Some Hno; [destruct Hno; by split|]. by apply Hs2.
  - intros mr' [Hin| ->%list_elem_of_singleton]%elem_of_app.
    + destruct (Hd _ Hin) as (i & x & Hx & Hik & Hde & [D1 D2 D3 D4]). assert (i <> id) as Hne by (intros ->; done). exists i, x. rewrite Wr, lookup_insert_ne by done.
      split; [done|]. split; [apply elem_of_app; by left|]. split; [done|]. constructor.
      * intros p. rewrite (so_parents _ _ _ Woff) by done. apply D1.
      * intros p. rewrite (so_patterns _ _ _ Woff) by done. apply D2.
      * intros p. rewrite (so_direct _ _ _ Woff), O2 by done. apply D3.
      * by apply Wf.
    + exists id, r. rewrite Wr, lookup_insert_eq. split; [done|]. split; [apply elem_of_app; right; by left|done].
  - intros i [Hin| ->%list_elem_of_singleton]%elem_of_app.
    + destruct (Hk _ Hin) as (mr' & x & Hm & Hx & Hn). exists mr', x. assert (i <> id) by (intros ->; done). rewrite Wr, lookup_insert_ne by done.
      split; [apply elem_of_app; by left|done].
    + exists mr, r. rewrite Wr, lookup_insert_eq. split; [apply elem_of_app; right; by left|]. split; [done|].
      unfold role_ident. by rewrite (de_tenant _ _ Wd), (de_name _ _ Wd).
  - intros i [Hik Hne]%not_elem_of_app. destruct (Hl _ Hik) as (L1 & L2 & L3). assert (i <> id) by (intros ->; apply Hne; by left). split; [|split]; intros p.
    + by rewrite (so_parents _ _ _ Woff).
    + by rewrite (so_patterns _ _ _ Woff).
    + by rewrite (so_direct _ _ _ Woff).
  - intros i Hi. by apply Wf, Hf.
Qed.

Lemma apply_roles_ht t0 keys rs : forall done keep, (forall k p, keys !! k = Some p -> means (t_perms t0) k p) -> NoDup (map cr_Name (done ++ rs)) ->
  ht (rolling t0 done keep) (apply_roles env w tenant record keys rs keep) (fun keep' => rolling t0 (done ++ rs) keep').
Proof using ids_print tenant_is app_prints.
  induction rs as [|mr rs IH]; intros done keep Hkeys Hnd; simpl.
  - apply ht_ret. intros t. by rewrite app_nil_r.
  - intros s keep' s' Hr E. apply bind_ok in E as (id & s1 & E1 & E2). pose proof (ro_only _ _ _ _ Hr) as (_ & Hp & _).
    destruct (apply_role_ht (st_tables s) keys mr (ro_whole _ _ _ _ Hr)) with (s := s) (a := id) (s' := s1) as (r & Hwr); [by rewrite Hp|done|done|].
    assert (cr_Name mr ∉ map cr_Name done) as Hnew.
    { rewrite map_app in Hnd. apply NoDup_app in Hnd as (_ & Hd & _). intros Hin. apply (Hd _ Hin). by left. }
    specialize (IH (done ++ [mr]) (keep ++ [id]) Hkeys). rewrite <- !app_assoc in IH. eapply IH; [done| |exact E2]. by eapply roll.
Qed.

(** *** The section *)
Record roles_applied (rs : list Catalog.Role) (t0 t : Tables) : Prop := {
  ra_whole : Whole t;
  ra_only : but_roles t0 t;
  ra_stay : roles_stay (t_roles t0) (t_roles t);
  ra_doc mr : mr ∈ rs -> exists id r, t_roles t !! id = Some r /\ declared mr r /\ of_document mr id t;
  ra_live id r : t_roles t !! id = Some r -> ours r -> ro_DeprecatedAt r = None -> exists mr, mr ∈ rs /\ role_ident r = (tid, named_in mr);
  ra_links id : (forall mr r, mr ∈ rs -> t_roles t !! id = Some r -> role_ident r <> (tid, named_in mr)) -> links_stay id t0 t;
  ra_flat id : flat_at t0 id -> flat_at t id
}.

Lemma retire_applied rs t0 keep t : rolling t0 rs keep t ->
  let g := fun id r => if retires app keep id r then retired (ev_now env) r else r in
  let t' := with_roles t (map_imap (fun id r => Some (g id r)) (t_roles t)) in Whole t' -> roles_applied rs t0 t'.
Proof using.
  intros [Hw Ho [Hs1 Hs2] Hd Hk Hl Hf] g t' Hw'.
  assert (forall id r, role_ident (g id r) = role_ident r /\ ro_Application (g id r) = ro_Application r /\ ro_IsSystem (g id r) = ro_IsSystem r) as Hg.
  { intros id r. unfold g. by destruct (retires _ _ _ _). }
  assert (forall id r, ~ ours r -> g id r = r) as Hn.
  { intros id r Hno. unfold g, retires. destruct (bool_decide (ro_Application r = Some app)) eqn:E; [|done]. apply bool_decide_eq_true in E.
    destruct (ro_IsSystem r) eqn:E2; [|done]. destruct Hno. by split. }
  assert (forall id r, id ∈ keep -> g id r = r) as Hkeep.
  { intros id r Hin. unfold g, retires. by rewrite (bool_decide_eq_true_2 (id ∈ keep)), andb_false_r. }
  assert (forall id r', t_roles t' !! id = Some r' -> exists r, t_roles t !! id = Some r /\ r' = g id r) as Hlook.
  { intros id r' H. unfold t' in H. cbn in H. rewrite lookup_imap_rows in H. apply fmap_Some in H as (r & Hr & ->). by exists r. }
  assert (forall id r, t_roles t !! id = Some r -> t_roles t' !! id = Some (g id r)) as Hput.
  { intros id r H. unfold t'. cbn. by rewrite lookup_imap_rows, H. }
  constructor; [done|done|split|..].
  - intros id r (r1 & Hr1 & Hi & Ha & Hb & He)%Hs1. exists (g id r1). destruct (Hg id r1) as (G1 & G2 & G3). rewrite G1, G2, G3. split; [by apply Hput|].
    do 3 (split; [done|]). intros Hno. rewrite (He Hno) in *. by apply Hn.
  - intros id r' (r & Hr & ->)%Hlook Hno. destruct (Hg id r) as (_ & G2 & G3). assert (~ ours r) as Hno' by (unfold ours in *; by rewrite <- G2, <- G3).
    rewrite (Hn _ _ Hno'). by apply Hs2.
  - intros mr (id & r & Hr & Hin & Hde & [D1 D2 D3 D4])%Hd. exists id, r. split; [rewrite (Hput _ _ Hr); by rewrite Hkeep|]. split; [done|by constructor].
  - intros id r' (r & Hr & ->)%Hlook [Hoa Hob] Hlive. destruct (Hg id r) as (G1 & G2 & G3). rewrite G1. destruct (decide (id ∈ keep)) as [Hin|Hout].
    + destruct (Hk _ Hin) as (mr & r0 & Hm & Hr0 & Hi). exists mr. split; [done|]. congruence.
    + exfalso. unfold g, retires in Hlive. rewrite G2 in Hoa. rewrite G3 in Hob. rewrite Hoa, Hob, bool_decide_eq_true_2, (bool_decide_eq_false_2 (id ∈ keep)) in Hlive by done.
      destruct (bool_decide (ro_DeprecatedAt r = None)) eqn:E; [done|]. cbn in Hlive. by apply bool_decide_eq_false in E.
  - intros id Hno. apply Hl. intros (mr & r & Hm & Hr & Hi)%Hk. destruct (Hg id r) as (G1 & _). apply (Hno mr (g id r) Hm (Hput _ _ Hr)). congruence.
  - intros id Hi. apply Hf in Hi. exact Hi.
Qed.

Lemma deprecate_roles_is keep t n l t' n' : deprecate_roles_except (ev_now env) app keep (t, n) = (Ok l, (t', n')) ->
  l = omap (fun '(id, r) => if retires app keep id r then Some (ro_Name r) else None) (map_to_list (t_roles t)) /\
  t' = with_roles t (map_imap (fun id r => Some (if retires app keep id r then retired (ev_now env) r else r)) (t_roles t)).
Proof using.
  intros H. unfold deprecate_roles_except in H. apply bind_ok in H as (l' & [t1 n1] & [= <- <- <-] & H).
  by apply bind_ok in H as ([] & [t2 n2] & [= <- <-] & [= <- <- _]).
Qed.

Lemma retire_ht rs t0 keep : ht (rolling t0 rs keep) (DeprecateRolesExcept env app keep) (fun _ => roles_applied rs t0).
Proof using app_prints.
  unfold DeprecateRolesExcept. apply ht_with_uuid. intros c Hc. assert (c = app) as -> by congruence. intros s l s' Hr E.
  rewrite (canon_held (t_roles (st_tables s)) keep) in E.
  - revert s l s' Hr E. change (ht (rolling t0 rs keep) (run env (fun _ => deprecate_roles_except (ev_now env) app keep)) (fun _ => roles_applied rs t0)).
    apply ht_run. intros k t n l t' n' Hr H. pose proof (keep_deprecate_roles (ev_now env) app keep _ _ _ _ _ (ro_whole _ _ _ _ Hr) H) as Hw'.
    apply deprecate_roles_is in H as [_ ->]. by eapply retire_applied.
  - apply (wh_roles _ (ro_whole _ _ _ _ Hr)).
  - intros x (mr & r & _ & Hx & _)%(ro_keep _ _ _ _ Hr). by exists r.
Qed.

Lemma roles_ht t0 keys rs : Whole t0 -> (forall k p, keys !! k = Some p -> means (t_perms t0) k p) -> NoDup (map cr_Name rs) ->
  ht (fun t => t = t0) (roles_section env w tenant record keys rs) (fun _ => roles_applied rs t0).
Proof using ids_print tenant_is app_prints.
  intros Hw Hkeys Hnd. unfold roles_section. eapply (ht_bind _ _ (fun keep => rolling t0 rs keep)).
  - eapply (ht_weaken _ (rolling t0 [] [])); [by apply (apply_roles_ht t0 keys rs [] [])| |done]. intros t ->. constructor; try done.
    + split; [|done]. intros id r Hr. by exists r.
    + by intros mr ?%not_elem_of_nil.
    + by intros id ?%not_elem_of_nil.
  - intros keep. eapply ht_bind; [apply retire_ht|]. intros l. destruct (_ && _); [apply ht_raise|]. by apply ht_ret.
Qed.

(** The rail: an empty section passes where no live role of the manifest is. *)
Lemma roles_rail t0 keys : ht (fun t => t = t0) (roles_section env w tenant record keys [])
  (fun _ _ => forall id r, t_roles t0 !! id = Some r -> ours r -> ro_DeprecatedAt r <> None).
Proof using app_prints.
  intros s l s' Hs E. unfold roles_section in E. cbn [apply_roles] in E. apply bind_ok in E as (keep & s1 & [= <- <-] & E).
  apply bind_ok in E as (names & s2 & E1 & E2). unfold DeprecateRolesExcept, with_uuid in E1. cbn [al_ID] in E1. rewrite app_prints in E1. cbn in E1.
  apply statement_ok in E1 as (t & n & E1 & _). apply deprecate_roles_is in E1 as [E1 _]. rewrite Hs in E1.
  destruct names as [|x names]; [|done]. intros id r Hr [Ha Hb] Hlive.
  assert (ro_Name r ∈ (omap (fun '(id, r) => if retires app [] id r then Some (ro_Name r) else None) (map_to_list (t_roles t0)) : list string)) as H.
  { apply list_elem_of_omap. exists (id, r). split; [by apply elem_of_map_to_list|]. unfold retires. rewrite Ha, Hb, Hlive.
    rewrite (bool_decide_eq_true_2 (Some app = _)), (bool_decide_eq_false_2 (id ∈ [])) by (done || apply not_elem_of_nil). done. }
  rewrite <- E1 in H. by apply not_elem_of_nil in H.
Qed.

(** ** Routes *)

(** [r] is what the document says of [rt]. *)
Definition routed (perms : gmap string PermRow) (rt : Catalog.Route) (r : RouteRow) : Prop :=
  rt_App r = app /\ rt_Tenant r = tid /\ rt_Priority r = wrap32 (ct_Priority rt) /\ rt_Effect r = ct_Effect rt /\ rt_Path r = ct_PathPattern rt /\
  rt_Host r = OptStr (ct_HostPattern rt) /\ rt_Methods r = match ct_Methods rt with [] => ["*"%string] | ms => ms end /\
  rt_Bindings r = ct_ScopeBindings rt /\
  (if bool_decide (ct_Effect rt = "require_permission"%string) then exists p, rt_Permission r = Some p /\ means perms (ct_Permission rt) p
   else rt_Permission r = None).

Record routes_applied (rts : list Catalog.Route) (t0 t : Tables) : Prop := {
  ta_whole : Whole t;
  ta_only : t = with_routes t0 (t_routes t);
  ta_all rt : rt ∈ rts -> exists id r, t_routes t !! id = Some r /\ routed (t_perms t) rt r;
  ta_only_these id r : t_routes t !! id = Some r -> rt_App r = app -> exists rt, rt ∈ rts /\ routed (t_perms t) rt r;
  ta_others id r : rt_App r <> app -> t_routes t !! id = Some r <-> t_routes t0 !! id = Some r
}.

(** A policy names no permission, or one by an id as it prints. *)
Definition named_rightly (p : RoutePolicyInput) : Prop := ri_PermissionID p = ""%string \/ Uuid.canon (ri_PermissionID p) = Some (ri_PermissionID p).
Definition row_of (p : RoutePolicyInput) : RouteRow := route_row app tid (OptStr (ri_PermissionID p)) p.

Record routing (t0 : Tables) (done : list RoutePolicyInput) (t : Tables) : Prop := {
  rg_whole : Whole t;
  rg_only : t = with_routes t0 (t_routes t);
  rg_all p : p ∈ done -> exists id, t_routes t !! id = Some (row_of p);
  rg_these id r : t_routes t !! id = Some r -> rt_App r = app -> exists p, p ∈ done /\ r = row_of p;
  rg_others id r : rt_App r <> app -> t_routes t !! id = Some r <-> t_routes t0 !! id = Some r
}.

Lemma route_put t0 done t p i : routing t0 done t -> t_routes t !! i = None -> Whole (with_routes t (<[i := row_of p]> (t_routes t))) ->
  routing t0 (done ++ [p]) (with_routes t (<[i := row_of p]> (t_routes t))).
Proof using.
  intros [Hw Ho Ha Ht Hx] Hn Hw'. constructor; cbn; [done|by rewrite Ho at 1|..].
  - intros q [Hin| ->%list_elem_of_singleton]%elem_of_app; [|exists i; by rewrite lookup_insert_eq].
    destruct (Ha _ Hin) as [id Hid]. exists id. rewrite lookup_insert_ne; [done|]. intros ->. congruence.
  - intros id r [[<- <-]|[Hne Hr]]%lookup_insert_Some Happ; [exists p; split; [apply elem_of_app; right; by left|done]|].
    destruct (Ht _ _ Hr Happ) as (q & Hq & ->). exists q. split; [apply elem_of_app; by left|done].
  - intros id r Happ. rewrite <- Hx by done. rewrite lookup_insert_Some. split; [intros [[_ <-]|[_ H]]; done|].
    intros H. right. split; [|done]. intros ->. congruence.
Qed.

Lemma add_route_ht t0 done p : named_rightly p -> ht (routing t0 done) (add_route env app tid p) (fun _ => routing t0 (done ++ [p])).
Proof using ids_print.
  intros Hp. unfold add_route. assert (forall perm, perm = OptStr (ri_PermissionID p) ->
    ht (routing t0 done) (run env (fun ids => insert_route ids (route_row app tid perm p))) (fun _ => routing t0 (done ++ [p]))) as H.
  { intros perm ->. apply ht_run. intros k t n [] t' n' Hr E. pose proof (keep_insert_route _ _ _ _ _ _ _ (rg_whole _ _ _ Hr) E) as Hw'. revert t n t' n' Hr E Hw'.
    enough (sql (routing t0 done) (insert_route (ev_id env k) (row_of p)) (fun _ t => Whole t -> routing t0 (done ++ [p]) t)) as Hs.
    { intros t n t' n' Hr E Hw'. by eapply (Hs _ _ _ _ _ Hr E). }
    apply insert_route_sql. intros t i Hr _ Hn _ _ _ Hw. by apply route_put. }
  destruct (OptStr (ri_PermissionID p)) as [pid|] eqn:E; [|by apply H]. apply ht_with_uuid. intros c Hc. apply H.
  unfold OptStr in E. destruct Hp as [Hp|Hp]; [by rewrite Hp in E|]. case_bool_decide; [done|]. congruence.
Qed.

Lemma replace_routes_ht t0 policies : Whole t0 -> (forall p, p ∈ policies -> named_rightly p) ->
  ht (fun t => t = t0) (ReplaceRoutePolicies env tenant app policies) (fun _ => routing t0 policies).
Proof using ids_print tenant_is app_prints.
  intros Hw Hp. unfold ReplaceRoutePolicies. apply ht_with_uuid. intros c Hc. apply ht_with_uuid. intros d Hd.
  assert (c = app) as -> by congruence. assert (d = tid) as -> by congruence. apply ht_tx. eapply (ht_bind _ _ (fun _ => routing t0 [])).
  - apply ht_run. intros k. apply sql_change. intros t ->. constructor; cbn.
    + by eapply (keep_delete_routes app t0 0 tt _ 0).
    + done.
    + by intros p ?%not_elem_of_nil.
    + intros id r [_ Hne]%map_lookup_filter_Some Ha. by destruct Hne.
    + intros id r Hne. rewrite map_lookup_filter_Some. cbn. naive_solver.
  - intros []. apply (ht_each (routing t0)). intros done x todo ->. apply add_route_ht, Hp. set_solver.
Qed.

Lemma policies_ok keys rts ps : policies_of keys rts = Ok ps ->
  (forall p, p ∈ ps -> exists rt, rt ∈ rts /\ policy_of keys rt = Ok p) /\ (forall rt, rt ∈ rts -> exists p, p ∈ ps /\ policy_of keys rt = Ok p).
Proof using.
  revert ps. induction rts as [|rt rts IH]; intros ps; simpl.
  - intros [= <-]. split; by intros ? ?%not_elem_of_nil.
  - destruct (policy_of keys rt) as [p|] eqn:E; [|done]. destruct (policies_of keys rts) as [rest|]; [|done]. intros [= <-]. destruct (IH _ eq_refl) as [H1 H2]. split.
    + intros q [->|Hq]%elem_of_cons; [exists rt; split; [by left|done]|]. destruct (H1 _ Hq) as (x & ? & ?). exists x. split; [by right|done].
    + intros x [->|Hx]%elem_of_cons; [exists p; split; [by left|done]|]. destruct (H2 _ Hx) as (q & ? & ?). exists q. split; [by right|done].
Qed.

Lemma policy_routed t keys rt p : Whole t -> (forall k q, keys !! k = Some q -> means (t_perms t) k q) -> policy_of keys rt = Ok p ->
  named_rightly p /\ routed (t_perms t) rt (row_of p).
Proof using.
  intros Hw Hkeys. unfold policy_of, named_rightly, row_of, routed. case_bool_decide as Ee.
  - destruct (keys !! ct_Permission rt) as [id|] eqn:E; [|done]. intros [= <-]. cbn. pose proof (Hkeys _ _ E) as Hm. destruct Hm as (q & Hq & Hr).
    assert (Uuid.canon id = Some id) as Hc by (apply (wh_perms _ Hw); by exists q). split; [by right|].
    assert (OptStr id = Some id) as -> by (unfold OptStr; case_bool_decide as E0; [by rewrite E0 in Hc|done]).
    do 6 (split; [done|]). split; [by destruct (ct_Methods rt)|]. split; [done|]. exists id. split; [done|]. by exists q.
  - intros [= <-]. cbn. split; [by left|]. do 6 (split; [done|]). split; [by destruct (ct_Methods rt)|]. done.
Qed.

Lemma routes_ht t0 keys rts : Whole t0 -> (forall k p, keys !! k = Some p -> means (t_perms t0) k p) ->
  ht (fun t => t = t0) (routes_section env tenant record keys rts) (fun _ => routes_applied rts t0).
Proof using ids_print tenant_is app_prints.
  intros Hw Hkeys. unfold routes_section. intros s n s' Hs E. apply bind_ok in E as (ps & s1 & [= Hps <-] & E). apply bind_ok in E as ([] & s2 & E1 & [= _ <-]).
  destruct (policies_ok _ _ _ Hps) as [H1 H2].
  eapply (replace_routes_ht t0 ps) in E1 as [Rw Ro Ra Rt Rx]; [|done| |done].
  2:{ intros p (rt & _ & Hp)%H1. by apply (policy_routed t0 keys rt). }
  assert (t_perms (st_tables s2) = t_perms t0) as Hpm by (by rewrite Ro). constructor; [done|done|..|done]; rewrite Hpm.
  - intros rt (p & Hin & Hp)%H2. destruct (Ra _ Hin) as [id Hid]. exists id, (row_of p). split; [done|]. by eapply policy_routed.
  - intros id r Hr Ha. destruct (Rt _ _ Hr Ha) as (p & Hin & ->). destruct (H1 _ Hin) as (rt & Hrt & Hp). exists rt. split; [done|]. by eapply policy_routed.
Qed.

(** ** The whole document *)
Section Document.
Context (m : Catalog.Document).

(** What an apply brings: the sections the document declares become what it
    says, and the version goes up by one. *)
Record brought (t0 t : Tables) : Prop := {
  br_permissions ps : Catalog.Permissions m = Some ps ->
    (forall mp, mp ∈ ps -> exists id p, t_perms t !! id = Some p /\ told mp p) /\
    (forall id p, t_perms t !! id = Some p -> pm_App p = app -> live p = true -> exists mp, mp ∈ ps /\ perm_ident p = ident_of mp);
  br_roles rs : Catalog.Roles m = Some rs ->
    (forall mr, mr ∈ rs -> exists id r, t_roles t !! id = Some r /\ declared mr r /\ of_document mr id t) /\
    (forall id r, t_roles t !! id = Some r -> ours r -> ro_DeprecatedAt r = None -> exists mr, mr ∈ rs /\ role_ident r = (tid, named_in mr));
  br_routes rts : Catalog.Routes m = Some rts ->
    (forall rt, rt ∈ rts -> exists id r, t_routes t !! id = Some r /\ routed (t_perms t) rt r) /\
    (forall id r, t_routes t !! id = Some r -> rt_App r = app -> exists rt, rt ∈ rts /\ routed (t_perms t) rt r);
  br_version a : t_apps t0 !! app = Some a -> t_apps t !! app = Some (at_version a (ap_Version a + 1))
}.

(** What it leaves: every row of another application, every role that is not the
    manifest's, what such a role names, every section the document does not
    declare; no permission and no role is deleted, and an empty section passes
    only where there is nothing live to take away. *)
Record spared (t0 t : Tables) : Prop := {
  sp_permissions : perms_stay (t_perms t0) (t_perms t);
  sp_no_permissions : Catalog.Permissions m = None -> t_perms t = t_perms t0;
  sp_roles : roles_stay (t_roles t0) (t_roles t);
  sp_links id : (forall rs mr r, Catalog.Roles m = Some rs -> mr ∈ rs -> t_roles t !! id = Some r -> role_ident r <> (tid, named_in mr)) -> links_stay id t0 t;
  sp_no_roles : Catalog.Roles m = None -> t_roles t = t_roles t0 /\ t_effective t = t_effective t0;
  sp_routes id r : rt_App r <> app -> t_routes t !! id = Some r <-> t_routes t0 !! id = Some r;
  sp_no_routes : Catalog.Routes m = None -> t_routes t = t_routes t0;
  sp_apps id : id <> app -> t_apps t !! id = t_apps t0 !! id;
  sp_feeds : t_sources t = t_sources t0 /\ t_runs t = t_runs t0;
  sp_rail_permissions id p : Catalog.Permissions m = Some [] -> t_perms t0 !! id = Some p -> pm_Tenant p = tid -> pm_App p = app -> live p = false;
  sp_rail_roles id r : Catalog.Roles m = Some [] -> t_roles t0 !! id = Some r -> ours r -> ro_DeprecatedAt r <> None
}.

(** After each section. *)
Definition after_permissions (t0 : Tables) (keys : gmap string string) (t : Tables) : Prop :=
  Whole t /\ (forall k id, keys !! k = Some id -> means (t_perms t) k id) /\
  match Catalog.Permissions m with None => t = t0 | Some ps => perms_applied ps keys t0 t end.
Definition after_roles (t1 t : Tables) : Prop :=
  Whole t /\ match Catalog.Roles m with
             | None => t = t1
             | Some rs => roles_applied rs t1 t /\ (rs = [] -> forall id r, t_roles t1 !! id = Some r -> ours r -> ro_DeprecatedAt r <> None)
             end.
Definition after_routes (t2 t : Tables) : Prop :=
  Whole t /\ match Catalog.Routes m with None => t = t2 | Some rts => routes_applied rts t2 t end.

Lemma perms_stay_refl p : perms_stay p p.
Proof using. split; [|done]. intros id x H. by exists x. Qed.
Lemma roles_stay_refl r : roles_stay r r.
Proof using. split; [|done]. intros id x H. by exists x. Qed.
Lemma links_stay_refl id t : links_stay id t t.
Proof using. done. Qed.

(** The graph, the permissions and what is stored of them the same, so is what a
    document's role is. *)
Definition same_graph (t t' : Tables) : Prop :=
  t_parents t' = t_parents t /\ t_patterns t' = t_patterns t /\ t_direct t' = t_direct t /\ t_perms t' = t_perms t /\ t_effective t' = t_effective t.
Lemma of_document_same mr id t t' : same_graph t t' -> of_document mr id t -> of_document mr id t'.
Proof using.
  intros H [D1 D2 D3 D4]. pose proof H as (E1 & E2 & E3 & E4 & E5). constructor; rewrite ?E1, ?E2, ?E3, ?E4; try done.
  by eapply RoleTheorems.graph_alone_flat.
Qed.

Lemma put_together t0 keys t1 t2 t3 t a : after_permissions t0 keys t1 -> after_roles t1 t2 -> after_routes t2 t3 ->
  t_apps t0 !! app = Some a -> t = with_apps t3 (<[app := at_version a (ap_Version a + 1)]> (t_apps t3)) -> brought t0 t /\ spared t0 t.
Proof using.
  intros (Hw1 & _ & H1) (Hw2 & H2) (Hw3 & H3) Ha ->.
  assert (perms_stay (t_perms t0) (t_perms t1) /\ t1 = with_perms t0 (t_perms t1)) as [Ps1 E1].
  { destruct (Catalog.Permissions m); [split; apply H1|]. subst t1. split; [apply perms_stay_refl|by destruct t0]. }
  assert (roles_stay (t_roles t1) (t_roles t2) /\ but_roles t1 t2) as [Rs2 (B1 & B2 & B3 & B4 & B5)].
  { destruct (Catalog.Roles m); [destruct H2 as [H2 _]; split; apply H2|]. subst t2. split; [apply roles_stay_refl|done]. }
  assert ((forall id r, rt_App r <> app -> t_routes t3 !! id = Some r <-> t_routes t2 !! id = Some r) /\ t3 = with_routes t2 (t_routes t3)) as [Ts3 E3].
  { destruct (Catalog.Routes m); [split; apply H3|]. subst t3. split; [done|by destruct t2]. }
  assert (t_apps t1 = t_apps t0 /\ t_roles t1 = t_roles t0 /\ t_routes t1 = t_routes t0 /\ t_effective t1 = t_effective t0 /\ t_sources t1 = t_sources t0 /\
    t_runs t1 = t_runs t0 /\ (forall id, links_stay id t0 t1)) as (A1 & A2 & A3 & A4 & A5 & A6 & A7) by (rewrite E1; done).
  assert (t_apps t3 = t_apps t2 /\ t_perms t3 = t_perms t2 /\ t_roles t3 = t_roles t2 /\ t_sources t3 = t_sources t2 /\ t_runs t3 = t_runs t2 /\ same_graph t2 t3)
    as (C1 & C2 & C3 & C4 & C5 & C6) by (rewrite E3; done).
  split; constructor; cbn.
  - intros ps E. rewrite E in H1. rewrite C2, B2. split; [apply (pa_told _ _ _ _ H1)|apply (pa_live _ _ _ _ H1)].
  - intros rs E. rewrite E in H2. destruct H2 as [H2 _]. rewrite C3. split; [|apply (ra_live _ _ _ H2)].
    intros mr (id & r & Hr & Hde & Hod)%(ra_doc _ _ _ H2). exists id, r. split; [done|]. split; [done|]. by apply (of_document_same _ _ t2).
  - intros rts E. rewrite E in H3. split; [apply (ta_all _ _ _ H3)|apply (ta_only_these _ _ _ H3)].
  - intros a' Ha'. rewrite lookup_insert_eq. congruence.
  - by rewrite C2, B2.
  - intros E. rewrite E in H1. rewrite C2, B2. by subst.
  - by rewrite C3, <- A2.
  - intros id Hno. destruct C6 as (G1 & G2 & G3 & _). unfold links_stay. cbn. rewrite G1, G2, G3. destruct (A7 id) as (L1 & L2 & L3).
    destruct (Catalog.Roles m) as [rs|] eqn:E; [|by subst t2]. destruct H2 as [H2 _]. destruct (ra_links _ _ _ H2 id) as (M1 & M2 & M3).
    { intros mr r Hin Hr. apply (Hno rs mr r eq_refl Hin). by rewrite C3. }
    split; [|split]; intros p; [by rewrite M1|by rewrite M2|by rewrite M3].
  - intros E. rewrite E in H2. subst t2. destruct C6 as (_ & _ & _ & _ & G5). rewrite C3, G5. done.
  - intros id r Hne. rewrite Ts3, B3, A3 by done. done.
  - intros E. rewrite E in H3. subst t3. by rewrite B3, A3.
  - intros id Hne. rewrite lookup_insert_ne by done. by rewrite C1, B1, A1.
  - rewrite C4, C5, B4, B5, A5, A6. done.
  - intros id p E. rewrite E in H1. by apply (pa_rail _ _ _ _ H1).
  - intros id r E. rewrite E in H2. destruct H2 as [_ H2]. rewrite A2 in H2. by apply H2.
Qed.

End Document.

(** *** In the order of the apply *)
Lemma list_ht t0 : ht (fun t => t = t0) (RoleStore.ListPermissions env tx tenant app false) (fun existing t => listed t0 existing /\ t = t0).
Proof using tenant_is app_prints.
  unfold RoleStore.ListPermissions. apply ht_with_uuid. intros c Hc. assert (c = tid) as -> by congruence.
  assert (OptStr app = Some app) as -> by (unfold OptStr; case_bool_decide as E; [by rewrite E in app_prints|done]).
  apply ht_with_uuid. intros d Hd. assert (d = app) as -> by congruence. apply ht_ask. intros t ->. split; [|done]. intros e.
  rewrite merge_sort_Permutation, list_elem_of_omap. split.
  - intros ([id p] & Hin%elem_of_map_to_list & E). destruct (_ && _) eqn:Eb; [|done]. injection E as <-. cbn in Eb. unbool. by exists id, p.
  - intros (id & p & Hp & Ht & Ha & Hl & ->). exists (id, p). split; [by apply elem_of_map_to_list|]. by rewrite Ht, Ha, Hl, !bool_decide_eq_true_2.
Qed.

Lemma stored_keys_means t existing k id : listed t existing -> stored_keys existing !! k = Some id -> means (t_perms t) k id.
Proof using.
  intros Hl. unfold stored_keys. assert (forall l (m0 : gmap string string), (forall e, e ∈ l -> e ∈ existing) ->
    (forall k id, m0 !! k = Some id -> means (t_perms t) k id) ->
    forall k id, foldl (fun m0 e => <[ra (pr_Resource e) (pr_Action e) := pr_ID e]> m0) m0 l !! k = Some id -> means (t_perms t) k id) as H.
  { induction l as [|e l IH]; intros m0 Hin Hm; [exact Hm|]. apply IH; [intros x Hx; apply Hin; by right|]. intros k' i [[<- <-]|[_ H]]%lookup_insert_Some; [|by apply Hm].
    destruct (proj1 (Hl e) (Hin e ltac:(by left))) as (j & p & Hp & _ & Ha & _ & ->). by exists p. }
  apply H; [done|]. intros ? ? E. by rewrite lookup_empty in E.
Qed.

Lemma ht_section {A B} (o : option A) W none (f : A -> Eff (Store Tables) Error B) R :
  (o = None -> forall t, W t -> R none t) -> (forall a, o = Some a -> ht W (f a) R) -> ht W (section o none f) R.
Proof using. intros Hn Hf. unfold section. destruct o; [by apply Hf|apply ht_ret; by apply Hn]. Qed.

Lemma bump_ht t3 a : t_apps t3 !! app = Some a ->
  ht (fun t => t = t3) (BumpManifestVersion env app)
     (fun v t => v = (ap_Version a + 1)%Z /\ t = with_apps t3 (<[app := at_version a (ap_Version a + 1)]> (t_apps t3))).
Proof using app_prints.
  intros Ha. unfold BumpManifestVersion. apply ht_with_uuid. intros c Hc. assert (c = app) as -> by congruence. apply ht_run. intros k t n v t' n' -> H.
  unfold bump_version in H. apply bind_ok in H as (o & [t1 n1] & [= <- <- <-] & H). cbn [fst] in H. rewrite Ha in H.
  apply bind_ok in H as ([] & [t2 n2] & H1 & H). unfold must in H1. destruct (_ <? _)%Z; [done|]. injection H1 as <- <-.
  by apply bind_ok in H as ([] & [t4 n4] & [= <- <-] & [= <- <- _]).
Qed.

Lemma roles_both t0 keys rs : Whole t0 -> (forall k p, keys !! k = Some p -> means (t_perms t0) k p) -> NoDup (map cr_Name rs) ->
  ht (fun t => t = t0) (roles_section env w tenant record keys rs)
    (fun _ t => roles_applied rs t0 t /\ (rs = [] -> forall id r, t_roles t0 !! id = Some r -> ours r -> ro_DeprecatedAt r <> None)).
Proof using ids_print tenant_is app_prints.
  intros Hw Hk Hnd s l s' Hs E. split; [by eapply roles_ht; [| | |exact Hs|exact E]|]. intros ->. by eapply (roles_rail t0 keys); [exact Hs|exact E].
Qed.

Lemma apply_ht lower m t0 a r0 : Whole t0 -> t_apps t0 !! app = Some a -> ap_Tenant a = tid -> ap_Slug a = slug -> ap_Version a = version ->
  Catalog.valid lower m ->
  ht (fun t => t = t0) (apply env w tx tenant record m r0)
     (RoleTheorems.ends_well (fun d t => dr_version d = (version + 1)%Z /\ brought m t0 t /\ spared m t0 t)).
Proof using ids_print tenant_is app_prints.
  intros Hw Ha Hat Has Hav Hv. assert (app_is (t_apps t0) app tid slug) as Happ by (by exists a). unfold apply.
  eapply RoleTheorems.ht_try; [apply list_ht|]. intros existing. apply ht_pure. intros Hl.
  eapply (RoleTheorems.ht_try _ _ _ _ (fun kr t => after_permissions m t0 (fst kr) t)).
  { apply ht_section; [intros E t ->; by unfold after_permissions; rewrite E; split; [done|]; split; [intros k id; by apply stored_keys_means|]|].
    intros ps E. eapply ht_bind; [|intros got; apply ht_ret; intros t H; exact H]. unfold after_permissions. rewrite E.
    eapply ht_weaken; [apply (permissions_ht t0 existing ps (stored_keys existing)); [done|..|done]| |].
    - pose proof (Catalog.v_keys _ _ Hv) as Hnd. by rewrite E in Hnd.
    - intros t ->. constructor; [done|by destruct t0|apply perms_stay_refl|by intros ? ?%not_elem_of_nil|by intros ? ?%not_elem_of_nil|].
      intros k id. by apply stored_keys_means.
    - intros got t H. split; [apply H|]. split; [apply H|done]. }
  intros [keys r1]. cbn [fst]. eapply (RoleTheorems.ht_try _ _ _ _ (fun _ t => exists t1, after_permissions m t0 keys t1 /\ after_roles m t1 t)).
  { apply ht_at. intros t1 H1. pose proof H1 as (Hw1 & Hk1 & _). apply ht_section.
    - intros E t ->. exists t1. split; [done|]. unfold after_roles. by rewrite E.
    - intros rs E. eapply ht_bind; [|intros l; apply ht_ret; intros t H; exact H]. eapply ht_weaken; [apply (roles_both t1 keys rs); [done|done|]|done|].
      + pose proof (Catalog.v_names _ _ Hv) as Hnd. by rewrite E in Hnd.
      + intros l t [H2 H3]. exists t1. split; [done|]. unfold after_roles. rewrite E. split; [apply H2|done]. }
  intros r2. eapply (RoleTheorems.ht_try _ _ _ _ (fun _ t => exists t1 t2, after_permissions m t0 keys t1 /\ after_roles m t1 t2 /\ after_routes m t2 t)).
  { apply ht_at. intros t2 (t1 & H1 & H2). pose proof H2 as (Hw2 & H2'). assert (t_perms t2 = t_perms t1) as Hp.
    { destruct (Catalog.Roles m); [apply H2'|by subst]. } apply ht_section.
    - intros E t ->. exists t1, t2. split; [done|]. split; [done|]. unfold after_routes. by rewrite E.
    - intros rts E. eapply ht_bind; [|intros l; apply ht_ret; intros t H; exact H]. eapply ht_weaken; [apply (routes_ht t2 keys rts); [done|]|done|].
      + rewrite Hp. apply H1.
      + intros l t H. exists t1, t2. split; [done|]. split; [done|]. unfold after_routes. rewrite E. split; [apply H|done]. }
  intros r3. apply ht_at. intros t3 (t1 & t2 & H1 & H2 & H3).
  assert (t_apps t3 !! app = Some a) as Ha3.
  { destruct H1 as (_ & _ & H1), H2 as (_ & H2), H3 as (_ & H3).
    assert (t_apps t3 = t_apps t2) as -> by (destruct (Catalog.Routes m); [by rewrite (ta_only _ _ _ H3)|by subst]).
    assert (t_apps t2 = t_apps t1) as -> by (destruct (Catalog.Roles m); [apply H2|by subst]).
    destruct (Catalog.Permissions m); [by rewrite (pa_only _ _ _ _ H1)|by subst]. }
  eapply RoleTheorems.ht_try; [by apply bump_ht|]. intros v. apply ht_ret. intros t [-> ->] _. cbn. split; [by rewrite Hav|]. by eapply put_together.
Qed.

End Sections.

End CatalogProps.
