(* ===== verification/CatalogTheorems.v ===== *)
(** What the handlers of roles, of the catalogue and of its feeds come to: the
    tables stay whole, roles stay flat, a document applied is what its
    application has and nothing else is touched ([CatalogTheorems]), and a feed
    changes only what a document applied changes, and writes down how it went
    ([CatalogFeeds]). *)

From Stdlib Require Import ZArith Lia Bool Ascii String.
From stdpp Require Import base gmap strings list sorting relations.
From S2P Require Import Prelude.
From S2P Require Import Triples.
From S2P Require Import GoStrings.
From S2P Require Import GoConv.
From S2P Require Import Shared.
From S2P Require Import AdminGuard.
From S2P Require Import ScopeTree.
From S2P Require Import TreeProps.
From S2P Require Import Db.
From S2P Require Import MemberStore.
From S2P Require Import MemberAdmin.
From S2P Require Import Catalog.
From S2P Require Import Roles.
From S2P Require Import RoleAdmin.
From S2P Require Import RoleProps.
From S2P Require Import CatalogProps.

(** * What the handlers of roles and of the catalogue come to: the tables stay
    whole, roles stay flat, a document applied is what its application has, and
    nothing else is touched. *)
Module CatalogTheorems.
Import Apperr Authctx Pg Db RoleGraph Roles RoleStore RoleAdmin RoleProps RoleKeeps RoleTheorems CatalogProps CatalogSync SourceProps.
Import MemberAdmin (ACtx).
Import MemberStore (Text, tx_ToLower).
Import ScopeTree (find_row).

(** ** Whatever is asked, by whomever, whatever fails *)
Inductive Request :=
| RListRoles (name : string) | RCreateRole (r : RoleRecord) (ps pts : list string) | RUpdateRole (r : RoleRecord) (ps pts : list string)
| RGetRoleEffective (id : string) | RListPermissions (slug : string) (deprecated : bool)
| RApplyManifest (slug document format : string) (dry : bool)
| RListSources | RListRuns (id : string) (limit : Z) | RCreateSource (i : SourceInput) | RUpdateSource (i : SourceInput) | RDeleteSource (id : string)
| RRunSource (id : string) (dry : bool) | RRunDue (at_ : Time) (limit : Z).

Definition done_with {S E A} (m : Eff S E A) : S -> S := fun s => snd (m s).
Definition serve (env : Env) (w : World) (tx : Text) (unmarshal : string -> option Catalog.Document) (ac : ACtx) (fd : Feed) (r : Request) : Store Tables -> Store Tables :=
  match r with
  | RListRoles n => done_with (ListRoles env tx ac n)
  | RCreateRole r ps pts => done_with (CreateRole env w ac r ps pts)
  | RUpdateRole r ps pts => done_with (UpdateRole env w ac r ps pts)
  | RGetRoleEffective id => done_with (GetRoleEffective env tx ac id)
  | RListPermissions slug b => done_with (RoleAdmin.ListPermissions env tx ac slug b)
  | RApplyManifest slug d f dry => done_with (ApplyManifest env w tx unmarshal ac slug d f dry)
  | RListSources => done_with (ListSourcesH env tx ac)
  | RListRuns id limit => done_with (ListRunsH env ac id limit)
  | RCreateSource i => done_with (CreateSourceH env w ac fd i)
  | RUpdateSource i => done_with (UpdateSourceH env w ac fd i)
  | RDeleteSource id => done_with (DeleteSourceH env ac id)
  | RRunSource id dry => done_with (RunSource env w tx unmarshal ac fd id dry)
  | RRunDue at_ limit => done_with (RunDue env w tx unmarshal ac fd at_ limit)
  end.
(** For good. *)
Definition applies (r : Request) : bool :=
  match r with RApplyManifest _ _ _ dry | RRunSource _ dry => negb dry | RRunDue _ _ => true | _ => false end.

(** Requests one after another; each has its own caller, its own database
    failures and clock, what the feeds give then, and the uuids the database
    makes. *)
Inductive reached (s0 : Store Tables) (allowed : Request -> Prop) : Store Tables -> Prop :=
| reached_start : reached s0 allowed s0
| reached_next s env w tx unmarshal ac fd r : (forall k n, Uuid.canon (ev_id env k n) = Some (ev_id env k n)) -> allowed r ->
    reached s0 allowed s -> reached s0 allowed (serve env w tx unmarshal ac fd r s).

(** A dry run keeps whatever held. *)
Lemma dry_keeps env w tx unmarshal ac actor slug document format Inv : keeps Inv (applyCatalog env w tx unmarshal ac actor slug document format true).
Proof. unfold applyCatalog, ApplicationBySlug. keeps_with fail. Qed.

(** What is kept by the handlers of roles, by the feeds, and by applying. *)
Lemma served_keeps Inv env w tx unmarshal ac fd r :
  (forall t t', feed_alone t t' -> Inv t -> Inv t') ->
  (forall r ps pts, keeps Inv (CreateRole env w ac r ps pts)) -> (forall r ps pts, keeps Inv (UpdateRole env w ac r ps pts)) ->
  (applies r = true -> forall actor slug document format, keeps Inv (applyCatalog env w tx unmarshal ac actor slug document format false)) ->
  keeps Inv (fun s => (Ok (E := Error) tt, serve env w tx unmarshal ac fd r s)).
Proof.
  intros Hf Hc Hu Ha. assert (forall dry, (dry = false -> applies r = true) ->
    forall actor slug document format, keeps Inv (applyCatalog env w tx unmarshal ac actor slug document format dry)) as Ha'.
  { intros [] Hd *; [apply dry_keeps|by apply Ha, Hd]. }
  intros s. destruct r; cbn [serve snd].
  - apply (keeps_ListRoles env tx ac Inv).
  - apply Hc.
  - apply Hu.
  - apply (keeps_GetRoleEffective env tx ac Inv).
  - apply (keeps_ListPermissions env tx ac Inv).
  - revert s. unfold ApplyManifest. apply keeps_bind; [by intros s|]. intros p. apply Ha'. by intros ->.
  - by apply keeps_ListSourcesH.
  - by apply keeps_ListRunsH.
  - by apply keeps_CreateSourceH.
  - by apply keeps_UpdateSourceH.
  - by apply keeps_DeleteSourceH.
  - apply keeps_RunSource; [done|]. intros *. apply Ha'. by intros ->.
  - apply keeps_RunDue; [done|]. intros *. by apply Ha.
Qed.

Lemma catalogue_served_whole env w tx unmarshal ac fd r s : (forall k n, Uuid.canon (ev_id env k n) = Some (ev_id env k n)) ->
  st_tx s = NoTx -> Whole (st_tables s) -> st_tx (serve env w tx unmarshal ac fd r s) = NoTx /\ Whole (st_tables (serve env w tx unmarshal ac fd r s)).
Proof.
  intros Hids. apply (served_keeps Whole); intros *; [apply feed_alone_whole|by apply whole_CreateRole|by apply whole_UpdateRole|].
  intros _ *. by apply whole_applyCatalog.
Qed.

Lemma catalogue_history_whole s0 allowed s : st_tx s0 = NoTx -> Whole (st_tables s0) -> reached s0 allowed s -> st_tx s = NoTx /\ Whole (st_tables s).
Proof. intros Hx Hw H. induction H as [|s env w tx u ac fd r Hids _ H [Hx' Hw']]; [done|]. by apply catalogue_served_whole. Qed.

Lemma served_flat env w tx unmarshal ac fd r s : (forall k n, Uuid.canon (ev_id env k n) = Some (ev_id env k n)) -> applies r = false ->
  st_tx s = NoTx -> AllFlat (st_tables s) -> st_tx (serve env w tx unmarshal ac fd r s) = NoTx /\ AllFlat (st_tables (serve env w tx unmarshal ac fd r s)).
Proof.
  intros Hids Hr. apply (served_keeps AllFlat); intros *; [apply feed_alone_flat|by apply flat_CreateRole|by apply flat_UpdateRole|by rewrite Hr].
Qed.

(** ** The application looked up *)
Lemma app_looked_up env tenant slug s : st_tx s = NoTx ->
  let '(r, s') := ApplicationBySlug env tenant slug s in
  st_tx s' = NoTx /\ st_tables s' = st_tables s /\
  forall rec, r = Ok rec -> exists tid, Uuid.canon tenant = Some tid /\
    (rec = no_application \/ exists app a, t_apps (st_tables s) !! app = Some a /\ ap_Tenant a = tid /\ ap_Slug a = slug /\
       rec = {| al_ID := app; al_Slug := slug; al_Name := ap_Name a; al_ManifestVersion := ap_Version a |}).
Proof.
  intros Hx. unfold ApplicationBySlug, with_uuid. destruct (Uuid.canon tenant) as [tid|]; [|by split].
  destruct (ask _ _ s) as [r s'] eqn:E. destruct r as [rec|e].
  - apply statement_ok in E as (t & n & [= <- <- _] & Hx' & _ & Ht). rewrite Hx', Hx in *. destruct Ht as [_ ->]. split; [done|]. split; [done|].
    intros rec [= <-]. exists tid. split; [done|]. destruct (find_row _ _) as [[app a]|] eqn:Ef; [|by left]. right. apply TreeProps.Whole.find_row_some in Ef as [Ha Hp].
    unbool. by exists app, a; subst.
  - apply statement_err in E as (Ht & _ & Hx'). split; [by apply Hx'|]. by split.
Qed.

(** Nothing can be applied to an application that is not there. *)
Lemma no_app_ht env w tx tenant m r0 W : ht W (apply env w tx tenant no_application m r0) (ends_well (fun _ _ => False)).
Proof.
  unfold apply. eapply (ht_try _ _ _ _ (fun _ _ => True)); [done|]. intros existing.
  eapply (ht_try _ _ _ _ (fun _ _ => True)); [done|]. intros [keys r1].
  eapply (ht_try _ _ _ _ (fun _ _ => True)); [done|]. intros r2. eapply (ht_try _ _ _ _ (fun _ _ => True)); [done|]. intros r3.
  eapply (ht_try _ _ _ _ (fun _ _ => False)); [apply ht_raise|]. intros v. by apply ht_ret.
Qed.

Section Applied.
Context (env : Env) (w : World) (tx : Text) (unmarshal : string -> option Catalog.Document) (ac : ACtx).
Hypothesis ids_print : forall k n, Uuid.canon (ev_id env k n) = Some (ev_id env k n).

(** The application [a] named and the document read. *)
Record asked_for (actor : applyActor) (slug document format : string) (t : Tables) (tid app : string) (a : AppRow) (m : Catalog.Document) : Prop := {
  af_tenant : Uuid.canon (aa_TenantID actor) = Some tid;
  af_app : t_apps t !! app = Some a;
  af_names : ap_Tenant a = tid /\ ap_Slug a = slug;
  af_document : Catalog.Parse (tx_ToLower tx) unmarshal document format = Ok m
}.

Definition as_asked (actor : applyActor) (slug document format : string) (t : Tables) (v : Z) (t' : Tables) : Prop :=
  exists tid app a m, asked_for actor slug document format t tid app a m /\ v = (ap_Version a + 1)%Z /\
    brought w tid app slug (ap_Name a) (ap_Version a) m t t' /\ spared tid app slug (ap_Name a) (ap_Version a) m t t'.

Lemma for_good_ok tid app a m actor slug document format r0 s d s' : st_tx s = NoTx -> Whole (st_tables s) ->
  asked_for actor slug document format (st_tables s) tid app a m -> Catalog.Validate (tx_ToLower tx) m = None ->
  for_good env (apply env w tx (aa_TenantID actor) {| al_ID := app; al_Slug := slug; al_Name := ap_Name a; al_ManifestVersion := ap_Version a |} m r0) s = (Ok d, s') ->
  dr_version d = (ap_Version a + 1)%Z /\ brought w tid app slug (ap_Name a) (ap_Version a) m (st_tables s) (st_tables s') /\
  spared tid app slug (ap_Name a) (ap_Version a) m (st_tables s) (st_tables s').
Proof using ids_print.
  intros Hx Hw [Ht Ha [Hat Has] Hp] Hv E. assert (Uuid.canon app = Some app) as Happ by (apply (wh_apps _ Hw); by exists a).
  apply Catalog.Validate_ok in Hv.
  pose proof (ht_tx env _ _ _ (ht_outcome _ _ _ (apply_ht env w tx ids_print _ tid app slug (ap_Name a) (ap_Version a) Ht Happ _ m (st_tables s) a r0 Hw Ha Hat Has eq_refl Hv))) as H.
  destruct (H s d s' eq_refl E) as (_ & H1 & H2 & H3). done.
Qed.

Lemma for_good_err m s e s' : st_tx s = NoTx -> for_good env m s = (Err e, s') -> st_tables s' = st_tables s /\ st_tx s' = NoTx.
Proof using. intros Hx E. by apply transaction_err in E. Qed.

(** An apply, for good or dry, and what it leaves. *)
Lemma applied actor slug document format dry s r s' : st_tx s = NoTx -> Whole (st_tables s) ->
  applyCatalog env w tx unmarshal ac actor slug document format dry s = (r, s') ->
  st_tx s' = NoTx /\
  match r with
  | Ok (_, v) => if dry then st_tables s' = st_tables s else as_asked actor slug document format (st_tables s) v (st_tables s')
  | Err _ => st_tables s' = st_tables s
  end.
Proof using ids_print.
  intros Hx Hw E. unfold applyCatalog in E. rewrite attempt_bind in E. pose proof (app_looked_up env (aa_TenantID actor) slug s Hx) as Hl.
  destruct (ApplicationBySlug env (aa_TenantID actor) slug s) as [got s1]. cbn [fst snd] in E. destruct Hl as (Hx1 & Ht1 & Hgot).
  destruct got as [rec|e]; [|by injection E as <- <-]. destruct (Hgot _ eq_refl) as (tid & Htid & Hrec). clear Hgot.
  unfold mbind, eff_bind, lift in E. destruct (Catalog.Parse _ _ _ _) as [m|e] eqn:Ep; [|by injection E as <- <-].
  destruct (Catalog.Validate _ m) as [e|] eqn:Ev; [by injection E as <- <-|]. destruct (_ =? 0)%nat; [by injection E as <- <-|]. destruct dry.
  - destruct (dry_run_same env (apply env w tx (aa_TenantID actor) rec m
      {| rp_dry := true; rp_sections := Catalog.Sections m; rp_permissions := None; rp_roles := None; rp_routes := None |}) s1 Hx1) as [Hx2 Ht2].
    destruct (DryRun _ _ s1) as [[d|e] s2]; injection E as <- <-; cbn in *; by rewrite Ht2, Ht1.
  - destruct (for_good env _ s1) as [[d|e] s2] eqn:Eg.
    + injection E as <- <-. cbn. pose proof Eg as Eg0. apply transaction_ok in Eg0 as (sx & _ & _ & _ & _ & Hx2 & _); [|done]. split; [done|].
      destruct Hrec as [->|(app & a & Ha & Hat & Has & ->)].
      * apply (ht_tx env (fun _ => True) _ (fun _ _ => False)) in Eg; [done| |done].
        eapply (ht_weaken _ (fun _ => True)); [apply ht_outcome, no_app_ht|done|by intros ? ? [_ H]].
      * rewrite <- Ht1 in Hw, Ha. assert (asked_for actor slug document format (st_tables s1) tid app a m) as Haf by (by constructor).
        destruct (for_good_ok _ _ _ _ _ _ _ _ _ _ _ _ Hx1 Hw Haf Ev Eg) as (Hv & Hb & Hs). exists tid, app, a, m. rewrite <- Ht1. done.
    + injection E as <- <-. apply for_good_err in Eg as [Ht2 Hx2]; [|done]. by rewrite Ht2, Ht1.
Qed.

(** C7: A catalogue document applied is what its application has: each
    permission, role and route the document names is there as it says, with a role naming
    exactly the permissions and patterns it is given, with nothing above it, and
    flat; what a declared section no longer names is deprecated, or gone if a
    route; and the application's version goes up by one. *)
Theorem manifest_is_applied actor slug document format s rep v s' : st_tx s = NoTx -> Whole (st_tables s) ->
  applyCatalog env w tx unmarshal ac actor slug document format false s = (Ok (rep, v), s') ->
  exists tid app a m, asked_for actor slug document format (st_tables s) tid app a m /\ v = (ap_Version a + 1)%Z /\
    brought w tid app slug (ap_Name a) (ap_Version a) m (st_tables s) (st_tables s').
Proof using ids_print.
  intros Hx Hw E. destruct (applied _ _ _ _ _ _ _ _ Hx Hw E) as [_ (tid & app & a & m & Haf & Hv & Hb & _)]. by exists tid, app, a, m.
Qed.

(** C8: An apply that fails and a dry run change nothing; one that succeeds leaves
    every other application's permissions, roles and routes, every role an operator made with all it
    names, every section the document does not declare, and deletes no
    permission and no role.  A spreadsheet touches no route. *)
Theorem manifest_is_confined actor slug document format dry s r s' : st_tx s = NoTx -> Whole (st_tables s) ->
  applyCatalog env w tx unmarshal ac actor slug document format dry s = (r, s') ->
  match r with
  | Ok _ => if dry then st_tables s' = st_tables s
            else exists tid app a m, asked_for actor slug document format (st_tables s) tid app a m /\
                   spared tid app slug (ap_Name a) (ap_Version a) m (st_tables s) (st_tables s')
  | Err _ => st_tables s' = st_tables s
  end /\
  (tx_ToLower tx (TrimSpace format) = Catalog.FormatCSV -> t_routes (st_tables s') = t_routes (st_tables s)).
Proof using ids_print.
  intros Hx Hw E. destruct (applied _ _ _ _ _ _ _ _ Hx Hw E) as [_ H]. destruct r as [[rep v]|e]; [|by rewrite H]. destruct dry; [by rewrite H|].
  destruct H as (tid & app & a & m & Haf & Hv & _ & Hs). split; [by exists tid, app, a, m|]. intros Hcsv. apply (sp_no_routes _ _ _ _ _ _ _ _ Hs).
  pose proof (af_document _ _ _ _ _ _ _ _ _ Haf) as Hp. unfold Catalog.Parse in Hp. rewrite Hcsv in Hp. by apply Catalog.parseCSV_one_sheet in Hp as [].
Qed.

End Applied.

(** ** At all times *)


(** C10: As long as no document is applied for good, each role is stored with
    exactly the permissions that it and the roles above it name, each by a role
    that does name it: creating or editing a role brings every role below it in step. *)
Theorem roles_stay_flat (s0 s : Store Tables) : st_tx s0 = NoTx -> Whole (st_tables s0) -> (forall r, flat_at (st_tables s0) r) ->
  reached s0 (fun r => applies r = false) s ->
  forall r p, (is_Some (t_effective (st_tables s) !! (r, p)) <-> exists v, via (st_tables s) r p v) /\
    forall v, t_effective (st_tables s) !! (r, p) = Some v -> via (st_tables s) r p v.
Proof.
  intros Hx Hw Hf H. assert (st_tx s = NoTx /\ AllFlat (st_tables s)) as (_ & _ & Hflat).
  { induction H as [|s env w tx u ac fd r Hids Hr H [Hx' Hw']]; [by split|]. by apply served_flat. }
  intros r p. destruct (Hflat r) as [F1 F2]. split; [|apply F1]. split; [intros [v E]; exists v; by apply F1|intros [v E]; by eapply F2].
Qed.

(** C11: The walk that recomputes a role ends after one round more than there are
    edges, however many loops the graph has, and names exactly the role and those
    above it; what it stores of the role is what these give it, once each. *)
Theorem recompute_is_the_closure (w : World) (t : Tables) (r : string) :
  worked (t_parents t) (rounds (t_parents t)) [start r] = [] /\
  (forall x, x ∈ ancestors (t_parents t) r <-> rtc (edge (t_parents t)) r x) /\
  (forall n t' n', role_recompute_effective w r (t, n) = (Ok tt, (t', n')) ->
     flat_at t' r /\ (forall s p, s <> r -> t_effective t' !! (s, p) = t_effective t !! (s, p)) /\ t' = with_effective t (t_effective t')).
Proof.
  split; [apply walk_ends|]. split; [intros x; apply elem_of_ancestors|]. intros n t' n' E.
  destruct (recompute_sql w r (fun t1 => t1 = t) t n tt t' n' eq_refl E) as (t1 & -> & ->).
  split; [apply recomputed_flat|]. split; [intros s p; apply recomputed_else|done].
Qed.

End CatalogTheorems.

(** * What a run of a feed comes to: it changes what a document applied changes and
    nothing else, and how it ended is written down whatever happens. *)
Module CatalogFeeds.
Import Apperr Authctx Pg Db Roles RoleStore RoleAdmin RoleProps RoleKeeps RoleTheorems CatalogProps CatalogSync SourceProps CatalogTheorems.
Import MemberAdmin (ACtx).
Import MemberStore (Text).

(** ** One run *)
Section Feeds.
Context (env : Env) (w : World) (tx : Text) (unmarshal : string -> option Catalog.Document) (ac : ACtx) (fd : Feed).
Hypothesis ids_print : forall k n, Uuid.canon (ev_id env k n) = Some (ev_id env k n).

Definition as_system (src : Source) : applyActor := {| aa_TenantID := sr_TenantID src; aa_IdentityID := ""; aa_SessionID := ""; aa_Kind := "system" |}.
(** [document] applied to the source's application between two changes of feeds. *)
Definition fed (src : Source) (document : string) (t t' : Tables) : Prop :=
  exists t1 v t2, feed_alone t t1 /\ as_asked w tx unmarshal (as_system src) (sr_ApplicationSlug src) document (sr_Format src) t1 v t2 /\ feed_alone t2 t'.

Lemma alone_stays t0 : forall t t', feed_alone t t' -> feed_alone t0 t -> feed_alone t0 t'.
Proof using. intros t t' H1 H2. by etrans. Qed.
Lemma alone_run {A} (m : Eff (Store Tables) Error A) s : (forall t0, keeps (feed_alone t0) m) -> st_tx s = NoTx ->
  st_tx (snd (m s)) = NoTx /\ feed_alone (st_tables s) (st_tables (snd (m s))).
Proof using. intros H Hx. by apply H. Qed.

(** What an apply leaves, whether it answers or not. *)
Definition applied_or_not (src : Source) (document : string) (dry : bool) (t t' : Tables) : Prop :=
  feed_alone t t' \/ (dry = false /\ fed src document t t').
Lemma applied_or_not_after src document dry t t1 t2 t3 :
  feed_alone t t1 -> applied_or_not src document dry t1 t2 -> feed_alone t2 t3 -> applied_or_not src document dry t t3.
Proof using.
  intros H1 [H|(Hd & a & v & b & Ha & Hv & Hb)] H3; [left; by do 2 (etrans; [eassumption|])|right]. split; [done|]. exists a, v, b. repeat split; [by etrans|done|by etrans].
Qed.

Lemma apply_feeds src document dry s : st_tx s = NoTx -> Whole (st_tables s) ->
  let s' := snd (ApplyDocumentAsSystem env w tx unmarshal ac (sr_TenantID src) (sr_ApplicationSlug src) document (sr_Format src) dry s) in
  st_tx s' = NoTx /\ applied_or_not src document dry (st_tables s) (st_tables s').
Proof using ids_print.
  intros Hx Hw. destruct (ApplyDocumentAsSystem _ _ _ _ _ _ _ _ _ _ s) as [r s'] eqn:E.
  apply (applied env w tx unmarshal ac ids_print) in E as [Hx' H]; [|done..]. split; [done|]. cbn. unfold applied_or_not.
  destruct r as [[rep v]|e]; [|left; by rewrite H]. destruct dry; [left; by rewrite H|right]. split; [done|]. by exists (st_tables s), v, (st_tables s').
Qed.

(** Steps that only touch feeds, around one that may apply. *)
Definition runs_as {A} (src : Source) (dry : bool) (m : Eff (Store Tables) Error A) : Prop :=
  forall s, st_tx s = NoTx -> Whole (st_tables s) -> st_tx (snd (m s)) = NoTx /\
    (feed_alone (st_tables s) (st_tables (snd (m s))) \/
     exists document, fd_fetch fd src = Ok document /\ applied_or_not src document dry (st_tables s) (st_tables (snd (m s)))).
Lemma runs_as_alone {A} src dry (m : Eff (Store Tables) Error A) : (forall t0, keeps (feed_alone t0) m) -> runs_as src dry m.
Proof using. intros H s Hx _. destruct (alone_run m s H Hx). eauto. Qed.
Lemma runs_as_after {A B} src dry (m : Eff (Store Tables) Error A) (f : A -> Eff (Store Tables) Error B) :
  (forall t0, keeps (feed_alone t0) m) -> (forall a, runs_as src dry (f a)) -> runs_as src dry (m ≫= f).
Proof using.
  intros Hm Hf s Hx Hw. destruct (alone_run m s Hm Hx) as [Hx1 H1]. unfold mbind, eff_bind. destruct (m s) as [[a|e] s1]; cbn in *; [|eauto].
  destruct (Hf a s1 Hx1) as [Hx2 H2]; [by eapply feed_alone_whole|]. split; [done|]. destruct H2 as [H2|(d & Hd & H2)]; [left; by etrans|right].
  exists d. split; [done|]. by eapply applied_or_not_after.
Qed.
Lemma runs_as_before {A B} src dry document (m : Eff (Store Tables) Error A) (f : A -> Eff (Store Tables) Error B) :
  fd_fetch fd src = Ok document ->
  (forall s, st_tx s = NoTx -> Whole (st_tables s) -> st_tx (snd (m s)) = NoTx /\ applied_or_not src document dry (st_tables s) (st_tables (snd (m s)))) ->
  (forall a t0, keeps (feed_alone t0) (f a)) -> runs_as src dry (m ≫= f).
Proof using.
  intros Hd Hm Hf s Hx Hw. destruct (Hm s Hx Hw) as [Hx1 H1]. unfold mbind, eff_bind. destruct (m s) as [[a|e] s1]; cbn in *; [|eauto].
  destruct (alone_run (f a) s1 (Hf a) Hx1) as [Hx2 H2]. split; [done|]. right. exists document. split; [done|]. by eapply applied_or_not_after.
Qed.
Lemma runs_as_deferred {A} src dry (m : Eff (Store Tables) Error A) d : runs_as src dry m -> (forall t0, keeps (feed_alone t0) d) -> runs_as src dry (deferred m d).
Proof using.
  intros Hm Hd s Hx Hw. unfold deferred. destruct (Hm s Hx Hw) as [Hx1 H1]. destruct (m s) as [r s1]. cbn in *.
  destruct (alone_run d s1 Hd Hx1) as [Hx2 H2]. split; [done|]. destruct H1 as [H1|(c & Hc & H1)]; [left; by etrans|right].
  exists c. split; [done|]. by eapply applied_or_not_after.
Qed.

Lemma run_source_runs src actor dry : runs_as src dry (run_source env w tx unmarshal ac fd src actor dry).
Proof using ids_print.
  assert (forall id status digest report errMsg t0, keeps (feed_alone t0) (finish env w id status digest report errMsg)) as Hfin
    by (intros *; apply keeps_finish, alone_stays).
  unfold run_source, carry_out. apply runs_as_after; [intros t0; apply keeps_StartRun, alone_stays|]. intros runID. apply runs_as_deferred.
  - destruct (fd_fetch fd src) as [document|e] eqn:Ed; [|apply runs_as_alone; intros t0; keeps_with ltac:(apply Hfin)].
    apply runs_as_after; [intros t0; unfold LastAppliedDigest; keeps_with fail|]. intros [].
    + apply runs_as_alone. intros t0. keeps_with ltac:(first [apply Hfin|apply keeps_lastRun]).
    + apply (runs_as_before _ _ document); [done| |intros [[]|] t0; keeps_with ltac:(first [apply Hfin|apply keeps_lastRun])].
      intros s Hx Hw. pose proof (apply_feeds src document dry s Hx Hw) as H. unfold attempt. by destruct (ApplyDocumentAsSystem _ _ _ _ _ _ _ _ _ _ s).
  - intros t0. keeps_with ltac:(apply keeps_ScheduleNext, alone_stays).
Qed.

(** C12: A run of a feed, whatever fails in it, changes nothing but the feeds and
    their runs, unless it is for good and the document it fetched is applied, as the
    system, to the application the source names. *)
Theorem feed_run_is_an_apply src actor dry s r s' : st_tx s = NoTx -> Whole (st_tables s) ->
  run_source env w tx unmarshal ac fd src actor dry s = (r, s') ->
  st_tx s' = NoTx /\ Whole (st_tables s') /\
  (feed_alone (st_tables s) (st_tables s') \/ exists document, dry = false /\ fd_fetch fd src = Ok document /\ fed src document (st_tables s) (st_tables s')).
Proof using ids_print.
  intros Hx Hw E. pose proof (run_source_runs src actor dry s Hx Hw) as H.
  pose proof (keeps_run_source env w tx unmarshal ac fd Whole feed_alone_whole dry
    (fun _ _ _ _ => whole_applyCatalog _ _ _ _ _ ids_print _ _ _ _ _) src actor s Hx Hw) as Hk.
  rewrite E in H, Hk. cbn in *. destruct H as [Hx' H]. split; [done|]. split; [apply Hk|].
  destruct H as [H|(document & Hd & [H|[Hdry H]])]; [by left..|right]. by exists document.
Qed.

(** *** While the database answers *)
Section Answering.
Hypothesis never_fails : forall k, ev_fails env k = false.
Hypothesis reports_print : forall rep v, is_Some (wo_jsonb w (fd_report fd rep v)).
Abbreviation skipped_report := ("{" ++ ScopeTree.quoted "skipped" ++ ":" ++ ScopeTree.quoted "document unchanged" ++ "}")%string.
Hypothesis skipped_prints : is_Some (wo_jsonb w skipped_report).

Lemma run_answers {A} (q : (nat -> string) -> Sql_ Tables A) s : st_tx s = NoTx ->
  run env q s = match q (ev_id env (st_calls s)) (st_tables s, 0) with
                | (Err e, _) => (Err (MapErr (Raised e)), called s)
                | (Ok a, (t, _)) => (Ok a, with_tables (called s) t)
                end.
Proof using never_fails. intros Hx. unfold run, statement. cbn. rewrite Hx, never_fails. unfold aborting. cbn. by rewrite Hx. Qed.

(** What is so of a run and of its source while it goes. *)
Definition tracks (runID c : string) (x : RunRow) (row : SourceRow) (s : Store Tables) : Prop :=
  st_tx s = NoTx /\ t_runs (st_tables s) !! runID = Some x /\ t_sources (st_tables s) !! c = Some row.

Lemma StartRun_tracks src actor dry s c row runID s1 : Uuid.canon (sr_ID src) = Some c -> st_tx s = NoTx -> t_sources (st_tables s) !! c = Some row ->
  StartRun env w (sr_ID src) (sr_TenantID src) actor dry s = (Ok runID, s1) ->
  exists tid, Uuid.canon runID = Some runID /\ tracks runID c (started (ev_now env) c tid actor dry) row s1 /\ feed_alone (st_tables s) (st_tables s1).
Proof using never_fails ids_print.
  intros Hc Hx Hrow E. unfold StartRun, with_uuid in E. rewrite Hc in E. destruct (Uuid.canon (sr_TenantID src)) as [tid|]; [|done]. exists tid.
  rewrite run_answers in E by done. unfold start_run, mbind, eff_bind, fresh, must, change in E. cbn -[ScopeTree.first_of] in E. destruct (ScopeTree.first_of _); [done|].
  injection E as <- <-. split; [apply ids_print|]. split; [|apply with_runs_alone]. split; [done|]. split; [apply lookup_insert_eq|done].
Qed.

Lemma finish_tracks runID c x row status digest report errMsg s : Uuid.canon runID = Some runID ->
  status ∈ ["ok"; "failed"; "dry_run"; "skipped"]%string -> report = ""%string \/ is_Some (wo_jsonb w report) -> tracks runID c x row s ->
  exists j, tracks runID c (finished (ev_now env) status digest j errMsg x) row (snd (finish env w runID status digest report errMsg s)) /\
    feed_alone (st_tables s) (st_tables (snd (finish env w runID status digest report errMsg s))).
Proof using never_fails.
  intros Hc Hst Hrep (Hx & Hr & Hrow).
  assert (forall j, run_checks (finished (ev_now env) status digest j errMsg x) = None) as Hok
    by (intros j; unfold run_checks; cbn; rewrite bool_decide_eq_true_2; [done|by apply list_elem_of_further]).
  assert (exists j, finish_run (ev_now env) w runID status digest report errMsg (st_tables s, 0)
    = (Ok tt, (with_runs (st_tables s) (alter (finished (ev_now env) status digest j errMsg) runID (t_runs (st_tables s))), 0))) as [j Ej].
  { unfold finish_run. case_bool_decide as Hn; [exists None|destruct Hrep as [|[j Hj]]; [done|]; exists (Some j); unfold jsonb; rewrite Hj];
      unfold mbind, eff_bind, must, change; cbn; by rewrite Hr, Hok. }
  exists j. unfold finish, FinishRun, with_uuid, attempt, mbind, eff_bind. rewrite Hc, run_answers, Ej by done. cbn.
  split; [|apply with_runs_alone]. split; [done|]. split; [|done]. etrans; [apply lookup_alter_eq|by rewrite Hr].
Qed.

Lemma lastRun_answers id c s : Uuid.canon id = Some c -> st_tx s = NoTx ->
  exists o, lastRun env id s = (Ok o, with_tables (called s) (st_tables s)).
Proof using never_fails. intros Hc Hx. unfold lastRun, ListRuns, with_uuid, ask, mbind, eff_bind. rewrite Hc, run_answers by done. cbn. eauto. Qed.

Lemma apply_tracks src document dry runID c x row s r s' : Whole (st_tables s) -> tracks runID c x row s ->
  ApplyDocumentAsSystem env w tx unmarshal ac (sr_TenantID src) (sr_ApplicationSlug src) document (sr_Format src) dry s = (r, s') ->
  tracks runID c x row s' /\
  match r with
  | Ok (_, v) => if dry then st_tables s' = st_tables s
                 else as_asked w tx unmarshal (as_system src) (sr_ApplicationSlug src) document (sr_Format src) (st_tables s) v (st_tables s')
  | Err _ => st_tables s' = st_tables s
  end.
Proof using ids_print.
  intros Hw (Hx & Hr & Hrow) E. apply (applied env w tx unmarshal ac ids_print) in E as [Hx' H]; [|done..]. split; [|done].
  assert (t_sources (st_tables s') = t_sources (st_tables s) /\ t_runs (st_tables s') = t_runs (st_tables s)) as [E1 E2].
  { destruct r as [[rep v]|e]; [destruct dry|]; [by rewrite H| |by rewrite H]. destruct H as (tid & app & a & m & _ & _ & _ & Hs). apply (sp_feeds _ _ _ _ _ _ _ _ Hs). }
  unfold tracks. by rewrite E1, E2.
Qed.

(** How a run ended. *)
Inductive ended (src : Source) (c : string) (dry : bool) (t1 : Tables) : result Error (option Run) -> RunRow -> Tables -> Prop :=
| ended_unfetched e x t' : fd_fetch fd src = Err e -> rn_Status x = RunFailed -> rn_Error x = Error_text e -> feed_alone t1 t' ->
    ended src c dry t1 (Err e) x t'
| ended_skipped document o x t' : fd_fetch fd src = Ok document -> dry = false -> last_applied t1 c = fd_digest fd document ->
    rn_Status x = RunSkipped -> rn_DocumentSha x = fd_digest fd document -> feed_alone t1 t' -> ended src c dry t1 (Ok o) x t'
| ended_failed document e x t' : fd_fetch fd src = Ok document -> dry = true \/ last_applied t1 c <> fd_digest fd document ->
    rn_Status x = RunFailed -> rn_DocumentSha x = fd_digest fd document -> rn_Error x = Error_text e -> feed_alone t1 t' -> ended src c dry t1 (Err e) x t'
| ended_dry document o x t' : fd_fetch fd src = Ok document -> dry = true -> rn_Status x = RunDry -> rn_DocumentSha x = fd_digest fd document ->
    feed_alone t1 t' -> ended src c dry t1 (Ok o) x t'
| ended_applied document o x t' : fd_fetch fd src = Ok document -> dry = false -> last_applied t1 c <> fd_digest fd document ->
    rn_Status x = RunOK -> rn_DocumentSha x = fd_digest fd document -> fed src document t1 t' -> ended src c dry t1 (Ok o) x t'.

(** The run is closed, and its source is as it was. *)
Definition closes (src : Source) (c runID : string) (dry : bool) (x : RunRow) (row : SourceRow) (s : Store Tables) (r : result Error (option Run)) (s' : Store Tables) : Prop :=
  exists status digest j errMsg, let x' := finished (ev_now env) status digest j errMsg x in
    tracks runID c x' row s' /\ ended src c dry (st_tables s) r x' (st_tables s').

Lemma closes_looking src c runID dry x row s status digest report errMsg s1 : Uuid.canon (sr_ID src) = Some c -> Uuid.canon runID = Some runID ->
  status ∈ ["ok"; "failed"; "dry_run"; "skipped"]%string -> report = ""%string \/ is_Some (wo_jsonb w report) -> tracks runID c x row s1 ->
  (forall o j t', feed_alone (st_tables s1) t' -> ended src c dry (st_tables s) (Ok o) (finished (ev_now env) status digest j errMsg x) t') ->
  forall r s', (_ ← finish env w runID status digest report errMsg; lastRun env (sr_ID src)) s1 = (r, s') -> closes src c runID dry x row s r s'.
Proof using never_fails.
  intros Hc Hid Hst Hrep Ht He r s' E. destruct (finish_tracks _ _ _ _ _ digest _ errMsg _ Hid Hst Hrep Ht) as (j & Ht' & Ha).
  unfold mbind, eff_bind in E. assert (fst (finish env w runID status digest report errMsg s1) = Ok tt) as Hf
    by (unfold finish, mbind, eff_bind, attempt; by destruct (FinishRun _ _ _ _ _ _ _ _)).
  destruct (finish _ _ _ _ _ _ _ s1) as [q s2]. cbn in Ht', Ha, Hf. subst q.
  destruct (lastRun_answers _ _ _ Hc (proj1 Ht')) as [o Eo]. rewrite Eo in E. injection E as <- <-. exists status, digest, j, errMsg. split; [done|]. by apply He.
Qed.
Lemma closes_failing src c runID dry x row s digest e s1 : Uuid.canon runID = Some runID -> tracks runID c x row s1 ->
  (forall j t', feed_alone (st_tables s1) t' -> ended src c dry (st_tables s) (Err e) (finished (ev_now env) RunFailed digest j (Error_text e) x) t') ->
  forall r s', (_ ← finish env w runID RunFailed digest "" (Error_text e); raise e) s1 = (r, s') -> closes src c runID dry x row s r s'.
Proof using never_fails.
  intros Hid Ht He r s' E. destruct (finish_tracks runID c x row RunFailed digest "" (Error_text e) s1 Hid) as (j & Ht' & Ha); [by apply (bool_decide_unpack _)|by left|done|].
  unfold mbind, eff_bind in E. assert (fst (finish env w runID RunFailed digest "" (Error_text e) s1) = Ok tt) as Hf
    by (unfold finish, mbind, eff_bind, attempt; by destruct (FinishRun _ _ _ _ _ _ _ _)).
  destruct (finish _ _ _ _ _ _ _ s1) as [q s2]. cbn in Ht', Ha, Hf. subst q. injection E as <- <-. exists RunFailed, digest, j, (Error_text e). split; [done|]. by apply He.
Qed.
Lemma carry_out_closes src actor c tid runID dry row s r s' : Uuid.canon (sr_ID src) = Some c -> Uuid.canon runID = Some runID -> Whole (st_tables s) ->
  tracks runID c (started (ev_now env) c tid actor dry) row s -> carry_out env w tx unmarshal ac fd src runID dry s = (r, s') ->
  closes src c runID dry (started (ev_now env) c tid actor dry) row s r s'.
Proof using never_fails ids_print reports_print skipped_prints.
  intros Hc Hid Hw Ht E. unfold carry_out in E. destruct (fd_fetch fd src) as [document|e] eqn:Ed.
  2: { eapply closes_failing; [done|exact Ht| |exact E]. intros j t' H. by apply ended_unfetched. }
  destruct dry.
  - cbn [mbind eff_bind mret eff_ret] in E. unfold mbind at 1, eff_bind at 1 in E. cbn in E. rewrite attempt_bind in E.
    destruct (ApplyDocumentAsSystem _ _ _ _ _ _ _ _ _ _ s) as [q s1] eqn:Ea. cbn [fst snd] in E.
    eapply apply_tracks in Ea as [Ht1 Hq]; [|done..]. destruct q as [[rep v]|e].
    + eapply closes_looking; [..|exact E]; [done|done|by apply (bool_decide_unpack _)|by right|exact Ht1|].
      intros o j t' H. rewrite Hq in H. by eapply ended_dry.
    + eapply closes_failing; [done|exact Ht1| |exact E]. intros j t' H. rewrite Hq in H. eapply ended_failed; eauto.
  - unfold mbind at 1, eff_bind at 1 in E. rewrite attempt_bind in E. unfold LastAppliedDigest, with_uuid, ask in E. rewrite Hc, run_answers in E by apply Ht. cbn in E.
    case_bool_decide as Hl.
    + eapply closes_looking; [..|exact E]; [done|done|by apply (bool_decide_unpack _)|by right|exact Ht|].
      intros o j t' H. by eapply ended_skipped.
    + rewrite attempt_bind in E. destruct (ApplyDocumentAsSystem _ _ _ _ _ _ _ _ _ _ _) as [q s1] eqn:Ea. cbn [fst snd] in E.
      eapply apply_tracks in Ea as [Ht1 Hq]; [|done|exact Ht]. destruct q as [[rep v]|e].
      * eapply closes_looking; [..|exact E]; [done|done|by apply (bool_decide_unpack _)|by right|exact Ht1|].
        intros o j t' H. eapply ended_applied; try done. exists (st_tables s), v, (st_tables s1). done.
      * eapply closes_failing; [done|exact Ht1| |exact E]. intros j t' H. rewrite Hq in H. eapply ended_failed; eauto.
Qed.

Lemma ended_after src c dry t1 r x t t' : ended src c dry t1 r x t -> feed_alone t t' -> ended src c dry t1 r x t'.
Proof using.
  intros H Ha. destruct H as [e x u Hd|document o x u Hd|document e x u Hd|document o x u Hd|document o x u Hd ? ? ? ? (a & v & b & H1 & H2 & H3)].
  - apply ended_unfetched; eauto; by etrans.
  - eapply ended_skipped; eauto; by etrans.
  - eapply ended_failed; eauto; by etrans.
  - eapply ended_dry; eauto; by etrans.
  - eapply ended_applied; eauto. exists a, v, b. split; [done|]. split; [done|by etrans].
Qed.

Lemma reschedule_tracks src runID c x row s : Uuid.canon (sr_ID src) = Some c -> tracks runID c x row s ->
  forall b, let s' := snd ((if (b : bool) then _ ← attempt (F := Error) (ScheduleNext env (sr_ID src)); mret tt else mret tt) s : result Error unit * Store Tables) in
  tracks runID c x (if b then moved_on (ev_now env) row else row) s' /\ feed_alone (st_tables s) (st_tables s').
Proof using never_fails.
  intros Hc (Hx & Hr & Hrow) [|]; [|by split]. unfold ScheduleNext, with_uuid, attempt, mbind, eff_bind. rewrite Hc, run_answers by done. cbn.
  split; [|apply with_sources_alone]. split; [done|]. split; [done|]. etrans; [apply lookup_alter_eq|by rewrite Hrow].
Qed.

(** C13: Once a run of a feed is opened, and the database answers, it is closed
    however it ends: its row says what was fetched and how it ended, a document its source acted on
    last is not applied again, a failure is told as it is answered, and a source that is run on a schedule,
    and not dry, comes up again an interval later whether it failed or not. *)
Theorem feed_run_is_recorded src actor dry s c row runID s1 r s' : st_tx s = NoTx -> Whole (st_tables s) ->
  Uuid.canon (sr_ID src) = Some c -> t_sources (st_tables s) !! c = Some row ->
  StartRun env w (sr_ID src) (sr_TenantID src) actor dry s = (Ok runID, s1) ->
  run_source env w tx unmarshal ac fd src actor dry s = (r, s') ->
  exists x, t_runs (st_tables s') !! runID = Some x /\
    rn_Source x = c /\ rn_StartedAt x = ev_now env /\ rn_FinishedAt x = Some (ev_now env) /\ rn_Dry x = dry /\ rn_Actor x = actor /\
    ended src c dry (st_tables s1) r x (st_tables s') /\
    t_sources (st_tables s') !! c = Some (if Scheduled src && negb dry then moved_on (ev_now env) row else row).
Proof using never_fails ids_print reports_print skipped_prints.
  intros Hx Hw Hc Hrow Hs E. unfold run_source, mbind, eff_bind in E. rewrite Hs in E.
  destruct (StartRun_tracks _ _ _ _ _ _ _ _ Hc Hx Hrow Hs) as (tid & Hid & Ht & Ha). unfold deferred in E.
  destruct (carry_out _ _ _ _ _ _ _ _ _ _) as [q s2] eqn:Ec.
  eapply carry_out_closes in Ec as (status & digest & j & errMsg & Ht2 & He); [|done|done|by eapply feed_alone_whole|done].
  injection E as <- <-. destruct (reschedule_tracks src _ _ _ _ _ Hc Ht2 (Scheduled src && negb dry)) as [(_ & H1 & H2) H3].
  eexists. split; [exact H1|]. do 5 (split; [done|]). split; [|exact H2]. by eapply ended_after.
Qed.
End Answering.

End Feeds.
End CatalogFeeds.
