(* ===== verification/RoleSamples.v ===== *)
(** Two applications and their roles: samples of what the theorems on roles,
    catalogues and feeds say, and of what the code does that its comments do
    not. *)

From Stdlib Require Import ZArith Lia Bool Ascii String.
From stdpp Require Import base gmap strings list sorting relations.
From S2P Require Import Prelude.
From S2P Require Import GoStrings.
From S2P Require Import GoConv.
From S2P Require Import Shared.
From S2P Require Import AuthStore.
From S2P Require Import AdminGuard.
From S2P Require Import ScopeTree.
From S2P Require Import Db.
From S2P Require Import MemberStore.
From S2P Require Import MemberAdmin.
From S2P Require Import MemberSamples.
From S2P Require Import Catalog.
From S2P Require Import Roles.
From S2P Require Import RoleAdmin.
From S2P Require Import RoleProps.
From S2P Require Import CatalogProps.
From S2P Require Import CatalogTheorems.

Module RoleSamples.
Import Apperr Authctx Pg Db RoleGraph Roles RoleStore RoleAdmin RoleProps RoleKeeps RoleTheorems CatalogProps CatalogSync SourceProps CatalogTheorems CatalogFeeds.
Import MemberSamples (uuid, made, made_uuid, tenant, other, console_in, txt).

(** Each call makes one id, in turn. *)
Definition issued (k n : nat) : string := made (k / 16) (k mod 16).
Lemma issued_uuid k n : Uuid.canon (issued k n) = Some (issued k n).
Proof. apply made_uuid. Qed.
Definition db : Env := {| ev_fails _ := false; ev_now := 5000; ev_id := issued |}.
Definition world : World := {| wo_tenant t := bool_decide (t ∈ [tenant; other]); wo_interval _ := None; wo_jsonb s := Some s; wo_via _ := 0%nat |}.

Definition billing : string := uuid "b01".
Definition shop : string := uuid "b02".
Definition empty : Store Tables := {|
  st_tables := {| t_apps := <[billing := {| ap_Tenant := tenant; ap_Slug := "billing"; ap_Name := "Billing"; ap_Version := 0 |}]>
                             {[shop := {| ap_Tenant := other; ap_Slug := "shop"; ap_Name := "Shop"; ap_Version := 0 |}]};
                   t_perms := ∅; t_roles := ∅; t_parents := ∅; t_patterns := ∅; t_direct := ∅; t_effective := ∅; t_routes := ∅; t_sources := ∅; t_runs := ∅ |};
  st_log := []; st_tx := NoTx; st_calls := 0 |}%string.

Definition permission (resource action : string) : Catalog.Permission := {|
  Catalog.cp_Resource := resource; Catalog.cp_Action := action; Catalog.cp_Description := ""; Catalog.cp_Risk := ""; Catalog.cp_MinAssurance := 0;
  Catalog.cp_RequiresAMR := []; Catalog.cp_MaxAuthAge := ""; Catalog.cp_Module := "" |}.
Definition role (name : string) (permissions patterns : list string) : Catalog.Role := {|
  Catalog.cr_Name := name; Catalog.cr_Description := ""; Catalog.cr_Permissions := permissions; Catalog.cr_Patterns := patterns;
  Catalog.cr_AllowedRealmKinds := [] |}.
Definition route (priority : Z) (path permission : string) : Catalog.Route := {|
  Catalog.ct_Priority := priority; Catalog.ct_PathPattern := path; Catalog.ct_HostPattern := ""; Catalog.ct_Methods := [];
  Catalog.ct_Effect := "require_permission"; Catalog.ct_Permission := permission; Catalog.ct_ScopeBindings := None |}.

Definition documents : list (string * Catalog.Document) := [
  ("first", {| Catalog.Permissions := Some [permission "invoice" "read"; permission "invoice" "approve"];
               Catalog.Roles := Some [role "clerk" ["invoice:read"] []; role "all" [] ["billing:*"]];
               Catalog.Routes := Some [route 10 "/invoices/*" "invoice:read"] |});
  (* invoice:approve is gone, and there is one more *)
  ("second", {| Catalog.Permissions := Some [permission "invoice" "read"; permission "invoice" "void"]; Catalog.Roles := None; Catalog.Routes := None |});
  ("shop", {| Catalog.Permissions := Some [permission "item" "read"]; Catalog.Roles := Some [role "keeper" [] ["shop:*"]]; Catalog.Routes := None |});
  (* names what the same document takes away *)
  ("stale", {| Catalog.Permissions := Some [permission "invoice" "read"]; Catalog.Roles := Some [role "clerk" ["invoice:void"] []]; Catalog.Routes := None |});
  ("risky", {| Catalog.Permissions := Some [{| Catalog.cp_Resource := "invoice"; Catalog.cp_Action := "pay"; Catalog.cp_Description := "";
       Catalog.cp_Risk := "Critical"; Catalog.cp_MinAssurance := 0; Catalog.cp_RequiresAMR := []; Catalog.cp_MaxAuthAge := ""; Catalog.cp_Module := "" |}];
     Catalog.Roles := None; Catalog.Routes := None |});
  ("swallowed", {| Catalog.Permissions := None; Catalog.Roles := Some [role "clerk" ["manifest dry run rollback"] []]; Catalog.Routes := None |})]%string.
Definition unmarshal (s : string) : option Catalog.Document := snd <$> find (fun '(n, _) => bool_decide (n = s)) documents.

Definition fetched : Feed := {|
  fd_fetch src := if bool_decide (sr_Name src = "down"%string) then Err (Wrap ErrInternal "fetch") else Ok "second"%string;
  fd_digest d := d; fd_valid _ := true; fd_report _ _ := "{}"%string |}.

Definition asked (s : Store Tables) (r : string * Request) : Store Tables := serve db world txt unmarshal (console_in (fst r)) fetched (snd r) s.

Definition a_role (id name : string) : RoleRecord := {|
  RoleStore.rr_ID := id; RoleStore.rr_Name := name; RoleStore.rr_Description := ""; RoleStore.rr_ApplicationSlug := ""; RoleStore.rr_IsSystem := false;
  RoleStore.rr_AllowedRealmKinds := []; RoleStore.rr_AssignableAt := []; RoleStore.rr_Deprecated := false; RoleStore.rr_PermissionCount := 0 |}.
Definition a_feed (name : string) : SourceInput := {|
  in_ID := ""; in_ApplicationSlug := "billing"; in_Name := name; in_Kind := ""; in_Format := ""; in_Status := ""; in_ConfigJSON := "{}"; in_IntervalSeconds := 300 |}.

Definition first_half : list (string * Request) := [
  (tenant, RApplyManifest "billing" "first" "json" false);
  (other, RApplyManifest "shop" "shop" "json" false)]%string.
Definition clerk : string := issued 6 0.
Definition everything : string := issued 13 0.
Definition keeper : string := issued 30 0.
Definition set_up : list (string * Request) := first_half ++ [
  (tenant, RCreateRole (a_role "" "team") [clerk] ["*:void"]);
  (tenant, RCreateSource (a_feed "daily"));
  (tenant, RCreateSource (a_feed "down"))]%string.
Definition before : Store Tables := Eval vm_compute in foldl asked empty set_up.
Definition team : string := issued 41 0.
Definition daily : string := issued 51 0.
Definition down : string := issued 54 0.

(** ** The tables before *)
Definition with_nothing_else (apps : gmap string AppRow) (perms : gmap string PermRow) : Tables := {|
  t_apps := apps; t_perms := perms; t_roles := ∅; t_parents := ∅; t_patterns := ∅; t_direct := ∅; t_effective := ∅; t_routes := ∅; t_sources := ∅; t_runs := ∅ |}.
Lemma nothing_else_whole apps perms : apps_ok apps -> perms_ok apps perms -> Whole (with_nothing_else apps perms).
Proof.
  intros Ha Hp. split; [exact Ha|exact Hp|..]; cbn; unfold roles_ok, routes_ok, graph_ok, patterns_ok, direct_ok, effective_ok, prints, has, uniq;
    try (split; [|first [split; [|apply map_Forall_empty]|apply map_Forall_empty]]);
    intros *; rewrite ?lookup_empty; (set_solver || (by intros []) || done).
Qed.
Lemma nothing_else_flat apps perms r : flat_at (with_nothing_else apps perms) r.
Proof. split; intros p v; [done|]. intros [_ (row & _ & H)]. unfold named in H. cbn in H. rewrite orb_false_r in H. unbool. set_solver. Qed.

Lemma apps_whole : apps_ok (t_apps (st_tables empty)).
Proof.
  unfold empty, apps_ok, uniq, prints, has. cbn [st_tables t_apps]. split; [|split].
  - intros i j a b [[<- <-]|[Hi [<- <-]%lookup_singleton_Some]]%lookup_insert_Some [[<- <-]|[Hj [<- <-]%lookup_singleton_Some]]%lookup_insert_Some; done.
  - intros i [a [[<- _]|[_ [<- _]%lookup_singleton_Some]]%lookup_insert_Some]; vm_compute; done.
  - intros i a [[<- <-]|[_ [<- <-]%lookup_singleton_Some]]%lookup_insert_Some; cbn; lia.
Qed.
Lemma empty_whole_tables : Whole (st_tables empty).
Proof.
  apply (nothing_else_whole _ ∅ apps_whole). unfold perms_ok, uniq, prints, has. repeat split; try apply map_Forall_empty; intros *; cbn; rewrite ?lookup_empty; first [done|by intros []].
Qed.

Lemma asked_reached s0 (allowed : Request -> Prop) rs : (forall r, r ∈ rs -> allowed r.2) -> forall s, reached s0 allowed s -> reached s0 allowed (foldl asked s rs).
Proof.
  induction rs as [|r rs IH]; intros Ha s Hs; [done|]. apply IH; [intros; apply Ha; by right|].
  apply reached_next; [exact issued_uuid|apply Ha; by left|done].
Qed.
Lemma before_is : foldl asked empty set_up = before.
Proof. vm_cast_no_check (eq_refl before). Qed.
Lemma before_is_reached : reached empty (fun _ => True) before.
Proof. rewrite <- before_is. by apply asked_reached; [|constructor]. Qed.
Lemma before_tables_whole : Whole (st_tables before).
Proof. eapply catalogue_history_whole; [| |exact before_is_reached]; [done|exact empty_whole_tables]. Qed.

(** ** Applying a document *)
Definition admin_of (t : string) : applyActor := {| aa_TenantID := t; aa_IdentityID := "admin"; aa_SessionID := "s"; aa_Kind := "identity" |}.
Definition apply_in (t slug document : string) (dry : bool) (s : Store Tables) : result Error (Report * Z) * Store Tables :=
  applyCatalog db world txt unmarshal (console_in t) (admin_of t) slug document "json" dry s.
Definition answer_of {A} (d : A) (x : result Error A * Store Tables) : A := match fst x with Ok a => a | Err _ => d end.
Definition no_report : Report * Z := ({| rp_dry := false; rp_sections := []; rp_permissions := None; rp_roles := None; rp_routes := None |}, 0%Z).

Definition report_of_second : Report * Z := Eval vm_compute in answer_of no_report (apply_in tenant "billing" "second" false before).
Definition after_second : Store Tables := Eval vm_compute in snd (apply_in tenant "billing" "second" false before).
Lemma second_applies : apply_in tenant "billing" "second" false before = (Ok (fst report_of_second, snd report_of_second), after_second).
Proof. vm_cast_no_check (eq_refl (Ok (E := Error) report_of_second, after_second)). Qed.

Lemma manifest_is_applied_witness :
  snd report_of_second = 2%Z /\
  exists tid app a m, asked_for txt unmarshal (admin_of tenant) "billing" "second" "json" (st_tables before) tid app a m /\
    snd report_of_second = (ap_Version a + 1)%Z /\ brought world tid app "billing" (ap_Name a) (ap_Version a) m (st_tables before) (st_tables after_second).
Proof.
  split; [reflexivity|].
  exact (manifest_is_applied db world txt unmarshal (console_in tenant) issued_uuid (admin_of tenant) "billing" "second" "json" before
    _ _ _ eq_refl before_tables_whole second_applies).
Defined.

Lemma manifest_is_confined_witness :
  exists tid app a m, asked_for txt unmarshal (admin_of tenant) "billing" "second" "json" (st_tables before) tid app a m /\
    spared tid app "billing" (ap_Name a) (ap_Version a) m (st_tables before) (st_tables after_second).
Proof.
  exact (proj1 (manifest_is_confined db world txt unmarshal (console_in tenant) issued_uuid (admin_of tenant) "billing" "second" "json" false before
    _ _ eq_refl before_tables_whole second_applies)).
Defined.


(** A catalogue of one permission, and roles made of it by hand. *)
Definition read : string := uuid "a01".
Definition can_read : PermRow := {|
  pm_App := billing; pm_Tenant := tenant; pm_AppSlug := "billing"; pm_Resource := "invoice"; pm_Action := "read"; pm_Description := "";
  pm_Risk := "normal"; pm_MinAssurance := 1; pm_RequiresAmr := []; pm_MaxAuthAge := None; pm_Module := ""; pm_DeprecatedAt := None |}.
Definition by_hand : Store Tables := {| st_tables := with_nothing_else (t_apps (st_tables empty)) {[read := can_read]}; st_log := []; st_tx := NoTx; st_calls := 0 |}.
Definition reader : string := issued 1 0.
Definition helper : string := issued 10 0.
Definition hands_on : list (string * Request) := [
  (tenant, RCreateRole (a_role "" "reader") [] ["billing:*"]);
  (tenant, RCreateRole (a_role "" "helper") [reader] []);
  (tenant, RUpdateRole (a_role reader "reader") [] ["*:read"])]%string.
Definition handed : Store Tables := Eval vm_compute in foldl asked by_hand hands_on.
Lemma by_hand_whole : Whole (st_tables by_hand).
Proof.
  apply nothing_else_whole; [exact apps_whole|]. split; [|split; [|split]].
  - by intros i j a b [<- <-]%lookup_singleton_Some [<- <-]%lookup_singleton_Some.
  - by intros i j a b [<- <-]%lookup_singleton_Some [<- <-]%lookup_singleton_Some.
  - by intros i [a [<- _]%lookup_singleton_Some].
  - intros i p [<- <-]%lookup_singleton_Some. split; [by eexists; split|reflexivity].
Qed.
Lemma handed_reached : reached by_hand (fun r => applies r = false) handed.
Proof.
  assert (foldl asked by_hand hands_on = handed) as <- by (vm_cast_no_check (eq_refl handed)). apply asked_reached; [|constructor].
  apply list.Forall_forall. by repeat constructor.
Qed.
Lemma roles_stay_flat_witness :
  t_effective (st_tables handed) !! (helper, read) = Some reader /\
  (is_Some (t_effective (st_tables handed) !! (helper, read)) <-> exists v, via (st_tables handed) helper read v) /\
  forall v, t_effective (st_tables handed) !! (helper, read) = Some v -> via (st_tables handed) helper read v.
Proof.
  split; [vm_compute; reflexivity|].
  exact (roles_stay_flat by_hand handed eq_refl by_hand_whole (fun r => nothing_else_flat _ _ r) handed_reached helper read).
Defined.

(** The walk on roles that go round: a above b above c above a. *)
Definition looped : Tables := with_parents (st_tables before) {[(team, clerk); (clerk, everything); (everything, team)]}.
Definition recomputed_team : Tables * nat := Eval vm_compute in snd (role_recompute_effective world team (looped, 0)).
Lemma recompute_is_the_closure_witness : flat_at (fst recomputed_team) team.
Proof.
  refine (proj1 (proj2 (proj2 (recompute_is_the_closure world looped team)) 0 (fst recomputed_team) (snd recomputed_team) _)).
  vm_cast_no_check (eq_refl (Ok (E := PgError) tt, recomputed_team)).
Defined.

(** ** Feeds *)
Definition feed (id name : string) : Source := {|
  sr_ID := id; sr_TenantID := tenant; sr_ApplicationID := billing; sr_ApplicationSlug := "billing"; sr_Kind := "http"; sr_Format := "json";
  sr_Status := "active"; sr_Name := name; sr_Config := "{}"; sr_IntervalSeconds := 300; sr_LastRunAt := None; sr_NextRunAt := Some 5000%Z; sr_LastStatus := "" |}.
Lemma feeds_are : (fun x => sr_Name x) <$> due_sources (st_tables before) 5000 25 = ["daily"; "down"]%string /\
  due_sources (st_tables before) 5000 25 = [feed daily "daily"; feed down "down"].
Proof. vm_compute. done. Qed.

Definition run_feed (src : Source) (s : Store Tables) : result Error (option Run) * Store Tables :=
  run_source db world txt unmarshal (console_in tenant) fetched src "system" false s.
Definition after_daily : Store Tables := Eval vm_compute in snd (run_feed (feed daily "daily") before).
Definition ran_daily : option Run := Eval vm_compute in answer_of None (run_feed (feed daily "daily") before).
Lemma daily_runs :
  run_source db world txt unmarshal (console_in tenant) fetched (feed daily "daily") "system" false before = (Ok ran_daily, after_daily).
Proof. vm_cast_no_check (eq_refl (Ok (E := Error) ran_daily, after_daily)). Qed.

Lemma feed_run_is_an_apply_witness :
  pm_DeprecatedAt <$> t_perms (st_tables after_daily) !! issued 4 0 = Some (Some 5000%Z) /\ st_tx after_daily = NoTx /\ Whole (st_tables after_daily) /\
  (feed_alone (st_tables before) (st_tables after_daily) \/
   exists document, false = false /\ fd_fetch fetched (feed daily "daily") = Ok document /\
     fed world txt unmarshal (feed daily "daily") document (st_tables before) (st_tables after_daily)).
Proof.
  split; [vm_compute; reflexivity|].
  exact (feed_run_is_an_apply db world txt unmarshal (console_in tenant) fetched issued_uuid (feed daily "daily") "system" false before
    (Ok ran_daily) after_daily eq_refl before_tables_whole daily_runs).
Defined.

(** A feed that is down: its run says so, and it comes up again. *)
Definition down_row : SourceRow := {|
  so_Tenant := tenant; so_App := billing; so_Kind := "http"; so_Format := "json"; so_Status := "active"; so_Name := "down"; so_Config := "{}";
  so_Interval := 300; so_LastRunAt := None; so_NextRunAt := Some 5000%Z |}.
Definition after_down : Store Tables := Eval vm_compute in snd (run_feed (feed down "down") before).
Definition opened : string := issued 56 0.
Definition down_opened : Store Tables := Eval vm_compute in snd (StartRun db world down tenant "system" false before).
Lemma down_fails :
  run_source db world txt unmarshal (console_in tenant) fetched (feed down "down") "system" false before = (Err (Wrap ErrInternal "fetch"), after_down).
Proof. vm_cast_no_check (eq_refl (Err (A := option Run) (Wrap ErrInternal "fetch"), after_down)). Qed.
Lemma down_opens : StartRun db world down tenant "system" false before = (Ok opened, down_opened).
Proof. vm_cast_no_check (eq_refl (Ok (E := Error) opened, down_opened)). Qed.

Lemma feed_run_is_recorded_witness :
  exists x, t_runs (st_tables after_down) !! opened = Some x /\
    rn_Source x = down /\ rn_StartedAt x = 5000%Z /\ rn_FinishedAt x = Some 5000%Z /\ rn_Dry x = false /\ rn_Actor x = "system"%string /\
    ended world txt unmarshal fetched (feed down "down") down false (st_tables down_opened) (Err (Wrap ErrInternal "fetch")) x (st_tables after_down) /\
    t_sources (st_tables after_down) !! down = Some (moved_on 5000 down_row).
Proof.
  refine (feed_run_is_recorded db world txt unmarshal (console_in tenant) fetched issued_uuid (fun _ => eq_refl) (fun _ _ => ex_intro _ _ eq_refl)
    (ex_intro _ _ eq_refl) (feed down "down") "system" false before down down_row opened down_opened
    (Err (Wrap ErrInternal "fetch")) after_down eq_refl before_tables_whole (issued_uuid 54 0) _ down_opens down_fails).
  vm_cast_no_check (eq_refl (Some down_row)).
Defined.

(** ** What the code does *)
Definition handled {A} (m : Eff (Store Tables) Error A) (s : Store Tables) : result Error A * Tables := let '(r, s') := m s in (r, st_tables s').

(** An administrator of one tenant edits another tenant's role: the answer is
    that there is none, and by then its patterns are the ones asked for and it is
    stored with the editor's own permissions. *)
Example edits_elsewhere :
  let '(r, t) := handled (UpdateRole db world (console_in tenant) (a_role keeper "") [] ["*:*"]) before in
  r = Err ErrNotFound /\ (ro_Tenant <$> t_roles t !! keeper) = Some other /\ bool_decide ((keeper, "*:*") ∈ t_patterns t) = true /\
  bool_decide ((keeper, "shop:*") ∈ t_patterns t) = false /\ t_effective t !! (keeper, issued 4 0) = Some keeper.
Proof. by vm_compute. Qed.

(** A role the application's document owns: its row stays, its patterns do not. *)
Example edits_declared :
  let '(r, t) := handled (UpdateRole db world (console_in tenant) (a_role everything "") [] []) before in
  (match r with Ok x => RoleStore.rr_Name x | Err _ => "" end) = "billing.all" /\ t_roles t !! everything = t_roles (st_tables before) !! everything /\
  bool_decide ((everything, "billing:*") ∈ t_patterns t) = false /\ t_effective t !! (everything, issued 4 0) = None.
Proof. by vm_compute. Qed.

(** The second document takes invoice:approve away and brings invoice:void, which
    a role's pattern matches: what is stored of the role is as before. *)
Example effective_is_old :
  let t := st_tables after_second in
  (pm_DeprecatedAt <$> t_perms t !! issued 4 0) = Some (Some 5000%Z) /\ t_effective t !! (everything, issued 4 0) = Some everything /\
  (exists id p, t_perms t !! id = Some p /\ pm_Action p = "void" /\ matches "billing:*" (pm_key p) = true /\ t_effective t !! (everything, id) = None).
Proof. split; [vm_compute; reflexivity|]. split; [vm_compute; reflexivity|]. exists (issued 60 0). eexists. split; [vm_compute; reflexivity|]. by vm_compute. Qed.

(** A pattern matches any tenant's permissions. *)
Example matches_elsewhere :
  let '(r, t) := handled (CreateRole db world (console_in other) (a_role "" "reader") [] ["*:read"]) before in
  (match r with Ok x => t_effective t !! (RoleStore.rr_ID x, issued 3 0) = Some (RoleStore.rr_ID x) | Err _ => False end) /\
  (pm_Tenant <$> t_perms t !! issued 3 0) = Some tenant.
Proof. by vm_compute. Qed.

(** An application nobody has: a role made for it is the whole tenant's, and a
    document for it is the server's fault. *)
Definition for_app (slug : string) (r : RoleRecord) : RoleRecord := {|
  RoleStore.rr_ID := RoleStore.rr_ID r; RoleStore.rr_Name := RoleStore.rr_Name r; RoleStore.rr_Description := RoleStore.rr_Description r;
  RoleStore.rr_ApplicationSlug := slug; RoleStore.rr_IsSystem := RoleStore.rr_IsSystem r; RoleStore.rr_AllowedRealmKinds := RoleStore.rr_AllowedRealmKinds r;
  RoleStore.rr_AssignableAt := RoleStore.rr_AssignableAt r; RoleStore.rr_Deprecated := RoleStore.rr_Deprecated r;
  RoleStore.rr_PermissionCount := RoleStore.rr_PermissionCount r |}.
Example nobodys_application :
  (match fst (CreateRole db world (console_in tenant) (for_app "nosuch" (a_role "" "lone")) [] [] before) with
   | Ok x => RoleStore.rr_Name x = "lone" /\ RoleStore.rr_ApplicationSlug x = "" | Err _ => False end) /\
  (match fst (ApplyManifest db world txt unmarshal (console_in tenant) "nosuch" "second" "json" false before) with Ok _ => KindNotFound | Err e => EKind e end)
    = KindInternal.
Proof. by vm_compute. Qed.

(** A role may name what the same document takes away. *)
Example names_withdrawn :
  let '(r, s) := apply_in tenant "billing" "stale" false after_second in
  match r with
  | Ok _ => bool_decide ((clerk, issued 60 0) ∈ t_direct (st_tables s)) = true /\
            (pm_DeprecatedAt <$> t_perms (st_tables s) !! issued 60 0) = Some (Some 5000%Z)
  | Err _ => False
  end.
Proof. by vm_compute. Qed.

(** A dry run passes over an error that says what its own does; for good it is an
    error. *)
Example dry_run_passes :
  (match fst (apply_in tenant "billing" "swallowed" true before) with Ok x => rp_roles (fst x) = None | Err _ => False end) /\
  (match fst (apply_in tenant "billing" "swallowed" false before) with Ok _ => False | Err e => EKind e = KindInvalidArgument end).
Proof. by vm_compute. Qed.

(** A risk in capitals is valid, and the database refuses it. *)
Example risk_in_capitals :
  option_map (Catalog.Validate str_lower) (unmarshal "risky") = Some None /\
  (match fst (apply_in tenant "billing" "risky" false before) with Ok _ => False | Err e => e = MapErr (Raised (violated "23514" "permissions_risk_check")) end).
Proof. by vm_compute. Qed.

(** The feed's document is applied; an operator then applies another; the feed
    runs again and passes, the other's routes and roles and permissions being what
    is installed. *)
Example passes_over_another :
  let s1 := after_daily in
  let s2 := snd (apply_in tenant "billing" "first" false s1) in
  let '(r, s3) := run_source db world txt unmarshal (console_in tenant) fetched (feed daily "daily") "system" false s2 in
  (pm_DeprecatedAt <$> t_perms (st_tables s1) !! issued 4 0) = Some (Some 5000%Z) /\
  (pm_DeprecatedAt <$> t_perms (st_tables s3) !! issued 4 0) = Some None /\
  length (List.filter (fun '(_, x) => bool_decide (rn_Status x = "skipped")) (map_to_list (t_runs (st_tables s3)))) = 1%nat.
Proof. by vm_compute. Qed.

End RoleSamples.
